(* ===== verification/_CoqProject ===== *)
-Q . S2P
Prelude.v
Sql.v
Paths.v
Planner.v
Protocol.v
Validate.v
Wellformed.v
Planning.v
StateMachine.v
Apply.v
Spec.v
Coordination.v
Lifecycle.v
History.v
Readiness.v
Refine.v
Simulation.v
Safety.v
Verdict.v
Admission.v
Totality.v
Database.v
Consistency.v
Store.v
Operations.v
EventLog.v
Service.v
ClaimSafety.v
StoreSafety.v
Runtime.v
Goals.v
GoalSafety.v
Process.v
Environment.v
Verify.v
Integrate.v
Scheduler.v
Supervisor.v
Trust.v
SampleSystem.v
Footprint.v
Attention.v
Collision.v
Execution.v
Acceptance.v
ThreadData.v
MailboxSpec.v
ThreadTables.v
ThreadStore.v
ThreadState.v
ThreadMailbox.v
ThreadService.v
ThreadSafety.v
ThreadProgress.v
ThreadContext.v
ThreadCatalog.v
Concurrent.v
Auth.v
AuthSafety.v
AuthTime.v
RelayStore.v
RelaySafety.v
RelayGuarantees.v
BridgeState.v
Bridge.v
BridgeWorld.v
BridgeSafety.v
BridgeLicence.v
BridgeRestart.v
Router.v
RouterSafety.v
HookData.v
HookGate.v
HookRun.v
HookSystem.v
HookSafety.v
HookTurns.v
HookBudgets.v
