(* ===== verification/Prelude.v ===== *)
(** Verification of the board control plane of Ago.

    Ago turns a goal into a work graph and drives it to a verified result. This
    development models the code that decides: the planning contract, the board
    protocol (the state machine of the graph), the durable store around it, the
    claim of work and goal admission; the code that acts: the scheduler, the
    verification of evidence, the integration of accepted work, the project gate
    and the supervisor of a goal; the store of conversation threads with its
    mailboxes; the remote control: the passkey authority, the relay and the bridge of
    a daemon; the router of requests; and the Supervisor gate, which the hooks of a
    session run through.

    * How the parts interact

    [Runtime_Create] (Runtime.v) asks a planner for a plan, checks it with
    [Plan_Validate] (Planner.v), turns it into protocol commands and hands them
    to [CreateGraph] of the store (Store.v), which admits them in one transaction.
    From then on every change of a board is a command: the store reads the board
    in a transaction, runs [Apply] of the protocol (Apply.v) on it, and writes the
    new board, its events, the projection of its entities to rows and a receipt
    (Database.v). [Claim] (Store.v) chooses a task under the concurrency policy
    and issues the [lease.acquire] command itself; [ExpireDueLeases],
    [RenewLease] and [ExpireLease] (Store.v) do the same for the other lease
    commands. [EvaluateCompletion] (Validate.v) reads a board's verdict.

    The execution side runs in processes of its own. A cycle of the scheduler
    ([runCycle], Scheduler.v) claims work, hands it to an executor, lets the
    verifier judge what was submitted, has the integrator (Integrate.v)
    move accepted patches onto the board's ref, and runs the project gate
    (both in Verify.v); each step ends in a command to the store. A supervisor
    ([Supervisor_Step], Supervisor.v) runs such a cycle for its board and then
    repairs or raises what has stopped; a runner steps the supervisors of all
    boards. Both know the board only by what the store answers.

    The thread store is a second database, independent of the work graph. A thread
    is a row, a log of events and a queue of messages. Every operation is a
    transaction of its own: it validates a command, answers it from its receipt
    when there is one, changes the row and the queue, appends events to the log
    and stores the receipt ([mutateMailbox], [appendDrafts], ThreadStore.v).

    A browser reaches a daemon through a relay. It enqueues a request ([Enqueue],
    RelayStore.v); the bridge of the daemon polls the relay ([Poll]), keeps evidence
    of the request in a file before anything is executed ([handleLocked], Bridge.v;
    [FileCommit], BridgeState.v), resolves and executes the operation, commits its
    response and sends it with the next poll; the browser reads it ([Store_Result]).
    A mutation asks the passkey authority first: a challenge is issued, an assertion
    over it is turned into a grant, and the grant is consumed by one mutation
    ([IssueChallenge], [VerifyAssertion], [transport_authorize], Auth.v).

    The router ([PlanRoute], Router.v) is a function from a request to a plan. The
    Supervisor gate ([Run], HookRun.v) is called with one hook event at a time: it
    reads the state of the session from its file under a lock, answers whether a tool
    may be used, counts what was used, and writes the state back; [DeclareGate],
    [CloseGate] and [AckReroute] change the same file from the command line.

    * Code and model

    - Prelude.v: results with errors and panics, the do-notation, record update,
      Go's fixed-width integers, [fmt] errors, [strings] and [time], and lemmas.
    - Sql.v: what the stores share of SQLite: constraints, the binding of uint64
      arguments, transactions.
    - Paths.v: [path.Clean], [strings.Join] and path walks.
    - Planner.v, Planning.v: internal/agoplanner/planner.go and demo.go.
    - Protocol.v, Validate.v: internal/agoboardprotocol/protocol.go; a struct is a
      record with the same fields, a pointer an option, a slice a list, an
      enumeration its string type.
    - StateMachine.v, Apply.v: internal/agoboardprotocol/state_machine.go;
      one definition per helper, per operation of a plan patch and per case of the
      switch of [Apply], over the working copy [next] and the events emitted so far.
    - Database.v: the tables of internal/agoboardstore/migrations/*.sql with their
      constraints, and the statements of store.go; a table is a finite map from
      its primary key, a JSON column the value it encodes.
    - Store.v: store.go and claim.go of internal/agoboardstore; a transaction is a
      function from the database to a new one and a result, committed only when it
      succeeds. Service.v: its public operations as one type.
    - Runtime.v: internal/agoboardruntime/runtime.go.
    - Process.v: a process ([proc]) calls its environment and goes on with the
      answer; [go] adds Go's errors, [stateful] the fields of a receiver.
      Environment.v: the calls (store, clock, executor, judge, artifacts, checks,
      git) with the types of their answers.
    - Verify.v, Integrate.v, Scheduler.v: redact.go of internal/agoredact, verify.go
      of internal/agoverify, gate.go of internal/agogate, integrator.go of
      internal/agointegrate and scheduler.go of internal/agoscheduler, one process
      per function.
    - Supervisor.v: internal/agosupervisor/supervisor.go and runner.go.
    - SampleSystem.v: threads of schedulers, supervisors, runners and other clients,
      interleaved at every call, on one database; any call of the store may fail,
      or take effect and lose its answer, and any thread may stop for ever.
    - ThreadData.v: internal/agoprotocol/protocol.go; its Command, Event and
      SchemaVersion are [ThreadCommand], [ThreadEvent] and [thread_SchemaVersion].
    - ThreadData.v, ThreadTables.v, ThreadStore.v: store.go, mailbox.go,
      atomic_create.go, compaction.go, dialog.go and thread_catalog.go of
      internal/agothreadstore: the structs, the tables and statements, and one
      definition per operation in a transaction monad that threads the database
      and the random identifiers left to be drawn. CommandResult, Replay and
      Thread are [ThreadResult], [Thread_Replay] and [Store_Thread].
    - ThreadService.v: the operations as one type, [perform], and the databases
      they reach from an empty one.
    - Concurrent.v: any number of processes on one shared state, interleaved at every
      call; each call is one step on the state, a thread may stop for ever, and a log
      keeps what was called and answered. The parts below run in it.
    - Auth.v: agoauth.go and persistence.go of internal/agoauth, and the grants of
      internal/agodaemon/bridge.go. What a method does while it holds the mutex of
      the core is one call (a section); the credential file may fail before or after
      its rename, and a core may crash and be loaded again.
    - RelayStore.v: internal/agorelay/store.go and the envelopes of
      internal/agobridge/client.go.
    - BridgeState.v: the durable state in client.go and the file of
      localstore_unix.go: what is visible, what survives a loss of power, and faults.
      Bridge.v: the methods of client.go, one process each. BridgeWorld.v: bridges
      that share a file, over any relay that the hypotheses admit.
    - Router.v: internal/catalog/catalog.go and internal/router/router.go.
    - HookData.v: the state of a session (state.go), bash.go of
      internal/supervisorgate, and internal/fastpath/fastpath.go. HookGate.v: the
      classes of tools, the pressure on the context, overrides (gate.go,
      transcript.go). HookRun.v: the handlers, the operations and the transactions
      around them (gate.go, ops.go). HookSystem.v: any sequence of them ([performAll]).

    * What is proved

    - The work graph. Spec.v states the protocol as an abstract step relation on
      finite maps, without positions, versions and events; Refine.v and
      Simulation.v prove that [Apply] refines it. Coordination.v, Lifecycle.v,
      History.v and Readiness.v prove invariants of the reachable graphs by
      induction on the steps. Safety.v, Admission.v, Verdict.v and Totality.v read
      the theorems off for [Apply]:
      leases are exclusive, tokens fence, accepted work is backed by evidence,
      attempts are bounded, the audit trail never changes, a passed task stays
      passed, readiness is exact, [Apply] never panics.
    - Validation. Wellformed.v: [Board.Validate] accepts exactly
      the well-formed boards, in any order of the map iteration; Planning.v: the
      same for [Plan.Validate], and the exact domain of the demo planner.
    - The store. Consistency.v states the invariant of the tables;
      Operations.v and Service.v show that every public operation preserves it;
      EventLog.v and StoreSafety.v: a command takes effect exactly once and is
      one [Apply], the tables agree with the aggregates, the log is complete and
      append-only, a graph is admitted whole or not at all.
    - Claims. ClaimSafety.v: what a claim answers, that one claim
      dispatches at most once, and that a writer has its repository for itself.
    - Goals. Goals.v and GoalSafety.v: a valid plan is accepted as a whole, and a
      created goal is durable and recovered as it was.
    - Execution. The program logic of Process.v ([ensures], [always]) proves what
      every history of a process satisfies. Trust.v states what the scheduler
      relies on as interfaces ([Trusted]) and proves that the packages of the
      repository keep them; Footprint.v and Execution.v use it.
      Execution.v: work is executed at most once, across all threads.
      Acceptance.v: an acceptance or a gate pass that takes effect is about the
      state that was judged or checked, git touches only temporary worktrees and
      the refs of Ago, and the checks of a project run in such a worktree. Footprint.v: who issues which command.
    - Supervision. Attention.v: nothing that stopped is passed over in silence but
      on a conflict of identifiers, repairs stay within their budget, a goal is blocked exactly when only people
      can go on, and the supervisor waits only for scheduled retries.
    - Threads. MailboxSpec.v states a mailbox as an abstract machine: a phase, a
      queue and the notes of the log; every run keeps each message in one place.
      ThreadState.v relates the tables to it ([represents]), ThreadMailbox.v
      shows that each operation is one step of one thread's machine, and
      ThreadService.v that every reachable database consists of runs.
      ThreadSafety.v: messages are delivered at most once and never lost, logs
      only grow and are replayed as they are, an idle thread passes over its
      queue. ThreadProgress.v: a turn can be completed and the next message runs;
      a thread whose turn failed takes messages and delivers none. ThreadService.v has an interface ([Stable]) for
      relations that every statement keeps; with it ThreadProgress.v shows that a
      command is applied once, and ThreadContext.v that the context of a model
      leaves nothing out. ThreadCatalog.v: pages list the catalog exactly, as long
      as their cursors are short enough.
    - Remote control. AuthTime.v: every authorised mutation has a grant of its own,
      every grant an assertion over a challenge of its own, and both are used within
      their lifetimes. AuthSafety.v: sign counts increase across restarts, and the
      stores keep their bounds. RelaySafety.v
      states the relay as a queue per device that it refines; RelayGuarantees.v: a
      request is queued once under its nonce, its answer is final, only the latest
      credential is good, and a request for a project its daemon lacks halts the
      device. BridgeSafety.v is an invariant of bridges that share a file, for any
      relay; BridgeLicence.v: nothing is executed without evidence, publication and
      authorisation, or twice, every response that is reported is accounted for,
      and with the relay of the repository what a browser reads is one.
      BridgeRestart.v: whatever a crash leaves, a bridge starts again, if its limit
      of bodies has room for the failures it makes up.
    - Routing. RouterSafety.v: Workers are started only for admissible requests and
      within their bounds, an unavailable lane is never used or replaced (against
      the plan of the same request without reports), and a decision can be run.
    - The Supervisor gate, for every sequence of events and operations, any of whose
      reads and writes may fail. HookSafety.v: a required handoff is final, and a
      verified stop holds until the next prompt. HookTurns.v: a verified stop is
      earned in its turn, an override allows three uses at most, gates are accounted
      for, a pending re-route stays until it is acknowledged. HookBudgets.v: budgets
      hold up to the number of tools in use at once.
    - Behaviour that contradicts its documentation, as theorems:
      [Verdict.unavailable_gate_revives_verdict],
      [Admission.retry_skips_new_prerequisite], [StoreSafety.readded_edge_refused],
      [Collision.repair_lost_on_conflict], [Collision.gate_repair_lost_on_conflict],
      [ThreadProgress.failed_thread_is_dead],
      [ThreadSafety.idle_thread_passes_over_its_queue],
      [ThreadSafety.approval_outlives_its_dialogs], [ThreadCatalog.long_cursor_refused],
      [RelayGuarantees.foreign_project_halts_device], [RouterSafety.mandated_digest],
      [HookSystem.sample_fast_handoff], [HookSystem.sample_handoff_control],
      [HookTurns.fast_path_passes_reroute], [HookSystem.sample_override],
      [BridgeRestart.small_limit_refuses_restart].

    The theorems on concrete inputs use the board at the end of Simulation.v, the
    databases of Service.v, the driven runs of SampleSystem.v, the threads of
    ThreadService.v, and the samples that end Auth.v, RelayStore.v, BridgeWorld.v and
    HookSystem.v.

    * Bounds and fuel

    Integers have their width: uint64 versions and generations wrap at 2^64, int
    counters at 2^63, and the bind of a uint64 at or above 2^63 to SQLite fails.
    The recursion of the work graph with fuel is the depth-first search of the cycle check
    ([Acyclic.visit]); the fuel is the number of tasks plus one, the theorem
    [Safety.validateAcyclic_order_irrelevant] and [Totality.apply_total] show it
    is enough. The pass over the dependencies in [fixpoint] (Supervisor.v) has the
    number of dependencies plus one; [Attention.blocked_iff_waiting_on_people]
    shows it is enough. [Scheduler_Run] and [Runner_Run] take the number of ticks
    after which their context ends; their theorems hold for every number. So does
    the loop of a bridge ([Run], Bridge.v) with the number of its polls. Three scans of
    strings ([shellFieldsFrom] and [unwrapFrom] in HookData.v, [findURLs] in
    Router.v) have the length of their input as fuel; [shellFieldsFrom_fuel],
    [unwrapFrom_fuel] and [findURLs_fuel] show that more changes nothing. Everything
    else is structural.

    * Parameters

    The classes [PlannerEnv], [Env], [RuntimeEnv], [GoLib], [ThreadEnv], [AuthEnv],
    [RemoteEnv], [BridgeEnv], [RouterEnv] and [GateLib] hold what
    is not code of the repository: JSON encoding, SHA-256, the iteration order of
    maps, [fmt.Sprintf], regular expressions, the resolution of symbolic links,
    the text of times and cursors, base64url, URLs, the verifier of signatures and
    the products of floating-point numbers in the limits of a context. The random identifiers of the thread store are
    arguments of [perform]; its theorems ask that no identifier is drawn twice. The token a claim draws from the
    entropy source is an argument of [Claim], a planner is an argument of the
    runtime, and the collaborators of a scheduler are fields of its options.

    * Not modelled

    Commands (cmd/), HTTP and websocket services (also those of the relay and of the
    daemon, with the operations the daemon publishes through its bridge), the user
    interface, worktrees of executors, executors themselves,
    the MCP server and the tools of the older workflow: they perform I/O around
    the parts above or belong to other products of the repository. Schema
    migrations of older databases, and the opening of the SQLite files. Of the
    thread store: the git tables with their operations, the ledger of
    verifications and the projection for clients, which also append events to the
    log; the structured content of messages (message.go). Of the execution side:
    timeouts and tickers, the observers OnCycle and OnDecision,
    the model behind the judge (adapter.go), and the copying goroutine of the
    redactor. Of the remote control: TLS, the safe opening of files, and the
    arithmetic of signatures. Of the Supervisor gate: the sampling of transcripts,
    the contents of its capsules, and failures of its log of events. *)
From stdpp Require Export base gmap strings list pretty.
From Stdlib Require Export ZArith Lia.

#[export] Set Warnings "-clear-no-such-hyp,-register-all,-level-tolerance".

(** * Scopes and record update *)

Declare Scope go_scope.
Delimit Scope go_scope with go.

(** Go's [==] and [!=] on strings. *)
Notation "a == b" := (String.eqb a b) (at level 70, no associativity) : go_scope.
Notation "a != b" := (negb (String.eqb a b)) (at level 70, no associativity) : go_scope.
Global Open Scope go_scope.

(** A record type names its own eta expansion once; the setter of a field is
    then derived from the projection, so that a Go field assignment
    [x.Field = v] reads [x <| Field := v |>]. *)
Class Eta (R : Type) : Type := eta : R → R.
Class Setter {R E : Type} (proj : R → E) : Type := setf : (E → E) → R → R.
Arguments setf {R E} proj {_} _ _ /.

Ltac derive_setter :=
  lazymatch goal with
  | |- @Setter ?R ?E ?proj =>
      let e := constr:(_ : Eta R) in
      let e := eval hnf in e in
      exact (λ (f : E → E) (r : R),
        ltac:(let body := eval cbv beta in (e r) in
              lazymatch eval pattern (proj r) in body with
              | ?g _ => let b := eval cbv beta in (g (f (proj r))) in exact b
              end))
  end.
#[export] Hint Extern 0 (Setter _) => derive_setter : typeclass_instances.

#[warnings="-postfix-notation-not-level-1"]
Notation "x <| proj := v |>" := (setf proj (λ _, v) x)
  (at level 12, left associativity, format "x  <| proj  :=  v |>").

(** * Errors and results *)

(** An error value. [ErrNew] is a sentinel made by [errors.New]; [Errorf] keeps
    the format string of the [fmt.Errorf] call and its operands unrendered.
    An operand keeps its value; a time is its instant. One formatted with the verb [%w] is [AWrap]: [errors.Is] sees through
    it; one formatted with [%v] is [AVal] and is text only. *)
Inductive arg (E : Type) : Type :=
  | AStr (s : string)
  | AStrs (l : list string)
  | AInt (z : Z)
  | ATime (t : Z)
  | AWrap (e : E)
  | AVal (e : E).
Arguments AStr {E} _.
Arguments AStrs {E} _.
Arguments AInt {E} _.
Arguments ATime {E} _.
Arguments AWrap {E} _.
Arguments AVal {E} _.

Inductive error : Type :=
  | ErrNew (message : string)
  | Errorf (format : string) (args : list (arg error)).

(** [errors.Is err target] for a sentinel target. *)
Fixpoint errors_Is (err : error) (target : string) : bool :=
  match err with
  | ErrNew m => m == target
  | Errorf _ args =>
      existsb (λ a, match a with AWrap e => errors_Is e target | _ => false end) args
  end.

(** The outcome of a Go call that may return an error; [Panic] is a run-time
    panic (an index out of range, a nil dereference). *)
Inductive result (A : Type) : Type :=
  | Ok (a : A)
  | Err (e : error)
  | Panic.
Arguments Ok {A} _.
Arguments Err {A} _.
Arguments Panic {A}.

#[export] Instance result_ret : MRet result := @Ok.
#[export] Instance result_bind : MBind result := λ A B f m,
  match m with Ok a => f a | Err e => Err e | Panic => Panic end.

(** [if cond { return ..., err }] *)
Definition fail_if (cond : bool) (e : error) : result unit := if cond then Err e else Ok tt.
(** [if p == nil { return ..., err }], giving the pointee otherwise. *)
Definition non_nil {A} (p : option A) (e : error) : result A :=
  match p with Some a => Ok a | None => Err e end.
(** [if err := m; err != nil { return fmt.Errorf("...: %w", err) }] *)
Definition wrap_err {A} (f : error → error) (m : result A) : result A :=
  match m with Err e => Err (f e) | _ => m end.

Definition is_ok {A} (m : result A) : bool := match m with Ok _ => true | _ => false end.

(** [_, found := m[k]] *)
Definition is_Some_b {A} (o : option A) : bool := match o with Some _ => true | None => false end.

(** A [for] loop over a slice whose body may return. *)
Fixpoint for_each {A S} (f : S → A → result S) (s : S) (l : list A) : result S :=
  match l with
  | [] => Ok s
  | x :: l => s ← f s x; for_each f s l
  end.

(** Linear search by a string key: index, element and whether it was found; when
    it was not, index -1 and the zero value. *)
Fixpoint findFrom {A} (key : A → string) (k : string) (i : Z) (l : list A) : option (Z * A) :=
  match l with
  | [] => None
  | x :: l => if key x == k then Some (i, x) else findFrom key k (i + 1) l
  end.

Definition findBy {A} (zero : A) (key : A → string) (k : string) (l : list A) : Z * A * bool :=
  match findFrom key k 0 l with
  | Some (i, x) => (i, x, true)
  | None => ((-1)%Z, zero, false)
  end.

(** [l[i]] and an assignment through it: an index out of range panics. *)
Definition get_at {A} (i : Z) (l : list A) : result A :=
  if (i <? 0)%Z then Panic else
  match l !! Z.to_nat i with Some x => Ok x | None => Panic end.
Definition update_at {A} (i : Z) (f : A → A) (l : list A) : result (list A) :=
  if (i <? 0)%Z then Panic else
  match l !! Z.to_nat i with Some _ => Ok (alter f (Z.to_nat i) l) | None => Panic end.

(** A [switch] on a string with the cases in source order. *)
Fixpoint switch {B} (x : string) (cases : list (string * B)) (default : B) : B :=
  match cases with
  | [] => default
  | (c, b) :: cases => if x == c then b else switch x cases default
  end.

(** * Machine integers and time *)

(** Go's [uint64] and [int]/[int64] as integers with their wrap-around. *)
Definition two64 : Z := 18446744073709551616.
Definition u64 (z : Z) : Z := z mod two64.
Definition i64 (z : Z) : Z := (z + two64 / 2) mod two64 - two64 / 2.

(** A [time.Time] is its instant, in nanoseconds since the zero time (January 1
    of year 1, UTC); its location affects only rendering. A [time.Duration] is
    an [int64] number of nanoseconds. *)
Definition Time : Type := Z.
Definition Duration : Type := Z.
Definition Time_zero : Time := 0%Z.
Definition Time_IsZero (t : Time) : bool := (t =? 0)%Z.
Definition Time_Before (t u : Time) : bool := (t <? u)%Z.
Definition Time_After (t u : Time) : bool := (u <? t)%Z.
Definition Time_UTC (t : Time) : Time := t.
Definition Time_Add (t : Time) (d : Duration) : Time := (t + d)%Z.
Definition Second : Duration := 1000000000%Z.
(** The instant of the Unix epoch. *)
Definition unixEpoch : Time := 62135596800000000000%Z.
Definition Time_UnixNano (t : Time) : Z := i64 (t - unixEpoch).
Definition time_Unix0 (nsec : Z) : Time := (unixEpoch + nsec)%Z.

(** * Strings of the standard library *)

Definition strings_HasPrefix (s p : string) : bool := String.prefix p s.

Fixpoint strings_Contains (s sub : string) : bool :=
  String.prefix sub s ||
  match s with EmptyString => false | String _ s' => strings_Contains s' sub end.

Fixpoint strings_HasSuffix (s suf : string) : bool :=
  (s == suf) ||
  match s with EmptyString => false | String _ s' => strings_HasSuffix s' suf end.

(** The UTF-8 encodings of the runes [unicode.IsSpace] accepts. *)
Definition bytes (l : list nat) : list Ascii.ascii := Ascii.ascii_of_nat <$> l.
Definition spaceRunes : list (list Ascii.ascii) := bytes <$>
  [[9]; [10]; [11]; [12]; [13]; [32]; [194; 133]; [194; 160]; [225; 154; 128];
   [226; 128; 128]; [226; 128; 129]; [226; 128; 130]; [226; 128; 131]; [226; 128; 132];
   [226; 128; 133]; [226; 128; 134]; [226; 128; 135]; [226; 128; 136]; [226; 128; 137];
   [226; 128; 138]; [226; 128; 168]; [226; 128; 169]; [226; 128; 175]; [226; 129; 159];
   [227; 128; 128]].

Fixpoint strip_prefix (p l : list Ascii.ascii) : option (list Ascii.ascii) :=
  match p, l with
  | [], _ => Some l
  | a :: p, b :: l => if Ascii.eqb a b then strip_prefix p l else None
  | _ :: _, [] => None
  end.

Fixpoint first_strip (runes : list (list Ascii.ascii)) (l : list Ascii.ascii)
  : option (list Ascii.ascii) :=
  match runes with
  | [] => None
  | p :: runes =>
      match strip_prefix p l with Some l' => Some l' | None => first_strip runes l end
  end.

(** Each round removes at least one byte, so the length is enough fuel. *)
Fixpoint trim_left (fuel : nat) (runes : list (list Ascii.ascii)) (l : list Ascii.ascii)
  : list Ascii.ascii :=
  match fuel with
  | O => l
  | S fuel => match first_strip runes l with Some l' => trim_left fuel runes l' | None => l end
  end.

Definition strings_TrimSpace (s : string) : string :=
  let l := String.list_ascii_of_string s in
  let l := trim_left (length l) spaceRunes l in
  let l := reverse (trim_left (length l) (reverse <$> spaceRunes) (reverse l)) in
  String.string_of_list_ascii l.

(** * Automation *)

(** Lemmas the inversion and map tactics below rewrite with. *)
Create HintDb ago.
Create Rewrite HintDb ago_rw.

Lemma bind_Ok {A B} (m : result A) (f : A → result B) b :
  m ≫= f = Ok b ↔ ∃ a, m = Ok a ∧ f a = Ok b.
Proof. destruct m; cbn; naive_solver. Qed.

Lemma fail_if_Ok c e u : fail_if c e = Ok u ↔ c = false.
Proof. destruct c, u; cbn; naive_solver. Qed.

Lemma non_nil_Ok {A} (p : option A) e a : non_nil p e = Ok a ↔ p = Some a.
Proof. destruct p; cbn; naive_solver. Qed.

Lemma wrap_err_Ok {A} f (m : result A) a : wrap_err f m = Ok a ↔ m = Ok a.
Proof. destruct m; cbn; naive_solver. Qed.

Lemma for_each_Ok_unit {A} (f : A → result unit) l u :
  for_each (λ _ x, f x) tt l = Ok u ↔ Forall (λ x, f x = Ok tt) l.
Proof.
  destruct u. induction l as [|x l IH]; cbn; [by split|].
  rewrite bind_Ok, Forall_cons, <- IH.
  split; [intros ([] & ? & ?); auto | intros [? ?]; eauto].
Qed.

(** A loop that collects the keys it has seen and refuses a second one. *)
Lemma for_each_seen {A K} `{Countable K} (key : A → K) (P : A → Prop) (f : gset K → A → result (gset K))
    (seen : gset K) l seen' :
  (∀ s x s', f s x = Ok s' ↔ P x ∧ key x ∉ s ∧ s' = {[ key x ]} ∪ s) →
  for_each f seen l = Ok seen' ↔
    Forall P l ∧ NoDup (key <$> l) ∧ (∀ x, x ∈ l → key x ∉ seen) ∧ seen' = list_to_set (key <$> l) ∪ seen.
Proof.
  intros Hf. revert seen. induction l as [|x l IH]; intros seen; cbn [for_each fmap list_fmap].
  - split; [|intros (_ & _ & _ & ->); f_equal; set_solver].
    intros [= <-]. split_and!; [done|apply NoDup_nil_2|by intros ? ?%not_elem_of_nil|set_solver].
  - rewrite bind_Ok, Forall_cons, NoDup_cons. split.
    + intros (s & (Hx & Hs & ->)%Hf & (Hp & Hnd & Hfr & ->)%IH). split_and!; try done.
      * intros (y & E & Hy)%list_elem_of_fmap. apply (Hfr y Hy). set_solver.
      * intros y [->|Hy]%elem_of_cons; [done|]. specialize (Hfr y Hy). set_solver.
      * set_solver.
    + intros ((Hx & Hp) & (Hnx & Hnd) & Hfr & ->).
      exists ({[ key x ]} ∪ seen). split; [apply Hf; split_and!; [done|apply Hfr; by left|done]|].
      apply IH. split_and!; [done|done| |set_solver]. intros y Hy.
      assert (key y ≠ key x) by (intros E; apply Hnx; rewrite <- E; by apply list_elem_of_fmap_2).
      assert (key y ∉ seen) by (apply Hfr; by right). set_solver.
Qed.

Lemma switch_Ok {B} (P : string → B → Prop) x cases default :
  Forall (λ cb, x = cb.1 → P cb.1 cb.2) cases → P x default → P x (switch x cases default).
Proof.
  induction 1 as [|[c b] cases Hb _ IH]; cbn; [done|].
  intros Hd. destruct (String.eqb_spec x c) as [->|]; cbn in *; auto.
Qed.

(** Machine integers are themselves within their range. *)
Lemma i64_small z : (-9223372036854775808 ≤ z < 9223372036854775808)%Z → i64 z = z.
Proof.
  intros H. unfold i64. change (two64 / 2)%Z with 9223372036854775808%Z. unfold two64.
  rewrite Z.mod_small; lia.
Qed.

Lemma u64_small z : (0 ≤ z < two64)%Z → u64 z = z.
Proof. apply Z.mod_small. Qed.

Lemma bool_true_or_false (b c : bool) : (b = true → c = true) → (c = true → b = true) → b = c.
Proof. destruct b, c; naive_solver. Qed.

(** Invert every successful computation in the context down to its guards. *)
Ltac inv_pairs :=
  repeat match goal with
  | H : (_, _) = (_, _) |- _ => injection H as ?; subst
  | H : Ok _ = Ok _ |- _ => injection H as ?; subst
  | H : Some _ = Some _ |- _ => injection H as ?; subst
  end.

Ltac inv_bool :=
  repeat match goal with
  | H : _ || _ = false |- _ => apply orb_false_iff in H as [? ?]
  | H : _ && _ = true |- _ => apply andb_true_iff in H as [? ?]
  | H : negb _ = false |- _ => apply negb_false_iff in H
  | H : negb _ = true |- _ => apply negb_true_iff in H
  | H : String.eqb _ _ = true |- _ => apply String.eqb_eq in H
  | H : String.eqb _ _ = false |- _ => apply String.eqb_neq in H
  | H : (_ =? _)%Z = true |- _ => apply Z.eqb_eq in H
  | H : (_ =? _)%nat = true |- _ => apply Nat.eqb_eq in H
  | H : (_ =? _)%nat = false |- _ => apply Nat.eqb_neq in H
  | H : (_ <? _)%nat = true |- _ => apply Nat.ltb_lt in H
  | H : (_ <? _)%nat = false |- _ => apply Nat.ltb_ge in H
  | H : (_ <=? _)%nat = true |- _ => apply Nat.leb_le in H
  | H : (_ <=? _)%nat = false |- _ => apply Nat.leb_gt in H
  | H : (_ =? _)%Z = false |- _ => apply Z.eqb_neq in H
  | H : (_ <=? _)%Z = true |- _ => apply Z.leb_le in H
  | H : (_ <=? _)%Z = false |- _ => apply Z.leb_gt in H
  | H : (_ <? _)%Z = true |- _ => apply Z.ltb_lt in H
  | H : (_ <? _)%Z = false |- _ => apply Z.ltb_ge in H
  | H : ?b = true |- _ => is_var b; subst b
  | H : ?b = false |- _ => is_var b; subst b
  end.

Ltac inv_ok :=
  repeat (progress match goal with
  | H : _ ≫= _ = Ok _ |- _ => apply bind_Ok in H as (? & ? & H)
  | H : fail_if _ _ = Ok _ |- _ => apply fail_if_Ok in H
  | H : non_nil _ _ = Ok _ |- _ => apply non_nil_Ok in H
  | H : wrap_err _ _ = Ok _ |- _ => apply wrap_err_Ok in H
  | H : for_each (λ _ _, _) tt _ = Ok _ |- _ => apply for_each_Ok_unit in H
  | H : Err _ = Ok _ |- _ => discriminate H
  | H : Panic = Ok _ |- _ => discriminate H
  | H : match ?x with pair _ _ => _ end = Ok _ |- _ => destruct x eqn:?
  | x : unit |- _ => destruct x
  | _ => progress inv_pairs
  end); inv_bool.

(** A closed decidable proposition, by evaluation. *)
Ltac by_decide :=
  lazymatch goal with
  | |- ?P => let H := fresh in
      assert (bool_decide P = true) as H by (vm_compute; reflexivity);
      exact (bool_decide_eq_true_1 P H)
  end.

(** * Panics *)

Lemma bind_Panic {A B} (m : result A) (f : A → result B) :
  m ≫= f = Panic → m = Panic ∨ ∃ a, m = Ok a ∧ f a = Panic.
Proof. destruct m; cbn; intros H; [right; eauto|done|by left]. Qed.

Lemma fail_if_Panic c e : fail_if c e ≠ Panic.
Proof. by destruct c. Qed.

Lemma non_nil_Panic {A} (p : option A) e : non_nil p e ≠ Panic.
Proof. by destruct p. Qed.

Lemma wrap_err_Panic {A} f (m : result A) : wrap_err f m = Panic → m = Panic.
Proof. by destruct m. Qed.

Lemma for_each_Panic {A S} (f : S → A → result S) s l :
  for_each f s l = Panic → ∃ s' x, x ∈ l ∧ f s' x = Panic.
Proof.
  revert s. induction l as [|x l IH]; intros s H; cbn in H; [done|].
  apply bind_Panic in H as [H|(s' & _ & H)].
  - exists s, x. by split; [left|].
  - destruct (IH _ H) as (s'' & y & Hy & ?). exists s'', y. by split; [right|].
Qed.

(** Runs a panicking computation up to the call that panics. *)
Ltac inv_panic H :=
  repeat (cbn beta iota in H;
    lazymatch type of H with
    | _ ≫= _ = Panic => apply bind_Panic in H as [H|(? & ? & H)]
    | fail_if _ _ = Panic => by apply fail_if_Panic in H
    | non_nil _ _ = Panic => by apply non_nil_Panic in H
    | wrap_err _ _ = Panic => apply wrap_err_Panic in H
    | for_each _ _ _ = Panic => apply for_each_Panic in H as (? & ? & ? & H)
    | match ?x with pair _ _ => _ end = Panic => destruct x eqn:?
    | (if ?b then _ else _) = Panic => destruct b eqn:?
    | Ok _ = Panic => discriminate H
    | Err _ = Panic => discriminate H
    end).

(** * Keyed lists

    A slice of records with an id is viewed as the finite map from ids to their
    first occurrence, which is what the linear searches see. *)

Section keyed.
Context {A : Type} (key : A → string).

Definition by_key (l : list A) : gmap string A := list_to_map ((λ x, (key x, x)) <$> l).

(** Position [i] holds [x], the first element with key [k]. *)
Definition at_key (k : string) (l : list A) (i : Z) (x : A) : Prop :=
  (0 ≤ i)%Z ∧ l !! Z.to_nat i = Some x ∧ key x = k ∧
  ∀ m y, m < Z.to_nat i → l !! m = Some y → key y ≠ k.

Lemma by_key_cons x l : by_key (x :: l) = <[key x := x]> (by_key l).
Proof. done. Qed.

Lemma by_key_None k l : by_key l !! k = None ↔ Forall (λ x, key x ≠ k) l.
Proof.
  induction l as [|x l IH]; [by split|].
  rewrite by_key_cons, lookup_insert_None, IH, Forall_cons. naive_solver.
Qed.

Lemma by_key_Some k l x : by_key l !! k = Some x → x ∈ l ∧ key x = k.
Proof.
  induction l as [|y l IH]; [done|].
  rewrite by_key_cons, lookup_insert. case_decide; intros ?; simplify_eq.
  - split; [left|done].
  - destruct IH; [done|]. split; [by right|done].
Qed.

Lemma by_key_elem k l x : NoDup (key <$> l) → x ∈ l → key x = k → by_key l !! k = Some x.
Proof.
  intros Hnd Hx <-. induction l as [|y l IH]; [by apply not_elem_of_nil in Hx|].
  rewrite by_key_cons. cbn in Hnd. apply NoDup_cons in Hnd as [Hy Hnd].
  apply elem_of_cons in Hx as [->|Hx]; [by rewrite lookup_insert_eq|].
  rewrite lookup_insert_ne; [by apply IH|].
  intros Heq. apply Hy. rewrite Heq. by apply list_elem_of_fmap_2.
Qed.

Lemma by_key_app_fresh l x : by_key l !! key x = None → by_key (l ++ [x]) = <[key x := x]> (by_key l).
Proof.
  induction l as [|y l IH]; [done|]. cbn [app]. rewrite !by_key_cons.
  rewrite lookup_insert_None. intros [Hn Hne]. rewrite IH by done.
  by rewrite insert_insert_ne.
Qed.

Lemma by_key_map (g : A → A) l :
  (∀ x, key (g x) = key x) → by_key (g <$> l) = g <$> by_key l.
Proof.
  intros Hg. induction l as [|x l IH].
  - cbn. by rewrite fmap_empty.
  - rewrite fmap_cons, !by_key_cons, IH, Hg. by rewrite fmap_insert.
Qed.

Lemma at_key_lookup k l i x : at_key k l i x → by_key l !! k = Some x.
Proof.
  intros (_ & Hx & Hk & Hmin). revert Hx Hmin. generalize (Z.to_nat i) as n.
  induction l as [|y l IH]; intros n Hx Hmin; [done|].
  rewrite by_key_cons. destruct n as [|n]; cbn in Hx; simplify_eq.
  - by rewrite lookup_insert_eq.
  - rewrite lookup_insert_ne; [|by apply (Hmin 0 y); [lia|]].
    apply (IH n Hx). intros m z Hm Hz. apply (Hmin (S m) z); [lia|done].
Qed.

Lemma findFrom_Some k j l i x :
  findFrom key k j l = Some (i, x) → (j ≤ i)%Z ∧ at_key k l (i - j) x.
Proof.
  revert j. induction l as [|y l IH]; intros j; cbn; [done|].
  destruct (String.eqb_spec (key y) k) as [Hy|Hy]; intros H; simplify_eq.
  - split; [lia|]. rewrite Z.sub_diag. split_and!; try done. intros; lia.
  - apply IH in H as [Hle (H0 & Hx & Hk & Hmin)]. split; [lia|].
    split_and!; [lia| |done|].
    + replace (Z.to_nat (i - j)) with (S (Z.to_nat (i - (j + 1)))) by lia. done.
    + intros [|m] z Hm Hz; cbn in Hz; simplify_eq; [done|].
      apply (Hmin m z); [lia|done].
Qed.

Lemma findFrom_None k j l : findFrom key k j l = None ↔ Forall (λ x, key x ≠ k) l.
Proof.
  revert j. induction l as [|y l IH]; intros j; cbn; [by split|].
  rewrite Forall_cons. destruct (String.eqb_spec (key y) k) as [Hy|Hy]; [naive_solver|].
  rewrite IH. naive_solver.
Qed.

Lemma findBy_found zero k l i x : findBy zero key k l = (i, x, true) → at_key k l i x.
Proof.
  unfold findBy. destruct (findFrom _ _ _ _) as [[j y]|] eqn:E; intros ?; simplify_eq.
  apply findFrom_Some in E as [_ E]. by rewrite Z.sub_0_r in E.
Qed.

Lemma findBy_missing zero k l i x :
  findBy zero key k l = (i, x, false) → by_key l !! k = None ∧ i = (-1)%Z ∧ x = zero.
Proof.
  unfold findBy. destruct (findFrom _ _ _ _) as [[j y]|] eqn:E; intros ?; simplify_eq.
  split_and!; try done. apply by_key_None. by eapply findFrom_None.
Qed.

Lemma findBy_lookup zero k l :
  let '(_, x, found) := findBy zero key k l in
  (found = true ∧ by_key l !! k = Some x) ∨ (found = false ∧ x = zero ∧ by_key l !! k = None).
Proof.
  destruct (findBy zero key k l) as [[i x] []] eqn:E.
  - left. split; [done|]. by eapply at_key_lookup, findBy_found.
  - right. by apply findBy_missing in E as (? & _ & ?).
Qed.

Lemma at_key_get k l i x : at_key k l i x → get_at i l = Ok x.
Proof.
  intros (Hi & Hx & _). unfold get_at. destruct (Z.ltb_spec i 0); [lia|]. by rewrite Hx.
Qed.

Lemma alter_at_key k f l i x :
  at_key k l i x → key (f x) = k →
  at_key k (alter f (Z.to_nat i) l) i (f x) ∧
  by_key (alter f (Z.to_nat i) l) = <[k := f x]> (by_key l) ∧
  key <$> alter f (Z.to_nat i) l = key <$> l.
Proof.
  intros (Hi & Hx & Hk & Hmin) Hf. split_and!.
  - split_and!; [done| |done|].
    + by rewrite list_lookup_alter_eq, Hx.
    + intros m y Hm. rewrite list_lookup_alter_ne by lia. by apply Hmin.
  - revert Hx Hmin. generalize (Z.to_nat i) as n. clear i Hi.
    induction l as [|y l IH]; intros n Hx Hmin; [done|].
    destruct n as [|n]; cbn in Hx; simplify_eq.
    + change (alter f 0 (x :: l)) with (f x :: l).
      rewrite !by_key_cons, Hf. by rewrite insert_insert_eq.
    + change (alter f (S n) (y :: l)) with (y :: alter f n l).
      rewrite !by_key_cons. rewrite insert_insert_ne; [|by apply not_eq_sym, (Hmin 0 y); [lia|]].
      f_equal. apply (IH n Hx). intros m z Hm Hz. apply (Hmin (S m) z); [lia|done].
  - clear Hmin. revert Hx. generalize (Z.to_nat i) as n. clear i Hi.
    induction l as [|y l IH]; intros [|n] Hx; cbn in *; simplify_eq; try done.
    + by rewrite Hf.
    + f_equal. by apply IH.
Qed.

Lemma at_key_unique k l i x j y : at_key k l i x → at_key k l j y → i = j ∧ x = y.
Proof.
  intros (Hi & Hx & Hkx & Hmx) (Hj & Hy & Hky & Hmy).
  destruct (Z.lt_trichotomy i j) as [Hlt|[->|Hlt]].
  - destruct (Hmy (Z.to_nat i) x); [lia|done|done].
  - split; [done|]. congruence.
  - destruct (Hmx (Z.to_nat j) y); [lia|done|done].
Qed.

Lemma findFrom_at_key k l n x j :
  l !! n = Some x → key x = k → (∀ m y, m < n → l !! m = Some y → key y ≠ k) →
  findFrom key k j l = Some ((j + Z.of_nat n)%Z, x).
Proof.
  revert n j. induction l as [|y l IH]; intros n j Hx Hk Hmin; [done|]. cbn.
  destruct n as [|n]; cbn in Hx; simplify_eq.
  - by rewrite String.eqb_refl, Z.add_0_r.
  - destruct (String.eqb_spec (key y) (key x)) as [E|_]; [by destruct (Hmin 0 y); [lia|..]|].
    rewrite (IH n) by (done || (intros m z Hm Hz; apply (Hmin (S m) z); [lia|done])).
    do 2 f_equal. lia.
Qed.

Lemma findBy_at_key zero k l i x : at_key k l i x → findBy zero key k l = (i, x, true).
Proof.
  intros (Hi & Hx & Hk & Hmin). unfold findBy.
  rewrite (findFrom_at_key k l (Z.to_nat i) x 0) by done. do 3 f_equal. lia.
Qed.

Lemma findBy_at_key_inv zero k l i x j y f :
  findBy zero key k l = (j, y, f) → at_key k l i x → j = i ∧ y = x ∧ f = true.
Proof. intros Hf Hat. rewrite (findBy_at_key _ _ _ _ _ Hat) in Hf. by injection Hf as <- <- <-. Qed.

Lemma update_at_Ok k f l i x :
  at_key k l i x → update_at i f l = Ok (alter f (Z.to_nat i) l).
Proof.
  intros (Hi & Hx & _). unfold update_at. destruct (Z.ltb_spec i 0); [lia|]. by rewrite Hx.
Qed.

Lemma at_key_last l x :
  by_key l !! key x = None → at_key (key x) (l ++ [x]) (Z.of_nat (length (l ++ [x])) - 1) x.
Proof.
  rewrite length_app, by_key_None. cbn. intros Hfresh. split_and!; [lia| |done|].
  - rewrite lookup_app_r by lia.
    by replace (Z.to_nat (Z.of_nat (length l + 1) - 1) - length l) with 0 by lia.
  - intros m y Hm Hy. rewrite lookup_app_l in Hy by lia.
    rewrite Forall_forall in Hfresh. apply Hfresh. by eapply list_elem_of_lookup_2.
Qed.

Lemma at_key_app k l l' i x : at_key k l i x → at_key k (l ++ l') i x.
Proof.
  intros (Hi & Hx & Hk & Hmin). pose proof (lookup_lt_Some _ _ _ Hx).
  split_and!; [done| |done|].
  - by apply lookup_app_l_Some.
  - intros m y Hm. rewrite lookup_app_l by lia. by apply Hmin.
Qed.
End keyed.

Arguments by_key : simpl never.
Arguments at_key : simpl never.
