(* ===== verification/Sql.v ===== *)
(** What the two stores of the repository share of SQLite and database/sql: the
    failure of a constraint, the binding of arguments, the order of text, and
    transactions that leave the database as it was when their body fails. *)
From stdpp Require Import sorting.
From S2P Require Import Prelude.

(** * Constraints and arguments *)

Definition constraintFailed (constraint : string) : error :=
  Errorf "constraint failed: %s" [AStr constraint].

Definition checkConstraint (ok : bool) (constraint : string) : result unit :=
  fail_if (negb ok) (constraintFailed constraint).

(** Binding a uint64 argument: database/sql refuses values with the high bit set. *)
Definition bindUint64 (z : Z) : result unit :=
  fail_if (two64 / 2 <=? z)%Z (Errorf "uint64 values with high bit set are not supported" []).

Definition boolToInt (value : bool) : Z := if value then 1%Z else 0%Z.

(** Ordering by a text column, byte by byte. *)
Definition byteOrder (s t : string) : Prop := String.leb s t = true.
#[export] Instance byteOrder_dec : RelDecision byteOrder := λ s t, decide (String.leb s t = true).
(** * Transactions *)

(** A transaction body over a database of type [D]: the database it leaves and
    what it returns. *)
Definition Tx (D A : Type) : Type := D → result (D * A).

(** [BeginTx], [defer tx.Rollback()], the body, and [tx.Commit()] on success: an
    error leaves the database as it was. *)
Definition transact {D A} (body : Tx D A) (db : D) : D * result A :=
  match body db with
  | Ok (db', a) => (db', Ok a)
  | Err e => (db, Err e)
  | Panic => (db, Panic)
  end.

(** A body that returns without committing is rolled back. *)
Definition uncommitted {D A} (db : D) (a : A) : result (D * A) := Ok (db, a).

Lemma checkConstraint_Ok ok e u : checkConstraint ok e = Ok u ↔ ok = true.
Proof. unfold checkConstraint. rewrite fail_if_Ok. by destruct ok. Qed.
Lemma bindUint64_Ok z u : bindUint64 z = Ok u ↔ (z < 9223372036854775808)%Z.
Proof. unfold bindUint64. rewrite fail_if_Ok, Z.leb_gt. done. Qed.
Lemma bindUint64_small v : (v < 9223372036854775808)%Z → bindUint64 v = Ok tt.
Proof.
  intros H. unfold bindUint64. change (two64 / 2)%Z with 9223372036854775808%Z. by rewrite (proj2 (Z.leb_gt _ _)) by lia.
Qed.
