(* ===== verification/Paths.v ===== *)
(** Slash-separated paths: their components, the walk they describe, and
    [path.Clean] and [strings.Join] of the Go library. *)
From Stdlib Require Import Ascii.
From S2P Require Import Prelude.

(** * Paths *)

Definition slash : Ascii.ascii := "/"%char.

(** The components of a path, between slashes. *)
Fixpoint components (path : string) : list string :=
  match path with
  | EmptyString => [""]
  | String c rest =>
      if Ascii.eqb c slash then "" :: components rest
      else match components rest with x :: xs => String c x :: xs | [] => [] end
  end.

(** Walking a path from a directory, given by the names that lead to it. *)
Definition walk (dir : list string) (path : string) : list string :=
  foldl (λ dir name,
      if (name == "") || (name == ".") then dir
      else if name == ".." then removelast dir else dir ++ [name])
    dir (components path).

Fixpoint has_char (c : Ascii.ascii) (s : string) : bool :=
  match s with EmptyString => false | String d s => Ascii.eqb d c || has_char c s end.

Lemma components_cons path : ∃ x xs, components path = x :: xs.
Proof.
  induction path as [|c path (x & xs & IH)]; cbn; [eauto|]. rewrite IH. destruct (Ascii.eqb _ _); eauto.
Qed.

Lemma contains_char c s : strings_Contains s (String c "") = has_char c s.
Proof.
  induction s as [|d s IH]; [done|]. cbn [has_char]. rewrite <- IH.
  change (strings_Contains (String d s) (String c ""))
    with (String.prefix (String c "") (String d s) || strings_Contains s (String c "")).
  f_equal. cbn. destruct (Ascii.ascii_dec c d) as [->|Hne].
  - rewrite Ascii.eqb_refl. by destruct s.
  - by rewrite (proj2 (Ascii.eqb_neq d c)) by congruence.
Qed.

Lemma components_slash c path :
  components (String c path) =
    if Ascii.eqb c slash then "" :: components path
    else match components path with x :: xs => String c x :: xs | [] => [] end.
Proof. done. Qed.

Lemma prefix_nil s : String.prefix "" s = true.
Proof. by destruct s. Qed.

Lemma prefix_cons a s b t : String.prefix (String a s) (String b t) = Ascii.eqb a b && String.prefix s t.
Proof.
  cbn. destruct (Ascii.ascii_dec a b) as [->|Hne]; [by rewrite Ascii.eqb_refl|].
  by rewrite (proj2 (Ascii.eqb_neq a b)).
Qed.

(** The first component of a path, and the others. *)
Lemma first_component w path :
  has_char slash w = false →
  head (components path) = Some w ↔ path = w ∨ strings_HasPrefix path (w +:+ "/") = true.
Proof.
  revert path. unfold strings_HasPrefix. induction w as [|d w IH]; intros path Hw.
  - destruct path as [|c path]; [cbn; naive_solver|]. rewrite components_slash.
    destruct (components_cons path) as (x & xs & ->).
    change ("" +:+ "/") with (String slash ""). rewrite prefix_cons, prefix_nil, andb_true_r.
    rewrite Ascii.eqb_sym. destruct (Ascii.eqb slash c); cbn; naive_solver.
  - cbn in Hw. apply orb_false_iff in Hw as [Hd Hw].
    destruct path as [|c path]; [split; [done|by intros [?|?]]|].
    change (String d w +:+ "/") with (String d (w +:+ "/")).
    rewrite components_slash, prefix_cons. specialize (IH path Hw).
    destruct (components_cons path) as (x & xs & E). rewrite E in *. cbn [head] in IH.
    destruct (Ascii.eqb_spec c slash) as [->|Hc]; cbn [head].
    + rewrite Hd. split; [done|]. intros [[= <- ->]|?]; [by rewrite Ascii.eqb_refl in Hd|done].
    + destruct (Ascii.eqb_spec d c) as [->|]; cbn [andb]; [|naive_solver].
      naive_solver.
Qed.

Lemma later_components path :
  ".." ∈ tail (components path) ↔
  strings_Contains path "/../" = true ∨ strings_HasSuffix path "/.." = true.
Proof.
  induction path as [|c path IH].
  - cbn. split; [by intros ?%not_elem_of_nil|naive_solver].
  - pose proof (first_component ".." path eq_refl) as Hfirst. rewrite components_slash.
    destruct (components_cons path) as (x & xs & E). rewrite E in *. cbn [head tail] in *.
    change (strings_Contains (String c path) "/../")
      with (String.prefix "/../" (String c path) || strings_Contains path "/../").
    change (strings_HasSuffix (String c path) "/..")
      with ((String c path == "/..") || strings_HasSuffix path "/..").
    rewrite !orb_true_iff, String.eqb_eq.
    destruct (Ascii.eqb_spec c slash) as [->|Hc].
    + cbn [tail]. rewrite elem_of_cons, IH.
      unfold slash. rewrite prefix_cons. change (String.prefix "../" path) with (strings_HasPrefix path "../").
      change (Ascii.eqb "/" "/") with true. cbn [andb].
      assert (".." = x ↔ path = ".." ∨ strings_HasPrefix path "../" = true) as -> by naive_solver.
      unfold slash. naive_solver.
    + cbn [tail]. rewrite IH, prefix_cons. rewrite (proj2 (Ascii.eqb_neq "/" c)) by (unfold slash in *; congruence).
      unfold slash in *. naive_solver.
Qed.

Lemma components_elem name path :
  name ∈ components path ↔ head (components path) = Some name ∨ name ∈ tail (components path).
Proof.
  destruct (components_cons path) as (x & xs & ->). rewrite elem_of_cons. cbn. naive_solver.
Qed.

(** Without [..] a walk only goes down. *)
Lemma walk_down path dir :
  ".." ∉ components path → ∃ names, walk dir path = dir ++ names.
Proof.
  unfold walk. generalize (components path). intros l. revert dir.
  induction l as [|x l IH]; intros dir Hl; [exists []; by rewrite app_nil_r|]. cbn.
  apply not_elem_of_cons in Hl as [Hx Hl]. destruct (_ || _); [by apply IH|].
  rewrite (proj2 (String.eqb_neq x "..")) by congruence.
  destruct (IH (dir ++ [x]) Hl) as [names ->]. exists (x :: names). by rewrite <- app_assoc.
Qed.

(** * Cleaning *)

Fixpoint strings_Join (elems : list string) (sep : string) : string :=
  match elems with
  | [] => ""
  | [x] => x
  | x :: elems => x +:+ sep +:+ strings_Join elems sep
  end.

(** One component processed by [path.Clean]; the components kept so far, last
    first. *)
Definition cleanStep (rooted : bool) (kept : list string) (name : string) : list string :=
  if (name == "") || (name == ".") then kept else
  if name == ".." then
    match kept with
    | [] => if rooted then [] else [".."]
    | last :: rest => if last == ".." then ".." :: kept else rest
    end
  else name :: kept.

Definition path_Clean (path : string) : string :=
  let rooted := strings_HasPrefix path "/" in
  let kept := reverse (foldl (cleanStep rooted) [] (components path)) in
  let body := strings_Join kept "/" in
  if rooted then "/" +:+ body else if body == "" then "." else body.

(** A name that is a component of a clean relative path. *)
Definition proper (name : string) : Prop := name ≠ "" ∧ name ≠ "." ∧ name ≠ "..".

Lemma components_app_slash x path :
  has_char slash x = false → components (x +:+ String slash path) = x :: components path.
Proof.
  induction x as [|c x IH]; intros Hx; [done|].
  cbn in Hx. apply orb_false_iff in Hx as [Hc Hx].
  change (String c x +:+ String slash path) with (String c (x +:+ String slash path)).
  by rewrite components_slash, Hc, (IH Hx).
Qed.

Lemma components_no_slash x : has_char slash x = false → components x = [x].
Proof.
  induction x as [|c x IH]; intros Hx; [done|].
  cbn in Hx. apply orb_false_iff in Hx as [Hc Hx]. by rewrite components_slash, Hc, (IH Hx).
Qed.

Lemma components_names path : Forall (λ x, has_char slash x = false) (components path).
Proof.
  induction path as [|c path IH]; [by repeat constructor|]. rewrite components_slash.
  destruct (Ascii.eqb c slash) eqn:Hc; [by constructor|].
  destruct (components_cons path) as (x & xs & E). rewrite E in *.
  inversion IH as [|? ? Hx Hxs]; subst. constructor; [|done]. cbn. by rewrite Hc.
Qed.

Lemma join_components path : strings_Join (components path) "/" = path.
Proof.
  induction path as [|c path IH]; [done|]. rewrite components_slash.
  destruct (components_cons path) as (x & xs & E). rewrite E in *.
  destruct (Ascii.eqb_spec c slash) as [->|Hc].
  - change (strings_Join ("" :: x :: xs) "/") with ("/" +:+ strings_Join (x :: xs) "/"). by rewrite IH.
  - transitivity (String c (strings_Join (x :: xs) "/")); [by destruct xs|by rewrite IH].
Qed.

Lemma components_join (l : list string) :
  l ≠ [] → Forall (λ x, has_char slash x = false) l → components (strings_Join l "/") = l.
Proof.
  induction l as [|x l IH]; intros Hne Hl; [done|]. inversion Hl as [|? ? Hx Hl']; subst.
  destruct l as [|y l]; [by apply components_no_slash|].
  change (strings_Join (x :: y :: l) "/") with (x +:+ String slash (strings_Join (y :: l) "/")).
  by rewrite components_app_slash, IH.
Qed.

Lemma clean_proper rooted l kept : Forall proper l → foldl (cleanStep rooted) kept l = reverse l ++ kept.
Proof.
  intros Hl. revert kept. induction Hl as [|x l (H1 & H2 & H3) _ IH]; intros kept; [done|].
  cbn [foldl]. rewrite IH. rewrite reverse_cons, <- app_assoc. cbn [app]. do 2 f_equal. unfold cleanStep.
  by rewrite (proj2 (String.eqb_neq x "")), (proj2 (String.eqb_neq x ".")), (proj2 (String.eqb_neq x "..")).
Qed.

(** Cleaning a relative path leaves [..] components, then proper ones. *)
Definition cleaned (kept : list string) : Prop :=
  ∃ n names, kept = names ++ replicate n ".." ∧ Forall proper names ∧
    Forall (λ x, has_char slash x = false) kept.

Lemma cleanStep_cleaned kept x :
  cleaned kept → has_char slash x = false → cleaned (cleanStep false kept x).
Proof.
  intros (n & names & -> & Hp & Hs) Hx. unfold cleanStep.
  destruct (String.eqb_spec x ""), (String.eqb_spec x "."); cbn; try by exists n, names.
  destruct (String.eqb_spec x "..") as [->|].
  - destruct names as [|y names]; cbn in *.
    + destruct n as [|n]; cbn in *; [by exists 1, []; repeat constructor|].
      exists (S (S n)), []. split_and!; [done|done|]. by constructor.
    + inversion Hp as [|? ? (? & ? & Hy) Hp']; subst. rewrite (proj2 (String.eqb_neq y "..")) by done.
      exists n, names. split_and!; [done|done|by inversion Hs].
  - exists n, (x :: names). split_and!; [done|by constructor|by constructor].
Qed.

Lemma clean_cleaned l kept :
  cleaned kept → Forall (λ x, has_char slash x = false) l → cleaned (foldl (cleanStep false) kept l).
Proof.
  intros Hk Hl. revert kept Hk. induction Hl as [|x l Hx _ IH]; intros kept Hk; [done|].
  by apply IH, cleanStep_cleaned.
Qed.

(** The relative paths [path.Clean] keeps as they are, other than [.] and those
    above the directory, are the sequences of proper names. *)
Lemma clean_relative path :
  path ≠ "" → head (components path) ≠ Some "" → path ≠ "." → head (components path) ≠ Some ".." →
  (path_Clean path = path ↔ Forall proper (components path)).
Proof.
  intros Hne Hrel Hdot Hup.
  assert (strings_HasPrefix path "/" = false) as Hr.
  { apply not_true_iff_false. intros E. apply Hrel, first_component; [done|by right]. }
  unfold path_Clean. rewrite Hr. split.
  - destruct (clean_cleaned (components path) [] ) as (n & names & E & Hp & Hs).
    { by exists 0, []. } { apply components_names. }
    rewrite E in *. destruct (String.eqb_spec (strings_Join (reverse (names ++ replicate n "..")) "/") "");
      [naive_solver|]. intros Heq.
    assert (reverse (names ++ replicate n "..") ≠ []) as Hnn by (intros H0; by rewrite H0 in n0).
    rewrite <- Heq in Hup |- *.
    rewrite components_join in Hup |- * by (done || by rewrite Forall_reverse).
    rewrite reverse_app, reverse_replicate in Hup |- *.
    destruct n as [|n]; [|done]. cbn. by rewrite Forall_reverse.
  - intros Hp. rewrite clean_proper, app_nil_r, reverse_involutive, join_components by done.
    by rewrite (proj2 (String.eqb_neq path "")).
Qed.
