(* ===== verification/Planner.v ===== *)
(** The planning contract of internal/agoplanner (planner.go, demo.go): requests,
    plans, the validation of a plan against its request, and the planners of the
    package. *)
From S2P Require Import Prelude Paths.

(** * Data *)

Definition planner_SchemaVersion : Z := 1.
Definition MaxTasks : Z := 32.
Definition MaxDependencies : Z := 128.
Definition MaxProjectGates : Z := 16.
Definition MaxItemsPerTask : Z := 16.
Definition MaxAcceptancePerGate : Z := 16.
Definition MaxVerifierIDsPerGate : Z := 8.
Definition MaxEncodedPlanBytes : Z := 256 * 1024.

Record Repository : Type := mkRepository { Repository_ID : string; Repository_Revision : string }.
Record Objective : Type := mkObjective { Objective_ID : string; Objective_Summary : string }.
#[export] Instance Repository_eq_dec : EqDecision Repository.
Proof. solve_decision. Defined.
#[export] Instance Objective_eq_dec : EqDecision Objective.
Proof. solve_decision. Defined.

(** [ProjectGate] of the planner. *)
Record PlanGate : Type := mkPlanGate {
  PlanGate_ID : string; PlanGate_Title : string;
  PlanGate_AcceptanceCriteria : list string; PlanGate_VerifierIDs : list string;
}.
#[export] Instance PlanGate_eq_dec : EqDecision PlanGate.
Proof. solve_decision. Defined.

Record Constraints : Type := mkConstraints {
  Constraints_PathScopes : list string; Constraints_CapabilityTags : list string;
  Constraints_VerifierIDs : list string;
  Constraints_MaxTasks : Z; Constraints_MaxDependencies : Z;
}.
Record Request : Type := mkRequest {
  Request_Repository : Repository; Request_Objective : Objective;
  Request_ProjectGates : list PlanGate; Request_Constraints : Constraints;
}.
Record TaskProposal : Type := mkTaskProposal {
  TaskProposal_ID : string; TaskProposal_Title : string; TaskProposal_Description : string;
  TaskProposal_PathScopes : list string; TaskProposal_AcceptanceCriteria : list string;
  TaskProposal_VerifierIDs : list string; TaskProposal_CapabilityTags : list string;
}.
Record DependencyProposal : Type := mkDependencyProposal {
  DependencyProposal_TaskID : string; DependencyProposal_DependsOn : string;
}.
Record Plan : Type := mkPlan {
  Plan_SchemaVersion : Z; Plan_Repository : Repository; Plan_Objective : Objective;
  Plan_Tasks : list TaskProposal; Plan_Dependencies : list DependencyProposal;
  Plan_ProjectGates : list PlanGate;
}.
#[export] Instance Plan_eta : Eta Plan := λ p, mkPlan (p.(Plan_SchemaVersion)) (p.(Plan_Repository))
  (p.(Plan_Objective)) (p.(Plan_Tasks)) (p.(Plan_Dependencies)) (p.(Plan_ProjectGates)).
#[export] Instance TaskProposal_eta : Eta TaskProposal := λ t, mkTaskProposal (t.(TaskProposal_ID))
  (t.(TaskProposal_Title)) (t.(TaskProposal_Description)) (t.(TaskProposal_PathScopes))
  (t.(TaskProposal_AcceptanceCriteria)) (t.(TaskProposal_VerifierIDs)) (t.(TaskProposal_CapabilityTags)).
#[export] Instance PlanGate_eta : Eta PlanGate := λ g, mkPlanGate (g.(PlanGate_ID)) (g.(PlanGate_Title))
  (g.(PlanGate_AcceptanceCriteria)) (g.(PlanGate_VerifierIDs)).
Definition Plan_zero : Plan := mkPlan 0 (mkRepository "" "") (mkObjective "" "") [] [] [].

(** What the package takes from its surroundings: the order in which [range]
    visits the keys of a map, and the JSON encoding of a plan. *)
Class PlannerEnv : Type := {
  range : gset string → list string;
  range_keys : ∀ keys, range keys ≡ₚ elements keys;
  json_MarshalPlan : Plan → result string;
}.

(** * Helpers of the validation *)

Definition len {A} (l : list A) : Z := Z.of_nat (length l).

Definition blank (value : string) : bool := strings_TrimSpace value == "".

Definition boundedLimit (value maximum : Z) : Z := if (value =? 0)%Z then maximum else value.

(** The loop of [requiredBoundedStrings]; the state is the set [seen]. *)
Definition requireString (name : string) (seen : gset string) (value : string) : result (gset string) :=
  fail_if (blank value) (Errorf "%s cannot contain blank values" [AStr name]) ;;
  fail_if (bool_decide (value ∈ seen)) (Errorf "%s contains duplicate %q" [AStr name; AStr value]) ;;
  Ok ({[ value ]} ∪ seen).

Definition requiredBoundedStrings (name : string) (values : list string) (maximum : Z) : result unit :=
  fail_if ((len values =? 0)%Z || (maximum <? len values)%Z)
    (Errorf "%s must contain 1..%d values" [AStr name; AInt maximum]) ;;
  for_each (requireString name) ∅ values ;; Ok tt.

Definition valuesAllowed (kind : string) (values allowed : list string) : result unit :=
  let set : gset string := list_to_set allowed in
  for_each (λ _ value,
      fail_if (blank value) (Errorf "%s cannot be blank" [AStr kind]) ;;
      fail_if (negb (bool_decide (value ∈ set))) (Errorf "%s %q is not allowed" [AStr kind; AStr value]))
    tt values.

Definition validScope (scope : string) : bool :=
  (scope != "") && (scope != ".") && negb (strings_HasPrefix scope "/") && (path_Clean scope == scope)
  && (scope != "..") && negb (strings_HasPrefix scope "../").

Definition scopeAllowed (scope : string) (allowed : list string) : bool :=
  existsb (λ root, (scope == root) || strings_HasPrefix scope (root +:+ "/")) allowed.

Fixpoint sameStrings (xs ys : list string) : bool :=
  match xs, ys with
  | [], [] => true
  | x :: xs, y :: ys => (x == y) && sameStrings xs ys
  | _, _ => false
  end.

Definition sameGate (x y : PlanGate) : bool :=
  (x.(PlanGate_ID) == y.(PlanGate_ID)) && (x.(PlanGate_Title) == y.(PlanGate_Title))
  && sameStrings x.(PlanGate_AcceptanceCriteria) y.(PlanGate_AcceptanceCriteria)
  && sameStrings x.(PlanGate_VerifierIDs) y.(PlanGate_VerifierIDs).

Fixpoint sameGates (xs ys : list PlanGate) : bool :=
  match xs, ys with
  | [], [] => true
  | x :: xs, y :: ys => sameGate x y && sameGates xs ys
  | _, _ => false
  end.

(** * The cycle check *)

(** The map [state] of [hasCycle]: 1 for a task on the stack, 2 for a finished
    one, 0 (a missing key) otherwise. *)
Definition stateOf (state : gmap string Z) (task : string) : Z := default 0%Z (state !! task).

(** A loop that returns true as soon as [visit] does. *)
Fixpoint visitAny (visit : gmap string Z → string → result (gmap string Z * bool))
    (state : gmap string Z) (tasks : list string) : result (gmap string Z * bool) :=
  match tasks with
  | [] => Ok (state, false)
  | task :: tasks =>
      '(state, cyclic) ← visit state task;
      if (cyclic : bool) then Ok (state, true) else visitAny visit state tasks
  end.

(** The closure [visit]; fuel bounds the depth of the call stack, and running out
    of it is a stack overflow. *)
Fixpoint visitTask (fuel : nat) (adjacency : gmap string (list string)) (state : gmap string Z)
    (task : string) : result (gmap string Z * bool) :=
  match fuel with
  | O => Panic
  | S fuel =>
      if (stateOf state task =? 1)%Z then Ok (state, true) else
      if (stateOf state task =? 2)%Z then Ok (state, false) else
      let state := <[task := 1%Z]> state in
      '(state, cyclic) ← visitAny (visitTask fuel adjacency) state (default [] (adjacency !! task));
      if (cyclic : bool) then Ok (state, true) else Ok (<[task := 2%Z]> state, false)
  end.

Definition hasCycle (order : list string) (adjacency : gmap string (list string)) : result bool :=
  '(_, cyclic) ← visitAny (visitTask (S (length order)) adjacency) ∅ order; Ok cyclic.

(** * Validation *)

(** The loop over the gates of a request; the state is the set [seen]. *)
Definition validateGate (verifiers : list string) (seen : gset string) (gate : PlanGate)
  : result (gset string) :=
  let named m := wrap_err (λ err, Errorf "project gate %q: %w" [AStr gate.(PlanGate_ID); AWrap err]) m in
  fail_if (blank gate.(PlanGate_ID) || blank gate.(PlanGate_Title))
    (Errorf "project gate id and title are required" []) ;;
  fail_if (bool_decide (gate.(PlanGate_ID) ∈ seen))
    (Errorf "duplicate project gate id %q" [AStr gate.(PlanGate_ID)]) ;;
  named (requiredBoundedStrings "project gate acceptance criteria" gate.(PlanGate_AcceptanceCriteria)
           MaxAcceptancePerGate) ;;
  named (requiredBoundedStrings "project gate verifier ids" gate.(PlanGate_VerifierIDs)
           MaxVerifierIDsPerGate) ;;
  named (valuesAllowed "verifier" gate.(PlanGate_VerifierIDs) verifiers) ;;
  Ok ({[ gate.(PlanGate_ID) ]} ∪ seen).

Definition Request_validate (request : Request) : result unit :=
  let constraints := request.(Request_Constraints) in
  fail_if (blank request.(Request_Repository).(Repository_ID)
           || blank request.(Request_Repository).(Repository_Revision))
    (Errorf "repository id and revision are required" []) ;;
  fail_if (blank request.(Request_Objective).(Objective_ID)
           || blank request.(Request_Objective).(Objective_Summary))
    (Errorf "objective id and summary are required" []) ;;
  fail_if ((len request.(Request_ProjectGates) =? 0)%Z
           || (MaxProjectGates <? len request.(Request_ProjectGates))%Z)
    (Errorf "request must contain 1..%d project gates" [AInt MaxProjectGates]) ;;
  requiredBoundedStrings "allowed path scopes" constraints.(Constraints_PathScopes) MaxItemsPerTask ;;
  for_each (λ _ scope,
      fail_if (negb (validScope scope)) (Errorf "invalid allowed path scope %q" [AStr scope]))
    tt constraints.(Constraints_PathScopes) ;;
  requiredBoundedStrings "allowed verifier ids" constraints.(Constraints_VerifierIDs) MaxItemsPerTask ;;
  requiredBoundedStrings "allowed capability tags" constraints.(Constraints_CapabilityTags)
    MaxItemsPerTask ;;
  fail_if ((constraints.(Constraints_MaxTasks) <? 0)%Z || (MaxTasks <? constraints.(Constraints_MaxTasks))%Z
           || (constraints.(Constraints_MaxDependencies) <? 0)%Z
           || (MaxDependencies <? constraints.(Constraints_MaxDependencies))%Z)
    (Errorf "requested limits exceed planner bounds" []) ;;
  for_each (validateGate constraints.(Constraints_VerifierIDs)) ∅ request.(Request_ProjectGates) ;;
  Ok tt.

(** The loop over the tasks of a plan; the state is the map [tasks]. *)
Definition validateProposal (constraints : Constraints) (tasks : gset string) (task : TaskProposal)
  : result (gset string) :=
  let named m := wrap_err (λ err, Errorf "task %q: %w" [AStr task.(TaskProposal_ID); AWrap err]) m in
  fail_if (blank task.(TaskProposal_ID) || blank task.(TaskProposal_Title)
           || blank task.(TaskProposal_Description))
    (Errorf "task id, title, and description are required" []) ;;
  fail_if (bool_decide (task.(TaskProposal_ID) ∈ tasks))
    (Errorf "duplicate task id %q" [AStr task.(TaskProposal_ID)]) ;;
  named (requiredBoundedStrings "task acceptance criteria" task.(TaskProposal_AcceptanceCriteria)
           MaxItemsPerTask) ;;
  named (requiredBoundedStrings "task verifier ids" task.(TaskProposal_VerifierIDs) MaxItemsPerTask) ;;
  named (requiredBoundedStrings "task path scopes" task.(TaskProposal_PathScopes) MaxItemsPerTask) ;;
  named (requiredBoundedStrings "task capability tags" task.(TaskProposal_CapabilityTags)
           MaxItemsPerTask) ;;
  for_each (λ _ scope,
      fail_if (negb (validScope scope) || negb (scopeAllowed scope constraints.(Constraints_PathScopes)))
        (Errorf "task %q path scope %q is not allowed" [AStr task.(TaskProposal_ID); AStr scope]))
    tt task.(TaskProposal_PathScopes) ;;
  named (valuesAllowed "verifier" task.(TaskProposal_VerifierIDs) constraints.(Constraints_VerifierIDs)) ;;
  named (valuesAllowed "capability" task.(TaskProposal_CapabilityTags)
           constraints.(Constraints_CapabilityTags)) ;;
  Ok ({[ task.(TaskProposal_ID) ]} ∪ tasks).

Definition proposalKey (dependency : DependencyProposal) : string :=
  dependency.(DependencyProposal_TaskID) +:+ String (Ascii.ascii_of_nat 0) ""
    +:+ dependency.(DependencyProposal_DependsOn).

(** [adjacency[dependency.TaskID] = append(...)] *)
Definition addEdge (adjacency : gmap string (list string)) (dependency : DependencyProposal)
  : gmap string (list string) :=
  <[dependency.(DependencyProposal_TaskID) :=
      default [] (adjacency !! dependency.(DependencyProposal_TaskID))
        ++ [dependency.(DependencyProposal_DependsOn)]]> adjacency.

(** The loop over the dependencies of a plan; the state is [edges] and [adjacency]. *)
Definition validateEdge (tasks : gset string) (s : gset string * gmap string (list string))
    (dependency : DependencyProposal) : result (gset string * gmap string (list string)) :=
  let '(edges, adjacency) := s in
  let task := dependency.(DependencyProposal_TaskID) in
  let prerequisite := dependency.(DependencyProposal_DependsOn) in
  fail_if (negb (bool_decide (task ∈ tasks))) (Errorf "dependency task %q not found" [AStr task]) ;;
  fail_if (negb (bool_decide (prerequisite ∈ tasks)))
    (Errorf "dependency prerequisite %q not found" [AStr prerequisite]) ;;
  fail_if (task == prerequisite) (Errorf "task %q cannot depend on itself" [AStr task]) ;;
  fail_if (bool_decide (proposalKey dependency ∈ edges))
    (Errorf "duplicate dependency %q -> %q" [AStr task; AStr prerequisite]) ;;
  Ok ({[ proposalKey dependency ]} ∪ edges, addEdge adjacency dependency).

Section planner.
Context `{!PlannerEnv}.

Definition Plan_Validate (plan : Plan) (request : Request) : result unit :=
  wrap_err (λ err, Errorf "invalid planner request: %w" [AWrap err]) (Request_validate request) ;;
  fail_if (negb (plan.(Plan_SchemaVersion) =? planner_SchemaVersion)%Z)
    (Errorf "unsupported planner schema version %d" [AInt plan.(Plan_SchemaVersion)]) ;;
  encoded ← wrap_err (λ err, Errorf "encode plan: %w" [AWrap err]) (json_MarshalPlan plan);
  fail_if (MaxEncodedPlanBytes <? Z.of_nat (String.length encoded))%Z
    (Errorf "encoded plan exceeds maximum of %d bytes" [AInt MaxEncodedPlanBytes]) ;;
  fail_if (negb (bool_decide (plan.(Plan_Repository) = request.(Request_Repository)))
           || negb (bool_decide (plan.(Plan_Objective) = request.(Request_Objective))))
    (Errorf "plan repository and objective must match the request" []) ;;
  let constraints := request.(Request_Constraints) in
  let maxTasks := boundedLimit constraints.(Constraints_MaxTasks) MaxTasks in
  let maxDependencies := boundedLimit constraints.(Constraints_MaxDependencies) MaxDependencies in
  fail_if ((len plan.(Plan_Tasks) =? 0)%Z || (maxTasks <? len plan.(Plan_Tasks))%Z)
    (Errorf "plan must contain 1..%d tasks" [AInt maxTasks]) ;;
  fail_if (maxDependencies <? len plan.(Plan_Dependencies))%Z
    (Errorf "plan exceeds maximum of %d dependencies" [AInt maxDependencies]) ;;
  fail_if ((len plan.(Plan_ProjectGates) =? 0)%Z || (MaxProjectGates <? len plan.(Plan_ProjectGates))%Z)
    (Errorf "plan must contain 1..%d project gates" [AInt MaxProjectGates]) ;;
  fail_if (negb (sameGates plan.(Plan_ProjectGates) request.(Request_ProjectGates)))
    (Errorf "plan project gates must match the request" []) ;;
  tasks ← for_each (validateProposal constraints) ∅ plan.(Plan_Tasks);
  '(_, adjacency) ← for_each (validateEdge tasks) (∅, ∅) plan.(Plan_Dependencies);
  cyclic ← hasCycle (range tasks) adjacency;
  fail_if cyclic (Errorf "plan dependencies contain a cycle" []).

(** * Planners *)

(** [clonePlan] copies every slice: [append([]string(nil), values...)]. *)
Definition cloneStrings (values : list string) : list string := [] ++ values.

Definition clonePlan (plan : Plan) : Plan :=
  plan <| Plan_Tasks := (λ task, task
            <| TaskProposal_PathScopes := cloneStrings task.(TaskProposal_PathScopes) |>
            <| TaskProposal_AcceptanceCriteria := cloneStrings task.(TaskProposal_AcceptanceCriteria) |>
            <| TaskProposal_VerifierIDs := cloneStrings task.(TaskProposal_VerifierIDs) |>
            <| TaskProposal_CapabilityTags := cloneStrings task.(TaskProposal_CapabilityTags) |>)
          <$> plan.(Plan_Tasks) |>
       <| Plan_Dependencies := [] ++ plan.(Plan_Dependencies) |>
       <| Plan_ProjectGates := (λ gate, gate
            <| PlanGate_AcceptanceCriteria := cloneStrings gate.(PlanGate_AcceptanceCriteria) |>
            <| PlanGate_VerifierIDs := cloneStrings gate.(PlanGate_VerifierIDs) |>)
          <$> plan.(Plan_ProjectGates) |>.

(** [planner.Plan(ctx, request)]; [cancelled] is [ctx.Err()]. *)
Definition Planner : Type := option error → Request → result Plan.

Definition FixturePlanner_Plan (proposal : Plan) : Planner := λ cancelled request,
  match cancelled with
  | Some err => Err err
  | None =>
      let proposal := clonePlan proposal in
      Plan_Validate proposal request ;; Ok proposal
  end.

Definition demoScopeReadme : string := "README.md".
Definition demoScopeDocs : string := "docs".
Definition demoCapabilityRead : string := "repo-read".
Definition demoCapabilityWrite : string := "repo-write".
Definition demoCapabilityTests : string := "tests".
Definition demoCapabilityReport : string := "report".

Record demoTask : Type := mkDemoTask {
  demoTask_id : string; demoTask_title : string; demoTask_description : string;
  demoTask_scopes : list string; demoTask_capability : string;
  demoTask_criteria : list string; demoTask_dependsOn : list string;
}.

Definition demoTasks : list demoTask :=
  [ mkDemoTask "inspect-repository" "检查仓库结构与元数据"
      "读取仓库的目录结构、说明文档与项目元数据，记录快速开始章节需要引用的事实。"
      [] demoCapabilityRead ["记录仓库结构与关键文件"; "列出快速开始章节需要的事实"] [];
    mkDemoTask "identify-commands" "识别构建与测试命令"
      "从仓库配置中识别可复现的构建与测试命令，并记录它们的执行前提。"
      [] demoCapabilityRead ["记录可执行的构建与测试命令"] [];
    mkDemoTask "update-readme" "更新 README 快速开始章节"
      "根据仓库检查结果，为 README 增加一个可直接执行的快速开始章节。"
      [demoScopeReadme] demoCapabilityWrite
      ["README 包含快速开始章节"; "章节中的命令与仓库实际配置一致"]
      ["inspect-repository"; "identify-commands"];
    mkDemoTask "run-tests" "运行相关测试并记录结果"
      "执行已识别的测试命令，记录退出码、耗时与输出引用作为验收证据。"
      [] demoCapabilityTests ["测试命令返回确定性结果"; "记录退出码与输出引用"]
      ["identify-commands"];
    mkDemoTask "write-report" "生成完成报告"
      "汇总仓库分析、文档变更与测试证据，生成可供人工复核的完成报告。"
      [demoScopeDocs] demoCapabilityReport ["报告引用测试证据与变更文件"; "报告说明未解决的风险"]
      ["update-readme"; "run-tests"] ].

(** The body of the loop of [DemoPlanner.Plan] over [demoTasks]. *)
Definition demoProposal (request : Request) (verifier : string) (task : demoTask) : TaskProposal :=
  let scopes := match task.(demoTask_scopes) with
    | [] => request.(Request_Constraints).(Constraints_PathScopes)
    | scopes => scopes
    end in
  mkTaskProposal task.(demoTask_id) task.(demoTask_title) task.(demoTask_description)
    scopes task.(demoTask_criteria) [verifier] [task.(demoTask_capability)].

Definition demoEdges (task : demoTask) : list DependencyProposal :=
  mkDependencyProposal task.(demoTask_id) <$> task.(demoTask_dependsOn).

Definition demoPlan (request : Request) (verifier : string) : Plan :=
  mkPlan planner_SchemaVersion request.(Request_Repository) request.(Request_Objective)
    (demoProposal request verifier <$> demoTasks) (demoTasks ≫= demoEdges)
    (clonePlan (Plan_zero <| Plan_ProjectGates := request.(Request_ProjectGates) |>)).(Plan_ProjectGates).

Definition DemoPlanner_Plan : Planner := λ cancelled request,
  match cancelled with
  | Some err => Err err
  | None =>
      let constraints := request.(Request_Constraints) in
      wrap_err (λ err, Errorf "invalid planner request: %w" [AWrap err]) (Request_validate request) ;;
      for_each (λ _ scope,
          fail_if (negb (scopeAllowed scope constraints.(Constraints_PathScopes)))
            (Errorf "demo plan requires allowed path scope %q" [AStr scope]))
        tt [demoScopeReadme; demoScopeDocs] ;;
      for_each (λ _ capability,
          wrap_err (λ err, Errorf "demo plan: %w" [AWrap err])
            (valuesAllowed "capability" [capability] constraints.(Constraints_CapabilityTags)))
        tt [demoCapabilityRead; demoCapabilityWrite; demoCapabilityTests; demoCapabilityReport] ;;
      verifier ← get_at 0 constraints.(Constraints_VerifierIDs);
      let plan := demoPlan request verifier in
      wrap_err (λ err, Errorf "demo plan is not admissible: %w" [AWrap err]) (Plan_Validate plan request) ;;
      Ok plan
  end.

End planner.
