(* ===== verification/Protocol.v ===== *)
(** The data model of the work graph: internal/agoboardprotocol/protocol.go.

    Every struct is a record with the source's fields in the source's order (a
    pointer field is an option, a slice a list), every string-valued enumeration
    is its Go string type with the source's constants, and the small methods on
    these types follow. [Board_Validate] is in Validate.v, completion and the
    project gate are in Validate.v. *)
From S2P Require Import Prelude.

(** * Constants and the retry policy *)

Definition SchemaVersion : Z := 4.
Definition MaxAttempts : Z := 3.
Definition MaxVerificationAttempts : Z := 10.
Definition MaxRetryDelay : Duration := (30 * Second)%Z.

Definition RetryDelay (attemptNumber : Z) : Duration :=
  let attemptNumber := if (attemptNumber <? 0)%Z then 0%Z else attemptNumber in
  if (16 <? attemptNumber)%Z then MaxRetryDelay else
  let delay := i64 (i64 (i64 (Z.shiftl 1 attemptNumber) * 2) * Second) in
  if (MaxRetryDelay <? delay)%Z then MaxRetryDelay else delay.

(** * Enumerations *)

Definition TaskState : Type := string.
Definition TaskPlanned : TaskState := "planned".
Definition TaskBlocked : TaskState := "blocked".
Definition TaskReady : TaskState := "ready".
Definition TaskLeased : TaskState := "leased".
Definition TaskRunning : TaskState := "running".
Definition TaskVerifying : TaskState := "verifying".
Definition TaskIntegrating : TaskState := "integrating".
Definition TaskPassed : TaskState := "passed".
Definition TaskFailed : TaskState := "failed".
Definition TaskRetryWait : TaskState := "retry-wait".

Definition AccessMode : Type := string.
Definition AccessRead : AccessMode := "read".
Definition AccessWrite : AccessMode := "write".

Definition FailureClass : Type := string.
Definition FailureNone : FailureClass := "".
Definition FailureTransient : FailureClass := "transient".
Definition FailureVerifierFeedback : FailureClass := "verifier-feedback".
Definition FailureAuth : FailureClass := "auth".
Definition FailurePolicy : FailureClass := "policy".
Definition FailureNeedsInput : FailureClass := "needs-input".
Definition FailureRepository : FailureClass := "repository".
Definition FailurePermanent : FailureClass := "permanent".
Definition FailureExhausted : FailureClass := "exhausted".

Definition FailureClass_Retryable (class : FailureClass) : bool :=
  (class == FailureTransient) || (class == FailureVerifierFeedback).

Definition validFailureClass (class : FailureClass) : bool :=
  existsb (String.eqb class)
    [FailureNone; FailureTransient; FailureVerifierFeedback;
     FailureAuth; FailurePolicy; FailureNeedsInput; FailureRepository; FailurePermanent;
     FailureExhausted].

Definition validAccessMode (mode : AccessMode) : bool :=
  (mode == AccessRead) || (mode == AccessWrite).

Definition AttemptState : Type := string.
Definition AttemptLeased : AttemptState := "leased".
Definition AttemptRunning : AttemptState := "running".
Definition AttemptVerifying : AttemptState := "verifying".
Definition AttemptPassed : AttemptState := "passed".
Definition AttemptFailed : AttemptState := "failed".

Definition LeaseState : Type := string.
Definition LeaseActive : LeaseState := "active".
Definition LeaseCompleted : LeaseState := "completed".

Definition EvidenceState : Type := string.
Definition EvidenceSubmitted : EvidenceState := "submitted".
Definition EvidenceAccepted : EvidenceState := "accepted".
Definition EvidenceRejected : EvidenceState := "rejected".

Definition ActorRole : Type := string.
Definition RoleCoordinator : ActorRole := "coordinator".
Definition RoleWorker : ActorRole := "worker".
Definition RoleVerifier : ActorRole := "verifier".

Definition GateState : Type := string.
Definition GateAbsent : GateState := "absent".
Definition GatePending : GateState := "pending".
Definition GatePassed : GateState := "passed".
Definition GateFailed : GateState := "failed".
Definition MaxGateRepairs : Z := 2.
Definition MaxGateUnavailable : Z := 5.

Definition CommandType : Type := string.
Definition CommandBoardCreate : CommandType := "board.create".
Definition CommandTaskAdd : CommandType := "task.add".
Definition CommandDependencyAdd : CommandType := "dependency.add".
Definition CommandTaskActivate : CommandType := "task.activate".
Definition CommandLeaseAcquire : CommandType := "lease.acquire".
Definition CommandAttemptStart : CommandType := "attempt.start".
Definition CommandEvidenceSubmit : CommandType := "evidence.submit".
Definition CommandEvidenceAccept : CommandType := "evidence.accept".
Definition CommandEvidenceReject : CommandType := "evidence.reject".
Definition CommandVerificationDeferred : CommandType := "verification.deferred".
Definition CommandAttemptFail : CommandType := "attempt.fail".
Definition CommandLeaseExpire : CommandType := "lease.expire".
Definition CommandLeaseRenew : CommandType := "lease.renew".
Definition CommandIntegrationComplete : CommandType := "integration.complete".
Definition CommandIntegrationFail : CommandType := "integration.fail".
Definition CommandBoardPause : CommandType := "board.pause".
Definition CommandBoardResume : CommandType := "board.resume".
Definition CommandTaskRetry : CommandType := "task.retry".
Definition CommandPlanPatch : CommandType := "plan.patch".
Definition CommandGatePass : CommandType := "gate.pass".
Definition CommandGateFail : CommandType := "gate.fail".
Definition CommandGateUnavailable : CommandType := "gate.unavailable".

Definition PatchOperation : Type := string.
Definition PatchAddTask : PatchOperation := "add_task".
Definition PatchAddDependency : PatchOperation := "add_dependency".
Definition PatchRemoveDependency : PatchOperation := "remove_dependency".
Definition PatchUpdateAcceptance : PatchOperation := "update_acceptance".
Definition PatchSupersedeTask : PatchOperation := "supersede_task".
Definition PatchCancelTask : PatchOperation := "cancel_task".

Definition EventType : Type := string.
Definition EventBoardCreated : EventType := "board.created".
Definition EventTaskAdded : EventType := "task.added".
Definition EventDependencyAdded : EventType := "dependency.added".
Definition EventTaskStateChanged : EventType := "task.state-changed".
Definition EventLeaseAcquired : EventType := "lease.acquired".
Definition EventAttemptStateChanged : EventType := "attempt.state-changed".
Definition EventEvidenceSubmitted : EventType := "evidence.submitted".
Definition EventEvidenceAccepted : EventType := "evidence.accepted".
Definition EventEvidenceRejected : EventType := "evidence.rejected".
Definition EventLeaseExpired : EventType := "lease.expired".
Definition EventLeaseRenewed : EventType := "lease.renewed".
Definition EventBoardPaused : EventType := "board.paused".
Definition EventBoardResumed : EventType := "board.resumed".
Definition EventGatePassed : EventType := "gate.passed".
Definition EventGateFailed : EventType := "gate.failed".
Definition EventGateUnavailable : EventType := "gate.unavailable".
Definition EventTaskRetryRequested : EventType := "task.retry-requested".
Definition EventPlanPatched : EventType := "plan.patched".
Definition EventIntegrationComplete : EventType := "integration.completed".
Definition EventIntegrationFailed : EventType := "integration.failed".
Definition EventVerificationDeferred : EventType := "verification.deferred".

(** * Structs

    Field [F] of struct [T] is the projection [T_F]; [T_zero] is Go's zero value. *)

Record Actor : Type := mkActor {
  Actor_ID : string; Actor_Role : ActorRole;
}.
#[export] Instance Actor_eta : Eta Actor := λ r, mkActor (r.(Actor_ID)) (r.(Actor_Role)).
Definition Actor_zero : Actor := mkActor "" "".

Record TerminalContract : Type := mkTerminalContract {
  TerminalContract_Outcome : string; TerminalContract_AcceptanceCriteria : list string;
}.
#[export] Instance TerminalContract_eta : Eta TerminalContract := λ r, mkTerminalContract
  (r.(TerminalContract_Outcome)) (r.(TerminalContract_AcceptanceCriteria)).
Definition TerminalContract_zero : TerminalContract := mkTerminalContract "" [].

Record ProjectGate : Type := mkProjectGate {
  ProjectGate_State : GateState; ProjectGate_Commands : list string;
  ProjectGate_Revision : string; ProjectGate_Summary : string;
  ProjectGate_FailureOutput : string; ProjectGate_Failures : Z; ProjectGate_Unavailable : Z;
  ProjectGate_LastError : string; ProjectGate_RanAt : Time;
}.
#[export] Instance ProjectGate_eta : Eta ProjectGate := λ r, mkProjectGate
  (r.(ProjectGate_State)) (r.(ProjectGate_Commands)) (r.(ProjectGate_Revision))
  (r.(ProjectGate_Summary)) (r.(ProjectGate_FailureOutput)) (r.(ProjectGate_Failures))
  (r.(ProjectGate_Unavailable)) (r.(ProjectGate_LastError)) (r.(ProjectGate_RanAt)).
Definition ProjectGate_zero : ProjectGate := mkProjectGate "" [] "" "" "" 0%Z 0%Z "" Time_zero.

Record Task : Type := mkTask {
  Task_ID : string; Task_Title : string; Task_State : TaskState;
  Task_TerminalContract : TerminalContract; Task_ActiveAttemptID : string;
  Task_ActiveLeaseID : string; Task_AcceptedEvidenceID : string; Task_AccessMode : AccessMode;
  Task_AttemptCount : Z; Task_UserRetries : Z; Task_NextEligibleAt : Time;
  Task_FailureClass : FailureClass; Task_BlockedReason : string; Task_SupersededBy : string;
  Task_Cancelled : bool; Task_Origin : string; Task_IntegratedRevision : string;
}.
#[export] Instance Task_eta : Eta Task := λ r, mkTask (r.(Task_ID)) (r.(Task_Title))
  (r.(Task_State)) (r.(Task_TerminalContract)) (r.(Task_ActiveAttemptID))
  (r.(Task_ActiveLeaseID)) (r.(Task_AcceptedEvidenceID)) (r.(Task_AccessMode))
  (r.(Task_AttemptCount)) (r.(Task_UserRetries)) (r.(Task_NextEligibleAt))
  (r.(Task_FailureClass)) (r.(Task_BlockedReason)) (r.(Task_SupersededBy)) (r.(Task_Cancelled))
  (r.(Task_Origin)) (r.(Task_IntegratedRevision)).
Definition Task_zero : Task := mkTask "" "" "" TerminalContract_zero "" "" "" "" 0%Z 0%Z
  Time_zero "" "" "" false "" "".

Record Dependency : Type := mkDependency {
  Dependency_ID : string; Dependency_TaskID : string; Dependency_DependsOn : string;
}.
#[export] Instance Dependency_eta : Eta Dependency := λ r, mkDependency (r.(Dependency_ID))
  (r.(Dependency_TaskID)) (r.(Dependency_DependsOn)).
Definition Dependency_zero : Dependency := mkDependency "" "" "".

Record Attempt : Type := mkAttempt {
  Attempt_ID : string; Attempt_TaskID : string; Attempt_WorkerID : string;
  Attempt_State : AttemptState; Attempt_EvidenceID : string; Attempt_Number : Z;
  Attempt_Generation : Z; Attempt_FencingToken : string; Attempt_FailureClass : FailureClass;
  Attempt_FailureReason : string;
}.
#[export] Instance Attempt_eta : Eta Attempt := λ r, mkAttempt (r.(Attempt_ID))
  (r.(Attempt_TaskID)) (r.(Attempt_WorkerID)) (r.(Attempt_State)) (r.(Attempt_EvidenceID))
  (r.(Attempt_Number)) (r.(Attempt_Generation)) (r.(Attempt_FencingToken))
  (r.(Attempt_FailureClass)) (r.(Attempt_FailureReason)).
Definition Attempt_zero : Attempt := mkAttempt "" "" "" "" "" 0%Z 0%Z "" "" "".

Record Lease : Type := mkLease {
  Lease_ID : string; Lease_TaskID : string; Lease_AttemptID : string; Lease_WorkerID : string;
  Lease_State : LeaseState; Lease_Generation : Z; Lease_FencingToken : string;
  Lease_AcquiredAt : Time; Lease_ExpiresAt : Time;
}.
#[export] Instance Lease_eta : Eta Lease := λ r, mkLease (r.(Lease_ID)) (r.(Lease_TaskID))
  (r.(Lease_AttemptID)) (r.(Lease_WorkerID)) (r.(Lease_State)) (r.(Lease_Generation))
  (r.(Lease_FencingToken)) (r.(Lease_AcquiredAt)) (r.(Lease_ExpiresAt)).
Definition Lease_zero : Lease := mkLease "" "" "" "" "" 0%Z "" Time_zero Time_zero.

Record ChangedFile : Type := mkChangedFile {
  ChangedFile_Path : string; ChangedFile_BeforeHash : string; ChangedFile_AfterHash : string;
}.
#[export] Instance ChangedFile_eta : Eta ChangedFile := λ r, mkChangedFile
  (r.(ChangedFile_Path)) (r.(ChangedFile_BeforeHash)) (r.(ChangedFile_AfterHash)).
Definition ChangedFile_zero : ChangedFile := mkChangedFile "" "" "".

Record CommandRecord : Type := mkCommandRecord {
  CommandRecord_Display : string; CommandRecord_ExitCode : Z; CommandRecord_DurationMS : Z;
  CommandRecord_OutputArtifactID : string;
}.
#[export] Instance CommandRecord_eta : Eta CommandRecord := λ r, mkCommandRecord
  (r.(CommandRecord_Display)) (r.(CommandRecord_ExitCode)) (r.(CommandRecord_DurationMS))
  (r.(CommandRecord_OutputArtifactID)).
Definition CommandRecord_zero : CommandRecord := mkCommandRecord "" 0%Z 0%Z "".

Record TestRecord : Type := mkTestRecord {
  TestRecord_Name : string; TestRecord_Command : string; TestRecord_Passed : bool;
  TestRecord_ExitCode : Z; TestRecord_Required : bool;
}.
#[export] Instance TestRecord_eta : Eta TestRecord := λ r, mkTestRecord (r.(TestRecord_Name))
  (r.(TestRecord_Command)) (r.(TestRecord_Passed)) (r.(TestRecord_ExitCode))
  (r.(TestRecord_Required)).
Definition TestRecord_zero : TestRecord := mkTestRecord "" "" false 0%Z false.

Record ArtifactRef : Type := mkArtifactRef {
  ArtifactRef_ID : string; ArtifactRef_Type : string; ArtifactRef_DisplayName : string;
  ArtifactRef_Bytes : Z; ArtifactRef_SHA256 : string;
}.
#[export] Instance ArtifactRef_eta : Eta ArtifactRef := λ r, mkArtifactRef (r.(ArtifactRef_ID))
  (r.(ArtifactRef_Type)) (r.(ArtifactRef_DisplayName)) (r.(ArtifactRef_Bytes))
  (r.(ArtifactRef_SHA256)).
Definition ArtifactRef_zero : ArtifactRef := mkArtifactRef "" "" "" 0%Z "".

Record PatchRecord : Type := mkPatchRecord {
  PatchRecord_ArtifactID : string; PatchRecord_BaseRevision : string;
  PatchRecord_SHA256 : string; PatchRecord_Bytes : Z; PatchRecord_ChangedPaths : list string;
}.
#[export] Instance PatchRecord_eta : Eta PatchRecord := λ r, mkPatchRecord
  (r.(PatchRecord_ArtifactID)) (r.(PatchRecord_BaseRevision)) (r.(PatchRecord_SHA256))
  (r.(PatchRecord_Bytes)) (r.(PatchRecord_ChangedPaths)).
Definition PatchRecord_zero : PatchRecord := mkPatchRecord "" "" "" 0%Z [].

Record EvidenceResult : Type := mkEvidenceResult {
  EvidenceResult_Patch : option PatchRecord; EvidenceResult_Summary : string;
  EvidenceResult_Generation : Z; EvidenceResult_ChangedFiles : list ChangedFile;
  EvidenceResult_Commands : list CommandRecord; EvidenceResult_Tests : list TestRecord;
  EvidenceResult_Artifacts : list ArtifactRef; EvidenceResult_Warnings : list string;
}.
#[export] Instance EvidenceResult_eta : Eta EvidenceResult := λ r, mkEvidenceResult
  (r.(EvidenceResult_Patch)) (r.(EvidenceResult_Summary)) (r.(EvidenceResult_Generation))
  (r.(EvidenceResult_ChangedFiles)) (r.(EvidenceResult_Commands)) (r.(EvidenceResult_Tests))
  (r.(EvidenceResult_Artifacts)) (r.(EvidenceResult_Warnings)).
Definition EvidenceResult_zero : EvidenceResult := mkEvidenceResult None "" 0%Z [] [] [] [] [].

Record Evidence : Type := mkEvidence {
  Evidence_ID : string; Evidence_TaskID : string; Evidence_AttemptID : string;
  Evidence_WorkerID : string; Evidence_Artifact : string; Evidence_Summary : string;
  Evidence_State : EvidenceState; Evidence_Result : EvidenceResult; Evidence_Verdict : string;
  Evidence_VerdictReason : string; Evidence_VerificationAttempts : Z;
}.
#[export] Instance Evidence_eta : Eta Evidence := λ r, mkEvidence (r.(Evidence_ID))
  (r.(Evidence_TaskID)) (r.(Evidence_AttemptID)) (r.(Evidence_WorkerID)) (r.(Evidence_Artifact))
  (r.(Evidence_Summary)) (r.(Evidence_State)) (r.(Evidence_Result)) (r.(Evidence_Verdict))
  (r.(Evidence_VerdictReason)) (r.(Evidence_VerificationAttempts)).
Definition Evidence_zero : Evidence := mkEvidence "" "" "" "" "" "" "" EvidenceResult_zero "" ""
  0%Z.

Record Board : Type := mkBoard {
  Board_SchemaVersion : Z; Board_ID : string; Board_Version : Z; Board_Title : string;
  Board_Tasks : list Task; Board_Dependencies : list Dependency;
  Board_Attempts : list Attempt; Board_Leases : list Lease; Board_Evidence : list Evidence;
  Board_Repository : string; Board_BaseRevision : string; Board_IntegrationRef : string;
  Board_IntegratedRevision : string; Board_NextGeneration : Z; Board_Paused : bool;
  Board_PauseReason : string; Board_Gate : ProjectGate;
}.
#[export] Instance Board_eta : Eta Board := λ r, mkBoard (r.(Board_SchemaVersion))
  (r.(Board_ID)) (r.(Board_Version)) (r.(Board_Title)) (r.(Board_Tasks))
  (r.(Board_Dependencies)) (r.(Board_Attempts)) (r.(Board_Leases)) (r.(Board_Evidence))
  (r.(Board_Repository)) (r.(Board_BaseRevision)) (r.(Board_IntegrationRef))
  (r.(Board_IntegratedRevision)) (r.(Board_NextGeneration)) (r.(Board_Paused))
  (r.(Board_PauseReason)) (r.(Board_Gate)).
Definition Board_zero : Board := mkBoard 0%Z "" 0%Z "" [] [] [] [] [] "" "" "" "" 0%Z false ""
  ProjectGate_zero.

Record BoardSpec : Type := mkBoardSpec {
  BoardSpec_ID : string; BoardSpec_Title : string; BoardSpec_Repository : string;
  BoardSpec_BaseRevision : string; BoardSpec_IntegrationRef : string;
  BoardSpec_GateCommands : list string;
}.
#[export] Instance BoardSpec_eta : Eta BoardSpec := λ r, mkBoardSpec (r.(BoardSpec_ID))
  (r.(BoardSpec_Title)) (r.(BoardSpec_Repository)) (r.(BoardSpec_BaseRevision))
  (r.(BoardSpec_IntegrationRef)) (r.(BoardSpec_GateCommands)).
Definition BoardSpec_zero : BoardSpec := mkBoardSpec "" "" "" "" "" [].

Record TaskSpec : Type := mkTaskSpec {
  TaskSpec_ID : string; TaskSpec_Title : string; TaskSpec_TerminalContract : TerminalContract;
  TaskSpec_AccessMode : AccessMode;
}.
#[export] Instance TaskSpec_eta : Eta TaskSpec := λ r, mkTaskSpec (r.(TaskSpec_ID))
  (r.(TaskSpec_Title)) (r.(TaskSpec_TerminalContract)) (r.(TaskSpec_AccessMode)).
Definition TaskSpec_zero : TaskSpec := mkTaskSpec "" "" TerminalContract_zero "".

Record DependencySpec : Type := mkDependencySpec {
  DependencySpec_ID : string; DependencySpec_TaskID : string;
  DependencySpec_DependsOn : string;
}.
#[export] Instance DependencySpec_eta : Eta DependencySpec := λ r, mkDependencySpec
  (r.(DependencySpec_ID)) (r.(DependencySpec_TaskID)) (r.(DependencySpec_DependsOn)).
Definition DependencySpec_zero : DependencySpec := mkDependencySpec "" "" "".

Record LeaseSpec : Type := mkLeaseSpec {
  LeaseSpec_ID : string; LeaseSpec_AttemptID : string; LeaseSpec_TaskID : string;
  LeaseSpec_WorkerID : string; LeaseSpec_FencingToken : string; LeaseSpec_AcquiredAt : Time;
  LeaseSpec_ExpiresAt : Time;
}.
#[export] Instance LeaseSpec_eta : Eta LeaseSpec := λ r, mkLeaseSpec (r.(LeaseSpec_ID))
  (r.(LeaseSpec_AttemptID)) (r.(LeaseSpec_TaskID)) (r.(LeaseSpec_WorkerID))
  (r.(LeaseSpec_FencingToken)) (r.(LeaseSpec_AcquiredAt)) (r.(LeaseSpec_ExpiresAt)).
Definition LeaseSpec_zero : LeaseSpec := mkLeaseSpec "" "" "" "" "" Time_zero Time_zero.

Record EvidenceSpec : Type := mkEvidenceSpec {
  EvidenceSpec_ID : string; EvidenceSpec_TaskID : string; EvidenceSpec_AttemptID : string;
  EvidenceSpec_Artifact : string; EvidenceSpec_Summary : string;
  EvidenceSpec_Result : EvidenceResult;
}.
#[export] Instance EvidenceSpec_eta : Eta EvidenceSpec := λ r, mkEvidenceSpec
  (r.(EvidenceSpec_ID)) (r.(EvidenceSpec_TaskID)) (r.(EvidenceSpec_AttemptID))
  (r.(EvidenceSpec_Artifact)) (r.(EvidenceSpec_Summary)) (r.(EvidenceSpec_Result)).
Definition EvidenceSpec_zero : EvidenceSpec := mkEvidenceSpec "" "" "" "" ""
  EvidenceResult_zero.

Record PatchStep : Type := mkPatchStep {
  PatchStep_Operation : PatchOperation; PatchStep_Task : option TaskSpec;
  PatchStep_TaskID : string; PatchStep_DependsOn : string; PatchStep_SupersededBy : string;
  PatchStep_Acceptance : option TerminalContract; PatchStep_Reason : string;
}.
#[export] Instance PatchStep_eta : Eta PatchStep := λ r, mkPatchStep (r.(PatchStep_Operation))
  (r.(PatchStep_Task)) (r.(PatchStep_TaskID)) (r.(PatchStep_DependsOn))
  (r.(PatchStep_SupersededBy)) (r.(PatchStep_Acceptance)) (r.(PatchStep_Reason)).
Definition PatchStep_zero : PatchStep := mkPatchStep "" None "" "" "" None "".

Record PatchSpec : Type := mkPatchSpec {
  PatchSpec_ID : string; PatchSpec_Steps : list PatchStep; PatchSpec_Reason : string;
}.
#[export] Instance PatchSpec_eta : Eta PatchSpec := λ r, mkPatchSpec (r.(PatchSpec_ID))
  (r.(PatchSpec_Steps)) (r.(PatchSpec_Reason)).
Definition PatchSpec_zero : PatchSpec := mkPatchSpec "" [] "".

Record GateSpec : Type := mkGateSpec {
  GateSpec_Summary : string; GateSpec_FailureOutput : string; GateSpec_RanAt : Time;
}.
#[export] Instance GateSpec_eta : Eta GateSpec := λ r, mkGateSpec (r.(GateSpec_Summary))
  (r.(GateSpec_FailureOutput)) (r.(GateSpec_RanAt)).
Definition GateSpec_zero : GateSpec := mkGateSpec "" "" Time_zero.

Record Command : Type := mkCommand {
  Command_SchemaVersion : Z; Command_ID : string; Command_ExpectedVersion : Z;
  Command_Actor : Actor; Command_Type : CommandType; Command_Board : option BoardSpec;
  Command_Task : option TaskSpec; Command_Dependency : option DependencySpec;
  Command_Lease : option LeaseSpec; Command_TaskID : string; Command_AttemptID : string;
  Command_Evidence : option EvidenceSpec; Command_Patch : option PatchSpec;
  Command_Revision : string; Command_Gate : option GateSpec; Command_Reason : string;
  Command_FencingToken : string; Command_FailureClass : FailureClass;
  Command_NextEligibleAt : Time;
}.
#[export] Instance Command_eta : Eta Command := λ r, mkCommand (r.(Command_SchemaVersion))
  (r.(Command_ID)) (r.(Command_ExpectedVersion)) (r.(Command_Actor)) (r.(Command_Type))
  (r.(Command_Board)) (r.(Command_Task)) (r.(Command_Dependency)) (r.(Command_Lease))
  (r.(Command_TaskID)) (r.(Command_AttemptID)) (r.(Command_Evidence)) (r.(Command_Patch))
  (r.(Command_Revision)) (r.(Command_Gate)) (r.(Command_Reason)) (r.(Command_FencingToken))
  (r.(Command_FailureClass)) (r.(Command_NextEligibleAt)).
Definition Command_zero : Command := mkCommand 0%Z "" 0%Z Actor_zero "" None None None None ""
  "" None None "" None "" "" "" Time_zero.

Record Event : Type := mkEvent {
  Event_SchemaVersion : Z; Event_ID : string; Event_CommandID : string;
  Event_BoardID : string; Event_Version : Z; Event_Actor : Actor; Event_Type : EventType;
  Event_Task : option Task; Event_Dependency : option Dependency;
  Event_Attempt : option Attempt; Event_Lease : option Lease;
  Event_Evidence : option Evidence; Event_PreviousState : TaskState;
  Event_CurrentState : TaskState; Event_Reason : string;
}.
#[export] Instance Event_eta : Eta Event := λ r, mkEvent (r.(Event_SchemaVersion))
  (r.(Event_ID)) (r.(Event_CommandID)) (r.(Event_BoardID)) (r.(Event_Version)) (r.(Event_Actor))
  (r.(Event_Type)) (r.(Event_Task)) (r.(Event_Dependency)) (r.(Event_Attempt)) (r.(Event_Lease))
  (r.(Event_Evidence)) (r.(Event_PreviousState)) (r.(Event_CurrentState)) (r.(Event_Reason)).
Definition Event_zero : Event := mkEvent 0%Z "" "" "" 0%Z Actor_zero "" None None None None None
  "" "" "".

(** * Methods of the data model *)

Definition ProjectGate_Established (gate : ProjectGate) : bool :=
  (0 <? Z.of_nat (length gate.(ProjectGate_Commands)))%Z.

Definition ProjectGate_SatisfiedAt (gate : ProjectGate) (revision : string) : bool :=
  if negb (ProjectGate_Established gate) then false
  else (gate.(ProjectGate_State) == GatePassed) && (gate.(ProjectGate_Revision) == revision).

Definition RequiredTestsPassed (result : EvidenceResult) : bool :=
  forallb (λ test, negb (test.(TestRecord_Required) && negb test.(TestRecord_Passed)))
    result.(EvidenceResult_Tests).

Definition FailedRequiredTests (result : EvidenceResult) : list string :=
  TestRecord_Name <$>
    List.filter (λ test, test.(TestRecord_Required) && negb test.(TestRecord_Passed))
      result.(EvidenceResult_Tests).

Definition TerminalContract_validate (contract : TerminalContract) : result unit :=
  fail_if ((contract.(TerminalContract_Outcome) == "")
           || (length contract.(TerminalContract_AcceptanceCriteria) =? 0)%nat)
    (Errorf "terminal contract outcome and acceptance criteria are required" []) ;;
  for_each (λ _ criterion,
      fail_if (criterion == "")
        (Errorf "terminal contract acceptance criteria cannot be empty" []))
    tt contract.(TerminalContract_AcceptanceCriteria).

Definition validTaskState (state : TaskState) : bool :=
  existsb (String.eqb state)
    [TaskPlanned; TaskBlocked; TaskReady; TaskLeased; TaskRunning; TaskVerifying;
     TaskIntegrating; TaskPassed; TaskFailed; TaskRetryWait].
