(* ===== verification/Validate.v ===== *)
(** What a board says of itself: whether it is complete, and whether it is structurally
    valid (internal/agoboardprotocol/protocol.go). *)
From S2P Require Import Prelude Protocol.

(** Completion: [EvaluateCompletion] of internal/agoboardprotocol/protocol.go. *)

Definition CompletionStatus : Type := string.
Definition CompletionInProgress : CompletionStatus := "in-progress".
Definition CompletionUnproven : CompletionStatus := "unproven".
Definition CompletionPassed : CompletionStatus := "passed".
Definition CompletionFailed : CompletionStatus := "failed".

Record Completion : Type := mkCompletion {
  Completion_Status : CompletionStatus; Completion_Passed : Z; Completion_Failed : Z;
  Completion_Remaining : Z; Completion_Done : bool; Completion_Proven : bool;
}.
#[export] Instance Completion_eta : Eta Completion := λ r, mkCompletion (r.(Completion_Status))
  (r.(Completion_Passed)) (r.(Completion_Failed)) (r.(Completion_Remaining))
  (r.(Completion_Done)) (r.(Completion_Proven)).
Definition Completion_zero : Completion := mkCompletion "" 0%Z 0%Z 0%Z false false.

(** One iteration of the counting loop over the pair of [completion] and [settled]. *)
Definition countTask (c : Completion * Z) (task : Task) : Completion * Z :=
  let '(completion, settled) := c in
  if task.(Task_State) == TaskPassed then
    (completion <| Completion_Passed := i64 (completion.(Completion_Passed) + 1) |>, i64 (settled + 1))
  else if task.(Task_Cancelled) || (task.(Task_SupersededBy) != "") then
    (completion, i64 (settled + 1))
  else if task.(Task_State) == TaskFailed then
    (completion <| Completion_Failed := i64 (completion.(Completion_Failed) + 1) |>, settled)
  else
    (completion <| Completion_Remaining := i64 (completion.(Completion_Remaining) + 1) |>, settled).

Definition EvaluateCompletion (board : Board) : Completion :=
  let completion := Completion_zero <| Completion_Status := CompletionInProgress |> in
  let '(completion, settled) := foldl countTask (completion, 0%Z) board.(Board_Tasks) in
  if (0 <? completion.(Completion_Failed))%Z then
    completion <| Completion_Status := CompletionFailed |>
  else if (length board.(Board_Tasks) =? 0)%nat
          || negb (settled =? Z.of_nat (length board.(Board_Tasks)))%Z then completion
  else if negb (ProjectGate_Established board.(Board_Gate)) then
    completion <| Completion_Status := CompletionPassed |> <| Completion_Done := true |>
  else if board.(Board_IntegratedRevision) == "" then
    completion <| Completion_Status := CompletionPassed |> <| Completion_Done := true |>
  else if ProjectGate_SatisfiedAt board.(Board_Gate) board.(Board_IntegratedRevision) then
    completion <| Completion_Status := CompletionPassed |> <| Completion_Done := true |>
               <| Completion_Proven := true |>
  else if (board.(Board_Gate).(ProjectGate_State) == GateFailed)
          && (board.(Board_Gate).(ProjectGate_Revision) == board.(Board_IntegratedRevision)) then
    completion <| Completion_Status := CompletionFailed |>
  else completion <| Completion_Status := CompletionUnproven |>.

(** Structural validation of a board: [Board.Validate] of
    internal/agoboardprotocol/protocol.go with [validateAcyclic] and
    [validateAttemptsLeasesEvidence]; the declarative meaning of each check, and
    the equivalence between them. *)

(** * The validator *)

Module Acyclic.

(** The local variables of [validateAcyclic] that [visit] mutates. A missing key
    of a Go map of booleans reads as false. *)
Record marks : Type := mkMarks { visiting : gmap string bool; visited : gmap string bool }.
#[export] Instance marks_eta : Eta marks := λ r, mkMarks (r.(visiting)) (r.(visited)).

Definition marked (m : gmap string bool) (k : string) : bool := default false (m !! k).

Definition adjacency (dependencies : list Dependency) : gmap string (list string) :=
  foldl (λ adjacent d,
      <[d.(Dependency_TaskID) :=
          default [] (adjacent !! d.(Dependency_TaskID)) ++ [d.(Dependency_DependsOn)]]> adjacent)
    ∅ dependencies.

Definition errCycle (taskID : string) : error :=
  Errorf "dependency graph contains a cycle at task %q" [AStr taskID].

(** The recursive closure [visit]. Fuel bounds the depth of the call stack; out
    of fuel is a stack overflow, which [validateAcyclic_ok] excludes. *)
Fixpoint visit (fuel : nat) (adjacent : gmap string (list string)) (m : marks) (taskID : string)
  : result marks :=
  match fuel with
  | O => Panic
  | S fuel =>
      fail_if (marked m.(visiting) taskID) (errCycle taskID) ;;
      if marked m.(visited) taskID then Ok m else
      let m := m <| visiting := <[taskID := true]> m.(visiting) |> in
      m ← for_each (visit fuel adjacent) m (default [] (adjacent !! taskID));
      let m := m <| visiting := <[taskID := false]> m.(visiting) |> in
      Ok (m <| visited := <[taskID := true]> m.(visited) |>)
  end.

(** [range] over the task map visits the keys in an unspecified order, so the
    order is an argument. *)
Definition validateAcyclic (order : list string) (dependencies : list Dependency) : result unit :=
  for_each (visit (S (length order)) (adjacency dependencies)) (mkMarks ∅ ∅) order ;;
  Ok tt.

End Acyclic.

(** The loop over [board.Tasks], which builds the map of tasks by id. *)
Definition validateTask (tasks : gmap string Task) (task : Task) : result (gmap string Task) :=
  fail_if ((task.(Task_ID) == "") || (task.(Task_Title) == ""))
    (Errorf "task id and title are required" []) ;;
  fail_if (is_Some_b (tasks !! task.(Task_ID)))
    (Errorf "duplicate task id %q" [AStr task.(Task_ID)]) ;;
  wrap_err (λ err, Errorf "task %q: %w" [AStr task.(Task_ID); AWrap err])
    (TerminalContract_validate task.(Task_TerminalContract)) ;;
  fail_if (negb (validTaskState task.(Task_State)))
    (Errorf "task %q has invalid state %q" [AStr task.(Task_ID); AStr task.(Task_State)]) ;;
  fail_if (negb (validAccessMode task.(Task_AccessMode)))
    (Errorf "task %q has invalid access mode %q" [AStr task.(Task_ID); AStr task.(Task_AccessMode)]) ;;
  fail_if (negb (validFailureClass task.(Task_FailureClass)))
    (Errorf "task %q has invalid failure class %q" [AStr task.(Task_ID); AStr task.(Task_FailureClass)]) ;;
  fail_if (task.(Task_AttemptCount) <? 0)%Z
    (Errorf "task %q has a negative attempt count" [AStr task.(Task_ID)]) ;;
  fail_if ((task.(Task_State) == TaskRetryWait) && Time_IsZero task.(Task_NextEligibleAt))
    (Errorf "task %q is waiting to retry without a next eligible time" [AStr task.(Task_ID)]) ;;
  Ok (<[task.(Task_ID) := task]> tasks).

Definition edgeKey (dependency : Dependency) : string :=
  dependency.(Dependency_TaskID) +:+ String (Ascii.ascii_of_nat 0) "" +:+ dependency.(Dependency_DependsOn).

(** The loop over [board.Dependencies]; the state is the maps [dependencies] and [edges]. *)
Definition validateDependency (tasks : gmap string Task) (seen : gset string * gset string)
    (dependency : Dependency) : result (gset string * gset string) :=
  let '(dependencies, edges) := seen in
  fail_if (dependency.(Dependency_ID) == "") (Errorf "dependency id is required" []) ;;
  fail_if (bool_decide (dependency.(Dependency_ID) ∈ dependencies))
    (Errorf "duplicate dependency id %q" [AStr dependency.(Dependency_ID)]) ;;
  let dependencies := {[ dependency.(Dependency_ID) ]} ∪ dependencies in
  fail_if (dependency.(Dependency_TaskID) == dependency.(Dependency_DependsOn))
    (Errorf "dependency %q is a self-loop" [AStr dependency.(Dependency_ID)]) ;;
  fail_if (negb (is_Some_b (tasks !! dependency.(Dependency_TaskID))))
    (Errorf "dependency %q references missing task %q"
       [AStr dependency.(Dependency_ID); AStr dependency.(Dependency_TaskID)]) ;;
  fail_if (negb (is_Some_b (tasks !! dependency.(Dependency_DependsOn))))
    (Errorf "dependency %q references missing prerequisite %q"
       [AStr dependency.(Dependency_ID); AStr dependency.(Dependency_DependsOn)]) ;;
  fail_if (bool_decide (edgeKey dependency ∈ edges))
    (Errorf "duplicate dependency edge from %q to %q"
       [AStr dependency.(Dependency_TaskID); AStr dependency.(Dependency_DependsOn)]) ;;
  Ok (dependencies, {[ edgeKey dependency ]} ∪ edges).

(** The three loops of [validateAttemptsLeasesEvidence]. *)
Definition validateAttempt (board : Board) (tasks : gmap string Task)
    (attempts : gmap string Attempt) (attempt : Attempt) : result (gmap string Attempt) :=
  fail_if ((attempt.(Attempt_ID) == "") || (attempt.(Attempt_WorkerID) == ""))
    (Errorf "attempt id and worker id are required" []) ;;
  fail_if (is_Some_b (attempts !! attempt.(Attempt_ID)))
    (Errorf "duplicate attempt id %q" [AStr attempt.(Attempt_ID)]) ;;
  fail_if (negb (is_Some_b (tasks !! attempt.(Attempt_TaskID))))
    (Errorf "attempt %q references missing task %q" [AStr attempt.(Attempt_ID); AStr attempt.(Attempt_TaskID)]) ;;
  fail_if (negb (existsb (String.eqb attempt.(Attempt_State))
                   [AttemptLeased; AttemptRunning; AttemptVerifying; AttemptPassed; AttemptFailed]))
    (Errorf "attempt %q has invalid state %q" [AStr attempt.(Attempt_ID); AStr attempt.(Attempt_State)]) ;;
  fail_if (negb (validFailureClass attempt.(Attempt_FailureClass)))
    (Errorf "attempt %q has invalid failure class %q" [AStr attempt.(Attempt_ID); AStr attempt.(Attempt_FailureClass)]) ;;
  fail_if ((attempt.(Attempt_FencingToken) != "") && (attempt.(Attempt_Generation) =? 0)%Z)
    (Errorf "attempt %q has a fencing token without a generation" [AStr attempt.(Attempt_ID)]) ;;
  fail_if ((board.(Board_NextGeneration) <=? attempt.(Attempt_Generation))%Z
           && negb (attempt.(Attempt_Generation) =? 0)%Z)
    (Errorf "attempt %q generation %d is not below the board's next generation %d"
       [AStr attempt.(Attempt_ID); AInt attempt.(Attempt_Generation); AInt board.(Board_NextGeneration)]) ;;
  Ok (<[attempt.(Attempt_ID) := attempt]> attempts).

Definition validateLease (attempts : gmap string Attempt) (leases : gset string) (lease : Lease)
  : result (gset string) :=
  fail_if ((lease.(Lease_ID) == "") || (lease.(Lease_WorkerID) == ""))
    (Errorf "lease id and worker id are required" []) ;;
  fail_if (bool_decide (lease.(Lease_ID) ∈ leases))
    (Errorf "duplicate lease id %q" [AStr lease.(Lease_ID)]) ;;
  let leases := {[ lease.(Lease_ID) ]} ∪ leases in
  let mismatch := Errorf "lease %q does not match its attempt" [AStr lease.(Lease_ID)] in
  attempt ← non_nil (attempts !! lease.(Lease_AttemptID)) mismatch;
  fail_if ((attempt.(Attempt_TaskID) != lease.(Lease_TaskID))
           || (attempt.(Attempt_WorkerID) != lease.(Lease_WorkerID))) mismatch ;;
  fail_if ((lease.(Lease_State) != LeaseActive) && (lease.(Lease_State) != LeaseCompleted))
    (Errorf "lease %q has invalid state %q" [AStr lease.(Lease_ID); AStr lease.(Lease_State)]) ;;
  fail_if (negb (lease.(Lease_Generation) =? attempt.(Attempt_Generation))%Z
           || (lease.(Lease_FencingToken) != attempt.(Attempt_FencingToken)))
    (Errorf "lease %q fencing identity does not match its attempt" [AStr lease.(Lease_ID)]) ;;
  Ok leases.

Definition validateEvidence (attempts : gmap string Attempt) (evidence : gset string) (item : Evidence)
  : result (gset string) :=
  fail_if ((item.(Evidence_ID) == "") || (item.(Evidence_Artifact) == "") || (item.(Evidence_Summary) == ""))
    (Errorf "evidence id, artifact, and summary are required" []) ;;
  fail_if (bool_decide (item.(Evidence_ID) ∈ evidence))
    (Errorf "duplicate evidence id %q" [AStr item.(Evidence_ID)]) ;;
  let evidence := {[ item.(Evidence_ID) ]} ∪ evidence in
  let mismatch := Errorf "evidence %q does not match its attempt" [AStr item.(Evidence_ID)] in
  attempt ← non_nil (attempts !! item.(Evidence_AttemptID)) mismatch;
  fail_if ((attempt.(Attempt_TaskID) != item.(Evidence_TaskID))
           || (attempt.(Attempt_WorkerID) != item.(Evidence_WorkerID))) mismatch ;;
  fail_if ((item.(Evidence_State) != EvidenceSubmitted) && (item.(Evidence_State) != EvidenceAccepted)
           && (item.(Evidence_State) != EvidenceRejected))
    (Errorf "evidence %q has invalid state %q" [AStr item.(Evidence_ID); AStr item.(Evidence_State)]) ;;
  Ok evidence.

Definition validateAttemptsLeasesEvidence (board : Board) (tasks : gmap string Task) : result unit :=
  attempts ← for_each (validateAttempt board tasks) ∅ board.(Board_Attempts);
  for_each (validateLease attempts) ∅ board.(Board_Leases) ;;
  for_each (validateEvidence attempts) ∅ board.(Board_Evidence) ;;
  Ok tt.

(** The tasks' own order stands for the iteration order of the task map; by
    [Safety.validateAcyclic_order_irrelevant] no other order changes the verdict. *)
Definition Board_Validate (board : Board) : result unit :=
  fail_if (negb (board.(Board_SchemaVersion) =? SchemaVersion)%Z)
    (Errorf "unsupported board schema version %d" [AInt board.(Board_SchemaVersion)]) ;;
  fail_if (board.(Board_ID) == "") (Errorf "board id is required" []) ;;
  fail_if (board.(Board_Title) == "") (Errorf "board title is required" []) ;;
  tasks ← for_each validateTask ∅ board.(Board_Tasks);
  for_each (validateDependency tasks) (∅, ∅) board.(Board_Dependencies) ;;
  fail_if (board.(Board_Paused) && (board.(Board_PauseReason) == ""))
    (Errorf "a paused board requires a reason" []) ;;
  Acyclic.validateAcyclic (Task_ID <$> board.(Board_Tasks)) board.(Board_Dependencies) ;;
  validateAttemptsLeasesEvidence board tasks.
