(* ===== verification/Wellformed.v ===== *)
(** Well-formed boards: acyclic dependency graphs, and the declarative meaning of
    [Board.Validate]. *)
From stdpp Require Import relations.
From S2P Require Import Prelude Protocol Validate.

(** The cycle check of internal/agoboardprotocol/protocol.go decides acyclicity:
    a depth-first search with a visiting and a visited mark succeeds exactly on
    the dependency graphs without a cycle, whatever order the tasks are tried
    in and without exhausting its stack. *)

(** [task] depends on [prerequisite]. *)
Definition edge (deps : list Dependency) (task prerequisite : string) : Prop :=
  ∃ d, d ∈ deps ∧ d.(Dependency_TaskID) = task ∧ d.(Dependency_DependsOn) = prerequisite.

(** No task depends on itself through any number of edges. *)
Definition acyclic (deps : list Dependency) : Prop := ∀ task, ¬ tc (edge deps) task task.

(** Every edge leaves and enters a task of the list. *)
Definition closed (order : list string) (deps : list Dependency) : Prop :=
  ∀ task prerequisite, edge deps task prerequisite → task ∈ order ∧ prerequisite ∈ order.

(** * The adjacency lists hold the edges *)

Lemma adjacency_lookup deps (m : gmap string (list string)) t d :
  d ∈ default [] (foldl (λ adjacent d,
      <[d.(Dependency_TaskID) :=
          default [] (adjacent !! d.(Dependency_TaskID)) ++ [d.(Dependency_DependsOn)]]> adjacent)
    m deps !! t) ↔ d ∈ default [] (m !! t) ∨ edge deps t d.
Proof.
  revert m. induction deps as [|e deps IH]; intros m; cbn [foldl].
  - split; [by left|]. intros [?|(e & He & _)]; [done|]. by apply not_elem_of_nil in He.
  - rewrite IH. clear IH. unfold edge. rewrite lookup_insert.
    case_decide as Ht; cbn.
    + subst t. rewrite elem_of_app, list_elem_of_singleton. split.
      * intros [[?| ->]|(x & ? & ? & ?)]; [by left| |]; right.
        -- exists e. by split; [left|].
        -- exists x. by split; [right|].
      * intros [?|(x & [->|Hx]%elem_of_cons & Ht & <-)]; [by do 2 left| by left; right|].
        right. by exists x.
    + split.
      * intros [?|(x & ? & ? & ?)]; [by left|]. right. exists x. by split; [right|].
      * intros [?|(x & [->|Hx]%elem_of_cons & ? & <-)]; [by left|done|]. right. by exists x.
Qed.

Lemma adjacency_edge deps t d : d ∈ default [] (Acyclic.adjacency deps !! t) ↔ edge deps t d.
Proof.
  unfold Acyclic.adjacency. rewrite adjacency_lookup, lookup_empty. cbn.
  split; [intros [H|?]; [by apply not_elem_of_nil in H|done]|by right].
Qed.

Lemma marked_insert m k b x : Acyclic.marked (<[k := b]> m) x = if decide (x = k) then b else Acyclic.marked m x.
Proof. unfold Acyclic.marked. rewrite lookup_insert. repeat case_decide; by subst. Qed.

(** * Soundness: every visited task is the end of no infinite descent *)

Section soundness.
Context (deps : list Dependency).

Let below (d t : string) : Prop := edge deps t d.
Let settled (m : Acyclic.marks) : Prop :=
  ∀ t, Acyclic.marked m.(Acyclic.visited) t = true → Acc below t.
Let grows (m m' : Acyclic.marks) : Prop :=
  ∀ t, Acyclic.marked m.(Acyclic.visited) t = true → Acyclic.marked m'.(Acyclic.visited) t = true.

Lemma visit_all_sound f l m m' :
  (∀ m t m', f m t = Ok m' → settled m →
     settled m' ∧ grows m m' ∧ Acyclic.marked m'.(Acyclic.visited) t = true) →
  for_each f m l = Ok m' → settled m →
  settled m' ∧ grows m m' ∧ ∀ t, t ∈ l → Acyclic.marked m'.(Acyclic.visited) t = true.
Proof.
  intros Hf. revert m. induction l as [|t l IH]; intros m H Hm; cbn in H; inv_ok.
  - split_and!; [done|by intros ?|]. intros t Ht. by apply not_elem_of_nil in Ht.
  - match goal with H : f _ _ = _ |- _ => apply Hf in H as (H1 & H2 & H3); [|done] end.
    apply IH in H as (? & Hg & Hl); [|done]. split_and!; [done|by intros ??; apply Hg, H2|].
    intros u [->|Hu]%elem_of_cons; [by apply Hg|by apply Hl].
Qed.

Lemma visit_sound fuel m t m' :
  Acyclic.visit fuel (Acyclic.adjacency deps) m t = Ok m' → settled m →
  settled m' ∧ grows m m' ∧ Acyclic.marked m'.(Acyclic.visited) t = true.
Proof.
  revert m t m'. induction fuel as [|fuel IH]; intros m t m' H Hm; cbn in H; [done|].
  inv_ok. destruct (Acyclic.marked m.(Acyclic.visited) t) eqn:Hv; inv_ok.
  { split_and!; [done|by intros ?|done]. }
  match goal with H : for_each _ _ _ = _ |- _ =>
    apply (visit_all_sound _ _ _ _ IH) in H as (Hs & Hg & Hl); [|done] end. cbn.
  split_and!.
  - intros u. cbn. rewrite marked_insert. case_decide; subst; [intros _|by apply Hs].
    constructor. intros d Hd. by apply Hs, Hl, adjacency_edge.
  - intros u Hu. cbn. rewrite marked_insert. case_decide; [done|]. by apply Hg.
  - by rewrite marked_insert, decide_True.
Qed.

Lemma Acc_no_cycle t : Acc below t → ¬ tc (edge deps) t t.
Proof.
  induction 1 as [t _ IH]. intros Hc.
  assert (∃ d, edge deps t d ∧ tc (edge deps) d d) as (d & Hd & Hdd); [|by apply (IH d)].
  inversion Hc as [? ? Hd|? d ? Hd Hdt]; subst; exists d || exists t; (split; [done|]).
  - done.
  - by eapply tc_r.
Qed.

Lemma validateAcyclic_sound order :
  closed order deps → Acyclic.validateAcyclic order deps = Ok tt → acyclic deps.
Proof.
  intros Hcl H t Hc. unfold Acyclic.validateAcyclic in H. inv_ok.
  match goal with H : for_each _ _ _ = _ |- _ =>
    apply (visit_all_sound _ _ _ _ (visit_sound _)) in H as (Hs & _ & Hl); [|done] end.
  apply (Acc_no_cycle t); [|done]. apply Hs, Hl.
  inversion Hc as [? ? Hd|? d ? Hd _]; subst; by apply Hcl in Hd as [? _].
Qed.
End soundness.

(** * The depth of the search: a task is on the stack at most once *)

(** The tasks on the stack, and the fuel that is left for the others. *)
Definition on_stack (order : list string) (m : Acyclic.marks) (stack : gset string) : Prop :=
  (∀ t : string, Acyclic.marked m.(Acyclic.visiting) t = bool_decide (t ∈ stack)) ∧
  stack ⊆ list_to_set order.
Definition room (order : list string) (fuel : nat) (stack : gset string) : Prop :=
  size (list_to_set order : gset string) < size stack + fuel.

Section depth.
Context (order : list string).

Lemma stack_push m t (stack : gset string) :
  on_stack order m stack → t ∈ order →
  on_stack order (Acyclic.mkMarks (<[t := true]> m.(Acyclic.visiting)) m.(Acyclic.visited)) ({[ t ]} ∪ stack).
Proof.
  intros [Hm Hsub] Ht. split.
  - intros u. cbn. rewrite marked_insert. case_decide; subst.
    + by rewrite bool_decide_true by set_solver.
    + rewrite Hm. apply bool_decide_ext. set_solver.
  - apply union_subseteq. split; [|done]. intros u ->%elem_of_singleton. by apply elem_of_list_to_set.
Qed.

Lemma stack_pop m t (stack : gset string) visited :
  on_stack order m ({[ t ]} ∪ stack) → t ∉ stack →
  on_stack order (Acyclic.mkMarks (<[t := false]> m.(Acyclic.visiting)) visited) stack.
Proof.
  intros [Hm Hsub] Ht. split; [|set_solver]. intros u. cbn. rewrite marked_insert.
  case_decide; subst; [by rewrite bool_decide_false|]. rewrite Hm. apply bool_decide_ext. set_solver.
Qed.

Lemma room_push fuel t (stack : gset string) :
  room order (S fuel) stack → t ∉ stack → room order fuel ({[ t ]} ∪ stack).
Proof. unfold room. intros ??. rewrite size_union by set_solver. rewrite size_singleton. lia. Qed.

Lemma stack_empty : on_stack order (Acyclic.mkMarks ∅ ∅) ∅.
Proof. split; [|set_solver]. intros t. by rewrite bool_decide_false by set_solver. Qed.

Lemma room_enough : room order (S (length order)) ∅.
Proof.
  unfold room. rewrite size_empty.
  enough (size (list_to_set order : gset string) ≤ length order) by lia.
  clear. induction order as [|t l IH]; [by rewrite list_to_set_nil, size_empty|].
  rewrite list_to_set_cons, size_union_alt, size_singleton.
  pose proof (subseteq_size (list_to_set l ∖ {[ t ]}) (list_to_set l : gset string)
    (subseteq_difference_l _ _ _ (reflexivity _))). cbn. lia.
Qed.

Context (deps : list Dependency) (Hclosed : closed order deps).

(** The search ended within its fuel, and popped what it pushed. *)
Let ended (stack : gset string) (r : result Acyclic.marks) : Prop :=
  match r with Ok m => on_stack order m stack | Err _ => True | Panic => False end.

Lemma visit_all_ends f (l : list string) m stack :
  (∀ m t, t ∈ l → on_stack order m stack → ended stack (f m t)) →
  on_stack order m stack → ended stack (for_each f m l).
Proof.
  revert m. induction l as [|t l IH]; intros m Hf Hm; cbn; [done|].
  pose proof (Hf m t (list_elem_of_here _ _) Hm) as Ht.
  destruct (f m t) as [m1| |]; cbn; [|done..].
  apply IH; [|done]. intros m2 u Hu. apply Hf. by right.
Qed.

Lemma visit_ends fuel m t stack :
  on_stack order m stack → room order fuel stack → t ∈ order →
  ended stack (Acyclic.visit fuel (Acyclic.adjacency deps) m t).
Proof.
  revert m t stack. induction fuel as [|fuel IH]; intros m t stack Hm Hr Ht.
  { destruct Hm as [_ Hm%subseteq_size]. unfold room in Hr. lia. }
  cbn. rewrite (proj1 Hm t). case_bool_decide as Hnt; [done|]. cbn.
  destruct (Acyclic.marked m.(Acyclic.visited) t); [done|].
  pose proof (visit_all_ends (Acyclic.visit fuel (Acyclic.adjacency deps))
    (default [] (Acyclic.adjacency deps !! t)) _ _
    (λ m1 d Hd Hm1, IH m1 d ({[ t ]} ∪ stack) Hm1
       (room_push fuel t stack Hr Hnt)
       (proj2 (Hclosed _ _ (proj1 (adjacency_edge deps t d) Hd))))
    (stack_push m t stack Hm Ht)) as Hl.
  change (m <|Acyclic.visiting := <[t:=true]> (Acyclic.visiting m)|>) with
    (Acyclic.mkMarks (<[t := true]> m.(Acyclic.visiting)) m.(Acyclic.visited)).
  destruct (for_each _ _ _) as [m'| |]; cbn; [|done..]. by apply (stack_pop m').
Qed.

Lemma validateAcyclic_ends : Acyclic.validateAcyclic order deps ≠ Panic.
Proof.
  pose proof (visit_all_ends (Acyclic.visit (S (length order)) (Acyclic.adjacency deps)) order _ _
    (λ m t Ht Hm, visit_ends _ m t ∅ Hm room_enough Ht) stack_empty) as H.
  unfold Acyclic.validateAcyclic. by destruct (for_each _ _ _).
Qed.
End depth.

(** * Completeness: on an acyclic graph the search never meets its own stack *)

Section completeness.
Context (order : list string) (deps : list Dependency).
Context (Hclosed : closed order deps) (Hacyclic : acyclic deps).

Lemma visit_all_complete f (l : list string) m stack :
  (∀ m t, t ∈ l → on_stack order m stack → ∃ m', f m t = Ok m' ∧ on_stack order m' stack) →
  on_stack order m stack → ∃ m', for_each f m l = Ok m' ∧ on_stack order m' stack.
Proof.
  revert m. induction l as [|t l IH]; intros m Hf Hm; cbn; [by exists m|].
  destruct (Hf m t) as (m1 & -> & Hm1); [by left|done|]. cbn.
  apply IH; [|done]. intros m2 u Hu. apply Hf. by right.
Qed.

Lemma visit_complete fuel m t stack :
  on_stack order m stack → room order fuel stack → t ∈ order →
  (∀ u : string, u ∈ stack → tc (edge deps) u t) →
  ∃ m', Acyclic.visit fuel (Acyclic.adjacency deps) m t = Ok m' ∧ on_stack order m' stack.
Proof.
  revert m t stack. induction fuel as [|fuel IH]; intros m t stack Hm Hr Ht Hs.
  { destruct Hm as [_ Hm%subseteq_size]. unfold room in Hr. lia. }
  assert (t ∉ stack) as Hnt by (intros Hin; by apply (Hacyclic t), Hs). cbn.
  rewrite (proj1 Hm t), bool_decide_false by done. cbn.
  destruct (Acyclic.marked m.(Acyclic.visited) t) eqn:Hv; [by exists m|].
  edestruct (visit_all_complete (Acyclic.visit fuel (Acyclic.adjacency deps))
    (default [] (Acyclic.adjacency deps !! t))
    (Acyclic.mkMarks (<[t := true]> m.(Acyclic.visiting)) m.(Acyclic.visited)) ({[ t ]} ∪ stack))
    as (m' & Hm' & Hv'); [|by apply stack_push|].
  - intros m1 d Hd%adjacency_edge Hm1. apply IH; [done|by apply room_push| |].
    + by apply Hclosed in Hd as [_ ?].
    + intros u [->%elem_of_singleton|Hu]%elem_of_union; [by apply tc_once|].
      eapply tc_r; [by apply Hs|done].
  - cbn in Hm'. rewrite Hm'. cbn. eexists. split; [done|]. by apply (stack_pop order m').
Qed.

Lemma validateAcyclic_complete : Acyclic.validateAcyclic order deps = Ok tt.
Proof.
  unfold Acyclic.validateAcyclic.
  edestruct (visit_all_complete (Acyclic.visit (S (length order)) (Acyclic.adjacency deps)) order
    (Acyclic.mkMarks ∅ ∅) ∅) as (m & -> & _); [|apply stack_empty|done].
  intros m t Ht Hm. apply visit_complete; [done|apply room_enough|done|set_solver].
Qed.
End completeness.

(** * The cycle check *)

Lemma validateAcyclic_ok order deps :
  closed order deps → Acyclic.validateAcyclic order deps = Ok tt ↔ acyclic deps.
Proof.
  intros Hc. split; [by apply validateAcyclic_sound|by apply validateAcyclic_complete].
Qed.

(** Along the edges of an acyclic graph there is no infinite descent. *)
Lemma acyclic_Acc order deps t :
  closed order deps → acyclic deps → Acc (λ d t, edge deps t d) t.
Proof.
  intros Hc Ha. pose proof (validateAcyclic_complete order deps Hc Ha) as H.
  unfold Acyclic.validateAcyclic in H. inv_ok.
  match goal with H : for_each _ _ _ = _ |- _ =>
    apply (visit_all_sound _ _ _ _ _ (visit_sound deps _)) in H as (Hs & _ & Hl); [|done] end.
  constructor. intros d Hd. by apply Hs, Hl, (Hc t d).
Qed.

(** What a structurally valid board is, stated on its entities, and the
    equivalence with [Board.Validate]: the validator accepts exactly the
    well-formed boards. *)

(** * Well-formed entities *)

Definition contract_ok (c : TerminalContract) : Prop :=
  c.(TerminalContract_Outcome) ≠ "" ∧ c.(TerminalContract_AcceptanceCriteria) ≠ [] ∧
  Forall (λ criterion, criterion ≠ "") c.(TerminalContract_AcceptanceCriteria).

Definition task_ok (t : Task) : Prop :=
  t.(Task_ID) ≠ "" ∧ t.(Task_Title) ≠ "" ∧ contract_ok t.(Task_TerminalContract) ∧
  validTaskState t.(Task_State) = true ∧ validAccessMode t.(Task_AccessMode) = true ∧
  validFailureClass t.(Task_FailureClass) = true ∧ (0 ≤ t.(Task_AttemptCount))%Z ∧
  (t.(Task_State) = TaskRetryWait → t.(Task_NextEligibleAt) ≠ Time_zero).

Definition dependency_ok (tasks : gmap string Task) (d : Dependency) : Prop :=
  d.(Dependency_ID) ≠ "" ∧ d.(Dependency_TaskID) ≠ d.(Dependency_DependsOn) ∧
  is_Some (tasks !! d.(Dependency_TaskID)) ∧ is_Some (tasks !! d.(Dependency_DependsOn)).

Definition attempt_ok (tasks : gmap string Task) (next : Z) (a : Attempt) : Prop :=
  a.(Attempt_ID) ≠ "" ∧ a.(Attempt_WorkerID) ≠ "" ∧ is_Some (tasks !! a.(Attempt_TaskID)) ∧
  a.(Attempt_State) ∈ [AttemptLeased; AttemptRunning; AttemptVerifying; AttemptPassed; AttemptFailed] ∧
  validFailureClass a.(Attempt_FailureClass) = true ∧
  (a.(Attempt_FencingToken) ≠ "" → a.(Attempt_Generation) ≠ 0%Z) ∧
  ((a.(Attempt_Generation) < next)%Z ∨ a.(Attempt_Generation) = 0%Z).

(** A lease carries the task, worker and fencing identity of its attempt. *)
Definition lease_ok (attempts : gmap string Attempt) (l : Lease) : Prop :=
  l.(Lease_ID) ≠ "" ∧ l.(Lease_WorkerID) ≠ "" ∧ l.(Lease_State) ∈ [LeaseActive; LeaseCompleted] ∧
  ∃ a, attempts !! l.(Lease_AttemptID) = Some a ∧ a.(Attempt_TaskID) = l.(Lease_TaskID) ∧
    a.(Attempt_WorkerID) = l.(Lease_WorkerID) ∧ l.(Lease_Generation) = a.(Attempt_Generation) ∧
    l.(Lease_FencingToken) = a.(Attempt_FencingToken).

Definition evidence_ok (attempts : gmap string Attempt) (e : Evidence) : Prop :=
  e.(Evidence_ID) ≠ "" ∧ e.(Evidence_Artifact) ≠ "" ∧ e.(Evidence_Summary) ≠ "" ∧
  e.(Evidence_State) ∈ [EvidenceSubmitted; EvidenceAccepted; EvidenceRejected] ∧
  ∃ a, attempts !! e.(Evidence_AttemptID) = Some a ∧ a.(Attempt_TaskID) = e.(Evidence_TaskID) ∧
    a.(Attempt_WorkerID) = e.(Evidence_WorkerID).

Record well_formed (b : Board) : Prop := {
  wf_schema : b.(Board_SchemaVersion) = SchemaVersion;
  wf_id : b.(Board_ID) ≠ "";
  wf_title : b.(Board_Title) ≠ "";
  wf_paused : b.(Board_Paused) = true → b.(Board_PauseReason) ≠ "";
  wf_tasks : Forall task_ok b.(Board_Tasks);
  wf_task_ids : NoDup (Task_ID <$> b.(Board_Tasks));
  wf_deps : Forall (dependency_ok (by_key Task_ID b.(Board_Tasks))) b.(Board_Dependencies);
  wf_dep_ids : NoDup (Dependency_ID <$> b.(Board_Dependencies));
  wf_edges : NoDup (edgeKey <$> b.(Board_Dependencies));
  wf_acyclic : acyclic b.(Board_Dependencies);
  wf_attempts : Forall (attempt_ok (by_key Task_ID b.(Board_Tasks)) b.(Board_NextGeneration))
                  b.(Board_Attempts);
  wf_attempt_ids : NoDup (Attempt_ID <$> b.(Board_Attempts));
  wf_leases : Forall (lease_ok (by_key Attempt_ID b.(Board_Attempts))) b.(Board_Leases);
  wf_lease_ids : NoDup (Lease_ID <$> b.(Board_Leases));
  wf_evidence : Forall (evidence_ok (by_key Attempt_ID b.(Board_Attempts))) b.(Board_Evidence);
  wf_evidence_ids : NoDup (Evidence_ID <$> b.(Board_Evidence));
}.

(** * Guards as conjunctions *)

Lemma fail_if_bind {A} c e (m : result A) a : (fail_if c e ;; m) = Ok a ↔ c = false ∧ m = Ok a.
Proof. destruct c; cbn; naive_solver. Qed.

Lemma non_nil_bind {A B} (p : option A) e (f : A → result B) b :
  (non_nil p e ≫= f) = Ok b ↔ ∃ a, p = Some a ∧ f a = Ok b.
Proof. destruct p; cbn; naive_solver. Qed.

Lemma wrap_err_bind {A} g (m : result unit) (k : result A) a :
  (wrap_err g m ;; k) = Ok a ↔ m = Ok tt ∧ k = Ok a.
Proof. destruct m as [[]| |]; cbn; naive_solver. Qed.

Lemma Ok_iff {A} (x y : A) : Ok x = Ok y ↔ x = y.
Proof. naive_solver. Qed.

Lemma existsb_eqb_elem x l : existsb (String.eqb x) l = true ↔ x ∈ l.
Proof.
  rewrite existsb_exists. setoid_rewrite String.eqb_eq.
  setoid_rewrite <- list_elem_of_In.
  split; [by intros (? & ? & ->)|by exists x].
Qed.

Lemma is_Some_b_false {A} (o : option A) : is_Some_b o = false ↔ o = None.
Proof. by destruct o. Qed.
Lemma is_Some_b_true {A} (o : option A) : is_Some_b o = true ↔ is_Some o.
Proof. destruct o; cbn; split; try done; by intros [? ?]. Qed.

(** Booleans of the guards, as propositions. *)
Ltac to_prop :=
  rewrite ?fail_if_bind, ?wrap_err_bind, ?fail_if_bind, ?Ok_iff, ?orb_false_iff, ?negb_false_iff,
    ?is_Some_b_false, ?is_Some_b_true, ?existsb_eqb_elem, ?bool_decide_eq_false, ?String.eqb_neq,
    ?String.eqb_eq, ?Z.ltb_ge, ?Z.eqb_eq.

Lemma guard_implies (p q : string) (c : bool) :
  (p == q) && c = false ↔ (p = q → c = false).
Proof. destruct (String.eqb_spec p q); cbn; naive_solver. Qed.

Lemma guard_implies_ne (p q : string) (c : bool) :
  (p != q) && c = false ↔ (p ≠ q → c = false).
Proof. destruct (String.eqb_spec p q); cbn; naive_solver. Qed.

Lemma TerminalContract_validate_ok c : TerminalContract_validate c = Ok tt ↔ contract_ok c.
Proof.
  unfold TerminalContract_validate, contract_ok. to_prop. rewrite for_each_Ok_unit.
  setoid_rewrite fail_if_Ok. setoid_rewrite String.eqb_neq.
  destruct (TerminalContract_AcceptanceCriteria c); cbn; naive_solver.
Qed.

(** * The steps of the validator's loops *)

Lemma validateTask_step m t m' :
  validateTask m t = Ok m' ↔ task_ok t ∧ m !! t.(Task_ID) = None ∧ m' = <[t.(Task_ID) := t]> m.
Proof.
  unfold validateTask, task_ok, Time_IsZero. to_prop. rewrite guard_implies, Z.eqb_neq,
    TerminalContract_validate_ok. unfold Time_zero. naive_solver.
Qed.

Lemma validateAttempt_step b tasks m a m' :
  validateAttempt b tasks m a = Ok m' ↔
  attempt_ok tasks b.(Board_NextGeneration) a ∧ m !! a.(Attempt_ID) = None ∧
  m' = <[a.(Attempt_ID) := a]> m.
Proof.
  unfold validateAttempt, attempt_ok. to_prop. rewrite guard_implies_ne, Z.eqb_neq.
  rewrite andb_false_iff, negb_false_iff, Z.leb_gt, Z.eqb_eq. naive_solver.
Qed.

Lemma validateLease_step attempts s l s' :
  validateLease attempts s l = Ok s' ↔
  lease_ok attempts l ∧ l.(Lease_ID) ∉ s ∧ s' = {[ l.(Lease_ID) ]} ∪ s.
Proof.
  unfold validateLease, lease_ok. rewrite !elem_of_cons, elem_of_nil.
  destruct (attempts !! _) as [a|]; cbn [non_nil mbind result_bind]; to_prop;
    rewrite ?andb_false_iff, ?negb_false_iff, ?String.eqb_eq; naive_solver.
Qed.

Lemma validateEvidence_step attempts s e s' :
  validateEvidence attempts s e = Ok s' ↔
  evidence_ok attempts e ∧ e.(Evidence_ID) ∉ s ∧ s' = {[ e.(Evidence_ID) ]} ∪ s.
Proof.
  unfold validateEvidence, evidence_ok. rewrite !elem_of_cons, elem_of_nil.
  destruct (attempts !! _) as [a|]; cbn [non_nil mbind result_bind]; to_prop;
    rewrite ?andb_false_iff, ?negb_false_iff, ?String.eqb_eq; naive_solver.
Qed.

Lemma validateDependency_step tasks D E d w :
  validateDependency tasks (D, E) d = Ok w ↔
  dependency_ok tasks d ∧ d.(Dependency_ID) ∉ D ∧ edgeKey d ∉ E ∧
  w = ({[ d.(Dependency_ID) ]} ∪ D, {[ edgeKey d ]} ∪ E).
Proof. unfold validateDependency, dependency_ok. to_prop. naive_solver. Qed.

(** * The loops *)

(** A loop that checks each element and that its key is new. *)
Section distinct.
Context {A S : Type} (key : A → string) (P : A → Prop) (mem : string → S → Prop) (ins : A → S → S).
Context (step : S → A → result S).
Context (Hstep : ∀ s x s', step s x = Ok s' ↔ P x ∧ ¬ mem (key x) s ∧ s' = ins x s).
Context (Hmem : ∀ s x k, mem k (ins x s) ↔ k = key x ∨ mem k s).

Lemma for_each_distinct s l s' :
  for_each step s l = Ok s' ↔
  Forall P l ∧ NoDup (key <$> l) ∧ Forall (λ x, ¬ mem (key x) s) l ∧
  s' = foldl (λ s x, ins x s) s l.
Proof.
  revert s. induction l as [|x l IH]; intros s; cbn.
  - rewrite Ok_iff. split; [intros <-|by intros (_ & _ & _ & ->)].
    split_and!; try done; constructor.
  - rewrite bind_Ok, !Forall_cons, NoDup_cons. setoid_rewrite IH. setoid_rewrite Hstep.
    assert (Forall (λ y, ¬ mem (key y) (ins x s)) l ↔
            key x ∉ key <$> l ∧ Forall (λ y, ¬ mem (key y) s) l) as E; [|naive_solver].
    rewrite list_elem_of_fmap, !Forall_forall. setoid_rewrite Hmem. split.
    + intros H. split; [intros (y & Hy & Hin); by apply (H y Hin); left|].
      intros y Hin Hy. apply (H y Hin). by right.
    + intros [Hx H] y Hin [Hy|Hy]; [apply Hx; by exists y|by apply (H y)].
Qed.
End distinct.

Lemma foldl_by_key {A} (key : A → string) (m : gmap string A) l :
  NoDup (key <$> l) → foldl (λ m x, <[key x := x]> m) m l = by_key key l ∪ m.
Proof.
  revert m. induction l as [|x l IH]; intros m; cbn [fmap list_fmap foldl];
    [intros _; change (by_key key []) with (∅ : gmap string A); by rewrite (left_id_L ∅ (∪))|].
  rewrite NoDup_cons. intros [Hx Hnd]. rewrite IH, by_key_cons by done.
  rewrite <- insert_union_r, insert_union_l; [done|]. apply by_key_None.
  apply Forall_forall. intros y Hy E. apply Hx. rewrite <- E. by apply list_elem_of_fmap_2.
Qed.

Lemma loop_map {A} (key : A → string) (P : A → Prop) step l m :
  (∀ m x m', step m x = Ok m' ↔ P x ∧ m !! key x = None ∧ m' = <[key x := x]> m) →
  for_each step ∅ l = Ok m ↔ Forall P l ∧ NoDup (key <$> l) ∧ m = by_key key l.
Proof.
  intros Hstep.
  rewrite (for_each_distinct key P (λ k m, is_Some (m !! k)) (λ x m, <[key x := x]> m)).
  - split.
    + intros (? & Hnd & _ & ->). split_and!; [done..|]. by rewrite foldl_by_key, (right_id_L ∅ (∪)).
    + intros (? & Hnd & ->). rewrite foldl_by_key, (right_id_L ∅ (∪)) by done. split_and!; try done.
      apply Forall_forall. intros x _ [y Hy]. by rewrite lookup_empty in Hy.
  - intros m0 x m'. by rewrite Hstep, eq_None_not_Some.
  - intros m0 x k. rewrite lookup_insert_is_Some'. naive_solver.
Qed.

Lemma loop_set {A} (key : A → string) (P : A → Prop) step l :
  (∀ s x s', step s x = Ok s' ↔ P x ∧ key x ∉ s ∧ s' = {[ key x ]} ∪ s) →
  (∃ s : gset string, for_each step ∅ l = Ok s) ↔ Forall P l ∧ NoDup (key <$> l).
Proof.
  intros Hstep. setoid_rewrite (for_each_distinct key P (λ k (s : gset string), k ∈ s)
    (λ x s, {[ key x ]} ∪ s) step Hstep); [|set_solver].
  split; [naive_solver|]. intros [? ?]. eexists. split_and!; try done.
  apply Forall_forall. set_solver.
Qed.

Lemma loop_dependencies tasks D E l :
  (∃ w, for_each (validateDependency tasks) (D, E) l = Ok w) ↔
  Forall (dependency_ok tasks) l ∧ NoDup (Dependency_ID <$> l) ∧ NoDup (edgeKey <$> l) ∧
  (∀ d, d ∈ l → d.(Dependency_ID) ∉ D ∧ edgeKey d ∉ E).
Proof.
  revert D E. induction l as [|d l IH]; intros D E; cbn [for_each fmap list_fmap].
  - split; [|by eexists]. intros _. split_and!; [constructor..|]. intros d Hd.
    by apply not_elem_of_nil in Hd.
  - setoid_rewrite bind_Ok. setoid_rewrite validateDependency_step.
    rewrite !Forall_cons, !NoDup_cons, !list_elem_of_fmap. split.
    + intros (w & ? & (Hok & HD & HE & ->) & H). destruct (proj1 (IH _ _) (ex_intro _ w H)) as (? & ? & ? & Hl).
      split_and!; try done.
      * intros (x & Hx & Hin). apply Hl in Hin. set_solver.
      * intros (x & Hx & Hin). apply Hl in Hin. set_solver.
      * intros x [->|Hin]%elem_of_cons; [done|]. apply Hl in Hin. set_solver.
    + intros ([Hok Hl] & [Hd Hnd] & [He Hne] & Hfresh).
      destruct (proj2 (IH ({[ d.(Dependency_ID) ]} ∪ D) ({[ edgeKey d ]} ∪ E))) as [w Hw].
      { split_and!; try done. intros x Hx. destruct (Hfresh x); [by right|].
        split; (apply not_elem_of_union; split; [|done]); intros E'%elem_of_singleton;
          [apply Hd|apply He]; by exists x. }
      exists w. eexists. split; [|exact Hw]. destruct (Hfresh d); [by left|]. done.
Qed.

Lemma dependencies_closed tasks deps :
  Forall (dependency_ok (by_key Task_ID tasks)) deps → closed (Task_ID <$> tasks) deps.
Proof.
  rewrite Forall_forall. intros Hok t p (d & Hd & <- & <-).
  apply Hok in Hd as (_ & _ & [x Hx] & [y Hy]).
  apply by_key_Some in Hx as [Hx <-], Hy as [Hy <-]. split; by apply list_elem_of_fmap_2.
Qed.

(** * The validator *)

Lemma validate_entities b :
  validateAttemptsLeasesEvidence b (by_key Task_ID b.(Board_Tasks)) = Ok tt ↔
  (Forall (attempt_ok (by_key Task_ID b.(Board_Tasks)) b.(Board_NextGeneration)) b.(Board_Attempts) ∧
   NoDup (Attempt_ID <$> b.(Board_Attempts))) ∧
  (Forall (lease_ok (by_key Attempt_ID b.(Board_Attempts))) b.(Board_Leases) ∧
   NoDup (Lease_ID <$> b.(Board_Leases))) ∧
  (Forall (evidence_ok (by_key Attempt_ID b.(Board_Attempts))) b.(Board_Evidence) ∧
   NoDup (Evidence_ID <$> b.(Board_Evidence))).
Proof.
  unfold validateAttemptsLeasesEvidence. rewrite bind_Ok.
  setoid_rewrite (loop_map Attempt_ID _ _ _ _ (validateAttempt_step b _)).
  rewrite <- !(loop_set Lease_ID _ _ _ (validateLease_step _)).
  rewrite <- !(loop_set Evidence_ID _ _ _ (validateEvidence_step _)).
  split.
  - intros (m & (? & ? & ->) & Hrest). inv_ok. eauto 10.
  - intros ([? ?] & [s1 H1] & [s2 H2]). eexists. split; [done|]. rewrite H1. cbn. by rewrite H2.
Qed.

Lemma Board_Validate_ok b : Board_Validate b = Ok tt ↔ well_formed b.
Proof.
  unfold Board_Validate. to_prop. rewrite bind_Ok.
  setoid_rewrite (loop_map Task_ID _ _ _ _ validateTask_step). split.
  - intros (Hs & Hi & Ht & tasks & (Hok & Hnd & ->) & H). inv_ok.
    edestruct (proj1 (loop_dependencies (by_key Task_ID b.(Board_Tasks)) ∅ ∅ b.(Board_Dependencies)))
      as (? & ? & ? & _); [by eexists|].
    destruct (proj1 (validate_entities b)) as ((? & ?) & (? & ?) & (? & ?)); [done|].
    match goal with H : Acyclic.validateAcyclic _ _ = Ok () |- _ =>
      apply validateAcyclic_ok in H; [|by apply dependencies_closed] end.
    split; try done. intros Hp. rewrite Hp in *. cbn in *. by inv_bool.
  - intros []. split_and!; try done. eexists. split; [by split_and!|].
    destruct (proj2 (loop_dependencies (by_key Task_ID b.(Board_Tasks)) ∅ ∅ b.(Board_Dependencies)))
      as [w ->]; [split_and!; try done; set_solver|]. cbn.
    rewrite fail_if_bind, bind_Ok. split.
    { destruct (Board_Paused b); [|done]. cbn. by apply String.eqb_neq; auto. }
    exists tt. split; [by apply validateAcyclic_ok; [apply dependencies_closed|]|].
    by apply validate_entities.
Qed.
