(* ===== verification/Planning.v ===== *)
(** What the planning contract guarantees: [Plan.Validate] decides the admissible
    plans, and the demo planner succeeds exactly on the requests that can host
    its plan. *)
From Stdlib Require Import Ascii.
From S2P Require Import Prelude Paths Planner Protocol Validate Wellformed.

(** * Scopes are directories *)

Lemma prefix_append p s : String.prefix p s = true ↔ ∃ rest, s = p +:+ rest.
Proof.
  revert s. induction p as [|a p IH]; intros s.
  - rewrite prefix_nil. split; [by exists s|done].
  - destruct s as [|b s]; [split; [done|by intros (? & ?)]|].
    rewrite prefix_cons, andb_true_iff, Ascii.eqb_eq, IH. split.
    + intros (-> & rest & ->). by exists rest.
    + intros (rest & [= -> ->]). eauto.
Qed.

Lemma append_assoc (x y z : string) : (x +:+ y) +:+ z = x +:+ y +:+ z.
Proof. induction x as [|c x IH]; [done|]. exact (f_equal (String c) IH). Qed.

Lemma components_app root rest : components (root +:+ String slash rest) = components root ++ components rest.
Proof.
  induction root as [|c root IH]; [done|].
  change (String c root +:+ String slash rest) with (String c (root +:+ String slash rest)).
  rewrite !components_slash, IH. destruct (Ascii.eqb c slash); [done|].
  by destruct (components_cons root) as (x & xs & ->).
Qed.

Lemma join_app (xs ys : list string) :
  xs ≠ [] → ys ≠ [] → strings_Join (xs ++ ys) "/" = strings_Join xs "/" +:+ "/" +:+ strings_Join ys "/".
Proof.
  intros Hx Hy. induction xs as [|x xs IH]; [done|]. destruct xs as [|x' xs].
  - destruct ys; [done|]. done.
  - change (strings_Join ((x :: x' :: xs) ++ ys) "/")
      with (x +:+ "/" +:+ strings_Join ((x' :: xs) ++ ys) "/").
    rewrite IH by done.
    change (strings_Join (x :: x' :: xs) "/") with (x +:+ "/" +:+ strings_Join (x' :: xs) "/").
    by rewrite !append_assoc.
Qed.

(** The path is the root or lies below it. *)
Definition within (root scope : string) : Prop := components root `prefix_of` components scope.

Lemma within_test root scope :
  (scope == root) || strings_HasPrefix scope (root +:+ "/") = true ↔ within root scope.
Proof.
  rewrite orb_true_iff, String.eqb_eq. unfold strings_HasPrefix, within. rewrite prefix_append. split.
  - intros [->|(rest & ->)]; [done|]. rewrite append_assoc. change ("/" +:+ rest) with (String slash rest).
    rewrite components_app. by apply prefix_app_r.
  - intros (ys & E). destruct ys as [|y ys].
    + left. rewrite app_nil_r in E. by rewrite <- (join_components scope), E, join_components.
    + right. exists (strings_Join (y :: ys) "/"). rewrite append_assoc.
      rewrite <- (join_components scope), E, join_app, join_components; [done| |done].
      destruct (components_cons root) as (? & ? & ->). done.
Qed.

Lemma scopeAllowed_within scope allowed :
  scopeAllowed scope allowed = true ↔ Exists (λ root, within root scope) allowed.
Proof.
  unfold scopeAllowed. rewrite existsb_exists, Exists_exists.
  setoid_rewrite within_test. by setoid_rewrite list_elem_of_In.
Qed.

Lemma validScope_proper scope : validScope scope = true ↔ Forall proper (components scope).
Proof.
  unfold validScope. rewrite !andb_true_iff, !negb_true_iff, !String.eqb_neq, String.eqb_eq.
  pose proof (first_component "" scope eq_refl) as H0.
  pose proof (first_component ".." scope eq_refl) as H2.
  change ("" +:+ "/") with "/" in H0. change (".." +:+ "/") with "../" in H2.
  split.
  - intros (((((Hne & Hdot) & Hr) & Hc) & Hup) & Hup').
    apply clean_relative; [done|rewrite H0|done|rewrite H2|done]; intros [?|?]; congruence.
  - intros Hp. assert (∀ x, ¬ proper x → head (components scope) ≠ Some x) as Hx.
    { intros x Hx E. apply Hx. destruct (components scope); [done|]. injection E as ->. by inversion Hp. }
    assert (scope ≠ "") as Hne by (intros ->; inversion Hp as [|? ? [? _]]; congruence).
    assert (scope ≠ ".") as Hdot by (intros ->; inversion Hp as [|? ? [_ [? _]]]; congruence).
    assert (head (components scope) ≠ Some "") as Hr by (apply Hx; unfold proper; naive_solver).
    assert (head (components scope) ≠ Some "..") as Hup by (apply Hx; unfold proper; naive_solver).
    rewrite (proj2 (clean_relative scope Hne Hr Hdot Hup)) by done.
    split_and!; try done; apply not_true_iff_false || idtac; naive_solver.
Qed.

(** * The cycle check *)

(** The dependencies of a plan as those of a board. *)
Definition dependencyOf (d : DependencyProposal) : Dependency :=
  mkDependency "" d.(DependencyProposal_TaskID) d.(DependencyProposal_DependsOn).

Lemma adjacency_plan deps m :
  foldl addEdge m deps =
  foldl (λ adjacent d,
      <[d.(Dependency_TaskID) :=
          default [] (adjacent !! d.(Dependency_TaskID)) ++ [d.(Dependency_DependsOn)]]> adjacent)
    m (dependencyOf <$> deps).
Proof. revert m. induction deps as [|d deps IH]; intros m; [done|]. apply IH. Qed.

(** The map [state] against the two maps of [validateAcyclic]. *)
Definition same_marks (state : gmap string Z) (m : Acyclic.marks) : Prop :=
  ∀ t, stateOf state t =
    if Acyclic.marked m.(Acyclic.visiting) t then 1%Z
    else if Acyclic.marked m.(Acyclic.visited) t then 2%Z else 0%Z.

Definition same_outcome (r : result (gmap string Z * bool)) (r' : result Acyclic.marks) : Prop :=
  match r, r' with
  | Ok (state, false), Ok m => same_marks state m
  | Ok (_, true), Err _ => True
  | Panic, Panic => True
  | _, _ => False
  end.

Lemma stateOf_insert state k z t : stateOf (<[k := z]> state) t = if decide (t = k) then z else stateOf state t.
Proof. unfold stateOf. rewrite lookup_insert. repeat case_decide; by subst. Qed.

Lemma visitAny_same visit visit' l state m :
  (∀ state m t, same_marks state m → same_outcome (visit state t) (visit' m t)) →
  same_marks state m → same_outcome (visitAny visit state l) (for_each visit' m l).
Proof.
  intros Hv. revert state m. induction l as [|t l IH]; intros state m Hm; [done|]. cbn.
  pose proof (Hv state m t Hm) as H.
  destruct (visit state t) as [[state' []]| |], (visit' m t) as [m'| |]; cbn in *; try done. by apply IH.
Qed.

Lemma visitTask_same fuel adjacency state m t :
  same_marks state m →
  same_outcome (visitTask fuel adjacency state t) (Acyclic.visit fuel adjacency m t).
Proof.
  revert state m t. induction fuel as [|fuel IH]; intros state m t Hm; [done|]. cbn.
  pose proof (Hm t) as ->. destruct (Acyclic.marked (Acyclic.visiting m) t) eqn:E1; cbn; [done|].
  destruct (Acyclic.marked (Acyclic.visited m) t) eqn:E2; cbn; [done|].
  match goal with |- context [for_each _ ?m1 _] => assert (same_marks (<[t := 1%Z]> state) m1) as H1 end.
  { intros u. cbn. rewrite stateOf_insert, marked_insert. by case_decide. }
  pose proof (visitAny_same _ _ (default [] (adjacency !! t)) _ _ IH H1) as H.
  destruct (visitAny _ _ _) as [[state' []]| |], (for_each _ _ _) as [m'| |]; cbn in *; try done.
  intros u. cbn. rewrite stateOf_insert, !marked_insert. by case_decide.
Qed.

Lemma hasCycle_validateAcyclic order deps :
  hasCycle order (foldl addEdge ∅ deps) =
  match Acyclic.validateAcyclic order (dependencyOf <$> deps) with
  | Ok _ => Ok false | Err _ => Ok true | Panic => Panic
  end.
Proof.
  unfold hasCycle, Acyclic.validateAcyclic. rewrite adjacency_plan. fold (Acyclic.adjacency (dependencyOf <$> deps)).
  pose proof (visitAny_same _ _ order ∅ (Acyclic.mkMarks ∅ ∅)
    (λ st m t, visitTask_same (S (length order)) (Acyclic.adjacency (dependencyOf <$> deps)) st m t)
    (λ t, eq_refl)) as H.
  by destruct (visitAny _ _ _) as [[state' []]| |], (for_each _ _ _) as [m'| |].
Qed.

(** Whatever the order in which the tasks are visited. *)
Lemma hasCycle_decides order deps :
  closed order (dependencyOf <$> deps) →
  ∃ b, hasCycle order (foldl addEdge ∅ deps) = Ok b ∧ (b = false ↔ acyclic (dependencyOf <$> deps)).
Proof.
  intros Hc. rewrite hasCycle_validateAcyclic. pose proof (validateAcyclic_ok _ _ Hc) as H.
  pose proof (validateAcyclic_ends _ _ Hc) as Hp.
  destruct (Acyclic.validateAcyclic _ _) as [[]| |]; [exists false|exists true|done]; naive_solver.
Qed.

(** * The loops *)

(** Between one and [maximum] values, none blank, none twice. *)
Definition bounded (maximum : Z) (values : list string) : Prop :=
  values ≠ [] ∧ (len values ≤ maximum)%Z ∧ Forall (λ v, blank v = false) values ∧ NoDup values.

Lemma bounded_blank maximum values : bounded maximum values → Forall (λ v, blank v = false) values.
Proof. by intros (_ & _ & ? & _). Qed.

Lemma unit_bind_Ok {A B} (m : result A) (k : result B) b :
  (m ;; k) = Ok b ↔ (∃ a, m = Ok a) ∧ k = Ok b.
Proof. destruct m; cbn; naive_solver. Qed.

Lemma fail_if_then {B} c e (k : result B) b : (fail_if c e ;; k) = Ok b ↔ c = false ∧ k = Ok b.
Proof. destruct c; cbn; naive_solver. Qed.

Lemma len_zero {A} (l : list A) : (len l =? 0)%Z = false ↔ l ≠ [].
Proof. rewrite Z.eqb_neq. destruct l; unfold len; cbn; [naive_solver lia|]. split; [done|lia]. Qed.

Lemma bool_decide_out (x : string) (s : gset string) : bool_decide (x ∈ s) = false ↔ x ∉ s.
Proof. apply bool_decide_eq_false. Qed.
Lemma bool_decide_in (x : string) (s : gset string) : negb (bool_decide (x ∈ s)) = false ↔ x ∈ s.
Proof. by rewrite negb_false_iff, bool_decide_eq_true. Qed.
#[export] Hint Rewrite @fail_if_then @len_zero bool_decide_out bool_decide_in orb_false_iff Z.ltb_ge
  @wrap_err_Ok @fail_if_Ok @for_each_Ok_unit negb_false_iff String.eqb_eq String.eqb_neq : ago_rw.

Lemma requiredBoundedStrings_ok name values maximum u :
  requiredBoundedStrings name values maximum = Ok u ↔ bounded maximum values.
Proof.
  destruct u. unfold requiredBoundedStrings, bounded. autorewrite with ago_rw. rewrite unit_bind_Ok.
  setoid_rewrite (for_each_seen id (λ v, blank v = false)).
  - rewrite list_fmap_id. split; [intros [[? ?] [[? (?&?&?&?)] _]]; done|].
    intros (?&?&?&?). split; [done|]. split; [|done].
    eexists. split_and!; [done|done|by intros ?? ?%elem_of_empty|done].
  - intros s x s'. unfold requireString. autorewrite with ago_rw. naive_solver.
Qed.

Lemma valuesAllowed_ok kind values allowed u :
  valuesAllowed kind values allowed = Ok u ↔
    Forall (λ v, blank v = false) values ∧ values ⊆ allowed.
Proof.
  destruct u. unfold valuesAllowed. rewrite for_each_Ok_unit.
  rewrite (Forall_iff _ _ (λ v, blank v = false ∧ v ∈ allowed)).
  - rewrite Forall_and, !Forall_forall. done.
  - intros v. autorewrite with ago_rw. by rewrite elem_of_list_to_set.
Qed.

Lemma sameStrings_eq xs ys : sameStrings xs ys = true ↔ xs = ys.
Proof.
  revert ys. induction xs as [|x xs IH]; intros [|y ys]; cbn; [done..|].
  rewrite andb_true_iff, String.eqb_eq, IH. naive_solver.
Qed.

Lemma sameGates_eq xs ys : sameGates xs ys = true ↔ xs = ys.
Proof.
  revert ys. induction xs as [|[] xs IH]; intros [|[] ys]; cbn; [done..|].
  unfold sameGate. cbn. rewrite !andb_true_iff, !String.eqb_eq, !sameStrings_eq, IH. naive_solver.
Qed.

Lemma unit_bind {B} (m : result unit) (k : result B) b : (m ;; k) = Ok b ↔ m = Ok tt ∧ k = Ok b.
Proof. destruct m as [[]| |]; cbn; naive_solver. Qed.

(** * Admissible requests and plans *)

Record gate_ok (verifiers : list string) (g : PlanGate) : Prop := {
  go_named : blank g.(PlanGate_ID) = false ∧ blank g.(PlanGate_Title) = false;
  go_criteria : bounded MaxAcceptancePerGate g.(PlanGate_AcceptanceCriteria);
  go_verifiers : bounded MaxVerifierIDsPerGate g.(PlanGate_VerifierIDs);
  go_allowed : g.(PlanGate_VerifierIDs) ⊆ verifiers;
}.

Record request_ok (r : Request) : Prop := {
  ro_repository : blank r.(Request_Repository).(Repository_ID) = false ∧
    blank r.(Request_Repository).(Repository_Revision) = false;
  ro_objective : blank r.(Request_Objective).(Objective_ID) = false ∧
    blank r.(Request_Objective).(Objective_Summary) = false;
  ro_gates : r.(Request_ProjectGates) ≠ [] ∧ (len r.(Request_ProjectGates) ≤ MaxProjectGates)%Z;
  ro_scopes : bounded MaxItemsPerTask r.(Request_Constraints).(Constraints_PathScopes);
  (** the scopes are clean relative paths below the repository *)
  ro_scope : Forall (λ s, Forall proper (components s)) r.(Request_Constraints).(Constraints_PathScopes);
  ro_verifiers : bounded MaxItemsPerTask r.(Request_Constraints).(Constraints_VerifierIDs);
  ro_capabilities : bounded MaxItemsPerTask r.(Request_Constraints).(Constraints_CapabilityTags);
  ro_limits : (0 ≤ r.(Request_Constraints).(Constraints_MaxTasks) ≤ MaxTasks)%Z ∧
    (0 ≤ r.(Request_Constraints).(Constraints_MaxDependencies) ≤ MaxDependencies)%Z;
  ro_gate : Forall (gate_ok r.(Request_Constraints).(Constraints_VerifierIDs)) r.(Request_ProjectGates);
  ro_gate_ids : NoDup (PlanGate_ID <$> r.(Request_ProjectGates));
}.

Record proposal_ok (c : Constraints) (t : TaskProposal) : Prop := {
  to_named : blank t.(TaskProposal_ID) = false ∧ blank t.(TaskProposal_Title) = false ∧
    blank t.(TaskProposal_Description) = false;
  to_criteria : bounded MaxItemsPerTask t.(TaskProposal_AcceptanceCriteria);
  to_verifiers : bounded MaxItemsPerTask t.(TaskProposal_VerifierIDs) ∧
    t.(TaskProposal_VerifierIDs) ⊆ c.(Constraints_VerifierIDs);
  to_capabilities : bounded MaxItemsPerTask t.(TaskProposal_CapabilityTags) ∧
    t.(TaskProposal_CapabilityTags) ⊆ c.(Constraints_CapabilityTags);
  to_bounded_scopes : bounded MaxItemsPerTask t.(TaskProposal_PathScopes);
  (** every scope is clean and lies within a scope the request allows *)
  to_scopes : Forall (λ s, Forall proper (components s) ∧
      Exists (λ root, within root s) c.(Constraints_PathScopes)) t.(TaskProposal_PathScopes);
}.

Record plan_ok `{!PlannerEnv} (r : Request) (p : Plan) : Prop := {
  po_request : request_ok r;
  po_version : p.(Plan_SchemaVersion) = planner_SchemaVersion;
  po_size : ∃ encoded, json_MarshalPlan p = Ok encoded ∧
    (Z.of_nat (String.length encoded) ≤ MaxEncodedPlanBytes)%Z;
  po_about : p.(Plan_Repository) = r.(Request_Repository) ∧ p.(Plan_Objective) = r.(Request_Objective) ∧
    p.(Plan_ProjectGates) = r.(Request_ProjectGates);
  po_tasks : p.(Plan_Tasks) ≠ [] ∧
    (len p.(Plan_Tasks) ≤ boundedLimit r.(Request_Constraints).(Constraints_MaxTasks) MaxTasks)%Z;
  po_dependencies : (len p.(Plan_Dependencies) ≤
    boundedLimit r.(Request_Constraints).(Constraints_MaxDependencies) MaxDependencies)%Z;
  po_task : Forall (proposal_ok r.(Request_Constraints)) p.(Plan_Tasks);
  po_ids : NoDup (TaskProposal_ID <$> p.(Plan_Tasks));
  po_edges : Forall (λ d, d.(DependencyProposal_TaskID) ∈ TaskProposal_ID <$> p.(Plan_Tasks) ∧
    d.(DependencyProposal_DependsOn) ∈ TaskProposal_ID <$> p.(Plan_Tasks)) p.(Plan_Dependencies);
  po_edge_keys : NoDup (proposalKey <$> p.(Plan_Dependencies));
  po_acyclic : acyclic (dependencyOf <$> p.(Plan_Dependencies));
}.

Lemma negb_scope s : negb (validScope s) = false ↔ Forall proper (components s).
Proof. by rewrite negb_false_iff, validScope_proper. Qed.
Lemma negb_allowed s l : negb (scopeAllowed s l) = false ↔ Exists (λ root, within root s) l.
Proof. by rewrite negb_false_iff, scopeAllowed_within. Qed.
Lemma Forall_fail_if {A} (c : A → bool) e l :
  Forall (λ x, fail_if (c x) (e x) = Ok tt) l ↔ Forall (λ x, c x = false) l.
Proof. apply Forall_iff. intros x. apply fail_if_Ok. Qed.

Ltac checks :=
  repeat first
    [ rewrite unit_bind | rewrite fail_if_Ok | rewrite wrap_err_Ok | rewrite requiredBoundedStrings_ok
    | rewrite valuesAllowed_ok | rewrite for_each_Ok_unit | rewrite Forall_fail_if | rewrite orb_false_iff
    | rewrite bool_decide_out | rewrite bool_decide_in | rewrite len_zero | rewrite Z.ltb_ge ].

Lemma validateGate_ok verifiers s g s' :
  validateGate verifiers s g = Ok s' ↔
    gate_ok verifiers g ∧ PlanGate_ID g ∉ s ∧ s' = {[ PlanGate_ID g ]} ∪ s.
Proof.
  unfold validateGate. checks. split.
  - intros (?&?&?&?&[??]&[= <-]). split; [by constructor|done].
  - intros ([]&?&->). naive_solver eauto using bounded_blank.
Qed.

Lemma Request_validate_ok r : Request_validate r = Ok tt ↔ request_ok r.
Proof.
  unfold Request_validate. checks.
  rewrite unit_bind_Ok, (Forall_iff _ _ _ negb_scope).
  setoid_rewrite (for_each_seen PlanGate_ID _ _ _ _ _ (validateGate_ok _)). split.
  - intros (?&?&?&?&?&?&?&[[[??]?]?]&(?&?&?&?&?)&_). by constructor.
  - intros []. by repeat (split; [naive_solver lia|]).
Qed.

Lemma validateProposal_ok c s t s' :
  validateProposal c s t = Ok s' ↔
    proposal_ok c t ∧ TaskProposal_ID t ∉ s ∧ s' = {[ TaskProposal_ID t ]} ∪ s.
Proof.
  unfold validateProposal. checks.
  rewrite (Forall_iff _ _ (λ s, Forall proper (components s) ∧
      Exists (λ root, within root s) c.(Constraints_PathScopes))).
  2: { intros x. by rewrite orb_false_iff, negb_scope, negb_allowed. }
  split.
  - intros ([[??]?]&?&?&?&?&?&?&[??]&[??]&[= <-]). split; [by constructor|done].
  - intros ([]&?&->). naive_solver eauto using bounded_blank.
Qed.

Lemma validateEdge_ok tasks edges adjacency d s' :
  validateEdge tasks (edges, adjacency) d = Ok s' ↔
    (d.(DependencyProposal_TaskID) ∈ tasks ∧ d.(DependencyProposal_DependsOn) ∈ tasks ∧
     d.(DependencyProposal_TaskID) ≠ d.(DependencyProposal_DependsOn)) ∧
    proposalKey d ∉ edges ∧ s' = ({[ proposalKey d ]} ∪ edges, addEdge adjacency d).
Proof. unfold validateEdge. checks. rewrite String.eqb_neq. naive_solver. Qed.

Lemma validateEdges_ok tasks l edges adjacency s' :
  for_each (validateEdge tasks) (edges, adjacency) l = Ok s' ↔
    Forall (λ d, d.(DependencyProposal_TaskID) ∈ tasks ∧ d.(DependencyProposal_DependsOn) ∈ tasks ∧
      d.(DependencyProposal_TaskID) ≠ d.(DependencyProposal_DependsOn)) l ∧
    NoDup (proposalKey <$> l) ∧ (∀ d, d ∈ l → proposalKey d ∉ edges) ∧
    s' = (list_to_set (proposalKey <$> l) ∪ edges, foldl addEdge adjacency l).
Proof.
  set (first (e : gset string) d := s ← validateEdge tasks (e, ∅) d; Ok s.1).
  assert (∀ s, for_each (validateEdge tasks) (edges, adjacency) l = Ok s ↔
    for_each first edges l = Ok s.1 ∧ s.2 = foldl addEdge adjacency l) as ->.
  { clear s'. intros s. revert edges adjacency. induction l as [|d l IH]; intros edges adjacency; cbn [for_each foldl].
    - destruct s. naive_solver.
    - rewrite !bind_Ok. setoid_rewrite validateEdge_ok. split.
      + intros (a & (H & Hn & ->) & E). apply IH in E as [E1 E2]. split; [|done].
        exists ({[ proposalKey d ]} ∪ edges). split; [|done]. unfold first.
        rewrite (proj2 (validateEdge_ok _ _ _ _ _) (conj H (conj Hn eq_refl))). done.
      + intros ((e & E & E1) & E2). unfold first in E. apply bind_Ok in E as (s0 & E0 & [= <-]).
        apply validateEdge_ok in E0 as (H & Hn & ->). eexists. split; [done|]. by apply IH. }
  rewrite (for_each_seen proposalKey (λ d, d.(DependencyProposal_TaskID) ∈ tasks ∧
      d.(DependencyProposal_DependsOn) ∈ tasks ∧
      d.(DependencyProposal_TaskID) ≠ d.(DependencyProposal_DependsOn))).
  - destruct s'. naive_solver.
  - intros e d e'. unfold first. rewrite bind_Ok. setoid_rewrite validateEdge_ok. naive_solver.
Qed.

Lemma acyclic_irreflexive deps d :
  acyclic (dependencyOf <$> deps) → d ∈ deps →
  d.(DependencyProposal_TaskID) ≠ d.(DependencyProposal_DependsOn).
Proof.
  intros Ha Hd E. apply (Ha d.(DependencyProposal_TaskID)), tc_once.
  exists (dependencyOf d). split; [by apply list_elem_of_fmap_2|done].
Qed.

Section planner.
Context {env : PlannerEnv}.

Lemma plan_closed (tasks : gset string) deps :
  Forall (λ d, d.(DependencyProposal_TaskID) ∈ tasks ∧ d.(DependencyProposal_DependsOn) ∈ tasks) deps →
  closed (range tasks) (dependencyOf <$> deps).
Proof.
  rewrite Forall_forall. intros Hf t p (d & Hd & <- & <-).
  apply list_elem_of_fmap in Hd as (d' & -> & [? ?]%Hf). rewrite !range_keys, !elem_of_elements. done.
Qed.

(** The end of the validation, once the tasks are checked. *)
Lemma edges_and_cycle (ids : list string) deps :
  let tasks : gset string := list_to_set ids in
  ('(_, adjacency) ← for_each (validateEdge tasks) (∅, ∅) deps;
   cyclic ← hasCycle (range tasks) adjacency;
   fail_if cyclic (Errorf "plan dependencies contain a cycle" [])) = Ok tt ↔
  Forall (λ d, d.(DependencyProposal_TaskID) ∈ ids ∧ d.(DependencyProposal_DependsOn) ∈ ids) deps ∧
  NoDup (proposalKey <$> deps) ∧ acyclic (dependencyOf <$> deps).
Proof.
  intros tasks. rewrite bind_Ok. setoid_rewrite validateEdges_ok.
  assert (∀ x : string, x ∈ tasks ↔ x ∈ ids) as Ht by (intros x; apply elem_of_list_to_set).
  assert (Forall (λ d, d.(DependencyProposal_TaskID) ∈ ids ∧ d.(DependencyProposal_DependsOn) ∈ ids) deps →
    closed (range tasks) (dependencyOf <$> deps)) as Hc.
  { intros Hf. apply plan_closed. eapply Forall_impl; [exact Hf|]. intros d. by rewrite !Ht. }
  split.
  - intros (s & (Hf & Hnd & _ & ->) & E).
    assert (Forall (λ d, d.(DependencyProposal_TaskID) ∈ ids ∧ d.(DependencyProposal_DependsOn) ∈ ids) deps)
      as Hf' by (eapply Forall_impl; [exact Hf|]; intros d (?&?&?); split; by apply Ht).
    destruct (hasCycle_decides _ _ (Hc Hf')) as (b & Eb & Hb). rewrite Eb in E. cbn in E.
    apply fail_if_Ok in E. naive_solver.
  - intros (Hf & Hnd & Ha). eexists. split.
    + split_and!; [|done|by intros ?? ?%elem_of_empty|reflexivity].
      rewrite Forall_forall in Hf |- *. intros d Hd. rewrite !Ht. specialize (Hf d Hd).
      split_and!; [by apply Hf..|by eapply acyclic_irreflexive].
    + cbn. destruct (hasCycle_decides _ _ (Hc Hf)) as (b & -> & Hb). cbn. apply fail_if_Ok. by apply Hb.
Qed.

Lemma proposals_and_edges c l deps :
  (tasks ← for_each (validateProposal c) ∅ l;
   '(_, adjacency) ← for_each (validateEdge tasks) (∅, ∅) deps;
   cyclic ← hasCycle (range tasks) adjacency;
   fail_if cyclic (Errorf "plan dependencies contain a cycle" [])) = Ok tt ↔
  Forall (proposal_ok c) l ∧ NoDup (TaskProposal_ID <$> l) ∧
  Forall (λ d, d.(DependencyProposal_TaskID) ∈ TaskProposal_ID <$> l ∧
    d.(DependencyProposal_DependsOn) ∈ TaskProposal_ID <$> l) deps ∧
  NoDup (proposalKey <$> deps) ∧ acyclic (dependencyOf <$> deps).
Proof.
  rewrite bind_Ok, <- edges_and_cycle.
  setoid_rewrite (for_each_seen TaskProposal_ID _ _ _ _ _ (validateProposal_ok _)). split.
  - intros (tasks & (? & ? & _ & Ht) & E). rewrite union_empty_r_L in Ht. subst tasks. by split_and!.
  - intros (? & ? & E). eexists. split; [|exact E].
    split_and!; [done|done|by intros ?? ?%elem_of_empty|by rewrite union_empty_r_L].
Qed.

Lemma Plan_Validate_ok r p : Plan_Validate p r = Ok tt ↔ plan_ok r p.
Proof.
  unfold Plan_Validate. rewrite unit_bind, wrap_err_Ok, Request_validate_ok.
  destruct (json_MarshalPlan p) as [e|err|] eqn:He;
    [|split; [by intros (_ & [_ ?]%unit_bind)|intros [_ _ (? & ? & _)]; congruence]..].
  cbn [wrap_err mbind result_bind]. rewrite !unit_bind, proposals_and_edges, !fail_if_Ok.
  rewrite !orb_false_iff, !negb_false_iff, !bool_decide_eq_true, sameGates_eq, Z.eqb_eq, !Z.ltb_ge, !len_zero.
  split.
  - intros (?&?&?&[??]&[??]&?&_&?&?&?&?&?&?). constructor; eauto.
  - intros [Hr ? (e' & He' & ?) (?&?&Hg) ???????]. rewrite He in He'. injection He' as <-.
    rewrite Hg. split_and!; try done; apply Hr || naive_solver.
Qed.
End planner.

(** * The demo planner *)

(** A request that can host the demo plan. *)
Record hosts_demo `{!PlannerEnv} (r : Request) : Prop := {
  hd_request : request_ok r;
  hd_scopes : Forall (λ s, Exists (λ root, within root s) r.(Request_Constraints).(Constraints_PathScopes))
    [demoScopeReadme; demoScopeDocs];
  hd_capabilities : [demoCapabilityRead; demoCapabilityWrite; demoCapabilityTests; demoCapabilityReport]
    ⊆ r.(Request_Constraints).(Constraints_CapabilityTags);
  hd_limits : (5 ≤ boundedLimit r.(Request_Constraints).(Constraints_MaxTasks) MaxTasks)%Z ∧
    (5 ≤ boundedLimit r.(Request_Constraints).(Constraints_MaxDependencies) MaxDependencies)%Z;
  hd_size : ∃ verifier encoded, head r.(Request_Constraints).(Constraints_VerifierIDs) = Some verifier ∧
    json_MarshalPlan (demoPlan r verifier) = Ok encoded ∧
    (Z.of_nat (String.length encoded) ≤ MaxEncodedPlanBytes)%Z;
}.

Definition demoIDs : list string := demoTask_id <$> demoTasks.
Definition demoDependencies : list DependencyProposal := demoTasks ≫= demoEdges.

Lemma demo_tasks r v : TaskProposal_ID <$> (demoPlan r v).(Plan_Tasks) = demoIDs.
Proof. done. Qed.

Lemma demo_acyclic : acyclic (dependencyOf <$> demoDependencies).
Proof.
  apply (validateAcyclic_ok demoIDs).
  - intros t p (d & Hd & <- & <-).
    assert (Forall (λ d, d.(Dependency_TaskID) ∈ demoIDs ∧ d.(Dependency_DependsOn) ∈ demoIDs)
      (dependencyOf <$> demoDependencies)) as Hf by (vm_compute; repeat constructor; set_solver).
    rewrite Forall_forall in Hf. by apply Hf.
  - vm_compute. reflexivity.
Qed.

Lemma cloneGates_id l v :
  (clonePlan (Plan_zero <| Plan_ProjectGates := l |>)).(Plan_ProjectGates) = l ∧ cloneStrings v = v.
Proof. split; [|done]. cbn. induction l as [|[] l IH]; [done|]. cbn. by f_equal. Qed.

Definition demoContent (t : demoTask) : Prop :=
  blank t.(demoTask_id) = false ∧ blank t.(demoTask_title) = false ∧
  blank t.(demoTask_description) = false ∧ bounded MaxItemsPerTask t.(demoTask_criteria) ∧
  blank t.(demoTask_capability) = false.

#[export] Instance bounded_dec maximum values : Decision (bounded maximum values).
Proof. unfold bounded. apply _. Defined.
#[export] Instance demoContent_dec t : Decision (demoContent t).
Proof. unfold demoContent. apply _. Defined.

Lemma demo_content : Forall demoContent demoTasks.
Proof. by_decide. Qed.

Lemma demo_shape : Forall (λ t,
    t.(demoTask_capability) ∈ [demoCapabilityRead; demoCapabilityWrite; demoCapabilityTests; demoCapabilityReport] ∧
    (t.(demoTask_scopes) = [] ∨ t.(demoTask_scopes) = [demoScopeReadme] ∨ t.(demoTask_scopes) = [demoScopeDocs]))
  demoTasks.
Proof. by_decide. Qed.

Lemma proper_demo : Forall (λ s, Forall proper (components s)) [demoScopeReadme; demoScopeDocs].
Proof. unfold proper. by_decide. Qed.

Lemma bounded_one v maximum : blank v = false → (1 ≤ maximum)%Z → bounded maximum [v].
Proof. intros. split_and!; [done|done|by repeat constructor|apply NoDup_singleton]. Qed.

Lemma Exists_self (l : list string) s : s ∈ l → Exists (λ root, within root s) l.
Proof. intros Hs. apply Exists_exists. exists s. by split; [|unfold within]. Qed.

Section demo.
Context {env : PlannerEnv}.
Implicit Types (r : Request).

(** Every task of the demo plan is admissible for a request that hosts it. *)
Lemma demo_proposals r v :
  request_ok r → v ∈ r.(Request_Constraints).(Constraints_VerifierIDs) →
  Forall (λ s, Exists (λ root, within root s) r.(Request_Constraints).(Constraints_PathScopes))
    [demoScopeReadme; demoScopeDocs] →
  [demoCapabilityRead; demoCapabilityWrite; demoCapabilityTests; demoCapabilityReport]
    ⊆ r.(Request_Constraints).(Constraints_CapabilityTags) →
  Forall (proposal_ok r.(Request_Constraints)) (demoPlan r v).(Plan_Tasks).
Proof.
  intros Hr Hv Hs Hc. apply Forall_fmap. rewrite Forall_forall. intros t Ht.
  pose proof demo_content as Hd. rewrite Forall_forall in Hd. destruct (Hd t Ht) as (?&?&?&?&?).
  destruct (ro_verifiers r Hr) as (_&_&Hb&_). rewrite Forall_forall in Hb.
  pose proof demo_shape as Hsh. rewrite Forall_forall in Hsh. destruct (Hsh t Ht) as [Hcap Hsc].
  apply Hc in Hcap. clear Ht Hd Hsh Hc.
  constructor; cbn.
  - done.
  - done.
  - split; [by apply bounded_one; [apply Hb|]|]. by intros x ->%list_elem_of_singleton.
  - split; [by apply bounded_one|]. by intros x ->%list_elem_of_singleton.
  - destruct Hsc as [->|[->| ->]]; [apply Hr|by apply bounded_one..].
  - destruct Hsc as [->|Hsc].
    + pose proof (ro_scope r Hr) as Hp. rewrite Forall_forall in Hp |- *. intros s Hin.
      split; [by apply Hp|by apply Exists_self].
    + pose proof proper_demo as Hp. inversion Hp as [|? ? Hp1 Hp2]; subst. inversion Hp2; subst.
      inversion Hs as [|? ? Hs1 Hs2]; subst. inversion Hs2; subst.
      destruct Hsc as [->| ->]; by constructor.
Qed.

Lemma demo_plan_ok r v :
  hosts_demo r → head r.(Request_Constraints).(Constraints_VerifierIDs) = Some v → plan_ok r (demoPlan r v).
Proof.
  intros [Hr Hs Hc [Ht Hd] (v' & e & Hv' & He & Hl)] Hv. rewrite Hv in Hv'. injection Hv' as <-.
  constructor; try done.
  - by exists e.
  - split_and!; [done|done|exact (proj1 (cloneGates_id _ []))].
  - apply demo_proposals; try done. destruct (Constraints_VerifierIDs _); [done|]. injection Hv as ->. by left.
  - rewrite demo_tasks. by_decide.
  - rewrite demo_tasks. change (Plan_Dependencies _) with demoDependencies.
    by_decide.
  - change (Plan_Dependencies _) with demoDependencies. by_decide.
  - apply demo_acyclic.
Qed.
End demo.

(** * The theorems *)

Section theorems.
Context {env : PlannerEnv}.

Lemma requiredBoundedStrings_Panic name values maximum : requiredBoundedStrings name values maximum ≠ Panic.
Proof. intros H. unfold requiredBoundedStrings, requireString in H. inv_panic H. Qed.

Lemma valuesAllowed_Panic kind values allowed : valuesAllowed kind values allowed ≠ Panic.
Proof. intros H. unfold valuesAllowed in H. inv_panic H. Qed.

Lemma Request_validate_Panic r : Request_validate r ≠ Panic.
Proof.
  intros H. unfold Request_validate, validateGate in H. inv_panic H;
    (by apply requiredBoundedStrings_Panic in H) || by apply valuesAllowed_Panic in H.
Qed.

Lemma Plan_Validate_Panic r p : json_MarshalPlan p ≠ Panic → Plan_Validate p r ≠ Panic.
Proof.
  intros He H. unfold Plan_Validate in H.
  repeat (apply bind_Panic in H as [H|(? & ? & H)]; [
    try (apply wrap_err_Panic in H); first [by apply fail_if_Panic in H | by apply Request_validate_Panic in H
    | done | unfold validateProposal in H; inv_panic H;
      (by apply requiredBoundedStrings_Panic in H) || by apply valuesAllowed_Panic in H] |]).
  match goal with Ht : for_each (validateProposal _) _ _ = Ok _ |- _ => clear Ht end.
  apply bind_Panic in H as [H|([edges adjacency] & E & H)]; [unfold validateEdge in H; inv_panic H|].
  apply validateEdges_ok in E as (Hf & _ & _ & [= _ ->]).
  edestruct hasCycle_decides as (b & Eb & _); [apply plan_closed|rewrite Eb in H; by destruct b].
  eapply Forall_impl; [exact Hf|]. naive_solver.
Qed.

(** [Plan.Validate] accepts exactly the admissible plans of an admissible
    request: about the same repository, objective and gates, within the size and
    count limits, with named, distinct tasks whose scopes are clean relative paths
    inside the allowed directories (component by component), whose verifiers and
    capabilities are allowed, and whose dependencies join tasks of the plan without
    duplicate or cycle, in whatever order Go ranges over its maps; and it returns
    on every plan the JSON encoder returns on. *)
Theorem plan_validation r p :
  (Plan_Validate p r = Ok tt ↔ plan_ok r p) ∧
  (json_MarshalPlan p ≠ Panic → Plan_Validate p r ≠ Panic).
Proof. split; [apply Plan_Validate_ok|apply Plan_Validate_Panic]. Qed.

(** The demo planner plans exactly for the requests that can host its fixed
    decomposition, and gives that decomposition for the first verifier of the
    request, which its own validation never refuses; a cancelled context is
    returned as the error. *)
Theorem demo_planner_exact r p :
  (DemoPlanner_Plan None r = Ok p ↔
     hosts_demo r ∧ ∃ v, head r.(Request_Constraints).(Constraints_VerifierIDs) = Some v ∧ p = demoPlan r v) ∧
  ∀ err, DemoPlanner_Plan (Some err) r = Err err.
Proof.
  split; [|done]. unfold DemoPlanner_Plan. rewrite !unit_bind, wrap_err_Ok, Request_validate_ok, bind_Ok.
  rewrite !for_each_Ok_unit, !Forall_cons, !fail_if_Ok, !wrap_err_Ok, !valuesAllowed_ok, !negb_allowed.
  setoid_rewrite unit_bind. setoid_rewrite wrap_err_Ok. setoid_rewrite Plan_Validate_ok. split.
  - intros (Hr & (Hs1 & Hs2 & _) & ((_ & Hc1) & (_ & Hc2) & (_ & Hc3) & (_ & Hc4) & _) & v & Hv & Hp & [= <-]).
    unfold get_at in Hv. cbn in Hv. destruct (Constraints_VerifierIDs _) as [|v' vs] eqn:E; [done|].
    injection Hv as ->. split; [|by exists v].
    destruct Hp as [_ _ (e & He & Hl) _ [_ Ht] Hd _ _ _ _ _].
    constructor; try done; [by repeat constructor|set_solver|exists v, e; by rewrite E].
  - intros (Hh & v & Hv & ->). pose proof (demo_plan_ok r v Hh Hv) as Hp.
    destruct Hh as [Hr Hs Hc _ _]. split; [done|]. rewrite !Forall_cons in Hs.
    split; [destruct Hs as (? & ? & _); by split_and!; [..|constructor]|].
    split; [split_and!; try (by repeat constructor); set_solver|].
    exists v. split; [|done]. by destruct (Constraints_VerifierIDs _); [|injection Hv as ->].
Qed.
End theorems.

(** * An instance *)

(** A request that allows the whole repository to the demo planner. *)
Definition sample_request : Request :=
  mkRequest (mkRepository "/repo" "r0") (mkObjective "goal" "improve the documentation")
    [mkPlanGate "gate" "the tests pass" ["all tests pass"] ["verifier-1"]]
    (mkConstraints ["README.md"; "docs"]
       [demoCapabilityRead; demoCapabilityWrite; demoCapabilityTests; demoCapabilityReport]
       ["verifier-1"] 0 0).

(** The size of an encoding is at least that of the names in it. *)
#[export] Instance sample_planner_env : PlannerEnv := {|
  range := elements;
  range_keys := λ _, reflexivity _;
  json_MarshalPlan := λ plan, Ok (strings_Join (TaskProposal_ID <$> plan.(Plan_Tasks)) ",");
|}.
Definition sample_plan : Plan := demoPlan sample_request "verifier-1".

Lemma plan_validation_witness : plan_ok sample_request sample_plan ∧ Plan_Validate sample_plan sample_request ≠ Panic.
Proof.
  split.
  - apply (plan_validation sample_request sample_plan). vm_compute. reflexivity.
  - apply (plan_validation sample_request sample_plan). done.
Defined.

Lemma demo_planner_exact_witness : hosts_demo sample_request.
Proof. apply (demo_planner_exact sample_request sample_plan). vm_compute. reflexivity. Defined.
