(* ===== verification/StateMachine.v ===== *)
(** The helpers of internal/agoboardprotocol/state_machine.go and the plan patches built
    on them. *)
From Stdlib Require Import Ascii.
From S2P Require Import Prelude Protocol Validate.

(** The helpers of internal/agoboardprotocol/state_machine.go: lookups, clones,
    event construction, the fencing check, the retry policy, the attempt
    transition, unblocking, and the validation of structured evidence. *)

(** * Lookups: the first match, or the zero value and index -1 *)

Definition findTask (board : Board) (id : string) : Z * Task * bool :=
  findBy Task_zero Task_ID id board.(Board_Tasks).
Definition findAttempt (board : Board) (id : string) : Z * Attempt * bool :=
  findBy Attempt_zero Attempt_ID id board.(Board_Attempts).
Definition findLease (board : Board) (id : string) : Z * Lease * bool :=
  findBy Lease_zero Lease_ID id board.(Board_Leases).
Definition findEvidence (board : Board) (id : string) : Z * Evidence * bool :=
  findBy Evidence_zero Evidence_ID id board.(Board_Evidence).

Definition taskAndAttempt (board : Board) (taskID attemptID : string) : Task * Attempt :=
  let '(_, task, _) := findTask board taskID in
  let '(_, attempt, _) := findAttempt board attemptID in
  (task, attempt).

Definition taskFor (board : Board) (id : string) : Task :=
  let '(_, task, _) := findTask board id in task.

(** [board.Tasks[index]] and assignments through it; an index out of range panics. *)
Definition taskAt (board : Board) (index : Z) : result Task := get_at index board.(Board_Tasks).
Definition attemptAt (board : Board) (index : Z) : result Attempt := get_at index board.(Board_Attempts).
Definition leaseAt (board : Board) (index : Z) : result Lease := get_at index board.(Board_Leases).
Definition evidenceAt (board : Board) (index : Z) : result Evidence := get_at index board.(Board_Evidence).
Definition setTask (board : Board) (index : Z) (f : Task → Task) : result Board :=
  l ← update_at index f board.(Board_Tasks); Ok (board <| Board_Tasks := l |>).
Definition setAttempt (board : Board) (index : Z) (f : Attempt → Attempt) : result Board :=
  l ← update_at index f board.(Board_Attempts); Ok (board <| Board_Attempts := l |>).
Definition setLease (board : Board) (index : Z) (f : Lease → Lease) : result Board :=
  l ← update_at index f board.(Board_Leases); Ok (board <| Board_Leases := l |>).
Definition setEvidence (board : Board) (index : Z) (f : Evidence → Evidence) : result Board :=
  l ← update_at index f board.(Board_Evidence); Ok (board <| Board_Evidence := l |>).

(** * Clones *)

Definition cloneContract (value : TerminalContract) : TerminalContract :=
  value <| TerminalContract_AcceptanceCriteria := [] ++ value.(TerminalContract_AcceptanceCriteria) |>.

Definition cloneEvidenceResult (result : EvidenceResult) : EvidenceResult :=
  result <| EvidenceResult_ChangedFiles := [] ++ result.(EvidenceResult_ChangedFiles) |>
         <| EvidenceResult_Commands := [] ++ result.(EvidenceResult_Commands) |>
         <| EvidenceResult_Tests := [] ++ result.(EvidenceResult_Tests) |>
         <| EvidenceResult_Artifacts := [] ++ result.(EvidenceResult_Artifacts) |>
         <| EvidenceResult_Warnings := [] ++ result.(EvidenceResult_Warnings) |>.

Definition cloneBoard (value : Board) : Board :=
  value <| Board_Tasks := (λ t, t <| Task_TerminalContract := cloneContract t.(Task_TerminalContract) |>)
             <$> value.(Board_Tasks) |>
        <| Board_Dependencies := [] ++ value.(Board_Dependencies) |>
        <| Board_Attempts := [] ++ value.(Board_Attempts) |>
        <| Board_Leases := [] ++ value.(Board_Leases) |>
        <| Board_Evidence := (λ e, e <| Evidence_Result := cloneEvidenceResult e.(Evidence_Result) |>)
             <$> value.(Board_Evidence) |>.

Definition taskPointer (value : Task) : option Task :=
  Some (value <| Task_TerminalContract := cloneContract value.(Task_TerminalContract) |>).
Definition dependencyPointer (value : Dependency) : option Dependency := Some value.
Definition attemptPointer (value : Attempt) : option Attempt := Some value.
Definition leasePointer (value : Lease) : option Lease := Some value.
Definition evidencePointer (value : Evidence) : option Evidence := Some value.

(** * Events *)

(** The closure [emit] of [Apply] over its variables [next] and [events]: it
    advances the version and stamps the event. *)
Definition Working : Type := Board * list Event.

Definition emit (command : Command) (event : Event) (w : Working) : Working :=
  let '(next, events) := w in
  let next := next <| Board_Version := u64 (next.(Board_Version) + 1) |> in
  let event := event
    <| Event_SchemaVersion := SchemaVersion |>
    <| Event_ID := command.(Command_ID) +:+ ":" +:+ pretty (S (length events)) |>
    <| Event_CommandID := command.(Command_ID) |>
    <| Event_BoardID := next.(Board_ID) |>
    <| Event_Version := next.(Board_Version) |>
    <| Event_Actor := command.(Command_Actor) |> in
  (next, events ++ [event]).

Definition newEvent (type : EventType) : Event := Event_zero <| Event_Type := type |>.

Definition stateEvent (previous current : Task) (reason : string) : Event :=
  (newEvent EventTaskStateChanged)
    <| Event_Task := taskPointer current |>
    <| Event_PreviousState := previous.(Task_State) |>
    <| Event_CurrentState := current.(Task_State) |>
    <| Event_Reason := reason |>.

(** * Guards *)

Definition requireRole (command : Command) (role : ActorRole) : result unit :=
  fail_if (command.(Command_Actor).(Actor_Role) != role)
    (Errorf "command %s requires %s actor, got %s"
       [AStr command.(Command_Type); AStr role; AStr command.(Command_Actor).(Actor_Role)]).

Definition requireInitialized (board : Board) : result unit :=
  fail_if (board.(Board_ID) == "") (Errorf "board is not initialized" []).

Definition illegalTransition (state : TaskState) (action : string) : error :=
  Errorf "cannot %s task in %s state" [AStr action; AStr state].

Definition requireFencingToken (board : Board) (command : Command) : result unit :=
  fail_if (command.(Command_AttemptID) == "")
    (Errorf "command %s requires an attempt id" [AStr command.(Command_Type)]) ;;
  let '(_, attempt, found) := findAttempt board command.(Command_AttemptID) in
  fail_if (negb found) (Errorf "attempt %q not found" [AStr command.(Command_AttemptID)]) ;;
  fail_if ((attempt.(Attempt_FencingToken) == "") || (command.(Command_FencingToken) == "")
           || (attempt.(Attempt_FencingToken) != command.(Command_FencingToken)))
    (Errorf "fencing token does not authorize attempt %q" [AStr command.(Command_AttemptID)]).

(** * The bounded retry policy *)

Definition recordAttemptFailure (board : Board) (taskIndex attemptIndex leaseIndex : Z)
    (class : FailureClass) (reason : string) (nextEligibleAt : Time) : result Board :=
  fail_if (negb (validFailureClass class) || (class == FailureNone))
    (Errorf "invalid failure class %q" [AStr class]) ;;
  task ← taskAt board taskIndex;
  let retryable := FailureClass_Retryable class && (task.(Task_AttemptCount) <? MaxAttempts)%Z in
  fail_if (retryable && Time_IsZero nextEligibleAt)
    (Errorf "a retryable failure requires the next eligible time" []) ;;
  board ← setAttempt board attemptIndex (λ a,
    a <| Attempt_State := AttemptFailed |> <| Attempt_FailureClass := class |>
      <| Attempt_FailureReason := reason |>);
  board ← setLease board leaseIndex (λ l, l <| Lease_State := LeaseCompleted |>);
  setTask board taskIndex (λ task,
    let task := task <| Task_ActiveAttemptID := "" |> <| Task_ActiveLeaseID := "" |> in
    if retryable then
      task <| Task_State := TaskRetryWait |> <| Task_NextEligibleAt := Time_UTC nextEligibleAt |>
           <| Task_FailureClass := class |> <| Task_BlockedReason := reason |>
    else
      let task := task <| Task_State := TaskFailed |> <| Task_NextEligibleAt := Time_zero |>
                       <| Task_FailureClass := class |> <| Task_BlockedReason := reason |> in
      if FailureClass_Retryable class then task <| Task_FailureClass := FailureExhausted |> else task).

Definition newProjectGate (commands : list string) : ProjectGate :=
  let cleaned := List.filter (λ trimmed, trimmed != "") (strings_TrimSpace <$> commands) in
  if (length cleaned =? 0)%nat then ProjectGate_zero <| ProjectGate_State := GateAbsent |>
  else ProjectGate_zero <| ProjectGate_State := GatePending |> <| ProjectGate_Commands := cleaned |>.

Definition expiryUTC (value : Time) : Time :=
  if Time_IsZero value then Time_zero else Time_UTC value.

Definition transitionAttempt (board : Board) (command : Command) (fromTask toTask : TaskState)
    (fromAttempt toAttempt : AttemptState) : result Board :=
  let '(taskIndex, task, found) := findTask board command.(Command_TaskID) in
  fail_if (negb found || (task.(Task_State) != fromTask)
           || (task.(Task_ActiveAttemptID) != command.(Command_AttemptID)))
    (illegalTransition task.(Task_State) toTask) ;;
  let '(attemptIndex, attempt, found) := findAttempt board command.(Command_AttemptID) in
  fail_if (negb found || (attempt.(Attempt_State) != fromAttempt)
           || (attempt.(Attempt_WorkerID) != command.(Command_Actor).(Actor_ID)))
    (Errorf "worker does not own active attempt in state %s" [AStr fromAttempt]) ;;
  let '(_, lease, found) := findLease board task.(Task_ActiveLeaseID) in
  fail_if (negb found || (lease.(Lease_State) != LeaseActive)
           || (lease.(Lease_WorkerID) != command.(Command_Actor).(Actor_ID)))
    (Errorf "worker does not own active lease" []) ;;
  board ← setTask board taskIndex (λ task, task <| Task_State := toTask |>);
  setAttempt board attemptIndex (λ attempt, attempt <| Attempt_State := toAttempt |>).

(** * Dependencies *)

Definition dependenciesPassed (board : Board) (taskID : string) : bool :=
  forallb (λ dependency,
      if dependency.(Dependency_TaskID) != taskID then true else
      let '(_, prerequisite, found) := findTask board dependency.(Dependency_DependsOn) in
      negb (negb found || (prerequisite.(Task_State) != TaskPassed)))
    board.(Board_Dependencies).

(** One iteration of the loop of [unblockReadyTasks], at position [index]. *)
Definition unblockAt (command : Command) (w : Working) (index : nat) : result Working :=
  let '(board, events) := w in
  previous ← taskAt board (Z.of_nat index);
  if (previous.(Task_State) == TaskBlocked) && dependenciesPassed board previous.(Task_ID) then
    board ← setTask board (Z.of_nat index) (λ task, task <| Task_State := TaskReady |>);
    current ← taskAt board (Z.of_nat index);
    Ok (emit command (stateEvent previous current "dependencies passed") (board, events))
  else Ok w.

Definition unblockReadyTasks (command : Command) (w : Working) : result Working :=
  for_each (unblockAt command) w (seq 0 (length (w.1).(Board_Tasks))).

Arguments dependenciesPassed : simpl never.
Arguments unblockReadyTasks : simpl never.

(** * Structured evidence *)

Definition maxEvidenceItems : nat := 256.

Definition relativeRepositoryPath (value : string) : bool :=
  if (value == "") || strings_HasPrefix value "/" || strings_Contains value "\" then false else
  if (value == "..") || strings_HasPrefix value "../" || strings_Contains value "/../"
     || strings_HasSuffix value "/.." then false else
  if (2 <=? String.length value)%nat
     && (match String.get 1 value with Some c => Ascii.eqb c ":"%char | None => false end) then false else
  true.

Definition validateEvidenceResult (result : EvidenceResult) : Prelude.result unit :=
  fail_if ((maxEvidenceItems <? length result.(EvidenceResult_ChangedFiles))%nat
           || (maxEvidenceItems <? length result.(EvidenceResult_Commands))%nat
           || (maxEvidenceItems <? length result.(EvidenceResult_Tests))%nat
           || (maxEvidenceItems <? length result.(EvidenceResult_Artifacts))%nat
           || (maxEvidenceItems <? length result.(EvidenceResult_Warnings))%nat)
    (Errorf "structured evidence exceeds %d items in a section" [AInt (Z.of_nat maxEvidenceItems)]) ;;
  for_each (λ _ file,
      fail_if (file.(ChangedFile_Path) == "") (Errorf "a changed file requires a path" []) ;;
      fail_if (negb (relativeRepositoryPath file.(ChangedFile_Path)))
        (Errorf "changed file %q must be a repository-relative path" [AStr file.(ChangedFile_Path)]))
    tt result.(EvidenceResult_ChangedFiles) ;;
  for_each (λ _ test,
      fail_if (test.(TestRecord_Name) == "") (Errorf "a test record requires a name" []))
    tt result.(EvidenceResult_Tests) ;;
  for_each (λ _ artifact,
      fail_if ((artifact.(ArtifactRef_ID) == "") || (artifact.(ArtifactRef_SHA256) == ""))
        (Errorf "an artifact reference requires an id and a digest" []) ;;
      fail_if (artifact.(ArtifactRef_Bytes) <? 0)%Z
        (Errorf "artifact %q has a negative size" [AStr artifact.(ArtifactRef_ID)]))
    tt result.(EvidenceResult_Artifacts).

Definition firstNonBlank (values : list string) : string :=
  default "" (head (List.filter (λ value, strings_TrimSpace value != "") values)).

(** Plan patches: [applyPatchStep] of internal/agoboardprotocol/state_machine.go,
    one definition per operation. *)

Definition maxPatchSteps : nat := 32.

Definition patchAddTask (board : Board) (patchID : string) (step : PatchStep) : result Board :=
  let incomplete := Errorf "add_task requires task id and title" [] in
  spec ← non_nil step.(PatchStep_Task) incomplete;
  fail_if ((spec.(TaskSpec_ID) == "") || (spec.(TaskSpec_Title) == "")) incomplete ;;
  TerminalContract_validate spec.(TaskSpec_TerminalContract) ;;
  fail_if (negb (validAccessMode spec.(TaskSpec_AccessMode)))
    (Errorf "add_task requires a valid access mode" []) ;;
  let '(_, _, found) := findTask board spec.(TaskSpec_ID) in
  fail_if found (Errorf "duplicate task id %q" [AStr spec.(TaskSpec_ID)]) ;;
  let task := Task_zero
    <| Task_ID := spec.(TaskSpec_ID) |> <| Task_Title := spec.(TaskSpec_Title) |>
    <| Task_State := TaskPlanned |>
    <| Task_TerminalContract := cloneContract spec.(TaskSpec_TerminalContract) |>
    <| Task_AccessMode := spec.(TaskSpec_AccessMode) |>
    <| Task_Origin := patchID |> in
  let board := board <| Board_Tasks := board.(Board_Tasks) ++ [task] |> in
  let index := (Z.of_nat (length board.(Board_Tasks)) - 1)%Z in
  if dependenciesPassed board task.(Task_ID)
  then setTask board index (λ task, task <| Task_State := TaskReady |>)
  else setTask board index (λ task, task <| Task_State := TaskBlocked |>).

Definition patchAddDependency (board : Board) (patchID : string) (step : PatchStep) : result Board :=
  fail_if ((step.(PatchStep_TaskID) == "") || (step.(PatchStep_DependsOn) == "")
           || (step.(PatchStep_TaskID) == step.(PatchStep_DependsOn)))
    (Errorf "add_dependency requires two distinct task ids" []) ;;
  let '(index, task, found) := findTask board step.(PatchStep_TaskID) in
  fail_if (negb found) (Errorf "task %q not found" [AStr step.(PatchStep_TaskID)]) ;;
  let '(_, _, found) := findTask board step.(PatchStep_DependsOn) in
  fail_if (negb found) (Errorf "prerequisite %q not found" [AStr step.(PatchStep_DependsOn)]) ;;
  fail_if (task.(Task_State) == TaskPassed)
    (Errorf "cannot add a dependency to accepted task %q" [AStr step.(PatchStep_TaskID)]) ;;
  let id := patchID +:+ ":" +:+ step.(PatchStep_TaskID) +:+ ":" +:+ step.(PatchStep_DependsOn) in
  for_each (λ _ existing,
      fail_if ((existing.(Dependency_TaskID) == step.(PatchStep_TaskID))
               && (existing.(Dependency_DependsOn) == step.(PatchStep_DependsOn)))
        (Errorf "dependency already exists" []) ;;
      fail_if (existing.(Dependency_ID) == id) (Errorf "duplicate dependency id %q" [AStr id]))
    tt board.(Board_Dependencies) ;;
  let board := board <| Board_Dependencies := board.(Board_Dependencies) ++
    [mkDependency id step.(PatchStep_TaskID) step.(PatchStep_DependsOn)] |> in
  task ← taskAt board index;
  if (task.(Task_State) == TaskReady) && negb (dependenciesPassed board step.(PatchStep_TaskID))
  then setTask board index (λ task, task <| Task_State := TaskBlocked |>)
  else Ok board.

(** The loop of [PatchRemoveDependency]: the first matching edge is cut out. *)
Fixpoint removeEdge (taskID dependsOn : string) (dependencies : list Dependency)
  : option (list Dependency) :=
  match dependencies with
  | [] => None
  | existing :: rest =>
      if (existing.(Dependency_TaskID) == taskID) && (existing.(Dependency_DependsOn) == dependsOn)
      then Some rest
      else cons existing <$> removeEdge taskID dependsOn rest
  end.

Definition patchRemoveDependency (board : Board) (step : PatchStep) : result Board :=
  fail_if ((step.(PatchStep_TaskID) == "") || (step.(PatchStep_DependsOn) == ""))
    (Errorf "remove_dependency requires two task ids" []) ;;
  match removeEdge step.(PatchStep_TaskID) step.(PatchStep_DependsOn) board.(Board_Dependencies) with
  | Some dependencies => Ok (board <| Board_Dependencies := dependencies |>)
  | None => Err (Errorf "dependency %q -> %q not found"
                   [AStr step.(PatchStep_TaskID); AStr step.(PatchStep_DependsOn)])
  end.

Definition patchUpdateAcceptance (board : Board) (step : PatchStep) : result Board :=
  let incomplete := Errorf "update_acceptance requires a task id and acceptance criteria" [] in
  fail_if (step.(PatchStep_TaskID) == "") incomplete ;;
  acceptance ← non_nil step.(PatchStep_Acceptance) incomplete;
  TerminalContract_validate acceptance ;;
  let '(index, task, found) := findTask board step.(PatchStep_TaskID) in
  fail_if (negb found) (Errorf "task %q not found" [AStr step.(PatchStep_TaskID)]) ;;
  fail_if (task.(Task_State) == TaskPassed)
    (Errorf "cannot change the acceptance criteria of accepted task %q" [AStr step.(PatchStep_TaskID)]) ;;
  setTask board index (λ task, task <| Task_TerminalContract := cloneContract acceptance |>).

Definition patchSupersedeTask (board : Board) (step : PatchStep) : result Board :=
  fail_if ((step.(PatchStep_TaskID) == "") || (step.(PatchStep_SupersededBy) == "")
           || (step.(PatchStep_TaskID) == step.(PatchStep_SupersededBy)))
    (Errorf "supersede_task requires a task and a distinct replacement" []) ;;
  let '(index, task, found) := findTask board step.(PatchStep_TaskID) in
  fail_if (negb found) (Errorf "task %q not found" [AStr step.(PatchStep_TaskID)]) ;;
  let '(_, _, found) := findTask board step.(PatchStep_SupersededBy) in
  fail_if (negb found) (Errorf "replacement task %q not found" [AStr step.(PatchStep_SupersededBy)]) ;;
  fail_if (task.(Task_State) == TaskPassed)
    (Errorf "cannot supersede accepted task %q" [AStr step.(PatchStep_TaskID)]) ;;
  fail_if ((task.(Task_State) == TaskLeased) || (task.(Task_State) == TaskRunning)
           || (task.(Task_State) == TaskVerifying))
    (Errorf "task %q is still running; cancel it before superseding" [AStr step.(PatchStep_TaskID)]) ;;
  setTask board index (λ task,
    task <| Task_SupersededBy := step.(PatchStep_SupersededBy) |>
         <| Task_State := TaskFailed |>
         <| Task_FailureClass := FailureNone |>
         <| Task_BlockedReason := "superseded by " +:+ step.(PatchStep_SupersededBy) |>).

(** Ending live work: its active leases, then the attempt the task points at. *)
Definition endLiveWork (board : Board) (task : Task) : Board :=
  board <| Board_Leases := (λ lease,
             if (lease.(Lease_TaskID) == task.(Task_ID)) && (lease.(Lease_State) == LeaseActive)
             then lease <| Lease_State := LeaseCompleted |> else lease) <$> board.(Board_Leases) |>
        <| Board_Attempts := (λ attempt,
             if attempt.(Attempt_ID) == task.(Task_ActiveAttemptID)
             then attempt <| Attempt_State := AttemptFailed |>
                          <| Attempt_FailureClass := FailurePolicy |>
                          <| Attempt_FailureReason := "cancelled by plan patch" |>
             else attempt) <$> board.(Board_Attempts) |>.

Definition patchCancelTask (board : Board) (step : PatchStep) : result Board :=
  fail_if (step.(PatchStep_TaskID) == "") (Errorf "cancel_task requires a task id" []) ;;
  let '(index, task, found) := findTask board step.(PatchStep_TaskID) in
  fail_if (negb found) (Errorf "task %q not found" [AStr step.(PatchStep_TaskID)]) ;;
  fail_if (task.(Task_State) == TaskPassed)
    (Errorf "cannot cancel accepted task %q" [AStr step.(PatchStep_TaskID)]) ;;
  let board :=
    if (task.(Task_State) == TaskLeased) || (task.(Task_State) == TaskRunning)
       || (task.(Task_State) == TaskVerifying)
    then endLiveWork board task else board in
  setTask board index (λ task,
    task <| Task_State := TaskFailed |>
         <| Task_Cancelled := true |>
         <| Task_ActiveAttemptID := "" |> <| Task_ActiveLeaseID := "" |>
         <| Task_FailureClass := FailurePolicy |>
         <| Task_BlockedReason := firstNonBlank [step.(PatchStep_Reason); "cancelled by plan patch"] |>).

Definition applyPatchStep (board : Board) (patchID : string) (step : PatchStep) : result Board :=
  switch step.(PatchStep_Operation)
    [(PatchAddTask, patchAddTask);
     (PatchAddDependency, patchAddDependency);
     (PatchRemoveDependency, λ board _ step, patchRemoveDependency board step);
     (PatchUpdateAcceptance, λ board _ step, patchUpdateAcceptance board step);
     (PatchSupersedeTask, λ board _ step, patchSupersedeTask board step);
     (PatchCancelTask, λ board _ step, patchCancelTask board step)]
    (λ _ _ step, Err (Errorf "unsupported patch operation %q" [AStr step.(PatchStep_Operation)]))
    board patchID step.
