(* ===== verification/Apply.v ===== *)
(** [Apply] of internal/agoboardprotocol/state_machine.go: one handler per case
    of its switch, over the working copy [next] of the board, and the function
    itself with its version, schema and validity guards. *)
From S2P Require Import Prelude Protocol Validate StateMachine.

(** Error shorthands that several handlers share. *)
Definition taskNotFound (id : string) : error := Errorf "task %q not found" [AStr id].
Definition leaseNotActive (id : string) : error := Errorf "active lease %q not found" [AStr id].

(** * Building the graph *)

Definition applyBoardCreate (current : Board) (command : Command) : result Working :=
  requireRole command RoleCoordinator ;;
  let incomplete :=
    Errorf "board.create requires an uninitialized aggregate and board id and title" [] in
  fail_if (current.(Board_ID) != "") incomplete ;;
  spec ← non_nil command.(Command_Board) incomplete;
  fail_if ((spec.(BoardSpec_ID) == "") || (spec.(BoardSpec_Title) == "")) incomplete ;;
  let next := Board_zero
    <| Board_SchemaVersion := SchemaVersion |>
    <| Board_ID := spec.(BoardSpec_ID) |> <| Board_Title := spec.(BoardSpec_Title) |>
    <| Board_Tasks := [] |> <| Board_Dependencies := [] |> <| Board_Attempts := [] |>
    <| Board_Leases := [] |> <| Board_Evidence := [] |>
    <| Board_Repository := spec.(BoardSpec_Repository) |>
    <| Board_BaseRevision := spec.(BoardSpec_BaseRevision) |>
    <| Board_IntegrationRef := spec.(BoardSpec_IntegrationRef) |>
    <| Board_IntegratedRevision := spec.(BoardSpec_BaseRevision) |>
    <| Board_NextGeneration := 1%Z |>
    <| Board_Gate := newProjectGate spec.(BoardSpec_GateCommands) |> in
  Ok (emit command (newEvent EventBoardCreated) (next, [])).

Definition applyTaskAdd (next : Board) (command : Command) : result Working :=
  requireInitialized next ;;
  requireRole command RoleCoordinator ;;
  let incomplete := Errorf "task.add requires task id and title" [] in
  spec ← non_nil command.(Command_Task) incomplete;
  fail_if ((spec.(TaskSpec_ID) == "") || (spec.(TaskSpec_Title) == "")) incomplete ;;
  TerminalContract_validate spec.(TaskSpec_TerminalContract) ;;
  let '(_, _, found) := findTask next spec.(TaskSpec_ID) in
  fail_if found (Errorf "duplicate task id %q" [AStr spec.(TaskSpec_ID)]) ;;
  fail_if (negb (validAccessMode spec.(TaskSpec_AccessMode)))
    (Errorf "task.add requires access mode %q or %q, got %q"
       [AStr AccessRead; AStr AccessWrite; AStr spec.(TaskSpec_AccessMode)]) ;;
  let task := Task_zero
    <| Task_ID := spec.(TaskSpec_ID) |> <| Task_Title := spec.(TaskSpec_Title) |>
    <| Task_State := TaskPlanned |>
    <| Task_TerminalContract := cloneContract spec.(TaskSpec_TerminalContract) |>
    <| Task_AccessMode := spec.(TaskSpec_AccessMode) |> in
  let next := next <| Board_Tasks := next.(Board_Tasks) ++ [task] |> in
  Ok (emit command ((newEvent EventTaskAdded) <| Event_Task := taskPointer task |>) (next, [])).

Definition applyDependencyAdd (next : Board) (command : Command) : result Working :=
  requireInitialized next ;;
  requireRole command RoleCoordinator ;;
  let incomplete := Errorf "dependency.add requires a dependency id" [] in
  spec ← non_nil command.(Command_Dependency) incomplete;
  fail_if (spec.(DependencySpec_ID) == "") incomplete ;;
  fail_if (spec.(DependencySpec_TaskID) == spec.(DependencySpec_DependsOn))
    (Errorf "dependency %q is a self-loop" [AStr spec.(DependencySpec_ID)]) ;;
  let '(_, task, found) := findTask next spec.(DependencySpec_TaskID) in
  fail_if (negb found) (taskNotFound spec.(DependencySpec_TaskID)) ;;
  fail_if (task.(Task_State) != TaskPlanned) (illegalTransition task.(Task_State) "add dependency") ;;
  let '(_, _, found) := findTask next spec.(DependencySpec_DependsOn) in
  fail_if (negb found)
    (Errorf "prerequisite task %q not found" [AStr spec.(DependencySpec_DependsOn)]) ;;
  for_each (λ _ existing,
      fail_if (existing.(Dependency_ID) == spec.(DependencySpec_ID))
        (Errorf "duplicate dependency id %q" [AStr existing.(Dependency_ID)]) ;;
      fail_if ((existing.(Dependency_TaskID) == spec.(DependencySpec_TaskID))
               && (existing.(Dependency_DependsOn) == spec.(DependencySpec_DependsOn)))
        (Errorf "duplicate dependency edge" []))
    tt next.(Board_Dependencies) ;;
  let dependency := mkDependency spec.(DependencySpec_ID) spec.(DependencySpec_TaskID)
                      spec.(DependencySpec_DependsOn) in
  let next := next <| Board_Dependencies := next.(Board_Dependencies) ++ [dependency] |> in
  Board_Validate next ;;
  Ok (emit command ((newEvent EventDependencyAdded) <| Event_Dependency := dependencyPointer dependency |>)
        (next, [])).

Definition applyTaskActivate (next : Board) (command : Command) : result Working :=
  requireInitialized next ;;
  requireRole command RoleCoordinator ;;
  let '(index, task, found) := findTask next command.(Command_TaskID) in
  fail_if (negb found) (taskNotFound command.(Command_TaskID)) ;;
  fail_if (task.(Task_State) != TaskPlanned) (illegalTransition task.(Task_State) "activate") ;;
  let state := if negb (dependenciesPassed next task.(Task_ID)) then TaskBlocked else TaskReady in
  next ← setTask next index (λ t, t <| Task_State := state |>);
  current ← taskAt next index;
  Ok (emit command (stateEvent task current command.(Command_Reason)) (next, [])).

(** * Claiming and executing *)

Definition applyLeaseAcquire (next : Board) (command : Command) : result Working :=
  requireInitialized next ;;
  requireRole command RoleCoordinator ;;
  let incomplete := Errorf "lease.acquire requires lease, attempt, task, and worker ids" [] in
  spec ← non_nil command.(Command_Lease) incomplete;
  fail_if ((spec.(LeaseSpec_ID) == "") || (spec.(LeaseSpec_AttemptID) == "")
           || (spec.(LeaseSpec_TaskID) == "") || (spec.(LeaseSpec_WorkerID) == "")) incomplete ;;
  fail_if ((spec.(LeaseSpec_FencingToken) == "") || Time_IsZero spec.(LeaseSpec_AcquiredAt))
    (Errorf "lease.acquire requires a fencing token and an acquisition time" []) ;;
  fail_if next.(Board_Paused)
    (Errorf "board %q is paused: %s" [AStr next.(Board_ID); AStr next.(Board_PauseReason)]) ;;
  let '(index, task, found) := findTask next spec.(LeaseSpec_TaskID) in
  fail_if (negb found) (taskNotFound spec.(LeaseSpec_TaskID)) ;;
  fail_if ((task.(Task_State) != TaskReady) && (task.(Task_State) != TaskRetryWait))
    (illegalTransition task.(Task_State) "lease") ;;
  fail_if ((task.(Task_State) == TaskRetryWait)
           && Time_Before spec.(LeaseSpec_AcquiredAt) task.(Task_NextEligibleAt))
    (Errorf "task %q is not eligible to retry until %s"
       [AStr task.(Task_ID); ATime (Time_UTC task.(Task_NextEligibleAt))]) ;;
  fail_if (MaxAttempts <=? task.(Task_AttemptCount))%Z
    (Errorf "task %q exhausted its %d attempts" [AStr task.(Task_ID); AInt MaxAttempts]) ;;
  for_each (λ _ lease,
      fail_if (lease.(Lease_ID) == spec.(LeaseSpec_ID))
        (Errorf "duplicate lease id %q" [AStr lease.(Lease_ID)]) ;;
      fail_if (lease.(Lease_FencingToken) == spec.(LeaseSpec_FencingToken))
        (Errorf "fencing token was already issued" []))
    tt next.(Board_Leases) ;;
  for_each (λ _ attempt,
      fail_if (attempt.(Attempt_ID) == spec.(LeaseSpec_AttemptID))
        (Errorf "duplicate attempt id %q" [AStr attempt.(Attempt_ID)]) ;;
      fail_if (attempt.(Attempt_FencingToken) == spec.(LeaseSpec_FencingToken))
        (Errorf "fencing token was already issued" []))
    tt next.(Board_Attempts) ;;
  let generation := next.(Board_NextGeneration) in
  let next := next <| Board_NextGeneration := u64 (next.(Board_NextGeneration) + 1) |> in
  let attempt := Attempt_zero
    <| Attempt_ID := spec.(LeaseSpec_AttemptID) |> <| Attempt_TaskID := task.(Task_ID) |>
    <| Attempt_WorkerID := spec.(LeaseSpec_WorkerID) |> <| Attempt_State := AttemptLeased |>
    <| Attempt_Number := i64 (task.(Task_AttemptCount) + 1) |>
    <| Attempt_Generation := generation |>
    <| Attempt_FencingToken := spec.(LeaseSpec_FencingToken) |> in
  let lease := Lease_zero
    <| Lease_ID := spec.(LeaseSpec_ID) |> <| Lease_TaskID := task.(Task_ID) |>
    <| Lease_AttemptID := attempt.(Attempt_ID) |> <| Lease_WorkerID := attempt.(Attempt_WorkerID) |>
    <| Lease_State := LeaseActive |>
    <| Lease_Generation := generation |> <| Lease_FencingToken := spec.(LeaseSpec_FencingToken) |>
    <| Lease_AcquiredAt := Time_UTC spec.(LeaseSpec_AcquiredAt) |>
    <| Lease_ExpiresAt := expiryUTC spec.(LeaseSpec_ExpiresAt) |> in
  let next := next <| Board_Attempts := next.(Board_Attempts) ++ [attempt] |>
                   <| Board_Leases := next.(Board_Leases) ++ [lease] |> in
  next ← setTask next index (λ t,
    t <| Task_State := TaskLeased |>
      <| Task_ActiveAttemptID := attempt.(Attempt_ID) |> <| Task_ActiveLeaseID := lease.(Lease_ID) |>
      <| Task_AttemptCount := attempt.(Attempt_Number) |>
      <| Task_NextEligibleAt := Time_zero |>
      <| Task_FailureClass := FailureNone |> <| Task_BlockedReason := "" |>);
  current ← taskAt next index;
  Ok (emit command ((newEvent EventLeaseAcquired) <| Event_Task := taskPointer current |>
        <| Event_Attempt := attemptPointer attempt |> <| Event_Lease := leasePointer lease |>) (next, [])).

Definition applyAttemptStart (next : Board) (command : Command) : result Working :=
  requireRole command RoleWorker ;;
  requireFencingToken next command ;;
  next ← transitionAttempt next command TaskLeased TaskRunning AttemptLeased AttemptRunning;
  let '(task, attempt) := taskAndAttempt next command.(Command_TaskID) command.(Command_AttemptID) in
  Ok (emit command ((newEvent EventAttemptStateChanged) <| Event_Task := taskPointer task |>
        <| Event_Attempt := attemptPointer attempt |> <| Event_PreviousState := TaskLeased |>
        <| Event_CurrentState := TaskRunning |>) (next, [])).

Definition applyEvidenceSubmit (next : Board) (command : Command) : result Working :=
  requireRole command RoleWorker ;;
  requireFencingToken next command ;;
  let incomplete := Errorf "evidence.submit requires evidence id, artifact, and summary" [] in
  spec ← non_nil command.(Command_Evidence) incomplete;
  fail_if ((spec.(EvidenceSpec_ID) == "") || (spec.(EvidenceSpec_Artifact) == "")
           || (spec.(EvidenceSpec_Summary) == "")) incomplete ;;
  fail_if ((spec.(EvidenceSpec_TaskID) != command.(Command_TaskID))
           || (spec.(EvidenceSpec_AttemptID) != command.(Command_AttemptID)))
    (Errorf "evidence does not match command task and attempt" []) ;;
  next ← transitionAttempt next command TaskRunning TaskVerifying AttemptRunning AttemptVerifying;
  for_each (λ _ item,
      fail_if (item.(Evidence_ID) == spec.(EvidenceSpec_ID))
        (Errorf "duplicate evidence id %q" [AStr item.(Evidence_ID)]))
    tt next.(Board_Evidence) ;;
  validateEvidenceResult spec.(EvidenceSpec_Result) ;;
  let result := cloneEvidenceResult spec.(EvidenceSpec_Result) in
  let '(_, attempt, found) := findAttempt next command.(Command_AttemptID) in
  let result := if found
    then result <| EvidenceResult_Generation := attempt.(Attempt_Generation) |> else result in
  let evidence := Evidence_zero
    <| Evidence_ID := spec.(EvidenceSpec_ID) |> <| Evidence_TaskID := command.(Command_TaskID) |>
    <| Evidence_AttemptID := command.(Command_AttemptID) |>
    <| Evidence_WorkerID := command.(Command_Actor).(Actor_ID) |>
    <| Evidence_Artifact := spec.(EvidenceSpec_Artifact) |>
    <| Evidence_Summary := spec.(EvidenceSpec_Summary) |>
    <| Evidence_State := EvidenceSubmitted |> <| Evidence_Result := result |> in
  let next := next <| Board_Evidence := next.(Board_Evidence) ++ [evidence] |> in
  let '(leaseIndex, _, found) :=
    findLease next (taskFor next command.(Command_TaskID)).(Task_ActiveLeaseID) in
  next ← (if found then setLease next leaseIndex (λ l, l <| Lease_State := LeaseCompleted |>)
          else Ok next);
  let '(attemptIndex, _, _) := findAttempt next command.(Command_AttemptID) in
  next ← setAttempt next attemptIndex (λ a, a <| Attempt_EvidenceID := evidence.(Evidence_ID) |>);
  let '(task, attempt) := taskAndAttempt next command.(Command_TaskID) command.(Command_AttemptID) in
  Ok (emit command ((newEvent EventEvidenceSubmitted) <| Event_Task := taskPointer task |>
        <| Event_Attempt := attemptPointer attempt |> <| Event_Evidence := evidencePointer evidence |>
        <| Event_PreviousState := TaskRunning |> <| Event_CurrentState := TaskVerifying |>) (next, [])).

(** * Verdicts and failures *)

(** The guards the two verdicts share; the result is the decided entities with
    their indices: task, attempt, evidence, lease. *)
Definition decisionGuards (next : Board) (command : Command)
  : result ((Z * Task) * (Z * Attempt) * (Z * Evidence) * Z) :=
  requireRole command RoleVerifier ;;
  requireFencingToken next command ;;
  let incomplete := Errorf "evidence decision requires evidence id" [] in
  spec ← non_nil command.(Command_Evidence) incomplete;
  fail_if (spec.(EvidenceSpec_ID) == "") incomplete ;;
  let '(taskIndex, task, found) := findTask next command.(Command_TaskID) in
  fail_if (negb found || (task.(Task_State) != TaskVerifying)
           || (task.(Task_ActiveAttemptID) != command.(Command_AttemptID)))
    (illegalTransition task.(Task_State) "verify") ;;
  let '(attemptIndex, attempt, found) := findAttempt next command.(Command_AttemptID) in
  fail_if (negb found || (attempt.(Attempt_State) != AttemptVerifying)
           || (attempt.(Attempt_EvidenceID) != spec.(EvidenceSpec_ID)))
    (Errorf "attempt is not verifying the specified evidence" []) ;;
  fail_if (command.(Command_Actor).(Actor_ID) == attempt.(Attempt_WorkerID))
    (Errorf "evidence reviewer must be independent from the attempt worker" []) ;;
  let '(evidenceIndex, evidence, found) := findEvidence next spec.(EvidenceSpec_ID) in
  fail_if (negb found || (evidence.(Evidence_State) != EvidenceSubmitted))
    (Errorf "evidence %q is not submitted" [AStr spec.(EvidenceSpec_ID)]) ;;
  let '(leaseIndex, _, found) := findLease next task.(Task_ActiveLeaseID) in
  fail_if (negb found)
    (Errorf "lease for attempt %q not found" [AStr command.(Command_AttemptID)]) ;;
  Ok ((taskIndex, task), (attemptIndex, attempt), (evidenceIndex, evidence), leaseIndex).

Definition applyEvidenceAccept (next : Board) (command : Command) : result Working :=
  '((taskIndex, task), (attemptIndex, attempt), (evidenceIndex, evidence), leaseIndex)
    ← decisionGuards next command;
  let failed := FailedRequiredTests evidence.(Evidence_Result) in
  fail_if (0 <? length failed)%nat
    (Errorf "evidence %q cannot be accepted: required tests failed: %v"
       [AStr evidence.(Evidence_ID); AStrs failed]) ;;
  next ← setEvidence next evidenceIndex (λ e,
    e <| Evidence_Verdict := "accept" |> <| Evidence_VerdictReason := command.(Command_Reason) |>);
  next ← setAttempt next attemptIndex (λ a, a <| Attempt_State := AttemptPassed |>);
  next ← setEvidence next evidenceIndex (λ e, e <| Evidence_State := EvidenceAccepted |>);
  next ← setLease next leaseIndex (λ l, l <| Lease_State := LeaseCompleted |>);
  next ← setTask next taskIndex (λ t, t <| Task_AcceptedEvidenceID := evidence.(Evidence_ID) |>);
  let settled := match evidence.(Evidence_Result).(EvidenceResult_Patch) with
                 | Some _ => TaskIntegrating | None => TaskPassed end in
  next ← setTask next taskIndex (λ t, t <| Task_State := settled |>);
  task ← taskAt next taskIndex; attempt ← attemptAt next attemptIndex;
  evidence ← evidenceAt next evidenceIndex; lease ← leaseAt next leaseIndex;
  let w := emit command ((newEvent EventEvidenceAccepted) <| Event_Task := taskPointer task |>
        <| Event_Attempt := attemptPointer attempt |> <| Event_Evidence := evidencePointer evidence |>
        <| Event_Lease := leasePointer lease |> <| Event_PreviousState := TaskVerifying |>
        <| Event_CurrentState := settled |> <| Event_Reason := command.(Command_Reason) |>) (next, []) in
  if settled == TaskPassed then unblockReadyTasks command w else Ok w.

Definition applyEvidenceReject (next : Board) (command : Command) : result Working :=
  '((taskIndex, task), (attemptIndex, attempt), (evidenceIndex, evidence), leaseIndex)
    ← decisionGuards next command;
  let class := if command.(Command_FailureClass) == FailureNone
               then FailureVerifierFeedback else command.(Command_FailureClass) in
  next ← recordAttemptFailure next taskIndex attemptIndex leaseIndex class
           command.(Command_Reason) command.(Command_NextEligibleAt);
  next ← setEvidence next evidenceIndex (λ e,
    e <| Evidence_State := EvidenceRejected |> <| Evidence_Verdict := "reject" |>
      <| Evidence_VerdictReason := command.(Command_Reason) |>);
  task ← taskAt next taskIndex; attempt ← attemptAt next attemptIndex;
  evidence ← evidenceAt next evidenceIndex; lease ← leaseAt next leaseIndex;
  Ok (emit command ((newEvent EventEvidenceRejected) <| Event_Task := taskPointer task |>
        <| Event_Attempt := attemptPointer attempt |> <| Event_Evidence := evidencePointer evidence |>
        <| Event_Lease := leasePointer lease |> <| Event_PreviousState := TaskVerifying |>
        <| Event_CurrentState := task.(Task_State) |> <| Event_Reason := command.(Command_Reason) |>)
        (next, [])).

Definition applyAttemptFail (next : Board) (command : Command) : result Working :=
  requireRole command RoleWorker ;;
  requireFencingToken next command ;;
  let '(taskIndex, task, found) := findTask next command.(Command_TaskID) in
  fail_if (negb found || ((task.(Task_State) != TaskLeased) && (task.(Task_State) != TaskRunning)))
    (illegalTransition task.(Task_State) "fail") ;;
  let '(attemptIndex, attempt, found) := findAttempt next command.(Command_AttemptID) in
  fail_if (negb found || (attempt.(Attempt_WorkerID) != command.(Command_Actor).(Actor_ID))
           || (task.(Task_ActiveAttemptID) != attempt.(Attempt_ID)))
    (Errorf "worker does not own active attempt" []) ;;
  let '(leaseIndex, lease, found) := findLease next task.(Task_ActiveLeaseID) in
  fail_if (negb found || (lease.(Lease_State) != LeaseActive)
           || (lease.(Lease_WorkerID) != command.(Command_Actor).(Actor_ID)))
    (Errorf "worker does not own active lease" []) ;;
  fail_if (command.(Command_FailureClass) == FailureNone)
    (Errorf "attempt.fail requires a failure class" []) ;;
  let previous := task.(Task_State) in
  next ← recordAttemptFailure next taskIndex attemptIndex leaseIndex command.(Command_FailureClass)
           command.(Command_Reason) command.(Command_NextEligibleAt);
  task ← taskAt next taskIndex; attempt ← attemptAt next attemptIndex; lease ← leaseAt next leaseIndex;
  Ok (emit command ((newEvent EventAttemptStateChanged) <| Event_Task := taskPointer task |>
        <| Event_Attempt := attemptPointer attempt |> <| Event_Lease := leasePointer lease |>
        <| Event_PreviousState := previous |> <| Event_CurrentState := task.(Task_State) |>
        <| Event_Reason := command.(Command_Reason) |>) (next, [])).

Definition applyLeaseExpire (next : Board) (command : Command) : result Working :=
  requireRole command RoleCoordinator ;;
  let incomplete := Errorf "lease.expire requires a lease id" [] in
  spec ← non_nil command.(Command_Lease) incomplete;
  fail_if (spec.(LeaseSpec_ID) == "") incomplete ;;
  let '(leaseIndex, lease, found) := findLease next spec.(LeaseSpec_ID) in
  fail_if (negb found || (lease.(Lease_State) != LeaseActive)) (leaseNotActive spec.(LeaseSpec_ID)) ;;
  let '(taskIndex, task, found) := findTask next lease.(Lease_TaskID) in
  fail_if (negb found) (taskNotFound lease.(Lease_TaskID)) ;;
  let '(attemptIndex, _, found) := findAttempt next lease.(Lease_AttemptID) in
  fail_if (negb found) (Errorf "attempt %q not found" [AStr lease.(Lease_AttemptID)]) ;;
  let class := if command.(Command_FailureClass) == FailureNone
               then FailureTransient else command.(Command_FailureClass) in
  let previous := task.(Task_State) in
  next ← recordAttemptFailure next taskIndex attemptIndex leaseIndex class
           command.(Command_Reason) command.(Command_NextEligibleAt);
  task ← taskAt next taskIndex; attempt ← attemptAt next attemptIndex; lease ← leaseAt next leaseIndex;
  Ok (emit command ((newEvent EventLeaseExpired) <| Event_Task := taskPointer task |>
        <| Event_Attempt := attemptPointer attempt |> <| Event_Lease := leasePointer lease |>
        <| Event_PreviousState := previous |> <| Event_CurrentState := task.(Task_State) |>
        <| Event_Reason := command.(Command_Reason) |>) (next, [])).

Definition applyLeaseRenew (next : Board) (command : Command) : result Working :=
  requireRole command RoleCoordinator ;;
  let incomplete := Errorf "lease.renew requires a lease id and a new deadline" [] in
  spec ← non_nil command.(Command_Lease) incomplete;
  fail_if ((spec.(LeaseSpec_ID) == "") || Time_IsZero spec.(LeaseSpec_ExpiresAt)) incomplete ;;
  let '(leaseIndex, lease, found) := findLease next spec.(LeaseSpec_ID) in
  fail_if (negb found || (lease.(Lease_State) != LeaseActive)) (leaseNotActive spec.(LeaseSpec_ID)) ;;
  fail_if ((lease.(Lease_FencingToken) == "")
           || (spec.(LeaseSpec_FencingToken) != lease.(Lease_FencingToken)))
    (Errorf "fencing token does not authorize lease %q" [AStr spec.(LeaseSpec_ID)]) ;;
  fail_if (negb (Time_After spec.(LeaseSpec_ExpiresAt) lease.(Lease_ExpiresAt))
           && negb (Time_IsZero lease.(Lease_ExpiresAt)))
    (Errorf "lease renewal must extend the deadline" []) ;;
  next ← setLease next leaseIndex (λ l,
    l <| Lease_ExpiresAt := Time_UTC spec.(LeaseSpec_ExpiresAt) |>);
  let '(taskIndex, _, _) := findTask next lease.(Lease_TaskID) in
  let '(attemptIndex, _, _) := findAttempt next lease.(Lease_AttemptID) in
  task ← taskAt next taskIndex; attempt ← attemptAt next attemptIndex; lease ← leaseAt next leaseIndex;
  Ok (emit command ((newEvent EventLeaseRenewed) <| Event_Task := taskPointer task |>
        <| Event_Attempt := attemptPointer attempt |> <| Event_Lease := leasePointer lease |>
        <| Event_Reason := command.(Command_Reason) |>) (next, [])).

(** * Decisions about stopped work and about the plan *)

Definition applyTaskRetry (next : Board) (command : Command) : result Working :=
  requireInitialized next ;;
  requireRole command RoleCoordinator ;;
  fail_if (command.(Command_Reason) == "")
    (Errorf "task.retry requires a reason recording the decision" []) ;;
  let '(index, task, found) := findTask next command.(Command_TaskID) in
  fail_if (negb found) (taskNotFound command.(Command_TaskID)) ;;
  fail_if ((task.(Task_State) != TaskFailed) && (task.(Task_State) != TaskRetryWait)
           && (task.(Task_State) != TaskIntegrating))
    (illegalTransition task.(Task_State) "retry") ;;
  let previous := task in
  next ← setTask next index (λ t,
    t <| Task_AttemptCount := 0%Z |>
      <| Task_UserRetries := i64 (task.(Task_UserRetries) + 1) |>
      <| Task_NextEligibleAt := Time_zero |>
      <| Task_FailureClass := FailureNone |> <| Task_BlockedReason := "" |>
      <| Task_ActiveAttemptID := "" |> <| Task_ActiveLeaseID := "" |>);
  let state := if negb (dependenciesPassed next task.(Task_ID)) then TaskBlocked else TaskReady in
  next ← setTask next index (λ t, t <| Task_State := state |>);
  current ← taskAt next index;
  Ok (emit command ((newEvent EventTaskRetryRequested) <| Event_Task := taskPointer current |>
        <| Event_PreviousState := previous.(Task_State) |> <| Event_CurrentState := state |>
        <| Event_Reason := command.(Command_Reason) |>) (next, [])).

(** The steps of a patch on the working copy, numbered from 1 in error messages. *)
Fixpoint applyPatchSteps (board : Board) (patchID : string) (number : nat) (steps : list PatchStep)
  : result Board :=
  match steps with
  | [] => Ok board
  | step :: steps =>
      board ← wrap_err (λ err, Errorf "plan patch %q step %d (%s): %w"
                 [AStr patchID; AInt (Z.of_nat number); AStr step.(PatchStep_Operation); AWrap err])
                (applyPatchStep board patchID step);
      applyPatchSteps board patchID (S number) steps
  end.

Definition applyPlanPatch (next : Board) (command : Command) : result Working :=
  requireInitialized next ;;
  requireRole command RoleCoordinator ;;
  let incomplete := Errorf "plan.patch requires an id and at least one step" [] in
  patch ← non_nil command.(Command_Patch) incomplete;
  fail_if ((patch.(PatchSpec_ID) == "") || (length patch.(PatchSpec_Steps) =? 0)%nat) incomplete ;;
  fail_if (patch.(PatchSpec_Reason) == "")
    (Errorf "plan.patch requires a reason recording why the plan changed" []) ;;
  fail_if (maxPatchSteps <? length patch.(PatchSpec_Steps))%nat
    (Errorf "plan.patch exceeds %d steps" [AInt (Z.of_nat maxPatchSteps)]) ;;
  next ← applyPatchSteps next patch.(PatchSpec_ID) 1 patch.(PatchSpec_Steps);
  wrap_err (λ err, Errorf "plan patch %q produced an invalid graph: %w"
              [AStr patch.(PatchSpec_ID); AWrap err]) (Board_Validate next) ;;
  unblockReadyTasks command
    (emit command ((newEvent EventPlanPatched) <| Event_Reason := patch.(PatchSpec_Reason) |>)
       (next, [])).

Definition applyVerificationDeferred (next : Board) (command : Command) : result Working :=
  requireRole command RoleCoordinator ;;
  let incomplete := Errorf "verification.deferred requires an evidence id" [] in
  spec ← non_nil command.(Command_Evidence) incomplete;
  fail_if (spec.(EvidenceSpec_ID) == "") incomplete ;;
  let '(evidenceIndex, evidence, found) := findEvidence next spec.(EvidenceSpec_ID) in
  fail_if (negb found || (evidence.(Evidence_State) != EvidenceSubmitted))
    (Errorf "evidence %q is not awaiting verification" [AStr spec.(EvidenceSpec_ID)]) ;;
  let '(taskIndex, task, found) := findTask next evidence.(Evidence_TaskID) in
  fail_if (negb found || (task.(Task_State) != TaskVerifying))
    (illegalTransition task.(Task_State) "defer verification") ;;
  next ← setEvidence next evidenceIndex (λ e,
    e <| Evidence_VerificationAttempts := i64 (evidence.(Evidence_VerificationAttempts) + 1) |>);
  deferred ← evidenceAt next evidenceIndex;
  next ← (if (MaxVerificationAttempts <? deferred.(Evidence_VerificationAttempts))%Z
          then setTask next taskIndex (λ t,
                 t <| Task_BlockedReason := command.(Command_Reason) |>
                   <| Task_FailureClass := FailureNeedsInput |>)
          else Ok next);
  task ← taskAt next taskIndex; evidence ← evidenceAt next evidenceIndex;
  Ok (emit command ((newEvent EventVerificationDeferred) <| Event_Task := taskPointer task |>
        <| Event_Evidence := evidencePointer evidence |>
        <| Event_Reason := command.(Command_Reason) |>) (next, [])).

(** * Integration, pausing and the project gate *)

Definition integrationGuards (next : Board) (command : Command) : result (Z * Task) :=
  requireInitialized next ;;
  requireRole command RoleCoordinator ;;
  let '(taskIndex, task, found) := findTask next command.(Command_TaskID) in
  fail_if (negb found) (taskNotFound command.(Command_TaskID)) ;;
  fail_if (task.(Task_State) != TaskIntegrating) (illegalTransition task.(Task_State) "integrate") ;;
  Ok (taskIndex, task).

Definition applyIntegrationFail (next : Board) (command : Command) : result Working :=
  '(taskIndex, _) ← integrationGuards next command;
  let class := if command.(Command_FailureClass) == FailureNone
               then FailureRepository else command.(Command_FailureClass) in
  next ← setTask next taskIndex (λ t,
    t <| Task_State := TaskFailed |> <| Task_FailureClass := class |>
      <| Task_BlockedReason := command.(Command_Reason) |>
      <| Task_ActiveAttemptID := "" |> <| Task_ActiveLeaseID := "" |>);
  task ← taskAt next taskIndex;
  Ok (emit command ((newEvent EventIntegrationFailed) <| Event_Task := taskPointer task |>
        <| Event_PreviousState := TaskIntegrating |> <| Event_CurrentState := TaskFailed |>
        <| Event_Reason := command.(Command_Reason) |>) (next, [])).

Definition applyIntegrationComplete (next : Board) (command : Command) : result Working :=
  '(taskIndex, _) ← integrationGuards next command;
  fail_if (command.(Command_Revision) == "")
    (Errorf "integration.complete requires the resulting revision" []) ;;
  next ← setTask next taskIndex (λ t,
    t <| Task_State := TaskPassed |> <| Task_IntegratedRevision := command.(Command_Revision) |>
      <| Task_ActiveAttemptID := "" |> <| Task_ActiveLeaseID := "" |>);
  let next := next <| Board_IntegratedRevision := command.(Command_Revision) |> in
  task ← taskAt next taskIndex;
  unblockReadyTasks command
    (emit command ((newEvent EventIntegrationComplete) <| Event_Task := taskPointer task |>
        <| Event_PreviousState := TaskIntegrating |> <| Event_CurrentState := TaskPassed |>
        <| Event_Reason := command.(Command_Reason) |>) (next, [])).

Definition applyBoardPauseResume (next : Board) (command : Command) : result Working :=
  requireInitialized next ;;
  requireRole command RoleCoordinator ;;
  let pause := command.(Command_Type) == CommandBoardPause in
  fail_if (pause && (command.(Command_Reason) == ""))
    (Errorf "board.pause requires a reason" []) ;;
  fail_if (Bool.eqb next.(Board_Paused) pause)
    (Errorf "board %q is already %s"
       [AStr next.(Board_ID); AStr (if next.(Board_Paused) then "paused" else "running")]) ;;
  let next := next <| Board_Paused := pause |> <| Board_PauseReason := "" |> in
  let next := if pause then next <| Board_PauseReason := command.(Command_Reason) |> else next in
  let eventType := if pause then EventBoardPaused else EventBoardResumed in
  Ok (emit command ((newEvent eventType) <| Event_Reason := command.(Command_Reason) |>) (next, [])).

Definition setGate (board : Board) (f : ProjectGate → ProjectGate) : Board :=
  board <| Board_Gate := f board.(Board_Gate) |>.

Definition applyGate (next : Board) (command : Command) : result Working :=
  requireInitialized next ;;
  requireRole command RoleCoordinator ;;
  fail_if (negb (ProjectGate_Established next.(Board_Gate)))
    (Errorf "this goal has no project gate to record a result for" []) ;;
  let incomplete := Errorf "a gate result requires a summary" [] in
  spec ← non_nil command.(Command_Gate) incomplete;
  fail_if (strings_TrimSpace spec.(GateSpec_Summary) == "") incomplete ;;
  let revision := strings_TrimSpace command.(Command_Revision) in
  fail_if (revision == "") (Errorf "a gate result requires the revision it ran against" []) ;;
  fail_if ((revision != next.(Board_IntegratedRevision))
           && (command.(Command_Type) != CommandGateUnavailable))
    (Errorf "gate result is for revision %s but the board is integrated at %s"
       [AStr revision; AStr next.(Board_IntegratedRevision)]) ;;
  let next := setGate next (λ g,
    g <| ProjectGate_Revision := revision |> <| ProjectGate_Summary := spec.(GateSpec_Summary) |>
      <| ProjectGate_RanAt := Time_UTC spec.(GateSpec_RanAt) |>) in
  if command.(Command_Type) == CommandGateUnavailable then
    let next := setGate next (λ g,
      g <| ProjectGate_Unavailable := i64 (g.(ProjectGate_Unavailable) + 1) |>
        <| ProjectGate_LastError := spec.(GateSpec_Summary) |>
        <| ProjectGate_RanAt := Time_UTC spec.(GateSpec_RanAt) |>) in
    Ok (emit command ((newEvent EventGateUnavailable) <| Event_Reason := spec.(GateSpec_Summary) |>)
          (next, []))
  else if command.(Command_Type) == CommandGatePass then
    let next := setGate next (λ g,
      g <| ProjectGate_State := GatePassed |> <| ProjectGate_FailureOutput := "" |>
        <| ProjectGate_Failures := 0%Z |> <| ProjectGate_Unavailable := 0%Z |>
        <| ProjectGate_LastError := "" |>) in
    Ok (emit command ((newEvent EventGatePassed) <| Event_Reason := spec.(GateSpec_Summary) |>)
          (next, []))
  else
    let next := setGate next (λ g,
      g <| ProjectGate_State := GateFailed |>
        <| ProjectGate_FailureOutput := spec.(GateSpec_FailureOutput) |>
        <| ProjectGate_Failures := i64 (g.(ProjectGate_Failures) + 1) |>) in
    Ok (emit command ((newEvent EventGateFailed) <| Event_Reason := spec.(GateSpec_Summary) |>)
          (next, [])).

(** * The command dispatcher *)

Definition dispatch (next : Board) (command : Command) : result Working :=
  switch command.(Command_Type)
    [(CommandBoardCreate, applyBoardCreate);
     (CommandTaskAdd, applyTaskAdd);
     (CommandDependencyAdd, applyDependencyAdd);
     (CommandTaskActivate, applyTaskActivate);
     (CommandLeaseAcquire, applyLeaseAcquire);
     (CommandAttemptStart, applyAttemptStart);
     (CommandEvidenceSubmit, applyEvidenceSubmit);
     (CommandEvidenceAccept, applyEvidenceAccept);
     (CommandEvidenceReject, applyEvidenceReject);
     (CommandAttemptFail, applyAttemptFail);
     (CommandLeaseExpire, applyLeaseExpire);
     (CommandLeaseRenew, applyLeaseRenew);
     (CommandTaskRetry, applyTaskRetry);
     (CommandPlanPatch, applyPlanPatch);
     (CommandVerificationDeferred, applyVerificationDeferred);
     (CommandIntegrationComplete, applyIntegrationComplete);
     (CommandIntegrationFail, applyIntegrationFail);
     (CommandBoardPause, applyBoardPauseResume);
     (CommandBoardResume, applyBoardPauseResume);
     (CommandGatePass, applyGate);
     (CommandGateFail, applyGate);
     (CommandGateUnavailable, applyGate)]
    (λ _ command, Err (Errorf "unsupported command type %q" [AStr command.(Command_Type)]))
    next command.

(** The error result carries no board: every error return of the source hands
    back [current] untouched, with no events. *)
Definition Apply (current : Board) (command : Command) : result (Board * list Event) :=
  fail_if (negb (command.(Command_SchemaVersion) =? SchemaVersion)%Z)
    (Errorf "unsupported command schema version %d" [AInt command.(Command_SchemaVersion)]) ;;
  fail_if ((command.(Command_ID) == "") || (command.(Command_Actor).(Actor_ID) == ""))
    (Errorf "command id and actor id are required" []) ;;
  fail_if (negb (command.(Command_ExpectedVersion) =? current.(Board_Version))%Z)
    (Errorf "expected board version %d, got %d"
       [AInt command.(Command_ExpectedVersion); AInt current.(Board_Version)]) ;;
  (if current.(Board_ID) != ""
   then wrap_err (λ err, Errorf "invalid current board: %w" [AWrap err]) (Board_Validate current)
   else Ok tt) ;;
  '(next, events) ← dispatch (cloneBoard current) command;
  wrap_err (λ err, Errorf "command produced invalid board: %w" [AWrap err]) (Board_Validate next) ;;
  Ok (next, events).
