(* ===== verification/Spec.v ===== *)
(** The abstract specification of the work graph.

    A board is a set of finite maps from ids to entities; positions, versions
    and events are gone. [step] says, one rule per kind of command, what an
    accepted command requires and what it changes. Refine.v proves that the
    detailed [Apply] implements it, and the invariants of Coordination.v, Lifecycle.v, History.v and Readiness.v are
    proved on it by rule induction. *)
From S2P Require Import Prelude Protocol.

Record state : Type := mkState {
  s_id : string;
  s_tasks : gmap string Task;
  s_deps : list Dependency;
  s_attempts : gmap string Attempt;
  s_leases : gmap string Lease;
  s_evidence : gmap string Evidence;
  s_generation : Z;
  s_paused : bool;
  s_revision : string;
  s_gate : ProjectGate;
}.
#[export] Instance state_eta : Eta state := λ r, mkState (r.(s_id)) (r.(s_tasks)) (r.(s_deps))
  (r.(s_attempts)) (r.(s_leases)) (r.(s_evidence)) (r.(s_generation)) (r.(s_paused))
  (r.(s_revision)) (r.(s_gate)).

Definition initial : state := mkState "" ∅ [] ∅ ∅ ∅ 0%Z false "" ProjectGate_zero.

Definition put_task (t : Task) (s : state) : state :=
  s <| s_tasks := <[Task_ID t := t]> s.(s_tasks) |>.
Definition put_attempt (a : Attempt) (s : state) : state :=
  s <| s_attempts := <[Attempt_ID a := a]> s.(s_attempts) |>.
Definition put_lease (l : Lease) (s : state) : state :=
  s <| s_leases := <[Lease_ID l := l]> s.(s_leases) |>.
Definition put_evidence (e : Evidence) (s : state) : state :=
  s <| s_evidence := <[Evidence_ID e := e]> s.(s_evidence) |>.

(** * Readiness *)

Definition passed (tasks : gmap string Task) (id : string) : bool :=
  match tasks !! id with Some t => t.(Task_State) == TaskPassed | None => false end.

(** Every prerequisite of [id] has passed. *)
Definition cleared (tasks : gmap string Task) (deps : list Dependency) (id : string) : bool :=
  forallb (λ d, (d.(Dependency_TaskID) != id) || passed tasks d.(Dependency_DependsOn)) deps.

Arguments passed : simpl never.
Arguments cleared : simpl never.

Definition settle (s : state) (id : string) : TaskState :=
  if cleared s.(s_tasks) s.(s_deps) id then TaskReady else TaskBlocked.

Definition release_task (s : state) (t : Task) : Task :=
  if (t.(Task_State) == TaskBlocked) && cleared s.(s_tasks) s.(s_deps) t.(Task_ID)
  then t <| Task_State := TaskReady |> else t.

(** Every blocked task whose prerequisites have all passed becomes ready. *)
Definition release (s : state) : state := s <| s_tasks := release_task s <$> s.(s_tasks) |>.

(** * Failure: the bounded retry policy *)

Definition retries (t : Task) (class : FailureClass) : bool :=
  FailureClass_Retryable class && (t.(Task_AttemptCount) <? MaxAttempts)%Z.

Definition failed_task (t : Task) (class : FailureClass) (reason : string) (eligible : Time) : Task :=
  if retries t class then
    t <| Task_ActiveAttemptID := "" |> <| Task_ActiveLeaseID := "" |>
      <| Task_State := TaskRetryWait |> <| Task_NextEligibleAt := eligible |>
      <| Task_FailureClass := class |> <| Task_BlockedReason := reason |>
  else
    t <| Task_ActiveAttemptID := "" |> <| Task_ActiveLeaseID := "" |>
      <| Task_State := TaskFailed |> <| Task_NextEligibleAt := Time_zero |>
      <| Task_FailureClass := if FailureClass_Retryable class then FailureExhausted else class |>
      <| Task_BlockedReason := reason |>.

Definition failed_attempt (a : Attempt) (class : FailureClass) (reason : string) : Attempt :=
  a <| Attempt_State := AttemptFailed |> <| Attempt_FailureClass := class |>
    <| Attempt_FailureReason := reason |>.

Definition completed (l : Lease) : Lease := l <| Lease_State := LeaseCompleted |>.

Definition record_failure (t : Task) (a : Attempt) (l : Lease) (class : FailureClass)
    (reason : string) (eligible : Time) (s : state) : state :=
  put_task (failed_task t class reason eligible)
    (put_lease (completed l) (put_attempt (failed_attempt a class reason) s)).

Definition failure_ok (t : Task) (class : FailureClass) (eligible : Time) : Prop :=
  validFailureClass class = true ∧ class ≠ FailureNone ∧
  (retries t class = true → eligible ≠ Time_zero).

Definition or_default (class fallback : FailureClass) : FailureClass :=
  if class == FailureNone then fallback else class.

(** * Authority *)

Definition by_role (c : Command) (role : ActorRole) : Prop := c.(Command_Actor).(Actor_Role) = role.

(** The command carries the token of the attempt it names. *)
Definition fenced (c : Command) (s : state) (a : Attempt) : Prop :=
  s.(s_attempts) !! c.(Command_AttemptID) = Some a ∧
  a.(Attempt_FencingToken) ≠ "" ∧ a.(Attempt_FencingToken) = c.(Command_FencingToken).

(** A worker that holds the active attempt and the active lease of its task. *)
Definition executing (c : Command) (s : state) (t : Task) (a : Attempt) (l : Lease) : Prop :=
  fenced c s a ∧
  s.(s_tasks) !! c.(Command_TaskID) = Some t ∧ t.(Task_ActiveAttemptID) = c.(Command_AttemptID) ∧
  s.(s_leases) !! t.(Task_ActiveLeaseID) = Some l ∧ l.(Lease_State) = LeaseActive ∧
  a.(Attempt_WorkerID) = c.(Command_Actor).(Actor_ID) ∧
  l.(Lease_WorkerID) = c.(Command_Actor).(Actor_ID).

(** A verifier, other than the worker, deciding the evidence under review. *)
Definition deciding (c : Command) (s : state) (t : Task) (a : Attempt) (e : Evidence) (l : Lease)
  : Prop :=
  fenced c s a ∧
  s.(s_tasks) !! c.(Command_TaskID) = Some t ∧ t.(Task_State) = TaskVerifying ∧
  t.(Task_ActiveAttemptID) = c.(Command_AttemptID) ∧
  a.(Attempt_State) = AttemptVerifying ∧
  c.(Command_Actor).(Actor_ID) ≠ a.(Attempt_WorkerID) ∧
  s.(s_evidence) !! a.(Attempt_EvidenceID) = Some e ∧ e.(Evidence_State) = EvidenceSubmitted ∧
  s.(s_leases) !! t.(Task_ActiveLeaseID) = Some l.

(** * New entities *)

Definition new_task (spec : TaskSpec) (state : TaskState) (origin : string) : Task :=
  Task_zero <| Task_ID := spec.(TaskSpec_ID) |> <| Task_Title := spec.(TaskSpec_Title) |>
    <| Task_State := state |> <| Task_TerminalContract := spec.(TaskSpec_TerminalContract) |>
    <| Task_AccessMode := spec.(TaskSpec_AccessMode) |> <| Task_Origin := origin |>.

Definition new_attempt (s : state) (t : Task) (spec : LeaseSpec) : Attempt :=
  Attempt_zero
    <| Attempt_ID := spec.(LeaseSpec_AttemptID) |> <| Attempt_TaskID := t.(Task_ID) |>
    <| Attempt_WorkerID := spec.(LeaseSpec_WorkerID) |> <| Attempt_State := AttemptLeased |>
    <| Attempt_Number := i64 (t.(Task_AttemptCount) + 1) |>
    <| Attempt_Generation := s.(s_generation) |>
    <| Attempt_FencingToken := spec.(LeaseSpec_FencingToken) |>.

Definition new_lease (s : state) (t : Task) (spec : LeaseSpec) : Lease :=
  Lease_zero
    <| Lease_ID := spec.(LeaseSpec_ID) |> <| Lease_TaskID := t.(Task_ID) |>
    <| Lease_AttemptID := spec.(LeaseSpec_AttemptID) |>
    <| Lease_WorkerID := spec.(LeaseSpec_WorkerID) |> <| Lease_State := LeaseActive |>
    <| Lease_Generation := s.(s_generation) |> <| Lease_FencingToken := spec.(LeaseSpec_FencingToken) |>
    <| Lease_AcquiredAt := spec.(LeaseSpec_AcquiredAt) |>
    <| Lease_ExpiresAt := spec.(LeaseSpec_ExpiresAt) |>.

Definition leased_task (t : Task) (spec : LeaseSpec) : Task :=
  t <| Task_State := TaskLeased |>
    <| Task_ActiveAttemptID := spec.(LeaseSpec_AttemptID) |>
    <| Task_ActiveLeaseID := spec.(LeaseSpec_ID) |>
    <| Task_AttemptCount := i64 (t.(Task_AttemptCount) + 1) |>
    <| Task_NextEligibleAt := Time_zero |>
    <| Task_FailureClass := FailureNone |> <| Task_BlockedReason := "" |>.

Definition new_evidence (c : Command) (spec : EvidenceSpec) (a : Attempt) : Evidence :=
  Evidence_zero
    <| Evidence_ID := spec.(EvidenceSpec_ID) |> <| Evidence_TaskID := c.(Command_TaskID) |>
    <| Evidence_AttemptID := c.(Command_AttemptID) |>
    <| Evidence_WorkerID := c.(Command_Actor).(Actor_ID) |>
    <| Evidence_Artifact := spec.(EvidenceSpec_Artifact) |>
    <| Evidence_Summary := spec.(EvidenceSpec_Summary) |>
    <| Evidence_State := EvidenceSubmitted |>
    <| Evidence_Result := spec.(EvidenceSpec_Result)
         <| EvidenceResult_Generation := a.(Attempt_Generation) |> |>.

Definition restarted_task (t : Task) : Task :=
  t <| Task_AttemptCount := 0%Z |> <| Task_UserRetries := i64 (t.(Task_UserRetries) + 1) |>
    <| Task_NextEligibleAt := Time_zero |>
    <| Task_FailureClass := FailureNone |> <| Task_BlockedReason := "" |>
    <| Task_ActiveAttemptID := "" |> <| Task_ActiveLeaseID := "" |>.

(** * Plan patches *)

Definition live (t : Task) : bool :=
  (t.(Task_State) == TaskLeased) || (t.(Task_State) == TaskRunning) || (t.(Task_State) == TaskVerifying).

Definition cancelled_attempt (t : Task) (a : Attempt) : Attempt :=
  if a.(Attempt_ID) == t.(Task_ActiveAttemptID)
  then failed_attempt a FailurePolicy "cancelled by plan patch" else a.

Definition released_lease (t : Task) (l : Lease) : Lease :=
  if (l.(Lease_TaskID) == t.(Task_ID)) && (l.(Lease_State) == LeaseActive) then completed l else l.

(** Live work is ended with its leases and its attempt. *)
Definition end_work (t : Task) (s : state) : state :=
  if live t then
    s <| s_leases := released_lease t <$> s.(s_leases) |>
      <| s_attempts := cancelled_attempt t <$> s.(s_attempts) |>
  else s.

Definition cancelled_task (t : Task) (reason : string) : Task :=
  t <| Task_State := TaskFailed |> <| Task_Cancelled := true |>
    <| Task_ActiveAttemptID := "" |> <| Task_ActiveLeaseID := "" |>
    <| Task_FailureClass := FailurePolicy |> <| Task_BlockedReason := reason |>.

Definition superseded_task (t : Task) (by_ reason : string) : Task :=
  t <| Task_SupersededBy := by_ |> <| Task_State := TaskFailed |>
    <| Task_FailureClass := FailureNone |> <| Task_BlockedReason := reason |>.

(** A new prerequisite blocks a task that was ready and no other. *)
Definition reblock (s : state) (t : Task) : Task :=
  if (t.(Task_State) == TaskReady) && negb (cleared s.(s_tasks) s.(s_deps) t.(Task_ID))
  then t <| Task_State := TaskBlocked |> else t.

Inductive patch_step (patch : string) (p : PatchStep) (s : state) : state → Prop :=
  | P_add_task spec :
      p.(PatchStep_Operation) = PatchAddTask →
      p.(PatchStep_Task) = Some spec → spec.(TaskSpec_ID) ≠ "" →
      s.(s_tasks) !! spec.(TaskSpec_ID) = None →
      let t := new_task spec TaskPlanned patch in
      patch_step patch p s
        (put_task (t <| Task_State := settle (put_task t s) spec.(TaskSpec_ID) |>) s)
  | P_add_dependency t d :
      p.(PatchStep_Operation) = PatchAddDependency →
      d.(Dependency_TaskID) = p.(PatchStep_TaskID) → d.(Dependency_DependsOn) = p.(PatchStep_DependsOn) →
      p.(PatchStep_TaskID) ≠ p.(PatchStep_DependsOn) →
      s.(s_tasks) !! p.(PatchStep_TaskID) = Some t → is_Some (s.(s_tasks) !! p.(PatchStep_DependsOn)) →
      t.(Task_State) ≠ TaskPassed →
      let s' := s <| s_deps := s.(s_deps) ++ [d] |> in
      patch_step patch p s (put_task (reblock s' t) s')
  | P_remove_dependency deps1 d deps2 :
      p.(PatchStep_Operation) = PatchRemoveDependency →
      s.(s_deps) = deps1 ++ d :: deps2 →
      d.(Dependency_TaskID) = p.(PatchStep_TaskID) → d.(Dependency_DependsOn) = p.(PatchStep_DependsOn) →
      patch_step patch p s (s <| s_deps := deps1 ++ deps2 |>)
  | P_update_acceptance t contract :
      p.(PatchStep_Operation) = PatchUpdateAcceptance →
      p.(PatchStep_Acceptance) = Some contract →
      s.(s_tasks) !! p.(PatchStep_TaskID) = Some t → t.(Task_State) ≠ TaskPassed →
      patch_step patch p s (put_task (t <| Task_TerminalContract := contract |>) s)
  | P_supersede t reason :
      p.(PatchStep_Operation) = PatchSupersedeTask →
      p.(PatchStep_SupersededBy) ≠ "" → p.(PatchStep_TaskID) ≠ p.(PatchStep_SupersededBy) →
      s.(s_tasks) !! p.(PatchStep_TaskID) = Some t → is_Some (s.(s_tasks) !! p.(PatchStep_SupersededBy)) →
      t.(Task_State) ≠ TaskPassed → live t = false →
      patch_step patch p s (put_task (superseded_task t p.(PatchStep_SupersededBy) reason) s)
  | P_cancel t reason :
      p.(PatchStep_Operation) = PatchCancelTask →
      s.(s_tasks) !! p.(PatchStep_TaskID) = Some t → t.(Task_State) ≠ TaskPassed →
      patch_step patch p s (put_task (cancelled_task t reason) (end_work t s)).

Inductive patch_steps (patch : string) : list PatchStep → state → state → Prop :=
  | P_done s : patch_steps patch [] s s
  | P_more p ps s1 s2 s3 :
      patch_step patch p s1 s2 → patch_steps patch ps s2 s3 → patch_steps patch (p :: ps) s1 s3.

(** * The step relation *)

Definition new_board (spec : BoardSpec) (gate : ProjectGate) : state :=
  mkState spec.(BoardSpec_ID) ∅ [] ∅ ∅ ∅ 1%Z false spec.(BoardSpec_BaseRevision) gate.

(** A token no lease and no attempt of the board has ever carried. *)
Definition unissued (s : state) (token : string) : Prop :=
  (∀ k l, s.(s_leases) !! k = Some l → l.(Lease_FencingToken) ≠ token) ∧
  (∀ k a, s.(s_attempts) !! k = Some a → a.(Attempt_FencingToken) ≠ token).

(** What a recorded gate outcome makes of the gate. *)
Definition gate_ran (g : ProjectGate) (revision : string) (spec : GateSpec) : ProjectGate :=
  g <| ProjectGate_Revision := revision |> <| ProjectGate_Summary := spec.(GateSpec_Summary) |>
    <| ProjectGate_RanAt := spec.(GateSpec_RanAt) |>.
Definition gate_unavailable (g : ProjectGate) (revision : string) (spec : GateSpec) : ProjectGate :=
  gate_ran g revision spec
    <| ProjectGate_Unavailable := i64 (g.(ProjectGate_Unavailable) + 1) |>
    <| ProjectGate_LastError := spec.(GateSpec_Summary) |>.
Definition gate_passed (g : ProjectGate) (revision : string) (spec : GateSpec) : ProjectGate :=
  gate_ran g revision spec <| ProjectGate_State := GatePassed |> <| ProjectGate_FailureOutput := "" |>
    <| ProjectGate_Failures := 0%Z |> <| ProjectGate_Unavailable := 0%Z |> <| ProjectGate_LastError := "" |>.
Definition gate_failed (g : ProjectGate) (revision : string) (spec : GateSpec) : ProjectGate :=
  gate_ran g revision spec <| ProjectGate_State := GateFailed |>
    <| ProjectGate_FailureOutput := spec.(GateSpec_FailureOutput) |>
    <| ProjectGate_Failures := i64 (g.(ProjectGate_Failures) + 1) |>.

Definition of_type (c : Command) (type : CommandType) (role : ActorRole) : Prop :=
  c.(Command_Type) = type ∧ by_role c role.

Inductive step (c : Command) (s : state) : state → Prop :=
  | S_create spec gate :
      of_type c CommandBoardCreate RoleCoordinator → s.(s_id) = "" →
      c.(Command_Board) = Some spec → spec.(BoardSpec_ID) ≠ "" →
      gate.(ProjectGate_State) ≠ GatePassed →
      step c s (new_board spec gate)
  | S_task_add spec :
      of_type c CommandTaskAdd RoleCoordinator → s.(s_id) ≠ "" →
      c.(Command_Task) = Some spec → s.(s_tasks) !! spec.(TaskSpec_ID) = None →
      step c s (put_task (new_task spec TaskPlanned "") s)
  | S_dependency_add d t :
      of_type c CommandDependencyAdd RoleCoordinator →
      d.(Dependency_TaskID) ≠ d.(Dependency_DependsOn) →
      s.(s_tasks) !! d.(Dependency_TaskID) = Some t → t.(Task_State) = TaskPlanned →
      is_Some (s.(s_tasks) !! d.(Dependency_DependsOn)) →
      step c s (s <| s_deps := s.(s_deps) ++ [d] |>)
  | S_activate t :
      of_type c CommandTaskActivate RoleCoordinator →
      s.(s_tasks) !! c.(Command_TaskID) = Some t → t.(Task_State) = TaskPlanned →
      step c s (put_task (t <| Task_State := settle s t.(Task_ID) |>) s)
  | S_acquire spec t :
      of_type c CommandLeaseAcquire RoleCoordinator →
      c.(Command_Lease) = Some spec →
      spec.(LeaseSpec_ID) ≠ "" → spec.(LeaseSpec_AttemptID) ≠ "" →
      s.(s_paused) = false →
      s.(s_tasks) !! spec.(LeaseSpec_TaskID) = Some t →
      (t.(Task_State) = TaskReady ∨
       t.(Task_State) = TaskRetryWait ∧ (t.(Task_NextEligibleAt) ≤ spec.(LeaseSpec_AcquiredAt))%Z) →
      (t.(Task_AttemptCount) < MaxAttempts)%Z →
      s.(s_leases) !! spec.(LeaseSpec_ID) = None →
      s.(s_attempts) !! spec.(LeaseSpec_AttemptID) = None →
      spec.(LeaseSpec_FencingToken) ≠ "" → unissued s spec.(LeaseSpec_FencingToken) →
      step c s (put_task (leased_task t spec)
                  (put_lease (new_lease s t spec) (put_attempt (new_attempt s t spec) s))
                  <| s_generation := u64 (s.(s_generation) + 1) |>)
  | S_start t a l :
      of_type c CommandAttemptStart RoleWorker → executing c s t a l →
      t.(Task_State) = TaskLeased → a.(Attempt_State) = AttemptLeased →
      step c s (put_attempt (a <| Attempt_State := AttemptRunning |>)
                  (put_task (t <| Task_State := TaskRunning |>) s))
  | S_submit spec t a l :
      of_type c CommandEvidenceSubmit RoleWorker → executing c s t a l →
      t.(Task_State) = TaskRunning → a.(Attempt_State) = AttemptRunning →
      c.(Command_Evidence) = Some spec → spec.(EvidenceSpec_ID) ≠ "" →
      s.(s_evidence) !! spec.(EvidenceSpec_ID) = None →
      step c s (put_attempt (a <| Attempt_State := AttemptVerifying |>
                               <| Attempt_EvidenceID := spec.(EvidenceSpec_ID) |>)
                  (put_lease (completed l)
                     (put_evidence (new_evidence c spec a)
                        (put_task (t <| Task_State := TaskVerifying |>) s))))
  | S_accept t a e l s' :
      of_type c CommandEvidenceAccept RoleVerifier → deciding c s t a e l →
      RequiredTestsPassed e.(Evidence_Result) = true →
      let settled := match e.(Evidence_Result).(EvidenceResult_Patch) with
                     | Some _ => TaskIntegrating | None => TaskPassed end in
      s' = put_task (t <| Task_AcceptedEvidenceID := e.(Evidence_ID) |> <| Task_State := settled |>)
             (put_lease (completed l)
                (put_evidence (e <| Evidence_State := EvidenceAccepted |> <| Evidence_Verdict := "accept" |>
                                 <| Evidence_VerdictReason := c.(Command_Reason) |>)
                   (put_attempt (a <| Attempt_State := AttemptPassed |>) s))) →
      step c s (if settled == TaskPassed then release s' else s')
  | S_reject t a e l :
      of_type c CommandEvidenceReject RoleVerifier → deciding c s t a e l →
      let class := or_default c.(Command_FailureClass) FailureVerifierFeedback in
      failure_ok t class c.(Command_NextEligibleAt) →
      step c s (put_evidence (e <| Evidence_State := EvidenceRejected |> <| Evidence_Verdict := "reject" |>
                                <| Evidence_VerdictReason := c.(Command_Reason) |>)
                  (record_failure t a l class c.(Command_Reason) c.(Command_NextEligibleAt) s))
  | S_fail t a l :
      of_type c CommandAttemptFail RoleWorker → executing c s t a l →
      t.(Task_State) = TaskLeased ∨ t.(Task_State) = TaskRunning →
      failure_ok t c.(Command_FailureClass) c.(Command_NextEligibleAt) →
      step c s (record_failure t a l c.(Command_FailureClass) c.(Command_Reason)
                  c.(Command_NextEligibleAt) s)
  | S_expire spec t a l :
      of_type c CommandLeaseExpire RoleCoordinator →
      c.(Command_Lease) = Some spec → s.(s_leases) !! spec.(LeaseSpec_ID) = Some l →
      l.(Lease_State) = LeaseActive → s.(s_tasks) !! l.(Lease_TaskID) = Some t →
      s.(s_attempts) !! l.(Lease_AttemptID) = Some a →
      let class := or_default c.(Command_FailureClass) FailureTransient in
      failure_ok t class c.(Command_NextEligibleAt) →
      step c s (record_failure t a l class c.(Command_Reason) c.(Command_NextEligibleAt) s)
  | S_renew spec l :
      of_type c CommandLeaseRenew RoleCoordinator →
      c.(Command_Lease) = Some spec → s.(s_leases) !! spec.(LeaseSpec_ID) = Some l →
      l.(Lease_State) = LeaseActive →
      l.(Lease_FencingToken) ≠ "" → spec.(LeaseSpec_FencingToken) = l.(Lease_FencingToken) →
      (l.(Lease_ExpiresAt) < spec.(LeaseSpec_ExpiresAt))%Z ∨ l.(Lease_ExpiresAt) = Time_zero →
      step c s (put_lease (l <| Lease_ExpiresAt := spec.(LeaseSpec_ExpiresAt) |>) s)
  | S_retry t :
      of_type c CommandTaskRetry RoleCoordinator → c.(Command_Reason) ≠ "" →
      s.(s_tasks) !! c.(Command_TaskID) = Some t →
      t.(Task_State) = TaskFailed ∨ t.(Task_State) = TaskRetryWait ∨ t.(Task_State) = TaskIntegrating →
      step c s (put_task (restarted_task t <| Task_State := settle s t.(Task_ID) |>) s)
  | S_patch patch s' :
      of_type c CommandPlanPatch RoleCoordinator → s.(s_id) ≠ "" → c.(Command_Patch) = Some patch →
      (0 < length patch.(PatchSpec_Steps) ≤ 32)%nat →
      patch_steps patch.(PatchSpec_ID) patch.(PatchSpec_Steps) s s' →
      step c s (release s')
  | S_defer spec e t t' :
      of_type c CommandVerificationDeferred RoleCoordinator →
      c.(Command_Evidence) = Some spec → s.(s_evidence) !! spec.(EvidenceSpec_ID) = Some e →
      e.(Evidence_State) = EvidenceSubmitted → s.(s_tasks) !! e.(Evidence_TaskID) = Some t →
      t.(Task_State) = TaskVerifying →
      let tries := i64 (e.(Evidence_VerificationAttempts) + 1) in
      t' = (if (MaxVerificationAttempts <? tries)%Z
            then t <| Task_BlockedReason := c.(Command_Reason) |> <| Task_FailureClass := FailureNeedsInput |>
            else t) →
      step c s (put_task t' (put_evidence (e <| Evidence_VerificationAttempts := tries |>) s))
  | S_integration_fail t :
      of_type c CommandIntegrationFail RoleCoordinator →
      s.(s_tasks) !! c.(Command_TaskID) = Some t → t.(Task_State) = TaskIntegrating →
      step c s (put_task (t <| Task_State := TaskFailed |>
                            <| Task_FailureClass := or_default c.(Command_FailureClass) FailureRepository |>
                            <| Task_BlockedReason := c.(Command_Reason) |>
                            <| Task_ActiveAttemptID := "" |> <| Task_ActiveLeaseID := "" |>) s)
  | S_integration_complete t :
      of_type c CommandIntegrationComplete RoleCoordinator →
      s.(s_tasks) !! c.(Command_TaskID) = Some t → t.(Task_State) = TaskIntegrating →
      c.(Command_Revision) ≠ "" →
      step c s (release (put_task (t <| Task_State := TaskPassed |>
                                     <| Task_IntegratedRevision := c.(Command_Revision) |>
                                     <| Task_ActiveAttemptID := "" |> <| Task_ActiveLeaseID := "" |>) s
                           <| s_revision := c.(Command_Revision) |>))
  | S_pause b :
      of_type c (if b : bool then CommandBoardPause else CommandBoardResume) RoleCoordinator →
      s.(s_id) ≠ "" →
      (b = true → c.(Command_Reason) ≠ "") → s.(s_paused) = negb b →
      step c s (s <| s_paused := b |>)
  | S_gate_unavailable spec revision :
      of_type c CommandGateUnavailable RoleCoordinator → c.(Command_Gate) = Some spec →
      s.(s_id) ≠ "" → ProjectGate_Established s.(s_gate) = true →
      revision = strings_TrimSpace c.(Command_Revision) → revision ≠ "" →
      step c s (s <| s_gate := gate_unavailable s.(s_gate) revision spec |>)
  | S_gate_pass spec :
      of_type c CommandGatePass RoleCoordinator → c.(Command_Gate) = Some spec →
      s.(s_id) ≠ "" → ProjectGate_Established s.(s_gate) = true →
      s.(s_revision) = strings_TrimSpace c.(Command_Revision) → s.(s_revision) ≠ "" →
      step c s (s <| s_gate := gate_passed s.(s_gate) s.(s_revision) spec |>)
  | S_gate_fail spec :
      of_type c CommandGateFail RoleCoordinator → c.(Command_Gate) = Some spec →
      s.(s_id) ≠ "" → ProjectGate_Established s.(s_gate) = true →
      s.(s_revision) = strings_TrimSpace c.(Command_Revision) → s.(s_revision) ≠ "" →
      step c s (s <| s_gate := gate_failed s.(s_gate) s.(s_revision) spec |>).

(** States reached from the uninitialised board by some sequence of commands. *)
Inductive reachable : list Command → state → Prop :=
  | R_initial : reachable [] initial
  | R_step cs c s s' : reachable cs s → step c s s' → reachable (cs ++ [c]) s'.

(** * Readiness depends only on which tasks have passed *)

Lemma failed_task_id t class reason el : Task_ID (failed_task t class reason el) = Task_ID t.
Proof. unfold failed_task. by destruct (retries _ _). Qed.
Arguments failed_task : simpl never.

Create HintDb spec.
#[export] Hint Unfold put_task put_attempt put_lease put_evidence new_board new_task new_attempt
  new_lease leased_task new_evidence restarted_task record_failure failed_attempt completed
  cancelled_task superseded_task or_default gate_ran gate_unavailable gate_passed gate_failed : spec.

Lemma cleared_ext m1 m2 deps id :
  (∀ k, passed m1 k = passed m2 k) → cleared m1 deps id = cleared m2 deps id.
Proof.
  intros H. unfold cleared. induction deps as [|d deps IH]; [done|]. cbn. by rewrite H, IH.
Qed.

Lemma passed_insert m k t t' id :
  m !! k = Some t → (Task_State t' == TaskPassed) = (Task_State t == TaskPassed) →
  passed (<[k := t']> m) id = passed m id.
Proof.
  intros Hk Ht. unfold passed. rewrite lookup_insert. case_decide; subst; [|done]. by rewrite Hk, Ht.
Qed.

Lemma passed_insert_new m k t id :
  m !! k = None → Task_State t ≠ TaskPassed → passed (<[k := t]> m) id = passed m id.
Proof.
  intros Hk Ht. unfold passed. rewrite lookup_insert. case_decide; subst; [|done].
  rewrite Hk. by apply String.eqb_neq.
Qed.

Lemma passed_fmap m f id :
  (∀ t, (Task_State (f t) == TaskPassed) = (Task_State t == TaskPassed)) →
  passed (f <$> m) id = passed m id.
Proof. intros H. unfold passed. rewrite lookup_fmap. destruct (m !! id); cbn; auto. Qed.

Lemma release_task_passed s t :
  (Task_State (release_task s t) == TaskPassed) = (Task_State t == TaskPassed).
Proof.
  unfold release_task. destruct (String.eqb_spec (Task_State t) TaskBlocked) as [E|]; cbn; [|done].
  destruct (cleared _ _ _); [|done]. cbn. by rewrite E.
Qed.

Lemma release_task_id s t : Task_ID (release_task s t) = Task_ID t.
Proof. unfold release_task. by destruct (_ && _). Qed.
#[export] Hint Rewrite release_task_passed release_task_id : ago_rw.

Lemma release_passed s id : passed (s_tasks (release s)) id = passed (s_tasks s) id.
Proof. apply passed_fmap, release_task_passed. Qed.
