(* ===== verification/Coordination.v ===== *)
(** The coordination invariant of the work graph: a task being worked on, the
    attempt working on it, the lease that authorises the work and the evidence
    under review always agree, and nothing else is live. *)
From S2P Require Import Prelude Protocol Spec.

(** * The invariant *)

(** Every map is keyed by the id of its values. *)
Definition keyed (s : state) : Prop :=
  (∀ k t, s.(s_tasks) !! k = Some t → t.(Task_ID) = k) ∧
  (∀ k a, s.(s_attempts) !! k = Some a → a.(Attempt_ID) = k) ∧
  (∀ k l, s.(s_leases) !! k = Some l → l.(Lease_ID) = k) ∧
  (∀ k e, s.(s_evidence) !! k = Some e → e.(Evidence_ID) = k).

(** The attempt state that goes with the state of a task being worked on. *)
Definition working (t : Task) : option AttemptState :=
  if t.(Task_State) == TaskLeased then Some AttemptLeased
  else if t.(Task_State) == TaskRunning then Some AttemptRunning
  else if t.(Task_State) == TaskVerifying then Some AttemptVerifying
  else None.

Definition live_attempt (a : Attempt) : Prop :=
  a.(Attempt_State) = AttemptLeased ∨ a.(Attempt_State) = AttemptRunning ∨
  a.(Attempt_State) = AttemptVerifying.

(** The attempt, lease and evidence the active ids of a working task name. *)
Record active (s : state) (t : Task) (st : AttemptState) (a : Attempt) (l : Lease) : Prop := {
  ac_attempt : s.(s_attempts) !! t.(Task_ActiveAttemptID) = Some a;
  ac_lease : s.(s_leases) !! t.(Task_ActiveLeaseID) = Some l;
  ac_attempt_task : a.(Attempt_TaskID) = t.(Task_ID);
  ac_attempt_state : a.(Attempt_State) = st;
  ac_lease_task : l.(Lease_TaskID) = t.(Task_ID);
  ac_lease_attempt : l.(Lease_AttemptID) = t.(Task_ActiveAttemptID);
  ac_lease_state : l.(Lease_State) = if st == AttemptVerifying then LeaseCompleted else LeaseActive;
  ac_worker : l.(Lease_WorkerID) = a.(Attempt_WorkerID);
  ac_token : l.(Lease_FencingToken) = a.(Attempt_FencingToken);
  ac_review : st = AttemptVerifying → ∃ e,
    s.(s_evidence) !! a.(Attempt_EvidenceID) = Some e ∧ e.(Evidence_State) = EvidenceSubmitted ∧
    e.(Evidence_TaskID) = t.(Task_ID) ∧ e.(Evidence_AttemptID) = t.(Task_ActiveAttemptID);
}.

(** What holds of one task and the entities that belong to it. *)
Record settled_at (s : state) (k : string) : Prop := {
  st_active : ∀ t st, s.(s_tasks) !! k = Some t → working t = Some st → ∃ a l, active s t st a l;
  st_attempts : ∀ j a, s.(s_attempts) !! j = Some a → a.(Attempt_TaskID) = k → live_attempt a →
    ∃ t, s.(s_tasks) !! k = Some t ∧ t.(Task_ActiveAttemptID) = j ∧ is_Some (working t);
  st_leases : ∀ j l, s.(s_leases) !! j = Some l → l.(Lease_TaskID) = k → l.(Lease_State) = LeaseActive →
    ∃ t, s.(s_tasks) !! k = Some t ∧ t.(Task_ActiveLeaseID) = j ∧
      (t.(Task_State) = TaskLeased ∨ t.(Task_State) = TaskRunning);
}.

Record coordinated (s : state) : Prop := {
  co_keyed : keyed s;
  co_owner : ∀ j a, s.(s_attempts) !! j = Some a → is_Some (s.(s_tasks) !! a.(Attempt_TaskID));
  co_lease_owner : ∀ j l, s.(s_leases) !! j = Some l → is_Some (s.(s_tasks) !! l.(Lease_TaskID));
  co_settled : ∀ k, settled_at s k;
}.

(** * The frame of a task

    Two states agree on [k] when they hold the same task under that id and the
    same entities that belong to it. *)
Record agree (k : string) (s s' : state) : Prop := {
  ag_task : s.(s_tasks) !! k = s'.(s_tasks) !! k;
  ag_attempts : ∀ j a, a.(Attempt_TaskID) = k →
    s.(s_attempts) !! j = Some a ↔ s'.(s_attempts) !! j = Some a;
  ag_leases : ∀ j l, l.(Lease_TaskID) = k →
    s.(s_leases) !! j = Some l ↔ s'.(s_leases) !! j = Some l;
  ag_evidence : ∀ j e, e.(Evidence_TaskID) = k →
    s.(s_evidence) !! j = Some e ↔ s'.(s_evidence) !! j = Some e;
}.

#[export] Instance agree_equivalence k : Equivalence (agree k).
Proof.
  split.
  - intros s. by split.
  - intros s s' [Ht Ha Hl He].
    split; [done|..]; intros; symmetry; [by apply Ha|by apply Hl|by apply He].
  - intros s1 s2 s3 [Ht1 Ha1 Hl1 He1] [Ht2 Ha2 Hl2 He2]. split; [congruence|..]; intros.
    + rewrite Ha1 by done. by apply Ha2.
    + rewrite Hl1 by done. by apply Hl2.
    + rewrite He1 by done. by apply He2.
Qed.

(** An update of a map at an entry of another task. *)
Lemma lookup_insert_owned {A} (owner : A → string) (m : gmap string A) k i x j y :
  owner y = k → owner x ≠ k → (∀ z, m !! i = Some z → owner z ≠ k) →
  m !! j = Some y ↔ <[i := x]> m !! j = Some y.
Proof.
  intros Hy Hx Hm. rewrite lookup_insert. case_decide; subst; [|done].
  split; [intros Hj; by apply Hm in Hj|by intros [= ->]].
Qed.

Lemma agree_put_task k t s : t.(Task_ID) ≠ k → agree k s (put_task t s).
Proof. intros H. split; try done. cbn. by rewrite lookup_insert_ne. Qed.

Lemma agree_put_attempt k a s :
  a.(Attempt_TaskID) ≠ k →
  (∀ a', s.(s_attempts) !! a.(Attempt_ID) = Some a' → a'.(Attempt_TaskID) ≠ k) →
  agree k s (put_attempt a s).
Proof. intros. split; try done. cbn. intros. by apply (lookup_insert_owned Attempt_TaskID _ k). Qed.

Lemma agree_put_lease k l s :
  l.(Lease_TaskID) ≠ k →
  (∀ l', s.(s_leases) !! l.(Lease_ID) = Some l' → l'.(Lease_TaskID) ≠ k) →
  agree k s (put_lease l s).
Proof. intros. split; try done. cbn. intros. by apply (lookup_insert_owned Lease_TaskID _ k). Qed.

Lemma agree_put_evidence k e s :
  e.(Evidence_TaskID) ≠ k →
  (∀ e', s.(s_evidence) !! e.(Evidence_ID) = Some e' → e'.(Evidence_TaskID) ≠ k) →
  agree k s (put_evidence e s).
Proof. intros. split; try done. cbn. intros. by apply (lookup_insert_owned Evidence_TaskID _ k). Qed.

Lemma settled_agree k s s' : keyed s → agree k s s' → settled_at s k → settled_at s' k.
Proof.
  intros (Hkt & _) [Ht Ha Hl He] [Hst Hat Hle]. split.
  - intros t st Hk Hw. rewrite <- Ht in Hk. destruct (Hst t st Hk Hw) as (a & l & []).
    apply Hkt in Hk as E. exists a, l. split; try done.
    + apply Ha; [congruence|done].
    + apply Hl; [congruence|done].
    + intros Hv. destruct (ac_review0 Hv) as (e & ? & ? & ? & ?). exists e. split_and!; try done.
      apply He; [congruence|done].
  - intros j a Hj Hk. apply Ha in Hj; [|done]. rewrite <- Ht. by apply (Hat j a).
  - intros j l Hj Hk. apply Hl in Hj; [|done]. rewrite <- Ht. by apply (Hle j l).
Qed.

(** * Preservation *)

Lemma keyed_put_task t s : keyed s → keyed (put_task t s).
Proof. intros (H & ? & ? & ?). split_and!; try done. cbn. intros k u. rewrite lookup_insert. case_decide; naive_solver. Qed.
Lemma keyed_put_attempt a s : keyed s → keyed (put_attempt a s).
Proof. intros (? & H & ? & ?). split_and!; try done. cbn. intros k u. rewrite lookup_insert. case_decide; naive_solver. Qed.
Lemma keyed_put_lease l s : keyed s → keyed (put_lease l s).
Proof. intros (? & ? & H & ?). split_and!; try done. cbn. intros k u. rewrite lookup_insert. case_decide; naive_solver. Qed.
Lemma keyed_put_evidence e s : keyed s → keyed (put_evidence e s).
Proof. intros (? & ? & ? & H). split_and!; try done. cbn. intros k u. rewrite lookup_insert. case_decide; naive_solver. Qed.
#[export] Hint Resolve keyed_put_task keyed_put_attempt keyed_put_lease keyed_put_evidence co_keyed : ago.

Lemma coordinated_frame k s s' :
  coordinated s → keyed s' → is_Some (s'.(s_tasks) !! k) → settled_at s' k →
  (∀ i, i ≠ k → agree i s s') → coordinated s'.
Proof.
  intros [Hk Ho Hlo Hs] Hk' Hsome Hset Hag. split; [done|..].
  - intros j a Hj. destruct (decide (a.(Attempt_TaskID) = k)) as [->|Hne]; [done|].
    destruct (Hag _ Hne) as [<- Ha _ _]. apply Ha in Hj; [|done]. by apply Ho in Hj.
  - intros j l Hj. destruct (decide (l.(Lease_TaskID) = k)) as [->|Hne]; [done|].
    destruct (Hag _ Hne) as [<- _ Hl _]. apply Hl in Hj; [|done]. by apply Hlo in Hj.
  - intros i. destruct (decide (i = k)) as [->|Hne]; [done|].
    eapply settled_agree; [exact Hk|by apply Hag|done].
Qed.

(** Nothing of the task is live. *)
Definition quiet (s : state) (k : string) : Prop :=
  (∀ j a, s.(s_attempts) !! j = Some a → a.(Attempt_TaskID) = k → ¬ live_attempt a) ∧
  (∀ j l, s.(s_leases) !! j = Some l → l.(Lease_TaskID) = k → l.(Lease_State) ≠ LeaseActive).

Lemma working_None t :
  working t = None ↔
  t.(Task_State) ≠ TaskLeased ∧ t.(Task_State) ≠ TaskRunning ∧ t.(Task_State) ≠ TaskVerifying.
Proof. unfold working. repeat case_match; inv_bool; naive_solver. Qed.

Lemma working_executing t st :
  working t = Some st → st ≠ AttemptVerifying → t.(Task_State) = TaskLeased ∨ t.(Task_State) = TaskRunning.
Proof. unfold working. repeat case_match; inv_bool; naive_solver. Qed.

Lemma settled_quiet s k t :
  s.(s_tasks) !! k = Some t → working t = None → settled_at s k → quiet s k.
Proof.
  intros Ht Hw [_ Ha Hl]. split.
  - intros j a Hj Hk Hlive. destruct (Ha j a Hj Hk Hlive) as (t' & Ht' & _ & [st Hst]). congruence.
  - intros j l Hj Hk Hact. destruct (Hl j l Hj Hk Hact) as (t' & Ht' & _ & Hst).
    apply working_None in Hw. naive_solver.
Qed.

Lemma quiet_settled s k t :
  s.(s_tasks) !! k = Some t → working t = None → quiet s k → settled_at s k.
Proof. intros Ht Hw [Ha Hl]. split; [|naive_solver..]. intros t' st Ht'. congruence. Qed.

Lemma quiet_missing s k : coordinated s → s.(s_tasks) !! k = None → quiet s k.
Proof.
  intros Hc Hk. split.
  - intros j a Hj Ha. apply (co_owner s Hc) in Hj. rewrite Ha, Hk in Hj. by destruct Hj.
  - intros j l Hj Hl. apply (co_lease_owner s Hc) in Hj. rewrite Hl, Hk in Hj. by destruct Hj.
Qed.

(** A task that is not being worked on may be replaced by another such version. *)
Lemma coordinated_put_quiet s t :
  coordinated s → working t = None → quiet s t.(Task_ID) → coordinated (put_task t s).
Proof.
  intros Hc Hw Hq. apply (coordinated_frame t.(Task_ID) s); [done|by auto with ago|..].
  - cbn. by rewrite lookup_insert_eq.
  - apply (quiet_settled _ _ t); [|done|exact Hq]. cbn. by rewrite lookup_insert_eq.
  - intros i Hi. by apply agree_put_task, not_eq_sym.
Qed.

Lemma coordinated_put_idle s k t t' :
  coordinated s → s.(s_tasks) !! k = Some t → working t = None →
  t'.(Task_ID) = t.(Task_ID) → working t' = None → coordinated (put_task t' s).
Proof.
  intros Hc Hk Hw Hid Hw'. apply coordinated_put_quiet; [done..|]. rewrite Hid.
  rewrite (proj1 (co_keyed s Hc) k t Hk). eapply settled_quiet; [done..|]. by apply co_settled.
Qed.

(** A task may be edited without touching its state and its active ids. *)
Lemma coordinated_put_same s k t t' :
  coordinated s → s.(s_tasks) !! k = Some t → t'.(Task_ID) = t.(Task_ID) →
  t'.(Task_State) = t.(Task_State) → t'.(Task_ActiveAttemptID) = t.(Task_ActiveAttemptID) →
  t'.(Task_ActiveLeaseID) = t.(Task_ActiveLeaseID) → coordinated (put_task t' s).
Proof.
  intros Hc Hk Hid Hst Haa Hal. pose proof (proj1 (co_keyed s Hc) k t Hk) as Ek. subst k.
  assert (working t' = working t) as Hw by (unfold working; by rewrite Hst).
  apply (coordinated_frame t.(Task_ID) s); [done|by auto with ago|..].
  - cbn. by rewrite Hid, lookup_insert_eq.
  - destruct (co_settled s Hc t.(Task_ID)) as [H1 H2 H3]. split; cbn; rewrite Hid, lookup_insert_eq.
    + intros u st [= <-]. rewrite Hw. intros Hws. destruct (H1 t st Hk Hws) as (a & l & []).
      exists a, l. split; cbn; rewrite ?Haa, ?Hal, ?Hid; done.
    + intros j a Hj Ha Hl. destruct (H2 j a Hj Ha Hl) as (u & Hu & ? & ?). simplify_eq.
      exists t'. by rewrite Haa, Hw.
    + intros j l Hj Ha Hl. destruct (H3 j l Hj Ha Hl) as (u & Hu & ? & ?). simplify_eq.
      exists t'. by rewrite Hal, Hst.
  - intros i Hi. apply agree_put_task. by rewrite Hid.
Qed.

Lemma release_working s t : working (release_task s t) = working t.
Proof.
  unfold release_task. destruct (String.eqb_spec (Task_State t) TaskBlocked) as [E|]; [|done].
  destruct (cleared _ _ _); [|done]. unfold working. cbn. by rewrite E.
Qed.

Lemma release_same s t : release_task s t = t ∨ working t = None.
Proof.
  unfold release_task. destruct (String.eqb_spec (Task_State t) TaskBlocked) as [E|]; [|by left].
  destruct (cleared _ _ _); [|by left]. right. unfold working. by rewrite E.
Qed.

Lemma coordinated_release s : coordinated s → coordinated (release s).
Proof.
  intros [(Hkt & Hk) Ho Hlo Hs]. split.
  - split; [|done]. cbn. intros k t. rewrite lookup_fmap, fmap_Some. intros (u & Hu & ->).
    rewrite release_task_id. auto.
  - intros j a Hj. cbn. rewrite lookup_fmap, fmap_is_Some. eauto.
  - intros j l Hj. cbn. rewrite lookup_fmap, fmap_is_Some. eauto.
  - intros k. destruct (Hs k) as [H1 H2 H3]. split; cbn; setoid_rewrite lookup_fmap.
    + intros t st. rewrite fmap_Some. intros (u & Hu & ->). rewrite release_working. intros Hw.
      destruct (release_same s u) as [->|]; [|congruence].
      destruct (H1 u st Hu Hw) as (a & l & []). exists a, l. by split.
    + intros j a Hj Ha Hl. destruct (H2 j a Hj Ha Hl) as (u & -> & ? & [st Hw]). exists u.
      destruct (release_same s u) as [E|]; [|congruence]. cbn. rewrite E. eauto.
    + intros j l Hj Ha Hl. destruct (H3 j l Hj Ha Hl) as (u & -> & ? & Hw). exists u.
      destruct (release_same s u) as [E|E%working_None]; [cbn; rewrite E; eauto|naive_solver].
Qed.

(** The invariant reads only the four maps. *)
Lemma coordinated_maps s s' :
  s'.(s_tasks) = s.(s_tasks) → s'.(s_attempts) = s.(s_attempts) → s'.(s_leases) = s.(s_leases) →
  s'.(s_evidence) = s.(s_evidence) → coordinated s → coordinated s'.
Proof.
  intros Et Ea El Ee [Hk Ho Hlo Hs]. split; unfold keyed; rewrite ?Et, ?Ea, ?El, ?Ee; try done.
  intros k. apply (settled_agree k s); [done| |done]. split; by rewrite ?Et, ?Ea, ?El, ?Ee.
Qed.

Lemma active_of s k t st a l :
  coordinated s → s.(s_tasks) !! k = Some t → working t = Some st →
  s.(s_attempts) !! t.(Task_ActiveAttemptID) = Some a →
  s.(s_leases) !! t.(Task_ActiveLeaseID) = Some l → active s t st a l.
Proof.
  intros Hc Ht Hw Ha Hl. destruct (st_active s k (co_settled s Hc k) t st Ht Hw) as (a' & l' & []).
  simplify_eq. by split.
Qed.

(** The entities of a working task are its own, so replacing them leaves every
    other task alone. *)
Lemma agree_owned s t st a l t' a' l' i :
  coordinated s → active s t st a l → i ≠ t.(Task_ID) →
  t'.(Task_ID) = t.(Task_ID) →
  a'.(Attempt_ID) = a.(Attempt_ID) → a'.(Attempt_TaskID) = a.(Attempt_TaskID) →
  l'.(Lease_ID) = l.(Lease_ID) → l'.(Lease_TaskID) = l.(Lease_TaskID) →
  agree i s (put_task t' (put_lease l' (put_attempt a' s))).
Proof.
  intros Hc [] Hi Et Ea Eat El Elt.
  pose proof (co_keyed s Hc) as (_ & Hka & Hkl & _).
  etrans; [apply (agree_put_attempt i a')|].
  { congruence. }
  { rewrite Ea, (Hka _ _ ac_attempt0). intros. simplify_eq. congruence. }
  etrans; [apply (agree_put_lease i l')|].
  { congruence. }
  { cbn. rewrite El, (Hkl _ _ ac_lease0). intros. simplify_eq. congruence. }
  apply agree_put_task. congruence.
Qed.

(** Work stops: the task leaves the working states with its attempt and lease. *)
Lemma coordinated_stop s k t st a l t' a' l' :
  coordinated s → s.(s_tasks) !! k = Some t → active s t st a l →
  t'.(Task_ID) = t.(Task_ID) → working t' = None →
  a'.(Attempt_ID) = a.(Attempt_ID) → a'.(Attempt_TaskID) = a.(Attempt_TaskID) → ¬ live_attempt a' →
  l'.(Lease_ID) = l.(Lease_ID) → l'.(Lease_TaskID) = l.(Lease_TaskID) →
  l'.(Lease_State) ≠ LeaseActive →
  coordinated (put_task t' (put_lease l' (put_attempt a' s))).
Proof.
  intros Hc Ht Hact Et Hw Ea Eat Hna El Elt Hnl. pose proof (co_keyed s Hc) as (Hkt & Hka & Hkl & _).
  pose proof (Hkt _ _ Ht) as Ek.
  apply (coordinated_frame t.(Task_ID) s); [done|by auto 6 with ago|..].
  - cbn. by rewrite Et, lookup_insert_eq.
  - apply (quiet_settled _ _ t'); [cbn; by rewrite Et, lookup_insert_eq|done|].
    pose proof (Hka _ _ (ac_attempt _ _ _ _ _ Hact)) as Eia.
    pose proof (Hkl _ _ (ac_lease _ _ _ _ _ Hact)) as Eil. subst k. split; cbn.
    + intros j x. rewrite lookup_insert. case_decide as Hj; [by intros [= <-]|].
      intros Hx Hxk Hlive. destruct (st_attempts _ _ (co_settled s Hc _) _ _ Hx Hxk Hlive)
          as (u & Hu & Hj' & _). simplify_eq. congruence.
    + intros j x. rewrite lookup_insert. case_decide as Hj; [by intros [= <-]|].
      intros Hx Hxk Hstate. destruct (st_leases _ _ (co_settled s Hc _) _ _ Hx Hxk Hstate)
          as (u & Hu & Hj' & _). simplify_eq. congruence.
  - intros i Hi. by eapply agree_owned.
Qed.

Lemma coordinated_failure s k t st a l class reason eligible :
  coordinated s → s.(s_tasks) !! k = Some t → active s t st a l →
  coordinated (record_failure t a l class reason eligible s).
Proof.
  intros Hc Ht Hact. eapply coordinated_stop; try done.
  - apply failed_task_id.
  - unfold working, failed_task. by destruct (retries _ _).
  - unfold live_attempt. cbn. by intros [?|[?|?]].
Qed.

(** Work advances: the task and its attempt take their next working states. *)
Lemma coordinated_advance s k t st a l t' a' l' st' :
  coordinated s → s.(s_tasks) !! k = Some t → active s t st a l →
  t'.(Task_ID) = t.(Task_ID) → t'.(Task_ActiveAttemptID) = t.(Task_ActiveAttemptID) →
  t'.(Task_ActiveLeaseID) = t.(Task_ActiveLeaseID) → working t' = Some st' →
  a'.(Attempt_ID) = a.(Attempt_ID) → a'.(Attempt_TaskID) = a.(Attempt_TaskID) →
  a'.(Attempt_WorkerID) = a.(Attempt_WorkerID) →
  a'.(Attempt_FencingToken) = a.(Attempt_FencingToken) → a'.(Attempt_State) = st' →
  l'.(Lease_ID) = l.(Lease_ID) → l'.(Lease_TaskID) = l.(Lease_TaskID) →
  l'.(Lease_AttemptID) = l.(Lease_AttemptID) → l'.(Lease_WorkerID) = l.(Lease_WorkerID) →
  l'.(Lease_FencingToken) = l.(Lease_FencingToken) →
  l'.(Lease_State) = (if st' == AttemptVerifying then LeaseCompleted else LeaseActive) →
  (st' = AttemptVerifying → ∃ e,
    s.(s_evidence) !! a'.(Attempt_EvidenceID) = Some e ∧ e.(Evidence_State) = EvidenceSubmitted ∧
    e.(Evidence_TaskID) = t.(Task_ID) ∧ e.(Evidence_AttemptID) = t.(Task_ActiveAttemptID)) →
  coordinated (put_task t' (put_lease l' (put_attempt a' s))).
Proof.
  intros Hc Ht Hact Et Eta Etl Hw Ea Eat Eaw Eaf Eas El Elt Ela Elw Elf Els Hrev.
  pose proof (co_keyed s Hc) as (Hkt & Hka & Hkl & _). pose proof (Hkt _ _ Ht) as Ek. subst k.
  pose proof (Hka _ _ (ac_attempt _ _ _ _ _ Hact)) as Eia.
  pose proof (Hkl _ _ (ac_lease _ _ _ _ _ Hact)) as Eil.
  apply (coordinated_frame t.(Task_ID) s); [done|by auto 6 with ago|..].
  - cbn. by rewrite Et, lookup_insert_eq.
  - split; cbn; rewrite Et, lookup_insert_eq.
    + intros u su [= <-] Hu. assert (su = st') as -> by congruence. exists a', l'.
      destruct Hact. split; cbn; rewrite ?Eta, ?Etl, ?Ea, ?El, ?Eia, ?Eil, ?lookup_insert_eq; try done;
        try congruence. intros Hv. destruct (Hrev Hv) as (e & ? & ? & ? & ?). exists e. by rewrite Et.
    + intros j x. rewrite lookup_insert. case_decide as Hj.
      * intros [= <-] _ _. exists t'. split_and!; [done|congruence|by eexists].
      * intros Hx Hxk Hlive. destruct (st_attempts _ _ (co_settled s Hc _) _ _ Hx Hxk Hlive)
          as (u & Hu & Hj' & _). simplify_eq. congruence.
    + intros j x. rewrite lookup_insert. case_decide as Hj.
      * intros [= <-] _ Hx. exists t'. split_and!; [done|congruence|].
        apply (working_executing _ _ Hw). intros ->. by rewrite Els in Hx.
      * intros Hx Hxk Hstate. destruct (st_leases _ _ (co_settled s Hc _) _ _ Hx Hxk Hstate)
          as (u & Hu & Hj' & _). simplify_eq. congruence.
  - intros i Hi. by eapply agree_owned.
Qed.

(** Evidence may be added, and changed once no review waits for it. *)
Lemma coordinated_put_evidence s e :
  coordinated s → is_Some (s.(s_tasks) !! e.(Evidence_TaskID)) →
  (∀ e0, s.(s_evidence) !! e.(Evidence_ID) = Some e0 →
     e0.(Evidence_TaskID) = e.(Evidence_TaskID) ∧ e0.(Evidence_AttemptID) = e.(Evidence_AttemptID) ∧
     (e.(Evidence_State) = EvidenceSubmitted ∨
      ∀ t, s.(s_tasks) !! e.(Evidence_TaskID) = Some t → working t = None)) →
  coordinated (put_evidence e s).
Proof.
  intros Hc Hsome He. apply (coordinated_frame e.(Evidence_TaskID) s); [done|by auto with ago|done|..].
  - destruct (co_settled s Hc e.(Evidence_TaskID)) as [H1 H2 H3]. split; [|exact H2|exact H3].
    intros t st Ht Hw. destruct (H1 t st Ht Hw) as (a & l & []). exists a, l. split; try done.
    intros Hv. destruct (ac_review0 Hv) as (e0 & Hl & Hs & Ht0 & Ha0). cbn.
    rewrite lookup_insert. case_decide as Heq; [|by exists e0].
    rewrite <- Heq in Hl. destruct (He _ Hl) as (E1 & E2 & [E3|E3]); [|cbn in Ht; apply E3 in Ht; congruence].
    exists e. split_and!; congruence.
  - intros i Hi. apply agree_put_evidence; [done|]. intros e0 H0. apply He in H0 as (-> & _). done.
Qed.

Lemma coordinated_renew s k l expires :
  coordinated s → s.(s_leases) !! k = Some l →
  coordinated (put_lease (l <| Lease_ExpiresAt := expires |>) s).
Proof.
  intros Hc Hl. pose proof (co_keyed s Hc) as (Hkt & Hka & Hkl & _).
  pose proof (Hkl _ _ Hl) as <-.
  apply (coordinated_frame l.(Lease_TaskID) s); [done|by auto with ago|..].
  - exact (co_lease_owner s Hc _ _ Hl).
  - destruct (co_settled s Hc l.(Lease_TaskID)) as [H1 H2 H3]. split; [|exact H2|].
    + intros t st Ht Hw. destruct (H1 t st Ht Hw) as (a & l0 & []). cbn.
      destruct (decide (Task_ActiveLeaseID t = Lease_ID l)) as [E|E].
      * rewrite E in *. simplify_eq. exists a, (l <| Lease_ExpiresAt := expires |>).
        split; cbn; rewrite ?E; try done. by rewrite lookup_insert_eq.
      * exists a, l0. split; cbn; try done. by rewrite lookup_insert_ne.
    + cbn. intros j x. rewrite lookup_insert. case_decide; [|by eauto]. intros [= <-]. cbn. subst j. eauto.
  - intros i Hi. apply agree_put_lease; [by apply not_eq_sym|]. cbn. intros. simplify_eq. by apply not_eq_sym.
Qed.

(** A claim makes the new attempt and the new lease the task's active ones. *)
Lemma coordinated_acquire s k t spec :
  coordinated s → s.(s_tasks) !! k = Some t → working t = None →
  s.(s_leases) !! spec.(LeaseSpec_ID) = None → s.(s_attempts) !! spec.(LeaseSpec_AttemptID) = None →
  coordinated (put_task (leased_task t spec)
    (put_lease (new_lease s t spec) (put_attempt (new_attempt s t spec) s))).
Proof.
  intros Hc Ht Hw Hl Ha. pose proof (proj1 (co_keyed s Hc) _ _ Ht) as <-.
  destruct (settled_quiet _ _ _ Ht Hw (co_settled s Hc _)) as [Hqa Hql].
  apply (coordinated_frame t.(Task_ID) s); [done|by auto 6 with ago|..].
  - cbn. by rewrite lookup_insert_eq.
  - split; cbn; rewrite lookup_insert_eq.
    + intros u st [= <-] [= <-]. exists (new_attempt s t spec), (new_lease s t spec).
      split; cbn; rewrite ?lookup_insert_eq; done.
    + intros j a. rewrite lookup_insert. case_decide as Hj; [|by intros H1 H2 H3; destruct (Hqa _ _ H1 H2)].
      intros [= <-] _ _. cbn in Hj. eexists. split; [done|]. by split; [|eexists].
    + intros j l. rewrite lookup_insert. case_decide as Hj; [|by intros H1 H2 H3; destruct (Hql _ _ H1 H2)].
      intros [= <-] _ _. cbn in Hj. eexists. split; [done|]. by split; [|left].
  - intros i Hi. etrans; [apply (agree_put_attempt i (new_attempt s t spec)); [by cbn; congruence|]|].
    { cbn. by rewrite Ha. }
    etrans; [apply (agree_put_lease i (new_lease s t spec)); [by cbn; congruence|]|].
    { cbn. by rewrite Hl. }
    apply agree_put_task. cbn. congruence.
Qed.

Lemma live_working t : live t = true ↔ is_Some (working t).
Proof.
  unfold live, working. repeat case_match; inv_bool; cbn;
    rewrite <- ?not_eq_None_Some; naive_solver.
Qed.

Lemma live_false_working t : live t = false → working t = None.
Proof.
  intros H. destruct (working t) eqn:E; [|done].
  assert (live t = true) by (apply live_working; rewrite E; by eexists). congruence.
Qed.

Lemma lookup_cancelled t (m : gmap string Attempt) j a :
  (cancelled_attempt t <$> m) !! j = Some a ↔ ∃ x, m !! j = Some x ∧ a = cancelled_attempt t x.
Proof. rewrite lookup_fmap, fmap_Some. naive_solver. Qed.

Lemma lookup_released t (m : gmap string Lease) j l :
  (released_lease t <$> m) !! j = Some l ↔ ∃ x, m !! j = Some x ∧ l = released_lease t x.
Proof. rewrite lookup_fmap, fmap_Some. naive_solver. Qed.

Lemma cancelled_attempt_other t a : a.(Attempt_ID) ≠ t.(Task_ActiveAttemptID) → cancelled_attempt t a = a.
Proof. intros H. unfold cancelled_attempt. by rewrite (proj2 (String.eqb_neq _ _)). Qed.

Lemma released_lease_other t l : l.(Lease_TaskID) ≠ t.(Task_ID) → released_lease t l = l.
Proof. intros H. unfold released_lease. by rewrite (proj2 (String.eqb_neq _ _)). Qed.

Lemma cancelled_attempt_task t a : (cancelled_attempt t a).(Attempt_TaskID) = a.(Attempt_TaskID).
Proof. unfold cancelled_attempt. by destruct (_ == _). Qed.
Lemma released_lease_task t l : (released_lease t l).(Lease_TaskID) = l.(Lease_TaskID).
Proof. unfold released_lease. by destruct (_ && _). Qed.
Lemma cancelled_attempt_id t a : (cancelled_attempt t a).(Attempt_ID) = a.(Attempt_ID).
Proof. unfold cancelled_attempt. by destruct (_ == _). Qed.
Lemma released_lease_id t l : (released_lease t l).(Lease_ID) = l.(Lease_ID).
Proof. unfold released_lease. by destruct (_ && _). Qed.

Lemma end_work_maps t s : (end_work t s).(s_tasks) = s.(s_tasks) ∧ (end_work t s).(s_deps) = s.(s_deps).
Proof. unfold end_work. by destruct (live t). Qed.

Lemma keyed_end_work t s : keyed s → keyed (end_work t s).
Proof.
  unfold end_work. destruct (live t); [|done]. intros (? & Ha & Hl & ?). split_and!; try done; cbn.
  - intros j a. rewrite lookup_cancelled. intros (x & Hx & ->). rewrite cancelled_attempt_id. auto.
  - intros j l. rewrite lookup_released. intros (x & Hx & ->). rewrite released_lease_id. auto.
Qed.

(** Cancelling ends the work of the task and of no other. *)
Lemma agree_end_work s k t i :
  coordinated s → s.(s_tasks) !! k = Some t → i ≠ k → agree i s (end_work t s).
Proof.
  intros Hc Ht Hi. unfold end_work. destruct (live t) eqn:Hlv; [|done].
  apply live_working in Hlv as [st Hw].
  destruct (st_active _ _ (co_settled s Hc k) _ _ Ht Hw) as (a & l & Hact).
  pose proof (co_keyed s Hc) as (Hkt & Hka & Hkl & _). pose proof (Hkt _ _ Ht) as Ek. subst k.
  split; [done|..|done]; cbn.
  - intros j x Hx. rewrite lookup_cancelled.
    assert (∀ y, s.(s_attempts) !! j = Some y → y.(Attempt_TaskID) = i → cancelled_attempt t y = y) as Hid.
    { intros y Hy Hyi. apply cancelled_attempt_other. rewrite (Hka _ _ Hy). intros ->.
      destruct Hact. simplify_eq. congruence. }
    split; [|intros (y & Hy & ->); rewrite cancelled_attempt_task in Hx; by rewrite Hid].
    intros Hj. exists x. by rewrite Hid.
  - intros j x Hx. rewrite lookup_released. split.
    + intros Hj. exists x. rewrite released_lease_other; [done|congruence].
    + intros (y & Hy & ->). rewrite released_lease_task in Hx.
      rewrite released_lease_other; [done|congruence].
Qed.

Lemma coordinated_cancel s k t reason :
  coordinated s → s.(s_tasks) !! k = Some t → coordinated (put_task (cancelled_task t reason) (end_work t s)).
Proof.
  intros Hc Ht. pose proof (proj1 (co_keyed s Hc) _ _ Ht) as Ek.
  apply (coordinated_frame k s); [done|by auto using keyed_end_work with ago| | |].
  - cbn. rewrite Ek, lookup_insert_eq. by eexists.
  - eapply quiet_settled; [cbn; by rewrite Ek, lookup_insert_eq|done|].
    unfold end_work. destruct (live t) eqn:Hlv.
    + pose proof (proj2 (co_keyed s Hc)) as (Hka & Hkl & _). split; cbn; intros j x.
      * rewrite lookup_cancelled. intros (y & Hy & ->). rewrite cancelled_attempt_task. intros Hyk Hl.
        destruct (decide (Attempt_ID y = Task_ActiveAttemptID t)) as [E|E].
        { unfold cancelled_attempt, live_attempt in Hl. rewrite E, String.eqb_refl in Hl. cbn in Hl.
          by destruct Hl as [?|[?|?]]. }
        rewrite cancelled_attempt_other in Hl by done.
        destruct (st_attempts _ _ (co_settled s Hc k) _ _ Hy Hyk Hl) as (u & Hu & Ha & _).
        apply Hka in Hy. congruence.
      * rewrite lookup_released. intros (y & Hy & ->). rewrite released_lease_task. intros Hyk.
        unfold released_lease. rewrite Hyk, Ek, String.eqb_refl. cbn.
        by destruct (String.eqb_spec (Lease_State y) LeaseActive).
    + assert (quiet s k) as Hq; [|exact Hq].
      apply (settled_quiet _ _ t); [done|by apply live_false_working|by apply co_settled].
  - intros i Hi. etrans; [by apply (agree_end_work s k t)|]. apply agree_put_task. cbn. congruence.
Qed.

Lemma settle_working s id t : working (t <| Task_State := settle s id |>) = None.
Proof. unfold settle. by destruct (cleared _ _ _). Qed.

Lemma coordinated_patch_step id p s s' : coordinated s → patch_step id p s s' → coordinated s'.
Proof.
  intros Hc [spec _ _ _ Hnew t|t d _ _ _ _ Ht _ _ s1|deps1 d deps2 _ _ _ _|t contract _ _ Ht _
    |t reason _ _ _ Ht _ _ Hl|t reason _ Ht _].
  - apply coordinated_put_quiet; [done|apply settle_working|].
    by apply (quiet_missing s spec.(TaskSpec_ID)).
  - assert (coordinated s1) as Hc1 by by apply (coordinated_maps s).
    unfold reblock. destruct (_ && _) eqn:E; [|by eapply coordinated_put_same].
    inv_bool. eapply (coordinated_put_idle s1); [done|exact Ht| |done|done]. by unfold working; rewrite H.
  - by apply (coordinated_maps s).
  - by eapply coordinated_put_same.
  - eapply coordinated_put_idle; [done..|by apply live_false_working|done|done].
  - by eapply coordinated_cancel.
Qed.

Lemma coordinated_patch_steps id ps s s' : coordinated s → patch_steps id ps s s' → coordinated s'.
Proof. intros Hc H. induction H; eauto using coordinated_patch_step. Qed.

Lemma coordinated_empty s :
  s.(s_tasks) = ∅ → s.(s_attempts) = ∅ → s.(s_leases) = ∅ → s.(s_evidence) = ∅ → coordinated s.
Proof.
  intros Et Ea El Ee. split; unfold keyed; rewrite ?Et, ?Ea, ?El, ?Ee.
  - split_and!; intros ??; by rewrite lookup_empty.
  - intros ??. by rewrite lookup_empty.
  - intros ??. by rewrite lookup_empty.
  - intros k. split; rewrite ?Et, ?Ea, ?El; intros ??; by rewrite lookup_empty.
Qed.

(** Whoever may act on a task acts on its active attempt and lease. *)
Lemma executing_active c s t a l :
  coordinated s → executing c s t a l → t.(Task_State) = TaskLeased ∨ t.(Task_State) = TaskRunning →
  ∃ st, working t = Some st ∧ st ≠ AttemptVerifying ∧ active s t st a l.
Proof.
  intros Hc ((Ha & _ & _) & Ht & Haa & Hl & _) Hst.
  assert (∃ st, working t = Some st ∧ st ≠ AttemptVerifying) as (st & Hw & Hv).
  { unfold working. destruct Hst as [-> | ->]; by eexists. }
  exists st. split_and!; [done..|]. eapply active_of; try done. by rewrite Haa.
Qed.

Lemma deciding_active c s t a e l :
  coordinated s → deciding c s t a e l →
  working t = Some AttemptVerifying ∧ active s t AttemptVerifying a l ∧
  e.(Evidence_ID) = a.(Attempt_EvidenceID) ∧
  e.(Evidence_TaskID) = t.(Task_ID) ∧ e.(Evidence_AttemptID) = c.(Command_AttemptID).
Proof.
  intros Hc ((Ha & _ & _) & Ht & Hst & Haa & _ & _ & He & _ & Hl).
  assert (working t = Some AttemptVerifying) as Hw by (unfold working; by rewrite Hst).
  assert (active s t AttemptVerifying a l) as Hact by (eapply active_of; try done; by rewrite Haa).
  split_and!; [done..| | |].
  - by eapply (co_keyed s Hc).
  - destruct (ac_review _ _ _ _ _ Hact eq_refl) as (? & ? & _ & ? & _). congruence.
  - destruct (ac_review _ _ _ _ _ Hact eq_refl) as (? & ? & _ & _ & ?). congruence.
Qed.

Lemma lease_active s k l t a :
  coordinated s → s.(s_leases) !! k = Some l → l.(Lease_State) = LeaseActive →
  s.(s_tasks) !! l.(Lease_TaskID) = Some t → s.(s_attempts) !! l.(Lease_AttemptID) = Some a →
  ∃ st, working t = Some st ∧ active s t st a l.
Proof.
  intros Hc Hl Hs Ht Ha.
  destruct (st_leases _ _ (co_settled s Hc _) _ _ Hl eq_refl Hs) as (u & Hu & Hal & Hst). simplify_eq.
  assert (∃ st, working t = Some st) as [st Hw].
  { unfold working. destruct Hst as [-> | ->]; by eexists. }
  exists st. split; [done|]. destruct (st_active _ _ (co_settled s Hc _) _ _ Ht Hw) as (a' & l' & Hact).
  pose proof (ac_lease _ _ _ _ _ Hact). simplify_eq.
  rewrite (ac_lease_attempt _ _ _ _ _ Hact), (ac_attempt _ _ _ _ _ Hact) in Ha. by injection Ha as <-.
Qed.

Lemma task_id_of s k t : coordinated s → s.(s_tasks) !! k = Some t → t.(Task_ID) = k.
Proof. intros Hc. by apply (co_keyed s Hc). Qed.

Lemma executing_ids c s t a l :
  coordinated s → executing c s t a l →
  s.(s_tasks) !! c.(Command_TaskID) = Some t ∧
  s.(s_leases) !! t.(Task_ActiveLeaseID) = Some l ∧ l.(Lease_ID) = t.(Task_ActiveLeaseID).
Proof. intros Hc (_ & Ht & _ & Hl & _). split_and!; try done. by apply (co_keyed s Hc). Qed.

(** A verdict stops the work and settles the evidence that was under review. *)
Lemma verdict_evidence s k t st a l t' a' l' e e' :
  coordinated s → s.(s_tasks) !! k = Some t → active s t st a l →
  t'.(Task_ID) = t.(Task_ID) → working t' = None →
  a'.(Attempt_ID) = a.(Attempt_ID) → a'.(Attempt_TaskID) = a.(Attempt_TaskID) → ¬ live_attempt a' →
  l'.(Lease_ID) = l.(Lease_ID) → l'.(Lease_TaskID) = l.(Lease_TaskID) →
  l'.(Lease_State) ≠ LeaseActive →
  s.(s_evidence) !! e.(Evidence_ID) = Some e → e.(Evidence_TaskID) = t.(Task_ID) →
  e'.(Evidence_ID) = e.(Evidence_ID) → e'.(Evidence_TaskID) = e.(Evidence_TaskID) →
  e'.(Evidence_AttemptID) = e.(Evidence_AttemptID) →
  coordinated (put_evidence e' (put_task t' (put_lease l' (put_attempt a' s)))).
Proof.
  intros Hc Ht Hact Et Hw Ea Eat Hna El Elt Hnl He Eet Eid Etid Eaid.
  apply coordinated_put_evidence.
  - by eapply (coordinated_stop s k t st a l).
  - cbn. rewrite Etid, Eet, Et, lookup_insert_eq. by eexists.
  - cbn. intros e0. rewrite Eid, He. intros [= <-]. split_and!; [done..|]. right.
    rewrite Etid, Eet, Et, lookup_insert_eq. by intros u [= <-].
Qed.

Lemma coordinated_step c s s' : coordinated s → step c s s' → coordinated s'.
Proof.
  intros Hc H. destruct H.
  - by apply coordinated_empty.
  - by apply coordinated_put_quiet; [| |apply quiet_missing].
  - by apply (coordinated_maps s).
  - eapply coordinated_put_idle; [done..| |done|apply settle_working]. unfold working. by rewrite H1.
  - apply (coordinated_maps (put_task (leased_task t spec)
      (put_lease (new_lease s t spec) (put_attempt (new_attempt s t spec) s)))); try done.
    eapply coordinated_acquire; try done. unfold working. destruct H5 as [-> | [-> _]]; done.
  - destruct (executing_active _ _ _ _ _ Hc H0) as (st & Hw & Hv & Hact); [by left|].
    pose proof (executing_ids _ _ _ _ _ Hc H0) as (Ht & Hl & El).
    apply (coordinated_maps (put_task (t <| Task_State := TaskRunning |>)
      (put_lease l (put_attempt (a <| Attempt_State := AttemptRunning |>) s)))); try done.
    { cbn. by rewrite El, insert_id. }
    eapply coordinated_advance; try done. cbn. destruct Hact; rewrite ac_lease_state0.
    by destruct (String.eqb_spec st AttemptVerifying).
  - destruct (executing_active _ _ _ _ _ Hc H0) as (st & Hw & Hv & Hact); [by right|].
    pose proof (executing_ids _ _ _ _ _ Hc H0) as (Ht & Hl & El).
    assert (coordinated (put_evidence (new_evidence c spec a) s)) as Hc1.
    { apply coordinated_put_evidence; [done|..]; cbn.
      - rewrite Ht. by eexists.
      - intros e0. by rewrite H5. }
    pose proof (task_id_of _ _ _ Hc Ht) as Ek.
    eapply (coordinated_advance (put_evidence (new_evidence c spec a) s) _ t st a l
      (t <| Task_State := TaskVerifying |>)
      (a <| Attempt_State := AttemptVerifying |> <| Attempt_EvidenceID := spec.(EvidenceSpec_ID) |>)
      (completed l) AttemptVerifying); try done.
    { destruct Hact. by split. }
    intros _. exists (new_evidence c spec a). cbn. rewrite lookup_insert_eq. split_and!; try done.
    by destruct H0 as (_ & _ & -> & _).
  - destruct (deciding_active _ _ _ _ _ _ Hc H0) as (Hw & Hact & Ee & Eet & Eea).
    pose proof H0 as (_ & Ht & _).
    assert (coordinated s') as Hc'; [|by case_match; [apply coordinated_release|]]. subst s'.
    apply (verdict_evidence s _ t _ a l _ (a <| Attempt_State := AttemptPassed |>) (completed l)
      e (e <| Evidence_State := EvidenceAccepted |> <| Evidence_Verdict := "accept" |>
           <| Evidence_VerdictReason := c.(Command_Reason) |>) Hc Ht Hact); try done.
    { unfold working, settled. by destruct (EvidenceResult_Patch _). }
    { unfold live_attempt. cbn. by intros [?|[?|?]]. }
    { destruct H0 as (_ & _ & _ & _ & _ & _ & He & _). by rewrite Ee. }
  - destruct (deciding_active _ _ _ _ _ _ Hc H0) as (Hw & Hact & Ee & Eet & Eea).
    pose proof H0 as (_ & Ht & _).
    apply (verdict_evidence s _ t _ a l _ (failed_attempt a class c.(Command_Reason)) (completed l)
      e (e <| Evidence_State := EvidenceRejected |> <| Evidence_Verdict := "reject" |>
           <| Evidence_VerdictReason := c.(Command_Reason) |>) Hc Ht Hact); try done.
    { apply failed_task_id. }
    { unfold working, failed_task. by destruct (retries _ _). }
    { unfold live_attempt. cbn. by intros [?|[?|?]]. }
    { destruct H0 as (_ & _ & _ & _ & _ & _ & He & _). by rewrite Ee. }
  - destruct (executing_active _ _ _ _ _ Hc H0) as (st & Hw & Hv & Hact); [done|].
    pose proof (executing_ids _ _ _ _ _ Hc H0) as (Ht & _ & _).
    by eapply coordinated_failure.
  - destruct (lease_active s _ l t a Hc H1) as (st & Hw & Hact); try done. by eapply coordinated_failure.
  - by eapply coordinated_renew.
  - eapply coordinated_put_idle; [done..| |done|apply settle_working].
    unfold working. by destruct H2 as [-> | [-> | ->]].
  - apply coordinated_release. by eapply coordinated_patch_steps.
  - apply (coordinated_put_same (put_evidence (e <| Evidence_VerificationAttempts := tries |>) s)
      e.(Evidence_TaskID) t); try done; try (subst t'; by case_match).
    apply coordinated_put_evidence; [done|cbn; by eexists|]. cbn. intros e0.
    rewrite (proj2 (proj2 (proj2 (co_keyed s Hc))) _ _ H1). intros ?. simplify_eq. auto.
  - eapply coordinated_put_idle; [done..| |done|done]. unfold working. by rewrite H1.
  - apply coordinated_release.
    apply (coordinated_maps (put_task (t <| Task_State := TaskPassed |>
      <| Task_IntegratedRevision := c.(Command_Revision) |>
      <| Task_ActiveAttemptID := "" |> <| Task_ActiveLeaseID := "" |>) s)); try done.
    eapply coordinated_put_idle; [done..| |done|done]. unfold working. by rewrite H1.
  - by apply (coordinated_maps s).
  - by apply (coordinated_maps s).
  - by apply (coordinated_maps s).
  - by apply (coordinated_maps s).
Qed.

Lemma reachable_coordinated cs s : reachable cs s → coordinated s.
Proof. induction 1; [by apply coordinated_empty|by eapply coordinated_step]. Qed.

(** A closed membership that does not hold. *)
Ltac not_in H :=
  exfalso; rewrite !elem_of_cons, elem_of_nil in H;
  solve [repeat (destruct H as [H|H]; [discriminate H|]); destruct H].

(** The commands that carry a fencing token act for whom the attempt allows. *)
Lemma token_commands c s s' :
  step c s s' →
  c.(Command_Type) ∈ [CommandAttemptStart; CommandEvidenceSubmit; CommandAttemptFail;
                      CommandEvidenceAccept; CommandEvidenceReject] →
  (∃ t a l, by_role c RoleWorker ∧ executing c s t a l ∧
     (t.(Task_State) = TaskLeased ∨ t.(Task_State) = TaskRunning)) ∨
  (∃ t a e l, by_role c RoleVerifier ∧ deciding c s t a e l).
Proof.
  intros H Hty.
  destruct H; try (destruct H as [H ?]; try (destruct b); rewrite H in Hty; not_in Hty).
  - left. destruct H. exists t, a, l. auto.
  - left. destruct H. exists t, a, l. auto.
  - right. destruct H. by exists t, a, e, l.
  - right. destruct H. by exists t, a, e, l.
  - left. destruct H. by exists t, a, l.
Qed.

(** The entities of a working task belong to no other. *)
Record framed (s : state) (a : Attempt) (l : Lease) (k : string) : Prop := {
  fr_attempt : a.(Attempt_TaskID) ≠ k;
  fr_attempt_at : ∀ a', s.(s_attempts) !! a.(Attempt_ID) = Some a' → a'.(Attempt_TaskID) ≠ k;
  fr_lease : l.(Lease_TaskID) ≠ k;
  fr_lease_at : ∀ l', s.(s_leases) !! l.(Lease_ID) = Some l' → l'.(Lease_TaskID) ≠ k;
}.

Lemma active_frame s t st a l k :
  coordinated s → active s t st a l → k ≠ t.(Task_ID) → framed s a l k.
Proof.
  intros Hc [] Hk. pose proof (co_keyed s Hc) as (_ & Hka & Hkl & _). split.
  - congruence.
  - rewrite (Hka _ _ ac_attempt0). intros. congruence.
  - congruence.
  - rewrite (Hkl _ _ ac_lease0). intros. congruence.
Qed.

(** A worker's command frames every other task and the rest of the board. *)
Lemma worker_step c s s' k :
  coordinated s → step c s s' → by_role c RoleWorker → k ≠ c.(Command_TaskID) →
  agree k s s' ∧ s'.(s_deps) = s.(s_deps) ∧ s'.(s_gate) = s.(s_gate) ∧
  s'.(s_revision) = s.(s_revision) ∧ s'.(s_paused) = s.(s_paused) ∧
  s'.(s_generation) = s.(s_generation) ∧ s'.(s_id) = s.(s_id).
Proof.
  intros Hc H Hrole Hk. unfold by_role in Hrole.
  destruct H; try (destruct H as [_ H]; unfold by_role in H; rewrite H in Hrole; discriminate Hrole).
  - destruct (executing_active _ _ _ _ _ Hc H0) as (st & _ & _ & Hact); [by left|].
    destruct H0 as (_ & Ht & _). rewrite <- (task_id_of _ _ _ Hc Ht) in Hk. split; [|done].
    etrans; [apply (agree_put_task k (t <| Task_State := TaskRunning |>)); by apply not_eq_sym|].
    destruct (active_frame _ _ _ _ _ k Hc Hact Hk). by apply agree_put_attempt.
  - destruct (executing_active _ _ _ _ _ Hc H0) as (st & _ & _ & Hact); [by right|].
    destruct H0 as (_ & Ht & _). split; [|done].
    etrans; [apply (agree_put_task k (t <| Task_State := TaskVerifying |>))|].
    { cbn. rewrite (task_id_of _ _ _ Hc Ht). by apply not_eq_sym. }
    etrans; [apply (agree_put_evidence k (new_evidence c spec a)); [by apply not_eq_sym|cbn; by rewrite H5]|].
    rewrite <- (task_id_of _ _ _ Hc Ht) in Hk.
    destruct (active_frame _ _ _ _ _ k Hc Hact Hk).
    etrans; [by apply (agree_put_lease k (completed l))|]. by apply agree_put_attempt.
  - destruct (executing_active _ _ _ _ _ Hc H0) as (st & _ & _ & Hact); [done|].
    destruct H0 as (_ & Ht & _). rewrite <- (task_id_of _ _ _ Hc Ht) in Hk. split; [|done].
    eapply agree_owned; try done. apply failed_task_id.
Qed.
