(* ===== verification/Lifecycle.v ===== *)
(** The life of a task: the edges its state moves along, and what commands leave alone. *)
From stdpp Require Import relations.
From S2P Require Import Prelude Protocol Spec Coordination.

(** The life of a task: every accepted command moves each task along edges of
    the task state machine, and never removes one. The attempt budget and the
    permanence of a passed task are read off the edges. *)

(** * The task state machine *)

(** Bookkeeping that only named edges may change. *)
Definition same_books (t t' : Task) : Prop :=
  t'.(Task_ID) = t.(Task_ID) ∧ t'.(Task_Title) = t.(Task_Title) ∧
  t'.(Task_AccessMode) = t.(Task_AccessMode) ∧ t'.(Task_Origin) = t.(Task_Origin) ∧
  t'.(Task_AcceptedEvidenceID) = t.(Task_AcceptedEvidenceID) ∧
  t'.(Task_IntegratedRevision) = t.(Task_IntegratedRevision).
Definition same_counts (t t' : Task) : Prop :=
  t'.(Task_AttemptCount) = t.(Task_AttemptCount) ∧ t'.(Task_UserRetries) = t.(Task_UserRetries).

Definition idle_state (st : TaskState) : Prop := st = TaskReady ∨ st = TaskBlocked.

(** One edge, taken while the command [c] is applied. *)
Inductive task_edge (c : Command) (t t' : Task) : Prop :=
  | E_edit :  (* same place in the machine; a passed task is never edited *)
      same_books t t' → same_counts t t' → t'.(Task_State) = t.(Task_State) →
      t.(Task_State) ≠ TaskPassed → task_edge c t t'
  | E_activate :
      c.(Command_Type) = CommandTaskActivate → same_books t t' → same_counts t t' →
      t.(Task_State) = TaskPlanned → idle_state t'.(Task_State) → task_edge c t t'
  | E_release :
      same_books t t' → same_counts t t' →
      t.(Task_State) = TaskBlocked → t'.(Task_State) = TaskReady → task_edge c t t'
  | E_reblock :
      c.(Command_Type) = CommandPlanPatch → same_books t t' → same_counts t t' →
      t.(Task_State) = TaskReady → t'.(Task_State) = TaskBlocked → task_edge c t t'
  | E_lease :
      c.(Command_Type) = CommandLeaseAcquire → same_books t t' →
      t'.(Task_UserRetries) = t.(Task_UserRetries) →
      t'.(Task_AttemptCount) = i64 (t.(Task_AttemptCount) + 1) →
      (t.(Task_AttemptCount) < MaxAttempts)%Z →
      t.(Task_State) = TaskReady ∨ t.(Task_State) = TaskRetryWait →
      t'.(Task_State) = TaskLeased → task_edge c t t'
  | E_start :
      c.(Command_Type) = CommandAttemptStart → same_books t t' → same_counts t t' →
      t.(Task_State) = TaskLeased → t'.(Task_State) = TaskRunning → task_edge c t t'
  | E_submit :
      c.(Command_Type) = CommandEvidenceSubmit → same_books t t' → same_counts t t' →
      t.(Task_State) = TaskRunning → t'.(Task_State) = TaskVerifying → task_edge c t t'
  | E_accept :
      c.(Command_Type) = CommandEvidenceAccept → same_counts t t' → t'.(Task_ID) = t.(Task_ID) →
      t.(Task_State) = TaskVerifying →
      t'.(Task_State) = TaskIntegrating ∨ t'.(Task_State) = TaskPassed → task_edge c t t'
  | E_fail :
      c.(Command_Type) ∈ [CommandEvidenceReject; CommandAttemptFail; CommandLeaseExpire] →
      same_books t t' → same_counts t t' →
      t.(Task_State) = TaskLeased ∨ t.(Task_State) = TaskRunning ∨ t.(Task_State) = TaskVerifying →
      t'.(Task_State) = TaskRetryWait ∧ (t.(Task_AttemptCount) < MaxAttempts)%Z ∨
      t'.(Task_State) = TaskFailed →
      task_edge c t t'
  | E_retry :
      c.(Command_Type) = CommandTaskRetry → t.(Task_ID) = c.(Command_TaskID) → same_books t t' →
      t'.(Task_AttemptCount) = 0%Z → t'.(Task_UserRetries) = i64 (t.(Task_UserRetries) + 1) →
      t.(Task_State) = TaskFailed ∨ t.(Task_State) = TaskRetryWait ∨ t.(Task_State) = TaskIntegrating →
      idle_state t'.(Task_State) → task_edge c t t'
  | E_integrate :
      c.(Command_Type) = CommandIntegrationComplete → same_counts t t' → t'.(Task_ID) = t.(Task_ID) →
      t'.(Task_AcceptedEvidenceID) = t.(Task_AcceptedEvidenceID) →
      t.(Task_State) = TaskIntegrating → t'.(Task_State) = TaskPassed → task_edge c t t'
  | E_integration_fail :
      c.(Command_Type) = CommandIntegrationFail → same_books t t' → same_counts t t' →
      t.(Task_State) = TaskIntegrating → t'.(Task_State) = TaskFailed → task_edge c t t'
  | E_end :  (* cancelled or superseded by a plan patch *)
      c.(Command_Type) = CommandPlanPatch → same_books t t' → same_counts t t' →
      t.(Task_State) ≠ TaskPassed → t'.(Task_State) = TaskFailed → task_edge c t t'.

(** A task cannot be in two states. *)
Ltac two_states :=
  exfalso; unfold idle_state in *; destruct_and?; destruct_or?; destruct_and?;
  match goal with
  | H1 : Task_State ?u = _, H2 : Task_State ?u = _ |- _ => rewrite H1 in H2; discriminate H2
  end.

(** A task a command has just added. *)
Definition fresh_task (t : Task) : Prop :=
  (t.(Task_State) = TaskPlanned ∨ idle_state t.(Task_State)) ∧
  t.(Task_AttemptCount) = 0%Z ∧ t.(Task_UserRetries) = 0%Z ∧ t.(Task_AcceptedEvidenceID) = "".

(** Every task of [s'] comes from one of [s], or from a new one, along edges of
    the machine; and no task is lost. *)
Definition evolves (c : Command) (s s' : state) : Prop :=
  (∀ k, is_Some (s.(s_tasks) !! k) → is_Some (s'.(s_tasks) !! k)) ∧
  ∀ k t', s'.(s_tasks) !! k = Some t' →
    ∃ t, (s.(s_tasks) !! k = Some t ∨ s.(s_tasks) !! k = None ∧ fresh_task t) ∧ rtc (task_edge c) t t'.

#[export] Instance evolves_preorder c : PreOrder (evolves c).
Proof.
  split.
  - intros s. split; [done|]. intros k t Hk. exists t. split; [by left|done].
  - intros s1 s2 s3 [Hd1 H1] [Hd2 H2]. split; [auto|]. intros k t3 Hk3.
    destruct (H2 k t3 Hk3) as (t2 & [Hk2|[Hk2 Hf]] & H23).
    + destruct (H1 k t2 Hk2) as (t1 & Hk1 & H12). exists t1. split; [done|by etrans].
    + exists t2. split; [right|done]. split; [|done]. apply eq_None_not_Some. intros H.
      destruct (Hd1 k H) as [? ?]. congruence.
Qed.

Lemma evolves_tasks c s s' : s'.(s_tasks) = s.(s_tasks) → evolves c s s'.
Proof.
  intros E. split; rewrite E; [done|]. intros k t Hk. exists t. split; [by left|done].
Qed.

Lemma evolves_put c s k t t' :
  s.(s_tasks) !! k = Some t → t'.(Task_ID) = k → rtc (task_edge c) t t' → evolves c s (put_task t' s).
Proof.
  intros Hk <- He. split; cbn.
  - intros i Hi. rewrite lookup_insert. by case_decide.
  - intros i u. rewrite lookup_insert. case_decide; subst.
    + intros [= <-]. exists t. split; [by left|done].
    + intros Hi. exists u. split; [by left|done].
Qed.

Lemma evolves_new c s t :
  s.(s_tasks) !! t.(Task_ID) = None → fresh_task t → evolves c s (put_task t s).
Proof.
  intros Hk Hf. split; cbn.
  - intros i Hi. rewrite lookup_insert. by case_decide.
  - intros i u. rewrite lookup_insert. case_decide; subst.
    + intros [= <-]. exists t. split; [by right|done].
    + intros Hi. exists u. split; [by left|done].
Qed.

Lemma evolves_release c s : evolves c s (release s).
Proof.
  split; cbn.
  - intros k. by rewrite lookup_fmap, fmap_is_Some.
  - intros k u. rewrite lookup_fmap, fmap_Some. intros (t & Ht & ->). exists t. split; [by left|].
    unfold release_task. destruct (String.eqb_spec (Task_State t) TaskBlocked); cbn; [|done].
    destruct (cleared _ _ _); [|done]. by apply rtc_once, E_release.
Qed.

Lemma evolves_patch_step c id p s s' :
  keyed s → c.(Command_Type) = CommandPlanPatch → patch_step id p s s' → evolves c s s'.
Proof.
  intros (Hk & _) Hty [spec _ _ _ Hnew t|t d _ Hd _ _ Ht _ Hp s1|deps1 d deps2 _ Hs _ _|t contract _ _ Ht Hp
    |t reason _ _ _ Ht _ Hp Hl|t reason _ Ht Hp].
  - apply evolves_new; [done|]. split_and!; try done. right. unfold idle_state, settle. cbn.
    destruct (cleared _ _ _); auto.
  - assert (evolves c s1 (put_task (reblock s1 t) s1)) as H; [|exact H].
    pose proof (Hk _ _ Ht) as E. unfold reblock.
    destruct (String.eqb_spec (Task_State t) TaskReady); cbn; [|by eapply evolves_put].
    destruct (cleared _ _ _); [by eapply evolves_put|].
    eapply evolves_put; [done..|]. by apply rtc_once, E_reblock.
  - by apply evolves_tasks.
  - eapply evolves_put; [done|cbn; by eapply Hk|]. by apply rtc_once, E_edit.
  - eapply evolves_put; [done|cbn; by eapply Hk|]. by apply rtc_once, E_end.
  - etrans; [apply (evolves_tasks c s (end_work t s)); by apply end_work_maps|].
    eapply evolves_put; [by rewrite (proj1 (end_work_maps t s))|cbn; by eapply Hk|]. by apply rtc_once, E_end.
Qed.

Lemma evolves_patch_steps c id ps s s' :
  coordinated s → c.(Command_Type) = CommandPlanPatch → patch_steps id ps s s' → evolves c s s'.
Proof.
  intros Hc Hty H. induction H as [|p ps s1 s2 s3 Hp _ IH]; [done|].
  etrans; [by eapply evolves_patch_step; eauto with ago|].
  apply IH. by eapply coordinated_patch_step.
Qed.

Lemma settle_idle s id : idle_state (settle s id).
Proof. unfold idle_state, settle. destruct (cleared _ _ _); auto. Qed.

(** The failure policy takes a working task to retry-wait or to failed. *)
Lemma evolves_failure c s k t a l class reason el :
  c.(Command_Type) ∈ [CommandEvidenceReject; CommandAttemptFail; CommandLeaseExpire] →
  s.(s_tasks) !! k = Some t → t.(Task_ID) = k → is_Some (working t) →
  evolves c s (record_failure t a l class reason el s).
Proof.
  intros Hty Ht Hid [st Hw].
  assert (evolves c s (put_task (failed_task t class reason el) s)) as H; [|exact H].
  eapply evolves_put; [done|by rewrite failed_task_id|]. apply rtc_once, E_fail; [done|..].
  - unfold same_books, failed_task. by destruct (retries _ _).
  - unfold same_counts, failed_task. by destruct (retries _ _).
  - unfold working in Hw. repeat case_match; inv_bool; try done; auto.
  - unfold failed_task. destruct (retries _ _) eqn:E; [left|by right]. split; [done|].
    unfold retries in E. by inv_bool.
Qed.

Lemma evolves_step c s s' :
  coordinated s → s.(s_id) ≠ "" ∨ s.(s_tasks) = ∅ → step c s s' → evolves c s s'.
Proof.
  intros Hc Hid H. pose proof (λ k t, task_id_of s k t Hc) as Hk. destruct H.
  - destruct Hid as [?|E]; [done|]. split; cbn; rewrite E; [done|]. intros k t. by rewrite lookup_empty.
  - apply evolves_new; [done|]. split_and!; try done. by left.
  - by apply evolves_tasks.
  - destruct H. eapply evolves_put; [done|cbn; by eapply Hk|].
    apply rtc_once, E_activate; try done. apply settle_idle.
  - destruct H. assert (evolves c s (put_task (leased_task t spec) s)) as He; [|exact He].
    eapply evolves_put; [done|cbn; by eapply Hk|]. apply rtc_once, E_lease; try done. naive_solver.
  - destruct H, H0 as (_ & Ht & _).
    assert (evolves c s (put_task (t <| Task_State := TaskRunning |>) s)) as He; [|exact He].
    eapply evolves_put; [done|cbn; by eapply Hk|]. by apply rtc_once, E_start.
  - destruct H, H0 as (_ & Ht & _).
    assert (evolves c s (put_task (t <| Task_State := TaskVerifying |>) s)) as He; [|exact He].
    eapply evolves_put; [done|cbn; by eapply Hk|]. by apply rtc_once, E_submit.
  - destruct H, H0 as (_ & Ht & Hst & _). assert (evolves c s s') as He.
    { subst s'. match goal with |- context [put_task ?u] =>
        assert (evolves c s (put_task u s)) as He; [|exact He] end.
      eapply evolves_put; [done|cbn; by eapply Hk|]. apply rtc_once, E_accept; try done.
      cbn. unfold settled. destruct (EvidenceResult_Patch _); auto. }
    case_match; [|done]. etrans; [exact He|apply evolves_release].
  - destruct (deciding_active _ _ _ _ _ _ Hc H0) as (Hw & _). destruct H, H0 as (_ & Ht & _).
    assert (evolves c s (record_failure t a l class c.(Command_Reason) c.(Command_NextEligibleAt) s))
      as He; [|exact He].
    eapply evolves_failure; [rewrite H; set_solver|done|by eapply Hk|by eexists].
  - destruct (executing_active _ _ _ _ _ Hc H0) as (st & Hw & _); [done|]. destruct H, H0 as (_ & Ht & _).
    eapply evolves_failure; [rewrite H; set_solver|done|by eapply Hk|by eexists].
  - destruct (lease_active s _ l t a Hc H1) as (st & Hw & Hact); try done. destruct H.
    eapply evolves_failure; [rewrite H; set_solver|done|by eapply Hk|by eexists].
  - by apply evolves_tasks.
  - destruct H. eapply evolves_put; [done|cbn; by eapply Hk|].
    apply rtc_once, E_retry; try done; [by eapply Hk|apply settle_idle].
  - destruct H. etrans; [by eapply evolves_patch_steps|apply evolves_release].
  - assert (evolves c s (put_task t' s)) as He; [|exact He].
    eapply evolves_put; [done|subst t'; case_match; cbn; by eapply Hk|].
    apply rtc_once, E_edit; subst t'; try case_match; try done; by rewrite H4.
  - destruct H. eapply evolves_put; [done|cbn; by eapply Hk|]. by apply rtc_once, E_integration_fail.
  - destruct H. etrans; [|apply evolves_release].
    match goal with |- context [put_task ?u] =>
      assert (evolves c s (put_task u s)) as He; [|exact He] end.
    eapply evolves_put; [done|cbn; by eapply Hk|]. by apply rtc_once, E_integrate.
  - by apply evolves_tasks.
  - by apply evolves_tasks.
  - by apply evolves_tasks.
  - by apply evolves_tasks.
Qed.

(** * Before the board exists *)

Lemma patch_steps_id id ps s s' : patch_steps id ps s s' → s'.(s_id) = s.(s_id).
Proof.
  induction 1 as [|p ps s1 s2 s3 Hp _ IH]; [done|]. rewrite IH. destruct Hp; try done.
  cbn. unfold end_work. by destruct (live t).
Qed.

Lemma step_id c s s' :
  step c s s' → s'.(s_id) = s.(s_id) ∨ s'.(s_id) ≠ "" ∧ c.(Command_Type) = CommandBoardCreate.
Proof.
  intros H. destruct H; try (left; done).
  - right. split; [done|]. by destruct H.
  - left. subst s'. by case_match.
  - left. cbn. by eapply patch_steps_id.
Qed.

(** Nothing but its creation happens to an uninitialised board. *)
Lemma step_initial c s' : step c initial s' → s'.(s_id) ≠ "".
Proof.
  intros H. inversion H; subst; try done; cbn in *; try by match goal with
    | H : ∅ !! _ = Some _ |- _ => rewrite lookup_empty in H end.
  all: match goal with
    | H : executing _ _ _ _ _ |- _ => destruct H as (_ & H & _)
    | H : deciding _ _ _ _ _ _ |- _ => destruct H as (_ & H & _)
    end; cbn in *; by match goal with
    | H : ∅ !! _ = Some _ |- _ => rewrite lookup_empty in H end.
Qed.

Lemma reachable_blank cs s : reachable cs s → s.(s_id) = "" → s = initial.
Proof.
  induction 1 as [|cs c s s' _ IH H]; [done|]. intros E.
  destruct (step_id c s s' H) as [E'|[? _]]; [|done]. rewrite E' in E. specialize (IH E). subst s.
  by apply step_initial in H.
Qed.

Lemma reachable_evolves cs c s s' : reachable cs s → step c s s' → evolves c s s'.
Proof.
  intros Hr. apply evolves_step; [by eapply reachable_coordinated|].
  destruct (decide (s.(s_id) = "")) as [E|E]; [right|by left].
  by rewrite (reachable_blank _ _ Hr E).
Qed.

(** * Passed tasks are permanent *)

Lemma passed_stays c t t' : rtc (task_edge c) t t' → t.(Task_State) = TaskPassed → t' = t.
Proof.
  destruct 1 as [|t u t' He _]; [done|]. intros E.
  destruct He; rewrite E in *; unfold idle_state in *; naive_solver.
Qed.

(** * The attempt budget *)

Lemma edge_count c t t' :
  task_edge c t t' → (0 ≤ t.(Task_AttemptCount) ≤ MaxAttempts)%Z →
  (0 ≤ t'.(Task_AttemptCount) ≤ MaxAttempts)%Z.
Proof.
  unfold MaxAttempts. intros He Ht. destruct He; unfold same_counts in *; try (destruct_and?; lia).
  match goal with H : Task_AttemptCount t' = i64 _ |- _ => rewrite H end.
  unfold MaxAttempts in *. rewrite i64_small; lia.
Qed.

Lemma edges_count c t t' :
  rtc (task_edge c) t t' → (0 ≤ t.(Task_AttemptCount) ≤ MaxAttempts)%Z →
  (0 ≤ t'.(Task_AttemptCount) ≤ MaxAttempts)%Z.
Proof. induction 1; eauto using edge_count. Qed.

Lemma reachable_count cs s k t :
  reachable cs s → s.(s_tasks) !! k = Some t → (0 ≤ t.(Task_AttemptCount) ≤ MaxAttempts)%Z.
Proof.
  intros Hr. revert k t. induction Hr as [|cs c s s' Hr IH H]; intros k t Hk; [done|].
  destruct (reachable_evolves _ _ _ _ Hr H) as [_ He].
  destruct (He k t Hk) as (u & [Hu|[_ (_ & Hu & _)]] & Hrtc); eapply edges_count; eauto.
  rewrite Hu. done.
Qed.

(** What commands leave alone of the leases: access modes of tasks never change,
    and a lease becomes active only when it is acquired. *)

(** From [s] to [s'] tasks keep their access modes, and an active lease was active
    before, for the same task, unless its id is [new]. *)
Record calm (new : string → Prop) (s s' : state) : Prop := {
  cl_modes : ∀ k t, s.(s_tasks) !! k = Some t →
    ∃ t', s'.(s_tasks) !! k = Some t' ∧ t'.(Task_AccessMode) = t.(Task_AccessMode);
  cl_leases : ∀ j l', s'.(s_leases) !! j = Some l' → l'.(Lease_State) = LeaseActive →
    new j ∨ ∃ l, s.(s_leases) !! j = Some l ∧ l.(Lease_State) = LeaseActive ∧
      l.(Lease_TaskID) = l'.(Lease_TaskID);
}.
Definition nothing (_ : string) : Prop := False.

#[export] Instance calm_preorder new : PreOrder (calm new).
Proof.
  split.
  - intros s. split; [intros k t Hk; by exists t|]. intros j l Hj Ha. right. by exists l.
  - intros s1 s2 s3 [M1 L1] [M2 L2]. split.
    + intros k t Hk. destruct (M1 k t Hk) as (t2 & Hk2 & <-). destruct (M2 k t2 Hk2) as (t3 & ? & <-).
      by exists t3.
    + intros j l3 Hj Ha. destruct (L2 j l3 Hj Ha) as [?|(l2 & Hj2 & Ha2 & <-)]; [by left|].
      destruct (L1 j l2 Hj2 Ha2) as [?|(l1 & ? & ? & <-)]; [by left|]. right. by exists l1.
Qed.

(** * The parts of a step *)

Lemma calm_maps new s s' :
  s'.(s_tasks) = s.(s_tasks) → s'.(s_leases) = s.(s_leases) → calm new s s'.
Proof.
  intros Et El. split; rewrite ?Et, ?El; [intros k t Hk; by exists t|]. intros j l Hj Ha. right. by exists l.
Qed.

Lemma calm_task new s k t t' :
  s.(s_tasks) !! k = Some t → t'.(Task_AccessMode) = t.(Task_AccessMode) → t'.(Task_ID) = k →
  calm new s (put_task t' s).
Proof.
  intros Ht Hm Hk. split; cbn.
  - intros i u Hi. rewrite lookup_insert. case_decide as E; [|by exists u].
    exists t'. split; [done|]. subst. congruence.
  - intros j l Hj Ha. right. by exists l.
Qed.

Lemma calm_new_task new s t : s.(s_tasks) !! t.(Task_ID) = None → calm new s (put_task t s).
Proof.
  intros Hn. split; cbn.
  - intros i u Hi. rewrite lookup_insert. case_decide as E; [|by exists u]. subst. congruence.
  - intros j l Hj Ha. right. by exists l.
Qed.

Lemma calm_lease new s j l l' :
  s.(s_leases) !! j = Some l → l'.(Lease_ID) = j → l'.(Lease_TaskID) = l.(Lease_TaskID) →
  (l'.(Lease_State) = LeaseActive → l.(Lease_State) = LeaseActive) → calm new s (put_lease l' s).
Proof.
  intros Hl Hid Ht Ha. split; cbn; [intros k t Hk; by exists t|]. intros i x. rewrite lookup_insert.
  case_decide as E; [intros [= <-] Hx; right|intros Hi Hx; right; by exists x].
  exists l. subst i. rewrite Hid. split_and!; [done|by apply Ha|done].
Qed.

Lemma calm_attempt new s a : calm new s (put_attempt a s).
Proof. by apply calm_maps. Qed.
Lemma calm_evidence new s e : calm new s (put_evidence e s).
Proof. by apply calm_maps. Qed.

Lemma calm_release new s : calm new s (release s).
Proof.
  split; cbn.
  - intros k t Hk. rewrite lookup_fmap, Hk. eexists. split; [done|]. unfold release_task. by destruct (_ && _).
  - intros j l Hj Ha. right. by exists l.
Qed.

Lemma failed_task_mode t class reason el :
  (failed_task t class reason el).(Task_AccessMode) = t.(Task_AccessMode).
Proof. unfold failed_task. by destruct (retries _ _). Qed.

Lemma completed_inactive l : (completed l).(Lease_State) ≠ LeaseActive.
Proof. done. Qed.

Lemma calm_failure new s k j t a l class reason el :
  keyed s → s.(s_tasks) !! k = Some t → s.(s_leases) !! j = Some l →
  calm new s (record_failure t a l class reason el s).
Proof.
  intros (Kt & _ & Kl & _) Ht Hl. unfold record_failure.
  etrans; [apply (calm_attempt new s (failed_attempt a class reason))|].
  etrans; [eapply (calm_lease new _ j l (completed l)); [exact Hl|exact (Kl _ _ Hl)|done|by intros ?%completed_inactive]|].
  eapply (calm_task new _ k t); [done|apply failed_task_mode|]. rewrite failed_task_id. by apply Kt.
Qed.

Lemma calm_end_work new s t : calm new s (end_work t s).
Proof.
  unfold end_work. destruct (live t); [|done]. split; cbn; [intros k u Hk; by exists u|].
  intros j l' (l & Hl & ->)%lookup_released. unfold released_lease.
  destruct (_ && _); [by intros ?%completed_inactive|]. intros Ha. right. by exists l.
Qed.

(** An entity of a keyed state has the id it is found under. *)
Ltac by_keyed :=
  match goal with
  | K : ∀ k x, ?m !! k = Some x → _ = k, H : ?m !! ?k = Some _ |- _ = ?k => exact (K _ _ H)
  end.

Lemma calm_patch_step new id p s s' : keyed s → patch_step id p s s' → calm new s s'.
Proof.
  intros Hk Hp. assert (∀ k t, s.(s_tasks) !! k = Some t → t.(Task_ID) = k) as Ki by apply Hk.
  destruct Hp.
  - by apply calm_new_task.
  - etrans; [by apply (calm_maps new s (s <| s_deps := s.(s_deps) ++ [d] |>))|].
    eapply calm_task; [done|unfold reblock; by destruct (_ && _)|unfold reblock; destruct (_ && _); by_keyed].
  - by apply calm_maps.
  - eapply calm_task; [done|done|by_keyed].
  - eapply calm_task; [done|done|by_keyed].
  - etrans; [apply (calm_end_work new s t)|]. destruct (end_work_maps t s) as [E _].
    eapply calm_task; [by rewrite E|done|by_keyed].
Qed.

Lemma calm_patch_steps new id ps s s' : coordinated s → patch_steps id ps s s' → calm new s s'.
Proof.
  intros Hc H. induction H as [|p ps s1 s2 s3 Hp _ IH]; [done|].
  etrans; [eapply calm_patch_step; [apply Hc|done]|]. apply IH. by eapply coordinated_patch_step.
Qed.

(** * Every step *)

(** The id of the lease a command acquires. *)
Definition acquires (c : Command) (j : string) : Prop :=
  c.(Command_Type) = CommandLeaseAcquire ∧
  ∃ spec, c.(Command_Lease) = Some spec ∧ j = spec.(LeaseSpec_ID).

Ltac by_calm_task := eapply calm_task; [done|done|by_keyed].

Lemma calm_step c s s' :
  coordinated s → s.(s_id) ≠ "" ∨ s = initial → step c s s' → calm (acquires c) s s'.
Proof.
  intros Hc Hid H. pose proof (co_keyed s Hc) as Hk. pose proof Hk as (Kt & Ka & Kl & Ke).
  destruct H; try by apply calm_maps.
  - destruct Hid as [?| ->]; [done|]. split; cbn; [done|]. intros j l Hj. by rewrite lookup_empty in Hj.
  - by apply calm_new_task.
  - by_calm_task.
  - destruct H as [H _]. split; cbn.
    + intros k u Hu. rewrite lookup_insert. case_decide as E; [|by exists u].
      match goal with H : s_tasks _ !! LeaseSpec_TaskID _ = Some t |- _ => pose proof (Kt _ _ H) end.
      eexists. split; [done|]. cbn in *. congruence.
    + intros j l. rewrite lookup_insert. case_decide as E; [|intros Hj Ha; right; by exists l].
      intros _ _. left. split; [done|]. by exists spec.
  - destruct H0 as (_ & Ht & _ & _). etrans; [|apply calm_attempt]. by_calm_task.
  - destruct H0 as (_ & Ht & _ & Hl & _). etrans; [|apply calm_attempt].
    etrans; [|eapply (calm_lease _ _ _ l); [exact Hl|exact (Kl _ _ Hl)|done|by intros ?%completed_inactive]].
    etrans; [|apply calm_evidence]. by_calm_task.
  - assert (calm (acquires c) s s') as Hh; [|case_match; [etrans; [exact Hh|apply calm_release]|done]].
    subst s'. destruct H0 as (_ & Ht & _ & _ & _ & _ & _ & _ & Hl).
    etrans; [apply (calm_attempt _ s (a <| Attempt_State := AttemptPassed |>))|].
    etrans; [apply calm_evidence|].
    etrans; [eapply (calm_lease _ _ _ l (completed l)); [exact Hl|exact (Kl _ _ Hl)|done|by intros ?%completed_inactive]|].
    eapply calm_task; [exact Ht|done|by_keyed].
  - destruct H0 as (_ & Ht & _ & _ & _ & _ & _ & _ & Hl). etrans; [|apply calm_evidence]. by eapply calm_failure.
  - destruct H0 as (_ & Ht & _ & Hl & _). by eapply calm_failure.
  - by eapply calm_failure.
  - eapply calm_lease; [done|by_keyed|done|done].
  - eapply calm_task; [done|done|by_keyed].
  - etrans; [by eapply calm_patch_steps|apply calm_release].
  - etrans; [apply (calm_evidence _ s)|]. eapply calm_task; [exact H3| |]; subst t'; case_match; try done; by_keyed.
  - eapply calm_task; [done|done|by_keyed].
  - etrans; [|apply calm_release].
    match goal with |- calm _ ?s (?x <| s_revision := _ |>) => etrans; [|by apply (calm_maps _ x)] end.
    by_calm_task.
Qed.

Lemma reachable_calm cs c s s' : reachable cs s → step c s s' → calm (acquires c) s s'.
Proof.
  intros Hr. apply calm_step; [by eapply reachable_coordinated|].
  destruct (decide (s.(s_id) = "")) as [E|E]; [right|by left]. by apply (reachable_blank cs).
Qed.
