(* ===== verification/History.v ===== *)
(** The audit trail of a work graph, and the guarantees that are read off it. *)
From stdpp Require Import relations.
From S2P Require Import Prelude Protocol Spec Coordination Lifecycle.

(** The audit trail: attempts, leases and evidence are never removed, their
    identity never changes, and once settled they never change at all. *)

(** The fields that identify an attempt. *)
Record identity : Type := mkIdentity {
  i_task : string; i_worker : string; i_number : Z; i_generation : Z; i_token : string;
}.
Definition identify (a : Attempt) : identity :=
  mkIdentity a.(Attempt_TaskID) a.(Attempt_WorkerID) a.(Attempt_Number) a.(Attempt_Generation)
    a.(Attempt_FencingToken).
Definition identities (s : state) : gmap string identity := identify <$> s.(s_attempts).

Definition attempt_kept (a a' : Attempt) : Prop :=
  a'.(Attempt_ID) = a.(Attempt_ID) ∧ identify a' = identify a ∧ (¬ live_attempt a → a' = a).

Definition lease_kept (l l' : Lease) : Prop :=
  l'.(Lease_ID) = l.(Lease_ID) ∧ l'.(Lease_TaskID) = l.(Lease_TaskID) ∧
  l'.(Lease_AttemptID) = l.(Lease_AttemptID) ∧ l'.(Lease_WorkerID) = l.(Lease_WorkerID) ∧
  l'.(Lease_Generation) = l.(Lease_Generation) ∧ l'.(Lease_FencingToken) = l.(Lease_FencingToken) ∧
  l'.(Lease_AcquiredAt) = l.(Lease_AcquiredAt) ∧ (l.(Lease_State) = LeaseCompleted → l' = l).

Definition evidence_kept (e e' : Evidence) : Prop :=
  e'.(Evidence_ID) = e.(Evidence_ID) ∧ e'.(Evidence_TaskID) = e.(Evidence_TaskID) ∧
  e'.(Evidence_AttemptID) = e.(Evidence_AttemptID) ∧ e'.(Evidence_WorkerID) = e.(Evidence_WorkerID) ∧
  e'.(Evidence_Artifact) = e.(Evidence_Artifact) ∧ e'.(Evidence_Summary) = e.(Evidence_Summary) ∧
  e'.(Evidence_Result) = e.(Evidence_Result) ∧ (e.(Evidence_State) ≠ EvidenceSubmitted → e' = e).

(** Every entry of the first map is kept in the second. *)
Definition all_kept {A} (kept : A → A → Prop) (m m' : gmap string A) : Prop :=
  ∀ k x, m !! k = Some x → ∃ x', m' !! k = Some x' ∧ kept x x'.

Record history (s s' : state) : Prop := {
  hi_attempts : all_kept attempt_kept s.(s_attempts) s'.(s_attempts);
  hi_leases : all_kept lease_kept s.(s_leases) s'.(s_leases);
  hi_evidence : all_kept evidence_kept s.(s_evidence) s'.(s_evidence);
}.

(** * The three relations are preorders *)

#[export] Instance attempt_kept_preorder : PreOrder attempt_kept.
Proof.
  split; [by intros a|]. intros a1 a2 a3 (? & ? & H1) (? & ? & H2). split_and!; [congruence..|].
  intros Hn. specialize (H1 Hn). subst a2. auto.
Qed.

#[export] Instance lease_kept_preorder : PreOrder lease_kept.
Proof.
  split; [by intros a|]. unfold lease_kept.
  intros l1 l2 l3 H1 H2. destruct_and?. split_and!; try congruence.
  intros E. assert (l2 = l1) as -> by auto. auto.
Qed.

#[export] Instance evidence_kept_preorder : PreOrder evidence_kept.
Proof.
  split; [by intros a|]. unfold evidence_kept.
  intros e1 e2 e3 H1 H2. destruct_and?. split_and!; try congruence.
  intros E. assert (e2 = e1) as -> by auto. auto.
Qed.

#[export] Instance all_kept_preorder {A} (kept : A → A → Prop) `{!PreOrder kept} : PreOrder (all_kept kept).
Proof.
  split; [intros m k x Hk; by exists x|].
  intros m1 m2 m3 H1 H2 k x Hk. destruct (H1 k x Hk) as (y & Hy & ?). destruct (H2 k y Hy) as (z & ? & ?).
  exists z. split; [done|by etrans].
Qed.

#[export] Instance history_preorder : PreOrder history.
Proof.
  split; [intros s; by split|]. intros s1 s2 s3 [] []. by split; etrans.
Qed.

Lemma all_kept_insert {A} (kept : A → A → Prop) `{!PreOrder kept} (m : gmap string A) k x :
  (∀ y, m !! k = Some y → kept y x) → all_kept kept m (<[k := x]> m).
Proof.
  intros H i y Hi. rewrite lookup_insert. case_decide; subst; [exists x; auto|by exists y].
Qed.

Lemma all_kept_fmap {A} (kept : A → A → Prop) (f : A → A) (m : gmap string A) :
  (∀ k x, m !! k = Some x → kept x (f x)) → all_kept kept m (f <$> m).
Proof. intros H k x Hk. exists (f x). rewrite lookup_fmap, Hk. split; [done|by apply (H k)]. Qed.

Lemma history_maps s s' :
  s'.(s_attempts) = s.(s_attempts) → s'.(s_leases) = s.(s_leases) → s'.(s_evidence) = s.(s_evidence) →
  history s s'.
Proof. intros Ea El Ee. split; rewrite ?Ea, ?El, ?Ee; reflexivity. Qed.

Lemma history_attempt s a :
  (∀ a0, s.(s_attempts) !! a.(Attempt_ID) = Some a0 → attempt_kept a0 a) → history s (put_attempt a s).
Proof. intros H. split; [cbn; by apply (all_kept_insert _)|reflexivity..]. Qed.

Lemma history_lease s l :
  (∀ l0, s.(s_leases) !! l.(Lease_ID) = Some l0 → lease_kept l0 l) → history s (put_lease l s).
Proof. intros H. split; [reflexivity|cbn; by apply (all_kept_insert _)|reflexivity]. Qed.

Lemma history_put_evidence s e :
  (∀ e0, s.(s_evidence) !! e.(Evidence_ID) = Some e0 → evidence_kept e0 e) → history s (put_evidence e s).
Proof. intros H. split; [reflexivity|reflexivity|cbn; by apply (all_kept_insert _)]. Qed.

(** * Preservation *)

Lemma active_live s t st a l : working t = Some st → active s t st a l → live_attempt a.
Proof.
  intros Hw Ha. unfold live_attempt. rewrite (ac_attempt_state _ _ _ _ _ Ha).
  unfold working in Hw. repeat case_match; simplify_eq; auto.
Qed.

(** Changes of a live attempt and its lease, within their identities. *)
Lemma history_active s t st a l a' l' :
  coordinated s → working t = Some st → active s t st a l →
  a'.(Attempt_ID) = a.(Attempt_ID) → identify a' = identify a → lease_kept l l' →
  history s (put_lease l' (put_attempt a' s)).
Proof.
  intros Hc Hw Ha Eid Ei Hl. pose proof (co_keyed s Hc) as (_ & Hka & Hkl & _).
  etrans; [apply (history_attempt s a')|apply history_lease].
  - intros a0. rewrite Eid, (Hka _ _ (ac_attempt _ _ _ _ _ Ha)), (ac_attempt _ _ _ _ _ Ha).
    intros [= <-]. split_and!; [done..|]. intros Hn. by destruct Hn; eapply active_live.
  - cbn. intros l0. rewrite (proj1 Hl), (Hkl _ _ (ac_lease _ _ _ _ _ Ha)), (ac_lease _ _ _ _ _ Ha).
    by intros [= <-].
Qed.

Lemma completed_kept l : lease_kept l (completed l).
Proof. unfold lease_kept, completed. split_and!; try done. destruct l; cbn. by intros ->. Qed.

Lemma history_failure s k t st a l class reason el :
  coordinated s → s.(s_tasks) !! k = Some t → working t = Some st → active s t st a l →
  history s (record_failure t a l class reason el s).
Proof.
  intros Hc Ht Hw Ha.
  assert (history s (put_lease (completed l) (put_attempt (failed_attempt a class reason) s))) as H;
    [|by destruct H; split].
  eapply history_active; try done. apply completed_kept.
Qed.

Lemma history_end_work s k t :
  coordinated s → s.(s_tasks) !! k = Some t → history s (end_work t s).
Proof.
  intros Hc Ht. unfold end_work. destruct (live t) eqn:Hlv; [|done].
  apply live_working in Hlv as [st Hw].
  destruct (st_active _ _ (co_settled s Hc k) _ _ Ht Hw) as (a & l & Ha).
  split; [|..|done]; cbn; apply all_kept_fmap; intros j x Hx.
  - unfold cancelled_attempt.
    destruct (String.eqb_spec (Attempt_ID x) (Task_ActiveAttemptID t)) as [E|]; [|done].
    split_and!; try done. intros Hn. destruct Hn.
    rewrite (proj1 (proj2 (co_keyed s Hc)) _ _ Hx) in E. subst j.
    rewrite (ac_attempt _ _ _ _ _ Ha) in Hx. simplify_eq. by eapply active_live.
  - unfold released_lease. destruct (_ && _) eqn:E; [|done]. apply completed_kept.
Qed.

Lemma history_patch_step id p s s' : coordinated s → patch_step id p s s' → history s s'.
Proof.
  intros Hc [spec|t d|deps1 d deps2|t contract|t reason|t reason _ Ht _]; try by apply history_maps.
  destruct (history_end_work s _ t Hc Ht). by split.
Qed.

Lemma history_patch_steps id ps s s' : coordinated s → patch_steps id ps s s' → history s s'.
Proof.
  intros Hc H. induction H as [|p ps s1 s2 s3 Hp _ IH]; [done|].
  etrans; [by eapply history_patch_step|]. apply IH. by eapply coordinated_patch_step.
Qed.

Lemma history_release s : history s (release s).
Proof. by apply history_maps. Qed.

(** A decided piece of evidence was waiting for its decision. *)
Lemma history_decided s e e' :
  s.(s_evidence) !! e.(Evidence_ID) = Some e → e.(Evidence_State) = EvidenceSubmitted →
  e'.(Evidence_ID) = e.(Evidence_ID) → e'.(Evidence_TaskID) = e.(Evidence_TaskID) →
  e'.(Evidence_AttemptID) = e.(Evidence_AttemptID) → e'.(Evidence_WorkerID) = e.(Evidence_WorkerID) →
  e'.(Evidence_Artifact) = e.(Evidence_Artifact) → e'.(Evidence_Summary) = e.(Evidence_Summary) →
  e'.(Evidence_Result) = e.(Evidence_Result) →
  all_kept evidence_kept s.(s_evidence) (<[e'.(Evidence_ID) := e']> s.(s_evidence)).
Proof.
  intros He Hs Ei. intros. apply (all_kept_insert _). rewrite Ei, He. intros e0 [= <-].
  by split_and!.
Qed.

Lemma history_step c s s' :
  coordinated s → s.(s_id) ≠ "" ∨ s = initial → step c s s' → history s s'.
Proof.
  intros Hc Hid H. destruct H; try by apply history_maps.
  - destruct Hid as [?| ->]; [done|]. split; cbn; intros k x Hk; by rewrite lookup_empty in Hk.
  - assert (history s (put_lease (new_lease s t spec) (put_attempt (new_attempt s t spec) s))) as Hh;
      [|by destruct Hh; split].
    etrans; [apply (history_attempt s (new_attempt s t spec)); cbn; by rewrite H8|].
    apply history_lease. cbn. by rewrite H7.
  - destruct (executing_active _ _ _ _ _ Hc H0) as (st & Hw & _ & Ha); [by left|].
    assert (history s (put_lease l (put_attempt (a <| Attempt_State := AttemptRunning |>) s)))
      as [Hh _ _] by by apply (history_active s t st a l). split; cbn in *; [exact Hh|reflexivity..].
  - destruct (executing_active _ _ _ _ _ Hc H0) as (st & Hw & _ & Ha); [by right|].
    assert (history s (put_lease (completed l) (put_attempt (a <| Attempt_State := AttemptVerifying |>
      <| Attempt_EvidenceID := spec.(EvidenceSpec_ID) |>) s))) as [Hh1 Hh2 _]
      by (apply (history_active s t st a l); try done; apply completed_kept).
    split; cbn in *; [exact Hh1|exact Hh2|]. apply (all_kept_insert _). cbn. by rewrite H5.
  - destruct (deciding_active _ _ _ _ _ _ Hc H0) as (Hw & Ha & Ee & _).
    destruct H0 as (_ & _ & _ & _ & _ & _ & He & Hs & _). rewrite <- Ee in He.
    assert (history s s') as Hh; [|case_match; [etrans; [exact Hh|apply history_release]|done]].
    subst s'.
    assert (history s (put_lease (completed l) (put_attempt (a <| Attempt_State := AttemptPassed |>) s)))
      as [Hh1 Hh2 _] by (eapply (history_active s t _ a l); try done; apply completed_kept).
    split; cbn in *; [exact Hh1|exact Hh2|].
    match goal with |- context [<[_ := ?x]>] => by apply (history_decided s e x) end.
  - destruct (deciding_active _ _ _ _ _ _ Hc H0) as (Hw & Ha & Ee & _).
    destruct H0 as (_ & Ht & _ & _ & _ & _ & He & Hs & _). rewrite <- Ee in He.
    destruct (history_failure s _ t _ a l class c.(Command_Reason) c.(Command_NextEligibleAt)
      Hc Ht Hw Ha) as [Hh1 Hh2 _].
    split; cbn in *; [exact Hh1|exact Hh2|].
    match goal with |- context [<[_ := ?x]>] => by apply (history_decided s e x) end.
  - destruct (executing_active _ _ _ _ _ Hc H0) as (st & Hw & _ & Ha); [done|].
    destruct H0 as (_ & Ht & _). by eapply history_failure.
  - destruct (lease_active s _ l t a Hc H1) as (st & Hw & Ha); try done. by eapply history_failure.
  - apply history_lease. cbn. intros l0 Hl0.
    rewrite (proj1 (proj2 (proj2 (co_keyed s Hc))) _ _ H1) in Hl0. simplify_eq.
    unfold lease_kept. split_and!; try done. intros E. by rewrite H2 in E.
  - etrans; [by eapply history_patch_steps|apply history_release].
  - assert (history s (put_evidence (e <| Evidence_VerificationAttempts := tries |>) s)) as Hh;
      [|by destruct Hh; split].
    pose proof (proj2 (proj2 (proj2 (co_keyed s Hc))) _ _ H1) as Ee. rewrite <- Ee in H1.
    split; [reflexivity..|]. cbn.
    match goal with |- context [<[_ := ?x]>] => by apply (history_decided s e x) end.
Qed.

Lemma reachable_history cs c s s' : reachable cs s → step c s s' → history s s'.
Proof.
  intros Hr. apply history_step; [by eapply reachable_coordinated|].
  destruct (decide (s.(s_id) = "")) as [E|E]; [right|by left]. by apply (reachable_blank cs).
Qed.

(** * Which attempts exist *)

Lemma identities_put s a a0 :
  s.(s_attempts) !! a.(Attempt_ID) = Some a0 → identify a = identify a0 →
  identities (put_attempt a s) = identities s.
Proof.
  intros Ha Ei. unfold identities. cbn. rewrite fmap_insert, Ei. apply insert_id.
  by rewrite lookup_fmap, Ha.
Qed.

Lemma identities_end_work t s : identities (end_work t s) = identities s.
Proof.
  unfold end_work, identities. destruct (live t); [|done]. cbn. rewrite <- map_fmap_compose.
  apply map_fmap_ext. intros j a _. unfold cancelled_attempt. cbn. by destruct (_ == _).
Qed.

Lemma identities_patch_steps id ps s s' :
  patch_steps id ps s s' → identities s' = identities s ∧ s'.(s_generation) = s.(s_generation).
Proof.
  induction 1 as [|p ps s1 s2 s3 Hp _ [-> ->]]; [done|]. destruct Hp; try done. split.
  - apply (identities_end_work t).
  - cbn. unfold end_work. by destruct (live t).
Qed.

(** Only a claim adds an attempt, with the next generation and a new token. *)
Inductive issues (c : Command) (s s' : state) : Prop :=
  | I_none :
      c.(Command_Type) ≠ CommandLeaseAcquire →
      identities s' = identities s → s'.(s_generation) = s.(s_generation) → issues c s s'
  | I_create :
      s.(s_id) = "" → s'.(s_tasks) = ∅ → identities s' = ∅ → s'.(s_generation) = 1%Z → issues c s s'
  | I_issue spec t :
      c.(Command_Type) = CommandLeaseAcquire → s.(s_tasks) !! spec.(LeaseSpec_TaskID) = Some t →
      (t.(Task_AttemptCount) < MaxAttempts)%Z →
      s'.(s_tasks) = <[t.(Task_ID) := leased_task t spec]> s.(s_tasks) →
      s.(s_attempts) !! spec.(LeaseSpec_AttemptID) = None →
      unissued s spec.(LeaseSpec_FencingToken) → spec.(LeaseSpec_FencingToken) ≠ "" →
      identities s' = <[spec.(LeaseSpec_AttemptID) :=
        mkIdentity t.(Task_ID) spec.(LeaseSpec_WorkerID) (i64 (t.(Task_AttemptCount) + 1))
          s.(s_generation) spec.(LeaseSpec_FencingToken)]> (identities s) →
      s'.(s_generation) = u64 (s.(s_generation) + 1) → issues c s s'.

Lemma identities_active s t st a l a' s' :
  coordinated s → active s t st a l → a'.(Attempt_ID) = a.(Attempt_ID) → identify a' = identify a →
  s'.(s_attempts) = (put_attempt a' s).(s_attempts) → identities s' = identities s.
Proof.
  intros Hc Ha Ei Ed Es. unfold identities. rewrite Es. apply (identities_put s a' a); [|done].
  by rewrite Ei, (proj1 (proj2 (co_keyed s Hc)) _ _ (ac_attempt _ _ _ _ _ Ha)), (ac_attempt _ _ _ _ _ Ha).
Qed.

Lemma step_issues c s s' : coordinated s → step c s s' → issues c s s'.
Proof.
  intros Hc H. destruct H;
    try by (destruct H as [H _]; apply I_none; [by rewrite H|done|done]).
  - by apply I_create.
  - destruct H. eapply I_issue; try done. unfold identities. cbn. by rewrite fmap_insert.
  - destruct (executing_active _ _ _ _ _ Hc H0) as (st & _ & _ & Ha); [by left|]. destruct H as [H _].
    apply I_none; [by rewrite H| |done].
    by apply (identities_active s t st a l (a <| Attempt_State := AttemptRunning |>)).
  - destruct (executing_active _ _ _ _ _ Hc H0) as (st & _ & _ & Ha); [by right|]. destruct H as [H _].
    apply I_none; [by rewrite H| |done].
    by apply (identities_active s t st a l (a <| Attempt_State := AttemptVerifying |>
      <| Attempt_EvidenceID := spec.(EvidenceSpec_ID) |>)).
  - destruct (deciding_active _ _ _ _ _ _ Hc H0) as (_ & Ha & _). destruct H as [H _].
    apply I_none; [by rewrite H| |subst s'; by case_match].
    apply (identities_active s t AttemptVerifying a l (a <| Attempt_State := AttemptPassed |>)); try done.
    subst s'; by case_match.
  - destruct (deciding_active _ _ _ _ _ _ Hc H0) as (_ & Ha & _). destruct H as [H _].
    apply I_none; [by rewrite H| |done].
    by apply (identities_active s t AttemptVerifying a l (failed_attempt a class c.(Command_Reason))).
  - destruct (executing_active _ _ _ _ _ Hc H0) as (st & _ & _ & Ha); [done|]. destruct H as [H _].
    apply I_none; [by rewrite H| |done].
    by apply (identities_active s t st a l (failed_attempt a c.(Command_FailureClass) c.(Command_Reason))).
  - destruct (lease_active s _ l t a Hc H1) as (st & _ & Ha); try done. destruct H as [H _].
    apply I_none; [by rewrite H| |done].
    by apply (identities_active s t st a l (failed_attempt a class c.(Command_Reason))).
  - destruct (identities_patch_steps _ _ _ _ H3) as [Hi Hg]. destruct H as [H _].
    apply I_none; [by rewrite H|exact Hi|exact Hg].
  - destruct H as [H _]. apply I_none; [by rewrite H; destruct b|done|done].
Qed.

Lemma step_create c s s' :
  step c s s' → c.(Command_Type) = CommandBoardCreate →
  identities s' = ∅ ∧ s'.(s_generation) = 1%Z.
Proof.
  intros H Ety. destruct H; try (destruct H as [H ?]; try destruct b; rewrite H in Ety; discriminate Ety).
  done.
Qed.

(** A claim issues the next generation. *)
Lemma step_acquire c s s' :
  step c s s' → c.(Command_Type) = CommandLeaseAcquire →
  ∃ id i, identities s' !! id = Some i ∧ i_generation i = s.(s_generation) ∧
    s'.(s_generation) = u64 (s.(s_generation) + 1).
Proof.
  intros H Ety. destruct H; try (destruct H as [H ?]; try destruct b; rewrite H in Ety; discriminate Ety).
  exists spec.(LeaseSpec_AttemptID), (identify (new_attempt s t spec)). split_and!; try done.
  unfold identities. cbn. by rewrite fmap_insert, lookup_insert_eq.
Qed.

(** Guarantees of every reachable work graph: accepted work is backed by accepted
    evidence, fencing tokens are unique, and the attempts at a task are bounded
    by the decisions to retry it. *)

(** * Acceptance *)

(** An accepted task rests on accepted evidence of an attempt that passed; a
    passed one was integrated when its evidence carries a patch. *)
Definition backed (s : state) (k : string) (t : Task) : Prop :=
  ∃ e a, s.(s_evidence) !! t.(Task_AcceptedEvidenceID) = Some e ∧
    e.(Evidence_State) = EvidenceAccepted ∧ RequiredTestsPassed e.(Evidence_Result) = true ∧
    e.(Evidence_TaskID) = k ∧ s.(s_attempts) !! e.(Evidence_AttemptID) = Some a ∧
    a.(Attempt_State) = AttemptPassed ∧ a.(Attempt_TaskID) = k ∧
    (t.(Task_State) = TaskPassed →
       e.(Evidence_Result).(EvidenceResult_Patch) = None ∨ t.(Task_IntegratedRevision) ≠ "").

Definition accepted_state (st : TaskState) : Prop := st = TaskIntegrating ∨ st = TaskPassed.

Definition acceptance (s : state) : Prop :=
  ∀ k t, s.(s_tasks) !! k = Some t → accepted_state t.(Task_State) → backed s k t.

(** Accepted evidence and passed attempts are settled, so backing persists. *)
Lemma backed_history s s' k t t' :
  history s s' → backed s k t → t'.(Task_AcceptedEvidenceID) = t.(Task_AcceptedEvidenceID) →
  (t'.(Task_State) = TaskPassed → t.(Task_State) = TaskPassed ∧
     t'.(Task_IntegratedRevision) = t.(Task_IntegratedRevision) ∨ t'.(Task_IntegratedRevision) ≠ "") →
  backed s' k t'.
Proof.
  intros [Ha _ He] (e & a & Hel & Hes & Hrt & Het & Hal & Has & Hat & Hp) Eid Hst.
  destruct (He _ _ Hel) as (e' & He' & Hk). destruct (Ha _ _ Hal) as (a' & Ha' & Hka).
  assert (e' = e) as -> by (apply Hk; by rewrite Hes).
  assert (a' = a) as ->.
  { apply Hka. unfold live_attempt. rewrite Has. by intros [?|[?|?]]. }
  exists e, a. rewrite Eid. split_and!; try done. intros E. destruct (Hst E) as [[E' Er]|]; [|by right].
  rewrite Er. auto.
Qed.

(** It is enough to look at the tasks that are newly accepted. *)
Lemma acceptance_step_intro s s' :
  history s s' → acceptance s →
  (∀ k t', s'.(s_tasks) !! k = Some t' → accepted_state t'.(Task_State) →
     (∃ t, s.(s_tasks) !! k = Some t ∧ t'.(Task_State) = t.(Task_State) ∧
        t'.(Task_AcceptedEvidenceID) = t.(Task_AcceptedEvidenceID) ∧
        t'.(Task_IntegratedRevision) = t.(Task_IntegratedRevision)) ∨ backed s' k t') →
  acceptance s'.
Proof.
  intros Hh Ha H k t' Hk Hst. destruct (H k t' Hk Hst) as [(t & Ht & Es & Ee & Er)|]; [|done].
  eapply backed_history; [done|apply Ha; [done|by rewrite <- Es]|done|]. rewrite Es. auto.
Qed.

(** The edges that accept a task are those of the two accepting commands. *)
Lemma edges_accepted c t t' :
  rtc (task_edge c) t t' → accepted_state t'.(Task_State) →
  c.(Command_Type) ≠ CommandEvidenceAccept → c.(Command_Type) ≠ CommandIntegrationComplete →
  t'.(Task_State) = t.(Task_State) ∧ t'.(Task_AcceptedEvidenceID) = t.(Task_AcceptedEvidenceID) ∧
  t'.(Task_IntegratedRevision) = t.(Task_IntegratedRevision).
Proof.
  intros H Hst Hn1 Hn2. revert Hst. induction H as [|t u t' He _ IH]; [done|].
  intros Hst. destruct (IH Hst) as (E1 & E2 & E3). rewrite E1 in Hst.
  unfold accepted_state in Hst. destruct He; unfold same_books, idle_state in *;
    try (destruct_and?; split_and!; congruence); try done; two_states.
Qed.

Lemma release_accepted s k t' :
  (release s).(s_tasks) !! k = Some t' → accepted_state t'.(Task_State) → s.(s_tasks) !! k = Some t'.
Proof.
  cbn. rewrite lookup_fmap, fmap_Some. intros (t & Ht & ->). unfold release_task.
  destruct (String.eqb_spec (Task_State t) TaskBlocked); cbn; [|done].
  destruct (cleared _ _ _); [|done]. cbn. by intros [?|?].
Qed.

Lemma acceptance_release s : acceptance s → acceptance (release s).
Proof.
  intros Ha k t Hk Hst. apply release_accepted in Hk; [|done].
  eapply backed_history; [apply history_release|by apply Ha|done|auto].
Qed.

Lemma acceptance_step c s s' :
  coordinated s → s.(s_id) ≠ "" ∨ s = initial → acceptance s → step c s s' → acceptance s'.
Proof.
  intros Hc Hid Ha H. pose proof (history_step _ _ _ Hc Hid H) as Hh.
  assert (s.(s_id) ≠ "" ∨ s.(s_tasks) = ∅) as Hid' by (destruct Hid as [?| ->]; auto).
  destruct (decide (c.(Command_Type) = CommandEvidenceAccept)) as [E1|E1];
    [|destruct (decide (c.(Command_Type) = CommandIntegrationComplete)) as [E2|E2]].
  - clear Hh. destruct H; try (by destruct H as [H _]; rewrite H in E1).
    destruct (deciding_active _ _ _ _ _ _ Hc H0) as (Hw & Hact & Ee & Eet & Eea).
    pose proof H0 as (_ & Ht & _ & _ & _ & _ & He & Hes & _).
    assert (step c s (if settled == TaskPassed then release s' else s')) as Hstep
      by by eapply S_accept.
    assert (acceptance s') as Has'; [|by case_match; [apply acceptance_release|]].
    assert (history s s') as Hh.
    { pose proof (history_step _ _ _ Hc Hid Hstep) as Hh. case_match; [|done]. by destruct Hh. }
    apply (acceptance_step_intro s); [done..|]. subst s'. intros k t'. cbn [s_tasks put_task setf].
    cbn. rewrite lookup_insert. case_decide as Hk; [|intros Hk'; left; by exists t'].
    intros [= <-] _. right. rewrite (proj1 (co_keyed s Hc) _ _ Ht) in Eet.
    exists (e <| Evidence_State := EvidenceAccepted |> <| Evidence_Verdict := "accept" |>
              <| Evidence_VerdictReason := c.(Command_Reason) |>), (a <| Attempt_State := AttemptPassed |>).
    cbn. rewrite lookup_insert_eq.
    assert (a.(Attempt_ID) = e.(Evidence_AttemptID)) as Eaid.
    { destruct H0 as ((Haa & _) & _). rewrite Eea. by eapply (co_keyed s Hc). }
    rewrite Eaid, lookup_insert_eq. split_and!; try done.
    + rewrite Eet. rewrite <- Hk. cbn. by rewrite (proj1 (co_keyed s Hc) _ _ Ht).
    + rewrite (ac_attempt_task _ _ _ _ _ Hact). by rewrite <- Hk.
    + intros Hst. left. unfold settled in Hst. by destruct (EvidenceResult_Patch _).
  - clear Hh. destruct H; try (by destruct H as [H _]; rewrite H in E2).
    apply acceptance_release.
    apply (acceptance_step_intro s); [by apply history_maps|done|]. cbn. intros k t'.
    rewrite lookup_insert. case_decide as Hk; [|intros Hk'; left; by exists t'].
    intros [= <-] _. right. pose proof (proj1 (co_keyed s Hc) _ _ H0) as Ek.
    eapply (backed_history s _ k t); [by apply history_maps| |done|by right].
    apply Ha; [by rewrite <- Hk, Ek|by left].
  - apply (acceptance_step_intro s); [done..|]. intros k t' Hk Hst. left.
    destruct (evolves_step _ _ _ Hc Hid' H) as [_ He].
    destruct (He k t' Hk) as (t & Hor & Hrtc). destruct (edges_accepted _ _ _ Hrtc Hst E1 E2) as (Es & ? & ?).
    destruct Hor as [Ht|[_ [Hf _]]]; [by exists t|]. exfalso. rewrite Es in Hst.
    unfold idle_state, accepted_state in *. destruct Hst as [E|E]; rewrite E in Hf; naive_solver.
Qed.

Lemma reachable_acceptance cs s : reachable cs s → acceptance s.
Proof.
  induction 1 as [|cs c s s' Hr IH H]; [intros k t Hk; done|].
  eapply acceptance_step; [by eapply reachable_coordinated| |done|done].
  destruct (decide (s.(s_id) = "")) as [E|E]; [right; by apply (reachable_blank cs)|by left].
Qed.

(** * Fencing tokens *)

Definition tokens_unique (s : state) : Prop :=
  ∀ j1 j2 i1 i2, identities s !! j1 = Some i1 → identities s !! j2 = Some i2 →
    i_token i1 = i_token i2 → j1 = j2.

Lemma identities_lookup s j i :
  identities s !! j = Some i ↔ ∃ a, s.(s_attempts) !! j = Some a ∧ i = identify a.
Proof. unfold identities. rewrite lookup_fmap, fmap_Some. naive_solver. Qed.

Lemma reachable_tokens cs s : reachable cs s → tokens_unique s.
Proof.
  induction 1 as [|cs c s s' Hr IH H]; [intros j1 j2 i1 i2 H1; by rewrite identities_lookup in H1; destruct H1 as (? & ? & _)|].
  destruct (step_issues _ _ _ (reachable_coordinated _ _ Hr) H)
    as [_ E _|_ _ E _|spec t _ _ _ _ Hnew [_ Hun] _ E _]; unfold tokens_unique; rewrite E.
  - exact IH.
  - intros j1 j2 i1 i2 H1. by rewrite lookup_empty in H1.
  - assert (∀ j i, identities s !! j = Some i → i_token i ≠ spec.(LeaseSpec_FencingToken)) as Hf.
    { intros j i (a & Ha & ->)%identities_lookup. by apply (Hun j). }
    intros j1 j2 i1 i2. rewrite !lookup_insert. do 2 case_decide; subst; try done.
    + intros [= <-] H2 Et. by destruct (Hf _ _ H2).
    + intros H1 [= <-] Et. by destruct (Hf _ _ H1).
    + apply IH.
Qed.

(** * The attempt budget *)

(** How many attempts the task has had. *)
Definition attempts_at (s : state) (k : string) : nat :=
  size (filter (λ p, i_task p.2 = k) (identities s)).

(** How often the history decided to retry the task. *)
Definition retries_of (cs : list Command) (k : string) : nat :=
  length (filter (λ c, c.(Command_Type) = CommandTaskRetry ∧ c.(Command_TaskID) = k) cs).

Lemma retries_of_app cs c k :
  retries_of (cs ++ [c]) k = retries_of cs k +
    (if decide (c.(Command_Type) = CommandTaskRetry ∧ c.(Command_TaskID) = k) then 1 else 0).
Proof.
  unfold retries_of. rewrite filter_app, length_app. f_equal. cbn. by case_decide.
Qed.

(** Only a retry of the task itself lowers its attempt count. *)
Lemma edges_count_mono c k t t' :
  rtc (task_edge c) t t' → t.(Task_ID) = k → (0 ≤ t.(Task_AttemptCount) ≤ MaxAttempts)%Z →
  ¬ (c.(Command_Type) = CommandTaskRetry ∧ c.(Command_TaskID) = k) →
  (t.(Task_AttemptCount) ≤ t'.(Task_AttemptCount))%Z.
Proof.
  induction 1 as [|t u t' He Hr IH]; [lia|]. intros Ek Hb Hn. etrans; [|apply IH; [|by eapply edge_count|done]].
  - unfold MaxAttempts in *. destruct He; unfold same_counts in *; destruct_and?; try lia.
    + match goal with H : Task_AttemptCount u = i64 _ |- _ => rewrite H end. rewrite i64_small; lia.
    + destruct Hn. split; congruence.
  - destruct He; unfold same_books in *; destruct_and?; congruence.
Qed.

Lemma attempts_at_none s k : coordinated s → s.(s_tasks) !! k = None → attempts_at s k = 0.
Proof.
  intros Hc Hk. unfold attempts_at. apply map_size_empty_iff, map_empty. intros j.
  apply map_lookup_filter_None. right. intros i Hj E. cbn in E.
  apply identities_lookup in Hj as (a & Ha & ->). apply (co_owner s Hc) in Ha. cbn in E.
  rewrite E, Hk in Ha. by destruct Ha.
Qed.

Lemma attempts_at_insert s s' id i k :
  identities s !! id = None → identities s' = <[id := i]> (identities s) →
  attempts_at s' k = attempts_at s k + (if decide (i_task i = k) then 1 else 0).
Proof.
  intros Hn E. unfold attempts_at. rewrite E. case_decide as Hk.
  - rewrite map_filter_insert_True by done. rewrite map_size_insert_None; [lia|].
    apply map_lookup_filter_None. by left.
  - rewrite map_filter_insert_False by done. rewrite delete_id by done. lia.
Qed.

Lemma reachable_budget cs s k t :
  reachable cs s → s.(s_tasks) !! k = Some t →
  (Z.of_nat (attempts_at s k) ≤ MaxAttempts * Z.of_nat (retries_of cs k) + t.(Task_AttemptCount))%Z.
Proof.
  intros Hr. revert k t. induction Hr as [|cs c s s' Hr IH H]; intros k t' Hk; [done|].
  pose proof (reachable_coordinated _ _ Hr) as Hc. rewrite retries_of_app.
  assert (0 ≤ t'.(Task_AttemptCount) ≤ MaxAttempts)%Z as Hb'.
  { eapply reachable_count; [by eapply R_step|done]. }
  unfold MaxAttempts in *.
  destruct (step_issues _ _ _ Hc H) as [_ E _|_ E _ _|spec t Hty Ht Hlt Etasks Hnew _ _ E _].
  - assert (attempts_at s' k = attempts_at s k) as -> by (unfold attempts_at; by rewrite E).
    destruct (reachable_evolves _ _ _ _ Hr H) as [_ He].
    destruct (He k t' Hk) as (t & [Ht|[Ht _]] & Hrtc); [|rewrite attempts_at_none by done; lia].
    specialize (IH k t Ht). pose proof (reachable_count _ _ _ _ Hr Ht) as Hb.
    unfold MaxAttempts in *. case_decide as Hd; [lia|].
    pose proof (edges_count_mono _ k _ _ Hrtc (proj1 (co_keyed s Hc) _ _ Ht) Hb Hd). lia.
  - by rewrite E, lookup_empty in Hk.
  - assert (identities s !! spec.(LeaseSpec_AttemptID) = None) as Hn.
    { unfold identities. by rewrite lookup_fmap, Hnew. }
    rewrite (attempts_at_insert _ _ _ _ k Hn E). cbn. rewrite Etasks, lookup_insert in Hk.
    rewrite (decide_False (P := _ ∧ _)) by (intros [E' _]; by rewrite E' in Hty).
    destruct (decide (t.(Task_ID) = k)) as [Ek|Ek].
    + injection Hk as <-. cbn in *. rewrite (proj1 (co_keyed s Hc) _ _ Ht) in Ek. subst k.
      specialize (IH _ t Ht). pose proof (reachable_count _ _ _ _ Hr Ht). unfold MaxAttempts in *.
      rewrite i64_small by lia. lia.
    + specialize (IH _ _ Hk). lia.
Qed.
