(* ===== verification/Readiness.v ===== *)
(** Readiness: a ready task has only passed prerequisites and a blocked task has
    one that has not passed, in every reachable state; so no task is stranded,
    and on an acyclic graph a blocked task always waits for one that can move. *)
From stdpp Require Import relations.
From S2P Require Import Prelude Protocol Validate Wellformed Spec Coordination.

(** Within a plan patch, a blocked task may be cleared before it is released:
    [strict] is false there. *)
Definition readiness (strict : bool) (s : state) : Prop :=
  ∀ k t, s.(s_tasks) !! k = Some t →
    (t.(Task_State) = TaskReady → cleared s.(s_tasks) s.(s_deps) k = true) ∧
    (strict = true → t.(Task_State) = TaskBlocked → cleared s.(s_tasks) s.(s_deps) k = false).

Lemma cleared_true tasks deps id :
  cleared tasks deps id = true ↔
  ∀ d, d ∈ deps → d.(Dependency_TaskID) = id → passed tasks d.(Dependency_DependsOn) = true.
Proof.
  unfold cleared. rewrite forallb_forall. setoid_rewrite <- list_elem_of_In.
  setoid_rewrite orb_true_iff. setoid_rewrite negb_true_iff. setoid_rewrite String.eqb_neq.
  split; intros H d Hd; [naive_solver|].
  destruct (String.eqb_spec d.(Dependency_TaskID) id); naive_solver.
Qed.

Lemma cleared_mono tasks tasks' deps id :
  (∀ k, passed tasks k = true → passed tasks' k = true) →
  cleared tasks deps id = true → cleared tasks' deps id = true.
Proof. rewrite !cleared_true. naive_solver. Qed.

Lemma readiness_weaken b s : readiness true s → readiness b s.
Proof. intros H k t Hk. destruct (H k t Hk). naive_solver. Qed.

Lemma passed_true tasks k : passed tasks k = true ↔ ∃ t, tasks !! k = Some t ∧ t.(Task_State) = TaskPassed.
Proof.
  unfold passed. destruct (tasks !! k) as [t|]; [|naive_solver]. rewrite String.eqb_eq. naive_solver.
Qed.

(** A task replaced without passing: nobody else's readiness changes. *)
Lemma readiness_put b s k t t' :
  readiness b s → s.(s_tasks) !! k = Some t → t'.(Task_ID) = k →
  (t'.(Task_State) == TaskPassed) = (t.(Task_State) == TaskPassed) →
  (t'.(Task_State) = TaskReady → cleared s.(s_tasks) s.(s_deps) k = true) →
  (b = true → t'.(Task_State) = TaskBlocked → cleared s.(s_tasks) s.(s_deps) k = false) →
  readiness b (put_task t' s).
Proof.
  intros Hr Hk <- Hp Hready Hblocked i u. cbn.
  rewrite (cleared_ext _ s.(s_tasks)) by (intros; by eapply passed_insert).
  rewrite lookup_insert. case_decide; subst; [|by apply Hr]. intros [= <-]. by split.
Qed.

Lemma readiness_new b s t :
  readiness b s → s.(s_tasks) !! t.(Task_ID) = None → t.(Task_State) ≠ TaskPassed →
  (t.(Task_State) = TaskReady → cleared s.(s_tasks) s.(s_deps) t.(Task_ID) = true) →
  (b = true → t.(Task_State) = TaskBlocked → cleared s.(s_tasks) s.(s_deps) t.(Task_ID) = false) →
  readiness b (put_task t s).
Proof.
  intros Hr Hk Hp Hready Hblocked i u. cbn.
  rewrite (cleared_ext _ s.(s_tasks)) by (intros; by eapply passed_insert_new).
  rewrite lookup_insert. case_decide; subst; [|by apply Hr]. intros [= <-]. by split.
Qed.

Lemma readiness_pass s t :
  readiness false s → t.(Task_State) = TaskPassed → readiness false (put_task t s).
Proof.
  intros Hr Ht i u. cbn. rewrite lookup_insert. intros Hi. split; [|done]. intros Hu.
  apply (cleared_mono s.(s_tasks)).
  - intros k. rewrite !passed_true, lookup_insert. intros (v & Hv & ?). destruct (decide (Task_ID t = k)); [by exists t|by exists v].
  - case_decide; simplify_eq; [by rewrite Ht in Hu|]. by apply (Hr i u).
Qed.

Lemma readiness_release s : keyed s → readiness false s → readiness true (release s).
Proof.
  intros (Hk & _) Hr i u. cbn. rewrite lookup_fmap, fmap_Some. intros (t & Ht & ->).
  rewrite (cleared_ext _ s.(s_tasks)) by apply release_passed.
  pose proof (Hk _ _ Ht) as E. destruct (Hr i t Ht) as [Hready _]. unfold release_task. rewrite E.
  destruct (String.eqb_spec (Task_State t) TaskBlocked) as [Hb|Hb]; cbn; [|by split].
  destruct (cleared _ _ i); cbn; [by split|]. by rewrite Hb.
Qed.

Lemma readiness_deps b s s' :
  s'.(s_tasks) = s.(s_tasks) →
  (∀ k t, s.(s_tasks) !! k = Some t → t.(Task_State) = TaskReady →
     cleared s.(s_tasks) s.(s_deps) k = true → cleared s.(s_tasks) s'.(s_deps) k = true) →
  (∀ k t, s.(s_tasks) !! k = Some t → b = true → t.(Task_State) = TaskBlocked →
     cleared s.(s_tasks) s.(s_deps) k = false → cleared s.(s_tasks) s'.(s_deps) k = false) →
  readiness b s → readiness b s'.
Proof.
  intros E Hd Hb Hr k t. rewrite E. intros Hk. destruct (Hr k t Hk) as [H1 H2]. split; intros.
  - apply (Hd k t); auto.
  - apply (Hb k t); auto.
Qed.

Lemma readiness_same b s s' :
  s'.(s_tasks) = s.(s_tasks) → s'.(s_deps) = s.(s_deps) → readiness b s → readiness b s'.
Proof. intros Et Ed. by apply readiness_deps; rewrite ?Ed. Qed.

(** The state an idle task settles in agrees with its prerequisites. *)
Lemma settle_ready s id : settle s id = TaskReady → cleared s.(s_tasks) s.(s_deps) id = true.
Proof. unfold settle. by destruct (cleared _ _ _). Qed.
Lemma settle_blocked s id : settle s id = TaskBlocked → cleared s.(s_tasks) s.(s_deps) id = false.
Proof. unfold settle. by destruct (cleared _ _ _). Qed.
Lemma settle_not_passed s id : settle s id ≠ TaskPassed.
Proof. unfold settle. by destruct (cleared _ _ _). Qed.

Lemma eqb_passed_false (st : TaskState) : st ≠ TaskPassed → (st == TaskPassed) = false.
Proof. apply String.eqb_neq. Qed.

(** Edits that leave the task outside the ready, blocked and passed states. *)
Lemma readiness_off b s k t t' :
  readiness b s → s.(s_tasks) !! k = Some t → t'.(Task_ID) = k → t.(Task_State) ≠ TaskPassed →
  t'.(Task_State) ≠ TaskPassed → t'.(Task_State) ≠ TaskReady → t'.(Task_State) ≠ TaskBlocked →
  readiness b (put_task t' s).
Proof. intros. eapply readiness_put; try done. by rewrite !eqb_passed_false. Qed.

Lemma readiness_settled b s k t t' :
  readiness b s → s.(s_tasks) !! k = Some t → t'.(Task_ID) = k → t.(Task_State) ≠ TaskPassed →
  t'.(Task_State) = settle s k → readiness b (put_task t' s).
Proof.
  intros Hr Hk Hid Ht Ht'. eapply readiness_put; try done; rewrite ?Ht'.
  - by rewrite !eqb_passed_false by (done || apply settle_not_passed).
  - apply settle_ready.
  - intros _. apply settle_blocked.
Qed.

Lemma cleared_app_other tasks deps d k :
  d.(Dependency_TaskID) ≠ k → cleared tasks (deps ++ [d]) k = cleared tasks deps k.
Proof.
  intros H. unfold cleared. rewrite forallb_app. cbn.
  by rewrite (proj2 (String.eqb_neq _ _) H), !andb_true_r.
Qed.

Lemma cleared_app_false tasks deps ds k :
  cleared tasks deps k = false → cleared tasks (deps ++ ds) k = false.
Proof. unfold cleared. rewrite forallb_app. by intros ->. Qed.

Lemma cleared_remove tasks deps1 d deps2 k :
  cleared tasks (deps1 ++ d :: deps2) k = true → cleared tasks (deps1 ++ deps2) k = true.
Proof. unfold cleared. rewrite !forallb_app. cbn. rewrite !andb_true_iff. tauto. Qed.

Lemma failed_task_off t class reason el :
  (failed_task t class reason el).(Task_State) = TaskRetryWait ∨
  (failed_task t class reason el).(Task_State) = TaskFailed.
Proof. unfold failed_task. destruct (retries _ _); cbn; auto. Qed.

Lemma working_not_passed t st : working t = Some st → t.(Task_State) ≠ TaskPassed.
Proof. unfold working. intros H E. by rewrite E in H. Qed.

Lemma readiness_failure b s k t a l class reason el :
  readiness b s → s.(s_tasks) !! k = Some t → t.(Task_ID) = k → t.(Task_State) ≠ TaskPassed →
  readiness b (record_failure t a l class reason el s).
Proof.
  intros Hr Hk Hid Ht.
  assert (readiness b (put_task (failed_task t class reason el) s)) as H; [|exact H].
  destruct (failed_task_off t class reason el) as [E|E];
    (eapply readiness_off; [done..|by rewrite failed_task_id|done| | |]); by rewrite E.
Qed.

Lemma readiness_patch_step id p s s' :
  keyed s → readiness false s → patch_step id p s s' → readiness false s'.
Proof.
  intros (Hk & _) Hr [spec _ _ _ Hnew t|t d _ Hd _ _ Ht _ Hp s1|deps1 d deps2 _ Hs _ _|t contract _ _ Ht Hp
    |t reason _ _ _ Ht _ Hp Hl|t reason _ Ht Hp].
  - apply readiness_new; [done|done|apply settle_not_passed| |done].
    intros Hs%settle_ready. rewrite <- Hs. symmetry. apply cleared_ext. intros. by apply passed_insert_new.
  - pose proof (Hk _ _ Ht) as Ek. intros i u Hi. split; [|done]. cbn.
    assert (Task_ID (reblock s1 t) = Task_ID t) as Er by (unfold reblock; by destruct (_ && _)).
    rewrite (cleared_ext _ s.(s_tasks)).
    2: { intros j. rewrite Er, Ek. eapply passed_insert; [done|]. unfold reblock.
         destruct (String.eqb_spec (Task_State t) TaskReady) as [E|]; cbn; [|done].
         destruct (cleared _ _ _); cbn; [done|by rewrite E]. }
    cbn in Hi. rewrite Er, Ek, lookup_insert in Hi. case_decide as Hi'.
    + injection Hi as <-. subst i. unfold reblock. cbn. rewrite Ek.
      destruct (String.eqb_spec (Task_State t) TaskReady) as [E|]; cbn; [|done].
      by destruct (cleared _ _ _).
    + intros Hu. rewrite cleared_app_other by congruence. by apply (Hr i u).
  - apply (readiness_deps false s); [done| |done|done]. intros k u _ _. cbn. rewrite Hs.
    apply cleared_remove.
  - eapply readiness_put; try done; [cbn; by eapply Hk|]. by apply (Hr _ t).
  - eapply readiness_off; [done|exact Ht|cbn; by eapply Hk|done..].
  - destruct (end_work_maps t s) as [Et Ed].
    eapply readiness_off; [by apply (readiness_same false s)|by rewrite Et|cbn; by eapply Hk|done..].
Qed.

Lemma readiness_patch_steps id ps s s' :
  coordinated s → readiness false s → patch_steps id ps s s' → readiness false s'.
Proof.
  intros Hc Hr H. induction H as [|p ps s1 s2 s3 Hp _ IH]; [done|].
  apply IH; [by eapply coordinated_patch_step|]. eapply readiness_patch_step; eauto with ago.
Qed.

Lemma readiness_step c s s' : coordinated s → readiness true s → step c s s' → readiness true s'.
Proof.
  intros Hc Hr H. pose proof (λ k t, task_id_of s k t Hc) as Hk. destruct H.
  - intros k t. cbn. by rewrite lookup_empty.
  - by apply readiness_new.
  - apply (readiness_deps true s); [done|..|done]; cbn; intros k u Hu.
    + intros Hst. rewrite cleared_app_other; [done|]. intros <-. simplify_eq.
      by match goal with E : Task_State _ = TaskPlanned |- _ => rewrite E in Hst end.
    + intros _ _. apply cleared_app_false.
  - eapply readiness_settled; [done..|cbn; by eapply Hk| |]; [by rewrite H1|].
    cbn. by rewrite (Hk _ _ H0).
  - assert (readiness true (put_task (leased_task t spec) s)) as Hr'; [|exact Hr'].
    eapply readiness_off; [done..|cbn; by eapply Hk| |done|done|done]. by destruct H5 as [-> | [-> _]].
  - assert (readiness true (put_task (t <| Task_State := TaskRunning |>) s)) as Hr'; [|exact Hr'].
    destruct H0 as (_ & Ht & _). eapply readiness_off; [done..|cbn; by eapply Hk| |done|done|done].
    by rewrite H1.
  - assert (readiness true (put_task (t <| Task_State := TaskVerifying |>) s)) as Hr'; [|exact Hr'].
    destruct H0 as (_ & Ht & _). eapply readiness_off; [done..|cbn; by eapply Hk| |done|done|done].
    by rewrite H1.
  - destruct (deciding_active _ _ _ _ _ _ Hc H0) as (Hw & _).
    destruct H0 as (_ & Ht & _). subst s'. unfold settled.
    destruct (EvidenceResult_Patch _); cbn [String.eqb].
    + match goal with |- context [put_task ?u] =>
        assert (readiness true (put_task u s)) as Hr'; [|exact Hr'] end.
      eapply readiness_off; [done|exact Ht|cbn; by eapply Hk|by eapply working_not_passed|done..].
    + apply readiness_release.
      { auto 6 with ago. }
      match goal with |- context [put_task ?u] =>
        assert (readiness false (put_task u s)) as Hr'; [|exact Hr'] end.
      apply readiness_pass; [by apply readiness_weaken|done].
  - destruct (deciding_active _ _ _ _ _ _ Hc H0) as (Hw & _). destruct H0 as (_ & Ht & _).
    assert (readiness true (record_failure t a l class c.(Command_Reason) c.(Command_NextEligibleAt) s))
      as Hr'; [|exact Hr'].
    eapply readiness_failure; [done..|cbn; by eapply Hk|by eapply working_not_passed].
  - destruct H0 as (_ & Ht & _).
    eapply readiness_failure; [done..|cbn; by eapply Hk|]. by destruct H1 as [-> | ->].
  - destruct (lease_active s _ l t a Hc H1) as (st & Hw & Hact); try done.
    eapply readiness_failure; [done..|cbn; by eapply Hk|by eapply working_not_passed].
  - done.
  - eapply readiness_settled; [done..|cbn; by eapply Hk| |].
    + by destruct H2 as [-> | [-> | ->]].
    + cbn. by rewrite (Hk _ _ H1).
  - apply readiness_release.
    + eapply co_keyed, coordinated_patch_steps; done.
    + eapply readiness_patch_steps; [done|by apply readiness_weaken|done].
  - assert (readiness true (put_task t' s)) as Hr'; [|exact Hr'].
    assert (t'.(Task_State) = t.(Task_State) ∧ t'.(Task_ID) = t.(Task_ID)) as [E1 E2]
      by (subst t'; by case_match).
    eapply readiness_off; [done|exact H3|rewrite E2; by eapply Hk|..]; by rewrite ?E1, H4.
  - eapply readiness_off; [done..|cbn; by eapply Hk| |done|done|done]. by rewrite H1.
  - apply readiness_release.
    { match goal with |- keyed (setf _ _ ?x) => assert (keyed x) as Hx by auto with ago; exact Hx end. }
    match goal with |- context [put_task ?u] =>
      assert (readiness false (put_task u s)) as Hr'; [|exact Hr'] end.
    apply readiness_pass; [by apply readiness_weaken|done].
  - done.
  - done.
  - done.
  - done.
Qed.

Lemma reachable_readiness cs s : reachable cs s → readiness true s.
Proof.
  induction 1 as [|cs c s s' Hr IH Hs].
  - intros k t. cbn. by rewrite lookup_empty.
  - eapply readiness_step; [by eapply reachable_coordinated|done|done].
Qed.

(** * No deadlock among blocked tasks *)

Lemma cleared_false tasks deps id :
  cleared tasks deps id = false →
  ∃ d, d ∈ deps ∧ d.(Dependency_TaskID) = id ∧ passed tasks d.(Dependency_DependsOn) = false.
Proof.
  unfold cleared. induction deps as [|d deps IH]; cbn; [done|].
  destruct (String.eqb_spec d.(Dependency_TaskID) id) as [E|E]; cbn.
  - destruct (passed tasks _) eqn:Hp; cbn.
    + intros (x & ? & ?)%IH. exists x. split; [by right|done].
    + intros _. exists d. split; [by left|done].
  - intros (x & ? & ?)%IH. exists x. split; [by right|done].
Qed.

(** Following unpassed prerequisites from a blocked task ends at one that is
    neither blocked nor passed. *)
Lemma blocked_frontier s order k t :
  readiness true s → closed order s.(s_deps) → acyclic s.(s_deps) →
  (∀ x y, edge s.(s_deps) x y → is_Some (s.(s_tasks) !! y)) →
  s.(s_tasks) !! k = Some t → t.(Task_State) = TaskBlocked →
  ∃ k' t', tc (edge s.(s_deps)) k k' ∧ s.(s_tasks) !! k' = Some t' ∧
    t'.(Task_State) ≠ TaskPassed ∧ t'.(Task_State) ≠ TaskBlocked.
Proof.
  intros Hr Hcl Hac Hex. revert t. induction (acyclic_Acc _ _ k Hcl Hac) as [k _ IH]. intros t Hk Hb.
  destruct (Hr k t Hk) as [_ Hf]. destruct (cleared_false _ _ _ (Hf eq_refl Hb)) as (d & Hd & <- & Hp).
  assert (edge s.(s_deps) d.(Dependency_TaskID) d.(Dependency_DependsOn)) as He by by exists d.
  destruct (Hex _ _ He) as [u Hu].
  assert (u.(Task_State) ≠ TaskPassed) as Hnp.
  { intros E. unfold passed in Hp. by rewrite Hu, E in Hp. }
  destruct (decide (u.(Task_State) = TaskBlocked)) as [E|E].
  - destruct (IH _ He u Hu E) as (k' & t' & Htc & ? & ?). exists k', t'. split; [by eapply tc_l|done].
  - exists d.(Dependency_DependsOn), u. split_and!; try done. by apply tc_once.
Qed.
