(* ===== verification/Refine.v ===== *)
(** The refinement: every command [Apply] accepts is a [step] of the abstract
    specification between the abstractions of the two boards. *)
From S2P Require Import Prelude Protocol Validate StateMachine Apply Spec.

Definition abs (b : Board) : state :=
  mkState b.(Board_ID) (by_key Task_ID b.(Board_Tasks)) b.(Board_Dependencies)
    (by_key Attempt_ID b.(Board_Attempts)) (by_key Lease_ID b.(Board_Leases))
    (by_key Evidence_ID b.(Board_Evidence)) b.(Board_NextGeneration) b.(Board_Paused)
    b.(Board_IntegratedRevision) b.(Board_Gate).

(** * Clones are identities on values *)

Lemma cloneContract_id c : cloneContract c = c.
Proof. by destruct c. Qed.

Lemma cloneEvidenceResult_id r : cloneEvidenceResult r = r.
Proof. by destruct r. Qed.

Lemma map_id_on {A} (f : A → A) (l : list A) : (∀ x, f x = x) → f <$> l = l.
Proof. intros Hf. induction l as [|x l IH]; [done|]. rewrite fmap_cons, Hf. by f_equal. Qed.

Lemma cloneBoard_id b : cloneBoard b = b.
Proof.
  unfold cloneBoard. cbn. rewrite !map_id_on.
  - by destruct b.
  - intros e. rewrite cloneEvidenceResult_id. by destruct e.
  - intros t. rewrite cloneContract_id. by destruct t.
Qed.

(** * Indexed updates, as updates of the finite maps *)

Section updates.
Context {A : Type} (key : A → string).

Lemma by_key_alter k f l i x :
  at_key key k l i x → key (f x) = k →
  by_key key (alter f (Z.to_nat i) l) = <[k := f x]> (by_key key l).
Proof. intros. by eapply alter_at_key. Qed.

Lemma at_key_alter k f l i x :
  at_key key k l i x → key (f x) = k → at_key key k (alter f (Z.to_nat i) l) i (f x).
Proof. intros. by eapply alter_at_key. Qed.

Lemma get_at_key k l i x y : at_key key k l i x → get_at i l = Ok y → y = x.
Proof. intros H. erewrite at_key_get by done. by intros [= <-]. Qed.

Lemma at_key_key k l i x : at_key key k l i x → key x = k.
Proof. by intros (_ & _ & ? & _). Qed.
End updates.

Lemma setTask_inv b i f b' k t :
  at_key Task_ID k b.(Board_Tasks) i t → setTask b i f = Ok b' →
  b' = b <| Board_Tasks := alter f (Z.to_nat i) b.(Board_Tasks) |>.
Proof. intros Ht. unfold setTask. erewrite update_at_Ok by done. by intros [= <-]. Qed.

Lemma setAttempt_inv b i f b' k t :
  at_key Attempt_ID k b.(Board_Attempts) i t → setAttempt b i f = Ok b' →
  b' = b <| Board_Attempts := alter f (Z.to_nat i) b.(Board_Attempts) |>.
Proof. intros Ht. unfold setAttempt. erewrite update_at_Ok by done. by intros [= <-]. Qed.

Lemma setLease_inv b i f b' k t :
  at_key Lease_ID k b.(Board_Leases) i t → setLease b i f = Ok b' →
  b' = b <| Board_Leases := alter f (Z.to_nat i) b.(Board_Leases) |>.
Proof. intros Ht. unfold setLease. erewrite update_at_Ok by done. by intros [= <-]. Qed.

Lemma setEvidence_inv b i f b' k t :
  at_key Evidence_ID k b.(Board_Evidence) i t → setEvidence b i f = Ok b' →
  b' = b <| Board_Evidence := alter f (Z.to_nat i) b.(Board_Evidence) |>.
Proof. intros Ht. unfold setEvidence. erewrite update_at_Ok by done. by intros [= <-]. Qed.

(** Searches of the context turned into positions, with the keys they carry. *)
Ltac found :=
  repeat match goal with
  | H : findTask ?b ?k = (_, ?t, true) |- _ =>
      apply findBy_found in H; pose proof (at_key_key _ _ _ _ _ H)
  | H : findAttempt ?b ?k = (_, _, true) |- _ =>
      apply findBy_found in H; pose proof (at_key_key _ _ _ _ _ H)
  | H : findLease ?b ?k = (_, _, true) |- _ =>
      apply findBy_found in H; pose proof (at_key_key _ _ _ _ _ H)
  | H : findEvidence ?b ?k = (_, _, true) |- _ =>
      apply findBy_found in H; pose proof (at_key_key _ _ _ _ _ H)
  | H : findTask ?b ?k = (_, _, false) |- _ => apply findBy_missing in H as (? & -> & ->)
  | H : findAttempt ?b ?k = (_, _, false) |- _ => apply findBy_missing in H as (? & -> & ->)
  | H : findLease ?b ?k = (_, _, false) |- _ => apply findBy_missing in H as (? & -> & ->)
  | H : findEvidence ?b ?k = (_, _, false) |- _ => apply findBy_missing in H as (? & -> & ->)
  end.

(** The position of an element after the updates made so far. *)
Ltac keyed := cbn; rewrite ?failed_task_id; first [done | eassumption | by eapply at_key_key].
Ltac positioned :=
  cbn;
  first
    [ eassumption
    | eapply at_key_alter; [positioned | keyed]
    | eapply at_key_app; positioned ].

Ltac updated :=
  repeat match goal with
  | H : setTask _ _ _ = Ok ?b |- _ => eapply setTask_inv in H; [subst b | positioned]
  | H : setAttempt _ _ _ = Ok ?b |- _ => eapply setAttempt_inv in H; [subst b | positioned]
  | H : setLease _ _ _ = Ok ?b |- _ => eapply setLease_inv in H; [subst b | positioned]
  | H : setEvidence _ _ _ = Ok ?b |- _ => eapply setEvidence_inv in H; [subst b | positioned]
  end.

Ltac read :=
  repeat match goal with
  | H : taskAt _ _ = Ok ?x |- _ => eapply (get_at_key Task_ID) in H; [|positioned]; subst x
  | H : attemptAt _ _ = Ok ?x |- _ => eapply (get_at_key Attempt_ID) in H; [|positioned]; subst x
  | H : leaseAt _ _ = Ok ?x |- _ => eapply (get_at_key Lease_ID) in H; [|positioned]; subst x
  | H : evidenceAt _ _ = Ok ?x |- _ => eapply (get_at_key Evidence_ID) in H; [|positioned]; subst x
  end.

(** The guard of a loop over the existing entities: no two share an id. *)
Lemma guarded_fresh {A} (key : A → string) k (e : A → error) (g : A → result unit) l :
  Forall (λ x, fail_if (key x == k) (e x) ≫= (λ _, g x) = Ok ()) l →
  by_key key l !! k = None ∧ Forall (λ x, g x = Ok ()) l.
Proof.
  intros H. rewrite by_key_None. split; (eapply Forall_impl; [exact H|]); intros x Hx; cbn in Hx;
    inv_ok; done.
Qed.

Lemma guarded_token {A} (key : A → string) k (e : A → error) l :
  Forall (λ x, fail_if (key x == k) (e x) = Ok ()) l → Forall (λ x, key x ≠ k) l.
Proof. intros H. eapply Forall_impl; [exact H|]. intros x Hx; cbn in Hx. by inv_ok. Qed.

Lemma by_key_Forall {A} (key : A → string) (P : A → Prop) l k x :
  Forall P l → by_key key l !! k = Some x → P x.
Proof. rewrite Forall_forall. intros HP Hx. apply HP. by apply by_key_Some in Hx as [? _]. Qed.

(** Searches on a working copy, from the positions on the first board. *)
Ltac locate_with H K :=
  eapply (findBy_at_key_inv K) in H; [|positioned]; destruct H as (-> & -> & ->).
Ltac located :=
  repeat match goal with
  | H : findTask _ _ = (_, _, ?f) |- _ => is_var f; locate_with H Task_ID
  | H : findAttempt _ _ = (_, _, ?f) |- _ => is_var f; locate_with H Attempt_ID
  | H : findLease _ _ = (_, _, ?f) |- _ => is_var f; locate_with H Lease_ID
  | H : findEvidence _ _ = (_, _, ?f) |- _ => is_var f; locate_with H Evidence_ID
  end; cbn match in *.

(** Two positions of the same key are one. *)
Ltac same :=
  repeat match goal with
  | H1 : at_key ?K ?k ?l ?i ?x, H2 : at_key ?K ?k ?l ?j ?y |- _ =>
      destruct (at_key_unique _ _ _ _ _ _ _ H1 H2) as [-> ->]; clear H2
  end.

Lemma taskFor_at_key b k i t : at_key Task_ID k b.(Board_Tasks) i t → taskFor b k = t.
Proof. intros H. unfold taskFor, findTask. by rewrite (findBy_at_key _ _ _ _ _ _ H). Qed.

Lemma transitionAttempt_inv b c ft tt fa ta b' :
  transitionAttempt b c ft tt fa ta = Ok b' →
  ∃ i t j a k l, at_key Task_ID c.(Command_TaskID) b.(Board_Tasks) i t ∧
    at_key Attempt_ID c.(Command_AttemptID) b.(Board_Attempts) j a ∧
    at_key Lease_ID t.(Task_ActiveLeaseID) b.(Board_Leases) k l ∧
    t.(Task_State) = ft ∧ t.(Task_ActiveAttemptID) = c.(Command_AttemptID) ∧
    a.(Attempt_State) = fa ∧ a.(Attempt_WorkerID) = c.(Command_Actor).(Actor_ID) ∧
    l.(Lease_State) = LeaseActive ∧ l.(Lease_WorkerID) = c.(Command_Actor).(Actor_ID) ∧
    b' = b <| Board_Tasks := alter (λ t, t <| Task_State := tt |>) (Z.to_nat i) b.(Board_Tasks) |>
           <| Board_Attempts := alter (λ a, a <| Attempt_State := ta |>) (Z.to_nat j) b.(Board_Attempts) |>.
Proof.
  intros H. unfold transitionAttempt in H. inv_ok. found. inv_bool. updated.
  by eexists _, _, _, _, _, _.
Qed.

(** The shared failure path, as one update of each of its three entities. *)
Lemma recordAttemptFailure_inv b i j k class reason el b' kt t ka a kl l :
  recordAttemptFailure b i j k class reason el = Ok b' →
  at_key Task_ID kt b.(Board_Tasks) i t → at_key Attempt_ID ka b.(Board_Attempts) j a →
  at_key Lease_ID kl b.(Board_Leases) k l →
  failure_ok t class el ∧
  b' = b <| Board_Attempts := alter (λ a, failed_attempt a class reason) (Z.to_nat j) b.(Board_Attempts) |>
         <| Board_Leases := alter completed (Z.to_nat k) b.(Board_Leases) |>
         <| Board_Tasks := alter (λ t, failed_task t class reason el) (Z.to_nat i) b.(Board_Tasks) |>.
Proof.
  intros H Ht Ha Hl. unfold recordAttemptFailure in H. inv_ok. updated.
  unfold taskAt in *. erewrite at_key_get in * by done. inv_pairs. split.
  - unfold failure_ok, retries, Time_IsZero in *. split_and!; try done. intros Hr.
    rewrite Hr in *. cbn in *. by inv_bool.
  - cbn. f_equal. apply list_alter_ext; [|done]. intros t' Ht'. destruct Ht as (_ & Ht & _).
    cbn in Ht'. rewrite Ht in Ht'. injection Ht' as <-.
    unfold failed_task, retries. by destruct (_ && _), (FailureClass_Retryable class).
Qed.

Ltac failure :=
  match goal with
  | H : recordAttemptFailure _ _ _ _ _ _ _ = Ok _ |- _ =>
      eapply recordAttemptFailure_inv in H; [|positioned..]; destruct H as [? ->]
  end.

Ltac transition :=
  match goal with
  | H : transitionAttempt _ _ _ _ _ _ = _ |- _ =>
      apply transitionAttempt_inv in H
        as (? & ? & ? & ? & ? & ? & ? & ? & ? & ? & ? & ? & ? & ? & ? & ->)
  end; same.

(** The handler run down to its guards and its final working copy. *)
Ltac run h :=
  match goal with
  | H : h _ _ = Ok _ |- _ => unfold h in H
  end;
  unfold requireRole, requireInitialized, requireFencingToken in *; inv_ok; found; inv_bool.

(** The finite maps of the final board, as updates of those of the first. *)
Ltac maps :=
  rewrite ?cloneContract_id, ?cloneEvidenceResult_id;
  repeat first
    [ erewrite by_key_alter by (first [positioned | keyed])
    | rewrite by_key_app_fresh by (cbn; eassumption)
    | rewrite insert_insert_eq ].

Ltac keys :=
  rewrite ?failed_task_id;
  repeat match goal with
  | E : Task_ID ?t = _ |- context [Task_ID ?t] => rewrite E
  | E : Attempt_ID ?t = _ |- context [Attempt_ID ?t] => rewrite E
  | E : Lease_ID ?t = _ |- context [Lease_ID ?t] => rewrite E
  | E : Evidence_ID ?t = _ |- context [Evidence_ID ?t] => rewrite E
  end.

Lemma step_to c s s1 s2 : step c s s1 → s1 = s2 → step c s s2.
Proof. by intros ? <-. Qed.

Ltac side1 :=
  cbn; first [ done | eassumption | by eapply at_key_lookup | eexists; by eapply at_key_lookup
             | congruence | lia | idtac ].
Ltac side := cbn; unfold of_type, by_role, executing, deciding, fenced; split_and?; side1.
Ltac abs_eq :=
  unfold abs; autounfold with spec; cbn; f_equal; maps; keys; f_equal; try done; try keyed.
(** Case analysis on the comparisons a guard makes. *)
Ltac eqb_cases :=
  repeat match goal with
  | H : context [String.eqb ?a ?b] |- _ => destruct (String.eqb_spec a b); cbn in H
  end; try done.

(** * Dependencies *)

Lemma dependenciesPassed_cleared b id :
  dependenciesPassed b id = cleared (by_key Task_ID b.(Board_Tasks)) b.(Board_Dependencies) id.
Proof.
  unfold dependenciesPassed, cleared.
  induction b.(Board_Dependencies) as [|d ds IH]; [done|]. cbn. rewrite IH. f_equal.
  unfold passed, findTask.
  pose proof (findBy_lookup Task_ID Task_zero d.(Dependency_DependsOn) b.(Board_Tasks)) as Hf.
  destruct (findBy _ _ _ _) as [[i t] fd].
  destruct (String.eqb _ id); cbn; [|done].
  destruct Hf as [[-> ->]|(-> & -> & ->)]; cbn; [|done]. by rewrite negb_involutive.
Qed.

Lemma passed_Forall2 l l' id :
  Forall2 (λ t t', Task_ID t = Task_ID t' ∧
    (Task_State t == TaskPassed) = (Task_State t' == TaskPassed)) l l' →
  passed (by_key Task_ID l) id = passed (by_key Task_ID l') id.
Proof.
  induction 1 as [|t t' l l' [Hid Ht] _ IH]; [done|].
  unfold passed in *. rewrite !by_key_cons, Hid, !lookup_insert. by case_decide.
Qed.

(** One iteration releases exactly the task at its position. *)
Lemma unblockAt_inv c b es j b' es' t :
  b.(Board_Tasks) !! j = Some t →
  unblockAt c (b, es) j = Ok (b', es') →
  ∃ v, b' = b <| Board_Tasks := alter (release_task (abs b)) j b.(Board_Tasks) |>
              <| Board_Version := v |>.
Proof.
  intros Ht. unfold unblockAt, taskAt, get_at, setTask, update_at.
  destruct (Z.ltb_spec (Z.of_nat j) 0); [lia|]. rewrite Nat2Z.id, Ht. cbn.
  rewrite dependenciesPassed_cleared.
  destruct (_ && _) eqn:Hc; cbn.
  - rewrite list_lookup_alter_eq, Ht. cbn. intros [= <- <-]. eexists. f_equal.
    apply list_alter_ext; [|done]. intros t' Ht'. simplify_eq. unfold release_task. cbn. by rewrite Hc.
  - intros [= <- <-]. exists b.(Board_Version). destruct b; cbn in *. f_equal.
    apply list_eq. intros i. rewrite list_lookup_alter. case_decide; [subst|done].
    rewrite Ht. unfold release_task. cbn. by rewrite Hc.
Qed.

Lemma release_task_ext s1 s2 t :
  s_deps s1 = s_deps s2 → (∀ id, passed (s_tasks s1) id = passed (s_tasks s2) id) →
  release_task s1 t = release_task s2 t.
Proof. intros Hd Hp. unfold release_task. by rewrite Hd, (cleared_ext _ _ _ _ Hp). Qed.

Lemma passed_alter_release s l j id :
  passed (by_key Task_ID (alter (release_task s) j l)) id = passed (by_key Task_ID l) id.
Proof.
  apply passed_Forall2. revert j.
  induction l as [|t l IH]; intros [|j]; [constructor..| |]; apply Forall2_cons_2.
  - by rewrite release_task_id, release_task_passed.
  - clear. induction l; by constructor.
  - done.
  - apply IH.
Qed.

Lemma unblock_loop c s n j b es b' es' :
  s_deps s = b.(Board_Dependencies) →
  (∀ id, passed (s_tasks s) id = passed (by_key Task_ID b.(Board_Tasks)) id) →
  length b.(Board_Tasks) = j + n →
  for_each (unblockAt c) (b, es) (seq j n) = Ok (b', es') →
  ∃ v, b' = b <| Board_Tasks := take j b.(Board_Tasks) ++
                   (release_task s <$> drop j b.(Board_Tasks)) |>
              <| Board_Version := v |>.
Proof.
  revert j b es. induction n as [|n IH]; intros j b es Hd Hp Hlen; cbn [seq for_each].
  - intros [= <- <-]. exists b.(Board_Version). destruct b; cbn in *. f_equal.
    rewrite take_ge, drop_ge by lia. by rewrite app_nil_r.
  - intros H. inv_ok. destruct (lookup_lt_is_Some_2 b.(Board_Tasks) j) as [t Ht]; [lia|].
    match goal with H : unblockAt _ _ _ = Ok ?w |- _ => destruct w as [b1 es1];
      destruct (unblockAt_inv _ _ _ _ _ _ _ Ht H) as [v ->] end.
    assert (∀ t, release_task (abs b) t = release_task s t) as Hr
      by (intros; apply release_task_ext; naive_solver).
    apply IH in H as [v' ->]; cbn.
    + exists v'. destruct b; cbn in *. f_equal.
      rewrite (take_S_r _ _ (release_task s t))
        by (rewrite list_lookup_alter_eq, Ht; cbn; by rewrite Hr).
      rewrite take_alter, drop_alter, (drop_S _ t j), !decide_False by (done || lia).
      by rewrite <- app_assoc.
    + done.
    + intros id. rewrite Hp. symmetry. apply passed_alter_release.
    + rewrite length_alter. lia.
Qed.

Lemma by_key_release s l : by_key Task_ID (release_task s <$> l) = release_task s <$> by_key Task_ID l.
Proof. apply by_key_map, release_task_id. Qed.

Lemma unblockReadyTasks_release c b es b' es' :
  unblockReadyTasks c (b, es) = Ok (b', es') → abs b' = release (abs b).
Proof.
  intros H. remember (abs b) as s eqn:Es.
  eapply (unblock_loop c s) in H as [v ->]; [|by subst s..].
  rewrite take_0, drop_0, app_nil_l. unfold abs. cbn [Board_Tasks setf].
  rewrite by_key_release. by rewrite Es.
Qed.

