(* ===== verification/Simulation.v ===== *)
(** The simulation between [Apply] and the abstract specification, and a small board that
    is driven through its whole life. *)
From S2P Require Import Prelude Protocol Validate StateMachine Apply Spec Coordination Refine.

(** The simulation: every command [Apply] accepts is a [step] of the abstract
    specification, handler by handler. *)

(** * The handlers *)

Lemma newProjectGate_pending commands : ProjectGate_State (newProjectGate commands) ≠ GatePassed.
Proof. unfold newProjectGate. by destruct (_ =? _)%nat. Qed.

Lemma refine_create b c b' es :
  applyBoardCreate b c = Ok (b', es) → c.(Command_Type) = CommandBoardCreate → step c (abs b) (abs b').
Proof.
  intros H Hty. run applyBoardCreate.
  eapply step_to; [eapply S_create; side | abs_eq]. apply newProjectGate_pending.
Qed.

Lemma refine_task_add b c b' es :
  applyTaskAdd b c = Ok (b', es) → c.(Command_Type) = CommandTaskAdd → step c (abs b) (abs b').
Proof.
  intros H Hty. run applyTaskAdd.
  eapply step_to; [eapply S_task_add; side | abs_eq].
Qed.

Lemma refine_dependency_add b c b' es :
  applyDependencyAdd b c = Ok (b', es) → c.(Command_Type) = CommandDependencyAdd →
  step c (abs b) (abs b').
Proof.
  intros H Hty. run applyDependencyAdd.
  eapply step_to; [eapply (S_dependency_add _ _ (mkDependency _ _ _)); side | abs_eq].
Qed.

Lemma refine_activate b c b' es :
  applyTaskActivate b c = Ok (b', es) → c.(Command_Type) = CommandTaskActivate →
  step c (abs b) (abs b').
Proof.
  intros H Hty. run applyTaskActivate. updated. read.
  eapply step_to; [eapply S_activate; side | abs_eq].
  unfold settle. cbn. rewrite dependenciesPassed_cleared. by destruct (cleared _ _ _).
Qed.

Lemma refine_acquire b c b' es :
  applyLeaseAcquire b c = Ok (b', es) → c.(Command_Type) = CommandLeaseAcquire →
  step c (abs b) (abs b').
Proof.
  intros H Hty. run applyLeaseAcquire. updated. read.
  apply guarded_fresh in H10 as [? H10%guarded_token], H11 as [? H11%guarded_token].
  eapply step_to; [eapply S_acquire; side | abs_eq].
  - eqb_cases; auto. right. split; [done|]. unfold Time_Before in *. lia.
  - split; intros ??; cbn; [apply (by_key_Forall _ _ _ _ _ H10) | apply (by_key_Forall _ _ _ _ _ H11)].
  - unfold expiryUTC, Time_IsZero, Time_UTC. destruct (Z.eqb_spec (LeaseSpec_ExpiresAt x1) 0) as [->|]; done.
Qed.

Lemma refine_start b c b' es :
  applyAttemptStart b c = Ok (b', es) → c.(Command_Type) = CommandAttemptStart →
  step c (abs b) (abs b').
Proof.
  intros H Hty. run applyAttemptStart. transition.
  eapply step_to; [eapply S_start; side | abs_eq]; keyed.
Qed.

Lemma refine_submit b c b' es :
  applyEvidenceSubmit b c = Ok (b', es) → c.(Command_Type) = CommandEvidenceSubmit →
  step c (abs b) (abs b').
Proof.
  intros H Hty. run applyEvidenceSubmit. transition.
  match goal with H : Forall _ (Board_Evidence _) |- _ =>
    cbn [Board_Evidence setf] in H; apply guarded_token, by_key_None in H end.
  match goal with H : findLease _ (Task_ActiveLeaseID (taskFor _ _)) = _ |- _ =>
    erewrite taskFor_at_key in H by positioned end.
  located. updated. located. updated.
  eapply step_to; [eapply S_submit; side | abs_eq].
Qed.

(** The guards of a verdict, as the relation [deciding]. *)
Lemma decisionGuards_inv b c i t j a k e n :
  decisionGuards b c = Ok ((i, t), (j, a), (k, e), n) →
  by_role c RoleVerifier ∧ ∃ l, deciding c (abs b) t a e l ∧
  at_key Task_ID c.(Command_TaskID) b.(Board_Tasks) i t ∧
  at_key Attempt_ID c.(Command_AttemptID) b.(Board_Attempts) j a ∧
  at_key Evidence_ID a.(Attempt_EvidenceID) b.(Board_Evidence) k e ∧
  at_key Lease_ID t.(Task_ActiveLeaseID) b.(Board_Leases) n l.
Proof.
  intros H. unfold decisionGuards, requireRole, requireFencingToken in H. inv_ok. found. inv_bool. same.
  split; [done|]. eexists. split_and!; try side; try congruence.
  match goal with H : Attempt_EvidenceID a = _ |- _ => rewrite H end. by eapply at_key_lookup.
Qed.

Lemma unblock_emit c e b es0 b' es :
  unblockReadyTasks c (emit c e (b, es0)) = Ok (b', es) → abs b' = release (abs b).
Proof. intros H. apply unblockReadyTasks_release in H. exact H. Qed.

Lemma no_failed_tests r : length (FailedRequiredTests r) ≤ 0 → RequiredTestsPassed r = true.
Proof.
  unfold FailedRequiredTests, RequiredTestsPassed. rewrite length_fmap.
  induction (EvidenceResult_Tests r) as [|x l IH]; [done|]. cbn.
  destruct (_ && _); cbn; [lia|done].
Qed.

Ltac verdict :=
  match goal with
  | H : decisionGuards _ _ = _ |- _ => apply decisionGuards_inv in H as (? & ? & ? & ? & ? & ? & ?)
  end; subst.

Lemma refine_accept b c b' es :
  applyEvidenceAccept b c = Ok (b', es) → c.(Command_Type) = CommandEvidenceAccept →
  step c (abs b) (abs b').
Proof.
  intros H Hty. run applyEvidenceAccept. verdict. updated.
  assert (RequiredTestsPassed (Evidence_Result e) = true) by by apply no_failed_tests.
  eapply step_to; [eapply S_accept; [by split|eassumption|done|reflexivity]|].
  destruct (EvidenceResult_Patch _); cbn in *.
  - inv_pairs. abs_eq.
  - apply unblockReadyTasks_release in H as ->. f_equal. abs_eq.
Qed.

Lemma refine_reject b c b' es :
  applyEvidenceReject b c = Ok (b', es) → c.(Command_Type) = CommandEvidenceReject →
  step c (abs b) (abs b').
Proof.
  intros H Hty. run applyEvidenceReject. verdict. failure. updated.
  eapply step_to; [eapply S_reject; [by split|eassumption|done]| abs_eq].
Qed.

Lemma refine_fail b c b' es :
  applyAttemptFail b c = Ok (b', es) → c.(Command_Type) = CommandAttemptFail →
  step c (abs b) (abs b').
Proof.
  intros H Hty. run applyAttemptFail. same. failure.
  eapply step_to; [eapply S_fail; side | abs_eq]. eqb_cases; auto.
Qed.

Lemma refine_expire b c b' es :
  applyLeaseExpire b c = Ok (b', es) → c.(Command_Type) = CommandLeaseExpire →
  step c (abs b) (abs b').
Proof.
  intros H Hty. run applyLeaseExpire. failure.
  eapply step_to; [eapply S_expire; side | abs_eq].
Qed.

Lemma refine_renew b c b' es :
  applyLeaseRenew b c = Ok (b', es) → c.(Command_Type) = CommandLeaseRenew →
  step c (abs b) (abs b').
Proof.
  intros H Hty. run applyLeaseRenew. updated.
  eapply step_to; [eapply S_renew; side | abs_eq].
  unfold Time_After, Time_IsZero in *.
  destruct (Z.ltb_spec (Lease_ExpiresAt l) (LeaseSpec_ExpiresAt x0)); [by left|].
  destruct (Z.eqb_spec (Lease_ExpiresAt l) 0); [by right|done].
Qed.

Lemma refine_retry b c b' es :
  applyTaskRetry b c = Ok (b', es) → c.(Command_Type) = CommandTaskRetry →
  step c (abs b) (abs b').
Proof.
  intros H Hty. run applyTaskRetry. updated.
  eapply step_to; [eapply S_retry; side | abs_eq]; [by eqb_cases; auto|].
  cbn. f_equal. unfold settle. rewrite dependenciesPassed_cleared. cbn.
  erewrite by_key_alter by (first [positioned | keyed]).
  erewrite (cleared_ext (<[_ := _]> _)) by (intros; eapply passed_insert; [by eapply at_key_lookup|done]).
  by destruct (cleared _ _ _).
Qed.

Lemma refine_defer b c b' es :
  applyVerificationDeferred b c = Ok (b', es) → c.(Command_Type) = CommandVerificationDeferred →
  step c (abs b) (abs b').
Proof.
  intros H Hty. run applyVerificationDeferred. updated. read.
  eapply step_to; [eapply S_defer; side | ].
  match goal with H : (if _ then setTask _ _ _ else _) = _ |- _ => cbn [Evidence_VerificationAttempts] in H end.
  destruct (MaxVerificationAttempts <? _)%Z; inv_ok; updated; abs_eq.
  apply insert_id. by eapply at_key_lookup.
Qed.

Lemma integrationGuards_inv b c i t :
  integrationGuards b c = Ok (i, t) →
  by_role c RoleCoordinator ∧ at_key Task_ID c.(Command_TaskID) b.(Board_Tasks) i t ∧
  t.(Task_State) = TaskIntegrating.
Proof.
  intros H. unfold integrationGuards, requireRole in H. inv_ok. found. inv_bool. done.
Qed.

Lemma refine_integration_fail b c b' es :
  applyIntegrationFail b c = Ok (b', es) → c.(Command_Type) = CommandIntegrationFail →
  step c (abs b) (abs b').
Proof.
  intros H Hty. run applyIntegrationFail. subst.
  match goal with H : integrationGuards _ _ = _ |- _ => apply integrationGuards_inv in H as (? & ? & ?) end.
  updated.
  eapply step_to; [eapply S_integration_fail; side | abs_eq].
Qed.

Lemma refine_integration_complete b c b' es :
  applyIntegrationComplete b c = Ok (b', es) → c.(Command_Type) = CommandIntegrationComplete →
  step c (abs b) (abs b').
Proof.
  intros H Hty. run applyIntegrationComplete. subst. 
  match goal with H : integrationGuards _ _ = _ |- _ => apply integrationGuards_inv in H as (? & ? & ?) end.
  updated. apply unblockReadyTasks_release in H as ->.
  eapply step_to; [eapply S_integration_complete; side | f_equal; abs_eq].
Qed.

Lemma refine_pause b c b' es :
  applyBoardPauseResume b c = Ok (b', es) →
  c.(Command_Type) = CommandBoardPause ∨ c.(Command_Type) = CommandBoardResume →
  step c (abs b) (abs b').
Proof.
  intros H Hty. unfold applyBoardPauseResume, requireRole, requireInitialized in H.
  destruct Hty as [Hty|Hty]; rewrite Hty in H; inv_ok; cbn in *; inv_bool.
  - eapply step_to; [apply (S_pause _ _ true); side | abs_eq]. by destruct (Board_Paused b).
  - eapply step_to; [apply (S_pause _ _ false); side | abs_eq]. by destruct (Board_Paused b).
Qed.

Lemma refine_gate b c b' es :
  applyGate b c = Ok (b', es) →
  c.(Command_Type) = CommandGatePass ∨ c.(Command_Type) = CommandGateFail
    ∨ c.(Command_Type) = CommandGateUnavailable →
  step c (abs b) (abs b').
Proof.
  intros H Hty. unfold applyGate, requireRole, requireInitialized, setGate in H.
  destruct Hty as [Hty|[Hty|Hty]]; rewrite Hty in H; inv_ok;
    rewrite ?andb_true_r in *; inv_bool; cbn in H; inv_ok.
  - eapply step_to; [eapply S_gate_pass; side | abs_eq]; congruence.
  - eapply step_to; [eapply S_gate_fail; side | abs_eq]; congruence.
  - eapply step_to; [eapply S_gate_unavailable; side | abs_eq].
Qed.

(** * The operations of a patch *)

Lemma patch_step_to id p s s1 s2 : patch_step id p s s1 → s1 = s2 → patch_step id p s s2.
Proof. by intros ? <-. Qed.

Lemma refine_patch_add_task b id p b' :
  patchAddTask b id p = Ok b' → p.(PatchStep_Operation) = PatchAddTask →
  patch_step id p (abs b) (abs b').
Proof.
  intros H Hop. unfold patchAddTask in H. inv_ok. found. rewrite cloneContract_id in H.
  match type of H with context [_ ++ [?T]] => set (t := T) in * end.
  rewrite dependenciesPassed_cleared in H. cbn [Board_Tasks Board_Dependencies setf] in H.
  assert (at_key Task_ID x.(TaskSpec_ID) (b.(Board_Tasks) ++ [t])
            (Z.of_nat (length (b.(Board_Tasks) ++ [t])) - 1) t) 
    by (apply (at_key_last Task_ID _ t); done).
  eapply patch_step_to; [eapply P_add_task; side|]. unfold settle. cbn.
  rewrite by_key_app_fresh in H by done.
  change (new_task x TaskPlanned id) with t. change (TaskSpec_ID x) with (Task_ID t).
  destruct (cleared _ _ _); updated; abs_eq.
Qed.

Lemma refine_patch_add_dependency b id p b' :
  patchAddDependency b id p = Ok b' → p.(PatchStep_Operation) = PatchAddDependency →
  patch_step id p (abs b) (abs b').
Proof.
  intros H Hop. unfold patchAddDependency in H. inv_ok. found. read.
  match type of H with context [_ ++ [?d]] =>
    eapply patch_step_to; [eapply (P_add_dependency _ _ _ _ d); side|] end.
  unfold reblock. cbn. rewrite dependenciesPassed_cleared in H. cbn in H. keys.
  destruct (_ && _); inv_ok; updated; abs_eq. apply insert_id. by eapply at_key_lookup.
Qed.

Lemma removeEdge_Some t d ds ds' :
  removeEdge t d ds = Some ds' →
  ∃ ds1 e ds2, ds = ds1 ++ e :: ds2 ∧ ds' = ds1 ++ ds2 ∧
    e.(Dependency_TaskID) = t ∧ e.(Dependency_DependsOn) = d.
Proof.
  revert ds'. induction ds as [|e ds IH]; intros ds'; cbn; [done|].
  destruct (_ && _) eqn:E.
  - intros [= <-]. inv_bool. by exists [], e, ds.
  - destruct (removeEdge t d ds) as [l|] eqn:R; [|done]. intros [= <-].
    destruct (IH l eq_refl) as (ds1 & e' & ds2 & -> & -> & ? & ?).
    by exists (e :: ds1), e', ds2.
Qed.

Lemma refine_patch_remove_dependency b id p b' :
  patchRemoveDependency b p = Ok b' → p.(PatchStep_Operation) = PatchRemoveDependency →
  patch_step id p (abs b) (abs b').
Proof.
  intros H Hop. unfold patchRemoveDependency in H. inv_ok.
  destruct (removeEdge _ _ _) as [ds|] eqn:R; inv_ok.
  apply removeEdge_Some in R as (ds1 & d & ds2 & ? & -> & ? & ?).
  eapply patch_step_to; [eapply P_remove_dependency; side | abs_eq].
Qed.

Lemma refine_patch_update_acceptance b id p b' :
  patchUpdateAcceptance b p = Ok b' → p.(PatchStep_Operation) = PatchUpdateAcceptance →
  patch_step id p (abs b) (abs b').
Proof.
  intros H Hop. unfold patchUpdateAcceptance in H. inv_ok. found. updated.
  eapply patch_step_to; [eapply P_update_acceptance; side | abs_eq].
Qed.

Lemma refine_patch_supersede b id p b' :
  patchSupersedeTask b p = Ok b' → p.(PatchStep_Operation) = PatchSupersedeTask →
  patch_step id p (abs b) (abs b').
Proof.
  intros H Hop. unfold patchSupersedeTask in H. inv_ok. found. updated.
  eapply patch_step_to; [eapply P_supersede; side | abs_eq].
  unfold live. by rewrite !(proj2 (String.eqb_neq _ _)) by done.
Qed.

Lemma endLiveWork_eq b t :
  endLiveWork b t = b <| Board_Leases := released_lease t <$> b.(Board_Leases) |>
                      <| Board_Attempts := cancelled_attempt t <$> b.(Board_Attempts) |>.
Proof. done. Qed.

Lemma refine_patch_cancel b id p b' :
  patchCancelTask b p = Ok b' → p.(PatchStep_Operation) = PatchCancelTask →
  patch_step id p (abs b) (abs b').
Proof.
  intros H Hop. unfold patchCancelTask in H. inv_ok. found.
  eapply patch_step_to; [eapply P_cancel; side | ].
  change (_ || (Task_State t == TaskVerifying)) with (live t) in H.
  rewrite endLiveWork_eq in H. unfold end_work.
  destruct (live t); updated; abs_eq; symmetry; apply by_key_map;
    eauto using released_lease_id, cancelled_attempt_id.
Qed.

Lemma applyPatchStep_refines b id p b' :
  applyPatchStep b id p = Ok b' → patch_step id p (abs b) (abs b').
Proof.
  unfold applyPatchStep. revert b'.
  apply (switch_Ok (λ op h, ∀ b', h b id p = Ok b' → patch_step id p (abs b) (abs b'))); [|done].
  repeat (apply Forall_cons; split); try (by apply Forall_nil); cbn; intros Hop b' H.
  - by apply refine_patch_add_task.
  - by apply refine_patch_add_dependency.
  - by apply refine_patch_remove_dependency.
  - by apply refine_patch_update_acceptance.
  - by apply refine_patch_supersede.
  - by apply refine_patch_cancel.
Qed.

Lemma applyPatchSteps_refines b id n ps b' :
  applyPatchSteps b id n ps = Ok b' → patch_steps id ps (abs b) (abs b').
Proof.
  revert b n. induction ps as [|p ps IH]; intros b n H; cbn in H; inv_ok; [constructor|].
  econstructor; [by apply applyPatchStep_refines | by eapply IH].
Qed.

Lemma refine_patch b c b' es :
  applyPlanPatch b c = Ok (b', es) → c.(Command_Type) = CommandPlanPatch → step c (abs b) (abs b').
Proof.
  intros H Hty. run applyPlanPatch. apply unblockReadyTasks_release in H as ->.
  unfold maxPatchSteps in *. eapply S_patch; side.
  match goal with H : applyPatchSteps _ _ _ _ = _ |- _ => exact (applyPatchSteps_refines _ _ _ _ _ H) end.
Qed.

(** * The dispatcher *)

Lemma dispatch_refines b c b' es : dispatch b c = Ok (b', es) → step c (abs b) (abs b').
Proof.
  unfold dispatch. revert b' es.
  apply (switch_Ok (λ _ h, ∀ b' es, h b c = Ok (b', es) → step c (abs b) (abs b'))); [|done].
  repeat (apply Forall_cons; split); try (by apply Forall_nil); cbn; intros Hty b' es H;
    eauto 2 using refine_create, refine_task_add, refine_dependency_add, refine_activate,
      refine_acquire, refine_start, refine_submit, refine_accept, refine_reject, refine_fail,
      refine_expire, refine_renew, refine_retry, refine_patch, refine_defer,
      refine_integration_complete, refine_integration_fail;
    eauto using refine_pause, refine_gate.
Qed.

(** An accepted command left a structurally valid board, stamped with its version. *)
Lemma Apply_inv b c b' es :
  Apply b c = Ok (b', es) →
  dispatch b c = Ok (b', es) ∧ Board_Validate b' = Ok tt ∧
  c.(Command_ExpectedVersion) = b.(Board_Version) ∧
  c.(Command_ID) ≠ "" ∧ c.(Command_Actor).(Actor_ID) ≠ "" ∧
  (b.(Board_ID) ≠ "" → Board_Validate b = Ok tt).
Proof.
  unfold Apply. rewrite cloneBoard_id. intros H. inv_ok. split_and!; try done.
  destruct (String.eqb_spec (Board_ID b) ""); cbn in *; [done|by inv_ok].
Qed.

Lemma apply_step b c b' es : Apply b c = Ok (b', es) → step c (abs b) (abs b').
Proof. intros H. apply Apply_inv in H as [H _]. by apply dispatch_refines in H. Qed.

(** Boards produced by a sequence of accepted commands, from the zero board. *)
Inductive runs : list Command → Board → Prop :=
  | runs_zero : runs [] Board_zero
  | runs_apply cs c b b' es :
      runs cs b → Apply b c = Ok (b', es) → runs (cs ++ [c]) b'.

Lemma runs_reachable cs b : runs cs b → reachable cs (abs b).
Proof. induction 1 as [|cs c b b' es _ IH H]; [apply R_initial|]. eapply R_step; eauto using apply_step. Qed.

(** Replaying a sequence of commands, which stops at the first rejected one. *)
Fixpoint replay (b : Board) (cs : list Command) : result Board :=
  match cs with
  | [] => Ok b
  | c :: cs => '(b', _) ← Apply b c; replay b' cs
  end.

Lemma replay_runs_from cs0 b0 cs b : runs cs0 b0 → replay b0 cs = Ok b → runs (cs0 ++ cs) b.
Proof.
  revert cs0 b0. induction cs as [|c cs IH]; intros cs0 b0 Hr H; cbn in H; inv_ok.
  - by rewrite app_nil_r.
  - rewrite (assoc_L (++) cs0 [c] cs : cs0 ++ (c :: cs) = _). eapply IH; [|exact H].
    eapply runs_apply; [done|]. by match goal with H : _ = Ok _ |- _ => rewrite H end.
Qed.

Lemma replay_runs cs b : replay Board_zero cs = Ok b → runs cs b.
Proof. intros H. by eapply (replay_runs_from []); [apply runs_zero|]. Qed.

Lemma replay_app b cs cs' : replay b (cs ++ cs') = (b' ← replay b cs; replay b' cs').
Proof.
  revert b. induction cs as [|c cs IH]; intros b; [done|]. cbn [replay app].
  destruct (Apply b c) as [[b' es]| |]; cbn [mbind result_bind]; [apply IH|done|done].
Qed.

Lemma runs_replay cs b : runs cs b → replay Board_zero cs = Ok b.
Proof.
  induction 1 as [|cs c b b' es _ IH H]; [done|]. rewrite replay_app, IH.
  cbn [mbind result_bind replay]. by rewrite H.
Qed.

(** A small board driven through its whole life, on which the theorems are
    instantiated: two tasks, the second depending on the first, worked on,
    verified and integrated, with a project gate. *)

Definition boss : Actor := mkActor "coordinator-1" RoleCoordinator.
Definition worker : Actor := mkActor "worker-1" RoleWorker.
Definition judge : Actor := mkActor "verifier-1" RoleVerifier.

(** The [n]-th command of a history, expecting version [v]. *)
Definition command (id : string) (v : Z) (actor : Actor) (type : CommandType) : Command :=
  Command_zero <| Command_SchemaVersion := SchemaVersion |> <| Command_ID := id |>
    <| Command_ExpectedVersion := v |> <| Command_Actor := actor |> <| Command_Type := type |>.

Definition contract : TerminalContract := mkTerminalContract "it works" ["the tests pass"].
Definition task_spec (id : string) : TaskSpec := mkTaskSpec id "a task" contract AccessWrite.
Definition board_spec : BoardSpec :=
  mkBoardSpec "board" "a board" "/repo" "r0" "refs/heads/main" ["make test"].
Definition lease_spec (n task : string) : LeaseSpec :=
  mkLeaseSpec ("lease-" +:+ n) ("attempt-" +:+ n) task "worker-1" ("token-" +:+ n) unixEpoch 0%Z.
Definition patch_record : PatchRecord := mkPatchRecord "patch" "r0" "digest" 1%Z ["main.go"].
Definition evidence_spec (n task : string) (patch : option PatchRecord) : EvidenceSpec :=
  mkEvidenceSpec ("evidence-" +:+ n) task ("attempt-" +:+ n) "log" "done"
    (EvidenceResult_zero <| EvidenceResult_Patch := patch |>).

(** The commands of one attempt at [task], from version [v]. *)
Definition attempt_commands (n task : string) (v : Z) (patch : option PatchRecord) : list Command :=
  let named c := c <| Command_TaskID := task |> <| Command_AttemptID := "attempt-" +:+ n |>
                   <| Command_FencingToken := "token-" +:+ n |> in
  [ (command ("acquire-" +:+ n) v boss CommandLeaseAcquire)
      <| Command_Lease := Some (lease_spec n task) |>;
    named (command ("start-" +:+ n) (v + 1) worker CommandAttemptStart);
    named (command ("submit-" +:+ n) (v + 2) worker CommandEvidenceSubmit)
      <| Command_Evidence := Some (evidence_spec n task patch) |>;
    named (command ("accept-" +:+ n) (v + 3) judge CommandEvidenceAccept)
      <| Command_Evidence := Some (evidence_spec n task patch) |> ].

Definition setup : list Command :=
  [ (command "create" 0 boss CommandBoardCreate) <| Command_Board := Some board_spec |>;
    (command "add-1" 1 boss CommandTaskAdd) <| Command_Task := Some (task_spec "t1") |>;
    (command "add-2" 2 boss CommandTaskAdd) <| Command_Task := Some (task_spec "t2") |>;
    (command "dep" 3 boss CommandDependencyAdd)
      <| Command_Dependency := Some (mkDependencySpec "d" "t2" "t1") |>;
    (command "activate-1" 4 boss CommandTaskActivate) <| Command_TaskID := "t1" |>;
    (command "activate-2" 5 boss CommandTaskActivate) <| Command_TaskID := "t2" |> ].

(** The first task delivers a patch, which is integrated and unblocks the second. *)
Definition integrate (task revision : string) (v : Z) : Command :=
  (command ("integrate-" +:+ task) v boss CommandIntegrationComplete)
    <| Command_TaskID := task |> <| Command_Revision := revision |>.

Definition delivery : list Command :=
  setup ++ attempt_commands "1" "t1" 6 (Some patch_record) ++ [integrate "t1" "r1" 10].

Definition board_after (cs : list Command) : Board :=
  match replay Board_zero cs with Ok b => b | _ => Board_zero end.

Definition task_of (b : Board) (n : nat) : Task := nth n b.(Board_Tasks) Task_zero.
Definition attempt_of (b : Board) (n : nat) : Attempt := nth n b.(Board_Attempts) Attempt_zero.
Definition events_of (b : Board) (c : Command) : list Event :=
  match Apply b c with Ok (_, es) => es | _ => [] end.
Definition first_claim : Command :=
  (command "acquire-1" 6 boss CommandLeaseAcquire) <| Command_Lease := Some (lease_spec "1" "t1") |>.
Definition claimed : Board := board_after (setup ++ [first_claim]).
Definition claim_events : list Event :=
  match Apply (board_after setup) first_claim with Ok (_, es) => es | _ => [] end.
Definition sample_lease : Lease := default Lease_zero (head claimed.(Board_Leases)).
Definition first_start : Command := nth 1 (attempt_commands "1" "t1" 6 None) Command_zero.
Definition started : Board := board_after (setup ++ [first_claim; first_start]).
Definition finished : Board := board_after (delivery ++ attempt_commands "2" "t2" 12 None).
Definition chain : list Dependency := [mkDependency "d1" "a" "b"; mkDependency "d2" "b" "c"].

Ltac replayed := apply replay_runs; vm_compute; reflexivity.

Lemma setup_runs : runs setup (board_after setup).
Proof. replayed. Defined.

Lemma delivery_runs : runs delivery (board_after delivery).
Proof. replayed. Defined.
