(* ===== verification/Safety.v ===== *)
(** The safety of the board aggregate: theorems about the boards that sequences
    of commands accepted by [Apply] lead to. *)
From stdpp Require Import relations.
From S2P Require Import Prelude Protocol Validate Wellformed StateMachine Apply Spec.
From S2P Require Import Coordination Lifecycle History Readiness Refine Simulation.

(** * From boards to their abstraction *)

Lemma runs_valid cs b : runs cs b → b = Board_zero ∨ well_formed b.
Proof.
  destruct 1 as [|cs c b b' es _ H]; [by left|right].
  apply Apply_inv in H as (_ & H & _). by apply Board_Validate_ok.
Qed.

Lemma runs_task cs b t : runs cs b → t ∈ b.(Board_Tasks) ↔ s_tasks (abs b) !! t.(Task_ID) = Some t.
Proof.
  intros Hr. cbn. split; [|by intros [? _]%by_key_Some]. intros Ht.
  destruct (runs_valid _ _ Hr) as [->|Hw]; [by apply not_elem_of_nil in Ht|].
  by apply by_key_elem; [apply wf_task_ids| |].
Qed.

Lemma runs_attempt cs b a :
  runs cs b → a ∈ b.(Board_Attempts) ↔ s_attempts (abs b) !! a.(Attempt_ID) = Some a.
Proof.
  intros Hr. cbn. split; [|by intros [? _]%by_key_Some]. intros Ht.
  destruct (runs_valid _ _ Hr) as [->|Hw]; [by apply not_elem_of_nil in Ht|].
  by apply by_key_elem; [apply wf_attempt_ids| |].
Qed.

Lemma runs_lease cs b l :
  runs cs b → l ∈ b.(Board_Leases) ↔ s_leases (abs b) !! l.(Lease_ID) = Some l.
Proof.
  intros Hr. cbn. split; [|by intros [? _]%by_key_Some]. intros Ht.
  destruct (runs_valid _ _ Hr) as [->|Hw]; [by apply not_elem_of_nil in Ht|].
  by apply by_key_elem; [apply wf_lease_ids| |].
Qed.

Lemma runs_evidence cs b e :
  runs cs b → e ∈ b.(Board_Evidence) ↔ s_evidence (abs b) !! e.(Evidence_ID) = Some e.
Proof.
  intros Hr. cbn. split; [|by intros [? _]%by_key_Some]. intros Ht.
  destruct (runs_valid _ _ Hr) as [->|Hw]; [by apply not_elem_of_nil in Ht|].
  by apply by_key_elem; [apply wf_evidence_ids| |].
Qed.

Lemma runs_coordinated cs b : runs cs b → coordinated (abs b).
Proof. intros H. by eapply reachable_coordinated, runs_reachable. Qed.

(** A board a later sequence of commands leads to. *)
Definition applied (b b' : Board) : Prop := ∃ c es, Apply b c = Ok (b', es).

(** Every attempt was issued with a generation below the next one. *)
Definition generations_ordered (s : state) : Prop :=
  (0 ≤ s.(s_generation) < two64)%Z ∧
  (∀ j i, identities s !! j = Some i → (1 ≤ i_generation i < s.(s_generation))%Z) ∧
  (∀ j1 j2 i1 i2, identities s !! j1 = Some i1 → identities s !! j2 = Some i2 →
     i_generation i1 = i_generation i2 → j1 = j2) ∧
  (s.(s_id) ≠ "" → (1 ≤ s.(s_generation))%Z).

Lemma runs_applied cs b b' : runs cs b → applied b b' → ∃ cs', runs cs' b' ∧ reachable cs (abs b).
Proof.
  intros Hr (c & es & H). exists (cs ++ [c]). split; [by eapply runs_apply|by apply runs_reachable].
Qed.

Lemma sample_replay cs b : replay Board_zero cs = Ok b → runs cs (board_after cs).
Proof. intros H. unfold board_after. rewrite H. by apply replay_runs. Qed.

(** * The theorems *)

(** C1: [Apply] refines the abstract step relation: an accepted command, of any
    type and by any actor, changes the board exactly as the rule of its type
    says, and was accepted under the conditions the rule states. *)
Theorem apply_refines b c b' es : Apply b c = Ok (b', es) → step c (abs b) (abs b').
Proof. apply apply_step. Qed.

Lemma apply_refines_witness : step first_claim (abs (board_after setup)) (abs claimed).
Proof. apply (apply_refines _ _ _ claim_events). vm_compute. reflexivity. Defined.

(** C39: [Board.Validate] accepts exactly the well-formed boards: unique ids,
    well-formed entities, every reference resolved, fencing identities that
    match, no duplicate edge and no dependency cycle. *)
Theorem validate_iff_well_formed b : Board_Validate b = Ok tt ↔ well_formed b.
Proof. apply Board_Validate_ok. Qed.

(** The cycle check accepts exactly the acyclic graphs, whatever order Go's
    map iteration visits the tasks in, and its recursion never runs deeper than
    the number of tasks. *)
Theorem validateAcyclic_order_irrelevant order deps :
  closed order deps →
  (Acyclic.validateAcyclic order deps = Ok tt ↔ acyclic deps) ∧
  Acyclic.validateAcyclic order deps ≠ Panic ∧
  ∀ order', order' ≡ₚ order →
    is_ok (Acyclic.validateAcyclic order' deps) = is_ok (Acyclic.validateAcyclic order deps).
Proof.
  intros Hc. split; [by apply validateAcyclic_ok|]. split; [by apply validateAcyclic_ends|]. intros order' Hp.
  assert (closed order' deps) as Hc'.
  { intros t p He. rewrite !Hp. by apply Hc. }
  pose proof (validateAcyclic_ok _ _ Hc) as E. pose proof (validateAcyclic_ok _ _ Hc') as E'.
  destruct (Acyclic.validateAcyclic order deps) as [[]| |],
    (Acyclic.validateAcyclic order' deps) as [[]| |]; cbn; try done; exfalso; naive_solver.
Qed.

Lemma validateAcyclic_order_irrelevant_witness :
  Acyclic.validateAcyclic ["a"; "b"; "c"] chain = Ok tt ∧ acyclic chain.
Proof.
  split; [vm_compute; reflexivity|]. apply (validateAcyclic_order_irrelevant ["a"; "b"; "c"] chain).
  - intros t p (d & Hd & <- & <-). unfold chain in Hd. set_solver.
  - vm_compute. reflexivity.
Defined.

(** C25: An active lease is held for exactly one task, which is being worked on
    and names it, and for exactly one live attempt, which shares its worker and
    its fencing token; and no other active lease exists for that task. *)
Theorem lease_exclusive cs b l :
  runs cs b → l ∈ b.(Board_Leases) → l.(Lease_State) = LeaseActive →
  (∃ t a, t ∈ b.(Board_Tasks) ∧ a ∈ b.(Board_Attempts) ∧
     t.(Task_ID) = l.(Lease_TaskID) ∧ t.(Task_ActiveLeaseID) = l.(Lease_ID) ∧
     a.(Attempt_ID) = l.(Lease_AttemptID) ∧ t.(Task_ActiveAttemptID) = a.(Attempt_ID) ∧
     a.(Attempt_TaskID) = t.(Task_ID) ∧ a.(Attempt_WorkerID) = l.(Lease_WorkerID) ∧
     a.(Attempt_FencingToken) = l.(Lease_FencingToken) ∧
     (t.(Task_State) = TaskLeased ∧ a.(Attempt_State) = AttemptLeased ∨
      t.(Task_State) = TaskRunning ∧ a.(Attempt_State) = AttemptRunning)) ∧
  (∀ l', l' ∈ b.(Board_Leases) → l'.(Lease_State) = LeaseActive →
     l'.(Lease_TaskID) = l.(Lease_TaskID) → l' = l).
Proof.
  intros Hr Hl Hs. pose proof (runs_coordinated _ _ Hr) as Hc.
  pose proof (proj1 (runs_lease _ _ l Hr) Hl) as Hl'.
  destruct (st_leases _ _ (co_settled _ Hc _) _ _ Hl' eq_refl Hs) as (t & Ht & Hal & Hst). split.
  - pose proof (task_id_of _ _ _ Hc Ht) as Eid. rewrite <- Eid in Ht.
    assert (∃ st, working t = Some st ∧ (t.(Task_State) = TaskLeased ∧ st = AttemptLeased ∨
      t.(Task_State) = TaskRunning ∧ st = AttemptRunning)) as (st & Hw & Hor).
    { unfold working. destruct Hst as [E|E]; rewrite E; cbn; eauto 6. }
    destruct (st_active _ _ (co_settled _ Hc _) _ _ Ht Hw) as (a & l0 & Hact).
    pose proof (ac_lease _ _ _ _ _ Hact) as Hl0. rewrite Hal, Hl' in Hl0. injection Hl0 as <-.
    pose proof (proj1 (proj2 (co_keyed _ Hc)) _ _ (ac_attempt _ _ _ _ _ Hact)) as Eaid.
    exists t, a. destruct Hact.
    assert (t ∈ Board_Tasks b) by by apply (runs_task _ _ _ Hr).
    assert (a ∈ Board_Attempts b) by (apply (runs_attempt _ _ _ Hr); congruence).
    split_and!; try done; try congruence.
  - intros l' Hin' Hs' Et. pose proof (proj1 (runs_lease _ _ l' Hr) Hin') as Hl2.
    destruct (st_leases _ _ (co_settled _ Hc _) _ _ Hl2 eq_refl Hs') as (t' & Ht' & Hal' & _).
    congruence.
Qed.

Lemma lease_exclusive_witness :
  runs (setup ++ [first_claim]) claimed ∧
  ∀ l', l' ∈ claimed.(Board_Leases) → l'.(Lease_State) = LeaseActive →
     l'.(Lease_TaskID) = "t1" → l' = sample_lease.
Proof.
  assert (runs (setup ++ [first_claim]) claimed) as Hr by replayed. split; [exact Hr|].
  apply (lease_exclusive (setup ++ [first_claim]) claimed sample_lease Hr).
  - vm_compute. left.
  - vm_compute. reflexivity.
Defined.

(** C27: Fencing: a command of a worker or of a verifier is accepted only with the
    token of a live attempt that is the active attempt of the command's task;
    a worker must own the attempt and a verifier must not. A token whose
    attempt has failed, expired, been cancelled or passed authorises nothing. *)
Theorem fencing cs b c b' es :
  runs cs b → Apply b c = Ok (b', es) →
  c.(Command_Type) ∈ [CommandAttemptStart; CommandEvidenceSubmit; CommandAttemptFail;
                      CommandEvidenceAccept; CommandEvidenceReject] →
  ∃ t a, t ∈ b.(Board_Tasks) ∧ a ∈ b.(Board_Attempts) ∧
    t.(Task_ID) = c.(Command_TaskID) ∧ a.(Attempt_ID) = c.(Command_AttemptID) ∧
    t.(Task_ActiveAttemptID) = a.(Attempt_ID) ∧ a.(Attempt_TaskID) = t.(Task_ID) ∧
    live_attempt a ∧ a.(Attempt_FencingToken) ≠ "" ∧
    a.(Attempt_FencingToken) = c.(Command_FencingToken) ∧
    (a.(Attempt_WorkerID) = c.(Command_Actor).(Actor_ID) ∧ c.(Command_Actor).(Actor_Role) = RoleWorker ∨
     a.(Attempt_WorkerID) ≠ c.(Command_Actor).(Actor_ID) ∧ c.(Command_Actor).(Actor_Role) = RoleVerifier).
Proof.
  intros Hr H Hty. apply apply_step in H. pose proof (runs_coordinated _ _ Hr) as Hc.
  assert (∃ st t a l, working t = Some st ∧ active (abs b) t st a l ∧ fenced c (abs b) a ∧
    s_tasks (abs b) !! c.(Command_TaskID) = Some t ∧ t.(Task_ActiveAttemptID) = c.(Command_AttemptID) ∧
    (a.(Attempt_WorkerID) = c.(Command_Actor).(Actor_ID) ∧ c.(Command_Actor).(Actor_Role) = RoleWorker ∨
     a.(Attempt_WorkerID) ≠ c.(Command_Actor).(Actor_ID) ∧ c.(Command_Actor).(Actor_Role) = RoleVerifier))
    as (st & t & a & l & Hw & Hact & (Ha & Hne & Htok) & Ht & Haa & Hwho).
  { destruct (token_commands _ _ _ H Hty) as [(t & a & l & Hrole & He & Hst)|(t & a & e & l & Hrole & He)].
    - destruct (executing_active _ _ _ _ _ Hc He Hst) as (st & Hw & _ & Hact).
      destruct He as (Hf & Ht & Haa & _ & _ & Hown & _). exists st, t, a, l. by auto 10.
    - destruct (deciding_active _ _ _ _ _ _ Hc He) as (Hw & Hact & _).
      destruct He as (Hf & Ht & _ & Haa & _ & Hind & _). exists AttemptVerifying, t, a, l. by auto 10. }
  pose proof (task_id_of _ _ _ Hc Ht) as Eid.
  pose proof (proj1 (proj2 (co_keyed _ Hc)) _ _ Ha) as Eaid.
  exists t, a. split_and!; try done; try congruence.
  - apply (runs_task _ _ _ Hr). congruence.
  - apply (runs_attempt _ _ _ Hr). congruence.
  - apply (ac_attempt_task _ _ _ _ _ Hact).
  - by eapply active_live.
Qed.

Lemma fencing_witness :
  runs (setup ++ [first_claim]) claimed ∧ ∃ t a, t ∈ claimed.(Board_Tasks) ∧
    a ∈ claimed.(Board_Attempts) ∧ t.(Task_ID) = "t1" ∧ a.(Attempt_ID) = "attempt-1".
Proof.
  assert (runs (setup ++ [first_claim]) claimed) as Hr by replayed. split; [exact Hr|].
  destruct (fencing (setup ++ [first_claim]) claimed first_start started (events_of claimed first_start) Hr)
    as (t & a & Ht & Ha & Et & Ea & _).
  - vm_compute. reflexivity.
  - vm_compute. left.
  - exists t, a. auto.
Defined.

(** A worker's command touches only its own task: every other task with its
    attempts, leases and evidence is the same afterwards, and so are the
    dependencies, the project gate, the integrated revision, the pause and the
    generation counter. *)
Theorem worker_confinement cs b c b' es k :
  runs cs b → Apply b c = Ok (b', es) → c.(Command_Actor).(Actor_Role) = RoleWorker →
  k ≠ c.(Command_TaskID) →
  agree k (abs b) (abs b') ∧ b'.(Board_Dependencies) = b.(Board_Dependencies) ∧
  b'.(Board_Gate) = b.(Board_Gate) ∧ b'.(Board_IntegratedRevision) = b.(Board_IntegratedRevision) ∧
  b'.(Board_Paused) = b.(Board_Paused) ∧ b'.(Board_NextGeneration) = b.(Board_NextGeneration) ∧
  b'.(Board_ID) = b.(Board_ID).
Proof.
  intros Hr H Hrole Hk. apply apply_step in H. pose proof (runs_coordinated _ _ Hr) as Hc.
  destruct (worker_step _ _ _ k Hc H Hrole Hk) as (Ha & E1 & E2 & E3 & E4 & E5 & E6). by split_and!.
Qed.

Lemma worker_confinement_witness :
  agree "t2" (abs claimed) (abs started) ∧ started.(Board_Gate) = claimed.(Board_Gate).
Proof.
  assert (runs (setup ++ [first_claim]) claimed) as Hr by replayed.
  destruct (worker_confinement (setup ++ [first_claim]) claimed first_start started
    (events_of claimed first_start) "t2" Hr) as (Ha & _ & Hg & _).
  - vm_compute. reflexivity.
  - vm_compute. reflexivity.
  - vm_compute. discriminate.
  - split; [exact Ha|exact Hg].
Defined.

(** A ready task has every prerequisite passed and a blocked task has one that
    has not: no task is started early and none is stranded by a missed release. *)
Theorem readiness_exact cs b t :
  runs cs b → t ∈ b.(Board_Tasks) →
  (t.(Task_State) = TaskReady → dependenciesPassed b t.(Task_ID) = true) ∧
  (t.(Task_State) = TaskBlocked → dependenciesPassed b t.(Task_ID) = false).
Proof.
  intros Hr Ht. rewrite dependenciesPassed_cleared.
  destruct (reachable_readiness _ _ (runs_reachable _ _ Hr) _ _ (proj1 (runs_task _ _ t Hr) Ht)) as [H1 H2].
  split; [exact H1|by apply H2].
Qed.

Lemma readiness_exact_witness :
  dependenciesPassed (board_after setup) "t1" = true ∧ dependenciesPassed (board_after setup) "t2" = false.
Proof.
  split.
  - apply (readiness_exact setup (board_after setup) (task_of (board_after setup) 0) setup_runs);
      vm_compute; [left|reflexivity].
  - apply (readiness_exact setup (board_after setup) (task_of (board_after setup) 1) setup_runs);
      vm_compute; [right; left|reflexivity].
Defined.

(** Blocked tasks cannot deadlock one another: from a blocked task, following
    dependencies leads to a task that is neither blocked nor passed. *)
Theorem no_blocked_deadlock cs b t :
  runs cs b → t ∈ b.(Board_Tasks) → t.(Task_State) = TaskBlocked →
  ∃ t', t' ∈ b.(Board_Tasks) ∧ tc (edge b.(Board_Dependencies)) t.(Task_ID) t'.(Task_ID) ∧
    t'.(Task_State) ≠ TaskBlocked ∧ t'.(Task_State) ≠ TaskPassed.
Proof.
  intros Hr Ht Hb. destruct (runs_valid _ _ Hr) as [->|Hw]; [by apply not_elem_of_nil in Ht|].
  pose proof (dependencies_closed _ _ (wf_deps _ Hw)) as Hcl.
  destruct (blocked_frontier (abs b) (Task_ID <$> b.(Board_Tasks)) t.(Task_ID) t)
    as (k & u & Htc & Hu & Hnp & Hnb); [|done|by apply wf_acyclic| | |done|].
  - by eapply reachable_readiness, runs_reachable.
  - intros x y He. destruct (Hcl x y He) as [_ (v & -> & Hv)%list_elem_of_fmap].
    exists v. by apply (runs_task _ _ _ Hr).
  - by apply (runs_task _ _ _ Hr).
  - pose proof (task_id_of _ _ _ (runs_coordinated _ _ Hr) Hu) as <-.
    exists u. split_and!; try done. by apply (runs_task _ _ _ Hr).
Qed.

Lemma no_blocked_deadlock_witness :
  ∃ t', t' ∈ (board_after setup).(Board_Tasks) ∧
    t'.(Task_State) ≠ TaskBlocked ∧ t'.(Task_State) ≠ TaskPassed.
Proof.
  destruct (no_blocked_deadlock setup (board_after setup) (task_of (board_after setup) 1) setup_runs)
    as (t' & Ht & _ & H1 & H2).
  - vm_compute. right. left.
  - vm_compute. reflexivity.
  - exists t'. auto.
Defined.

(** * The future of a board *)

Lemma applied_future (P : Board → Board → Prop) :
  (∀ b, P b b) → (∀ b1 b2 b3, P b1 b2 → P b2 b3 → P b1 b3) →
  (∀ cs b b', runs cs b → applied b b' → P b b') →
  ∀ cs b b', runs cs b → rtc applied b b' → P b b'.
Proof.
  intros Hrefl Htrans Hone cs b b' Hr H. revert cs Hr. induction H as [|b1 b2 b3 H12 _ IH]; [done|].
  intros cs Hr. destruct (runs_applied _ _ _ Hr H12) as (cs' & Hr' & _).
  eapply Htrans; [by eapply Hone|by eapply IH].
Qed.

(** A passed task is permanent: no later command, of any kind, changes it or
    removes it. *)
Theorem passed_permanent cs b b' t :
  runs cs b → rtc applied b b' → t ∈ b.(Board_Tasks) → t.(Task_State) = TaskPassed →
  t ∈ b'.(Board_Tasks).
Proof.
  intros Hr H. revert t. pattern b, b'. eapply applied_future; [| | |exact Hr|exact H]; clear.
  - done.
  - intros b1 b2 b3 H1 H2 t Ht Hp. by apply H2; [apply H1|].
  - intros cs b b' Hr (c & es & H) t Ht Hp.
    assert (runs (cs ++ [c]) b') as Hr' by by eapply runs_apply.
    destruct (reachable_evolves _ _ _ _ (runs_reachable _ _ Hr) (apply_step _ _ _ _ H)) as [Hd He].
    pose proof (proj1 (runs_task _ _ t Hr) Ht) as Hk.
    destruct (Hd t.(Task_ID)) as [t' Ht']; [by eexists|].
    destruct (He _ _ Ht') as (u & [Hu|[Hu _]] & Hrtc); [|congruence].
    assert (u = t) as -> by congruence. rewrite (passed_stays _ _ _ Hrtc Hp) in Ht'.
    by apply (runs_task _ _ _ Hr').
Qed.

(** The boards of a history, related to its start. *)
Lemma replay_applied b cs b' : replay b cs = Ok b' → rtc applied b b'.
Proof.
  revert b. induction cs as [|c cs IH]; intros b H; cbn in H; inv_ok; [done|].
  subst. eapply rtc_l; [|by apply IH].
  match goal with H : Apply _ _ = Ok (_, ?es) |- _ => by exists c, es end.
Qed.

Lemma finished_future : rtc applied (board_after delivery) finished.
Proof. apply (replay_applied _ (attempt_commands "2" "t2" 12 None)). vm_compute. reflexivity. Defined.

Lemma passed_permanent_witness : task_of (board_after delivery) 0 ∈ finished.(Board_Tasks).
Proof.
  apply (passed_permanent delivery (board_after delivery) finished).
  - exact delivery_runs.
  - exact finished_future.
  - vm_compute. left.
  - vm_compute. reflexivity.
Defined.

(** The audit trail: attempts, leases and evidence are never removed; their
    identities (task, worker, number, generation, fencing token, result) never
    change; and a settled attempt, a completed lease and decided evidence never
    change at all. *)
Theorem audit_trail cs b b' :
  runs cs b → rtc applied b b' →
  (∀ a, a ∈ b.(Board_Attempts) → ∃ a', a' ∈ b'.(Board_Attempts) ∧ attempt_kept a a') ∧
  (∀ l, l ∈ b.(Board_Leases) → ∃ l', l' ∈ b'.(Board_Leases) ∧ lease_kept l l') ∧
  (∀ e, e ∈ b.(Board_Evidence) → ∃ e', e' ∈ b'.(Board_Evidence) ∧ evidence_kept e e').
Proof.
  intros Hr H. assert (history (abs b) (abs b') ∧ ∃ cs', runs cs' b') as [[Ha Hl He] [cs' Hr']].
  { revert cs Hr. induction H as [b|b1 b2 b3 H12 _ IH]; intros cs Hr; [by split; [reflexivity|exists cs]|].
    destruct (runs_applied _ _ _ Hr H12) as (cs' & Hr' & Hreach). destruct H12 as (c & es & H12).
    destruct (IH _ Hr') as [H23 ?]. split; [|done]. etrans; [|exact H23].
    by eapply reachable_history, apply_step. }
  split_and!.
  - intros a Hin. destruct (Ha _ _ (proj1 (runs_attempt _ _ a Hr) Hin)) as (a' & Ha' & Hk).
    exists a'. split; [|done]. apply (runs_attempt _ _ _ Hr'). by rewrite (proj1 Hk).
  - intros l Hin. destruct (Hl _ _ (proj1 (runs_lease _ _ l Hr) Hin)) as (l' & Hl' & Hk).
    exists l'. split; [|done]. apply (runs_lease _ _ _ Hr'). by rewrite (proj1 Hk).
  - intros e Hin. destruct (He _ _ (proj1 (runs_evidence _ _ e Hr) Hin)) as (e' & He' & Hk).
    exists e'. split; [|done]. apply (runs_evidence _ _ _ Hr'). by rewrite (proj1 Hk).
Qed.

Lemma audit_trail_witness :
  ∃ a', a' ∈ finished.(Board_Attempts) ∧ attempt_kept (attempt_of (board_after delivery) 0) a'.
Proof.
  apply (audit_trail delivery (board_after delivery) finished delivery_runs finished_future). vm_compute. left.
Defined.

(** Acceptance integrity: a task that is integrating or passed rests on accepted
    evidence of its own, whose required tests all passed, produced by an attempt
    at the task that passed; and when that evidence carries a patch, the task is
    passed only with the revision it was integrated at. *)
Theorem accepted_work_is_backed cs b t :
  runs cs b → t ∈ b.(Board_Tasks) →
  t.(Task_State) = TaskIntegrating ∨ t.(Task_State) = TaskPassed →
  ∃ e a, e ∈ b.(Board_Evidence) ∧ a ∈ b.(Board_Attempts) ∧
    e.(Evidence_ID) = t.(Task_AcceptedEvidenceID) ∧ e.(Evidence_State) = EvidenceAccepted ∧
    e.(Evidence_TaskID) = t.(Task_ID) ∧ e.(Evidence_AttemptID) = a.(Attempt_ID) ∧
    a.(Attempt_TaskID) = t.(Task_ID) ∧ a.(Attempt_State) = AttemptPassed ∧
    (∀ test, test ∈ e.(Evidence_Result).(EvidenceResult_Tests) →
       test.(TestRecord_Required) = true → test.(TestRecord_Passed) = true) ∧
    (t.(Task_State) = TaskPassed → e.(Evidence_Result).(EvidenceResult_Patch) ≠ None →
       t.(Task_IntegratedRevision) ≠ "").
Proof.
  intros Hr Ht Hst. pose proof (runs_coordinated _ _ Hr) as Hc.
  destruct (reachable_acceptance _ _ (runs_reachable _ _ Hr) _ _ (proj1 (runs_task _ _ t Hr) Ht) Hst)
    as (e & a & He & Hes & Htests & Het & Ha & Has & Hat & Hp).
  pose proof (proj2 (proj2 (proj2 (co_keyed _ Hc))) _ _ He) as Ee.
  pose proof (proj1 (proj2 (co_keyed _ Hc)) _ _ Ha) as Ea.
  exists e, a. split_and!; try done.
  - apply (runs_evidence _ _ _ Hr). congruence.
  - apply (runs_attempt _ _ _ Hr). congruence.
  - intros test Hin Hreq. unfold RequiredTestsPassed in Htests. rewrite forallb_forall in Htests.
    apply list_elem_of_In, Htests in Hin. rewrite Hreq in Hin. by destruct (TestRecord_Passed test).
  - intros E Hn. by destruct (Hp E).
Qed.

Lemma accepted_work_is_backed_witness :
  ∃ e a, e ∈ (board_after delivery).(Board_Evidence) ∧ a ∈ (board_after delivery).(Board_Attempts) ∧
    e.(Evidence_ID) = "evidence-1" ∧ e.(Evidence_State) = EvidenceAccepted.
Proof.
  destruct (accepted_work_is_backed delivery (board_after delivery) (task_of (board_after delivery) 0)
    delivery_runs) as (e & a & He & Ha & Ee & Es & _).
  - vm_compute. left.
  - right. vm_compute. reflexivity.
  - exists e, a. auto.
Defined.

(** * Attempts *)

Lemma size_filter_by_key {A} (key : A → string) (P : A → Prop) `{!∀ x, Decision (P x)} l :
  NoDup (key <$> l) → size (filter (λ p, P p.2) (by_key key l)) = length (filter P l).
Proof.
  induction l as [|x l IH]; [done|]. rewrite fmap_cons, NoDup_cons. intros [Hx Hnd].
  rewrite by_key_cons, filter_cons.
  assert (by_key key l !! key x = None) as Hn.
  { apply by_key_None, Forall_forall. intros y Hy E. apply Hx. rewrite <- E. by apply list_elem_of_fmap_2. }
  case_decide as HP.
  - rewrite map_filter_insert_True by done. rewrite map_size_insert_None; [cbn; by rewrite IH|].
    apply map_lookup_filter_None. by left.
  - rewrite map_filter_insert_False by done. by rewrite delete_id, IH.
Qed.

Lemma attempts_at_count b k :
  NoDup (Attempt_ID <$> b.(Board_Attempts)) →
  attempts_at (abs b) k = length (filter (λ a, a.(Attempt_TaskID) = k) b.(Board_Attempts)).
Proof.
  intros Hnd. unfold attempts_at, identities. cbn.
  rewrite map_filter_fmap, map_size_fmap.
  rewrite <- (size_filter_by_key Attempt_ID (λ a, a.(Attempt_TaskID) = k)) by done.
  done.
Qed.

(** The attempt budget: a task is attempted at most three times between two
    decisions to retry it, so at most [3 * (retries + 1)] times in all, where
    the retries are those of the history; its own count stays within 0 and 3. *)
Theorem attempt_budget cs b t :
  runs cs b → t ∈ b.(Board_Tasks) →
  (0 ≤ t.(Task_AttemptCount) ≤ MaxAttempts)%Z ∧
  length (filter (λ a, a.(Attempt_TaskID) = t.(Task_ID)) b.(Board_Attempts))
    ≤ 3 * (retries_of cs t.(Task_ID) + 1).
Proof.
  intros Hr Ht. pose proof (proj1 (runs_task _ _ t Hr) Ht) as Hk.
  pose proof (runs_reachable _ _ Hr) as Hreach.
  pose proof (reachable_count _ _ _ _ Hreach Hk) as Hcount.
  pose proof (reachable_budget _ _ _ _ Hreach Hk) as Hb. split; [done|].
  rewrite attempts_at_count in Hb.
  - unfold MaxAttempts in *. lia.
  - destruct (runs_valid _ _ Hr) as [->|Hw]; [constructor|by apply wf_attempt_ids].
Qed.

Lemma attempt_budget_witness :
  length (filter (λ a, a.(Attempt_TaskID) = "t1") (board_after delivery).(Board_Attempts)) ≤ 3.
Proof.
  apply (attempt_budget delivery (board_after delivery) (task_of (board_after delivery) 0) delivery_runs).
  vm_compute. left.
Defined.

Lemma attempt_valid b j i :
  well_formed b → identities (abs b) !! j = Some i →
  (i_generation i < b.(Board_NextGeneration))%Z ∨ i_generation i = 0%Z.
Proof.
  intros Hw (a & Ha & ->)%identities_lookup. cbn in Ha. apply by_key_Some in Ha as [Ha _].
  pose proof (wf_attempts _ Hw) as Hf. rewrite Forall_forall in Hf.
  by destruct (Hf a Ha) as (_ & _ & _ & _ & _ & _ & ?).
Qed.

Lemma generations_issue g : (1 ≤ g < two64)%Z → (g < u64 (g + 1))%Z ∨ g = 0%Z → u64 (g + 1) = (g + 1)%Z.
Proof.
  intros Hg Hlt. destruct (decide (g + 1 < two64)%Z); [by apply u64_small; lia|].
  assert (g + 1 = two64)%Z as E by lia. unfold u64 in *. rewrite E, Z_mod_same_full in Hlt. lia.
Qed.

Lemma runs_generations cs b : runs cs b → generations_ordered (abs b).
Proof.
  induction 1 as [|cs c b b' es Hr IH H].
  - split_and!; try done; intros j i; unfold identities; cbn; by rewrite lookup_fmap, lookup_empty.
  - assert (runs (cs ++ [c]) b') as Hr' by by eapply runs_apply.
    pose proof (apply_step _ _ _ _ H) as Hs. destruct IH as (Hg & Hi & Hu & Hid).
    apply Apply_inv in H as (_ & Hv & _). apply Board_Validate_ok in Hv.
    destruct (step_id _ _ _ Hs) as [Eid|[Eid Ety]].
    + destruct (step_issues _ _ _ (runs_coordinated _ _ Hr) Hs)
        as [_ E Eg|E0 _ _ _|spec t _ Ht _ _ Hnew _ _ E Eg]; unfold generations_ordered.
      * rewrite E, Eg, Eid. auto.
      * exfalso. rewrite E0 in Eid. by apply (wf_id _ Hv).
      * assert (1 ≤ s_generation (abs b))%Z as Hg1.
        { apply Hid. intros E0. by rewrite (reachable_blank _ _ (runs_reachable _ _ Hr) E0) in Ht. }
        assert (s_generation (abs b') = s_generation (abs b) + 1)%Z as Eg'.
        { rewrite Eg. apply generations_issue; [lia|].
          rewrite <- Eg. set (i := mkIdentity _ _ _ _ _) in E.
          apply (attempt_valid b' (LeaseSpec_AttemptID spec) i Hv). rewrite E. apply lookup_insert_eq. }
        assert (s_generation (abs b') < two64)%Z.
        { rewrite Eg. apply Z.mod_pos_bound. done. }
        split_and!; try lia.
        -- intros j i. rewrite E, lookup_insert. case_decide; [intros [= <-]; cbn in *; lia|].
           intros Hj. apply Hi in Hj. lia.
        -- intros j1 j2 i1 i2. rewrite E, !lookup_insert. do 2 case_decide; subst; try done.
           ++ intros [= <-] H2 Eq. apply Hi in H2. cbn in *. lia.
           ++ intros H1 [= <-] Eq. apply Hi in H1. cbn in *. lia.
           ++ apply Hu.
    + destruct (step_create _ _ _ Hs Ety) as [E Eg]. unfold generations_ordered. rewrite E, Eg.
      split_and!; try done; intros ??; by rewrite lookup_empty.
Qed.

(** Fencing tokens and generations identify attempts: no two attempts of a board
    ever share a token or a generation, and every generation is positive and
    below the next one to be issued. *)
Theorem tokens_and_generations_unique cs b a1 a2 :
  runs cs b → a1 ∈ b.(Board_Attempts) → a2 ∈ b.(Board_Attempts) →
  (a1.(Attempt_FencingToken) = a2.(Attempt_FencingToken) → a1 = a2) ∧
  (a1.(Attempt_Generation) = a2.(Attempt_Generation) → a1 = a2) ∧
  (1 ≤ a1.(Attempt_Generation) < b.(Board_NextGeneration))%Z.
Proof.
  intros Hr H1 H2.
  assert (∀ a, a ∈ b.(Board_Attempts) → identities (abs b) !! a.(Attempt_ID) = Some (identify a)) as Hid.
  { intros a Ha. apply identities_lookup. exists a. split; [|done]. by apply (runs_attempt _ _ _ Hr). }
  assert (a1.(Attempt_ID) = a2.(Attempt_ID) → a1 = a2) as Hsame.
  { intros E. pose proof (proj1 (runs_attempt _ _ a1 Hr) H1) as E1.
    pose proof (proj1 (runs_attempt _ _ a2 Hr) H2) as E2. congruence. }
  destruct (runs_generations _ _ Hr) as (_ & Hlt & Hu & _). split_and!.
  - intros E. apply Hsame. eapply (reachable_tokens _ _ (runs_reachable _ _ Hr)); [by apply Hid..|done].
  - intros E. apply Hsame. eapply Hu; [by apply Hid..|done].
  - exact (proj1 (Hlt _ _ (Hid _ H1))).
  - exact (proj2 (Hlt _ _ (Hid _ H1))).
Qed.

Lemma tokens_and_generations_unique_witness :
  (1 ≤ (attempt_of finished 0).(Attempt_Generation) < finished.(Board_NextGeneration))%Z.
Proof.
  apply (tokens_and_generations_unique (delivery ++ attempt_commands "2" "t2" 12 None) finished
    (attempt_of finished 0) (attempt_of finished 1)).
  - replayed.
  - vm_compute. left.
  - vm_compute. right. left.
Defined.

(** The generation counter fails closed: when the next generation is the
    largest uint64, no claim is accepted, so the counter never wraps around to
    reissue a generation. *)
Theorem generation_exhaustion b c :
  b.(Board_NextGeneration) = (two64 - 1)%Z → c.(Command_Type) = CommandLeaseAcquire →
  is_ok (Apply b c) = false.
Proof.
  intros Hg Hty. destruct (Apply b c) as [[b' es]| |] eqn:H; [|done..]. exfalso.
  pose proof (apply_step _ _ _ _ H) as Hs. apply Apply_inv in H as (_ & Hv & _).
  apply Board_Validate_ok in Hv. destruct (step_acquire _ _ _ Hs Hty) as (id & i & Hi & Hgi & Hgen).
  destruct (attempt_valid _ _ _ Hv Hi) as [Hlt|Hz].
  - change (b'.(Board_NextGeneration)) with (s_generation (abs b')) in Hlt. rewrite Hgen in Hlt.
    cbn [s_generation abs] in Hgi, Hlt. rewrite Hgi, Hg in Hlt.
    replace (two64 - 1 + 1)%Z with two64 in Hlt by lia. unfold u64 in Hlt.
    rewrite Z_mod_same_full in Hlt. unfold two64 in Hlt. lia.
  - rewrite Hgi in Hz. cbn in Hz. rewrite Hg in Hz. unfold two64 in Hz. lia.
Qed.

Lemma generation_exhaustion_witness :
  is_ok (Apply (board_after setup <| Board_NextGeneration := (two64 - 1)%Z |>) first_claim) = false.
Proof. apply generation_exhaustion; vm_compute; reflexivity. Defined.
