(* ===== verification/Verdict.v ===== *)
(** The verdict on a goal: what [EvaluateCompletion] answers, what a proven
    answer rests on, and the gate outcome that lets a stale verdict outlive the
    revision it was about. *)
From S2P Require Import Prelude Protocol Validate StateMachine Apply Spec Coordination.
From S2P Require Import Lifecycle Refine Simulation.

(** * Counting *)

Definition task_passed (t : Task) : bool := t.(Task_State) == TaskPassed.
(** Passed, or withdrawn on the record. *)
Definition task_settled (t : Task) : bool :=
  task_passed t || t.(Task_Cancelled) || (t.(Task_SupersededBy) != "").
Definition task_lost (t : Task) : bool := negb (task_settled t) && (t.(Task_State) == TaskFailed).
Definition task_open (t : Task) : bool := negb (task_settled t) && negb (t.(Task_State) == TaskFailed).

Definition count (p : Task → bool) (l : list Task) : Z := Z.of_nat (length (List.filter p l)).

Definition max_int : Z := 9223372036854775807.

(** Every task is settled, and there is one. *)
Definition all_settled (b : Board) : Prop :=
  b.(Board_Tasks) ≠ [] ∧ ∀ t, t ∈ b.(Board_Tasks) → task_settled t = true.

(** The gate's last verdict is about the integrated revision. *)
Definition gate_at (b : Board) (state : GateState) : Prop :=
  b.(Board_Gate).(ProjectGate_Commands) ≠ [] ∧ b.(Board_IntegratedRevision) ≠ "" ∧
  b.(Board_Gate).(ProjectGate_State) = state ∧
  b.(Board_Gate).(ProjectGate_Revision) = b.(Board_IntegratedRevision).

(** The verdict on a goal, case by case. *)
Inductive verdict (b : Board) : CompletionStatus → bool → bool → Prop :=
  | V_lost t :
      t ∈ b.(Board_Tasks) → task_lost t = true → verdict b CompletionFailed false false
  | V_open :
      (∀ t, t ∈ b.(Board_Tasks) → task_lost t = false) → ¬ all_settled b →
      verdict b CompletionInProgress false false
  | V_unchecked :
      all_settled b →
      b.(Board_Gate).(ProjectGate_Commands) = [] ∨ b.(Board_IntegratedRevision) = "" →
      verdict b CompletionPassed true false
  | V_proven : all_settled b → gate_at b GatePassed → verdict b CompletionPassed true true
  | V_rejected : all_settled b → gate_at b GateFailed → verdict b CompletionFailed false false
  | V_waiting :
      all_settled b → b.(Board_Gate).(ProjectGate_Commands) ≠ [] → b.(Board_IntegratedRevision) ≠ "" →
      ¬ gate_at b GatePassed → ¬ gate_at b GateFailed → verdict b CompletionUnproven false false.

(** * The gate along a history *)

Definition gate_command (c : Command) : Prop :=
  c.(Command_Type) = CommandGatePass ∨ c.(Command_Type) = CommandGateFail ∨
  c.(Command_Type) = CommandGateUnavailable.

(** A coordinator recorded that the gate passed at [revision]. *)
Definition recorded_pass (revision : string) (c : Command) : Prop :=
  c.(Command_Type) = CommandGatePass ∧ c.(Command_Actor).(Actor_Role) = RoleCoordinator ∧
  strings_TrimSpace c.(Command_Revision) = revision.

(** A passing gate was recorded as passing at the revision it names. *)
Definition gate_backed (cs : list Command) (s : state) : Prop :=
  s.(s_gate).(ProjectGate_State) = GatePassed →
  ∃ c, c ∈ cs ∧ recorded_pass s.(s_gate).(ProjectGate_Revision) c.

(** What one command does to the gate. *)
Inductive gate_change (c : Command) (s s' : state) : Prop :=
  | GC_same : s'.(s_gate) = s.(s_gate) → gate_change c s s'
  | GC_create : s'.(s_gate).(ProjectGate_State) ≠ GatePassed → gate_change c s s'
  | GC_unavailable : c.(Command_Type) = CommandGateUnavailable → gate_change c s s'
  | GC_pass :
      recorded_pass s'.(s_gate).(ProjectGate_Revision) c → gate_change c s s'.

(** * Histories used as examples *)

Definition gate_spec : GateSpec := mkGateSpec "make test" "" unixEpoch.
Definition gate_run (id : string) (v : Z) (type : CommandType) (revision : string) : Command :=
  (command id v boss type) <| Command_Gate := Some gate_spec |> <| Command_Revision := revision |>.

(** Both tasks are integrated, the gate having passed in between and been
    unavailable since. *)
Definition second_integration : list Command :=
  attempt_commands "2" "t2" 13 (Some patch_record) ++ [integrate "t2" "r2" 17].
Definition stale_history (verdict : CommandType) : list Command :=
  delivery ++ [gate_run "gate-1" 12 verdict "r1"] ++ second_integration.
Definition proven_history : list Command :=
  stale_history CommandGatePass ++ [gate_run "gate-2" 18 CommandGatePass "r2"].
Definition unavailable_history (verdict : CommandType) : list Command :=
  stale_history verdict ++ [gate_run "gate-2" 18 CommandGateUnavailable "r2"].

(** * Counting, proved *)

Lemma count_cons p t l : count p (t :: l) = ((if p t then 1 else 0) + count p l)%Z.
Proof. unfold count. cbn. destruct (p t); cbn [length]; lia. Qed.

Lemma count_bound p l : (0 ≤ count p l ≤ Z.of_nat (length l))%Z.
Proof. unfold count. pose proof (List.filter_length_le p l). lia. Qed.

Lemma count_all p l : count p l = Z.of_nat (length l) ↔ ∀ t, t ∈ l → p t = true.
Proof.
  induction l as [|t l IH]; [split; [by intros _ ? ?%not_elem_of_nil|done]|].
  rewrite count_cons. cbn [length]. pose proof (count_bound p l). setoid_rewrite elem_of_cons. split.
  - intros E. assert (p t = true ∧ count p l = Z.of_nat (length l)) as [? Hl]
      by (destruct (p t); (split; [try done; exfalso; lia|lia])).
    intros x [->|Hx]; [done|]. by apply (proj1 IH Hl).
  - intros E. rewrite (E t) by (by left). rewrite (proj2 IH); [lia|auto].
Qed.

Lemma count_none p l : (0 < count p l)%Z ↔ ∃ t, t ∈ l ∧ p t = true.
Proof.
  induction l as [|t l IH]; [split; [done|by intros (? & ?%not_elem_of_nil & _)]|].
  rewrite count_cons. pose proof (count_bound p l). setoid_rewrite elem_of_cons. split.
  - destruct (p t) eqn:E; [intros _; exists t; auto|]. intros Hc.
    destruct (proj1 IH) as (x & ? & ?); [lia|]. exists x; auto.
  - intros (x & [->|Hx] & E); [rewrite E; lia|].
    assert (0 < count p l)%Z by (apply IH; eauto). destruct (p t); lia.
Qed.

Definition once (b : bool) : Z := if b then 1%Z else 0%Z.

Lemma once_partition t :
  (once (task_passed t) + once (task_lost t) + once (task_open t) ≤ 1)%Z ∧
  (once (task_settled t) + once (task_lost t) + once (task_open t) = 1)%Z.
Proof.
  unfold task_lost, task_open, task_settled.
  by destruct (task_passed t), (Task_Cancelled t), (_ != _), (_ == TaskFailed).
Qed.

(** Every task is counted once. *)
Lemma count_partition l :
  (count task_passed l + count task_lost l + count task_open l ≤ Z.of_nat (length l))%Z ∧
  (count task_settled l + count task_lost l + count task_open l = Z.of_nat (length l))%Z.
Proof.
  induction l as [|t l [IH1 IH2]]; [done|]. rewrite !count_cons. cbn [length].
  pose proof (once_partition t) as [Hone Hsum]. unfold once in *. lia.
Qed.

Lemma countTask_once t p f r d v st n :
  (0 ≤ n < max_int)%Z → (0 ≤ p < max_int)%Z → (0 ≤ f < max_int)%Z → (0 ≤ r < max_int)%Z →
  countTask (mkCompletion st p f r d v, n) t =
    (mkCompletion st (p + once (task_passed t)) (f + once (task_lost t)) (r + once (task_open t)) d v,
     n + once (task_settled t))%Z.
Proof.
  unfold max_int. intros. unfold countTask, task_lost, task_open, task_settled, task_passed, once.
  destruct (_ == TaskPassed); [|destruct (Task_Cancelled t), (_ != _); [..|destruct (_ == TaskFailed)]];
    cbn; rewrite !i64_small by lia; by rewrite ?Z.add_0_r.
Qed.

(** The loop counts, as long as the counters stay within an int. *)
Lemma foldl_countTask l : ∀ c n,
  (0 ≤ n)%Z → (0 ≤ c.(Completion_Passed))%Z → (0 ≤ c.(Completion_Failed))%Z →
  (0 ≤ c.(Completion_Remaining))%Z →
  (n + Z.of_nat (length l) ≤ max_int)%Z → (c.(Completion_Passed) + Z.of_nat (length l) ≤ max_int)%Z →
  (c.(Completion_Failed) + Z.of_nat (length l) ≤ max_int)%Z →
  (c.(Completion_Remaining) + Z.of_nat (length l) ≤ max_int)%Z →
  foldl countTask (c, n) l =
    (c <| Completion_Passed := (c.(Completion_Passed) + count task_passed l)%Z |>
       <| Completion_Failed := (c.(Completion_Failed) + count task_lost l)%Z |>
       <| Completion_Remaining := (c.(Completion_Remaining) + count task_open l)%Z |>,
     (n + count task_settled l)%Z).
Proof.
  induction l as [|t l IH]; intros [st p f r d v] n; cbn [Completion_Passed Completion_Failed
    Completion_Remaining length]; intros.
  - cbn. by rewrite !Z.add_0_r.
  - unfold max_int in *. cbn [foldl]. rewrite countTask_once by (unfold max_int; lia). rewrite !count_cons.
    pose proof (once_partition t) as [Hone Hsum]. unfold once in *.
    rewrite IH.
    all: cbn [Completion_Passed Completion_Failed Completion_Remaining].
    { cbn. repeat (f_equal; [|lia]). f_equal; lia. }
    all: repeat match goal with |- context [if ?b then _ else _] => destruct b end; lia.
Qed.

(** * The gate, proved *)

Lemma patch_steps_gate id ps s s' : patch_steps id ps s s' → s'.(s_gate) = s.(s_gate).
Proof.
  induction 1 as [|p ps s1 s2 s3 H _ IH]; [done|]. rewrite IH. destruct H; try done.
  cbn. unfold end_work. by destruct (live t).
Qed.

Lemma step_gate_change c s s' : step c s s' → gate_change c s s'.
Proof.
  destruct 1; try (apply GC_same; reflexivity).
  - by apply GC_create.
  - subst. apply GC_same. by destruct (_ == TaskPassed).
  - apply GC_same. etrans; [|by eapply patch_steps_gate]; done.
  - apply GC_unavailable. by match goal with H : of_type _ _ _ |- _ => destruct H end.
  - apply GC_pass. match goal with H : of_type _ _ _ |- _ => destruct H as [Hty Hrole] end. done.
  - by apply GC_create.
Qed.

(** Without an unavailable gate, a passing gate always passed where it says. *)
Lemma reachable_gate cs s :
  reachable cs s → (∀ c, c ∈ cs → c.(Command_Type) ≠ CommandGateUnavailable) → gate_backed cs s.
Proof.
  intros Hr. induction Hr as [|cs c s s' _ IH H]; intros Hno; [done|].
  assert (gate_backed cs s) as Hb by (apply IH; intros; apply Hno, elem_of_app; by left).
  destruct (step_gate_change _ _ _ H) as [E|Hn|Hu|Hp].
  - unfold gate_backed. rewrite E. intros Hg. destruct (Hb Hg) as (d & Hd & ?).
    exists d. rewrite elem_of_app. auto.
  - intros Hg. by destruct Hn.
  - destruct (Hno c); [|done]. apply elem_of_app. right. by apply list_elem_of_singleton.
  - intros _. exists c. split; [|done]. apply elem_of_app. right. by apply list_elem_of_singleton.
Qed.

(** * The theorems *)

(** * The theorems *)

Lemma Established_spec g : ProjectGate_Established g = true ↔ g.(ProjectGate_Commands) ≠ [].
Proof.
  unfold ProjectGate_Established. destruct (ProjectGate_Commands g) as [|x l]; [by split|].
  split; [done|]. intros _. apply Z.ltb_lt. cbn [length]. lia.
Qed.

Lemma all_settled_count b :
  all_settled b ↔ b.(Board_Tasks) ≠ [] ∧
    count task_settled b.(Board_Tasks) = Z.of_nat (length b.(Board_Tasks)).
Proof. unfold all_settled. by rewrite count_all. Qed.

Lemma lost_unsettled b t : t ∈ b.(Board_Tasks) → task_lost t = true → ¬ all_settled b.
Proof.
  intros Ht Hl [_ H]. apply H in Ht. unfold task_lost in Hl. by rewrite Ht in Hl.
Qed.

Lemma verdict_unique b st d p st' d' p' :
  verdict b st d p → verdict b st' d' p' → (st, d, p) = (st', d', p').
Proof.
  assert (∀ t, t ∈ b.(Board_Tasks) → task_lost t = true →
    (∀ t, t ∈ b.(Board_Tasks) → task_lost t = false) → False) as Hlost.
  { intros t Ht Hl H. by rewrite (H _ Ht) in Hl. }
  assert (∀ st, gate_at b st →
    ¬ (b.(Board_Gate).(ProjectGate_Commands) = [] ∨ b.(Board_IntegratedRevision) = "")) as Hgate.
  { intros st0 (H1 & H2 & _). tauto. }
  assert (gate_at b GatePassed → gate_at b GateFailed → False) as Hboth.
  { intros (_ & _ & E1 & _) (_ & _ & E2 & _). by rewrite E1 in E2. }
  destruct 1, 1; try done; exfalso;
    solve [eauto | by eapply lost_unsettled | by eapply Hgate | tauto].
Qed.

Lemma verdict_evaluated b :
  (Z.of_nat (length b.(Board_Tasks)) ≤ max_int)%Z →
  let c := EvaluateCompletion b in
  verdict b c.(Completion_Status) c.(Completion_Done) c.(Completion_Proven) ∧
  c.(Completion_Passed) = count task_passed b.(Board_Tasks) ∧
  c.(Completion_Failed) = count task_lost b.(Board_Tasks) ∧
  c.(Completion_Remaining) = count task_open b.(Board_Tasks).
Proof.
  intros Hlen c. subst c. unfold EvaluateCompletion.
  rewrite foldl_countTask by (cbn; lia). cbn [Completion_zero Completion_Passed Completion_Failed
    Completion_Remaining Completion_Status]. rewrite !Z.add_0_l.
  assert (∀ g st, g = b.(Board_Gate) → ProjectGate_Established g = true →
    b.(Board_IntegratedRevision) ≠ "" →
    gate_at b st ↔ (g.(ProjectGate_State) == st) && (g.(ProjectGate_Revision) == b.(Board_IntegratedRevision))
      = true) as Hgate.
  { intros g st -> Hest Hrev. rewrite Established_spec in Hest. unfold gate_at.
    rewrite andb_true_iff, !String.eqb_eq. tauto. }
  destruct (0 <? _)%Z eqn:Hf; [apply Z.ltb_lt, count_none in Hf as (t & ? & ?)|].
  { split; [by eapply V_lost|done]. }
  assert (∀ t, t ∈ b.(Board_Tasks) → task_lost t = false) as Hno.
  { intros t Ht. apply not_true_is_false. intros Hl. apply Z.ltb_ge in Hf.
    assert (0 < count task_lost b.(Board_Tasks))%Z by (apply count_none; eauto). cbn in Hf. lia. }
  destruct ((_ =? 0)%nat || _) eqn:Hs.
  { split; [|done]. apply V_open; [done|]. rewrite all_settled_count. intros [Hne Hc].
    apply orb_true_iff in Hs as [Hs|Hs].
    - apply Nat.eqb_eq in Hs. by destruct (Board_Tasks b).
    - rewrite Hc, Z.eqb_refl in Hs. done. }
  apply orb_false_iff in Hs as [Hs1 Hs2]. apply negb_false_iff, Z.eqb_eq in Hs2.
  assert (all_settled b) as Hall.
  { apply all_settled_count. split; [|done]. intros E. by rewrite E in Hs1. }
  destruct (ProjectGate_Established (Board_Gate b)) eqn:Hest; cbn [negb].
  2:{ split; [|done]. apply V_unchecked; [done|left]. apply dec_stable. intros Hne.
      by rewrite (proj2 (Established_spec _) Hne) in Hest. }
  destruct (String.eqb_spec b.(Board_IntegratedRevision) "").
  { split; [|done]. apply V_unchecked; auto. }
  unfold ProjectGate_SatisfiedAt. rewrite Hest. cbn [negb].
  destruct (_ && _) eqn:Hp; [|destruct (_ && _) eqn:Hq in |- *]; (split; [|done]).
  - apply V_proven; [done|]. by apply (Hgate _ _ eq_refl).
  - apply V_rejected; [done|]. by apply (Hgate _ _ eq_refl).
  - apply V_waiting; try done; [by apply Established_spec|..];
      rewrite (Hgate _ _ eq_refl) by done; congruence.
Qed.

(** [EvaluateCompletion] gives the verdict of the specification and no other:
    failed when a task is lost or the gate rejected the integrated revision,
    in progress while a task is open, done without proof when there is nothing
    to check, proven only by a gate that passed at the integrated revision,
    unproven otherwise; and its counters count the tasks, for any number of
    tasks an int can count. *)
Theorem completion_verdict b :
  (Z.of_nat (length b.(Board_Tasks)) ≤ max_int)%Z →
  let c := EvaluateCompletion b in
  c.(Completion_Passed) = count task_passed b.(Board_Tasks) ∧
  c.(Completion_Failed) = count task_lost b.(Board_Tasks) ∧
  c.(Completion_Remaining) = count task_open b.(Board_Tasks) ∧
  ∀ status done proven,
    verdict b status done proven ↔
    (status, done, proven) = (c.(Completion_Status), c.(Completion_Done), c.(Completion_Proven)).
Proof.
  intros Hlen c. destruct (verdict_evaluated b Hlen) as (Hv & ? & ? & ?). split_and!; try done.
  intros st d p. split; [intros Hst|by intros [= -> -> ->]]. by eapply verdict_unique.
Qed.

Lemma completion_verdict_witness :
  verdict (board_after proven_history) CompletionPassed true true ∧
  verdict (board_after delivery) CompletionInProgress false false.
Proof.
  split; apply completion_verdict; vm_compute; try reflexivity; discriminate.
Defined.

(** A proof is about the integrated revision: when no command of the history
    recorded the gate as unavailable, a goal is only ever proven by a result a
    coordinator recorded as passing at the revision now integrated. *)
Theorem proof_is_current cs b :
  runs cs b → (∀ c, c ∈ cs → c.(Command_Type) ≠ CommandGateUnavailable) →
  (Z.of_nat (length b.(Board_Tasks)) ≤ max_int)%Z →
  (EvaluateCompletion b).(Completion_Proven) = true →
  ∃ c, c ∈ cs ∧ recorded_pass b.(Board_IntegratedRevision) c.
Proof.
  intros Hr Hno Hlen Hp. destruct (verdict_evaluated b Hlen) as [Hv _]. rewrite Hp in Hv.
  inversion Hv as [| | |_ (_ & _ & Hst & Hrev)| |]. rewrite <- Hrev.
  by apply (reachable_gate _ _ (runs_reachable _ _ Hr) Hno).
Qed.

Lemma proof_is_current_witness :
  ∃ c, c ∈ proven_history ∧ recorded_pass "r2" c.
Proof.
  apply (proof_is_current proven_history (board_after proven_history)).
  - replayed.
  - assert (forallb (λ c, negb (c.(Command_Type) == CommandGateUnavailable)) proven_history = true) as H
      by (vm_compute; reflexivity).
    rewrite forallb_forall in H. intros c Hc E. apply list_elem_of_In, H in Hc. by rewrite E in Hc.
  - vm_compute. discriminate.
  - vm_compute. reflexivity.
Defined.

Lemma unavailable_gate_inv b c b' es :
  Apply b c = Ok (b', es) → c.(Command_Type) = CommandGateUnavailable →
  b'.(Board_Tasks) = b.(Board_Tasks) ∧ b'.(Board_IntegratedRevision) = b.(Board_IntegratedRevision) ∧
  b.(Board_Gate).(ProjectGate_Commands) ≠ [] ∧ strings_TrimSpace c.(Command_Revision) ≠ "" ∧
  b'.(Board_Gate).(ProjectGate_Commands) = b.(Board_Gate).(ProjectGate_Commands) ∧
  b'.(Board_Gate).(ProjectGate_State) = b.(Board_Gate).(ProjectGate_State) ∧
  b'.(Board_Gate).(ProjectGate_Revision) = strings_TrimSpace c.(Command_Revision).
Proof.
  intros H Hty. apply Apply_inv in H as [H _]. unfold dispatch in H. rewrite Hty in H.
  change (applyGate b c = Ok (b', es)) in H.
  unfold applyGate, requireRole, requireInitialized, setGate in H. rewrite Hty in H. inv_ok.
  cbn in H. inv_ok. split_and!; try done. by apply Established_spec.
Qed.

(** An unavailable gate revives a stale verdict: recording that the gate could
    not run at the integrated revision moves the revision of the last verdict
    and keeps the verdict, so a goal whose gate passed at an earlier revision
    is then reported proven, and one whose gate failed is reported failed,
    though no gate has run at the integrated revision. *)
Theorem unavailable_gate_revives_verdict b c b' es :
  Apply b c = Ok (b', es) → c.(Command_Type) = CommandGateUnavailable →
  strings_TrimSpace c.(Command_Revision) = b.(Board_IntegratedRevision) →
  (Z.of_nat (length b.(Board_Tasks)) ≤ max_int)%Z → all_settled b →
  (b.(Board_Gate).(ProjectGate_State) = GatePassed →
     (EvaluateCompletion b').(Completion_Proven) = true) ∧
  (b.(Board_Gate).(ProjectGate_State) = GateFailed →
     (EvaluateCompletion b').(Completion_Status) = CompletionFailed).
Proof.
  intros H Hty Hrev Hlen Hall.
  destruct (unavailable_gate_inv _ _ _ _ H Hty) as (Et & Er & Hc & Hne & Ec & Es & Eg).
  rewrite <- Et in Hlen. destruct (verdict_evaluated b' Hlen) as [Hv _].
  assert (all_settled b') as Hall' by (unfold all_settled; by rewrite Et).
  assert (∀ st, b.(Board_Gate).(ProjectGate_State) = st → gate_at b' st) as Hg.
  { intros st E. unfold gate_at. by rewrite Ec, Er, Es, Eg, <- Hrev. }
  split; intros E.
  - by injection (verdict_unique _ _ _ _ _ _ _ Hv (V_proven _ Hall' (Hg _ E))).
  - by injection (verdict_unique _ _ _ _ _ _ _ Hv (V_rejected _ Hall' (Hg _ E))).
Qed.

Lemma all_settled_b b :
  match b.(Board_Tasks) with [] => false | l => forallb task_settled l end = true → all_settled b.
Proof.
  unfold all_settled. destruct (Board_Tasks b) as [|t l] eqn:E; [done|]. intros H. split; [done|].
  rewrite forallb_forall in H. intros x Hx. by apply H, list_elem_of_In.
Qed.

Lemma unavailable_gate_revives_verdict_witness :
  (EvaluateCompletion (board_after (unavailable_history CommandGatePass))).(Completion_Proven) = true ∧
  (EvaluateCompletion (board_after (unavailable_history CommandGateFail))).(Completion_Status)
    = CompletionFailed.
Proof.
  split.
  - apply (unavailable_gate_revives_verdict (board_after (stale_history CommandGatePass))
      (gate_run "gate-2" 18 CommandGateUnavailable "r2") _
      (events_of (board_after (stale_history CommandGatePass))
         (gate_run "gate-2" 18 CommandGateUnavailable "r2")));
    [..|apply all_settled_b|]; vm_compute; (reflexivity || discriminate).
  - apply (unavailable_gate_revives_verdict (board_after (stale_history CommandGateFail))
      (gate_run "gate-2" 18 CommandGateUnavailable "r2") _
      (events_of (board_after (stale_history CommandGateFail))
         (gate_run "gate-2" 18 CommandGateUnavailable "r2")));
    [..|apply all_settled_b|]; vm_compute; (reflexivity || discriminate).
Defined.
