(* ===== verification/Admission.v ===== *)
(** What [Apply] does with the event log and the version, and how work starts and fails. *)
From stdpp Require Import relations.
From S2P Require Import Prelude Protocol Validate Wellformed StateMachine Apply Spec.
From S2P Require Import Coordination Lifecycle History Readiness Refine Simulation Safety.

(** How work starts and how it fails: the conditions and the outcome of a
    claim, the retry policy, the life of a task, and the claim that skips a
    prerequisite. *)

(** The class a failure is recorded under: the command's, or the default of its kind. *)
Definition failure_class (c : Command) : FailureClass :=
  or_default c.(Command_FailureClass)
    (if c.(Command_Type) == CommandEvidenceReject then FailureVerifierFeedback else FailureTransient).

Definition failing : list CommandType := [CommandAttemptFail; CommandEvidenceReject; CommandLeaseExpire].

(** The entities a command ends the work of. *)
Record work (b : Board) (t : Task) (a : Attempt) (l : Lease) : Prop := {
  wk_task : t ∈ b.(Board_Tasks);
  wk_attempt : a ∈ b.(Board_Attempts);
  wk_lease : l ∈ b.(Board_Leases);
  wk_active_attempt : t.(Task_ActiveAttemptID) = a.(Attempt_ID);
  wk_active_lease : t.(Task_ActiveLeaseID) = l.(Lease_ID);
  wk_state : t.(Task_State) ∈ [TaskLeased; TaskRunning; TaskVerifying];
}.

(** * Histories used as examples *)

(** A claimed attempt that fails for a reason worth another try. *)
Definition failed_once : list Command :=
  setup ++ [first_claim;
    (command "fail-1" 7 worker CommandAttemptFail)
      <| Command_TaskID := "t1" |> <| Command_AttemptID := "attempt-1" |>
      <| Command_FencingToken := "token-1" |> <| Command_FailureClass := FailureTransient |>
      <| Command_NextEligibleAt := unixEpoch |> <| Command_Reason := "lost" |> ].

(** The plan then changes: a new task, and the failed one now depends on it. *)
Definition late_prerequisite : Command :=
  (command "replan" 8 boss CommandPlanPatch)
    <| Command_Patch := Some (mkPatchSpec "p1"
         [PatchStep_zero <| PatchStep_Operation := PatchAddTask |>
            <| PatchStep_Task := Some (task_spec "t0") |>;
          PatchStep_zero <| PatchStep_Operation := PatchAddDependency |>
            <| PatchStep_TaskID := "t1" |> <| PatchStep_DependsOn := "t0" |>] "found a gap") |>.
Definition replanned : list Command := failed_once ++ [late_prerequisite].
Definition second_claim : Command :=
  (command "acquire-2" 9 boss CommandLeaseAcquire)
    <| Command_Lease := Some (lease_spec "2" "t1") |>.

(** * The failure of an attempt *)

Lemma working_states t st : working t = Some st → t.(Task_State) ∈ [TaskLeased; TaskRunning; TaskVerifying].
Proof.
  unfold working. rewrite !elem_of_cons.
  repeat match goal with |- context [?x == ?y] => destruct (String.eqb_spec x y); [tauto|] end. done.
Qed.

Lemma active_work cs b t st a l :
  runs cs b → s_tasks (abs b) !! t.(Task_ID) = Some t → working t = Some st →
  active (abs b) t st a l → work b t a l.
Proof.
  intros Hr Ht Hw Ha. pose proof (runs_coordinated _ _ Hr) as Hc.
  pose proof (proj1 (proj2 (co_keyed _ Hc)) _ _ (ac_attempt _ _ _ _ _ Ha)) as Ea.
  pose proof (proj1 (proj2 (proj2 (co_keyed _ Hc))) _ _ (ac_lease _ _ _ _ _ Ha)) as El.
  split; try done; [by apply (runs_task _ _ _ Hr)| | |by eapply working_states].
  - apply (runs_attempt _ _ _ Hr). rewrite Ea. apply (ac_attempt _ _ _ _ _ Ha).
  - apply (runs_lease _ _ _ Hr). rewrite El. apply (ac_lease _ _ _ _ _ Ha).
Qed.

(** Every failing command records the same failure of the work it ends. *)
Lemma failing_step c s s' :
  coordinated s → step c s s' → c.(Command_Type) ∈ failing →
  ∃ st t a l, s.(s_tasks) !! t.(Task_ID) = Some t ∧ working t = Some st ∧ active s t st a l ∧
    failure_ok t (failure_class c) c.(Command_NextEligibleAt) ∧
    s'.(s_tasks) = <[t.(Task_ID) := failed_task t (failure_class c) c.(Command_Reason)
                                     c.(Command_NextEligibleAt)]> s.(s_tasks) ∧
    s'.(s_attempts) = <[a.(Attempt_ID) := failed_attempt a (failure_class c) c.(Command_Reason)]>
                        s.(s_attempts) ∧
    s'.(s_leases) = <[l.(Lease_ID) := completed l]> s.(s_leases).
Proof.
  intros Hc Hs Hty. unfold failing in Hty. rewrite !elem_of_cons, elem_of_nil in Hty.
  assert (∀ t el, failure_ok t c.(Command_FailureClass) el →
    or_default c.(Command_FailureClass) FailureTransient = c.(Command_FailureClass)) as Hown.
  { intros t el (_ & Hne & _). unfold or_default. by rewrite (proj2 (String.eqb_neq _ _) Hne). }
  destruct Hs; try (match goal with H : of_type _ _ _ |- _ => destruct H as [E _] end;
    exfalso; rewrite E in Hty; by destruct Hty as [?|[?|[?|[]]]]).
  - match goal with H : of_type _ _ _ |- _ => destruct H as [E _] end.
    assert (failure_class c = class) as -> by (unfold failure_class; by rewrite E).
    destruct (deciding_active _ _ _ _ _ _ Hc H0) as (Hw & Ha & _). destruct H0 as (_ & Ht & _).
    rewrite <- (task_id_of _ _ _ Hc Ht) in Ht. exists AttemptVerifying, t, a, l.
    split_and!; try done; cbn; by rewrite failed_task_id.
  - match goal with H : of_type _ _ _ |- _ => destruct H as [E _] end.
    assert (failure_class c = c.(Command_FailureClass)) as ->
      by (unfold failure_class; rewrite E; by eapply Hown).
    destruct (executing_active _ _ _ _ _ Hc H0) as (st & Hw & _ & Ha); [done|].
    destruct H0 as (_ & Ht & _). rewrite <- (task_id_of _ _ _ Hc Ht) in Ht. exists st, t, a, l.
    split_and!; try done; cbn; by rewrite failed_task_id.
  - match goal with H : of_type _ _ _ |- _ => destruct H as [E _] end.
    assert (failure_class c = class) as -> by (unfold failure_class; by rewrite E).
    destruct (lease_active s _ l t a Hc H1) as (st & Hw & Ha); try done.
    rewrite <- (task_id_of _ _ _ Hc H3) in H3. exists st, t, a, l.
    split_and!; try done; cbn; by rewrite failed_task_id.
  - destruct b; match goal with H : of_type _ _ _ |- _ => destruct H as [E _] end;
      exfalso; rewrite E in Hty; by destruct Hty as [?|[?|[?|[]]]].
Qed.

(** * The claim of a task *)

Lemma acquire_inv c s s' :
  step c s s' → c.(Command_Type) = CommandLeaseAcquire →
  c.(Command_Actor).(Actor_Role) = RoleCoordinator ∧
  ∃ spec t, c.(Command_Lease) = Some spec ∧ s.(s_paused) = false ∧
    s.(s_tasks) !! spec.(LeaseSpec_TaskID) = Some t ∧
    (t.(Task_State) = TaskReady ∨
     t.(Task_State) = TaskRetryWait ∧ (t.(Task_NextEligibleAt) ≤ spec.(LeaseSpec_AcquiredAt))%Z) ∧
    (t.(Task_AttemptCount) < MaxAttempts)%Z ∧
    s.(s_leases) !! spec.(LeaseSpec_ID) = None ∧ s.(s_attempts) !! spec.(LeaseSpec_AttemptID) = None ∧
    spec.(LeaseSpec_FencingToken) ≠ "" ∧ unissued s spec.(LeaseSpec_FencingToken) ∧
    s'.(s_tasks) = <[t.(Task_ID) := leased_task t spec]> s.(s_tasks) ∧
    s'.(s_attempts) = <[spec.(LeaseSpec_AttemptID) := new_attempt s t spec]> s.(s_attempts) ∧
    s'.(s_leases) = <[spec.(LeaseSpec_ID) := new_lease s t spec]> s.(s_leases).
Proof.
  intros Hs Hty. destruct Hs; try (match goal with H : of_type _ _ _ |- _ => destruct H as [E _] end;
    rewrite Hty in E; discriminate E).
  - match goal with H : of_type _ _ _ |- _ => destruct H as [_ Hrole] end.
    split; [done|]. exists spec, t. by split_and!.
  - destruct b; match goal with H : of_type _ _ _ |- _ => destruct H as [E _] end;
      rewrite Hty in E; discriminate E.
Qed.

(** * The theorems *)

(** The retry policy: a worker's failure, a verifier's rejection and a lapsed
    lease end the work of one task, failing its attempt and completing its
    lease; the task waits for another attempt exactly when the class is
    retryable and its attempts are not used up, and otherwise fails, under the
    class "exhausted" when only the attempts ran out. *)
Theorem failure_policy cs b c b' es :
  runs cs b → Apply b c = Ok (b', es) → c.(Command_Type) ∈ failing →
  ∃ t a l t' a' l', work b t a l ∧
    t' ∈ b'.(Board_Tasks) ∧ a' ∈ b'.(Board_Attempts) ∧ l' ∈ b'.(Board_Leases) ∧
    t'.(Task_ID) = t.(Task_ID) ∧ a'.(Attempt_ID) = a.(Attempt_ID) ∧ l'.(Lease_ID) = l.(Lease_ID) ∧
    a'.(Attempt_State) = AttemptFailed ∧ a'.(Attempt_FailureClass) = failure_class c ∧
    l'.(Lease_State) = LeaseCompleted ∧
    t'.(Task_ActiveAttemptID) = "" ∧ t'.(Task_ActiveLeaseID) = "" ∧
    t'.(Task_BlockedReason) = c.(Command_Reason) ∧
    if FailureClass_Retryable (failure_class c) && (t.(Task_AttemptCount) <? MaxAttempts)%Z
    then t'.(Task_State) = TaskRetryWait ∧ t'.(Task_FailureClass) = failure_class c ∧
         t'.(Task_NextEligibleAt) = c.(Command_NextEligibleAt) ∧ t'.(Task_NextEligibleAt) ≠ Time_zero
    else t'.(Task_State) = TaskFailed ∧ t'.(Task_NextEligibleAt) = Time_zero ∧
         t'.(Task_FailureClass) = if FailureClass_Retryable (failure_class c) then FailureExhausted
                                  else failure_class c.
Proof.
  intros Hr H Hty. assert (runs (cs ++ [c]) b') as Hr' by by eapply runs_apply.
  destruct (failing_step _ _ _ (runs_coordinated _ _ Hr) (apply_step _ _ _ _ H) Hty)
    as (st & t & a & l & Ht & Hw & Ha & (_ & _ & Hel) & Et & Ea & El).
  exists t, a, l, (failed_task t (failure_class c) c.(Command_Reason) c.(Command_NextEligibleAt)),
    (failed_attempt a (failure_class c) c.(Command_Reason)), (completed l).
  split_and!; try done; [by eapply active_work|..].
  - apply (runs_task _ _ _ Hr'). rewrite failed_task_id, Et. apply lookup_insert_eq.
  - apply (runs_attempt _ _ _ Hr'). rewrite Ea. apply lookup_insert_eq.
  - apply (runs_lease _ _ _ Hr'). rewrite El. apply lookup_insert_eq.
  - apply failed_task_id.
  - unfold failed_task. by destruct (retries _ _).
  - unfold failed_task. by destruct (retries _ _).
  - unfold failed_task. by destruct (retries _ _).
  - change (FailureClass_Retryable (failure_class c) && (t.(Task_AttemptCount) <? MaxAttempts)%Z)
      with (retries t (failure_class c)).
    unfold failed_task. destruct (retries t (failure_class c)) eqn:E; split_and!; try done. by apply Hel.
Qed.

Lemma failure_policy_witness :
  ∃ t, t ∈ (board_after failed_once).(Board_Tasks) ∧ t.(Task_BlockedReason) = "lost".
Proof.
  destruct (failure_policy (setup ++ [first_claim]) claimed (nth 7 failed_once Command_zero)
    (board_after failed_once) (events_of claimed (nth 7 failed_once Command_zero)))
    as (t & a & l & t' & a' & l' & _ & Ht' & _ & _ & _ & _ & _ & _ & _ & _ & _ & _ & E & _).
  - replayed.
  - vm_compute. reflexivity.
  - vm_compute. left.
  - exists t'. split; [exact Ht'|exact E].
Defined.

(** Admission: a claim is accepted only from a coordinator, on a board that is
    not paused, for a task that is ready with every prerequisite passed, or
    waiting to be retried and out of its backoff, with attempts left and with
    ids and a fencing token never used on the board; and it leaves the task
    leased by one new attempt and one new active lease that share the worker,
    the token and the generation. *)
Theorem claim_admission cs b c b' es :
  runs cs b → Apply b c = Ok (b', es) → c.(Command_Type) = CommandLeaseAcquire →
  c.(Command_Actor).(Actor_Role) = RoleCoordinator ∧ b.(Board_Paused) = false ∧
  ∃ spec t t' a l, c.(Command_Lease) = Some spec ∧
    t ∈ b.(Board_Tasks) ∧ t.(Task_ID) = spec.(LeaseSpec_TaskID) ∧
    (t.(Task_State) = TaskReady ∧ dependenciesPassed b t.(Task_ID) = true ∨
     t.(Task_State) = TaskRetryWait ∧ (t.(Task_NextEligibleAt) ≤ spec.(LeaseSpec_AcquiredAt))%Z) ∧
    (t.(Task_AttemptCount) < MaxAttempts)%Z ∧
    (∀ a0, a0 ∈ b.(Board_Attempts) → a0.(Attempt_ID) ≠ spec.(LeaseSpec_AttemptID) ∧
       a0.(Attempt_FencingToken) ≠ spec.(LeaseSpec_FencingToken)) ∧
    (∀ l0, l0 ∈ b.(Board_Leases) → l0.(Lease_ID) ≠ spec.(LeaseSpec_ID) ∧
       l0.(Lease_FencingToken) ≠ spec.(LeaseSpec_FencingToken)) ∧
    t' ∈ b'.(Board_Tasks) ∧ t'.(Task_ID) = t.(Task_ID) ∧ t'.(Task_State) = TaskLeased ∧
    t'.(Task_AttemptCount) = (t.(Task_AttemptCount) + 1)%Z ∧
    work b' t' a l ∧ a.(Attempt_State) = AttemptLeased ∧ l.(Lease_State) = LeaseActive ∧
    a.(Attempt_WorkerID) = spec.(LeaseSpec_WorkerID) ∧ l.(Lease_WorkerID) = spec.(LeaseSpec_WorkerID) ∧
    a.(Attempt_FencingToken) = spec.(LeaseSpec_FencingToken) ∧
    l.(Lease_FencingToken) = spec.(LeaseSpec_FencingToken) ∧
    a.(Attempt_Generation) = b.(Board_NextGeneration) ∧ l.(Lease_Generation) = b.(Board_NextGeneration).
Proof.
  intros Hr H Hty. assert (runs (cs ++ [c]) b') as Hr' by by eapply runs_apply.
  pose proof (runs_reachable _ _ Hr) as Hreach. pose proof (runs_coordinated _ _ Hr) as Hc.
  destruct (acquire_inv _ _ _ (apply_step _ _ _ _ H) Hty)
    as (Hrole & spec & t & Hspec & Hp & Ht & Hst & Hcount & Hl & Ha & Hne & [Hfl Hfa] & Et & Ea & El).
  split_and!; [done..|]. pose proof (task_id_of _ _ _ Hc Ht) as Eid.
  exists spec, t, (leased_task t spec), (new_attempt (abs b) t spec), (new_lease (abs b) t spec).
  assert (leased_task t spec ∈ b'.(Board_Tasks)) as Ht'.
  { apply (runs_task _ _ _ Hr'). rewrite Et. apply lookup_insert_eq. }
  split_and!; try done.
  - apply (runs_task _ _ _ Hr). by rewrite Eid.
  - destruct Hst as [Hst|Hst]; [left|by right]. split; [done|]. rewrite dependenciesPassed_cleared.
    eapply (reachable_readiness _ _ Hreach); [by rewrite Eid|done].
  - intros a0 Ha0%(runs_attempt _ _ _ Hr). split; [congruence|by eapply Hfa].
  - intros l0 Hl0%(runs_lease _ _ _ Hr). split; [congruence|by eapply Hfl].
  - cbn. apply i64_small. pose proof (reachable_count _ _ _ _ Hreach Ht). unfold MaxAttempts in *. lia.
  - split; try done; [| |left].
    + apply (runs_attempt _ _ _ Hr'). rewrite Ea. apply lookup_insert_eq.
    + apply (runs_lease _ _ _ Hr'). rewrite El. apply lookup_insert_eq.
Qed.

Lemma claim_admission_witness :
  ∃ t a l, work claimed t a l ∧ a.(Attempt_FencingToken) = "token-1".
Proof.
  destruct (claim_admission setup (board_after setup) first_claim claimed claim_events setup_runs)
    as (_ & _ & spec & t & t' & a & l & E & _ & _ & _ & _ & _ & _ & _ & _ & _ & _ & Hw & _ & _ & _ & _ & Et & _).
  - vm_compute. reflexivity.
  - reflexivity.
  - exists t', a, l. split; [exact Hw|]. rewrite Et. by injection E as <-.
Defined.

(** A prerequisite added by a plan patch to a task that waits to be retried does
    not hold the task back: only a ready task is blocked by the patch, and a
    claim checks no dependency, so an accepted history leads to a claim of a
    task one of whose prerequisites has not passed. *)
Theorem retry_skips_new_prerequisite :
  ∃ cs b c b' es t t0 d,
    runs cs b ∧ Apply b c = Ok (b', es) ∧ c.(Command_Type) = CommandLeaseAcquire ∧
    t ∈ b.(Board_Tasks) ∧ t0 ∈ b.(Board_Tasks) ∧ d ∈ b.(Board_Dependencies) ∧
    d.(Dependency_TaskID) = t.(Task_ID) ∧ d.(Dependency_DependsOn) = t0.(Task_ID) ∧
    (LeaseSpec_TaskID <$> c.(Command_Lease)) = Some t.(Task_ID) ∧
    t0.(Task_State) ≠ TaskPassed ∧ dependenciesPassed b t.(Task_ID) = false.
Proof.
  exists replanned, (board_after replanned), second_claim, (board_after (replanned ++ [second_claim])),
    (events_of (board_after replanned) second_claim), (task_of (board_after replanned) 0),
    (task_of (board_after replanned) 2), (mkDependency "p1:t1:t0" "t1" "t0").
  split_and!; try (vm_compute; reflexivity).
  - replayed.
  - vm_compute. left.
  - vm_compute. right. right. left.
  - vm_compute. right. left.
  - vm_compute. discriminate.
Qed.

(** The life of a task: an accepted command moves every task along edges of the
    task state machine, each labelled with the kind of command that may take
    it, keeping its id, title, access mode, origin and evidence except where
    the edge says; tasks are never removed, and a task that appears is planned,
    ready or blocked, unattempted. *)
Theorem task_lifecycle cs b c b' es :
  runs cs b → Apply b c = Ok (b', es) →
  (∀ t, t ∈ b.(Board_Tasks) →
    ∃ t', t' ∈ b'.(Board_Tasks) ∧ t'.(Task_ID) = t.(Task_ID) ∧ rtc (task_edge c) t t') ∧
  (∀ t', t' ∈ b'.(Board_Tasks) →
    (∃ t, t ∈ b.(Board_Tasks) ∧ t.(Task_ID) = t'.(Task_ID)) ∨
    ∃ t0, fresh_task t0 ∧ rtc (task_edge c) t0 t').
Proof.
  intros Hr H. assert (runs (cs ++ [c]) b') as Hr' by by eapply runs_apply.
  destruct (reachable_evolves _ _ _ _ (runs_reachable _ _ Hr) (apply_step _ _ _ _ H)) as [Hd He]. split.
  - intros t Ht%(runs_task _ _ _ Hr). destruct (Hd t.(Task_ID)) as [t' Ht']; [by eexists|].
    pose proof (task_id_of _ _ _ (runs_coordinated _ _ Hr') Ht') as Eid.
    exists t'. split_and!; [apply (runs_task _ _ _ Hr'); by rewrite Eid|done|].
    destruct (He _ _ Ht') as (t0 & [Ht0|[Ht0 _]] & Hrtc); congruence.
  - intros t' Ht'%(runs_task _ _ _ Hr'). destruct (He _ _ Ht') as (t0 & [Ht0|[_ Hf]] & Hrtc).
    + left. exists t0. pose proof (task_id_of _ _ _ (runs_coordinated _ _ Hr) Ht0) as Eid.
      split; [|done]. apply (runs_task _ _ _ Hr). by rewrite Eid.
    + right. by exists t0.
Qed.

Lemma task_lifecycle_witness :
  ∃ t', t' ∈ started.(Board_Tasks) ∧ t'.(Task_ID) = "t1" ∧
    rtc (task_edge first_start) (task_of claimed 0) t'.
Proof.
  destruct (task_lifecycle (setup ++ [first_claim]) claimed first_start started
    (events_of claimed first_start)) as [H _].
  - replayed.
  - vm_compute. reflexivity.
  - apply (H (task_of claimed 0)). vm_compute. left.
Defined.

(** The event log of a command: how [Apply] numbers its events and advances the
    version of the board. *)

(** The header of a board: its id and repository, and the version [emit] advances. *)
Definition header (b : Board) : (string * string) * Z :=
  ((b.(Board_ID), b.(Board_Repository)), b.(Board_Version)).

(** [e] is the [n]-th event, from 0, that [c] emitted on a board [id] of version [v]. *)
Record stamped (c : Command) (id : string) (v : Z) (n : nat) (e : Event) : Prop := {
  stamp_schema : e.(Event_SchemaVersion) = SchemaVersion;
  stamp_id : e.(Event_ID) = c.(Command_ID) +:+ ":" +:+ pretty (S n);
  stamp_command : e.(Event_CommandID) = c.(Command_ID);
  stamp_board : e.(Event_BoardID) = id;
  stamp_version : e.(Event_Version) = u64 (v + Z.of_nat (S n));
  stamp_actor : e.(Event_Actor) = c.(Command_Actor);
}.

(** A working copy whose log is numbered from version [v]. *)
Definition numbered (c : Command) (id : string * string) (v : Z) (w : Working) : Prop :=
  header w.1 = (id, u64 (v + Z.of_nat (length w.2))) ∧
  ∀ n e, w.2 !! n = Some e → stamped c id.1 v n e.

Lemma u64_add_u64 v n : u64 (u64 v + n) = u64 (v + n).
Proof. unfold u64. by rewrite Zplus_mod_idemp_l. Qed.

Lemma emit_numbered c id v e w : numbered c id v w → numbered c id v (emit c e w).
Proof.
  destruct w as [b es], id as [id r]. intros [[= Hid Hrep Hv] Hes]. split.
  - unfold header. cbn. rewrite Hid, Hrep, Hv, u64_add_u64, length_app. cbn [length].
    f_equal. f_equal. lia.
  - cbn. intros n x [Hx|[Hn Hx]]%lookup_app_Some; [by apply Hes|].
    apply list_lookup_singleton_Some in Hx as [Hz <-].
    assert (n = length es) as -> by lia. split; cbn; try done.
    rewrite Hv, u64_add_u64. f_equal. lia.
Qed.

(** ... and holds at least one event. *)
Definition logged (c : Command) (id : string * string) (v : Z) (w : Working) : Prop :=
  numbered c id v w ∧ w.2 ≠ [].

Lemma emit_logged c id v e w : numbered c id v w → logged c id v (emit c e w).
Proof.
  intros H. split; [by apply emit_numbered|]. destruct w as [b es]. cbn. by destruct es.
Qed.

Lemma start_numbered c id v b0 :
  header b0 = (id, v) → (0 ≤ v < two64)%Z → numbered c id v (b0, []).
Proof.
  intros E Hv. split; [|done]. cbn [fst snd length]. by rewrite E, Z.add_0_r, u64_small.
Qed.

(** From here on [emit] is known by this lemma only. *)
#[local] Opaque emit.

(** * Nothing but [emit] changes the header *)

Lemma setTask_header b i f b' : setTask b i f = Ok b' → header b' = header b.
Proof. unfold setTask. intros H. by inv_ok. Qed.
Lemma setAttempt_header b i f b' : setAttempt b i f = Ok b' → header b' = header b.
Proof. unfold setAttempt. intros H. by inv_ok. Qed.
Lemma setLease_header b i f b' : setLease b i f = Ok b' → header b' = header b.
Proof. unfold setLease. intros H. by inv_ok. Qed.
Lemma setEvidence_header b i f b' : setEvidence b i f = Ok b' → header b' = header b.
Proof. unfold setEvidence. intros H. by inv_ok. Qed.

Lemma transitionAttempt_header b c ft tt fa ta b' :
  transitionAttempt b c ft tt fa ta = Ok b' → header b' = header b.
Proof.
  unfold transitionAttempt. intros H. inv_ok.
  etrans; [by eapply setAttempt_header|by eapply setTask_header].
Qed.
Lemma recordAttemptFailure_header b i j k class reason el b' :
  recordAttemptFailure b i j k class reason el = Ok b' → header b' = header b.
Proof.
  unfold recordAttemptFailure. intros H. inv_ok.
  etrans; [by eapply setTask_header|]. etrans; [by eapply setLease_header|by eapply setAttempt_header].
Qed.

(** Replaces each update in the context by its equations on ids and versions. *)
Ltac headers :=
  repeat match goal with H : (if _ then _ else _) = Ok _ |- _ => case_match end; inv_ok;
  repeat match goal with
  | H : setTask _ _ _ = Ok _ |- _ => apply setTask_header in H
  | H : setAttempt _ _ _ = Ok _ |- _ => apply setAttempt_header in H
  | H : setLease _ _ _ = Ok _ |- _ => apply setLease_header in H
  | H : setEvidence _ _ _ = Ok _ |- _ => apply setEvidence_header in H
  | H : transitionAttempt _ _ _ _ _ _ = Ok _ |- _ => apply transitionAttempt_header in H
  | H : recordAttemptFailure _ _ _ _ _ _ _ = Ok _ |- _ => apply recordAttemptFailure_header in H
  end;
  unfold header in *;
  repeat match goal with
  | H : (Board_ID _, Board_Repository _, Board_Version _) = _ |- _ =>
      injection H; clear H; cbn [Board_ID Board_Repository Board_Version]; intros
  end;
  cbn; congruence.

Lemma applyPatchStep_header b id p b' : applyPatchStep b id p = Ok b' → header b' = header b.
Proof.
  unfold applyPatchStep. revert b'.
  apply (switch_Ok (λ _ h, ∀ b', h b id p = Ok b' → header b' = header b)); [|done].
  repeat (apply Forall_cons; split); try (by apply Forall_nil); cbn; intros _ b' H.
  - unfold patchAddTask in H. inv_ok; headers.
  - unfold patchAddDependency in H. inv_ok; headers.
  - unfold patchRemoveDependency in H. inv_ok; destruct (removeEdge _ _ _); inv_ok; headers.
  - unfold patchUpdateAcceptance in H. inv_ok; headers.
  - unfold patchSupersedeTask in H. inv_ok; headers.
  - unfold patchCancelTask in H. inv_ok. destruct (_ || _) in H; headers.
Qed.

Lemma applyPatchSteps_header b id n ps b' : applyPatchSteps b id n ps = Ok b' → header b' = header b.
Proof.
  revert b n. induction ps as [|p ps IH]; intros b n H; cbn in H; inv_ok; [done|].
  etrans; [by eapply IH | by apply (applyPatchStep_header b id p)].
Qed.

(** * The releases at the end of a command *)

Lemma unblockAt_logged c id v w i w' :
  logged c id v w → unblockAt c w i = Ok w' → logged c id v w'.
Proof.
  destruct w as [b es]. unfold unblockAt. intros Hn H. inv_ok. case_match; [|by inv_ok].
  inv_ok. apply emit_logged. destruct Hn as [[Hb Hes] _]. split; [etrans; [|exact Hb]|done]. cbn. headers.
Qed.

Lemma unblockReadyTasks_logged c id v w w' :
  logged c id v w → unblockReadyTasks c w = Ok w' → logged c id v w'.
Proof.
  unfold unblockReadyTasks. generalize (seq 0 (length (w.1).(Board_Tasks))). intros l. revert w.
  induction l as [|i l IH]; intros w Hn H; cbn in H; inv_ok; [done|].
  eapply IH; [|done]. by eapply unblockAt_logged.
Qed.

(** * The handlers *)

Ltac stamped b := inv_ok; exists (Board_ID b, Board_Repository b); split; [done|]; apply emit_logged, start_numbered; [headers|done].
Ltac released b :=
  inv_ok;
  match goal with
  | H : unblockReadyTasks _ _ = Ok _ |- _ =>
      exists (Board_ID b, Board_Repository b); split; [done|]; eapply unblockReadyTasks_logged; [|exact H];
      apply emit_logged, start_numbered; [headers|done]
  end.

Lemma dispatch_numbered b c w :
  (0 ≤ b.(Board_Version) < two64)%Z → (b.(Board_ID) = "" → b.(Board_Version) = 0%Z) →
  dispatch b c = Ok w →
  ∃ id, (b.(Board_ID) ≠ "" → id = (b.(Board_ID), b.(Board_Repository))) ∧ logged c id b.(Board_Version) w.
Proof.
  intros Hv Hid. unfold dispatch. revert w.
  apply (switch_Ok (λ _ h, ∀ w, h b c = Ok w →
    ∃ id, (b.(Board_ID) ≠ "" → id = (b.(Board_ID), b.(Board_Repository))) ∧ logged c id b.(Board_Version) w)); [|done].
  repeat (apply Forall_cons; split); try (by apply Forall_nil); cbn; intros Hty w H.
  - unfold applyBoardCreate in H. inv_ok. eexists. split; [intros Hne; by destruct Hne|]. apply emit_logged, start_numbered; [|done].
    unfold header. cbn. by rewrite Hid.
  - unfold applyTaskAdd in H. stamped b.
  - unfold applyDependencyAdd in H. stamped b.
  - unfold applyTaskActivate in H. stamped b.
  - unfold applyLeaseAcquire in H. stamped b.
  - unfold applyAttemptStart in H. stamped b.
  - unfold applyEvidenceSubmit in H. stamped b.
  - unfold applyEvidenceAccept, decisionGuards in H. inv_ok. case_match; [released b|stamped b].
  - unfold applyEvidenceReject, decisionGuards in H. stamped b.
  - unfold applyAttemptFail in H. stamped b.
  - unfold applyLeaseExpire in H. stamped b.
  - unfold applyLeaseRenew in H. stamped b.
  - unfold applyTaskRetry in H. stamped b.
  - unfold applyPlanPatch in H. inv_ok.
    match goal with H : applyPatchSteps _ _ _ _ = _ |- _ => apply applyPatchSteps_header in H end. released b.
  - unfold applyVerificationDeferred in H. stamped b.
  - unfold applyIntegrationComplete, integrationGuards in H. released b.
  - unfold applyIntegrationFail, integrationGuards in H. stamped b.
  - unfold applyBoardPauseResume in H. inv_ok. case_match; stamped b.
  - unfold applyBoardPauseResume in H. inv_ok. case_match; stamped b.
  - unfold applyGate in H. inv_ok. repeat case_match; stamped b.
  - unfold applyGate in H. inv_ok. repeat case_match; stamped b.
  - unfold applyGate in H. inv_ok. repeat case_match; stamped b.
Qed.

Lemma runs_header cs b :
  runs cs b → (0 ≤ b.(Board_Version) < two64)%Z ∧ (b.(Board_ID) = "" → b.(Board_Version) = 0%Z).
Proof.
  intros Hr. split.
  - induction Hr as [|cs c b b' es Hr IH H]; [done|].
    assert (b.(Board_ID) = "" → b.(Board_Version) = 0%Z) as Hid.
    { destruct (runs_valid _ _ Hr) as [->|Hw]; [done|]. intros E. by destruct (wf_id _ Hw). }
    apply Apply_inv in H as [H _].
    destruct (dispatch_numbered _ _ _ IH Hid H) as (id & _ & [[[= _ ->] _] _]). by apply Z.mod_pos_bound.
  - destruct (runs_valid _ _ Hr) as [->|Hw]; [done|]. intros E. by destruct (wf_id _ Hw).
Qed.

(** A board keeps its id and its repository. *)
Lemma Apply_header cs b c b' es :
  runs cs b → Apply b c = Ok (b', es) → b.(Board_ID) ≠ "" →
  b'.(Board_ID) = b.(Board_ID) ∧ b'.(Board_Repository) = b.(Board_Repository).
Proof.
  intros Hr H Hne. destruct (runs_header _ _ Hr) as [Hv Hid]. apply Apply_inv in H as [H _].
  destruct (dispatch_numbered _ _ _ Hv Hid H) as (id & Hi & [[Hh _] _]).
  rewrite Hi in Hh by done. by injection Hh.
Qed.

(** * The theorems *)

(** The event log: an accepted command emits at least one event; its events
    carry the command, its actor and the board, have the ids
    [command:1], [command:2], ..., and consecutive versions that follow the
    board's; and the board ends at the version of the last. *)
Theorem event_numbering cs b c b' es :
  runs cs b → Apply b c = Ok (b', es) →
  es ≠ [] ∧ b'.(Board_Version) = u64 (b.(Board_Version) + Z.of_nat (length es)) ∧
  ∀ n e, es !! n = Some e → stamped c b'.(Board_ID) b.(Board_Version) n e.
Proof.
  intros Hr H. destruct (runs_header _ _ Hr) as [Hv Hid]. apply Apply_inv in H as [H _].
  destruct (dispatch_numbered _ _ _ Hv Hid H) as (id & _ & [[Hh Hes] Hne]).
  injection Hh as Hi Hver. rewrite <- Hi in Hes. by split_and!.
Qed.

Lemma event_numbering_witness :
  length (events_of (board_after (take 10 delivery)) (integrate "t1" "r1" 10)) = 2 ∧
  ∀ e, events_of (board_after (take 10 delivery)) (integrate "t1" "r1" 10) !! 1 = Some e →
    stamped (integrate "t1" "r1" 10) (board_after delivery).(Board_ID)
      (board_after (take 10 delivery)).(Board_Version) 1 e.
Proof.
  split; [vm_compute; reflexivity|].
  destruct (event_numbering (take 10 delivery) (board_after (take 10 delivery)) (integrate "t1" "r1" 10)
    (board_after delivery) (events_of (board_after (take 10 delivery)) (integrate "t1" "r1" 10)))
    as (_ & _ & H).
  - replayed.
  - vm_compute. reflexivity.
  - exact (H 1%nat).
Defined.
