(* ===== verification/Totality.v ===== *)
(** Totality of [Apply], and the pure routines of the protocol against reference definitions. *)
From Stdlib Require Import Ascii.
From S2P Require Import Prelude Paths Protocol Validate Wellformed StateMachine Apply Spec.
From S2P Require Import Coordination Refine Simulation.

(** Totality: [Apply] returns on every command. No index is out of range, no nil
    pointer is dereferenced and no search runs out of stack, on the blank board
    and on any board with an id, whatever it holds. *)

(** * Panics *)

Section positions.
Context {A : Type} (key : A → string).

Lemma get_at_Panic k i x l : at_key key k l i x → get_at i l ≠ Panic.
Proof.
  intros (Hi & Hl & _). unfold get_at. rewrite (proj2 (Z.ltb_ge _ _) Hi). by rewrite Hl.
Qed.

Lemma update_at_Panic k i x l f : at_key key k l i x → update_at i f l ≠ Panic.
Proof.
  intros (Hi & Hl & _). unfold update_at. rewrite (proj2 (Z.ltb_ge _ _) Hi). by rewrite Hl.
Qed.
End positions.

Lemma setTask_Panic k x b i f : at_key Task_ID k b.(Board_Tasks) i x → setTask b i f ≠ Panic.
Proof. intros Hk. unfold setTask. intros [H|(? & _ & ?)]%bind_Panic; [|done]. by eapply update_at_Panic in H. Qed.
Lemma setAttempt_Panic k x b i f :
  at_key Attempt_ID k b.(Board_Attempts) i x → setAttempt b i f ≠ Panic.
Proof. intros Hk. unfold setAttempt. intros [H|(? & _ & ?)]%bind_Panic; [|done]. by eapply update_at_Panic in H. Qed.
Lemma setLease_Panic k x b i f : at_key Lease_ID k b.(Board_Leases) i x → setLease b i f ≠ Panic.
Proof. intros Hk. unfold setLease. intros [H|(? & _ & ?)]%bind_Panic; [|done]. by eapply update_at_Panic in H. Qed.
Lemma setEvidence_Panic k x b i f :
  at_key Evidence_ID k b.(Board_Evidence) i x → setEvidence b i f ≠ Panic.
Proof. intros Hk. unfold setEvidence. intros [H|(? & _ & ?)]%bind_Panic; [|done]. by eapply update_at_Panic in H. Qed.

(** * Validation *)

Lemma TerminalContract_validate_Panic c : TerminalContract_validate c ≠ Panic.
Proof. intros H. unfold TerminalContract_validate in H. inv_panic H. Qed.

Lemma Board_Validate_Panic b : Board_Validate b ≠ Panic.
Proof.
  intros H. unfold Board_Validate in H.
  repeat match type of H with fail_if _ _ ≫= _ = Panic =>
    apply bind_Panic in H as [H|(? & _ & H)]; [by apply fail_if_Panic in H|] end.
  apply bind_Panic in H as [H|(tasks & Ht & H)].
  { unfold validateTask in H. inv_panic H. by apply TerminalContract_validate_Panic in H. }
  apply bind_Panic in H as [H|(? & Hd & H)].
  { unfold validateDependency in H. inv_panic H. }
  apply bind_Panic in H as [H|(? & _ & H)]; [by apply fail_if_Panic in H|].
  apply (loop_map Task_ID _ _ _ _ validateTask_step) in Ht as (_ & _ & ->).
  edestruct (proj1 (loop_dependencies (by_key Task_ID b.(Board_Tasks)) ∅ ∅ b.(Board_Dependencies)))
    as (Hok & _); [by eexists|].
  apply bind_Panic in H as [H|(? & _ & H)].
  { revert H. by apply validateAcyclic_ends, dependencies_closed. }
  unfold validateAttemptsLeasesEvidence in H. inv_panic H.
  all: unfold validateAttempt, validateLease, validateEvidence in H; inv_panic H.
Qed.

(** * The handlers *)

(** A call that panics on a position the context shows to be valid. *)
Ltac in_range H :=
  exfalso; inv_ok; found; inv_bool; updated; read; located; revert H;
  first
    [ eapply setTask_Panic; positioned
    | eapply setAttempt_Panic; positioned
    | eapply setLease_Panic; positioned
    | eapply setEvidence_Panic; positioned
    | eapply (get_at_Panic Task_ID); positioned
    | eapply (get_at_Panic Attempt_ID); positioned
    | eapply (get_at_Panic Lease_ID); positioned
    | eapply (get_at_Panic Evidence_ID); positioned ].

Ltac run_panic h H :=
  unfold h, requireRole, requireInitialized in H; inv_panic H.

Lemma requireFencingToken_Panic b c : requireFencingToken b c ≠ Panic.
Proof. intros H. unfold requireFencingToken in H. inv_panic H. Qed.

Lemma applyTaskActivate_Panic b c : applyTaskActivate b c ≠ Panic.
Proof. intros H. run_panic applyTaskActivate H; in_range H. Qed.

Lemma applyLeaseAcquire_Panic b c : applyLeaseAcquire b c ≠ Panic.
Proof. intros H. run_panic applyLeaseAcquire H; in_range H. Qed.

Lemma applyTaskRetry_Panic b c : applyTaskRetry b c ≠ Panic.
Proof. intros H. run_panic applyTaskRetry H; in_range H. Qed.

Lemma transitionAttempt_Panic b c ft tt fa ta : transitionAttempt b c ft tt fa ta ≠ Panic.
Proof. intros H. unfold transitionAttempt in H. inv_panic H; in_range H. Qed.

Lemma recordAttemptFailure_Panic b i j k class reason el kt t ka a kl l :
  at_key Task_ID kt b.(Board_Tasks) i t → at_key Attempt_ID ka b.(Board_Attempts) j a →
  at_key Lease_ID kl b.(Board_Leases) k l →
  recordAttemptFailure b i j k class reason el ≠ Panic.
Proof. intros Ht Ha Hl H. unfold recordAttemptFailure in H. inv_panic H; in_range H. Qed.

(** The remaining calls of a failing or deciding handler, whose positions survive
    the update that comes first. *)
Ltac after_failure H :=
  exfalso; inv_ok; found; inv_bool;
  first
    [ match type of H with
      | recordAttemptFailure _ _ _ _ _ _ _ = Panic =>
          revert H; eapply recordAttemptFailure_Panic; positioned
      | transitionAttempt _ _ _ _ _ _ = Panic => by apply transitionAttempt_Panic in H
      | requireFencingToken _ _ = Panic => by apply requireFencingToken_Panic in H
      end
    | try failure; try transition; in_range H ].

Lemma applyAttemptStart_Panic b c : applyAttemptStart b c ≠ Panic.
Proof. intros H. run_panic applyAttemptStart H; after_failure H. Qed.

Lemma applyAttemptFail_Panic b c : applyAttemptFail b c ≠ Panic.
Proof. intros H. run_panic applyAttemptFail H; after_failure H. Qed.

Lemma applyLeaseExpire_Panic b c : applyLeaseExpire b c ≠ Panic.
Proof. intros H. run_panic applyLeaseExpire H; after_failure H. Qed.

Lemma decisionGuards_Panic b c : decisionGuards b c ≠ Panic.
Proof. intros H. run_panic decisionGuards H; after_failure H. Qed.

Lemma validateEvidenceResult_Panic r : validateEvidenceResult r ≠ Panic.
Proof. intros H. unfold validateEvidenceResult in H. inv_panic H. Qed.

Lemma applyEvidenceSubmit_Panic b c : applyEvidenceSubmit b c ≠ Panic.
Proof.
  intros H. run_panic applyEvidenceSubmit H;
    try (by apply validateEvidenceResult_Panic in H);
    try (by apply transitionAttempt_Panic in H); try (by apply requireFencingToken_Panic in H).
  all: exfalso; inv_ok; found; transition.
  - by eapply setLease_Panic in H.
  - match goal with H : findLease _ (Task_ActiveLeaseID (taskFor _ _)) = _ |- _ =>
      erewrite taskFor_at_key in H by positioned end.
    located. updated. located. in_range H.
Qed.

(** A position of the slice of tasks, by index alone. *)
Lemma in_tasks b i :
  i < length b.(Board_Tasks) → ∃ t, b.(Board_Tasks) !! i = Some t.
Proof. intros Hi. by apply lookup_lt_is_Some in Hi as [t Ht]; exists t. Qed.

Lemma unblockAt_Panic c w i : i < length (w.1).(Board_Tasks) → unblockAt c w i ≠ Panic.
Proof.
  destruct w as [b es]. cbn [fst]. intros Hi H. destruct (in_tasks _ _ Hi) as [t Ht].
  unfold unblockAt, taskAt, setTask, get_at, update_at in H.
  rewrite (proj2 (Z.ltb_ge (Z.of_nat i) 0)), Nat2Z.id, Ht in H by lia. cbn in H.
  destruct (_ && _) in H; [|done]. cbn in H. by rewrite list_lookup_alter_eq, Ht in H.
Qed.

Lemma unblockAt_length c w i w' :
  unblockAt c w i = Ok w' → length (w'.1).(Board_Tasks) = length (w.1).(Board_Tasks).
Proof.
  destruct w as [b es]. unfold unblockAt, setTask, update_at. intros H. inv_ok.
  destruct (_ && _); inv_ok; [|done].
  destruct (_ <? 0)%Z; [done|]. destruct (_ !! _); inv_ok. cbn. by rewrite length_alter.
Qed.

Lemma unblockReadyTasks_Panic c w : unblockReadyTasks c w ≠ Panic.
Proof.
  unfold unblockReadyTasks.
  assert (Forall (λ i, i < length (w.1).(Board_Tasks)) (seq 0 (length (w.1).(Board_Tasks)))) as Hl.
  { apply Forall_forall. intros i [_ Hi]%elem_of_seq. lia. }
  revert Hl. generalize (seq 0 (length (w.1).(Board_Tasks))). intros l. revert w.
  induction l as [|i l IH]; intros w Hl H; cbn in H; [done|]. apply Forall_cons in Hl as [Hi Hl].
  apply bind_Panic in H as [H|(w' & Hw & H)]; [by apply unblockAt_Panic in H|].
  apply unblockAt_length in Hw. eapply (IH w'); [by rewrite Hw|done].
Qed.

Lemma applyEvidenceAccept_Panic b c : applyEvidenceAccept b c ≠ Panic.
Proof.
  intros H. run_panic applyEvidenceAccept H; try (by apply decisionGuards_Panic in H);
    try (by apply unblockReadyTasks_Panic in H); unfold decisionGuards in *; after_failure H.
Qed.

Lemma applyEvidenceReject_Panic b c : applyEvidenceReject b c ≠ Panic.
Proof.
  intros H. run_panic applyEvidenceReject H; try (by apply decisionGuards_Panic in H);
    unfold decisionGuards in *; after_failure H.
Qed.

(** A lease of a well-formed board belongs to a task and an attempt of the board. *)
Lemma lease_owner b k i l :
  well_formed b → at_key Lease_ID k b.(Board_Leases) i l →
  is_Some (by_key Task_ID b.(Board_Tasks) !! l.(Lease_TaskID)) ∧
  is_Some (by_key Attempt_ID b.(Board_Attempts) !! l.(Lease_AttemptID)).
Proof.
  intros Hw (_ & Hl & _). pose proof (wf_leases _ Hw) as Hls. rewrite Forall_forall in Hls.
  destruct (Hls l) as (_ & _ & _ & a & Ha & <- & _); [by eapply list_elem_of_lookup_2|].
  split; [|by exists a]. apply by_key_Some in Ha as [Ha _].
  pose proof (wf_attempts _ Hw) as Has. rewrite Forall_forall in Has. by apply Has in Ha as (_ & _ & ? & _).
Qed.

Lemma findBy_is_Some {A} (key : A → string) zero k l i x f :
  is_Some (by_key key l !! k) → findBy zero key k l = (i, x, f) → at_key key k l i x.
Proof.
  intros [y Hy] H. destruct f; [by eapply findBy_found|].
  apply findBy_missing in H as [H _]. congruence.
Qed.

Lemma applyLeaseRenew_Panic b c : b = Board_zero ∨ well_formed b → applyLeaseRenew b c ≠ Panic.
Proof.
  intros [->|Hw] H; run_panic applyLeaseRenew H; inv_ok; found; inv_bool;
    try (by match goal with H : at_key _ _ (Board_Leases Board_zero) _ _ |- _ =>
      destruct H as (_ & ? & _) end).
  all: match goal with H : at_key Lease_ID _ _ _ ?l |- _ =>
    destruct (lease_owner _ _ _ l Hw H) as [Ht Ha] end.
  all: try (by eapply setLease_Panic in H); updated.
  all: repeat match goal with
    | H : findTask _ _ = _ |- _ => apply findBy_is_Some in H; [|done]
    | H : findAttempt _ _ = _ |- _ => apply findBy_is_Some in H; [|done]
    end; in_range H.
Qed.

Lemma applyVerificationDeferred_Panic b c : applyVerificationDeferred b c ≠ Panic.
Proof.
  intros H. run_panic applyVerificationDeferred H;
    repeat match goal with H : (if ?b then _ else _) = Ok _ |- _ => destruct b end; in_range H.
Qed.

Lemma applyIntegrationFail_Panic b c : applyIntegrationFail b c ≠ Panic.
Proof.
  intros H. unfold applyIntegrationFail, integrationGuards, requireRole, requireInitialized in H.
  inv_panic H; after_failure H.
Qed.

Lemma applyIntegrationComplete_Panic b c : applyIntegrationComplete b c ≠ Panic.
Proof.
  intros H. unfold applyIntegrationComplete, integrationGuards, requireRole, requireInitialized in H.
  inv_panic H; try (by apply unblockReadyTasks_Panic in H); after_failure H.
Qed.

Lemma applyBoardPauseResume_Panic b c : applyBoardPauseResume b c ≠ Panic.
Proof. intros H. run_panic applyBoardPauseResume H. Qed.

Lemma applyGate_Panic b c : applyGate b c ≠ Panic.
Proof. intros H. run_panic applyGate H. Qed.

Lemma applyDependencyAdd_Panic b c : applyDependencyAdd b c ≠ Panic.
Proof. intros H. run_panic applyDependencyAdd H. by apply Board_Validate_Panic in H. Qed.

Lemma applyTaskAdd_Panic b c : applyTaskAdd b c ≠ Panic.
Proof. intros H. run_panic applyTaskAdd H. by apply TerminalContract_validate_Panic in H. Qed.

Lemma applyBoardCreate_Panic b c : applyBoardCreate b c ≠ Panic.
Proof. intros H. run_panic applyBoardCreate H. Qed.

(** * Plan patches *)

Lemma patchAddTask_Panic b id p : patchAddTask b id p ≠ Panic.
Proof.
  intros H. unfold patchAddTask in H. inv_panic H; try (by apply TerminalContract_validate_Panic in H);
    inv_ok; match goal with H : findTask _ _ = (_, _, false) |- _ =>
      apply findBy_missing in H as [Hnew _] end;
    revert H; (eapply setTask_Panic; cbn; apply at_key_last; exact Hnew).
Qed.

Lemma patchAddDependency_Panic b id p : patchAddDependency b id p ≠ Panic.
Proof. intros H. unfold patchAddDependency in H. inv_panic H; in_range H. Qed.

Lemma patchUpdateAcceptance_Panic b p : patchUpdateAcceptance b p ≠ Panic.
Proof.
  intros H. unfold patchUpdateAcceptance in H.
  inv_panic H; try (by apply TerminalContract_validate_Panic in H); in_range H.
Qed.

Lemma patchSupersedeTask_Panic b p : patchSupersedeTask b p ≠ Panic.
Proof. intros H. unfold patchSupersedeTask in H. inv_panic H; in_range H. Qed.

Lemma patchCancelTask_Panic b p : patchCancelTask b p ≠ Panic.
Proof. intros H. unfold patchCancelTask in H. inv_panic H; destruct (_ || _) in H; in_range H. Qed.

Lemma patchRemoveDependency_Panic b p : patchRemoveDependency b p ≠ Panic.
Proof. intros H. unfold patchRemoveDependency in H. inv_panic H. by destruct (removeEdge _ _ _) in H. Qed.

Lemma applyPatchStep_Panic b id p : applyPatchStep b id p ≠ Panic.
Proof.
  unfold applyPatchStep. apply (switch_Ok (λ _ h, h b id p ≠ Panic)); [|done].
  repeat (apply Forall_cons; split); try (by apply Forall_nil); cbn; intros _;
    auto using patchAddTask_Panic, patchAddDependency_Panic, patchUpdateAcceptance_Panic,
      patchSupersedeTask_Panic, patchCancelTask_Panic, patchRemoveDependency_Panic.
Qed.

Lemma applyPatchSteps_Panic b id n ps : applyPatchSteps b id n ps ≠ Panic.
Proof.
  revert b n. induction ps as [|p ps IH]; intros b n H; [done|].
  cbn [applyPatchSteps] in H. inv_panic H; [by apply applyPatchStep_Panic in H|by apply IH in H].
Qed.

Lemma applyPlanPatch_Panic b c : applyPlanPatch b c ≠ Panic.
Proof.
  intros H. run_panic applyPlanPatch H;
    [by apply applyPatchSteps_Panic in H|by apply Board_Validate_Panic in H|
     by apply unblockReadyTasks_Panic in H].
Qed.

(** * The dispatcher *)

Lemma dispatch_Panic b c : b = Board_zero ∨ well_formed b → dispatch b c ≠ Panic.
Proof.
  intros Hb. unfold dispatch. apply (switch_Ok (λ _ h, h b c ≠ Panic)); [|done].
  repeat (apply Forall_cons; split); try (by apply Forall_nil); cbn; intros _;
    eauto using applyBoardCreate_Panic, applyTaskAdd_Panic, applyDependencyAdd_Panic,
      applyTaskActivate_Panic, applyLeaseAcquire_Panic, applyAttemptStart_Panic,
      applyEvidenceSubmit_Panic, applyEvidenceAccept_Panic, applyEvidenceReject_Panic,
      applyAttemptFail_Panic, applyLeaseExpire_Panic, applyLeaseRenew_Panic, applyTaskRetry_Panic,
      applyPlanPatch_Panic, applyVerificationDeferred_Panic, applyIntegrationComplete_Panic,
      applyIntegrationFail_Panic, applyBoardPauseResume_Panic, applyGate_Panic.
Qed.

(** * The theorem *)

(** C38: [Apply] always returns: whatever the command, and whatever an initialised
    board holds, it answers with a new board and events or with an error, and
    never panics. *)
Theorem apply_total b c :
  b = Board_zero ∨ b.(Board_ID) ≠ "" → Apply b c ≠ Panic.
Proof.
  intros Hb H. unfold Apply in H. rewrite cloneBoard_id in H.
  repeat match type of H with fail_if _ _ ≫= _ = Panic =>
    apply bind_Panic in H as [H|(? & _ & H)]; [by apply fail_if_Panic in H|] end.
  apply bind_Panic in H as [H|([] & Hv & H)].
  { destruct (_ != _) in H; [|done]. by apply wrap_err_Panic, Board_Validate_Panic in H. }
  apply bind_Panic in H as [H|([b' es] & _ & H)].
  - revert H. apply dispatch_Panic. destruct Hb as [->|Hne]; [by left|right].
    rewrite (proj2 (String.eqb_neq _ _) Hne) in Hv. cbn in Hv. apply Board_Validate_ok. by inv_ok.
  - apply bind_Panic in H as [H|(? & _ & H)]; [|done].
    by apply wrap_err_Panic, Board_Validate_Panic in H.
Qed.

Lemma apply_total_witness : Apply claimed first_start ≠ Panic ∧ Apply Board_zero first_start ≠ Panic.
Proof.
  split; apply apply_total; [right; vm_compute; discriminate|left; reflexivity].
Defined.

(** The pure routines of the protocol against reference definitions: the backoff
    of a retry and the test of a repository-relative path. *)

(** * The backoff *)

(** The policy in unbounded arithmetic. *)
Definition backoff (n : Z) : Z := Z.min (2 ^ Z.max n 0 * (2 * Second)) MaxRetryDelay.

Lemma backoff_cap n : (4 ≤ n)%Z → backoff n = MaxRetryDelay.
Proof.
  intros Hn. unfold backoff. rewrite Z.max_l by lia. apply Z.min_r.
  pose proof (Z.pow_le_mono_r 2 4 n ltac:(lia) Hn). unfold MaxRetryDelay, Second. lia.
Qed.

Lemma RetryDelay_backoff n : RetryDelay n = backoff n.
Proof.
  unfold RetryDelay. destruct (Z.ltb_spec n 0).
  - unfold backoff. rewrite Z.max_r by lia. reflexivity.
  - destruct (Z.ltb_spec 16 n); [by rewrite backoff_cap by lia|].
    rewrite <- (Z2Nat.id n) by lia. assert (Z.to_nat n ≤ 16) as Hk by lia.
    revert Hk. generalize (Z.to_nat n). intros k Hk.
    do 17 (destruct k as [|k]; [reflexivity|]). lia.
Qed.

Lemma backoff_mono m n : (m ≤ n)%Z → (backoff m ≤ backoff n)%Z.
Proof.
  intros H. unfold backoff. apply Z.min_le_compat_r, Z.mul_le_mono_nonneg_r; [done|].
  apply Z.pow_le_mono_r; lia.
Qed.

(** * The test of a path *)

(** A drive letter, as in [C:]. *)
Definition has_drive (path : string) : bool :=
  match path with String _ (String c _) => Ascii.eqb c ":"%char | _ => false end.

Lemma drive_test path :
  (2 <=? String.length path)%nat
    && (match String.get 1 path with Some c => Ascii.eqb c ":"%char | None => false end) = has_drive path.
Proof. by destruct path as [|? [|? ?]]. Qed.

(** * The theorems *)

(** The backoff of a retry is the documented policy, min(2^n * 2s, 30s), for
    every int, with no overflow; so it lies between 2s and 30s and never
    decreases with the number of attempts. *)
Theorem retry_delay_policy n :
  RetryDelay n = Z.min (2 ^ Z.max n 0 * (2 * Second)) MaxRetryDelay ∧
  (2 * Second ≤ RetryDelay n ≤ MaxRetryDelay)%Z ∧
  ∀ m, (m ≤ n)%Z → (RetryDelay m ≤ RetryDelay n)%Z.
Proof.
  rewrite RetryDelay_backoff. split_and!; [done| |apply Z.le_min_r|].
  - change (2 * Second)%Z with (backoff 0). unfold backoff.
    apply Z.min_le_compat_r, Z.mul_le_mono_nonneg_r; [done|]. apply Z.pow_le_mono_r; lia.
  - intros m Hm. rewrite RetryDelay_backoff. by apply backoff_mono.
Qed.

(** The changed files of evidence stay inside the repository: a path is
    accepted exactly when it is not empty, not absolute, has no [..] component,
    no backslash and no drive letter, and from any directory an accepted path
    then leads to the directory or below it. *)
Theorem relative_path_confined path :
  (relativeRepositoryPath path = true ↔
     path ≠ "" ∧ head (components path) ≠ Some "" ∧ ".." ∉ components path ∧
     has_char "\" path = false ∧ has_drive path = false) ∧
  (relativeRepositoryPath path = true → ∀ dir, ∃ names, walk dir path = dir ++ names).
Proof.
  assert (relativeRepositoryPath path = true ↔
     path ≠ "" ∧ head (components path) ≠ Some "" ∧ ".." ∉ components path ∧
     has_char "\" path = false ∧ has_drive path = false) as Hiff.
  { unfold relativeRepositoryPath. rewrite contains_char, drive_test.
    rewrite components_elem, later_components, (first_component ".." path), (first_component "" path) by done.
    change (".." +:+ "/") with "../". change ("" +:+ "/") with "/".
    destruct (String.eqb_spec path ""); [naive_solver|].
    destruct (strings_HasPrefix path "/"), (has_char "\" path), (String.eqb_spec path ".."),
      (strings_HasPrefix path "../"), (strings_Contains path "/../"), (strings_HasSuffix path "/.."),
      (has_drive path); cbn; naive_solver. }
  split; [exact Hiff|]. intros H dir. apply walk_down. by apply Hiff.
Qed.

Lemma relative_path_confined_witness :
  ∃ names, walk ["repo"] "src/main.go" = ["repo"] ++ names.
Proof. apply relative_path_confined. vm_compute. reflexivity. Defined.
