(* ===== verification/Database.v ===== *)
(** The SQLite tables of internal/agoboardstore (migrations/*.sql) and the
    statements of store.go over them.

    A table is a finite map from its primary key to the other columns; a
    statement checks the CHECK, UNIQUE and FOREIGN KEY constraints the schema
    declares and fails with an error when one is violated. A JSON column holds
    the value it encodes. *)
From S2P Require Import Prelude Sql Protocol.

(** * Rows *)

Record BoardRow : Type := mkBoardRow {
  br_version : Z; br_title : string; br_board_json : Board;
  br_repository_id : string; br_paused : Z; br_next_generation : Z;
}.
Record EventRow : Type := mkEventRow { er_event_id : string; er_event_json : Event }.

(** What [Apply] returns and a receipt stores. *)
Record Result : Type := mkResult { Result_Board : Board; Result_Events : list Event }.
Definition Result_zero : Result := mkResult Board_zero [].

Record CommandRow : Type := mkCommandRow {
  cr_request_hash : string; cr_board_id : string; cr_result_json : Result;
}.
Record TaskRow : Type := mkTaskRow {
  tr_state : TaskState; tr_task_json : Task; tr_access_mode : AccessMode;
  tr_attempt_count : Z; tr_next_eligible_at : Z; tr_failure_class : FailureClass;
}.
Record DependencyRow : Type := mkDependencyRow {
  dr_task_id : string; dr_depends_on : string; dr_dependency_json : Dependency;
}.
Record AttemptRow : Type := mkAttemptRow {
  ar_task_id : string; ar_worker_id : string; ar_state : AttemptState; ar_attempt_json : Attempt;
  ar_attempt_number : Z; ar_generation : Z; ar_fencing_token : string; ar_failure_class : FailureClass;
}.
Record LeaseRow : Type := mkLeaseRow {
  lr_task_id : string; lr_attempt_id : string; lr_worker_id : string; lr_state : LeaseState;
  lr_expires_at : Z; lr_lease_json : Lease; lr_generation : Z; lr_fencing_token : string;
  lr_acquired_at : Z; lr_access_mode : AccessMode; lr_repository_id : string;
}.
Record EvidenceRow : Type := mkEvidenceRow {
  vr_task_id : string; vr_attempt_id : string; vr_state : EvidenceState;
  vr_evidence_json : Evidence; vr_required_tests_passed : Z; vr_verdict : string;
}.
Record ArtifactRow : Type := mkArtifactRow {
  fr_evidence_id : string; fr_task_id : string; fr_media_type : string;
  fr_display_name : string; fr_byte_size : Z; fr_sha256 : string;
}.

(** The association of an attempt with the thread that executes it. *)
Record Binding : Type := mkBinding {
  Binding_BoardID : string; Binding_AttemptID : string; Binding_ThreadID : string;
  Binding_ExecutorID : string;
}.
Record BindingRow : Type := mkBindingRow {
  nr_thread_id : string; nr_executor_id : string; nr_binding_json : Binding;
}.

Record DB : Type := mkDB {
  boards : gmap string BoardRow;
  board_definitions : gmap string string;
  events : gmap (string * Z) EventRow;
  commands : gmap (string * string) CommandRow;
  tasks : gmap (string * string) TaskRow;
  dependencies : gmap (string * string) DependencyRow;
  attempts : gmap (string * string) AttemptRow;
  bindings : gmap (string * string) BindingRow;
  leases : gmap (string * string) LeaseRow;
  evidence : gmap (string * string) EvidenceRow;
  artifacts : gmap (string * string) ArtifactRow;
}.
#[export] Instance DB_eta : Eta DB := λ r, mkDB (r.(boards)) (r.(board_definitions)) (r.(events))
  (r.(commands)) (r.(tasks)) (r.(dependencies)) (r.(attempts)) (r.(bindings)) (r.(leases))
  (r.(evidence)) (r.(artifacts)).
Definition DB_empty : DB := mkDB ∅ ∅ ∅ ∅ ∅ ∅ ∅ ∅ ∅ ∅ ∅.

(** * Constraints *)

(** A row other than the one at [k] satisfies [P]. *)
Definition clash {V} (k : string * string) (P : string * string → V → bool) (m : gmap (string * string) V) : bool :=
  existsb (λ p, negb (bool_decide (p.1 = k)) && P p.1 p.2) (map_to_list m).

Definition timeNanos (value : Time) : Z := if Time_IsZero value then 0%Z else Time_UnixNano value.

Definition validMode (mode : AccessMode) : bool := (mode == AccessRead) || (mode == AccessWrite).

(** The columns derived from the aggregate; on conflict with an existing row some
    of them are kept instead. *)
Definition taskRow (value : Task) : TaskRow :=
  mkTaskRow value.(Task_State) value value.(Task_AccessMode) value.(Task_AttemptCount)
    (timeNanos value.(Task_NextEligibleAt)) value.(Task_FailureClass).
Definition attemptRow (task worker : string) (value : Attempt) : AttemptRow :=
  mkAttemptRow task worker value.(Attempt_State) value value.(Attempt_Number)
    value.(Attempt_Generation) value.(Attempt_FencingToken) value.(Attempt_FailureClass).
Definition leaseRow (task attempt worker : string) (mode : AccessMode) (repository : string)
    (value : Lease) : LeaseRow :=
  mkLeaseRow task attempt worker value.(Lease_State) (timeNanos value.(Lease_ExpiresAt)) value
    value.(Lease_Generation) value.(Lease_FencingToken) (timeNanos value.(Lease_AcquiredAt))
    mode repository.
Definition evidenceRow (task attempt : string) (value : Evidence) : EvidenceRow :=
  mkEvidenceRow task attempt value.(Evidence_State) value
    (boolToInt (RequiredTestsPassed value.(Evidence_Result))) value.(Evidence_Verdict).

Definition boardRow (board : Board) : BoardRow :=
  mkBoardRow board.(Board_Version) board.(Board_Title) board board.(Board_Repository)
    (boolToInt board.(Board_Paused)) board.(Board_NextGeneration).

(** * Statements *)

(** [INSERT INTO boards] of [apply] and [CreateGraph]. *)
Definition insertBoard (db : DB) (board : Board) : result DB :=
  bindUint64 board.(Board_Version) ;; bindUint64 board.(Board_NextGeneration) ;;
  checkConstraint (1 <=? board.(Board_Version))%Z "CHECK version >= 1" ;;
  checkConstraint (1 <=? board.(Board_NextGeneration))%Z "CHECK next_generation >= 1" ;;
  checkConstraint (negb (is_Some_b (db.(boards) !! board.(Board_ID)))) "UNIQUE boards.board_id" ;;
  Ok (db <| boards := <[board.(Board_ID) := boardRow board]> db.(boards) |>).

Definition updateBoard (db : DB) (board : Board) : result DB :=
  bindUint64 board.(Board_Version) ;; bindUint64 board.(Board_NextGeneration) ;;
  match db.(boards) !! board.(Board_ID) with
  | None => Err (Errorf "board %q does not exist" [AStr board.(Board_ID)])
  | Some _ =>
      checkConstraint (1 <=? board.(Board_Version))%Z "CHECK version >= 1" ;;
      checkConstraint (1 <=? board.(Board_NextGeneration))%Z "CHECK next_generation >= 1" ;;
      Ok (db <| boards := <[board.(Board_ID) := boardRow board]> db.(boards) |>)
  end.

Definition requireBoard (db : DB) (boardID : string) : result unit :=
  checkConstraint (is_Some_b (db.(boards) !! boardID)) "FOREIGN KEY board_id".

Definition appendEvent (db : DB) (event : Event) : result DB :=
  let version := event.(Event_Version) in
  bindUint64 version ;;
  checkConstraint (1 <=? version)%Z "CHECK version >= 1" ;;
  checkConstraint (negb (is_Some_b (db.(events) !! (event.(Event_BoardID), version))))
    "UNIQUE events.board_id, events.version" ;;
  requireBoard db event.(Event_BoardID) ;;
  Ok (db <| events := <[(event.(Event_BoardID), version) := mkEventRow event.(Event_ID) event]>
              db.(events) |>).

Definition appendEvents (db : DB) (events : list Event) : result DB := for_each appendEvent db events.

(** One iteration over [board.Tasks] of [syncProjection]; an existing row is
    overwritten in every column. *)
Definition upsertTask (boardID : string) (db : DB) (value : Task) : result DB :=
  let row := taskRow value in
  checkConstraint (validMode row.(tr_access_mode)) "CHECK access_mode" ;;
  checkConstraint (0 <=? row.(tr_attempt_count))%Z "CHECK attempt_count >= 0" ;;
  checkConstraint (0 <=? row.(tr_next_eligible_at))%Z "CHECK next_eligible_at >= 0" ;;
  requireBoard db boardID ;;
  Ok (db <| tasks := <[(boardID, value.(Task_ID)) := row]> db.(tasks) |>).

Definition requireTask (db : DB) (boardID taskID : string) : result unit :=
  checkConstraint (is_Some_b (db.(tasks) !! (boardID, taskID))) "FOREIGN KEY board_id, task_id".
Definition requireAttempt (db : DB) (boardID attemptID : string) : result unit :=
  checkConstraint (is_Some_b (db.(attempts) !! (boardID, attemptID))) "FOREIGN KEY board_id, attempt_id".

(** On conflict only the JSON is updated: an existing row keeps its edge. *)
Definition upsertDependency (boardID : string) (db : DB) (value : Dependency) : result DB :=
  let k := (boardID, value.(Dependency_ID)) in
  let row :=
    match db.(dependencies) !! k with
    | Some old => mkDependencyRow old.(dr_task_id) old.(dr_depends_on) value
    | None => mkDependencyRow value.(Dependency_TaskID) value.(Dependency_DependsOn) value
    end in
  checkConstraint (negb (clash k (λ k' old, (k'.1 == boardID)
      && (old.(dr_task_id) == row.(dr_task_id)) && (old.(dr_depends_on) == row.(dr_depends_on)))
    db.(dependencies))) "UNIQUE dependencies.board_id, task_id, depends_on" ;;
  requireBoard db boardID ;;
  requireTask db boardID row.(dr_task_id) ;; requireTask db boardID row.(dr_depends_on) ;;
  Ok (db <| dependencies := <[k := row]> db.(dependencies) |>).

(** On conflict the task and the worker of the row are kept. *)
Definition upsertAttempt (boardID : string) (db : DB) (value : Attempt) : result DB :=
  let k := (boardID, value.(Attempt_ID)) in
  bindUint64 value.(Attempt_Generation) ;;
  let '(task, worker) :=
    match db.(attempts) !! k with
    | Some old => (old.(ar_task_id), old.(ar_worker_id))
    | None => (value.(Attempt_TaskID), value.(Attempt_WorkerID))
    end in
  let row := attemptRow task worker value in
  checkConstraint (0 <=? row.(ar_attempt_number))%Z "CHECK attempt_number >= 0" ;;
  checkConstraint (0 <=? row.(ar_generation))%Z "CHECK generation >= 0" ;;
  checkConstraint ((row.(ar_fencing_token) == "") || negb (clash k (λ _ old,
      old.(ar_fencing_token) == row.(ar_fencing_token)) db.(attempts)))
    "UNIQUE attempts.fencing_token" ;;
  requireBoard db boardID ;; requireTask db boardID row.(ar_task_id) ;;
  Ok (db <| attempts := <[k := row]> db.(attempts) |>).

(** On conflict the task, the attempt and the worker of the row are kept. *)
Definition upsertLease (board : Board) (accessModes : gmap string AccessMode) (db : DB) (value : Lease)
  : result DB :=
  let k := (board.(Board_ID), value.(Lease_ID)) in
  bindUint64 value.(Lease_Generation) ;;
  let '(task, attempt, worker) :=
    match db.(leases) !! k with
    | Some old => (old.(lr_task_id), old.(lr_attempt_id), old.(lr_worker_id))
    | None => (value.(Lease_TaskID), value.(Lease_AttemptID), value.(Lease_WorkerID))
    end in
  let row := leaseRow task attempt worker (default "" (accessModes !! value.(Lease_TaskID)))
               board.(Board_Repository) value in
  checkConstraint (0 <=? row.(lr_expires_at))%Z "CHECK expires_at >= 0" ;;
  checkConstraint (0 <=? row.(lr_generation))%Z "CHECK generation >= 0" ;;
  checkConstraint (0 <=? row.(lr_acquired_at))%Z "CHECK acquired_at >= 0" ;;
  checkConstraint (validMode row.(lr_access_mode)) "CHECK access_mode" ;;
  checkConstraint ((row.(lr_state) != "active") || negb (clash k (λ k' old,
      (k'.1 == board.(Board_ID)) && (old.(lr_task_id) == row.(lr_task_id))
      && (old.(lr_state) == "active")) db.(leases))) "UNIQUE one_active_lease_per_task" ;;
  requireBoard db board.(Board_ID) ;;
  requireTask db board.(Board_ID) row.(lr_task_id) ;;
  requireAttempt db board.(Board_ID) row.(lr_attempt_id) ;;
  Ok (db <| leases := <[k := row]> db.(leases) |>).

(** On conflict the task and the attempt of the row are kept. *)
Definition upsertEvidence (boardID : string) (db : DB) (value : Evidence) : result DB :=
  let k := (boardID, value.(Evidence_ID)) in
  let '(task, attempt) :=
    match db.(evidence) !! k with
    | Some old => (old.(vr_task_id), old.(vr_attempt_id))
    | None => (value.(Evidence_TaskID), value.(Evidence_AttemptID))
    end in
  let row := evidenceRow task attempt value in
  requireBoard db boardID ;;
  requireTask db boardID row.(vr_task_id) ;; requireAttempt db boardID row.(vr_attempt_id) ;;
  Ok (db <| evidence := <[k := row]> db.(evidence) |>).

Definition upsertArtifact (boardID : string) (value : Evidence) (db : DB) (artifact : ArtifactRef)
  : result DB :=
  let row := mkArtifactRow value.(Evidence_ID) value.(Evidence_TaskID) artifact.(ArtifactRef_Type)
               artifact.(ArtifactRef_DisplayName) artifact.(ArtifactRef_Bytes)
               artifact.(ArtifactRef_SHA256) in
  checkConstraint (0 <=? row.(fr_byte_size))%Z "CHECK byte_size >= 0" ;;
  requireBoard db boardID ;;
  Ok (db <| artifacts := <[(boardID, artifact.(ArtifactRef_ID)) := row]> db.(artifacts) |>).

(** [syncProjection]: the normalized tables rewritten from the aggregate. *)
Definition syncProjection (db : DB) (board : Board) : result DB :=
  let id := board.(Board_ID) in
  db ← for_each (upsertTask id) db board.(Board_Tasks);
  db ← for_each (upsertDependency id) db board.(Board_Dependencies);
  let accessModes : gmap string AccessMode :=
    foldl (λ m task, <[task.(Task_ID) := task.(Task_AccessMode)]> m) ∅ board.(Board_Tasks) in
  db ← for_each (upsertAttempt id) db board.(Board_Attempts);
  db ← for_each (upsertLease board accessModes) db board.(Board_Leases);
  for_each (λ db value,
      db ← upsertEvidence id db value;
      for_each (upsertArtifact id value) db value.(Evidence_Result).(EvidenceResult_Artifacts))
    db board.(Board_Evidence).

Definition insertBinding (db : DB) (binding : Binding) : result DB :=
  let k := (binding.(Binding_BoardID), binding.(Binding_AttemptID)) in
  checkConstraint (negb (is_Some_b (db.(bindings) !! k))) "UNIQUE bindings.board_id, attempt_id" ;;
  checkConstraint (negb (clash k (λ k' old, (k'.1 == binding.(Binding_BoardID))
      && (old.(nr_thread_id) == binding.(Binding_ThreadID))) db.(bindings)))
    "UNIQUE bindings.board_id, thread_id" ;;
  requireAttempt db binding.(Binding_BoardID) binding.(Binding_AttemptID) ;;
  Ok (db <| bindings := <[k := mkBindingRow binding.(Binding_ThreadID) binding.(Binding_ExecutorID)
                                 binding]> db.(bindings) |>).

Definition insertDefinition (db : DB) (boardID definition : string) : result DB :=
  checkConstraint (negb (is_Some_b (db.(board_definitions) !! boardID)))
    "UNIQUE board_definitions.board_id" ;;
  requireBoard db boardID ;;
  Ok (db <| board_definitions := <[boardID := definition]> db.(board_definitions) |>).

Definition insertResult (db : DB) (actor id hash boardID : string) (result : Result) : Prelude.result DB :=
  checkConstraint (negb (is_Some_b (db.(commands) !! (actor, id))))
    "UNIQUE commands.actor_id, commands.command_id" ;;
  Ok (db <| commands := <[(actor, id) := mkCommandRow hash boardID result]> db.(commands) |>).

(** [SELECT] and [count] over the leases. *)
Definition countLeases (P : string * string → LeaseRow → bool) (db : DB) : Z :=
  Z.of_nat (length (List.filter (λ p, P p.1 p.2) (map_to_list db.(leases)))).
Definition activeLease (row : LeaseRow) : bool := row.(lr_state) == "active".
