(* ===== verification/Consistency.v ===== *)
(** The invariant of the store: its tables are a projection of the boards the protocol
    produced. *)
From S2P Require Import Prelude Sql Protocol Validate Wellformed StateMachine Apply Spec.
From S2P Require Import Coordination Lifecycle History Refine Simulation Safety Admission.
From S2P Require Import Database.

(** What the write statements leave in the tables, as equations on the tables, and
    the relation between the rows of a board and its aggregate. *)

(** * Loops that write one table *)

(** A loop whose body updates one component [get] of the state by [g]. *)
Lemma for_each_field {A S M} (f : S → A → result S) (get : S → M) (put : M → S → S) (g : M → A → M) s l s' :
  (∀ s x s', f s x = Ok s' → s' = put (g (get s) x) s) →
  (∀ s, put (get s) s = s) → (∀ m s, get (put m s) = m) → (∀ m m' s, put m (put m' s) = put m s) →
  for_each f s l = Ok s' → s' = put (foldl g (get s) l) s.
Proof.
  intros Hf Hid Hget Hput. revert s. induction l as [|x l IH]; intros s H; cbn in *.
  - injection H as <-. by rewrite Hid.
  - apply bind_Ok in H as (s1 & H1 & H). apply Hf in H1 as ->. apply IH in H as ->.
    by rewrite Hget, Hput.
Qed.

Section upserts.
Context {V R : Type} (key : V → string) (row : V → option R → R).

(** [INSERT ... ON CONFLICT DO UPDATE] of every element, keyed within a board. *)
Definition upserted (boardID : string) (m : gmap (string * string) R) (l : list V)
  : gmap (string * string) R :=
  foldl (λ m v, <[(boardID, key v) := row v (m !! (boardID, key v))]> m) m l.

Lemma upserted_other boardID m l k : k.1 ≠ boardID → upserted boardID m l !! k = m !! k.
Proof.
  intros Hk. unfold upserted. revert m. induction l as [|v l IH]; intros m; [done|]. cbn.
  rewrite IH. apply lookup_insert_ne. intros <-. by apply Hk.
Qed.

Lemma upserted_lookup boardID m l id :
  NoDup (key <$> l) →
  upserted boardID m l !! (boardID, id) =
    match by_key key l !! id with
    | Some v => Some (row v (m !! (boardID, id)))
    | None => m !! (boardID, id)
    end.
Proof.
  unfold upserted. revert m. induction l as [|v l IH]; intros m Hnd; [done|]. cbn in Hnd |- *.
  apply NoDup_cons in Hnd as [Hv Hnd]. rewrite IH, by_key_cons by done.
  destruct (decide (id = key v)) as [->|Hne].
  - rewrite lookup_insert_eq. rewrite (proj2 (by_key_None key (key v) l)), lookup_insert_eq; [done|].
    rewrite Forall_forall. intros x Hx E. apply Hv. rewrite <- E. by apply list_elem_of_fmap_2.
  - rewrite (lookup_insert_ne m) by congruence. rewrite (lookup_insert_ne (by_key key l)) by done. done.
Qed.
End upserts.

Lemma requireBoard_Ok db id u : requireBoard db id = Ok u ↔ is_Some (db.(boards) !! id).
Proof. unfold requireBoard. by rewrite checkConstraint_Ok, is_Some_b_true. Qed.

(** Inverts a successful statement down to its constraints and its write. *)
Ltac inv_sql :=
  repeat (progress (inv_ok; repeat match goal with
  | H : checkConstraint _ _ = Ok _ |- _ => apply checkConstraint_Ok in H
  | H : bindUint64 _ = Ok _ |- _ => apply bindUint64_Ok in H
  | H : requireBoard _ _ = Ok _ |- _ => apply requireBoard_Ok in H
  end)).

(** * The rows of one board *)

Definition keptAttempt (v : Attempt) (old : option AttemptRow) : AttemptRow :=
  match old with
  | Some o => attemptRow o.(ar_task_id) o.(ar_worker_id) v
  | None => attemptRow v.(Attempt_TaskID) v.(Attempt_WorkerID) v
  end.
Definition keptLease (mode : Lease → AccessMode) (repository : string) (v : Lease) (old : option LeaseRow)
  : LeaseRow :=
  match old with
  | Some o => leaseRow o.(lr_task_id) o.(lr_attempt_id) o.(lr_worker_id) (mode v) repository v
  | None => leaseRow v.(Lease_TaskID) v.(Lease_AttemptID) v.(Lease_WorkerID) (mode v) repository v
  end.
Definition keptEvidence (v : Evidence) (old : option EvidenceRow) : EvidenceRow :=
  match old with
  | Some o => evidenceRow o.(vr_task_id) o.(vr_attempt_id) v
  | None => evidenceRow v.(Evidence_TaskID) v.(Evidence_AttemptID) v
  end.
Definition keptDependency (v : Dependency) (old : option DependencyRow) : DependencyRow :=
  match old with
  | Some o => mkDependencyRow o.(dr_task_id) o.(dr_depends_on) v
  | None => mkDependencyRow v.(Dependency_TaskID) v.(Dependency_DependsOn) v
  end.

(** The access mode the task of a lease has in the aggregate. *)
Definition modeOf (b : Board) (l : Lease) : AccessMode :=
  default "" (Task_AccessMode <$> by_key Task_ID b.(Board_Tasks) !! l.(Lease_TaskID)).

Lemma accessModes_lookup tasks (m : gmap string AccessMode) id :
  NoDup (Task_ID <$> tasks) →
  foldl (λ m task, <[task.(Task_ID) := task.(Task_AccessMode)]> m) m tasks !! id =
    match by_key Task_ID tasks !! id with Some t => Some t.(Task_AccessMode) | None => m !! id end.
Proof.
  revert m. induction tasks as [|t l IH]; intros m Hnd; [done|]. cbn in Hnd |- *.
  apply NoDup_cons in Hnd as [Ht Hnd]. rewrite IH, by_key_cons by done.
  destruct (decide (id = t.(Task_ID))) as [->|Hne].
  - rewrite !lookup_insert_eq. rewrite (proj2 (by_key_None Task_ID t.(Task_ID) l)); [done|].
    rewrite Forall_forall. intros x Hx E. apply Ht. rewrite <- E. by apply list_elem_of_fmap_2.
  - by rewrite !lookup_insert_ne.
Qed.

Definition artifactRow (e : Evidence) (a : ArtifactRef) : ArtifactRow :=
  mkArtifactRow e.(Evidence_ID) e.(Evidence_TaskID) a.(ArtifactRef_Type) a.(ArtifactRef_DisplayName)
    a.(ArtifactRef_Bytes) a.(ArtifactRef_SHA256).
Definition artifactsOf (e : Evidence) : list ArtifactRef := e.(Evidence_Result).(EvidenceResult_Artifacts).

Definition writeArtifacts (boardID : string) (m : gmap (string * string) ArtifactRow) (e : Evidence)
  : gmap (string * string) ArtifactRow :=
  foldl (λ m a, <[(boardID, a.(ArtifactRef_ID)) := artifactRow e a]> m) m (artifactsOf e).

(** The tables after [syncProjection], as a function of the tables before. *)
Definition synced (db : DB) (b : Board) : DB :=
  let id := b.(Board_ID) in
  let modes := foldl (λ m task, <[task.(Task_ID) := task.(Task_AccessMode)]> m) ∅ b.(Board_Tasks) in
  db <| tasks := upserted Task_ID (λ v _, taskRow v) id db.(tasks) b.(Board_Tasks) |>
     <| dependencies := upserted Dependency_ID keptDependency id db.(dependencies) b.(Board_Dependencies) |>
     <| attempts := upserted Attempt_ID keptAttempt id db.(attempts) b.(Board_Attempts) |>
     <| leases := upserted Lease_ID
          (keptLease (λ l, default "" ((modes : gmap string AccessMode) !! l.(Lease_TaskID)))
             b.(Board_Repository)) id db.(leases) b.(Board_Leases) |>
     <| evidence := upserted Evidence_ID keptEvidence id db.(evidence) b.(Board_Evidence) |>
     <| artifacts := foldl (writeArtifacts id) db.(artifacts) b.(Board_Evidence) |>.

Lemma upsertTasks_all id db l db' :
  for_each (upsertTask id) db l = Ok db' →
  db' = db <| tasks := upserted Task_ID (λ v _, taskRow v) id db.(tasks) l |>.
Proof.
  intros H. apply (for_each_field _ tasks (λ m db, db <| tasks := m |>)
    (λ m v, <[(id, v.(Task_ID)) := taskRow v]> m)) in H; [done| |by intros []|done|done].
  intros ??? E. unfold upsertTask in E. by inv_sql.
Qed.

Lemma upsertDependencies_all id db l db' :
  for_each (upsertDependency id) db l = Ok db' →
  db' = db <| dependencies := upserted Dependency_ID keptDependency id db.(dependencies) l |>.
Proof.
  intros H. apply (for_each_field _ dependencies (λ m db, db <| dependencies := m |>)
    (λ m v, <[(id, v.(Dependency_ID)) := keptDependency v (m !! (id, v.(Dependency_ID)))]> m)) in H;
    [done| |by intros []|done|done].
  intros ???. unfold upsertDependency, keptDependency. destruct (_ !! _); intros E; by inv_sql.
Qed.

Lemma upsertAttempts_all id db l db' :
  for_each (upsertAttempt id) db l = Ok db' →
  db' = db <| attempts := upserted Attempt_ID keptAttempt id db.(attempts) l |>.
Proof.
  intros H. apply (for_each_field _ attempts (λ m db, db <| attempts := m |>)
    (λ m v, <[(id, v.(Attempt_ID)) := keptAttempt v (m !! (id, v.(Attempt_ID)))]> m)) in H;
    [done| |by intros []|done|done].
  intros ???. unfold upsertAttempt, keptAttempt. destruct (_ !! _); intros E; by inv_sql.
Qed.

Lemma upsertLeases_all b (modes : gmap string AccessMode) db l db' :
  for_each (upsertLease b modes) db l = Ok db' →
  db' = db <| leases := upserted Lease_ID
    (keptLease (λ l, default "" (modes !! l.(Lease_TaskID))) b.(Board_Repository))
    b.(Board_ID) db.(leases) l |>.
Proof.
  intros H. apply (for_each_field _ leases (λ m db, db <| leases := m |>)
    (λ m v, <[(b.(Board_ID), v.(Lease_ID)) :=
       keptLease (λ l, default "" (modes !! l.(Lease_TaskID))) b.(Board_Repository) v
         (m !! (b.(Board_ID), v.(Lease_ID)))]> m)) in H; [done| |by intros []|done|done].
  intros ???. unfold upsertLease, keptLease. destruct (_ !! _); intros E; by inv_sql.
Qed.

Lemma upsertArtifacts_all id e db db' :
  for_each (upsertArtifact id e) db (artifactsOf e) = Ok db' →
  db' = db <| artifacts := writeArtifacts id db.(artifacts) e |>.
Proof.
  intros H. apply (for_each_field _ artifacts (λ m db, db <| artifacts := m |>)
    (λ m a, <[(id, a.(ArtifactRef_ID)) := artifactRow e a]> m)) in H; [done| |by intros []|done|done].
  intros ??? E. unfold upsertArtifact in E. by inv_sql.
Qed.

Lemma upsertEvidence_kept id db v db' :
  upsertEvidence id db v = Ok db' →
  db' = db <| evidence := <[(id, v.(Evidence_ID)) := keptEvidence v (db.(evidence) !! (id, v.(Evidence_ID)))]>
          db.(evidence) |>.
Proof. unfold upsertEvidence, keptEvidence. destruct (_ !! _); intros E; by inv_sql. Qed.

Lemma foldl_pair {A B C} (f : A → C → A) (g : B → C → B) l a b :
  foldl (λ p c, (f p.1 c, g p.2 c)) (a, b) l = (foldl f a l, foldl g b l).
Proof. revert a b. induction l as [|c l IH]; intros a b; [done|]. apply IH. Qed.

Lemma upsertEvidence_all id db l db' :
  for_each (λ db value, db ← upsertEvidence id db value; for_each (upsertArtifact id value) db (artifactsOf value))
    db l = Ok db' →
  db' = db <| evidence := upserted Evidence_ID keptEvidence id db.(evidence) l |>
           <| artifacts := foldl (writeArtifacts id) db.(artifacts) l |>.
Proof.
  intros H. apply (for_each_field _ (λ db, (db.(evidence), db.(artifacts)))
    (λ p db, db <| evidence := p.1 |> <| artifacts := p.2 |>)
    (λ p v, (<[(id, v.(Evidence_ID)) := keptEvidence v (p.1 !! (id, v.(Evidence_ID)))]> p.1,
       writeArtifacts id p.2 v))) in H; [| |by intros []|by intros []|done].
  - subst. by rewrite (foldl_pair (λ m v, <[(id, v.(Evidence_ID)) :=
      keptEvidence v (m !! (id, v.(Evidence_ID)))]> m) (writeArtifacts id)).
  - intros ??? E. apply bind_Ok in E as (db1 & E1%upsertEvidence_kept & E2%upsertArtifacts_all). by subst.
Qed.

Lemma syncProjection_synced db b db' : syncProjection db b = Ok db' → db' = synced db b.
Proof.
  unfold syncProjection, synced. intros H.
  apply bind_Ok in H as (db1 & ->%upsertTasks_all & H).
  apply bind_Ok in H as (db2 & ->%upsertDependencies_all & H).
  apply bind_Ok in H as (db3 & ->%upsertAttempts_all & H).
  apply bind_Ok in H as (db4 & ->%upsertLeases_all & H).
  by apply upsertEvidence_all in H as ->.
Qed.

(** * Appending events *)

Definition eventKey (e : Event) : string * Z := (e.(Event_BoardID), e.(Event_Version)).
Definition eventRow (e : Event) : EventRow := mkEventRow e.(Event_ID) e.

(** The events written, none over an existing one. *)
Record appended (db : DB) (es : list Event) (db' : DB) : Prop := {
  ap_rest : db' = db <| events := db'.(events) |>;
  ap_old : db.(events) ⊆ db'.(events);
  ap_new : ∀ e, e ∈ es → db'.(events) !! eventKey e = Some (eventRow e);
  ap_only : ∀ k row, db'.(events) !! k = Some row →
    db.(events) !! k = Some row ∨ ∃ e, e ∈ es ∧ k = eventKey e ∧ row = eventRow e;
  ap_bounds : Forall (λ e, 1 ≤ e.(Event_Version) < 9223372036854775808)%Z es;
}.

Lemma appendEvent_appended db e db' : appendEvent db e = Ok db' → appended db [e] db'.
Proof.
  unfold appendEvent. intros H. inv_sql.
  match goal with H : is_Some_b _ = false |- _ => apply is_Some_b_false in H as Hn end.
  split; cbn.
  - done.
  - by apply insert_subseteq.
  - intros e' ->%list_elem_of_singleton. apply lookup_insert_eq.
  - intros k row. rewrite lookup_insert. case_decide as E; [intros [= <-]; right|by left].
    exists e. split; [by left|]. done.
  - apply Forall_singleton. lia.
Qed.

Lemma appendEvents_appended db es db' : appendEvents db es = Ok db' → appended db es db'.
Proof.
  unfold appendEvents. revert db. induction es as [|e es IH]; intros db H; cbn in H.
  - injection H as <-. split; try done; [by destruct db|by intros ? ?%not_elem_of_nil|by left].
  - apply bind_Ok in H as (db1 & [E1 O1 N1 Y1 B1]%appendEvent_appended & [E2 O2 N2 Y2 B2]%IH). split.
    + rewrite E2, E1. done.
    + by etrans.
    + intros x [->|Hx]%elem_of_cons; [|by apply N2].
      eapply lookup_weaken; [apply N1; by left|done].
    + intros k row Hk. destruct (Y2 k row Hk) as [H|(x & Hx & ?)]; [|right; exists x; split; [by right|done]].
      destruct (Y1 k row H) as [?|(x & Hx & ?)]; [by left|right; exists x].
      split; [apply list_elem_of_singleton in Hx as ->; by left|done].
    + constructor; [by inversion B1|done].
Qed.

(** The invariant of the store: every stored board is one the protocol produced,
    and the rows of the other tables are its projection and its event log. *)

(** * A board and a later version of it *)

Record advance (b next : Board) (es : list Event) : Prop := {
  ad_tasks : ∀ id, is_Some (by_key Task_ID b.(Board_Tasks) !! id) →
    is_Some (by_key Task_ID next.(Board_Tasks) !! id);
  ad_history : history (abs b) (abs next);
  ad_version : next.(Board_Version) = u64 (b.(Board_Version) + Z.of_nat (length es));
  ad_events : ∀ n e, es !! n = Some e →
    e.(Event_BoardID) = next.(Board_ID) ∧ e.(Event_Version) = u64 (b.(Board_Version) + Z.of_nat (S n));
  ad_changed : es = [] → next = b;
}.

Lemma advance_refl cs b : runs cs b → advance b b [].
Proof.
  intros Hr. split; [done|done| |done|done]. cbn. rewrite Z.add_0_r, u64_small; [done|].
  by eapply runs_header.
Qed.

Lemma advance_Apply cs b c next es : runs cs b → Apply b c = Ok (next, es) → advance b next es.
Proof.
  intros Hr H. destruct (runs_header _ _ Hr) as [Hv Hid].
  pose proof (runs_reachable _ _ Hr) as Hre. pose proof (apply_step _ _ _ _ H) as Hst.
  split.
  - intros id. apply (reachable_evolves cs c _ _ Hre Hst).
  - by eapply reachable_history.
  - apply Apply_inv in H as [H _]. destruct (dispatch_numbered _ _ _ Hv Hid H) as (id & _ & [[Hh _] _]).
    by injection Hh.
  - apply Apply_inv in H as [H _]. destruct (dispatch_numbered _ _ _ Hv Hid H) as (id & _ & [[Hh Hes] _]).
    injection Hh as Hi _. subst id. intros n e [_ _ _ Hb Hve _]%Hes. done.
  - apply Apply_inv in H as [H _]. by destruct (dispatch_numbered _ _ _ Hv Hid H) as (id & _ & [_ Hne]).
Qed.

Lemma advance_trans b1 b2 b3 es es' :
  b3.(Board_ID) = b2.(Board_ID) → advance b1 b2 es → advance b2 b3 es' → advance b1 b3 (es ++ es').
Proof.
  intros Hid [T1 H1 V1 E1 C1] [T2 H2 V2 E2 C2]. split.
  - auto.
  - by etrans.
  - rewrite V2, V1, u64_add_u64, length_app. f_equal. lia.
  - intros n e [Hn|[Hn He]]%lookup_app_Some.
    + rewrite Hid. by apply E1.
    + destruct (E2 _ _ He) as [-> ->]. split; [done|]. rewrite V1, u64_add_u64. f_equal. lia.
  - intros [-> ->]%app_nil. by rewrite C2, C1.
Qed.

(** * The invariant *)

Definition ownAttempt (a : Attempt) : AttemptRow := attemptRow a.(Attempt_TaskID) a.(Attempt_WorkerID) a.
Definition ownLease (b : Board) (l : Lease) : LeaseRow :=
  leaseRow l.(Lease_TaskID) l.(Lease_AttemptID) l.(Lease_WorkerID) (modeOf b l) b.(Board_Repository) l.
Definition ownEvidence (e : Evidence) : EvidenceRow :=
  evidenceRow e.(Evidence_TaskID) e.(Evidence_AttemptID) e.

(** The rows of the board [id] are computed from the aggregate [b]. *)
Record projected (db : DB) (id : string) (b : Board) : Prop := {
  pj_tasks : ∀ k, db.(tasks) !! (id, k) = taskRow <$> by_key Task_ID b.(Board_Tasks) !! k;
  pj_attempts : ∀ k,
    db.(attempts) !! (id, k) = ownAttempt <$> by_key Attempt_ID b.(Board_Attempts) !! k;
  pj_leases : ∀ k,
    db.(leases) !! (id, k) = ownLease b <$> by_key Lease_ID b.(Board_Leases) !! k;
  pj_evidence : ∀ k,
    db.(evidence) !! (id, k) = ownEvidence <$> by_key Evidence_ID b.(Board_Evidence) !! k;
  pj_dependencies : ∀ d, d ∈ b.(Board_Dependencies) →
    ∃ row, db.(dependencies) !! (id, d.(Dependency_ID)) = Some row ∧ row.(dr_dependency_json) = d;
  pj_artifacts : ∀ e a, e ∈ b.(Board_Evidence) → a ∈ artifactsOf e →
    is_Some (db.(artifacts) !! (id, a.(ArtifactRef_ID)));
  pj_events : ∀ v, is_Some (db.(events) !! (id, v)) ↔ (1 ≤ v ≤ b.(Board_Version))%Z;
}.

(** A stored board: produced by accepted commands, with the columns of its row. *)
Record stored (db : DB) (id : string) (b : Board) : Prop := {
  so_row : db.(boards) !! id = Some (boardRow b);
  so_id : b.(Board_ID) = id ∧ id ≠ "";
  so_runs : ∃ cs, runs cs b;
  so_version : (1 ≤ b.(Board_Version) < 9223372036854775808)%Z;
  so_projected : projected db id b;
}.

(** No row of a table of entities belongs to the board [id]. *)
Record absent (db : DB) (id : string) : Prop := {
  ab_tasks : ∀ k, db.(tasks) !! (id, k) = None;
  ab_dependencies : ∀ k, db.(dependencies) !! (id, k) = None;
  ab_attempts : ∀ k, db.(attempts) !! (id, k) = None;
  ab_leases : ∀ k, db.(leases) !! (id, k) = None;
  ab_evidence : ∀ k, db.(evidence) !! (id, k) = None;
  ab_artifacts : ∀ k, db.(artifacts) !! (id, k) = None;
  ab_events : ∀ v, db.(events) !! (id, v) = None;
}.

Record consistent (db : DB) : Prop := {
  cn_boards : ∀ id row, db.(boards) !! id = Some row → stored db id row.(br_board_json);
  cn_absent : ∀ id, db.(boards) !! id = None → absent db id;
  cn_events : ∀ k row, db.(events) !! k = Some row →
    eventKey row.(er_event_json) = k ∧ row = eventRow row.(er_event_json);
}.

Lemma consistent_empty : consistent DB_empty.
Proof. split; [done| |done]. by intros id _. Qed.

Lemma stored_unique db id b b' : stored db id b → stored db id b' → b = b'.
Proof. intros [H1 _ _ _ _] [H2 _ _ _ _]. rewrite H1 in H2. by injection H2. Qed.

Lemma consistent_stored db id row :
  consistent db → db.(boards) !! id = Some row → row = boardRow row.(br_board_json).
Proof. intros Hc H. pose proof (so_row _ _ _ (cn_boards _ Hc _ _ H)) as H'. congruence. Qed.

(** * Rows that a write leaves alone *)

(** The rows of the board [id] are the same in both databases. *)
Record same_rows (db db' : DB) (id : string) : Prop := {
  sr_tasks : ∀ k, db'.(tasks) !! (id, k) = db.(tasks) !! (id, k);
  sr_dependencies : ∀ k, db'.(dependencies) !! (id, k) = db.(dependencies) !! (id, k);
  sr_attempts : ∀ k, db'.(attempts) !! (id, k) = db.(attempts) !! (id, k);
  sr_leases : ∀ k, db'.(leases) !! (id, k) = db.(leases) !! (id, k);
  sr_evidence : ∀ k, db'.(evidence) !! (id, k) = db.(evidence) !! (id, k);
  sr_artifacts : ∀ k, db'.(artifacts) !! (id, k) = db.(artifacts) !! (id, k);
  sr_events : ∀ v, db'.(events) !! (id, v) = db.(events) !! (id, v);
}.

Lemma projected_same db db' id b : same_rows db db' id → projected db id b → projected db' id b.
Proof.
  intros [] []. split; intros; rewrite ?sr_tasks0, ?sr_attempts0, ?sr_leases0, ?sr_evidence0,
    ?sr_dependencies0, ?sr_artifacts0, ?sr_events0; eauto.
Qed.

Lemma absent_same db db' id : same_rows db db' id → absent db id → absent db' id.
Proof.
  intros [] []. split; intros; by rewrite ?sr_tasks0, ?sr_attempts0, ?sr_leases0, ?sr_evidence0,
    ?sr_dependencies0, ?sr_artifacts0, ?sr_events0.
Qed.

Lemma writeArtifacts_other id id' m l k :
  id' ≠ id → foldl (writeArtifacts id) m l !! (id', k) = m !! (id', k).
Proof.
  intros Hne. revert m. induction l as [|e l IH]; intros m; [done|]. cbn. rewrite IH.
  unfold writeArtifacts. generalize (artifactsOf e). intros l'. clear IH. revert m.
  induction l' as [|a l' IH]; intros m; [done|]. cbn. rewrite IH. apply lookup_insert_ne. congruence.
Qed.

Lemma synced_other db b id : id ≠ b.(Board_ID) → same_rows db (synced db b) id.
Proof.
  intros Hne. unfold synced. split; intros k; cbn; try done; try (by apply upserted_other).
  by apply writeArtifacts_other.
Qed.

Lemma writeArtifacts_keeps (id : string) (e : Evidence) (m : gmap (string * string) ArtifactRow) (k : string * string) :
  is_Some (m !! k) → is_Some (writeArtifacts id m e !! k).
Proof.
  unfold writeArtifacts. generalize (artifactsOf e). intros l. revert m.
  induction l as [|a l IH]; intros m H; [done|]. apply IH. rewrite lookup_insert. by case_decide.
Qed.

Lemma writeArtifacts_writes (id : string) (e : Evidence) (m : gmap (string * string) ArtifactRow) a :
  a ∈ artifactsOf e → is_Some (writeArtifacts id m e !! (id, a.(ArtifactRef_ID))).
Proof.
  unfold writeArtifacts. generalize (artifactsOf e). intros l. revert m.
  induction l as [|x l IH]; intros m Ha; [by apply not_elem_of_nil in Ha|].
  apply elem_of_cons in Ha as [->|Ha]; [|by apply IH]. cbn. clear IH.
  assert (is_Some (<[(id, x.(ArtifactRef_ID)) := artifactRow e x]> m !! (id, x.(ArtifactRef_ID))))
    as Hs by (by rewrite lookup_insert_eq). revert Hs.
  generalize (<[(id, x.(ArtifactRef_ID)) := artifactRow e x]> m). intros m'. revert m'.
  induction l as [|y l IH]; intros m' H; [done|]. apply IH. rewrite lookup_insert. by case_decide.
Qed.

Lemma allArtifacts_written (id : string) (l : list Evidence) (m : gmap (string * string) ArtifactRow) e a :
  e ∈ l → a ∈ artifactsOf e → is_Some (foldl (writeArtifacts id) m l !! (id, a.(ArtifactRef_ID))).
Proof.
  intros He Ha. revert m. induction l as [|x l IH]; intros m; [by apply not_elem_of_nil in He|].
  apply elem_of_cons in He as [->|He]; [|by apply IH]. cbn. clear IH.
  pose proof (writeArtifacts_writes id x m a Ha) as H. revert H.
  generalize (writeArtifacts id m x). intros m'. revert m'. clear.
  induction l as [|y l IH]; intros m' H; [done|]. by apply IH, writeArtifacts_keeps.
Qed.

(** * A write of a new version of a board *)

Section write.
Context (db : DB) (id : string) (b next : Board) (es : list Event).
Context (Hold : projected db id b) (Hwf : well_formed next) (Hadv : advance b next es).
Context (Hid : next.(Board_ID) = id).

Lemma synced_tasks db2 :
  db2.(tasks) = db.(tasks) →
  ∀ k, (synced db2 next).(tasks) !! (id, k) = taskRow <$> by_key Task_ID next.(Board_Tasks) !! k.
Proof.
  intros E k. unfold synced. cbn. rewrite Hid, E, upserted_lookup by apply Hwf.
  destruct (by_key Task_ID (Board_Tasks next) !! k) eqn:En; [done|]. rewrite (pj_tasks _ _ _ Hold).
  destruct (by_key Task_ID (Board_Tasks b) !! k) eqn:Eb; [|done].
  destruct (ad_tasks _ _ _ Hadv k) as [? ?]; [by rewrite Eb|congruence].
Qed.

Lemma synced_attempts db2 :
  db2.(attempts) = db.(attempts) →
  ∀ k, (synced db2 next).(attempts) !! (id, k) = ownAttempt <$> by_key Attempt_ID next.(Board_Attempts) !! k.
Proof.
  intros E k. unfold synced. cbn. rewrite Hid, E, upserted_lookup by apply Hwf.
  rewrite (pj_attempts _ _ _ Hold). destruct (by_key Attempt_ID (Board_Attempts b) !! k) as [a|] eqn:Eb;
    [|by destruct (by_key Attempt_ID (Board_Attempts next) !! k)].
  destruct (hi_attempts _ _ (ad_history _ _ _ Hadv) k a Eb) as (a' & Ea' & _ & [= H1 H2 _ _ _] & _).
  cbn in Ea'. rewrite Ea'. cbn. unfold ownAttempt. by rewrite H1, H2.
Qed.

Lemma synced_leases db2 :
  db2.(leases) = db.(leases) →
  ∀ k, (synced db2 next).(leases) !! (id, k) = ownLease next <$> by_key Lease_ID next.(Board_Leases) !! k.
Proof.
  intros E k. unfold synced. cbn. rewrite Hid, E, upserted_lookup by apply Hwf.
  assert (∀ l, default "" (foldl (λ m task, <[task.(Task_ID) := task.(Task_AccessMode)]> m)
      (∅ : gmap string AccessMode) next.(Board_Tasks) !! l.(Lease_TaskID)) = modeOf next l) as Hm.
  { intros l. rewrite accessModes_lookup by apply Hwf. unfold modeOf.
    by destruct (by_key Task_ID (Board_Tasks next) !! _). }
  rewrite (pj_leases _ _ _ Hold). destruct (by_key Lease_ID (Board_Leases b) !! k) as [l|] eqn:Eb.
  - destruct (hi_leases _ _ (ad_history _ _ _ Hadv) k l Eb) as (l' & El' & _ & H1 & H2 & H3 & _).
    cbn in El'. rewrite El'. cbn. unfold ownLease. by rewrite Hm, H1, H2, H3.
  - destruct (by_key Lease_ID (Board_Leases next) !! k) as [l'|]; [|done]. cbn. by rewrite Hm.
Qed.

Lemma synced_evidence db2 :
  db2.(evidence) = db.(evidence) →
  ∀ k, (synced db2 next).(evidence) !! (id, k) = ownEvidence <$> by_key Evidence_ID next.(Board_Evidence) !! k.
Proof.
  intros E k. unfold synced. cbn. rewrite Hid, E, upserted_lookup by apply Hwf.
  rewrite (pj_evidence _ _ _ Hold). destruct (by_key Evidence_ID (Board_Evidence b) !! k) as [e|] eqn:Eb;
    [|by destruct (by_key Evidence_ID (Board_Evidence next) !! k)].
  destruct (hi_evidence _ _ (ad_history _ _ _ Hadv) k e Eb) as (e' & Ee' & _ & H1 & H2 & _).
  cbn in Ee'. rewrite Ee'. cbn. unfold ownEvidence. by rewrite H1, H2.
Qed.

Lemma synced_dependencies db2 d :
  d ∈ next.(Board_Dependencies) →
  ∃ row, (synced db2 next).(dependencies) !! (id, d.(Dependency_ID)) = Some row ∧ row.(dr_dependency_json) = d.
Proof.
  intros Hd. unfold synced. cbn. rewrite Hid, upserted_lookup by apply Hwf.
  rewrite (by_key_elem _ _ _ d) by (done || apply Hwf). eexists. split; [done|].
  unfold keptDependency. by destruct (_ !! _).
Qed.

(** The log of the board after its events were appended. *)
Lemma appended_events db1 db2 :
  (0 ≤ b.(Board_Version) < 9223372036854775808)%Z → (next.(Board_Version) < 9223372036854775808)%Z →
  db1.(events) = db.(events) → appended db1 es db2 →
  ∀ v, is_Some (db2.(events) !! (id, v)) ↔ (1 ≤ v ≤ next.(Board_Version))%Z.
Proof.
  intros Hv Hv' E [_ Hsub Hnew Honly Hb] v.
  destruct Hadv as [_ _ Hver Hes]. rewrite Forall_forall in Hb.
  (* no version of the events wraps around *)
  assert (∀ n, n ≤ length es →
    u64 (b.(Board_Version) + Z.of_nat n) = (b.(Board_Version) + Z.of_nat n)%Z) as Hu.
  { induction n as [|n IH]; intros Hn; [rewrite Z.add_0_r; apply u64_small; unfold two64; lia|].
    destruct (lookup_lt_is_Some_2 es n) as [e He]; [lia|]. specialize (IH ltac:(lia)).
    assert (b.(Board_Version) + Z.of_nat n < 9223372036854775808)%Z as Hlt.
    { destruct n as [|n]; [lia|]. destruct (lookup_lt_is_Some_2 es n) as [e' He']; [lia|].
      destruct (Hes _ _ He') as [_ Hve]. rewrite IH in Hve.
      pose proof (Hb e' (list_elem_of_lookup_2 _ _ _ He')). lia. }
    apply u64_small. unfold two64. lia. }
  assert (∀ n e, es !! n = Some e → eventKey e = (id, (b.(Board_Version) + Z.of_nat (S n))%Z)) as Hkey.
  { intros n e He. pose proof (lookup_lt_Some _ _ _ He). destruct (Hes _ _ He) as [Hi Hve].
    unfold eventKey. rewrite Hi, Hid, Hve, Hu by lia. done. }
  rewrite Hver, Hu by lia. split.
  - intros [row [H|(e & He & Hk & _)]%Honly].
    + rewrite E in H. assert (1 ≤ v ≤ b.(Board_Version))%Z; [|lia].
      apply (pj_events _ _ _ Hold). by exists row.
    + apply list_elem_of_lookup in He as [n He]. pose proof (lookup_lt_Some _ _ _ He).
      rewrite (Hkey _ _ He) in Hk. injection Hk as ->. lia.
  - intros Hr. destruct (decide (v ≤ b.(Board_Version))%Z) as [Hle|Hgt].
    + assert (is_Some (db.(events) !! (id, v))) as [row Hrow] by (apply (pj_events _ _ _ Hold); lia).
      rewrite <- E in Hrow. exists row. by eapply lookup_weaken.
    + destruct (lookup_lt_is_Some_2 es (Z.to_nat (v - b.(Board_Version) - 1))) as [e He]; [lia|].
      pose proof (Hnew e (list_elem_of_lookup_2 _ _ _ He)) as Hn. rewrite (Hkey _ _ He) in Hn.
      replace (b.(Board_Version) + Z.of_nat (S (Z.to_nat (v - b.(Board_Version) - 1))))%Z with v in Hn by lia.
      by eexists.
Qed.

End write.

(** What a write needs of the database, and what it leaves. *)
Definition replaceable (db : DB) (id : string) (b : Board) : Prop :=
  stored db id b ∨ b = Board_zero ∧ db.(boards) !! id = None.

Lemma replaceable_projected db id b :
  consistent db → replaceable db id b →
  projected db id b ∧ (0 ≤ b.(Board_Version) < 9223372036854775808)%Z.
Proof.
  intros Hc [Hs|[-> Hn]].
  - split; [by apply so_projected|]. pose proof (so_version _ _ _ Hs). lia.
  - destruct (cn_absent _ Hc _ Hn). split; [|done].
    split; intros k; cbn; rewrite ?ab_tasks0, ?ab_attempts0, ?ab_leases0, ?ab_evidence0, ?ab_events0;
      try done; try (by intros ?%not_elem_of_nil).
    + intros a ?%not_elem_of_nil. done.
    + split; [by intros [? ?]|lia].
Qed.

Record written (db : DB) (next : Board) (es : list Event) (db' : DB) : Prop := {
  wr_boards : db'.(boards) = <[next.(Board_ID) := boardRow next]> db.(boards);
  wr_commands : db'.(commands) = db.(commands);
  wr_definitions : db'.(board_definitions) = db.(board_definitions);
  wr_bindings : db'.(bindings) = db.(bindings);
  wr_others : ∀ id, id ≠ next.(Board_ID) → same_rows db db' id;
  wr_events : db.(events) ⊆ db'.(events) ∧ ∀ e, e ∈ es → db'.(events) !! eventKey e = Some (eventRow e);
  wr_stored : stored db' next.(Board_ID) next;
  wr_consistent : consistent db';
}.

Lemma appended_others db es db' id :
  (∀ e, e ∈ es → e.(Event_BoardID) ≠ id) → appended db es db' →
  ∀ v, db'.(events) !! (id, v) = db.(events) !! (id, v).
Proof.
  intros Hes [_ Hold _ Honly _] v. destruct (db.(events) !! (id, v)) as [row|] eqn:E.
  - by eapply lookup_weaken.
  - destruct (db'.(events) !! (id, v)) as [row|] eqn:E'; [|done].
    destruct (Honly _ _ E') as [?|(e & He & [= -> _] & _)]; [congruence|]. by destruct (Hes e He).
Qed.

Lemma synced_events db b : (synced db b).(events) = db.(events).
Proof. done. Qed.

Lemma write_consistent cs db b next es db2 :
  consistent db → replaceable db next.(Board_ID) b → runs cs next → well_formed next → advance b next es →
  (1 ≤ next.(Board_Version) < 9223372036854775808)%Z →
  appended (db <| boards := <[next.(Board_ID) := boardRow next]> db.(boards) |>) es db2 →
  written db next es (synced db2 next).
Proof.
  intros Hc Hrep Hr Hwf Ha Hv Hap.
  destruct (replaceable_projected _ _ _ Hc Hrep) as [Hold Hbv].
  set (db1 := db <| boards := <[next.(Board_ID) := boardRow next]> db.(boards) |>) in *.
  assert (∀ e, e ∈ es → e.(Event_BoardID) = next.(Board_ID)) as Hids.
  { intros e [n He]%list_elem_of_lookup. by apply (ad_events _ _ _ Ha n). }
  assert (db2.(boards) = <[next.(Board_ID) := boardRow next]> db.(boards) ∧ db2.(tasks) = db.(tasks) ∧
    db2.(dependencies) = db.(dependencies) ∧ db2.(attempts) = db.(attempts) ∧ db2.(leases) = db.(leases) ∧
    db2.(evidence) = db.(evidence) ∧ db2.(artifacts) = db.(artifacts) ∧ db2.(commands) = db.(commands) ∧
    db2.(board_definitions) = db.(board_definitions) ∧ db2.(bindings) = db.(bindings))
    as (Eb & Et & Ed & Ea & El & Ee & Ef & Ecm & Edf & Ebn)
    by (rewrite (ap_rest _ _ _ Hap); done).
  assert (projected (synced db2 next) next.(Board_ID) next) as Hproj.
  { split.
    - by eapply synced_tasks.
    - by eapply synced_attempts.
    - by eapply synced_leases.
    - by eapply synced_evidence.
    - intros d Hd. by eapply synced_dependencies.
    - intros e a He Hea. unfold synced. cbn. by eapply allArtifacts_written.
    - rewrite synced_events. by eapply (appended_events db _ b next es Hold Ha eq_refl db1); [..|lia| |]. }
  assert (∀ id, id ≠ next.(Board_ID) → same_rows db (synced db2 next) id) as Hothers.
  { intros id Hne. pose proof (synced_other db2 next id Hne) as [].
    split; intros k; rewrite ?sr_tasks0, ?sr_dependencies0, ?sr_attempts0, ?sr_leases0, ?sr_evidence0,
      ?sr_artifacts0, ?sr_events0, ?Et, ?Ed, ?Ea, ?El, ?Ee, ?Ef; try done.
    eapply (appended_others db1); [|done]. intros e He. rewrite (Hids e He). congruence. }
  assert (stored (synced db2 next) next.(Board_ID) next) as Hst.
  { split; try done; [|split; [done|apply Hwf]|by exists cs].
    change (db2.(boards) !! next.(Board_ID) = Some (boardRow next)). rewrite Eb. apply lookup_insert_eq. }
  split; try done.
  - split; [|apply Hap]. apply Hap.
  - change ((synced db2 next).(boards)) with db2.(boards) in Hst. split.
    + intros id row. change ((synced db2 next).(boards)) with db2.(boards). rewrite Eb, lookup_insert. case_decide as E; [intros [= <-]; by subst id|].
      intros Hrow. destruct (cn_boards _ Hc _ _ Hrow) as [H1 H2 H3 H4 H5]. split; try done.
      * change ((synced db2 next).(boards)) with db2.(boards). rewrite Eb. by rewrite lookup_insert_ne.
      * eapply projected_same; [|exact H5]. apply Hothers. congruence.
    + intros id. change ((synced db2 next).(boards)) with db2.(boards). rewrite Eb, lookup_insert_None. intros [Hn Hne].
      eapply absent_same; [|by apply (cn_absent _ Hc)]. apply Hothers. congruence.
    + intros k row Hk. change (db2.(events) !! k = Some row) in Hk.
      destruct (ap_only _ _ _ Hap _ _ Hk) as [H|(e & _ & -> & ->)]; [by apply (cn_events _ Hc)|done].
Qed.
