(* ===== verification/Store.v ===== *)
(** The durable store of internal/agoboardstore: commands applied in transactions with
    receipts (store.go), and the claim of work (claim.go). *)
From stdpp Require Import sorting.
From S2P Require Import Prelude Sql Planner Protocol Validate StateMachine Apply Database.

(** The durable store of internal/agoboardstore/store.go: protocol commands
    applied in transactions, with receipts that make retries exact. *)

(** Sentinel errors, compared by identity. *)
Definition ErrBoardNotFound : error := ErrNew "does not exist".
Definition ErrCommandConflict : error := ErrNew "was already used for different content".

Record LeaseCommand : Type := mkLeaseCommand {
  LeaseCommand_ID : string; LeaseCommand_ExpectedVersion : Z; LeaseCommand_Actor : Actor;
  LeaseCommand_BoardID : string; LeaseCommand_LeaseID : string; LeaseCommand_ExpiresAt : Time;
  LeaseCommand_Reason : string; LeaseCommand_FailureClass : FailureClass;
  LeaseCommand_NextEligibleAt : Time; LeaseCommand_FencingToken : string;
}.

(** [SlotLimits] of claim.go, part of the request a claim is identified by. *)
Record SlotLimits : Type := mkSlotLimits {
  SlotLimits_GlobalRunning : Z; SlotLimits_BoardRunning : Z;
  SlotLimits_RepositoryWriters : Z; SlotLimits_RepositoryReaders : Z;
}.

(** The values [requestHash] is applied to, one constructor per anonymous struct. *)
Inductive HashRequest : Type :=
  | HashCommand (boardID : string) (command : Command) (expiresAt : Time) (binding : option Binding)
  | HashGraph (boardID : string) (commands : list Command) (definition : string)
  | HashLease (id boardID leaseID : string) (actor : Actor) (expire : bool) (token : string)
      (expiresAt : Time) (reason : string) (class : FailureClass)
  | HashClaim (boardID : string) (actor : Actor) (workerID : string) (limits : SlotLimits)
  | HashExpiry (boardID leaseID : string) (expiry : Z)
  | HashStrings (values : list string).

(** The functions of the standard library and of the planner the store relies on:
    the hexadecimal SHA-256 of the JSON encoding of a request, JSON documents,
    and the list of tasks inside an encoded plan. *)
Class Env : Type := {
  requestHash : HashRequest → string;
  json_Valid : string → bool;
  (** the members of a JSON object ([None] for [null], which leaves the map nil),
      and the object with the given members *)
  unmarshalObject : string → result (option (gmap string string));
  marshalObject : gmap string string → string;
  (** the tasks of an encoded plan, and the plan with its tasks replaced *)
  unmarshalPlan : string → result (list TaskProposal);
  marshalPlan : option string → list TaskProposal → string;
}.

(** * Queries *)

Definition boardQuery (db : DB) (id : string) : result Board :=
  match db.(boards) !! id with
  | None => Err (Errorf "board %q %w" [AStr id; AWrap ErrBoardNotFound])
  | Some row => Board_Validate row.(br_board_json) ;; Ok row.(br_board_json)
  end.

(** Events by version. *)
Definition versionOrder (p q : string * Z * EventRow) : Prop := (p.1.2 ≤ q.1.2)%Z.
#[export] Instance versionOrder_dec : RelDecision versionOrder := λ p q, decide (p.1.2 ≤ q.1.2)%Z.

(** [SELECT board_id FROM boards ORDER BY board_id] *)
Definition BoardIDs (db : DB) : list string := merge_sort byteOrder (fst <$> map_to_list db.(boards)).

Definition soleBoardID (db : DB) : result string :=
  let ids := take 2 (BoardIDs db) in
  match ids with
  | [id] => Ok id
  | _ => Err (Errorf "board id is required when store contains %d boards"
                [AInt (Z.of_nat (length ids))])
  end.

Definition storedResult (db : DB) (actor id hash : string) : result (option Result) :=
  match db.(commands) !! (actor, id) with
  | None => Ok None
  | Some row =>
      fail_if (row.(cr_request_hash) != hash)
        (Errorf "command %q %w" [AStr id; AWrap ErrCommandConflict]) ;;
      Ok (Some row.(cr_result_json))
  end.

(** [SELECT event_json ... WHERE board_id=? AND version>? ORDER BY version LIMIT ?] *)
Definition Replay (db : DB) (boardID : string) (afterVersion limit : Z) : result (list Event) :=
  fail_if (limit <? 0)%Z (Errorf "limit cannot be negative" []) ;;
  bindUint64 afterVersion ;;
  let rows := List.filter (λ p : string * Z * EventRow, (p.1.1 == boardID) && (afterVersion <? p.1.2)%Z)
                (map_to_list db.(events)) in
  let sorted := merge_sort versionOrder rows in
  let values := (λ p, p.2.(er_event_json)) <$> sorted in
  Ok (if (0 <? limit)%Z then take (Z.to_nat limit) values else values).

Definition CommandResult (db : DB) (actorID commandID : string) : result (Result * bool) :=
  fail_if ((strings_TrimSpace actorID == "") || (strings_TrimSpace commandID == ""))
    (Errorf "actor id and command id are required" []) ;;
  match db.(commands) !! (actorID, commandID) with
  | None => Ok (Result_zero, false)
  | Some row => Ok (row.(cr_result_json), true)
  end.

(** [SELECT MAX(version) FROM events WHERE board_id=?] *)
Definition LatestSequence (db : DB) (boardID : string) : Z :=
  foldr (λ p highest, if (p.1.1 : string) == boardID then Z.max p.1.2 highest else highest) 0%Z
    (map_to_list db.(events)).

Definition Ready (db : DB) (boardID : string) : result (list Task) :=
  board ← boardQuery db boardID;
  Ok (List.filter (λ task, task.(Task_State) == TaskReady) board.(Board_Tasks)).

Definition Store_Completion (db : DB) (boardID : string) : result Completion :=
  board ← boardQuery db boardID; Ok (EvaluateCompletion board).

(** [Definition] decodes the stored document into its target, whose decoder is an
    argument. *)
Definition Definition_ {A} (unmarshal : string → result A) (db : DB) (boardID : string) : result A :=
  fail_if (strings_TrimSpace boardID == "")
    (Errorf "board id and definition target are required" []) ;;
  encoded ← wrap_err (λ err, Errorf "read board definition: %w" [AWrap err])
    (non_nil (db.(board_definitions) !! boardID) (ErrNew "sql: no rows in result set"));
  wrap_err (λ err, Errorf "decode board definition: %w" [AWrap err]) (unmarshal encoded).

Definition Store_Binding (db : DB) (boardID attemptID : string) : result Binding :=
  match db.(bindings) !! (boardID, attemptID) with
  | None => Err (ErrNew "sql: no rows in result set")
  | Some row => Ok row.(nr_binding_json)
  end.

Definition ReferencedArtifacts (db : DB) : gset string :=
  list_to_set ((λ p : string * string * ArtifactRow, p.1.2) <$> map_to_list db.(artifacts)).

(** * Applying commands *)

Section store.
Context `{!Env}.

Definition commandRequestHash (boardID : string) (command : Command) (expiresAt : Time)
    (binding : option Binding) : string :=
  requestHash (HashCommand boardID command expiresAt binding).

(** [extendDefinition]: the members of the document other than ["plan"] are kept;
    a proposal with the same id is replaced in place. An assignment to a nil map
    panics. *)
Definition replaceProposal (proposal : TaskProposal) (tasks : list TaskProposal) : list TaskProposal :=
  match list_find (λ existing, existing.(TaskProposal_ID) = proposal.(TaskProposal_ID)) tasks with
  | Some (index, _) => <[index := proposal]> tasks
  | None => tasks ++ [proposal]
  end.

Definition extendDefinition (db : DB) (boardID : string) (proposal : TaskProposal) : result DB :=
  match db.(board_definitions) !! boardID with
  | None => Err (Errorf "read graph definition: %w" [AWrap (ErrNew "sql: no rows in result set")])
  | Some encoded =>
      raw ← wrap_err (λ err, Errorf "decode graph definition: %w" [AWrap err]) (unmarshalObject encoded);
      let planRaw := m ← raw; m !! "plan" in
      plan ← match planRaw with
             | Some planRaw =>
                 wrap_err (λ err, Errorf "decode plan: %w" [AWrap err]) (unmarshalPlan planRaw)
             | None => Ok []
             end;
      match raw with
      | None => Panic
      | Some raw =>
          let updated := marshalObject
            (<["plan" := marshalPlan planRaw (replaceProposal proposal plan)]> raw) in
          Ok (db <| board_definitions := <[boardID := updated]> db.(board_definitions) |>)
      end
  end.

(** The board id [apply] works on. *)
Definition resolveBoard (db : DB) (boardID : string) (command : Command) : result string :=
  if command.(Command_Type) == CommandBoardCreate then
    Ok (match command.(Command_Board) with Some spec => spec.(BoardSpec_ID) | None => boardID end)
  else if boardID == "" then soleBoardID db else Ok boardID.

(** The deadline folded into the lease of the command. *)
Definition withDeadline (command : Command) (expiresAt : Time) : Command :=
  match command.(Command_Lease) with
  | Some spec =>
      if negb (Time_IsZero expiresAt) && Time_IsZero spec.(LeaseSpec_ExpiresAt)
      then command <| Command_Lease := Some (spec <| LeaseSpec_ExpiresAt := Time_UTC expiresAt |>) |>
      else command
  | None => command
  end.

(** The aggregate, its events and its projections, written for a new version. *)
Definition writeBoard (create : bool) (db : DB) (next : Board) (events : list Event) : result DB :=
  db ← (if create then wrap_err (λ err, Errorf "insert board: %w" [AWrap err]) (insertBoard db next)
        else updateBoard db next);
  db ← appendEvents db events;
  syncProjection db next.

(** The transaction of [apply]; the flag is the caller's [fresh]. *)
Definition applyTx (boardID : string) (command : Command) (expiresAt : Time) (binding : option Binding)
    (proposal : option TaskProposal) : Tx DB (Result * bool) := λ db,
  boardID ← resolveBoard db boardID command;
  let command := withDeadline command expiresAt in
  let hash := commandRequestHash boardID command expiresAt binding in
  stored ← storedResult db command.(Command_Actor).(Actor_ID) command.(Command_ID) hash;
  match stored with
  | Some result => uncommitted db (result, false)
  | None =>
      let create := command.(Command_Type) == CommandBoardCreate in
      current ← (if create then Ok Board_zero else boardQuery db boardID);
      '(next, events) ← Apply current command;
      db ← writeBoard create db next events;
      db ← match binding with
           | None => Ok db
           | Some b =>
               let mismatch := Errorf "binding does not match acquired attempt" [] in
               lease ← non_nil command.(Command_Lease) mismatch;
               fail_if ((b.(Binding_BoardID) != next.(Board_ID))
                        || (b.(Binding_AttemptID) != lease.(LeaseSpec_AttemptID))
                        || (b.(Binding_ThreadID) == "")) mismatch ;;
               wrap_err (λ err, Errorf "insert binding: %w" [AWrap err]) (insertBinding db b)
           end;
      let result := mkResult next events in
      db ← insertResult db command.(Command_Actor).(Actor_ID) command.(Command_ID) hash
             next.(Board_ID) result;
      db ← match proposal with
           | None => Ok db
           | Some p => extendDefinition db boardID p
           end;
      Ok (db, (result, true))
  end.

Definition apply (boardID : string) (command : Command) (expiresAt : Time) (binding : option Binding)
    (proposal : option TaskProposal) (db : DB) : DB * result (Result * bool) :=
  transact (applyTx boardID command expiresAt binding proposal) db.

(** The result of [apply] for the callers that pass no [fresh]. *)
Definition resultOf {A} (r : DB * result (Result * A)) : DB * result Result :=
  (r.1, '(result, _) ← r.2; Ok result).

Definition Store_Apply (command : Command) (db : DB) : DB * result Result :=
  resultOf (apply "" command Time_zero None None db).

Definition ApplyBoard (boardID : string) (command : Command) (db : DB) : DB * result Result :=
  resultOf (apply boardID command Time_zero None None db).

Definition ApplyBoardWithProposal (boardID : string) (command : Command) (proposal : TaskProposal)
    (db : DB) : DB * result Result :=
  if strings_TrimSpace proposal.(TaskProposal_ID) == "" then (db, Err (Errorf "a proposal needs an id" []))
  else resultOf (apply boardID command Time_zero None (Some proposal) db).

Definition Create (command : Command) (db : DB) : DB * result Result :=
  if command.(Command_Type) != CommandBoardCreate
  then (db, Err (Errorf "Create requires board.create command" []))
  else Store_Apply command db.

Definition AcquireLease (command : Command) (expiresAt : Time) (binding : option Binding) (db : DB)
  : DB * result Result :=
  if command.(Command_Type) != CommandLeaseAcquire
  then (db, Err (Errorf "AcquireLease requires lease.acquire command" []))
  else if Time_IsZero expiresAt then (db, Err (Errorf "lease expiry is required" []))
  else resultOf (apply (match binding with Some b => b.(Binding_BoardID) | None => "" end) command
                   (Time_UTC expiresAt) binding None db).

Definition AcquireLeaseBoardOnce (boardID : string) (command : Command) (expiresAt : Time)
    (binding : option Binding) (db : DB) : DB * result (Result * bool) :=
  if command.(Command_Type) != CommandLeaseAcquire
  then (db, Err (Errorf "AcquireLeaseBoardOnce requires lease.acquire command" []))
  else if (boardID == "") || Time_IsZero expiresAt
  then (db, Err (Errorf "board id and lease expiry are required" []))
  else apply boardID command (Time_UTC expiresAt) binding None db.

Definition AcquireLeaseBoard (boardID : string) (command : Command) (expiresAt : Time)
    (binding : option Binding) (db : DB) : DB * result Result :=
  if command.(Command_Type) != CommandLeaseAcquire
  then (db, Err (Errorf "AcquireLeaseBoard requires lease.acquire command" []))
  else if (boardID == "") || Time_IsZero expiresAt
  then (db, Err (Errorf "board id and lease expiry are required" []))
  else resultOf (apply boardID command (Time_UTC expiresAt) binding None db).

(** * Graph admission *)

(** The checks of [CreateGraph] on the command list, in order; the accumulator
    is the set of ids seen. *)
Definition admissible (actorID : string) (seen : gset string) (command : Command)
  : Prelude.result (gset string) :=
  fail_if ((command.(Command_Actor).(Actor_ID) != actorID)
           || (command.(Command_Actor).(Actor_Role) != RoleCoordinator))
    (Errorf "graph admission requires one coordinator actor" []) ;;
  fail_if (command.(Command_ID) == "") (Errorf "graph command id is required" []) ;;
  fail_if (bool_decide (command.(Command_ID) ∈ seen))
    (Errorf "duplicate graph command id %q" [AStr command.(Command_ID)]) ;;
  Ok ({[ command.(Command_ID) ]} ∪ seen).

(** The receipt of an inner command must be new. *)
Definition unusedCommand (db : DB) (boardID actorID : string) (command : Command) : Prelude.result unit :=
  found ← storedResult db actorID command.(Command_ID)
            (commandRequestHash boardID command Time_zero None);
  fail_if (is_Some_b found) (Errorf "graph command %q was already used" [AStr command.(Command_ID)]).

(** The state of the loop over the commands: the board, all events so far, and
    the result of each command. *)
Definition admitCommand (boardID : string) (s : Board * list Event * list (Command * Result))
    (command : Command) : Prelude.result (Board * list Event * list (Command * Result)) :=
  let '(current, events, results) := s in
  '(next, emitted) ← wrap_err (λ err, Errorf "apply graph command %q: %w"
                        [AStr command.(Command_ID); AWrap err]) (Apply current command);
  fail_if (next.(Board_ID) != boardID)
    (Errorf "graph command %q changed board identity" [AStr command.(Command_ID)]) ;;
  Ok (next, events ++ emitted, results ++ [(command, mkResult next emitted)]).

Definition createGraphTx (boardID : string) (first : Command) (rest : list Command) (definition : string)
  : Tx DB Result := λ db,
  let actorID := first.(Command_Actor).(Actor_ID) in
  let hash := requestHash (HashGraph boardID (first :: rest) definition) in
  stored ← storedResult db actorID first.(Command_ID) hash;
  match stored with
  | Some result => uncommitted db result
  | None =>
      for_each (λ _ command, unusedCommand db boardID actorID command) tt rest ;;
      '(current, events, results) ← for_each (admitCommand boardID) (Board_zero, [], []) (first :: rest);
      db ← wrap_err (λ err, Errorf "insert admitted board: %w" [AWrap err]) (insertBoard db current);
      db ← wrap_err (λ err, Errorf "insert graph definition: %w" [AWrap err])
             (insertDefinition db current.(Board_ID) definition);
      db ← appendEvents db events;
      db ← syncProjection db current;
      db ← for_each (λ db receipt,
               insertResult db actorID receipt.1.(Command_ID)
                 (commandRequestHash boardID receipt.1 Time_zero None) current.(Board_ID) receipt.2)
             db (tail results);
      let result := mkResult current events in
      db ← insertResult db actorID first.(Command_ID) hash current.(Board_ID) result;
      Ok (db, result)
  end.

Definition CreateGraph (graph : list Command) (definition : string) (db : DB) : DB * result Result :=
  let incomplete := Errorf "CreateGraph requires board.create followed by graph commands" [] in
  match graph with
  | [] => (db, Err incomplete)
  | first :: rest =>
      match first.(Command_Board) with
      | None => (db, Err incomplete)
      | Some spec =>
          if first.(Command_Type) != CommandBoardCreate then (db, Err incomplete) else
          if (definition == "") || negb (json_Valid definition)
          then (db, Err (Errorf "valid graph definition is required" [])) else
          match for_each (admissible first.(Command_Actor).(Actor_ID)) ∅ graph with
          | Err e => (db, Err e)
          | Panic => (db, Panic)
          | Ok _ => transact (createGraphTx spec.(BoardSpec_ID) first rest definition) db
          end
      end
  end.

(** * Leases *)

Definition durableRetryDeadline (board : Board) (leaseID : string) : Time :=
  let owners := List.filter (λ l : Lease, l.(Lease_ID) == leaseID) board.(Board_Leases) in
  let deadline (lease : Lease) : option Time :=
    '(_, task) ← list_find (λ task, task.(Task_ID) = lease.(Lease_TaskID)) board.(Board_Tasks);
    let base := if Time_IsZero lease.(Lease_ExpiresAt) then lease.(Lease_AcquiredAt)
                else lease.(Lease_ExpiresAt) in
    Some (Time_Add (Time_UTC base) (RetryDelay task.(Task_AttemptCount))) in
  default Time_zero (head (omap deadline owners)).

Definition leaseRequestHash (command : LeaseCommand) (expire : bool) : string :=
  requestHash (HashLease command.(LeaseCommand_ID) command.(LeaseCommand_BoardID)
    command.(LeaseCommand_LeaseID) command.(LeaseCommand_Actor) expire
    command.(LeaseCommand_FencingToken) command.(LeaseCommand_ExpiresAt)
    command.(LeaseCommand_Reason) command.(LeaseCommand_FailureClass)).

(** The protocol command a lease command stands for. *)
Definition leaseProtocolCommand (board : Board) (command : LeaseCommand) (expire : bool) : Command :=
  Command_zero
    <| Command_SchemaVersion := SchemaVersion |>
    <| Command_ID := command.(LeaseCommand_ID) |>
    <| Command_ExpectedVersion := board.(Board_Version) |>
    <| Command_Actor := command.(LeaseCommand_Actor) |>
    <| Command_Type := if expire then CommandLeaseExpire else CommandLeaseRenew |>
    <| Command_Lease := Some (LeaseSpec_zero
         <| LeaseSpec_ID := command.(LeaseCommand_LeaseID) |>
         <| LeaseSpec_ExpiresAt := command.(LeaseCommand_ExpiresAt) |>
         <| LeaseSpec_FencingToken := command.(LeaseCommand_FencingToken) |>) |>
    <| Command_Reason := command.(LeaseCommand_Reason) |>
    <| Command_FailureClass := command.(LeaseCommand_FailureClass) |>
    <| Command_NextEligibleAt :=
         if expire then durableRetryDeadline board command.(LeaseCommand_LeaseID)
         else command.(LeaseCommand_NextEligibleAt) |>.

(** The compare-and-swap of a sweep: the lease is still active with the deadline
    the sweep read. *)
Definition leaseStill (db : DB) (boardID leaseID : string) (expiry : Z) : bool :=
  match db.(leases) !! (boardID, leaseID) with
  | None => false
  | Some row => (row.(lr_state) == LeaseActive) && (row.(lr_expires_at) =? expiry)%Z
  end.

Definition mutateLeaseTx (command : LeaseCommand) (expire : bool) (expectedExpiry : option Z)
  : Tx DB (Result * bool) := λ db,
  let hash := leaseRequestHash command expire in
  stored ← storedResult db command.(LeaseCommand_Actor).(Actor_ID) command.(LeaseCommand_ID) hash;
  match stored with
  | Some result => uncommitted db (result, false)
  | None =>
      board ← boardQuery db command.(LeaseCommand_BoardID);
      let stale := match expectedExpiry with
        | None => false
        | Some expiry =>
            negb (leaseStill db command.(LeaseCommand_BoardID) command.(LeaseCommand_LeaseID) expiry)
        end in
      if stale then uncommitted db (Result_zero, false) else
      if negb (board.(Board_Version) =? command.(LeaseCommand_ExpectedVersion))%Z then
        (if is_Some_b expectedExpiry then uncommitted db (Result_zero, false)
         else Err (Errorf "expected board version %d, got %d"
                     [AInt command.(LeaseCommand_ExpectedVersion); AInt board.(Board_Version)])) else
      '(next, events) ← Apply board (leaseProtocolCommand board command expire);
      db ← writeBoard false db next events;
      let result := mkResult next events in
      db ← insertResult db command.(LeaseCommand_Actor).(Actor_ID) command.(LeaseCommand_ID) hash
             next.(Board_ID) result;
      Ok (db, (result, true))
  end.

Definition mutateLease (command : LeaseCommand) (expire : bool) (expectedExpiry : option Z) (db : DB)
  : DB * result (Result * bool) :=
  if (command.(LeaseCommand_ID) == "") || (command.(LeaseCommand_BoardID) == "")
     || (command.(LeaseCommand_LeaseID) == "") || (command.(LeaseCommand_Actor).(Actor_ID) == "")
     || (command.(LeaseCommand_Actor).(Actor_Role) != RoleCoordinator)
  then (db, Err (Errorf "valid coordinator lease command is required" []))
  else transact (mutateLeaseTx command expire expectedExpiry) db.

Definition RenewLease (command : LeaseCommand) (db : DB) : DB * result Result :=
  if Time_IsZero command.(LeaseCommand_ExpiresAt)
  then (db, Err (Errorf "lease expiry is required" []))
  else resultOf (mutateLease command false None db).

Definition ExpireLease (command : LeaseCommand) (db : DB) : DB * result Result :=
  resultOf (mutateLease command true None db).

Definition expiryCommandID (boardID leaseID : string) (expiry : Z) : string :=
  "expire:" +:+ requestHash (HashExpiry boardID leaseID expiry).

(** [SELECT ... FROM leases WHERE state='active' AND expires_at>0 AND expires_at<=?
    ORDER BY board_id,lease_id] *)
Definition dueOrder (p q : string * string * LeaseRow) : Prop :=
  p.1.1 ≠ q.1.1 ∧ byteOrder p.1.1 q.1.1 ∨ p.1.1 = q.1.1 ∧ byteOrder p.1.2 q.1.2.
#[export] Instance dueOrder_dec : RelDecision dueOrder.
Proof. intros p q. unfold dueOrder. apply _. Defined.

Definition dueLeases (db : DB) (now : Time) : list (string * string * Z) :=
  let rows := List.filter (λ p : string * string * LeaseRow,
      activeLease p.2 && (0 <? p.2.(lr_expires_at))%Z
      && (p.2.(lr_expires_at) <=? Time_UnixNano (Time_UTC now))%Z) (map_to_list db.(leases)) in
  (λ p, (p.1.1, p.1.2, p.2.(lr_expires_at))) <$> merge_sort dueOrder rows.

Definition expiryCommand (board : Board) (actor : Actor) (boardID leaseID : string) (expiry : Z)
  : LeaseCommand :=
  mkLeaseCommand (expiryCommandID boardID leaseID expiry) board.(Board_Version) actor boardID leaseID
    Time_zero "lease deadline elapsed" FailureTransient Time_zero "".

(** One round of the loop of [ExpireDueLeases]: it reads the board, then mutates
    the lease in a transaction of its own. *)
Definition expireDue (actor : Actor) (s : DB * result (list Result)) (due : string * string * Z)
  : DB * result (list Result) :=
  match s with
  | (db, Ok results) =>
      let '(boardID, leaseID, expiry) := due in
      match boardQuery db boardID with
      | Err e => (db, Err e)
      | Panic => (db, Panic)
      | Ok board =>
          match mutateLease (expiryCommand board actor boardID leaseID expiry) true (Some expiry) db with
          | (db, Ok (result, expired)) => (db, Ok (if expired : bool then results ++ [result] else results))
          | (db, Err e) => (db, Err e)
          | (db, Panic) => (db, Panic)
          end
      end
  | _ => s
  end.

Definition ExpireDueLeases (now : Time) (actor : Actor) (db : DB) : DB * result (list Result) :=
  foldl (expireDue actor) (db, Ok []) (dueLeases db now).

End store.

(** Claiming work: internal/agoboardstore/claim.go. *)

Record ClaimRequest : Type := mkClaimRequest {
  ClaimRequest_BoardID : string; ClaimRequest_CommandID : string; ClaimRequest_Actor : Actor;
  ClaimRequest_WorkerID : string; ClaimRequest_Now : Time; ClaimRequest_LeaseDuration : Duration;
  ClaimRequest_Limits : SlotLimits;
}.

Definition ClaimOutcome : Type := string.
Definition ClaimAcquired : ClaimOutcome := "acquired".
Definition ClaimReplayed : ClaimOutcome := "replayed".
Definition ClaimNoWork : ClaimOutcome := "no-work".
Definition ClaimPaused : ClaimOutcome := "paused".
Definition ClaimNoSlot : ClaimOutcome := "no-slot".
Definition ClaimBackedOff : ClaimOutcome := "backing-off".

Record ClaimResult : Type := mkClaimResult {
  ClaimResult_Outcome : ClaimOutcome; ClaimResult_Board : Board; ClaimResult_Events : list Event;
  ClaimResult_TaskID : string; ClaimResult_AttemptID : string; ClaimResult_LeaseID : string;
  ClaimResult_Generation : Z; ClaimResult_FencingToken : string; ClaimResult_Reason : string;
}.
#[export] Instance ClaimResult_eta : Eta ClaimResult := λ r, mkClaimResult (r.(ClaimResult_Outcome))
  (r.(ClaimResult_Board)) (r.(ClaimResult_Events)) (r.(ClaimResult_TaskID)) (r.(ClaimResult_AttemptID))
  (r.(ClaimResult_LeaseID)) (r.(ClaimResult_Generation)) (r.(ClaimResult_FencingToken))
  (r.(ClaimResult_Reason)).
Definition ClaimResult_zero : ClaimResult := mkClaimResult "" Board_zero [] "" "" "" 0%Z "" "".

Definition ClaimResult_Dispatchable (result : ClaimResult) : bool :=
  (result.(ClaimResult_Outcome) == ClaimAcquired) && (result.(ClaimResult_AttemptID) != "").

(** * The choice of a task *)

(** The loop of [eligibleTask]: the chosen task, or whether some task waits. *)
Fixpoint eligibleFrom (now : Time) (waiting : bool) (tasks : list Task) : Task + bool :=
  match tasks with
  | [] => inr waiting
  | task :: tasks =>
      if task.(Task_State) == TaskReady then
        if (task.(Task_AttemptCount) <? MaxAttempts)%Z then inl task else eligibleFrom now waiting tasks
      else if task.(Task_State) == TaskRetryWait then
        if (MaxAttempts <=? task.(Task_AttemptCount))%Z then eligibleFrom now waiting tasks
        else if negb (Time_Before now task.(Task_NextEligibleAt)) then inl task
        else eligibleFrom now true tasks
      else eligibleFrom now waiting tasks
  end.

Definition eligibleTask (board : Board) (now : Time) : Task * bool * string :=
  match eligibleFrom now false board.(Board_Tasks) with
  | inl task => (task, true, "")
  | inr true => (Task_zero, false, "all eligible work is waiting out its retry backoff")
  | inr false => (Task_zero, false, "no ready task")
  end.

Definition backingOff (board : Board) (now : Time) : bool :=
  existsb (λ task, (task.(Task_State) == TaskRetryWait) && Time_Before now task.(Task_NextEligibleAt))
    board.(Board_Tasks).

(** * The concurrency policy *)

Definition onRepository (repository : string) (mode : AccessMode) (row : LeaseRow) : bool :=
  activeLease row && (row.(lr_repository_id) == repository) && (row.(lr_access_mode) == mode).

Definition limitReached (what : string) (limit : Z) : string :=
  what +:+ " limit " +:+ pretty limit +:+ " reached".

Definition slotAvailable (db : DB) (board : Board) (task : Task) (limits : SlotLimits) : bool * string :=
  if (0 <? limits.(SlotLimits_GlobalRunning))%Z
     && (limits.(SlotLimits_GlobalRunning) <=? countLeases (λ _ row, activeLease row) db)%Z
  then (false, limitReached "global running" limits.(SlotLimits_GlobalRunning)) else
  if (0 <? limits.(SlotLimits_BoardRunning))%Z
     && (limits.(SlotLimits_BoardRunning) <=?
           countLeases (λ k row, activeLease row && (k.1 == board.(Board_ID))) db)%Z
  then (false, limitReached "board running" limits.(SlotLimits_BoardRunning)) else
  let repository := board.(Board_Repository) in
  let writers := countLeases (λ _ row, onRepository repository AccessWrite row) db in
  let readers := countLeases (λ _ row, onRepository repository AccessRead row) db in
  if task.(Task_AccessMode) == AccessWrite then
    if (0 <? i64 (writers + readers))%Z
    then (false, "repository is busy; a writer needs exclusive access") else
    if (0 <? limits.(SlotLimits_RepositoryWriters))%Z
       && (limits.(SlotLimits_RepositoryWriters) <=? writers)%Z
    then (false, limitReached "repository writer" limits.(SlotLimits_RepositoryWriters))
    else (true, "")
  else if (0 <? writers)%Z then (false, "repository is held exclusively by a writer") else
  if (0 <? limits.(SlotLimits_RepositoryReaders))%Z
     && (limits.(SlotLimits_RepositoryReaders) <=? readers)%Z
  then (false, limitReached "repository reader" limits.(SlotLimits_RepositoryReaders))
  else (true, "").

(** * The claim *)

Section claim.
Context `{!Env}.

Definition derivedClaimID (namespace boardID taskID : string) (userRetries attemptNumber : Z) : string :=
  namespace +:+ ":" +:+ String.substring 0 32
    (requestHash (HashStrings [namespace; boardID; taskID; pretty userRetries; pretty attemptNumber])).

Definition generationOf (board : Board) (attemptID : string) : Z :=
  match List.find (λ attempt, attempt.(Attempt_ID) == attemptID) board.(Board_Attempts) with
  | Some attempt => attempt.(Attempt_Generation)
  | None => 0%Z
  end.

Definition claimLease (request : ClaimRequest) (board : Board) (task : Task) (token : string)
  : LeaseSpec :=
  let attemptNumber := i64 (task.(Task_AttemptCount) + 1) in
  mkLeaseSpec
    (derivedClaimID "lease" board.(Board_ID) task.(Task_ID) task.(Task_UserRetries) attemptNumber)
    (derivedClaimID "attempt" board.(Board_ID) task.(Task_ID) task.(Task_UserRetries) attemptNumber)
    task.(Task_ID) request.(ClaimRequest_WorkerID) token
    (Time_UTC request.(ClaimRequest_Now))
    (Time_Add (Time_UTC request.(ClaimRequest_Now)) request.(ClaimRequest_LeaseDuration)).

Definition claimCommand (request : ClaimRequest) (board : Board) (task : Task) (token : string)
  : Command :=
  Command_zero
    <| Command_SchemaVersion := SchemaVersion |>
    <| Command_ID := request.(ClaimRequest_CommandID) |>
    <| Command_ExpectedVersion := board.(Board_Version) |>
    <| Command_Actor := request.(ClaimRequest_Actor) |>
    <| Command_Type := CommandLeaseAcquire |>
    <| Command_Lease := Some (claimLease request board task token) |>.

Definition claimRequestHash (request : ClaimRequest) : string :=
  requestHash (HashClaim request.(ClaimRequest_BoardID) request.(ClaimRequest_Actor)
    request.(ClaimRequest_WorkerID) request.(ClaimRequest_Limits)).

Definition outcome (o : ClaimOutcome) (board : Board) (taskID reason : string) : ClaimResult :=
  ClaimResult_zero <| ClaimResult_Outcome := o |> <| ClaimResult_Board := board |>
    <| ClaimResult_TaskID := taskID |> <| ClaimResult_Reason := reason |>.

(** The transaction of [Claim]; [token] is what [newFencingToken] draws from the
    entropy source, or its failure. *)
Definition claimTx (request : ClaimRequest) (token : result string) : Tx DB ClaimResult := λ db,
  let hash := claimRequestHash request in
  stored ← storedResult db request.(ClaimRequest_Actor).(Actor_ID) request.(ClaimRequest_CommandID) hash;
  match stored with
  | Some stored =>
      fail_if (stored.(Result_Board).(Board_ID) != request.(ClaimRequest_BoardID))
        (Errorf "claim command %q already claimed on board %q: %w"
           [AStr request.(ClaimRequest_CommandID); AStr stored.(Result_Board).(Board_ID);
            AWrap ErrCommandConflict]) ;;
      uncommitted db
        (outcome ClaimReplayed stored.(Result_Board) "" "claim command was already honoured")
  | None =>
      board ← boardQuery db request.(ClaimRequest_BoardID);
      if board.(Board_Paused)
      then uncommitted db (outcome ClaimPaused board "" board.(Board_PauseReason)) else
      let '(task, eligible, reason) := eligibleTask board request.(ClaimRequest_Now) in
      if negb eligible then uncommitted db (outcome ClaimNoWork board "" reason) else
      if backingOff board request.(ClaimRequest_Now) && (task.(Task_ID) == "")
      then uncommitted db (outcome ClaimBackedOff board "" "") else
      let '(allowed, slotReason) := slotAvailable db board task request.(ClaimRequest_Limits) in
      if negb allowed then uncommitted db (outcome ClaimNoSlot board task.(Task_ID) slotReason) else
      token ← wrap_err (λ err, Errorf "generate fencing token: %w" [AWrap err]) token;
      let spec := claimLease request board task token in
      '(next, events) ← wrap_err (λ err, Errorf "claim task %q: %w" [AStr task.(Task_ID); AWrap err])
                          (Apply board (claimCommand request board task token));
      db ← writeBoard false db next events;
      db ← insertResult db request.(ClaimRequest_Actor).(Actor_ID) request.(ClaimRequest_CommandID)
             hash next.(Board_ID) (mkResult next events);
      Ok (db, mkClaimResult ClaimAcquired next events task.(Task_ID) spec.(LeaseSpec_AttemptID)
                spec.(LeaseSpec_ID) (generationOf next spec.(LeaseSpec_AttemptID)) token "")
  end.

Definition Claim (request : ClaimRequest) (token : result string) (db : DB) : DB * result ClaimResult :=
  if (request.(ClaimRequest_BoardID) == "") || (request.(ClaimRequest_CommandID) == "")
     || (request.(ClaimRequest_WorkerID) == "")
  then (db, Err (Errorf "claim requires board id, command id, and worker id" [])) else
  if request.(ClaimRequest_Actor).(Actor_Role) != RoleCoordinator
  then (db, Err (Errorf "only a coordinator may claim work" [])) else
  if Time_IsZero request.(ClaimRequest_Now) || (request.(ClaimRequest_LeaseDuration) <=? 0)%Z
  then (db, Err (Errorf "claim requires a clock reading and a positive lease duration" [])) else
  transact (claimTx request token) db.

(** * Diagnostics *)

Definition CountActiveLeases (db : DB) (boardID : string) : Z :=
  countLeases (λ k row, activeLease row && ((boardID == "") || (k.1 == boardID))) db.

Definition CountAttempts (db : DB) (boardID : string) : Z :=
  Z.of_nat (length (List.filter (λ p : string * string * AttemptRow,
    (boardID == "") || (p.1.1 == boardID)) (map_to_list db.(attempts)))).

End claim.
