(* ===== verification/Operations.v ===== *)
(** The operations of the store as steps on the database, and what a committed
    operation changes. *)
From S2P Require Import Prelude Sql Planner Protocol Validate Wellformed StateMachine Apply.
From S2P Require Import Spec Coordination Lifecycle History Refine Simulation Safety Admission.
From S2P Require Import Database Consistency Store.

(** * Writes outside the aggregate's tables *)

Lemma consistent_same db db' :
  db'.(boards) = db.(boards) → db'.(events) = db.(events) → (∀ id, same_rows db db' id) →
  consistent db → consistent db'.
Proof.
  intros Eb Ee Hs [H1 H2 H3]. split.
  - intros id row. rewrite Eb. intros Hrow. destruct (H1 _ _ Hrow) as [Ha Hi Hr Hv Hp].
    split; try done; [by rewrite Eb|by eapply projected_same].
  - intros id. rewrite Eb. intros Hn. by eapply absent_same; [|apply H2].
  - intros k row. rewrite Ee. apply H3.
Qed.

Lemma stored_same db db' id b :
  db'.(boards) = db.(boards) → same_rows db db' id → stored db id b → stored db' id b.
Proof. intros Eb Hs []. split; try done; [by rewrite Eb|by eapply projected_same]. Qed.

(** The tables of the aggregate are untouched. *)
Definition same_graph (db db' : DB) : Prop :=
  db'.(boards) = db.(boards) ∧ db'.(events) = db.(events) ∧ ∀ id, same_rows db db' id.

#[export] Instance same_graph_preorder : PreOrder same_graph.
Proof.
  split; [by intros db|]. intros db1 db2 db3 (B1 & E1 & S1) (B2 & E2 & S2).
  split_and!; [congruence..|]. intros id. destruct (S1 id), (S2 id). split; intros; congruence.
Qed.

Lemma same_graph_commands db m : same_graph db (db <| commands := m |>).
Proof. done. Qed.
Lemma same_graph_definitions db m : same_graph db (db <| board_definitions := m |>).
Proof. done. Qed.
Lemma same_graph_bindings db m : same_graph db (db <| bindings := m |>).
Proof. done. Qed.

(** * Committed operations *)

(** A receipt of the commit holds events of it, for the board written. *)
Definition receipt_of (next : Board) (es : list Event) (row : CommandRow) : Prop :=
  row.(cr_board_id) = next.(Board_ID) ∧ row.(cr_result_json).(Result_Events) ⊆ es.

Record committed (db : DB) (next : Board) (es : list Event) (db' : DB) : Prop := {
  cm_boards : db'.(boards) = <[next.(Board_ID) := boardRow next]> db.(boards);
  cm_others : ∀ id, id ≠ next.(Board_ID) → same_rows db db' id;
  cm_events : db.(events) ⊆ db'.(events) ∧ ∀ e, e ∈ es → db'.(events) !! eventKey e = Some (eventRow e);
  cm_stored : stored db' next.(Board_ID) next;
  cm_consistent : consistent db';
  cm_receipts : db.(commands) ⊆ db'.(commands);
  cm_new_receipts : ∀ k row, db'.(commands) !! k = Some row →
    db.(commands) !! k = Some row ∨ receipt_of next es row;
}.

Lemma committed_written db next es db' : written db next es db' → committed db next es db'.
Proof.
  intros [Hb Hcm _ _ Ho He Hs Hc]. split; try done; rewrite Hcm; [done|]. by left.
Qed.

Lemma committed_more db next es db1 db2 :
  committed db next es db1 → same_graph db1 db2 → db1.(commands) ⊆ db2.(commands) →
  (∀ k row, db2.(commands) !! k = Some row → db1.(commands) !! k = Some row ∨ receipt_of next es row) →
  committed db next es db2.
Proof.
  intros [Hb Ho He Hs Hc Hr Hn] (Eb & Ee & Hsr) Hcm Hnew. split; rewrite ?Eb, ?Ee; try done.
  - intros id Hid. destruct (Ho id Hid), (Hsr id). split; intros; congruence.
  - by eapply stored_same.
  - by eapply consistent_same.
  - by etrans.
  - intros k row Hk. destruct (Hnew k row Hk); [by apply Hn|by right].
Qed.

Lemma committed_same db next es db1 db2 :
  committed db next es db1 → same_graph db1 db2 → db2.(commands) = db1.(commands) → committed db next es db2.
Proof. intros Hc Hs E. apply (committed_more db next es db1 db2 Hc Hs); rewrite E; [done|by left]. Qed.

Lemma committed_receipt db next es db1 actor id hash board result db2 :
  committed db next es db1 → board = next.(Board_ID) → result.(Result_Events) ⊆ es →
  insertResult db1 actor id hash board result = Ok db2 →
  committed db next es db2 ∧ db2 = db1 <| commands :=
    <[(actor, id) := mkCommandRow hash board result]> db1.(commands) |>.
Proof.
  intros Hc -> Hes H. unfold insertResult in H. inv_sql.
  match goal with H : is_Some_b _ = false |- _ => apply is_Some_b_false in H as Hn end.
  split; [|done]. apply (committed_more _ _ _ _ _ Hc); [done|by apply insert_subseteq|].
  intros k row. cbn. rewrite lookup_insert. case_decide; [intros [= <-]; by right|by left].
Qed.

Lemma insertBinding_same db b db' :
  insertBinding db b = Ok db' → same_graph db db' ∧ db'.(commands) = db.(commands).
Proof. unfold insertBinding. intros H. inv_sql. done. Qed.

Lemma insertDefinition_same db id d db' :
  insertDefinition db id d = Ok db' → same_graph db db' ∧ db'.(commands) = db.(commands).
Proof. unfold insertDefinition. intros H. inv_sql. done. Qed.

(** * The write of an applied command *)

Lemma insertBoard_write db b db' :
  insertBoard db b = Ok db' →
  db' = db <| boards := <[b.(Board_ID) := boardRow b]> db.(boards) |> ∧ db.(boards) !! b.(Board_ID) = None ∧
  (1 ≤ b.(Board_Version) < 9223372036854775808)%Z.
Proof.
  unfold insertBoard. intros H. inv_sql.
  match goal with H : is_Some_b _ = false |- _ => apply is_Some_b_false in H end. done.
Qed.

Lemma updateBoard_write db b db' :
  updateBoard db b = Ok db' →
  db' = db <| boards := <[b.(Board_ID) := boardRow b]> db.(boards) |> ∧
  (1 ≤ b.(Board_Version) < 9223372036854775808)%Z.
Proof.
  unfold updateBoard. intros H. apply bind_Ok in H as (? & ? & H). apply bind_Ok in H as (? & ? & H).
  case_match; [|done]. by inv_sql.
Qed.

Lemma stored_query db id b :
  consistent db → boardQuery db id = Ok b → stored db id b ∧ well_formed b.
Proof.
  unfold boardQuery. intros Hc H. case_match eqn:E; [|done]. inv_ok.
  split; [by apply (cn_boards _ Hc)|by apply Board_Validate_ok].
Qed.

Lemma query_stored db id b : stored db id b → boardQuery db id = Ok b.
Proof.
  intros Hs. pose proof (so_row _ _ _ Hs) as Hrow. unfold boardQuery. rewrite Hrow. cbn.
  destruct (so_runs _ _ _ Hs) as [cs Hr]. destruct (runs_valid _ _ Hr) as [->|Hw].
  - by destruct (so_id _ _ _ Hs) as [<- ?].
  - by rewrite (proj2 (Board_Validate_ok b) Hw).
Qed.

(** The board a command is applied to: the stored one, or the blank one when a
    board is created. *)
Definition current_board (db : DB) (create : bool) (id : string) (b : Board) : Prop :=
  if create then b = Board_zero else stored db id b.

Lemma writeBoard_written db create id b c next es db' :
  consistent db → current_board db create id b → Apply b c = Ok (next, es) →
  writeBoard create db next es = Ok db' →
  written db next es db' ∧ if create then db.(boards) !! next.(Board_ID) = None else next.(Board_ID) = id.
Proof.
  intros Hc Hb Ha Hw.
  assert (∃ cs, runs cs b) as [cs Hr].
  { destruct create; cbn in Hb; [subst; by exists []; constructor|by apply (so_runs _ _ _ Hb)]. }
  assert (create = false → next.(Board_ID) = id) as Hid.
  { intros ->. cbn in Hb. destruct (so_id _ _ _ Hb) as [Ei Hne].
    destruct (Apply_header _ _ _ _ _ Hr Ha) as [-> _]; congruence. }
  assert (well_formed next) as Hwf by (apply Board_Validate_ok; by apply Apply_inv in Ha as (_ & ? & _)).
  assert (replaceable db next.(Board_ID) b ∧ (1 ≤ next.(Board_Version) < 9223372036854775808)%Z ∧
    (if create then db.(boards) !! next.(Board_ID) = None else next.(Board_ID) = id) ∧
    ∃ db2, appended (db <| boards := <[next.(Board_ID) := boardRow next]> db.(boards) |>) es db2 ∧
      db' = synced db2 next) as (Hrep & Hv & Hnew & db2 & Hap & ->).
  { unfold writeBoard in Hw. apply bind_Ok in Hw as (db1 & H1 & Hw).
    apply bind_Ok in Hw as (db2 & H2%appendEvents_appended & ->%syncProjection_synced).
    destruct create; cbn in Hb.
    - apply wrap_err_Ok, insertBoard_write in H1 as (-> & Hn & Hv). split; [right; by subst|].
      do 2 (split; [done|]). by exists db2.
    - apply updateBoard_write in H1 as (-> & Hv). split; [left; by rewrite Hid|].
      split; [done|]. split; [by apply Hid|]. by exists db2. }
  split; [|done]. eapply write_consistent; try done; [by eapply runs_apply|by eapply advance_Apply].
Qed.

(** * The transactions *)

Section transactions.
Context {env : Env}.

Lemma storedResult_Ok db actor id hash r :
  storedResult db actor id hash = Ok r ↔
    match db.(commands) !! (actor, id) with
    | None => r = None
    | Some row => row.(cr_request_hash) = hash ∧ r = Some row.(cr_result_json)
    end.
Proof.
  unfold storedResult. destruct (_ !! _) as [row|]; [|naive_solver].
  destruct (String.eqb_spec (cr_request_hash row) hash); cbn; naive_solver.
Qed.

(** A command answered from its receipt. *)
Definition answered (db : DB) (actor id hash : string) (r : Result) : Prop :=
  ∃ row, db.(commands) !! (actor, id) = Some row ∧ row.(cr_request_hash) = hash ∧ r = row.(cr_result_json).

(** A protocol command applied to a stored board, with its receipt. *)
Record executed (db : DB) (create : bool) (id : string) (c : Command) (hash : string) (r : Result) (db' : DB)
  : Prop := {
  ex_new : db.(commands) !! (c.(Command_Actor).(Actor_ID), c.(Command_ID)) = None;
  ex_apply : ∃ b, current_board db create id b ∧ Apply b c = Ok (r.(Result_Board), r.(Result_Events));
  ex_id : if create then db.(boards) !! r.(Result_Board).(Board_ID) = None
          else r.(Result_Board).(Board_ID) = id;
  ex_committed : committed db r.(Result_Board) r.(Result_Events) db';
  ex_receipt : db'.(commands) = <[(c.(Command_Actor).(Actor_ID), c.(Command_ID)) :=
    mkCommandRow hash r.(Result_Board).(Board_ID) r]> db.(commands);
}.

Lemma extendDefinition_same db id p db' :
  extendDefinition db id p = Ok db' → same_graph db db' ∧ db'.(commands) = db.(commands).
Proof.
  unfold extendDefinition. intros H. case_match; [|done]. inv_ok. case_match; [|done]. by inv_ok.
Qed.

(** The tail of [apply], after the command was applied. *)
Lemma finish_committed db next es db1 actor cid hash id b (bind : Binding → result DB) proposal db' r fresh :
  committed db next es db1 →
  (∀ b db2, bind b = Ok db2 → same_graph db1 db2 ∧ db2.(commands) = db1.(commands)) →
  (db2 ← match b with
         | None => Ok db1
         | Some b => bind b
         end;
   db3 ← insertResult db2 actor cid hash next.(Board_ID) (mkResult next es);
   db4 ← match proposal with None => Ok db3 | Some p => extendDefinition db3 id p end;
   Ok (db4, (mkResult next es, true))) = Ok (db', (r, fresh)) →
  r = mkResult next es ∧ fresh = true ∧ committed db next es db' ∧
  db'.(commands) = <[(actor, cid) := mkCommandRow hash next.(Board_ID) r]> db1.(commands).
Proof.
  intros Hc Hb H. apply bind_Ok in H as (db2 & H2 & H). apply bind_Ok in H as (db3 & H3 & H).
  apply bind_Ok in H as (db4 & H4 & [= <- <- <-]).
  assert (same_graph db1 db2 ∧ db2.(commands) = db1.(commands)) as [Hs2 E2].
  { destruct b as [b|]; [by apply (Hb b)|by injection H2 as <-]. }
  apply (committed_receipt db next es) in H3 as [Hc3 ->]; [|by eapply committed_same|done|by intros ? ?].
  match type of H4 with context [extendDefinition ?d _ _] => set (db3 := d) in * end.
  assert (same_graph db3 db4 ∧ db4.(commands) = db3.(commands)) as [Hs4 E4].
  { destruct proposal; [by eapply extendDefinition_same|by injection H4 as <-]. }
  split_and!; [done|done|by eapply committed_same|]. rewrite E4. unfold db3. cbn. by rewrite E2.
Qed.

Lemma applyTx_inv boardID c exp b p db db' r fresh :
  consistent db → applyTx boardID c exp b p db = Ok (db', (r, fresh)) →
  ∃ id, resolveBoard db boardID c = Ok id ∧
  let c' := withDeadline c exp in
  let hash := commandRequestHash id c' exp b in
  if fresh then executed db (c.(Command_Type) == CommandBoardCreate) id c' hash r db'
  else db' = db ∧ answered db c.(Command_Actor).(Actor_ID) c.(Command_ID) hash r.
Proof.
  intros Hc H. unfold applyTx in H. apply bind_Ok in H as (id & Hid & H). exists id. split; [done|].
  intros c' hash. fold c' hash in H.
  assert (c'.(Command_Type) = c.(Command_Type) ∧ c'.(Command_Actor) = c.(Command_Actor) ∧
    c'.(Command_ID) = c.(Command_ID)) as (Ety & Eac & Eci).
  { unfold c', withDeadline. repeat case_match; done. }
  apply bind_Ok in H as (st & Hst%storedResult_Ok & H). destruct st as [res|].
  - injection H as <- <- <-. split; [done|]. rewrite Eac, Eci in Hst.
    destruct (_ !! _) as [row|] eqn:E; [|done]. destruct Hst as [? [= ->]]. by exists row.
  - destruct (_ !! _) as [row|] eqn:E in Hst; [naive_solver|].
    apply bind_Ok in H as (cur & Hcur & H). apply bind_Ok in H as ([next es] & Ha & H).
    apply bind_Ok in H as (db1 & Hw & H). rewrite Ety in *.
    set (create := c.(Command_Type) == CommandBoardCreate) in *.
    assert (current_board db create id cur) as Hcb.
    { unfold current_board. destruct create; [by injection Hcur|]. by apply stored_query. }
    destruct (writeBoard_written _ _ _ _ _ _ _ _ Hc Hcb Ha Hw) as [Hwr Hi].
    eapply (finish_committed db) in H as (-> & -> & Hcm & Er); [|by apply committed_written
      |intros bd db2 Hbd; inv_ok; by eapply insertBinding_same].
    split; try done; [by exists cur|]. cbn. by rewrite Er, (wr_commands _ _ _ _ Hwr).
Qed.

(** The tail of a lease mutation and of a claim. *)
Lemma write_receipt db db1 id b c next es actor cid hash r db' :
  consistent db → stored db id b → Apply b c = Ok (next, es) → c.(Command_Actor).(Actor_ID) = actor →
  c.(Command_ID) = cid → db.(commands) !! (actor, cid) = None →
  writeBoard false db next es = Ok db1 → r = mkResult next es →
  insertResult db1 actor cid hash next.(Board_ID) r = Ok db' →
  executed db false id c hash r db'.
Proof.
  intros Hc Hb Ha <- <- Hn Hw -> H.
  destruct (writeBoard_written db false id b c _ _ _ Hc Hb Ha Hw) as [Hwr Hi].
  apply (committed_receipt db next es) in H as [Hcm ->]; [|by apply committed_written|done|by intros ? ?].
  split; try done; [by exists b|]. cbn. by rewrite (wr_commands _ _ _ _ Hwr).
Qed.

(** A lease mutation: answered, overtaken by another one, or executed. *)
Definition mutated (db : DB) (command : LeaseCommand) (expire : bool) (r : Result) (fresh : bool) (db' : DB)
  : Prop :=
  let hash := leaseRequestHash command expire in
  if fresh then ∃ b, stored db command.(LeaseCommand_BoardID) b ∧
      executed db false command.(LeaseCommand_BoardID) (leaseProtocolCommand b command expire) hash r db'
  else db' = db ∧ (r = Result_zero ∨
    answered db command.(LeaseCommand_Actor).(Actor_ID) command.(LeaseCommand_ID) hash r).

Lemma mutateLeaseTx_inv command expire expected db db' r fresh :
  consistent db → mutateLeaseTx command expire expected db = Ok (db', (r, fresh)) →
  mutated db command expire r fresh db'.
Proof.
  intros Hc H. unfold mutateLeaseTx in H. unfold mutated.
  apply bind_Ok in H as (st & Hst%storedResult_Ok & H). destruct st as [res|].
  - injection H as <- <- <-. split; [done|]. right. destruct (_ !! _) as [row|] eqn:E; [|done].
    destruct Hst as [? [= ->]]. by exists row.
  - destruct (_ !! _) as [row|] eqn:E in Hst; [naive_solver|].
    apply bind_Ok in H as (b & [Hb _]%(stored_query _ _ _ Hc) & H).
    case_match; [injection H as <- <- <-; split; [done|by left]|].
    case_match; [case_match; [injection H as <- <- <-; split; [done|by left]|done]|].
    apply bind_Ok in H as ([next es] & Ha & H). apply bind_Ok in H as (db1 & Hw & H).
    apply bind_Ok in H as (db2 & Hi & [= <- <- <-]).
    exists b. split; [done|]. by eapply write_receipt.
Qed.

(** The chosen task and the command of a successful claim. *)
Record claimed_by (request : ClaimRequest) (db : DB) (r : ClaimResult) (b : Board) (task : Task) (token : string)
  (db' : DB) : Prop := {
  cb_stored : stored db request.(ClaimRequest_BoardID) b;
  cb_running : b.(Board_Paused) = false;
  cb_eligible : eligibleFrom request.(ClaimRequest_Now) false b.(Board_Tasks) = inl task;
  cb_slot : (slotAvailable db b task request.(ClaimRequest_Limits)).1 = true;
  cb_executed : executed db false request.(ClaimRequest_BoardID) (claimCommand request b task token)
    (claimRequestHash request) (mkResult r.(ClaimResult_Board) r.(ClaimResult_Events)) db';
  cb_result : r = mkClaimResult ClaimAcquired r.(ClaimResult_Board) r.(ClaimResult_Events) task.(Task_ID)
    (claimLease request b task token).(LeaseSpec_AttemptID) (claimLease request b task token).(LeaseSpec_ID)
    (generationOf r.(ClaimResult_Board) (claimLease request b task token).(LeaseSpec_AttemptID)) token "";
}.

Lemma claimTx_inv request token db db' r :
  consistent db → claimTx request token db = Ok (db', r) →
  (db' = db ∧ r.(ClaimResult_Outcome) ≠ ClaimAcquired) ∨
  ∃ b task tok, token = Ok tok ∧ claimed_by request db r b task tok db'.
Proof.
  intros Hc H. unfold claimTx in H.
  apply bind_Ok in H as (st & Hst%storedResult_Ok & H). destruct st as [res|].
  - left. inv_ok. by injection H as <- <-.
  - destruct (_ !! _) as [row|] eqn:E in Hst; [naive_solver|].
    apply bind_Ok in H as (b & [Hb _]%(stored_query _ _ _ Hc) & H).
    destruct (Board_Paused b) eqn:Ep; [left; by injection H as <- <-|].
    unfold eligibleTask in H. destruct (eligibleFrom _ _ _) as [task|w] eqn:Ee;
      [|left; destruct w; by injection H as <- <-].
    cbn [negb] in H. destruct (_ && _) eqn:Eo in H; [left; by injection H as <- <-|].
    destruct (slotAvailable db b task (ClaimRequest_Limits request)) as [allowed reason] eqn:Es.
    destruct allowed; [|left; by injection H as <- <-]. right. cbn [negb] in H.
    apply bind_Ok in H as (tok & Ht%wrap_err_Ok & H).
    apply bind_Ok in H as ([next es] & Ha%wrap_err_Ok & H). apply bind_Ok in H as (db1 & Hw & H).
    apply bind_Ok in H as (db2 & Hi & [= <- <-]).
    exists b, task, tok. split; [done|]. split; try done; [by rewrite Es|].
    cbn. eapply write_receipt; try done.
Qed.

(** * Graph admission *)

(** A graph admitted: the commands replayed from the blank board. *)
Record admitted (db : DB) (graph : list Command) (definition : string) (r : Result) (db' : DB) : Prop := {
  ad_replay : replay Board_zero graph = Ok r.(Result_Board);
  ad_committed : committed db r.(Result_Board) r.(Result_Events) db';
  ad_events : advance Board_zero r.(Result_Board) r.(Result_Events);
  ad_new : db.(boards) !! r.(Result_Board).(Board_ID) = None;
  ad_definition : db'.(board_definitions) =
    <[r.(Result_Board).(Board_ID) := definition]> db.(board_definitions);
  ad_receipts : Forall (λ c, ∃ actor, is_Some (db'.(commands) !! (actor, c.(Command_ID)))) graph;
}.

Lemma admitCommands_inv id graph cs b es rs b' es' rs' :
  runs cs b → advance Board_zero b es → (b = Board_zero ∧ es = [] ∨ b.(Board_ID) = id) →
  Forall (λ cr : Command * Result, cr.2.(Result_Events) ⊆ es) rs →
  for_each (admitCommand id) (b, es, rs) graph = Ok (b', es', rs') →
  replay b graph = Ok b' ∧ runs (cs ++ graph) b' ∧ advance Board_zero b' es' ∧
  Forall (λ cr : Command * Result, cr.2.(Result_Events) ⊆ es') rs' ∧ rs'.*1 = rs.*1 ++ graph.
Proof.
  revert cs b es rs. induction graph as [|c graph IH]; intros cs b es rs Hr Ha Hid Hrs H.
  - injection H as <- <- <-. by rewrite !app_nil_r.
  - cbn [for_each] in H. apply bind_Ok in H as ([[b1 es1] rs1] & H1 & H).
    unfold admitCommand in H1. apply bind_Ok in H1 as ([next emitted] & Happ%wrap_err_Ok & H1).
    apply bind_Ok in H1 as (? & Hi%fail_if_Ok%negb_false_iff%String.eqb_eq & [= <- <- <-]).
    cbn [replay]. rewrite Happ. cbn [mbind result_bind].
    replace (cs ++ c :: graph) with ((cs ++ [c]) ++ graph) by by rewrite <- app_assoc.
    apply (IH (cs ++ [c]) next (es ++ emitted)) in H; try done.
    + destruct H as (? & ? & ? & ? & Hfst). split_and!; try done.
      by rewrite Hfst, fmap_app, <- (assoc_L (++)).
    + by eapply runs_apply.
    + pose proof (advance_Apply _ _ _ _ _ Hr Happ) as Hn. destruct Hid as [[-> ->]|Hid]; [exact Hn|].
      eapply advance_trans; [|exact Ha|exact Hn]. congruence.
    + by right.
    + apply Forall_app. split; [|apply Forall_singleton; cbn; set_solver].
      eapply Forall_impl; [exact Hrs|]. set_solver.
Qed.

Lemma insertResults_committed actor hashOf db next es (rs : list (Command * Result)) db1 db2 :
  committed db next es db1 → Forall (λ cr, cr.2.(Result_Events) ⊆ es) rs →
  for_each (λ db receipt, insertResult db actor receipt.1.(Command_ID) (hashOf receipt.1) next.(Board_ID)
    receipt.2) db1 rs = Ok db2 →
  committed db next es db2 ∧ db2.(board_definitions) = db1.(board_definitions) ∧
  db1.(commands) ⊆ db2.(commands) ∧
  Forall (λ cr : Command * Result, is_Some (db2.(commands) !! (actor, cr.1.(Command_ID)))) rs.
Proof.
  intros Hc Hrs. revert db1 Hc. induction Hrs as [|[c r] rs Hr _ IH]; intros db1 Hc H; cbn in H.
  - injection H as <-. done.
  - apply bind_Ok in H as (db3 & H3 & H). pose proof H3 as Hn. unfold insertResult in Hn. inv_sql.
    match goal with H : is_Some_b _ = false |- _ => apply is_Some_b_false in H as Hk end.
    apply (committed_receipt db next es) in H3 as [H3 _]; try done.
    destruct (IH _ H3 H) as (Hcm & Hd & Hsub & Hall).
    split_and!; [done|by rewrite Hd|by etrans; [apply insert_subseteq|]|].
    constructor; [|done]. eexists. eapply lookup_weaken; [|exact Hsub]. apply lookup_insert_eq.
Qed.

Lemma createGraphTx_inv id first rest definition db db' r :
  consistent db → createGraphTx id first rest definition db = Ok (db', r) →
  (db' = db ∧ answered db first.(Command_Actor).(Actor_ID) first.(Command_ID)
     (requestHash (HashGraph id (first :: rest) definition)) r) ∨
  admitted db (first :: rest) definition r db'.
Proof.
  intros Hc H. unfold createGraphTx in H.
  apply bind_Ok in H as (st & Hst%storedResult_Ok & H). destruct st as [res|].
  - left. injection H as <- <-. split; [done|]. destruct (_ !! _) as [row|] eqn:E; [|done].
    destruct Hst as [? [= ->]]. by exists row.
  - right. clear Hst. apply bind_Ok in H as (? & _ & H).
    apply bind_Ok in H as ([[next es] rs] & Hg & H).
    destruct (admitCommands_inv _ _ [] _ _ _ _ _ _ runs_zero (advance_refl [] _ runs_zero)
      (or_introl (conj eq_refl eq_refl)) (Forall_nil_2 _) Hg) as (Hrep & Hr & Ha & Hrs & Hfst).
    apply bind_Ok in H as (db1 & Hb%wrap_err_Ok%insertBoard_write & H).
    destruct Hb as (-> & Hn & Hv).
    apply bind_Ok in H as (db2 & Hd%wrap_err_Ok & H).
    apply bind_Ok in H as (db3 & He & H). apply bind_Ok in H as (db4 & Hs & H).
    apply bind_Ok in H as (db5 & Hi & H). apply bind_Ok in H as (db6 & Hf & [= <- <-]).
    set (db0 := db <| board_definitions := <[next.(Board_ID) := definition]> db.(board_definitions) |>).
    assert (db2 = db0 <| boards := <[next.(Board_ID) := boardRow next]> db0.(boards) |>) as E2.
    { unfold insertDefinition in Hd. by inv_sql. }
    assert (consistent db0) as Hc0 by (by apply (consistent_same db)).
    assert (well_formed next) as Hwf by (destruct (runs_valid _ _ Hr) as [->|]; [cbn in Hv; lia|done]).
    assert (written db0 next es db4) as Hwr.
    { apply appendEvents_appended in He. apply syncProjection_synced in Hs as ->. rewrite E2 in He.
      eapply write_consistent; try done. by right. }
    pose proof (wr_definitions _ _ _ _ Hwr) as Hdef. apply committed_written in Hwr. clear E2.
    assert (committed db next es db4) as Hcm.
    { destruct Hwr as [??Ho]. split; try done. intros k Hk. by destruct (Ho k Hk); split. }
    assert (Forall (λ cr : Command * Result, cr.2.(Result_Events) ⊆ es) (tail rs)) as Hrs'
      by (destruct rs; [constructor|by inversion Hrs]).
    destruct (insertResults_committed _ (λ c, commandRequestHash id c Time_zero None) _ _ _ _ _ _ Hcm Hrs' Hi)
      as (Hcm5 & Hdef5 & _ & Hall).
    pose proof Hf as Hfirst. apply (committed_receipt db next es) in Hf as [Hcm6 E6]; [|done|done|by intros ? ?].
    split; try done; cbn; [by rewrite E6; cbn; rewrite Hdef5, Hdef|].
    destruct rs as [|cr rs]; [done|]. injection Hfst as <- <-. rewrite E6. cbn. constructor.
    + exists cr.1.(Command_Actor).(Actor_ID). by rewrite lookup_insert_eq.
    + apply Forall_fmap. eapply Forall_impl; [exact Hall|]. intros y [row Hrow]. eexists.
      rewrite lookup_insert. case_decide; [done|]. by eexists.
Qed.
End transactions.
