(* ===== verification/EventLog.v ===== *)
(** The event log: what [Replay] and [LatestSequence] return on a database whose
    tables are consistent, and how a commit extends the log of its board. *)
From stdpp Require Import list sorting.
From S2P Require Import Prelude Sql Planner Protocol Validate Wellformed StateMachine Apply.
From S2P Require Import Spec Coordination Lifecycle History Refine Simulation Safety Admission.
From S2P Require Import Database Consistency Store Operations.

(** * The log of a board as a list *)

Definition event_at (db : DB) (id : string) (v : Z) : option Event :=
  er_event_json <$> db.(events) !! (id, v).

(** The events of the board [id] with versions [from + 1 .. to]. *)
Definition log_between (db : DB) (id : string) (from to : Z) : list Event :=
  omap (event_at db id) (seqZ (from + 1) (to - from)).

(** [LIMIT]: 0 stands for no limit. *)
Definition page (limit : Z) (l : list Event) : list Event :=
  if (0 <? limit)%Z then take (Z.to_nat limit) l else l.

Lemma log_between_lookup db id from to k :
  (∀ v, (from < v ≤ to)%Z → is_Some (db.(events) !! (id, v))) →
  log_between db id from to !! k =
    if decide (Z.of_nat k < to - from)%Z then event_at db id (from + 1 + Z.of_nat k) else None.
Proof.
  intros Hex. unfold log_between. remember (Z.to_nat (to - from)) as n eqn:En.
  revert from k Hex En. induction n as [|n IH]; intros from k Hex En.
  - rewrite seqZ_nil by lia. cbn. rewrite decide_False by lia. done.
  - rewrite seqZ_cons by lia. cbn [omap list_omap].
    destruct (Hex (from + 1)%Z) as [row Hrow]; [lia|]. unfold event_at at 1. rewrite Hrow. cbn.
    destruct k as [|k]; cbn.
    + rewrite decide_True by lia. rewrite Z.add_0_r. unfold event_at. by rewrite Hrow.
    + replace (Z.pred (to - from)) with (to - (from + 1))%Z by lia.
      replace (Z.succ (from + 1)) with (from + 1 + 1)%Z by lia.
      rewrite IH; [|intros v ?; apply Hex; lia|lia].
      destruct (decide (Z.of_nat k < to - (from + 1))%Z); [rewrite decide_True by lia|by rewrite decide_False by lia].
      f_equal. lia.
Qed.

Lemma log_between_split db id from mid to :
  (from ≤ mid ≤ to)%Z → log_between db id from to = log_between db id from mid ++ log_between db id mid to.
Proof.
  intros H. unfold log_between. rewrite <- omap_app. f_equal.
  replace (to - from)%Z with ((mid - from) + (to - mid))%Z by lia.
  rewrite seqZ_app by lia. do 2 f_equal. lia.
Qed.

Lemma log_between_length db id from to :
  (∀ v, (from < v ≤ to)%Z → is_Some (db.(events) !! (id, v))) →
  length (log_between db id from to) = Z.to_nat (to - from).
Proof.
  intros Hex. unfold log_between. remember (Z.to_nat (to - from)) as n eqn:En.
  revert from Hex En. induction n as [|n IH]; intros from Hex En; [by rewrite seqZ_nil by lia|].
  rewrite seqZ_cons by lia. cbn [omap list_omap].
  destruct (Hex (from + 1)%Z) as [row Hrow]; [lia|]. unfold event_at at 1. rewrite Hrow. cbn. f_equal.
  replace (Z.pred (to - from)) with (to - (from + 1))%Z by lia.
  replace (Z.succ (from + 1)) with (from + 1 + 1)%Z by lia.
  apply IH; [intros v ?; apply Hex; lia|lia].
Qed.

(** * The query of [Replay] *)

(** The rows selected, with their keys, in order. *)
Definition row_at (db : DB) (id : string) (v : Z) : option (string * Z * EventRow) :=
  pair (id, v) <$> db.(events) !! (id, v).

Lemma row_at_Some db id v p : row_at db id v = Some p ↔ p.1 = (id, v) ∧ db.(events) !! (id, v) = Some p.2.
Proof.
  unfold row_at. destruct (db.(events) !! (id, v)) as [row|]; cbn; [|naive_solver].
  destruct p as [k row']. naive_solver.
Qed.

#[export] Instance versionOrder_trans : Transitive versionOrder.
Proof. intros p q r. unfold versionOrder. lia. Qed.
#[export] Instance versionOrder_total : Total versionOrder.
Proof. intros p q. unfold versionOrder. lia. Qed.

Lemma rows_sorted db id from n : StronglySorted versionOrder (omap (row_at db id) (seqZ from n)).
Proof.
  remember (Z.to_nat n) as m eqn:En. revert from n En. induction m as [|m IH]; intros from n En.
  { rewrite seqZ_nil by lia. constructor. }
  rewrite seqZ_cons by lia. cbn [omap list_omap].
  assert (StronglySorted versionOrder (omap (row_at db id) (seqZ (Z.succ from) (Z.pred n)))) as Hs by (apply IH; lia).
  destruct (row_at db id from) as [p|] eqn:Ep; [|done]. constructor; [done|]. apply Forall_forall.
  intros q (v & Hv%elem_of_seqZ & Hq)%list_elem_of_omap. apply row_at_Some in Ep as [Ep _], Hq as [Hq _].
  unfold versionOrder. rewrite Ep, Hq. cbn. lia.
Qed.

Lemma rows_NoDup db id from n : NoDup (omap (row_at db id) (seqZ from n)).
Proof.
  remember (Z.to_nat n) as m eqn:En. revert from n En. induction m as [|m IH]; intros from n En.
  { rewrite seqZ_nil by lia. constructor. }
  rewrite seqZ_cons by lia. cbn [omap list_omap].
  assert (NoDup (omap (row_at db id) (seqZ (Z.succ from) (Z.pred n)))) as Hs by (apply IH; lia).
  destruct (row_at db id from) as [p|] eqn:Ep; [|done]. constructor; [|done].
  intros (v & Hv%elem_of_seqZ & Hq)%list_elem_of_omap. apply row_at_Some in Ep as [Ep _], Hq as [Hq _].
  rewrite Ep in Hq. injection Hq. lia.
Qed.

Lemma query_rows db id after to :
  (∀ v, is_Some (db.(events) !! (id, v)) → (v ≤ to)%Z) →
  merge_sort versionOrder (List.filter (λ p : string * Z * EventRow, (p.1.1 == id) && (after <? p.1.2)%Z)
    (map_to_list db.(events))) = omap (row_at db id) (seqZ (after + 1) (to - after)).
Proof.
  intros Hmax. apply (StronglySorted_unique_strong versionOrder).
  - intros [[i v] r] [[i' v'] r'] H1 (w & _ & [Ek Hw]%row_at_Some)%list_elem_of_omap H2 H3.
    rewrite merge_sort_Permutation in H1. apply list_elem_of_In, filter_In in H1 as [H1 Hc].
    apply list_elem_of_In, elem_of_map_to_list in H1. inv_bool. cbn in *. unfold versionOrder in *. cbn in *.
    injection Ek as -> ->. assert (v = w) as -> by lia. subst i. congruence.
  - apply StronglySorted_merge_sort; apply _.
  - apply rows_sorted.
  - rewrite merge_sort_Permutation. apply NoDup_Permutation; [|apply rows_NoDup|].
    { rewrite NoDup_ListNoDup. apply List.NoDup_filter. rewrite <- NoDup_ListNoDup. apply NoDup_map_to_list. }
    intros [[i v] row]. rewrite list_elem_of_In, filter_In, <- list_elem_of_In, elem_of_map_to_list, list_elem_of_omap.
    cbn. rewrite andb_true_iff, String.eqb_eq, Z.ltb_lt. split.
    + intros [Hrow [-> Hv]]. exists v. rewrite elem_of_seqZ, row_at_Some. split_and!; [lia| |done|done].
      assert (v ≤ to)%Z by (apply Hmax; by exists row). lia.
    + intros (w & Hw%elem_of_seqZ & [[= -> ->] Hrow]%row_at_Some). split; [done|]. split; [done|]. lia.
Qed.

Lemma Replay_log db id after limit to :
  (∀ v, is_Some (db.(events) !! (id, v)) → (v ≤ to)%Z) → (0 ≤ limit)%Z → (after < 9223372036854775808)%Z →
  Replay db id after limit = Ok (page limit (log_between db id after to)).
Proof.
  intros Hmax Hl Ha. unfold Replay, bindUint64. rewrite (proj2 (Z.ltb_ge limit 0)) by lia.
  assert ((two64 / 2 <=? after)%Z = false) as -> by (apply Z.leb_gt; exact Ha).
  cbn [fail_if mbind result_bind]. rewrite (query_rows _ _ _ to) by done.
  unfold page, log_between. rewrite list_fmap_omap.
  erewrite (list_omap_ext (λ v, er_event_json ∘ snd <$> row_at db id v)); [done|].
  apply Forall_Forall2_diag, Forall_forall. intros v _. unfold row_at, event_at. by destruct (_ !! _).
Qed.

Lemma Replay_refused db id after limit :
  (limit < 0 ∨ 9223372036854775808 ≤ after)%Z → ∃ e, Replay db id after limit = Err e.
Proof.
  unfold Replay, bindUint64. intros H. destruct (limit <? 0)%Z eqn:E; [by eexists|]. cbn [fail_if mbind result_bind].
  assert ((two64 / 2 <=? after)%Z = true) as -> by (apply Z.leb_le; change (two64 / 2)%Z with 9223372036854775808%Z; lia).
  by eexists.
Qed.

(** * [LatestSequence] *)

Lemma latest_foldr id (l : list (string * Z * EventRow)) m :
  (∀ p, p ∈ l → p.1.1 = id → (0 ≤ p.1.2 ≤ m)%Z) → (m = 0%Z ∨ ∃ row, ((id, m), row) ∈ l) →
  foldr (λ (p : string * Z * EventRow) highest, if (p.1.1 : string) == id then Z.max p.1.2 highest else highest) 0%Z l = m.
Proof.
  intros Hmax Hm. assert (∀ l' : list (string * Z * EventRow), (∀ p, p ∈ l' → p.1.1 = id → (0 ≤ p.1.2 ≤ m)%Z) → (0 ≤ m)%Z →
    let top := foldr (λ (p : string * Z * EventRow) highest, if (p.1.1 : string) == id then Z.max p.1.2 highest else highest) 0%Z l' in
    (0 ≤ top ≤ m)%Z ∧ ∀ row, ((id, m), row) ∈ l' → top = m) as H.
  { induction l' as [|[[i v] r] l' IH]; intros Hl H0; cbn in *; [split; [lia|by intros ? ?%not_elem_of_nil]|].
    destruct IH as [IH1 IH2]; [intros p Hp; apply Hl; by right|done|].
    destruct (String.eqb_spec i id) as [->|Hne].
    - pose proof (Hl ((id, v), r) ltac:(by left) eq_refl) as Hv. cbn in Hv. split; [lia|].
      intros row [[= <- <-]|Hr]%elem_of_cons; [lia|]. specialize (IH2 _ Hr). lia.
    - split; [done|]. intros row [[= ]|Hr]%elem_of_cons; [done|]. by eapply IH2. }
  destruct Hm as [->|[row Hr]].
  - destruct (H l Hmax) as [? _]; [lia|]. lia.
  - destruct (H l Hmax) as [_ He]; [pose proof (Hmax _ Hr eq_refl); cbn in *; lia|]. by eapply He.
Qed.

(** * The log of a stored board *)

Lemma stored_log db id b :
  stored db id b → ∀ v, is_Some (db.(events) !! (id, v)) ↔ (1 ≤ v ≤ b.(Board_Version))%Z.
Proof. intros H. apply (pj_events _ _ _ (so_projected _ _ _ H)). Qed.

Lemma LatestSequence_stored db id b : stored db id b → LatestSequence db id = b.(Board_Version).
Proof.
  intros Hs. pose proof (stored_log _ _ _ Hs) as Hl. pose proof (so_version _ _ _ Hs).
  apply latest_foldr.
  - intros [[i v] row] Hp%elem_of_map_to_list Hi. cbn in *. subst i.
    assert (1 ≤ v ≤ b.(Board_Version))%Z; [|lia]. apply Hl. by exists row.
  - right. destruct (proj2 (Hl b.(Board_Version))) as [row Hrow]; [lia|].
    exists row. by apply elem_of_map_to_list.
Qed.

Lemma LatestSequence_absent db id : absent db id → LatestSequence db id = 0%Z.
Proof.
  intros Ha. apply latest_foldr; [|by left]. intros [[i v] row] Hp%elem_of_map_to_list Hi. cbn in *. subst i.
  by rewrite (ab_events _ _ Ha) in Hp.
Qed.

Lemma log_between_grows db db' id from to :
  db.(events) ⊆ db'.(events) → (∀ v, (from < v ≤ to)%Z → is_Some (db.(events) !! (id, v))) →
  log_between db' id from to = log_between db id from to.
Proof.
  intros Hsub Hex. apply list_omap_ext, Forall_Forall2_diag, Forall_forall. intros v Hv%elem_of_seqZ.
  destruct (Hex v) as [row Hrow]; [lia|]. unfold event_at. rewrite Hrow. by rewrite (lookup_weaken _ _ _ _ Hrow Hsub).
Qed.

(** * The log after a commit *)

Lemma commit_versions db b next es db' :
  advance b next es → (0 ≤ b.(Board_Version) < 9223372036854775808)%Z → committed db next es db' →
  (∀ n e, es !! n = Some e → eventKey e = (next.(Board_ID), b.(Board_Version) + Z.of_nat (S n))%Z) ∧
  next.(Board_Version) = (b.(Board_Version) + Z.of_nat (length es))%Z.
Proof.
  intros [_ _ Hver Hes _] Hv Hc. pose proof (stored_log _ _ _ (cm_stored _ _ _ _ Hc)) as Hlog.
  pose proof (so_version _ _ _ (cm_stored _ _ _ _ Hc)) as Hb.
  assert (∀ n, n ≤ length es →
    (b.(Board_Version) + Z.of_nat n < 9223372036854775808)%Z ∧
    u64 (b.(Board_Version) + Z.of_nat n) = (b.(Board_Version) + Z.of_nat n)%Z) as Hu.
  { induction n as [|n IH]; intros Hn.
    - rewrite Z.add_0_r. split; [lia|]. apply u64_small. unfold two64. lia.
    - destruct (lookup_lt_is_Some_2 es n) as [e He]; [lia|]. destruct IH as [IH _]; [lia|].
      assert (u64 (b.(Board_Version) + Z.of_nat (S n)) = (b.(Board_Version) + Z.of_nat (S n))%Z) as E
        by (apply u64_small; unfold two64; lia). split; [|done].
      destruct (Hes _ _ He) as [Hi Hve]. rewrite E in Hve.
      pose proof (proj2 (cm_events _ _ _ _ Hc) e (list_elem_of_lookup_2 _ _ _ He)) as Hrow.
      unfold eventKey in Hrow. rewrite Hi, Hve in Hrow.
      assert (1 ≤ b.(Board_Version) + Z.of_nat (S n) ≤ next.(Board_Version))%Z; [|lia].
      apply Hlog. by eexists. }
  split.
  - intros n e He. pose proof (lookup_lt_Some _ _ _ He). destruct (Hes _ _ He) as [Hi Hve].
    destruct (Hu (S n)) as [_ E]; [lia|]. unfold eventKey. by rewrite Hi, Hve, E.
  - rewrite Hver. by apply Hu.
Qed.

Lemma commit_log db b next es db' :
  advance b next es → (0 ≤ b.(Board_Version) < 9223372036854775808)%Z → committed db next es db' →
  log_between db' next.(Board_ID) b.(Board_Version) next.(Board_Version) = es.
Proof.
  intros Ha Hv Hc. destruct (commit_versions _ _ _ _ _ Ha Hv Hc) as [Hkey Hn].
  pose proof (stored_log _ _ _ (cm_stored _ _ _ _ Hc)) as Hlog.
  apply list_eq. intros k. rewrite log_between_lookup by (intros v ?; apply Hlog; lia). case_decide as Hk.
  - destruct (lookup_lt_is_Some_2 es k) as [e He]; [lia|]. rewrite He. unfold event_at.
    pose proof (proj2 (cm_events _ _ _ _ Hc) e (list_elem_of_lookup_2 _ _ _ He)) as Hrow.
    rewrite (Hkey _ _ He) in Hrow.
    replace (b.(Board_Version) + 1 + Z.of_nat k)%Z with (b.(Board_Version) + Z.of_nat (S k))%Z by lia.
    by rewrite Hrow.
  - symmetry. apply lookup_ge_None_2. lia.
Qed.

(** * What a database holds of each board *)

Definition contents (db : DB) (id : string) : option (Board * list Event) :=
  row ← db.(boards) !! id; Some (row.(br_board_json), log_between db id 0 row.(br_version)).
Definition log_of (db : DB) (id : string) : list Event := default [] (snd <$> contents db id).

Lemma contents_stored db id b : stored db id b → contents db id = Some (b, log_between db id 0 b.(Board_Version)).
Proof. intros Hs. unfold contents. by rewrite (so_row _ _ _ Hs). Qed.

Lemma log_of_stored db id b : stored db id b → log_of db id = log_between db id 0 b.(Board_Version).
Proof. intros Hs. unfold log_of. by rewrite (contents_stored _ _ _ Hs). Qed.

Lemma log_of_absent db id : db.(boards) !! id = None → log_of db id = [].
Proof. intros Hn. unfold log_of, contents. by rewrite Hn. Qed.

Lemma replaceable_log db id b :
  replaceable db id b → log_of db id = log_between db id 0 b.(Board_Version).
Proof.
  intros [Hs|[-> Hn]]; [by apply log_of_stored|by apply log_of_absent].
Qed.

Lemma committed_contents db b next es db' id :
  consistent db → replaceable db next.(Board_ID) b → advance b next es → committed db next es db' →
  contents db' id = if decide (id = next.(Board_ID)) then Some (next, log_of db id ++ es) else contents db id.
Proof.
  intros Hc Hrep Ha Hcm. destruct (replaceable_projected _ _ _ Hc Hrep) as [Hold Hv].
  destruct (commit_versions _ _ _ _ _ Ha Hv Hcm) as [_ Hn]. case_decide as E.
  - subst id. rewrite (contents_stored _ _ _ (cm_stored _ _ _ _ Hcm)). do 2 f_equal.
    rewrite (log_between_split _ _ _ b.(Board_Version)) by lia. f_equal; [|by eapply commit_log].
    rewrite (replaceable_log _ _ b) by done. apply log_between_grows; [apply Hcm|].
    intros v ?. apply (pj_events _ _ _ Hold). lia.
  - unfold contents. rewrite (cm_boards _ _ _ _ Hcm), lookup_insert_ne by done.
    destruct (db.(boards) !! id) as [row|]; [|done]. cbn. do 2 f_equal.
    apply list_omap_ext, Forall_Forall2_diag, Forall_forall. intros v _. unfold event_at.
    by rewrite (sr_events _ _ _ (cm_others _ _ _ _ Hcm id E)).
Qed.

(** The stored board is one the accepted commands produce. *)
Lemma current_replaceable db create id b r :
  current_board db create id b → (if create then db.(boards) !! r = None else r = id) → replaceable db r b.
Proof. destruct create; cbn; [by right|intros ? ->; by left]. Qed.

Lemma current_runs db create id b : current_board db create id b → ∃ cs, runs cs b.
Proof. destruct create; cbn; [intros ->; by exists []; constructor|apply so_runs]. Qed.

Lemma executed_contents db create id c hash r db' id' :
  consistent db → executed db create id c hash r db' →
  contents db' id' = if decide (id' = r.(Result_Board).(Board_ID))
    then Some (r.(Result_Board), log_of db id' ++ r.(Result_Events)) else contents db id'.
Proof.
  intros Hc [_ (b & Hb & Ha) Hid Hcm _]. destruct (current_runs _ _ _ _ Hb) as [cs Hr].
  eapply committed_contents; try done; [by eapply current_replaceable|by eapply advance_Apply].
Qed.

Lemma log_between_drop db id after to :
  (∀ v, (0 < v ≤ to)%Z → is_Some (db.(events) !! (id, v))) → (0 ≤ after)%Z → (0 ≤ to)%Z →
  log_between db id after to = drop (Z.to_nat after) (log_between db id 0 to).
Proof.
  intros Hex Ha Ht. destruct (decide (after ≤ to)%Z).
  - rewrite (log_between_split _ _ 0 after) by lia. rewrite drop_app_length'; [done|].
    rewrite log_between_length by (intros v ?; apply Hex; lia). lia.
  - rewrite drop_ge by (rewrite log_between_length by done; lia). unfold log_between. by rewrite seqZ_nil by lia.
Qed.

Lemma stored_lookup db id :
  consistent db → (∃ b, stored db id b) ∨ db.(boards) !! id = None ∧ absent db id.
Proof.
  intros Hc. destruct (db.(boards) !! id) as [row|] eqn:E.
  - left. exists row.(br_board_json). by apply (cn_boards _ Hc).
  - right. split; [done|]. by apply (cn_absent _ Hc).
Qed.

(** What no commit takes away. *)
Record grows (db db' : DB) : Prop := {
  gr_events : db.(events) ⊆ db'.(events);
  gr_receipts : db.(commands) ⊆ db'.(commands);
  gr_boards : ∀ id, is_Some (db.(boards) !! id) → is_Some (db'.(boards) !! id);
}.

#[export] Instance grows_preorder : PreOrder grows.
Proof. split; [by intros db|]. intros db1 db2 db3 [] []. split; [by etrans..|auto]. Qed.

Lemma stored_later db later id b :
  stored db id b → grows db later → consistent later → ∃ b', stored later id b' ∧
    (b.(Board_Version) ≤ b'.(Board_Version))%Z.
Proof.
  intros Hs [He _ Hb] Hc. destruct (Hb id) as [row Hrow]; [by rewrite (so_row _ _ _ Hs)|].
  pose proof (cn_boards _ Hc _ _ Hrow) as Hs'. eexists. split; [exact Hs'|].
  pose proof (so_version _ _ _ Hs). destruct (proj2 (stored_log _ _ _ Hs b.(Board_Version))) as [e E]; [lia|].
  assert (1 ≤ b.(Board_Version) ≤ row.(br_board_json).(Board_Version))%Z; [|lia].
  apply (stored_log _ _ _ Hs'). exists e. by eapply lookup_weaken.
Qed.
