(* ===== verification/Service.v ===== *)
(** The store as a step relation on its database, and databases reached with it. *)
From stdpp Require Import relations sorting.
From S2P Require Import Prelude Sql Paths Planner Protocol Validate Wellformed StateMachine.
From S2P Require Import Apply Spec Coordination Lifecycle History Refine Simulation Safety.
From S2P Require Import Admission Database Consistency Store Operations EventLog.

(** The public operations of the store as one step relation on the database, the
    databases they reach, and what holds in all of them. *)

(** * The operations *)

Inductive Operation : Type :=
  | OpApply (command : Command)
  | OpApplyBoard (boardID : string) (command : Command)
  | OpApplyBoardWithProposal (boardID : string) (command : Command) (proposal : TaskProposal)
  | OpCreate (command : Command)
  | OpCreateGraph (graph : list Command) (definition : string)
  | OpAcquireLease (command : Command) (expiresAt : Time) (binding : option Binding)
  | OpAcquireLeaseBoard (boardID : string) (command : Command) (expiresAt : Time) (binding : option Binding)
  | OpAcquireLeaseBoardOnce (boardID : string) (command : Command) (expiresAt : Time)
      (binding : option Binding)
  | OpRenewLease (command : LeaseCommand)
  | OpExpireLease (command : LeaseCommand)
  | OpExpireDueLeases (now : Time) (actor : Actor)
  | OpClaim (request : ClaimRequest) (token : result string).

Section service.
Context {env : Env}.

Definition perform (op : Operation) (db : DB) : DB :=
  match op with
  | OpApply command => (Store_Apply command db).1
  | OpApplyBoard boardID command => (ApplyBoard boardID command db).1
  | OpApplyBoardWithProposal boardID command proposal => (ApplyBoardWithProposal boardID command proposal db).1
  | OpCreate command => (Create command db).1
  | OpCreateGraph graph definition => (CreateGraph graph definition db).1
  | OpAcquireLease command expiresAt binding => (AcquireLease command expiresAt binding db).1
  | OpAcquireLeaseBoard boardID command expiresAt binding =>
      (AcquireLeaseBoard boardID command expiresAt binding db).1
  | OpAcquireLeaseBoardOnce boardID command expiresAt binding =>
      (AcquireLeaseBoardOnce boardID command expiresAt binding db).1
  | OpRenewLease command => (RenewLease command db).1
  | OpExpireLease command => (ExpireLease command db).1
  | OpExpireDueLeases now actor => (ExpireDueLeases now actor db).1
  | OpClaim request token => (Claim request token db).1
  end.

(** The operations, one after another; the write lock of the store makes them a
    sequence. *)
Definition performAll (ops : list Operation) (db : DB) : DB := foldl (λ db op, perform op db) db ops.

(** * Commits *)

(** A new version of one board is written, reached from the stored one (or from the
    blank one) by protocol commands of types in [P]. *)
Definition commits (P : CommandType → Prop) (db db' : DB) : Prop :=
  ∃ b cs next es, replaceable db next.(Board_ID) b ∧ replay b cs = Ok next ∧ advance b next es ∧
    committed db next es db' ∧ Forall (λ c, P c.(Command_Type)) cs.

Lemma commits_mono (P Q : CommandType → Prop) db db' :
  (∀ ty, P ty → Q ty) → rtc (commits P) db db' → rtc (commits Q) db db'.
Proof.
  intros HPQ. apply rtc_subrel. intros d d' (b & cs & next & es & ? & ? & ? & ? & Hcs).
  exists b, cs, next, es. split_and!; try done. eapply Forall_impl; [exact Hcs|]. naive_solver.
Qed.

Lemma executed_commits (P : CommandType → Prop) db create id c hash r db' :
  executed db create id c hash r db' → P c.(Command_Type) → commits P db db'.
Proof.
  intros [_ (b & Hb & Ha) Hid Hcm _] HP. destruct (current_runs _ _ _ _ Hb) as [cs Hr].
  exists b, [c], r.(Result_Board), r.(Result_Events). split_and!; try done.
  - by eapply current_replaceable.
  - cbn. by rewrite Ha.
  - by eapply advance_Apply.
  - by apply Forall_singleton.
Qed.

(** The types of the commands an operation hands to the protocol. *)
Definition types_of (op : Operation) (ty : CommandType) : Prop :=
  match op with
  | OpApply c | OpApplyBoard _ c | OpApplyBoardWithProposal _ c _ | OpCreate c
  | OpAcquireLease c _ _ | OpAcquireLeaseBoard _ c _ _ | OpAcquireLeaseBoardOnce _ c _ _ => ty = c.(Command_Type)
  | OpCreateGraph graph _ => ∃ c, c ∈ graph ∧ ty = c.(Command_Type)
  | OpRenewLease _ => ty = CommandLeaseRenew
  | OpExpireLease _ | OpExpireDueLeases _ _ => ty = CommandLeaseExpire
  | OpClaim _ _ => ty = CommandLeaseAcquire
  end.

Lemma transact_apply boardID c exp b p db :
  consistent db → rtc (commits (λ ty, ty = c.(Command_Type))) db (apply boardID c exp b p db).1.
Proof.
  intros Hc. unfold apply, transact. destruct (applyTx _ _ _ _ _ db) as [[db' [r fresh]]| |] eqn:E; [|done..].
  apply (applyTx_inv _ _ _ _ _ _ _ _ _ Hc) in E as (id & _ & H). destruct fresh; [|by destruct H as [-> _]].
  apply rtc_once. eapply executed_commits; [exact H|]. unfold withDeadline. by repeat case_match.
Qed.

Lemma transact_lease command (expire : bool) expected db :
  consistent db →
  rtc (commits (λ ty, ty = if expire then CommandLeaseExpire else CommandLeaseRenew)) db
    (mutateLease command expire expected db).1.
Proof.
  intros Hc. unfold mutateLease.
  match goal with |- context [if ?c then (db, _) else _] => destruct c; [done|] end. unfold transact.
  destruct (mutateLeaseTx _ _ _ db) as [[db' [r fresh]]| |] eqn:E; [|done..].
  apply (mutateLeaseTx_inv _ _ _ _ _ _ _ Hc) in E. destruct fresh; unfold mutated in E.
  - destruct E as (b & _ & E). apply rtc_once. eapply executed_commits; [exact E|reflexivity].
  - by destruct E as [-> _].
Qed.

Lemma transact_claim request token db :
  consistent db → rtc (commits (λ ty, ty = CommandLeaseAcquire)) db (Claim request token db).1.
Proof.
  intros Hc. unfold Claim. repeat (case_match; [done|]). unfold transact.
  destruct (claimTx _ _ db) as [[db' r]| |] eqn:E; [|done..].
  apply (claimTx_inv _ _ _ _ _ Hc) in E as [[-> _]|(b & task & tok & _ & Hb)]; [done|].
  apply rtc_once. eapply executed_commits; [apply Hb|reflexivity].
Qed.

(** What [CreateGraph] returns: an earlier receipt, or a graph admitted now. *)
Lemma CreateGraph_cases graph definition db db' outcome :
  consistent db → CreateGraph graph definition db = (db', outcome) →
  match outcome with
  | Ok r =>
      (db' = db ∧ ∃ key row, db.(commands) !! key = Some row ∧ row.(cr_result_json) = r) ∨
      admitted db graph definition r db'
  | _ => db' = db
  end.
Proof.
  intros Hc H. unfold CreateGraph in H.
  destruct graph as [|first rest]; [by injection H as <- <-|].
  destruct (Command_Board first) as [spec|]; [|by injection H as <- <-].
  do 2 match type of H with (if ?c then _ else _) = _ => destruct c; [by injection H as <- <-|] end.
  destruct (for_each _ _ _); [|by injection H as <- <-..]. unfold transact in H.
  destruct (createGraphTx _ _ _ _ db) as [[db1 r]| |] eqn:E; [|by injection H as <- <-..].
  injection H as <- <-.
  apply (createGraphTx_inv _ _ _ _ _ _ _ Hc) in E as [[-> (row & Hrow & _ & ->)]|E]; [left|by right].
  split; [done|]. by eexists _, row.
Qed.

Lemma transact_graph graph definition db :
  consistent db →
  rtc (commits (types_of (OpCreateGraph graph definition))) db (CreateGraph graph definition db).1.
Proof.
  intros Hc. destruct (CreateGraph graph definition db) as [db' outcome] eqn:E.
  apply (CreateGraph_cases _ _ _ _ _ Hc) in E. cbn.
  destruct outcome as [r| |]; [destruct E as [[-> _]|[Hrep Hcm Hev Hn _ _]]; [done|]|by subst..].
  apply rtc_once. exists Board_zero, graph, r.(Result_Board), r.(Result_Events).
  split_and!; try done; [by right|]. apply Forall_forall. intros c Hin. by exists c.
Qed.

Lemma commits_consistent P db db' : rtc (commits P) db db' → consistent db → consistent db'.
Proof. induction 1 as [|db1 db2 db3 (b & cs & next & es & _ & _ & _ & H & _) _ IH]; [done|]. intros _. apply IH, H. Qed.

Lemma sweep_commits actor dues db r :
  consistent db → rtc (commits (λ ty, ty = CommandLeaseExpire)) db (foldl (expireDue actor) (db, r) dues).1.
Proof.
  revert db r. induction dues as [|[[boardID leaseID] expiry] dues IH]; intros db r Hc; [done|]. cbn [foldl].
  assert (∃ r', expireDue actor (db, r) (boardID, leaseID, expiry) = (db, r') ∨ ∃ command expected,
    expireDue actor (db, r) (boardID, leaseID, expiry) =
      ((mutateLease command true expected db).1, r')) as (r' & [->|(command & expected & ->)]).
  { unfold expireDue. destruct r as [results|e|]; [|by eexists; left..].
    destruct (boardQuery db boardID) as [b|e|]; [|by eexists; left..].
    exists (match (mutateLease (expiryCommand b actor boardID leaseID expiry) true (Some expiry) db).2 with
      | Ok (result, expired) => Ok (if expired : bool then results ++ [result] else results)
      | Err e => Err e | Panic => Panic end).
    right. exists (expiryCommand b actor boardID leaseID expiry), (Some expiry).
    by destruct (mutateLease _ _ _ _) as [db' [[? []]| |]]. }
  - by apply IH.
  - pose proof (transact_lease command true expected db Hc) as H. etrans; [exact H|].
    apply IH. by eapply commits_consistent.
Qed.

Lemma resultOf_db {A} (r : DB * result (Result * A)) : (resultOf r).1 = r.1.
Proof. done. Qed.

Lemma perform_commits op db : consistent db → rtc (commits (types_of op)) db (perform op db).
Proof.
  intros Hc. destruct op; cbn [perform types_of].
  - by apply transact_apply.
  - by apply transact_apply.
  - unfold ApplyBoardWithProposal. case_match; [done|]. by apply transact_apply.
  - unfold Create. case_match; [done|]. by apply transact_apply.
  - by apply transact_graph.
  - unfold AcquireLease. repeat (case_match; [done|]). by apply transact_apply.
  - unfold AcquireLeaseBoard. repeat (case_match; [done|]). by apply transact_apply.
  - unfold AcquireLeaseBoardOnce. repeat (case_match; [done|]). by apply transact_apply.
  - unfold RenewLease. case_match; [done|]. by apply (transact_lease _ false).
  - by apply (transact_lease _ true).
  - by apply sweep_commits.
  - by apply transact_claim.
Qed.

Definition anything (_ : CommandType) : Prop := True.

Lemma performAll_commits ops db : consistent db → rtc (commits anything) db (performAll ops db).
Proof.
  unfold performAll. revert db. induction ops as [|op ops IH]; intros db Hc; [done|]. cbn.
  pose proof (perform_commits op db Hc) as H. etrans; [by eapply commits_mono, H|].
  apply IH. by eapply commits_consistent.
Qed.

Lemma performAll_consistent ops : consistent (performAll ops DB_empty).
Proof. eapply commits_consistent; [apply performAll_commits|]; apply consistent_empty. Qed.

(** * What no commit takes away *)

Lemma commits_grow P db db' : rtc (commits P) db db' → grows db db'.
Proof.
  induction 1 as [|db1 db2 db3 (b & cs & next & es & _ & _ & _ & H & _) _ IH]; [done|]. etrans; [|exact IH]. split.
  - apply H.
  - apply H.
  - intros id. rewrite (cm_boards _ _ _ _ H). intros Hs. rewrite lookup_insert. by case_decide.
Qed.

(** The receipts never name an event that the log does not hold. *)
Definition receipts_logged (db : DB) : Prop :=
  ∀ k row e, db.(commands) !! k = Some row → e ∈ row.(cr_result_json).(Result_Events) →
    db.(events) !! eventKey e = Some (eventRow e).

Lemma commits_receipts_logged P db db' : rtc (commits P) db db' → receipts_logged db → receipts_logged db'.
Proof.
  induction 1 as [|db1 db2 db3 (b & cs & next & es & _ & _ & _ & H & _) _ IH]; [done|]. intros Hl. apply IH.
  intros k row e Hk He. destruct (cm_new_receipts _ _ _ _ H k row Hk) as [Hold|[_ Hsub]].
  - eapply lookup_weaken; [by eapply Hl|apply H].
  - apply H. by apply Hsub.
Qed.
End service.

(** A concrete environment for the store and databases reached with it, on which
    the theorems about the store are instantiated. *)

(** A checksum of a string, in decimal. *)
Definition sample_digest (s : string) : string :=
  pretty (foldl (λ h c, (h * 257 + N.of_nat (Ascii.nat_of_ascii c)) mod (2 ^ 89 - 1))%N 7%N (String.list_ascii_of_string s)).

(** Requests are told apart by their ids, boards and reasons. *)
Definition sample_hash (r : HashRequest) : string :=
  strings_Join match r with
  | HashCommand boardID command _ _ =>
      ["command"; boardID; command.(Command_ID); command.(Command_Type); command.(Command_Reason)]
  | HashGraph boardID commands definition =>
      ["graph"; boardID; definition; pretty (length commands)]
  | HashLease id boardID leaseID actor expire token _ reason _ =>
      ["lease"; id; boardID; leaseID; actor.(Actor_ID); if expire then "expire" else "renew"; token; reason]
  | HashClaim boardID actor workerID _ => ["claim"; boardID; actor.(Actor_ID); workerID]
  | HashExpiry boardID leaseID expiry => ["expiry"; boardID; leaseID; pretty expiry]
  | HashStrings values => [sample_digest (strings_Join values "/")]
  end "/".

#[export] Instance sample_env : Env := {|
  requestHash := sample_hash;
  json_Valid := λ document, negb (document == "");
  unmarshalObject := λ document, Ok (Some {[ "document" := document ]});
  marshalObject := λ members, strings_Join (fst <$> map_to_list members) ",";
  unmarshalPlan := λ _, Ok [];
  marshalPlan := λ _ tasks, strings_Join (TaskProposal_ID <$> tasks) ",";
|}.

(** The sample history of Simulation.v, issued to the store. *)
Definition history_ops : list Operation := OpApplyBoard "board" <$> setup.
Definition setup_db : DB := performAll history_ops DB_empty.

Definition sample_claim (commandID : string) : ClaimRequest :=
  mkClaimRequest "board" commandID boss "worker-1" (unixEpoch + Second)%Z (60 * Second)%Z
    (mkSlotLimits 4 2 1 4).
Definition claimed_db : DB := (Claim (sample_claim "claim-1") (Ok "token-1") setup_db).1.
Definition stored_board (db : DB) : Board :=
  match db.(boards) !! "board" with Some row => row.(br_board_json) | None => Board_zero end.

(** A pause of the sample board, at its version, and what the store makes of it. *)
Definition pause (id : string) (version : Z) (reason : string) : Command :=
  (command id version boss CommandBoardPause) <| Command_Reason := reason |>.
Definition first_pause : Command := pause "pause-1" 6 "maintenance".
Definition paused_db : DB := (apply "board" first_pause Time_zero None None (performAll history_ops DB_empty)).1.
Definition pause_result : Result :=
  match (apply "board" first_pause Time_zero None None (performAll history_ops DB_empty)).2 with
  | Ok (r, _) => r | _ => Result_zero
  end.

Lemma pair_eq_fst {A B} (p : A * B) b : p.2 = b → p = (p.1, b).
Proof. intros <-. by destruct p. Qed.

Example setup_db_board : stored_board setup_db = board_after setup.
Proof. vm_compute. reflexivity. Qed.
Example claimed_db_counts : CountActiveLeases claimed_db "" = 1%Z.
Proof. vm_compute. reflexivity. Qed.
Lemma pause_applied :
  apply "board" first_pause Time_zero None None (performAll history_ops DB_empty) =
    (paused_db, Ok (pause_result, true)).
Proof. unfold paused_db. apply pair_eq_fst. vm_compute. reflexivity. Qed.

Lemma resolve_pause db db' : resolveBoard db "board" first_pause = resolveBoard db' "board" first_pause.
Proof. reflexivity. Qed.

(** A claim of the first task, and the database it leaves. *)
Definition claimed_store : DB := (Claim (sample_claim "claim-1") (Ok "token-1") (performAll history_ops DB_empty)).1.
Definition claim_result : ClaimResult :=
  match (Claim (sample_claim "claim-1") (Ok "token-1") (performAll history_ops DB_empty)).2 with
  | Ok r => r | _ => ClaimResult_zero
  end.

Lemma claim_applied :
  Claim (sample_claim "claim-1") (Ok "token-1") (performAll history_ops DB_empty) = (claimed_store, Ok claim_result).
Proof. unfold claimed_store. apply pair_eq_fst. vm_compute. reflexivity. Qed.
