(* ===== verification/ClaimSafety.v ===== *)
(** Who holds a repository, and the contract of the claim that decides it. *)
From stdpp Require Import relations.
From S2P Require Import Prelude Sql Planner Protocol Validate Wellformed StateMachine Apply.
From S2P Require Import Spec Coordination Lifecycle History Refine Simulation Safety Admission.
From S2P Require Import Database Consistency Store Operations EventLog Service.

(** Who holds a repository: the active leases of all boards, how commits change
    them, and what the concurrency policy of a claim guarantees. *)

(** * Commands that acquire no lease *)

Definition not_acquire (ty : CommandType) : Prop := ty ≠ CommandLeaseAcquire.

Lemma replay_calm cs0 b cs b' :
  runs cs0 b → replay b cs = Ok b' → Forall (λ c, not_acquire c.(Command_Type)) cs →
  calm nothing (abs b) (abs b').
Proof.
  revert cs0 b. induction cs as [|c cs IH]; intros cs0 b Hr H Hcs; cbn in H; [by injection H as ->|].
  apply bind_Ok in H as ([next es] & Ha & H).
  apply Forall_cons in Hcs as [Hc Hcs].
  assert (calm nothing (abs b) (abs next)) as H1.
  { destruct (reachable_calm cs0 c _ _ (runs_reachable _ _ Hr) (apply_step _ _ _ _ Ha)) as [M L].
    split; [done|]. intros j l Hj Hl. destruct (L j l Hj Hl) as [[? _]|?]; [done|by right]. }
  etrans; [exact H1|]. eapply IH; [by eapply runs_apply|done|done].
Qed.

Lemma replay_header cs0 b cs b' :
  runs cs0 b → replay b cs = Ok b' → b.(Board_ID) ≠ "" →
  b'.(Board_ID) = b.(Board_ID) ∧ b'.(Board_Repository) = b.(Board_Repository).
Proof.
  revert cs0 b. induction cs as [|c cs IH]; intros cs0 b Hr H Hne; cbn in H; [by injection H as ->|].
  apply bind_Ok in H as ([next es] & Ha & H).
  destruct (Apply_header _ _ _ _ _ Hr Ha Hne) as [<- <-]. eapply IH; [by eapply runs_apply|done|].
  by destruct (Apply_header _ _ _ _ _ Hr Ha Hne) as [-> _].
Qed.

(** * Leases that hold a repository *)

Definition held (db : DB) (k : string * string) (repository : string) (mode : AccessMode) : Prop :=
  ∃ row, db.(leases) !! k = Some row ∧ activeLease row = true ∧ row.(lr_repository_id) = repository ∧
    row.(lr_access_mode) = mode.

Lemma held_stored db id b j repository mode :
  stored db id b →
  held db (id, j) repository mode ↔ ∃ l, by_key Lease_ID b.(Board_Leases) !! j = Some l ∧
    l.(Lease_State) = LeaseActive ∧ b.(Board_Repository) = repository ∧ modeOf b l = mode.
Proof.
  intros Hs. unfold held. rewrite (pj_leases _ _ _ (so_projected _ _ _ Hs)). split.
  - intros (row & (l & Hl & ->)%fmap_Some & Ha & <- & <-). exists l. unfold activeLease in Ha. cbn in *.
    apply String.eqb_eq in Ha. by split_and!.
  - intros (l & -> & Ha & <- & <-). eexists. split; [done|]. unfold activeLease. cbn. by rewrite Ha.
Qed.

Lemma replaceable_runs db id b : replaceable db id b → ∃ cs, runs cs b.
Proof. intros [Hs|[-> _]]; [apply (so_runs _ _ _ Hs)|by exists []; constructor]. Qed.

(** A commit adds no holder but the leases it acquires. *)
Lemma commit_held db db' b next es new k repository mode :
  replaceable db next.(Board_ID) b → calm new (abs b) (abs next) →
  (b.(Board_ID) ≠ "" → next.(Board_Repository) = b.(Board_Repository)) → committed db next es db' →
  held db' k repository mode → k.1 = next.(Board_ID) ∧ new k.2 ∨ held db k repository mode.
Proof.
  destruct k as [id j]. intros Hrep Hcalm Hrepo Hcm Hh.
  destruct (decide (id = next.(Board_ID))) as [->|Hne].
  - apply (held_stored _ _ _ _ _ _ (cm_stored _ _ _ _ Hcm)) in Hh as (l' & Hl' & Ha & Hr & Hm).
    destruct (cl_leases _ _ _ Hcalm j l' Hl' Ha) as [?|(l & Hl & Hla & Htask)]; [by left|right].
    destruct Hrep as [Hs|[-> _]]; [|by apply by_key_Some in Hl as [?%not_elem_of_nil _]].
    apply (held_stored _ _ _ _ _ _ Hs). exists l. destruct (so_id _ _ _ Hs) as [Hid Hne].
    split_and!; [done|done|rewrite <- Hr; symmetry; apply Hrepo; congruence|].
    destruct (so_runs _ _ _ Hs) as [cs Hruns].
    destruct (co_lease_owner _ (runs_coordinated _ _ Hruns) _ _ Hl) as [t Ht].
    destruct (cl_modes _ _ _ Hcalm _ _ Ht) as (t' & Ht' & Hmode). cbn in Ht, Ht'.
    rewrite <- Hm. unfold modeOf. rewrite <- Htask, Ht, Ht'. cbn. done.
  - right. destruct Hh as (row & Hrow & ?). rewrite (sr_leases _ _ _ (cm_others _ _ _ _ Hcm _ Hne)) in Hrow.
    by exists row.
Qed.

Lemma quiet_commits_held db db' k repository mode :
  rtc (commits not_acquire) db db' → held db' k repository mode → held db k repository mode.
Proof.
  induction 1 as [|db1 db2 db3 (b & cs & next & es & Hrep & Hreplay & _ & Hcm & Hcs) _ IH]; [done|].
  intros Hh%IH. destruct (replaceable_runs _ _ _ Hrep) as [cs0 Hr].
  destruct (commit_held db1 db2 b next es nothing k repository mode) as [[_ []]|?]; try done.
  - by eapply replay_calm.
  - intros Hne. by eapply replay_header.
Qed.

(** Leases are never removed. *)
Lemma commits_leases P db db' :
  rtc (commits P) db db' → consistent db → size db.(leases) ≤ size db'.(leases).
Proof.
  induction 1 as [|db1 db2 db3 (b & cs & next & es & Hrep & _ & Hadv & Hcm & _) _ IH]; [done|]. intros Hc.
  etrans; [|apply IH, Hcm]. rewrite <- !(size_dom (D := gset (string * string))). apply subseteq_size.
  intros [id j]. rewrite !elem_of_dom. intros [row Hrow].
  destruct (decide (id = next.(Board_ID))) as [->|Hne]; [|by rewrite (sr_leases _ _ _ (cm_others _ _ _ _ Hcm _ Hne))].
  rewrite (pj_leases _ _ _ (so_projected _ _ _ (cm_stored _ _ _ _ Hcm))).
  destruct (replaceable_projected _ _ _ Hc Hrep) as [Hp _]. rewrite (pj_leases _ _ _ Hp) in Hrow.
  apply fmap_Some in Hrow as (l & Hl & _).
  destruct (hi_leases _ _ (ad_history _ _ _ Hadv) j l Hl) as (l' & Hl' & _). cbn in Hl'. rewrite Hl'. done.
Qed.

(** * The concurrency policy *)

Lemma countLeases_bound P db : (0 ≤ countLeases P db ≤ Z.of_nat (size db.(leases)))%Z.
Proof.
  unfold countLeases. pose proof (filter_length_le (λ p, P p.1 p.2) (map_to_list db.(leases))) as H.
  rewrite <- length_map_to_list. lia.
Qed.

Lemma countLeases_zero P db :
  countLeases P db = 0%Z → ∀ k row, db.(leases) !! k = Some row → P k row = false.
Proof.
  unfold countLeases. intros H k row Hrow. apply elem_of_map_to_list in Hrow.
  destruct (P k row) eqn:E; [|done]. exfalso.
  assert ((k, row) ∈ List.filter (λ p, P p.1 p.2) (map_to_list db.(leases))) as Hin.
  { apply list_elem_of_In, filter_In. split; [by apply list_elem_of_In|done]. }
  destruct (List.filter _ _); [by apply not_elem_of_nil in Hin|cbn in H; lia].
Qed.

(** What an admitted claim leaves possible: no holder beside a writer. *)
Lemma slot_free db b task limits :
  (slotAvailable db b task limits).1 = true → (Z.of_nat (size db.(leases)) < 2 ^ 62)%Z →
  ∀ k mode, mode = AccessWrite ∨ mode = AccessRead ∧ task.(Task_AccessMode) = AccessWrite →
    ¬ held db k b.(Board_Repository) mode.
Proof.
  intros H Hsize k mode Hmode (row & Hrow & Ha & Hr & Hm).
  pose proof (countLeases_bound (λ _ row, onRepository b.(Board_Repository) AccessWrite row) db) as Bw.
  pose proof (countLeases_bound (λ _ row, onRepository b.(Board_Repository) AccessRead row) db) as Br.
  assert (∀ m, m = mode → countLeases (λ _ row, onRepository b.(Board_Repository) m row) db ≠ 0%Z) as Hz.
  { intros m ->. intros Hz. pose proof (countLeases_zero _ _ Hz _ _ Hrow) as E. unfold onRepository in E.
    by rewrite Ha, Hr, Hm, !String.eqb_refl in E. }
  unfold slotAvailable in H.
  repeat match type of H with
  | context [if (?x && ?y)%Z then (false, _) else _] => destruct (x && y); [done|]
  end.
  destruct (String.eqb_spec task.(Task_AccessMode) AccessWrite) as [Ew|Ew].
  - rewrite i64_small in H by lia.
    match type of H with context [if (0 <? ?x)%Z then _ else _] => destruct (Z.ltb_spec 0 x); [done|] end.
    destruct Hmode as [->|[-> _]]; apply (Hz _ eq_refl); lia.
  - match type of H with context [if (0 <? ?x)%Z then _ else _] => destruct (Z.ltb_spec 0 x); [done|] end.
    destruct Hmode as [->|[_ ?]]; [|done]. apply (Hz _ eq_refl). lia.
Qed.

(** The contract of the claim: which task it chooses, that a command dispatches at
    most once, and that a writer has its repository for itself. *)

(** * The choice of a task *)

(** A task a claim may start. *)
Definition startable (now : Time) (t : Task) : Prop :=
  (t.(Task_State) = TaskReady ∨
   t.(Task_State) = TaskRetryWait ∧ (t.(Task_NextEligibleAt) ≤ now)%Z) ∧
  (t.(Task_AttemptCount) < MaxAttempts)%Z.

(** The chosen task is the first startable one in the order of the board. *)
Lemma eligibleFrom_first now w tasks :
  match eligibleFrom now w tasks with
  | inl t => ∃ before after, tasks = before ++ t :: after ∧ Forall (λ u, ¬ startable now u) before ∧
      startable now t
  | inr _ => Forall (λ u, ¬ startable now u) tasks
  end.
Proof.
  revert w. induction tasks as [|t tasks IH]; intros w; cbn [eligibleFrom]; [constructor|].
  assert (∀ w, ¬ startable now t → match eligibleFrom now w tasks with
    | inl u => ∃ before after, t :: tasks = before ++ u :: after ∧ Forall (λ u, ¬ startable now u) before ∧
        startable now u
    | inr _ => Forall (λ u, ¬ startable now u) (t :: tasks) end) as Hskip.
  { intros w' Hn. specialize (IH w'). destruct (eligibleFrom _ _ _); [|by constructor].
    destruct IH as (before & after & -> & ? & ?). exists (t :: before), after. split_and!; try done. by constructor. }
  assert (startable now t → ∃ before after, t :: tasks = before ++ t :: after ∧
    Forall (λ u, ¬ startable now u) before ∧ startable now t) as Htake by (intros ?; by exists [], tasks).
  unfold Time_Before. destruct (String.eqb_spec t.(Task_State) TaskReady) as [Er|Er].
  - destruct (Z.ltb_spec t.(Task_AttemptCount) MaxAttempts).
    + apply Htake. split; [by left|done].
    + apply Hskip. intros [_ ?]. lia.
  - destruct (String.eqb_spec t.(Task_State) TaskRetryWait) as [Ew|Ew];
      [|apply Hskip; by intros [[?|[? _]] _]].
    destruct (Z.leb_spec MaxAttempts t.(Task_AttemptCount)); [apply Hskip; intros [_ ?]; lia|].
    destruct (Z.ltb_spec now t.(Task_NextEligibleAt)); cbn.
    + apply Hskip. intros [[?|[_ ?]] _]; [done|lia].
    + apply Htake. split; [by right|lia].
Qed.

Section claims.
Context {env : Env}.

Lemma claim_outcome_inv request token db db' r :
  Claim request token db = (db', Ok r) → claimTx request token db = Ok (db', r).
Proof.
  unfold Claim, transact. repeat (match goal with |- context [if ?c then (db, _) else _] => destruct c; [done|] end).
  destruct (claimTx _ _ _) as [[? ?]| |]; intros; by simplify_eq.
Qed.

(** The lease of a successful claim. *)
Lemma claimed_lease request db r b task token db' :
  claimed_by request db r b task token db' →
  ∃ t, by_key Task_ID b.(Board_Tasks) !! task.(Task_ID) = Some t ∧ t.(Task_ID) = task.(Task_ID) ∧
    by_key Lease_ID r.(ClaimResult_Board).(Board_Leases) !! r.(ClaimResult_LeaseID) =
      Some (new_lease (abs b) t (claimLease request b task token)) ∧
    by_key Attempt_ID r.(ClaimResult_Board).(Board_Attempts) !! r.(ClaimResult_AttemptID) =
      Some (new_attempt (abs b) t (claimLease request b task token)).
Proof.
  intros [Hst _ _ _ [_ (b' & Hb' & Ha) _ _ _] Hres]. cbn in Hb'. cbn [Result_Board Result_Events] in Ha.
  assert (b' = b) as -> by by eapply stored_unique.
  destruct (acquire_inv _ _ _ (apply_step _ _ _ _ Ha) eq_refl)
    as (_ & spec & t & [= <-] & _ & Ht & _ & _ & _ & _ & _ & _ & _ & Eat & Ele).
  exists t. cbn in Ht, Eat, Ele. split; [exact Ht|]. split; [by apply by_key_Some in Ht as [_ ?]|].
  rewrite Hres. cbn. rewrite Ele, Eat. by rewrite !lookup_insert_eq.
Qed.

(** * Writers hold their repository alone *)

(** The operations of a process that starts work by [Claim] only. *)
Definition scheduled (op : Operation) : Prop :=
  (∃ request token, op = OpClaim request token) ∨ ∀ ty, types_of op ty → not_acquire ty.

Definition exclusive (db : DB) : Prop := ∀ k1 k2 repository mode,
  held db k1 repository AccessWrite → held db k2 repository mode → k1 = k2.

Lemma held_mode db k repository mode :
  consistent db → held db k repository mode → mode = AccessWrite ∨ mode = AccessRead.
Proof.
  destruct k as [id j]. intros Hc Hh. destruct (stored_lookup db id Hc) as [[b Hs]|[_ Ha]].
  - destruct (proj1 (held_stored _ _ _ _ _ _ Hs) Hh) as (l & Hl & _ & _ & <-).
    destruct (so_runs _ _ _ Hs) as [cs Hr].
    destruct (co_lease_owner _ (runs_coordinated _ _ Hr) _ _ Hl) as [t Ht]. cbn in Ht.
    unfold modeOf. rewrite Ht. cbn. apply by_key_Some in Ht as [Ht _].
    destruct (runs_valid _ _ Hr) as [->|Hw]; [by apply not_elem_of_nil in Ht|].
    pose proof (wf_tasks _ Hw) as Hok. rewrite Forall_forall in Hok.
    destruct (Hok _ Ht) as (_ & _ & _ & _ & Hm & _). unfold validAccessMode in Hm.
    apply orb_true_iff in Hm as [Hm%String.eqb_eq|Hm%String.eqb_eq]; [by right|by left].
  - destruct Hh as (row & Hrow & _). by rewrite (ab_leases _ _ Ha) in Hrow.
Qed.

(** A holder in the database after a claim is the claimed lease or an old one. *)
Lemma claimed_held request db r b task token db' k repository mode :
  consistent db → claimed_by request db r b task token db' → held db' k repository mode →
  held db k repository mode ∨
  k = (r.(ClaimResult_Board).(Board_ID), r.(ClaimResult_LeaseID)) ∧
  repository = b.(Board_Repository) ∧ mode = task.(Task_AccessMode).
Proof.
  intros Hc Hcl Hh. pose proof (claimed_lease _ _ _ _ _ _ _ Hcl) as (t & Ht & Hid & Hl & _).
  destruct Hcl as [Hst _ He _ [_ (b' & Hb' & Ha) Hi Hcm _] Hres]. cbn in Hb', Hi.
  cbn [Result_Board Result_Events] in Ha, Hcm.
  assert (b' = b) as -> by by eapply stored_unique.
  destruct (so_runs _ _ _ Hst) as [cs Hr]. destruct (so_id _ _ _ Hst) as [Hbid Hne].
  destruct (Apply_header _ _ _ _ _ Hr Ha) as [_ Hrepo]; [congruence|].
  pose proof (reachable_calm cs _ _ _ (runs_reachable _ _ Hr) (apply_step _ _ _ _ Ha)) as Hcalm.
  destruct (commit_held db db' b _ _ _ k repository mode (or_introl (eq_ind_r (λ i, stored db i b) Hst Hi))
    Hcalm (λ _, Hrepo) Hcm Hh) as [[Hk (_ & spec & [= <-] & Hj)]|Hold]; [right|by left].
  destruct k as [i j]. cbn in Hk, Hj. subst i.
  assert (j = r.(ClaimResult_LeaseID)) as -> by (by rewrite Hres). split; [done|].
  destruct (proj1 (held_stored _ _ _ _ _ _ (cm_stored _ _ _ _ Hcm)) Hh) as (l & Hl' & _ & <- & <-).
  rewrite Hl in Hl'. injection Hl' as <-. split; [done|]. unfold modeOf. cbn [Lease_TaskID new_lease].
  destruct (cl_modes _ _ _ Hcalm _ _ Ht) as (t' & Ht' & Hm'). cbn in Ht'.
  change (default "" (Task_AccessMode <$> by_key Task_ID (Board_Tasks (ClaimResult_Board r)) !! Task_ID t)
    = Task_AccessMode task). rewrite Hid, Ht'. cbn. rewrite Hm'.
  pose proof (eligibleFrom_first (ClaimRequest_Now request) false (Board_Tasks b)) as Hf. rewrite He in Hf.
  destruct Hf as (before & after & E & _ & _).
  assert (task ∈ Board_Tasks b) as Hin by (rewrite E; apply elem_of_app; right; by left).
  apply (runs_task _ _ _ Hr) in Hin. cbn in Hin. congruence.
Qed.

Lemma exclusive_claim request token db :
  consistent db → exclusive db → (Z.of_nat (size db.(leases)) < 2 ^ 62)%Z →
  exclusive (Claim request token db).1.
Proof.
  intros Hc Hex Hsize. destruct (Claim request token db) as [db' x] eqn:H. cbn.
  destruct x as [r|e|]; [|unfold Claim, transact in H; repeat case_match; by simplify_eq..].
  apply claim_outcome_inv, (claimTx_inv _ _ _ _ _ Hc) in H as [[-> _]|(b & task & tok & _ & Hcl)]; [done|].
  pose proof (slot_free _ _ _ _ (cb_slot _ _ _ _ _ _ _ Hcl) Hsize) as Hfree.
  intros k1 k2 repository mode H1 H2.
  pose proof (claimed_held _ _ _ _ _ _ _ _ _ _ Hc Hcl H1) as [H1'|(-> & -> & Hw)];
    pose proof (claimed_held _ _ _ _ _ _ _ _ _ _ Hc Hcl H2) as [H2'|(-> & E & Hm)].
  - by eapply Hex.
  - subst repository. exfalso. eapply Hfree; [by left|done].
  - exfalso. destruct (held_mode _ _ _ _ Hc H2') as [->| ->]; (eapply Hfree; [|done]); [by left|by right].
  - done.
Qed.

Lemma perform_exclusive op db :
  scheduled op → consistent db → exclusive db → (Z.of_nat (size db.(leases)) < 2 ^ 62)%Z →
  exclusive (perform op db).
Proof.
  intros [(request & token & ->)|Hq] Hc Hex Hsize; [by apply exclusive_claim|].
  pose proof (commits_mono _ not_acquire _ _ Hq (perform_commits op db Hc)) as Hcm.
  intros k1 k2 repository mode H1 H2. eapply Hex; by eapply quiet_commits_held.
Qed.

(** C26: A writer has its repository for itself. As long as work is started by
    [Claim] only, whatever else happens in between, no two active leases of any
    boards are on one repository when one of them is of a task that writes. *)
Theorem writer_exclusive ops :
  let db := performAll ops DB_empty in
  Forall scheduled ops → (Z.of_nat (size db.(leases)) < 2 ^ 62)%Z →
  ∀ k1 k2 row1 row2, db.(leases) !! k1 = Some row1 → db.(leases) !! k2 = Some row2 →
    row1.(lr_state) = LeaseActive → row2.(lr_state) = LeaseActive →
    row1.(lr_repository_id) = row2.(lr_repository_id) → row1.(lr_access_mode) = AccessWrite → k1 = k2.
Proof.
  intros db Hs Hsize k1 k2 row1 row2 H1 H2 A1 A2 Hr Hm. assert (exclusive db) as Hex.
  - clear -Hs Hsize. unfold db, performAll in *. clear db.
    assert (exclusive DB_empty) as He by (by intros ? ? ? ? (row & Hrow & _)).
    pose proof consistent_empty as Hc. revert Hs Hsize He Hc. generalize DB_empty.
    induction ops as [|op ops IH]; intros db Hs Hsize He Hc; [done|]. cbn in Hsize |- *.
    apply Forall_cons in Hs as [Hop Hs].
    pose proof (perform_commits op db Hc) as Hcm. pose proof (commits_consistent _ _ _ Hcm Hc) as Hc'.
    pose proof (commits_leases _ _ _ Hcm Hc). pose proof (commits_leases _ _ _ (performAll_commits ops _ Hc') Hc').
    apply IH; try done. apply perform_exclusive; try done. unfold performAll in *. lia.
  - assert (∀ row, row.(lr_state) = LeaseActive → activeLease row = true) as Hact
      by (intros row E; unfold activeLease; by rewrite E).
    apply (Hex k1 k2 row2.(lr_repository_id) row2.(lr_access_mode)); [exists row1|exists row2];
      split_and!; auto.
Qed.

(** * The theorems about one claim *)

(** What a claim answers. A result is the replay of an earlier claim, or follows
    from the stored board: paused; no task that may start; the first task that may
    start, in board order, has no slot; or that task is acquired, by exactly one
    [lease.acquire] of the protocol, and the result names its active lease, its
    attempt, the board's generation and the token. Only an acquired claim changes
    the database. In particular the outcome "backing-off" is never returned. *)
Theorem claim_decides ops request token db' r :
  let db := performAll ops DB_empty in
  let now := request.(ClaimRequest_Now) in
  Claim request token db = (db', Ok r) →
  (r.(ClaimResult_Outcome) ≠ ClaimAcquired → db' = db) ∧
  (r.(ClaimResult_Outcome) = ClaimReplayed ∨
   ∃ b, boardQuery db request.(ClaimRequest_BoardID) = Ok b ∧
    (r.(ClaimResult_Outcome) = ClaimPaused ∧ b.(Board_Paused) = true ∨
     b.(Board_Paused) = false ∧
     (r.(ClaimResult_Outcome) = ClaimNoWork ∧ Forall (λ t, ¬ startable now t) b.(Board_Tasks) ∨
      ∃ before t after, b.(Board_Tasks) = before ++ t :: after ∧
        Forall (λ u, ¬ startable now u) before ∧ startable now t ∧ r.(ClaimResult_TaskID) = t.(Task_ID) ∧
        let '(allowed, reason) := slotAvailable db b t request.(ClaimRequest_Limits) in
        (r.(ClaimResult_Outcome) = ClaimNoSlot ∧ allowed = false ∧ r.(ClaimResult_Reason) = reason ∨
         r.(ClaimResult_Outcome) = ClaimAcquired ∧ allowed = true ∧
         Apply b (claimCommand request b t r.(ClaimResult_FencingToken)) =
           Ok (r.(ClaimResult_Board), r.(ClaimResult_Events)) ∧
         (∃ l, by_key Lease_ID r.(ClaimResult_Board).(Board_Leases) !! r.(ClaimResult_LeaseID) = Some l ∧
            l.(Lease_State) = LeaseActive ∧ l.(Lease_TaskID) = t.(Task_ID) ∧
            l.(Lease_WorkerID) = request.(ClaimRequest_WorkerID) ∧
            l.(Lease_AttemptID) = r.(ClaimResult_AttemptID) ∧
            l.(Lease_FencingToken) = r.(ClaimResult_FencingToken) ∧
            l.(Lease_ExpiresAt) = (now + request.(ClaimRequest_LeaseDuration))%Z) ∧
         ∃ a, by_key Attempt_ID r.(ClaimResult_Board).(Board_Attempts) !! r.(ClaimResult_AttemptID) = Some a ∧
            a.(Attempt_Generation) = b.(Board_NextGeneration) ∧
            a.(Attempt_FencingToken) = r.(ClaimResult_FencingToken))))).
Proof.
  intros db now H%claim_outcome_inv. pose proof (performAll_consistent ops) as Hc. fold db in Hc.
  pose proof H as Hinv. apply (claimTx_inv _ _ _ _ _ Hc) in Hinv. split.
  { intros Ho. destruct Hinv as [[-> _]|(b & task & tok & _ & Hcl)]; [done|].
    rewrite (cb_result _ _ _ _ _ _ _ Hcl) in Ho. done. }
  destruct Hinv as [[_ Ho]|(b & t & tok & -> & Hcl)].
  - unfold claimTx in H. apply bind_Ok in H as (st & Hst & H). destruct st as [res|];
      [left; inv_ok; by injection H as _ <-|]. right.
    apply bind_Ok in H as (b & Hb & H). exists b. split; [done|].
    destruct (Board_Paused b) eqn:Ep; [left; by injection H as _ <-|right]. split; [done|].
    unfold eligibleTask in H.
    pose proof (eligibleFrom_first now false (Board_Tasks b)) as Hf. fold now in H.
    destruct (eligibleFrom now false (Board_Tasks b)) as [t|w]; [|left; destruct w; by injection H as _ <-].
    right. destruct Hf as (before & after & E & Hbefore & Ht). exists before, t, after.
    cbn [negb] in H. destruct (backingOff b now && (t.(Task_ID) == "")) eqn:Eo.
    { exfalso. apply andb_true_iff in Eo as [_ Eo%String.eqb_eq].
      destruct (so_runs _ _ _ (proj1 (stored_query _ _ _ Hc Hb))) as [cs Hr].
      destruct (runs_valid _ _ Hr) as [->|Hw]; [by destruct before|].
      pose proof (wf_tasks _ Hw) as Hok. rewrite E, Forall_app, Forall_cons in Hok.
      destruct Hok as (_ & [Hne _] & _). done. }
    destruct (slotAvailable db b t _) as [allowed reason] eqn:Es. destruct allowed; cbn [negb] in H.
    + exfalso. apply bind_Ok in H as (tok & _ & H). apply bind_Ok in H as ([next es] & _ & H).
      apply bind_Ok in H as (db1 & _ & H). apply bind_Ok in H as (db2 & _ & [= _ <-]). done.
    + injection H as _ <-. split_and!; try done. by left.
  - right. exists b. pose proof (cb_stored _ _ _ _ _ _ _ Hcl) as Hst. split; [by apply query_stored|].
    right. split; [apply Hcl|]. right.
    pose proof (eligibleFrom_first now false (Board_Tasks b)) as Hf.
    pose proof (cb_eligible _ _ _ _ _ _ _ Hcl) as He. fold now in He. rewrite He in Hf.
    destruct Hf as (before & after & E & Hbefore & Ht). exists before, t, after.
    destruct (claimed_lease _ _ _ _ _ _ _ Hcl) as (t' & _ & Hid & Hl & Ha).
    destruct Hcl as [_ _ _ Hslot [_ (b' & Hb' & Happ) _ _ _] Hres]. cbn in Hb'.
    cbn [Result_Board Result_Events] in Happ. assert (b' = b) as -> by by eapply stored_unique.
    assert (r.(ClaimResult_FencingToken) = tok) as Htok by by rewrite Hres.
    assert (r.(ClaimResult_TaskID) = t.(Task_ID)) as Htask by by rewrite Hres.
    split_and!; try done. destruct (slotAvailable _ _ _ _) as [allowed reason]. cbn in Hslot. subst allowed. right.
    split_and!; [by rewrite Hres|done|by rewrite Htok| |].
    + eexists. split; [exact Hl|]. cbn. split_and!; try done; by rewrite Hres.
    + eexists. split; [exact Ha|]. cbn. by rewrite Htok.
Qed.

(** C35: One claim, one dispatch. After a claim that must be dispatched, no claim
    with the same actor and command id, whatever its other fields and whatever
    happened in between, is to be dispatched again; it does not change the
    database either. *)
Theorem claim_dispatches_once ops ops' request token db' r request' token' :
  let db := performAll ops DB_empty in
  Claim request token db = (db', Ok r) → ClaimResult_Dispatchable r = true →
  request'.(ClaimRequest_Actor).(Actor_ID) = request.(ClaimRequest_Actor).(Actor_ID) →
  request'.(ClaimRequest_CommandID) = request.(ClaimRequest_CommandID) →
  let later := performAll ops' db' in
  let '(last, outcome) := Claim request' token' later in
  last = later ∧ ∀ r', outcome = Ok r' → ClaimResult_Dispatchable r' = false.
Proof.
  intros db H Hd Ea Ei later. pose proof (performAll_consistent ops) as Hc. fold db in Hc.
  pose proof (transact_claim request token db Hc) as Hcm. rewrite H in Hcm. cbn in Hcm.
  pose proof (commits_consistent _ _ _ Hcm Hc) as Hc'.
  apply claim_outcome_inv, (claimTx_inv _ _ _ _ _ Hc) in H as [[_ Ho]|(b & task & tok & _ & Hcl)].
  { unfold ClaimResult_Dispatchable in Hd. apply andb_true_iff in Hd as [Hd%String.eqb_eq _]. done. }
  pose proof (ex_receipt _ _ _ _ _ _ _ (cb_executed _ _ _ _ _ _ _ Hcl)) as Hrow. cbn in Hrow.
  assert (is_Some (later.(commands) !! (request.(ClaimRequest_Actor).(Actor_ID), request.(ClaimRequest_CommandID))))
    as [row Hrow'].
  { eexists. eapply lookup_weaken; [|eapply gr_receipts, commits_grow; by apply performAll_commits].
    rewrite Hrow. apply lookup_insert_eq. }
  rewrite <- Ea, <- Ei in Hrow'. unfold Claim.
  repeat match goal with |- context [if ?c then (later, _) else _] => destruct c; [done|] end.
  unfold transact, claimTx, storedResult. rewrite Hrow'. cbn [mbind result_bind].
  destruct (cr_request_hash row == claimRequestHash request'); cbn; [|done].
  destruct (_ == _); cbn; [|done]. split; [done|]. by intros r' [= <-].
Qed.
End claims.

(** The store after the sample claim, and the lease of the claim. *)
Definition claim_ops : list Operation := history_ops ++ [OpClaim (sample_claim "claim-1") (Ok "token-1")].
Definition claimed_key : string * string := ("board", claim_result.(ClaimResult_LeaseID)).

Lemma writer_exclusive_witness :
  CountActiveLeases (performAll claim_ops DB_empty) "board" = 1%Z ∧
  map_Forall (λ k row, row.(lr_state) = LeaseActive → row.(lr_repository_id) = "/repo" → k = claimed_key)
    (performAll claim_ops DB_empty).(leases).
Proof.
  split; [vm_compute; reflexivity|]. intros k row Hrow Ha Hr.
  assert (Forall scheduled claim_ops) as Hs.
  { unfold claim_ops, history_ops, setup. cbn [fmap list_fmap app].
    repeat (apply Forall_cons; split; [right; intros ty ->; by_decide|]).
    apply Forall_singleton. left. by eexists _, _. }
  assert ((Z.of_nat (size (performAll claim_ops DB_empty).(leases)) < 2 ^ 62)%Z) as Hsize
    by (vm_compute; reflexivity).
  destruct ((performAll claim_ops DB_empty).(leases) !! claimed_key) as [w|] eqn:Hw;
    [|exfalso; vm_compute in Hw; discriminate Hw].
  assert (w.(lr_state) = LeaseActive ∧ w.(lr_repository_id) = "/repo" ∧ w.(lr_access_mode) = AccessWrite)
    as (Haw & Hrw & Hmw)
    by (vm_compute in Hw; injection Hw as <-; split_and!; reflexivity).
  pose proof (writer_exclusive claim_ops Hs Hsize claimed_key k w row Hw Hrow Haw Ha) as Hex.
  symmetry. apply Hex; [|exact Hmw]. rewrite Hrw, Hr. reflexivity.
Defined.

Lemma claim_decides_witness :
  ∃ b, boardQuery setup_db "board" = Ok b ∧ startable (sample_claim "claim-1").(ClaimRequest_Now) (task_of b 0) ∧
    (claim_result.(ClaimResult_Outcome) ≠ ClaimAcquired → claimed_store = setup_db).
Proof.
  destruct (claim_decides history_ops (sample_claim "claim-1") (Ok "token-1") claimed_store claim_result
    claim_applied) as [Hsame [Hr|(b & Hb & _)]].
  - exfalso. vm_compute in Hr. discriminate Hr.
  - exists b. split; [exact Hb|]. split; [|exact Hsame].
    assert (b = stored_board setup_db) as -> by (vm_compute in Hb; injection Hb as <-; vm_compute; reflexivity).
    vm_compute. split; [by left|done].
Defined.

Lemma claim_dispatches_once_witness :
  let later := performAll [OpExpireDueLeases (unixEpoch + 3600 * Second)%Z boss] claimed_store in
  (Claim (sample_claim "claim-1") (Ok "token-2") later).1 = later.
Proof.
  intros later.
  pose proof (claim_dispatches_once history_ops [OpExpireDueLeases (unixEpoch + 3600 * Second)%Z boss]
    (sample_claim "claim-1") (Ok "token-1") claimed_store claim_result (sample_claim "claim-1") (Ok "token-2")
    claim_applied
    ltac:(vm_compute; reflexivity) eq_refl eq_refl) as H.
  cbv zeta in H. fold later in H. revert H.
  destruct (Claim (sample_claim "claim-1") (Ok "token-2") later) as [last o]. intros [H _]. exact H.
Defined.
