(* ===== verification/StoreSafety.v ===== *)
(** The contract of the store, and the rows that outlive what they project. *)
From stdpp Require Import relations sorting.
From S2P Require Import Prelude Sql Planner Protocol Validate Wellformed StateMachine Apply.
From S2P Require Import Spec Coordination Lifecycle History Refine Simulation Safety Admission.
From S2P Require Import Database Consistency Store Operations EventLog Service.

(** The contract of the store: commands take effect exactly once, the tables are a
    projection of the aggregates the protocol produced, and the event log is a
    complete, append-only record. *)

(** * Receipts answer repeated commands *)

Section receipts.
Context {env : Env}.

Lemma withDeadline_identity c exp :
  (withDeadline c exp).(Command_Actor) = c.(Command_Actor) ∧ (withDeadline c exp).(Command_ID) = c.(Command_ID) ∧
  (withDeadline c exp).(Command_Type) = c.(Command_Type).
Proof. unfold withDeadline. repeat case_match; done. Qed.

(** A command whose receipt is found is answered from it, or refused. *)
Lemma apply_receipt db boardID c exp b p id row :
  resolveBoard db boardID c = Ok id →
  db.(commands) !! (c.(Command_Actor).(Actor_ID), c.(Command_ID)) = Some row →
  apply boardID c exp b p db =
    if row.(cr_request_hash) == commandRequestHash id (withDeadline c exp) exp b
    then (db, Ok (row.(cr_result_json), false))
    else (db, Err (Errorf "command %q %w" [AStr c.(Command_ID); AWrap ErrCommandConflict])).
Proof.
  intros Hid Hrow. destruct (withDeadline_identity c exp) as (Ea & Ei & _).
  unfold apply, transact, applyTx. rewrite Hid. cbn [mbind result_bind].
  unfold storedResult. rewrite Ea, Ei, Hrow. cbn [mbind result_bind].
  by destruct (String.eqb (cr_request_hash row) _).
Qed.

Lemma apply_outcome db boardID c exp b p db' r fresh :
  apply boardID c exp b p db = (db', Ok (r, fresh)) → applyTx boardID c exp b p db = Ok (db', (r, fresh)).
Proof. unfold apply, transact. destruct (applyTx _ _ _ _ _ db) as [[? [? ?]]| |]; intros; by simplify_eq. Qed.

(** The receipt a successful command leaves. *)
Lemma apply_leaves_receipt db boardID c exp b p db' r fresh :
  consistent db → apply boardID c exp b p db = (db', Ok (r, fresh)) →
  ∃ id row, resolveBoard db boardID c = Ok id ∧
    db'.(commands) !! (c.(Command_Actor).(Actor_ID), c.(Command_ID)) = Some row ∧
    row.(cr_request_hash) = commandRequestHash id (withDeadline c exp) exp b ∧ row.(cr_result_json) = r.
Proof.
  intros Hc H%apply_outcome. apply (applyTx_inv _ _ _ _ _ _ _ _ _ Hc) in H as (id & Hid & H).
  destruct (withDeadline_identity c exp) as (Ea & Ei & _). exists id. destruct fresh.
  - destruct H as [_ _ _ _ Hr]. rewrite Ea, Ei in Hr. eexists. split; [done|].
    rewrite Hr, lookup_insert_eq. done.
  - destruct H as [-> (row & Hrow & Hh & ->)]. by exists row.
Qed.

(** The receipt of an accepted command stays. *)
Lemma receipt_lasts boardID c exp b p db db' r fresh ops' :
  consistent db → apply boardID c exp b p db = (db', Ok (r, fresh)) →
  ∃ id row, resolveBoard db boardID c = Ok id ∧
    (performAll ops' db').(commands) !! (c.(Command_Actor).(Actor_ID), c.(Command_ID)) = Some row ∧
    row.(cr_request_hash) = commandRequestHash id (withDeadline c exp) exp b ∧ row.(cr_result_json) = r.
Proof.
  intros Hc H. destruct (apply_leaves_receipt _ _ _ _ _ _ _ _ _ Hc H) as (id & row & Hid & Hrow & Hh & Hr).
  exists id, row. split_and!; try done.
  assert (consistent db') as Hc'.
  { pose proof (transact_apply boardID c exp b p db Hc) as Hcm. rewrite H in Hcm. by eapply commits_consistent. }
  eapply lookup_weaken; [exact Hrow|]. eapply gr_receipts, commits_grow. by apply performAll_commits.
Qed.

(** The id of an accepted command is taken: a later request under it by the same
    actor, with another hash, is refused, on whatever board. *)
Lemma id_taken boardID c exp b p db db' r fresh ops' boardID' c' exp' b' p' id' :
  consistent db → apply boardID c exp b p db = (db', Ok (r, fresh)) →
  let later := performAll ops' db' in
  resolveBoard later boardID' c' = Ok id' →
  c'.(Command_Actor).(Actor_ID) = c.(Command_Actor).(Actor_ID) → c'.(Command_ID) = c.(Command_ID) →
  (∀ id, resolveBoard db boardID c = Ok id →
     commandRequestHash id' (withDeadline c' exp') exp' b' ≠ commandRequestHash id (withDeadline c exp) exp b) →
  apply boardID' c' exp' b' p' later =
    (later, Err (Errorf "command %q %w" [AStr c'.(Command_ID); AWrap ErrCommandConflict])).
Proof.
  intros Hc H later Hid' Ea Ei Hne.
  destruct (receipt_lasts _ _ _ _ _ _ _ _ _ ops' Hc H) as (id & row & Hid & Hrow & Hh & _).
  erewrite apply_receipt by (done || by rewrite Ea, Ei). rewrite Hh.
  by destruct (String.eqb_spec (commandRequestHash id (withDeadline c exp) exp b)
    (commandRequestHash id' (withDeadline c' exp') exp' b')) as [E|_]; [edestruct Hne|].
Qed.

(** C8: Exactly once. A command the store accepted is answered with the same
    result, without effect and without [fresh], however often it is repeated and
    whatever operations happened in between, as long as it names the same board;
    and any other request with the same actor and command id, whose hash differs,
    is refused with the conflict error and without effect. *)
Theorem exactly_once ops ops' boardID c exp b p db' r fresh :
  let db := performAll ops DB_empty in
  apply boardID c exp b p db = (db', Ok (r, fresh)) →
  let later := performAll ops' db' in
  resolveBoard later boardID c = resolveBoard db boardID c →
  apply boardID c exp b p later = (later, Ok (r, false)) ∧
  ∀ boardID' c' exp' b' p' id', resolveBoard later boardID' c' = Ok id' →
    c'.(Command_Actor).(Actor_ID) = c.(Command_Actor).(Actor_ID) → c'.(Command_ID) = c.(Command_ID) →
    (∀ id, resolveBoard db boardID c = Ok id →
       commandRequestHash id' (withDeadline c' exp') exp' b' ≠ commandRequestHash id (withDeadline c exp) exp b) →
    ∃ err, apply boardID' c' exp' b' p' later = (later, Err err) ∧
      errors_Is err "was already used for different content" = true.
Proof.
  intros db H later Hres. pose proof (performAll_consistent ops) as Hc. split.
  - destruct (receipt_lasts _ _ _ _ _ _ _ _ _ ops' Hc H) as (id & row & Hid & Hrow & Hh & Hr).
    erewrite apply_receipt by (done || by rewrite Hres). by rewrite Hh, String.eqb_refl, Hr.
  - intros boardID' c' exp' b' p' id' Hid' Ea Ei Hne. eexists. split; [by eapply id_taken|done].
Qed.
End receipts.

(** The pause of the sample board, repeated after the board was resumed. *)
Lemma exactly_once_witness :
  let later := performAll [OpApplyBoard "board" (command "resume-1" 7 boss CommandBoardResume)] paused_db in
  apply "board" first_pause Time_zero None None later = (later, Ok (pause_result, false)).
Proof.
  exact (proj1 (exactly_once history_ops [OpApplyBoard "board" (command "resume-1" 7 boss CommandBoardResume)]
    "board" first_pause Time_zero None None paused_db pause_result true pause_applied (resolve_pause _ _))).
Defined.

(** * A command is one step of the protocol on one board *)

Section commands.
Context {env : Env}.

(** C2: The store implements the protocol. On every database the operations reach,
    a fresh [apply] is exactly one [Apply] of the protocol to the stored board (or
    to the blank one, for a board that does not exist yet): afterwards the database
    holds the board and the log extended by the events that [Apply] returned, every
    other board and log is as before, and one receipt is new. A repeated command,
    an error and a panic leave the database as it was. *)
Theorem apply_implements_protocol ops boardID c exp b p :
  let db := performAll ops DB_empty in
  let '(db', outcome) := apply boardID c exp b p db in
  match outcome with
  | Ok (r, true) =>
      ∃ id current, resolveBoard db boardID c = Ok id ∧
        (if c.(Command_Type) == CommandBoardCreate
         then current = Board_zero ∧ contents db r.(Result_Board).(Board_ID) = None
         else boardQuery db id = Ok current ∧ r.(Result_Board).(Board_ID) = id) ∧
        Apply current (withDeadline c exp) = Ok (r.(Result_Board), r.(Result_Events)) ∧
        (∀ id', contents db' id' =
           if decide (id' = r.(Result_Board).(Board_ID))
           then Some (r.(Result_Board), log_of db id' ++ r.(Result_Events)) else contents db id') ∧
        db.(commands) !! (c.(Command_Actor).(Actor_ID), c.(Command_ID)) = None ∧
        db'.(commands) = <[(c.(Command_Actor).(Actor_ID), c.(Command_ID)) :=
          mkCommandRow (commandRequestHash id (withDeadline c exp) exp b) r.(Result_Board).(Board_ID) r]>
          db.(commands)
  | _ => db' = db
  end.
Proof.
  intros db. pose proof (performAll_consistent ops) as Hc. fold db in Hc.
  destruct (apply boardID c exp b p db) as [db' [[r [|]]|e|]] eqn:H.
  - apply apply_outcome in H. apply (applyTx_inv _ _ _ _ _ _ _ _ _ Hc) in H as (id & Hid & Hex).
    destruct (withDeadline_identity c exp) as (Ea & Ei & _). cbn in Hex. pose proof Hex as [Hn (cur & Hb & Ha) Hi _ Hr].
    rewrite Ea, Ei in *. exists id, cur. split_and!; try done.
    + destruct (String.eqb _ _); cbn in *; [|by split; [apply query_stored|]].
      split; [done|]. unfold contents. by rewrite Hi.
    + intros id'. by eapply executed_contents.
  - apply apply_outcome in H. apply (applyTx_inv _ _ _ _ _ _ _ _ _ Hc) in H as (id & Hid & [-> _]). done.
  - unfold apply, transact in H. destruct (applyTx _ _ _ _ _ db) as [[? ?]| |]; by simplify_eq.
  - unfold apply, transact in H. destruct (applyTx _ _ _ _ _ db) as [[? ?]| |]; by simplify_eq.
Qed.

(** C28: The tables agree with the aggregates. In every database the operations
    reach, the rows of a board in the tables of tasks, attempts, leases and
    evidence are exactly the projection of its aggregate, with no row left over;
    each of its dependencies and artifacts has its row, where the row of a removed
    dependency stays behind; a board without a row has no row anywhere; and the aggregate is one that accepted commands produced, of a
    version below 2^63. *)
Theorem projections_agree ops id :
  let db := performAll ops DB_empty in
  match db.(boards) !! id with
  | Some row =>
      let b := row.(br_board_json) in
      row = boardRow b ∧ b.(Board_ID) = id ∧ (1 ≤ b.(Board_Version) < 2 ^ 63)%Z ∧
      (∃ cs, replay Board_zero cs = Ok b) ∧
      (∀ k, db.(tasks) !! (id, k) = taskRow <$> by_key Task_ID b.(Board_Tasks) !! k) ∧
      (∀ k, db.(attempts) !! (id, k) = ownAttempt <$> by_key Attempt_ID b.(Board_Attempts) !! k) ∧
      (∀ k, db.(leases) !! (id, k) = ownLease b <$> by_key Lease_ID b.(Board_Leases) !! k) ∧
      (∀ k, db.(evidence) !! (id, k) = ownEvidence <$> by_key Evidence_ID b.(Board_Evidence) !! k) ∧
      (∀ d, d ∈ b.(Board_Dependencies) →
         ∃ row, db.(dependencies) !! (id, d.(Dependency_ID)) = Some row ∧ row.(dr_dependency_json) = d) ∧
      (∀ e a, e ∈ b.(Board_Evidence) → a ∈ artifactsOf e → is_Some (db.(artifacts) !! (id, a.(ArtifactRef_ID))))
  | None =>
      ∀ k v, db.(tasks) !! (id, k) = None ∧ db.(dependencies) !! (id, k) = None ∧
        db.(attempts) !! (id, k) = None ∧ db.(leases) !! (id, k) = None ∧ db.(evidence) !! (id, k) = None ∧
        db.(artifacts) !! (id, k) = None ∧ db.(events) !! (id, v) = None
  end.
Proof.
  intros db. pose proof (performAll_consistent ops) as Hc. fold db in Hc.
  destruct (db.(boards) !! id) as [row|] eqn:E.
  - pose proof (consistent_stored _ _ _ Hc E) as Erow.
    destruct (cn_boards _ Hc _ _ E) as [_ [Hid _] [cs Hr] Hv [Ht Ha Hl He Hd Hf _]].
    split_and!; try done; [lia..|]. exists cs. by apply runs_replay.
  - destruct (cn_absent _ Hc _ E) as []. intros k v. split_and!; auto.
Qed.

(** The event log is complete, ordered and append-only. The log of a board
    holds one event per version from 1 to the version of the board, in order;
    [LatestSequence] is that version; [Replay] after a cursor returns the events
    behind it, up to the limit; and later operations only append to the log. *)
Theorem event_log_append_only ops ops' id :
  let db := performAll ops DB_empty in
  let later := performAll ops' db in
  let log := log_of db id in
  Z.of_nat (length log) = LatestSequence db id ∧
  (∀ b, boardQuery db id = Ok b → b.(Board_Version) = LatestSequence db id) ∧
  (∀ k e, log !! k = Some e → e.(Event_BoardID) = id ∧ e.(Event_Version) = Z.of_nat (S k)) ∧
  (∃ more, log_of later id = log ++ more) ∧
  ∀ after limit, (0 ≤ after < 2 ^ 63)%Z → (0 ≤ limit)%Z →
    Replay db id after limit = Ok (page limit (drop (Z.to_nat after) log)).
Proof.
  intros db later log. pose proof (performAll_consistent ops) as Hc. fold db in Hc.
  pose proof (performAll_commits ops' db Hc) as Hcm. fold later in Hcm.
  destruct (stored_lookup db id Hc) as [[b Hs]|[Hn Ha]].
  - pose proof (stored_log _ _ _ Hs) as Hl. pose proof (so_version _ _ _ Hs) as Hv.
    unfold log. rewrite (log_of_stored _ _ _ Hs), (LatestSequence_stored _ _ _ Hs), log_between_length by (intros v ?; apply Hl; lia).
    split_and!; [lia| | | |].
    + intros b' Hb'. rewrite (query_stored _ _ _ Hs) in Hb'. by simplify_eq.
    + intros k e. rewrite log_between_lookup by (intros v ?; apply Hl; lia). case_decide; [|done].
      unfold event_at. destruct (_ !! _) as [row|] eqn:Erow; [|done]. intros [= <-].
      apply (cn_events _ Hc) in Erow as [[= Hi He] _]. split; [done|lia].
    + destruct (stored_later _ later _ _ Hs) as (b' & Hs' & Hle);
        [by eapply commits_grow|by eapply commits_consistent|].
      rewrite (log_of_stored _ _ _ Hs'). exists (log_between later id b.(Board_Version) b'.(Board_Version)).
      rewrite (log_between_split later _ _ b.(Board_Version)) by lia. f_equal.
      apply log_between_grows; [by eapply gr_events, commits_grow|]. intros v ?. apply Hl. lia.
    + intros after limit Haf Hlim. rewrite (Replay_log _ _ _ _ b.(Board_Version)); [|intros v ?%Hl; lia|lia..].
      f_equal. f_equal. apply log_between_drop; [intros v ?; apply Hl; lia|lia..].
  - unfold log. rewrite (log_of_absent _ _ Hn), (LatestSequence_absent _ _ Ha).
    split_and!; [done| |by intros ? ?|by eexists|].
    + intros b. unfold boardQuery. by rewrite Hn.
    + intros after limit Haf Hlim. rewrite (Replay_log _ _ _ _ 0); [|intros v [? Hv]; by rewrite (ab_events _ _ Ha) in Hv|lia..].
      rewrite drop_nil. unfold log_between. by rewrite seqZ_nil by lia.
Qed.

(** A graph is admitted as a whole or not at all. When [CreateGraph] returns a
    result, either it is the receipt of an earlier admission and nothing changed,
    or the board did not exist, the result is the replay of all the commands from
    the blank board with all their events as its log, no other board changed, the
    definition is stored, and every command of the graph has its receipt. On an
    error or a panic nothing changed. *)
Theorem graph_all_or_nothing ops graph definition :
  let db := performAll ops DB_empty in
  let '(db', outcome) := CreateGraph graph definition db in
  match outcome with
  | Ok r =>
      (db' = db ∧ ∃ key row, db.(commands) !! key = Some row ∧ row.(cr_result_json) = r) ∨
      replay Board_zero graph = Ok r.(Result_Board) ∧
      contents db r.(Result_Board).(Board_ID) = None ∧
      (∀ id', contents db' id' = if decide (id' = r.(Result_Board).(Board_ID))
         then Some (r.(Result_Board), r.(Result_Events)) else contents db id') ∧
      db'.(board_definitions) = <[r.(Result_Board).(Board_ID) := definition]> db.(board_definitions) ∧
      Forall (λ c, ∃ actor, is_Some (db'.(commands) !! (actor, c.(Command_ID)))) graph
  | _ => db' = db
  end.
Proof.
  intros db. pose proof (performAll_consistent ops) as Hc. fold db in Hc.
  destruct (CreateGraph graph definition db) as [db' outcome] eqn:E.
  apply (CreateGraph_cases _ _ _ _ _ Hc) in E.
  destruct outcome as [r| |]; [|done..]. destruct E as [E|[Hrep Hcm Hev Hn Hd Hr]]; [by left|].
  - right. split_and!; try done; [by unfold contents; rewrite Hn|]. intros id'.
    rewrite (committed_contents _ Board_zero _ _ _ id' Hc) by (done || by right).
    case_decide; [|done]. subst id'. by rewrite (log_of_absent _ _ Hn).
Qed.
End commands.

(** Rows that outlive what they project: a dependency removed by a plan patch keeps
    its row, and the row keeps the edge from being added again. *)

Lemma clash_true {V} k k' (P : string * string → V → bool) m v :
  m !! k' = Some v → k' ≠ k → P k' v = true → clash k P m = true.
Proof.
  intros Hm Hne HP. unfold clash. apply existsb_exists. exists (k', v).
  split; [by apply list_elem_of_In, elem_of_map_to_list|]. cbn. by rewrite bool_decide_eq_false_2, HP.
Qed.

(** A row of the same edge under another key stops the loop over the dependencies. *)
Lemma upsertDependencies_clash id l d k row db db' :
  d ∈ l → NoDup (Dependency_ID <$> l) → k ≠ d.(Dependency_ID) →
  db.(dependencies) !! (id, k) = Some row → db.(dependencies) !! (id, d.(Dependency_ID)) = None →
  row.(dr_task_id) = d.(Dependency_TaskID) → row.(dr_depends_on) = d.(Dependency_DependsOn) →
  for_each (upsertDependency id) db l ≠ Ok db'.
Proof.
  intros Hd Hnd Hne. revert row db. induction l as [|x l IH]; [by apply not_elem_of_nil in Hd|].
  intros row db Hrow Hfree Ht Hp H. cbn in H, Hnd. apply bind_Ok in H as (db1 & H1 & H).
  apply NoDup_cons in Hnd as [Hx Hnd]. unfold upsertDependency in H1. apply elem_of_cons in Hd as [->|Hd].
  - rewrite Hfree in H1. inv_sql.
    match goal with H : clash ?k0 ?P ?m = false |- _ =>
      rewrite (clash_true k0 (id, k) P m row) in H; [discriminate H|done|congruence|] end.
    cbn. by rewrite Ht, Hp, !String.eqb_refl.
  - assert (x.(Dependency_ID) ≠ d.(Dependency_ID)) as Hxd.
    { intros E. apply Hx. rewrite E. by apply list_elem_of_fmap_2. }
    destruct (db.(dependencies) !! (id, x.(Dependency_ID))) as [old|] eqn:Eo; inv_sql.
    + destruct (decide (k = x.(Dependency_ID))) as [->|Hk].
      * rewrite Eo in Hrow. injection Hrow as ->.
        eapply (IH Hd Hnd (mkDependencyRow row.(dr_task_id) row.(dr_depends_on) x)); [| | | |exact H]; try done.
        -- cbn. by rewrite lookup_insert_eq.
        -- cbn. by rewrite lookup_insert_ne by congruence.
      * eapply (IH Hd Hnd row); [| | | |exact H]; try done; cbn; by rewrite lookup_insert_ne by congruence.
    + assert (k ≠ x.(Dependency_ID)) by (intros ->; congruence).
      eapply (IH Hd Hnd row); [| | | |exact H]; try done; cbn; by rewrite lookup_insert_ne by congruence.
Qed.

Lemma syncProjection_clash db b db' d k row :
  d ∈ b.(Board_Dependencies) → NoDup (Dependency_ID <$> b.(Board_Dependencies)) → k ≠ d.(Dependency_ID) →
  db.(dependencies) !! (b.(Board_ID), k) = Some row →
  db.(dependencies) !! (b.(Board_ID), d.(Dependency_ID)) = None →
  row.(dr_task_id) = d.(Dependency_TaskID) → row.(dr_depends_on) = d.(Dependency_DependsOn) →
  syncProjection db b ≠ Ok db'.
Proof.
  intros Hd Hnd Hne Hrow Hfree Ht Hp H. unfold syncProjection in H.
  apply bind_Ok in H as (db1 & ->%upsertTasks_all & H). apply bind_Ok in H as (db2 & H & _).
  by eapply upsertDependencies_clash in H.
Qed.

Section stale.
Context {env : Env}.

(** An edge that was removed cannot be added again. Whenever the table of
    dependencies has a row for an edge under another id than the one the edge has
    in the board the protocol produced, and none under that id, the store refuses
    the command although the protocol accepts it, and the database stays as it
    was. The rows of removed dependencies are never deleted, so this meets every
    patch that adds a removed edge under a new id. *)
Theorem readded_edge_refused ops boardID c exp b p id current next es d k row :
  let db := performAll ops DB_empty in
  resolveBoard db boardID c = Ok id → c.(Command_Type) ≠ CommandBoardCreate →
  db.(commands) !! (c.(Command_Actor).(Actor_ID), c.(Command_ID)) = None →
  boardQuery db id = Ok current → Apply current (withDeadline c exp) = Ok (next, es) →
  d ∈ next.(Board_Dependencies) → k ≠ d.(Dependency_ID) →
  db.(dependencies) !! (id, k) = Some row → db.(dependencies) !! (id, d.(Dependency_ID)) = None →
  row.(dr_task_id) = d.(Dependency_TaskID) → row.(dr_depends_on) = d.(Dependency_DependsOn) →
  (apply boardID c exp b p db).1 = db ∧ ∀ r, (apply boardID c exp b p db).2 ≠ Ok r.
Proof.
  intros db Hid Hty Hnew Hq Ha Hd Hk Hrow Hfree Ht Hp.
  pose proof (performAll_consistent ops) as Hc. fold db in Hc.
  assert (∀ x, applyTx boardID c exp b p db ≠ Ok x) as Hno.
  { intros [db' [r fresh]] H. unfold applyTx in H. rewrite Hid in H. cbn [mbind result_bind] in H.
    assert ((withDeadline c exp).(Command_Actor) = c.(Command_Actor) ∧
      (withDeadline c exp).(Command_ID) = c.(Command_ID) ∧
      (withDeadline c exp).(Command_Type) = c.(Command_Type)) as (E1 & E2 & E3)
      by (unfold withDeadline; by repeat case_match).
    apply bind_Ok in H as (st & Hst%storedResult_Ok & H). rewrite E1, E2, Hnew in Hst. subst st.
    rewrite E3, (proj2 (String.eqb_neq _ _) Hty) in H. apply bind_Ok in H as (cur & Hcur & H).
    rewrite Hq in Hcur. injection Hcur as <-. apply bind_Ok in H as ([next' es'] & Ha' & H).
    rewrite Ha in Ha'. injection Ha' as <- <-. apply bind_Ok in H as (db1 & Hw & _).
    destruct (stored_query _ _ _ Hc Hq) as [Hst Hwf0]. destruct (so_runs _ _ _ Hst) as [cs Hr].
    destruct (so_id _ _ _ Hst) as [Hi Hne].
    destruct (Apply_header _ _ _ _ _ Hr Ha) as [Hi' _]; [congruence|].
    assert (well_formed next) as Hwf by (apply Board_Validate_ok; by apply Apply_inv in Ha as (_ & ? & _)).
    unfold writeBoard in Hw. apply bind_Ok in Hw as (db2 & [-> _]%updateBoard_write & Hw).
    apply bind_Ok in Hw as (db3 & Hap%appendEvents_appended & Hw).
    assert (db3.(dependencies) = db.(dependencies)) as Edep by by rewrite (ap_rest _ _ _ Hap).
    eapply (syncProjection_clash _ _ _ d k row) in Hw; try done; [apply Hwf|..]; by rewrite Edep, Hi', Hi. }
  unfold apply, transact. destruct (applyTx _ _ _ _ _ db) as [[? ?]| |] eqn:E; [by destruct (Hno _ eq_refl)|by split..].
Qed.
End stale.

(** The sample board loses the dependency of its second task, and is to get it back. *)
Definition edge_patch (id : string) (version : Z) (operation : PatchOperation) : Command :=
  (command id version boss CommandPlanPatch)
    <| Command_Patch := Some (mkPatchSpec id
         [PatchStep_zero <| PatchStep_Operation := operation |>
            <| PatchStep_TaskID := "t2" |> <| PatchStep_DependsOn := "t1" |>] "replanned") |>.
Definition unlink_ops : list Operation :=
  history_ops ++ [OpApplyBoard "board" (edge_patch "P1" 6 PatchRemoveDependency)].
Definition relink : Command := edge_patch "P2" 8 PatchAddDependency.
Definition unlinked : Board := stored_board (performAll unlink_ops DB_empty).
Definition relinked : Board := match Apply unlinked relink with Ok (b, _) => b | _ => Board_zero end.

Lemma readded_edge_refused_witness :
  length relinked.(Board_Dependencies) = 1 ∧
  (apply "board" relink Time_zero None None (performAll unlink_ops DB_empty)).1 = performAll unlink_ops DB_empty.
Proof.
  split; [vm_compute; reflexivity|].
  refine (proj1 (readded_edge_refused unlink_ops "board" relink Time_zero None None "board" unlinked relinked
    (events_of unlinked relink) (mkDependency "P2:t2:t1" "t2" "t1") "d"
    (mkDependencyRow "t2" "t1" (mkDependency "d" "t2" "t1")) _ _ _ _ _ _ _ _ _ _ _)).
  - reflexivity.
  - by_decide.
  - vm_compute. reflexivity.
  - vm_compute. reflexivity.
  - vm_compute. reflexivity.
  - vm_compute. by left.
  - by_decide.
  - vm_compute. reflexivity.
  - vm_compute. reflexivity.
  - reflexivity.
  - reflexivity.
Defined.
