(* ===== verification/Runtime.v ===== *)
(** Goal admission: internal/agoboardruntime/runtime.go. A goal is planned, the
    plan is turned into graph commands, and the graph is admitted by the store in
    one transaction. *)
From S2P Require Import Prelude Sql Planner Protocol Validate StateMachine Apply Database Store.

Record Goal : Type := mkGoal {
  Goal_BoardID : string; Goal_Repository : Repository; Goal_Objective : Objective;
  Goal_ProjectGates : list PlanGate; Goal_Constraints : Constraints;
  Goal_ExecutionMode : string; Goal_BaseRevision : string; Goal_IntegrationRef : string;
  Goal_GateCommands : list string;
}.
#[export] Instance Goal_eta : Eta Goal := λ g, mkGoal (g.(Goal_BoardID)) (g.(Goal_Repository))
  (g.(Goal_Objective)) (g.(Goal_ProjectGates)) (g.(Goal_Constraints)) (g.(Goal_ExecutionMode))
  (g.(Goal_BaseRevision)) (g.(Goal_IntegrationRef)) (g.(Goal_GateCommands)).

Record Options : Type := mkOptions {
  Options_CoordinatorID : string; Options_WorkerID : string; Options_VerifierID : string;
  Options_LeaseDuration : Duration;
}.

(** [New] supplies a clock when the options have none, so the clock is not part
    of the record; the map [projects] is never read. *)
Record Runtime : Type := mkRuntime { Runtime_planner : option Planner; Runtime_options : Options }.

Definition Column : Type := string.
Definition ColumnBacklog : Column := "Backlog".
Definition ColumnReady : Column := "Ready".
Definition ColumnClaimed : Column := "Claimed".
Definition ColumnRunning : Column := "Running".
Definition ColumnReview : Column := "Review".
Definition ColumnBlocked : Column := "Blocked".
Definition ColumnDone : Column := "Done".
Definition boardColumns : list Column :=
  [ColumnBacklog; ColumnReady; ColumnClaimed; ColumnRunning; ColumnReview; ColumnBlocked; ColumnDone].

Record BoardTask : Type := mkBoardTask {
  BoardTask_ID : string; BoardTask_Title : string; BoardTask_State : TaskState;
}.
Record BoardColumn : Type := mkBoardColumn { BoardColumn_Name : Column; BoardColumn_Tasks : list BoardTask }.
Record BoardView : Type := mkBoardView {
  BoardView_BoardID : string; BoardView_Version : Z; BoardView_Columns : list BoardColumn;
}.

(** The definition stored with a board. *)
Record project : Type := mkProject { project_Goal : Goal; project_Plan : Plan }.

(** * Projection of a board to columns *)

Definition columnForState (state : TaskState) : Column :=
  switch state [(TaskPlanned, ColumnBacklog); (TaskReady, ColumnReady); (TaskLeased, ColumnClaimed);
    (TaskRunning, ColumnRunning); (TaskVerifying, ColumnReview); (TaskPassed, ColumnDone);
    (TaskBlocked, ColumnBlocked); (TaskFailed, ColumnBlocked)] ColumnBlocked.

Definition boardTask (task : Task) : BoardTask :=
  mkBoardTask task.(Task_ID) task.(Task_Title) task.(Task_State).

(** The map [indexes] from a column to its position; a missing key reads as 0. *)
Definition columnIndexes : gmap Column nat :=
  list_to_map (imap (λ index name, (name, index)) boardColumns).

(** The body of the second loop of [projectBoard]. *)
Definition placeTask (columns : list BoardColumn) (task : Task) : list BoardColumn :=
  alter (λ column, mkBoardColumn column.(BoardColumn_Name) (column.(BoardColumn_Tasks) ++ [boardTask task]))
    (default 0 (columnIndexes !! columnForState task.(Task_State))) columns.

Definition projectBoard (board : Board) : BoardView :=
  mkBoardView board.(Board_ID) board.(Board_Version)
    (foldl placeTask ((λ name, mkBoardColumn name []) <$> boardColumns) board.(Board_Tasks)).

(** * From a plan to commands *)

(** The first capability that names writing decides. *)
Definition accessModeFor (proposal : TaskProposal) : AccessMode :=
  if existsb (λ tag, (tag == "repo-write") || (tag == "write") || (tag == "shell"))
       proposal.(TaskProposal_CapabilityTags)
  then AccessWrite else AccessRead.

(** The JSON encoding of a [project], its decoding, the decoding of its member
    [plan] alone, and what decoding a document into a zero [Plan] leaves there,
    whether or not it reports an error. *)
Class RuntimeEnv : Type := {
  marshalProject : project → result string;
  unmarshalProject : string → result project;
  unmarshalPlanMember : string → result Plan;
  json_UnmarshalPlan : string → Plan;
}.

Section runtime.
Context {env : Env} {planner_env : PlannerEnv} {runtime_env : RuntimeEnv}.

(** [clonePlan] of the package, a round trip through JSON. *)
Definition runtime_clonePlan (plan : Plan) : Plan :=
  json_UnmarshalPlan (match json_MarshalPlan plan with Ok encoded => encoded | _ => "" end).

Definition cloneGoal (goal : Goal) : Goal :=
  let constraints := goal.(Goal_Constraints) in
  goal <| Goal_ProjectGates := (runtime_clonePlan
            (Plan_zero <| Plan_ProjectGates := goal.(Goal_ProjectGates) |>)).(Plan_ProjectGates) |>
       <| Goal_Constraints := mkConstraints (cloneStrings constraints.(Constraints_PathScopes))
            (cloneStrings constraints.(Constraints_CapabilityTags))
            (cloneStrings constraints.(Constraints_VerifierIDs))
            constraints.(Constraints_MaxTasks) constraints.(Constraints_MaxDependencies) |>.

(** [namespace:] and half of the digest of the parts, in hexadecimal. *)
Definition stableID (namespace : string) (parts : list string) : string :=
  namespace +:+ ":" +:+ String.substring 0 32 (requestHash (HashStrings parts)).

Definition validate (runtime : Runtime) : result unit :=
  let options := runtime.(Runtime_options) in
  fail_if (negb (is_Some_b runtime.(Runtime_planner)))
    (Errorf "board store and planner are required" []) ;;
  fail_if ((strings_TrimSpace options.(Options_CoordinatorID) == "")
           || (strings_TrimSpace options.(Options_WorkerID) == "")
           || (strings_TrimSpace options.(Options_VerifierID) == ""))
    (Errorf "coordinator, worker, and verifier identities are required" []) ;;
  fail_if (options.(Options_LeaseDuration) <=? 0)%Z
    (Errorf "positive lease duration and clock are required" []).

Definition coordinator (runtime : Runtime) : Actor :=
  mkActor runtime.(Runtime_options).(Options_CoordinatorID) RoleCoordinator.
Definition worker (runtime : Runtime) : Actor :=
  mkActor runtime.(Runtime_options).(Options_WorkerID) RoleWorker.
Definition verifierActor (runtime : Runtime) : Actor :=
  mkActor runtime.(Runtime_options).(Options_VerifierID) RoleVerifier.

Definition graphCommand (id : string) (version : Z) (actor : Actor) (type : CommandType) : Command :=
  Command_zero <| Command_SchemaVersion := SchemaVersion |> <| Command_ID := id |>
    <| Command_ExpectedVersion := version |> <| Command_Actor := actor |> <| Command_Type := type |>.

Definition createCommand (goal : Goal) (actor : Actor) : Command :=
  (graphCommand (stableID "command" [goal.(Goal_BoardID); "create"]) 0 actor CommandBoardCreate)
    <| Command_Board := Some (mkBoardSpec goal.(Goal_BoardID) goal.(Goal_Objective).(Objective_Summary)
         goal.(Goal_Repository).(Repository_ID) goal.(Goal_BaseRevision) goal.(Goal_IntegrationRef)
         goal.(Goal_GateCommands)) |>.

Definition addTaskCommand (goal : Goal) (actor : Actor) (version : Z) (proposal : TaskProposal) : Command :=
  (graphCommand (stableID "command" [goal.(Goal_BoardID); "add-task"; proposal.(TaskProposal_ID)])
     version actor CommandTaskAdd)
    <| Command_Task := Some (mkTaskSpec proposal.(TaskProposal_ID) proposal.(TaskProposal_Title)
         (mkTerminalContract proposal.(TaskProposal_Description)
            (cloneStrings proposal.(TaskProposal_AcceptanceCriteria)))
         (accessModeFor proposal)) |>.

Definition dependencyID (goal : Goal) (dependency : DependencyProposal) : string :=
  stableID "dependency" [goal.(Goal_BoardID); dependency.(DependencyProposal_TaskID);
    dependency.(DependencyProposal_DependsOn)].

Definition addDependencyCommand (goal : Goal) (actor : Actor) (version : Z)
    (dependency : DependencyProposal) : Command :=
  (graphCommand (stableID "command" [goal.(Goal_BoardID); "add-dependency";
       dependency.(DependencyProposal_TaskID); dependency.(DependencyProposal_DependsOn)])
     version actor CommandDependencyAdd)
    <| Command_Dependency := Some (mkDependencySpec (dependencyID goal dependency)
         dependency.(DependencyProposal_TaskID) dependency.(DependencyProposal_DependsOn)) |>.

Definition activateCommand (goal : Goal) (actor : Actor) (version : Z) (proposal : TaskProposal) : Command :=
  (graphCommand (stableID "command" [goal.(Goal_BoardID); "activate"; proposal.(TaskProposal_ID)])
     version actor CommandTaskActivate)
    <| Command_TaskID := proposal.(TaskProposal_ID) |>.

(** A loop that appends a command per element and increments [version]. *)
Definition appendCommands {A} (build : Z → A → Command) (s : list Command * Z) (l : list A)
  : list Command * Z :=
  foldl (λ '(commands, version) x, (commands ++ [build version x], u64 (version + 1))) s l.

Definition graphCommands (goal : Goal) (actor : Actor) (plan : Plan) : list Command :=
  let s := ([createCommand goal actor], 1%Z) in
  let s := appendCommands (addTaskCommand goal actor) s plan.(Plan_Tasks) in
  let s := appendCommands (addDependencyCommand goal actor) s plan.(Plan_Dependencies) in
  (appendCommands (activateCommand goal actor) s plan.(Plan_Tasks)).1.

Definition goalRequest (goal : Goal) : Request :=
  mkRequest goal.(Goal_Repository) goal.(Goal_Objective) goal.(Goal_ProjectGates) goal.(Goal_Constraints).

(** [Runtime.Create] up to the admission: the commands and the definition. *)
Definition planGoal (runtime : Runtime) (cancelled : option error) (goal : Goal)
  : result (list Command * string) :=
  validate runtime ;;
  fail_if ((strings_TrimSpace goal.(Goal_BoardID) == "")
           || (strings_TrimSpace goal.(Goal_Objective).(Objective_Summary) == ""))
    (Errorf "board id and natural-language objective are required" []) ;;
  let request := goalRequest goal in
  planner ← non_nil runtime.(Runtime_planner) (Errorf "board store and planner are required" []);
  plan ← wrap_err (λ err, Errorf "plan objective: %w" [AWrap err]) (planner cancelled request);
  wrap_err (λ err, Errorf "validate objective plan: %w" [AWrap err]) (Plan_Validate plan request) ;;
  let commands := graphCommands goal (coordinator runtime) plan in
  definition ← wrap_err (λ err, Errorf "encode graph definition: %w" [AWrap err])
                 (marshalProject (mkProject (cloneGoal goal) (runtime_clonePlan plan)));
  Ok (commands, definition).

Definition Runtime_Create (runtime : Runtime) (cancelled : option error) (goal : Goal) (db : DB)
  : DB * result BoardView :=
  match planGoal runtime cancelled goal with
  | Err e => (db, Err e)
  | Panic => (db, Panic)
  | Ok (commands, definition) =>
      let '(db, r) := CreateGraph commands definition db in
      (db, result ← wrap_err (λ err, Errorf "admit graph: %w" [AWrap err]) r;
           Ok (projectBoard result.(Result_Board)))
  end.

Definition Runtime_Definition (db : DB) (boardID : string) : result (Goal * Plan) :=
  definition ← wrap_err (λ err, Errorf "recover board definition: %w" [AWrap err])
                 (Definition_ unmarshalProject db boardID);
  Ok (cloneGoal definition.(project_Goal), runtime_clonePlan definition.(project_Plan)).

Definition Runtime_View (db : DB) (boardID : string) : result BoardView :=
  board ← boardQuery db boardID; Ok (projectBoard board).

Definition Runtime_Completion (db : DB) (boardID : string) : result Completion :=
  Store_Completion db boardID.

End runtime.
