(* ===== verification/Goals.v ===== *)
(** Goal admission: the commands a valid plan is turned into are accepted by the
    protocol, one after another, and build exactly the graph of the plan. *)
From stdpp Require Import relations.
From S2P Require Import Prelude Sql Paths Planner Protocol Validate Wellformed Planning.
From S2P Require Import StateMachine Apply Spec Refine Simulation Database Store Runtime.

(** * The graph of a plan *)

Section graph.
Context {env : Env} (goal : Goal).

Definition plannedTask (p : TaskProposal) : Task :=
  Task_zero <| Task_ID := p.(TaskProposal_ID) |> <| Task_Title := p.(TaskProposal_Title) |>
    <| Task_State := TaskPlanned |>
    <| Task_TerminalContract := mkTerminalContract p.(TaskProposal_Description)
         p.(TaskProposal_AcceptanceCriteria) |>
    <| Task_AccessMode := accessModeFor p |>.

Definition plannedDependency (d : DependencyProposal) : Dependency :=
  mkDependency (dependencyID goal d) d.(DependencyProposal_TaskID) d.(DependencyProposal_DependsOn).

(** A task without prerequisites is ready, any other one blocked. *)
Definition settledTask (deps : list DependencyProposal) (p : TaskProposal) : Task :=
  plannedTask p <| Task_State :=
    if existsb (λ d, d.(DependencyProposal_TaskID) == p.(TaskProposal_ID)) deps
    then TaskBlocked else TaskReady |>.

(** The board of the goal, with a version, tasks and dependencies. *)
Definition graphBoard (version : Z) (tasks : list Task) (deps : list Dependency) : Board :=
  Board_zero
    <| Board_SchemaVersion := SchemaVersion |> <| Board_ID := goal.(Goal_BoardID) |>
    <| Board_Version := version |> <| Board_Title := goal.(Goal_Objective).(Objective_Summary) |>
    <| Board_Tasks := tasks |> <| Board_Dependencies := deps |>
    <| Board_Repository := goal.(Goal_Repository).(Repository_ID) |>
    <| Board_BaseRevision := goal.(Goal_BaseRevision) |>
    <| Board_IntegrationRef := goal.(Goal_IntegrationRef) |>
    <| Board_IntegratedRevision := goal.(Goal_BaseRevision) |>
    <| Board_NextGeneration := 1%Z |> <| Board_Gate := newProjectGate goal.(Goal_GateCommands) |>.

(** The board a goal is admitted as. *)
Definition admittedBoard (plan : Plan) : Board :=
  graphBoard (1 + 2 * len plan.(Plan_Tasks) + len plan.(Plan_Dependencies))
    (settledTask plan.(Plan_Dependencies) <$> plan.(Plan_Tasks))
    (plannedDependency <$> plan.(Plan_Dependencies)).

(** * Well-formed graphs *)

Record graph_ok (tasks : list Task) (deps : list Dependency) : Prop := {
  gk_tasks : Forall task_ok tasks;
  gk_ids : NoDup (Task_ID <$> tasks);
  gk_deps : Forall (λ d, d.(Dependency_ID) ≠ "" ∧ d.(Dependency_TaskID) ≠ d.(Dependency_DependsOn) ∧
    d.(Dependency_TaskID) ∈ Task_ID <$> tasks ∧ d.(Dependency_DependsOn) ∈ Task_ID <$> tasks) deps;
  gk_dep_ids : NoDup (Dependency_ID <$> deps);
  gk_edges : NoDup (edgeKey <$> deps);
  gk_acyclic : acyclic deps;
}.

Lemma by_key_is_Some {A} (key : A → string) (l : list A) k :
  k ∈ key <$> l → is_Some (by_key key l !! k).
Proof.
  intros Hk. apply not_eq_None_Some. rewrite by_key_None, Forall_forall. intros H.
  apply list_elem_of_fmap in Hk as (x & -> & Hx). by destruct (H x Hx).
Qed.

Lemma graphBoard_ok version tasks deps :
  goal.(Goal_BoardID) ≠ "" → goal.(Goal_Objective).(Objective_Summary) ≠ "" →
  graph_ok tasks deps → well_formed (graphBoard version tasks deps).
Proof.
  intros Hid Htitle [Ht Hi Hd Hdi He Ha]. split; cbn; try done; try constructor.
  eapply Forall_impl; [exact Hd|]. intros d (? & ? & H1 & H2). split_and!; try done; by apply by_key_is_Some.
Qed.

(** A part of the edges of an acyclic graph is acyclic. *)
Lemma acyclic_edges deps deps' : (∀ x y, edge deps x y → edge deps' x y) → acyclic deps' → acyclic deps.
Proof.
  intros H Ha t Ht. apply (Ha t). by apply (tc_congruence id (edge deps')) in Ht.
Qed.

Lemma acyclic_sub deps deps' : (∀ d, d ∈ deps → d ∈ deps') → acyclic deps' → acyclic deps.
Proof. intros Hsub. apply acyclic_edges. intros x y (d & Hd & ? & ?). exists d. auto. Qed.

Lemma graph_ok_prefix tasks deps more : graph_ok tasks (deps ++ more) → graph_ok tasks deps.
Proof.
  intros [Ht Hi Hd Hdi He Ha]. rewrite fmap_app in Hdi, He. apply Forall_app in Hd as [Hd _].
  split; try done; [by apply NoDup_app in Hdi as [? _]|by apply NoDup_app in He as [? _]|].
  eapply acyclic_sub; [|exact Ha]. intros d ?. apply elem_of_app. by left.
Qed.

Lemma acyclic_nil : acyclic [].
Proof.
  intros t H. assert (∃ y, edge [] t y) as (y & d & Hd & _) by (inversion H; eauto).
  by apply not_elem_of_nil in Hd.
Qed.

Lemma graph_ok_no_deps tasks : Forall task_ok tasks → NoDup (Task_ID <$> tasks) → graph_ok tasks [].
Proof. intros. split; try done; try constructor. apply acyclic_nil. Qed.

(** The states of the tasks do not matter. *)
Lemma graph_ok_tasks tasks tasks' deps :
  Task_ID <$> tasks' = Task_ID <$> tasks → Forall task_ok tasks' → graph_ok tasks deps → graph_ok tasks' deps.
Proof. intros E Ht []. split; rewrite ?E; done. Qed.

(** * The commands, one by one *)

#[local] Arguments stableID : simpl never.
#[local] Arguments dependencyID : simpl never.
#[local] Arguments Board_Validate : simpl never.

(** What [Apply] checks around its handlers. *)
Lemma Apply_accepts b c next es :
  c.(Command_SchemaVersion) = SchemaVersion → c.(Command_ID) ≠ "" → c.(Command_Actor).(Actor_ID) ≠ "" →
  c.(Command_ExpectedVersion) = b.(Board_Version) → (b.(Board_ID) ≠ "" → well_formed b) →
  dispatch b c = Ok (next, es) → well_formed next → Apply b c = Ok (next, es).
Proof.
  intros E1 H2 H3 E4 Hb Hd Hn. unfold Apply.
  rewrite E1, E4, Z.eqb_refl, Z.eqb_refl, (proj2 (String.eqb_neq _ _) H2), (proj2 (String.eqb_neq _ _) H3).
  cbn [negb orb fail_if mbind result_bind]. rewrite cloneBoard_id, Hd.
  destruct (String.eqb_spec b.(Board_ID) "") as [E|Hne]; cbn [negb mbind result_bind wrap_err];
    [|rewrite (proj2 (Board_Validate_ok b) (Hb Hne)); cbn [mbind result_bind wrap_err]];
    rewrite (proj2 (Board_Validate_ok next) Hn); done.
Qed.

Lemma append_nonempty s t : s ≠ "" → s +:+ t ≠ "".
Proof. by destruct s. Qed.

Context (actor : Actor) (Hactor : actor.(Actor_ID) ≠ "") (Hrole : actor.(Actor_Role) = RoleCoordinator).
Context (Hboard : goal.(Goal_BoardID) ≠ "") (Htitle : goal.(Goal_Objective).(Objective_Summary) ≠ "").

(** Where a search finds an entity with an id of its own. *)
Lemma findBy_middle {A} (zero : A) (key : A → string) (l1 l2 : list A) x :
  NoDup (key <$> (l1 ++ x :: l2)) → at_key key (key x) (l1 ++ x :: l2) (Z.of_nat (length l1)) x.
Proof.
  intros Hnd. rewrite fmap_app in Hnd. apply NoDup_app in Hnd as (_ & Hd & _).
  split_and!; [lia|rewrite Nat2Z.id; by apply list_lookup_middle|done|]. rewrite Nat2Z.id. intros m y Hm Hy E.
  rewrite lookup_app_l in Hy by done. apply (Hd (key y)); [by eapply list_elem_of_fmap_2, list_elem_of_lookup_2|].
  rewrite E. by left.
Qed.

Lemma findBy_absent {A} (zero : A) (key : A → string) k (l : list A) :
  k ∉ key <$> l → ∃ i x, findBy zero key k l = (i, x, false).
Proof.
  intros Hk. destruct (findBy zero key k l) as [[i x] []] eqn:E; [|by eexists _, _].
  apply findBy_found, at_key_lookup, by_key_Some in E as [Hx <-]. destruct Hk. by apply list_elem_of_fmap_2.
Qed.

Lemma findBy_present {A} (zero : A) (key : A → string) k (l : list A) :
  k ∈ key <$> l → ∃ i x, findBy zero key k l = (i, x, true) ∧ x ∈ l ∧ key x = k.
Proof.
  intros Hk. destruct (findBy zero key k l) as [[i x] []] eqn:E.
  - eexists _, _. split; [done|]. by apply findBy_found, at_key_lookup, by_key_Some in E.
  - apply findBy_missing in E as (E & _ & _). apply (by_key_is_Some key) in Hk as [? Hk]. congruence.
Qed.

Ltac accept := apply Apply_accepts; [done|by apply append_nonempty|done|done| | |].

Lemma create_accepted :
  ∃ es, Apply Board_zero (createCommand goal actor) = Ok (graphBoard 1 [] [], es).
Proof.
  eexists. accept; [done| |by apply graphBoard_ok; [..|apply graph_ok_no_deps; constructor]].
  unfold dispatch. cbn. unfold applyBoardCreate, requireRole. cbn. rewrite Hrole.
  rewrite (proj2 (String.eqb_neq _ _) Hboard), (proj2 (String.eqb_neq _ _) Htitle). cbn. reflexivity.
Qed.

Lemma add_task_accepted v tasks p :
  task_ok (plannedTask p) → graph_ok tasks [] → p.(TaskProposal_ID) ∉ Task_ID <$> tasks →
  ∃ es, Apply (graphBoard v tasks []) (addTaskCommand goal actor v p) =
    Ok (graphBoard (u64 (v + 1)) (tasks ++ [plannedTask p]) [], es).
Proof.
  intros Hp Hg Hn. assert (graph_ok (tasks ++ [plannedTask p]) []) as Hg'.
  { destruct Hg. apply graph_ok_no_deps; [by apply Forall_app; split; [|apply Forall_singleton]|].
    rewrite fmap_app. apply NoDup_app. split_and!; [done| |apply NoDup_singleton].
    intros k Hk ->%list_elem_of_singleton. done. }
  eexists. accept; [intros _; by apply graphBoard_ok| |by apply graphBoard_ok].
  destruct Hp as (Hid & Htt & Hct & _ & Hmode & _).
  unfold dispatch. cbn. unfold applyTaskAdd, requireInitialized, requireRole. cbn. rewrite Hrole.
  rewrite (proj2 (String.eqb_neq _ _) Hboard). cbn. cbn in Hid, Htt, Hct, Hmode.
  rewrite (proj2 (String.eqb_neq _ _) Hid), (proj2 (String.eqb_neq _ _) Htt). cbn.
  change (cloneStrings (TaskProposal_AcceptanceCriteria p)) with (TaskProposal_AcceptanceCriteria p).
  rewrite (proj2 (TerminalContract_validate_ok _) Hct). cbn. unfold findTask. cbn [Board_Tasks graphBoard].
  destruct (findBy_absent Task_zero Task_ID (TaskProposal_ID p) tasks Hn) as (i & x & E).
  match goal with |- context [findBy ?z ?k ?q ?l] => replace (findBy z k q l) with (i, x, false) end.
  cbn. rewrite Hmode. cbn. rewrite cloneContract_id. reflexivity.
Qed.

Lemma add_dependency_accepted v tasks deps d :
  graph_ok tasks (deps ++ [plannedDependency d]) → Forall (λ t, t.(Task_State) = TaskPlanned) tasks →
  ∃ es, Apply (graphBoard v tasks deps) (addDependencyCommand goal actor v d) =
    Ok (graphBoard (u64 (v + 1)) tasks (deps ++ [plannedDependency d]), es).
Proof.
  intros Hg Hst. pose proof (graph_ok_prefix _ _ _ Hg) as Hg0.
  eexists. accept; [intros _; by apply graphBoard_ok| |by apply graphBoard_ok].
  pose proof Hg as [_ _ Hd Hdi He _]. rewrite Forall_app, Forall_singleton in Hd. destruct Hd as [_ (_ & Hne & Ht & Hp)].
  rewrite fmap_app in Hdi, He. apply NoDup_app in Hdi as (_ & Hdi & _), He as (_ & He & _).
  unfold dispatch. cbn. unfold applyDependencyAdd, requireInitialized, requireRole. cbn. rewrite Hrole.
  rewrite (proj2 (String.eqb_neq _ _) Hboard). cbn. cbn in Hne, Ht, Hp.
  rewrite (proj2 (String.eqb_neq _ _) Hne). cbn. unfold findTask. cbn [Board_Tasks graphBoard].
  destruct (findBy_present Task_zero Task_ID _ tasks Ht) as (i & t & E & Hin & _).
  destruct (findBy_present Task_zero Task_ID _ tasks Hp) as (i' & t' & E' & _).
  match goal with |- context [findBy ?z ?k (DependencyProposal_TaskID d) ?l] =>
    replace (findBy z k (DependencyProposal_TaskID d) l) with (i, t, true) end.
  match goal with |- context [findBy ?z ?k (DependencyProposal_DependsOn d) ?l] =>
    replace (findBy z k (DependencyProposal_DependsOn d) l) with (i', t', true) end.
  cbn. rewrite Forall_forall in Hst. rewrite (Hst t Hin). cbn.
  match goal with |- context [for_each ?f tt ?l] => assert (for_each f tt l = Ok tt) as -> end.
  { apply for_each_Ok_unit, Forall_forall. cbn. intros x Hx.
    assert (Dependency_ID x ≠ dependencyID goal d) as H1.
    { intros Ex. apply (Hdi (Dependency_ID x)); [by apply list_elem_of_fmap_2|]. rewrite Ex. by left. }
    assert ((Dependency_TaskID x == DependencyProposal_TaskID d)
      && (Dependency_DependsOn x == DependencyProposal_DependsOn d) = false) as H2.
    { apply not_true_iff_false. rewrite andb_true_iff, !String.eqb_eq. intros [E1 E2].
      apply (He (edgeKey x)); [by apply list_elem_of_fmap_2|]. unfold edgeKey. rewrite E1, E2. by left. }
    rewrite (proj2 (String.eqb_neq _ _) H1). cbn. by rewrite H2. }
  cbn [mbind result_bind].
  match goal with |- context [Board_Validate ?b] => assert (Board_Validate b = Ok tt) as -> end.
  { apply Board_Validate_ok. by apply (graphBoard_ok v tasks (deps ++ [plannedDependency d])). }
  cbn. reflexivity.
Qed.

(** Before anything has passed, exactly the tasks without dependencies are ready. *)
Lemma dependenciesPassed_fresh b id :
  Forall (λ t, t.(Task_State) ≠ TaskPassed) b.(Board_Tasks) →
  dependenciesPassed b id = negb (existsb (λ d, d.(Dependency_TaskID) == id) b.(Board_Dependencies)).
Proof.
  intros Hst. unfold dependenciesPassed. induction b.(Board_Dependencies) as [|d deps IH]; [done|]. cbn.
  destruct (String.eqb_spec (Dependency_TaskID d) id) as [_|_]; cbn; [|exact IH].
  unfold findTask. destruct (findBy _ _ _ _) as [[i t] []] eqn:E; cbn; [|done].
  apply findBy_found, at_key_lookup, by_key_Some in E as [Hin _]. rewrite Forall_forall in Hst.
  by rewrite (proj2 (String.eqb_neq _ _) (Hst t Hin)).
Qed.

Lemma existsb_fmap {A B} (f : A → B) (P : B → bool) l : existsb P (f <$> l) = existsb (λ x, P (f x)) l.
Proof. induction l as [|x l IH]; [done|]. cbn. by rewrite IH. Qed.

Lemma alter_middle {A} (f : A → A) l1 x l2 : alter f (length l1) (l1 ++ x :: l2) = l1 ++ f x :: l2.
Proof. induction l1 as [|y l1 IH]; [done|]. cbn. f_equal. exact IH. Qed.

Lemma get_middle {A} (l1 : list A) x l2 : get_at (Z.of_nat (length l1)) (l1 ++ x :: l2) = Ok x.
Proof.
  unfold get_at. destruct (Z.ltb_spec (Z.of_nat (length l1)) 0); [lia|]. by rewrite Nat2Z.id, list_lookup_middle.
Qed.

Lemma activate_runs b c i t next current :
  c.(Command_Type) = CommandTaskActivate → c.(Command_Actor).(Actor_Role) = RoleCoordinator → b.(Board_ID) ≠ "" →
  findTask b c.(Command_TaskID) = (i, t, true) → t.(Task_State) = TaskPlanned →
  setTask b i (λ t', t' <| Task_State := if negb (dependenciesPassed b t.(Task_ID)) then TaskBlocked
                                         else TaskReady |>) = Ok next →
  taskAt next i = Ok current →
  dispatch b c = Ok (emit c (stateEvent t current c.(Command_Reason)) (next, [])).
Proof.
  intros Ety Er Hid Hf Hs Hset Hat. assert (dispatch b c = applyTaskActivate b c) as ->.
  { unfold dispatch. rewrite Ety. reflexivity. }
  unfold applyTaskActivate, requireInitialized, requireRole.
  rewrite Er, (proj2 (String.eqb_neq _ _) Hid), Hf, Hs. cbn [fail_if mbind result_bind negb String.eqb].
  rewrite !String.eqb_refl. cbn [negb fail_if mbind result_bind]. rewrite Hset. cbn [mbind result_bind].
  by rewrite Hat.
Qed.

Lemma setTask_middle b f before t after :
  b.(Board_Tasks) = before ++ t :: after →
  setTask b (Z.of_nat (length before)) f = Ok (b <| Board_Tasks := before ++ f t :: after |>).
Proof.
  intros E. unfold setTask, update_at. rewrite E.
  destruct (Z.ltb_spec (Z.of_nat (length before)) 0); [lia|].
  by rewrite Nat2Z.id, list_lookup_middle, alter_middle.
Qed.

Lemma activate_accepted v before after plan_deps p :
  let deps := plannedDependency <$> plan_deps in
  let tasks := before ++ plannedTask p :: after in
  graph_ok tasks deps → Forall (λ t, t.(Task_State) ≠ TaskPassed) tasks →
  ∃ es, Apply (graphBoard v tasks deps) (activateCommand goal actor v p) =
    Ok (graphBoard (u64 (v + 1)) (before ++ settledTask plan_deps p :: after) deps, es).
Proof.
  intros deps tasks Hg Hst.
  assert (graph_ok (before ++ settledTask plan_deps p :: after) deps) as Hg'.
  { eapply (graph_ok_tasks tasks); [by unfold tasks; rewrite !fmap_app| |done].
    pose proof (gk_tasks _ _ Hg) as Ht. unfold tasks in Ht. rewrite Forall_app, Forall_cons in Ht |- *.
    destruct Ht as (? & Hp & ?). split_and!; try done. destruct Hp as (? & ? & ? & _ & ? & ? & ? & _).
    unfold task_ok, settledTask. destruct (existsb _ _); by split_and!. }
  pose proof (findBy_middle Task_zero Task_ID before after (plannedTask p) (gk_ids _ _ Hg)) as Hat.
  assert (dependenciesPassed (graphBoard v tasks deps) p.(TaskProposal_ID) =
    negb (existsb (λ d, d.(DependencyProposal_TaskID) == p.(TaskProposal_ID)) plan_deps)) as Hpassed.
  { rewrite dependenciesPassed_fresh by done. f_equal. apply existsb_fmap. }
  eexists. accept; [intros _; by apply graphBoard_ok| |by apply graphBoard_ok].
  erewrite (activate_runs _ _ (Z.of_nat (length before)) (plannedTask p)
    (graphBoard v (before ++ settledTask plan_deps p :: after) deps) (settledTask plan_deps p)); [reflexivity|..];
    try done.
  - by apply findBy_at_key.
  - rewrite (setTask_middle _ _ before (plannedTask p) after) by done.
    change (Task_ID (plannedTask p)) with (TaskProposal_ID p). by rewrite Hpassed, negb_involutive.
  - apply get_middle.
Qed.

(** * The loops *)

(** The version after a loop, and the commands it appends. *)
Lemma appendCommands_version {A} (build : Z → A → Command) l cs v :
  (0 ≤ v)%Z → (v + len l < two64)%Z → (appendCommands build (cs, v) l).2 = (v + len l)%Z.
Proof.
  unfold appendCommands, len. revert cs v. induction l as [|x l IH]; intros cs v H0 Hv; cbn [foldl length] in *; [cbn; lia|].
  rewrite IH; rewrite u64_small by lia; lia.
Qed.

Lemma replay_loop {A} (build : Z → A → Command) (board : list A → Z → Board) b0 all :
  (∀ before x after v, all = before ++ x :: after →
     ∃ es, Apply (board before v) (build v x) = Ok (board (before ++ [x]) (u64 (v + 1)), es)) →
  ∀ cs v, replay b0 cs = Ok (board [] v) →
  let s := appendCommands build (cs, v) all in replay b0 s.1 = Ok (board all s.2).
Proof.
  intros Hstep.
  assert (∀ l before cs v, all = before ++ l → replay b0 cs = Ok (board before v) →
    let s := appendCommands build (cs, v) l in replay b0 s.1 = Ok (board all s.2)) as H;
    [|intros cs v; by apply (H all [])].
  induction l as [|x l IH]; intros before cs v E Hr; cbn.
  - rewrite app_nil_r in E. by subst.
  - apply (IH (before ++ [x])); [by rewrite <- (assoc_L (++))|].
    rewrite replay_app, Hr. cbn [mbind result_bind replay].
    destruct (Hstep before x l v E) as [es ->]. done.
Qed.

(** Versions along the three loops do not wrap around. *)
Lemma graphCommands_replay plan :
  let tasks := plan.(Plan_Tasks) in let deps := plan.(Plan_Dependencies) in
  (1 + 2 * len tasks + len deps < two64)%Z →
  graph_ok (plannedTask <$> tasks) (plannedDependency <$> deps) →
  replay Board_zero (graphCommands goal actor plan) = Ok (admittedBoard plan).
Proof.
  intros tasks deps Hsize Hg. assert (0 ≤ len tasks ∧ 0 ≤ len deps)%Z by (unfold len; lia).
  assert (∀ l, Forall (λ t, t.(Task_State) = TaskPlanned) (plannedTask <$> l)) as Hplanned
    by (intros l; apply Forall_fmap, Forall_true; by intros).
  unfold graphCommands. fold tasks deps.
  set (s1 := appendCommands (addTaskCommand goal actor) _ tasks).
  assert (replay Board_zero s1.1 = Ok (graphBoard s1.2 (plannedTask <$> tasks) [])) as H1.
  { apply (replay_loop (addTaskCommand goal actor) (λ l v, graphBoard v (plannedTask <$> l) [])).
    - intros before p after v E. rewrite fmap_app. cbn [fmap list_fmap].
      pose proof (gk_ids _ _ Hg) as Hnd. pose proof (gk_tasks _ _ Hg) as Hok. fold tasks in Hnd, Hok.
      rewrite E, fmap_app in Hnd, Hok. rewrite fmap_app in Hnd. cbn in Hnd.
      apply Forall_app in Hok as [Hb [Hp _]%Forall_cons]. apply NoDup_app in Hnd as (Hnd & Hdis & _).
      apply add_task_accepted; [done|by apply graph_ok_no_deps|].
      intros Hin. apply (Hdis _ Hin). by left.
    - cbn [replay fmap list_fmap]. destruct create_accepted as [es ->]. done. }
  assert (s1.2 = (1 + len tasks)%Z) as V1 by (apply appendCommands_version; lia).
  destruct s1 as [cs1 v1]. cbn in H1, V1.
  set (s2 := appendCommands (addDependencyCommand goal actor) (cs1, v1) deps).
  assert (replay Board_zero s2.1 = Ok (graphBoard s2.2 (plannedTask <$> tasks) (plannedDependency <$> deps))) as H2.
  { apply (replay_loop (addDependencyCommand goal actor)
      (λ l v, graphBoard v (plannedTask <$> tasks) (plannedDependency <$> l))); [|done].
    intros before d after v E. rewrite fmap_app. cbn [fmap list_fmap].
    apply add_dependency_accepted; [|done]. rewrite E in Hg. eapply (graph_ok_prefix _ _ (plannedDependency <$> after)).
    rewrite fmap_app in Hg. by rewrite <- (assoc_L (++)). }
  assert (s2.2 = (1 + len tasks + len deps)%Z) as V2 by (unfold s2; rewrite appendCommands_version; lia).
  destruct s2 as [cs2 v2]. cbn in H2, V2.
  set (s3 := appendCommands (activateCommand goal actor) (cs2, v2) tasks).
  assert (replay Board_zero s3.1 = Ok (graphBoard s3.2 (settledTask deps <$> tasks) (plannedDependency <$> deps))) as H3.
  { pose proof (replay_loop (activateCommand goal actor) (λ l v, graphBoard v
      ((settledTask deps <$> l) ++ (plannedTask <$> drop (length l) tasks)) (plannedDependency <$> deps))
      Board_zero tasks) as H3.
    cbv beta zeta in H3. rewrite drop_all, app_nil_r in H3. apply H3; [|by rewrite drop_0].
    intros before p after v E.
    assert (drop (length before) tasks = p :: after) as -> by (rewrite E; by apply drop_app_length').
    assert (drop (length (before ++ [p])) tasks = after) as ->.
    { rewrite E. replace (before ++ p :: after) with ((before ++ [p]) ++ after) by by rewrite <- (assoc_L (++)).
      by apply drop_app_length'. }
    rewrite fmap_app. cbn [fmap list_fmap]. rewrite <- (assoc_L (++)). cbn [app].
    apply activate_accepted; [|apply Forall_app; split; [|constructor]].
    - eapply (graph_ok_tasks (plannedTask <$> tasks)); [| |exact Hg].
      { rewrite E, !fmap_app. cbn [fmap list_fmap]. by rewrite <- !list_fmap_compose. }
      pose proof (gk_tasks _ _ Hg) as Hok. fold tasks in Hok. rewrite E, fmap_app in Hok.
      apply Forall_app in Hok as [Hb Ha]. apply Forall_app. split; [|exact Ha].
      rewrite Forall_fmap in Hb |- *. eapply Forall_impl; [exact Hb|]. cbn.
      intros q (? & ? & ? & _ & ? & ? & ? & _). unfold task_ok, settledTask. destruct (existsb _ _); by split_and!.
    - apply Forall_fmap, Forall_true. intros q. cbn. by destruct (existsb _ _).
    - done.
    - eapply Forall_impl; [apply Hplanned|]. by intros t ->. }
  assert (s3.2 = (1 + 2 * len tasks + len deps)%Z) as V3 by (unfold s3; rewrite appendCommands_version; lia).
  rewrite V3 in H3. exact H3.
Qed.
End graph.

(** A valid plan describes a well-formed graph. *)
Lemma plan_graph_ok {planner_env : PlannerEnv} {env : Env} goal request plan :
  plan_ok request plan → NoDup (dependencyID goal <$> plan.(Plan_Dependencies)) →
  graph_ok (plannedTask <$> plan.(Plan_Tasks)) (plannedDependency goal <$> plan.(Plan_Dependencies)).
Proof.
  intros [_ _ _ _ _ _ Ht Hids He Hkeys Ha] Hd.
  assert (∀ v, blank v = false → v ≠ "") as Hb by (by intros v Hv ->).
  assert (acyclic (plannedDependency goal <$> plan.(Plan_Dependencies))) as Ha'.
  { eapply acyclic_edges; [|exact Ha].
    intros x y (d & (q & -> & Hq)%list_elem_of_fmap & <- & <-). exists (dependencyOf q).
    split; [by apply list_elem_of_fmap_2|done]. }
  split.
  - apply Forall_fmap. eapply Forall_impl; [exact Ht|]. intros p [(H1 & H2 & H3) (Hne & _ & Hc & _) _ _ _ _].
    unfold task_ok, plannedTask. cbn. split_and!; try done; try by apply Hb.
    + split_and!; cbn; [by apply Hb|done|]. eapply Forall_impl; [exact Hc|]. auto.
    + unfold accessModeFor. by destruct (existsb _ _).
  - by rewrite <- list_fmap_compose.
  - apply Forall_fmap. apply Forall_forall. intros d Hin. rewrite Forall_forall in He. destruct (He d Hin) as [H1 H2].
    cbn. rewrite <- list_fmap_compose. split_and!; try done.
    intros E. apply (Ha' d.(DependencyProposal_TaskID)), tc_once. exists (plannedDependency goal d).
    split; [by apply list_elem_of_fmap_2|done].
  - by rewrite <- list_fmap_compose.
  - by rewrite <- list_fmap_compose.
  - exact Ha'.
Qed.

Lemma plan_ok_size {planner_env : PlannerEnv} request plan :
  plan_ok request plan → (1 + 2 * len plan.(Plan_Tasks) + len plan.(Plan_Dependencies) < two64)%Z.
Proof.
  intros [Hr _ _ _ [_ Ht] Hd _ _ _ _ _]. destruct (ro_limits _ Hr) as [H1 H2].
  unfold boundedLimit, MaxTasks, MaxDependencies, two64 in *.
  repeat match type of Ht with context [if ?c then _ else _] => destruct c end;
    repeat match type of Hd with context [if ?c then _ else _] => destruct c end; lia.
Qed.
