(* ===== verification/GoalSafety.v ===== *)
(** The contract of goal admission: a valid plan is accepted as a whole, a created
    goal is durable, and the view of a board shows every task once. *)
From S2P Require Import Prelude Sql Paths Planner Protocol Validate Wellformed Planning.
From S2P Require Import StateMachine Apply Spec Coordination Lifecycle History Refine.
From S2P Require Import Simulation Safety Admission Database Consistency Store Operations.
From S2P Require Import EventLog Service Runtime Goals.

(** * The view of a board *)

Definition columnTasks (b : Board) (name : Column) : list BoardTask :=
  boardTask <$> List.filter (λ t, columnForState t.(Task_State) == name) b.(Board_Tasks).

Lemma columnForState_listed state : columnForState state ∈ boardColumns.
Proof.
  unfold columnForState. apply (switch_Ok (λ _ c, c ∈ boardColumns)); [|by_decide].
  repeat (constructor; [intros _; by_decide|]). constructor.
Qed.

(** The task joins the column of its state and no other. *)
Lemma placeTask_columns (content : Column → list BoardTask) t :
  placeTask ((λ name, mkBoardColumn name (content name)) <$> boardColumns) t =
    (λ name, mkBoardColumn name (content name ++ if columnForState t.(Task_State) == name then [boardTask t] else []))
      <$> boardColumns.
Proof.
  unfold placeTask. pose proof (columnForState_listed t.(Task_State)) as H.
  unfold boardColumns in H. rewrite !elem_of_cons, elem_of_nil in H.
  repeat destruct H as [->|H]; [..|done]; cbn; by rewrite ?app_nil_r.
Qed.

Lemma projectBoard_columns b :
  projectBoard b = mkBoardView b.(Board_ID) b.(Board_Version)
    ((λ name, mkBoardColumn name (columnTasks b name)) <$> boardColumns).
Proof.
  unfold projectBoard. f_equal.
  assert (∀ l content, foldl placeTask ((λ name, mkBoardColumn name (content name)) <$> boardColumns) l =
    (λ name, mkBoardColumn name (content name ++
       (boardTask <$> List.filter (λ t, columnForState t.(Task_State) == name) l))) <$> boardColumns) as H.
  { induction l as [|t l IH]; intros content; cbn [foldl List.filter].
    - by apply list_fmap_ext; intros i name _; rewrite app_nil_r.
    - rewrite placeTask_columns, IH. apply list_fmap_ext. intros i name _. f_equal. rewrite <- (assoc_L (++)).
      f_equal. by destruct (_ == _). }
  exact (H b.(Board_Tasks) (λ _, [])).
Qed.

(** Columns of distinct names share no task, and every task is in one of them. *)
Lemma columns_partition b :
  concat (BoardColumn_Tasks <$> (projectBoard b).(BoardView_Columns)) ≡ₚ boardTask <$> b.(Board_Tasks).
Proof.
  rewrite projectBoard_columns. cbn [BoardView_Columns]. rewrite <- list_fmap_compose.
  unfold columnTasks. induction b.(Board_Tasks) as [|t l IH]; [done|].
  change (boardTask <$> t :: l) with (boardTask t :: (boardTask <$> l)). rewrite <- IH. clear IH.
  pose proof (columnForState_listed t.(Task_State)) as H. unfold boardColumns in *.
  rewrite !elem_of_cons, elem_of_nil in H. cbn [fmap list_fmap concat compose List.filter BoardColumn_Tasks].
  repeat destruct H as [->|H]; [..|done]; cbn [String.eqb Ascii.eqb Bool.eqb fmap list_fmap];
    rewrite ?app_nil_r; cbn; solve_Permutation.
Qed.

(** The view of a board. [projectBoard] lists the seven columns in order, each
    with the tasks whose state belongs to it, in board order; every task of the
    board is shown exactly once, with its id, title and state. *)
Theorem view_shows_every_task b :
  let view := projectBoard b in
  view.(BoardView_BoardID) = b.(Board_ID) ∧ view.(BoardView_Version) = b.(Board_Version) ∧
  BoardColumn_Name <$> view.(BoardView_Columns) = boardColumns ∧
  (∀ column, column ∈ view.(BoardView_Columns) → column.(BoardColumn_Tasks) =
     boardTask <$> List.filter (λ t, columnForState t.(Task_State) == column.(BoardColumn_Name)) b.(Board_Tasks)) ∧
  concat (BoardColumn_Tasks <$> view.(BoardView_Columns)) ≡ₚ boardTask <$> b.(Board_Tasks).
Proof.
  intros view. split_and!; [by unfold view; rewrite projectBoard_columns..| | |apply columns_partition].
  - unfold view. by rewrite projectBoard_columns.
  - intros column. unfold view. rewrite projectBoard_columns. cbn [BoardView_Columns].
    intros (name & -> & _)%list_elem_of_fmap. done.
Qed.

(** * Admission *)

Section admission.
Context {env : Env} {planner_env : PlannerEnv} {runtime_env : RuntimeEnv}.

Lemma blank_nonempty v : strings_TrimSpace v ≠ "" → v ≠ "".
Proof. by intros H ->. Qed.

Lemma planned_replay goal request plan id :
  plan_ok request plan → request.(Request_Objective) = goal.(Goal_Objective) → goal.(Goal_BoardID) ≠ "" →
  id ≠ "" → NoDup (dependencyID goal <$> plan.(Plan_Dependencies)) →
  replay Board_zero (graphCommands goal (mkActor id RoleCoordinator) plan) = Ok (admittedBoard goal plan).
Proof.
  intros Hok Hobj Hb Hid Hnd. apply graphCommands_replay; try done.
  - destruct (ro_objective _ (po_request _ _ Hok)) as [_ Hs]. rewrite Hobj in Hs. intros E. by rewrite E in Hs.
  - by eapply plan_ok_size.
  - by eapply plan_graph_ok.
Qed.

(** Every valid plan can be admitted. The protocol accepts all the commands a
    plan that passed validation is turned into, in order, and the result is the
    board of the plan: one task per proposal, with its contract and its access
    mode, ready if it has no prerequisite and blocked otherwise, and the
    dependencies of the plan; the version counts the commands. *)
Theorem valid_plan_is_accepted goal plan id :
  Plan_Validate plan (goalRequest goal) = Ok tt → goal.(Goal_BoardID) ≠ "" → id ≠ "" →
  NoDup (dependencyID goal <$> plan.(Plan_Dependencies)) →
  replay Board_zero (graphCommands goal (mkActor id RoleCoordinator) plan) = Ok (admittedBoard goal plan).
Proof. intros Hv%Plan_Validate_ok. by apply (planned_replay goal (goalRequest goal)). Qed.

Lemma planGoal_inv runtime cancelled goal cs definition :
  planGoal runtime cancelled goal = Ok (cs, definition) →
  runtime.(Runtime_options).(Options_CoordinatorID) ≠ "" ∧ goal.(Goal_BoardID) ≠ "" ∧
  ∃ planner plan, runtime.(Runtime_planner) = Some planner ∧ planner cancelled (goalRequest goal) = Ok plan ∧
    plan_ok (goalRequest goal) plan ∧ cs = graphCommands goal (coordinator runtime) plan ∧
    marshalProject (mkProject (cloneGoal goal) (runtime_clonePlan plan)) = Ok definition.
Proof.
  unfold planGoal, validate. intros H. inv_ok.
  repeat match goal with H : (?a == ?b) = false |- _ => apply String.eqb_neq in H end.
  split; [by apply blank_nonempty|]. split; [by apply blank_nonempty|].
  eexists _, _. split_and!; try done. by apply Plan_Validate_ok.
Qed.

(** A goal that was created is durable. When [Create] returns a view on a
    database the operations reach, then either the same graph had been admitted
    before and nothing changed, or the planner gave a plan that passed validation,
    the board of the plan is stored under the goal's id with its log, no other
    board changed, the goal and plan are stored as its definition, and the view is
    the projection of that board. When it returns an error or panics, nothing
    changed. *)
Theorem created_goal_is_durable ops runtime cancelled goal :
  let db := performAll ops DB_empty in
  let '(db', outcome) := Runtime_Create runtime cancelled goal db in
  match outcome with
  | Ok view =>
      db' = db ∨
      ∃ planner plan definition, runtime.(Runtime_planner) = Some planner ∧
        planner cancelled (goalRequest goal) = Ok plan ∧ Plan_Validate plan (goalRequest goal) = Ok tt ∧
        marshalProject (mkProject (cloneGoal goal) (runtime_clonePlan plan)) = Ok definition ∧
        (NoDup (dependencyID goal <$> plan.(Plan_Dependencies)) →
         view = projectBoard (admittedBoard goal plan) ∧
         contents db goal.(Goal_BoardID) = None ∧
         (∃ log, contents db' goal.(Goal_BoardID) = Some (admittedBoard goal plan, log) ∧
            Z.of_nat (length log) = (admittedBoard goal plan).(Board_Version)) ∧
         (∀ id, id ≠ goal.(Goal_BoardID) → contents db' id = contents db id) ∧
         db'.(board_definitions) = <[goal.(Goal_BoardID) := definition]> db.(board_definitions))
  | _ => db' = db
  end.
Proof.
  intros db. pose proof (performAll_consistent ops) as Hc. fold db in Hc. unfold Runtime_Create.
  destruct (planGoal runtime cancelled goal) as [[cs definition]| |] eqn:Hp; [|done..].
  destruct (CreateGraph cs definition db) as [db' outcome] eqn:E.
  pose proof (CreateGraph_cases _ _ _ _ _ Hc E) as Hcase.
  destruct outcome as [r| |]; cbn [wrap_err mbind result_bind]; [|done..].
  destruct Hcase as [[-> _]|[Hrep Hcm Hev Hn Hd _]]; [by left|right].
  apply planGoal_inv in Hp as (Hid & Hb & planner & plan & Hpl & Hplan & Hok & -> & Hdef).
  exists planner, plan, definition. split_and!; try done; [by apply Plan_Validate_ok|]. intros Hnd.
  unfold coordinator in Hrep. rewrite (planned_replay goal (goalRequest goal) plan) in Hrep by done.
  injection Hrep as Hboard. rewrite <- Hboard in *.
  change (Board_ID (admittedBoard goal plan)) with (Goal_BoardID goal) in *.
  assert (∀ id, contents db' id = if decide (id = Goal_BoardID goal)
    then Some (admittedBoard goal plan, Result_Events r) else contents db id) as Hcont.
  { intros id. rewrite (committed_contents db Board_zero (admittedBoard goal plan) _ db' id Hc (or_intror (conj eq_refl Hn)) Hev Hcm).
    case_decide as Ei; [|by rewrite decide_False]. rewrite decide_True by done. subst id.
    change (Board_ID (admittedBoard goal plan)) with (Goal_BoardID goal). by rewrite (log_of_absent _ _ Hn). }
  split_and!; try done.
  - by unfold contents; rewrite Hn.
  - exists (Result_Events r). split; [by rewrite Hcont, decide_True|].
    destruct (commit_versions db Board_zero _ _ _ Hev ltac:(done) Hcm) as [_ Hv]. cbn [Board_Version] in Hv.
    by rewrite Hv.
  - intros id Hne. by rewrite Hcont, decide_False.
Qed.

(** C40: A created goal is recovered. After [Create] admitted a goal, [Definition]
    returns the goal and the plan that the planner gave for it, provided the goal,
    the plan and the document made of them survive JSON. *)
Theorem created_goal_is_recovered ops runtime cancelled goal db' view :
  Runtime_Create runtime cancelled goal (performAll ops DB_empty) = (db', Ok view) →
  db' ≠ performAll ops DB_empty → cloneGoal goal = goal →
  (∀ planner plan, runtime.(Runtime_planner) = Some planner → planner cancelled (goalRequest goal) = Ok plan →
     runtime_clonePlan plan = plan ∧
     ∀ d, marshalProject (mkProject goal plan) = Ok d → unmarshalProject d = Ok (mkProject goal plan)) →
  NoDup (dependencyID goal <$> match (λ p : Planner, p cancelled (goalRequest goal)) <$> runtime.(Runtime_planner)
         with Some (Ok plan) => plan.(Plan_Dependencies) | _ => [] end) →
  ∃ planner plan, runtime.(Runtime_planner) = Some planner ∧
    planner cancelled (goalRequest goal) = Ok plan ∧ Runtime_Definition db' goal.(Goal_BoardID) = Ok (goal, plan).
Proof.
  intros H Hne Hgoal Hjson Hnd. pose proof (performAll_consistent ops) as Hc. unfold Runtime_Create in H.
  destruct (planGoal runtime cancelled goal) as [[cs definition]| |] eqn:Hp; [|done..].
  destruct (CreateGraph cs definition _) as [db1 outcome] eqn:E.
  pose proof (CreateGraph_cases _ _ _ _ _ Hc E) as Hcase.
  destruct outcome as [r| |]; cbn [wrap_err mbind result_bind] in H; [|done..]. injection H as -> _.
  destruct Hcase as [[-> _]|[Hrep _ _ _ Hd _]]; [done|].
  pose proof Hp as Hblank. apply planGoal_inv in Hp as (Hid & Hb & planner & plan & Hpl & Hplan & Hok & -> & Hdef).
  exists planner, plan. split_and!; try done. destruct (Hjson _ _ Hpl Hplan) as [Hclone Hround].
  rewrite Hpl in Hnd. cbn in Hnd. rewrite Hplan in Hnd.
  unfold coordinator in Hrep. rewrite (planned_replay goal (goalRequest goal) plan) in Hrep by done.
  injection Hrep as Hboard. rewrite <- Hboard in Hd.
  change (Board_ID (admittedBoard goal plan)) with (Goal_BoardID goal) in Hd.
  assert ((strings_TrimSpace goal.(Goal_BoardID) == "") = false) as Ht.
  { unfold planGoal in Hblank. inv_ok. by apply String.eqb_neq. }
  rewrite Hgoal, Hclone in Hdef. apply Hround in Hdef.
  unfold Runtime_Definition, Definition_. rewrite Ht, Hd, lookup_insert_eq. cbn [fail_if mbind result_bind non_nil wrap_err].
  rewrite Hdef. cbn. by rewrite Hgoal, Hclone.
Qed.
End admission.

(** * The demo goal *)

Definition sample_goal : Goal :=
  mkGoal "b" sample_request.(Request_Repository) sample_request.(Request_Objective)
    sample_request.(Request_ProjectGates) sample_request.(Request_Constraints) "demo" "r0" "refs/heads/main" [].

(** A document that lists the tasks and the board; only the demo's is read back. *)
Definition sample_document (p : project) : string :=
  strings_Join (TaskProposal_ID <$> p.(project_Plan).(Plan_Tasks)) ";" +:+ "@" +:+ p.(project_Goal).(Goal_BoardID).
#[export] Instance sample_runtime_env : RuntimeEnv := {|
  marshalProject := λ p, Ok (sample_document p);
  unmarshalProject := λ d,
    if d == sample_document (mkProject sample_goal sample_plan) then Ok (mkProject sample_goal sample_plan)
    else Err (ErrNew "invalid character");
  unmarshalPlanMember := λ _, Ok sample_plan;
  json_UnmarshalPlan := λ _, sample_plan;
|}.

Definition sample_runtime : Runtime :=
  mkRuntime (Some DemoPlanner_Plan) (mkOptions "coordinator-1" "worker-1" "verifier-1" (60 * Second)%Z).

Lemma valid_plan_is_accepted_witness :
  replay Board_zero (graphCommands sample_goal (mkActor "coordinator-1" RoleCoordinator) sample_plan) =
    Ok (admittedBoard sample_goal sample_plan).
Proof.
  apply valid_plan_is_accepted; [vm_compute; reflexivity|done|done|by_decide].
Defined.

(** The goal is created on an empty store and shown with two tasks to start. *)
Example sample_goal_created :
  let '(db, outcome) := Runtime_Create sample_runtime None sample_goal DB_empty in
  match outcome with
  | Ok view => length (concat (BoardColumn_Tasks <$> view.(BoardView_Columns))) = 5 ∧
      (BoardTask_ID <$> columnTasks (admittedBoard sample_goal sample_plan) ColumnReady) =
        ["inspect-repository"; "identify-commands"] ∧
      contents db "b" = Some (admittedBoard sample_goal sample_plan, log_of db "b")
  | _ => False
  end.
Proof. vm_compute. auto. Qed.

Definition created_db : DB := (Runtime_Create sample_runtime None sample_goal (performAll [] DB_empty)).1.
Definition created_view : BoardView :=
  match (Runtime_Create sample_runtime None sample_goal (performAll [] DB_empty)).2 with
  | Ok view => view | _ => mkBoardView "" 0 []
  end.

Lemma goal_created :
  Runtime_Create sample_runtime None sample_goal (performAll [] DB_empty) = (created_db, Ok created_view).
Proof. unfold created_db. apply pair_eq_fst. vm_compute. reflexivity. Qed.

Lemma demo_planned planner plan :
  sample_runtime.(Runtime_planner) = Some planner → planner None (goalRequest sample_goal) = Ok plan →
  plan = sample_plan.
Proof. intros [= <-] H. vm_compute in H. injection H as <-. vm_compute. reflexivity. Qed.

Lemma created_goal_is_recovered_witness :
  Runtime_Definition created_db "b" = Ok (sample_goal, sample_plan).
Proof.
  destruct (created_goal_is_recovered [] sample_runtime None sample_goal created_db created_view goal_created)
    as (planner & plan & Hpl & Hplan & Hdef).
  - intros E. assert (created_db.(boards) !! "b" = None) as Hn by (rewrite E; reflexivity).
    vm_compute in Hn. discriminate Hn.
  - vm_compute. reflexivity.
  - intros planner plan Hpl Hplan. rewrite (demo_planned _ _ Hpl Hplan).
    split; [vm_compute; reflexivity|]. intros d [= <-]. vm_compute. reflexivity.
  - vm_compute. by_decide.
  - rewrite (demo_planned _ _ Hpl Hplan) in Hdef. exact Hdef.
Defined.
