(* ===== verification/Process.v ===== *)
(** Processes and their program logic: programs that call their environment, and those
    that keep a state of their own. *)
From S2P Require Import Prelude.

(** Processes: programs that call their environment (the store, a clock, an
    executor, git) and continue with its answers, the histories they can produce,
    and a program logic for what every history satisfies. The answers are
    arbitrary, so a theorem about all histories of a process holds under any
    interference, failure or crash. *)

Section process.
Context {call : Type} {answer : call → Type}.

(** A process is finished, or makes a call and continues with the answer. *)
Inductive proc (A : Type) : Type :=
  | Done (a : A)
  | Invoke (c : call) (k : answer c → proc A).
Arguments Done {A} a.
Arguments Invoke {A} c k.

Fixpoint proc_bind {A B} (p : proc A) (f : A → proc B) : proc B :=
  match p with
  | Done a => f a
  | Invoke c k => Invoke c (λ r, proc_bind (k r) f)
  end.

Definition event : Type := sigT answer.
Definition history : Type := list event.

(** [trace p h p']: [p] can produce [h], and [p'] is what is left of it. *)
Inductive trace {A} : proc A → history → proc A → Prop :=
  | trace_nil p : trace p [] p
  | trace_cons c k r h p' : trace (k r) h p' → trace (Invoke c k) (existT c r :: h) p'.

(** After the history [h], whatever the answers are, [p] makes only calls that
    [ok] allows after the history at that point, and [Q] holds of the history
    and the value it ends with. *)
Fixpoint ensures {A} (ok : history → call → Prop) (p : proc A) (h : history)
  (Q : history → A → Prop) : Prop :=
  match p with
  | Done a => Q h a
  | Invoke c k => ok h c ∧ ∀ r, ensures ok (k r) (h ++ [existT c r]) Q
  end.

Lemma ensures_mono {A} ok (p : proc A) h (Q Q' : history → A → Prop) :
  ensures ok p h Q → (∀ h' a, h `prefix_of` h' → Q h' a → Q' h' a) → ensures ok p h Q'.
Proof.
  revert h. induction p as [a|c k IH]; cbn; intros h H HQ; [by apply HQ|].
  destruct H as [Hok H]. split; [done|]. intros r. apply IH; [apply H|].
  intros h' a Hh. apply HQ. etransitivity; [by apply prefix_app_r|exact Hh].
Qed.

Lemma ensures_weaken {A} (ok ok' : history → call → Prop) (p : proc A) h Q :
  ensures ok p h Q → (∀ h' c, h `prefix_of` h' → ok h' c → ok' h' c) → ensures ok' p h Q.
Proof.
  revert h. induction p as [a|c k IH]; cbn; intros h H Hok; [done|].
  destruct H as [Hc H]. split; [by apply Hok|]. intros r. apply IH; [apply H|].
  intros h' c' Hh. apply Hok. etransitivity; [by apply prefix_app_r|exact Hh].
Qed.

Lemma ensures_bind {A B} ok (p : proc A) (f : A → proc B) h Q :
  ensures ok p h (λ h' a, ensures ok (f a) h' Q) → ensures ok (proc_bind p f) h Q.
Proof.
  revert h. induction p as [a|c k IH]; cbn; intros h H; [done|].
  destruct H as [Hok H]. split; [done|]. intros r. apply IH, H.
Qed.

Lemma ensures_any {A} (p : proc A) h : ensures (λ _ _, True) p h (λ h' _, h `prefix_of` h').
Proof.
  revert h. induction p as [a|c k IH]; intros h; cbn; [done|]. split; [done|]. intros r.
  eapply ensures_mono; [apply IH|]. intros h' a _ Hh. etransitivity; [by apply prefix_app_r|exact Hh].
Qed.

(** Along a history, what is left of the process keeps its promise. *)
Lemma ensures_trace {A} ok (p p' : proc A) h0 h Q :
  trace p h p' → ensures ok p h0 Q → ensures ok p' (h0 ++ h) Q.
Proof.
  intros Ht. revert h0. induction Ht as [p|c k r h p' Ht IH]; intros h0 H; [by rewrite app_nil_r|].
  destruct H as [_ H]. specialize (IH _ (H r)). by rewrite <- app_assoc in IH.
Qed.

Lemma trace_split {A} (p p' : proc A) h1 h2 :
  trace p (h1 ++ h2) p' → ∃ q, trace p h1 q ∧ trace q h2 p'.
Proof.
  revert p. induction h1 as [|e h1 IH]; intros p H; [exists p; split; [constructor|done]|].
  cbn in H. inversion H as [|c k r h p0 Ht Hp Hh]; subst.
  destruct (IH _ Ht) as (q & ? & ?). exists q. split; [by constructor|done].
Qed.

Lemma trace_snoc {A} (p : proc A) h c k r : trace p h (Invoke c k) → trace p (h ++ [existT c r]) (k r).
Proof.
  intros H. remember (Invoke c k) as q eqn:Eq. induction H as [q|c' k' r' h q H IH]; subst.
  - apply trace_cons, trace_nil.
  - constructor. by apply IH.
Qed.

(** The calls of a history were all allowed when they were made. *)
Lemma ensures_calls {A} ok (p p' : proc A) h1 e h2 Q :
  ensures ok p [] Q → trace p (h1 ++ e :: h2) p' → ok h1 (projT1 e).
Proof.
  intros H Ht. apply trace_split in Ht as (q & Ht1 & Ht2). apply (ensures_trace _ _ _ _ _ _ Ht1) in H.
  inversion Ht2 as [|c k r h p0 _ Hq He]; subst. apply H.
Qed.

(** * Fallible processes *)

(** A Go function that calls its environment and may return an error. *)
Definition go (A : Type) : Type := proc (Prelude.result A).

Definition invoke (c : call) : proc (answer c) := Invoke c (λ r, Done r).

(** Errors and panics end the function. *)
#[export] Instance go_bind : MBind go := λ A B f m,
  proc_bind m (λ r, match r with Ok a => f a | Err e => Done (Err e) | Panic => Done Panic end).

Definition lift {A} (r : Prelude.result A) : go A := Done r.
Definition ret {A} (a : A) : go A := Done (Ok a).
Definition throw {A} (e : error) : go A := Done (Err e).

(** [value, err := m] where the error is inspected instead of returned. *)
Definition try {A} (m : go A) : go (Prelude.result A) :=
  proc_bind m (λ r, match r with Panic => Done Panic | _ => Done (Ok r) end).

(** A call that cannot fail. *)
Definition ask (c : call) : go (answer c) := proc_bind (invoke c) ret.

(** A [range] loop that carries state. *)
Fixpoint each {A S} (f : S → A → go S) (s : S) (l : list A) : go S :=
  match l with
  | [] => ret s
  | x :: l => go_bind _ _ (λ s, each f s l) (f s x)
  end.

Definition go_map_err {A} (f : error → error) (m : go A) : go A :=
  proc_bind m (λ r, Done (wrap_err f r)).

Lemma ensures_go_bind {A B} ok (m : go A) (f : A → go B) h (Q : history → Prelude.result B → Prop) :
  ensures ok m h (λ h' r, match r with
                          | Ok a => ensures ok (f a) h' Q | Err e => Q h' (Err e) | Panic => Q h' Panic end) →
  ensures ok (m ≫= f) h Q.
Proof.
  intros H. apply ensures_bind. eapply ensures_mono; [exact H|].
  intros h' r _ Hr. by destruct r.
Qed.

(** A step whose answer does not matter for what is returned. *)
Lemma ensures_past {A B} (m : go A) (f : A → go B) h0 h (R : history → B → Prop) :
  h0 `prefix_of` h →
  (∀ h1 a, h0 `prefix_of` h1 → ensures (λ _ _, True) (f a) h1
     (λ h' r, h0 `prefix_of` h' ∧ ∀ b, r = Ok b → R h' b)) →
  ensures (λ _ _, True) (m ≫= f) h (λ h' r, h0 `prefix_of` h' ∧ ∀ b, r = Ok b → R h' b).
Proof.
  intros Hh Hf. apply ensures_go_bind. eapply ensures_mono; [apply ensures_any|].
  intros h1 [a|e|] Hp _; [apply Hf|split..]; by try etransitivity.
Qed.

Lemma ensures_invoke (ok : history → call → Prop) c h (Q : history → answer c → Prop) :
  ok h c → (∀ r, Q (h ++ [existT c r]) r) → ensures ok (invoke c) h Q.
Proof. done. Qed.

Lemma ensures_ask (ok : history → call → Prop) c h (Q : history → Prelude.result (answer c) → Prop) :
  ok h c → (∀ r, Q (h ++ [existT c r]) (Ok r)) → ensures ok (ask c) h Q.
Proof. done. Qed.

Lemma ensures_try {A} ok (m : go A) h (Q : history → Prelude.result (Prelude.result A) → Prop) :
  ensures ok m h (λ h' r, match r with Panic => Q h' Panic | _ => Q h' (Ok r) end) → ensures ok (try m) h Q.
Proof. intros H. apply ensures_bind. eapply ensures_mono; [exact H|]. by intros h' [| |]. Qed.

Lemma ensures_map_err {A} ok f (m : go A) h (Q : history → Prelude.result A → Prop) :
  ensures ok m h (λ h' r, Q h' (wrap_err f r)) → ensures ok (go_map_err f m) h Q.
Proof. intros H. by apply ensures_bind. Qed.

(** A loop keeps an invariant of the history, of the elements it has passed and of
    its state. *)
Lemma ensures_each_prefix {A S} ok (f : S → A → go S) (Inv : history → list A → S → Prop)
    (Q : history → Prelude.result S → Prop) l s h :
  (∀ h before x after s, l = before ++ x :: after → Inv h before s → ensures ok (f s x) h (λ h' r,
     match r with Ok s' => Inv h' (before ++ [x]) s' | Err e => Q h' (Err e) | Panic => Q h' Panic end)) →
  (∀ h s, Inv h l s → Q h (Ok s)) →
  Inv h [] s → ensures ok (each f s l) h Q.
Proof.
  intros Hf HQ.
  enough (∀ rest before s h, l = before ++ rest → Inv h before s → ensures ok (each f s rest) h Q) as H
    by (intros; by eapply (H l [])).
  induction rest as [|x rest IH]; intros before s' h' -> Hi; [apply HQ; by rewrite app_nil_r|].
  cbn. apply ensures_go_bind. eapply ensures_mono; [by eapply Hf|].
  intros h1 [s1| |] _ H; [|exact H..]. apply (IH (before ++ [x])); [by rewrite <- app_assoc|exact H].
Qed.

Lemma ensures_each {A S} ok (f : S → A → go S) (Inv : history → S → Prop)
    (Q : history → Prelude.result S → Prop) l s h :
  (∀ h s x, x ∈ l → Inv h s → ensures ok (f s x) h (λ h' r,
     match r with Ok s' => Inv h' s' | Err e => Q h' (Err e) | Panic => Q h' Panic end)) →
  (∀ h s, Inv h s → Q h (Ok s)) →
  Inv h s → ensures ok (each f s l) h Q.
Proof.
  intros Hf HQ. apply (ensures_each_prefix _ _ (λ h _ s, Inv h s)); [|done].
  intros h' before x after s' ->. apply Hf. set_solver.
Qed.

(** * Processes all of whose calls are allowed, whatever came before *)

Definition always {A} (ok : history → call → Prop) (p : proc A) : Prop :=
  ∀ h, ensures ok p h (λ _ _, True).

(** Such a process makes calls of one kind only. *)
Definition only {A} (P : call → Prop) (p : proc A) : Prop := always (λ _ c, P c) p.

Lemma always_Done {A} ok (a : A) : always ok (Done a).
Proof. by intros h. Qed.

Lemma always_Invoke {A} (ok : history → call → Prop) c (k : answer c → proc A) :
  (∀ h, ok h c) → (∀ r, always ok (k r)) → always ok (Invoke c k).
Proof. intros Hc Hk h. split; [done|]. intros r. apply Hk. Qed.

Lemma always_proc_bind {A B} ok (p : proc A) (f : A → proc B) :
  always ok p → (∀ a, always ok (f a)) → always ok (proc_bind p f).
Proof.
  intros Hp Hf h. apply ensures_bind. eapply ensures_mono; [apply Hp|]. intros h' a _ _. apply Hf.
Qed.

Lemma always_bind {A B} ok (m : go A) (f : A → go B) :
  always ok m → (∀ a, always ok (f a)) → always ok (m ≫= f).
Proof. intros Hm Hf. apply always_proc_bind; [done|]. intros [a| |]; [apply Hf|apply always_Done..]. Qed.

Lemma always_ask (ok : history → call → Prop) c : (∀ h, ok h c) → always ok (ask c).
Proof. intros Hc. apply always_Invoke; [done|]. intros r. apply always_Done. Qed.

Lemma always_invoke (ok : history → call → Prop) c : (∀ h, ok h c) → always ok (invoke c).
Proof. intros Hc. apply always_Invoke; [done|]. intros r. apply always_Done. Qed.

Lemma always_try {A} ok (m : go A) : always ok m → always ok (try m).
Proof. intros Hm. apply always_proc_bind; [done|]. intros [| |]; apply always_Done. Qed.

Lemma always_map_err {A} ok f (m : go A) : always ok m → always ok (go_map_err f m).
Proof. intros Hm. apply always_proc_bind; [done|]. intros r. apply always_Done. Qed.

Lemma always_each {A S} ok (f : S → A → go S) s l : (∀ s x, always ok (f s x)) → always ok (each f s l).
Proof.
  intros Hf. revert s. induction l as [|x l IH]; intros s; [apply always_Done|]. cbn.
  by apply always_bind.
Qed.

Lemma always_mono {A} (ok ok' : history → call → Prop) (p : proc A) :
  (∀ h c, ok h c → ok' h c) → always ok p → always ok' p.
Proof. intros Hok Hp h. eapply ensures_weaken; [apply Hp|]. intros h' c _. apply Hok. Qed.

(** The events such a process adds are all of the kind. *)
Lemma only_events {A} P (p : proc A) h :
  only P p → ensures (λ _ c, P c) p h (λ h' _, ∃ more, h' = h ++ more ∧ Forall (λ e, P (projT1 e)) more).
Proof.
  intros Hp. specialize (Hp h). revert h Hp. induction p as [a|c k IH]; intros h; cbn.
  - intros _. exists []. by rewrite app_nil_r.
  - intros [Hc Hk]. split; [done|]. intros r. eapply ensures_mono; [by apply IH|].
    intros h' a _ (more & -> & Hm). exists (existT c r :: more). rewrite <- app_assoc. split; [done|].
    by constructor.
Qed.

Lemma only_trace {A} P (p p' : proc A) h : only P p → trace p h p' → Forall (λ e, P (projT1 e)) h.
Proof.
  intros Hp Ht. apply Forall_forall. intros e He. apply list_elem_of_split in He as (h1 & h2 & ->).
  by eapply (ensures_calls (λ _ c, P c)); [apply (Hp [])|].
Qed.

(** Calls that are allowed under a condition, once the condition holds and as it
    keeps holding. *)
Lemma always_under {A} (ok : history → call → Prop) (I : history → Prop) (p : proc A) h :
  (∀ h h', h `prefix_of` h' → I h → I h') → always (λ h c, I h → ok h c) p → I h →
  ensures ok p h (λ h' _, I h').
Proof.
  intros Hmono Hp Hi. specialize (Hp h). revert h Hp Hi. induction p as [a|c k IH]; intros h; cbn; [done|].
  intros [Hc Hk] Hi. split; [by apply Hc|]. intros r. apply IH; [apply Hk|].
  eapply Hmono; [|exact Hi]. by apply prefix_app_r.
Qed.

(** A postcondition of a process that is always allowed. *)
Lemma always_post {A} ok (p : proc A) h Q :
  always ok p → ensures (λ _ _, True) p h Q → ensures ok p h Q.
Proof.
  intros Hp. specialize (Hp h). revert h Hp. induction p as [a|c k IH]; intros h; cbn; [by intros _|].
  intros [Hc Hk] [_ HQ]. split; [done|]. intros r. apply IH; [apply Hk|apply HQ].
Qed.

Lemma always_post_under {A} (ok : history → call → Prop) (I : history → Prop) (p : proc A) h Q :
  (∀ h h', h `prefix_of` h' → I h → I h') → always (λ h c, I h → ok h c) p → I h →
  ensures (λ _ _, True) p h Q → ensures ok p h Q.
Proof.
  intros Hmono Hp Hi. specialize (Hp h). revert h Hp Hi. induction p as [a|c k IH]; intros h; cbn; [done|].
  intros [Hc Hk] Hi [_ HQ]. split; [by apply Hc|]. intros r. apply IH; [apply Hk| |apply HQ].
  eapply Hmono; [|exact Hi]. by apply prefix_app_r.
Qed.

(** * Processes that keep an invariant of the history *)

Definition holding {A} (ok : history → call → Prop) (I : history → Prop) (p : proc A) : Prop :=
  ∀ h, I h → ensures ok p h (λ h' _, I h').

Lemma holding_Done {A} ok I (a : A) : holding ok I (Done a).
Proof. by intros h Hi. Qed.

Lemma holding_proc_bind {A B} ok I (p : proc A) (f : A → proc B) :
  holding ok I p → (∀ a, holding ok I (f a)) → holding ok I (proc_bind p f).
Proof.
  intros Hp Hf h Hi. apply ensures_bind. eapply ensures_mono; [by apply Hp|]. intros h' a _ Hi'. by apply Hf.
Qed.

Lemma holding_always {A} ok (p : proc A) : always ok p → holding ok (λ _, True) p.
Proof. intros Hp h _. apply Hp. Qed.

(** What happened stays in the history. *)
Lemma event_kept (h h' : history) (e : event) : h `prefix_of` h' → e ∈ h → e ∈ h'.
Proof. intros [more ->] He. apply elem_of_app. by left. Qed.

End process.

Arguments proc {call} answer A.
Arguments Done {call answer A} a.
Arguments Invoke {call answer A} c k.
Arguments event {call} answer.
Arguments history {call} answer.
Arguments go {call} answer A.

(** Decomposes [always ok p] along the structure of the program [p]. *)
Ltac walk_once :=
  unfold only;
  lazymatch goal with |- always _ ?p =>
    lazymatch p with
    | Done _ => apply always_Done
    | ret _ => apply always_Done
    | throw _ => apply always_Done
    | lift _ => apply always_Done
    | @invoke ?C ?a ?c => apply (@always_invoke C a _ c); intros ?; try exact I
    | @ask ?C ?a ?c => apply (@always_ask C a _ c); intros ?; try exact I
    | try _ => apply always_try
    | go_map_err _ _ => apply always_map_err
    | each _ _ _ => apply always_each; intros ? ?
    | mbind _ _ => apply always_bind; [|intros ?]
    | go_bind _ _ _ _ => apply always_bind; [|intros ?]
    | proc_bind _ _ => apply always_proc_bind; [|intros ?]
    | match ?x with _ => _ end => destruct x
    end
  end.
Ltac walk := repeat (walk_once; cbn beta).

(** The tactics of an environment extend these two: [unwrap] goes into a call that has
    a name, [ensures_call] makes one call in a goal [ensures ok (call) h Q]. *)
Ltac unwrap := fail.
Ltac ensures_call :=
  lazymatch goal with |- ensures _ ?p _ _ =>
    lazymatch p with
    | @ask ?C ?a ?c => apply (@ensures_ask C a _ c)
    | @invoke ?C ?a ?c => apply (@ensures_invoke C a _ c)
    end
  end.

(** Fallible processes that keep a state of their own: a method of a Go object that
    calls its environment, changes the fields of its receiver and may return an
    error. What it has changed stays changed when it returns an error. *)

Section stateful.
Context {call : Type} {answer : call → Type} {S : Type}.
Abbreviation go A := (go answer A).
Abbreviation proc A := (proc answer A).
Abbreviation event := (event answer).
Abbreviation history := (history answer).

Definition method (A : Type) : Type := S → proc (S * result A).

#[export] Instance stateful_bind : MBind method := λ A B f m s,
  proc_bind (m s) (λ '(s, r), match r with Ok a => f a s | Err e => Done (s, Err e) | Panic => Done (s, Panic) end).

Definition done {A} (a : A) : method A := λ s, Done (s, Ok a).
Definition fail {A} (e : error) : method A := λ s, Done (s, Err e).
Definition get : method S := λ s, Done (s, Ok s).
Definition update (f : S → S) : method unit := λ s, Done (f s, Ok tt).
Definition calls {A} (m : go A) : method A := λ s, proc_bind m (λ r, Done (s, r)).

(** [if err := m; err != nil] where the error is inspected instead of returned. *)
Definition attempt {A} (m : method A) : method (result A) := λ s,
  proc_bind (m s) (λ '(s, r), match r with Panic => Done (s, Panic) | _ => Done (s, Ok r) end).

Definition fails_with {A} (f : error → error) (m : method A) : method A := λ s,
  proc_bind (m s) (λ '(s, r), Done (s, wrap_err f r)).

Fixpoint foreach {A} (f : A → method unit) (l : list A) : method unit :=
  match l with [] => done tt | x :: l => stateful_bind _ _ (λ _, foreach f l) (f x) end.

(** * Program logic *)

Lemma ensures_state_bind {A B} ok (m : method A) (f : A → method B) s h Q :
  ensures ok (m s) h (λ h' '(s', r), match r with
    | Ok a => ensures ok (f a s') h' Q | Err e => Q h' (s', Err e) | Panic => Q h' (s', Panic) end) →
  ensures ok ((m ≫= f) s) h Q.
Proof. intros H. apply ensures_bind. eapply ensures_mono; [exact H|]. by intros h' [s' [a|e|]] _ Hr. Qed.

Lemma ensures_get_bind {B} ok (f : S → method B) s h Q : ensures ok (f s s) h Q → ensures ok ((get ≫= f) s) h Q.
Proof. done. Qed.

Lemma ensures_update_bind {B} ok g (f : unit → method B) s h Q :
  ensures ok (f tt (g s)) h Q → ensures ok ((update g ≫= f) s) h Q.
Proof. done. Qed.

Lemma ensures_state_calls {A} ok (m : go A) s h (Q : history → S * result A → Prop) :
  ensures ok m h (λ h' r, Q h' (s, r)) → ensures ok (calls m s) h Q.
Proof. intros H. by apply ensures_bind. Qed.

Lemma ensures_attempt {A} ok (m : method A) s h Q :
  ensures ok (m s) h (λ h' '(s', r), match r with Panic => Q h' (s', Panic) | _ => Q h' (s', Ok r) end) →
  ensures ok (attempt m s) h Q.
Proof. intros H. apply ensures_bind. eapply ensures_mono; [exact H|]. by intros h' [s' [a|e|]] _ Hr. Qed.

(** [keeps ok I m Q]: started with a state and a history that satisfy [I], [m] makes
    only calls [ok] allows, and ends in [Q]. *)
Definition keeps {A} (ok : history → call → Prop) (I : history → S → Prop) (m : method A)
    (Q : history → S → result A → Prop) : Prop :=
  ∀ h s, I h s → ensures ok (m s) h (λ h' '(s', r), Q h' s' r).

Lemma keeps_bind {A B} ok (I : history → S → Prop) (m : method A) (f : A → method B)
    (R : A → history → S → Prop) (Q : history → S → result B → Prop) :
  keeps ok I m (λ h s r, match r with Ok a => R a h s | Err e => Q h s (Err e) | Panic => Q h s Panic end) →
  (∀ a, keeps ok (R a) (f a) Q) → keeps ok I (m ≫= f) Q.
Proof.
  intros Hm Hf h s Hi. apply ensures_bind. eapply ensures_mono; [by apply Hm|].
  intros h' [s' [a|e|]] _ Hr; [by apply Hf|exact Hr..].
Qed.

Lemma keeps_weaken {A} ok (I I' : history → S → Prop) (m : method A) (Q Q' : history → S → result A → Prop) :
  (∀ h s, I' h s → I h s) → (∀ h s r, Q h s r → Q' h s r) → keeps ok I m Q → keeps ok I' m Q'.
Proof.
  intros Hi Hq Hm h s Hs. eapply ensures_mono; [by apply Hm, Hi|]. intros h' [s' r] _. apply Hq.
Qed.

Lemma keeps_done {A} ok (I : history → S → Prop) (a : A) (Q : history → S → result A → Prop) :
  (∀ h s, I h s → Q h s (Ok a)) → keeps ok I (done a) Q.
Proof. intros H h s Hi. by apply H. Qed.

Lemma keeps_get ok (I : history → S → Prop) (Q : history → S → result S → Prop) :
  (∀ h s, I h s → Q h s (Ok s)) → keeps ok I get Q.
Proof. intros H h s Hi. by apply H. Qed.

Lemma keeps_update ok (I : history → S → Prop) f (Q : history → S → result unit → Prop) :
  (∀ h s, I h s → Q h (f s) (Ok tt)) → keeps ok I (update f) Q.
Proof. intros H h s Hi. by apply H. Qed.

Lemma keeps_calls {A} ok (I : history → S → Prop) (m : go A) (Q : history → S → result A → Prop) :
  (∀ h s, I h s → ensures ok m h (λ h' r, Q h' s r)) → keeps ok I (calls m) Q.
Proof. intros H h s Hi. apply ensures_bind. by apply H. Qed.

Lemma keeps_attempt {A} ok (I : history → S → Prop) (m : method A) (Q : history → S → result (result A) → Prop) :
  keeps ok I m (λ h s r, match r with Panic => Q h s Panic | _ => Q h s (Ok r) end) → keeps ok I (attempt m) Q.
Proof.
  intros Hm h s Hi. apply ensures_bind. eapply ensures_mono; [by apply Hm|]. by intros h' [s' [a|e|]] _ Hr.
Qed.

Lemma keeps_fails_with {A} ok f (I : history → S → Prop) (m : method A) (Q : history → S → result A → Prop) :
  keeps ok I m (λ h s r, Q h s (wrap_err f r)) → keeps ok I (fails_with f m) Q.
Proof. intros Hm h s Hi. apply ensures_bind. eapply ensures_mono; [by apply Hm|]. by intros h' [s' r] _ Hr. Qed.

Lemma keeps_foreach {A} ok (I : list A → history → S → Prop) (f : A → method unit) l
    (Q : history → S → result unit → Prop) :
  (∀ before x after, l = before ++ x :: after → keeps ok (I before) (f x) (λ h s r,
     match r with Ok _ => I (before ++ [x]) h s | Err e => Q h s (Err e) | Panic => Q h s Panic end)) →
  (∀ h s, I l h s → Q h s (Ok tt)) → keeps ok (I []) (foreach f l) Q.
Proof.
  intros Hf HQ.
  enough (∀ rest before, l = before ++ rest → keeps ok (I before) (foreach f rest) Q) as H by by apply (H l []).
  induction rest as [|x rest IH]; intros before E; cbn.
  - apply keeps_done. intros h s Hi. apply HQ. by rewrite E, app_nil_r.
  - apply (keeps_bind _ _ _ _ (λ _, I (before ++ [x]))); [by eapply Hf|].
    intros _. apply IH. by rewrite <- app_assoc.
Qed.

(** Processes that keep an invariant of the history. *)
Lemma holding_bind {A B} ok I (m : method A) (f : A → method B) s :
  holding ok I (m s) → (∀ a s, holding ok I (f a s)) → holding ok I ((m ≫= f) s).
Proof.
  intros Hm Hf. apply holding_proc_bind; [exact Hm|]. intros [s' [a|e|]]; [apply Hf|apply holding_Done..].
Qed.

Lemma holding_calls {A} ok I (m : go A) s : holding ok I m → holding ok I (calls m s).
Proof. intros Hm. apply holding_proc_bind; [exact Hm|]. intros r. apply holding_Done. Qed.

Lemma holding_fails_with {A} ok I f (m : method A) s : holding ok I (m s) → holding ok I (fails_with f m s).
Proof. intros Hm. apply holding_proc_bind; [exact Hm|]. intros [s' r]. apply holding_Done. Qed.

(** Processes that keep an invariant of the history and the state, also when they fail. *)
Definition maintains {A} (ok : history → call → Prop) (I : history → S → Prop) (m : method A) : Prop :=
  keeps ok I m (λ h s _, I h s).

Lemma maintains_bind {A B} ok I (m : method A) (f : A → method B) :
  maintains ok I m → (∀ a, maintains ok I (f a)) → maintains ok I (m ≫= f).
Proof.
  intros Hm Hf. apply (keeps_bind _ _ _ _ (λ _, I)); [|exact Hf].
  eapply keeps_weaken; [| |exact Hm]; [done|]. by intros h s [a|e|].
Qed.
Lemma maintains_pure {A} ok I (r : result A) : maintains ok I (λ s, Done (s, r)).
Proof. by intros h s Hi. Qed.
Lemma maintains_done {A} ok I (a : A) : maintains ok I (done a).
Proof. apply maintains_pure. Qed.
Lemma maintains_fail {A} ok I e : maintains ok I (@fail A e).
Proof. apply maintains_pure. Qed.
Lemma maintains_get ok I : maintains ok I get.
Proof. by intros h s Hi. Qed.
Lemma maintains_update ok (I : history → S → Prop) f : (∀ h s, I h s → I h (f s)) → maintains ok I (update f).
Proof. intros Hf h s Hi. by apply Hf. Qed.
Lemma maintains_attempt {A} ok I (m : method A) : maintains ok I m → maintains ok I (attempt m).
Proof. intros Hm. apply keeps_attempt. eapply keeps_weaken; [| |exact Hm]; [done|]. by intros h s [a|e|]. Qed.
Lemma maintains_fails_with {A} ok I f (m : method A) : maintains ok I m → maintains ok I (fails_with f m).
Proof. intros Hm. by apply keeps_fails_with. Qed.
Lemma maintains_foreach {A} ok I (f : A → method unit) l :
  (∀ x, maintains ok I (f x)) → maintains ok I (foreach f l).
Proof. intros Hf. induction l as [|x l IH]; [apply maintains_done|]. by apply maintains_bind. Qed.

(** Calls of a kind that is allowed and keeps the invariant. *)
Lemma maintains_calls {A} ok (I : history → S → Prop) (P : call → Prop) (m : go A) :
  (∀ h s c, P c → I h s → ok h c ∧ ∀ r, I (h ++ [existT c r]) s) → only P m → maintains ok I (calls m).
Proof.
  intros HP Hm h s Hi. apply ensures_state_calls. specialize (Hm h). revert h Hm Hi.
  induction m as [a|c k IH]; intros h; cbn; [done|]. intros [Hc Hk] Hi. destruct (HP h s c Hc Hi) as [Hok Hr].
  split; [done|]. intros r. apply IH; [apply Hk|apply Hr].
Qed.

(** Calls that are always allowed. *)
Definition allows {A} (ok : history → call → Prop) (m : method A) : Prop := ∀ s, always ok (m s).

Lemma allows_bind {A B} ok (m : method A) (f : A → method B) :
  allows ok m → (∀ a, allows ok (f a)) → allows ok (m ≫= f).
Proof.
  intros Hm Hf s. apply always_proc_bind; [apply Hm|]. intros [s' [a|e|]]; [apply Hf|apply always_Done..].
Qed.
Lemma allows_done {A} ok (a : A) : allows ok (done a).
Proof. intros s. apply always_Done. Qed.
Lemma allows_fail {A} ok e : allows ok (@fail A e).
Proof. intros s. apply always_Done. Qed.
Lemma allows_get ok : allows ok get.
Proof. intros s. apply always_Done. Qed.
Lemma allows_update ok f : allows ok (update f).
Proof. intros s. apply always_Done. Qed.
Lemma allows_calls {A} ok (m : go A) : always ok m → allows ok (calls m).
Proof. intros Hm s. apply always_proc_bind; [done|]. intros r. apply always_Done. Qed.
Lemma allows_attempt {A} ok (m : method A) : allows ok m → allows ok (attempt m).
Proof. intros Hm s. apply always_proc_bind; [done|]. intros [s' [| |]]; apply always_Done. Qed.
Lemma allows_fails_with {A} ok f (m : method A) : allows ok m → allows ok (fails_with f m).
Proof. intros Hm s. apply always_proc_bind; [done|]. intros [s' r]. apply always_Done. Qed.
Lemma allows_foreach {A} ok (f : A → method unit) l : (∀ x, allows ok (f x)) → allows ok (foreach f l).
Proof.
  intros Hf. induction l as [|x l IH]; cbn; [apply allows_done|]. by apply allows_bind.
Qed.

End stateful.
Arguments method {call} answer S A.

(** Decomposes [allows ok m] along the structure of [m]. *)
Ltac walk_state_once :=
  lazymatch goal with
  | |- allows _ ?m =>
    lazymatch m with
    | done _ => apply allows_done
    | fail _ => apply allows_fail
    | get => apply allows_get
    | update _ => apply allows_update
    | calls _ => apply allows_calls
    | attempt _ => apply allows_attempt
    | fails_with _ _ => apply allows_fails_with
    | foreach _ _ => apply allows_foreach; intros ?
    | mbind _ _ => apply allows_bind; [|intros ?]
    | stateful_bind _ _ _ _ => apply allows_bind; [|intros ?]
    | match ?x with _ => _ end => destruct x
    end
  | |- always _ _ => first [walk_once | unwrap]
  end.
Ltac walk_state := repeat (walk_state_once; cbn beta).

(** Decomposes [maintains ok I m] down to its calls and updates. *)
Ltac walk_maintains_once :=
  lazymatch goal with
  | |- maintains _ _ ?m =>
    lazymatch m with
    | done _ => apply maintains_done
    | fail _ => apply maintains_fail
    | get => apply maintains_get
    | attempt _ => apply maintains_attempt
    | fails_with _ _ => apply maintains_fails_with
    | foreach _ _ => apply maintains_foreach; intros ?
    | mbind _ _ => apply maintains_bind; [|intros ?]
    | stateful_bind _ _ _ _ => apply maintains_bind; [|intros ?]
    | match ?x with _ => _ end => destruct x
    end
  end.
Ltac walk_maintains := repeat (walk_maintains_once; cbn beta).

(** The next call of a stateful process in a goal [ensures ok ((calls m ≫= f) s) h Q]. *)
Ltac ensures_state_call :=
  apply ensures_state_bind, ensures_state_calls; ensures_call.
