(* ===== verification/Environment.v ===== *)
(** What the processes of the execution side call: the store and the runtime, the
    clock, the executor, the judge, the artifact store, the commands of the
    project gate, and git. The data these calls carry is that of
    internal/agoboardruntime/runtime.go, internal/agoartifact/store.go and
    internal/agoverify/verify.go. *)
From S2P Require Import Prelude Sql Paths Planner Protocol Validate Database Store Runtime.
From S2P Require Import Process.

(** * The libraries of the language *)

(** [fmt.Sprintf] and [Regexp.ReplaceAllString], by the expression it was compiled
    from. *)
Class GoLib : Type := {
  fmt_Sprintf : string → list (arg error) → string;
  regexp_ReplaceAllString : string → string → string → string;
  error_Error : error → string;
}.

(** [strings.ReplaceAll] for a separator that is not empty: occurrences from the
    left, without overlap; [skip] counts the bytes of a replaced occurrence. *)
Fixpoint replaceFrom (skip : nat) (s old new : string) : string :=
  match s with
  | EmptyString => EmptyString
  | String c s' =>
      match skip with
      | S skip => replaceFrom skip s' old new
      | O => if String.prefix old s then new +:+ replaceFrom (Nat.pred (String.length old)) s' old new
             else String c (replaceFrom 0 s' old new)
      end
  end.
Definition strings_ReplaceAll (s old new : string) : string := replaceFrom 0 s old new.

(** [strings.Fields]: the maximal runs of bytes that are not space. *)
Fixpoint fieldsFrom (fuel : nat) (word l : list Ascii.ascii) : list string :=
  let flush := match word with [] => [] | _ => [String.string_of_list_ascii (reverse word)] end in
  match fuel with
  | O => flush
  | S fuel =>
      match first_strip spaceRunes l with
      | Some l' => flush ++ fieldsFrom fuel [] l'
      | None => match l with [] => flush | c :: l' => fieldsFrom fuel (c :: word) l' end
      end
  end.
Definition strings_Fields (s : string) : list string :=
  let l := String.list_ascii_of_string s in fieldsFrom (S (length l)) [] l.

Definition strings_TrimSuffix (s suf : string) : string :=
  if strings_HasSuffix s suf then String.substring 0 (String.length s - String.length suf) s else s.
Definition strings_TrimPrefix (s p : string) : string :=
  if strings_HasPrefix s p then String.substring (String.length p) (String.length s - String.length p) s
  else s.

Definition quote : string := String (Ascii.ascii_of_nat 34) "".
Definition newline : string := String (Ascii.ascii_of_nat 10) "".

(** * The data of the calls *)

Record Dispatch : Type := mkDispatch {
  Dispatch_Goal : Goal; Dispatch_Task : TaskProposal; Dispatch_AttemptID : string;
  Dispatch_WorkerID : string; Dispatch_AttemptNumber : Z; Dispatch_BaseRevision : string;
}.

Record ExecutionResult : Type := mkExecutionResult {
  ExecutionResult_Artifact : string; ExecutionResult_Summary : string;
  ExecutionResult_Result : EvidenceResult;
}.

(** The error of an executor, with the class [errors.As] finds in its chain. *)
Record ExecutionError : Type := mkExecutionError {
  ExecutionError_Error : string; ExecutionError_FailureClass : option FailureClass;
}.

Record Descriptor : Type := mkDescriptor {
  Descriptor_ID : string; Descriptor_Type : string; Descriptor_DisplayName : string;
  Descriptor_Bytes : Z; Descriptor_SHA256 : string; Descriptor_CreatedAt : Time;
}.

Definition Decision : Type := string.
Definition DecisionAccept : Decision := "accept".
Definition DecisionRetry : Decision := "retry_with_feedback".
Definition DecisionNeedsInput : Decision := "blocked_needs_input".
Definition DecisionBlockedPolicy : Decision := "blocked_policy".

Record CriterionOutcome : Type := mkCriterionOutcome {
  CriterionOutcome_Criterion : string; CriterionOutcome_Passed : bool; CriterionOutcome_Reason : string;
}.

Record JudgeInput : Type := mkJudgeInput {
  JudgeInput_Objective : string; JudgeInput_TaskID : string; JudgeInput_AttemptNumber : Z;
  JudgeInput_TaskTitle : string; JudgeInput_TaskDescription : string;
  JudgeInput_AcceptanceCriteria : list string; JudgeInput_Evidence : EvidenceResult;
  JudgeInput_EvidenceID : string; JudgeInput_ArtifactIDs : list string;
  JudgeInput_TestNames : list string; JudgeInput_BaseRevision : string; JudgeInput_PatchText : string;
}.

Record JudgeVerdict : Type := mkJudgeVerdict {
  JudgeVerdict_Decision : Decision; JudgeVerdict_Summary : string;
  JudgeVerdict_Criteria : list CriterionOutcome; JudgeVerdict_RepairFeedback : string;
  JudgeVerdict_MissingInput : string;
}.

(** * The calls *)

(** A command run by [exec.CommandContext] with its standard input; the answer is
    its standard output, its standard error, and the error of [Run]. *)
Inductive call : Type :=
  | CallBoard (boardID : string)
  | CallBoardIDs
  | CallDefinition (boardID : string)
  | CallApplyBoard (boardID : string) (command : Command)
  | CallClaim (request : ClaimRequest)
  | CallExpireDueLeases (now : Time) (actor : Actor)
  | CallApplyBoardWithProposal (boardID : string) (command : Command) (proposal : TaskProposal)
  | CallStoredPlan (boardID : string)
  | CallCompletion (boardID : string)
  | CallNow
  | CallContextErr
  | CallWait (delay : Duration)
  | CallExecute (work : Dispatch)
  | CallJudge (input : JudgeInput)
  | CallArtifactVerify (descriptor : Descriptor)
  | CallArtifactBytes (descriptor : Descriptor)
  | CallCheck (dir name : string) (args : list string)
  | CallExec (dir name : string) (args : list string) (stdin : string)
  | CallMkdirTemp (root pattern : string)
  | CallRemoveAll (dir : string).

Definition answer (c : call) : Type :=
  match c with
  | CallBoard _ => result Board
  | CallBoardIDs => result (list string)
  | CallDefinition _ => result (Goal * Plan)
  | CallApplyBoard _ _ => result Result
  | CallClaim _ => result ClaimResult
  | CallExpireDueLeases _ _ => result (list Result)
  | CallApplyBoardWithProposal _ _ _ => result Result
  | CallStoredPlan _ => result Plan
  | CallCompletion _ => result Completion
  | CallNow => Time
  | CallContextErr | CallWait _ => option error
  | CallExecute _ => ExecutionResult * option ExecutionError
  | CallJudge _ => result JudgeVerdict
  | CallArtifactVerify _ => result unit
  | CallArtifactBytes _ => result string
  | CallCheck _ _ _ => string * Z * option error
  | CallExec _ _ _ _ => string * string * option error
  | CallMkdirTemp _ _ => result string
  | CallRemoveAll _ => unit
  end.

Abbreviation go A := (go answer A).
Abbreviation proc A := (proc answer A).
Abbreviation event := (event answer).
Abbreviation history := (history answer).
Abbreviation stateful S A := (method answer S A).

(** A call whose answer may be an error. *)
Definition Store_Board (boardID : string) : go Board := invoke (CallBoard boardID).
Definition Store_BoardIDs : go (list string) := invoke CallBoardIDs.
Definition Runtime_definition (boardID : string) : go (Goal * Plan) := invoke (CallDefinition boardID).
Definition Store_ApplyBoard (boardID : string) (command : Command) : go Result :=
  invoke (CallApplyBoard boardID command).
Definition Store_Claim (request : ClaimRequest) : go ClaimResult := invoke (CallClaim request).
Definition Store_ExpireDueLeases (now : Time) (actor : Actor) : go (list Result) :=
  invoke (CallExpireDueLeases now actor).
Definition Store_ApplyBoardWithProposal (boardID : string) (command : Command) (proposal : TaskProposal)
  : go Result := invoke (CallApplyBoardWithProposal boardID command proposal).
Definition Store_StoredPlan (boardID : string) : go Plan := invoke (CallStoredPlan boardID).
Definition Store_completion (boardID : string) : go Completion := invoke (CallCompletion boardID).
Definition Artifacts_Verify (descriptor : Descriptor) : go unit := invoke (CallArtifactVerify descriptor).
Definition Artifacts_Bytes (descriptor : Descriptor) : go string := invoke (CallArtifactBytes descriptor).
Definition Judge_Judge (input : JudgeInput) : go JudgeVerdict := invoke (CallJudge input).
Definition os_MkdirTemp (root pattern : string) : go string := invoke (CallMkdirTemp root pattern).
Definition os_RemoveAll (dir : string) : go unit := ask (CallRemoveAll dir).
Definition Now : go Time := ask CallNow.

(** [if err := ctx.Err(); err != nil { return err }] *)
Definition checkContext : go unit :=
  cancelled ← ask CallContextErr; match cancelled with Some err => throw err | None => ret tt end.

(** [defer cleanup()] around the rest of a function. *)
Definition deferred {A} (cleanup : go unit) (body : go A) : go A :=
  proc_bind body (λ r, proc_bind cleanup (λ _, Done r)).

(** Calls that neither touch the store nor start an executor. *)
Definition quiet (c : call) : Prop :=
  match c with
  | CallBoard _ | CallBoardIDs | CallDefinition _ | CallApplyBoard _ _ | CallClaim _
  | CallExpireDueLeases _ _ | CallApplyBoardWithProposal _ _ _ | CallStoredPlan _ | CallCompletion _
  | CallExecute _ => False
  | _ => True
  end.

(** [walk] that also passes through the functions above. *)
Ltac unwrap ::=
  unfold only;
  lazymatch goal with |- always _ ?p =>
    lazymatch p with
    | Store_Board ?b => apply (always_invoke _ (CallBoard b)); intros ?; try exact I
    | Store_BoardIDs => apply (always_invoke _ CallBoardIDs); intros ?; try exact I
    | Runtime_definition ?b => apply (always_invoke _ (CallDefinition b)); intros ?; try exact I
    | Store_ApplyBoard ?b ?c => apply (always_invoke _ (CallApplyBoard b c)); intros ?; try exact I
    | Store_Claim ?r => apply (always_invoke _ (CallClaim r)); intros ?; try exact I
    | Store_ExpireDueLeases ?n ?a => apply (always_invoke _ (CallExpireDueLeases n a)); intros ?; try exact I
    | Store_ApplyBoardWithProposal ?b ?c ?p =>
        apply (always_invoke _ (CallApplyBoardWithProposal b c p)); intros ?; try exact I
    | Store_StoredPlan ?b => apply (always_invoke _ (CallStoredPlan b)); intros ?; try exact I
    | Store_completion ?b => apply (always_invoke _ (CallCompletion b)); intros ?; try exact I
    | Artifacts_Verify ?d => apply (always_invoke _ (CallArtifactVerify d)); intros ?; try exact I
    | Artifacts_Bytes ?d => apply (always_invoke _ (CallArtifactBytes d)); intros ?; try exact I
    | Judge_Judge ?i => apply (always_invoke _ (CallJudge i)); intros ?; try exact I
    | os_MkdirTemp ?r ?p => apply (always_invoke _ (CallMkdirTemp r p)); intros ?; try exact I
    | os_RemoveAll ?d => apply (always_ask _ (CallRemoveAll d)); intros ?; try exact I
    | Now => apply (always_ask _ CallNow); intros ?; try exact I
    | checkContext => unfold checkContext
    | deferred _ _ => unfold deferred
    end
  end.
Ltac walk_calls := repeat (first [walk_once | unwrap]; cbn beta).

(** One call of a process in a goal [ensures ok (call) h Q]. *)
Ltac ensures_call ::=
  lazymatch goal with |- ensures _ ?p _ _ =>
    lazymatch p with
    | @ask ?C ?a ?c => apply (@ensures_ask C a _ c)
    | @invoke ?C ?a ?c => apply (@ensures_invoke C a _ c)
    | Store_Board ?b => apply (@ensures_invoke call answer _ (CallBoard b))
    | Store_BoardIDs => apply (@ensures_invoke call answer _ CallBoardIDs)
    | Runtime_definition ?b => apply (@ensures_invoke call answer _ (CallDefinition b))
    | Store_ApplyBoard ?b ?c => apply (@ensures_invoke call answer _ (CallApplyBoard b c))
    | Store_Claim ?r => apply (@ensures_invoke call answer _ (CallClaim r))
    | Store_ExpireDueLeases ?n ?a => apply (@ensures_invoke call answer _ (CallExpireDueLeases n a))
    | Store_ApplyBoardWithProposal ?b ?c ?p =>
        apply (@ensures_invoke call answer _ (CallApplyBoardWithProposal b c p))
    | Store_StoredPlan ?b => apply (@ensures_invoke call answer _ (CallStoredPlan b))
    | Store_completion ?b => apply (@ensures_invoke call answer _ (CallCompletion b))
    | os_MkdirTemp ?r ?p => apply (@ensures_invoke call answer _ (CallMkdirTemp r p))
    | os_RemoveAll ?d => apply (@ensures_ask call answer _ (CallRemoveAll d))
    | Now => apply (@ensures_ask call answer _ CallNow)
    end
  end.
