(* ===== verification/Verify.v ===== *)
(** What judges the work: redaction, the verification of evidence and the project gate
    (internal/agoredact, internal/agoverify, internal/agogate). *)
From S2P Require Import Prelude Paths Protocol Process Environment.

(** Redaction of credential-shaped content: internal/agoredact/redact.go. *)

Definition Placeholder : string := "[REDACTED]".
Definition maxScannedLine : Z := (64 * 1024)%Z.

Definition secretKeys : list string :=
  ["authorization"; "proxy-authorization"; "api_key"; "api-key"; "apikey";
   "access_token"; "refresh_token"; "id_token"; "token";
   "password"; "passwd"; "secret"; "client_secret"; "session"; "cookie"; "set-cookie";
   "private_key"; "privatekey"].

(** The source text of the expressions. *)
Definition patterns : list string :=
  ["(?i)\b(bearer|basic|token)\s+[A-Za-z0-9._\-+/=]{8,}";
   "(?i)\b(" +:+ strings_Join secretKeys "|" +:+ ")\b(\s*[:=]\s*|" +:+ quote +:+ "\s*:\s*)" +:+ quote
     +:+ "?[^" +:+ quote +:+ "'\s,;}&]{4,}" +:+ quote +:+ "?";
   "(?i)\b([a-z][a-z0-9+.\-]*://)[^/\s:@]+:[^/\s@]+@";
   "(?i)([?&](?:" +:+ strings_Join secretKeys "|" +:+ ")=)[^&\s]+";
   "\bsk-[A-Za-z0-9_\-]{16,}";
   "\bsk-ant-[A-Za-z0-9_\-]{16,}";
   "\bgh[pousr]_[A-Za-z0-9]{16,}";
   "\bAKIA[0-9A-Z]{16}\b";
   "-----BEGIN [A-Z ]*PRIVATE KEY-----"].

Definition EnvironmentNames : list string :=
  ["AGO_PROVIDER_API_KEY"; "ANTHROPIC_API_KEY"; "OPENAI_API_KEY"; "CLAUDE_CODE_OAUTH_TOKEN";
   "GITHUB_TOKEN"; "GH_TOKEN"; "AWS_SECRET_ACCESS_KEY"; "AWS_SESSION_TOKEN"].

Record Redactor : Type := mkRedactor { literals : list string }.

Definition Redactor_New (values : list string) : Redactor :=
  mkRedactor (List.filter (λ literal, (8 <=? String.length (strings_TrimSpace literal))%nat) values).

Definition NewFromEnvironment (lookup : string → string) : Redactor :=
  Redactor_New (List.filter (λ value, value != "") (lookup <$> EnvironmentNames)).

Section redact.
Context {golib : GoLib}.

Definition replacement (index : nat) : string :=
  match index with
  | 1 => "$1=" +:+ Placeholder
  | 2 => "${1}" +:+ Placeholder +:+ "@"
  | 3 => "${1}" +:+ Placeholder
  | _ => Placeholder
  end.

Definition applyPatterns (value : string) : string :=
  foldl (λ value '(index, pattern), regexp_ReplaceAllString pattern value (replacement index)) value
    (imap pair patterns).

(** The chunks [value[start:end]] of [redactLong], by their starts. *)
Definition chunkStarts (length : Z) : list Z :=
  (λ i, Z.of_nat i * maxScannedLine)%Z <$> seq 0 (Z.to_nat ((length + maxScannedLine - 1) / maxScannedLine)).

Definition redactLong (value : string) : string :=
  strings_Join ((λ start, applyPatterns (String.substring (Z.to_nat start) (Z.to_nat maxScannedLine) value))
    <$> chunkStarts (Z.of_nat (String.length value))) "".

Definition replaceLiteral (value literal : string) : string :=
  if strings_Contains value literal then strings_ReplaceAll value literal Placeholder else value.

Definition Redactor_String (r : Redactor) (value : string) : string :=
  if value == "" then value else
  let value := foldl replaceLiteral value r.(literals) in
  if (maxScannedLine <? Z.of_nat (String.length value))%Z then redactLong value else applyPatterns value.

Definition Redactor_Strings (r : Redactor) (values : list string) : list string := Redactor_String r <$> values.

End redact.

(** The verification of submitted evidence: internal/agoverify/verify.go.
    Deterministic checks come first, then the judge, whose acceptance is checked. *)

Record VerifyResult : Type := mkVerifyResult {
  VerifyResult_Decision : Decision; VerifyResult_Reason : string; VerifyResult_Deterministic : bool;
  VerifyResult_Criteria : list CriterionOutcome;
}.

Record VerifyInput : Type := mkVerifyInput {
  VerifyInput_Objective : string; VerifyInput_TaskID : string; VerifyInput_AttemptNumber : Z;
  VerifyInput_TaskTitle : string; VerifyInput_TaskDescription : string;
  VerifyInput_AcceptanceCriteria : list string; VerifyInput_AllowedPathScopes : list string;
  VerifyInput_Evidence : Evidence; VerifyInput_EvidenceID : string;
  VerifyInput_IntegratedRevision : string;
}.

(** The interfaces [Artifacts] and [Judge]. *)
Record Artifacts : Type := mkArtifacts {
  Artifacts_verify : Descriptor → go unit; Artifacts_bytes : Descriptor → go string;
}.

Record VerifierOptions : Type := mkVerifierOptions {
  VerifierOptions_Judge : JudgeInput → go JudgeVerdict; VerifierOptions_Artifacts : option Artifacts;
}.

Definition maxPatchTextBytes : Z := (32 * 1024)%Z.

(** * Paths against scopes *)

Definition escapes (path : string) : bool :=
  strings_HasPrefix path "/" || (path == "..") || strings_HasPrefix path "../" || strings_Contains path "/../".

Definition inScope (path scope : string) : bool :=
  (scope != "") && ((path == scope) || strings_HasPrefix path (strings_TrimSuffix scope "/" +:+ "/")).

Definition pathsOutsideScopeStrings (paths scopes : list string) : list string :=
  List.filter (λ path, (path != "") && (escapes path || negb (existsb (inScope path) scopes))) paths.

Definition pathsOutsideScope (files : list ChangedFile) (scopes : list string) : list string :=
  pathsOutsideScopeStrings (ChangedFile_Path <$> files) scopes.

Definition artifactIDs (result : EvidenceResult) : list string :=
  ArtifactRef_ID <$> result.(EvidenceResult_Artifacts).
Definition testNames (result : EvidenceResult) : list string :=
  TestRecord_Name <$> result.(EvidenceResult_Tests).

(** * The verification *)

Section verify.
Context {golib : GoLib}.

Definition descriptor (id : string) (bytes : Z) (sha256 : string) : Descriptor :=
  mkDescriptor id "" "" bytes sha256 Time_zero.

Definition patchText (options : VerifierOptions) (result : EvidenceResult) : go string :=
  match result.(EvidenceResult_Patch), options.(VerifierOptions_Artifacts) with
  | Some patch, Some artifacts =>
      content ← Artifacts_bytes artifacts (descriptor patch.(PatchRecord_ArtifactID)
                  patch.(PatchRecord_Bytes) patch.(PatchRecord_SHA256));
      ret (if (maxPatchTextBytes <? Z.of_nat (String.length content))%Z
           then String.substring 0 (Z.to_nat maxPatchTextBytes) content +:+ newline +:+ "（补丁内容已截断）" +:+ newline
           else content)
  | _, _ => ret ""
  end.

(** A decision made by a check. *)
Definition ruled (decision : Decision) (reason : string) : VerifyResult :=
  mkVerifyResult decision reason true [].

(** Step 3: the first artifact that does not match its digest ends the loop. *)
Definition verifyArtifacts (options : VerifierOptions) (result : EvidenceResult) : go (option VerifyResult) :=
  match options.(VerifierOptions_Artifacts) with
  | None => ret None
  | Some artifacts =>
      each (λ (found : option VerifyResult) reference,
        match found with
        | Some _ => ret found
        | None =>
            checked ← try (Artifacts_verify artifacts (descriptor reference.(ArtifactRef_ID)
                             reference.(ArtifactRef_Bytes) reference.(ArtifactRef_SHA256)));
            ret (if is_ok checked then None
                 else Some (ruled DecisionRetry (fmt_Sprintf "工件 %s 与记录的校验不一致。"
                        [AStr reference.(ArtifactRef_DisplayName)])))
        end) None result.(EvidenceResult_Artifacts)
  end.

(** Step 5: the checks of the patch, when there is one. *)
Definition checkPatch (result : EvidenceResult) (scopes : list string) : option VerifyResult :=
  match result.(EvidenceResult_Patch) with
  | None => None
  | Some patch =>
      if (patch.(PatchRecord_ArtifactID) == "") || (patch.(PatchRecord_SHA256) == "")
      then Some (ruled DecisionRetry "变更补丁缺少可校验的引用。") else
      if strings_TrimSpace patch.(PatchRecord_BaseRevision) == ""
      then Some (ruled DecisionRetry "变更补丁没有记录基础版本。") else
      let outside := pathsOutsideScopeStrings patch.(PatchRecord_ChangedPaths) scopes in
      if (0 <? length outside)%nat
      then Some (ruled DecisionBlockedPolicy
                   (fmt_Sprintf "补丁触及允许范围之外的路径：%s" [AStr (strings_Join outside "、")])) else
      if negb (length patch.(PatchRecord_ChangedPaths) =? length result.(EvidenceResult_ChangedFiles))%nat
      then Some (ruled DecisionRetry "补丁包含的路径与报告的变更文件不一致。") else None
  end.

(** The check of an acceptance by the judge. *)
Definition checkAcceptance (input : VerifyInput) (verdict : JudgeVerdict) : option VerifyResult :=
  if verdict.(JudgeVerdict_Decision) != DecisionAccept then None else
  match List.find (λ criterion, negb criterion.(CriterionOutcome_Passed)) verdict.(JudgeVerdict_Criteria) with
  | Some criterion =>
      Some (mkVerifyResult DecisionRetry
              (fmt_Sprintf "验收判定自相矛盾：%q 未通过却给出通过结论。" [AStr criterion.(CriterionOutcome_Criterion)])
              true verdict.(JudgeVerdict_Criteria))
  | None =>
      if (0 <? length input.(VerifyInput_AcceptanceCriteria))%nat
         && (length verdict.(JudgeVerdict_Criteria) =? 0)%nat
      then Some (ruled DecisionRetry "验收判定没有逐条给出结论。") else None
  end.

Definition verdictReason (verdict : JudgeVerdict) : string :=
  if (verdict.(JudgeVerdict_Decision) == DecisionRetry) && (verdict.(JudgeVerdict_RepairFeedback) != "")
  then verdict.(JudgeVerdict_RepairFeedback) else
  if (verdict.(JudgeVerdict_Decision) == DecisionNeedsInput) && (verdict.(JudgeVerdict_MissingInput) != "")
  then verdict.(JudgeVerdict_MissingInput) else verdict.(JudgeVerdict_Summary).

Definition judgeInput (input : VerifyInput) (patchText : string) : JudgeInput :=
  let result := input.(VerifyInput_Evidence).(Evidence_Result) in
  mkJudgeInput input.(VerifyInput_Objective) input.(VerifyInput_TaskID) input.(VerifyInput_AttemptNumber)
    input.(VerifyInput_TaskTitle) input.(VerifyInput_TaskDescription) input.(VerifyInput_AcceptanceCriteria)
    result input.(VerifyInput_EvidenceID) (artifactIDs result) (testNames result)
    input.(VerifyInput_IntegratedRevision) patchText.

Definition Verifier_Verify (options : VerifierOptions) (input : VerifyInput) : go VerifyResult :=
  let result := input.(VerifyInput_Evidence).(Evidence_Result) in
  let failed := FailedRequiredTests result in
  if (0 <? length failed)%nat
  then ret (ruled DecisionRetry (fmt_Sprintf "必需的检查未通过：%s" [AStr (strings_Join failed "、")])) else
  if strings_TrimSpace result.(EvidenceResult_Summary) == ""
  then ret (ruled DecisionRetry "证据缺少结果摘要。") else
  tampered ← verifyArtifacts options result;
  match tampered with
  | Some decision => ret decision
  | None =>
      let outside := pathsOutsideScope result.(EvidenceResult_ChangedFiles)
                       input.(VerifyInput_AllowedPathScopes) in
      if (0 <? length outside)%nat
      then ret (ruled DecisionBlockedPolicy (fmt_Sprintf "修改超出允许范围：%s" [AStr (strings_Join outside "、")])) else
      match checkPatch result input.(VerifyInput_AllowedPathScopes) with
      | Some decision => ret decision
      | None =>
          read ← try (patchText options result);
          match read with
          | Ok text =>
              verdict ← options.(VerifierOptions_Judge) (judgeInput input text);
              ret (default (mkVerifyResult verdict.(JudgeVerdict_Decision) (verdictReason verdict) false
                              verdict.(JudgeVerdict_Criteria)) (checkAcceptance input verdict))
          | _ => ret (ruled DecisionRetry "无法读取该次变更的补丁内容，证据链不完整。")
          end
      end
  end.

End verify.

(** The project gate: internal/agogate/gate.go. It runs the checks of a project in
    a clean checkout of the integrated revision. *)

Record Check : Type := mkCheck {
  Check_Command : string; Check_ExitCode : Z; Check_Passed : bool; Check_Output : string;
  Check_DurationMS : Z;
}.
#[export] Instance Check_eta : Eta Check := λ r, mkCheck (r.(Check_Command)) (r.(Check_ExitCode))
  (r.(Check_Passed)) (r.(Check_Output)) (r.(Check_DurationMS)).

Record GateResult : Type := mkGateResult {
  GateResult_Revision : string; GateResult_Checks : list Check; GateResult_Passed : bool;
  GateResult_Summary : string;
}.

(** The interface [Worktrees]: a checkout and the function that removes it. *)
Definition Worktrees : Type := string → string → go (string * go unit).

Definition maxOutputPerCheck : Z := (16 * 1024)%Z.

Section gate.
Context {golib : GoLib}.

(** [Discover], given whether [go.mod] exists in the root. *)
Definition Discover (hasGoMod : bool) : list string :=
  if hasGoMod then ["go build ./..."; "go vet ./..."; "go test ./..."] else [].

Definition shellMetacharacters : list string :=
  ["|"; ">"; "<"; "&"; ";"; "$"; "`"; newline; "\"].

Definition splitCommand (command : string) : result (string * list string) :=
  let trimmed := strings_TrimSpace command in
  fail_if (trimmed == "") (Errorf "空的检查命令" []) ;;
  for_each (λ _ forbidden,
      fail_if (strings_Contains trimmed forbidden)
        (Errorf "检查命令 %q 含有 shell 元字符 %q；门禁只运行固定命令，不经过 shell" [AStr command; AStr forbidden]))
    tt shellMetacharacters ;;
  match strings_Fields trimmed with
  | [] => Panic
  | name :: args => Ok (name, args)
  end.

Definition bound (output : string) : string :=
  let length := Z.of_nat (String.length output) in
  if (length <=? maxOutputPerCheck)%Z then output
  else "（前面的输出已截断）" +:+ newline +:+
       String.substring (Z.to_nat (length - maxOutputPerCheck)) (Z.to_nat maxOutputPerCheck) output.

Definition short (revision : string) : string :=
  if (8 <? String.length revision)%nat then String.substring 0 8 revision else revision.

Definition summarise (result : GateResult) : string :=
  if result.(GateResult_Passed)
  then fmt_Sprintf "集成结果 %s 通过全部 %d 项项目门禁。"
         [AStr (short result.(GateResult_Revision)); AInt (Z.of_nat (length result.(GateResult_Checks)))]
  else
    let failed := Check_Command <$> List.filter (λ check, negb check.(Check_Passed)) result.(GateResult_Checks) in
    fmt_Sprintf "集成结果 %s 未通过项目门禁：%s。"
      [AStr (short result.(GateResult_Revision)); AStr (strings_Join failed "、")].

(** [Gate.run] *)
Definition runCheck (dir command : string) : go Check :=
  match splitCommand command with
  | Panic => lift Panic
  | Err err => ret (mkCheck command (-1) false (error_Error err) 0)
  | Ok (name, args) =>
      started ← Now;
      '((output, exitCode), runErr) ← ask (CallCheck dir name args);
      finished ← Now;
      let check := mkCheck command exitCode (negb (is_Some_b runErr) && (exitCode =? 0)%Z) ""
                     (Z.quot (finished - started) 1000000) in
      let '(check, output) :=
        match runErr with
        | None => (check, output)
        | Some err => (check <| Check_ExitCode := (-1)%Z |>,
                       strings_TrimSpace (output +:+ newline +:+ error_Error err))
        end in
      ret (if check.(Check_Passed) then check else check <| Check_Output := bound output |>)
  end.

Definition Gate_Run (scratch : Worktrees) (repository revision : string) (commands : list string)
  : go GateResult :=
  lift (fail_if ((strings_TrimSpace repository == "") || (strings_TrimSpace revision == ""))
          (Errorf "agogate: a repository and a revision are required" [])) ;;
  lift (fail_if (length commands =? 0)%nat (Errorf "agogate: no checks to run" [])) ;;
  '(dir, remove) ← go_map_err (λ err, Errorf "agogate: prepare a clean checkout of %s: %w" [AStr revision; AWrap err])
                     (scratch repository revision);
  deferred remove (
    '(checks, passed) ← each (λ '(checks, passed) command,
        check ← runCheck dir command;
        ret (checks ++ [check], passed && check.(Check_Passed))) ([], true) commands;
    let result := mkGateResult revision checks passed "" in
    ret (mkGateResult revision checks passed (summarise result))).

End gate.
