(* ===== verification/Integrate.v ===== *)
(** The integration of accepted work: internal/agointegrate/integrator.go. Git is
    run as a command; the integrator writes no ref but the one of the request. *)
From S2P Require Import Prelude Paths Protocol Process Environment Verify.

Definition ErrConflict : error := ErrNew "the accepted change conflicts with the integrated revision".
Definition ErrEmptyPatch : error := ErrNew "the patch is empty".

Record Integrator : Type := mkIntegrator {
  Integrator_root : string; Integrator_authorName : string; Integrator_authorEmail : string;
}.

Record IntegrateRequest : Type := mkIntegrateRequest {
  IntegrateRequest_Repository : string; IntegrateRequest_IntegrationRef : string;
  IntegrateRequest_CurrentRevision : string; IntegrateRequest_BaseRevision : string;
  IntegrateRequest_Patch : string; IntegrateRequest_TaskID : string; IntegrateRequest_Summary : string;
}.

Record IntegrateResult : Type := mkIntegrateResult {
  IntegrateResult_Revision : string; IntegrateResult_Rebased : bool;
  IntegrateResult_AlreadyIntegrated : bool; IntegrateResult_ChangedRaw : string;
}.

(** * Refs *)

Definition agoPrefix : string := "refs/heads/ago/".

(** The characters [strings.ContainsAny] looks for. *)
Definition forbiddenInRef : list string :=
  [" "; String (Ascii.ascii_of_nat 9) ""; newline; "~"; "^"; ":"; "?"; "*"; "["; "\"].

Definition validateAgoRef (ref : string) : result unit :=
  fail_if (negb (strings_HasPrefix ref agoPrefix))
    (Errorf "refusing to write ref %q: Ago only writes refs under refs/heads/ago/" [AStr ref]) ;;
  let rest := strings_TrimPrefix ref agoPrefix in
  fail_if ((rest == "") || strings_Contains rest ".." || strings_HasSuffix ref "/"
           || existsb (strings_Contains ref) forbiddenInRef)
    (Errorf "invalid integration ref %q" [AStr ref]).

(** The bytes of the first rune of a string, as [range] decodes UTF-8: a byte that
    starts no encoding of a rune is visited by itself. *)
Definition within (lo hi : nat) (c : Ascii.ascii) : bool :=
  ((lo <=? Ascii.nat_of_ascii c) && (Ascii.nat_of_ascii c <=? hi))%nat.
Definition continuation : Ascii.ascii → bool := within 128 191.

Definition runeWidth (s : string) : nat :=
  match s with
  | String c0 (String c1 s) =>
      if within 194 223 c0 && continuation c1 then 2 else
      match s with
      | String c2 s =>
          if (within 224 224 c0 && within 160 191 c1 || within 225 236 c0 && continuation c1
              || within 237 237 c0 && within 128 159 c1 || within 238 239 c0 && continuation c1)
             && continuation c2 then 3 else
          match s with
          | String c3 _ =>
              if (within 240 240 c0 && within 144 191 c1 || within 241 243 c0 && continuation c1
                  || within 244 244 c0 && within 128 143 c1) && continuation c2 && continuation c3 then 4 else 1
          | EmptyString => 1
          end
      | EmptyString => 1
      end
  | _ => 1
  end.

Definition isSafe (c : Ascii.ascii) : bool :=
  within 97 122 c || within 65 90 c || within 48 57 c || within 45 45 c || within 95 95 c.

(** The [strings.Map] of [RefName]; [skip] counts the bytes left of a rune. *)
Fixpoint mapRunes (skip : nat) (s : string) : string :=
  match s with
  | EmptyString => ""
  | String c s' =>
      match skip with
      | S skip => mapRunes skip s'
      | O => (if isSafe c then String c "" else "-") +:+ mapRunes (Nat.pred (runeWidth s)) s'
      end
  end.

(** [strings.Trim s "-"] *)
Fixpoint trimDashes (l : list Ascii.ascii) : list Ascii.ascii :=
  match l with [] => [] | c :: l' => if (Ascii.nat_of_ascii c =? 45)%nat then trimDashes l' else l end.
Definition strings_TrimDashes (s : string) : string :=
  String.string_of_list_ascii
    (reverse (trimDashes (reverse (trimDashes (String.list_ascii_of_string s))))).

Definition RefName (boardID : string) : string := agoPrefix +:+ strings_TrimDashes (mapRunes 0 boardID).

(** * Commits *)

Fixpoint firstLine (s : string) : string :=
  match s with
  | EmptyString => ""
  | String c s =>
      if ((Ascii.nat_of_ascii c =? 10) || (Ascii.nat_of_ascii c =? 13))%nat then "" else String c (firstLine s)
  end.

Section integrate.
Context {golib : GoLib}.

Definition commitSubject (request : IntegrateRequest) : string :=
  let summary := strings_TrimSpace request.(IntegrateRequest_Summary) in
  let summary := firstLine (if summary == "" then "integrate accepted change" else summary) in
  let summary := if (120 <? String.length summary)%nat then String.substring 0 120 summary else summary in
  if request.(IntegrateRequest_TaskID) != ""
  then fmt_Sprintf "ago(%s): %s" [AStr request.(IntegrateRequest_TaskID); AStr summary]
  else "ago: " +:+ summary.

(** * Git *)

Definition git (dir : string) (args : list string) : go string :=
  '((stdout, stderr), err) ← ask (CallExec dir "git" args "");
  match err with
  | Some err => throw (Errorf "git %s: %v: %s" [AStr (strings_Join args " "); AVal err; AStr (strings_TrimSpace stderr)])
  | None => ret stdout
  end.

Definition applyPatch (dir patch : string) : go unit :=
  '((_, stderr), err) ← ask (CallExec dir "git" ["apply"; "--3way"; "--whitespace=nowarn"; "-"] patch);
  match err with
  | Some err => throw (Errorf "%v: %s" [AVal err; AStr (strings_TrimSpace stderr)])
  | None => ret tt
  end.

Definition alreadyApplied (dir patch : string) : go bool :=
  '(_, err) ← ask (CallExec dir "git" ["apply"; "--reverse"; "--check"; "-"] patch);
  ret (negb (is_Some_b err)).

(** A git command whose outcome is ignored. *)
Definition gitIgnored (dir : string) (args : list string) : go unit := try (git dir args) ;; ret tt.

Definition EnsureRef (repository ref baseRevision : string) : go string :=
  lift (validateAgoRef ref) ;;
  existing ← try (git repository ["rev-parse"; "--verify"; "--quiet"; ref]);
  match existing with
  | Ok existing => ret (strings_TrimSpace existing)
  | _ =>
      let base := strings_TrimSpace baseRevision in
      base ← (if base == ""
              then resolved ← go_map_err (λ err, Errorf "resolve base revision: %w" [AWrap err])
                                (git repository ["rev-parse"; "HEAD"]);
                   ret (strings_TrimSpace resolved)
              else ret base);
      go_map_err (λ err, Errorf "create integration ref %q: %w" [AStr ref; AWrap err])
        (git repository ["update-ref"; ref; base]) ;;
      ret base
  end.

(** The part of [Integrate] in the scratch worktree. *)
Definition promote (integrator : Integrator) (request : IntegrateRequest) (scratch tip : string)
  : go IntegrateResult :=
  let rebased := (strings_TrimSpace request.(IntegrateRequest_BaseRevision) != "")
                 && (request.(IntegrateRequest_BaseRevision) != tip) in
  applied ← try (applyPatch scratch request.(IntegrateRequest_Patch));
  match applied with
  | Err err =>
      already ← alreadyApplied scratch request.(IntegrateRequest_Patch);
      if already : bool then ret (mkIntegrateResult tip false true "")
      else throw (Errorf "%w: task %s onto %s: %v"
                    [AWrap ErrConflict; AStr request.(IntegrateRequest_TaskID); AStr (short tip); AVal err])
  | _ =>
      git scratch ["add"; "-A"] ;;
      staged ← git scratch ["diff"; "--cached"; "--name-only"];
      if strings_TrimSpace staged == "" then
        (if rebased then ret (mkIntegrateResult tip true true "") else throw ErrEmptyPatch)
      else
      go_map_err (λ err, Errorf "record integration commit: %w" [AWrap err])
        (git scratch ["-c"; "user.name=" +:+ integrator.(Integrator_authorName);
                      "-c"; "user.email=" +:+ integrator.(Integrator_authorEmail);
                      "commit"; "--no-verify"; "-m"; commitSubject request]) ;;
      revisionRaw ← git scratch ["rev-parse"; "HEAD"];
      let revision := strings_TrimSpace revisionRaw in
      go_map_err (λ err, Errorf "advance integration ref: %w" [AWrap err])
        (git request.(IntegrateRequest_Repository)
           ["update-ref"; request.(IntegrateRequest_IntegrationRef); revision; tip]) ;;
      ret (mkIntegrateResult revision rebased false (strings_TrimSpace staged))
  end.

(** A detached worktree at a revision in a new directory. *)
Definition addWorktree (repository dir revision : string) (describe : error → error) : go unit :=
  added ← try (git repository ["worktree"; "add"; "--detach"; dir; revision]);
  match added with
  | Err err => os_RemoveAll dir ;; throw (describe err)
  | _ => ret tt
  end.

Definition removeWorktree (repository dir : string) : go unit :=
  gitIgnored repository ["worktree"; "remove"; "--force"; dir] ;; os_RemoveAll dir.

Definition Integrate (integrator : Integrator) (request : IntegrateRequest) : go IntegrateResult :=
  lift (validateAgoRef request.(IntegrateRequest_IntegrationRef)) ;;
  lift (fail_if (strings_TrimSpace request.(IntegrateRequest_Patch) == "") ErrEmptyPatch) ;;
  resolved ← git request.(IntegrateRequest_Repository) ["rev-parse"; request.(IntegrateRequest_IntegrationRef)];
  let tip := strings_TrimSpace resolved in
  scratch ← os_MkdirTemp integrator.(Integrator_root) "integrate-";
  addWorktree request.(IntegrateRequest_Repository) scratch tip
    (λ err, Errorf "prepare integration worktree: %w" [AWrap err]) ;;
  deferred (removeWorktree request.(IntegrateRequest_Repository) scratch)
    (promote integrator request scratch tip).

Definition Scratch (integrator : Integrator) : Worktrees := λ repository revision,
  lift (fail_if ((strings_TrimSpace repository == "") || (strings_TrimSpace revision == ""))
          (Errorf "a repository and a revision are required" [])) ;;
  dir ← os_MkdirTemp integrator.(Integrator_root) "gate-";
  addWorktree repository dir revision
    (λ err, Errorf "prepare gate worktree at %s: %w" [AStr revision; AWrap err]) ;;
  ret (dir, removeWorktree repository dir).

End integrate.
