(* ===== verification/Scheduler.v ===== *)
(** The scheduler: internal/agoscheduler/scheduler.go. A cycle expires leases,
    decides waiting evidence, resumes integrations, claims and runs work, and
    proves the integrated result. Every function is a process; what it learns, it
    learns from the answers of the store. *)
From S2P Require Import Prelude Sql Paths Planner Protocol Validate Database Store Runtime.
From S2P Require Import Process Environment Verify Integrate.

Definition DefaultLimits : SlotLimits := mkSlotLimits 3 2 1 2.

(** The interfaces [Verification], [ProjectGate], [Integrator] and
    [ArtifactReader] are functions; the store, the runtime, the executor and the
    clock are calls. *)
Record SchedulerOptions : Type := mkSchedulerOptions {
  Options_Gate : option (string → string → list string → go GateResult);
  Options_Verification : VerifyInput → go VerifyResult;
  SchedulerOptions_CoordinatorID : string; SchedulerOptions_WorkerID : string;
  SchedulerOptions_VerifierID : string;
  SchedulerOptions_LeaseDuration : Duration; SchedulerOptions_Limits : SlotLimits;
  Options_Integrator : option (IntegrateRequest → go IntegrateResult);
  Options_Redactor : Redactor;
  Options_Artifacts : option (Descriptor → go string);
}.
#[export] Instance SchedulerOptions_eta : Eta SchedulerOptions := λ r, mkSchedulerOptions
  (r.(Options_Gate)) (r.(Options_Verification)) (r.(SchedulerOptions_CoordinatorID))
  (r.(SchedulerOptions_WorkerID)) (r.(SchedulerOptions_VerifierID)) (r.(SchedulerOptions_LeaseDuration))
  (r.(SchedulerOptions_Limits)) (r.(Options_Integrator)) (r.(Options_Redactor)) (r.(Options_Artifacts)).

Record Cycle : Type := mkCycle {
  Cycle_Reconciled : Z; Cycle_Claimed : Z; Cycle_Dispatched : Z; Cycle_Outcomes : list ClaimOutcome;
}.
#[export] Instance Cycle_eta : Eta Cycle := λ r, mkCycle (r.(Cycle_Reconciled)) (r.(Cycle_Claimed))
  (r.(Cycle_Dispatched)) (r.(Cycle_Outcomes)).

(** [New]; the executor and the verification are two objects or one. *)
Definition Scheduler_New (options : SchedulerOptions) (sameObject : bool) : result SchedulerOptions :=
  fail_if ((options.(SchedulerOptions_CoordinatorID) == "") || (options.(SchedulerOptions_WorkerID) == "")
           || (options.(SchedulerOptions_VerifierID) == ""))
    (Errorf "scheduler requires coordinator, worker, and verifier identities" []) ;;
  fail_if (options.(SchedulerOptions_WorkerID) == options.(SchedulerOptions_VerifierID))
    (Errorf "the verifier must be independent from the worker" []) ;;
  fail_if sameObject
    (Errorf "the executor and the verifier must be different implementations, not one object under two identities" []) ;;
  fail_if (options.(SchedulerOptions_LeaseDuration) <=? 0)%Z
    (Errorf "scheduler requires a positive lease duration" []) ;;
  let limits := options.(SchedulerOptions_Limits) in
  Ok (if (limits.(SlotLimits_GlobalRunning) =? 0)%Z && (limits.(SlotLimits_BoardRunning) =? 0)%Z
         && (limits.(SlotLimits_RepositoryWriters) =? 0)%Z && (limits.(SlotLimits_RepositoryReaders) =? 0)%Z
      then options <| SchedulerOptions_Limits := DefaultLimits |> else options).

Definition maxClaimsPerCycle : nat := 16.

(** * Pure helpers *)

Definition proposalFor (plan : Plan) (taskID : string) : option TaskProposal :=
  List.find (λ item, item.(TaskProposal_ID) == taskID) plan.(Plan_Tasks).

Definition attemptNumberOf (board : Board) (attemptID : string) : Z :=
  match List.find (λ attempt, attempt.(Attempt_ID) == attemptID) board.(Board_Attempts) with
  | Some attempt => attempt.(Attempt_Number)
  | None => 1%Z
  end.

Definition evidenceByID (board : Board) (id : string) : option Evidence :=
  List.find (λ evidence, evidence.(Evidence_ID) == id) board.(Board_Evidence).

Definition taskByID (board : Board) (id : string) : option Task :=
  List.find (λ task, task.(Task_ID) == id) board.(Board_Tasks).

Definition fencingTokenFor (board : Board) (attemptID : string) : string :=
  match List.find (λ attempt, attempt.(Attempt_ID) == attemptID) board.(Board_Attempts) with
  | Some attempt => attempt.(Attempt_FencingToken)
  | None => ""
  end.

Definition acceptedEvidenceFor (board : Board) (task : Task) : option Evidence :=
  evidenceByID board task.(Task_AcceptedEvidenceID).

Definition failureClassFor (decision : Decision) : FailureClass :=
  if decision == DecisionNeedsInput then FailureNeedsInput
  else if decision == DecisionBlockedPolicy then FailurePolicy
  else FailureVerifierFeedback.

Definition firstNonEmpty (values : list string) : string :=
  default "" (List.find (λ value, value != "") values).

Definition classifyExecutionFailure (err : option ExecutionError) : FailureClass * string :=
  match err with
  | None => (FailureTransient, "executor returned incomplete evidence")
  | Some err =>
      (default FailureTransient err.(ExecutionError_FailureClass), err.(ExecutionError_Error))
  end.

(** The result of a call whose conflict error is not an error. *)
Definition ignoreConflict {A} (m : go A) : go unit :=
  applied ← try m;
  match applied with
  | Err err => if errors_Is err "was already used for different content" then ret tt else throw err
  | _ => ret tt
  end.

Section scheduler.
Context {golib : GoLib}.

Definition redactEvidence (redactor : Redactor) (result : EvidenceResult) : EvidenceResult :=
  let string := Redactor_String redactor in
  result <| EvidenceResult_Summary := string result.(EvidenceResult_Summary) |>
    <| EvidenceResult_Warnings := Redactor_Strings redactor result.(EvidenceResult_Warnings) |>
    <| EvidenceResult_Commands := (λ c, c <| CommandRecord_Display := string c.(CommandRecord_Display) |>)
         <$> result.(EvidenceResult_Commands) |>
    <| EvidenceResult_Tests := (λ t, t <| TestRecord_Name := string t.(TestRecord_Name) |>
                                      <| TestRecord_Command := string t.(TestRecord_Command) |>)
         <$> result.(EvidenceResult_Tests) |>
    <| EvidenceResult_Artifacts := (λ a, a <| ArtifactRef_DisplayName := string a.(ArtifactRef_DisplayName) |>)
         <$> result.(EvidenceResult_Artifacts) |>
    <| EvidenceResult_ChangedFiles := (λ f, f <| ChangedFile_Path := string f.(ChangedFile_Path) |>)
         <$> result.(EvidenceResult_ChangedFiles) |>.

Definition gateFailureOutput (result : GateResult) : string :=
  strings_TrimSpace (strings_Join
    ((λ check, fmt_Sprintf ("$ %s" +:+ newline +:+ "退出码 %d" +:+ newline +:+ "%s" +:+ newline +:+ newline)
                 [AStr check.(Check_Command); AInt check.(Check_ExitCode); AStr check.(Check_Output)])
       <$> List.filter (λ check, negb check.(Check_Passed)) result.(GateResult_Checks)) "").

(** * Commands *)

Context (scheduler : SchedulerOptions).

Definition Scheduler_coordinator : Actor :=
  mkActor scheduler.(SchedulerOptions_CoordinatorID) RoleCoordinator.
Definition redact (value : string) : string := Redactor_String scheduler.(Options_Redactor) value.

(** A command with the fields all of them set. *)
Definition newCommand (id : string) (version : Z) (actor : Actor) (type : CommandType) : Command :=
  Command_zero <| Command_SchemaVersion := SchemaVersion |> <| Command_ID := id |>
    <| Command_ExpectedVersion := version |> <| Command_Actor := actor |> <| Command_Type := type |>.

Definition applyFrom (boardID : string) (claim : ClaimResult) (version : Z) (commandType : CommandType)
    (configure : Command → Command) : go Result :=
  Store_ApplyBoard boardID (configure
    ((newCommand (commandType +:+ ":" +:+ claim.(ClaimResult_AttemptID)) version
        (mkActor scheduler.(SchedulerOptions_WorkerID) RoleWorker) commandType)
       <| Command_TaskID := claim.(ClaimResult_TaskID) |>
       <| Command_AttemptID := claim.(ClaimResult_AttemptID) |>
       <| Command_FencingToken := claim.(ClaimResult_FencingToken) |>)).

Definition Scheduler_apply (boardID : string) (claim : ClaimResult) (commandType : CommandType)
    (configure : Command → Command) : go Result :=
  applyFrom boardID claim claim.(ClaimResult_Board).(Board_Version) commandType configure.

Definition nextEligible (attemptNumber : Z) : go Time :=
  now ← Now; ret (Time_Add (Time_UTC now) (RetryDelay attemptNumber)).

(** * Running work *)

Definition Scheduler_dispatch (boardID : string) (claim : ClaimResult) : go unit :=
  '(goal, plan) ← Runtime_definition boardID;
  match proposalFor plan claim.(ClaimResult_TaskID) with
  | None => throw (Errorf "task %q has no planner proposal" [AStr claim.(ClaimResult_TaskID)])
  | Some proposal =>
      let attemptNumber := attemptNumberOf claim.(ClaimResult_Board) claim.(ClaimResult_AttemptID) in
      let work := mkDispatch goal proposal claim.(ClaimResult_AttemptID)
        scheduler.(SchedulerOptions_WorkerID) attemptNumber
        claim.(ClaimResult_Board).(Board_IntegratedRevision) in
      started ← go_map_err (λ err, Errorf "start attempt: %w" [AWrap err])
                  (Scheduler_apply boardID claim CommandAttemptStart (λ command, command));
      let version := started.(Result_Board).(Board_Version) in
      '(result, executionErr) ← ask (CallExecute work);
      if is_Some_b executionErr || (result.(ExecutionResult_Artifact) == "")
         || (result.(ExecutionResult_Summary) == "") then
        let '(class, reason) := classifyExecutionFailure executionErr in
        eligible ← nextEligible attemptNumber;
        applyFrom boardID claim version CommandAttemptFail (λ command,
          command <| Command_FailureClass := class |> <| Command_Reason := reason |>
                  <| Command_NextEligibleAt := eligible |>) ;;
        ret tt
      else
        let structured := redactEvidence scheduler.(Options_Redactor) result.(ExecutionResult_Result) in
        let structured := structured <| EvidenceResult_Summary :=
          redact (firstNonEmpty [structured.(EvidenceResult_Summary); result.(ExecutionResult_Summary)]) |> in
        go_map_err (λ err, Errorf "submit evidence: %w" [AWrap err])
          (applyFrom boardID claim version CommandEvidenceSubmit (λ command,
             command <| Command_Evidence := Some (mkEvidenceSpec ("evidence:" +:+ claim.(ClaimResult_AttemptID))
               claim.(ClaimResult_TaskID) claim.(ClaimResult_AttemptID)
               (redact result.(ExecutionResult_Artifact)) structured.(EvidenceResult_Summary) structured) |>)) ;;
        ret tt
  end.

Definition claimAndDispatch (boardID : string) : go (bool * ClaimOutcome) :=
  board ← Store_Board boardID;
  now ← Now;
  claim ← Store_Claim (mkClaimRequest boardID
            ("claim:" +:+ boardID +:+ ":" +:+ pretty board.(Board_Version)) Scheduler_coordinator
            scheduler.(SchedulerOptions_WorkerID) (Time_UTC now)
            scheduler.(SchedulerOptions_LeaseDuration) scheduler.(SchedulerOptions_Limits));
  if negb (ClaimResult_Dispatchable claim) then ret (false, claim.(ClaimResult_Outcome))
  else Scheduler_dispatch boardID claim ;; ret (true, claim.(ClaimResult_Outcome)).

(** * Integration *)

(** The closure [fail] of [integrate]. *)
Definition integrationFail (boardID : string) (claim : ClaimResult) (class : FailureClass) (reason : string)
  : go unit :=
  current ← Store_Board boardID;
  Store_ApplyBoard boardID
    ((newCommand ("integration-fail:" +:+ claim.(ClaimResult_AttemptID)) current.(Board_Version)
        Scheduler_coordinator CommandIntegrationFail)
       <| Command_TaskID := claim.(ClaimResult_TaskID) |> <| Command_FailureClass := class |>
       <| Command_Reason := redact reason |>) ;;
  ret tt.

Definition Scheduler_integrate (boardID : string) (claim : ClaimResult) (evidence : EvidenceResult)
    (board : Board) : go unit :=
  match evidence.(EvidenceResult_Patch) with
  | None => ret tt
  | Some record =>
      match scheduler.(Options_Integrator), scheduler.(Options_Artifacts) with
      | Some integrator, Some artifacts =>
          read ← try (artifacts (descriptor record.(PatchRecord_ArtifactID)
                        record.(PatchRecord_Bytes) record.(PatchRecord_SHA256)));
          match read with
          | Err err => integrationFail boardID claim FailureRepository
                         (fmt_Sprintf "无法读取变更补丁：%v" [AVal err])
          | Panic => lift Panic
          | Ok patch =>
              integrated ← try (integrator (mkIntegrateRequest board.(Board_Repository)
                board.(Board_IntegrationRef) board.(Board_IntegratedRevision)
                record.(PatchRecord_BaseRevision) patch claim.(ClaimResult_TaskID)
                evidence.(EvidenceResult_Summary)));
              match integrated with
              | Err err =>
                  let class := if errors_Is err "the accepted change conflicts with the integrated revision"
                               then FailureVerifierFeedback else FailureRepository in
                  integrationFail boardID claim class (fmt_Sprintf "集成失败：%v" [AVal err])
              | Panic => lift Panic
              | Ok result =>
                  current ← Store_Board boardID;
                  Store_ApplyBoard boardID
                    ((newCommand ("integration:" +:+ claim.(ClaimResult_AttemptID))
                        current.(Board_Version) Scheduler_coordinator CommandIntegrationComplete)
                       <| Command_TaskID := claim.(ClaimResult_TaskID) |>
                       <| Command_Revision := result.(IntegrateResult_Revision) |>
                       <| Command_Reason := fmt_Sprintf "已集成到 %s" [AStr result.(IntegrateResult_Revision)] |>) ;;
                  ret tt
              end
          end
      | _, _ => integrationFail boardID claim FailureRepository "未配置集成权威，已接受的变更无法应用。"
      end
  end.

Definition failIntegration (boardID taskID : string) (class : FailureClass) (reason : string) : go unit :=
  board ← Store_Board boardID;
  Store_ApplyBoard boardID
    ((newCommand ("integration-fail:" +:+ taskID +:+ ":" +:+ pretty board.(Board_Version))
        board.(Board_Version) Scheduler_coordinator CommandIntegrationFail)
       <| Command_TaskID := taskID |> <| Command_FailureClass := class |>
       <| Command_Reason := redact reason |>) ;;
  ret tt.

(** The claim [integrate] is called with outside of a dispatch. *)
Definition integrationClaim (taskID attemptID : string) (board : Board) : ClaimResult :=
  ClaimResult_zero <| ClaimResult_TaskID := taskID |> <| ClaimResult_AttemptID := attemptID |>
    <| ClaimResult_Board := board |>.

(** The loop ranges over the tasks of the board read first; its state is the
    board read last, and [None] once a task without evidence ended it. *)
Definition resumeTask (boardID : string) (state : option Board) (task : Task) : go (option Board) :=
  match state with
  | None => ret None
  | Some board =>
      if task.(Task_State) != TaskIntegrating then ret state else
      match acceptedEvidenceFor board task with
      | None =>
          failIntegration boardID task.(Task_ID) FailureRepository
            "任务处于集成中，但找不到已接受的证据。" ;;
          ret None
      | Some evidence =>
          Scheduler_integrate boardID
            (integrationClaim task.(Task_ID) evidence.(Evidence_AttemptID) board)
            evidence.(Evidence_Result) board ;;
          board ← Store_Board boardID; ret (Some board)
      end
  end.

Definition resumeIntegrating (boardID : string) : go unit :=
  board ← Store_Board boardID;
  each (resumeTask boardID) (Some board) board.(Board_Tasks) ;; ret tt.

(** * Verification *)

Definition deferVerification (boardID evidenceID : string) (cause : error) : go unit :=
  board ← Store_Board boardID;
  let attempts := foldl (λ attempts evidence,
    if evidence.(Evidence_ID) == evidenceID then evidence.(Evidence_VerificationAttempts) else attempts)
    0%Z board.(Board_Evidence) in
  Store_ApplyBoard boardID
    ((newCommand (fmt_Sprintf "verify-defer:%s:%d" [AStr evidenceID; AInt attempts])
        board.(Board_Version) Scheduler_coordinator CommandVerificationDeferred)
       <| Command_Evidence := Some (EvidenceSpec_zero <| EvidenceSpec_ID := evidenceID |>) |>
       <| Command_Reason := redact (fmt_Sprintf "验收暂时无法进行：%v" [AVal cause]) |>) ;;
  ret tt.

(** The fields the commands of the verifier share. *)
Definition verifierCommand (board : Board) (evidence : Evidence) (id : string) (type : CommandType)
    (reason : string) : Command :=
  (newCommand id board.(Board_Version) (mkActor scheduler.(SchedulerOptions_VerifierID) RoleVerifier) type)
    <| Command_TaskID := evidence.(Evidence_TaskID) |>
    <| Command_AttemptID := evidence.(Evidence_AttemptID) |>
    <| Command_FencingToken := fencingTokenFor board evidence.(Evidence_AttemptID) |>
    <| Command_Evidence := Some (EvidenceSpec_zero <| EvidenceSpec_ID := evidence.(Evidence_ID) |>) |>
    <| Command_Reason := redact reason |>.

Definition abandonVerification (boardID : string) (board : Board) (task : Task) (evidence : Evidence)
  : go unit :=
  let reason := fmt_Sprintf "验收在 %d 次尝试后仍未取得结论：%s"
    [AInt evidence.(Evidence_VerificationAttempts); AStr (strings_TrimSpace task.(Task_BlockedReason))] in
  ignoreConflict (Store_ApplyBoard boardID
    ((verifierCommand board evidence ("verify-abandon:" +:+ evidence.(Evidence_ID)) CommandEvidenceReject reason)
       <| Command_FailureClass := FailureExhausted |>)).

Definition applyVerdict (boardID : string) (board : Board) (evidence : Evidence) (result : VerifyResult)
  : go unit :=
  let attemptNumber := foldl (λ number attempt,
    if attempt.(Attempt_ID) == evidence.(Evidence_AttemptID) then attempt.(Attempt_Number) else number)
    1%Z board.(Board_Attempts) in
  if result.(VerifyResult_Decision) == DecisionAccept then
    applied ← Store_ApplyBoard boardID
      (verifierCommand board evidence ("verify-accept:" +:+ evidence.(Evidence_ID)) CommandEvidenceAccept
         result.(VerifyResult_Reason));
    Scheduler_integrate boardID
      (integrationClaim evidence.(Evidence_TaskID) evidence.(Evidence_AttemptID) applied.(Result_Board))
      evidence.(Evidence_Result) applied.(Result_Board)
  else
    eligible ← nextEligible attemptNumber;
    Store_ApplyBoard boardID
      ((verifierCommand board evidence ("verify-reject:" +:+ evidence.(Evidence_ID)) CommandEvidenceReject
          result.(VerifyResult_Reason))
         <| Command_FailureClass := failureClassFor result.(VerifyResult_Decision) |>
         <| Command_NextEligibleAt := eligible |>) ;;
    ret tt.

Definition verificationInput (goal : Goal) (plan : Plan) (current : Board) (task : Task)
    (evidence : Evidence) : VerifyInput :=
  let proposal := default (mkTaskProposal "" "" "" [] [] [] []) (proposalFor plan evidence.(Evidence_TaskID)) in
  mkVerifyInput goal.(Goal_Objective).(Objective_Summary) evidence.(Evidence_TaskID)
    (attemptNumberOf current evidence.(Evidence_AttemptID)) task.(Task_Title)
    proposal.(TaskProposal_Description)
    task.(Task_TerminalContract).(TerminalContract_AcceptanceCriteria)
    proposal.(TaskProposal_PathScopes) evidence evidence.(Evidence_ID)
    current.(Board_IntegratedRevision).

(** The body of the second loop of [verifyPending]. *)
Definition verifyEvidence (boardID : string) (goal : Goal) (plan : Plan) (evidenceID : string) : go unit :=
  checkContext ;;
  current ← Store_Board boardID;
  match evidenceByID current evidenceID with
  | None => ret tt
  | Some evidence =>
      if evidence.(Evidence_State) != EvidenceSubmitted then ret tt else
      match taskByID current evidence.(Evidence_TaskID) with
      | None => ret tt
      | Some task =>
          if task.(Task_State) != TaskVerifying then ret tt else
          if (MaxVerificationAttempts <? evidence.(Evidence_VerificationAttempts))%Z
          then abandonVerification boardID current task evidence else
          verified ← try (scheduler.(Options_Verification) (verificationInput goal plan current task evidence));
          match verified with
          | Ok result => applyVerdict boardID current evidence result
          | Err verifyErr => deferVerification boardID evidence.(Evidence_ID) verifyErr
          | Panic => lift Panic
          end
      end
  end.

Definition verifyPending (boardID : string) : go unit :=
  board ← Store_Board boardID;
  '(goal, plan) ← Runtime_definition boardID;
  let pending := Evidence_ID <$>
    List.filter (λ evidence, evidence.(Evidence_State) == EvidenceSubmitted) board.(Board_Evidence) in
  each (λ _ evidenceID, verifyEvidence boardID goal plan evidenceID) tt pending.

(** * The project gate *)

Definition recordGateUnavailable (boardID : string) (board : Board) (revision : string) (cause : error)
  : go unit :=
  ranAt ← Now;
  ignoreConflict (Store_ApplyBoard boardID
    ((newCommand (fmt_Sprintf "gate-unavailable:%s:%s:%d"
         [AStr boardID; AStr revision; AInt board.(Board_Gate).(ProjectGate_Unavailable)])
        board.(Board_Version) Scheduler_coordinator CommandGateUnavailable)
       <| Command_Revision := revision |>
       <| Command_Gate := Some (mkGateSpec (redact (fmt_Sprintf "项目门禁无法运行：%v" [AVal cause])) ""
                                  (Time_UTC ranAt)) |>)).

(** The guards of [runProjectGate]: the revision to prove, if any. *)
Definition gateRevision (board : Board) : option string :=
  let revision := strings_TrimSpace board.(Board_IntegratedRevision) in
  if negb (ProjectGate_Established board.(Board_Gate)) || board.(Board_Paused) then None else
  if negb (forallb (λ task, (task.(Task_State) == TaskPassed) || task.(Task_Cancelled)
                            || (task.(Task_SupersededBy) != "")) board.(Board_Tasks)) then None else
  if revision == "" then None else
  if (board.(Board_Gate).(ProjectGate_Revision) == revision)
     && (board.(Board_Gate).(ProjectGate_State) != GatePending) then None else
  if (MaxGateUnavailable <=? board.(Board_Gate).(ProjectGate_Unavailable))%Z then None else
  Some revision.

Definition runProjectGate (boardID : string) : go unit :=
  match scheduler.(Options_Gate) with
  | None => ret tt
  | Some gate =>
      board ← Store_Board boardID;
      match gateRevision board with
      | None => ret tt
      | Some revision =>
          outcome ← try (gate board.(Board_Repository) revision board.(Board_Gate).(ProjectGate_Commands));
          match outcome with
          | Panic => lift Panic
          | Err runErr => recordGateUnavailable boardID board revision runErr
          | Ok result =>
              ranAt ← Now;
              let summary := redact result.(GateResult_Summary) in
              let output := if result.(GateResult_Passed) then "" else redact (gateFailureOutput result) in
              let type := if result.(GateResult_Passed) then CommandGatePass else CommandGateFail in
              ignoreConflict (Store_ApplyBoard boardID
                ((newCommand (fmt_Sprintf "gate:%s:%s" [AStr boardID; AStr revision])
                    board.(Board_Version) Scheduler_coordinator type)
                   <| Command_Revision := revision |>
                   <| Command_Gate := Some (mkGateSpec summary output (Time_UTC ranAt)) |>))
          end
      end
  end.

(** * Cycles *)

Fixpoint claimLoop (boardID : string) (n : nat) (cycle : Cycle) : go Cycle :=
  match n with
  | O => ret cycle
  | S n =>
      '(claimed, outcome) ← claimAndDispatch boardID;
      let cycle := cycle <| Cycle_Outcomes := cycle.(Cycle_Outcomes) ++ [outcome] |> in
      if negb claimed then ret cycle
      else claimLoop boardID n (cycle <| Cycle_Claimed := i64 (cycle.(Cycle_Claimed) + 1) |>
                                      <| Cycle_Dispatched := i64 (cycle.(Cycle_Dispatched) + 1) |>)
  end.

(** One board of [runCycle]. *)
Definition cycleBoard (cycle : Cycle) (boardID : string) : go Cycle :=
  checkContext ;;
  verifyPending boardID ;;
  resumeIntegrating boardID ;;
  cycle ← claimLoop boardID maxClaimsPerCycle cycle;
  runProjectGate boardID ;;
  ret cycle.

(** [runCycle]; the cycle beside an error is read by no caller and dropped. *)
Definition runCycle (onlyBoard : string) : go Cycle :=
  now ← Now;
  expired ← go_map_err (λ err, Errorf "reconcile expired leases: %w" [AWrap err])
              (Store_ExpireDueLeases (Time_UTC now) Scheduler_coordinator);
  boards ← (if onlyBoard == ""
            then go_map_err (λ err, Errorf "list boards: %w" [AWrap err]) Store_BoardIDs
            else ret [onlyBoard]);
  each cycleBoard (mkCycle (Z.of_nat (length expired)) 0 0 []) boards.

Definition RunOnce : go Cycle := runCycle "".
Definition RunOnceForBoard (boardID : string) : go Cycle := runCycle boardID.

(** [Run] on a ticker that is closed after [ticks] ticks. *)
Fixpoint Scheduler_Run (ticks : nat) : go unit :=
  match ticks with
  | O => ret tt
  | S ticks =>
      cycle ← try RunOnce;
      match cycle with
      | Err err =>
          if errors_Is err "context canceled" || errors_Is err "context deadline exceeded" then ret tt
          else Scheduler_Run ticks
      | _ => Scheduler_Run ticks
      end
  end.

End scheduler.
