(* ===== verification/Supervisor.v ===== *)
(** The supervisor of a goal: internal/agosupervisor/supervisor.go and runner.go. It
    runs the scheduler for its board, repairs what stopped with plan patches and
    retries, and queues what only a person can decide. *)
From stdpp Require Import sorting.
From S2P Require Import Prelude Sql Paths Planner Protocol Validate Database Store Runtime.
From S2P Require Import Process Environment Scheduler.

Definition DecisionKind : Type := string.
Definition DecisionDestructive : DecisionKind := "destructive".
Definition DecisionCredential : DecisionKind := "credential".
Definition DecisionAmbiguous : DecisionKind := "ambiguous".
Definition DecisionBudget : DecisionKind := "budget".
Definition DecisionExhausted : DecisionKind := "exhausted".

Record UserDecision : Type := mkUserDecision {
  UserDecision_Kind : DecisionKind; UserDecision_TaskID : string; UserDecision_Title : string;
  UserDecision_Reason : string; UserDecision_Suggestion : string; UserDecision_RaisedAt : Time;
  UserDecision_AttemptsUsed : Z;
}.

Record Authorization : Type := mkAuthorization {
  Authorization_LocalFileWrites : bool; Authorization_LocalCommits : bool; Authorization_Push : bool;
  Authorization_Publish : bool; Authorization_Destructive : bool;
  Authorization_MaxRepairsPerTask : Z; Authorization_MaxPatches : Z;
}.
#[export] Instance Authorization_eta : Eta Authorization := λ r, mkAuthorization
  (r.(Authorization_LocalFileWrites)) (r.(Authorization_LocalCommits)) (r.(Authorization_Push))
  (r.(Authorization_Publish)) (r.(Authorization_Destructive)) (r.(Authorization_MaxRepairsPerTask))
  (r.(Authorization_MaxPatches)).

Definition defaultMaxRepairsPerTask : Z := 2.
Definition defaultMaxPatches : Z := 16.

Record SupervisorOptions : Type := mkSupervisorOptions {
  SupervisorOptions_Scheduler : SchedulerOptions; SupervisorOptions_BoardID : string;
  SupervisorOptions_Authorize : Authorization; SupervisorOptions_CoordinatorID : string;
}.
#[export] Instance SupervisorOptions_eta : Eta SupervisorOptions := λ r, mkSupervisorOptions
  (r.(SupervisorOptions_Scheduler)) (r.(SupervisorOptions_BoardID)) (r.(SupervisorOptions_Authorize))
  (r.(SupervisorOptions_CoordinatorID)).

(** The fields of a [Supervisor] that change. *)
Record Supervisor : Type := mkSupervisor { patches : Z; decisions : list UserDecision }.
#[export] Instance Supervisor_eta : Eta Supervisor := λ r, mkSupervisor (r.(patches)) (r.(decisions)).

Definition Supervisor_New (options : SupervisorOptions) : result (SupervisorOptions * Supervisor) :=
  fail_if ((strings_TrimSpace options.(SupervisorOptions_BoardID) == "")
           || (strings_TrimSpace options.(SupervisorOptions_CoordinatorID) == ""))
    (Errorf "supervisor requires a board id and a coordinator identity" []) ;;
  let authorize := options.(SupervisorOptions_Authorize) in
  let repairs := authorize.(Authorization_MaxRepairsPerTask) in
  let most := authorize.(Authorization_MaxPatches) in
  Ok (options <| SupervisorOptions_Authorize := authorize
        <| Authorization_MaxRepairsPerTask := if (repairs <=? 0)%Z then defaultMaxRepairsPerTask else repairs |>
        <| Authorization_MaxPatches := if (most <=? 0)%Z then defaultMaxPatches else most |> |>,
      mkSupervisor 0 []).

Record Status : Type := mkStatus {
  Status_Complete : bool; Status_Blocked : bool; Status_Passed : Z; Status_Failed : Z;
  Status_Remaining : Z; Status_Decisions : list UserDecision; Status_Proven : bool;
  Status_GateState : GateState; Status_GateSummary : string;
}.
Definition Status_zero : Status := mkStatus false false 0 0 0 [] false "" "".

(** * The attention queue *)

Definition alreadyRaised (supervisor : Supervisor) (taskID : string) : bool :=
  existsb (λ decision, decision.(UserDecision_TaskID) == taskID) supervisor.(decisions).

Definition decisionOrder (d d' : UserDecision) : Prop :=
  byteOrder d.(UserDecision_TaskID) d'.(UserDecision_TaskID).
#[export] Instance decisionOrder_dec : RelDecision decisionOrder.
Proof. intros d d'. unfold decisionOrder. apply _. Defined.

(** [raise]; no decision has the task of another, so any sorting is stable. *)
Definition raised (decision : UserDecision) (supervisor : Supervisor) : Supervisor :=
  if alreadyRaised supervisor decision.(UserDecision_TaskID) then supervisor
  else supervisor <| decisions := merge_sort decisionOrder (supervisor.(decisions) ++ [decision]) |>.
Definition raise (decision : UserDecision) : stateful Supervisor unit := update (raised decision).

(** * Stopped tasks *)

Definition escalationFor (task : Task) (authorize : Authorization) : DecisionKind * bool :=
  let class := task.(Task_FailureClass) in
  if class == FailureAuth then (DecisionCredential, true)
  else if class == FailureNeedsInput then (DecisionAmbiguous, true)
  else if class == FailurePolicy then
    if authorize.(Authorization_Destructive) then ("", false) else (DecisionDestructive, true)
  else if class == FailureRepository then (DecisionAmbiguous, true)
  else if class == FailureExhausted then (DecisionExhausted, true)
  else if (class == FailureVerifierFeedback) || (class == FailureTransient) || (class == FailurePermanent)
  then ("", false)
  else (DecisionAmbiguous, true).

Definition suggestionFor (kind : DecisionKind) : string :=
  if kind == DecisionCredential then "在环境中配置所需凭据后重试；凭据不会写入任务或事件。"
  else if kind == DecisionDestructive then "拒绝并把该操作拆成一个需要显式授权的任务。"
  else if kind == DecisionAmbiguous then "补充这项信息，然后从任务抽屉重试。"
  else if kind == DecisionExhausted then "检查任务契约是否可行，或缩小范围后手动重试。"
  else if kind == DecisionBudget then "提高预算或人工确认剩余工作。"
  else "需要人工判断。".

(** A task that counts as done with. *)
Definition settled (task : Task) : bool :=
  (task.(Task_State) == TaskPassed) || task.(Task_Cancelled) || (task.(Task_SupersededBy) != "").

(** * Waiting *)

Definition minDuration : Duration := (- 2 ^ 63)%Z.
Definition maxDuration : Duration := (2 ^ 63 - 1)%Z.
(** [Time.Sub] saturates. *)
Definition Time_Sub (t u : Time) : Duration := Z.max minDuration (Z.min maxDuration (t - u)).

(** The loop of [waitForRetry]: [None] once it returned. *)
Definition earliestRetry (supervisor : Supervisor) (board : Board) : option Time :=
  foldl (λ (earliest : option Time) task,
      earliest ← earliest;
      if settled task then Some earliest
      else if task.(Task_State) != TaskRetryWait then
        if (task.(Task_State) != TaskFailed) || negb (alreadyRaised supervisor task.(Task_ID))
        then None else Some earliest
      else if Time_IsZero earliest || Time_Before task.(Task_NextEligibleAt) earliest
      then Some task.(Task_NextEligibleAt) else Some earliest)
    (Some Time_zero) board.(Board_Tasks).

(** * Stuck goals *)

(** One pass over the dependencies; the flag is [changed]. *)
Definition propagate (dependencies : list Dependency) (waiting : gset string) : gset string * bool :=
  foldl (λ '(waiting, changed) dependency,
      if bool_decide (dependency.(Dependency_DependsOn) ∈ waiting)
         && bool_decide (dependency.(Dependency_TaskID) ∉ waiting)
      then ({[ dependency.(Dependency_TaskID) ]} ∪ waiting, true) else (waiting, changed))
    (waiting, false) dependencies.

(** [for changed]; a pass that changes something adds the task of a dependency. *)
Fixpoint fixpoint (fuel : nat) (dependencies : list Dependency) (waiting : gset string) : option (gset string) :=
  match fuel with
  | O => None
  | S fuel =>
      let '(waiting, changed) := propagate dependencies waiting in
      if changed : bool then fixpoint fuel dependencies waiting else Some waiting
  end.

Definition waitingRoots (supervisor : Supervisor) (board : Board) : gset string :=
  list_to_set (Task_ID <$> List.filter (λ task, (task.(Task_State) == TaskFailed)
    && alreadyRaised supervisor task.(Task_ID)) board.(Board_Tasks)).

Definition waitingTasks (supervisor : Supervisor) (board : Board) : gset string :=
  default ∅ (fixpoint (S (length board.(Board_Dependencies))) board.(Board_Dependencies)
    (waitingRoots supervisor board)).

Definition everyRemainingStopNeedsAPerson (supervisor : Supervisor) (board : Board) : bool :=
  let waiting := waitingTasks supervisor board in
  let pending := List.filter (λ task, negb (settled task)) board.(Board_Tasks) in
  let stuck := List.filter (λ task, bool_decide (task.(Task_ID) ∈ waiting)) pending in
  (0 <? length pending)%nat && (length pending =? length stuck)%nat.

(** * Repairs *)

Definition gateDecisionID : string := "project-gate".
Definition repairVerifiers : list string := ["ago-verifier"].

(** [repairScopes] past the read of the plan; the map [seen] has the members of
    [scopes]. *)
Definition repairScopesOf (plan : Plan) : list string :=
  merge_sort byteOrder (foldl (λ scopes scope,
      if existsb (String.eqb scope) scopes then scopes else scopes ++ [scope])
    [] (concat (TaskProposal_PathScopes <$> plan.(Plan_Tasks)))).

Section supervisor.
Context {golib : GoLib}.

Definition failureNarrative (task : Task) : string :=
  let reason := strings_TrimSpace task.(Task_BlockedReason) in
  let reason := if reason == "" then "未记录原因" else reason in
  if task.(Task_FailureClass) == FailureNone then reason
  else fmt_Sprintf "%s（%s）" [AStr reason; AStr task.(Task_FailureClass)].

Context (options : SupervisorOptions).

Definition boardID : string := options.(SupervisorOptions_BoardID).
Definition Supervisor_coordinator : Actor :=
  mkActor options.(SupervisorOptions_CoordinatorID) RoleCoordinator.

(** A decision about a task or the gate, raised now. *)
Definition raiseNow (kind : DecisionKind) (taskID title reason suggestion : string) (attempts : Z)
  : stateful Supervisor unit :=
  now ← calls Now;
  raise (mkUserDecision kind taskID title reason suggestion (Time_UTC now) attempts).

(** A command of the supervisor. *)
Definition supervise (id : string) (version : Z) (type : CommandType) : Command :=
  Command_zero <| Command_SchemaVersion := SchemaVersion |> <| Command_ID := "cmd:" +:+ id |>
    <| Command_ExpectedVersion := version |> <| Command_Actor := Supervisor_coordinator |>
    <| Command_Type := type |>.

Definition repairPatchID (task : Task) (count : Z) : string :=
  fmt_Sprintf "repair:%s:%d" [AStr task.(Task_ID); AInt count].

Definition repairedContract (task : Task) : TerminalContract :=
  mkTerminalContract task.(Task_TerminalContract).(TerminalContract_Outcome)
    (task.(Task_TerminalContract).(TerminalContract_AcceptanceCriteria)
       ++ [fmt_Sprintf "修复上一次失败：%s" [AStr (failureNarrative task)]]).

Definition repairCommand (task : Task) (count : Z) (version : Z) : Command :=
  (supervise (repairPatchID task count) version CommandPlanPatch)
    <| Command_Patch := Some (mkPatchSpec (repairPatchID task count)
         [PatchStep_zero <| PatchStep_Operation := PatchUpdateAcceptance |>
            <| PatchStep_TaskID := task.(Task_ID) |> <| PatchStep_Acceptance := Some (repairedContract task) |>]
         (fmt_Sprintf "验收未通过，自动生成修复要求（第 %d 次）" [AInt count])) |>.

Definition retryCommand (task : Task) (count : Z) (version : Z) : Command :=
  (supervise ("retry:" +:+ repairPatchID task count) version CommandTaskRetry)
    <| Command_TaskID := task.(Task_ID) |>
    <| Command_Reason := fmt_Sprintf "自动修复第 %d 次：%s" [AInt count; AStr (failureNarrative task)] |>.

Definition isConflict (err : error) : bool := errors_Is err "was already used for different content".

Definition repair (task : Task) : stateful Supervisor unit :=
  supervisor ← get;
  let most := options.(SupervisorOptions_Authorize).(Authorization_MaxPatches) in
  if (most <=? supervisor.(patches))%Z then
    raiseNow DecisionBudget task.(Task_ID) task.(Task_Title)
      (fmt_Sprintf "已达到本目标的计划修改上限（%d 次）。" [AInt most]) "提高预算或人工确认剩余工作。" 0
  else
  let count := i64 (task.(Task_UserRetries) + 1) in
  update (λ s, s <| patches := i64 (s.(patches) + 1) |>) ;;
  board ← calls (Store_Board boardID);
  patched ← attempt (calls (Store_ApplyBoard boardID (repairCommand task count board.(Board_Version))));
  match patched with
  | Err err =>
      if isConflict err then done tt
      else fail (Errorf "apply repair patch for %q: %w" [AStr task.(Task_ID); AWrap err])
  | _ =>
      updated ← calls (Store_Board boardID);
      retried ← attempt (calls (Store_ApplyBoard boardID (retryCommand task count updated.(Board_Version))));
      match retried with
      | Err err =>
          if isConflict err then done tt
          else fail (Errorf "retry task %q after repair: %w" [AStr task.(Task_ID); AWrap err])
      | _ => done tt
      end
  end.

Definition manualSuggestion : string := "检查任务契约是否可行，或缩小范围后手动重试。".

(** The loop body of [reviewStoppedWork]. *)
Definition reviewTask (task : Task) : stateful Supervisor unit :=
  if (task.(Task_State) != TaskFailed) || task.(Task_Cancelled) || (task.(Task_SupersededBy) != "")
  then done tt else
  supervisor ← get;
  if alreadyRaised supervisor task.(Task_ID) then done tt else
  let '(kind, needsUser) := escalationFor task options.(SupervisorOptions_Authorize) in
  if needsUser : bool then
    raiseNow kind task.(Task_ID) task.(Task_Title) (failureNarrative task) (suggestionFor kind)
      task.(Task_AttemptCount)
  else if (options.(SupervisorOptions_Authorize).(Authorization_MaxRepairsPerTask) <=? task.(Task_UserRetries))%Z then
    raiseNow DecisionExhausted task.(Task_ID) task.(Task_Title)
      (fmt_Sprintf "自动修复已用尽（%d 次）：%s" [AInt task.(Task_UserRetries); AStr (failureNarrative task)])
      manualSuggestion task.(Task_AttemptCount)
  else
    repaired ← attempt (repair task);
    match repaired with
    | Err err =>
        raiseNow DecisionExhausted task.(Task_ID) task.(Task_Title)
          (fmt_Sprintf "自动修复失败：%v" [AVal err]) manualSuggestion task.(Task_AttemptCount)
    | _ => done tt
    end.

Definition reviewStoppedWork (board : Board) : stateful Supervisor unit := foreach reviewTask board.(Board_Tasks).

(** * The project gate *)

Definition repairScopes : go (list string) :=
  plan ← go_map_err (λ err, Errorf "read the goal's plan: %w" [AWrap err]) (Store_StoredPlan boardID);
  ret (repairScopesOf plan).

Definition gateRepairProposal (board : Board) (scopes : list string) : TaskProposal :=
  let round := board.(Board_Gate).(ProjectGate_Failures) in
  mkTaskProposal (fmt_Sprintf "gate-repair-%d" [AInt round])
    (fmt_Sprintf "修复项目门禁失败（第 %d 次）" [AInt round])
    (fmt_Sprintf ("集成结果没有通过项目门禁。失败输出如下，请修复到全部检查通过：" +:+ newline +:+ newline +:+ "%s")
       [AStr board.(Board_Gate).(ProjectGate_FailureOutput)])
    scopes
    ["集成结果通过项目门禁的全部检查"; fmt_Sprintf "修复以下失败：%s" [AStr board.(Board_Gate).(ProjectGate_Summary)]]
    repairVerifiers ["repo-read"; "repo-write"; "tests"].

Definition gateRepairCommand (board : Board) (proposal : TaskProposal) : Command :=
  let round := board.(Board_Gate).(ProjectGate_Failures) in
  let patchID := fmt_Sprintf "gate-repair:%d" [AInt round] in
  (supervise patchID board.(Board_Version) CommandPlanPatch)
    <| Command_Patch := Some (mkPatchSpec patchID
         [PatchStep_zero <| PatchStep_Operation := PatchAddTask |>
            <| PatchStep_Task := Some (mkTaskSpec proposal.(TaskProposal_ID) proposal.(TaskProposal_Title)
                 (mkTerminalContract "项目门禁通过" proposal.(TaskProposal_AcceptanceCriteria)) AccessWrite) |>]
         (fmt_Sprintf "集成结果未通过项目门禁，新增修复任务（第 %d 次）" [AInt round])) |>.

Definition repairForGate (board : Board) : go unit :=
  scopes ← repairScopes;
  if (length scopes =? 0)%nat then throw (Errorf "目标里没有任何可写路径，无法安排修复" []) else
  let proposal := gateRepairProposal board scopes in
  added ← try (Store_ApplyBoardWithProposal boardID (gateRepairCommand board proposal) proposal);
  match added with
  | Err err => if isConflict err then ret tt else throw (Errorf "add gate repair task: %w" [AWrap err])
  | _ => ret tt
  end.

Definition raiseGate (title reason suggestion : string) : stateful Supervisor unit :=
  raiseNow DecisionExhausted gateDecisionID title reason suggestion 0.

Definition gateReport (board : Board) : string :=
  fmt_Sprintf ("%s" +:+ newline +:+ newline +:+ "%s")
    [AStr board.(Board_Gate).(ProjectGate_Summary); AStr board.(Board_Gate).(ProjectGate_FailureOutput)].

Definition reviewFailedGate : stateful Supervisor unit :=
  board ← calls (Store_Board boardID);
  supervisor ← get;
  let gate := board.(Board_Gate) in
  if ProjectGate_Established gate && (MaxGateUnavailable <=? gate.(ProjectGate_Unavailable))%Z
     && negb (alreadyRaised supervisor gateDecisionID) then
    raiseGate "项目门禁无法运行"
      (fmt_Sprintf "连续 %d 次无法运行项目门禁：%s"
         [AInt gate.(ProjectGate_Unavailable); AStr gate.(ProjectGate_LastError)])
      "这通常是环境问题：检查仓库是否可读、工具链是否可用、磁盘是否可写。修好后重试。"
  else if gate.(ProjectGate_State) != GateFailed then done tt
  else if gate.(ProjectGate_Revision) != board.(Board_IntegratedRevision) then done tt
  else if negb (forallb settled board.(Board_Tasks)) then done tt
  else if alreadyRaised supervisor gateDecisionID then done tt
  else if (MaxGateRepairs <? gate.(ProjectGate_Failures))%Z then
    raiseGate "项目门禁未通过" (gateReport board)
      "自动修复已用尽。请检查集成分支上的失败，或缩小目标范围后重试。"
  else
    repaired ← attempt (calls (repairForGate board));
    match repaired with
    | Err err =>
        raiseGate "项目门禁未通过"
          (fmt_Sprintf ("%s" +:+ newline +:+ newline +:+ "%s" +:+ newline +:+ newline +:+ "（无法自动安排修复：%v）")
             [AStr gate.(ProjectGate_Summary); AStr gate.(ProjectGate_FailureOutput); AVal err])
          "请检查集成分支上的失败，或缩小目标范围后重试。"
    | _ => done tt
    end.

(** * Passes *)

Definition status : stateful Supervisor Status :=
  completion ← calls (Store_completion boardID);
  board ← calls (Store_Board boardID);
  supervisor ← get;
  let complete := completion.(Completion_Done) in
  done (mkStatus complete (negb complete && everyRemainingStopNeedsAPerson supervisor board)
    completion.(Completion_Passed) completion.(Completion_Failed) completion.(Completion_Remaining)
    supervisor.(decisions) completion.(Completion_Proven) board.(Board_Gate).(ProjectGate_State)
    board.(Board_Gate).(ProjectGate_Summary)).

Definition Supervisor_Step : stateful Supervisor Status :=
  fails_with (λ err, Errorf "scheduler cycle: %w" [AWrap err])
    (calls (RunOnceForBoard options.(SupervisorOptions_Scheduler) boardID)) ;;
  board ← calls (Store_Board boardID);
  reviewStoppedWork board ;;
  reviewFailedGate ;;
  status.

Definition waitForRetry : stateful Supervisor unit :=
  board ← calls (Store_Board boardID);
  now ← calls Now;
  supervisor ← get;
  match earliestRetry supervisor board with
  | None => done tt
  | Some earliest =>
      if Time_IsZero earliest then done tt else
      let delay := Time_Sub earliest now in
      if (delay <=? 0)%Z then done tt else
      cancelled ← calls (ask (CallWait delay));
      match cancelled with Some err => fail err | None => done tt end
  end.

(** [Run] with [steps] passes left; the status beside an error is dropped. *)
Fixpoint supervise_for (steps : nat) (maxSteps : Z) : stateful Supervisor Status :=
  match steps with
  | O => fail (Errorf "goal did not reach a terminal state within %d supervisory steps" [AInt maxSteps])
  | S steps =>
      calls checkContext ;;
      status ← Supervisor_Step;
      if status.(Status_Complete) || status.(Status_Blocked) then done status
      else waitForRetry ;; supervise_for steps maxSteps
  end.

Definition Supervisor_Run (maxSteps : Z) : stateful Supervisor Status :=
  let maxSteps := if (maxSteps <=? 0)%Z then 512%Z else maxSteps in
  supervise_for (Z.to_nat maxSteps) maxSteps.

End supervisor.

(** * The runner *)

Record Runner : Type := mkRunner {
  Runner_scheduler : SchedulerOptions; Runner_authorize : Authorization; Runner_actorID : string;
}.

Definition NewRunner (scheduler : SchedulerOptions) (authorize : Authorization) (coordinatorID : string) : Runner :=
  mkRunner scheduler authorize (if coordinatorID == "" then "ago-supervisor" else coordinatorID).

(** The map [supervisors]. *)
Abbreviation supervisors := (gmap string (SupervisorOptions * Supervisor)).

Definition supervisorFor (runner : Runner) (boardID : string) (known : supervisors)
  : result (SupervisorOptions * Supervisor) :=
  match known !! boardID with
  | Some existing => Ok existing
  | None => Supervisor_New (mkSupervisorOptions runner.(Runner_scheduler) boardID runner.(Runner_authorize)
              runner.(Runner_actorID))
  end.

Section runner.
Context {golib : GoLib} (runner : Runner).

(** The pass over one board; its outcome is ignored. *)
Definition stepBoard (boardID : string) : stateful supervisors unit := λ known,
  match supervisorFor runner boardID known with
  | Ok (options, supervisor) =>
      proc_bind (Supervisor_Step options supervisor) (λ '(supervisor, outcome),
        let known := <[boardID := (options, supervisor)]> known in
        match outcome with Panic => Done (known, Panic) | _ => Done (known, Ok tt) end)
  | Err _ => Done (known, Ok tt)
  | Panic => Done (known, Panic)
  end.

(** The loop ends once the context does. *)
Fixpoint stepBoards (boards : list string) : stateful supervisors unit :=
  match boards with
  | [] => done tt
  | boardID :: boards =>
      cancelled ← calls (ask CallContextErr);
      match cancelled with
      | Some _ => done tt
      | None => stepBoard boardID ;; stepBoards boards
      end
  end.

Definition Runner_step : stateful supervisors unit :=
  listed ← attempt (calls Store_BoardIDs);
  match listed with Ok boards => stepBoards boards | _ => done tt end.

(** [Runner.Run], whose context ends after [ticks] ticks. *)
Fixpoint Runner_Run (ticks : nat) : stateful supervisors unit :=
  match ticks with O => done tt | S ticks => Runner_step ;; Runner_Run ticks end.

Definition PendingDecisions (known : supervisors) (boardID : string) : list UserDecision :=
  match known !! boardID with Some (_, supervisor) => supervisor.(decisions) | None => [] end.

End runner.
