(* ===== verification/Trust.v ===== *)
(** What the scheduler relies on, as interfaces its collaborators implement, and what every
    history of a scheduler satisfies because of it. *)
From S2P Require Import Prelude Sql Paths Planner Protocol Validate Database Store Runtime.
From S2P Require Import Process Environment Verify Integrate Scheduler Supervisor.

(** What the scheduler relies on: the promises of its collaborators (the
    verification, the project gate, the integrator, the artifact store), stated
    as interfaces, and the proofs that the packages of the repository keep them. *)

Section trust.
Context {golib : GoLib}.

(** * Repositories *)

Definition temporary (h : history) (dir : string) : Prop :=
  ∃ root pattern, existT (CallMkdirTemp root pattern) (Ok dir) ∈ h.

(** The git commands that leave the user's work alone: reading a revision,
    adding and removing a worktree in a new directory, committing there,
    creating a ref of Ago's own and moving one from the value it was read at. *)
Inductive git_safe (h : history) (dir : string) : list string → Prop :=
  | safe_read args : git_safe h dir ("rev-parse" :: args)
  | safe_add scratch revision :
      temporary h scratch → git_safe h dir ["worktree"; "add"; "--detach"; scratch; revision]
  | safe_remove scratch :
      temporary h scratch → git_safe h dir ["worktree"; "remove"; "--force"; scratch]
  | safe_scratch command args :
      temporary h dir → command ∈ ["apply"; "add"; "diff"; "-c"] → git_safe h dir (command :: args)
  | safe_create ref base : validateAgoRef ref = Ok tt → git_safe h dir ["update-ref"; ref; base]
  | safe_update ref new old : validateAgoRef ref = Ok tt → git_safe h dir ["update-ref"; ref; new; old].

Definition contained (h : history) (c : call) : Prop :=
  match c with
  | CallExec dir name args _ => name = "git" ∧ git_safe h dir args
  | CallRemoveAll dir => temporary h dir
  | CallCheck dir name args => temporary h dir
  | _ => True
  end.

(** What a collaborator of the scheduler may call: nothing of the store, no
    executor, and git only as above. *)
Definition boxed (h : history) (c : call) : Prop := contained h c ∧ quiet c.

(** * Acceptance *)

(** The deterministic checks, on the evidence of the input. *)
Record checked (input : VerifyInput) : Prop := {
  ck_tests : FailedRequiredTests input.(VerifyInput_Evidence).(Evidence_Result) = [];
  ck_summary : strings_TrimSpace
    input.(VerifyInput_Evidence).(Evidence_Result).(EvidenceResult_Summary) ≠ "";
  ck_paths : pathsOutsideScope
    input.(VerifyInput_Evidence).(Evidence_Result).(EvidenceResult_ChangedFiles)
    input.(VerifyInput_AllowedPathScopes) = [];
  ck_patch : checkPatch input.(VerifyInput_Evidence).(Evidence_Result)
    input.(VerifyInput_AllowedPathScopes) = None;
}.

(** The judge was shown this input and accepted it, criterion by criterion. *)
Definition judged (h : history) (input : VerifyInput) : Prop :=
  checked input ∧
  ∃ text verdict, existT (CallJudge (judgeInput input text)) (Ok verdict) ∈ h ∧
    verdict.(JudgeVerdict_Decision) = DecisionAccept ∧
    Forall (λ c, c.(CriterionOutcome_Passed) = true) verdict.(JudgeVerdict_Criteria) ∧
    (input.(VerifyInput_AcceptanceCriteria) ≠ [] → verdict.(JudgeVerdict_Criteria) ≠ []).

Class Judging (verify : VerifyInput → go VerifyResult) : Prop := {
  judging_accepts : ∀ input h, ensures boxed (verify input) h (λ h' r,
    ∀ result, r = Ok result → result.(VerifyResult_Decision) = DecisionAccept → judged h' input);
}.

(** The pipeline as the server wires it: a model judges, the artifact store is read. *)
Definition systemVerifier : VerifierOptions :=
  mkVerifierOptions Judge_Judge (Some (mkArtifacts Artifacts_Verify Artifacts_Bytes)).

Lemma verifyArtifacts_rules result h :
  ensures (λ _ _, True) (verifyArtifacts systemVerifier result) h
    (λ _ r, ∀ v, r = Ok (Some v) → v.(VerifyResult_Decision) = DecisionRetry).
Proof.
  apply (ensures_each _ _ (λ _ (s : option VerifyResult), ∀ v, s = Some v → v.(VerifyResult_Decision) = DecisionRetry));
    [|naive_solver..].
  intros h' s reference _ Hs. destruct s as [v|]; [done|]. apply ensures_go_bind, ensures_bind.
  eapply ensures_mono; [apply ensures_any|]. intros h'' [u|e|] _ _; cbn; [naive_solver| |done].
  by intros v [= <-].
Qed.

Lemma checkAcceptance_None input verdict :
  verdict.(JudgeVerdict_Decision) = DecisionAccept → checkAcceptance input verdict = None →
  Forall (λ c, c.(CriterionOutcome_Passed) = true) verdict.(JudgeVerdict_Criteria) ∧
  (input.(VerifyInput_AcceptanceCriteria) ≠ [] → verdict.(JudgeVerdict_Criteria) ≠ []).
Proof.
  intros Hd. unfold checkAcceptance. rewrite Hd. cbn.
  destruct (List.find _ _) as [c|] eqn:Ef; [done|]. intros H. split.
  - apply Forall_forall. intros c Hc%list_elem_of_In. pose proof (List.find_none _ _ Ef c Hc) as Hn. cbn in Hn.
    by destruct (CriterionOutcome_Passed c).
  - intros Hne Hnil. rewrite Hnil in H. destruct (VerifyInput_AcceptanceCriteria input); [done|].
    cbn in H. done.
Qed.

Lemma checkPatch_rules result scopes v : checkPatch result scopes = Some v → v.(VerifyResult_Decision) ≠ DecisionAccept.
Proof. unfold checkPatch. intros H. repeat case_match; simplify_eq; done. Qed.

Lemma checkAcceptance_rules input verdict v :
  checkAcceptance input verdict = Some v → v.(VerifyResult_Decision) = DecisionRetry.
Proof. unfold checkAcceptance. intros H. repeat case_match; simplify_eq; done. Qed.

#[export] Instance verifier_judging : Judging (Verifier_Verify systemVerifier).
Proof.
  split. intros input h. apply always_post.
  - unfold Verifier_Verify, verifyArtifacts, patchText.
    cbn [systemVerifier VerifierOptions_Artifacts VerifierOptions_Judge Artifacts_verify Artifacts_bytes].
    by walk_calls.
  - unfold Verifier_Verify.
    destruct (0 <? length _)%nat eqn:Et; [by intros ? [= <-]|].
    destruct (strings_TrimSpace _ == "") eqn:Es; [by intros ? [= <-]|].
    apply ensures_go_bind. eapply ensures_mono; [apply verifyArtifacts_rules|].
    intros h1 [[v|]|e|] _ Hv; [intros ? [= <-]; by rewrite (Hv _ eq_refl)| |done..].
    destruct (0 <? length (pathsOutsideScope _ _))%nat eqn:Ep; [by intros ? [= <-]|].
    destruct (checkPatch _ _) as [v|] eqn:Epatch; [intros ? [= <-] ?; by eapply checkPatch_rules in Epatch|].
    apply ensures_go_bind, ensures_bind. eapply ensures_mono; [apply ensures_any|].
    intros h2 [text|e|] _ _; [|by intros ? [= <-]|done].
    split; [done|]. intros [verdict|e|]; [|done..]. cbn. intros result [= <-] Hd.
    destruct (checkAcceptance input verdict) as [v|] eqn:Ea.
    + cbn in Hd. apply checkAcceptance_rules in Ea. by rewrite Ea in Hd.
    + cbn in Hd. destruct (checkAcceptance_None _ _ Hd Ea) as [Hall Hne]. split.
      * apply Nat.ltb_ge in Et, Ep. apply String.eqb_neq in Es.
        split; [by apply length_zero_iff_nil, Nat.le_0_r|done|by apply length_zero_iff_nil, Nat.le_0_r|done].
      * exists text, verdict. split_and!; try done. apply elem_of_app. right. by left.
Qed.

(** * The project gate *)

(** The check ran in [dir] and exited with 0. *)
Definition check_passed (h : history) (dir command : string) : Prop :=
  ∃ name args output, splitCommand command = Ok (name, args) ∧
    existT (CallCheck dir name args) ((output, 0%Z), None) ∈ h.

(** Every check of the project passed in one fresh checkout of the revision. *)
Definition proved (h : history) (repository revision : string) (commands : list string) : Prop :=
  ∃ dir output, existT (CallExec repository "git" ["worktree"; "add"; "--detach"; dir; revision] "")
      (output, None) ∈ h ∧
    Forall (check_passed h dir) commands.

Class Gating (gate : string → string → list string → go GateResult) : Prop := {
  gating_proves : ∀ repository revision commands h,
    ensures boxed (gate repository revision commands) h (λ h' r,
      ∀ result, r = Ok result → result.(GateResult_Passed) = true → proved h' repository revision commands);
}.

(** * Integration *)

(** The revision is the tip of the request's ref: it was read there, or the ref was
    moved to it from the value that was read. *)
Definition integrated (h : history) (request : IntegrateRequest) (revision : string) : Prop :=
  let repository := request.(IntegrateRequest_Repository) in
  let ref := request.(IntegrateRequest_IntegrationRef) in
  ∃ read err, existT (CallExec repository "git" ["rev-parse"; ref] "") ((read, err), None) ∈ h ∧
    (revision = strings_TrimSpace read ∨
     ∃ output, existT (CallExec repository "git" ["update-ref"; ref; revision; strings_TrimSpace read] "")
       (output, None) ∈ h).

Class Integrating (integrate : IntegrateRequest → go IntegrateResult) : Prop := {
  integrating_moves : ∀ request h, ensures boxed (integrate request) h (λ h' r,
    ∀ result, r = Ok result → integrated h' request result.(IntegrateResult_Revision));
}.

Lemma judged_mono h h' input : h `prefix_of` h' → judged h input → judged h' input.
Proof.
  intros Hp [Hc (text & verdict & He & Hr)]. split; [done|]. exists text, verdict. split; [by eapply event_kept|done].
Qed.

Lemma integrated_mono h h' request revision :
  h `prefix_of` h' → integrated h request revision → integrated h' request revision.
Proof.
  intros Hp (read & err & Hr & Ho). exists read, err. split; [by eapply event_kept|].
  destruct Ho as [?|[output Ho]]; [by left|right]. exists output. by eapply event_kept.
Qed.

Lemma temporary_mono h h' dir : h `prefix_of` h' → temporary h dir → temporary h' dir.
Proof. intros [more ->] (root & pattern & H). exists root, pattern. apply elem_of_app. by left. Qed.

Lemma check_passed_mono h h' dir command :
  h `prefix_of` h' → check_passed h dir command → check_passed h' dir command.
Proof.
  intros [more ->] (name & args & output & Hs & H). exists name, args, output. split; [done|].
  apply elem_of_app. by left.
Qed.

Lemma git_contained h dir args :
  (∀ h', h `prefix_of` h' → git_safe h' dir args) → ensures boxed (git dir args) h (λ h' _, h `prefix_of` h').
Proof.
  intros Hs. apply ensures_go_bind. ensures_call; [split; [split; [done|by apply Hs]|done]|].
  intros [[out err] [o|]]; by apply prefix_app_r.
Qed.

Lemma promote_contained integrator request scratch tip :
  validateAgoRef request.(IntegrateRequest_IntegrationRef) = Ok tt →
  always (λ h c, temporary h scratch → boxed h c) (promote integrator request scratch tip).
Proof.
  intros Href. unfold promote, applyPatch, alreadyApplied, git. walk_calls.
  all: intros Ht; (split; [|done]); (split; [done|]).
  all: try (apply safe_scratch; [exact Ht|set_solver]); try apply safe_read; try by apply safe_update.
Qed.

Lemma git_answers ok h dir args :
  ok h (CallExec dir "git" args "") →
  ensures ok (git dir args) h (λ h' r, h `prefix_of` h' ∧ ∀ out, r = Ok out →
    ∃ err, existT (CallExec dir "git" args "") ((out, err), None) ∈ h').
Proof.
  intros Hok. apply ensures_go_bind. ensures_call; [done|]. intros [[out err] [o|]]; (split; [by apply prefix_app_r|]); [done|].
  intros ? [= <-]. exists err. apply elem_of_app. right. by left.
Qed.

(** Where [promote] leaves the ref. *)
Lemma promote_moves integrator request scratch tip h :
  ensures (λ _ _, True) (promote integrator request scratch tip) h (λ h' r, h `prefix_of` h' ∧ ∀ result, r = Ok result →
    result.(IntegrateResult_Revision) = tip ∨
    ∃ output, existT (CallExec request.(IntegrateRequest_Repository) "git"
      ["update-ref"; request.(IntegrateRequest_IntegrationRef); result.(IntegrateResult_Revision); tip] "")
      (output, None) ∈ h').
Proof.
  unfold promote. apply ensures_go_bind, ensures_try. eapply ensures_mono; [apply ensures_any|].
  intros h1 [applied|e|] Hp1 _; [| |by split].
  - apply ensures_past; [done|]. intros h2 _ Hp2. apply ensures_past; [done|]. intros h3 staged Hp3.
    destruct (strings_TrimSpace staged == "");
      [destruct (_ && _); (split; [done|]); [by intros ? [= <-]; left|done]|].
    apply ensures_past; [done|]. intros h4 _ Hp4. apply ensures_past; [done|]. intros h5 raw Hp5.
    apply ensures_go_bind, ensures_map_err. eapply ensures_mono; [by apply git_answers|].
    intros h6 [out|e|] _ [Hp6 Hout]; [|(split; [by etransitivity|done])..]. split; [by etransitivity|].
    intros ? [= <-]. right. destruct (Hout _ eq_refl) as [err He]. by eexists.
  - apply ensures_past; [done|]. intros h2 already Hp2. destruct already; (split; [done|]); [|done].
    intros ? [= <-]. by left.
Qed.

Lemma worktree_contained repository dir revision describe :
  always (λ h c, temporary h dir → boxed h c) (addWorktree repository dir revision describe) ∧
  always (λ h c, temporary h dir → boxed h c) (removeWorktree repository dir).
Proof.
  unfold addWorktree, removeWorktree, gitIgnored, git. split; walk_calls; intros Ht; cbn.
  all: split; [|done]; first [exact Ht|split; [done|]; by constructor].
Qed.

(** Creating a ref of Ago's own. *)
Lemma EnsureRef_contained repository ref base : always boxed (EnsureRef repository ref base).
Proof.
  unfold EnsureRef, git. destruct (validateAgoRef ref) as [[]|e|] eqn:Href; [|apply always_Done..]. cbn [lift]. walk_calls.
  all: (split; [|done]); (split; [done|]); first [apply safe_read|by apply safe_create].
Qed.

#[export] Instance integrator_integrating integrator : Integrating (Integrate integrator).
Proof.
  split. intros request h. unfold Integrate. apply ensures_go_bind.
  destruct (validateAgoRef _) as [[]|e|] eqn:Href; [|done..]. cbv beta iota.
  apply ensures_go_bind. destruct (strings_TrimSpace _ == ""); [done|].
  apply ensures_go_bind. eapply ensures_mono; [apply git_answers; split; [split; [done|apply safe_read]|done]|].
  intros h1 [read|e|] _ [_ Hread]; [|done..]. destruct (Hread _ eq_refl) as [err Hread'].
  apply ensures_go_bind. ensures_call; [done|]. intros [scratch|e|]; [|done..].
  set (h2 := h1 ++ _). assert (temporary h2 scratch) as Ht.
  { exists (Integrator_root integrator), "integrate-". apply elem_of_app. right. by left. }
  assert (h1 `prefix_of` h2) as Hp2 by (by apply prefix_app_r).
  destruct (worktree_contained (IntegrateRequest_Repository request) scratch (strings_TrimSpace read)
    (λ err, Errorf "prepare integration worktree: %w" [AWrap err])) as [Hadd Hremove].
  apply always_post_under with (λ h, temporary h scratch); [intros ? ?; apply temporary_mono| |exact Ht|].
  - apply always_bind; [exact Hadd|]. intros _. apply always_proc_bind; [by apply promote_contained|].
    intros r. apply always_proc_bind; [exact Hremove|]. intros _. apply always_Done.
  - apply ensures_go_bind. eapply ensures_mono; [apply ensures_any|]. intros h3 [_|e|] Hp3 _; [|done..].
    apply ensures_bind. eapply ensures_mono; [apply promote_moves|]. intros h4 r _ [Hp4 Hr].
    apply ensures_bind. eapply ensures_mono; [apply ensures_any|]. intros h5 _ Hp5 _ result ->.
    assert (h1 `prefix_of` h5) as Hp by (repeat (etransitivity; [eassumption|]); done).
    exists read, err. split; [destruct Hp as [more ->]; apply elem_of_app; by left|].
    destruct (Hr _ eq_refl) as [->|[output Ho]]; [by left|right]. exists output.
    destruct Hp5 as [more ->]. apply elem_of_app. by left.
Qed.

Lemma Scratch_spec integrator repository revision h :
  ensures boxed (Scratch integrator repository revision) h (λ h' r, ∀ dir remove, r = Ok (dir, remove) →
    (∃ output, existT (CallExec repository "git" ["worktree"; "add"; "--detach"; dir; revision] "")
       (output, None) ∈ h') ∧
    temporary h' dir ∧ remove = removeWorktree repository dir).
Proof.
  unfold Scratch. apply ensures_go_bind. destruct (_ || _); [done|]. cbv beta iota.
  apply ensures_go_bind. ensures_call; [done|]. intros [dir|e|]; [|done..].
  set (h1 := h ++ _). assert (temporary h1 dir) as Ht.
  { exists (Integrator_root integrator), "gate-". apply elem_of_app. right. by left. }
  unfold addWorktree, git. apply ensures_go_bind, ensures_go_bind, ensures_try, ensures_go_bind.
  ensures_call; [split; [split; [done|by constructor]|done]|]. intros [[out err] [o|]].
  - apply ensures_go_bind. ensures_call; [split; [eapply temporary_mono; [by apply prefix_app_r|exact Ht]|done]|]. done.
  - intros d r [= <- <-]. split_and!; [|eapply temporary_mono; [by apply prefix_app_r|exact Ht]|done].
    exists (out, err). apply elem_of_app. right. by left.
Qed.

Lemma runCheck_spec dir command h : temporary h dir →
  ensures boxed (runCheck dir command) h (λ h' r, h `prefix_of` h' ∧
    ∀ check, r = Ok check → check.(Check_Passed) = true → check_passed h' dir command).
Proof.
  intros Ht. unfold runCheck. destruct (splitCommand command) as [[name args]|e|] eqn:Es; [|split; [done|by intros ? [= <-]]|done].
  apply ensures_go_bind. ensures_call; [done|]. intros started. apply ensures_go_bind.
  ensures_call; [split; [|done]; eapply temporary_mono; [by apply prefix_app_r|exact Ht]|].
  intros [[output code] runErr]. cbv beta iota. apply ensures_go_bind. ensures_call; [done|]. intros finished.
  assert (∀ e1 e2 e3 : event, h `prefix_of` ((h ++ [e1]) ++ [e2]) ++ [e3]) as Hp
    by (intros; rewrite <- !app_assoc; by apply prefix_app_r).
  destruct runErr as [e|]; (split; [apply Hp|intros check [= <-]; unfold setf; cbn [Check_Passed is_Some_b negb andb]]).
  - done.
  - destruct (code =? 0)%Z eqn:Ec; [|done].
    intros _. apply Z.eqb_eq in Ec as ->. exists name, args, output. split; [done|].
    apply elem_of_app. left. apply elem_of_app. right. by left.
Qed.

#[export] Instance gate_gating integrator : Gating (Gate_Run (Scratch integrator)).
Proof.
  split. intros repository revision commands h. unfold Gate_Run. apply ensures_go_bind.
  destruct (_ || _); [done|]. apply ensures_go_bind. destruct (length commands =? 0)%nat; [done|].
  apply ensures_go_bind, ensures_map_err. eapply ensures_mono; [apply Scratch_spec|].
  intros h1 [[dir remove]|e|] _ H; [|done..]. cbn [wrap_err].
  destruct (H _ _ eq_refl) as ((output & Hadd) & Ht & ->). clear H.
  destruct (worktree_contained repository dir revision (λ err, err)) as [_ Hremove].
  unfold deferred. apply ensures_bind.
  eapply (ensures_mono _ _ _ (λ h' r, h1 `prefix_of` h' ∧ ∀ result, r = Ok result →
    result.(GateResult_Passed) = true → Forall (check_passed h' dir) commands)).
  - apply ensures_go_bind.
    apply (ensures_each_prefix _ _ (λ h' before '(_, passed), h1 `prefix_of` h' ∧
      (passed = true → Forall (check_passed h' dir) before))); [| |by split; [|constructor]].
    + intros h2 before command after [checks passed] -> [Hp Hb]. apply ensures_go_bind.
      eapply ensures_mono; [apply runCheck_spec; by eapply temporary_mono|]. intros h3 [check|e|] _ [Hp' Hc]; [|split; [by etransitivity|done]..].
      split; [by etransitivity|]. intros [Hpass Hok]%andb_true_iff. apply Forall_app. split.
      * eapply Forall_impl; [by apply Hb|]. intros x. by apply check_passed_mono.
      * apply Forall_singleton. by apply (Hc check).
    + intros h2 [checks passed] [Hp Hb]. split; [done|]. intros result [= <-]. exact Hb.
  - intros h2 r _ [Hp Hr]. apply ensures_bind.
    eapply ensures_mono; [apply (always_under _ (λ h, temporary h dir)); [intros ? ?; apply temporary_mono|exact Hremove|]|].
    + by eapply temporary_mono.
    + intros h3 _ Hp' _ result -> Hpass. exists dir, output. split.
      * destruct Hp as [more ->], Hp' as [more' ->]. rewrite !elem_of_app. by left; left.
      * eapply Forall_impl; [by eapply Hr|]. intros x. by apply check_passed_mono.
Qed.

Lemma proved_mono h h' repository revision commands :
  h `prefix_of` h' → proved h repository revision commands → proved h' repository revision commands.
Proof.
  intros Hp (dir & output & He & Hf). exists dir, output. split; [by eapply event_kept|].
  eapply Forall_impl; [exact Hf|]. intros x. by apply check_passed_mono.
Qed.

(** * The collaborators of a scheduler *)

Class Trusted (scheduler : SchedulerOptions) : Prop := {
  trusted_verification : Judging scheduler.(Options_Verification);
  trusted_gate : ∀ gate, scheduler.(Options_Gate) = Some gate → Gating gate;
  trusted_integrator : ∀ integrate, scheduler.(Options_Integrator) = Some integrate → Integrating integrate;
  trusted_artifacts : ∀ bytes, scheduler.(Options_Artifacts) = Some bytes → ∀ d, always boxed (bytes d);
}.

End trust.

(** What every history of a scheduler satisfies, whatever the store, the executor
    and the other processes answer: it accepts only what was judged, records only
    what was proved or integrated, and leaves the user's repository alone. *)

Section independence.
Context {golib : GoLib}.

(** * When a command may be sent *)

(** Evidence is accepted as the judge saw it: on the version of the board it was
    read from, while it waited for a verdict. *)
Definition acceptance_justified (h : history) (boardID : string) (c : Command) : Prop :=
  ∃ board task evidence input spec,
    existT (CallBoard boardID) (Ok board) ∈ h ∧ c.(Command_ExpectedVersion) = board.(Board_Version) ∧
    task ∈ board.(Board_Tasks) ∧ task.(Task_ID) = evidence.(Evidence_TaskID) ∧
    task.(Task_State) = TaskVerifying ∧
    evidence ∈ board.(Board_Evidence) ∧ evidence.(Evidence_State) = EvidenceSubmitted ∧
    c.(Command_Evidence) = Some spec ∧ spec.(EvidenceSpec_ID) = evidence.(Evidence_ID) ∧
    c.(Command_FencingToken) = fencingTokenFor board evidence.(Evidence_AttemptID) ∧
    input.(VerifyInput_Evidence) = evidence ∧
    input.(VerifyInput_AcceptanceCriteria) =
      task.(Task_TerminalContract).(TerminalContract_AcceptanceCriteria) ∧
    judged h input.

(** The project gate is passed for the integrated revision of the board, when
    nothing is left to do and every check passed in a checkout of it. *)
Definition pass_justified (h : history) (boardID : string) (c : Command) : Prop :=
  ∃ board, existT (CallBoard boardID) (Ok board) ∈ h ∧
    c.(Command_ExpectedVersion) = board.(Board_Version) ∧
    c.(Command_Revision) = strings_TrimSpace board.(Board_IntegratedRevision) ∧ c.(Command_Revision) ≠ "" ∧
    (∀ t, t ∈ board.(Board_Tasks) →
       t.(Task_State) = TaskPassed ∨ t.(Task_Cancelled) = true ∨ t.(Task_SupersededBy) ≠ "") ∧
    proved h board.(Board_Repository) c.(Command_Revision) board.(Board_Gate).(ProjectGate_Commands).

(** An integration is recorded at the tip of the ref of the board. *)
Definition integration_justified (h : history) (boardID : string) (c : Command) : Prop :=
  ∃ request, request.(IntegrateRequest_TaskID) = c.(Command_TaskID) ∧
    integrated h request c.(Command_Revision).

Definition justified (h : history) (boardID : string) (c : Command) : Prop :=
  (c.(Command_Type) = CommandEvidenceAccept → acceptance_justified h boardID c) ∧
  (c.(Command_Type) = CommandGatePass → pass_justified h boardID c) ∧
  (c.(Command_Type) = CommandIntegrationComplete → integration_justified h boardID c).

Definition lawful (h : history) (c : call) : Prop :=
  contained h c ∧ match c with
  | CallApplyBoard boardID command => justified h boardID command
  | CallApplyBoardWithProposal _ command _ => command.(Command_Type) = CommandPlanPatch
  | _ => True
  end.

Lemma boxed_lawful h c : boxed h c → lawful h c.
Proof. intros [Hc Hq]. split; [done|]. by destruct c. Qed.

Lemma unremarkable h boardID c :
  c.(Command_Type) ∉ [CommandEvidenceAccept; CommandGatePass; CommandIntegrationComplete] →
  lawful h (CallApplyBoard boardID c).
Proof. intros Hn. split; [done|]. split_and!; intros E; exfalso; apply Hn; rewrite E; set_solver. Qed.

Context (scheduler : SchedulerOptions) {trusted : Trusted scheduler}.

(** Closes a goal [lawful h call] for a call that needs no justification. *)
Ltac plain := first [done | apply unremarkable; by_decide].

Lemma dispatch_lawful boardID claim : always lawful (Scheduler_dispatch scheduler boardID claim).
Proof.
  unfold Scheduler_dispatch, Scheduler_apply, applyFrom, nextEligible. walk_calls; plain.
Qed.

Lemma integrationFail_lawful boardID claim class reason :
  always lawful (integrationFail scheduler boardID claim class reason).
Proof. unfold integrationFail. walk_calls; plain. Qed.
Lemma integrate_lawful boardID claim evidence board :
  always lawful (Scheduler_integrate scheduler boardID claim evidence board).
Proof.
  unfold Scheduler_integrate. destruct (EvidenceResult_Patch _) as [record|]; [|apply always_Done].
  destruct (Options_Integrator scheduler) as [integrate|] eqn:Ei; [|apply integrationFail_lawful].
  destruct (Options_Artifacts scheduler) as [bytes|] eqn:Ea; [|apply integrationFail_lawful].
  apply always_bind.
  { apply always_try. eapply always_mono; [apply boxed_lawful|]. by eapply trusted_artifacts. }
  intros [patch|e|]; [|apply integrationFail_lawful|apply always_Done].
  intros h. apply ensures_go_bind, ensures_try.
  eapply ensures_mono; [eapply ensures_weaken; [by apply (trusted_integrator _ Ei)|intros ? ? _; apply boxed_lawful]|].
  intros h1 [result|e|] _ H; [|apply integrationFail_lawful|done].
  apply ensures_go_bind. ensures_call; [done|]. intros [current|e|]; [|done..].
  apply ensures_go_bind. ensures_call; [|by intros [| |]].
  split; [done|]. split_and!; [done|done|intros _]. eexists (mkIntegrateRequest _ _ _ _ _ _ _). split; [done|].
  eapply integrated_mono; [by apply prefix_app_r|]. by apply H.
Qed.

Lemma resumeIntegrating_lawful boardID : always lawful (resumeIntegrating scheduler boardID).
Proof.
  unfold resumeIntegrating. apply always_bind; [walk_calls; plain|]. intros board.
  apply always_bind; [|intros ?; apply always_Done]. apply always_each. intros state task. unfold resumeTask.
  destruct state as [b|]; [|apply always_Done]. destruct (_ != _); [apply always_Done|].
  destruct (acceptedEvidenceFor b task) as [evidence|].
  - apply always_bind; [apply integrate_lawful|]. intros _. walk_calls; plain.
  - unfold failIntegration. walk_calls; plain.
Qed.

(** * Verification *)

Lemma find_some_in {A} (f : A → bool) l x : List.find f l = Some x → x ∈ l ∧ f x = true.
Proof. intros [Hin Hf]%List.find_some. split; [by apply list_elem_of_In|done]. Qed.

Lemma applyVerdict_lawful boardID board task evidence result input h :
  existT (CallBoard boardID) (Ok board) ∈ h → taskByID board evidence.(Evidence_TaskID) = Some task →
  task.(Task_State) = TaskVerifying → evidence ∈ board.(Board_Evidence) →
  evidence.(Evidence_State) = EvidenceSubmitted → input.(VerifyInput_Evidence) = evidence →
  input.(VerifyInput_AcceptanceCriteria) = task.(Task_TerminalContract).(TerminalContract_AcceptanceCriteria) →
  (result.(VerifyResult_Decision) = DecisionAccept → judged h input) →
  ensures lawful (applyVerdict scheduler boardID board evidence result) h (λ _ _, True).
Proof.
  intros Hb Ht Hts He Hes Hi Hc Hj. unfold applyVerdict.
  destruct (VerifyResult_Decision result == DecisionAccept) eqn:Ed.
  - apply String.eqb_eq in Ed. apply ensures_go_bind. ensures_call.
    + split; [done|]. split_and!; [intros _|done..]. apply find_some_in in Ht as [Ht Htid%String.eqb_eq].
      eexists board, task, evidence, input, _. split_and!; try done. by apply Hj.
    + intros [applied|e|]; [|done..]. apply integrate_lawful.
  - unfold nextEligible. apply ensures_go_bind, ensures_go_bind. ensures_call; [done|]. intros now.
    apply ensures_go_bind. ensures_call; [plain|]. by intros [| |].
Qed.

Lemma verifyEvidence_lawful boardID goal plan evidenceID :
  always lawful (verifyEvidence scheduler boardID goal plan evidenceID).
Proof.
  unfold verifyEvidence. apply always_bind; [walk_calls; plain|]. intros [] h.
  apply ensures_go_bind. ensures_call; [done|]. intros [current|e|]; [|done..].
  set (h1 := h ++ _). assert (existT (CallBoard boardID) (Ok current) ∈ h1) as Hb
    by (apply elem_of_app; right; by left).
  destruct (evidenceByID current evidenceID) as [evidence|] eqn:Ee; [|done].
  destruct (_ != _) eqn:Es; [done|]. apply negb_false_iff, String.eqb_eq in Es.
  destruct (taskByID current _) as [task|] eqn:Et; [|done].
  destruct (_ != _) eqn:Ets; [done|]. apply negb_false_iff, String.eqb_eq in Ets.
  apply find_some_in in Ee as [Hev _].
  destruct (MaxVerificationAttempts <? _)%Z.
  { unfold abandonVerification, ignoreConflict. apply (always_bind lawful); [|intros [[]|e|]; walk_calls].
    walk_calls; plain. }
  apply ensures_go_bind, ensures_try.
  eapply ensures_mono; [eapply ensures_weaken; [apply trusted_verification|intros ? ? _; apply boxed_lawful]|].
  intros h2 [result|e|] Hp H; [| |done].
  - apply (applyVerdict_lawful _ _ task _ _ (verificationInput goal plan current task evidence)); try done;
      [by eapply event_kept|]. intros Hd. by apply (H result).
  - unfold deferVerification. revert h2 Hp H. enough (always lawful (deferVerification scheduler boardID
      (Evidence_ID evidence) e)) as Hd by (intros; apply Hd).
    unfold deferVerification. walk_calls; plain.
Qed.

(** * The gate and the cycle *)

Lemma gateRevision_Some board revision :
  gateRevision board = Some revision →
  revision = strings_TrimSpace board.(Board_IntegratedRevision) ∧ revision ≠ "" ∧
  ∀ t, t ∈ board.(Board_Tasks) →
    t.(Task_State) = TaskPassed ∨ t.(Task_Cancelled) = true ∨ t.(Task_SupersededBy) ≠ "".
Proof.
  unfold gateRevision. destruct (_ || _); [done|].
  destruct (forallb _ _) eqn:Ef; [cbn [negb]|done]. destruct (strings_TrimSpace _ == "") eqn:Er; [done|].
  destruct (_ && _); [done|]. destruct (_ <=? _)%Z; [done|]. intros [= <-]. split; [done|]. split; [by apply String.eqb_neq|].
  intros t Ht. rewrite forallb_forall in Ef. specialize (Ef t (proj1 (list_elem_of_In _ _) Ht)).
  apply orb_true_iff in Ef as [[E%String.eqb_eq|E]%orb_true_iff|E%negb_true_iff%String.eqb_neq]; auto.
Qed.

Lemma ignoreConflict_lawful {A} (m : go A) : always lawful m → always lawful (ignoreConflict m).
Proof. intros Hm. unfold ignoreConflict. apply always_bind; [by apply always_try|]. intros [|e|]; walk_calls. Qed.

Lemma runProjectGate_lawful boardID : always lawful (runProjectGate scheduler boardID).
Proof.
  intros h. unfold runProjectGate. destruct (Options_Gate scheduler) as [gate|] eqn:Eg; [|done].
  apply ensures_go_bind. ensures_call; [done|]. intros [board|e|]; [|done..].
  set (h1 := h ++ _). assert (existT (CallBoard boardID) (Ok board) ∈ h1) as Hb
    by (apply elem_of_app; right; by left).
  destruct (gateRevision board) as [revision|] eqn:Er; [|done]. apply gateRevision_Some in Er as (Er & Hne & Hsettled).
  apply ensures_go_bind, ensures_try.
  eapply ensures_mono; [eapply ensures_weaken; [by apply (trusted_gate _ Eg)|intros ? ? _; apply boxed_lawful]|].
  intros h2 [result|e|] Hp H; [| |done].
  - apply ensures_go_bind. ensures_call; [done|]. intros ranAt. apply ensures_go_bind, ensures_try.
    assert (h1 `prefix_of` h2 ++ [existT CallNow ranAt]) as Hp' by (etransitivity; [exact Hp|by apply prefix_app_r]).
    ensures_call; [|intros [a|err|]; [done| |done]; by destruct (errors_Is _ _)].
    destruct (GateResult_Passed result) eqn:Epass; [|plain].
    split; [done|]. split_and!; [done|intros _|done]. exists board.
    split_and!; try done; [by eapply event_kept|]. apply (proved_mono h2); [by apply prefix_app_r|]. by apply (H result).
  - revert h2 Hp H. enough (always lawful (recordGateUnavailable scheduler boardID board revision e)) as Hd
      by (intros; apply Hd).
    unfold recordGateUnavailable. apply always_bind; [walk_calls; plain|]. intros ranAt.
    apply ignoreConflict_lawful. walk_calls; plain.
Qed.

Lemma claimLoop_lawful boardID n cycle : always lawful (claimLoop scheduler boardID n cycle).
Proof.
  revert cycle. induction n as [|n IH]; intros cycle; [apply always_Done|]. cbn [claimLoop].
  apply always_bind.
  - unfold claimAndDispatch. walk_calls; try plain. apply dispatch_lawful.
  - intros [claimed outcome]. destruct claimed; [apply IH|apply always_Done].
Qed.

Lemma runCycle_lawful onlyBoard : always lawful (runCycle scheduler onlyBoard).
Proof.
  unfold runCycle. apply always_bind; [walk_calls; plain|]. intros now. apply always_bind; [walk_calls; plain|].
  intros expired. apply always_bind; [destruct (_ == _); walk_calls; plain|]. intros boards.
  apply always_each. intros cycle boardID. unfold cycleBoard. apply always_bind; [walk_calls; plain|]. intros _.
  apply always_bind.
  { unfold verifyPending. apply always_bind; [walk_calls; plain|]. intros board.
    apply always_bind; [walk_calls; plain|]. intros [goal plan]. apply always_each. intros _ id.
    apply verifyEvidence_lawful. }
  intros _. apply always_bind; [apply resumeIntegrating_lawful|]. intros _.
  apply always_bind; [apply claimLoop_lawful|]. intros cycle'.
  apply always_bind; [apply runProjectGate_lawful|]. intros _. apply always_Done.
Qed.

Lemma Run_lawful ticks : always lawful (Scheduler_Run scheduler ticks).
Proof.
  induction ticks as [|ticks IH]; [apply always_Done|]. cbn [Scheduler_Run].
  apply always_bind; [apply always_try, runCycle_lawful|].
  intros [cycle|e|]; [exact IH|destruct (_ || _); [apply always_Done|exact IH]|exact IH].
Qed.

End independence.

(** * Supervisors *)

Section supervision.
Context {golib : GoLib}.

Ltac plain := first [done | apply unremarkable; by_decide].

Lemma Step_lawful options :
  Trusted options.(SupervisorOptions_Scheduler) → allows lawful (Supervisor_Step options).
Proof.
  intros Ht. unfold Supervisor_Step. apply allows_bind.
  { apply allows_fails_with, allows_calls. by apply runCycle_lawful. }
  intros _. apply allows_bind; [walk_state; plain|]. intros board.
  unfold reviewStoppedWork, reviewTask, repair, raiseNow, raise, reviewFailedGate, raiseGate, raiseNow, raise,
    repairForGate, repairScopes, status. walk_state; plain.
Qed.

Lemma Supervisor_Run_lawful options maxSteps :
  Trusted options.(SupervisorOptions_Scheduler) → allows lawful (Supervisor_Run options maxSteps).
Proof.
  intros Ht. unfold Supervisor_Run. generalize (if (maxSteps <=? 0)%Z then 512%Z else maxSteps). intros most.
  generalize (Z.to_nat most). intros steps. induction steps as [|steps IH]; [apply allows_fail|].
  cbn [supervise_for]. apply allows_bind; [walk_state; plain|]. intros _.
  apply allows_bind; [by apply Step_lawful|]. intros status. destruct (_ || _); [apply allows_done|].
  apply allows_bind; [unfold waitForRetry; walk_state; plain|]. intros _. exact IH.
Qed.

(** The supervisors a runner knows share its scheduler. *)
Definition shared (runner : Runner) (known : supervisors) : Prop :=
  map_Forall (λ _ '(options, _), options.(SupervisorOptions_Scheduler) = runner.(Runner_scheduler)) known.

Lemma supervisorFor_shared runner boardID known options supervisor :
  shared runner known → supervisorFor runner boardID known = Ok (options, supervisor) →
  options.(SupervisorOptions_Scheduler) = runner.(Runner_scheduler).
Proof.
  intros Hk. unfold supervisorFor. destruct (known !! boardID) as [[o s]|] eqn:E; [by intros [= <- <-]; apply (Hk _ _ E)|].
  unfold Supervisor_New. by destruct (_ || _); [|intros [= <- <-]].
Qed.

(** A call that keeps the invariant. *)
Definition harmless (ok : history → call → Prop) (I : history → Prop) (c : call) : Prop :=
  ∀ h, I h → ok h c ∧ ∀ r, I (h ++ [existT c r]).

Section runner.
Context (ok : history → call → Prop) (I : history → Prop) (runner : Runner).
Context (Hcontext : harmless ok I CallContextErr) (Hids : harmless ok I CallBoardIDs).
Context (Hstep : ∀ options s, options.(SupervisorOptions_Scheduler) = runner.(Runner_scheduler) →
  holding ok I (Supervisor_Step options s)).

(** A runner makes only calls its supervisors make. *)
Lemma stepBoards_holding boards known h :
  shared runner known → I h →
  ensures ok (stepBoards runner boards known) h (λ h' '(known', _), I h' ∧ shared runner known').
Proof.
  intros Hk Hi. revert known h Hk Hi. induction boards as [|boardID boards IH]; intros known h Hk Hi; [done|].
  cbn [stepBoards]. apply ensures_bind, ensures_bind. destruct (Hcontext h Hi) as [Hok Hr].
  ensures_call; [done|]. intros cancelled. specialize (Hr cancelled). destruct cancelled as [err|]; [done|].
  cbn [done]. apply ensures_bind.
  eapply (ensures_mono _ _ _ (λ h' '(known', _), I h' ∧ shared runner known'));
    [|intros h' [known' [u|e|]] _ [Hi' Hk']; [by apply IH|done..]].
  unfold stepBoard. destruct (supervisorFor _ _ _) as [[options supervisor]|e|] eqn:E; [|done..].
  pose proof (supervisorFor_shared _ _ _ _ _ Hk E) as Hsh. apply ensures_bind.
  eapply ensures_mono; [by apply Hstep|]. intros h' [supervisor' outcome] _ Hi'.
  by destruct outcome; (split; [exact Hi'|]; apply map_Forall_insert_2; [exact Hsh|exact Hk]).
Qed.

Lemma Runner_Run_holding ticks : holding ok I (Runner_Run runner ticks ∅).
Proof.
  enough (∀ known, shared runner known → holding ok I (Runner_Run runner ticks known)) as H
    by (apply H, map_Forall_empty).
  induction ticks as [|ticks IH]; intros known Hk; [apply holding_Done|]. cbn [Runner_Run]. intros h Hi.
  apply ensures_bind. eapply (ensures_mono _ _ _ (λ h' '(known', _), I h' ∧ shared runner known')).
  - unfold Runner_step. destruct (Hids h Hi) as [Hok Hr]. apply ensures_bind, ensures_bind, ensures_bind.
    ensures_call; [done|]. intros listed. specialize (Hr listed). destruct listed as [boards|e|]; [|done..].
    by apply stepBoards_holding.
  - intros h' [known' [u|e|]] _ [Hi' Hk']; [by apply IH|exact Hi'..].
Qed.
End runner.

Lemma Runner_Run_lawful runner ticks :
  Trusted runner.(Runner_scheduler) → always lawful (Runner_Run runner ticks ∅).
Proof.
  intros Ht h. apply (Runner_Run_holding _ (λ _, True)); [done..| |done].
  intros options s E. apply holding_always, Step_lawful. by rewrite E.
Qed.

End supervision.
