(* ===== verification/SampleSystem.v ===== *)
(** The schedulers, supervisors and clients of one store as a system, and a run of it. *)
From S2P Require Import Prelude Sql Paths Planner Protocol Validate Planning StateMachine Apply.
From S2P Require Import Spec Coordination History Refine Simulation Safety Admission Database.
From S2P Require Import Consistency Store Operations EventLog Service ClaimSafety Runtime.
From S2P Require Import GoalSafety Process Environment Verify Integrate Scheduler Supervisor.
From S2P Require Import Trust.

(** The system: any number of schedulers and supervisors, in one process or in many,
    and any other clients, on one store. Every call of the store is atomic, it may also fail
    or commit without its answer arriving, and a thread may stop anywhere. *)

Section system.
Context {env : Env} {planner_env : PlannerEnv} {runtime_env : RuntimeEnv} {golib : GoLib}.

(** * The store serves calls *)

(** [served db (c, r) db']: in the state [db], the call [c] may be answered with [r]
    and leave [db']. *)
Inductive served (db : DB) : event → DB → Prop :=
  | served_board boardID : served db (existT (CallBoard boardID) (boardQuery db boardID)) db
  | served_ids : served db (existT CallBoardIDs (Ok (BoardIDs db))) db
  | served_definition boardID : served db (existT (CallDefinition boardID) (Runtime_Definition db boardID)) db
  | served_apply boardID c :
      served db (existT (CallApplyBoard boardID c) (ApplyBoard boardID c db).2) (ApplyBoard boardID c db).1
  | served_claim request token :
      served db (existT (CallClaim request) (Claim request token db).2) (Claim request token db).1
  | served_expire now actor :
      served db (existT (CallExpireDueLeases now actor) (ExpireDueLeases now actor db).2)
        (ExpireDueLeases now actor db).1
  | served_proposal boardID c p :
      served db (existT (CallApplyBoardWithProposal boardID c p) (ApplyBoardWithProposal boardID c p db).2)
        (ApplyBoardWithProposal boardID c p db).1
  | served_plan boardID :
      served db (existT (CallStoredPlan boardID) (Definition_ unmarshalPlanMember db boardID)) db
  | served_completion boardID : served db (existT (CallCompletion boardID) (Store_Completion db boardID)) db
  | served_proposal_lost boardID c p err :
      served db (existT (CallApplyBoardWithProposal boardID c p) (Err err)) (ApplyBoardWithProposal boardID c p db).1
  | served_proposal_failed boardID c p err :
      served db (existT (CallApplyBoardWithProposal boardID c p) (Err err)) db
  | served_plan_failed boardID err : served db (existT (CallStoredPlan boardID) (Err err)) db
  | served_completion_failed boardID err : served db (existT (CallCompletion boardID) (Err err)) db
  | served_apply_lost boardID c err :
      served db (existT (CallApplyBoard boardID c) (Err err)) (ApplyBoard boardID c db).1
  | served_claim_lost request token err :
      served db (existT (CallClaim request) (Err err)) (Claim request token db).1
  | served_expire_lost now actor err :
      served db (existT (CallExpireDueLeases now actor) (Err err)) (ExpireDueLeases now actor db).1
  | served_board_failed boardID err : served db (existT (CallBoard boardID) (Err err)) db
  | served_ids_failed err : served db (existT CallBoardIDs (Err err)) db
  | served_definition_failed boardID err : served db (existT (CallDefinition boardID) (Err err)) db
  | served_apply_failed boardID c err : served db (existT (CallApplyBoard boardID c) (Err err)) db
  | served_claim_failed request err : served db (existT (CallClaim request) (Err err)) db
  | served_expire_failed now actor err : served db (existT (CallExpireDueLeases now actor) (Err err)) db
  | served_execute work r : served db (existT (CallExecute work) r) db
  | served_quiet c r : quiet c → served db (existT c r) db.

(** * Threads *)

(** What a thread has done and what is left of it. *)
Record thread : Type := mkThread { th_past : history; th_rest : go unit }.

(** The entry points of a scheduler, of a supervisor, of the runner of supervisors and of
    the creation of a ref. *)
Inductive entry : go unit → Prop :=
  | entry_run scheduler ticks : Trusted scheduler → entry (Scheduler_Run scheduler ticks)
  | entry_board scheduler boardID :
      Trusted scheduler → entry (RunOnceForBoard scheduler boardID ≫= λ _, ret tt)
  | entry_supervisor options supervisor maxSteps :
      Trusted options.(SupervisorOptions_Scheduler) →
      entry (proc_bind (Supervisor_Run options maxSteps supervisor) (λ _, ret tt))
  | entry_runner runner ticks :
      Trusted runner.(Runner_scheduler) → entry (proc_bind (Runner_Run runner ticks ∅) (λ _, ret tt))
  | entry_ref repository ref base : entry (EnsureRef repository ref base ≫= λ _, ret tt).

Inductive system : DB → list thread → Prop :=
  | system_start : system DB_empty []
  | system_client db ts op : system db ts → system (perform op db) ts
  | system_spawn db ts p : system db ts → entry p → system db (ts ++ [mkThread [] p])
  | system_step db ts1 past c k ts2 r db' :
      system db (ts1 ++ mkThread past (Invoke c k) :: ts2) → served db (existT c r) db' →
      system db' (ts1 ++ mkThread (past ++ [existT c r]) (k r) :: ts2).

(** * What commits leave of a board *)

(** A later state of a board: another one only at a higher version, with all the
    attempts there were. *)
Record succeeds (b b' : Board) : Prop := {
  su_version : (b.(Board_Version) ≤ b'.(Board_Version))%Z;
  su_same : b'.(Board_Version) = b.(Board_Version) → b' = b;
  su_attempts : ∀ k, is_Some (by_key Attempt_ID b.(Board_Attempts) !! k) →
    is_Some (by_key Attempt_ID b'.(Board_Attempts) !! k);
}.

#[export] Instance succeeds_preorder : PreOrder succeeds.
Proof.
  split; [by intros b; split|]. intros b1 b2 b3 [V1 S1 A1] [V2 S2 A2]. split; [lia| |auto].
  intros E. rewrite S2 by lia. apply S1. lia.
Qed.

Lemma commits_succeeds P db db' id b :
  consistent db → rtc (commits P) db db' → stored db id b → ∃ b', stored db' id b' ∧ succeeds b b'.
Proof.
  intros Hc H. revert b Hc. induction H as [db|db1 db2 db3 Hcm _ IH]; intros b Hc Hs; [by exists b|].
  destruct Hcm as (b0 & cs & next & es & Hrep & _ & Hadv & Hcm & _).
  pose proof (cm_consistent _ _ _ _ Hcm) as Hc2.
  enough (∃ b', stored db2 id b' ∧ succeeds b b') as (b2 & Hs2 & H12).
  { destruct (IH _ Hc2 Hs2) as (b3 & ? & ?). exists b3. split; [done|]. by etrans. }
  destruct (decide (id = next.(Board_ID))) as [->|Hne].
  - exists next. split; [apply Hcm|].
    assert (b0 = b) as ->. { destruct Hrep as [Hs0|[_ Hn]]; [by eapply stored_unique|].
      rewrite (so_row _ _ _ Hs) in Hn. done. }
    destruct (replaceable_projected _ _ _ Hc Hrep) as [_ Hv].
    destruct (commit_versions _ _ _ _ _ Hadv Hv Hcm) as [_ Hn]. split; [lia| |].
    + intros E. apply (ad_changed _ _ _ Hadv). apply length_zero_iff_nil. lia.
    + intros k [a Ha]. destruct (hi_attempts _ _ (ad_history _ _ _ Hadv) _ _ Ha) as (a' & Ha' & _). by exists a'.
  - exists b. split; [|reflexivity].
    assert (db2.(boards) !! id = Some (boardRow b)) as Hrow.
    { rewrite (cm_boards _ _ _ _ Hcm), lookup_insert_ne by done. apply Hs. }
    apply (cn_boards _ Hc2 _ _ Hrow).
Qed.

(** The attempts on record stay on record. *)
Lemma commits_attempts P db db' k :
  consistent db → rtc (commits P) db db' → is_Some (db.(attempts) !! k) → is_Some (db'.(attempts) !! k).
Proof.
  intros Hc H. destruct k as [id k]. destruct (stored_lookup db id Hc) as [[b Hs]|[_ Ha]];
    [|rewrite (ab_attempts _ _ Ha); by intros [? ?]].
  destruct (commits_succeeds _ _ _ _ _ Hc H Hs) as (b' & Hs' & Hsu).
  rewrite (pj_attempts _ _ _ (so_projected _ _ _ Hs)), (pj_attempts _ _ _ (so_projected _ _ _ Hs')).
  rewrite !fmap_is_Some. apply Hsu.
Qed.

(** A claim that must be dispatched names an attempt that was not on record and now is. *)
Lemma claim_attempt request token db db' r :
  consistent db → Claim request token db = (db', Ok r) → ClaimResult_Dispatchable r = true →
  let k := (request.(ClaimRequest_BoardID), r.(ClaimResult_AttemptID)) in
  db.(attempts) !! k = None ∧ is_Some (db'.(attempts) !! k).
Proof.
  intros Hc H Hd. apply claim_outcome_inv, (claimTx_inv _ _ _ _ _ Hc) in H as [[_ Ho]|(b & t & tok & _ & Hcl)].
  { unfold ClaimResult_Dispatchable in Hd. apply andb_true_iff in Hd as [Hd%String.eqb_eq _]. done. }
  destruct (claimed_lease _ _ _ _ _ _ _ Hcl) as (t0 & _ & _ & _ & Ha).
  destruct Hcl as [Hst _ _ _ [_ (b' & Hb' & Happ) Hid Hcm _] Hr]. cbn in Hb', Hid. cbn [Result_Board Result_Events] in *.
  assert (b' = b) as -> by by eapply stored_unique.
  apply apply_step in Happ. destruct (acquire_inv _ _ _ Happ eq_refl)
    as (_ & spec & t' & [= <-] & _ & _ & _ & _ & _ & Hnew & _).
  assert (r.(ClaimResult_AttemptID) = (claimLease request b t tok).(LeaseSpec_AttemptID)) as Eid by by rewrite Hr.
  split.
  - rewrite (pj_attempts _ _ _ (so_projected _ _ _ Hst)), Eid.
    change (by_key Attempt_ID (Board_Attempts b)) with (s_attempts (abs b)). by rewrite Hnew.
  - pose proof (so_projected _ _ _ (cm_stored _ _ _ _ Hcm)) as Hp. rewrite Hid in Hp.
    rewrite (pj_attempts _ _ _ Hp). rewrite Ha. done.
Qed.

Lemma served_perform db e db' : served db e db' → db' = db ∨ ∃ op, db' = perform op db.
Proof.
  intros Hs. destruct Hs; try (by left); right.
  all: first [by exists (OpApplyBoard boardID c)|by exists (OpClaim request token)
    |by exists (OpExpireDueLeases now actor)|by exists (OpApplyBoardWithProposal boardID c p)].
Qed.

Lemma served_commits db e db' :
  consistent db → served db e db' → ∃ P, rtc (commits P) db db'.
Proof.
  intros Hc [->|[op ->]]%served_perform; [by exists (λ _, True)|].
  exists (types_of op). by apply perform_commits.
Qed.

End system.

(** A running system to instantiate the theorems about the execution side: a store
    with one board, the scheduler as internal/agoserve/serve.go wires it, and an
    environment in which the work succeeds. *)

(** * Environment *)

Definition sample_arg (a : arg error) : string :=
  match a with AStr s => s | AInt n => pretty n | _ => "" end.

#[export] Instance sample_golib : GoLib := {|
  fmt_Sprintf := λ format args, strings_Join (format :: (sample_arg <$> args)) "/";
  regexp_ReplaceAllString := λ _ value _, value;
  error_Error := λ _, "error";
|}.

(** The work changes one file; git and the checks succeed. *)
Definition sample_work : ExecutionResult :=
  mkExecutionResult "log" "the README was updated"
    (EvidenceResult_zero
       <| EvidenceResult_ChangedFiles := [ChangedFile_zero <| ChangedFile_Path := "README.md" |>] |>
       <| EvidenceResult_Patch := Some (mkPatchRecord "patch" "r0" "digest" 4 ["README.md"]) |>).

Definition sample_git (args : list string) : string :=
  match args with
  | ["rev-parse"; ref] => if ref == "HEAD" then "r1" else "r0"
  | "diff" :: _ => "README.md"
  | _ => ""
  end.

Definition sample_verdict (input : JudgeInput) : JudgeVerdict :=
  mkJudgeVerdict DecisionAccept "done"
    ((λ criterion, mkCriterionOutcome criterion true "") <$> input.(JudgeInput_AcceptanceCriteria)) "" "".

(** The answers of everything but the store; the checks exit with [exit]. *)
Definition sample_quiet (exit : Z) (c : call) : answer c :=
  match c return answer c with
  | CallBoard _ | CallBoardIDs | CallDefinition _ | CallApplyBoard _ _ | CallClaim _
  | CallExpireDueLeases _ _ | CallApplyBoardWithProposal _ _ _ | CallStoredPlan _ | CallCompletion _ => Panic
  | CallNow => (unixEpoch + Second)%Z
  | CallContextErr | CallWait _ => None
  | CallExecute _ => (sample_work, None)
  | CallJudge input => Ok (sample_verdict input)
  | CallArtifactVerify _ => Ok tt
  | CallArtifactBytes _ => Ok "diff"
  | CallCheck _ _ _ => (("output", exit), None)
  | CallExec _ _ args _ => ((sample_git args, ""), None)
  | CallMkdirTemp root pattern => Ok (root +:+ "/" +:+ pattern +:+ "1")
  | CallRemoveAll _ => tt
  end.

(** The store of the model answers its calls. *)
Definition serve (exit : Z) (db : DB) (c : call) : answer c * DB :=
  match c return answer c * DB with
  | CallBoard boardID => (boardQuery db boardID, db)
  | CallBoardIDs => (Ok (BoardIDs db), db)
  | CallDefinition boardID => (Runtime_Definition db boardID, db)
  | CallApplyBoard boardID command => let '(db', r) := ApplyBoard boardID command db in (r, db')
  | CallClaim request => let '(db', r) := Claim request (Ok ("token:" +:+ request.(ClaimRequest_CommandID))) db in (r, db')
  | CallExpireDueLeases now actor => let '(db', r) := ExpireDueLeases now actor db in (r, db')
  | CallApplyBoardWithProposal boardID command proposal =>
      let '(db', r) := ApplyBoardWithProposal boardID command proposal db in (r, db')
  | CallStoredPlan boardID => (Definition_ unmarshalPlanMember db boardID, db)
  | CallCompletion boardID => (Store_Completion db boardID, db)
  | c => (sample_quiet exit c, db)
  end.

Lemma serve_served exit db c : served db (existT c (serve exit db c).1) (serve exit db c).2.
Proof.
  destruct c as [| | |boardID command|request|now actor|boardID command proposal| | | | | | | | | | | | |].
  4: pose proof (served_apply db boardID command) as H.
  5: pose proof (served_claim db request (Ok ("token:" +:+ request.(ClaimRequest_CommandID)))) as H.
  6: pose proof (served_expire db now actor) as H.
  7: pose proof (served_proposal db boardID command proposal) as H.
  4-7: unfold serve; by case_match; simpl in H.
  all: by constructor.
Qed.

(** * Runs *)

(** A thread driven until the next call is one that [stop] waits for. *)
Record running (A : Type) : Type := mkRunning { rn_db : DB; rn_past : history; rn_rest : proc A }.
Arguments mkRunning {A} rn_db rn_past rn_rest.
Arguments rn_db {A} _.
Arguments rn_past {A} _.
Arguments rn_rest {A} _.

Fixpoint drive {A} (exit : Z) (fuel : nat) (stop : call → bool) (run : running A) : running A :=
  match fuel, run.(rn_rest) with
  | S fuel, Invoke c k =>
      if stop c then run else
      let '(r, db) := serve exit run.(rn_db) c in
      drive exit fuel stop (mkRunning db (run.(rn_past) ++ [existT c r]) (k r))
  | _, _ => run
  end.

Definition on_system (run : running (result unit)) : Prop :=
  system run.(rn_db) [mkThread run.(rn_past) run.(rn_rest)].

Lemma drive_system exit fuel stop run : on_system run → on_system (drive exit fuel stop run).
Proof.
  revert run. induction fuel as [|fuel IH]; intros [db past p] H; [exact H|].
  cbn [drive rn_rest rn_db rn_past]. destruct p as [a|c k]; [exact H|]. destruct (stop c); [exact H|].
  pose proof (serve_served exit db c) as Hs. destruct (serve exit db c) as [r db']. apply IH.
  unfold on_system. cbn [rn_rest rn_db rn_past] in *.
  by apply (system_step db [] past c k [] r db').
Qed.

Lemma drive_trace {A} exit fuel stop (p : proc A) run :
  trace p run.(rn_past) run.(rn_rest) →
  trace p (drive exit fuel stop run).(rn_past) (drive exit fuel stop run).(rn_rest).
Proof.
  revert run. induction fuel as [|fuel IH]; intros [db past q] H; [exact H|].
  cbn [drive rn_rest rn_db rn_past] in *. destruct q as [a|c k]; [exact H|]. destruct (stop c); [exact H|].
  destruct (serve exit db c) as [r db']. apply IH. cbn [rn_rest rn_past]. by apply trace_snoc.
Qed.

(** What a thread does on its own, and what is then left of it. *)
Definition alone {A} (exit : Z) (fuel : nat) (db : DB) (p : proc A) : running A :=
  drive exit fuel (λ _, false) (mkRunning db [] p).

Lemma alone_trace {A} exit fuel db (p : proc A) :
  trace p (alone exit fuel db p).(rn_past) (alone exit fuel db p).(rn_rest).
Proof. apply drive_trace, trace_nil. Qed.

(** The call the run has stopped at. *)
Definition next_call {A} (run : running A) : option call :=
  match run.(rn_rest) with Invoke c _ => Some c | Done _ => None end.

Definition waits {A} (stop : call → bool) (run : running A) : bool :=
  match next_call run with Some c => stop c | None => false end.

Lemma waits_inv {A} stop (run : running A) :
  waits stop run = true → ∃ c k, run.(rn_rest) = Invoke c k ∧ stop c = true.
Proof. unfold waits, next_call. destruct (rn_rest run) as [a|c k]; [done|]. intros H. by exists c, k. Qed.

(** A command of the type. *)
Definition applies (type : CommandType) (c : call) : bool :=
  match c with CallApplyBoard _ command => command.(Command_Type) == type | _ => false end.

(** Whether the call the run has stopped at changes the version of the board. *)
Definition version_of (db : DB) : Z := (stored_board db).(Board_Version).
Definition effective {A} (run : running A) : bool :=
  match next_call run with
  | Some c => negb (version_of run.(rn_db) =? version_of (serve 0 run.(rn_db) c).2)%Z
  | None => false
  end.

Lemma effective_changes {A} (run : running A) c k :
  run.(rn_rest) = Invoke c k → effective run = true → (serve 0 run.(rn_db) c).2 ≠ run.(rn_db).
Proof.
  unfold effective, next_call. intros -> H E. rewrite E in H. by rewrite Z.eqb_refl in H.
Qed.

(** * The sample *)

Definition served_graph : list Command :=
  [ (command "create" 0 boss CommandBoardCreate)
      <| Command_Board := Some (mkBoardSpec "board" "a board" "/repo" "r0" "refs/heads/ago/board" ["go test ./..."]) |>;
    (command "add" 1 boss CommandTaskAdd)
      <| Command_Task := Some (mkTaskSpec "update-readme" "a task" contract AccessWrite) |>;
    (command "activate" 2 boss CommandTaskActivate) <| Command_TaskID := "update-readme" |> ].
Definition served_ops : list Operation := [OpCreateGraph served_graph (sample_document (mkProject sample_goal sample_plan))].

Definition sample_integrator : Integrator := mkIntegrator "/scratch" "ago" "ago@example.invalid".
Definition served_scheduler : SchedulerOptions :=
  mkSchedulerOptions (Some (Gate_Run (Scratch sample_integrator))) (Verifier_Verify systemVerifier)
    "ago-scheduler" "ago-worker" "ago-verifier" (300 * Second)%Z DefaultLimits
    (Some (Integrate sample_integrator)) (NewFromEnvironment (λ _, "")) (Some Artifacts_Bytes).

#[export] Instance served_trusted : Trusted served_scheduler.
Proof.
  split; cbn; [exact _|intros ? [= <-]; exact _..|]. intros ? [= <-] d.
  unfold boxed, contained. walk_calls. done.
Qed.

Definition served_start : running (result unit) :=
  mkRunning (performAll served_ops DB_empty) [] (Scheduler_Run served_scheduler 3).

Lemma served_start_system : on_system served_start.
Proof.
  unfold on_system, served_start. cbn [rn_db rn_past rn_rest].
  apply (system_spawn _ []); [|apply entry_run, served_trusted]. unfold served_ops, performAll. cbn [foldl].
  apply system_client, system_start.
Qed.

Definition run_until (stop : call → bool) : running (result unit) := drive 0 200 stop served_start.

Lemma run_until_system stop : on_system (run_until stop).
Proof. apply drive_system, served_start_system. Qed.

(** The point of the run where [stop] holds of the next call. *)
Lemma run_until_waits stop :
  waits stop (run_until stop) = true →
  ∃ c k, stop c = true ∧ system (run_until stop).(rn_db) [mkThread (run_until stop).(rn_past) (Invoke c k)] ∧
    (run_until stop).(rn_rest) = Invoke c k.
Proof.
  intros (c & k & Hr & Hc)%waits_inv. exists c, k. split; [done|]. split; [|done].
  pose proof (run_until_system stop) as H. unfold on_system in H. by rewrite Hr in H.
Qed.

(** The run stops before a command of the type, which then takes effect. *)
Lemma command_point type :
  (waits (applies type) (run_until (applies type)) && effective (run_until (applies type))) = true →
  ∃ boardID c k r db', c.(Command_Type) = type ∧
    system (run_until (applies type)).(rn_db)
      [mkThread (run_until (applies type)).(rn_past) (Invoke (CallApplyBoard boardID c) k)] ∧
    served (run_until (applies type)).(rn_db) (existT (CallApplyBoard boardID c) r) db' ∧
    db' ≠ (run_until (applies type)).(rn_db).
Proof.
  generalize (run_until_waits (applies type)) (effective_changes (run_until (applies type))).
  generalize (run_until (applies type)) as run. intros run Hw He [Hwait Heff]%andb_true_iff.
  destruct (Hw Hwait) as (c & k & Hc & Hs & Hr). specialize (He c k Hr Heff).
  destruct c as [| | |boardID c| | | | | | | | | | | | | | | |]; try discriminate Hc. apply String.eqb_eq in Hc.
  exists boardID, c, k, (serve 0 (rn_db run) (CallApplyBoard boardID c)).1,
    (serve 0 (rn_db run) (CallApplyBoard boardID c)).2.
  split; [exact Hc|]. split; [exact Hs|]. split; [apply serve_served|exact He].
Qed.

(** What the run does, call by call. *)
Definition step_name (e : event) : string :=
  match e with
  | existT (CallApplyBoard _ c) (Ok _) => c.(Command_Type)
  | existT (CallClaim _) (Ok r) => r.(ClaimResult_Outcome)
  | existT (CallExecute _) _ => "execute"
  | existT (CallJudge _) _ => "judge"
  | existT (CallExec _ _ (command :: _) _) _ => "git " +:+ command
  | existT (CallCheck _ name args) _ => strings_Join (name :: args) " "
  | _ => ""
  end.

Example served_run_completes :
  let run := run_until (λ _, false) in
  List.filter (λ name, negb (name == "")) (step_name <$> run.(rn_past)) =
    [ "acquired"; "attempt.start"; "execute"; "evidence.submit"; "no-work"; "judge"; "evidence.accept";
      "git rev-parse"; "git worktree"; "git apply"; "git add"; "git diff"; "git -c"; "git rev-parse";
      "git update-ref"; "git worktree"; "integration.complete"; "no-work"; "git worktree";
      "go test ./..."; "git worktree"; "gate.pass"; "no-work" ] ∧
  (EvaluateCompletion (stored_board run.(rn_db))).(Completion_Done) = true.
Proof. vm_compute. auto. Qed.
