(* ===== verification/Footprint.v ===== *)
(** Who may ask the store for what: the calls a scheduler and a supervisor make, by
    kind, actor and board. *)
From S2P Require Import Prelude Sql Paths Planner Protocol Validate Database Store Service.
From S2P Require Import Runtime GoalSafety Process Environment Verify Integrate Scheduler.
From S2P Require Import Supervisor Trust SampleSystem.

Section footprint.
Context {golib : GoLib}.

(** * Schedulers *)

Definition worker_types : list CommandType := [CommandAttemptStart; CommandAttemptFail; CommandEvidenceSubmit].
Definition verifier_types : list CommandType := [CommandEvidenceAccept; CommandEvidenceReject].
Definition coordinator_types : list CommandType :=
  [CommandVerificationDeferred; CommandIntegrationFail; CommandIntegrationComplete;
   CommandGatePass; CommandGateFail; CommandGateUnavailable].

(** The three identities of a scheduler, each with the commands it issues. *)
Inductive issued (scheduler : SchedulerOptions) (c : Command) : Prop :=
  | issued_worker :
      c.(Command_Actor) = mkActor scheduler.(SchedulerOptions_WorkerID) RoleWorker →
      c.(Command_Type) ∈ worker_types → issued scheduler c
  | issued_verifier :
      c.(Command_Actor) = mkActor scheduler.(SchedulerOptions_VerifierID) RoleVerifier →
      c.(Command_Type) ∈ verifier_types → issued scheduler c
  | issued_coordinator :
      c.(Command_Actor) = mkActor scheduler.(SchedulerOptions_CoordinatorID) RoleCoordinator →
      c.(Command_Type) ∈ coordinator_types → issued scheduler c.

Definition scheduler_footprint (scheduler : SchedulerOptions) (c : call) : Prop :=
  match c with
  | CallApplyBoard _ command => issued scheduler command
  | CallClaim request =>
      request.(ClaimRequest_Actor) = Scheduler_coordinator scheduler ∧
      request.(ClaimRequest_WorkerID) = scheduler.(SchedulerOptions_WorkerID)
  | CallExpireDueLeases _ actor => actor = Scheduler_coordinator scheduler
  | CallExecute work => work.(Dispatch_WorkerID) = scheduler.(SchedulerOptions_WorkerID)
  | CallApplyBoardWithProposal _ _ _ | CallStoredPlan _ | CallCompletion _ => False
  | _ => True
  end.

(** * Supervisors *)

Definition supervisor_footprint (options : SupervisorOptions) (c : call) : Prop :=
  match c with
  | CallBoard b | CallStoredPlan b | CallCompletion b => b = boardID options
  | CallNow | CallContextErr | CallWait _ => True
  | CallApplyBoard b command =>
      b = boardID options ∧ command.(Command_Actor) = Supervisor_coordinator options ∧
      command.(Command_Type) ∈ [CommandPlanPatch; CommandTaskRetry]
  | CallApplyBoardWithProposal b command _ =>
      b = boardID options ∧ command.(Command_Actor) = Supervisor_coordinator options ∧
      command.(Command_Type) = CommandPlanPatch
  | _ => False
  end.

Section scheduler.
Context (scheduler : SchedulerOptions) {trusted : Trusted scheduler}.

Ltac plain := cbn [scheduler_footprint]; first
  [ done
  | apply issued_worker; [reflexivity|by_decide]
  | apply issued_verifier; [reflexivity|by_decide]
  | apply issued_coordinator; [reflexivity|by_decide] ].

Lemma boxed_footprint {A} (p : proc A) : always boxed p → only (scheduler_footprint scheduler) p.
Proof. apply always_mono. intros h c [_ Hq]. by destruct c. Qed.

Lemma integrate_footprint boardID claim evidence board :
  only (scheduler_footprint scheduler) (Scheduler_integrate scheduler boardID claim evidence board).
Proof.
  unfold Scheduler_integrate, integrationFail. destruct (EvidenceResult_Patch _); [|apply always_Done].
  destruct (Options_Integrator scheduler) as [integrate|] eqn:Ei; [|walk_calls; plain].
  destruct (Options_Artifacts scheduler) as [bytes|] eqn:Ea; [|walk_calls; plain].
  apply always_bind; [by apply always_try, boxed_footprint; eapply trusted_artifacts|].
  intros [patch|e|]; [|walk_calls; plain..].
  apply always_bind; [|intros [|e|]; walk_calls; plain]. apply always_try, boxed_footprint. intros h.
  eapply ensures_mono; [by apply (trusted_integrator _ Ei)|done].
Qed.

Lemma verifyPending_footprint boardID : only (scheduler_footprint scheduler) (verifyPending scheduler boardID).
Proof.
  unfold verifyPending, verifyEvidence, abandonVerification, deferVerification, applyVerdict, ignoreConflict, nextEligible.
  walk_calls; try plain; [|apply integrate_footprint..].
  apply boxed_footprint. intros h. eapply ensures_mono; [apply trusted_verification|done].
Qed.

Lemma runProjectGate_footprint boardID : only (scheduler_footprint scheduler) (runProjectGate scheduler boardID).
Proof.
  unfold runProjectGate, recordGateUnavailable, ignoreConflict.
  destruct (Options_Gate scheduler) as [gate|] eqn:Eg; [|apply always_Done]. walk_calls; try plain.
  - apply boxed_footprint. intros h. eapply ensures_mono; [by apply (trusted_gate _ Eg)|done].
  - apply issued_coordinator; [reflexivity|]. cbn. destruct (GateResult_Passed _); by_decide.
Qed.

Lemma claimLoop_footprint boardID n cycle :
  only (scheduler_footprint scheduler) (claimLoop scheduler boardID n cycle).
Proof.
  revert cycle. induction n as [|n IH]; intros cycle; [apply always_Done|]. cbn [claimLoop].
  apply always_bind; [|intros [[] outcome]; [apply IH|apply always_Done]].
  unfold claimAndDispatch, Scheduler_dispatch, Scheduler_apply, applyFrom, nextEligible. walk_calls; plain.
Qed.

Lemma runCycle_footprint onlyBoard : only (scheduler_footprint scheduler) (runCycle scheduler onlyBoard).
Proof.
  unfold runCycle. apply always_bind; [walk_calls; plain|]. intros now. apply always_bind; [walk_calls; plain|].
  intros expired. apply always_bind; [destruct (_ == _); walk_calls; plain|]. intros boards.
  apply always_each. intros cycle boardID. unfold cycleBoard. apply always_bind; [walk_calls; plain|]. intros _.
  apply always_bind; [apply verifyPending_footprint|]. intros _.
  apply always_bind.
  { unfold resumeIntegrating, resumeTask, failIntegration. walk_calls; try plain. apply integrate_footprint. }
  intros _. apply always_bind; [apply claimLoop_footprint|]. intros cycle'.
  apply always_bind; [apply runProjectGate_footprint|]. intros _. apply always_Done.
Qed.

Lemma Run_footprint ticks : only (scheduler_footprint scheduler) (Scheduler_Run scheduler ticks).
Proof.
  induction ticks as [|ticks IH]; [apply always_Done|]. cbn [Scheduler_Run].
  apply always_bind; [apply always_try, runCycle_footprint|].
  intros [cycle|e|]; [exact IH|destruct (_ || _); [apply always_Done|exact IH]|exact IH].
Qed.
End scheduler.

Ltac plain := cbn [supervisor_footprint]; first
  [ done | split_and!; [reflexivity|reflexivity|by_decide] | split_and!; reflexivity ].

Lemma raiseNow_footprint options kind taskID title reason suggestion attempts :
  allows (λ _, supervisor_footprint options) (raiseNow kind taskID title reason suggestion attempts).
Proof. unfold raiseNow, raise. walk_state; plain. Qed.

Lemma review_footprint options board :
  allows (λ _, supervisor_footprint options) (reviewStoppedWork options board).
Proof.
  unfold reviewStoppedWork, reviewTask, repair. walk_state; first [apply raiseNow_footprint|plain].
Qed.

Lemma gate_footprint options : allows (λ _, supervisor_footprint options) (reviewFailedGate options).
Proof.
  unfold reviewFailedGate, raiseGate, repairForGate, repairScopes.
  walk_state; first [apply raiseNow_footprint|plain].
Qed.

Definition either_footprint (options : SupervisorOptions) (c : call) : Prop :=
  scheduler_footprint options.(SupervisorOptions_Scheduler) c ∨ supervisor_footprint options c.

Lemma allows_own {S A} options (m : stateful S A) :
  allows (λ _, supervisor_footprint options) m → allows (λ _, either_footprint options) m.
Proof. intros Hm s. eapply always_mono; [|apply Hm]. intros h c Hc. by right. Qed.

Lemma Step_footprint options :
  Trusted options.(SupervisorOptions_Scheduler) →
  allows (λ _, either_footprint options) (Supervisor_Step options).
Proof.
  intros Ht. unfold Supervisor_Step. apply allows_bind.
  { apply allows_fails_with, allows_calls. eapply always_mono; [|by apply runCycle_footprint]. intros h c Hc. by left. }
  intros _. apply allows_own. apply allows_bind; [walk_state; plain|]. intros board.
  apply allows_bind; [apply review_footprint|]. intros _. apply allows_bind; [apply gate_footprint|]. intros _.
  unfold status. walk_state; plain.
Qed.

Lemma Supervisor_Run_footprint options maxSteps :
  Trusted options.(SupervisorOptions_Scheduler) →
  allows (λ _, either_footprint options) (Supervisor_Run options maxSteps).
Proof.
  intros Ht. unfold Supervisor_Run. generalize (if (maxSteps <=? 0)%Z then 512%Z else maxSteps). intros most.
  generalize (Z.to_nat most). intros steps. induction steps as [|steps IH]; [apply allows_fail|].
  cbn [supervise_for]. apply allows_bind; [apply allows_own; walk_state; plain|]. intros _.
  apply allows_bind; [by apply Step_footprint|]. intros status. destruct (_ || _); [apply allows_done|].
  apply allows_bind; [apply allows_own; unfold waitForRetry; walk_state; plain|]. intros _. exact IH.
Qed.

Lemma New_independent raw same scheduler :
  Scheduler_New raw same = Ok scheduler →
  scheduler.(SchedulerOptions_WorkerID) ≠ scheduler.(SchedulerOptions_VerifierID).
Proof.
  unfold Scheduler_New. intros H. inv_ok. by case_match.
Qed.

(** C15: Separated authorities. A supervisor with its scheduler never claims or runs
    work but as the scheduler does: with the scheduler's coordinator, for its
    worker. Evidence is submitted by the worker, judged by the verifier, which is
    not the worker, and nothing else is done in their names; the supervisor itself
    only patches the plan of its own board and retries tasks, as a coordinator. *)
Theorem authorities_separated raw same options maxSteps s h p :
  let scheduler := options.(SupervisorOptions_Scheduler) in
  Scheduler_New raw same = Ok scheduler → Trusted scheduler →
  trace (Supervisor_Run options maxSteps s) h p →
  scheduler.(SchedulerOptions_WorkerID) ≠ scheduler.(SchedulerOptions_VerifierID) ∧
  ∀ e, e ∈ h → scheduler_footprint scheduler (projT1 e) ∨ supervisor_footprint options (projT1 e).
Proof.
  intros scheduler Hnew Ht Htr. split; [by eapply New_independent|]. intros e He.
  assert (only (either_footprint options) (Supervisor_Run options maxSteps s)) as Hf by by apply Supervisor_Run_footprint.
  pose proof (only_trace _ _ _ _ Hf Htr) as Hall. rewrite Forall_forall in Hall. by apply Hall.
Qed.

End footprint.

(** * A supervised goal *)

Definition sample_authorization : Authorization := mkAuthorization true true false false false 2 16.
Definition sample_supervisor (id : string) : SupervisorOptions :=
  mkSupervisorOptions served_scheduler id sample_authorization "ago-supervisor".

(** The goal of the sample, from its start to its completion. *)
Definition supervised : running (Supervisor * result Status) :=
  alone 0 400 (performAll served_ops DB_empty)
    (Supervisor_Run (sample_supervisor "board") 8 (mkSupervisor 0 [])).

Example supervised_completes :
  match supervised.(rn_rest) with
  | Done (_, Ok status) => status.(Status_Complete) && status.(Status_Proven)
  | _ => false
  end = true.
Proof. vm_compute. reflexivity. Qed.

Lemma authorities_separated_witness :
  served_scheduler.(SchedulerOptions_WorkerID) ≠ served_scheduler.(SchedulerOptions_VerifierID) ∧
  ∀ e, e ∈ supervised.(rn_past) →
    scheduler_footprint served_scheduler (projT1 e) ∨ supervisor_footprint (sample_supervisor "board") (projT1 e).
Proof.
  exact (authorities_separated served_scheduler false (sample_supervisor "board") 8 (mkSupervisor 0 [])
    supervised.(rn_past) supervised.(rn_rest) eq_refl served_trusted (alone_trace 0 400 _ _)).
Defined.
