(* ===== verification/Attention.v ===== *)
(** What the supervisor does with work that has stopped: it repairs it or raises it,
    within its budgets, and it reports a goal as blocked exactly when nothing is
    left that is not waiting on a person. *)
From stdpp Require Import sorting.
From S2P Require Import Prelude Sql Paths Planner Protocol Validate Database Store Service.
From S2P Require Import Runtime GoalSafety Process Environment Verify Integrate Scheduler.
From S2P Require Import Simulation Supervisor Trust SampleSystem Footprint.

(** * Stuck goals *)

(** [waits_for b x y]: the task [x] depends on the task [y]. *)
Definition waits_for (dependencies : list Dependency) (x y : string) : Prop :=
  ∃ d, d ∈ dependencies ∧ d.(Dependency_TaskID) = x ∧ d.(Dependency_DependsOn) = y.

Definition closed (dependencies : list Dependency) (w : gset string) : Prop :=
  ∀ x y, waits_for dependencies x y → y ∈ w → x ∈ w.

(** What a pass over some of the dependencies does to the set. *)
Record passed_over (all some : list Dependency) (w w' : gset string) (changed : bool) : Prop := {
  po_grows : w ⊆ w';
  po_reached : ∀ x, x ∈ w' → ∃ y, y ∈ w ∧ rtc (waits_for all) x y;
  po_known : ∀ x, x ∈ w' → x ∉ w → x ∈ Dependency_TaskID <$> some;
  po_unchanged : changed = false → w' = w ∧ closed some w;
  po_changed : changed = true → ∃ x, x ∈ w' ∧ x ∉ w;
}.

Lemma propagate_spec all dependencies w :
  dependencies ⊆ all →
  passed_over all dependencies w (propagate dependencies w).1 (propagate dependencies w).2.
Proof.
  unfold propagate. induction dependencies as [|d ds IH] using rev_ind; intros Hsub.
  { split; cbn; [done|intros x Hx; by exists x|done|intros _|done]. split; [done|]. by intros ? ? (? & ?%elem_of_nil & _). }
  rewrite foldl_app. cbn [foldl].
  destruct IH as [G R K U C]; [set_solver|].
  destruct (foldl _ (w, false) ds) as [w1 changed]. cbn [fst snd] in *.
  destruct (bool_decide (Dependency_DependsOn d ∈ w1) && bool_decide (Dependency_TaskID d ∉ w1)) eqn:E; cbn [fst snd].
  - apply andb_true_iff in E as [Ed%bool_decide_eq_true Et%bool_decide_eq_true]. split.
    + set_solver.
    + intros x [->%elem_of_singleton|Hx]%elem_of_union; [|by apply R].
      destruct (R _ Ed) as (y & Hy & Hr). exists y. split; [done|]. eapply rtc_l; [|exact Hr].
      exists d. split_and!; [|done..]. apply Hsub. set_solver.
    + intros x [->%elem_of_singleton|Hx]%elem_of_union Hn; [set_solver|]. rewrite fmap_app. set_solver.
    + done.
    + intros _. exists (Dependency_TaskID d). set_solver.
  - split; [done|done| |intros Hc|done].
    + intros x Hx Hn. rewrite fmap_app. set_solver.
    + destruct (U Hc) as [-> Hcl]. split; [done|]. intros x y (d' & Hd' & <- & <-) Hy.
      apply elem_of_app in Hd' as [Hd'|Hd']; [eapply Hcl; [by exists d'|done]|].
      apply list_elem_of_singleton in Hd' as ->. apply andb_false_iff in E as [E%bool_decide_eq_false|E%bool_decide_eq_false];
        [done|by destruct (decide (Dependency_TaskID d ∈ w))].
Qed.

(** The tasks with dependencies that are not in the set yet. *)
Definition unreached (dependencies : list Dependency) (w : gset string) : list string :=
  filter (λ x, x ∉ w) (Dependency_TaskID <$> dependencies).

Lemma unreached_decreases dependencies w w' x :
  w ⊆ w' → x ∈ Dependency_TaskID <$> dependencies → x ∈ w' → x ∉ w →
  length (unreached dependencies w') < length (unreached dependencies w).
Proof.
  unfold unreached. intros Hsub. generalize (Dependency_TaskID <$> dependencies) as l.
  induction l as [|y l IH]; [by intros ?%elem_of_nil|]. intros Hx Hw' Hw.
  assert (length (filter (λ x, x ∉ w') l) ≤ length (filter (λ x, x ∉ w) l)) as Hle.
  { clear -Hsub. induction l as [|z l IH]; [done|]. rewrite !filter_cons.
    repeat case_decide; cbn; set_solver by lia. }
  rewrite !filter_cons. apply elem_of_cons in Hx as [<-|Hx].
  - rewrite decide_False by set_solver. rewrite decide_True by done. cbn. lia.
  - specialize (IH Hx Hw' Hw). repeat case_decide; cbn; set_solver by lia.
Qed.

(** The loop ends, with the closure of the set it started from. *)
Lemma fixpoint_spec dependencies fuel w :
  length (unreached dependencies w) < fuel →
  ∃ w', fixpoint fuel dependencies w = Some w' ∧
    ∀ x, x ∈ w' ↔ ∃ y, y ∈ w ∧ rtc (waits_for dependencies) x y.
Proof.
  revert w. induction fuel as [|fuel IH]; intros w Hf; [lia|]. cbn [fixpoint].
  pose proof (propagate_spec dependencies dependencies w ltac:(done)) as [G R K U C].
  destruct (propagate dependencies w) as [w1 changed]. cbn [fst snd] in *. destruct changed.
  - destruct (C eq_refl) as (x & Hx & Hn).
    pose proof (unreached_decreases dependencies w w1 x G (K _ Hx Hn) Hx Hn) as Hlt.
    destruct (IH w1 ltac:(lia)) as (w' & -> & Hw'). exists w'. split; [done|]. intros z. rewrite Hw'. split.
    + intros (y & Hy & Hr). destruct (R _ Hy) as (y' & Hy' & Hr'). exists y'. split; [done|]. by etrans.
    + intros (y & Hy & Hr). exists y. split; [by apply G|done].
  - destruct (U eq_refl) as [-> Hcl]. exists w. split; [done|]. intros z. split; [intros Hz; by exists z|].
    intros (y & Hy & Hr). induction Hr as [x|x y z Hd _ IHr]; [done|]. eapply Hcl; [exact Hd|by apply IHr].
Qed.

Lemma waitingTasks_spec supervisor board x :
  x ∈ waitingTasks supervisor board ↔
  ∃ t, t ∈ board.(Board_Tasks) ∧ t.(Task_State) = TaskFailed ∧
    alreadyRaised supervisor t.(Task_ID) = true ∧ rtc (waits_for board.(Board_Dependencies)) x t.(Task_ID).
Proof.
  unfold waitingTasks.
  destruct (fixpoint_spec board.(Board_Dependencies) (S (length board.(Board_Dependencies)))
    (waitingRoots supervisor board)) as (w & -> & Hw).
  { unfold unreached. pose proof (length_filter (λ x, x ∉ waitingRoots supervisor board)
      (Dependency_TaskID <$> Board_Dependencies board)) as H. rewrite length_fmap in H. lia. }
  cbn [default]. rewrite Hw. unfold waitingRoots. split.
  - intros (y & Hy & Hr). apply elem_of_list_to_set, list_elem_of_fmap in Hy as (t & -> & Ht).
    apply list_elem_of_In, filter_In in Ht as [Ht [Hs%String.eqb_eq Ha]%andb_true_iff].
    exists t. split_and!; try done. by apply list_elem_of_In.
  - intros (t & Ht & Hs & Ha & Hr). exists t.(Task_ID). split; [|done].
    apply elem_of_list_to_set, list_elem_of_fmap. exists t. split; [done|]. apply list_elem_of_In, filter_In.
    split; [by apply list_elem_of_In|]. rewrite Hs, Ha. done.
Qed.

Lemma filter_length_eq {A} (f : A → bool) l : length (List.filter f l) = length l ↔ Forall (λ x, f x = true) l.
Proof.
  induction l as [|x l IH]; [by split|]. cbn. pose proof (filter_length_le f l) as Hle.
  rewrite Forall_cons. destruct (f x) eqn:E; cbn; [rewrite <- IH; split; [intros; by split; [|lia]|intros [_ ?]; lia]|].
  split; [lia|by intros [? _]].
Qed.

(** A goal is blocked exactly when it waits on people. The supervisor reports
    that every remaining stop needs a person if and only if something is left to do
    and every task that is left depends, through any number of dependencies, on a
    failed task (or is one) whose decision was raised; the loop that computes this
    ends. A goal all of whose tasks are settled is never blocked. *)
Theorem blocked_iff_waiting_on_people supervisor board :
  everyRemainingStopNeedsAPerson supervisor board = true ↔
  (∃ t, t ∈ board.(Board_Tasks) ∧ settled t = false) ∧
  ∀ t, t ∈ board.(Board_Tasks) → settled t = false →
    ∃ root, root ∈ board.(Board_Tasks) ∧ root.(Task_State) = TaskFailed ∧
      alreadyRaised supervisor root.(Task_ID) = true ∧
      rtc (waits_for board.(Board_Dependencies)) t.(Task_ID) root.(Task_ID).
Proof.
  unfold everyRemainingStopNeedsAPerson.
  set (pending := List.filter (λ task, negb (settled task)) board.(Board_Tasks)).
  assert (∀ t, t ∈ pending ↔ t ∈ board.(Board_Tasks) ∧ settled t = false) as Hp.
  { intros t. unfold pending. rewrite !list_elem_of_In, filter_In. by rewrite negb_true_iff. }
  rewrite andb_true_iff, Nat.ltb_lt, Nat.eqb_eq. split.
  - intros [Hne Hlen]. split.
    + destruct pending as [|t l]; [cbn in Hne; lia|]. exists t. apply Hp. by left.
    + intros t Ht Hs. apply eq_sym, filter_length_eq in Hlen. rewrite Forall_forall in Hlen.
      specialize (Hlen t (proj2 (Hp t) (conj Ht Hs))). apply bool_decide_eq_true in Hlen.
      by apply waitingTasks_spec in Hlen.
  - intros [[t Ht] Hall]. split.
    + apply Hp in Ht. destruct pending; [by apply elem_of_nil in Ht|cbn; lia].
    + symmetry. apply filter_length_eq, Forall_forall. intros u [Hu Hs]%Hp. apply bool_decide_eq_true, waitingTasks_spec.
      by apply Hall.
Qed.

(** * The attention queue *)

(** Decisions are only added, and no task has two. *)
Record queued (s s' : Supervisor) : Prop := {
  qu_kept : s.(decisions) ⊆ s'.(decisions);
  qu_distinct : NoDup (UserDecision_TaskID <$> s.(decisions)) → NoDup (UserDecision_TaskID <$> s'.(decisions));
}.

#[export] Instance queued_preorder : PreOrder queued.
Proof. split; [by split|]. intros s1 s2 s3 [K1 D1] [K2 D2]. split; [by etrans|auto]. Qed.

Lemma alreadyRaised_iff s id : alreadyRaised s id = true ↔ id ∈ UserDecision_TaskID <$> s.(decisions).
Proof.
  unfold alreadyRaised. rewrite existsb_exists, list_elem_of_fmap. split.
  - intros (d & Hd & <-%String.eqb_eq). exists d. split; [done|]. by apply list_elem_of_In.
  - intros (d & -> & Hd). exists d. split; [by apply list_elem_of_In|]. apply String.eqb_refl.
Qed.

Lemma alreadyRaised_queued s s' id : queued s s' → alreadyRaised s id = true → alreadyRaised s' id = true.
Proof.
  intros [Hk _]. rewrite !alreadyRaised_iff. intros (d & -> & Hd)%list_elem_of_fmap.
  apply list_elem_of_fmap. exists d. split; [done|]. by apply Hk.
Qed.

Lemma raised_queued decision s :
  queued s (raised decision s) ∧ alreadyRaised (raised decision s) decision.(UserDecision_TaskID) = true.
Proof.
  unfold raised. destruct (alreadyRaised s _) eqn:E; [done|].
  assert (decisions (s <| decisions := merge_sort decisionOrder (decisions s ++ [decision]) |>) ≡ₚ
    decisions s ++ [decision]) as Hp by apply merge_sort_Permutation.
  split; [split|].
  - rewrite Hp. set_solver.
  - intros Hnd. rewrite Hp, fmap_app. apply NoDup_app. split_and!; [done| |apply NoDup_singleton].
    intros x Hx ->%list_elem_of_singleton. apply alreadyRaised_iff in Hx. congruence.
  - apply alreadyRaised_iff. rewrite Hp, fmap_app. set_solver.
Qed.

Lemma patches_queued s f : queued s (s <| patches := f (patches s) |>).
Proof. by split. Qed.

Section review.
Context {golib : GoLib} (options : SupervisorOptions).

Lemma raiseNow_raises kind taskID title reason suggestion attempts s h :
  ensures (λ _ _, True) (raiseNow kind taskID title reason suggestion attempts s) h
    (λ h' '(s', r), h `prefix_of` h' ∧ queued s s' ∧ r = Ok tt ∧ alreadyRaised s' taskID = true).
Proof.
  unfold raiseNow. ensures_state_call; [done|]. intros now. cbv beta iota.
  split; [by apply prefix_app_r|]. pose proof (raised_queued
    (mkUserDecision kind taskID title reason suggestion (Time_UTC now) attempts) s) as [? ?]. done.
Qed.

(** A task the supervisor has to do something about. *)
Definition stopped (task : Task) : bool :=
  (task.(Task_State) == TaskFailed) && negb task.(Task_Cancelled) && (task.(Task_SupersededBy) == "").

(** The repair of the task was recorded by the store, now or earlier: the patch, and
    after a fresh patch the retry. *)
Definition recorded (h : history) (command : Command) : Prop :=
  ∃ result, existT (CallApplyBoard (boardID options) command) (Ok result) ∈ h.
Definition conflicted (h : history) (command : Command) : Prop :=
  ∃ err, existT (CallApplyBoard (boardID options) command) (Err err) ∈ h ∧ isConflict err = true.

Definition repaired (h : history) (task : Task) : Prop :=
  let count := i64 (task.(Task_UserRetries) + 1) in
  (∃ version, recorded h (repairCommand options task count version)) ∧
  ∃ version, recorded h (retryCommand options task count version).

(** One of the two commands of its repair was refused, since its id was used for
    something else: the supervisor takes the repair for done. *)
Definition refused (h : history) (task : Task) : Prop :=
  let count := i64 (task.(Task_UserRetries) + 1) in
  (∃ version, conflicted h (repairCommand options task count version)) ∨
  (∃ version, recorded h (repairCommand options task count version)) ∧
  ∃ version, conflicted h (retryCommand options task count version).

(** What a review leaves of a stopped task. *)
Definition reviewed (s : Supervisor) (h : history) (task : Task) : Prop :=
  alreadyRaised s task.(Task_ID) = true ∨ repaired h task ∨ refused h task.

Lemma event_recorded h command result :
  recorded (h ++ [existT (CallApplyBoard (boardID options) command) (Ok result)]) command.
Proof. exists result. set_solver. Qed.
Lemma event_conflicted h command err :
  isConflict err = true →
  conflicted (h ++ [existT (CallApplyBoard (boardID options) command) (Err err)]) command.
Proof. intros He. exists err. split; [set_solver|done]. Qed.
Lemma recorded_mono h h' command : h `prefix_of` h' → recorded h command → recorded h' command.
Proof. intros Hp [r Hr]. exists r. by eapply event_kept. Qed.
Lemma conflicted_mono h h' command : h `prefix_of` h' → conflicted h command → conflicted h' command.
Proof. intros Hp (e & He & Hc). exists e. split; [by eapply event_kept|done]. Qed.

Lemma reviewed_mono s s' h h' task : queued s s' → h `prefix_of` h' → reviewed s h task → reviewed s' h' task.
Proof.
  intros Hq Hp [H|[[[v1 H1] [v2 H2]]|H]]; [left; by apply (alreadyRaised_queued s)|right; left|right; right].
  - split; [exists v1|exists v2]; by eapply recorded_mono.
  - destruct H as [[v H]|[[v1 H1] [v2 H2]]]; [left; exists v; by eapply conflicted_mono|right].
    split; [exists v1; by eapply recorded_mono|exists v2; by eapply conflicted_mono].
Qed.

Lemma repair_repairs task s h :
  ensures (λ _ _, True) (repair options task s) h (λ h' '(s', r), h `prefix_of` h' ∧ queued s s' ∧
    (r = Ok tt → reviewed s' h' task)).
Proof.
  unfold repair. apply ensures_get_bind. cbv beta zeta.
  destruct (_ <=? _)%Z.
  { eapply ensures_mono; [apply raiseNow_raises|]. intros h' [s' r] _ (? & ? & _ & ?). split_and!; [done..|]. intros _. by left. }
  set (s1 := s <| patches := i64 (patches s + 1) |>).
  assert (queued s s1) as Hq by (by split). set (count := i64 _).
  apply ensures_update_bind. fold s1.
  ensures_state_call; [done|]. intros [board|e|]; cbv beta iota; [|split_and!; [by apply prefix_app_r|done..]..].
  apply ensures_state_bind, ensures_attempt, ensures_state_calls. ensures_call; [done|].
  assert (∀ e1 e2 : event, h `prefix_of` (h ++ [e1]) ++ [e2]) as Hp2 by (intros; rewrite <- !app_assoc; by apply prefix_app_r).
  intros [patched|e|]; cbv beta iota; [| |split_and!; [apply Hp2|done..]].
  - ensures_state_call; [done|].
    set (h2 := (h ++ _) ++ _). assert (h `prefix_of` h2) as Hh2 by apply Hp2.
    assert (recorded h2 (repairCommand options task count (Board_Version board))) as Hrec by apply event_recorded.
    intros [updated|e|]; cbv beta iota; [|split_and!; [etransitivity; [exact Hh2|by apply prefix_app_r]|done..]..].
    set (h3 := h2 ++ _). assert (h2 `prefix_of` h3) as Hh3 by (by apply prefix_app_r).
    apply ensures_state_bind, ensures_attempt, ensures_state_calls. ensures_call; [done|].
    assert (∀ e : event, h `prefix_of` h3 ++ [e]) as Hp3
      by (intros; etransitivity; [exact Hh2|]; etransitivity; [exact Hh3|by apply prefix_app_r]).
    assert (∀ e : event, recorded (h3 ++ [e]) (repairCommand options task count (Board_Version board))) as Hrec3
      by (intros; eapply recorded_mono; [|exact Hrec]; etransitivity; [exact Hh3|by apply prefix_app_r]).
    intros [retried|e|]; cbv beta iota; [| |split_and!; [apply Hp3|done..]].
    + split_and!; [apply Hp3|done|]. intros _. right; left.
      split; [exists (Board_Version board); apply Hrec3|]. exists (Board_Version updated). apply event_recorded.
    + destruct (isConflict e) eqn:Ec; (split_and!; [apply Hp3|done|]); [|done]. intros _. right; right; right.
      split; [exists (Board_Version board); apply Hrec3|]. exists (Board_Version updated). by apply event_conflicted.
  - destruct (isConflict e) eqn:Ec; (split_and!; [apply Hp2|done|]); [|done]. intros _. right; right; left.
    exists (Board_Version board). by apply event_conflicted.
Qed.

Lemma reviewTask_handles task s h :
  ensures (λ _ _, True) (reviewTask options task s) h (λ h' '(s', r), h `prefix_of` h' ∧ queued s s' ∧
    (∀ e, r ≠ Err e) ∧
    (r = Ok tt → stopped task = true → reviewed s' h' task)).
Proof.
  unfold reviewTask, reviewed. destruct ((_ != _) || _ || _) eqn:Est.
  { split_and!; try done. intros _ Hs. unfold stopped in Hs.
    destruct (Task_State task == TaskFailed), (Task_Cancelled task), (Task_SupersededBy task == ""); done. }
  clear Est. apply ensures_get_bind.
  destruct (alreadyRaised s _) eqn:Ea; [by split_and!; auto|].
  assert (∀ kind title reason suggestion attempts s h0, h `prefix_of` h0 → queued s s →
    ensures (λ _ _, True) (raiseNow kind task.(Task_ID) title reason suggestion attempts s) h0
      (λ h' '(s', r), h0 `prefix_of` h' ∧ queued s s' ∧ (∀ e, r ≠ Err e) ∧
        (r = Ok tt → stopped task = true → alreadyRaised s' task.(Task_ID) = true ∨ repaired h' task ∨ refused h' task))) as Hraise.
  { intros kind title reason suggestion attempts s1 h0 _ _. eapply ensures_mono; [apply raiseNow_raises|].
    intros h' [s' r] _ (? & ? & -> & ?). by split_and!; auto. }
  destruct (escalationFor _ _) as [kind []]; [by apply Hraise|]. destruct (_ <=? _)%Z; [by apply Hraise|].
  apply ensures_state_bind, ensures_attempt. eapply ensures_mono; [apply repair_repairs|].
  intros h1 [s1 r] _ (Hp & Hq & Hr). destruct r as [[]|e|]; cbv beta iota.
  - unfold reviewed in Hr; by split_and!; auto.
  - eapply ensures_mono; [by apply Hraise|]. intros h2 [s2 r] _ (Hp2 & Hq2 & ? & ?).
    split_and!; [by etransitivity|by etrans|done..].
  - by split_and!.
Qed.

Lemma reviewStoppedWork_handles board s h :
  ensures (λ _ _, True) (reviewStoppedWork options board s) h (λ h' '(s', r), queued s s' ∧ (∀ e, r ≠ Err e) ∧
    (r = Ok tt → ∀ t, t ∈ board.(Board_Tasks) → stopped t = true → reviewed s' h' t)).
Proof.
  unfold reviewStoppedWork.
  enough (keeps (λ _ _, True) (λ _ s', queued s s' ∧ ∀ t, t ∈ [] → stopped t = true → False)
    (foreach (reviewTask options) (Board_Tasks board)) (λ h' s' r, queued s s' ∧ (∀ e, r ≠ Err e) ∧
      (r = Ok tt → ∀ t, t ∈ board.(Board_Tasks) → stopped t = true → reviewed s' h' t))) as H.
  { apply H. split; [done|by intros ? ?%elem_of_nil]. }
  eapply keeps_weaken; [| |apply (keeps_foreach _ (λ before h' s', queued s s' ∧
    ∀ t, t ∈ before → stopped t = true → reviewed s' h' t))].
  - intros h' s' [Hq _]. split; [done|]. by intros ? ?%elem_of_nil.
  - intros h' s' r Hr. exact Hr.
  - intros before task after _ h1 s1 [Hq Hb]. eapply ensures_mono; [apply reviewTask_handles|].
    intros h2 [s2 r] _ (Hp & Hq2 & Hne & Ht). assert (queued s s2) as Hs2 by by etrans.
    destruct r as [[]|e|]; [|by edestruct Hne|done]. split; [done|].
    intros t [Hin| ->%list_elem_of_singleton]%elem_of_app Hs; [|by apply Ht]. by eapply (reviewed_mono s1), Hb.
  - intros h' s' [Hq Ht]. split_and!; [done..|]. intros _. exact Ht.
Qed.

(** C16: A stopped task stalls silently only on a conflict. Whatever the store answers
    to a review of a board, the review never fails, so no task stops the review of the
    others; no decision is lost or doubled; and when it returns, every stopped task is in
    the attention queue, or its repair was recorded by this review, the patch and the
    retry both; otherwise one of the two was refused because its id was used for
    something else, which the supervisor takes for a repair that is done. *)
Theorem stalls_only_on_conflict board s h s' r :
  trace (reviewStoppedWork options board s) h (Done (s', r)) →
  (∀ e, r ≠ Err e) ∧ s.(decisions) ⊆ s'.(decisions) ∧
  (NoDup (UserDecision_TaskID <$> s.(decisions)) → NoDup (UserDecision_TaskID <$> s'.(decisions))) ∧
  (r = Ok tt → ∀ t, t ∈ board.(Board_Tasks) → stopped t = true →
     alreadyRaised s' t.(Task_ID) = true ∨ repaired h t ∨ refused h t).
Proof.
  intros Ht. destruct (ensures_trace _ _ _ _ _ _ Ht (reviewStoppedWork_handles board s [])) as ([Hd Hn] & He & Hr).
  by split_and!.
Qed.

End review.

(** * The budget of plan patches *)

Section budget.
Context {golib : GoLib} (options : SupervisorOptions).
Context {trusted : Trusted options.(SupervisorOptions_Scheduler)}.

Definition most_patches : Z := options.(SupervisorOptions_Authorize).(Authorization_MaxPatches).
Context (Hmost : (0 <= most_patches < 2 ^ 63)%Z).

Definition patches_plan (c : call) : bool :=
  match c with CallApplyBoard _ command => command.(Command_Type) == CommandPlanPatch | _ => false end.
Definition patch_count (h : history) : Z :=
  Z.of_nat (length (List.filter (λ e : event, patches_plan (projT1 e)) h)).

Lemma patch_count_snoc h c r :
  patch_count (h ++ [existT c r]) = (patch_count h + if patches_plan c then 1 else 0)%Z.
Proof.
  unfold patch_count. rewrite List.filter_app, length_app. cbn [List.filter projT1].
  destruct (patches_plan c); rewrite Nat2Z.inj_add; reflexivity.
Qed.

Definition affordable (h : history) (c : call) : Prop :=
  patches_plan c = true → (patch_count h < most_patches)%Z.
Definition in_budget (h : history) (s : Supervisor) : Prop :=
  (patch_count h <= s.(patches) <= most_patches)%Z.

Lemma plain_in_budget h s c :
  patches_plan c = false → in_budget h s → affordable h c ∧ ∀ r, in_budget (h ++ [existT c r]) s.
Proof.
  intros Hc Hi. split; [intros Hp; congruence|]. intros r. unfold in_budget. rewrite patch_count_snoc, Hc.
  unfold in_budget in Hi. lia.
Qed.

Lemma raised_in_budget decision h s : in_budget h s → in_budget h (raised decision s).
Proof. unfold raised. by destruct (alreadyRaised _ _). Qed.

Ltac affordable_calls :=
  apply (maintains_calls _ _ (λ c, patches_plan c = false) _ plain_in_budget); walk_calls; done.

Lemma raiseNow_budget kind taskID title reason suggestion attempts :
  maintains affordable in_budget (raiseNow kind taskID title reason suggestion attempts).
Proof.
  unfold raiseNow, raise. walk_maintains; [affordable_calls|]. apply maintains_update. intros h s.
  apply raised_in_budget.
Qed.

Lemma repair_budget task : maintains affordable in_budget (repair options task).
Proof.
  intros h s Hi. unfold repair. apply ensures_get_bind. fold most_patches. cbv beta zeta.
  destruct (most_patches <=? patches s)%Z eqn:Em; [by apply raiseNow_budget|]. apply Z.leb_gt in Em.
  apply ensures_update_bind. set (s1 := s <| patches := _ |>). set (count := i64 _).
  assert (patches s1 = patches s + 1)%Z as E1.
  { change (patches s1) with (i64 (patches s + 1)). apply i64_small.
    unfold in_budget, patch_count in Hi. lia. }
  unfold in_budget in Hi. ensures_state_call; [done|]. intros r1. cbv beta iota.
  set (h1 := h ++ _). assert (patch_count h1 = patch_count h) as H1 by (unfold h1; rewrite patch_count_snoc; cbn; lia).
  destruct r1 as [board|e|]; cbv beta iota; [|unfold in_budget; lia..].
  apply ensures_state_bind, ensures_attempt, ensures_state_calls. ensures_call; [intros _; lia|].
  intros r2. set (h2 := h1 ++ _). assert (in_budget h2 s1) as H2.
  { unfold in_budget, h2. rewrite patch_count_snoc, E1, H1. change (patches_plan _) with true. cbv iota. lia. }
  enough (∀ f : result Result → stateful Supervisor unit, (∀ r, maintains affordable in_budget (f r)) →
    ensures affordable (f r2 s1) h2 (λ h' '(s', _), in_budget h' s')) as H.
  { destruct r2 as [patched|e|]; cbv beta iota; [| |exact H2].
    - match goal with |- ensures _ (?m s1) _ _ => apply (H (λ _, m)) end. intros _. walk_maintains; affordable_calls.
    - match goal with |- ensures _ (?m s1) _ _ => apply (H (λ _, m)) end. intros _. walk_maintains. }
  intros f Hf. by apply Hf.
Qed.

Lemma footprint_unpatched scheduler c : scheduler_footprint scheduler c → patches_plan c = false.
Proof.
  case c; try done. intros id command Hc. apply String.eqb_neq. intros E.
  destruct Hc as [_ Hty|_ Hty|_ Hty]; rewrite E in Hty; revert Hty; by_decide.
Qed.

Lemma Step_budget : maintains affordable in_budget (Supervisor_Step options).
Proof.
  unfold Supervisor_Step. apply maintains_bind.
  { apply maintains_fails_with, (maintains_calls _ _ (λ c, patches_plan c = false) _ plain_in_budget).
    eapply always_mono; [|by apply runCycle_footprint]. intros ? c. apply footprint_unpatched. }
  unfold reviewStoppedWork, reviewTask, reviewFailedGate, raiseGate, repairForGate, repairScopes, status.
  intros _. walk_maintains; first [apply raiseNow_budget|apply repair_budget|affordable_calls].
Qed.

Lemma Supervisor_Run_budget maxSteps : maintains affordable in_budget (Supervisor_Run options maxSteps).
Proof.
  unfold Supervisor_Run. generalize (if (maxSteps <=? 0)%Z then 512%Z else maxSteps). intros most.
  generalize (Z.to_nat most). intros steps. induction steps as [|steps IH]; [apply maintains_fail|].
  cbn [supervise_for]. apply maintains_bind; [affordable_calls|]. intros _.
  apply maintains_bind; [apply Step_budget|]. intros status. destruct (_ || _); [apply maintains_done|].
  apply maintains_bind; [unfold waitForRetry; walk_maintains; affordable_calls|]. intros _. exact IH.
Qed.

(** Repairs are bounded. A supervisor that starts with nothing spent sends at
    most as many plan patches for repairs as it is authorized to, however long it
    runs and whatever the store, the scheduler's work and the clock answer. *)
Theorem repairs_within_budget maxSteps queue h p :
  trace (Supervisor_Run options maxSteps (mkSupervisor 0 queue)) h p → (patch_count h <= most_patches)%Z.
Proof.
  assert (in_budget [] (mkSupervisor 0 queue)) as Hi by (unfold in_budget, patch_count; cbn; lia).
  pose proof (Supervisor_Run_budget maxSteps [] _ Hi) as He. revert p.
  induction h as [|[c r] h IH] using rev_ind; intros p Ht; [unfold patch_count; cbn; lia|].
  pose proof (ensures_calls _ _ _ h _ [] _ He Ht) as Hok. apply trace_split in Ht as (q & Ht & _).
  specialize (IH q Ht). rewrite patch_count_snoc. cbn [projT1] in Hok.
  destruct (patches_plan c) eqn:Ec; [specialize (Hok Ec); lia|lia].
Qed.

End budget.

(** A task of the sample fails for good; a review repairs it. *)
Definition failed_ops : list Operation := history_ops ++ (OpApplyBoard "board" <$>
  [first_claim; first_start;
   (command "fail-1" 8 worker CommandAttemptFail) <| Command_TaskID := "t1" |> <| Command_AttemptID := "attempt-1" |>
     <| Command_FencingToken := "token-1" |> <| Command_FailureClass := FailurePermanent |> <| Command_Reason := "no test" |>]).
Definition failed_board : Board := stored_board (performAll failed_ops DB_empty).
Definition failed_task : Task := task_of failed_board 0.
Definition review : running (Supervisor * result unit) :=
  alone 0 20 (performAll failed_ops DB_empty) (reviewStoppedWork (sample_supervisor "board") failed_board (mkSupervisor 0 [])).
Definition review_end : Supervisor := match review.(rn_rest) with Done (s, _) => s | _ => mkSupervisor 0 [] end.

Lemma review_ends : review.(rn_rest) = Done (review_end, Ok tt).
Proof.
  assert (match review.(rn_rest) with Done (_, Ok _) => true | _ => false end = true) as H by (vm_compute; reflexivity).
  unfold review_end. destruct (rn_rest review) as [[s [[]| |]]|]; done.
Qed.
Lemma review_trace : trace (reviewStoppedWork (sample_supervisor "board") failed_board (mkSupervisor 0 [])) review.(rn_past)
  (Done (review_end, Ok tt)).
Proof. rewrite <- review_ends. exact (alone_trace 0 20 _ _). Qed.
Lemma failed_stopped : failed_task ∈ failed_board.(Board_Tasks) ∧ stopped failed_task = true ∧
  alreadyRaised review_end failed_task.(Task_ID) = false.
Proof.
  split; [|split; vm_compute; reflexivity]. unfold failed_task, task_of.
  assert (0 <? length failed_board.(Board_Tasks) = true) as H by (vm_compute; reflexivity). revert H.
  destruct (Board_Tasks failed_board); [done|]. intros _. by left.
Qed.

(** The store accepts the two commands. *)
Example review_answers : omap (λ e : event, match e with existT (CallApplyBoard _ c) r => Some (c.(Command_Type), is_ok r) | _ => None end)
  review.(rn_past) = [(CommandPlanPatch, true); (CommandTaskRetry, true)].
Proof. vm_compute. reflexivity. Qed.

Lemma stalls_only_on_conflict_witness :
  stopped failed_task = true ∧
  (repaired (sample_supervisor "board") review.(rn_past) failed_task ∨ refused (sample_supervisor "board") review.(rn_past) failed_task).
Proof.
  destruct failed_stopped as (Hin & Hs & Hr). split; [exact Hs|].
  destruct (stalls_only_on_conflict (sample_supervisor "board") failed_board (mkSupervisor 0 []) review.(rn_past) review_end (Ok tt) review_trace)
    as (_ & _ & _ & H). destruct (H eq_refl _ Hin Hs) as [H'|H']; [|exact H']. rewrite Hr in H'. discriminate.
Defined.

Lemma sample_most : (0 <= most_patches (sample_supervisor "board") < 2 ^ 63)%Z.
Proof. done. Qed.

Lemma repairs_within_budget_witness :
  (patch_count supervised.(rn_past) <= most_patches (sample_supervisor "board"))%Z.
Proof.
  exact (repairs_within_budget (sample_supervisor "board") sample_most 8 []
    supervised.(rn_past) supervised.(rn_rest) (alone_trace 0 400 _ _)).
Defined.

(** * Waiting for retries *)

Section waiting.
Context {golib : GoLib} (options : SupervisorOptions).

(** A task that waits out its backoff. *)
Definition waits_to_retry (t : Task) : Prop := settled t = false ∧ t.(Task_State) = TaskRetryWait.

(** Nothing but scheduled retries and work that waits on a person is left, and
    [earliest] is the first of the retries. *)
Record only_retries (supervisor : Supervisor) (tasks : list Task) (earliest : Time) : Prop := {
  or_left : ∀ t, t ∈ tasks → settled t = false →
    t.(Task_State) = TaskRetryWait ∨
    t.(Task_State) = TaskFailed ∧ alreadyRaised supervisor t.(Task_ID) = true;
  or_first : earliest ≠ Time_zero →
    ∃ t, t ∈ tasks ∧ waits_to_retry t ∧ t.(Task_NextEligibleAt) = earliest;
  or_least : (∀ t, t ∈ tasks → waits_to_retry t → t.(Task_NextEligibleAt) ≠ Time_zero) →
    ∀ t, t ∈ tasks → waits_to_retry t → (earliest <= t.(Task_NextEligibleAt))%Z ∧ earliest ≠ Time_zero;
}.

Definition earlier (supervisor : Supervisor) (earliest : Time) (task : Task) : option Time :=
  if settled task then Some earliest
  else if task.(Task_State) != TaskRetryWait then
    if (task.(Task_State) != TaskFailed) || negb (alreadyRaised supervisor task.(Task_ID))
    then None else Some earliest
  else if Time_IsZero earliest || Time_Before task.(Task_NextEligibleAt) earliest
  then Some task.(Task_NextEligibleAt) else Some earliest.

Lemma only_retries_skip supervisor tasks task e :
  only_retries supervisor tasks e → ¬ waits_to_retry task →
  (settled task = false → task.(Task_State) = TaskFailed ∧ alreadyRaised supervisor task.(Task_ID) = true) →
  only_retries supervisor (tasks ++ [task]) e.
Proof.
  intros [L F M] Hn Hf. split.
  - intros t [Ht| ->%list_elem_of_singleton]%elem_of_app Hs; [by apply L|right; by apply Hf].
  - intros He. destruct (F He) as (t & ? & ? & ?). exists t. set_solver.
  - intros Hz t [Ht| ->%list_elem_of_singleton]%elem_of_app Hw; [|done]. apply M; [|done..].
    intros u Hu. apply Hz. set_solver.
Qed.

Lemma earlier_spec supervisor tasks task e e' :
  only_retries supervisor tasks e → earlier supervisor e task = Some e' →
  only_retries supervisor (tasks ++ [task]) e'.
Proof.
  intros Ho. unfold earlier. destruct (settled task) eqn:Es.
  { intros [= <-]. apply only_retries_skip; [done|intros [? _]; congruence|congruence]. }
  destruct (Task_State task != TaskRetryWait) eqn:Er.
  { apply negb_true_iff, String.eqb_neq in Er. destruct (_ || _) eqn:Ef; [done|]. intros [= <-].
    apply orb_false_iff in Ef as [Ef%negb_false_iff%String.eqb_eq Ea%negb_false_iff].
    apply only_retries_skip; [done|by intros [_ ?]|by intros _]. }
  apply negb_false_iff, String.eqb_eq in Er. destruct Ho as [L F M].
  assert (waits_to_retry task) as Hw by done.
  assert (∀ e1, e1 = task.(Task_NextEligibleAt) ∨ e1 = e ∧ e ≠ Time_zero →
    ((∀ t, t ∈ tasks ++ [task] → waits_to_retry t → t.(Task_NextEligibleAt) ≠ Time_zero) →
     e ≠ Time_zero → (e1 <= e)%Z) → (e1 <= task.(Task_NextEligibleAt))%Z →
    only_retries supervisor (tasks ++ [task]) e1) as Hnext.
  { intros e1 Hcase Hle Hle'. split.
    - intros t [Ht| ->%list_elem_of_singleton]%elem_of_app Hs; [by apply L|by left].
    - intros He. destruct Hcase as [->|[-> He']]; [exists task; set_solver|].
      destruct (F He') as (t & ? & ? & ?). exists t. set_solver.
    - intros Hz t Ht Hwt. assert (e1 ≠ Time_zero) as Hne by (destruct Hcase as [->|[-> ?]]; [apply Hz; set_solver|done]).
      split; [|done]. apply elem_of_app in Ht as [Ht| ->%list_elem_of_singleton]; [|done].
      destruct (M ltac:(intros u Hu; apply Hz; set_solver) t Ht Hwt) as [Hm Hne']. specialize (Hle Hz Hne'). lia. }
  destruct (Time_IsZero e || _) eqn:Ec; intros [= <-]; apply Hnext.
  - by left.
  - intros _ Hne. apply orb_true_iff in Ec as [Ec%Z.eqb_eq|Ec%Z.ltb_lt]; [done|lia].
  - lia.
  - right. split; [done|]. apply orb_false_iff in Ec as [Ec%Z.eqb_neq _]. exact Ec.
  - lia.
  - apply orb_false_iff in Ec as [_ Ec%Z.ltb_ge]. exact Ec.
Qed.

Lemma earliestRetry_spec supervisor board e :
  earliestRetry supervisor board = Some e → only_retries supervisor board.(Board_Tasks) e.
Proof.
  unfold earliestRetry. revert e. induction board.(Board_Tasks) as [|t l IH] using rev_ind; intros e.
  - intros [= <-]. split; [by intros ? ?%elem_of_nil|done|by intros _ ? ?%elem_of_nil].
  - rewrite foldl_app. cbn [foldl]. destruct (foldl _ (Some Time_zero) l) as [e0|]; [|done].
    intros H. eapply earlier_spec; [by apply IH|exact H].
Qed.

(** The supervisor waits only for retries. When a supervisor waits, then on the
    board it just read every task that is not settled is waiting out a backoff or
    has failed with its decision raised; one is waiting out its backoff; and the
    wait ends when that one, the first of them, becomes eligible. *)
Theorem waits_only_for_retries supervisor h :
  ensures (λ h c, ∀ delay, c = CallWait delay →
      ∃ board now earliest, existT (CallBoard (boardID options)) (Ok board) ∈ h ∧ existT CallNow now ∈ h ∧
        only_retries supervisor board.(Board_Tasks) earliest ∧ earliest ≠ Time_zero ∧
        delay = Time_Sub earliest now ∧ (0 < delay)%Z)
    (waitForRetry options supervisor) h (λ _ _, True).
Proof.
  unfold waitForRetry. ensures_state_call; [done|]. intros [board|e|]; [|done..].
  ensures_state_call; [done|]. intros now. cbv beta iota. apply ensures_get_bind.
  destruct (earliestRetry supervisor board) as [earliest|] eqn:Ee; [|done].
  destruct (Time_IsZero earliest) eqn:Ez; [done|]. destruct (_ <=? 0)%Z eqn:Ed; [done|].
  ensures_state_call; [|by intros [e|]]. intros delay [= <-]. exists board, now, earliest.
  split_and!; [set_solver|set_solver|by apply earliestRetry_spec|by apply Z.eqb_neq|done|by apply Z.leb_gt].
Qed.

End waiting.
