(* ===== verification/Collision.v ===== *)
(** Repairs that get lost: the ids of a supervisor's commands name a task and a count,
    or a round of the gate, but not the board and not what is on the board. The
    store answers a second use with a conflict, which the supervisor takes for a
    repair that is done. *)
From S2P Require Import Prelude Sql Paths Planner Protocol Validate Planning StateMachine Apply.
From S2P Require Import Simulation Database Consistency Store Operations EventLog Service.
From S2P Require Import StoreSafety Runtime GoalSafety Process Environment Verify Integrate.
From S2P Require Import Scheduler Supervisor Trust SampleSystem Footprint Attention.

Section collision.
Context {env : Env} {golib : GoLib}.

(** A command of [supervise], as the store hashes it. *)
Definition plainHash (boardID : string) (command : Command) : string :=
  commandRequestHash boardID (withDeadline command Time_zero) Time_zero None.

(** A later use of the id of an accepted command. *)
Lemma supervise_refused boardID c p b' c' p' db db' r fresh ops' :
  consistent db → boardID ≠ "" → b' ≠ "" →
  c.(Command_Type) ≠ CommandBoardCreate → c'.(Command_Type) ≠ CommandBoardCreate →
  apply boardID c Time_zero None p db = (db', Ok (r, fresh)) →
  c'.(Command_Actor).(Actor_ID) = c.(Command_Actor).(Actor_ID) → c'.(Command_ID) = c.(Command_ID) →
  plainHash b' c' ≠ plainHash boardID c →
  apply b' c' Time_zero None p' (performAll ops' db') =
    (performAll ops' db', Err (Errorf "command %q %w" [AStr c'.(Command_ID); AWrap ErrCommandConflict])).
Proof.
  intros Hc Hb%String.eqb_neq Hb'%String.eqb_neq Ht%String.eqb_neq Ht'%String.eqb_neq H Ea Ei Hne.
  eapply (id_taken _ _ _ _ _ _ _ _ _ _ _ _ _ _ _ b' Hc H); [|done|done|].
  - unfold resolveBoard. by rewrite Ht', Hb'.
  - unfold resolveBoard. rewrite Ht, Hb. by intros id [= <-].
Qed.

(** * Repairs of tasks *)

(** A retry follows a patch that was answered with a result. *)
Lemma retry_follows_patch options task s h :
  ensures (λ h c, ∀ version, c = CallApplyBoard (boardID options)
      (retryCommand options task (i64 (task.(Task_UserRetries) + 1)) version) →
      ∃ version', recorded options h (repairCommand options task (i64 (task.(Task_UserRetries) + 1)) version'))
    (repair options task s) h (λ _ _, True).
Proof.
  unfold repair. apply ensures_get_bind. cbv beta zeta. destruct (_ <=? _)%Z.
  { unfold raiseNow. ensures_state_call; [done|]. done. }
  apply ensures_update_bind. ensures_state_call; [done|]. intros [board|e|]; [|done..]. cbv beta iota.
  apply ensures_state_bind, ensures_attempt, ensures_state_calls. ensures_call; [intros version [=]|].
  intros [patched|e|]; cbv beta iota; [|by destruct (isConflict e)|done].
  ensures_state_call; [done|]. intros [updated|e|]; [|done..]. cbv beta iota.
  apply ensures_state_bind, ensures_attempt, ensures_state_calls. ensures_call.
  - intros version _. exists (Board_Version board). eapply recorded_mono; [by apply prefix_app_r|]. apply event_recorded.
  - intros [retried|e|]; cbv beta iota; [done|by destruct (isConflict e)|done].
Qed.

(** A repair is lost when its id was used. The command of a task's repair is
    named after the task and the number of its retries. Once a supervisor's patch
    under that id was accepted, every other patch under it, of any supervisor with
    the same identity, for a task of that name on any board or for the same task
    after a restart, is refused with a conflict; and a supervisor retries the task
    only after its patch was accepted. So a repair that stopped between its two
    commands is never finished, and a task of the same name on another board is
    never repaired at that count. *)
Theorem repair_lost_on_conflict ops ops' first second task task' version version' db' r :
  let db := performAll ops DB_empty in
  let count := i64 (task.(Task_UserRetries) + 1) in
  boardID first ≠ "" → boardID second ≠ "" →
  first.(SupervisorOptions_CoordinatorID) = second.(SupervisorOptions_CoordinatorID) →
  task.(Task_ID) = task'.(Task_ID) → task.(Task_UserRetries) = task'.(Task_UserRetries) →
  ApplyBoard (boardID first) (repairCommand first task count version) db = (db', Ok r) →
  plainHash (boardID second) (repairCommand second task' count version') ≠
    plainHash (boardID first) (repairCommand first task count version) →
  let later := performAll ops' db' in
  (∃ err, ApplyBoard (boardID second) (repairCommand second task' count version') later = (later, Err err) ∧
     isConflict err = true) ∧
  ∀ s, ensures (λ h c, ∀ version'', c = CallApplyBoard (boardID second) (retryCommand second task' count version'') →
      ∃ version'', recorded second h (repairCommand second task' count version''))
    (repair second task' s) [] (λ _ _, True).
Proof.
  intros db count Hb1 Hb2 Hid Htask Hcount Happ Hne later. subst later. split.
  - unfold ApplyBoard, resultOf in Happ.
    destruct (apply (boardID first) _ _ _ _ db) as [db1 [[r1 fresh]|e|]] eqn:E; [|done..]. cbn in Happ.
    injection Happ as -> ->. unfold ApplyBoard, resultOf.
    assert (∀ o t n v, Command_Type (repairCommand o t n v) ≠ CommandBoardCreate) as Hty by done.
    rewrite (supervise_refused _ _ _ (boardID second) (repairCommand second task' count version') None _ _ _ _ ops'
      (performAll_consistent ops) Hb1 Hb2 (Hty _ _ _ _) (Hty _ _ _ _) E);
      [|by cbn; rewrite Hid|cbn; unfold repairPatchID; by rewrite Htask|exact Hne].
    eexists. split; [reflexivity|reflexivity].
  - intros s. unfold count. rewrite Hcount. apply retry_follows_patch.
Qed.

(** * Repairs of the gate *)

Definition proposal_error (e : event) : option error :=
  match e with existT (CallApplyBoardWithProposal _ _ _) (Err err) => Some err | _ => None end.

(** The history holds no conflict about a proposal. *)
Ltac no_conflict :=
  intros (c & p & err & Hin & Hc); exfalso;
  repeat first
    [ discriminate Hin | by apply elem_of_nil in Hin
    | apply elem_of_app in Hin as [Hin|Hin] | apply elem_of_cons in Hin as [Hin|Hin] ].

(** A conflict about the gate's repair leaves nothing in the queue. *)
Lemma gate_conflict_silent options s :
  ensures (λ _ _, True) (reviewFailedGate options s) [] (λ h '(s', r),
    (∃ c p err, existT (CallApplyBoardWithProposal (boardID options) c p) (Err err) ∈ h ∧ isConflict err = true) →
    s' = s ∧ r = Ok tt).
Proof.
  unfold reviewFailedGate, raiseGate, raiseNow. ensures_state_call; [done|]. intros [board|e|]; [|no_conflict..].
  cbv beta iota. apply ensures_get_bind. cbv beta zeta. destruct (_ && _).
  { ensures_state_call; [done|]. intros now. no_conflict. }
  destruct (_ != _); [done|]. destruct (_ != _); [done|]. destruct (negb _); [done|]. destruct (alreadyRaised _ _); [done|].
  destruct (_ <? _)%Z; [ensures_state_call; [done|]; intros now; no_conflict|].
  apply ensures_state_bind, ensures_attempt, ensures_state_calls. unfold repairForGate, repairScopes.
  apply ensures_go_bind, ensures_go_bind, ensures_map_err. ensures_call; [done|].
  intros [plan|e|]; cbn [wrap_err]; cbv beta iota; [| |no_conflict].
  2: { ensures_state_call; [done|]. intros now. no_conflict. }
  unfold ret at 1. cbn [ensures].
  destruct (length (repairScopesOf plan) =? 0)%nat; [unfold throw; cbn [ensures]; ensures_state_call; [done|]; intros now; no_conflict|]. cbv zeta.
  apply ensures_go_bind, ensures_try. ensures_call; [done|]. intros [added|e|]; cbv beta iota; [done| |no_conflict; by apply (f_equal proposal_error) in Hin].
  destruct (isConflict e) eqn:Ec; [done|]. ensures_state_call; [done|]. intros now.
  no_conflict. apply (f_equal proposal_error) in Hin. injection Hin as ->. congruence.
Qed.

(** A gate repair is lost when its round was used. The command that adds the
    repair task is named after the number of failures of the gate alone. Once it was
    accepted for one board, the same round of any other board is refused for every
    supervisor with the same identity, and a supervisor that is refused leaves its
    queue as it was: the goal has a failed gate, no task to repair it and no
    decision. *)
Theorem gate_repair_lost_on_conflict ops ops' first second board board' scopes scopes' db' r :
  let db := performAll ops DB_empty in
  let proposal := gateRepairProposal board scopes in
  let proposal' := gateRepairProposal board' scopes' in
  boardID first ≠ "" → boardID second ≠ "" →
  first.(SupervisorOptions_CoordinatorID) = second.(SupervisorOptions_CoordinatorID) →
  board.(Board_Gate).(ProjectGate_Failures) = board'.(Board_Gate).(ProjectGate_Failures) →
  ApplyBoardWithProposal (boardID first) (gateRepairCommand first board proposal) proposal db = (db', Ok r) →
  plainHash (boardID second) (gateRepairCommand second board' proposal') ≠
    plainHash (boardID first) (gateRepairCommand first board proposal) →
  let later := performAll ops' db' in
  (∃ err, ApplyBoardWithProposal (boardID second) (gateRepairCommand second board' proposal') proposal' later =
     (later, Err err) ∧ isConflict err = true) ∧
  ∀ s, ensures (λ _ _, True) (reviewFailedGate second s) [] (λ h '(s', r),
    (∃ c p err, existT (CallApplyBoardWithProposal (boardID second) c p) (Err err) ∈ h ∧ isConflict err = true) →
    s' = s ∧ r = Ok tt).
Proof.
  intros db proposal proposal' Hb1 Hb2 Hid Hround Happ Hne later. subst later. split; [|intros s; apply gate_conflict_silent].
  unfold ApplyBoardWithProposal in Happ. destruct (strings_TrimSpace _ == "") eqn:Eid; [done|].
  assert (TaskProposal_ID proposal' = TaskProposal_ID proposal) as Epid by (cbn; by rewrite Hround).
  unfold resultOf in Happ. destruct (apply (boardID first) _ _ _ _ db) as [db1 [[r1 fresh]|e|]] eqn:E; [|done..].
  cbn in Happ. injection Happ as -> ->. unfold ApplyBoardWithProposal. rewrite Epid, Eid. unfold resultOf.
  assert (∀ o b p, Command_Type (gateRepairCommand o b p) ≠ CommandBoardCreate) as Hty by done.
  rewrite (supervise_refused _ _ _ (boardID second) (gateRepairCommand second board' proposal') _ _ _ _ _ ops'
    (performAll_consistent ops) Hb1 Hb2 (Hty _ _ _) (Hty _ _ _) E);
    [|by cbn; rewrite Hid|cbn; by rewrite Hround|exact Hne].
  eexists. split; reflexivity.
Qed.

End collision.

(** * Two goals under one runner *)

Definition graph_of (id : string) : list Command :=
  [ (command ("create-" +:+ id) 0 boss CommandBoardCreate)
      <| Command_Board := Some (mkBoardSpec id "a board" ("/repo-" +:+ id) "r0"
           ("refs/heads/ago/" +:+ id) ["go test ./..."]) |>;
    (command ("add-" +:+ id) 1 boss CommandTaskAdd)
      <| Command_Task := Some (mkTaskSpec "update-readme" "a task" contract AccessWrite) |>;
    (command ("activate-" +:+ id) 2 boss CommandTaskActivate) <| Command_TaskID := "update-readme" |> ].
Definition two_ops : list Operation :=
  let definition := sample_document (mkProject sample_goal sample_plan) in
  [OpCreateGraph (graph_of "board") definition; OpCreateGraph (graph_of "other") definition].

Definition sample_runner : Runner := NewRunner served_scheduler sample_authorization "".
(** Two goals whose checks fail, served by one runner for six ticks: the first gets
    its repair task; the second ends with a failed gate, no task to repair it, and
    nothing in the queue. *)
Example second_goal_stalls :
  let run := drive 1 2000 (λ _, false) (mkRunning (performAll two_ops DB_empty) [] (Runner_Run sample_runner 6 ∅)) in
  (λ id, match boardQuery run.(rn_db) id with
         | Ok b => (Task_ID <$> b.(Board_Tasks), forallb settled b.(Board_Tasks), b.(Board_Gate).(ProjectGate_State))
         | _ => ([], false, "")
         end) <$> ["board"; "other"] =
    [(["update-readme"; "gate-repair-%d/1"], false, GateFailed); (["update-readme"], true, GateFailed)] ∧
  match run.(rn_rest) with Done (known, _) => PendingDecisions known "other" = [] | _ => False end.
Proof. vm_compute. auto. Qed.

Definition sample_task : Task := task_of (board_after setup) 0.

Abbreviation sample_count := (i64 (sample_task.(Task_UserRetries) + 1)).

Definition after_repair : DB * result Result :=
  ApplyBoard (boardID (sample_supervisor "board"))
    (repairCommand (sample_supervisor "board") sample_task sample_count 6) (performAll history_ops DB_empty).
Definition repair_result : Result := match after_repair.2 with Ok r => r | _ => Result_zero end.

Lemma repair_applied : after_repair = (after_repair.1, Ok repair_result).
Proof. apply pair_eq_fst. vm_compute. reflexivity. Qed.

Lemma repair_lost_on_conflict_witness :
  let later := performAll [] after_repair.1 in
  ∃ err, ApplyBoard (boardID (sample_supervisor "other"))
      (repairCommand (sample_supervisor "other") sample_task sample_count 3) later = (later, Err err) ∧
    isConflict err = true.
Proof.
  exact (proj1 (repair_lost_on_conflict history_ops [] (sample_supervisor "board") (sample_supervisor "other")
    sample_task sample_task 6 3 after_repair.1 repair_result ltac:(discriminate) ltac:(discriminate)
    eq_refl eq_refl eq_refl repair_applied ltac:(vm_compute; discriminate))).
Defined.

Definition sample_board : Board := stored_board (performAll two_ops DB_empty).
Abbreviation apply_gate_repair := (ApplyBoardWithProposal (boardID (sample_supervisor "board"))
    (gateRepairCommand (sample_supervisor "board") sample_board (gateRepairProposal sample_board ["docs"]))
    (gateRepairProposal sample_board ["docs"]) (performAll two_ops DB_empty)).
Definition after_gate_repair : DB * result Result := apply_gate_repair.
#[local] Strategy expand [after_gate_repair].
Definition gate_repair_result : Result := match after_gate_repair.2 with Ok r => r | _ => Result_zero end.

Lemma gate_repair_applied : apply_gate_repair = (after_gate_repair.1, Ok gate_repair_result).
Proof. change (after_gate_repair = (after_gate_repair.1, Ok gate_repair_result)). apply pair_eq_fst. vm_compute. reflexivity. Qed.

Lemma gate_repairs_differ :
  plainHash (boardID (sample_supervisor "other"))
      (gateRepairCommand (sample_supervisor "other") sample_board (gateRepairProposal sample_board ["docs"])) ≠
  plainHash (boardID (sample_supervisor "board"))
      (gateRepairCommand (sample_supervisor "board") sample_board (gateRepairProposal sample_board ["docs"])).
Proof. vm_compute. discriminate. Qed.

Lemma gate_repair_lost_on_conflict_witness :
  let later := performAll [] after_gate_repair.1 in
  ∃ err, ApplyBoardWithProposal (boardID (sample_supervisor "other"))
      (gateRepairCommand (sample_supervisor "other") sample_board (gateRepairProposal sample_board ["docs"]))
      (gateRepairProposal sample_board ["docs"]) later = (later, Err err) ∧ isConflict err = true.
Proof.
  exact (proj1 (gate_repair_lost_on_conflict two_ops [] (sample_supervisor "board") (sample_supervisor "other")
    sample_board sample_board ["docs"] ["docs"] after_gate_repair.1 gate_repair_result
    ltac:(discriminate) ltac:(discriminate) eq_refl eq_refl gate_repair_applied gate_repairs_differ)).
Defined.
