(* ===== verification/Execution.v ===== *)
(** Work is executed once: a scheduler starts an executor only for a claim of its
    own that it has not used yet, and no two claims of the system hand out the
    same attempt. *)
From S2P Require Import Prelude Sql Paths Planner Protocol Validate Planning StateMachine Apply.
From S2P Require Import Simulation Database Consistency Store Operations EventLog Service.
From S2P Require Import Runtime GoalSafety Process Environment Verify Integrate Scheduler.
From S2P Require Import Supervisor Trust SampleSystem.

(** * What a history has acquired and what it has used *)

Definition acquired (e : event) : option (string * string) :=
  match e with
  | existT (CallClaim request) (Ok r) =>
      if ClaimResult_Dispatchable r then Some (request.(ClaimRequest_BoardID), r.(ClaimResult_AttemptID)) else None
  | _ => None
  end.

Definition executed_attempt (e : event) : option string :=
  match e with
  | existT (CallExecute work) _ => Some work.(Dispatch_AttemptID)
  | _ => None
  end.

Definition acquisitions (h : history) : list (string * string) := omap acquired h.
Definition executions (h : history) : list string := omap executed_attempt h.

Definition balanced (h : history) : Prop := executions h ⊆+ (acquisitions h).*2.

(** Before an execution the attempt is acquired and not yet executed. *)
Definition backed (h : history) (c : call) : Prop :=
  match c with
  | CallExecute work => executions h ++ [work.(Dispatch_AttemptID)] ⊆+ (acquisitions h).*2
  | _ => True
  end.

Definition idle (c : call) : Prop := match c with CallExecute _ => False | _ => True end.

Lemma balanced_nil : balanced [].
Proof. apply submseteq_nil_l. Qed.

Lemma acquisitions_app h h' : acquisitions (h ++ h') = acquisitions h ++ acquisitions h'.
Proof. apply omap_app. Qed.
Lemma acquisitions_one e : acquisitions [e] = option_list (acquired e).
Proof. unfold acquisitions. cbn [omap list_omap]. by destruct (acquired e). Qed.
Lemma executions_app h h' : executions (h ++ h') = executions h ++ executions h'.
Proof. apply omap_app. Qed.

Lemma executions_idle h : Forall (λ e, idle (projT1 e)) h → executions h = [].
Proof. induction 1 as [|[c r] h Hc _ IH]; [done|]. unfold executions in *. cbn. by destruct c. Qed.

Lemma balanced_step h c r : balanced h → backed h c → balanced (h ++ [existT c r]).
Proof.
  unfold balanced. rewrite executions_app, acquisitions_app, fmap_app. intros Hb Hc.
  destruct (decide (executions [existT c r] = [])) as [->|Hne].
  - rewrite app_nil_r. by apply submseteq_inserts_r.
  - destruct c; try done. cbn in Hc |- *. by rewrite app_nil_r.
Qed.

Section balance.
Context {golib : GoLib}.

(** The process keeps the balance. *)
Definition balancing {A} (p : proc A) : Prop := holding backed balanced p.

Lemma balancing_idle {A} (p : proc A) : only idle p → balancing p.
Proof.
  intros Hp h Hb. eapply ensures_weaken.
  - eapply ensures_mono; [by apply only_events|]. intros h' _ _ (more & -> & Hm). unfold balanced.
    rewrite executions_app, acquisitions_app, (executions_idle more), app_nil_r, fmap_app by done.
    by apply submseteq_inserts_r.
  - intros h' c _. by destruct c.
Qed.

Lemma balancing_bind {A B} (m : go A) (f : A → go B) :
  balancing m → (∀ a, balancing (f a)) → balancing (m ≫= f).
Proof.
  intros Hm Hf h Hb. apply ensures_go_bind. eapply ensures_mono; [by apply Hm|].
  intros h' [a|e|] _ Hb'; [by apply Hf|done..].
Qed.

Lemma balancing_try {A} (m : go A) : balancing m → balancing (try m).
Proof.
  intros Hm h Hb. apply ensures_try. eapply ensures_mono; [by apply Hm|]. by intros h' [| |] _.
Qed.

Lemma balancing_each {A S} (f : S → A → go S) s l : (∀ s x, balancing (f s x)) → balancing (each f s l).
Proof.
  intros Hf h Hb. apply (ensures_each _ _ (λ h _, balanced h)); [|done..].
  intros h' s' x _ Hb'. eapply ensures_mono; [by apply Hf|]. by intros h'' [| |] _.
Qed.

(** * A scheduler keeps the balance *)

Context (scheduler : SchedulerOptions) {trusted : Trusted scheduler}.

Lemma boxed_idle {A} (p : proc A) : always boxed p → only idle p.
Proof. apply always_mono. intros h c [_ Hq]. by destruct c. Qed.

(** The history holds an acquisition of the attempt that is not used. *)
Definition spare (h : history) (attemptID : string) : Prop :=
  executions h ++ [attemptID] ⊆+ (acquisitions h).*2.

Lemma spare_balanced h attemptID : spare h attemptID → balanced h.
Proof. unfold spare, balanced. intros Hs. etrans; [|exact Hs]. by apply submseteq_inserts_r. Qed.

Lemma spare_step h attemptID c r : idle c → spare h attemptID → spare (h ++ [existT c r]) attemptID.
Proof.
  intros Hi Hs. unfold spare in *. rewrite executions_app, acquisitions_app, fmap_app.
  rewrite (executions_idle [existT c r]), app_nil_r by by apply Forall_singleton.
  by apply submseteq_inserts_r.
Qed.

Lemma dispatch_balancing boardID claim h :
  spare h claim.(ClaimResult_AttemptID) →
  ensures backed (Scheduler_dispatch scheduler boardID claim) h (λ h' _, balanced h').
Proof.
  intros Hs. unfold Scheduler_dispatch. apply ensures_go_bind. ensures_call; [done|]. intros definition.
  apply (spare_step _ _ (CallDefinition boardID) definition I) in Hs. pose proof (spare_balanced _ _ Hs) as Hb.
  destruct definition as [[goal plan]|e|]; [|done..]. destruct (proposalFor _ _) as [proposal|]; [|done].
  unfold Scheduler_apply, applyFrom. apply ensures_go_bind, ensures_map_err. ensures_call; [done|].
  intros started. match goal with |- context [existT (CallApplyBoard boardID ?c) started] =>
    apply (spare_step _ _ (CallApplyBoard boardID c) started I) in Hs end. clear Hb.
  pose proof (spare_balanced _ _ Hs) as Hb. destruct started as [started|e|]; [|done..]. cbn [wrap_err].
  apply ensures_go_bind. ensures_call; [exact Hs|]. intros [result err].
  match goal with |- context [existT (CallExecute ?w) (result, err)] =>
    apply (balanced_step _ (CallExecute w) (result, err)) in Hb; [|exact Hs] end.
  revert Hb. apply balancing_idle. unfold nextEligible. destruct (_ || _); walk_calls.
Qed.

Lemma claimAndDispatch_balancing boardID : balancing (claimAndDispatch scheduler boardID).
Proof.
  unfold claimAndDispatch. apply balancing_bind; [apply balancing_idle; walk_calls|]. intros board.
  apply balancing_bind; [apply balancing_idle; walk_calls|]. intros now h Hb.
  apply ensures_go_bind. ensures_call; [done|].
  intros r. match goal with |- context [existT (CallClaim ?q) r] =>
    pose proof (balanced_step _ (CallClaim q) r Hb I) as Hb1 end.
  destruct r as [claim|e|]; [|done..].
  destruct (ClaimResult_Dispatchable claim) eqn:Ed; cbn [negb]; [|done].
  apply ensures_go_bind. eapply ensures_mono; [apply dispatch_balancing|by intros h' [| |] _].
  unfold spare. rewrite executions_app, acquisitions_app, fmap_app. cbn. rewrite Ed. cbn.
  rewrite app_nil_r. by apply submseteq_app.
Qed.

Lemma integrate_idle boardID claim evidence board :
  only idle (Scheduler_integrate scheduler boardID claim evidence board).
Proof.
  unfold Scheduler_integrate, integrationFail. destruct (EvidenceResult_Patch _); [|apply always_Done].
  destruct (Options_Integrator scheduler) as [integrate|] eqn:Ei; [|walk_calls].
  destruct (Options_Artifacts scheduler) as [bytes|] eqn:Ea; [|walk_calls].
  apply always_bind; [by apply always_try, boxed_idle; eapply trusted_artifacts|]. intros [patch|e|]; [|walk_calls..].
  apply always_bind; [|intros [|e|]; walk_calls]. apply always_try, boxed_idle. intros h.
  eapply ensures_mono; [by apply (trusted_integrator _ Ei)|done].
Qed.

Lemma resumeIntegrating_idle boardID : only idle (resumeIntegrating scheduler boardID).
Proof.
  unfold resumeIntegrating, resumeTask, failIntegration. walk_calls. apply integrate_idle.
Qed.

Lemma verifyPending_idle boardID : only idle (verifyPending scheduler boardID).
Proof.
  unfold verifyPending, verifyEvidence, abandonVerification, deferVerification, applyVerdict, ignoreConflict, nextEligible.
  walk_calls; [|apply integrate_idle..].
  apply boxed_idle. intros h. eapply ensures_mono; [apply trusted_verification|done].
Qed.

Lemma runProjectGate_idle boardID : only idle (runProjectGate scheduler boardID).
Proof.
  unfold runProjectGate, recordGateUnavailable, ignoreConflict.
  destruct (Options_Gate scheduler) as [gate|] eqn:Eg; [|apply always_Done]. walk_calls.
  apply boxed_idle. intros h. eapply ensures_mono; [by apply (trusted_gate _ Eg)|done].
Qed.

Lemma claimLoop_balancing boardID n cycle : balancing (claimLoop scheduler boardID n cycle).
Proof.
  revert cycle. induction n as [|n IH]; intros cycle; [by apply balancing_idle, always_Done|]. cbn [claimLoop].
  apply balancing_bind; [apply claimAndDispatch_balancing|]. intros [[] outcome]; [apply IH|].
  by apply balancing_idle, always_Done.
Qed.

Lemma runCycle_balancing onlyBoard : balancing (runCycle scheduler onlyBoard).
Proof.
  unfold runCycle. apply balancing_bind; [apply balancing_idle; walk_calls|]. intros now.
  apply balancing_bind; [apply balancing_idle; walk_calls|]. intros expired.
  apply balancing_bind; [apply balancing_idle; walk_calls|]. intros boards.
  apply balancing_each. intros cycle boardID. unfold cycleBoard.
  apply balancing_bind; [apply balancing_idle; walk_calls|]. intros _.
  apply balancing_bind; [apply balancing_idle, verifyPending_idle|]. intros _.
  apply balancing_bind; [apply balancing_idle, resumeIntegrating_idle|]. intros _.
  apply balancing_bind; [apply claimLoop_balancing|]. intros cycle'.
  apply balancing_bind; [apply balancing_idle, runProjectGate_idle|]. intros _. by apply balancing_idle, always_Done.
Qed.

Lemma Run_balancing ticks : balancing (Scheduler_Run scheduler ticks).
Proof.
  induction ticks as [|ticks IH]; [by apply balancing_idle, always_Done|]. cbn [Scheduler_Run].
  apply balancing_bind; [apply balancing_try, runCycle_balancing|].
  intros [cycle|e|]; [exact IH|destruct (_ || _); [by apply balancing_idle, always_Done|exact IH]|exact IH].
Qed.

End balance.

(** * A supervisor keeps the balance *)

Section supervision.
Context {golib : GoLib}.

Lemma idle_allowed {S A} (m : stateful S A) s : allows (λ _ c, idle c) m → balancing (m s).
Proof. intros Hm. apply balancing_idle, Hm. Qed.

Lemma Step_balancing options s :
  Trusted options.(SupervisorOptions_Scheduler) → balancing (Supervisor_Step options s).
Proof.
  intros Ht. unfold Supervisor_Step. apply holding_bind.
  { apply holding_fails_with, holding_calls. by apply runCycle_balancing. }
  intros cycle s'. apply idle_allowed.
  unfold reviewStoppedWork, reviewTask, repair, raiseNow, raise, reviewFailedGate, raiseGate, raiseNow, raise,
    repairForGate, repairScopes, status. walk_state; done.
Qed.

Lemma Supervisor_Run_balancing options maxSteps s :
  Trusted options.(SupervisorOptions_Scheduler) → balancing (Supervisor_Run options maxSteps s).
Proof.
  intros Ht. unfold Supervisor_Run. generalize (if (maxSteps <=? 0)%Z then 512%Z else maxSteps). intros most.
  generalize (Z.to_nat most). intros steps. revert s. induction steps as [|steps IH]; intros s; [apply holding_Done|].
  cbn [supervise_for]. apply holding_bind; [apply idle_allowed; walk_state; done|]. intros _ s1.
  apply holding_bind; [by apply Step_balancing|]. intros status s2. destruct (_ || _); [apply holding_Done|].
  apply holding_bind; [apply idle_allowed; unfold waitForRetry; walk_state; done|]. intros _ s3. apply IH.
Qed.

Lemma idle_harmless c : idle c → harmless backed balanced c.
Proof.
  intros Hi h Hb. assert (backed h c) as Hok by by destruct c. split; [exact Hok|]. intros r.
  by apply balanced_step.
Qed.

Lemma Runner_Run_balancing runner ticks :
  Trusted runner.(Runner_scheduler) → balancing (Runner_Run runner ticks ∅).
Proof.
  intros Ht. apply Runner_Run_holding; [by apply idle_harmless..|]. intros options s E.
  apply Step_balancing. by rewrite E.
Qed.

End supervision.

Section execution.
Context {env : Env} {planner_env : PlannerEnv} {runtime_env : RuntimeEnv} {golib : GoLib}.

(** * The invariant of the system *)

Definition histories (ts : list thread) : history := concat (th_past <$> ts).

Definition keeping (t : thread) : Prop :=
  balanced t.(th_past) ∧ ensures backed t.(th_rest) t.(th_past) (λ h _, balanced h).

(** The attempts acquired are distinct, on record, and enough for the executions. *)
Record sound (db : DB) (ts : list thread) : Prop := {
  sd_consistent : consistent db;
  sd_threads : Forall keeping ts;
  sd_distinct : NoDup (acquisitions (histories ts));
  sd_recorded : Forall (λ k, is_Some (db.(attempts) !! k)) (acquisitions (histories ts));
}.

Lemma entry_keeping p : entry p → keeping (mkThread [] p).
Proof.
  intros Hp. split; [apply balanced_nil|]. cbn [th_past th_rest]. revert Hp.
  enough (entry p → balancing p) as H by (intros Hp; apply (H Hp), balanced_nil).
  destruct 1 as [s ticks Ht|s boardID Ht|options s maxSteps Ht|runner ticks Ht|repository ref base].
  - by apply Run_balancing.
  - apply balancing_bind; [by apply runCycle_balancing|]. intros _. apply holding_Done.
  - apply holding_proc_bind; [by apply Supervisor_Run_balancing|]. intros _. apply holding_Done.
  - apply holding_proc_bind; [by apply Runner_Run_balancing|]. intros _. apply holding_Done.
  - apply balancing_bind; [|intros _; apply holding_Done].
    apply balancing_idle, boxed_idle, EnsureRef_contained.
Qed.

Lemma served_acquired db e db' k :
  consistent db → served db e db' → acquired e = Some k →
  db.(attempts) !! k = None ∧ is_Some (db'.(attempts) !! k).
Proof.
  intros Hc Hs. destruct Hs; try done; cbn.
  - destruct (Claim request token db) as [db' [r|e|]] eqn:E; cbn; [|done..].
    destruct (ClaimResult_Dispatchable r) eqn:Ed; [|done]. intros [= <-]. by eapply claim_attempt.
  - by destruct c.
Qed.

Lemma histories_app ts1 ts2 : histories (ts1 ++ ts2) = histories ts1 ++ histories ts2.
Proof. unfold histories. by rewrite fmap_app, concat_app. Qed.

Lemma sound_step db ts1 past c k ts2 r db' :
  sound db (ts1 ++ mkThread past (Invoke c k) :: ts2) → served db (existT c r) db' →
  sound db' (ts1 ++ mkThread (past ++ [existT c r]) (k r) :: ts2).
Proof.
  intros [Hc Ht Hd Hr] Hs. destruct (served_commits _ _ _ Hc Hs) as [P Hcm].
  apply Forall_app in Ht as [Ht1 [[Hb Hk] Ht2]%Forall_cons]. cbn [th_past th_rest] in *. destruct Hk as [Hok Hk].
  assert (acquisitions (histories (ts1 ++ mkThread (past ++ [existT c r]) (k r) :: ts2)) ≡ₚ
    acquisitions [existT c r] ++ acquisitions (histories (ts1 ++ mkThread past (Invoke c k) :: ts2))) as Hacq.
  { rewrite !histories_app. unfold histories at 2 4. cbn [fmap list_fmap concat th_past].
    rewrite !acquisitions_app. cbn [app]. rewrite <- !(assoc_L (++)). solve_Permutation. }
  assert (Forall (λ k, is_Some (db'.(attempts) !! k))
    (acquisitions (histories (ts1 ++ mkThread past (Invoke c k) :: ts2)))) as Hr'.
  { eapply Forall_impl; [exact Hr|]. intros x. by eapply commits_attempts. }
  split.
  - by eapply commits_consistent.
  - apply Forall_app. split; [done|]. constructor; [|done]. split; [by apply balanced_step|apply Hk].
  - rewrite Hacq, acquisitions_one. destruct (acquired _) as [key|] eqn:E; [|exact Hd].
    destruct (served_acquired _ _ _ _ Hc Hs E) as [Hn _]. constructor; [|exact Hd].
    intros Hin. rewrite Forall_forall in Hr. destruct (Hr _ Hin) as [? Hsome]. by rewrite Hn in Hsome.
  - rewrite Hacq, acquisitions_one. destruct (acquired _) as [key|] eqn:E; [|exact Hr'].
    constructor; [|exact Hr']. by apply (served_acquired _ _ _ _ Hc Hs E).
Qed.

Lemma system_sound db ts : system db ts → sound db ts.
Proof.
  induction 1 as [|db ts op _ [Hc Ht Hd Hr]|db ts p _ [Hc Ht Hd Hr] Hp|db ts1 past c k ts2 r db' _ IH Hs].
  - split; [apply consistent_empty|constructor..].
  - pose proof (perform_commits op db Hc) as Hcm. split; [by eapply commits_consistent|done..|].
    eapply Forall_impl; [exact Hr|]. intros x. by eapply commits_attempts.
  - split; [done| |rewrite histories_app, acquisitions_app; unfold histories at 2; cbn; by rewrite app_nil_r..].
    apply Forall_app. split; [done|]. constructor; [by apply entry_keeping|constructor].
  - by eapply sound_step.
Qed.

Lemma keeping_executions ts :
  Forall keeping ts → executions (histories ts) ⊆+ (acquisitions (histories ts)).*2.
Proof.
  induction 1 as [|t ts [Hb _] _ IH]; [reflexivity|].
  change (histories (t :: ts)) with (th_past t ++ histories ts).
  rewrite executions_app, acquisitions_app, fmap_app. by apply submseteq_app.
Qed.

(** A selection of the images is the image of a selection. *)
Lemma submseteq_fmap_inv {A B} (f : A → B) (l : list A) (k : list B) :
  k ⊆+ f <$> l → ∃ l', l' ⊆+ l ∧ k = f <$> l'.
Proof.
  revert l. induction k as [|y k IH]; intros l H; [exists []; split; [apply submseteq_nil_l|done]|].
  assert (y ∈ f <$> l) as (x & -> & Hx)%list_elem_of_fmap by (eapply elem_of_submseteq; [by left|exact H]).
  apply elem_of_Permutation in Hx as [l0 Hl]. rewrite Hl in H. cbn in H.
  apply (submseteq_app_inv_l _ _ [f x]) in H. destruct (IH _ H) as (l' & Hl' & ->).
  exists (x :: l'). split; [|done]. rewrite Hl. by apply submseteq_skip.
Qed.

(** C3: Work is executed at most once. In every state of a system of any number
    of schedulers and other clients on one store, whatever failed or stopped,
    the executions that were ever started belong to distinct attempts on record:
    each execution can be assigned a board and an attempt of the table of
    attempts, and no two get the same. *)
Theorem work_executed_once db ts :
  system db ts →
  ∃ owners, executions (histories ts) = owners.*2 ∧ NoDup owners ∧
    Forall (λ owner, is_Some (db.(attempts) !! owner)) owners.
Proof.
  intros [_ Ht Hd Hr]%system_sound. destruct (submseteq_fmap_inv _ _ _ (keeping_executions _ Ht)) as (owners & Ho & E).
  exists owners. split; [done|]. split.
  - destruct (submseteq_Permutation _ _ Ho) as [rest Hp]. rewrite Hp in Hd. by apply NoDup_app in Hd as [Hd _].
  - apply Forall_forall. intros k Hk. rewrite Forall_forall in Hr. apply Hr. by eapply elem_of_submseteq.
Qed.

End execution.

Lemma work_executed_once_witness :
  let run := run_until (λ _, false) in
  length (executions (histories [mkThread run.(rn_past) run.(rn_rest)])) = 1 ∧
  ∃ owners, executions (histories [mkThread run.(rn_past) run.(rn_rest)]) = owners.*2 ∧ NoDup owners ∧
    Forall (λ owner, is_Some (run.(rn_db).(attempts) !! owner)) owners.
Proof.
  split; [vm_compute; reflexivity|]. apply work_executed_once, run_until_system.
Defined.
