(* ===== verification/Acceptance.v ===== *)
(** What the system accepts and what it proves: a verdict or a gate result that
    changes a board is about the very state that was judged or checked. *)
From S2P Require Import Prelude Sql Paths Planner Protocol Validate Planning StateMachine Apply.
From S2P Require Import Simulation Database Consistency Store Operations EventLog Service.
From S2P Require Import StoreSafety Runtime GoalSafety Process Environment Verify Integrate.
From S2P Require Import Scheduler Supervisor Trust SampleSystem Execution.

Section acceptance.
Context {env : Env} {planner_env : PlannerEnv} {runtime_env : RuntimeEnv} {golib : GoLib}.

(** * What a history has read *)

Definition read_board (e : event) : option (string * Board) :=
  match e with existT (CallBoard boardID) (Ok b) => Some (boardID, b) | _ => None end.

(** Every board read is an earlier state of the stored one. *)
Definition heard (db : DB) (h : history) : Prop :=
  Forall (λ '(id, b), ∃ b', stored db id b' ∧ succeeds b b') (omap read_board h).

Lemma heard_later db db' h P : consistent db → rtc (commits P) db db' → heard db h → heard db' h.
Proof.
  intros Hc Hcm Hh. eapply Forall_impl; [exact Hh|]. intros [id b] (b1 & Hs & H1).
  destruct (commits_succeeds _ _ _ _ _ Hc Hcm Hs) as (b2 & Hs2 & H2). exists b2. split; [done|]. by etrans.
Qed.

Lemma served_read db e db' :
  consistent db → served db e db' → Forall (λ '(id, b), stored db' id b) (option_list (read_board e)).
Proof.
  intros Hc Hs. destruct Hs; cbn; try constructor.
  - destruct (boardQuery db boardID) as [b|e|] eqn:E; cbn; constructor; [|constructor].
    by apply (stored_query _ _ _ Hc E).
  - by destruct c.
Qed.

Lemma heard_read db h id b :
  heard db h → existT (CallBoard id) (Ok b) ∈ h → ∃ b', stored db id b' ∧ succeeds b b'.
Proof.
  intros Hh Hin. unfold heard in Hh. rewrite Forall_forall in Hh. apply (Hh (id, b)).
  apply list_elem_of_omap. by exists (existT (CallBoard id) (Ok b)).
Qed.

(** * The invariant *)

Definition observing (db : DB) (t : thread) : Prop :=
  heard db t.(th_past) ∧ ensures lawful t.(th_rest) t.(th_past) (λ _ _, True).

Lemma entry_lawful p : entry p → ensures lawful p [] (λ _ _, True).
Proof.
  destruct 1 as [s ticks Ht|s boardID Ht|options s maxSteps Ht|runner ticks Ht|repository ref base].
  - by apply Run_lawful.
  - apply (always_bind lawful); [by apply runCycle_lawful|]. intros _. apply always_Done.
  - apply (always_proc_bind lawful); [by apply Supervisor_Run_lawful|]. intros _. apply always_Done.
  - apply (always_proc_bind lawful); [by apply Runner_Run_lawful|]. intros _. apply always_Done.
  - apply (always_bind lawful); [|intros _; apply always_Done].
    apply (always_mono boxed); [apply boxed_lawful|apply EnsureRef_contained].
Qed.

Lemma system_observing db ts : system db ts → Forall (observing db) ts.
Proof.
  intros Hsys. induction Hsys as [|db ts op Hs IH|db ts p Hs IH Hp|db ts1 past c k ts2 r db' Hs IH Hserved].
  - constructor.
  - pose proof (sd_consistent _ _ (system_sound _ _ Hs)) as Hc. eapply Forall_impl; [exact IH|].
    intros t [Hh Hl]. split; [|done]. eapply heard_later; [exact Hc|by apply perform_commits|exact Hh].
  - apply Forall_app. split; [done|]. constructor; [|constructor]. split; [constructor|by apply entry_lawful].
  - pose proof (sd_consistent _ _ (system_sound _ _ Hs)) as Hc.
    destruct (served_commits _ _ _ Hc Hserved) as [P Hcm].
    assert (∀ t, observing db t → observing db' t) as Hlater
      by (intros t [Hh Hl]; split; [by eapply heard_later|done]).
    apply Forall_app in IH as [IH1 [[Hh Hl] IH2]%Forall_cons].
    apply Forall_app. split; [by eapply Forall_impl|]. constructor; [|by eapply Forall_impl].
    split; cbn [th_past th_rest] in *; [|apply Hl]. unfold heard. rewrite omap_app. apply Forall_app.
    split; [by eapply heard_later|]. cbn [omap list_omap].
    pose proof (served_read _ _ _ Hc Hserved) as Hread. destruct (read_board _) as [[id b]|]; [|constructor].
    apply Forall_cons in Hread as [Hst _]. constructor; [|constructor]. by exists b.
Qed.

(** A command that takes effect does so on the board its version was read from. *)
Lemma changed_on_read db h boardID c board :
  consistent db → heard db h → existT (CallBoard boardID) (Ok board) ∈ h →
  c.(Command_ExpectedVersion) = board.(Board_Version) → c.(Command_Type) ≠ CommandBoardCreate →
  (ApplyBoard boardID c db).1 ≠ db → stored db boardID board.
Proof.
  intros Hc Hh Hin Hv Hty Hne. destruct (heard_read _ _ _ _ Hh Hin) as (b' & Hs & Hsu).
  unfold ApplyBoard in Hne. rewrite resultOf_db in Hne.
  destruct (apply boardID c Time_zero None None db) as [db' o] eqn:E. cbn in Hne.
  assert (∃ r fresh, o = Ok (r, fresh)) as (r & fresh & ->).
  { destruct o as [[r fresh]|e|]; [by exists r, fresh|exfalso; apply Hne..];
      unfold apply, transact in E; destruct (applyTx _ _ _ _ _ db) as [[? ?]| |]; by simplify_eq. }
  apply apply_outcome, (applyTx_inv _ _ _ _ _ _ _ _ _ Hc) in E as (id & Hid & E).
  destruct fresh; [|by destruct E as [-> _]].
  unfold resolveBoard in Hid. apply String.eqb_neq in Hty. rewrite Hty in Hid, E.
  destruct (so_id _ _ _ Hs) as [_ Hidne%String.eqb_neq]. rewrite Hidne in Hid. injection Hid as <-.
  destruct E as [_ (b & Hb & Ha) _ _ _]. cbn in Hb. assert (b = b') as -> by by eapply stored_unique.
  apply Apply_inv in Ha as (_ & _ & Hver & _).
  assert ((withDeadline c Time_zero).(Command_ExpectedVersion) = c.(Command_ExpectedVersion)) as Ew
    by (unfold withDeadline; by repeat case_match).
  rewrite <- (su_same _ _ Hsu); [done|]. congruence.
Qed.

Lemma served_apply_db db e db' :
  served db e db' →
  match projT1 e with CallApplyBoard boardID c => db' = db ∨ db' = (ApplyBoard boardID c db).1 | _ => True end.
Proof. intros Hs. destruct Hs; cbn; auto. by destruct c. Qed.

Lemma system_call db ts past c k r db' :
  system db ts → mkThread past (Invoke c k) ∈ ts → served db (existT c r) db' →
  consistent db ∧ heard db past ∧ lawful past c ∧
  match c with CallApplyBoard boardID command => db' = db ∨ db' = (ApplyBoard boardID command db).1 | _ => True end.
Proof.
  intros Hs Hin Hserved. pose proof (system_observing _ _ Hs) as Ho. rewrite Forall_forall in Ho.
  destruct (Ho _ Hin) as [Hh [Hl _]]. split_and!; try done; [apply (system_sound _ _ Hs)|].
  apply (served_apply_db _ _ _ Hserved).
Qed.

(** * The theorems *)

(** C4: Accepted as judged. Whenever an [evidence.accept] of a scheduler takes effect
    on the store, among whatever other schedulers and clients, the board holds at
    that moment exactly the evidence, submitted and unchanged, that the
    deterministic checks passed and that the judge was shown and accepted,
    criterion by criterion, against the acceptance criteria of its task. *)
Theorem accepted_as_judged db ts past boardID c k r db' :
  system db ts → mkThread past (Invoke (CallApplyBoard boardID c) k) ∈ ts →
  served db (existT (CallApplyBoard boardID c) r) db' → db' ≠ db →
  c.(Command_Type) = CommandEvidenceAccept →
  ∃ board task evidence spec input, boardQuery db boardID = Ok board ∧
    task ∈ board.(Board_Tasks) ∧ task.(Task_ID) = evidence.(Evidence_TaskID) ∧
    evidence ∈ board.(Board_Evidence) ∧ evidence.(Evidence_State) = EvidenceSubmitted ∧
    c.(Command_Evidence) = Some spec ∧ spec.(EvidenceSpec_ID) = evidence.(Evidence_ID) ∧
    input.(VerifyInput_Evidence) = evidence ∧
    input.(VerifyInput_AcceptanceCriteria) =
      task.(Task_TerminalContract).(TerminalContract_AcceptanceCriteria) ∧
    judged past input.
Proof.
  intros Hs Hin Hserved Hne Hty.
  destruct (system_call _ _ _ _ _ _ _ Hs Hin Hserved) as (Hc & Hh & [_ [Hacc _]] & [->| ->]); [done|].
  destruct (Hacc Hty) as (board & task & evidence & input & spec & Hb & Hv & Ht & Htid & Hts & He & Hes & Hsp & Hid & Htok & Hi & Hcr & Hj).
  exists board, task, evidence, spec, input. split_and!; try done.
  apply query_stored. eapply changed_on_read; try done. by rewrite Hty.
Qed.

(** C5: A passed gate is earned. Whenever a [gate.pass] of a scheduler takes effect on
    the store, the board then has that integrated revision and no unsettled task,
    and every check of its gate exited with 0 in a fresh checkout of that
    revision made by this scheduler. *)
Theorem gate_pass_is_earned db ts past boardID c k r db' :
  system db ts → mkThread past (Invoke (CallApplyBoard boardID c) k) ∈ ts →
  served db (existT (CallApplyBoard boardID c) r) db' → db' ≠ db →
  c.(Command_Type) = CommandGatePass →
  ∃ board, boardQuery db boardID = Ok board ∧
    c.(Command_Revision) = strings_TrimSpace board.(Board_IntegratedRevision) ∧ c.(Command_Revision) ≠ "" ∧
    (∀ t, t ∈ board.(Board_Tasks) →
       t.(Task_State) = TaskPassed ∨ t.(Task_Cancelled) = true ∨ t.(Task_SupersededBy) ≠ "") ∧
    proved past board.(Board_Repository) c.(Command_Revision) board.(Board_Gate).(ProjectGate_Commands).
Proof.
  intros Hs Hin Hserved Hne Hty.
  destruct (system_call _ _ _ _ _ _ _ Hs Hin Hserved) as (Hc & Hh & [_ [_ [Hp _]]] & [->| ->]); [done|].
  destruct (Hp Hty) as (board & Hb & Hv & Hr & Hrne & Hall & Hproved). exists board. split_and!; try done.
  apply query_stored. eapply changed_on_read; try done. by rewrite Hty.
Qed.

(** C14: The user's repository is left alone. Every command any thread of the system
    runs itself is git, and it only reads revisions, adds and removes worktrees in
    directories made for the purpose, works in such a directory, creates a ref below
    [refs/heads/ago/] or moves one from the value it was read at; it removes no
    directory it did not make; and the checks of a project, which may be any programs,
    are started only in a directory it made. *)
Theorem user_repository_untouched db ts t p c k :
  system db ts → t ∈ ts → t.(th_rest) = p → p = Invoke c k →
  (∀ dir name args stdin, c = CallExec dir name args stdin → name = "git" ∧ git_safe t.(th_past) dir args) ∧
  (∀ dir, c = CallRemoveAll dir → temporary t.(th_past) dir) ∧
  (∀ dir name args, c = CallCheck dir name args → temporary t.(th_past) dir).
Proof.
  intros Hs Hin Hp ->. pose proof (system_observing _ _ Hs) as Ho. rewrite Forall_forall in Ho.
  destruct (Ho _ Hin) as [_ Hl]. rewrite Hp in Hl. destruct Hl as [[Hl _] _].
  split_and!; intros; subst; exact Hl.
Qed.

End acceptance.

Lemma accepted_as_judged_witness :
  let run := run_until (applies CommandEvidenceAccept) in
  ∃ board task evidence spec input boardID, boardQuery run.(rn_db) boardID = Ok board ∧
    task ∈ board.(Board_Tasks) ∧ task.(Task_ID) = evidence.(Evidence_TaskID) ∧
    evidence ∈ board.(Board_Evidence) ∧ evidence.(Evidence_State) = EvidenceSubmitted ∧
    spec.(EvidenceSpec_ID) = evidence.(Evidence_ID) ∧ input.(VerifyInput_Evidence) = evidence ∧
    judged run.(rn_past) input.
Proof.
  intros run. destruct (command_point CommandEvidenceAccept ltac:(vm_compute; reflexivity))
    as (boardID & c & k & r & db' & Hty & Hs & Hserved & Hne).
  destruct (accepted_as_judged _ _ _ _ _ _ _ _ Hs ltac:(by left) Hserved Hne Hty)
    as (board & task & evidence & spec & input & ? & ? & ? & ? & ? & _ & ? & ? & _ & ?).
  exists board, task, evidence, spec, input, boardID. split_and!; assumption.
Defined.

Lemma gate_pass_is_earned_witness :
  let run := run_until (applies CommandGatePass) in
  ∃ boardID board revision, boardQuery run.(rn_db) boardID = Ok board ∧ revision ≠ "" ∧
    revision = strings_TrimSpace board.(Board_IntegratedRevision) ∧
    proved run.(rn_past) board.(Board_Repository) revision board.(Board_Gate).(ProjectGate_Commands).
Proof.
  intros run. destruct (command_point CommandGatePass ltac:(vm_compute; reflexivity))
    as (boardID & c & k & r & db' & Hty & Hs & Hserved & Hne).
  destruct (gate_pass_is_earned _ _ _ _ _ _ _ _ Hs ltac:(by left) Hserved Hne Hty)
    as (board & ? & ? & ? & _ & ?).
  exists boardID, board, c.(Command_Revision). split_and!; assumption.
Defined.

(** At the first step of git in the repository, and at the first check. *)
Definition moves_ref (c : call) : bool :=
  match c with CallExec _ _ (command :: _) _ => command == "update-ref" | _ => false end.
Definition checks (c : call) : bool := match c with CallCheck _ _ _ => true | _ => false end.

Lemma user_repository_untouched_witness :
  (let run := run_until moves_ref in
   ∃ c k, run.(rn_rest) = Invoke c k ∧ moves_ref c = true ∧
     ∀ dir name args stdin, c = CallExec dir name args stdin → name = "git" ∧ git_safe run.(rn_past) dir args) ∧
  (let run := run_until checks in
   ∃ c k, run.(rn_rest) = Invoke c k ∧ checks c = true ∧
     ∀ dir name args, c = CallCheck dir name args → temporary run.(rn_past) dir).
Proof.
  split.
  - destruct (run_until_waits moves_ref ltac:(vm_compute; reflexivity)) as (c & k & Hc & Hs & Hr).
    exists c, k. split; [exact Hr|]. split; [exact Hc|].
    apply (user_repository_untouched _ _ _ _ _ _ Hs (list_elem_of_here _ _) eq_refl eq_refl).
  - destruct (run_until_waits checks ltac:(vm_compute; reflexivity)) as (c & k & Hc & Hs & Hr).
    exists c, k. split; [exact Hr|]. split; [exact Hc|].
    apply (user_repository_untouched _ _ _ _ _ _ Hs (list_elem_of_here _ _) eq_refl eq_refl).
Defined.
