(* ===== verification/ThreadData.v ===== *)
(** Conversation threads: the protocol they are driven by (internal/agoprotocol) and the
    data of their store (internal/agothreadstore). *)
From S2P Require Import Prelude Paths.

(** The protocol of conversation threads: internal/agoprotocol/protocol.go. A thread
    is driven by commands and recorded as a log of events. *)

Definition thread_SchemaVersion : Z := 1.

Definition ThreadCommandType : Type := string.
Definition CommandThreadCreate : ThreadCommandType := "thread.create".
Definition CommandMessageAppend : ThreadCommandType := "message.append".
Definition CommandMessageSubmit : ThreadCommandType := "message.submit".
Definition CommandMessageEditQueued : ThreadCommandType := "message.edit-queued".
Definition CommandMessageSteer : ThreadCommandType := "message.steer".
Definition CommandMessageDequeue : ThreadCommandType := "message.dequeue".
Definition CommandSafePoint : ThreadCommandType := "turn.safe-point".
Definition CommandTurnComplete : ThreadCommandType := "turn.complete".
Definition CommandTurnFail : ThreadCommandType := "turn.fail".
Definition CommandTurnInterrupt : ThreadCommandType := "turn.interrupt".
Definition CommandTurnCancel : ThreadCommandType := "turn.cancel".
Definition CommandTurnSettleCancelled : ThreadCommandType := "turn.settle-cancelled".
Definition CommandTurnEventAppend : ThreadCommandType := "turn.event-append".
Definition CommandThreadCompact : ThreadCommandType := "thread.compact".
Definition CommandThreadArchive : ThreadCommandType := "thread.archive".
Definition CommandThreadUnarchive : ThreadCommandType := "thread.unarchive".

Definition ThreadEventType : Type := string.
Definition EventThreadCreated : ThreadEventType := "thread.created".
Definition EventMessageQueued : ThreadEventType := "message.queued".
Definition EventMessageQueueEdited : ThreadEventType := "message.queue-edited".
Definition EventMessageSteered : ThreadEventType := "message.steered".
Definition EventMessageDequeued : ThreadEventType := "message.dequeued".
Definition EventMessageAccepted : ThreadEventType := "message.accepted".
Definition EventTurnStarted : ThreadEventType := "turn.started".
Definition EventTurnCompleted : ThreadEventType := "turn.completed".
Definition EventTurnFailed : ThreadEventType := "turn.failed".
Definition EventTurnCancelRequested : ThreadEventType := "turn.cancel-requested".
Definition EventTurnCancelled : ThreadEventType := "turn.cancelled".
Definition EventAgentStarted : ThreadEventType := "agent.started".
Definition EventAssistantTextDelta : ThreadEventType := "assistant.text-delta".
Definition EventAssistantCompleted : ThreadEventType := "assistant.completed".
Definition EventToolRequested : ThreadEventType := "tool.requested".
Definition EventToolCompleted : ThreadEventType := "tool.completed".
Definition EventToolFailed : ThreadEventType := "tool.failed".
Definition EventToolResultPrepared : ThreadEventType := "tool.result-prepared".
Definition EventToolAcknowledged : ThreadEventType := "tool.acknowledged".
Definition EventAgentStopped : ThreadEventType := "agent.stopped".
Definition EventAgentSettled : ThreadEventType := "agent.settled".
Definition EventAgentQueueUpdated : ThreadEventType := "agent.queue-updated".
Definition EventCompactionRecorded : ThreadEventType := "compaction.recorded".
Definition EventPluginDialogRequested : ThreadEventType := "plugin.dialog.requested".
Definition EventPluginDialogResolved : ThreadEventType := "plugin.dialog.resolved".
Definition EventThreadArchived : ThreadEventType := "thread.archived".
Definition EventThreadUnarchived : ThreadEventType := "thread.unarchived".
Definition EventVerificationRecorded : ThreadEventType := "verification.check-recorded".
Definition EventProviderUsageRecorded : ThreadEventType := "provider.usage-recorded".

Definition Visibility : Type := string.
Definition VisibilityInternal : Visibility := "internal".
Definition VisibilityUser : Visibility := "user".
Definition VisibilityAudit : Visibility := "audit".

Definition QueueClass : Type := string.
Definition QueueNormal : QueueClass := "normal".
Definition QueueSteer : QueueClass := "steer".
Definition QueueClass_Validate (class : QueueClass) : result unit :=
  fail_if (negb ((class == QueueNormal) || (class == QueueSteer)))
    (Errorf "unsupported queue class %q" [AStr class]).

Definition Activity : Type := string.
Definition ActivityIdle : Activity := "idle".
Definition ActivityRunning : Activity := "running".
Definition ActivityAwaitingApproval : Activity := "awaiting-approval".
Definition ActivityError : Activity := "error".

Definition QueueItemState : Type := string.
Definition QueueItemPending : QueueItemState := "pending".
Definition QueueItemInterruptPending : QueueItemState := "interrupt-pending".

Definition AgentMode : Type := string.
Definition AgentModeLow : AgentMode := "low".
Definition AgentModeMedium : AgentMode := "medium".
Definition AgentModeHigh : AgentMode := "high".
Definition AgentModeUltra : AgentMode := "ultra".
Definition AgentMode_Validate (mode : AgentMode) : result unit :=
  fail_if (negb (existsb (String.eqb mode) [AgentModeLow; AgentModeMedium; AgentModeHigh; AgentModeUltra]))
    (Errorf "unsupported agent mode %q" [AStr mode]).

(** * Commands *)

(** A [json.RawMessage] a caller gives is its bytes; nil is the empty string. A
    pointer to a number is an option. *)
Record ThreadCommand : Type := mkThreadCommand {
  ThreadCommand_SchemaVersion : Z; ThreadCommand_CommandID : string;
  ThreadCommand_IdempotencyKey : string; ThreadCommand_ActorID : string;
  ThreadCommand_Type : ThreadCommandType; ThreadCommand_ThreadID : string;
  ThreadCommand_ExpectedSequence : option Z; ThreadCommand_Payload : string;
}.
#[export] Instance ThreadCommand_eta : Eta ThreadCommand := λ r, mkThreadCommand
  (r.(ThreadCommand_SchemaVersion)) (r.(ThreadCommand_CommandID)) (r.(ThreadCommand_IdempotencyKey))
  (r.(ThreadCommand_ActorID)) (r.(ThreadCommand_Type)) (r.(ThreadCommand_ThreadID))
  (r.(ThreadCommand_ExpectedSequence)) (r.(ThreadCommand_Payload)).

Definition ThreadCommand_Validate (command : ThreadCommand) : result unit :=
  fail_if (negb (command.(ThreadCommand_SchemaVersion) =? thread_SchemaVersion)%Z)
    (Errorf "unsupported command schema version %d" [AInt command.(ThreadCommand_SchemaVersion)]) ;;
  fail_if (command.(ThreadCommand_CommandID) == "") (Errorf "command_id is required" []) ;;
  fail_if (command.(ThreadCommand_IdempotencyKey) == "") (Errorf "idempotency_key is required" []) ;;
  fail_if (command.(ThreadCommand_ActorID) == "") (Errorf "actor_id is required" []) ;;
  fail_if (command.(ThreadCommand_Type) == "") (Errorf "command type is required" []) ;;
  fail_if ((command.(ThreadCommand_Type) != CommandThreadCreate) && (command.(ThreadCommand_ThreadID) == ""))
    (Errorf "thread_id is required for %s" [AStr command.(ThreadCommand_Type)]).

(** * Executors *)

Definition ExecutorType : Type := string.
Definition ExecutorLocal : ExecutorType := "local".
Definition ExecutorOrb : ExecutorType := "orb".
Definition ExecutorRunner : ExecutorType := "runner".

Definition between (lo hi : nat) (c : Ascii.ascii) : bool :=
  ((lo <=? Ascii.nat_of_ascii c) && (Ascii.nat_of_ascii c <=? hi))%nat.
(** [A-Za-z0-9] *)
Definition alphanumeric (c : Ascii.ascii) : bool := between 65 90 c || between 97 122 c || between 48 57 c.
(** [A-Za-z0-9.-] *)
Definition hostCharacter (c : Ascii.ascii) : bool := alphanumeric c || between 45 46 c.

(** [runnerIDPattern]: one alphanumeric, or two with at most 61 characters between. *)
Definition runnerIDMatches (id : string) : bool :=
  let l := String.list_ascii_of_string id in
  match l with
  | [] => false
  | first :: rest =>
      alphanumeric first && (length l <=? 63)%nat && forallb hostCharacter (removelast rest)
      && match last rest with None => true | Some final => alphanumeric final end
  end.

Record ExecutorTarget : Type := mkExecutorTarget {
  ExecutorTarget_Type : ExecutorType; ExecutorTarget_RunnerID : string;
}.

Definition ExecutorTarget_Validate (target : ExecutorTarget) : result unit :=
  let id := target.(ExecutorTarget_RunnerID) in
  switch target.(ExecutorTarget_Type)
    [ (ExecutorLocal, fail_if (id != "") (Errorf "runner_id is only valid for a runner executor" []));
      (ExecutorOrb, fail_if (id != "") (Errorf "runner_id is only valid for a runner executor" []));
      (ExecutorRunner,
        fail_if (id == "") (Errorf "runner_id is required for a runner executor" []) ;;
        fail_if (negb (runnerIDMatches id) || strings_Contains id "..")
          (Errorf "runner_id must be hostname-valid" [])) ]
    (Err (Errorf "unsupported executor type %q" [AStr target.(ExecutorTarget_Type)])).

Record Provenance : Type := mkProvenance {
  Provenance_RootThreadID : string; Provenance_ParentThreadID : string;
  Provenance_SourceThreadID : string; Provenance_ReplyToThreadID : string;
}.
Definition Provenance_zero : Provenance := mkProvenance "" "" "" "".

(** The data of internal/agothreadstore: threads, mailboxes, dialogs, compactions and
    the catalog, and the payloads and events they are recorded with. *)

(** * Threads *)

Record ThreadSpec : Type := mkThreadSpec {
  ThreadSpec_Title : string; ThreadSpec_Workspace : string; ThreadSpec_Mode : AgentMode;
  ThreadSpec_Executor : ExecutorTarget;
}.
#[export] Instance ThreadSpec_eta : Eta ThreadSpec := λ r, mkThreadSpec (r.(ThreadSpec_Title))
  (r.(ThreadSpec_Workspace)) (r.(ThreadSpec_Mode)) (r.(ThreadSpec_Executor)).
Definition ThreadSpec_zero : ThreadSpec := mkThreadSpec "" "" "" (mkExecutorTarget "" "").

(** [filepath.IsAbs] on Unix. *)
Definition filepath_IsAbs (path : string) : bool := strings_HasPrefix path "/".

Definition ThreadSpec_Validate (spec : ThreadSpec) : result unit :=
  AgentMode_Validate spec.(ThreadSpec_Mode) ;;
  ExecutorTarget_Validate spec.(ThreadSpec_Executor) ;;
  fail_if ((spec.(ThreadSpec_Executor).(ExecutorTarget_Type) == ExecutorLocal)
           && ((spec.(ThreadSpec_Workspace) == "") || negb (filepath_IsAbs spec.(ThreadSpec_Workspace))))
    (Errorf "local executor workspace must be an absolute path" []) ;;
  fail_if ((spec.(ThreadSpec_Executor).(ExecutorTarget_Type) == ExecutorRunner)
           && (spec.(ThreadSpec_Workspace) == ""))
    (Errorf "runner executor workspace is required" []).

Record ProjectIdentity : Type := mkProjectIdentity {
  ProjectIdentity_ProjectID : string; ProjectIdentity_DisplayName : string;
}.
Definition ProjectIdentity_zero : ProjectIdentity := mkProjectIdentity "" "".

Record AgentDefinitionSnapshot : Type := mkAgentDefinitionSnapshot {
  Agent_DefinitionID : string; Agent_Version : string; Agent_DisplayName : string;
  Agent_SystemInstructions : string; Agent_SystemInstructionsRef : string;
  Agent_SystemInstructionsDigest : string; Agent_Capabilities : list string;
  Agent_DefaultMode : AgentMode; Agent_Provenance : string;
}.
Definition AgentDefinitionSnapshot_zero : AgentDefinitionSnapshot :=
  mkAgentDefinitionSnapshot "" "" "" "" "" "" [] "" "".

Record AtomicCreateInput : Type := mkAtomicCreateInput {
  AtomicCreateInput_Spec : ThreadSpec; AtomicCreateInput_Project : ProjectIdentity;
  AtomicCreateInput_Agent : AgentDefinitionSnapshot; AtomicCreateInput_Provenance : Provenance;
  AtomicCreateInput_InitialMessage : string;
}.
#[export] Instance AtomicCreateInput_eta : Eta AtomicCreateInput := λ r, mkAtomicCreateInput
  (r.(AtomicCreateInput_Spec)) (r.(AtomicCreateInput_Project)) (r.(AtomicCreateInput_Agent))
  (r.(AtomicCreateInput_Provenance)) (r.(AtomicCreateInput_InitialMessage)).

Record ThreadRecord : Type := mkThreadRecord {
  ThreadRecord_ThreadID : string; ThreadRecord_LastSequence : Z; ThreadRecord_Title : string;
  ThreadRecord_Workspace : string; ThreadRecord_Mode : AgentMode; ThreadRecord_Executor : ExecutorTarget;
  ThreadRecord_Project : ProjectIdentity; ThreadRecord_Agent : AgentDefinitionSnapshot;
  ThreadRecord_Provenance : Provenance;
}.

(** * Mailboxes *)

Record MessageInput : Type := mkMessageInput { MessageInput_Content : string; MessageInput_Class : QueueClass }.

Record QueueItem : Type := mkQueueItem {
  QueueItem_QueueItemID : string; QueueItem_Position : Z; QueueItem_Class : QueueClass;
  QueueItem_State : QueueItemState; QueueItem_Content : string;
}.
#[export] Instance QueueItem_eta : Eta QueueItem := λ r, mkQueueItem (r.(QueueItem_QueueItemID))
  (r.(QueueItem_Position)) (r.(QueueItem_Class)) (r.(QueueItem_State)) (r.(QueueItem_Content)).

(** * Compactions *)

Record CompactionInput : Type := mkCompactionInput {
  CompactionInput_ThroughSequence : Z; CompactionInput_Summary : string;
}.
Record CompactionRecord : Type := mkCompactionRecord {
  CompactionRecord_CompactionID : string; CompactionRecord_ThreadID : string;
  CompactionRecord_EventSequence : Z; CompactionRecord_ThroughSequence : Z;
  CompactionRecord_Summary : string;
}.

(** * Dialogs of plugins *)

Definition DialogState : Type := string.
Definition DialogPending : DialogState := "pending".
Definition DialogResolved : DialogState := "resolved".

(** The response is missing until the dialog is resolved. *)
Record PluginDialog : Type := mkPluginDialog {
  PluginDialog_DialogID : string; PluginDialog_ThreadID : string; PluginDialog_TurnID : string;
  PluginDialog_PluginID : string; PluginDialog_Generation : Z; PluginDialog_InvocationID : string;
  PluginDialog_Deadline : Time; PluginDialog_RequestType : string; PluginDialog_Request : string;
  PluginDialog_State : DialogState; PluginDialog_Revision : Z; PluginDialog_RequestedSequence : Z;
  PluginDialog_ResolvedSequence : Z; PluginDialog_ResolverID : string;
  PluginDialog_Response : string;
}.
#[export] Instance PluginDialog_eta : Eta PluginDialog := λ r, mkPluginDialog (r.(PluginDialog_DialogID))
  (r.(PluginDialog_ThreadID)) (r.(PluginDialog_TurnID)) (r.(PluginDialog_PluginID))
  (r.(PluginDialog_Generation)) (r.(PluginDialog_InvocationID)) (r.(PluginDialog_Deadline))
  (r.(PluginDialog_RequestType)) (r.(PluginDialog_Request)) (r.(PluginDialog_State))
  (r.(PluginDialog_Revision)) (r.(PluginDialog_RequestedSequence)) (r.(PluginDialog_ResolvedSequence))
  (r.(PluginDialog_ResolverID)) (r.(PluginDialog_Response)).

Record CreateDialogInput : Type := mkCreateDialogInput {
  CreateDialogInput_ThreadID : string; CreateDialogInput_TurnID : string;
  CreateDialogInput_PluginID : string; CreateDialogInput_Generation : Z;
  CreateDialogInput_InvocationID : string; CreateDialogInput_Deadline : Time;
  CreateDialogInput_RequestType : string; CreateDialogInput_Request : string;
  CreateDialogInput_ExpectedSequence : option Z;
}.
Record ResolveDialogInput : Type := mkResolveDialogInput {
  ResolveDialogInput_DialogID : string; ResolveDialogInput_ResolverID : string;
  ResolveDialogInput_ExpectedRevision : Z; ResolveDialogInput_ExpectedSequence : option Z;
  ResolveDialogInput_Response : string;
}.

(** * Events *)

(** The payload of an event, by its origin: the bytes a caller gave, or the value the
    store encoded. The content of a mailbox event is the message as it was given. *)
Inductive Payload : Type :=
  | RawPayload (bytes : string)
  | SpecPayload (spec : ThreadSpec)
  | CreatePayload (input : AtomicCreateInput)
  | MailboxPayload (queueItemID turnID content : string)
  | FailurePayload (turnID detail : string)
  | CompactionPayload (input : CompactionInput)
  | ArchivePayload (archived : bool) (changedAt : string)
  | DialogPayload (dialog : PluginDialog)
  | ResolutionPayload (dialogID : string) (revision : Z) (resolverID response : string).

Record ThreadEvent : Type := mkThreadEvent {
  ThreadEvent_SchemaVersion : Z; ThreadEvent_EventID : string; ThreadEvent_ThreadID : string;
  ThreadEvent_Sequence : Z; ThreadEvent_Type : ThreadEventType; ThreadEvent_Visibility : Visibility;
  ThreadEvent_Provenance : Provenance; ThreadEvent_Payload : Payload;
}.

Definition ThreadEvent_Validate (event : ThreadEvent) : result unit :=
  let provenance := event.(ThreadEvent_Provenance) in
  fail_if (negb (event.(ThreadEvent_SchemaVersion) =? thread_SchemaVersion)%Z)
    (Errorf "unsupported event schema version %d" [AInt event.(ThreadEvent_SchemaVersion)]) ;;
  fail_if (event.(ThreadEvent_EventID) == "") (Errorf "event_id is required" []) ;;
  fail_if (event.(ThreadEvent_ThreadID) == "") (Errorf "thread_id is required" []) ;;
  fail_if (event.(ThreadEvent_Sequence) =? 0)%Z (Errorf "sequence must start at one" []) ;;
  fail_if (event.(ThreadEvent_Type) == "") (Errorf "event type is required" []) ;;
  fail_if (negb (existsb (String.eqb event.(ThreadEvent_Visibility))
                   [VisibilityInternal; VisibilityUser; VisibilityAudit]))
    (Errorf "unsupported event visibility %q" [AStr event.(ThreadEvent_Visibility)]) ;;
  if (event.(ThreadEvent_Type) == EventMessageAccepted) && (provenance.(Provenance_ParentThreadID) != "") then
    fail_if (provenance.(Provenance_RootThreadID) == "")
      (Errorf "root_thread_id is required for an inter-thread message" []) ;;
    fail_if (provenance.(Provenance_SourceThreadID) == "")
      (Errorf "source_thread_id is required for an inter-thread message" []) ;;
    fail_if (provenance.(Provenance_ReplyToThreadID) == "")
      (Errorf "reply_to_thread_id is required for an inter-thread message" [])
  else Ok tt.

Record EventDraft : Type := mkEventDraft {
  EventDraft_Type : ThreadEventType; EventDraft_Visibility : Visibility;
  EventDraft_Provenance : Provenance; EventDraft_Payload : Payload;
}.
#[export] Instance EventDraft_eta : Eta EventDraft := λ r, mkEventDraft (r.(EventDraft_Type))
  (r.(EventDraft_Visibility)) (r.(EventDraft_Provenance)) (r.(EventDraft_Payload)).

Record ContextProjection : Type := mkContextProjection {
  ContextProjection_Compaction : option CompactionRecord; ContextProjection_Tail : list ThreadEvent;
}.

Record ThreadResult : Type := mkThreadResult {
  ThreadResult_ThreadID : string; ThreadResult_LastSequence : Z; ThreadResult_Events : list ThreadEvent;
}.
Definition ThreadResult_zero : ThreadResult := mkThreadResult "" 0 [].

Record MailboxState : Type := mkMailboxState {
  MailboxState_ThreadID : string; MailboxState_LastSequence : Z; MailboxState_Activity : Activity;
  MailboxState_ActiveTurnID : string; MailboxState_CancelRequested : bool;
  MailboxState_Queue : list QueueItem; MailboxState_Events : list ThreadEvent;
}.
#[export] Instance MailboxState_eta : Eta MailboxState := λ r, mkMailboxState (r.(MailboxState_ThreadID))
  (r.(MailboxState_LastSequence)) (r.(MailboxState_Activity)) (r.(MailboxState_ActiveTurnID))
  (r.(MailboxState_CancelRequested)) (r.(MailboxState_Queue)) (r.(MailboxState_Events)).
Definition MailboxState_zero : MailboxState := mkMailboxState "" 0 "" "" false [] [].

(** * The catalog *)

Definition ArchiveFilter : Type := string.
Definition ArchiveActive : ArchiveFilter := "active".
Definition ArchiveArchived : ArchiveFilter := "archived".
Definition ArchiveAll : ArchiveFilter := "all".

Record ThreadCatalogQuery : Type := mkThreadCatalogQuery {
  ThreadCatalogQuery_ProjectID : string; ThreadCatalogQuery_Search : string;
  ThreadCatalogQuery_Archive : ArchiveFilter; ThreadCatalogQuery_Limit : Z;
  ThreadCatalogQuery_Cursor : string;
}.
#[export] Instance ThreadCatalogQuery_eta : Eta ThreadCatalogQuery := λ r, mkThreadCatalogQuery
  (r.(ThreadCatalogQuery_ProjectID)) (r.(ThreadCatalogQuery_Search)) (r.(ThreadCatalogQuery_Archive))
  (r.(ThreadCatalogQuery_Limit)) (r.(ThreadCatalogQuery_Cursor)).

Record ThreadCatalogEntry : Type := mkThreadCatalogEntry {
  ThreadCatalogEntry_ThreadID : string; ThreadCatalogEntry_ProjectID : string;
  ThreadCatalogEntry_Title : string; ThreadCatalogEntry_Workspace : string;
  ThreadCatalogEntry_LastSequence : Z; ThreadCatalogEntry_Activity : Activity;
  ThreadCatalogEntry_CreatedAt : string; ThreadCatalogEntry_UpdatedAt : string;
  ThreadCatalogEntry_Archived : bool; ThreadCatalogEntry_ArchivedAt : string;
}.
Record ThreadCatalogPage : Type := mkThreadCatalogPage {
  ThreadCatalogPage_SchemaVersion : Z; ThreadCatalogPage_Threads : list ThreadCatalogEntry;
  ThreadCatalogPage_NextCursor : string;
}.
Record threadCatalogCursor : Type := mkthreadCatalogCursor {
  threadCatalogCursor_SchemaVersion : Z; threadCatalogCursor_ProjectID : string;
  threadCatalogCursor_Search : string; threadCatalogCursor_Archive : ArchiveFilter;
  threadCatalogCursor_UpdatedAt : string; threadCatalogCursor_ThreadID : string;
}.
