(* ===== verification/MailboxSpec.v ===== *)
(** The abstract mailbox of a thread: a queue of messages beside one turn at a time.
    Messages are submitted, wait, and are delivered to a turn or withdrawn; the log
    notes what happened. What the store promises about messages is proved here, for
    every run of the machine. *)
From stdpp Require Import sorting.
From S2P Require Import Prelude ThreadData.

(** * The machine *)

(** A thread is idle, busy with a turn (which may wait for an approval, and may have
    been asked to stop), or broken by a turn that failed. *)
Inductive phase : Type :=
  | Idle
  | Busy (turn : string) (asking cancelling : bool)
  | Broken.

Definition turn_of (p : phase) : string := match p with Busy turn _ _ => turn | _ => "" end.

Record note : Type := mkNote {
  note_type : ThreadEventType; note_message : string; note_turn : string; note_content : string;
}.

Record mailbox : Type := mkMailbox {
  mb_phase : phase; mb_queue : list QueueItem; mb_log : list note;
}.

Definition id_of (item : QueueItem) : string := item.(QueueItem_QueueItemID).
Definition pending (item : QueueItem) : bool := item.(QueueItem_State) == QueueItemPending.
Definition steering (item : QueueItem) : bool := item.(QueueItem_Class) == QueueSteer.
Definition interrupting (item : QueueItem) : bool := item.(QueueItem_State) == QueueItemInterruptPending.

(** The message that is next: the first that steers, otherwise the first. *)
Definition next (queue : list QueueItem) : option QueueItem :=
  match List.find (λ item, pending item && steering item) queue with
  | Some item => Some item
  | None => List.find pending queue
  end.

Definition without (q : string) (queue : list QueueItem) : list QueueItem :=
  List.filter (λ item, negb (id_of item == q)) queue.
Definition change (q : string) (f : QueueItem → QueueItem) (queue : list QueueItem) : list QueueItem :=
  (λ item, if id_of item == q then f item else item) <$> queue.
Definition after_all (queue : list QueueItem) : Z :=
  (foldr (λ item most, Z.max item.(QueueItem_Position) most) 0 queue + 1)%Z.

Definition accepts (q turn content : string) : list note :=
  [mkNote EventMessageAccepted q turn content; mkNote EventTurnStarted q turn ""].

(** The phase, queue and notes once a turn has ended with [ended]: the next message,
    if there is one, starts a turn. *)
Inductive continues (queue : list QueueItem) (log : list note) (ended : note)
  : option QueueItem → mailbox → Prop :=
  | rests : continues queue log ended None (mkMailbox Idle queue (log ++ [ended]))
  | goes_on item turn :
      turn ≠ "" →
      continues queue log ended (Some item)
        (mkMailbox (Busy turn false false) (without (id_of item) queue)
           (log ++ ended :: accepts (id_of item) turn item.(QueueItem_Content))).

(** One step; its label is the message it submits. *)
Inductive mailbox_step : mailbox → option string → mailbox → Prop :=
  | step_quiet m : mailbox_step m None m
  | step_start queue log q turn content :
      turn ≠ "" →
      mailbox_step (mkMailbox Idle queue log) (Some q)
        (mkMailbox (Busy turn false false) queue (log ++ accepts q turn content))
  | step_queue p queue log q class content :
      p ≠ Idle →
      mailbox_step (mkMailbox p queue log) (Some q)
        (mkMailbox p (queue ++ [mkQueueItem q (after_all queue) class QueueItemPending content])
           (log ++ [mkNote EventMessageQueued q (turn_of p) content]))
  | step_steer turn asking cancelling queue log item :
      item ∈ queue → pending item = true →
      mailbox_step (mkMailbox (Busy turn asking cancelling) queue log) None
        (mkMailbox (Busy turn asking cancelling)
           (change (id_of item) (λ item, item <| QueueItem_Class := QueueSteer |>) queue)
           (log ++ [mkNote EventMessageSteered (id_of item) turn ""]))
  | step_edit p queue log item content :
      item ∈ queue → pending item = true →
      mailbox_step (mkMailbox p queue log) None
        (mkMailbox p (change (id_of item) (λ item, item <| QueueItem_Content := content |>) queue)
           (log ++ [mkNote EventMessageQueueEdited (id_of item) (turn_of p) content]))
  | step_take turn asking cancelling queue log item :
      List.find (λ item, steering item && pending item) queue = Some item →
      mailbox_step (mkMailbox (Busy turn asking cancelling) queue log) None
        (mkMailbox (Busy turn asking cancelling) (without (id_of item) queue)
           (log ++ [mkNote EventMessageAccepted (id_of item) turn item.(QueueItem_Content)]))
  | step_withdraw p queue log item :
      item ∈ queue →
      mailbox_step (mkMailbox p queue log) None
        (mkMailbox p (without (id_of item) queue)
           (log ++ [mkNote EventMessageDequeued (id_of item) (turn_of p) ""]))
  | step_complete turn asking queue log m' :
      continues queue log (mkNote EventTurnCompleted "" turn "") (next queue) m' →
      mailbox_step (mkMailbox (Busy turn asking false) queue log) None m'
  | step_fail turn asking cancelling queue log detail :
      mailbox_step (mkMailbox (Busy turn asking cancelling) queue log) None
        (mkMailbox Broken queue (log ++ [mkNote EventTurnFailed "" turn detail]))
  | step_interrupt turn asking queue log q content :
      mailbox_step (mkMailbox (Busy turn asking false) queue log) (Some q)
        (mkMailbox (Busy turn asking true)
           (queue ++ [mkQueueItem q (after_all queue) QueueSteer QueueItemInterruptPending content])
           (log ++ [mkNote EventTurnCancelRequested q turn ""; mkNote EventMessageQueued q turn content]))
  | step_cancel turn asking queue log :
      mailbox_step (mkMailbox (Busy turn asking false) queue log) None
        (mkMailbox (Busy turn asking true) queue (log ++ [mkNote EventTurnCancelRequested "" turn ""]))
  | step_settle turn asking queue log m' :
      continues queue log (mkNote EventTurnCancelled "" turn "") (List.find interrupting queue) m' →
      mailbox_step (mkMailbox (Busy turn asking true) queue log) None m'
  | step_ask turn asking cancelling queue log :
      mailbox_step (mkMailbox (Busy turn asking cancelling) queue log) None
        (mkMailbox (Busy turn true cancelling) queue log)
  | step_answer turn cancelling queue log :
      mailbox_step (mkMailbox (Busy turn true cancelling) queue log) None
        (mkMailbox (Busy turn false cancelling) queue log).

(** Runs, with the messages submitted, latest first. *)
Inductive mailbox_run : list string → mailbox → Prop :=
  | run_new : mailbox_run [] (mkMailbox Idle [] [])
  | run_with q turn content :
      turn ≠ "" → mailbox_run [q] (mkMailbox (Busy turn false false) [] (accepts q turn content))
  | run_step submitted m label m' :
      mailbox_run submitted m → mailbox_step m label m' →
      mailbox_run (option_list label ++ submitted) m'.

(** * Where the messages are *)

Definition noted (type : ThreadEventType) (log : list note) : list string :=
  omap (λ n, if n.(note_type) == type then Some n.(note_message) else None) log.

Definition waiting (m : mailbox) : list string := id_of <$> m.(mb_queue).
Definition delivered (m : mailbox) : list string := noted EventMessageAccepted m.(mb_log).
Definition withdrawn (m : mailbox) : list string := noted EventMessageDequeued m.(mb_log).
Definition placed (m : mailbox) : list string := waiting m ++ delivered m ++ withdrawn m.

Lemma noted_app type log log' : noted type (log ++ log') = noted type log ++ noted type log'.
Proof. apply omap_app. Qed.

Lemma find_elem {A} (f : A → bool) l x : List.find f l = Some x → x ∈ l ∧ f x = true.
Proof. intros [H1 H2]%find_some. split; [by apply list_elem_of_In|done]. Qed.

Lemma next_pending queue item : next queue = Some item → item ∈ queue ∧ pending item = true.
Proof.
  unfold next. destruct (List.find _ queue) as [i|] eqn:E.
  - intros [= ->]. apply find_elem in E as [? ?%andb_true_iff]. naive_solver.
  - apply find_elem.
Qed.

Lemma ids_change q f queue :
  (∀ item, id_of (f item) = id_of item) → id_of <$> change q f queue = id_of <$> queue.
Proof.
  intros Hf. unfold change. rewrite <- list_fmap_compose. apply list_fmap_ext. intros i item _. cbn.
  by destruct (_ == q).
Qed.

Lemma ids_without queue item :
  NoDup (id_of <$> queue) → item ∈ queue →
  id_of <$> queue ≡ₚ id_of item :: (id_of <$> without (id_of item) queue).
Proof.
  induction queue as [|x queue IH]; [by intros _ ?%elem_of_nil|]. cbn [fmap list_fmap].
  intros [Hx Hnd]%NoDup_cons Hin. unfold without. cbn [List.filter]. destruct (id_of x == id_of item) eqn:E; cbn [negb].
  - apply String.eqb_eq in E. rewrite E in *. apply Permutation_cons; [done|]. fold (without (id_of item) queue).
    assert (without (id_of item) queue = queue) as ->; [|done].
    unfold without. clear IH Hin Hnd. induction queue as [|y queue IH]; [done|]. cbn in Hx |- *.
    apply not_elem_of_cons in Hx as [Hne Hx]. rewrite (proj2 (String.eqb_neq (id_of y) (id_of item))) by congruence.
    cbn. by rewrite IH.
  - apply String.eqb_neq in E. apply elem_of_cons in Hin as [->|Hin]; [done|]. cbn [fmap list_fmap].
    rewrite Permutation_swap. apply Permutation_cons; [done|]. by apply IH.
Qed.

(** A delivery from the queue, and a withdrawal. *)
Lemma placed_moved queue log item p p' notes :
  NoDup (id_of <$> queue) → item ∈ queue →
  noted EventMessageAccepted notes ++ noted EventMessageDequeued notes = [id_of item] →
  placed (mkMailbox p' (without (id_of item) queue) (log ++ notes)) ≡ₚ placed (mkMailbox p queue log).
Proof.
  intros Hnd Hin Hn. unfold placed, waiting, delivered, withdrawn. cbn [mb_queue mb_log].
  rewrite !noted_app, (ids_without queue item Hnd Hin). cbn [app].
  transitivity ((id_of <$> without (id_of item) queue) ++ noted EventMessageAccepted log ++
    noted EventMessageDequeued log ++ (noted EventMessageAccepted notes ++ noted EventMessageDequeued notes)); [solve_Permutation|].
  rewrite Hn. solve_Permutation.
Qed.

Lemma placed_kept queue queue' log p p' notes added :
  id_of <$> queue' = (id_of <$> queue) ++ added →
  noted EventMessageAccepted notes = [] → noted EventMessageDequeued notes = [] →
  placed (mkMailbox p' queue' (log ++ notes)) ≡ₚ added ++ placed (mkMailbox p queue log).
Proof.
  intros Hq Ha Hd. unfold placed, waiting, delivered, withdrawn. cbn [mb_queue mb_log].
  rewrite !noted_app, Hq, Ha, Hd, !app_nil_r. solve_Permutation.
Qed.

Lemma continues_placed p queue log ended found m' :
  NoDup (id_of <$> queue) → (∀ item, found = Some item → item ∈ queue) →
  noted EventMessageAccepted [ended] = [] → noted EventMessageDequeued [ended] = [] →
  continues queue log ended found m' → placed m' ≡ₚ placed (mkMailbox p queue log).
Proof.
  intros Hnd Hin Ha Hd Hc. revert Hin. destruct Hc as [|item turn _]; intros Hin.
  - apply (placed_kept queue queue log p Idle [ended] []); [by rewrite app_nil_r|done..].
  - apply placed_moved; [done|by apply Hin|].
    change (ended :: accepts (id_of item) turn (QueueItem_Content item)) with ([ended] ++ accepts (id_of item) turn (QueueItem_Content item)).
    by rewrite !noted_app, Ha, Hd.
Qed.

Lemma step_placed m label m' :
  NoDup (waiting m) → mailbox_step m label m' → placed m' ≡ₚ option_list label ++ placed m.
Proof.
  intros Hnd Hs. destruct Hs; cbn [option_list option_rect app]; try done.
  - unfold placed, waiting, delivered, withdrawn. cbn [mb_queue mb_log]. rewrite !noted_app. cbn. solve_Permutation.
  - apply (placed_kept _ _ _ _ _ _ [q]); [by rewrite fmap_app|done..].
  - apply (placed_kept _ _ _ _ _ _ []); [by rewrite ids_change, app_nil_r|done..].
  - apply (placed_kept _ _ _ _ _ _ []); [by rewrite ids_change, app_nil_r|done..].
  - apply placed_moved; [done|by apply find_elem in H as []|done].
  - by apply placed_moved.
  - refine (continues_placed _ _ _ _ _ _ Hnd _ _ _ H); [|done..]. by intros item [? _]%next_pending.
  - apply (placed_kept _ _ _ _ _ _ []); [by rewrite app_nil_r|done..].
  - apply (placed_kept _ _ _ _ _ _ [q]); [by rewrite fmap_app|done..].
  - apply (placed_kept _ _ _ _ _ _ []); [by rewrite app_nil_r|done..].
  - refine (continues_placed _ _ _ _ _ _ Hnd _ _ _ H); [|done..]. by intros item [? _]%find_elem.
Qed.

(** Every message submitted is in exactly one place: it waits, it was delivered once,
    or it was withdrawn once. *)
Lemma run_placed submitted m : mailbox_run submitted m → NoDup submitted → placed m ≡ₚ submitted.
Proof.
  induction 1 as [|q turn content Ht|submitted m label m' Hr IH Hs]; intros Hnd; [done..|].
  assert (NoDup submitted) as Hnd' by (by apply NoDup_app in Hnd as (_ & _ & ?)).
  specialize (IH Hnd'). rewrite (step_placed m label m'); [by rewrite IH| |done].
  rewrite <- IH in Hnd'. by apply NoDup_app in Hnd' as [? _].
Qed.

Lemma step_queued m label m' :
  mailbox_step m label m' →
  noted EventMessageQueued m'.(mb_log) ⊆ option_list label ++ noted EventMessageQueued m.(mb_log).
Proof.
  intros H. destruct H; cbn [mb_log option_list option_rect app]; rewrite ?noted_app; cbn; rewrite ?app_nil_r; try set_solver.
  all: match goal with H : continues _ _ _ _ _ |- _ => destruct H; cbn [mb_log]; rewrite noted_app; cbn; rewrite app_nil_r; done end.
Qed.

(** What was queued was submitted. *)
Lemma run_queued submitted m : mailbox_run submitted m → noted EventMessageQueued m.(mb_log) ⊆ submitted.
Proof.
  induction 1 as [|q turn content _|submitted m label m' _ IH Hs%step_queued]; [done|set_solver|set_solver].
Qed.

(** * Phases *)

Definition interrupts (m : mailbox) : list QueueItem := List.filter interrupting m.(mb_queue).

(** An interrupting message waits only while its turn is being stopped, or beside a
    turn that failed; there is one at most. *)
Definition orderly (m : mailbox) : Prop :=
  match m.(mb_phase) with
  | Busy turn _ true => turn ≠ "" ∧ length (interrupts m) ≤ 1
  | Busy turn _ false => turn ≠ "" ∧ interrupts m = []
  | Idle => interrupts m = []
  | Broken => length (interrupts m) ≤ 1
  end.

Lemma filter_filter {A} (f g : A → bool) l :
  List.filter f (List.filter g l) = List.filter g (List.filter f l).
Proof. induction l as [|x l IH]; [done|]. cbn. destruct (f x) eqn:Ef, (g x) eqn:Eg; cbn; rewrite ?Ef, ?Eg; by rewrite IH. Qed.

Lemma filter_at_most {A} (f : A → bool) l : length (List.filter f l) ≤ length l.
Proof. apply filter_length_le. Qed.

Lemma interrupts_without q queue : List.filter interrupting (without q queue) = without q (List.filter interrupting queue).
Proof. apply filter_filter. Qed.

Lemma interrupts_change q f queue :
  (∀ item, interrupting (f item) = interrupting item) →
  length (List.filter interrupting (change q f queue)) = length (List.filter interrupting queue).
Proof.
  intros Hf. unfold change. induction queue as [|x queue IH]; [done|]. cbn [fmap list_fmap List.filter].
  destruct (_ == _); rewrite ?Hf; destruct (interrupting x); cbn [length]; by rewrite IH.
Qed.

Lemma find_filter {A} (f : A → bool) l : List.find f l = head (List.filter f l).
Proof. induction l as [|x l IH]; [done|]. cbn. by destruct (f x). Qed.

(** A step that stays in the phase, or fails the turn, and adds no interrupting message. *)
Lemma orderly_phase p p' queue queue' log log' :
  length (List.filter interrupting queue') ≤ length (List.filter interrupting queue) →
  match p, p' with
  | Busy t _ c, Busy t' _ c' => t' = t ∧ (c = true → c' = true)
  | Busy _ _ _, Broken | Broken, Broken | Idle, Idle => True
  | _, _ => False
  end →
  orderly (mkMailbox p queue log) → orderly (mkMailbox p' queue' log').
Proof.
  intros Hle Hp. unfold orderly, interrupts. cbn [mb_phase mb_queue].
  assert (List.filter interrupting queue = [] → List.filter interrupting queue' = []) as He.
  { intros E. rewrite E in Hle. apply nil_length_inv. cbn in Hle. lia. }
  assert (∀ l : list QueueItem, l = [] → length l ≤ 1) as Hn by (intros l ->; cbn; lia).
  destruct p as [|t a [|]|], p' as [|t' a' [|]|]; try done; naive_solver lia.
Qed.

Lemma orderly_same p queue queue' log log' :
  length (List.filter interrupting queue') ≤ length (List.filter interrupting queue) →
  orderly (mkMailbox p queue log) → orderly (mkMailbox p queue' log').
Proof. intros Hle. apply orderly_phase; [done|]. by destruct p. Qed.

Lemma without_le q queue :
  length (List.filter interrupting (without q queue)) ≤ length (List.filter interrupting queue).
Proof. rewrite interrupts_without. apply filter_at_most. Qed.

Lemma without_found queue item :
  length (List.filter interrupting queue) ≤ 1 → List.find interrupting queue = Some item →
  List.filter interrupting (without (id_of item) queue) = [].
Proof.
  rewrite find_filter, interrupts_without. destruct (List.filter interrupting queue) as [|x [|y l]]; cbn; [done| |lia].
  intros _ [= ->]. by rewrite String.eqb_refl.
Qed.

Lemma continues_orderly queue log ended found m' :
  continues queue log ended found m' →
  match found with
  | None => List.filter interrupting queue = []
  | Some item => List.filter interrupting (without (id_of item) queue) = []
  end → orderly m'.
Proof. by destruct 1. Qed.

Lemma step_orderly m label m' : mailbox_step m label m' → orderly m → orderly m'.
Proof.
  destruct 1; intros Ho; try done.
  - revert Ho. apply orderly_same. rewrite List.filter_app. cbn. by rewrite app_nil_r.
  - revert Ho. apply orderly_same. by rewrite interrupts_change.
  - revert Ho. apply orderly_same. by rewrite interrupts_change.
  - revert Ho. apply orderly_same, without_le.
  - revert Ho. apply orderly_same, without_le.
  - destruct Ho as [_ Ho]. eapply continues_orderly; [exact H|]. destruct (next queue) as [item|]; [|done].
    rewrite interrupts_without. unfold interrupts in Ho. cbn in Ho. by rewrite Ho.
  - revert Ho. by apply orderly_phase.
  - destruct Ho as [Ht Ho]. split; [done|]. unfold interrupts in *. cbn [mb_queue] in *.
    rewrite List.filter_app, Ho. cbn. lia.
  - revert Ho. by apply orderly_phase.
  - destruct Ho as [_ Ho]. eapply continues_orderly; [exact H|]. unfold interrupts in Ho. cbn in Ho.
    destruct (List.find interrupting queue) as [item|] eqn:E; [by apply without_found|].
    rewrite find_filter in E. by destruct (List.filter interrupting queue).
Qed.

Lemma run_orderly submitted m : mailbox_run submitted m → orderly m.
Proof. induction 1 as [| |????? IH Hs]; [done..|]. by eapply step_orderly. Qed.

(** What a note says started: a delivery or a turn. *)
Definition starts (n : note) : bool :=
  (n.(note_type) == EventMessageAccepted) || (n.(note_type) == EventTurnStarted).

(** Nothing is delivered to a broken thread, and it stays broken. *)
Lemma broken_step m label m' :
  mailbox_step m label m' → m.(mb_phase) = Broken →
  m'.(mb_phase) = Broken ∧ ∃ notes, m'.(mb_log) = m.(mb_log) ++ notes ∧ existsb starts notes = false.
Proof.
  destruct 1; cbn [mb_phase mb_log]; intros Hp; try done; (split; [done|]).
  1: by exists []; rewrite app_nil_r. all: by eexists.
Qed.

(** While messages wait in an idle thread, nothing delivers them: a step that starts a
    turn starts it with the message it submits. *)
Lemma idle_step m label m' :
  mailbox_step m label m' → m.(mb_phase) = Idle →
  (m'.(mb_phase) = Idle ∧ ∃ notes, m'.(mb_log) = m.(mb_log) ++ notes ∧ existsb starts notes = false) ∨
  ∃ q turn content, label = Some q ∧ m'.(mb_queue) = m.(mb_queue) ∧ m'.(mb_log) = m.(mb_log) ++ accepts q turn content.
Proof.
  destruct 1; cbn [mb_phase mb_log mb_queue]; intros Hp; try done.
  - left. split; [done|]. by exists []; rewrite app_nil_r.
  - right. by exists q, turn, content.
  - left. split; [done|]. by eexists.
  - left. split; [done|]. by eexists.
Qed.
