(* ===== verification/ThreadTables.v ===== *)
(** The SQLite tables of internal/agothreadstore/store.go and thread_catalog.go, and
    the statements over them. A table is a finite map from its primary key to the
    other columns, a JSON column holds the value it encodes. *)
From stdpp Require Import sorting.
From S2P Require Import Prelude Sql ThreadData.

(** * Rows *)

Record ThreadRow : Type := mkThreadRow {
  tr_last_sequence : Z; tr_activity : Activity; tr_active_turn_id : string; tr_cancel_requested : bool;
  tr_title : string; tr_workspace : string; tr_mode : AgentMode; tr_executor_type : ExecutorType;
  tr_runner_id : string; tr_project_json : ProjectIdentity;
  tr_agent_snapshot_json : AgentDefinitionSnapshot; tr_provenance_json : Provenance;
}.
#[export] Instance ThreadRow_eta : Eta ThreadRow := λ r, mkThreadRow (r.(tr_last_sequence)) (r.(tr_activity))
  (r.(tr_active_turn_id)) (r.(tr_cancel_requested)) (r.(tr_title)) (r.(tr_workspace)) (r.(tr_mode))
  (r.(tr_executor_type)) (r.(tr_runner_id)) (r.(tr_project_json)) (r.(tr_agent_snapshot_json))
  (r.(tr_provenance_json)).

(** What a command returned, as its row keeps it: the JSON of one of two structs. *)
Inductive StoredResult : Type :=
  | StoredThread (r : ThreadResult)
  | StoredMailbox (state : MailboxState).

Record ThreadCommandRow : Type := mkThreadCommandRow {
  tc_command_id : string; tc_request_hash : string; tc_thread_id : string; tc_result_json : StoredResult;
}.

Record PendingRow : Type := mkPendingRow {
  pr_position : Z; pr_class : QueueClass; pr_state : QueueItemState; pr_content_json : string;
}.
#[export] Instance PendingRow_eta : Eta PendingRow := λ r, mkPendingRow (r.(pr_position)) (r.(pr_class))
  (r.(pr_state)) (r.(pr_content_json)).

Record CompactionRow : Type := mkCompactionRow {
  co_event_sequence : Z; co_through_sequence : Z; co_summary : string;
}.

Record CatalogRow : Type := mkCatalogRow {
  ca_project_id : string; ca_created_at : string; ca_updated_at : string;
  ca_archived_at : option string; ca_revision : Z;
}.

Record ThreadDB : Type := mkThreadDB {
  threads : gmap string ThreadRow;
  thread_events : gmap (string * Z) ThreadEvent;
  thread_commands : gmap (string * string) ThreadCommandRow;
  pending_inputs : gmap (string * string) PendingRow;
  compactions : gmap (string * string) CompactionRow;
  plugin_dialogs : gmap string PluginDialog;
  thread_catalog : gmap string CatalogRow;
}.
#[export] Instance ThreadDB_eta : Eta ThreadDB := λ r, mkThreadDB (r.(threads)) (r.(thread_events))
  (r.(thread_commands)) (r.(pending_inputs)) (r.(compactions)) (r.(plugin_dialogs)) (r.(thread_catalog)).
Definition ThreadDB_empty : ThreadDB := mkThreadDB ∅ ∅ ∅ ∅ ∅ ∅ ∅.

(** * Constraints *)

(** [thread_id TEXT NOT NULL REFERENCES threads(thread_id)] *)
Definition threadExists (db : ThreadDB) (threadID : string) : result unit :=
  checkConstraint (is_Some_b (db.(threads) !! threadID)) "FOREIGN KEY threads".

Definition unused {K V} `{Countable K} (m : gmap K V) (k : K) (constraint : string) : result unit :=
  checkConstraint (negb (is_Some_b (m !! k))) constraint.

(** Whether a row of a table satisfies a condition. *)
Definition some_row {K V} `{Countable K} (P : K → V → bool) (m : gmap K V) : bool :=
  existsb (λ p, P p.1 p.2) (map_to_list m).

(** * Statements *)

Definition insertThread (db : ThreadDB) (threadID : string) (row : ThreadRow) : result ThreadDB :=
  unused db.(threads) threadID "UNIQUE threads.thread_id" ;;
  Ok (db <| threads := <[threadID := row]> db.(threads) |>).

(** [UPDATE threads ... WHERE thread_id = ?]; without the thread it changes nothing. *)
Definition updateThread (db : ThreadDB) (threadID : string) (f : ThreadRow → ThreadRow) : ThreadDB :=
  db <| threads := alter f threadID db.(threads) |>.

(** [UPDATE threads SET last_sequence = ? ...] *)
Definition setSequence (db : ThreadDB) (threadID : string) (sequence : Z) (f : ThreadRow → ThreadRow)
  : result ThreadDB :=
  bindUint64 sequence ;;
  checkConstraint (1 <=? sequence)%Z "CHECK last_sequence >= 1" ;;
  Ok (updateThread db threadID (λ row, (f row) <| tr_last_sequence := sequence |>)).

Definition insertEvent (db : ThreadDB) (event : ThreadEvent) : result ThreadDB :=
  let key := (event.(ThreadEvent_ThreadID), event.(ThreadEvent_Sequence)) in
  wrap_err (λ err, Errorf "insert event: %w" [AWrap err])
    (bindUint64 event.(ThreadEvent_Sequence) ;;
     checkConstraint (1 <=? event.(ThreadEvent_Sequence))%Z "CHECK sequence >= 1" ;;
     threadExists db event.(ThreadEvent_ThreadID) ;;
     unused db.(thread_events) key "UNIQUE events.thread_id, events.sequence" ;;
     Ok (db <| thread_events := <[key := event]> db.(thread_events) |>)).

Definition insertCommandRow (db : ThreadDB) (command : ThreadCommand) (row : ThreadCommandRow)
  : result ThreadDB :=
  let key := (command.(ThreadCommand_ActorID), command.(ThreadCommand_IdempotencyKey)) in
  threadExists db row.(tc_thread_id) ;;
  unused db.(thread_commands) key "UNIQUE commands.actor_id, commands.idempotency_key" ;;
  Ok (db <| thread_commands := <[key := row]> db.(thread_commands) |>).

Definition pendingRow (item : QueueItem) : PendingRow :=
  mkPendingRow item.(QueueItem_Position) item.(QueueItem_Class) item.(QueueItem_State) item.(QueueItem_Content).
Definition queueItem (id : string) (row : PendingRow) : QueueItem :=
  mkQueueItem id row.(pr_position) row.(pr_class) row.(pr_state) row.(pr_content_json).

Definition insertQueueItem (db : ThreadDB) (threadID : string) (item : QueueItem) : result ThreadDB :=
  let key := (threadID, item.(QueueItem_QueueItemID)) in
  bindUint64 item.(QueueItem_Position) ;;
  threadExists db threadID ;;
  unused db.(pending_inputs) key "UNIQUE pending_inputs.thread_id, pending_inputs.queue_item_id" ;;
  checkConstraint (negb (some_row (λ k row, (k.1 == threadID) && (row.(pr_position) =? item.(QueueItem_Position))%Z)
                            db.(pending_inputs)))
    "UNIQUE pending_inputs.thread_id, pending_inputs.position" ;;
  Ok (db <| pending_inputs := <[key := pendingRow item]> db.(pending_inputs) |>).

Definition notPending (queueItemID : string) : error := Errorf "queue item %q is not pending" [AStr queueItemID].

Definition deleteQueueItem (db : ThreadDB) (threadID queueItemID : string) : result ThreadDB :=
  fail_if (negb (is_Some_b (db.(pending_inputs) !! (threadID, queueItemID)))) (notPending queueItemID) ;;
  Ok (db <| pending_inputs := delete (threadID, queueItemID) db.(pending_inputs) |>).

(** [UPDATE pending_inputs SET ... WHERE thread_id = ? AND queue_item_id = ? AND state = 'pending'],
    which has to change one row. *)
Definition updatePending (db : ThreadDB) (threadID queueItemID : string) (f : PendingRow → PendingRow)
  : result ThreadDB :=
  match db.(pending_inputs) !! (threadID, queueItemID) with
  | Some row =>
      fail_if (row.(pr_state) != QueueItemPending) (notPending queueItemID) ;;
      Ok (db <| pending_inputs := <[(threadID, queueItemID) := f row]> db.(pending_inputs) |>)
  | None => Err (notPending queueItemID)
  end.

Definition positionOrder (x y : QueueItem) : Prop := (x.(QueueItem_Position) <= y.(QueueItem_Position))%Z.
#[export] Instance positionOrder_dec : RelDecision positionOrder.
Proof. intros x y. unfold positionOrder. apply _. Defined.

(** [... FROM pending_inputs WHERE thread_id = ? ORDER BY position]; no two rows of a
    thread have the same position. *)
Definition loadQueue (db : ThreadDB) (threadID : string) : list QueueItem :=
  merge_sort positionOrder (omap (λ p : (string * string) * PendingRow,
      if p.1.1 == threadID then Some (queueItem p.1.2 p.2) else None)
    (map_to_list db.(pending_inputs))).

Definition firstQueueItem (db : ThreadDB) (threadID : string) (condition : QueueItem → bool)
  : option QueueItem := List.find condition (loadQueue db threadID).

Definition isPending (item : QueueItem) : bool := item.(QueueItem_State) == QueueItemPending.
Definition isSteer (item : QueueItem) : bool := item.(QueueItem_Class) == QueueSteer.

(** [ORDER BY CASE class WHEN 'steer' THEN 0 ELSE 1 END, position LIMIT 1] *)
Definition nextPendingInput (db : ThreadDB) (threadID : string) : option QueueItem :=
  match firstQueueItem db threadID (λ item, isPending item && isSteer item) with
  | Some item => Some item
  | None => firstQueueItem db threadID isPending
  end.

(** [SELECT COALESCE(MAX(position), 0) + 1 ...]; SQLite adds in 64 bits and turns an
    overflow into a real number, which cannot be read as an integer. *)
Definition nextQueuePosition (db : ThreadDB) (threadID : string) : result Z :=
  let most := foldr (λ item most, Z.max item.(QueueItem_Position) most) 0%Z (loadQueue db threadID) in
  fail_if (two64 / 2 <=? most + 1)%Z (Errorf "Scan error: position" []) ;;
  Ok (most + 1)%Z.

Definition insertCompaction (db : ThreadDB) (threadID compactionID : string) (row : CompactionRow)
  : result ThreadDB :=
  bindUint64 row.(co_event_sequence) ;; bindUint64 row.(co_through_sequence) ;;
  threadExists db threadID ;;
  unused db.(compactions) (threadID, compactionID) "UNIQUE compactions.thread_id, compactions.compaction_id" ;;
  checkConstraint (negb (some_row (λ k r, (k.1 == threadID) && (r.(co_event_sequence) =? row.(co_event_sequence))%Z)
                            db.(compactions)))
    "UNIQUE compactions.thread_id, compactions.event_sequence" ;;
  Ok (db <| compactions := <[(threadID, compactionID) := row]> db.(compactions) |>).

(** The compactions of a thread. *)
Definition compactionsOf (db : ThreadDB) (threadID : string) : list CompactionRecord :=
  omap (λ p : (string * string) * CompactionRow,
      if p.1.1 == threadID
      then Some (mkCompactionRecord p.1.2 threadID p.2.(co_event_sequence) p.2.(co_through_sequence) p.2.(co_summary))
      else None)
    (map_to_list db.(compactions)).

(** [UNIQUE (thread_id, turn_id, plugin_id, generation, invocation_id)] *)
Definition sameInvocation (thread turn plugin : string) (generation : Z) (invocation : string)
    (d : PluginDialog) : bool :=
  (d.(PluginDialog_ThreadID) == thread) && (d.(PluginDialog_TurnID) == turn)
  && (d.(PluginDialog_PluginID) == plugin) && (d.(PluginDialog_Generation) =? generation)%Z
  && (d.(PluginDialog_InvocationID) == invocation).

Definition insertDialog (db : ThreadDB) (d : PluginDialog) : result ThreadDB :=
  bindUint64 d.(PluginDialog_Generation) ;; bindUint64 d.(PluginDialog_RequestedSequence) ;;
  threadExists db d.(PluginDialog_ThreadID) ;;
  unused db.(plugin_dialogs) d.(PluginDialog_DialogID) "UNIQUE plugin_dialogs.dialog_id" ;;
  checkConstraint (negb (some_row (λ _, sameInvocation d.(PluginDialog_ThreadID) d.(PluginDialog_TurnID)
                            d.(PluginDialog_PluginID) d.(PluginDialog_Generation) d.(PluginDialog_InvocationID))
                            db.(plugin_dialogs)))
    "UNIQUE plugin_dialogs" ;;
  Ok (db <| plugin_dialogs := <[d.(PluginDialog_DialogID) := d]> db.(plugin_dialogs) |>).

Definition insertCatalog (db : ThreadDB) (threadID : string) (row : CatalogRow) : result ThreadDB :=
  threadExists db threadID ;;
  unused db.(thread_catalog) threadID "UNIQUE thread_catalog.thread_id" ;;
  Ok (db <| thread_catalog := <[threadID := row]> db.(thread_catalog) |>).

(** [INSERT OR IGNORE INTO thread_catalog ... SELECT ... FROM threads] *)
Definition ensureThreadCatalog (db : ThreadDB) : ThreadDB :=
  db <| thread_catalog := db.(thread_catalog) ∪
    ((λ row, mkCatalogRow row.(tr_project_json).(ProjectIdentity_ProjectID) "" "" None 1) <$> db.(threads)) |>.
