(* ===== verification/ThreadStore.v ===== *)
(** The operations of internal/agothreadstore: store.go, mailbox.go, atomic_create.go,
    compaction.go, dialog.go and thread_catalog.go. Every operation is a transaction. *)
From stdpp Require Import sorting.
From S2P Require Import Prelude Sql Paths ThreadData ThreadTables.

(** The values that are hashed to identify a request, one constructor per struct. *)
Inductive ThreadRequest : Type :=
  | RequestDrafts (command : ThreadCommand) (drafts : list EventDraft)
  | RequestTurnDrafts (command : ThreadCommand) (turnID : string) (drafts : list EventDraft)
  | RequestMessage (command : ThreadCommand) (input : MessageInput)
  | RequestSteer (command : ThreadCommand) (queueItemID turnID : string)
  | RequestEdit (command : ThreadCommand) (queueItemID content : string)
  | RequestText (command : ThreadCommand) (text : string)
  | RequestFailure (command : ThreadCommand) (turnID detail : string)
  | RequestInterrupt (command : ThreadCommand) (turnID : string) (input : MessageInput)
  | RequestCreate (command : ThreadCommand) (input : AtomicCreateInput).

(** The functions of the standard library and of the operating system the store
    relies on: the SHA-256 of the JSON of a request, which fails when bytes given as
    JSON are not; [json.Valid]; [filepath.EvalSymlinks]; the text of a time; the
    cursor of a page as base64 of its JSON; and [strings.ToLower]. *)
Class ThreadEnv : Type := {
  hashThreadRequest : ThreadRequest → result string;
  thread_json_Valid : string → bool;
  filepath_EvalSymlinks : string → result string;
  time_RFC3339Nano : Time → string;
  encodeCursor : threadCatalogCursor → string;
  decodeCursor : string → result threadCatalogCursor;
  strings_ToLower : string → string;
}.

(** * Transactions *)

(** The database, and the random identifiers that are left to be drawn. *)
Record Session : Type := mkSession { se_db : ThreadDB; se_ids : list string }.
#[export] Instance Session_eta : Eta Session := λ r, mkSession (r.(se_db)) (r.(se_ids)).

Definition tx (A : Type) : Type := Session → result (Session * A).
#[export] Instance tx_ret : MRet tx := λ A a s, Ok (s, a).
#[export] Instance tx_bind : MBind tx := λ A B f m s, '(s, a) ← m s; f a s.

Definition lift_result {A} (m : result A) : tx A := λ s, a ← m; Ok (s, a).
Definition read {A} (f : ThreadDB → A) : tx A := λ s, Ok (s, f s.(se_db)).
Definition query {A} (f : ThreadDB → result A) : tx A := λ s, a ← f s.(se_db); Ok (s, a).
Definition execute (f : ThreadDB → result ThreadDB) : tx unit := λ s,
  db ← f s.(se_db); Ok (s <| se_db := db |>, tt).

(** [randomID]: 16 random bytes, as hexadecimal text; it fails when there are none. *)
Definition randomID (prefix : string) : tx string := λ s,
  match s.(se_ids) with
  | [] => Err (Errorf "generate ID: %w" [AWrap (ErrNew "entropy")])
  | id :: ids => Ok (s <| se_ids := ids |>, prefix +:+ id)
  end.

(** A transaction whose random identifiers are [ids]. *)
Definition runTx {A} (body : tx A) (ids : list string) (db : ThreadDB) : ThreadDB * result A :=
  transact (λ db, '(s, a) ← body (mkSession db ids); Ok (s.(se_db), a)) db.

(** * Shared parts *)

Definition sequenceConflict (current expected : Z) : error :=
  Errorf "thread sequence is %d, expected %d" [AInt current; AInt expected].
Definition StaleTurnError (active expected : string) : error :=
  Errorf "active turn is %q, expected %q" [AStr active; AStr expected].
Definition threadMissing (threadID : string) : error := Errorf "thread %q does not exist" [AStr threadID].
Definition keyReused (command : ThreadCommand) : error :=
  Errorf "idempotency key %q was already used for different content"
    [AStr command.(ThreadCommand_IdempotencyKey)].

Definition threadRow (threadID : string) (db : ThreadDB) : result ThreadRow :=
  non_nil (db.(threads) !! threadID) (threadMissing threadID).

(** The JSON of one result read as the other: both have the members [thread_id],
    [last_sequence] and [events]. *)
Definition asThreadResult (r : StoredResult) : ThreadResult :=
  match r with
  | StoredThread r => r
  | StoredMailbox s => mkThreadResult s.(MailboxState_ThreadID) s.(MailboxState_LastSequence) s.(MailboxState_Events)
  end.
Definition asMailboxState (r : StoredResult) : MailboxState :=
  match r with
  | StoredMailbox s => s
  | StoredThread r => MailboxState_zero <| MailboxState_ThreadID := r.(ThreadResult_ThreadID) |>
      <| MailboxState_LastSequence := r.(ThreadResult_LastSequence) |>
      <| MailboxState_Events := r.(ThreadResult_Events) |>
  end.

(** The stored result of a command with this key; an error when the request differs. *)
Definition storedCommand (command : ThreadCommand) (hash : string) (db : ThreadDB) : result (option StoredResult) :=
  match db.(thread_commands) !! (command.(ThreadCommand_ActorID), command.(ThreadCommand_IdempotencyKey)) with
  | None => Ok None
  | Some row =>
      fail_if (row.(tc_request_hash) != hash) (keyReused command) ;; Ok (Some row.(tc_result_json))
  end.
Definition commandResult (command : ThreadCommand) (hash : string) (db : ThreadDB) : result (option ThreadResult) :=
  stored ← storedCommand command hash db; Ok (option_map asThreadResult stored).
Definition storedMailboxResult (command : ThreadCommand) (hash : string) (db : ThreadDB)
  : result (option MailboxState) :=
  stored ← storedCommand command hash db; Ok (option_map asMailboxState stored).

Definition insertCommand (command : ThreadCommand) (hash : string) (r : ThreadResult) (db : ThreadDB)
  : result ThreadDB :=
  wrap_err (λ err, Errorf "insert command: %w" [AWrap err])
    (insertCommandRow db command
       (mkThreadCommandRow command.(ThreadCommand_CommandID) hash r.(ThreadResult_ThreadID) (StoredThread r))).
Definition insertMailboxCommand (command : ThreadCommand) (hash : string) (state : MailboxState) (db : ThreadDB)
  : result ThreadDB :=
  insertCommandRow db command
    (mkThreadCommandRow command.(ThreadCommand_CommandID) hash command.(ThreadCommand_ThreadID)
       (StoredMailbox state)).

Definition eventOf (eventID threadID : string) (sequence : Z) (draft : EventDraft) : ThreadEvent :=
  mkThreadEvent thread_SchemaVersion eventID threadID sequence draft.(EventDraft_Type)
    draft.(EventDraft_Visibility) draft.(EventDraft_Provenance) draft.(EventDraft_Payload).

(** One event under a new id. *)
Definition appendThreadEvent (threadID : string) (sequence : Z) (draft : EventDraft) : tx ThreadEvent :=
  eventID ← randomID "E-";
  let event := eventOf eventID threadID sequence draft in
  lift_result (ThreadEvent_Validate event) ;;
  execute (λ db, insertEvent db event) ;;
  mret event.

(** The loop of [Append], [AppendTurnEvents] and [appendMailboxEvents]. *)
Fixpoint appendMailboxEvents (threadID : string) (lastSequence : Z) (drafts : list EventDraft)
  : tx (list ThreadEvent) :=
  match drafts with
  | [] => mret []
  | draft :: drafts =>
      event ← appendThreadEvent threadID (u64 (lastSequence + 1)) draft;
      events ← appendMailboxEvents threadID (u64 (lastSequence + 1)) drafts;
      mret (event :: events)
  end.

Definition advanceSequence (threadID : string) (sequence : Z) : tx unit :=
  execute (λ db, setSequence db threadID sequence (λ row, row)).

(** [if command.ExpectedSequence != nil && ...] *)
Definition expectSequence (expected : option Z) (current : Z) : result unit :=
  match expected with
  | Some expected => fail_if (negb (expected =? current)%Z) (sequenceConflict current expected)
  | None => Ok tt
  end.

Definition isActiveActivity (activity : Activity) : bool :=
  (activity == ActivityRunning) || (activity == ActivityAwaitingApproval).

Section store.
Context {env : ThreadEnv}.

(** * Threads: store.go *)

Definition createThread (command : ThreadCommand) (payload : Payload) (spec : ThreadSpec) : tx ThreadResult :=
  lift_result (ThreadCommand_Validate command) ;;
  lift_result (fail_if (command.(ThreadCommand_Type) != CommandThreadCreate)
                 (Errorf "CreateThread requires a %q command" [AStr CommandThreadCreate])) ;;
  let draft := mkEventDraft EventThreadCreated VisibilityUser Provenance_zero payload in
  hash ← lift_result (hashThreadRequest (RequestDrafts command [draft]));
  existing ← query (commandResult command hash);
  match existing with
  | Some existing => mret existing
  | None =>
      threadID ← randomID "T-";
      eventID ← randomID "E-";
      let event := eventOf eventID threadID 1 draft in
      lift_result (ThreadEvent_Validate event) ;;
      let r := mkThreadResult threadID 1 [event] in
      execute (λ db, wrap_err (λ err, Errorf "insert thread: %w" [AWrap err])
        (insertThread db threadID (mkThreadRow 1 ActivityIdle "" false spec.(ThreadSpec_Title)
           spec.(ThreadSpec_Workspace) spec.(ThreadSpec_Mode) spec.(ThreadSpec_Executor).(ExecutorTarget_Type)
           spec.(ThreadSpec_Executor).(ExecutorTarget_RunnerID) ProjectIdentity_zero
           AgentDefinitionSnapshot_zero Provenance_zero))) ;;
      execute (λ db, wrap_err (λ err, Errorf "insert legacy thread catalog entry: %w" [AWrap err])
        (insertCatalog db threadID (mkCatalogRow "" "" "" None 1))) ;;
      execute (λ db, insertEvent db event) ;;
      execute (insertCommand command hash r) ;;
      mret r
  end.

Definition CreateThread (command : ThreadCommand) (payload : string) : tx ThreadResult :=
  createThread command (RawPayload payload) ThreadSpec_zero.

Definition CreateConfiguredThread (command : ThreadCommand) (spec : ThreadSpec) : tx ThreadResult :=
  lift_result (ThreadSpec_Validate spec) ;;
  createThread command (SpecPayload spec) spec.

Definition threadRecord (threadID : string) (row : ThreadRow) : ThreadRecord :=
  mkThreadRecord threadID row.(tr_last_sequence) row.(tr_title) row.(tr_workspace) row.(tr_mode)
    (mkExecutorTarget row.(tr_executor_type) row.(tr_runner_id)) row.(tr_project_json)
    row.(tr_agent_snapshot_json) row.(tr_provenance_json).

Definition Store_Thread (threadID : string) (db : ThreadDB) : result ThreadRecord :=
  row ← threadRow threadID db; Ok (threadRecord threadID row).

(** [SELECT ... FROM threads ORDER BY thread_id] *)
Definition ListThreads (db : ThreadDB) : list ThreadRecord :=
  omap (λ id, threadRecord id <$> db.(threads) !! id) (merge_sort byteOrder (fst <$> map_to_list db.(threads))).

(** The end of an append, past its checks: the events, the new sequence, the receipt. *)
Definition appendDrafts (command : ThreadCommand) (hash : string) (lastSequence : Z) (drafts : list EventDraft)
  : tx ThreadResult :=
  events ← appendMailboxEvents command.(ThreadCommand_ThreadID) lastSequence drafts;
  let lastSequence := u64 (lastSequence + Z.of_nat (length events)) in
  advanceSequence command.(ThreadCommand_ThreadID) lastSequence ;;
  let r := mkThreadResult command.(ThreadCommand_ThreadID) lastSequence events in
  execute (insertCommand command hash r) ;;
  mret r.

Definition Append (command : ThreadCommand) (drafts : list EventDraft) : tx ThreadResult :=
  lift_result (ThreadCommand_Validate command) ;;
  lift_result (fail_if (command.(ThreadCommand_Type) != CommandMessageAppend)
                 (Errorf "Append requires a %q command" [AStr CommandMessageAppend])) ;;
  lift_result (fail_if (length drafts =? 0)%nat (Errorf "at least one event is required" [])) ;;
  hash ← lift_result (hashThreadRequest (RequestDrafts command drafts));
  existing ← query (commandResult command hash);
  match existing with
  | Some existing => mret existing
  | None =>
      row ← query (threadRow command.(ThreadCommand_ThreadID));
      lift_result (expectSequence command.(ThreadCommand_ExpectedSequence) row.(tr_last_sequence)) ;;
      appendDrafts command hash row.(tr_last_sequence) drafts
  end.

Definition AppendTurnEvents (command : ThreadCommand) (expectedTurnID : string) (drafts : list EventDraft)
  : tx ThreadResult :=
  lift_result (ThreadCommand_Validate command) ;;
  lift_result (fail_if (command.(ThreadCommand_Type) != CommandTurnEventAppend)
                 (Errorf "AppendTurnEvents requires a %q command" [AStr CommandTurnEventAppend])) ;;
  lift_result (fail_if (expectedTurnID == "") (Errorf "expected turn ID is required" [])) ;;
  lift_result (fail_if (length drafts =? 0)%nat (Errorf "at least one event is required" [])) ;;
  hash ← lift_result (hashThreadRequest (RequestTurnDrafts command expectedTurnID drafts));
  existing ← query (commandResult command hash);
  match existing with
  | Some existing => mret existing
  | None =>
      row ← query (threadRow command.(ThreadCommand_ThreadID));
      lift_result (fail_if (negb (isActiveActivity row.(tr_activity)) || (row.(tr_active_turn_id) != expectedTurnID))
                     (StaleTurnError row.(tr_active_turn_id) expectedTurnID)) ;;
      lift_result (expectSequence command.(ThreadCommand_ExpectedSequence) row.(tr_last_sequence)) ;;
      appendDrafts command hash row.(tr_last_sequence) drafts
  end.

Definition sequenceOrder (x y : ThreadEvent) : Prop := (x.(ThreadEvent_Sequence) <= y.(ThreadEvent_Sequence))%Z.
#[export] Instance sequenceOrder_dec : RelDecision sequenceOrder.
Proof. intros x y. unfold sequenceOrder. apply _. Defined.

(** [SELECT event_json FROM events WHERE thread_id = ? AND sequence > ? ORDER BY sequence LIMIT ?] *)
Definition eventsAfter (db : ThreadDB) (threadID : string) (after : Z) : list ThreadEvent :=
  merge_sort sequenceOrder (omap (λ p : (string * Z) * ThreadEvent,
      if (p.1.1 == threadID) && (after <? p.1.2)%Z then Some p.2 else None)
    (map_to_list db.(thread_events))).

Definition Thread_Replay (threadID : string) (afterSequence limit : Z) (db : ThreadDB) : result (list ThreadEvent) :=
  fail_if (threadID == "") (Errorf "thread_id is required" []) ;;
  fail_if (limit <? 0)%Z (Errorf "limit cannot be negative" []) ;;
  wrap_err (λ err, Errorf "replay events: %w" [AWrap err]) (bindUint64 afterSequence) ;;
  let events := eventsAfter db threadID afterSequence in
  Ok (if (0 <? limit)%Z then take (Z.to_nat limit) events else events).

(** * Mailboxes: mailbox.go *)

Definition mailboxEvent (type : ThreadEventType) (queueItemID turnID content : string) : EventDraft :=
  mkEventDraft type VisibilityUser Provenance_zero (MailboxPayload queueItemID turnID content).

Definition validateMailboxCommand (command : ThreadCommand) (expected : ThreadCommandType) : result unit :=
  ThreadCommand_Validate command ;;
  fail_if (command.(ThreadCommand_Type) != expected)
    (Errorf "operation requires a %q command" [AStr expected]).

Definition requireActiveTurn (state : MailboxState) (expectedTurnID : string) : result unit :=
  fail_if ((expectedTurnID == "") || negb (isActiveActivity state.(MailboxState_Activity))
           || (state.(MailboxState_ActiveTurnID) != expectedTurnID))
    (StaleTurnError state.(MailboxState_ActiveTurnID) expectedTurnID).

Definition loadMailboxState (threadID : string) (db : ThreadDB) : result MailboxState :=
  row ← threadRow threadID db;
  Ok (mkMailboxState threadID row.(tr_last_sequence) row.(tr_activity) row.(tr_active_turn_id)
        row.(tr_cancel_requested) (loadQueue db threadID) []).

(** [UPDATE threads SET last_sequence = ?, activity = ?, active_turn_id = ?, cancel_requested = ?] *)
Definition saveMailbox (state : MailboxState) (db : ThreadDB) : result ThreadDB :=
  setSequence db state.(MailboxState_ThreadID) state.(MailboxState_LastSequence) (λ row,
    row <| tr_activity := state.(MailboxState_Activity) |>
        <| tr_active_turn_id := state.(MailboxState_ActiveTurnID) |>
        <| tr_cancel_requested := state.(MailboxState_CancelRequested) |>).

(** The body of an operation gets the loaded state and leaves it changed, with the
    drafts of its events. *)
Definition mutateMailbox (command : ThreadCommand) (request : ThreadRequest)
    (mutate : MailboxState → tx (MailboxState * list EventDraft)) : tx MailboxState :=
  hash ← lift_result (hashThreadRequest request);
  existing ← query (storedMailboxResult command hash);
  match existing with
  | Some existing => mret existing
  | None =>
      state ← query (loadMailboxState command.(ThreadCommand_ThreadID));
      lift_result (expectSequence command.(ThreadCommand_ExpectedSequence) state.(MailboxState_LastSequence)) ;;
      '(state, drafts) ← mutate state;
      events ← appendMailboxEvents command.(ThreadCommand_ThreadID) state.(MailboxState_LastSequence) drafts;
      let state := state
        <| MailboxState_LastSequence := u64 (state.(MailboxState_LastSequence) + Z.of_nat (length events)) |>
        <| MailboxState_Events := events |> in
      execute (saveMailbox state) ;;
      queue ← read (λ db, loadQueue db command.(ThreadCommand_ThreadID));
      let state := state <| MailboxState_Queue := queue |> in
      execute (insertMailboxCommand command hash state) ;;
      mret state
  end.

(** A turn started with a message. *)
Definition startTurn (state : MailboxState) (queueItemID content : string) : tx (MailboxState * list EventDraft) :=
  turnID ← randomID "R-";
  mret (state <| MailboxState_Activity := ActivityRunning |> <| MailboxState_ActiveTurnID := turnID |>,
        [mailboxEvent EventMessageAccepted queueItemID turnID content;
         mailboxEvent EventTurnStarted queueItemID turnID ""]).

Definition endTurn (state : MailboxState) : MailboxState :=
  state <| MailboxState_Activity := ActivityIdle |> <| MailboxState_ActiveTurnID := "" |>.

(** A message added to the queue; the id of the item is returned. *)
Definition enqueue (threadID queueItemID : string) (class : QueueClass) (state : QueueItemState) (content : string)
  : tx unit :=
  position ← query (λ db, nextQueuePosition db threadID);
  execute (λ db, insertQueueItem db threadID (mkQueueItem queueItemID position class state content)).

Definition Submit (command : ThreadCommand) (input : MessageInput) : tx MailboxState :=
  lift_result (validateMailboxCommand command CommandMessageSubmit) ;;
  lift_result (QueueClass_Validate input.(MessageInput_Class)) ;;
  mutateMailbox command (RequestMessage command input) (λ state,
    queueItemID ← randomID "Q-";
    if state.(MailboxState_Activity) == ActivityIdle
    then startTurn state queueItemID input.(MessageInput_Content)
    else
      enqueue command.(ThreadCommand_ThreadID) queueItemID input.(MessageInput_Class) QueueItemPending
        input.(MessageInput_Content) ;;
      mret (state, [mailboxEvent EventMessageQueued queueItemID state.(MailboxState_ActiveTurnID)
                      input.(MessageInput_Content)])).

Definition Steer (command : ThreadCommand) (queueItemID expectedTurnID : string) : tx MailboxState :=
  lift_result (validateMailboxCommand command CommandMessageSteer) ;;
  mutateMailbox command (RequestSteer command queueItemID expectedTurnID) (λ state,
    lift_result (requireActiveTurn state expectedTurnID) ;;
    execute (λ db, updatePending db command.(ThreadCommand_ThreadID) queueItemID
      (λ row, row <| pr_class := QueueSteer |>)) ;;
    mret (state, [mailboxEvent EventMessageSteered queueItemID expectedTurnID ""])).

Definition EditQueued (command : ThreadCommand) (queueItemID content : string) : tx MailboxState :=
  lift_result (validateMailboxCommand command CommandMessageEditQueued) ;;
  mutateMailbox command (RequestEdit command queueItemID content) (λ state,
    execute (λ db, updatePending db command.(ThreadCommand_ThreadID) queueItemID
      (λ row, row <| pr_content_json := content |>)) ;;
    mret (state, [mailboxEvent EventMessageQueueEdited queueItemID state.(MailboxState_ActiveTurnID) content])).

Definition SafePoint (command : ThreadCommand) (expectedTurnID : string) : tx MailboxState :=
  lift_result (validateMailboxCommand command CommandSafePoint) ;;
  mutateMailbox command (RequestText command expectedTurnID) (λ state,
    lift_result (requireActiveTurn state expectedTurnID) ;;
    found ← read (λ db, firstQueueItem db command.(ThreadCommand_ThreadID) (λ item, isSteer item && isPending item));
    match found with
    | None => mret (state, [])
    | Some item =>
        execute (λ db, deleteQueueItem db command.(ThreadCommand_ThreadID) item.(QueueItem_QueueItemID)) ;;
        mret (state, [mailboxEvent EventMessageAccepted item.(QueueItem_QueueItemID) expectedTurnID
                        item.(QueueItem_Content)])
    end).

Definition Dequeue (command : ThreadCommand) (queueItemID : string) : tx MailboxState :=
  lift_result (validateMailboxCommand command CommandMessageDequeue) ;;
  mutateMailbox command (RequestText command queueItemID) (λ state,
    execute (λ db, deleteQueueItem db command.(ThreadCommand_ThreadID) queueItemID) ;;
    mret (state, [mailboxEvent EventMessageDequeued queueItemID state.(MailboxState_ActiveTurnID) ""])).

(** What follows the end of a turn: the chosen message starts the next turn, if there
    is one. *)
Definition continueWith (threadID : string) (state : MailboxState) (ended : EventDraft) (found : option QueueItem)
  : tx (MailboxState * list EventDraft) :=
  match found with
  | None => mret (endTurn state, [ended])
  | Some item =>
      execute (λ db, deleteQueueItem db threadID item.(QueueItem_QueueItemID)) ;;
      '(state, drafts) ← startTurn state item.(QueueItem_QueueItemID) item.(QueueItem_Content);
      mret (state, ended :: drafts)
  end.

Definition CompleteTurn (command : ThreadCommand) (expectedTurnID : string) : tx MailboxState :=
  lift_result (validateMailboxCommand command CommandTurnComplete) ;;
  mutateMailbox command (RequestText command expectedTurnID) (λ state,
    lift_result (requireActiveTurn state expectedTurnID) ;;
    lift_result (fail_if state.(MailboxState_CancelRequested)
                   (Errorf "turn %q is settling cancellation" [AStr expectedTurnID])) ;;
    found ← read (λ db, nextPendingInput db command.(ThreadCommand_ThreadID));
    continueWith command.(ThreadCommand_ThreadID) state
      (mailboxEvent EventTurnCompleted "" expectedTurnID "") found).

Definition FailTurn (command : ThreadCommand) (expectedTurnID detail : string) : tx MailboxState :=
  lift_result (validateMailboxCommand command CommandTurnFail) ;;
  mutateMailbox command (RequestFailure command expectedTurnID detail) (λ state,
    lift_result (requireActiveTurn state expectedTurnID) ;;
    mret (state <| MailboxState_Activity := ActivityError |> <| MailboxState_ActiveTurnID := "" |>
                <| MailboxState_CancelRequested := false |>,
          [mkEventDraft EventTurnFailed VisibilityUser Provenance_zero (FailurePayload expectedTurnID detail)])).

Definition alreadyCancelled (state : MailboxState) (turnID : string) : result unit :=
  fail_if state.(MailboxState_CancelRequested)
    (Errorf "turn %q already has cancellation requested" [AStr turnID]).

Definition InterruptAndSubmit (command : ThreadCommand) (expectedTurnID : string) (input : MessageInput)
  : tx MailboxState :=
  lift_result (validateMailboxCommand command CommandTurnInterrupt) ;;
  mutateMailbox command (RequestInterrupt command expectedTurnID input) (λ state,
    lift_result (requireActiveTurn state expectedTurnID) ;;
    lift_result (alreadyCancelled state expectedTurnID) ;;
    queueItemID ← randomID "Q-";
    enqueue command.(ThreadCommand_ThreadID) queueItemID QueueSteer QueueItemInterruptPending
      input.(MessageInput_Content) ;;
    mret (state <| MailboxState_CancelRequested := true |>,
          [mailboxEvent EventTurnCancelRequested queueItemID expectedTurnID "";
           mailboxEvent EventMessageQueued queueItemID expectedTurnID input.(MessageInput_Content)])).

Definition Cancel (command : ThreadCommand) (expectedTurnID : string) : tx MailboxState :=
  lift_result (validateMailboxCommand command CommandTurnCancel) ;;
  mutateMailbox command (RequestText command expectedTurnID) (λ state,
    lift_result (requireActiveTurn state expectedTurnID) ;;
    lift_result (alreadyCancelled state expectedTurnID) ;;
    mret (state <| MailboxState_CancelRequested := true |>,
          [mailboxEvent EventTurnCancelRequested "" expectedTurnID ""])).

Definition SettleCancellation (command : ThreadCommand) (expectedTurnID : string) : tx MailboxState :=
  lift_result (validateMailboxCommand command CommandTurnSettleCancelled) ;;
  mutateMailbox command (RequestText command expectedTurnID) (λ state,
    lift_result (requireActiveTurn state expectedTurnID) ;;
    lift_result (fail_if (negb state.(MailboxState_CancelRequested))
                   (Errorf "turn %q has no cancellation request" [AStr expectedTurnID])) ;;
    found ← read (λ db, firstQueueItem db command.(ThreadCommand_ThreadID)
                          (λ item, item.(QueueItem_State) == QueueItemInterruptPending));
    continueWith command.(ThreadCommand_ThreadID) (state <| MailboxState_CancelRequested := false |>)
      (mailboxEvent EventTurnCancelled "" expectedTurnID "") found).

Definition Mailbox (threadID : string) (db : ThreadDB) : result MailboxState := loadMailboxState threadID db.

(** [SELECT thread_id FROM threads WHERE active_turn_id <> '' ORDER BY thread_id] *)
Definition ActiveMailboxes (db : ThreadDB) : result (list MailboxState) :=
  let ids := merge_sort byteOrder (fst <$> List.filter (λ p : string * ThreadRow, p.2.(tr_active_turn_id) != "")
               (map_to_list db.(threads))) in
  for_each (λ states id, state ← Mailbox id db; Ok (states ++ [state])) [] ids.

(** * Creation with a first message: atomic_create.go *)

(** [validate] replaces the workspace by its canonical path. *)
Definition AtomicCreateInput_validate (input : AtomicCreateInput) : result AtomicCreateInput :=
  let agent := input.(AtomicCreateInput_Agent) in
  ThreadSpec_Validate input.(AtomicCreateInput_Spec) ;;
  workspace ← wrap_err (λ err, Errorf "canonicalize workspace: %w" [AWrap err])
    (filepath_EvalSymlinks (path_Clean input.(AtomicCreateInput_Spec).(ThreadSpec_Workspace)));
  fail_if (negb (filepath_IsAbs workspace)) (Errorf "canonical workspace must be absolute" []) ;;
  let input := input <| AtomicCreateInput_Spec :=
    input.(AtomicCreateInput_Spec) <| ThreadSpec_Workspace := workspace |> |> in
  fail_if (input.(AtomicCreateInput_Project).(ProjectIdentity_ProjectID) == "")
    (Errorf "project.project_id is required" []) ;;
  fail_if ((agent.(Agent_DefinitionID) == "") || (agent.(Agent_Version) == "") || (agent.(Agent_DisplayName) == ""))
    (Errorf "agent definition_id, version, and display_name are required" []) ;;
  fail_if ((agent.(Agent_SystemInstructions) == "") && (agent.(Agent_SystemInstructionsRef) == "")
           && (agent.(Agent_SystemInstructionsDigest) == ""))
    (Errorf "agent system instructions or immutable ref/digest is required" []) ;;
  wrap_err (λ err, Errorf "agent default mode: %w" [AWrap err]) (AgentMode_Validate agent.(Agent_DefaultMode)) ;;
  fail_if ((input.(AtomicCreateInput_InitialMessage) == "")
           || negb (thread_json_Valid input.(AtomicCreateInput_InitialMessage)))
    (Errorf "initial_message must be valid JSON" []) ;;
  Ok input.

Definition createDrafts (input : AtomicCreateInput) (queueItemID turnID : string) : list EventDraft :=
  [ mkEventDraft EventThreadCreated VisibilityUser input.(AtomicCreateInput_Provenance) (CreatePayload input);
    mailboxEvent EventMessageAccepted queueItemID turnID input.(AtomicCreateInput_InitialMessage)
      <| EventDraft_Provenance := input.(AtomicCreateInput_Provenance) |>;
    mailboxEvent EventTurnStarted queueItemID turnID ""
      <| EventDraft_Provenance := input.(AtomicCreateInput_Provenance) |> ].

Definition atomicThreadRow (input : AtomicCreateInput) (turnID : string) : ThreadRow :=
  let spec := input.(AtomicCreateInput_Spec) in
  mkThreadRow 3 ActivityRunning turnID false spec.(ThreadSpec_Title) spec.(ThreadSpec_Workspace)
    spec.(ThreadSpec_Mode) spec.(ThreadSpec_Executor).(ExecutorTarget_Type)
    spec.(ThreadSpec_Executor).(ExecutorTarget_RunnerID) input.(AtomicCreateInput_Project)
    input.(AtomicCreateInput_Agent) input.(AtomicCreateInput_Provenance).

Definition CreateAtomicThread (command : ThreadCommand) (input : AtomicCreateInput) (now : Time)
  : tx MailboxState :=
  lift_result (ThreadCommand_Validate command) ;;
  lift_result (fail_if (command.(ThreadCommand_Type) != CommandThreadCreate)
                 (Errorf "CreateAtomicThread requires a %q command" [AStr CommandThreadCreate])) ;;
  input ← lift_result (AtomicCreateInput_validate input);
  hash ← lift_result (hashThreadRequest (RequestCreate command input));
  existing ← query (storedMailboxResult command hash);
  match existing with
  | Some existing => mret existing
  | None =>
      threadID ← randomID "T-";
      turnID ← randomID "R-";
      queueItemID ← randomID "Q-";
      execute (λ db, wrap_err (λ err, Errorf "insert atomic thread: %w" [AWrap err])
        (insertThread db threadID (atomicThreadRow input turnID))) ;;
      let now := time_RFC3339Nano (Time_UTC now) in
      execute (λ db, wrap_err (λ err, Errorf "insert atomic thread catalog entry: %w" [AWrap err])
        (insertCatalog db threadID
           (mkCatalogRow input.(AtomicCreateInput_Project).(ProjectIdentity_ProjectID) now now None 1))) ;;
      events ← appendMailboxEvents threadID 0 (createDrafts input queueItemID turnID);
      let state := mkMailboxState threadID 3 ActivityRunning turnID false [] events in
      execute (λ db, wrap_err (λ err, Errorf "insert atomic create command: %w" [AWrap err])
        (insertMailboxCommand (command <| ThreadCommand_ThreadID := threadID |>) hash state db)) ;;
      mret state
  end.

(** * Compaction: compaction.go *)

Definition MaxCompactionSummaryBytes : Z := 65536.

(** [SELECT COALESCE(MAX(through_sequence), 0) FROM compactions WHERE thread_id = ?] *)
Definition previousBoundary (db : ThreadDB) (threadID : string) : Z :=
  foldr (λ r most, Z.max r.(CompactionRecord_ThroughSequence) most) 0%Z (compactionsOf db threadID).

Definition RecordCompaction (command : ThreadCommand) (input : CompactionInput) : tx CompactionRecord :=
  let through := input.(CompactionInput_ThroughSequence) in
  let threadID := command.(ThreadCommand_ThreadID) in
  lift_result (ThreadCommand_Validate command) ;;
  lift_result (fail_if (command.(ThreadCommand_Type) != CommandThreadCompact)
                 (Errorf "RecordCompaction requires a %q command" [AStr CommandThreadCompact])) ;;
  lift_result (fail_if ((through =? 0)%Z || (strings_TrimSpace input.(CompactionInput_Summary) == ""))
                 (Errorf "compaction boundary and summary are required" [])) ;;
  lift_result (fail_if (MaxCompactionSummaryBytes <? Z.of_nat (String.length input.(CompactionInput_Summary)))%Z
                 (Errorf "compaction summary exceeds %d bytes" [AInt MaxCompactionSummaryBytes])) ;;
  let draft := mkEventDraft EventCompactionRecorded VisibilityAudit Provenance_zero (CompactionPayload input) in
  hash ← lift_result (hashThreadRequest (RequestDrafts command [draft]));
  existing ← query (commandResult command hash);
  match existing with
  | Some existing =>
      match existing.(ThreadResult_Events) with
      | [event] => mret (mkCompactionRecord event.(ThreadEvent_EventID) threadID event.(ThreadEvent_Sequence)
                           through input.(CompactionInput_Summary))
      | _ => lift_result (Err (Errorf "stored compaction result is malformed" []))
      end
  | None =>
      row ← query (threadRow threadID);
      let lastSequence := row.(tr_last_sequence) in
      lift_result (fail_if (lastSequence <? through)%Z
        (Errorf "compaction boundary %d exceeds thread sequence %d" [AInt through; AInt lastSequence])) ;;
      previous ← read (λ db, previousBoundary db threadID);
      lift_result (fail_if (through <=? previous)%Z
        (Errorf "compaction boundary %d does not advanceSequence past %d" [AInt through; AInt previous])) ;;
      event ← appendThreadEvent threadID (u64 (lastSequence + 1)) draft;
      let sequence := event.(ThreadEvent_Sequence) in
      execute (λ db, wrap_err (λ err, Errorf "insert compaction: %w" [AWrap err])
        (insertCompaction db threadID event.(ThreadEvent_EventID)
           (mkCompactionRow sequence through input.(CompactionInput_Summary)))) ;;
      advanceSequence threadID sequence ;;
      execute (insertCommand command hash (mkThreadResult threadID sequence [event])) ;;
      mret (mkCompactionRecord event.(ThreadEvent_EventID) threadID sequence through input.(CompactionInput_Summary))
  end.

(** [ORDER BY event_sequence DESC LIMIT 1]; no two compactions of a thread have the
    same event. *)
Definition latestCompaction (db : ThreadDB) (threadID : string) : option CompactionRecord :=
  foldr (λ r latest, match latest with
      | Some l => if (l.(CompactionRecord_EventSequence) <? r.(CompactionRecord_EventSequence))%Z then Some r else latest
      | None => Some r
      end) None (compactionsOf db threadID).

Definition Store_ContextProjection (threadID : string) (db : ThreadDB) : result ContextProjection :=
  let latest := latestCompaction db threadID in
  let after := match latest with Some r => r.(CompactionRecord_ThroughSequence) | None => 0%Z end in
  events ← Thread_Replay threadID after 0 db;
  Ok (mkContextProjection latest
        (List.filter (λ event, event.(ThreadEvent_Type) != EventCompactionRecorded) events)).

(** * Dialogs: dialog.go *)

(** The event of a dialog, under a new id. *)
Definition dialogEvent (threadID : string) (sequence : Z) (type : ThreadEventType) (payload : Payload)
  : tx ThreadEvent :=
  appendThreadEvent threadID sequence (mkEventDraft type VisibilityInternal Provenance_zero payload).

Definition findDialogByCorrelation (input : CreateDialogInput) (db : ThreadDB) : option PluginDialog :=
  List.find (sameInvocation input.(CreateDialogInput_ThreadID) input.(CreateDialogInput_TurnID)
               input.(CreateDialogInput_PluginID) input.(CreateDialogInput_Generation)
               input.(CreateDialogInput_InvocationID))
    (snd <$> map_to_list db.(plugin_dialogs)).

Definition CreatePendingDialog (input : CreateDialogInput) : tx PluginDialog :=
  let threadID := input.(CreateDialogInput_ThreadID) in
  lift_result (fail_if ((threadID == "") || (input.(CreateDialogInput_TurnID) == "")
                        || (input.(CreateDialogInput_PluginID) == "") || (input.(CreateDialogInput_InvocationID) == "")
                        || (input.(CreateDialogInput_RequestType) == "") || Time_IsZero input.(CreateDialogInput_Deadline))
                 (Errorf "thread, turn, plugin, invocation, deadline, and request type are required" [])) ;;
  lift_result (fail_if (negb (thread_json_Valid input.(CreateDialogInput_Request)))
                 (Errorf "request must be valid JSON" [])) ;;
  query (λ _, bindUint64 input.(CreateDialogInput_Generation)) ;;
  found ← read (findDialogByCorrelation input);
  match found with
  | Some existing =>
      if (existing.(PluginDialog_Deadline) =? input.(CreateDialogInput_Deadline))%Z
         && (existing.(PluginDialog_RequestType) == input.(CreateDialogInput_RequestType))
         && (existing.(PluginDialog_Request) == input.(CreateDialogInput_Request))
      then mret existing
      else lift_result (Err (Errorf "plugin invocation already has a different dialog" []))
  | None =>
      row ← query (threadRow threadID);
      let sequence := row.(tr_last_sequence) in
      lift_result (fail_if (row.(tr_active_turn_id) != input.(CreateDialogInput_TurnID))
        (Errorf "dialog turn %q is not the active turn %q"
           [AStr input.(CreateDialogInput_TurnID); AStr row.(tr_active_turn_id)])) ;;
      lift_result (expectSequence input.(CreateDialogInput_ExpectedSequence) sequence) ;;
      id ← randomID "D-";
      let dialog := mkPluginDialog id threadID input.(CreateDialogInput_TurnID) input.(CreateDialogInput_PluginID)
        input.(CreateDialogInput_Generation) input.(CreateDialogInput_InvocationID)
        (Time_UTC input.(CreateDialogInput_Deadline)) input.(CreateDialogInput_RequestType)
        input.(CreateDialogInput_Request) DialogPending 1 (u64 (sequence + 1)) 0 "" "" in
      event ← dialogEvent threadID (u64 (sequence + 1)) EventPluginDialogRequested (DialogPayload dialog);
      execute (λ db, wrap_err (λ err, Errorf "insert plugin dialog: %w" [AWrap err]) (insertDialog db dialog)) ;;
      execute (λ db, setSequence db threadID event.(ThreadEvent_Sequence)
                 (λ row, row <| tr_activity := ActivityAwaitingApproval |>)) ;;
      mret dialog
  end.

Definition pendingCount (threadID : string) (db : ThreadDB) : nat :=
  length (List.filter (λ d, (d.(PluginDialog_ThreadID) == threadID) && (d.(PluginDialog_State) == DialogPending))
            (snd <$> map_to_list db.(plugin_dialogs))).

Definition ResolveDialog (input : ResolveDialogInput) : tx PluginDialog :=
  let dialogID := input.(ResolveDialogInput_DialogID) in
  lift_result (fail_if ((dialogID == "") || (input.(ResolveDialogInput_ResolverID) == "")
                        || (input.(ResolveDialogInput_ExpectedRevision) =? 0)%Z
                        || negb (thread_json_Valid input.(ResolveDialogInput_Response)))
                 (Errorf "dialog, resolver, expected revision, and valid response JSON are required" [])) ;;
  d ← query (λ db, non_nil (db.(plugin_dialogs) !! dialogID) (Errorf "dialog %q does not exist" [AStr dialogID]));
  if d.(PluginDialog_State) == DialogResolved then
    if (d.(PluginDialog_ResolverID) == input.(ResolveDialogInput_ResolverID))
       && (d.(PluginDialog_Response) == input.(ResolveDialogInput_Response))
    then mret d
    else lift_result (Err (Errorf "dialog %q is already resolved" [AStr dialogID]))
  else
  lift_result (fail_if (negb (d.(PluginDialog_Revision) =? input.(ResolveDialogInput_ExpectedRevision))%Z)
    (Errorf "dialog revision is %d, expected %d"
       [AInt d.(PluginDialog_Revision); AInt input.(ResolveDialogInput_ExpectedRevision)])) ;;
  row ← query (threadRow d.(PluginDialog_ThreadID));
  let sequence := row.(tr_last_sequence) in
  lift_result (expectSequence input.(ResolveDialogInput_ExpectedSequence) sequence) ;;
  let d := d <| PluginDialog_State := DialogResolved |>
    <| PluginDialog_Revision := u64 (d.(PluginDialog_Revision) + 1) |>
    <| PluginDialog_ResolverID := input.(ResolveDialogInput_ResolverID) |>
    <| PluginDialog_Response := input.(ResolveDialogInput_Response) |>
    <| PluginDialog_ResolvedSequence := u64 (sequence + 1) |> in
  dialogEvent d.(PluginDialog_ThreadID) d.(PluginDialog_ResolvedSequence) EventPluginDialogResolved
    (ResolutionPayload d.(PluginDialog_DialogID) d.(PluginDialog_Revision) d.(PluginDialog_ResolverID)
       d.(PluginDialog_Response)) ;;
  execute (λ db, bindUint64 d.(PluginDialog_Revision) ;; bindUint64 d.(PluginDialog_ResolvedSequence) ;;
    Ok (db <| plugin_dialogs := <[dialogID := d]> db.(plugin_dialogs) |>)) ;;
  pending ← read (pendingCount d.(PluginDialog_ThreadID));
  execute (λ db, setSequence db d.(PluginDialog_ThreadID) d.(PluginDialog_ResolvedSequence) (λ row,
    if (pending =? 0)%nat && (row.(tr_active_turn_id) == d.(PluginDialog_TurnID))
       && (row.(tr_activity) == ActivityAwaitingApproval)
    then row <| tr_activity := ActivityRunning |> else row)) ;;
  mret d.

Definition Store_Dialog (dialogID : string) (db : ThreadDB) : result PluginDialog :=
  fail_if (dialogID == "") (Errorf "dialog_id is required" []) ;;
  non_nil (db.(plugin_dialogs) !! dialogID) (Errorf "dialog %q does not exist" [AStr dialogID]).

(** [ORDER BY requested_sequence, dialog_id] *)
Definition dialogOrder (x y : PluginDialog) : Prop :=
  (x.(PluginDialog_RequestedSequence) < y.(PluginDialog_RequestedSequence))%Z ∨
  x.(PluginDialog_RequestedSequence) = y.(PluginDialog_RequestedSequence) ∧
  byteOrder x.(PluginDialog_DialogID) y.(PluginDialog_DialogID).
#[export] Instance dialogOrder_dec : RelDecision dialogOrder.
Proof. intros x y. unfold dialogOrder. apply _. Defined.

Definition listDialogs (threadID : string) (pending : bool) (db : ThreadDB) : result (list PluginDialog) :=
  fail_if (threadID == "") (Errorf "thread_id is required" []) ;;
  Ok (merge_sort dialogOrder (List.filter (λ d, (d.(PluginDialog_ThreadID) == threadID)
        && (negb pending || (d.(PluginDialog_State) == DialogPending))) (snd <$> map_to_list db.(plugin_dialogs)))).
Definition ListPendingDialogs (threadID : string) : ThreadDB → result (list PluginDialog) := listDialogs threadID true.
Definition ListDialogs (threadID : string) : ThreadDB → result (list PluginDialog) := listDialogs threadID false.

(** [ORDER BY thread_id, requested_sequence, dialog_id] *)
Definition dialogOrderAcross (x y : PluginDialog) : Prop :=
  String.ltb x.(PluginDialog_ThreadID) y.(PluginDialog_ThreadID) = true ∨
  x.(PluginDialog_ThreadID) = y.(PluginDialog_ThreadID) ∧ dialogOrder x y.
#[export] Instance dialogOrderAcross_dec : RelDecision dialogOrderAcross.
Proof. intros x y. unfold dialogOrderAcross. apply _. Defined.

Definition listPendingDialogsWhere (predicate : PluginDialog → bool) (db : ThreadDB) : list PluginDialog :=
  merge_sort dialogOrderAcross (List.filter (λ d, predicate d && (d.(PluginDialog_State) == DialogPending))
    (snd <$> map_to_list db.(plugin_dialogs))).
Definition ListPendingDialogsByGeneration (generation : Z) : ThreadDB → list PluginDialog :=
  listPendingDialogsWhere (λ d, (d.(PluginDialog_Generation) =? generation)%Z).
Definition ListAllPendingDialogs : ThreadDB → list PluginDialog := listPendingDialogsWhere (λ _, true).

(** * The catalog: thread_catalog.go *)

Definition ThreadCatalogSchemaVersion : Z := 1.
Definition MaxThreadCatalogPageSize : Z := 100.
Definition MaxThreadCatalogSearchBytes : Z := 256.
Definition maxThreadCatalogCursorBytes : Z := 2048.

(** [validate] trims the project and the search term. *)
Definition ThreadCatalogQuery_validate (query : ThreadCatalogQuery) : result ThreadCatalogQuery :=
  let query := query
    <| ThreadCatalogQuery_ProjectID := strings_TrimSpace query.(ThreadCatalogQuery_ProjectID) |>
    <| ThreadCatalogQuery_Search := strings_TrimSpace query.(ThreadCatalogQuery_Search) |> in
  fail_if (query.(ThreadCatalogQuery_ProjectID) == "") (Errorf "project_id is required" []) ;;
  fail_if (MaxThreadCatalogSearchBytes <? Z.of_nat (String.length query.(ThreadCatalogQuery_Search)))%Z
    (Errorf "search exceeds %d bytes" [AInt MaxThreadCatalogSearchBytes]) ;;
  fail_if (negb (existsb (String.eqb query.(ThreadCatalogQuery_Archive)) [ArchiveActive; ArchiveArchived; ArchiveAll]))
    (Errorf "archive must be %q, %q, or %q" [AStr ArchiveActive; AStr ArchiveArchived; AStr ArchiveAll]) ;;
  fail_if ((query.(ThreadCatalogQuery_Limit) <? 1)%Z || (MaxThreadCatalogPageSize <? query.(ThreadCatalogQuery_Limit))%Z)
    (Errorf "limit must be between 1 and %d" [AInt MaxThreadCatalogPageSize]) ;;
  fail_if (maxThreadCatalogCursorBytes <? Z.of_nat (String.length query.(ThreadCatalogQuery_Cursor)))%Z
    (Errorf "cursor exceeds %d bytes" [AInt maxThreadCatalogCursorBytes]) ;;
  Ok query.

Definition decodeThreadCatalogCursor (query : ThreadCatalogQuery) : result (option threadCatalogCursor) :=
  if query.(ThreadCatalogQuery_Cursor) == "" then Ok None else
  cursor ← wrap_err (λ err, Errorf "decode thread catalog cursor: %w" [AWrap err])
    (decodeCursor query.(ThreadCatalogQuery_Cursor));
  fail_if (negb (cursor.(threadCatalogCursor_SchemaVersion) =? ThreadCatalogSchemaVersion)%Z
           || (cursor.(threadCatalogCursor_ProjectID) != query.(ThreadCatalogQuery_ProjectID))
           || (cursor.(threadCatalogCursor_Search) != strings_ToLower query.(ThreadCatalogQuery_Search))
           || (cursor.(threadCatalogCursor_Archive) != query.(ThreadCatalogQuery_Archive))
           || (cursor.(threadCatalogCursor_ThreadID) == ""))
    (Errorf "thread catalog cursor does not match query" []) ;;
  Ok (Some cursor).

Definition encodeThreadCatalogCursor (query : ThreadCatalogQuery) (entry : ThreadCatalogEntry) : string :=
  encodeCursor (mkthreadCatalogCursor ThreadCatalogSchemaVersion query.(ThreadCatalogQuery_ProjectID)
    (strings_ToLower query.(ThreadCatalogQuery_Search)) query.(ThreadCatalogQuery_Archive)
    entry.(ThreadCatalogEntry_UpdatedAt) entry.(ThreadCatalogEntry_ThreadID)).

(** SQLite's [lower], which changes the letters of ASCII only. *)
Fixpoint sqlite_lower (s : string) : string :=
  match s with
  | EmptyString => ""
  | String c s =>
      String (if between 65 90 c then Ascii.ascii_of_nat (Ascii.nat_of_ascii c + 32) else c) (sqlite_lower s)
  end.

(** [FROM thread_catalog c JOIN threads t] *)
Definition catalogEntry (threadID : string) (c : CatalogRow) (t : ThreadRow) : ThreadCatalogEntry :=
  mkThreadCatalogEntry threadID c.(ca_project_id) t.(tr_title) t.(tr_workspace) t.(tr_last_sequence)
    t.(tr_activity) c.(ca_created_at) c.(ca_updated_at) (is_Some_b c.(ca_archived_at))
    (default "" c.(ca_archived_at)).
Definition catalogEntries (db : ThreadDB) : list ThreadCatalogEntry :=
  omap (λ p : string * CatalogRow, catalogEntry p.1 p.2 <$> db.(threads) !! p.1) (map_to_list db.(thread_catalog)).

(** The [WHERE] clause without the cursor, and the cursor's part of it. *)
Definition catalogMatches (query : ThreadCatalogQuery) (entry : ThreadCatalogEntry) : bool :=
  (entry.(ThreadCatalogEntry_ProjectID) == query.(ThreadCatalogQuery_ProjectID))
  && strings_Contains (sqlite_lower entry.(ThreadCatalogEntry_Title)) (sqlite_lower query.(ThreadCatalogQuery_Search))
  && (if query.(ThreadCatalogQuery_Archive) == ArchiveActive then negb entry.(ThreadCatalogEntry_Archived)
      else if query.(ThreadCatalogQuery_Archive) == ArchiveArchived then entry.(ThreadCatalogEntry_Archived)
      else true).

(** [(updated_at, thread_id)], later keys first. *)
Definition keyBefore (updated1 thread1 updated2 thread2 : string) : bool :=
  String.ltb updated1 updated2 || ((updated1 == updated2) && String.ltb thread1 thread2).
Definition catalogOrder (x y : ThreadCatalogEntry) : Prop :=
  keyBefore x.(ThreadCatalogEntry_UpdatedAt) x.(ThreadCatalogEntry_ThreadID)
    y.(ThreadCatalogEntry_UpdatedAt) y.(ThreadCatalogEntry_ThreadID) = false.
#[export] Instance catalogOrder_dec : RelDecision catalogOrder.
Proof. intros x y. unfold catalogOrder. apply _. Defined.

Definition afterCursor (cursor : option threadCatalogCursor) (entry : ThreadCatalogEntry) : bool :=
  match cursor with
  | None => true
  | Some cursor => keyBefore entry.(ThreadCatalogEntry_UpdatedAt) entry.(ThreadCatalogEntry_ThreadID)
                     cursor.(threadCatalogCursor_UpdatedAt) cursor.(threadCatalogCursor_ThreadID)
  end.

(** The page past the validation of the query and [ensureThreadCatalog]. *)
Definition catalogPage (query : ThreadCatalogQuery) (db : ThreadDB) : result ThreadCatalogPage :=
  cursor ← decodeThreadCatalogCursor query;
  let matching := List.filter (λ entry, catalogMatches query entry && afterCursor cursor entry) (catalogEntries db) in
  let limit := Z.to_nat query.(ThreadCatalogQuery_Limit) in
  let entries := take (limit + 1) (merge_sort catalogOrder matching) in
  if (limit <? length entries)%nat then
    let page := take limit entries in
    match last page with
    | Some entry => Ok (mkThreadCatalogPage ThreadCatalogSchemaVersion page (encodeThreadCatalogCursor query entry))
    | None => Panic
    end
  else Ok (mkThreadCatalogPage ThreadCatalogSchemaVersion entries "").

Definition SearchThreadCatalog (query : ThreadCatalogQuery) (db : ThreadDB) : ThreadDB * result ThreadCatalogPage :=
  match ThreadCatalogQuery_validate query with
  | Ok query => let db := ensureThreadCatalog db in (db, catalogPage query db)
  | Err err => (db, Err err)
  | Panic => (db, Panic)
  end.

(** The transaction of [setThreadArchived]. *)
Definition archiveTx (command : ThreadCommand) (archived : bool) (now : Time) : tx ThreadResult :=
  let threadID := command.(ThreadCommand_ThreadID) in
  let type := if archived then EventThreadArchived else EventThreadUnarchived in
  let request := mkEventDraft type VisibilityUser Provenance_zero (ArchivePayload archived "") in
  hash ← lift_result (hashThreadRequest (RequestDrafts command [request]));
  existing ← query (commandResult command hash);
  match existing with
  | Some existing => mret existing
  | None =>
      row ← query (threadRow threadID);
      entry ← query (λ db, non_nil (db.(thread_catalog) !! threadID) (threadMissing threadID));
      let lastSequence := row.(tr_last_sequence) in
      lift_result (expectSequence command.(ThreadCommand_ExpectedSequence) lastSequence) ;;
      lift_result (fail_if (Bool.eqb (is_Some_b entry.(ca_archived_at)) archived)
        (Errorf "thread %q is already %s" [AStr threadID; AStr (if archived then "archived" else "active")])) ;;
      let now := time_RFC3339Nano (Time_UTC now) in
      event ← appendThreadEvent threadID (u64 (lastSequence + 1))
                (mkEventDraft type VisibilityUser Provenance_zero (ArchivePayload archived now));
      let sequence := event.(ThreadEvent_Sequence) in
      advanceSequence threadID sequence ;;
      execute (λ db, Ok (db <| thread_catalog := <[threadID :=
        mkCatalogRow entry.(ca_project_id) entry.(ca_created_at) now (if archived then Some now else None)
          (entry.(ca_revision) + 1)]> db.(thread_catalog) |>)) ;;
      let r := mkThreadResult threadID sequence [event] in
      execute (insertCommand command hash r) ;;
      mret r
  end.

Definition setThreadArchived (command : ThreadCommand) (archived : bool) (now : Time) (ids : list string)
    (db : ThreadDB) : ThreadDB * result ThreadResult :=
  let want := if archived then CommandThreadArchive else CommandThreadUnarchive in
  match
    ThreadCommand_Validate command ;;
    fail_if (command.(ThreadCommand_Type) != want) (Errorf "archive mutation requires a %q command" [AStr want]) ;;
    fail_if (negb (is_Some_b command.(ThreadCommand_ExpectedSequence)))
      (Errorf "expected_sequence is required for %s" [AStr want])
  with
  | Ok _ => runTx (archiveTx command archived now) ids (ensureThreadCatalog db)
  | Err err => (db, Err err)
  | Panic => (db, Panic)
  end.

Definition ArchiveThread (command : ThreadCommand) := setThreadArchived command true.
Definition UnarchiveThread (command : ThreadCommand) := setThreadArchived command false.

End store.
