(* ===== verification/ThreadState.v ===== *)
(** What the tables of the thread store say about a thread: its row, its log and its
    queue, related to an abstract mailbox; and what each statement does to them. *)
From stdpp Require Import sorting.
From S2P Require Import Prelude Sql ThreadData MailboxSpec ThreadTables ThreadStore.

(** * The log and the queue *)

Definition log_is (db : ThreadDB) (id : string) (l : list ThreadEvent) : Prop :=
  ∀ v, db.(thread_events) !! (id, v) = if decide (1 ≤ v)%Z then l !! Z.to_nat (v - 1) else None.

Definition earlier (x y : QueueItem) : Prop := (x.(QueueItem_Position) < y.(QueueItem_Position))%Z.

Record queue_is (db : ThreadDB) (id : string) (queue : list QueueItem) : Prop := {
  qu_sorted : StronglySorted earlier queue;
  qu_rows : ∀ q row, db.(pending_inputs) !! (id, q) = Some row ↔ queueItem q row ∈ queue;
}.

Lemma queueItem_of item : queueItem (id_of item) (pendingRow item) = item.
Proof. by destruct item. Qed.

Lemma sorted_before {A} (R : A → A → Prop) l x y :
  StronglySorted R l → x ∈ l → y ∈ l → x = y ∨ R x y ∨ R y x.
Proof.
  induction 1 as [|z l Hl IH Hz]; [by intros ?%elem_of_nil|]. rewrite Forall_forall in Hz.
  intros [->|Hx]%elem_of_cons [->|Hy]%elem_of_cons; auto.
Qed.

Lemma earlier_irreflexive queue : StronglySorted earlier queue → NoDup queue.
Proof.
  induction 1 as [|x l Hl IH Hx]; constructor; [|done]. intros Hin. rewrite Forall_forall in Hx.
  specialize (Hx _ Hin). unfold earlier in Hx. lia.
Qed.

Lemma queue_row db id queue item :
  queue_is db id queue → item ∈ queue ↔ db.(pending_inputs) !! (id, id_of item) = Some (pendingRow item).
Proof. intros [_ Hr]. by rewrite Hr, queueItem_of. Qed.

Lemma queue_same_id db id queue x y : queue_is db id queue → x ∈ queue → y ∈ queue → id_of x = id_of y → x = y.
Proof.
  intros Hq Hx%(queue_row _ _ _ _ Hq) Hy%(queue_row _ _ _ _ Hq) E.
  rewrite <- (queueItem_of x), <- (queueItem_of y), E. f_equal. congruence.
Qed.

Lemma queue_ids db id queue : queue_is db id queue → NoDup (id_of <$> queue).
Proof.
  intros Hq. apply NoDup_fmap_2_strong; [|by eapply earlier_irreflexive, qu_sorted].
  intros x y Hx Hy E. by eapply queue_same_id.
Qed.

Lemma sorted_weaken queue : StronglySorted earlier queue → StronglySorted positionOrder queue.
Proof.
  induction 1 as [|x l Hl IH Hx]; constructor; [done|]. rewrite Forall_forall in Hx |- *. intros y Hy.
  specialize (Hx y Hy). unfold earlier, positionOrder in *. lia.
Qed.

#[export] Instance positionOrder_trans : Transitive positionOrder.
Proof. intros x y z. unfold positionOrder. lia. Qed.
#[export] Instance positionOrder_total : Total positionOrder.
Proof. intros x y. unfold positionOrder. lia. Qed.

(** Two sorted lists of the same elements, when the order tells them apart. *)
Lemma merge_sort_listing {A} (R : A → A → Prop) `{!RelDecision R, !Transitive R, !Total R} (l l' : list A) :
  (∀ x y, x ∈ l' → y ∈ l' → R x y → R y x → x = y) → StronglySorted R l' → NoDup l → NoDup l' →
  (∀ x, x ∈ l ↔ x ∈ l') → merge_sort R l = l'.
Proof.
  intros Ha Hs Hn Hn' He. apply (StronglySorted_unique_strong R).
  - intros x y Hx Hy. rewrite merge_sort_Permutation, He in Hx. by apply Ha.
  - by apply StronglySorted_merge_sort.
  - done.
  - rewrite merge_sort_Permutation. by apply NoDup_Permutation.
Qed.

Lemma NoDup_omap_rows {K V A} `{Countable K} (f : K * V → option A) (m : gmap K V) :
  (∀ k v k' v' x, m !! k = Some v → m !! k' = Some v' → f (k, v) = Some x → f (k', v') = Some x → k = k') →
  NoDup (omap f (map_to_list m)).
Proof.
  intros Hf. assert (NoDup (map_to_list m).*1) as Hnd by apply NoDup_fst_map_to_list.
  assert (∀ k v, (k, v) ∈ map_to_list m → m !! k = Some v) as Hm by (intros; by apply elem_of_map_to_list).
  induction (map_to_list m) as [|[k v] l IH]; [constructor|]. cbn in *.
  apply NoDup_cons in Hnd as [Hk Hnd]. specialize (IH Hnd ltac:(intros; apply Hm; by right)).
  destruct (f (k, v)) as [x|] eqn:E; [|done]. constructor; [|done].
  intros ([k' v'] & Hin & E')%list_elem_of_omap. apply Hk.
  rewrite (Hf k v k' v' x); [|apply Hm; by left|apply Hm; by right|done..].
  apply list_elem_of_fmap. by exists (k', v').
Qed.

Lemma loadQueue_is db id queue : queue_is db id queue → loadQueue db id = queue.
Proof.
  intros Hq. unfold loadQueue. apply merge_sort_listing; [apply _..| | | | |].
  - intros x y Hx Hy Hxy Hyx. destruct (sorted_before _ _ x y (qu_sorted _ _ _ Hq) Hx Hy) as [|[E|E]]; [done|..];
      unfold positionOrder, earlier in *; lia.
  - by eapply sorted_weaken, qu_sorted.
  - apply NoDup_omap_rows. intros [i q] row [i' q'] row' x _ _. cbn.
    destruct (String.eqb_spec i id), (String.eqb_spec i' id); [|done..]. intros [= <-] [= E]. by subst.
  - by eapply earlier_irreflexive, qu_sorted.
  - intros item. rewrite list_elem_of_omap, (queue_row _ _ _ _ Hq). split.
    + intros ([[i q] row] & Hin%elem_of_map_to_list & E). cbn in *. destruct (String.eqb_spec i id) as [->|]; [|done].
      injection E as <-. cbn. by destruct row.
    + intros Hin. exists ((id, id_of item), pendingRow item). rewrite elem_of_map_to_list. split; [done|].
      cbn. by rewrite String.eqb_refl, queueItem_of.
Qed.

Lemma after_all_bound queue item : item ∈ queue → (item.(QueueItem_Position) < after_all queue)%Z.
Proof.
  unfold after_all. induction queue as [|x queue IH]; [by intros ?%elem_of_nil|]. cbn.
  intros [->|Hin]%elem_of_cons; [|specialize (IH Hin)]; lia.
Qed.

Lemma nextQueuePosition_is db id queue p :
  queue_is db id queue → nextQueuePosition db id = Ok p → p = after_all queue.
Proof. intros Hq. unfold nextQueuePosition. rewrite (loadQueue_is _ _ _ Hq). unfold after_all. intros H. by inv_ok. Qed.

Lemma firstQueueItem_is db id queue f : queue_is db id queue → firstQueueItem db id f = List.find f queue.
Proof. intros Hq. unfold firstQueueItem. by rewrite (loadQueue_is _ _ _ Hq). Qed.

Lemma nextPendingInput_is db id queue : queue_is db id queue → nextPendingInput db id = next queue.
Proof.
  intros Hq. unfold nextPendingInput, next. rewrite !(firstQueueItem_is _ _ _ _ Hq). done.
Qed.

(** * Statements on the queue *)

(** Only the waiting messages of the thread differ. *)
Definition requeued (db db' : ThreadDB) (id : string) : Prop :=
  db' = db <| pending_inputs := db'.(pending_inputs) |> ∧
  ∀ id' q, id' ≠ id → db'.(pending_inputs) !! (id', q) = db.(pending_inputs) !! (id', q).

Lemma requeued_refl db id : requeued db db id.
Proof. split; [by destruct db|done]. Qed.

Ltac inv_sql :=
  repeat (progress (inv_ok; repeat match goal with
  | H : checkConstraint _ _ = Ok _ |- _ => apply checkConstraint_Ok in H
  | H : bindUint64 _ = Ok _ |- _ => apply bindUint64_Ok in H
  | H : threadExists _ _ = Ok _ |- _ => apply checkConstraint_Ok in H
  | H : unused _ _ _ = Ok _ |- _ => apply checkConstraint_Ok, negb_true_iff in H
  end)).

Lemma is_Some_b_none {A} (o : option A) : is_Some_b o = false ↔ o = None.
Proof. by destruct o. Qed.
Lemma is_Some_b_some {A} (o : option A) : is_Some_b o = true ↔ is_Some o.
Proof. destruct o; cbn; split; [by eauto|done|done|by intros [? ?]]. Qed.

Lemma insertQueueItem_is db id item db' queue :
  insertQueueItem db id item = Ok db' → queue_is db id queue → item.(QueueItem_Position) = after_all queue →
  requeued db db' id ∧ queue_is db' id (queue ++ [item]).
Proof.
  unfold insertQueueItem. intros H Hq Hp. inv_sql. split.
  { split; [done|]. intros id' q Hne. cbn. by rewrite lookup_insert_ne by congruence. }
  match goal with H : is_Some_b (pending_inputs _ !! _) = _ |- _ => apply is_Some_b_none in H; rename H into Hnone end.
  split.
  - assert (∀ x, x ∈ queue → earlier x item) as Hall.
    { intros x Hx. unfold earlier. rewrite Hp. by apply after_all_bound. }
    pose proof (qu_sorted _ _ _ Hq) as Hs. clear - Hs Hall. induction Hs as [|x l Hl IH Hx]; cbn.
    + by repeat constructor.
    + constructor; [apply IH; intros; apply Hall; by right|]. rewrite Forall_forall in Hx |- *.
      intros y [Hy| ->%list_elem_of_singleton]%elem_of_app; [by apply Hx|]. apply Hall. by left.
  - intros q row. cbn [pending_inputs]. cbn. rewrite lookup_insert. case_decide as E.
    + injection E as <-. split.
      * intros [= <-]. rewrite queueItem_of. set_solver.
      * intros [Hin| E%list_elem_of_singleton]%elem_of_app; [|by rewrite <- E; destruct row].
        apply (qu_rows _ _ _ Hq) in Hin. unfold id_of in *. congruence.
    + rewrite (qu_rows _ _ _ Hq). split; [set_solver|]. intros [Hin|Hin%list_elem_of_singleton]%elem_of_app; [done|].
      exfalso. apply E. by rewrite <- Hin.
Qed.

Lemma sorted_filter (R : QueueItem → QueueItem → Prop) f l : StronglySorted R l → StronglySorted R (List.filter f l).
Proof.
  induction 1 as [|x l Hl IH Hx]; [constructor|]. cbn. destruct (f x); [|done]. constructor; [done|].
  rewrite Forall_forall in Hx |- *. intros y [Hy _]%list_elem_of_In%filter_In. by apply Hx, list_elem_of_In.
Qed.

Lemma elem_of_without q queue item : item ∈ without q queue ↔ item ∈ queue ∧ id_of item ≠ q.
Proof. unfold without. by rewrite list_elem_of_In, filter_In, <- list_elem_of_In, negb_true_iff, String.eqb_neq. Qed.

Lemma deleteQueueItem_is db id q db' queue :
  deleteQueueItem db id q = Ok db' → queue_is db id queue →
  requeued db db' id ∧ queue_is db' id (without q queue) ∧ ∃ item, item ∈ queue ∧ id_of item = q.
Proof.
  unfold deleteQueueItem. intros H Hq. inv_sql.
  match goal with H : is_Some_b _ = true |- _ => apply is_Some_b_some in H as [row Hrow] end. split_and!.
  - split; [done|]. intros id' q' Hne. cbn. by rewrite lookup_delete_ne by congruence.
  - split; [by apply sorted_filter, (qu_sorted _ _ _ Hq)|]. intros q' row'. cbn.
    rewrite elem_of_without, <- (qu_rows _ _ _ Hq), lookup_delete_Some. unfold id_of. cbn. naive_solver.
  - exists (queueItem q row). split; [by apply (qu_rows _ _ _ Hq)|done].
Qed.

Lemma sorted_map (f : QueueItem → QueueItem) l :
  (∀ x, (f x).(QueueItem_Position) = x.(QueueItem_Position)) → StronglySorted earlier l → StronglySorted earlier (f <$> l).
Proof.
  intros Hf. induction 1 as [|x l Hl IH Hx]; cbn; constructor; [done|]. rewrite Forall_forall in Hx |- *.
  intros y (z & -> & Hz)%list_elem_of_fmap. unfold earlier. rewrite !Hf. by apply Hx.
Qed.

Lemma updatePending_is db id q f g db' queue :
  (∀ row, queueItem q (f row) = g (queueItem q row)) →
  (∀ item, id_of (g item) = id_of item) → (∀ item, QueueItem_Position (g item) = QueueItem_Position item) →
  updatePending db id q f = Ok db' → queue_is db id queue →
  requeued db db' id ∧ queue_is db' id (change q g queue) ∧ ∃ item, item ∈ queue ∧ id_of item = q ∧ pending item = true.
Proof.
  intros Hfg Hid Hpos. unfold updatePending. intros H Hq.
  destruct (_ !! _) as [row|] eqn:Hrow; [|done]. inv_sql. split_and!.
  - split; [done|]. intros id' q' Hne. cbn. by rewrite lookup_insert_ne by congruence.
  - split.
    + apply sorted_map; [|by apply (qu_sorted _ _ _ Hq)]. intros x. by destruct (_ == _).
    + intros q' row'. cbn. unfold change. rewrite list_elem_of_fmap, lookup_insert. case_decide as E.
      * injection E as <-. split.
        -- intros [= <-]. exists (queueItem q row). rewrite <- (qu_rows _ _ _ Hq). split; [|done].
           change (id_of (queueItem q row)) with q. by rewrite String.eqb_refl.
        -- intros (x & E & Hx). destruct (String.eqb_spec (id_of x) q) as [Ex|Ex].
           ++ assert (x = queueItem q row) as ->.
              { apply (queue_row _ _ _ _ Hq) in Hx. rewrite Ex, Hrow in Hx. injection Hx as ->.
                by rewrite <- Ex, queueItem_of. }
              rewrite <- Hfg in E. by destruct row', (f row); injection E as -> -> -> ->.
           ++ exfalso. apply Ex. by rewrite <- E.
      * rewrite (qu_rows _ _ _ Hq). split.
        -- intros Hx. exists (queueItem q' row'). split; [|done]. change (id_of (queueItem q' row')) with q'.
           rewrite (proj2 (String.eqb_neq q' q)) by congruence. done.
        -- intros (x & E' & Hx). destruct (String.eqb_spec (id_of x) q) as [Ex|Ex]; [|by rewrite E'].
           exfalso. apply E. f_equal. transitivity (id_of (g x)); [by rewrite Hid|by rewrite <- E'].
  - exists (queueItem q row). split_and!; [by apply (qu_rows _ _ _ Hq)|done|]. unfold pending. cbn. by apply String.eqb_eq.
Qed.

(** * The log *)

(** Only events of the thread were added. *)
Definition logged (db db' : ThreadDB) (id : string) : Prop :=
  db'.(threads) = db.(threads) ∧ db'.(pending_inputs) = db.(pending_inputs) ∧
  ∀ id' v, id' ≠ id → db'.(thread_events) !! (id', v) = db.(thread_events) !! (id', v).

Definition recorded_at (id : string) (l : list ThreadEvent) : Prop :=
  ∀ n e, l !! n = Some e → e.(ThreadEvent_ThreadID) = id ∧ e.(ThreadEvent_Sequence) = (Z.of_nat n + 1)%Z ∧
    ThreadEvent_Validate e = Ok tt.

Definition draft_of (e : ThreadEvent) : EventDraft :=
  mkEventDraft e.(ThreadEvent_Type) e.(ThreadEvent_Visibility) e.(ThreadEvent_Provenance) e.(ThreadEvent_Payload).

Lemma tx_bind_Ok {A B} (m : tx A) (f : A → tx B) s s' b :
  (m ≫= f) s = Ok (s', b) ↔ ∃ s1 a, m s = Ok (s1, a) ∧ f a s1 = Ok (s', b).
Proof.
  unfold mbind, tx_bind. destruct (m s) as [[s1 a]|e|]; cbn; [|naive_solver..].
  split; [by eauto|]. by intros (? & ? & [= <- <-] & ?).
Qed.
Lemma tx_ret_Ok {A} (a : A) s s' b : (mret a : tx A) s = Ok (s', b) ↔ s' = s ∧ b = a.
Proof. unfold mret, tx_ret. naive_solver. Qed.
Lemma lift_result_Ok {A} (m : result A) s s' a : lift_result m s = Ok (s', a) ↔ s' = s ∧ m = Ok a.
Proof. unfold lift_result. rewrite bind_Ok. naive_solver. Qed.
Lemma read_Ok {A} (f : ThreadDB → A) s s' a : read f s = Ok (s', a) ↔ s' = s ∧ a = f s.(se_db).
Proof. unfold read. naive_solver. Qed.
Lemma query_Ok {A} (f : ThreadDB → result A) s s' a : query f s = Ok (s', a) ↔ s' = s ∧ f s.(se_db) = Ok a.
Proof. unfold query. rewrite bind_Ok. naive_solver. Qed.
Lemma execute_Ok f s s' u :
  execute f s = Ok (s', u) ↔ ∃ db, f s.(se_db) = Ok db ∧ s' = mkSession db s.(se_ids).
Proof. unfold execute. rewrite bind_Ok. destruct u. cbn. naive_solver. Qed.
Lemma randomID_Ok prefix s s' id :
  randomID prefix s = Ok (s', id) ↔ ∃ x ids, s.(se_ids) = x :: ids ∧ id = prefix +:+ x ∧ s' = mkSession s.(se_db) ids.
Proof. unfold randomID. destruct (se_ids s); cbn; naive_solver. Qed.

(** Inverts a successful transaction down to its statements. *)
Ltac inv_tx :=
  repeat (progress match goal with
  | H : (_ ≫= _) ?s = Ok (_, _) |- _ => apply tx_bind_Ok in H as (? & ? & ? & H)
  | H : (mret _) _ = Ok (_, _) |- _ => apply tx_ret_Ok in H as [? ?]; subst
  | H : lift_result _ _ = Ok (_, _) |- _ => apply lift_result_Ok in H as [? H]; subst
  | H : read _ _ = Ok (_, _) |- _ => apply read_Ok in H as [? ?]; subst
  | H : query _ _ = Ok (_, _) |- _ => apply query_Ok in H as [? H]; subst
  | H : execute _ _ = Ok (_, _) |- _ => apply execute_Ok in H as (? & H & ?); subst
  | H : randomID _ _ = Ok (_, _) |- _ => apply randomID_Ok in H as (? & ? & ? & ? & ?); subst
  | x : unit |- _ => destruct x
  | x : _ * _ |- _ => let y := fresh "y" in let z := fresh "z" in destruct x as [y z]
  | _ => progress inv_pairs
  end; cbn beta iota in *).

Lemma insertEvent_is db e db' id l :
  insertEvent db e = Ok db' → e.(ThreadEvent_ThreadID) = id → e.(ThreadEvent_Sequence) = (Z.of_nat (length l) + 1)%Z →
  log_is db id l →
  logged db db' id ∧ log_is db' id (l ++ [e]) ∧ (Z.of_nat (length l) + 1 < 9223372036854775808)%Z.
Proof.
  unfold insertEvent. intros H <- Hseq Hl. inv_sql. rewrite Hseq in *. split_and!; [| |done].
  - split_and!; [done..|]. intros id' v Hne. cbn. by rewrite lookup_insert_ne by congruence.
  - intros v. cbn. rewrite lookup_insert. case_decide as E.
    + injection E as <-. rewrite decide_True by lia. rewrite lookup_app_r by lia.
      by replace (Z.to_nat (Z.of_nat (length l) + 1 - 1) - length l) with 0 by lia.
    + rewrite Hl. case_decide as Hv; [|done]. rewrite lookup_app.
      destruct (l !! Z.to_nat (v - 1)) eqn:Ev; [done|]. apply lookup_ge_None in Ev.
      assert (v ≠ Z.of_nat (length l) + 1)%Z by congruence.
      symmetry. apply lookup_ge_None. cbn. lia.
Qed.

Lemma logged_trans db db1 db2 id : logged db db1 id → logged db1 db2 id → logged db db2 id.
Proof.
  intros (E1 & P1 & F1) (E2 & P2 & F2). split_and!; [by rewrite E2|by rewrite P2|]. intros. by rewrite F2, F1.
Qed.

Lemma appendEvent_is id draft s s' e l :
  appendThreadEvent id (u64 (Z.of_nat (length l) + 1)) draft s = Ok (s', e) → log_is s.(se_db) id l →
  recorded_at id l → (Z.of_nat (length l) < 9223372036854775808)%Z →
  logged s.(se_db) s'.(se_db) id ∧ log_is s'.(se_db) id (l ++ [e]) ∧ recorded_at id (l ++ [e]) ∧
  draft_of e = draft ∧ e.(ThreadEvent_Sequence) = (Z.of_nat (length l) + 1)%Z ∧
  (Z.of_nat (length l) + 1 < 9223372036854775808)%Z ∧ (∃ x, s.(se_ids) = x :: s'.(se_ids) ∧ e.(ThreadEvent_EventID) = "E-" +:+ x).
Proof.
  intros H Hl Hr Hlen. rewrite u64_small in H by (unfold two64; lia). unfold appendThreadEvent in H. inv_tx.
  match goal with H : insertEvent _ _ = Ok _ |- _ => eapply (insertEvent_is _ _ _ id l) in H as (Hlg & Hl' & Hb); [|done..] end.
  cbn [se_db se_ids]. split_and!; [done|done| |by destruct draft|done|done|by eexists].
  intros n e Hn. apply lookup_app_Some in Hn as [Hn|[Hge Hn]]; [by apply Hr|].
  destruct (n - length l) eqn:En; [|done]. injection Hn as <-. split_and!; [done|cbn; lia|].
  match goal with H : ThreadEvent_Validate _ = Ok ?u |- _ => by destruct u end.
Qed.

Lemma appendMailboxEvents_is id drafts s s' es l :
  appendMailboxEvents id (Z.of_nat (length l)) drafts s = Ok (s', es) → log_is s.(se_db) id l →
  recorded_at id l → (Z.of_nat (length l) < 9223372036854775808)%Z →
  logged s.(se_db) s'.(se_db) id ∧ log_is s'.(se_db) id (l ++ es) ∧ recorded_at id (l ++ es) ∧
  draft_of <$> es = drafts ∧ (Z.of_nat (length (l ++ es)) < 9223372036854775808)%Z.
Proof.
  revert s es l. induction drafts as [|draft drafts IH]; intros s es l H Hl Hr Hlen; cbn [appendMailboxEvents] in H; inv_tx.
  - rewrite app_nil_r. by split_and!.
  - match goal with H : appendThreadEvent _ _ _ _ = Ok (?s1, ?e) |- _ =>
      apply (appendEvent_is _ _ _ _ _ l) in H as (Hlg1 & Hl1 & Hr1 & Hd1 & Hs1 & Hb1 & _); [|done..] end.
    match goal with H : appendMailboxEvents _ _ _ _ = Ok _ |- _ => rename H into Hrest end.
    rewrite u64_small in Hrest by (unfold two64; lia).
    match type of Hl1 with log_is _ _ (l ++ [?e]) =>
      replace (Z.of_nat (length l) + 1)%Z with (Z.of_nat (length (l ++ [e]))) in Hrest by (rewrite length_app; cbn; lia);
      apply (IH _ _ (l ++ [e])) in Hrest as (Hlg2 & Hl2 & Hr2 & Hd2 & Hb2); [|done..|rewrite length_app; cbn; lia] end.
    rewrite <- app_assoc in *. split_and!; [by eapply logged_trans|done|done| |done]. cbn. by rewrite Hd1, Hd2.
Qed.

(** [Replay] reads the log from a cursor. *)
#[export] Instance sequenceOrder_trans : Transitive sequenceOrder.
Proof. intros x y z. unfold sequenceOrder. lia. Qed.
#[export] Instance sequenceOrder_total : Total sequenceOrder.
Proof. intros x y. unfold sequenceOrder. lia. Qed.

Lemma recorded_sorted id l k : recorded_at id l → StronglySorted sequenceOrder (drop k l).
Proof.
  intros Hr. assert (∀ l' k', (∀ n e, l' !! n = Some e → ThreadEvent_Sequence e = Z.of_nat (k' + n) + 1)%Z →
    StronglySorted sequenceOrder l') as H.
  { induction l' as [|x l' IH]; intros k' Hs; constructor.
    - apply (IH (S k')). intros n e Hn. rewrite (Hs (S n) e Hn). lia.
    - apply Forall_forall. intros y [n Hn]%list_elem_of_lookup. unfold sequenceOrder.
      rewrite (Hs 0 x eq_refl), (Hs (S n) y Hn). lia. }
  apply (H _ k). intros n e Hn. rewrite lookup_drop in Hn. by apply Hr in Hn as (_ & ? & _).
Qed.

Lemma recorded_NoDup id l : recorded_at id l → NoDup l.
Proof.
  intros Hr. apply NoDup_alt. intros i j e Hi Hj. apply Hr in Hi as (_ & Hi & _), Hj as (_ & Hj & _). lia.
Qed.

Lemma eventsAfter_is db id l after :
  log_is db id l → recorded_at id l → (0 ≤ after)%Z → eventsAfter db id after = drop (Z.to_nat after) l.
Proof.
  intros Hl Hr Ha. unfold eventsAfter. apply merge_sort_listing; [apply _..| | | | |].
  - intros x y [n Hx]%list_elem_of_lookup [m Hy]%list_elem_of_lookup Hxy Hyx. rewrite lookup_drop in *.
    pose proof (Hr _ _ Hx) as (_ & Ex & _). pose proof (Hr _ _ Hy) as (_ & Ey & _). unfold sequenceOrder in *.
    assert (n = m) as -> by lia. congruence.
  - by eapply recorded_sorted.
  - apply NoDup_omap_rows. intros [i v] e [i' v'] e' x Hm Hm'. cbn.
    destruct (String.eqb_spec i id) as [->|], (String.eqb_spec i' id) as [->|]; try done; cbn.
    destruct (after <? v)%Z, (after <? v')%Z; try done. intros [= ->] [= ->]. rewrite Hl in Hm, Hm'.
    repeat case_decide; try done. apply Hr in Hm as (_ & ? & _), Hm' as (_ & ? & _). f_equal. lia.
  - eapply sublist_NoDup; [by eapply recorded_NoDup|apply sublist_drop].
  - intros e. rewrite list_elem_of_omap. split.
    + intros ([[i v] e'] & Hin%elem_of_map_to_list & E). cbn in *. destruct (String.eqb_spec i id) as [->|]; [|done].
      destruct (Z.ltb_spec after v); [|done]. injection E as ->. rewrite Hl in Hin. case_decide; [|done].
      apply list_elem_of_lookup. exists (Z.to_nat (v - 1 - after)). rewrite lookup_drop.
      by replace (Z.to_nat after + Z.to_nat (v - 1 - after)) with (Z.to_nat (v - 1)) by lia.
    + intros [n Hn]%list_elem_of_lookup. rewrite lookup_drop in Hn.
      exists ((id, after + 1 + Z.of_nat n)%Z, e). rewrite elem_of_map_to_list, Hl. split.
      * rewrite decide_True by lia. by replace (Z.to_nat (after + 1 + Z.of_nat n - 1)) with (Z.to_nat after + n) by lia.
      * cbn. rewrite String.eqb_refl. by rewrite (proj2 (Z.ltb_lt _ _)) by lia.
Qed.

(** * Threads *)

Definition note_of (draft : EventDraft) : option note :=
  match draft.(EventDraft_Payload) with
  | MailboxPayload q turn content => Some (mkNote draft.(EventDraft_Type) q turn content)
  | FailurePayload turn detail => Some (mkNote draft.(EventDraft_Type) "" turn detail)
  | _ => None
  end.
(** What a log says about messages and turns. *)
Definition notes_of (l : list ThreadEvent) : list note := omap (λ e, note_of (draft_of e)) l.

Lemma notes_of_drafts es : notes_of es = omap note_of (draft_of <$> es).
Proof. unfold notes_of. induction es as [|e es IH]; [done|]. cbn. by destruct (note_of _); rewrite IH. Qed.

Lemma notes_of_app l l' : notes_of (l ++ l') = notes_of l ++ notes_of l'.
Proof. apply omap_app. Qed.

Definition phase_is (activity : Activity) (turn : string) (cancel : bool) (p : phase) : Prop :=
  match p with
  | Idle => activity = ActivityIdle ∧ turn = "" ∧ cancel = false
  | Broken => activity = ActivityError ∧ turn = "" ∧ cancel = false
  | Busy t asking cancelling => t ≠ "" ∧ turn = t ∧ cancel = cancelling ∧
      activity = if asking then ActivityAwaitingApproval else ActivityRunning
  end.

(** The tables hold the thread [id] with this row, log and mailbox. *)
Record represents (db : ThreadDB) (id : string) (row : ThreadRow) (l : list ThreadEvent) (m : mailbox) : Prop := {
  re_row : db.(threads) !! id = Some row;
  re_sequence : row.(tr_last_sequence) = Z.of_nat (length l);
  re_bound : (Z.of_nat (length l) < 9223372036854775808)%Z;
  re_log : log_is db id l;
  re_events : recorded_at id l;
  re_queue : queue_is db id m.(mb_queue);
  re_phase : phase_is row.(tr_activity) row.(tr_active_turn_id) row.(tr_cancel_requested) m.(mb_phase);
  re_notes : m.(mb_log) = notes_of l;
}.

(** The tables say the same of the thread. *)
Record untouched (db db' : ThreadDB) (id : string) : Prop := {
  un_row : db'.(threads) !! id = db.(threads) !! id;
  un_events : ∀ v, db'.(thread_events) !! (id, v) = db.(thread_events) !! (id, v);
  un_pending : ∀ q, db'.(pending_inputs) !! (id, q) = db.(pending_inputs) !! (id, q);
}.

Lemma untouched_refl db id : untouched db db id.
Proof. by split. Qed.
Lemma untouched_trans db1 db2 db3 id : untouched db1 db2 id → untouched db2 db3 id → untouched db1 db3 id.
Proof. intros [R1 E1 P1] [R2 E2 P2]. split; [by rewrite R2|intros; by rewrite E2|intros; by rewrite P2]. Qed.

Lemma untouched_queue db db' id queue : untouched db db' id → queue_is db id queue → queue_is db' id queue.
Proof. intros [_ _ Hp] [Hs Hr]. split; [done|]. intros. by rewrite Hp. Qed.
Lemma untouched_log db db' id l : untouched db db' id → log_is db id l → log_is db' id l.
Proof. intros [_ He _] Hl v. by rewrite He. Qed.

Lemma untouched_represents db db' id row l m :
  untouched db db' id → represents db id row l m → represents db' id row l m.
Proof.
  intros Hu [? ? ? ? ? ? ? ?]. split; try done; [by rewrite (un_row _ _ _ Hu)|by eapply untouched_log|by eapply untouched_queue].
Qed.

Definition others (db db' : ThreadDB) (id : string) : Prop := ∀ id', id' ≠ id → untouched db db' id'.

Lemma others_refl db id : others db db id.
Proof. intros id' _. apply untouched_refl. Qed.
Lemma others_trans db1 db2 db3 id : others db1 db2 id → others db2 db3 id → others db1 db3 id.
Proof. intros H1 H2 id' Hne. eapply untouched_trans; [by apply H1|by apply H2]. Qed.

Lemma requeued_others db db' id : requeued db db' id → others db db' id.
Proof. intros [-> Hp] id' Hne. split; [done..|]. cbn. intros. by apply Hp. Qed.
Lemma logged_others db db' id : logged db db' id → others db db' id.
Proof. intros (E & P & He) id' Hne. split; [by rewrite E|intros; by apply He|by rewrite P]. Qed.
Lemma setSequence_others db id v f db' : setSequence db id v f = Ok db' → others db db' id.
Proof.
  unfold setSequence, updateThread. intros H. inv_sql. intros id' Hne. split; [|done..]. cbn. by rewrite lookup_alter_ne by congruence.
Qed.

(** Tables that say nothing of rows, logs and queues. *)
Definition same_threads (db db' : ThreadDB) : Prop :=
  db'.(threads) = db.(threads) ∧ db'.(thread_events) = db.(thread_events) ∧ db'.(pending_inputs) = db.(pending_inputs).

Lemma same_untouched db db' id : same_threads db db' → untouched db db' id.
Proof. intros (E1 & E2 & E3). by split; rewrite ?E1, ?E2, ?E3. Qed.

Lemma insertCommandRow_same db command row db' : insertCommandRow db command row = Ok db' → same_threads db db'.
Proof. unfold insertCommandRow. intros H. by inv_sql. Qed.

(** * Effects *)

(** A message identified with a random identifier. *)
Definition drawn (ids : list string) (label : option string) : Prop :=
  ∀ q, label = Some q → ∃ x, x ∈ ids ∧ q = "Q-" +:+ x.

(** A transaction about the thread [id]: it leaves the other threads alone, extends the
    log of the thread, and is one step of its mailbox. *)
Definition effect (db db' : ThreadDB) (id : string) (ids : list string) : Prop :=
  ∀ row l m, represents db id row l m →
  others db db' id ∧ ∃ row' l' m' label,
    represents db' id row' (l ++ l') m' ∧ mailbox_step m label m' ∧ drawn ids label.

Lemma effect_same db db' id ids : same_threads db db' → effect db db' id ids.
Proof.
  intros Hs row l m Hr. split; [intros id' _; by apply same_untouched|]. exists row, [], m, None. rewrite app_nil_r.
  split_and!; [by eapply untouched_represents, Hr; apply same_untouched|constructor|done].
Qed.

(** It was answered from a receipt, or it is about a thread that exists. *)
Definition thread_outcome (db db' : ThreadDB) (id : string) (ids : list string) : Prop :=
  db' = db ∨ is_Some (db.(threads) !! id) ∧ effect db db' id ids.

(** The end of a transaction about a thread: events, the row, and the receipt. *)
Lemma finish db1 db2 db3 db4 id row l queue p es v f :
  db1.(threads) !! id = Some row → log_is db1 id l → recorded_at id l →
  logged db1 db2 id → log_is db2 id (l ++ es) → recorded_at id (l ++ es) →
  (Z.of_nat (length (l ++ es)) < 9223372036854775808)%Z →
  setSequence db2 id v f = Ok db3 → v = Z.of_nat (length (l ++ es)) →
  same_threads db3 db4 → queue_is db1 id queue →
  phase_is (f row).(tr_activity) (f row).(tr_active_turn_id) (f row).(tr_cancel_requested) p →
  others db1 db4 id ∧
  represents db4 id ((f row) <| tr_last_sequence := v |>) (l ++ es) (mkMailbox p queue (notes_of (l ++ es))).
Proof.
  intros Hrow Hl Hr Hlg Hl2 Hr2 Hb Hset Hv Hs Hq Hp. split.
  { eapply others_trans; [by apply logged_others|]. eapply others_trans; [by eapply setSequence_others|].
    intros id' _. by apply same_untouched. }
  destruct Hlg as (E2 & P2 & _). unfold setSequence, updateThread in Hset. inv_sql. destruct Hs as (E4 & E5 & E6).
  split; cbn [mb_queue mb_phase mb_log]; try done.
  - rewrite E4. cbn. rewrite E2. cbn. by rewrite lookup_alter_eq, Hrow.
  - intros w. rewrite E5. cbn. apply Hl2.
  - destruct Hq as [Hs Hrows]. split; [done|]. intros q r. rewrite E6. cbn. rewrite P2. apply Hrows.
Qed.

(** A transaction about a thread that records one event: other tables may change
    between the event and the row. *)
Lemma finish_event id draft s1 s2 e db3 db4 db5 f row l m p :
  represents s1.(se_db) id row l m →
  appendThreadEvent id (u64 (row.(tr_last_sequence) + 1)) draft s1 = Ok (s2, e) → note_of draft = None →
  same_threads s2.(se_db) db3 → setSequence db3 id e.(ThreadEvent_Sequence) f = Ok db4 → same_threads db4 db5 →
  phase_is (f row).(tr_activity) (f row).(tr_active_turn_id) (f row).(tr_cancel_requested) p →
  others s1.(se_db) db5 id ∧
  represents db5 id ((f row) <| tr_last_sequence := e.(ThreadEvent_Sequence) |>) (l ++ [e])
    (mkMailbox p m.(mb_queue) m.(mb_log)).
Proof.
  intros Hr Happ Hn (Et & Ee & Ep) Hset Hs Hp. rewrite (re_sequence _ _ _ _ _ Hr) in Happ.
  apply (appendEvent_is _ _ _ _ _ l) in Happ as ((Lt & Lp & Le) & Hl & He & Hd & Hseq & Hb & _); [|by apply Hr..].
  assert (mb_log m = notes_of (l ++ [e])) as ->.
  { rewrite notes_of_app, (notes_of_drafts [e]). cbn. rewrite Hd, Hn, app_nil_r. apply Hr. }
  eapply (finish _ db3 db4 db5 id row l (mb_queue m) p [e]); try done; try apply Hr.
  - split_and!; [by rewrite Et|by rewrite Ep|by rewrite Ee].
  - intros v. rewrite Ee. apply Hl.
  - rewrite length_app. cbn. lia.
  - rewrite Hseq, length_app. cbn. lia.
Qed.
