(* ===== verification/ThreadMailbox.v ===== *)
(** What each operation of the thread store does to its thread: the mailbox operations as
    steps of the abstract mailbox, and the others. *)
From S2P Require Import Prelude Sql ThreadData MailboxSpec ThreadTables ThreadStore ThreadState.

(** Every mailbox operation of the thread store is one step of the abstract mailbox of
    its thread, extends the thread's log, and leaves the other threads alone. *)

Section mailbox.
Context {env : ThreadEnv}.

Definition state_of (id : string) (row : ThreadRow) (m : mailbox) : MailboxState :=
  mkMailboxState id row.(tr_last_sequence) row.(tr_activity) row.(tr_active_turn_id)
    row.(tr_cancel_requested) m.(mb_queue) [].

Definition state_phase (state : MailboxState) : phase → Prop :=
  phase_is state.(MailboxState_Activity) state.(MailboxState_ActiveTurnID) state.(MailboxState_CancelRequested).

(** The body of a mailbox operation on the thread [id] makes one step of its mailbox. *)
Definition mutates (id : string) (mutate : MailboxState → tx (MailboxState * list EventDraft)) : Prop :=
  ∀ s s' row l m state drafts,
    represents s.(se_db) id row l m → mutate (state_of id row m) s = Ok (s', (state, drafts)) →
    requeued s.(se_db) s'.(se_db) id ∧
    state.(MailboxState_ThreadID) = id ∧ state.(MailboxState_LastSequence) = row.(tr_last_sequence) ∧
    ∃ queue p label, queue_is s'.(se_db) id queue ∧ state_phase state p ∧ drawn s.(se_ids) label ∧
      mailbox_step m label (mkMailbox p queue (m.(mb_log) ++ omap note_of drafts)).

Lemma requeued_represents db db' id row l m queue :
  requeued db db' id → queue_is db' id queue → represents db id row l m →
  represents db' id row l (mkMailbox m.(mb_phase) queue m.(mb_log)).
Proof. intros [-> _] Hq [? ? ? ? ? ? ? ?]. by split. Qed.

Lemma loadMailboxState_is db id row l m state :
  represents db id row l m → loadMailboxState id db = Ok state → state = state_of id row m.
Proof.
  intros Hr. unfold loadMailboxState, threadRow. rewrite (re_row _ _ _ _ _ Hr). cbn. intros [= <-].
  by rewrite (loadQueue_is _ _ _ (re_queue _ _ _ _ _ Hr)).
Qed.

Lemma loadMailboxState_row db id state : loadMailboxState id db = Ok state → is_Some (db.(threads) !! id).
Proof. unfold loadMailboxState, threadRow. intros H. inv_ok. by eexists. Qed.

(** What is left of an operation once its body has run. *)
Lemma mutateMailbox_outcome command request mutate s s' r :
  mutateMailbox command request mutate s = Ok (s', r) →
  mutates command.(ThreadCommand_ThreadID) mutate →
  thread_outcome s.(se_db) s'.(se_db) command.(ThreadCommand_ThreadID) s.(se_ids).
Proof.
  set (id := ThreadCommand_ThreadID command). intros H Hm. unfold mutateMailbox in H. inv_tx.
  destruct (_ : option MailboxState) as [existing|]; inv_tx; [by left|right].
  match goal with H : loadMailboxState _ _ = Ok _ |- _ => rename H into Hload end.
  split; [by eapply loadMailboxState_row|]. intros row l m Hr.
  apply (loadMailboxState_is _ _ _ _ _ _ Hr) in Hload. subst.
  match goal with H : mutate _ _ = Ok (_, (?st, ?ds)) |- _ => rename H into Hmut, st into state, ds into drafts end.
  destruct (Hm _ _ _ _ _ _ _ Hr Hmut) as (Hreq & Hid & Hseq & queue & p & label & Hq & Hp & Hd & Hstep).
  cbn [se_db se_ids] in *.
  match goal with H : appendMailboxEvents _ _ _ _ = Ok (_, ?es) |- _ => rename H into Happ, es into es' end.
  destruct (requeued_represents _ _ _ _ _ _ _ Hreq Hq Hr) as [Hrow Hlen Hb Hl He _ _ Hn].
  rewrite Hseq, Hlen in *. apply appendMailboxEvents_is with (l := l) in Happ as (Hlg & Hl' & He' & Hdr & Hb'); [|done..].
  rewrite <- Nat2Z.inj_add, <- length_app, u64_small in * by (unfold two64; lia).
  match goal with H : saveMailbox _ _ = Ok _ |- _ => rename H into Hsave end. unfold saveMailbox in Hsave.
  destruct state as [? v act turn cancel q0 evs]. cbn in Hid, Hseq. rewrite Hid in *. clear Hid.
  match goal with H : insertMailboxCommand _ _ _ _ = Ok _ |- _ => apply insertCommandRow_same in H as Hsame end.
  eapply (finish _ _ _ _ id) in Hsave as [Ho Hrep]; [|done..|exact Hp].
  split; [eapply others_trans; [by apply requeued_others|done]|]. eexists _, es', _, label. split; [exact Hrep|].
  rewrite notes_of_app, (notes_of_drafts es'), Hdr, <- Hn. by split.
Qed.
(** * Shared steps *)

Lemma activity_active activity : isActiveActivity activity = true → activity ≠ ActivityIdle ∧ activity ≠ ActivityError.
Proof. unfold isActiveActivity. intros [E|E]%orb_true_iff; apply String.eqb_eq in E; by subst. Qed.

Lemma active db id row l m turn u :
  represents db id row l m → requireActiveTurn (state_of id row m) turn = Ok u →
  turn ≠ "" ∧ row.(tr_active_turn_id) = turn ∧ ∃ asking, m.(mb_phase) = Busy turn asking row.(tr_cancel_requested).
Proof.
  intros Hr. unfold requireActiveTurn. cbn [state_of MailboxState_Activity MailboxState_ActiveTurnID].
  intros H. inv_ok. subst turn. split_and!; [done..|].
  match goal with H : isActiveActivity _ = true |- _ => apply activity_active in H as [Ha Ha'] end.
  pose proof (re_phase _ _ _ _ _ Hr) as Hp. destruct (mb_phase m) as [|t asking cancelling|]; cbn in Hp; [by destruct Hp..|
    destruct Hp as (_ & E & E' & _)|by destruct Hp]. exists asking. congruence.
Qed.

Lemma startTurn_Ok state q content s s' state' drafts :
  startTurn state q content s = Ok (s', (state', drafts)) →
  s'.(se_db) = s.(se_db) ∧ ∃ turn, turn ≠ "" ∧
    state' = state <| MailboxState_Activity := ActivityRunning |> <| MailboxState_ActiveTurnID := turn |> ∧
    omap note_of drafts = accepts q turn content.
Proof.
  unfold startTurn. intros H. inv_tx. split; [done|].
  by eexists; split; [|split; reflexivity].
Qed.

Lemma enqueue_is id q class st content s s' u queue :
  enqueue id q class st content s = Ok (s', u) → queue_is s.(se_db) id queue →
  requeued s.(se_db) s'.(se_db) id ∧
  queue_is s'.(se_db) id (queue ++ [mkQueueItem q (after_all queue) class st content]).
Proof.
  unfold enqueue. intros H Hq. inv_tx.
  match goal with H : nextQueuePosition _ _ = Ok _ |- _ => apply (nextQueuePosition_is _ _ _ _ Hq) in H; subst end.
  match goal with H : insertQueueItem _ _ _ = Ok _ |- _ => by apply (insertQueueItem_is _ _ _ _ _ H Hq) end.
Qed.

Lemma continueWith_is id state ended found s s' state' drafts queue log n :
  continueWith id state ended found s = Ok (s', (state', drafts)) → queue_is s.(se_db) id queue →
  state.(MailboxState_CancelRequested) = false → note_of ended = Some n →
  requeued s.(se_db) s'.(se_db) id ∧
  state'.(MailboxState_ThreadID) = state.(MailboxState_ThreadID) ∧
  state'.(MailboxState_LastSequence) = state.(MailboxState_LastSequence) ∧
  ∃ queue' p, queue_is s'.(se_db) id queue' ∧ state_phase state' p ∧
    continues queue log n found (mkMailbox p queue' (log ++ omap note_of drafts)).
Proof.
  intros H Hq Hc Hn. destruct found as [item|]; cbn in H; inv_tx.
  - match goal with H : deleteQueueItem _ _ _ = Ok _ |- _ => apply (deleteQueueItem_is _ _ _ _ _ H) in Hq as (Hreq & Hq' & _) end.
    match goal with H : startTurn _ _ _ _ = Ok _ |- _ => apply startTurn_Ok in H as (Edb & turn & Ht & -> & Ed) end.
    cbn [se_db] in *. rewrite Edb.
    split_and!; [done..|]. exists (without (id_of item) queue), (Busy turn false false).
    split_and!; [done|by destruct state|]. cbn [omap list_omap]. rewrite Hn, Ed. by constructor.
  - split_and!; [apply requeued_refl|done..|].
    exists queue, Idle. split_and!; [done|by destruct state|]. cbn [omap list_omap]. rewrite Hn. constructor.
Qed.

(** * The operations *)

Lemma phase_idle row m : phase_is row.(tr_activity) row.(tr_active_turn_id) row.(tr_cancel_requested) m.(mb_phase) →
  row.(tr_activity) = ActivityIdle ↔ m.(mb_phase) = Idle.
Proof.
  intros H. destruct (mb_phase m) as [|t [|] c|]; cbn in H; destruct_and?; split; intros E; try done;
    match goal with H : tr_activity row = _ |- _ => by rewrite E in H end.
Qed.

Lemma phase_turn activity turn cancel p : phase_is activity turn cancel p → turn_of p = turn.
Proof. destruct p; cbn; naive_solver. Qed.

(** Runs the body of an operation: [Hr] and the statements it made. *)
Ltac operation H :=
  unfold validateMailboxCommand in H; inv_tx; eapply mutateMailbox_outcome; [exact H|];
  clear H; intros ?s ?s' row l [p queue log] ?state ?drafts Hr H; inv_tx;
  pose proof (re_phase _ _ _ _ _ Hr) as Hphase; pose proof (re_queue _ _ _ _ _ Hr) as Hqueue;
  cbn [mb_phase mb_queue mb_log se_db se_ids] in *;
  try match goal with H : requireActiveTurn _ _ = Ok _ |- _ =>
    apply (active _ _ _ _ _ _ _ Hr) in H as (Hturn & Heq & asking & Hp); cbn in Hp; subst p end.

Lemma drawn_fresh ids x rest : ids = x :: rest → drawn ids (Some ("Q-" +:+ x)).
Proof. intros -> q [= <-]. exists x. set_solver. Qed.
Lemma drawn_none ids : drawn ids None.
Proof. by intros q. Qed.
#[local] Hint Resolve requeued_refl drawn_none : core.

(** The step of an operation that keeps its state: what is left is the queue. *)
Lemma keeps_state db' id row p queue' log label m drafts :
  phase_is row.(tr_activity) row.(tr_active_turn_id) row.(tr_cancel_requested) p →
  queue_is db' id queue' →
  ∀ ids, drawn ids label → mailbox_step m label (mkMailbox p queue' (log ++ omap note_of drafts)) →
  mb_log m = log →
  ∃ queue p' label', queue_is db' id queue ∧ state_phase (state_of id row m) p' ∧ drawn ids label' ∧
    mailbox_step m label' (mkMailbox p' queue (m.(mb_log) ++ omap note_of drafts)).
Proof. intros Hp Hq ids Hd Hs <-. by exists queue', p, label. Qed.

Lemma Submit_outcome command input s s' r :
  Submit command input s = Ok (s', r) →
  thread_outcome s.(se_db) s'.(se_db) command.(ThreadCommand_ThreadID) s.(se_ids).
Proof.
  unfold Submit. intros H. operation H. cbn [state_of MailboxState_Activity] in H.
  destruct (String.eqb_spec (tr_activity row) ActivityIdle) as [Hidle|Hidle].
  - apply startTurn_Ok in H as (-> & turn & Ht & -> & Hd). split_and!; [done..|].
    apply (phase_idle _ (mkMailbox p queue log) Hphase) in Hidle. cbn in Hidle. subst p.
    destruct Hphase as (_ & _ & Hc). exists queue, (Busy turn false false), (Some ("Q-" +:+ x1)).
    split_and!; [done|cbn; by rewrite Hc|by eapply drawn_fresh|]. rewrite Hd. by constructor.
  - inv_tx. match goal with H : enqueue _ _ _ _ _ _ = Ok _ |- _ => apply (enqueue_is _ _ _ _ _ _ _ _ _ H) in Hqueue as [Hreq Hq] end.
    split_and!; [done..|]. eapply (keeps_state _ _ _ p); [done|done|by eapply drawn_fresh| |done].
    cbn. rewrite <- (phase_turn _ _ _ _ Hphase). constructor. intros ->. by destruct Hphase.
Qed.

Lemma Steer_outcome command q turn s s' r :
  Steer command q turn s = Ok (s', r) →
  thread_outcome s.(se_db) s'.(se_db) command.(ThreadCommand_ThreadID) s.(se_ids).
Proof.
  unfold Steer. intros H. operation H.
  match goal with H : updatePending _ _ _ _ = Ok _ |- _ =>
    eapply (updatePending_is _ _ _ _ (λ item, item <| QueueItem_Class := QueueSteer |>)) in H as (Hreq & Hq & item & Hin & Hid & Hpd); [|done..] end.
  split_and!; [done..|]. eapply (keeps_state _ _ _ _); [done|done|done| |done]. subst. cbn. by constructor.
Qed.

Lemma EditQueued_outcome command q content s s' r :
  EditQueued command q content s = Ok (s', r) →
  thread_outcome s.(se_db) s'.(se_db) command.(ThreadCommand_ThreadID) s.(se_ids).
Proof.
  unfold EditQueued. intros H. operation H.
  match goal with H : updatePending _ _ _ _ = Ok _ |- _ =>
    eapply (updatePending_is _ _ _ _ (λ item, item <| QueueItem_Content := content |>)) in H as (Hreq & Hq & item & Hin & Hid & Hpd); [|done..] end.
  split_and!; [done..|]. eapply (keeps_state _ _ _ _); [done|done|done| |done]. subst. cbn.
  rewrite <- (phase_turn _ _ _ _ Hphase). by constructor.
Qed.

Lemma SafePoint_outcome command turn s s' r :
  SafePoint command turn s = Ok (s', r) →
  thread_outcome s.(se_db) s'.(se_db) command.(ThreadCommand_ThreadID) s.(se_ids).
Proof.
  unfold SafePoint. intros H. operation H. rewrite (firstQueueItem_is _ _ _ _ Hqueue) in H.
  destruct (List.find _ _) as [item|] eqn:Hf; inv_tx.
  - match goal with H : deleteQueueItem _ _ _ = Ok _ |- _ => apply (deleteQueueItem_is _ _ _ _ _ H) in Hqueue as (Hreq & Hq & _) end.
    split_and!; [done..|]. eapply (keeps_state _ _ _ _); [done|done|done| |done]. cbn. by constructor.
  - split_and!; [done..|]. eapply (keeps_state _ _ _ _); [done|done|done| |done]. cbn. rewrite app_nil_r. constructor.
Qed.

Lemma Dequeue_outcome command q s s' r :
  Dequeue command q s = Ok (s', r) →
  thread_outcome s.(se_db) s'.(se_db) command.(ThreadCommand_ThreadID) s.(se_ids).
Proof.
  unfold Dequeue. intros H. operation H.
  match goal with H : deleteQueueItem _ _ _ = Ok _ |- _ => apply (deleteQueueItem_is _ _ _ _ _ H) in Hqueue as (Hreq & Hq & item & Hin & <-) end.
  split_and!; [done..|]. eapply (keeps_state _ _ _ _); [done|done|done| |done]. cbn.
  rewrite <- (phase_turn _ _ _ _ Hphase). by constructor.
Qed.

Lemma CompleteTurn_outcome command turn s s' r :
  CompleteTurn command turn s = Ok (s', r) →
  thread_outcome s.(se_db) s'.(se_db) command.(ThreadCommand_ThreadID) s.(se_ids).
Proof.
  unfold CompleteTurn. intros H. operation H. inv_ok. rewrite (nextPendingInput_is _ _ _ Hqueue) in H.
  match goal with H : MailboxState_CancelRequested _ = false |- _ => rename H into Hc; cbn in Hc end.
  rewrite Hc. apply (continueWith_is _ _ _ _ _ _ _ _ _ log (mkNote EventTurnCompleted "" turn "") H) in Hqueue
    as (Hreq & Hid & Hseq & queue' & p & Hq & Hp & Hcont); [|done..].
  split_and!; [done..|]. exists queue', p, None. split_and!; [done..|]. by constructor.
Qed.

Lemma FailTurn_outcome command turn detail s s' r :
  FailTurn command turn detail s = Ok (s', r) →
  thread_outcome s.(se_db) s'.(se_db) command.(ThreadCommand_ThreadID) s.(se_ids).
Proof.
  unfold FailTurn. intros H. operation H. split_and!; [done..|]. exists queue, Broken, None. split_and!; [done..|].
  cbn. constructor.
Qed.

Lemma InterruptAndSubmit_outcome command turn input s s' r :
  InterruptAndSubmit command turn input s = Ok (s', r) →
  thread_outcome s.(se_db) s'.(se_db) command.(ThreadCommand_ThreadID) s.(se_ids).
Proof.
  unfold InterruptAndSubmit, alreadyCancelled. intros H. operation H. inv_ok.
  match goal with H : MailboxState_CancelRequested _ = false |- _ => rename H into Hc; cbn in Hc end. rewrite Hc in *.
  match goal with H : enqueue _ _ _ _ _ _ = Ok _ |- _ => apply (enqueue_is _ _ _ _ _ _ _ _ _ H) in Hqueue as [Hreq Hq] end.
  split_and!; [done..|]. eexists _, (Busy turn asking true), (Some _).
  split_and!; [done| |by eapply drawn_fresh|cbn; constructor]. destruct Hphase as (? & ? & ? & ?). by split_and!.
Qed.

Lemma Cancel_outcome command turn s s' r :
  Cancel command turn s = Ok (s', r) →
  thread_outcome s.(se_db) s'.(se_db) command.(ThreadCommand_ThreadID) s.(se_ids).
Proof.
  unfold Cancel, alreadyCancelled. intros H. operation H. inv_ok.
  match goal with H : MailboxState_CancelRequested _ = false |- _ => rename H into Hc; cbn in Hc end. rewrite Hc in *.
  split_and!; [done..|]. eexists _, (Busy turn asking true), None.
  split_and!; [done| |done|cbn; apply step_cancel]. destruct Hphase as (? & ? & ? & ?). by split_and!.
Qed.

Lemma SettleCancellation_outcome command turn s s' r :
  SettleCancellation command turn s = Ok (s', r) →
  thread_outcome s.(se_db) s'.(se_db) command.(ThreadCommand_ThreadID) s.(se_ids).
Proof.
  unfold SettleCancellation. intros H. operation H. inv_ok. rewrite (firstQueueItem_is _ _ _ _ Hqueue) in H.
  match goal with H : MailboxState_CancelRequested _ = true |- _ => rename H into Hc; cbn in Hc end.
  rewrite Hc. apply (continueWith_is _ _ _ _ _ _ _ _ _ log (mkNote EventTurnCancelled "" turn "") H) in Hqueue
    as (Hreq & Hid & Hseq & queue' & p & Hq & Hp & Hcont); [|done..].
  split_and!; [done..|]. exists queue', p, None. split_and!; [done..|]. by constructor.
Qed.

End mailbox.

(** The operations of the thread store that are not mailbox operations: appends,
    compactions, dialogs, archiving and creation, and what each does to the thread. *)

Section effects.
Context {env : ThreadEnv}.

(** What a caller gives as the payload of an event is bytes. *)
Definition given (draft : EventDraft) : bool :=
  match draft.(EventDraft_Payload) with RawPayload _ => true | _ => false end.

Lemma given_silent drafts : forallb given drafts = true → omap note_of drafts = [].
Proof.
  induction drafts as [|draft drafts IH]; [done|]. cbn. unfold given at 1, note_of at 1.
  intros [Hd H]%andb_true_iff. by destruct (EventDraft_Payload draft); [apply IH|..].
Qed.

Lemma same_threads_trans db1 db2 db3 : same_threads db1 db2 → same_threads db2 db3 → same_threads db1 db3.
Proof. intros (E1 & E2 & E3) (F1 & F2 & F3). split_and!; congruence. Qed.
Lemma same_threads_refl db : same_threads db db.
Proof. done. Qed.
#[local] Hint Resolve same_threads_refl : core.

Lemma insertCommand_same command hash r db db' : insertCommand command hash r db = Ok db' → same_threads db db'.
Proof. unfold insertCommand. intros H. inv_sql. by eapply insertCommandRow_same. Qed.

Lemma threadRow_Ok id db row : threadRow id db = Ok row ↔ db.(threads) !! id = Some row.
Proof. unfold threadRow. by rewrite non_nil_Ok. Qed.

Lemma represents_row db id row row' l m : represents db id row l m → db.(threads) !! id = Some row' → row' = row.
Proof. intros Hr. rewrite (re_row _ _ _ _ _ Hr). congruence. Qed.

Lemma mailbox_eta m : m = mkMailbox m.(mb_phase) m.(mb_queue) m.(mb_log).
Proof. by destruct m. Qed.

Lemma quiet m : mailbox_step m None (mkMailbox m.(mb_phase) m.(mb_queue) m.(mb_log)).
Proof. rewrite <- mailbox_eta. constructor. Qed.

(** * Appends *)

Lemma appendDrafts_effect command hash drafts s s' r row :
  appendDrafts command hash row.(tr_last_sequence) drafts s = Ok (s', r) →
  forallb given drafts = true → s.(se_db).(threads) !! command.(ThreadCommand_ThreadID) = Some row →
  effect s.(se_db) s'.(se_db) command.(ThreadCommand_ThreadID) s.(se_ids).
Proof.
  unfold appendDrafts, advanceSequence. intros H Hg Hrow row' l m Hr. rewrite (represents_row _ _ _ _ _ _ Hr Hrow) in *. clear row Hrow.
  rename row' into row. inv_tx. destruct Hr as [Hrow Hlen Hb Hl He Hq Hp Hn]. rewrite Hlen in *.
  match goal with H : appendMailboxEvents _ _ _ _ = Ok (_, ?es) |- _ =>
    rename es into es'; apply appendMailboxEvents_is with (l := l) in H as (Hlg & Hl' & He' & Hdr & Hb'); [|done..] end.
  rewrite <- Nat2Z.inj_add, <- length_app, u64_small in * by (unfold two64; lia).
  match goal with H : insertCommand _ _ _ _ = Ok _ |- _ => apply insertCommand_same in H as Hsame end.
  match goal with H : setSequence _ _ _ _ = Ok _ |- _ =>
    eapply (finish _ _ _ _ command.(ThreadCommand_ThreadID) row l) in H as [Ho Hrep]; [|done..|exact Hp] end.
  split; [exact Ho|]. eexists _, es', _, None. split; [exact Hrep|]. split; [|done].
  rewrite notes_of_app, (notes_of_drafts es'), Hdr, (given_silent _ Hg), <- Hn, app_nil_r. apply quiet.
Qed.

Lemma Append_outcome command drafts s s' r :
  forallb given drafts = true → Append command drafts s = Ok (s', r) →
  thread_outcome s.(se_db) s'.(se_db) command.(ThreadCommand_ThreadID) s.(se_ids).
Proof.
  unfold Append. intros Hg H. inv_tx. destruct (_ : option ThreadResult); inv_tx; [by left|right].
  match goal with H : threadRow _ _ = Ok _ |- _ => apply threadRow_Ok in H end. split; [done|]. by eapply appendDrafts_effect.
Qed.

Lemma AppendTurnEvents_outcome command turn drafts s s' r :
  forallb given drafts = true → AppendTurnEvents command turn drafts s = Ok (s', r) →
  thread_outcome s.(se_db) s'.(se_db) command.(ThreadCommand_ThreadID) s.(se_ids).
Proof.
  unfold AppendTurnEvents. intros Hg H. inv_tx. destruct (_ : option ThreadResult); inv_tx; [by left|right].
  match goal with H : threadRow _ _ = Ok _ |- _ => apply threadRow_Ok in H end. split; [done|]. by eapply appendDrafts_effect.
Qed.

(** * One event *)

(** An operation that records one event and changes the phase of the row by [f]. *)
Lemma event_effect db id draft s1 s2 e db3 db4 db5 f row ids :
  appendThreadEvent id (u64 (row.(tr_last_sequence) + 1)) draft s1 = Ok (s2, e) →
  s1.(se_db) = db → db.(threads) !! id = Some row → note_of draft = None →
  same_threads s2.(se_db) db3 → setSequence db3 id e.(ThreadEvent_Sequence) f = Ok db4 → same_threads db4 db5 →
  (∀ m, phase_is row.(tr_activity) row.(tr_active_turn_id) row.(tr_cancel_requested) m.(mb_phase) →
     ∃ p, phase_is (f row).(tr_activity) (f row).(tr_active_turn_id) (f row).(tr_cancel_requested) p ∧
          mailbox_step m None (mkMailbox p m.(mb_queue) m.(mb_log))) →
  effect db db5 id ids.
Proof.
  intros Happ <- Hrow Hn H3 Hset H5 Hp row' l m Hr. rewrite (represents_row _ _ _ _ _ _ Hr Hrow) in *. clear row Hrow.
  destruct (Hp m) as (p & Hph & Hs); [apply Hr|].
  destruct (finish_event _ _ _ _ _ _ _ _ _ _ _ _ _ Hr Happ Hn H3 Hset H5 Hph) as [Ho Hrep].
  split; [exact Ho|]. by eexists _, [e], _, None.
Qed.

Lemma appendEvent_sequence id v draft s s' e : appendThreadEvent id v draft s = Ok (s', e) → e.(ThreadEvent_Sequence) = v.
Proof. unfold appendThreadEvent. intros H. by inv_tx. Qed.

Lemma RecordCompaction_outcome command input s s' r :
  RecordCompaction command input s = Ok (s', r) →
  thread_outcome s.(se_db) s'.(se_db) command.(ThreadCommand_ThreadID) s.(se_ids).
Proof.
  unfold RecordCompaction, advanceSequence. intros H. inv_tx. destruct (_ : option ThreadResult) as [existing|]; inv_tx.
  { left. by destruct (ThreadResult_Events existing) as [|e [|]]; inv_tx; inv_ok. }
  right. match goal with H : threadRow _ _ = Ok _ |- _ => apply threadRow_Ok in H end. split; [done|].
  match goal with H : insertCommand _ _ _ _ = Ok _ |- _ => apply insertCommand_same in H as Hsame end.
  eapply event_effect; [done|done|done|done| |done|exact Hsame|].
  - match goal with H : wrap_err _ (insertCompaction _ _ _ _) = Ok _ |- _ => unfold insertCompaction in H end. by inv_sql.
  - intros m Hp. exists (mb_phase m). split; [exact Hp|apply quiet].
Qed.

(** * Dialogs *)

Lemma CreatePendingDialog_outcome input s s' r :
  CreatePendingDialog input s = Ok (s', r) →
  thread_outcome s.(se_db) s'.(se_db) input.(CreateDialogInput_ThreadID) s.(se_ids).
Proof.
  unfold CreatePendingDialog. intros H. inv_tx. destruct (findDialogByCorrelation input (se_db s)) as [d|].
  { destruct (_ && _); inv_tx; [by left|inv_ok]. }
  inv_tx. right. match goal with H : threadRow _ _ = Ok _ |- _ => apply threadRow_Ok in H end. split; [done|].
  match goal with H : dialogEvent _ _ _ _ _ = Ok _ |- _ => eapply event_effect; [exact H|done|done|done| |done|done|] end.
  - match goal with H : wrap_err _ (insertDialog _ _) = Ok _ |- _ => unfold insertDialog in H end. by inv_sql.
  - inv_ok. intros [p queue log] Hp. cbn in *. destruct p as [|t asking c|]; cbn in Hp.
    1,3: by destruct Hp as (? & E & ?); exfalso; congruence.
    destruct Hp as (Ht & E & E' & _). exists (Busy t true c). split; [by split_and!|constructor].
Qed.

(** A dialog resolved: the activity of its thread afterwards. *)
Definition resumed (pending : nat) (turn : string) (row : ThreadRow) : ThreadRow :=
  if (pending =? 0)%nat && (row.(tr_active_turn_id) == turn) && (row.(tr_activity) == ActivityAwaitingApproval)
  then row <| tr_activity := ActivityRunning |> else row.

Lemma ResolveDialog_outcome input s s' r :
  ResolveDialog input s = Ok (s', r) → ∃ id, thread_outcome s.(se_db) s'.(se_db) id s.(se_ids).
Proof.
  unfold ResolveDialog. intros H. inv_tx.
  match goal with H : non_nil _ _ = Ok ?d |- _ => exists (PluginDialog_ThreadID d) end.
  destruct (_ == DialogResolved); [left; destruct (_ && _); inv_tx; by inv_ok|]. inv_tx. right.
  match goal with H : threadRow _ _ = Ok _ |- _ => apply threadRow_Ok in H end. split; [done|].
  match goal with H : dialogEvent _ _ _ _ _ = Ok _ |- _ =>
    pose proof (appendEvent_sequence _ _ _ _ _ _ H) as Hseq; eapply event_effect; [exact H|done|done|done| |rewrite Hseq; done|done|] end.
  - by inv_sql.
  - intros [p queue log] Hp. destruct (_ && _) eqn:E; [|exists p; split; [exact Hp|apply quiet]].
    inv_bool. cbn in Hp |- *. match goal with H : tr_activity _ = ActivityAwaitingApproval |- _ => rewrite H in Hp end.
    destruct p as [|t [|] c|]; cbn in Hp; destruct_and?; try done.
    exists (Busy t false c). split; [by split_and!|constructor].
Qed.

(** * The archive *)

Lemma archiveTx_outcome command archived now s s' r :
  archiveTx command archived now s = Ok (s', r) →
  thread_outcome s.(se_db) s'.(se_db) command.(ThreadCommand_ThreadID) s.(se_ids).
Proof.
  unfold archiveTx, advanceSequence. intros H. inv_tx. destruct (_ : option ThreadResult) as [existing|]; inv_tx; [by left|].
  right. match goal with H : threadRow _ _ = Ok _ |- _ => apply threadRow_Ok in H end. split; [done|].
  match goal with H : insertCommand _ _ _ _ = Ok _ |- _ => apply insertCommand_same in H as Hsame end.
  eapply event_effect; [done|done|done|by destruct archived|done|done| |].
  - eapply same_threads_trans; [|exact Hsame]. by inv_sql.
  - intros m Hp. exists (mb_phase m). split; [exact Hp|apply quiet].
Qed.

(** * Creation *)

(** A thread that is not there has no rows. *)
Record absent (db : ThreadDB) (id : string) : Prop := {
  ab_row : db.(threads) !! id = None;
  ab_events : ∀ v, db.(thread_events) !! (id, v) = None;
  ab_pending : ∀ q, db.(pending_inputs) !! (id, q) = None;
}.

Definition creation (db db' : ThreadDB) (ids : list string) : Prop :=
  db' = db ∨ ∃ id, db.(threads) !! id = None ∧ (absent db id →
    others db db' id ∧ ∃ row l m label,
      represents db' id row l m ∧ drawn ids label ∧ mailbox_run (option_list label) m).

Lemma insertThread_Ok db id row db' :
  insertThread db id row = Ok db' → db.(threads) !! id = None ∧ db' = db <| threads := <[id := row]> db.(threads) |>.
Proof. unfold insertThread. intros H. inv_sql. by rewrite <- is_Some_b_none. Qed.

Lemma insertCatalog_same db id row db' : insertCatalog db id row = Ok db' → same_threads db db'.
Proof. unfold insertCatalog. intros H. by inv_sql. Qed.

(** The thread has been inserted, and nothing else says anything of it. *)
Lemma inserted db db' id row :
  absent db id → same_threads (db <| threads := <[id := row]> db.(threads) |>) db' →
  others db db' id ∧ db'.(threads) !! id = Some row ∧ log_is db' id [] ∧ queue_is db' id [].
Proof.
  intros [Hr He Hp] (Et & Ee & Ep). cbn in *. split_and!.
  - intros id' Hne. split; [by rewrite Et, lookup_insert_ne by congruence|by rewrite Ee|by rewrite Ep].
  - by rewrite Et, lookup_insert_eq.
  - intros v. rewrite Ee, He. case_decide; [|done]. done.
  - split; [constructor|]. intros q r. rewrite Ep, Hp. split; [done|by intros ?%elem_of_nil].
Qed.

Lemma created db db1 db2 db3 id row es p :
  absent db id → same_threads (db <| threads := <[id := row]> db.(threads) |>) db1 →
  (log_is db1 id [] → recorded_at id [] → logged db1 db2 id ∧ log_is db2 id es ∧ recorded_at id es) →
  same_threads db2 db3 → row.(tr_last_sequence) = Z.of_nat (length es) →
  (Z.of_nat (length es) < 9223372036854775808)%Z →
  phase_is row.(tr_activity) row.(tr_active_turn_id) row.(tr_cancel_requested) p →
  others db db3 id ∧ represents db3 id row es (mkMailbox p [] (notes_of es)).
Proof.
  intros Ha H1 Hlog H3 Hlen Hb Hp. destruct (inserted _ _ _ _ Ha H1) as (Ho & Hrow & Hl & Hs & Hq).
  destruct Hlog as (Hlg & Hl' & He); [done|done|]. pose proof Hlg as (Lt & Lp & _). destruct H3 as (Et & Ee & Ep).
  split; [eapply others_trans; [exact Ho|]; eapply others_trans; [by apply logged_others|]; intros id' _; by apply same_untouched|].
  split; cbn [mb_queue mb_phase mb_log]; try done.
  - by rewrite Et, Lt.
  - intros v. rewrite Ee. apply Hl'.
  - split; [done|]. intros q r. rewrite Ep, Lp. apply Hq.
Qed.

Lemma createThread_creation command payload spec s s' r :
  (∀ type visibility provenance, note_of (mkEventDraft type visibility provenance payload) = None) →
  createThread command payload spec s = Ok (s', r) → creation s.(se_db) s'.(se_db) s.(se_ids).
Proof.
  intros Hn. unfold createThread. intros H. inv_tx. destruct (_ : option ThreadResult) as [existing|]; inv_tx; [by left|].
  right. inv_ok.
  match goal with H : insertThread _ _ _ = Ok _ |- _ => apply insertThread_Ok in H as [Hnone ->] end.
  match goal with H : insertCatalog _ _ _ = Ok _ |- _ => apply insertCatalog_same in H as Hc end.
  match goal with H : insertCommand _ _ _ _ = Ok _ |- _ => apply insertCommand_same in H as Hsame end.
  match goal with H : insertEvent _ ?e = Ok _ |- _ => rename H into Hev; set (event := e) in Hev end.
  exists (ThreadEvent_ThreadID event). split; [exact Hnone|]. intros Ha.
  eapply (created _ _ _ _ _ _ [event] Idle) in Ha as [Ho Hrep]; [|exact Hc| |exact Hsame|done..].
  - split; [exact Ho|]. eexists _, _, _, None. split_and!; [exact Hrep|done|].
    cbn [notes_of omap list_omap]. unfold draft_of. cbn. rewrite Hn. constructor.
  - intros Hl _. destruct (insertEvent_is _ _ _ _ [] Hev eq_refl eq_refl Hl) as (Hlg & Hl' & _). split_and!; [done..|].
    intros [|n] e; [|done]. intros [= <-]. by split_and!.
Qed.

Lemma CreateThread_creation command payload s s' r :
  CreateThread command payload s = Ok (s', r) → creation s.(se_db) s'.(se_db) s.(se_ids).
Proof. by apply createThread_creation. Qed.

Lemma CreateConfiguredThread_creation command spec s s' r :
  CreateConfiguredThread command spec s = Ok (s', r) → creation s.(se_db) s'.(se_db) s.(se_ids).
Proof. unfold CreateConfiguredThread. intros H. inv_tx. eapply createThread_creation, H. done. Qed.

Lemma appendMailboxEvents_drafts id v drafts s s' es :
  appendMailboxEvents id v drafts s = Ok (s', es) → draft_of <$> es = drafts.
Proof.
  revert v s es. induction drafts as [|draft drafts IH]; intros v s es H; cbn [appendMailboxEvents] in H; inv_tx; [done|].
  cbn. match goal with H : appendMailboxEvents _ _ _ _ = Ok _ |- _ => rewrite (IH _ _ _ H) end.
  match goal with H : appendThreadEvent _ _ _ _ = Ok _ |- _ => unfold appendThreadEvent in H end. inv_tx. by destruct draft.
Qed.

Lemma CreateAtomicThread_creation command input now s s' r :
  CreateAtomicThread command input now s = Ok (s', r) → creation s.(se_db) s'.(se_db) s.(se_ids).
Proof.
  unfold CreateAtomicThread. intros H. inv_tx. destruct (_ : option MailboxState) as [existing|]; inv_tx; [by left|].
  right. inv_ok.
  match goal with H : insertThread _ _ _ = Ok _ |- _ => apply insertThread_Ok in H as [Hnone ->] end.
  match goal with H : insertCatalog _ _ _ = Ok _ |- _ => apply insertCatalog_same in H as Hc end.
  match goal with H : insertMailboxCommand _ _ _ _ = Ok _ |- _ => apply insertCommandRow_same in H as Hsame end.
  match goal with H : appendMailboxEvents ?i _ (createDrafts _ ?q ?t) _ = Ok (_, ?es) |- _ =>
    rename H into Hev, es into es'; exists i; set (queueItemID := q) in *; set (turnID := t) in * end.
  split; [exact Hnone|]. intros Ha.
  pose proof (appendMailboxEvents_drafts _ _ _ _ _ _ Hev) as Hdr.
  assert (length es' = 3) as Hlen by (by rewrite <- (length_fmap draft_of es'), Hdr).
  eapply (created _ _ _ _ _ _ es' (Busy turnID false false)) in Ha as [Ho Hrep]; [|exact Hc| |exact Hsame|by rewrite Hlen|by rewrite Hlen|done].
  - split; [exact Ho|]. eexists _, _, _, (Some queueItemID). split_and!; [exact Hrep| |].
    + intros q [= <-]. eexists. split; [|done]. cbn in *. match goal with H : se_ids s = _ |- _ => rewrite H end. set_solver.
    + rewrite notes_of_drafts, Hdr. by apply run_with.
  - intros Hl He. by destruct (appendMailboxEvents_is _ _ _ _ _ [] Hev Hl He) as (? & ? & ? & _).
Qed.

End effects.
