(* ===== verification/ThreadService.v ===== *)
(** The thread store as a service: the states it reaches, a run of it, and what holds across
    every statement of its transactions. *)
From S2P Require Import Prelude Sql ThreadData MailboxSpec ThreadTables ThreadStore ThreadState.
From S2P Require Import ThreadMailbox.

(** The thread store as a service: its operations that change the database, the
    states it reaches from an empty database, and what holds of every thread there. *)

(** The exported methods of [Store] that write, with their arguments. *)
Inductive ThreadOp : Type :=
  | OpCreate (command : ThreadCommand) (payload : string)
  | OpCreateConfigured (command : ThreadCommand) (spec : ThreadSpec)
  | OpCreateAtomic (command : ThreadCommand) (input : AtomicCreateInput) (now : Time)
  | OpAppend (command : ThreadCommand) (drafts : list EventDraft)
  | OpAppendTurn (command : ThreadCommand) (turn : string) (drafts : list EventDraft)
  | OpSubmit (command : ThreadCommand) (input : MessageInput)
  | OpSteer (command : ThreadCommand) (item turn : string)
  | OpEdit (command : ThreadCommand) (item content : string)
  | OpSafePoint (command : ThreadCommand) (turn : string)
  | OpDequeue (command : ThreadCommand) (item : string)
  | OpComplete (command : ThreadCommand) (turn : string)
  | OpFail (command : ThreadCommand) (turn detail : string)
  | OpInterrupt (command : ThreadCommand) (turn : string) (input : MessageInput)
  | OpCancel (command : ThreadCommand) (turn : string)
  | OpSettle (command : ThreadCommand) (turn : string)
  | OpCompact (command : ThreadCommand) (input : CompactionInput)
  | OpCreateDialog (input : CreateDialogInput)
  | OpResolveDialog (input : ResolveDialogInput)
  | OpArchive (command : ThreadCommand) (archived : bool) (now : Time)
  | OpSearch (query : ThreadCatalogQuery).

Inductive ThreadReply : Type :=
  | ReplyThread (r : ThreadResult)
  | ReplyMailbox (state : MailboxState)
  | ReplyCompaction (r : CompactionRecord)
  | ReplyDialog (d : PluginDialog)
  | ReplyPage (page : ThreadCatalogPage).

Definition replied {A} (reply : A → ThreadReply) (p : ThreadDB * result A) : ThreadDB * result ThreadReply :=
  (p.1, a ← p.2; Ok (reply a)).

(** A caller of [Append] and [AppendTurnEvents] gives payloads as bytes; a boundary is
    an unsigned integer. *)
Definition permitted (op : ThreadOp) : bool :=
  match op with
  | OpAppend _ drafts | OpAppendTurn _ _ drafts => forallb given drafts
  | OpCompact _ input => (0 <=? input.(CompactionInput_ThroughSequence))%Z
  | _ => true
  end.

Section service.
Context {env : ThreadEnv}.

(** One operation, with the random identifiers it may draw. *)
Definition perform (op : ThreadOp) (ids : list string) (db : ThreadDB) : ThreadDB * result ThreadReply :=
  match op with
  | OpCreate command payload => replied ReplyThread (runTx (CreateThread command payload) ids db)
  | OpCreateConfigured command spec => replied ReplyThread (runTx (CreateConfiguredThread command spec) ids db)
  | OpCreateAtomic command input now => replied ReplyMailbox (runTx (CreateAtomicThread command input now) ids db)
  | OpAppend command drafts => replied ReplyThread (runTx (Append command drafts) ids db)
  | OpAppendTurn command turn drafts => replied ReplyThread (runTx (AppendTurnEvents command turn drafts) ids db)
  | OpSubmit command input => replied ReplyMailbox (runTx (Submit command input) ids db)
  | OpSteer command item turn => replied ReplyMailbox (runTx (Steer command item turn) ids db)
  | OpEdit command item content => replied ReplyMailbox (runTx (EditQueued command item content) ids db)
  | OpSafePoint command turn => replied ReplyMailbox (runTx (SafePoint command turn) ids db)
  | OpDequeue command item => replied ReplyMailbox (runTx (Dequeue command item) ids db)
  | OpComplete command turn => replied ReplyMailbox (runTx (CompleteTurn command turn) ids db)
  | OpFail command turn detail => replied ReplyMailbox (runTx (FailTurn command turn detail) ids db)
  | OpInterrupt command turn input => replied ReplyMailbox (runTx (InterruptAndSubmit command turn input) ids db)
  | OpCancel command turn => replied ReplyMailbox (runTx (Cancel command turn) ids db)
  | OpSettle command turn => replied ReplyMailbox (runTx (SettleCancellation command turn) ids db)
  | OpCompact command input => replied ReplyCompaction (runTx (RecordCompaction command input) ids db)
  | OpCreateDialog input => replied ReplyDialog (runTx (CreatePendingDialog input) ids db)
  | OpResolveDialog input => replied ReplyDialog (runTx (ResolveDialog input) ids db)
  | OpArchive command archived now => replied ReplyThread (setThreadArchived command archived now ids db)
  | OpSearch query => replied ReplyPage (SearchThreadCatalog query db)
  end.

(** What one operation does to the threads: nothing, a new thread, or a step of one. *)
Definition change_of (db db' : ThreadDB) (ids : list string) : Prop :=
  same_threads db db' ∨ creation db db' ids ∨ ∃ id, is_Some (db.(threads) !! id) ∧ effect db db' id ids.

Lemma change_outcome db db' id ids : thread_outcome db db' id ids → change_of db db' ids.
Proof. intros [->|H]; [by left|]. right; right. by exists id. Qed.

Lemma runTx_cases {A} (body : tx A) ids db (P : ThreadDB → Prop) :
  P db → (∀ s a, body (mkSession db ids) = Ok (s, a) → P s.(se_db)) → P (runTx body ids db).1.
Proof.
  intros H0 H. unfold runTx, transact. destruct (body _) as [[s a]|e|] eqn:E; cbn; [by eapply H|done..].
Qed.

Lemma runTx_change {A} (body : tx A) ids db :
  (∀ s a, body (mkSession db ids) = Ok (s, a) → change_of db s.(se_db) ids) → change_of db (runTx body ids db).1 ids.
Proof. intros H. apply runTx_cases; [by left|done]. Qed.

Lemma archive_change command archived now ids db :
  change_of db (setThreadArchived command archived now ids db).1 ids.
Proof.
  unfold setThreadArchived. destruct (_ ≫= _); [|by left..]. apply runTx_cases; [by left|].
  intros s r H%archiveTx_outcome. destruct H as [->|[Hs He]]; [by left|]. right; right.
  exists (ThreadCommand_ThreadID command). split; [exact Hs|]. intros row l m Hr.
  destruct (He row l m) as [Ho Hx]; [by eapply untouched_represents, Hr; apply same_untouched|].
  split; [|exact Hx]. intros id' Hne. eapply untouched_trans; [|by apply Ho]. by apply same_untouched.
Qed.

Lemma perform_change op ids db : permitted op = true → change_of db (perform op ids db).1 ids.
Proof.
  intros Hp. destruct op; cbn in Hp; unfold perform, replied; cbn [fst];
    try (apply runTx_change; intros s r H).
  1: right; left; by eapply CreateThread_creation in H.
  1: right; left; by eapply CreateConfiguredThread_creation in H.
  1: right; left; by eapply CreateAtomicThread_creation in H.
  1: by eapply Append_outcome, change_outcome in H.
  1: by eapply AppendTurnEvents_outcome, change_outcome in H.
  1: by eapply Submit_outcome, change_outcome in H.
  1: by eapply Steer_outcome, change_outcome in H.
  1: by eapply EditQueued_outcome, change_outcome in H.
  1: by eapply SafePoint_outcome, change_outcome in H.
  1: by eapply Dequeue_outcome, change_outcome in H.
  1: by eapply CompleteTurn_outcome, change_outcome in H.
  1: by eapply FailTurn_outcome, change_outcome in H.
  1: by eapply InterruptAndSubmit_outcome, change_outcome in H.
  1: by eapply Cancel_outcome, change_outcome in H.
  1: by eapply SettleCancellation_outcome, change_outcome in H.
  1: by eapply RecordCompaction_outcome, change_outcome in H.
  1: by eapply CreatePendingDialog_outcome, change_outcome in H.
  - eapply ResolveDialog_outcome in H as [id H]. by eapply change_outcome.
  - apply archive_change.
  - unfold SearchThreadCatalog. by destruct (ThreadCatalogQuery_validate query); left.
Qed.

(** * The states the store reaches *)

(** No random identifier is drawn twice. *)
Inductive reached : list string → ThreadDB → Prop :=
  | reached_empty : reached [] ThreadDB_empty
  | reached_op used db op ids :
      reached used db → permitted op = true → NoDup (ids ++ used) →
      reached (ids ++ used) (perform op ids db).1.

Definition messageID (x : string) : string := "Q-" +:+ x.

(** A thread of the store is one of the machine's runs, over messages with the
    identifiers that were drawn. *)
Definition legitimate (used : list string) (db : ThreadDB) (id : string) (row : ThreadRow) : Prop :=
  ∃ l m submitted, represents db id row l m ∧ mailbox_run submitted m ∧ NoDup submitted ∧
    submitted ⊆ (messageID <$> used).

Record threads_sound (used : list string) (db : ThreadDB) : Prop := {
  so_thread : ∀ id row, db.(threads) !! id = Some row → legitimate used db id row;
  so_absent : ∀ id, db.(threads) !! id = None → absent db id;
}.

Lemma legitimate_untouched used ids db db' id row :
  untouched db db' id → legitimate used db id row → legitimate (ids ++ used) db' id row.
Proof.
  intros Hu (l & m & submitted & Hr & Hm & Hn & Hs). exists l, m, submitted.
  split_and!; [by eapply untouched_represents|done|done|]. rewrite fmap_app. set_solver.
Qed.

Lemma absent_untouched db db' id : untouched db db' id → absent db id → absent db' id.
Proof. intros [Hr He Hp] [Ar Ae Ap]. split; [by rewrite Hr|intros; by rewrite He|intros; by rewrite Hp]. Qed.

Lemma sound_others used ids db db' id :
  threads_sound used db → others db db' id →
  (∀ row, db'.(threads) !! id = Some row → legitimate (ids ++ used) db' id row) →
  is_Some (db'.(threads) !! id) → threads_sound (ids ++ used) db'.
Proof.
  intros [Ht Ha] Ho Hid Hs. split.
  - intros id' row Hrow. destruct (decide (id' = id)) as [->|Hne]; [by apply Hid|].
    eapply legitimate_untouched; [by apply Ho|]. apply Ht. by rewrite <- (un_row _ _ _ (Ho _ Hne)).
  - intros id' Hrow. destruct (decide (id' = id)) as [->|Hne]; [by destruct Hs; congruence|].
    eapply absent_untouched; [by apply Ho|]. apply Ha. by rewrite <- (un_row _ _ _ (Ho _ Hne)).
Qed.

Lemma drawn_submitted ids used label submitted :
  drawn ids label → NoDup (ids ++ used) → NoDup submitted → submitted ⊆ (messageID <$> used) →
  NoDup (option_list label ++ submitted) ∧ option_list label ++ submitted ⊆ (messageID <$> ids ++ used).
Proof.
  intros Hd Hn Hs Hin. rewrite fmap_app. destruct label as [q|]; cbn; [|split; [done|set_solver]].
  destruct (Hd q eq_refl) as (x & Hx & ->). split.
  - constructor; [|done]. intros (y & E & Hy)%Hin%list_elem_of_fmap. assert (x = y) as <- by (by injection E).
    apply NoDup_app in Hn as (_ & Hn & _). by apply (Hn x).
  - intros q [->|Hq]%elem_of_cons; apply elem_of_app; [left|right; by apply Hin]. apply list_elem_of_fmap. by exists x.
Qed.

Lemma change_sound used ids db db' :
  threads_sound used db → NoDup (ids ++ used) → change_of db db' ids → threads_sound (ids ++ used) db'.
Proof.
  intros Hsound Hn [Hs|[[->|(id & Hnone & Hc)]|(id & [row Hrow] & He)]].
  - destruct Hsound as [Ht Ha]. split; intros id.
    + intros row. rewrite (proj1 Hs). intros Hrow. eapply legitimate_untouched, Ht, Hrow. by apply same_untouched.
    + rewrite (proj1 Hs). intros Hrow. eapply absent_untouched, Ha, Hrow. by apply same_untouched.
  - destruct Hsound as [Ht Ha]. split; intros id; [|by apply Ha]. intros row Hrow.
    eapply legitimate_untouched, Ht, Hrow. apply untouched_refl.
  - destruct Hc as (Ho & row & l & m & label & Hr & Hd & Hrun); [by apply (so_absent _ _ Hsound)|].
    eapply sound_others; [done|exact Ho| |rewrite (re_row _ _ _ _ _ Hr); by eexists].
    intros row' Hrow'. rewrite (represents_row _ _ _ _ _ _ Hr Hrow').
    destruct (drawn_submitted ids used label [] Hd Hn) as [Hnd Hin]; [constructor|set_solver|]. rewrite app_nil_r in *.
    by exists l, m, (option_list label).
  - destruct (so_thread _ _ Hsound _ _ Hrow) as (l & m & submitted & Hr & Hrun & Hnd & Hin).
    destruct (He _ _ _ Hr) as (Ho & row' & l' & m' & label & Hr' & Hstep & Hd).
    eapply sound_others; [done|exact Ho| |rewrite (re_row _ _ _ _ _ Hr'); by eexists].
    intros row'' Hrow''. rewrite (represents_row _ _ _ _ _ _ Hr' Hrow'').
    destruct (drawn_submitted ids used label submitted Hd Hn Hnd Hin) as [Hnd' Hin'].
    exists (l ++ l'), m', (option_list label ++ submitted). split_and!; [done| |done..]. by econstructor.
Qed.

Lemma reached_sound used db : reached used db → threads_sound used db.
Proof.
  induction 1 as [|used db op ids Hr IH Hp Hn]; [by split|]. eapply change_sound, perform_change; done.
Qed.

(** Several operations, each with the random identifiers it may draw. *)
Fixpoint perform_all (ops : list (ThreadOp * list string)) (db : ThreadDB) : ThreadDB :=
  match ops with
  | [] => db
  | (op, ids) :: ops => perform_all ops (perform op ids db).1
  end.
Fixpoint used_by (ops : list (ThreadOp * list string)) (used : list string) : list string :=
  match ops with
  | [] => used
  | (_, ids) :: ops => used_by ops (ids ++ used)
  end.
Fixpoint admissible_run (used : list string) (ops : list (ThreadOp * list string)) : Prop :=
  match ops with
  | [] => True
  | (op, ids) :: ops => permitted op = true ∧ NoDup (ids ++ used) ∧ admissible_run (ids ++ used) ops
  end.

#[export] Instance admissible_run_dec used ops : Decision (admissible_run used ops).
Proof. revert used. induction ops as [|[op ids] ops IH]; intros used; cbn; apply _. Defined.

Lemma perform_all_reached ops used db :
  reached used db → admissible_run used ops → reached (used_by ops used) (perform_all ops db).
Proof.
  revert used db. induction ops as [|[op ids] ops IH]; intros used db Hr Ha; cbn in *; [done|].
  destruct Ha as (Hp & Hn & Ha). apply IH; [by constructor|done].
Qed.

End service.

(** A run of the thread store on concrete values: one thread, its messages, and the
    turns it ends in each way. *)

(** A request is identified by its command. *)
Definition request_command (request : ThreadRequest) : ThreadCommand :=
  match request with
  | RequestDrafts c _ | RequestTurnDrafts c _ _ | RequestMessage c _ | RequestSteer c _ _ | RequestEdit c _ _
  | RequestText c _ | RequestFailure c _ _ | RequestInterrupt c _ _ | RequestCreate c _ => c
  end.

(** Cursors as fields with bars between. *)
Fixpoint split_bars (s : string) : list string :=
  match s with
  | EmptyString => [""]
  | String c s =>
      if Ascii.eqb c (Ascii.ascii_of_nat 124) then "" :: split_bars s
      else match split_bars s with x :: l => String c x :: l | [] => [String c ""] end
  end.
Definition sample_encode (c : threadCatalogCursor) : string :=
  c.(threadCatalogCursor_ProjectID) +:+ "|" +:+ c.(threadCatalogCursor_Search) +:+ "|" +:+ c.(threadCatalogCursor_Archive)
    +:+ "|" +:+ c.(threadCatalogCursor_UpdatedAt) +:+ "|" +:+ c.(threadCatalogCursor_ThreadID).
Definition sample_decode (s : string) : result threadCatalogCursor :=
  match split_bars s with
  | [project; search; archive; updated; thread] => Ok (mkthreadCatalogCursor 1 project search archive updated thread)
  | _ => Err (ErrNew "cursor")
  end.

#[export] Instance sample_threads : ThreadEnv := {|
  hashThreadRequest request := Ok (request_command request).(ThreadCommand_CommandID);
  thread_json_Valid _ := true;
  filepath_EvalSymlinks path := Ok path;
  time_RFC3339Nano _ := "2026-01-01T00:00:00Z";
  encodeCursor := sample_encode;
  decodeCursor := sample_decode;
  strings_ToLower s := s;
|}.

Definition sample_command (name : string) (type : ThreadCommandType) : ThreadCommand :=
  mkThreadCommand thread_SchemaVersion name name "alice" type "T-1" None "{}".

Definition sample_spec : ThreadSpec := mkThreadSpec "sample" "/work" AgentModeMedium (mkExecutorTarget ExecutorLocal "").

Definition sample_message (content : string) : MessageInput := mkMessageInput content QueueNormal.

Definition sample_create : ThreadOp * list string :=
  (OpCreateConfigured (sample_command "create" CommandThreadCreate) sample_spec, ["1"; "2"]).
Definition sample_submit (name : string) (ids : list string) : ThreadOp * list string :=
  (OpSubmit (sample_command name CommandMessageSubmit) (sample_message name), ids).

(** Two messages: the first starts a turn, the second waits. *)
Definition busy_ops : list (ThreadOp * list string) :=
  [sample_create; sample_submit "first" ["3"; "4"; "5"; "6"]; sample_submit "second" ["7"; "8"]].
(** The turn is cancelled: the thread is idle while the second message waits. *)
Definition idle_ops : list (ThreadOp * list string) := busy_ops ++
  [(OpCancel (sample_command "cancel" CommandTurnCancel) "R-4", ["9"]);
   (OpSettle (sample_command "settle" CommandTurnSettleCancelled) "R-4", ["10"])].
(** The turn fails instead. *)
Definition failed_ops : list (ThreadOp * list string) := busy_ops ++
  [(OpFail (sample_command "fail" CommandTurnFail) "R-4" "no model", ["11"])].

(** A plugin asks in the first turn and in the second; then both questions are answered. *)
Definition sample_dialog (turn : string) (ids : list string) : ThreadOp * list string :=
  (OpCreateDialog (mkCreateDialogInput "T-1" turn "plugin" 1 turn 10%Z "confirm" "{}" None), ids).
Definition sample_answer (dialog : string) (ids : list string) : ThreadOp * list string :=
  (OpResolveDialog (mkResolveDialogInput dialog "alice" 1 None "{}"), ids).
Definition asking_ops : list (ThreadOp * list string) := busy_ops ++
  [sample_dialog "R-4" ["30"; "31"];
   (OpComplete (sample_command "done" CommandTurnComplete) "R-4", ["32"; "33"; "34"; "35"]);
   sample_dialog "R-32" ["36"; "37"]].
Definition answered_ops : list (ThreadOp * list string) := asking_ops ++
  [sample_answer "D-36" ["38"]; sample_answer "D-30" ["39"]].

(** Three threads of a project. *)
Definition sample_input (title : string) : AtomicCreateInput :=
  mkAtomicCreateInput (sample_spec <| ThreadSpec_Title := title |>) (mkProjectIdentity "project" "Project")
    (mkAgentDefinitionSnapshot "agent" "1" "Agent" "be brief" "" "" [] AgentModeMedium "") Provenance_zero "hello".
Definition sample_atomic (name : string) (ids : list string) : ThreadOp * list string :=
  (OpCreateAtomic (sample_command name CommandThreadCreate) (sample_input name) 0%Z, ids).
Definition project_ops : list (ThreadOp * list string) :=
  [sample_atomic "one" ["1"; "2"; "3"; "4"; "5"; "6"]; sample_atomic "two" ["11"; "12"; "13"; "14"; "15"; "16"];
   sample_atomic "three" ["21"; "22"; "23"; "24"; "25"; "26"]].

Definition sample_db (ops : list (ThreadOp * list string)) : ThreadDB := perform_all ops ThreadDB_empty.
Definition sample_used (ops : list (ThreadOp * list string)) : list string := used_by ops [].

Lemma sample_reached ops : admissible_run [] ops → reached (sample_used ops) (sample_db ops).
Proof. apply perform_all_reached. constructor. Qed.

Definition sample_row (ops : list (ThreadOp * list string)) : ThreadRow :=
  default (mkThreadRow 0 "" "" false "" "" "" "" "" ProjectIdentity_zero AgentDefinitionSnapshot_zero Provenance_zero)
    ((sample_db ops).(threads) !! "T-1").

(** The run gets there: its row is the one in the table. *)
Lemma sample_thread ops :
  is_Some_b ((sample_db ops).(threads) !! "T-1") = true → (sample_db ops).(threads) !! "T-1" = Some (sample_row ops).
Proof. unfold sample_row. by destruct (threads _ !! _). Qed.

(** Relations between databases that the transactions of the store stay in: one that
    holds across every statement holds across every operation. *)

Definition keeps (R : relation ThreadDB) {A} (m : tx A) : Prop :=
  ∀ s s' a, m s = Ok (s', a) → R s.(se_db) s'.(se_db).
Definition keeps_db (R : relation ThreadDB) (f : ThreadDB → result ThreadDB) : Prop :=
  ∀ db db', f db = Ok db' → R db db'.

(** What a relation promises of the statements, all but the insertion of a compaction. *)
Class Stable (R : relation ThreadDB) : Prop := {
  stable_preorder :: PreOrder R;
  stable_thread id row : keeps_db R (λ db, insertThread db id row);
  stable_catalog id row : keeps_db R (λ db, insertCatalog db id row);
  stable_archive db id row : R db (db <| thread_catalog := <[id := row]> db.(thread_catalog) |>);
  stable_ensure db : R db (ensureThreadCatalog db);
  stable_sequence id v f : keeps_db R (λ db, setSequence db id v f);
  stable_event e : keeps_db R (λ db, insertEvent db e);
  stable_enqueue id item : keeps_db R (λ db, insertQueueItem db id item);
  stable_dequeue id q : keeps_db R (λ db, deleteQueueItem db id q);
  stable_pending id q f : keeps_db R (λ db, updatePending db id q f);
  stable_dialog d : keeps_db R (λ db, insertDialog db d);
  stable_resolve db id d : R db (db <| plugin_dialogs := <[id := d]> db.(plugin_dialogs) |>);
  stable_command command row : keeps_db R (λ db, insertCommandRow db command row);
}.

Create HintDb stable.

Section stable.
Context {R : relation ThreadDB} `{!Stable R}.

Lemma keeps_ret {A} (a : A) : keeps R (mret a).
Proof. intros s s' b H. by inv_tx. Qed.
Lemma keeps_seq {A B} (m : tx A) (f : A → tx B) : keeps R m → (∀ a, keeps R (f a)) → keeps R (m ≫= f).
Proof. intros Hm Hf s s' b (s1 & a & H1 & H2)%tx_bind_Ok. etrans; [by eapply Hm|by eapply Hf]. Qed.
Lemma keeps_lift {A} (m : result A) : keeps R (lift_result m).
Proof. intros s s' a H. by inv_tx. Qed.
Lemma keeps_read {A} (f : ThreadDB → A) : keeps R (read f).
Proof. intros s s' a H. by inv_tx. Qed.
Lemma keeps_query {A} (f : ThreadDB → result A) : keeps R (query f).
Proof. intros s s' a H. by inv_tx. Qed.
Lemma keeps_randomID prefix : keeps R (randomID prefix).
Proof. intros s s' a H. by inv_tx. Qed.
Lemma keeps_execute f : keeps_db R f → keeps R (execute f).
Proof. intros Hf s s' a H. inv_tx. by eapply Hf. Qed.
Lemma keeps_wrap g (f : ThreadDB → result ThreadDB) : keeps_db R f → keeps_db R (λ db, wrap_err g (f db)).
Proof. intros Hf db db' H. inv_sql. by apply Hf. Qed.

Lemma keeps_insertCommand command hash r : keeps_db R (insertCommand command hash r).
Proof. apply keeps_wrap, stable_command. Qed.
Lemma keeps_archived id row : keeps_db R (λ db, Ok (db <| thread_catalog := <[id := row]> db.(thread_catalog) |>)).
Proof. intros db db' [= <-]. apply stable_archive. Qed.
Lemma keeps_resolved id d v w : keeps_db R (λ db, bindUint64 v ;; bindUint64 w ;;
  Ok (db <| plugin_dialogs := <[id := d]> db.(plugin_dialogs) |>)).
Proof. intros db db' H. inv_ok. apply stable_resolve. Qed.

Hint Resolve keeps_ret keeps_seq keeps_lift keeps_read keeps_query keeps_randomID keeps_execute keeps_wrap
  stable_thread stable_catalog stable_sequence stable_event stable_enqueue stable_dequeue stable_pending
  stable_dialog stable_command keeps_insertCommand keeps_archived keeps_resolved : stable.

(** Walks the body of a transaction. *)
Ltac walk_keeps := repeat (cbn beta zeta iota;
  lazymatch goal with
  | |- keeps _ (_ ≫= _) => apply keeps_seq; [|intros ?]
  | |- keeps _ (match ?x with _ => _ end) => destruct x
  | |- keeps _ (if ?x then _ else _) => destruct x
  | |- keeps _ _ => solve [eauto with stable]
  end).

Lemma keeps_appendEvent id v draft : keeps R (appendThreadEvent id v draft).
Proof. unfold appendThreadEvent. walk_keeps. Qed.
Hint Resolve keeps_appendEvent : stable.

Lemma keeps_appendMailboxEvents id v drafts : keeps R (appendMailboxEvents id v drafts).
Proof. revert v. induction drafts as [|draft drafts IH]; intros v; cbn [appendMailboxEvents]; walk_keeps. Qed.
Lemma keeps_enqueue id q class st content : keeps R (enqueue id q class st content).
Proof. unfold enqueue. walk_keeps. Qed.
Lemma keeps_startTurn state q content : keeps R (startTurn state q content).
Proof. unfold startTurn. walk_keeps. Qed.
Hint Resolve keeps_appendMailboxEvents keeps_enqueue keeps_startTurn : stable.
Lemma keeps_continueWith id state ended found : keeps R (continueWith id state ended found).
Proof. unfold continueWith. walk_keeps. Qed.
Hint Resolve keeps_continueWith : stable.

Context {env : ThreadEnv}.

Lemma keeps_mailbox command request mutate : (∀ state, keeps R (mutate state)) → keeps R (mutateMailbox command request mutate).
Proof. intros Hm. unfold mutateMailbox, saveMailbox, insertMailboxCommand. walk_keeps. Qed.
Lemma keeps_appendDrafts command hash v drafts : keeps R (appendDrafts command hash v drafts).
Proof. unfold appendDrafts, advanceSequence. walk_keeps. Qed.
Lemma keeps_createThread command payload spec : keeps R (createThread command payload spec).
Proof. unfold createThread. walk_keeps. Qed.
Hint Resolve keeps_appendDrafts keeps_createThread : stable.

(** The body of a mailbox operation. *)
Ltac walk_mailbox := walk_keeps; apply keeps_mailbox; intros ?; walk_keeps.

Lemma runTx_keeps {A} (body : tx A) ids db : keeps R body → R db (runTx body ids db).1.
Proof. intros Hk. apply runTx_cases; [reflexivity|]. intros s a H. by apply Hk in H. Qed.

(** An operation stays in the relation; a compaction does when its insertion does. *)
Lemma perform_keeps op ids db :
  (match op with OpCompact _ _ => ∀ id c row, keeps_db R (λ db, insertCompaction db id c row) | _ => True end) →
  R db (perform op ids db).1.
Proof.
  intros Hcompact.
  destruct op; unfold perform, replied; cbn [fst]; try apply runTx_keeps.
  - apply keeps_createThread.
  - unfold CreateConfiguredThread. walk_keeps.
  - unfold CreateAtomicThread, insertMailboxCommand. walk_keeps.
  - unfold Append. walk_keeps.
  - unfold AppendTurnEvents. walk_keeps.
  - unfold Submit. walk_mailbox.
  - unfold Steer. walk_mailbox.
  - unfold EditQueued. walk_mailbox.
  - unfold SafePoint. walk_mailbox.
  - unfold Dequeue. walk_mailbox.
  - unfold CompleteTurn. walk_mailbox.
  - unfold FailTurn. walk_mailbox.
  - unfold InterruptAndSubmit. walk_mailbox.
  - unfold Cancel. walk_mailbox.
  - unfold SettleCancellation. walk_mailbox.
  - unfold RecordCompaction, advanceSequence. walk_keeps.
  - unfold CreatePendingDialog, dialogEvent. walk_keeps.
  - unfold ResolveDialog, dialogEvent. walk_keeps.
  - unfold setThreadArchived. destruct (_ ≫= _); [|reflexivity..]. etrans; [apply (stable_ensure db)|]. apply (runTx_keeps _ _ (ensureThreadCatalog db)).
    unfold archiveTx, advanceSequence. walk_keeps.
  - unfold SearchThreadCatalog. destruct (ThreadCatalogQuery_validate query); [apply stable_ensure|reflexivity..].
Qed.

End stable.
