(* ===== verification/ThreadSafety.v ===== *)
(** What the thread store keeps on every run: each operation is one step of the
    mailbox of a thread, logs only grow, a message is in one place, and an idle thread
    passes over the messages that wait in it. *)
From S2P Require Import Prelude Sql ThreadData MailboxSpec ThreadTables ThreadStore ThreadState.
From S2P Require Import ThreadMailbox ThreadService.

Section safety.
Context {env : ThreadEnv}.

(** * What the tables say *)

Definition thread_log (db : ThreadDB) (id : string) : list ThreadEvent := eventsAfter db id 0.

Definition phase_of (row : ThreadRow) : phase :=
  if row.(tr_activity) == ActivityError then Broken
  else if row.(tr_activity) == ActivityIdle then Idle
  else Busy row.(tr_active_turn_id) (row.(tr_activity) == ActivityAwaitingApproval) row.(tr_cancel_requested).

(** The mailbox a thread's rows stand for. *)
Definition mailbox_of (db : ThreadDB) (id : string) (row : ThreadRow) : mailbox :=
  mkMailbox (phase_of row) (loadQueue db id) (notes_of (thread_log db id)).

Lemma represents_log db id row l m : represents db id row l m → thread_log db id = l.
Proof.
  intros Hr. unfold thread_log. by rewrite (eventsAfter_is _ _ _ _ (re_log _ _ _ _ _ Hr) (re_events _ _ _ _ _ Hr)) by done.
Qed.

Lemma represents_mailbox db id row l m : represents db id row l m → mailbox_of db id row = m.
Proof.
  intros Hr. unfold mailbox_of. rewrite (represents_log _ _ _ _ _ Hr), <- (re_notes _ _ _ _ _ Hr).
  rewrite (loadQueue_is _ _ _ (re_queue _ _ _ _ _ Hr)). destruct m as [p queue log]. cbn. f_equal.
  pose proof (re_phase _ _ _ _ _ Hr) as Hp. unfold phase_of. cbn in Hp.
  destruct p as [|t [|] c|]; cbn in Hp; destruct_and?; subst;
    match goal with H : tr_activity row = _ |- _ => rewrite H end; cbn; congruence.
Qed.

(** * Every operation is a step of the mailbox *)

(** On every reachable database each operation, whatever it returns, is one step of
    the mailbox of every thread, and appends to its log. *)
Lemma thread_step used db op ids id row :
  reached used db → permitted op = true → NoDup (ids ++ used) → db.(threads) !! id = Some row →
  ∃ row' l' label,
    (perform op ids db).1.(threads) !! id = Some row' ∧
    thread_log (perform op ids db).1 id = thread_log db id ++ l' ∧
    mailbox_step (mailbox_of db id row) label (mailbox_of (perform op ids db).1 id row') ∧ drawn ids label.
Proof.
  intros Hr Hp Hn Hrow. destruct (reached_sound _ _ Hr) as [Ht Ha].
  destruct (Ht _ _ Hrow) as (l & m & _ & Hm & _).
  enough (∃ row' l' m' label, represents (perform op ids db).1 id row' (l ++ l') m' ∧ mailbox_step m label m' ∧ drawn ids label)
    as (row' & l' & m' & label & Hm' & Hs & Hd).
  { exists row', l', label. rewrite (represents_log _ _ _ _ _ Hm), (represents_log _ _ _ _ _ Hm').
    rewrite (represents_mailbox _ _ _ _ _ Hm), (represents_mailbox _ _ _ _ _ Hm'). by split_and!; [apply Hm'|..]. }
  assert (∀ db', untouched db db' id → ∃ row' l' m' label,
    represents db' id row' (l ++ l') m' ∧ mailbox_step m label m' ∧ drawn ids label) as Hquiet.
  { intros db' Hu. exists row, [], m, None. rewrite app_nil_r.
    split_and!; [by eapply untouched_represents|constructor|done]. }
  destruct (perform_change op ids db Hp) as [Hs|[[->|(id' & Hnone & Hc)]|(id' & [row' Hrow'] & He)]].
  - by apply Hquiet, same_untouched.
  - apply Hquiet, untouched_refl.
  - destruct Hc as [Ho _]; [by apply Ha|]. apply Hquiet, Ho. congruence.
  - destruct (decide (id = id')) as [<-|Hne].
    + destruct (He _ _ _ Hm) as (_ & row'' & l' & m' & label & ?). by exists row'', l', m', label.
    + destruct (Ht _ _ Hrow') as (l0 & m0 & _ & Hm0 & _). apply Hquiet. by apply (He _ _ _ Hm0).
Qed.

(** The same of several operations: the mailbox makes steps, the log grows. *)
Lemma thread_steps used db ops id row :
  reached used db → admissible_run used ops → db.(threads) !! id = Some row →
  ∃ row' l',
    (perform_all ops db).(threads) !! id = Some row' ∧ thread_log (perform_all ops db) id = thread_log db id ++ l' ∧
    rtc (λ m m', ∃ label, mailbox_step m label m') (mailbox_of db id row) (mailbox_of (perform_all ops db) id row').
Proof.
  revert used db row. induction ops as [|[op ids] ops IH]; intros used db row Hr Ha Hrow; cbn.
  { exists row, []. by rewrite app_nil_r. }
  destruct Ha as (Hp & Hn & Ha). destruct (thread_step _ _ _ _ _ _ Hr Hp Hn Hrow) as (row1 & l1 & label & Hrow1 & Hl1 & Hs1 & _).
  destruct (IH (ids ++ used) _ _ ltac:(by constructor) Ha Hrow1) as (row2 & l2 & Hrow2 & Hl2 & Hs2).
  exists row2, (l1 ++ l2). split_and!; [done|by rewrite Hl2, Hl1, app_assoc|]. eapply rtc_l; [by exists label|done].
Qed.

(** * Messages *)

(** C10: On every reachable database a message is in one place: it waits in the queue of its
    thread, or the log says it was delivered, once, or withdrawn, once; and every
    message the log says was queued is in one of these places, so none is lost. *)
Theorem messages_delivered_once used db id row :
  reached used db → db.(threads) !! id = Some row →
  let notes := notes_of (thread_log db id) in
  let places := (id_of <$> loadQueue db id) ++ noted EventMessageAccepted notes ++ noted EventMessageDequeued notes in
  NoDup places ∧ ∀ q, q ∈ noted EventMessageQueued notes → q ∈ places.
Proof.
  intros Hr Hrow. destruct (so_thread _ _ (reached_sound _ _ Hr) _ _ Hrow) as (l & m & submitted & Hm & Hrun & Hnd & _).
  cbn zeta. apply represents_mailbox in Hm. change (notes_of (thread_log db id)) with (mb_log (mailbox_of db id row)).
  change (loadQueue db id) with (mb_queue (mailbox_of db id row)). rewrite Hm.
  pose proof (run_placed _ _ Hrun Hnd) as Hp. unfold placed, waiting, delivered, withdrawn in Hp.
  split; [by rewrite Hp|]. intros q Hq. rewrite Hp. by apply (run_queued _ _ Hrun).
Qed.

(** * Logs *)

(** On every reachable database the log of a thread is numbered from one without
    gaps up to the sequence of its row, every event of it is valid, and [Replay]
    returns the part of it after a cursor. *)
Theorem replay_reads_the_log used db id row :
  reached used db → db.(threads) !! id = Some row → id ≠ "" →
  let log := thread_log db id in
  row.(tr_last_sequence) = Z.of_nat (length log) ∧
  (∀ n e, log !! n = Some e → e.(ThreadEvent_ThreadID) = id ∧ e.(ThreadEvent_Sequence) = (Z.of_nat n + 1)%Z ∧
     ThreadEvent_Validate e = Ok tt) ∧
  ∀ after limit, (0 ≤ after < 9223372036854775808)%Z → (0 ≤ limit)%Z →
    Thread_Replay id after limit db =
      Ok (let events := drop (Z.to_nat after) log in if (0 <? limit)%Z then take (Z.to_nat limit) events else events).
Proof.
  intros Hr Hrow Hid. destruct (so_thread _ _ (reached_sound _ _ Hr) _ _ Hrow) as (l & m & submitted & Hm & _).
  cbn zeta. rewrite (represents_log _ _ _ _ _ Hm). split_and!; [apply Hm..|]. intros after limit Ha Hl.
  unfold Thread_Replay. rewrite (proj2 (String.eqb_neq _ _) Hid), (proj2 (Z.ltb_ge limit 0)), bindUint64_small by lia. cbn.
  by rewrite (eventsAfter_is _ _ _ _ (re_log _ _ _ _ _ Hm) (re_events _ _ _ _ _ Hm)) by lia.
Qed.

(** Whatever operations follow, the log of a thread is only extended: no event is
    changed, removed or inserted before another. *)
Theorem log_only_grows used db ops id row :
  reached used db → admissible_run used ops → db.(threads) !! id = Some row →
  is_Some ((perform_all ops db).(threads) !! id) ∧ thread_log db id `prefix_of` thread_log (perform_all ops db) id.
Proof.
  intros Hr Ha Hrow. destruct (thread_steps _ _ _ _ _ Hr Ha Hrow) as (row' & l' & -> & -> & _).
  split; [by eexists|by eexists].
Qed.

(** C9: On every reachable database each operation is one step of the abstract mailbox of
    each thread, whatever the operation returns: the phase, the queue and the notes
    of the log move together, and a message that is submitted has a fresh name. *)
Theorem operations_refine_mailbox used db op ids id row :
  reached used db → permitted op = true → NoDup (ids ++ used) → db.(threads) !! id = Some row →
  ∃ row' label,
    (perform op ids db).1.(threads) !! id = Some row' ∧
    mailbox_step (mailbox_of db id row) label (mailbox_of (perform op ids db).1 id row') ∧ drawn ids label.
Proof.
  intros Hr Hp Hn Hrow. destruct (thread_step _ _ _ _ _ _ Hr Hp Hn Hrow) as (row' & l' & label & H1 & _ & H2 & H3).
  by exists row', label.
Qed.

(** * Threads that stop *)

(** What the log of a thread says was delivered or started. *)
Definition deliveries (db : ThreadDB) (id : string) : list note :=
  List.filter starts (notes_of (thread_log db id)).

Lemma filter_none {A} (f : A → bool) l : existsb f l = false → List.filter f l = [].
Proof. induction l as [|x l IH]; [done|]. cbn. destruct (f x); [done|]. exact IH. Qed.

Lemma phase_of_broken row : phase_of row = Broken ↔ row.(tr_activity) = ActivityError.
Proof.
  unfold phase_of. destruct (String.eqb_spec (tr_activity row) ActivityError); [done|].
  by destruct (String.eqb_spec (tr_activity row) ActivityIdle).
Qed.
Lemma phase_of_idle row : phase_of row = Idle ↔ row.(tr_activity) = ActivityIdle.
Proof.
  unfold phase_of. destruct (String.eqb_spec (tr_activity row) ActivityError) as [->|]; [done|].
  by destruct (String.eqb_spec (tr_activity row) ActivityIdle).
Qed.

(** An idle thread delivers none of the messages that wait in it: an operation either
    delivers nothing there, or starts a turn with a message it brings itself, ahead
    of all that wait. *)
Theorem idle_thread_passes_over_its_queue used db op ids id row :
  reached used db → permitted op = true → NoDup (ids ++ used) → db.(threads) !! id = Some row →
  row.(tr_activity) = ActivityIdle →
  ∃ row', (perform op ids db).1.(threads) !! id = Some row' ∧
    (row'.(tr_activity) = ActivityIdle ∧ deliveries (perform op ids db).1 id = deliveries db id ∨
     ∃ q turn content, deliveries (perform op ids db).1 id = deliveries db id ++ accepts q turn content ∧
       loadQueue (perform op ids db).1 id = loadQueue db id ∧ q ∉ id_of <$> loadQueue db id).
Proof.
  intros Hr Hp Hn Hrow Hidle. destruct (thread_step _ _ _ _ _ _ Hr Hp Hn Hrow) as (row' & _ & label & Hrow' & _ & Hs & Hd).
  exists row'. split; [done|]. unfold deliveries. apply idle_step in Hs; [|by apply phase_of_idle].
  cbn [mailbox_of mb_phase mb_log mb_queue] in Hs. rewrite phase_of_idle in Hs.
  destruct Hs as [(Hi & notes & -> & Hno)|(q & turn & content & -> & Hq & ->)]; [left|right].
  - by rewrite List.filter_app, (filter_none _ notes Hno), app_nil_r.
  - exists q, turn, content. rewrite List.filter_app. split_and!; [done..|].
    destruct (so_thread _ _ (reached_sound _ _ Hr) _ _ Hrow) as (l & m & submitted & Hm & Hrun & Hnd & Hin).
    pose proof (run_placed _ _ Hrun Hnd) as Hpl. apply represents_mailbox in Hm. subst m. cbn in Hpl.
    destruct (drawn_submitted _ _ _ _ Hd Hn Hnd Hin) as [[Hq' _]%NoDup_cons _].
    contradict Hq'. rewrite <- Hpl. unfold placed, waiting. apply elem_of_app. by left.
Qed.

End safety.

(** * On the sample run *)

Lemma messages_delivered_once_witness :
  let notes := notes_of (thread_log (sample_db busy_ops) "T-1") in
  noted EventMessageQueued notes = ["Q-7"] ∧ noted EventMessageAccepted notes = ["Q-3"] ∧
  NoDup ((id_of <$> loadQueue (sample_db busy_ops) "T-1") ++ noted EventMessageAccepted notes ++ noted EventMessageDequeued notes).
Proof.
  split_and!; [vm_compute; reflexivity..|].
  apply (messages_delivered_once (sample_used busy_ops) _ "T-1" (sample_row busy_ops));
    [apply sample_reached; by_decide|apply sample_thread; by vm_compute].
Defined.

Lemma replay_reads_the_log_witness :
  length (thread_log (sample_db busy_ops) "T-1") = 4 ∧
  Thread_Replay "T-1" 1 2 (sample_db busy_ops) = Ok (take 2 (drop 1 (thread_log (sample_db busy_ops) "T-1"))).
Proof.
  split; [by vm_compute|].
  destruct (replay_reads_the_log (sample_used busy_ops) (sample_db busy_ops) "T-1" (sample_row busy_ops)) as (_ & _ & H);
    [apply sample_reached; by_decide|apply sample_thread; by vm_compute|done|]. by apply (H 1 2)%Z.
Defined.

Lemma log_only_grows_witness :
  let rest := [sample_submit "third" ["20"; "21"]] in
  length (thread_log (sample_db busy_ops) "T-1") = 4 ∧
  length (thread_log (perform_all rest (sample_db busy_ops)) "T-1") = 5 ∧
  thread_log (sample_db busy_ops) "T-1" `prefix_of` thread_log (perform_all rest (sample_db busy_ops)) "T-1".
Proof.
  split_and!; [by vm_compute..|].
  apply (log_only_grows (sample_used busy_ops) _ _ "T-1" (sample_row busy_ops));
    [apply sample_reached; by_decide|by_decide|apply sample_thread; by vm_compute].
Defined.

Lemma operations_refine_mailbox_witness :
  ∃ row' label,
    (sample_db busy_ops).(threads) !! "T-1" = Some row' ∧
    mailbox_step (mailbox_of (sample_db (take 2 busy_ops)) "T-1" (sample_row (take 2 busy_ops))) label
      (mailbox_of (sample_db busy_ops) "T-1" row') ∧ drawn ["7"; "8"] label.
Proof.
  apply (operations_refine_mailbox (sample_used (take 2 busy_ops)) (sample_db (take 2 busy_ops))
    (OpSubmit (sample_command "second" CommandMessageSubmit) (sample_message "second")) ["7"; "8"]);
    [apply sample_reached; by_decide|done|by_decide|apply sample_thread; by vm_compute].
Defined.

Lemma idle_thread_passes_over_its_queue_witness :
  let op := OpSubmit (sample_command "third" CommandMessageSubmit) (sample_message "third") in
  let ids := ["20"; "21"; "22"; "23"] in
  waiting (mailbox_of (sample_db idle_ops) "T-1" (sample_row idle_ops)) = ["Q-7"] ∧
  deliveries (perform op ids (sample_db idle_ops)).1 "T-1"
    = deliveries (sample_db idle_ops) "T-1" ++ accepts "Q-20" "R-21" "third" ∧
  ∃ row', (perform op ids (sample_db idle_ops)).1.(threads) !! "T-1" = Some row' ∧
    (row'.(tr_activity) = ActivityIdle ∧ deliveries (perform op ids (sample_db idle_ops)).1 "T-1" = deliveries (sample_db idle_ops) "T-1" ∨
     ∃ q turn content, deliveries (perform op ids (sample_db idle_ops)).1 "T-1" = deliveries (sample_db idle_ops) "T-1" ++ accepts q turn content ∧
       loadQueue (perform op ids (sample_db idle_ops)).1 "T-1" = loadQueue (sample_db idle_ops) "T-1" ∧
       q ∉ id_of <$> loadQueue (sample_db idle_ops) "T-1").
Proof.
  split_and!; [by vm_compute..|].
  apply (idle_thread_passes_over_its_queue (sample_used idle_ops) _ _ _ "T-1" (sample_row idle_ops));
    [apply sample_reached; by_decide|done|by_decide|apply sample_thread; by vm_compute|by vm_compute].
Defined.

(** A question that a turn leaves behind when it ends keeps the next turn waiting for an
    approval after every question of the thread was answered. *)
Example approval_outlives_its_dialogs :
  pendingCount "T-1" (sample_db asking_ops) = 2 ∧ pendingCount "T-1" (sample_db answered_ops) = 0 ∧
  (sample_row answered_ops).(tr_activity) = ActivityAwaitingApproval ∧
  (sample_row answered_ops).(tr_active_turn_id) = "R-32".
Proof. by vm_compute. Qed.
