(* ===== verification/ThreadProgress.v ===== *)
(** A turn of a thread can be ended, a thread whose turn failed takes messages and delivers
    none, and a command that is repeated gets its result again. *)
From S2P Require Import Prelude Sql ThreadData MailboxSpec ThreadTables ThreadStore ThreadState.
From S2P Require Import ThreadMailbox ThreadService ThreadSafety.

(** A turn can be ended: when the random source and the range of sequences allow it,
    [CompleteTurn] succeeds, and starts the next message that waits. *)

(** A draft that makes a valid event under any sequence. *)
Definition storable (draft : EventDraft) : bool :=
  (draft.(EventDraft_Type) != "")
  && existsb (String.eqb draft.(EventDraft_Visibility)) [VisibilityInternal; VisibilityUser; VisibilityAudit]
  && (draft.(EventDraft_Provenance).(Provenance_ParentThreadID) == "").

Lemma storable_valid x id v draft :
  storable draft = true → id ≠ "" → (v ≠ 0)%Z → ThreadEvent_Validate (eventOf ("E-" +:+ x) id v draft) = Ok tt.
Proof.
  unfold storable, ThreadEvent_Validate. cbn [eventOf ThreadEvent_Provenance ThreadEvent_SchemaVersion ThreadEvent_EventID
    ThreadEvent_ThreadID ThreadEvent_Sequence ThreadEvent_Type ThreadEvent_Visibility].
  intros [[Ht Hv]%andb_true_iff Hp]%andb_true_iff Hid Hz. rewrite Hv, Hp. apply negb_true_iff in Ht. rewrite Ht.
  rewrite (proj2 (String.eqb_neq id "") Hid), (proj2 (Z.eqb_neq v 0) Hz). cbn -[String.eqb]. by rewrite andb_false_r.
Qed.

Section progress.
Context {env : ThreadEnv}.

Lemma appendEvent_progress id l draft s x rest :
  is_Some (s.(se_db).(threads) !! id) → log_is s.(se_db) id l → id ≠ "" → storable draft = true →
  (Z.of_nat (length l) + 1 < 9223372036854775808)%Z → s.(se_ids) = x :: rest →
  let e := eventOf ("E-" +:+ x) id (Z.of_nat (length l) + 1) draft in
  ∃ db', appendThreadEvent id (u64 (Z.of_nat (length l) + 1)) draft s = Ok (mkSession db' rest, e) ∧
    db'.(threads) = s.(se_db).(threads) ∧ db'.(thread_commands) = s.(se_db).(thread_commands) ∧ log_is db' id (l ++ [e]).
Proof.
  intros [row Hrow] Hl Hid Hs Hlen Hids e. rewrite u64_small by (unfold two64; lia).
  assert (∃ db', insertEvent s.(se_db) e = Ok db' ∧ db'.(threads) = s.(se_db).(threads) ∧
    db'.(thread_commands) = s.(se_db).(thread_commands)) as (db' & Hins & Ht & Hc).
  { unfold insertEvent, threadExists, unused, checkConstraint, e. cbn [eventOf ThreadEvent_Sequence ThreadEvent_ThreadID].
    rewrite bindUint64_small by lia. rewrite (proj2 (Z.leb_le 1 _)) by lia. rewrite Hrow, Hl, decide_True by lia.
    rewrite (lookup_ge_None_2 l) by lia. cbn. by eexists. }
  exists db'. split; [|split_and!; [done|done|]].
  - unfold appendThreadEvent. apply tx_bind_Ok. exists (mkSession s.(se_db) rest), ("E-" +:+ x).
    split; [apply randomID_Ok; by exists x, rest|].
    apply tx_bind_Ok. exists (mkSession s.(se_db) rest), tt. split; [apply lift_result_Ok; by rewrite storable_valid by (done || lia)|].
    apply tx_bind_Ok. exists (mkSession db' rest), tt. split; [apply execute_Ok; by exists db'|]. by apply tx_ret_Ok.
  - by apply (insertEvent_is _ _ _ id l Hins eq_refl eq_refl Hl).
Qed.

Lemma appendMailboxEvents_progress id drafts : ∀ l s,
  is_Some (s.(se_db).(threads) !! id) → log_is s.(se_db) id l → id ≠ "" → forallb storable drafts = true →
  (Z.of_nat (length l + length drafts) < 9223372036854775808)%Z → length drafts ≤ length s.(se_ids) →
  ∃ s' es, appendMailboxEvents id (Z.of_nat (length l)) drafts s = Ok (s', es) ∧ length es = length drafts ∧
    s'.(se_db).(threads) = s.(se_db).(threads) ∧ s'.(se_db).(thread_commands) = s.(se_db).(thread_commands).
Proof.
  induction drafts as [|draft drafts IH]; intros l s Hs Hl Hid Hst Hlen Hids; cbn [appendMailboxEvents].
  { by exists s, []. }
  cbn in Hst, Hlen, Hids. apply andb_true_iff in Hst as [Hd Hst]. destruct (se_ids s) as [|x rest] eqn:Eids; [cbn in Hids; lia|].
  destruct (appendEvent_progress id l draft s x rest) as (db1 & Happ & Ht & Hc & Hl1); [done..|lia|done|].
  set (e := eventOf _ _ _ _) in *. rewrite u64_small in Happ |- * by (unfold two64; lia).
  destruct (IH (l ++ [e]) (mkSession db1 rest)) as (s' & es & Hrest & Hle & Ht' & Hc').
  { cbn. by rewrite Ht. } { done. } { done. } { done. } { rewrite length_app. cbn. lia. } { cbn in Hids |- *. lia. }
  replace (Z.of_nat (length (l ++ [e]))) with (Z.of_nat (length l) + 1)%Z in Hrest by (rewrite length_app; cbn; lia).
  exists s', (e :: es). split_and!; [|cbn; by rewrite Hle|by rewrite Ht', <- Ht|by rewrite Hc', <- Hc].
  apply tx_bind_Ok. eexists _, _. split; [exact Happ|]. apply tx_bind_Ok. eexists _, _. split; [exact Hrest|]. by apply tx_ret_Ok.
Qed.

Lemma setSequence_progress db id v f :
  (1 ≤ v < 9223372036854775808)%Z →
  ∃ db', setSequence db id v f = Ok db' ∧ db'.(pending_inputs) = db.(pending_inputs) ∧
    db'.(thread_commands) = db.(thread_commands) ∧
    db'.(threads) = alter (λ row, (f row) <| tr_last_sequence := v |>) id db.(threads).
Proof.
  intros Hv. unfold setSequence, checkConstraint. rewrite bindUint64_small, (proj2 (Z.leb_le 1 v)) by lia. cbn. by eexists.
Qed.

Lemma insertCommandRow_progress db command row :
  is_Some (db.(threads) !! row.(tc_thread_id)) →
  db.(thread_commands) !! (command.(ThreadCommand_ActorID), command.(ThreadCommand_IdempotencyKey)) = None →
  ∃ db', insertCommandRow db command row = Ok db'.
Proof.
  intros [r Hr] Hn. unfold insertCommandRow, threadExists, unused, checkConstraint. rewrite Hr, Hn. cbn. by eexists.
Qed.

Lemma storedMailboxResult_None command hash db :
  storedMailboxResult command hash db = Ok None →
  db.(thread_commands) !! (command.(ThreadCommand_ActorID), command.(ThreadCommand_IdempotencyKey)) = None.
Proof. unfold storedMailboxResult, storedCommand. destruct (_ !! _); [|done]. intros H. by inv_ok. Qed.

(** A mailbox operation succeeds when its body does and its events can be stored. *)
Lemma mutateMailbox_progress command request mutate hash s1 db row l m state drafts queue ids :
  let id := command.(ThreadCommand_ThreadID) in
  hashThreadRequest request = Ok hash → storedMailboxResult command hash db = Ok None → id ≠ "" →
  represents db id row l m → expectSequence command.(ThreadCommand_ExpectedSequence) row.(tr_last_sequence) = Ok tt →
  mutate (state_of id row m) (mkSession db ids) = Ok (s1, (state, drafts)) →
  requeued db s1.(se_db) id → queue_is s1.(se_db) id queue →
  state.(MailboxState_ThreadID) = id → state.(MailboxState_LastSequence) = row.(tr_last_sequence) →
  forallb storable drafts = true → drafts ≠ [] → length drafts ≤ length s1.(se_ids) →
  (row.(tr_last_sequence) + Z.of_nat (length drafts) < 9223372036854775808)%Z →
  ∃ s' r, mutateMailbox command request mutate (mkSession db ids) = Ok (s', r) ∧
    r.(MailboxState_Activity) = state.(MailboxState_Activity) ∧
    r.(MailboxState_ActiveTurnID) = state.(MailboxState_ActiveTurnID) ∧
    r.(MailboxState_Queue) = queue ∧ draft_of <$> r.(MailboxState_Events) = drafts.
Proof.
  intros id Hh Hk Hid Hr He Hm Hreq Hq Est Eseq Hst Hne Hids Hlen.
  pose proof (requeued_represents _ _ _ _ _ _ _ Hreq Hq Hr) as Hr1.
  rewrite (re_sequence _ _ _ _ _ Hr) in *.
  destruct (appendMailboxEvents_progress id drafts l s1) as (s2 & es & Happ & Hes & Ht & Hc);
    [rewrite (re_row _ _ _ _ _ Hr1); by eexists|apply Hr1|done|done|lia|done|].
  destruct (appendMailboxEvents_is _ _ _ _ _ _ Happ) as ((_ & Hp & _) & _ & _ & Hdr & _); [apply Hr1..|].
  assert (length es ≠ 0) as Hes0 by (rewrite Hes; by destruct drafts).
  set (final := state <| MailboxState_LastSequence := (Z.of_nat (length l) + Z.of_nat (length es))%Z |>
                      <| MailboxState_Events := es |>).
  destruct (setSequence_progress s2.(se_db) id (Z.of_nat (length l) + Z.of_nat (length es)) (λ row,
    row <| tr_activity := state.(MailboxState_Activity) |> <| tr_active_turn_id := state.(MailboxState_ActiveTurnID) |>
        <| tr_cancel_requested := state.(MailboxState_CancelRequested) |>)) as (db3 & Hset & Hp3 & Hc3 & Ht3); [lia|].
  destruct (insertCommandRow_progress db3 command (mkThreadCommandRow command.(ThreadCommand_CommandID) hash id
    (StoredMailbox (final <| MailboxState_Queue := queue |>)))) as [db4 Hins].
  { cbn. rewrite Ht3, Ht, lookup_alter_eq, (re_row _ _ _ _ _ Hr1). by eexists. }
  { rewrite Hc3, Hc. destruct Hreq as [-> _]. by apply storedMailboxResult_None in Hk. }
  exists (mkSession db4 s2.(se_ids)), (final <| MailboxState_Queue := queue |>). split; [|by split_and!].
  unfold mutateMailbox. apply tx_bind_Ok. eexists _, _. split; [apply lift_result_Ok; by split|].
  apply tx_bind_Ok. eexists _, _. split; [apply query_Ok; by split|]. cbn iota.
  apply tx_bind_Ok. exists (mkSession db ids), (state_of id row m). split.
  { apply query_Ok. split; [done|]. unfold loadMailboxState, threadRow. cbn [se_db]. fold id.
    rewrite (re_row _ _ _ _ _ Hr). cbn. by rewrite (loadQueue_is _ _ _ (re_queue _ _ _ _ _ Hr)). }
  apply tx_bind_Ok. exists (mkSession db ids), tt. split; [apply lift_result_Ok; cbn; by rewrite (re_sequence _ _ _ _ _ Hr)|].
  apply tx_bind_Ok. eexists _, (state, drafts). split; [exact Hm|]. cbn iota. rewrite Eseq.
  apply tx_bind_Ok. eexists _, _. split; [exact Happ|]. rewrite u64_small by (unfold two64; lia). fold final.
  apply tx_bind_Ok. exists (mkSession db3 s2.(se_ids)), tt. split.
  { apply execute_Ok. exists db3. split; [|done]. rewrite <- Hset. unfold saveMailbox. cbn. by rewrite <- Est. }
  apply tx_bind_Ok. exists (mkSession db3 s2.(se_ids)), queue. split.
  { apply read_Ok. split; [done|]. symmetry. apply loadQueue_is. fold id. destruct Hq as [Hsorted Hrows]. split; [done|].
    intros q r. cbn. rewrite Hp3, Hp. apply Hrows. }
  apply tx_bind_Ok. exists (mkSession db4 s2.(se_ids)), tt. split; [|by apply tx_ret_Ok].
  apply execute_Ok. by exists db4.
Qed.

(** * The end of a turn *)

(** What follows a turn that completed: the next message runs, or the thread rests. *)
Definition continued (queue : list QueueItem) (turn : string) (r : MailboxState) : Prop :=
  let ended := mkNote EventTurnCompleted "" turn "" in
  match next queue with
  | Some item =>
      r.(MailboxState_Activity) = ActivityRunning ∧ r.(MailboxState_ActiveTurnID) ≠ "" ∧
      r.(MailboxState_Queue) = without (id_of item) queue ∧
      notes_of r.(MailboxState_Events) = ended :: accepts (id_of item) r.(MailboxState_ActiveTurnID) item.(QueueItem_Content)
  | None =>
      r.(MailboxState_Activity) = ActivityIdle ∧ r.(MailboxState_ActiveTurnID) = "" ∧
      r.(MailboxState_Queue) = queue ∧ notes_of r.(MailboxState_Events) = [ended]
  end.

Lemma deleteQueueItem_progress db id queue item :
  queue_is db id queue → item ∈ queue → ∃ db', deleteQueueItem db id (id_of item) = Ok db'.
Proof.
  intros Hq Hin%(queue_row _ _ _ _ Hq). unfold deleteQueueItem. rewrite Hin. cbn. by eexists.
Qed.

Lemma continueWith_progress db id state ended queue ids :
  queue_is db id queue → ids ≠ [] →
  ∃ s' state' drafts, continueWith id state ended (next queue) (mkSession db ids) = Ok (s', (state', drafts)) ∧
    length ids ≤ length s'.(se_ids) + 1 ∧
    match next queue with
    | Some item => ∃ x, state' = state <| MailboxState_Activity := ActivityRunning |> <| MailboxState_ActiveTurnID := "R-" +:+ x |> ∧
        drafts = [ended; mailboxEvent EventMessageAccepted (id_of item) ("R-" +:+ x) item.(QueueItem_Content);
                  mailboxEvent EventTurnStarted (id_of item) ("R-" +:+ x) ""] ∧
        queue_is s'.(se_db) id (without (id_of item) queue)
    | None => state' = endTurn state ∧ drafts = [ended] ∧ s'.(se_db) = db
    end.
Proof.
  intros Hq Hids. destruct (next queue) as [item|] eqn:Hn; cbn [continueWith].
  - apply next_pending in Hn as [Hin _]. destruct (deleteQueueItem_progress _ _ _ _ Hq Hin) as [db' Hd].
    destruct ids as [|x rest]; [done|]. eexists (mkSession db' rest), _, _. split; [|split; [cbn; lia|]].
    + apply tx_bind_Ok. exists (mkSession db' (x :: rest)), tt. split; [apply execute_Ok; by exists db'|].
      apply tx_bind_Ok. eexists _, (_, _). split; [apply tx_bind_Ok; eexists _, _; split; [apply randomID_Ok; by exists x, rest|by apply tx_ret_Ok]|].
      by apply tx_ret_Ok.
    + exists x. split_and!; [done..|]. by apply (deleteQueueItem_is _ _ _ _ _ Hd Hq).
  - eexists _, _, _. split; [by apply tx_ret_Ok|]. split; [cbn; lia|done].
Qed.

Lemma CompleteTurn_progress command turn ids db row l m hash :
  let id := command.(ThreadCommand_ThreadID) in
  represents db id row l m → id ≠ "" → validateMailboxCommand command CommandTurnComplete = Ok tt →
  hashThreadRequest (RequestText command turn) = Ok hash → storedMailboxResult command hash db = Ok None →
  expectSequence command.(ThreadCommand_ExpectedSequence) row.(tr_last_sequence) = Ok tt →
  m.(mb_phase) = Busy turn (row.(tr_activity) == ActivityAwaitingApproval) false →
  4 ≤ length ids → (row.(tr_last_sequence) + 3 < 9223372036854775808)%Z →
  ∃ s' r, CompleteTurn command turn (mkSession db ids) = Ok (s', r) ∧ continued m.(mb_queue) turn r.
Proof.
  intros id Hr Hid Hv Hh Hk He Hp Hids Hseq. pose proof (re_queue _ _ _ _ _ Hr) as Hq.
  pose proof (re_phase _ _ _ _ _ Hr) as Hph. rewrite Hp in Hph. destruct Hph as (Ht & Et & Ec & Ea).
  destruct (continueWith_progress db id (state_of id row m) (mailboxEvent EventTurnCompleted "" turn "") (mb_queue m) ids Hq)
    as (s1 & state & drafts & Hc & Hrest & Hcase); [intros ->; cbn in Hids; lia|].
  pose proof (continueWith_is _ _ _ _ _ _ _ _ _ [] (mkNote EventTurnCompleted "" turn "") Hc Hq Ec eq_refl) as (Hreq & Eid & Eseq & queue & p & Hq' & _).
  destruct (mutateMailbox_progress command (RequestText command turn) (λ state,
    lift_result (requireActiveTurn state turn) ;;
    lift_result (fail_if state.(MailboxState_CancelRequested) (Errorf "turn %q is settling cancellation" [AStr turn])) ;;
    found ← read (λ db, nextPendingInput db command.(ThreadCommand_ThreadID));
    continueWith command.(ThreadCommand_ThreadID) state (mailboxEvent EventTurnCompleted "" turn "") found)
    hash s1 db row l m state drafts queue ids) as (s' & r & Hm & Ra & Rt & Rq & Re); try done.
  - apply tx_bind_Ok. exists (mkSession db ids), tt. split.
    { apply lift_result_Ok. split; [done|]. unfold requireActiveTurn. cbn. rewrite Et, Ea.
      rewrite (proj2 (String.eqb_neq turn "") Ht), String.eqb_refl. cbn. by destruct (_ == _). }
    apply tx_bind_Ok. exists (mkSession db ids), tt. split; [apply lift_result_Ok; cbn; by rewrite Ec|].
    apply tx_bind_Ok. eexists (mkSession db ids), _. split; [apply read_Ok; by split|]. cbn [se_db].
    fold id. by rewrite (nextPendingInput_is _ _ _ Hq).
  - destruct (next _); destruct_and?; naive_solver.
  - destruct (next _); destruct_and?; naive_solver.
  - destruct (next _) as [item|]; [destruct Hcase as (x & _ & -> & _)|destruct Hcase as (_ & -> & _)]; cbn; lia.
  - destruct (next _) as [item|]; [destruct Hcase as (x & _ & -> & _)|destruct Hcase as (_ & -> & _)]; cbn; lia.
  - exists s', r. split.
    { unfold CompleteTurn. apply tx_bind_Ok. exists (mkSession db ids), tt. split; [by apply lift_result_Ok|exact Hm]. }
    unfold continued. rewrite notes_of_drafts, Re, Ra, Rt, Rq.
    destruct (next _) as [item|].
    + destruct Hcase as (x & -> & -> & Hw). split_and!; [done..| |done].
      rewrite <- (loadQueue_is _ _ _ Hq'). by apply loadQueue_is.
    + destruct Hcase as (-> & -> & E). split_and!; [done..| |done].
      rewrite <- (loadQueue_is _ _ _ Hq'), E. by apply loadQueue_is.
Qed.

Lemma validated_thread command type :
  validateMailboxCommand command type = Ok tt → type ≠ CommandThreadCreate → command.(ThreadCommand_ThreadID) ≠ "".
Proof.
  intros Hv Hne. unfold validateMailboxCommand, ThreadCommand_Validate in Hv. inv_ok.
  match goal with H : _ && _ = false |- _ => apply andb_false_iff in H as [H|H] end; inv_bool; [|done]. congruence.
Qed.

(** C23: The turn that is active can be completed: on every reachable database, when it is
    not being cancelled, the command is valid and new, and the random source and the
    sequence have room, [CompleteTurn] succeeds. The message that is next in the
    queue then runs in a turn of its own, or the thread rests when none is pending. *)
Theorem turn_can_complete used db command turn ids state hash :
  reached used db → Mailbox command.(ThreadCommand_ThreadID) db = Ok state →
  requireActiveTurn state turn = Ok tt → state.(MailboxState_CancelRequested) = false →
  validateMailboxCommand command CommandTurnComplete = Ok tt →
  expectSequence command.(ThreadCommand_ExpectedSequence) state.(MailboxState_LastSequence) = Ok tt →
  hashThreadRequest (RequestText command turn) = Ok hash → storedMailboxResult command hash db = Ok None →
  4 ≤ length ids → (state.(MailboxState_LastSequence) + 3 < 9223372036854775808)%Z →
  ∃ r, (perform (OpComplete command turn) ids db).2 = Ok (ReplyMailbox r) ∧ continued state.(MailboxState_Queue) turn r.
Proof.
  intros Hreach Hmail Hact Hc Hv He Hh Hk Hids Hseq.
  destruct (loadMailboxState_row _ _ _ Hmail) as [row Hrow].
  destruct (so_thread _ _ (reached_sound _ _ Hreach) _ _ Hrow) as (l & m & _ & Hr & _).
  apply (loadMailboxState_is _ _ _ _ _ _ Hr) in Hmail. subst state. cbn in Hc, He, Hseq |- *.
  destruct (active _ _ _ _ _ _ _ Hr Hact) as (Ht & Et & asking & Hp).
  pose proof (validated_thread _ _ Hv ltac:(done)) as Hid.
  destruct (CompleteTurn_progress command turn ids db row l m hash Hr Hid Hv Hh Hk He) as (s' & r & Hrun & Hcont);
    [|done|lia|].
  - pose proof (re_phase _ _ _ _ _ Hr) as Hph. rewrite Hp, Hc in Hph |- *. destruct Hph as (_ & _ & _ & ->). by destruct asking.
  - exists r. split; [|done]. unfold perform, replied, runTx, transact. by rewrite Hrun.
Qed.

(** * A thread whose turn failed *)

Lemma insertQueueItem_progress db id queue item :
  queue_is db id queue → is_Some (db.(threads) !! id) → id_of item ∉ id_of <$> queue →
  item.(QueueItem_Position) = after_all queue → (after_all queue < 9223372036854775808)%Z →
  ∃ db', insertQueueItem db id item = Ok db'.
Proof.
  intros Hq [row Hrow] Hnew Hp Hroom. unfold insertQueueItem, threadExists, unused, checkConstraint.
  rewrite bindUint64_small, Hrow by lia. cbn [is_Some_b mbind result_bind fail_if].
  assert (db.(pending_inputs) !! (id, item.(QueueItem_QueueItemID)) = None) as ->.
  { apply eq_None_not_Some. intros [r Hr]. apply Hnew. apply (qu_rows _ _ _ Hq) in Hr. apply list_elem_of_fmap. by eexists (queueItem _ r). }
  assert (some_row (λ k row, (k.1 == id) && (row.(pr_position) =? item.(QueueItem_Position))%Z) db.(pending_inputs) = false) as ->.
  { apply not_true_iff_false. unfold some_row. intros ([[i q] r] & Hin%list_elem_of_In%elem_of_map_to_list & H)%existsb_exists.
    cbn in H. apply andb_true_iff in H as [->%String.eqb_eq Hpos%Z.eqb_eq]. apply (qu_rows _ _ _ Hq) in Hin.
    apply after_all_bound in Hin. cbn in Hin. lia. }
  cbn. by eexists.
Qed.

Lemma enqueue_progress id q class content db ids queue :
  queue_is db id queue → is_Some (db.(threads) !! id) → q ∉ id_of <$> queue → (after_all queue < 9223372036854775808)%Z →
  ∃ db', enqueue id q class QueueItemPending content (mkSession db ids) = Ok (mkSession db' ids, tt).
Proof.
  intros Hq Hrow Hnew Hroom.
  destruct (insertQueueItem_progress db id queue (mkQueueItem q (after_all queue) class QueueItemPending content) Hq Hrow Hnew eq_refl Hroom) as [db' Hi].
  exists db'. unfold enqueue. apply tx_bind_Ok. exists (mkSession db ids), (after_all queue). split.
  - apply query_Ok. split; [done|]. unfold nextQueuePosition. cbn [se_db]. rewrite (loadQueue_is _ _ _ Hq).
    change (foldr _ 0%Z queue + 1)%Z with (after_all queue). change (two64 / 2)%Z with 9223372036854775808%Z. by rewrite (proj2 (Z.leb_gt _ _)) by lia.
  - apply execute_Ok. exists db'. by split.
Qed.

(** A message submitted to a thread that runs nothing and is not idle waits at the end of
    its queue. *)
Lemma Submit_progress command input x ids db row l m hash :
  let id := command.(ThreadCommand_ThreadID) in
  represents db id row l m → row.(tr_activity) ≠ ActivityIdle →
  validateMailboxCommand command CommandMessageSubmit = Ok tt → QueueClass_Validate input.(MessageInput_Class) = Ok tt →
  hashThreadRequest (RequestMessage command input) = Ok hash → storedMailboxResult command hash db = Ok None →
  expectSequence command.(ThreadCommand_ExpectedSequence) row.(tr_last_sequence) = Ok tt →
  messageID x ∉ id_of <$> m.(mb_queue) → ids ≠ [] →
  (row.(tr_last_sequence) + 1 < 9223372036854775808)%Z → (after_all m.(mb_queue) < 9223372036854775808)%Z →
  ∃ s' r, Submit command input (mkSession db (x :: ids)) = Ok (s', r) ∧
    r.(MailboxState_Activity) = row.(tr_activity) ∧
    r.(MailboxState_Queue) = m.(mb_queue) ++
      [mkQueueItem (messageID x) (after_all m.(mb_queue)) input.(MessageInput_Class) QueueItemPending input.(MessageInput_Content)].
Proof.
  intros id Hr Ha%String.eqb_neq Hv Hc Hh Hk He Hnew Hids Hseq Hroom. pose proof (re_queue _ _ _ _ _ Hr) as Hq.
  pose proof (validated_thread _ _ Hv ltac:(done)) as Hid.
  destruct (enqueue_progress id (messageID x) input.(MessageInput_Class) input.(MessageInput_Content) db ids m.(mb_queue) Hq) as [db1 Hen];
    [rewrite (re_row _ _ _ _ _ Hr); by eexists|done|done|].
  destruct (enqueue_is _ _ _ _ _ _ _ _ _ Hen Hq) as [Hreq Hq1].
  set (queue := m.(mb_queue) ++ [mkQueueItem _ _ _ _ _]) in *.
  set (drafts := [mailboxEvent EventMessageQueued (messageID x) row.(tr_active_turn_id) input.(MessageInput_Content)]).
  destruct (mutateMailbox_progress command (RequestMessage command input) (λ state,
    queueItemID ← randomID "Q-";
    if state.(MailboxState_Activity) == ActivityIdle
    then startTurn state queueItemID input.(MessageInput_Content)
    else
      enqueue command.(ThreadCommand_ThreadID) queueItemID input.(MessageInput_Class) QueueItemPending
        input.(MessageInput_Content) ;;
      mret (state, [mailboxEvent EventMessageQueued queueItemID state.(MailboxState_ActiveTurnID)
                      input.(MessageInput_Content)]))
    hash (mkSession db1 ids) db row l m (state_of id row m) drafts queue (x :: ids) Hh Hk Hid Hr He) as (s' & r & Hm & Ra & _ & Rq & _);
    [|exact Hreq|exact Hq1|done..| |cbn; lia|].
  - apply tx_bind_Ok. exists (mkSession db ids), (messageID x). split; [apply randomID_Ok; by exists x, ids|]. cbn [state_of MailboxState_Activity].
    rewrite Ha. apply tx_bind_Ok. exists (mkSession db1 ids), tt. split; [exact Hen|by apply tx_ret_Ok].
  - cbn. destruct ids; [done|cbn; lia].
  - exists s', r. split; [|by split]. unfold Submit.
    apply tx_bind_Ok. exists (mkSession db (x :: ids)), tt. split; [by apply lift_result_Ok|].
    apply tx_bind_Ok. exists (mkSession db (x :: ids)), tt. split; [by apply lift_result_Ok|exact Hm].
Qed.

(** A valid, new message for the thread, which the sequence and the queue have room for. *)
Record submittable (used : list string) (db : ThreadDB) (id : string) (row : ThreadRow) (command : ThreadCommand)
    (input : MessageInput) (ids : list string) : Prop := {
  sb_thread : command.(ThreadCommand_ThreadID) = id;
  sb_valid : validateMailboxCommand command CommandMessageSubmit = Ok tt;
  sb_class : QueueClass_Validate input.(MessageInput_Class) = Ok tt;
  sb_sequence : expectSequence command.(ThreadCommand_ExpectedSequence) row.(tr_last_sequence) = Ok tt;
  sb_new : ∃ hash, hashThreadRequest (RequestMessage command input) = Ok hash ∧ storedMailboxResult command hash db = Ok None;
  sb_ids : NoDup (ids ++ used) ∧ 2 ≤ length ids;
  sb_room : (row.(tr_last_sequence) + 1 < 9223372036854775808)%Z ∧ (after_all (loadQueue db id) < 9223372036854775808)%Z;
}.

(** C24: A thread whose turn failed is dead: whatever operations follow, its activity stays
    [error], and no message is delivered and no turn started there. Yet it accepts every
    valid new message: the submission succeeds and the message waits in the queue. *)
Theorem failed_thread_is_dead used db ops id row :
  reached used db → admissible_run used ops → db.(threads) !! id = Some row → row.(tr_activity) = ActivityError →
  let later := perform_all ops db in
  ∃ row', later.(threads) !! id = Some row' ∧ row'.(tr_activity) = ActivityError ∧
    deliveries later id = deliveries db id ∧
    ∀ command input ids, submittable (used_by ops used) later id row' command input ids →
      ∃ r q, (perform (OpSubmit command input) ids later).2 = Ok (ReplyMailbox r) ∧
        r.(MailboxState_Activity) = ActivityError ∧ q ∈ messageID <$> ids ∧
        r.(MailboxState_Queue) = loadQueue later id ++
          [mkQueueItem q (after_all (loadQueue later id)) input.(MessageInput_Class) QueueItemPending input.(MessageInput_Content)].
Proof.
  intros Hr Ha Hrow He%phase_of_broken later. destruct (thread_steps _ _ _ _ _ Hr Ha Hrow) as (row' & l' & Hrow' & _ & Hs).
  assert (phase_of row' = Broken ∧ deliveries later id = deliveries db id) as [Hb Hd].
  { unfold deliveries.
    change (notes_of (thread_log db id)) with (mb_log (mailbox_of db id row)).
    change (notes_of (thread_log later id)) with (mb_log (mailbox_of later id row')).
    change (mb_phase (mailbox_of db id row) = Broken) in He.
    change (phase_of row') with (mb_phase (mailbox_of later id row')). fold later in Hs.
    clear - Hs He. induction Hs as [m|m m1 m' [label Hstep] _ IH]; [done|].
    destruct (broken_step _ _ _ Hstep He) as (He1 & notes & El & Hn). destruct (IH He1) as [? IHe]. split; [done|].
    by rewrite IHe, El, List.filter_app, (filter_none _ notes Hn), app_nil_r. }
  exists row'. apply phase_of_broken in Hb. split_and!; [done..|].
  intros command input ids [<- Hv Hc Hseq (hash & Hh & Hk) [Hnd Hids] [Hroom Hq]].
  destruct (so_thread _ _ (reached_sound _ _ (perform_all_reached _ _ _ Hr Ha)) _ _ Hrow') as (l & m & submitted & Hm & Hrun & Hsub & Hin).
  pose proof (loadQueue_is _ _ _ (re_queue _ _ _ _ _ Hm)) as El. fold later in El. rewrite El in Hq |- *. destruct ids as [|x ids]; [cbn in Hids; lia|].
  destruct (Submit_progress command input x ids _ _ _ _ hash Hm) as (s' & r & Hs' & Hra & Hrq); [by rewrite Hb|done..| | |done|done|].
  - intros Hx. apply NoDup_app in Hnd as (_ & Hdis & _). apply (Hdis x); [by left|].
    assert (messageID x ∈ placed m) as Hx' by (unfold placed, waiting; apply elem_of_app; by left).
    rewrite (run_placed _ _ Hrun Hsub) in Hx'. apply Hin in Hx'.
    apply list_elem_of_fmap in Hx' as (y & E & Hy). by apply (inj (String.append "Q-")) in E as ->.
  - intros ->. cbn in Hids. lia.
  - exists r, (messageID x). split_and!; [|by rewrite Hra|by left|done]. unfold perform, replied, runTx, transact, later. by rewrite Hs'.
Qed.

End progress.

Lemma turn_can_complete_witness :
  let command := sample_command "done" CommandTurnComplete in
  ∃ state r, Mailbox "T-1" (sample_db busy_ops) = Ok state ∧ waiting (mkMailbox Idle state.(MailboxState_Queue) []) = ["Q-7"] ∧
    (perform (OpComplete command "R-4") ["20"; "21"; "22"; "23"] (sample_db busy_ops)).2 = Ok (ReplyMailbox r) ∧
    continued state.(MailboxState_Queue) "R-4" r.
Proof.
  intros command. set (state := match Mailbox "T-1" (sample_db busy_ops) with Ok s => s | _ => MailboxState_zero end).
  destruct (turn_can_complete (sample_used busy_ops) (sample_db busy_ops) command "R-4" ["20"; "21"; "22"; "23"] state "done")
    as (r & H1 & H2); [apply sample_reached; by_decide|vm_compute; reflexivity..|by_decide|by_decide|].
  exists state, r. by split_and!; [vm_compute; reflexivity..| |].
Defined.

(** The failed thread of the sample, with two more messages. *)
Definition late_ops : list (ThreadOp * list string) := [sample_submit "third" ["20"; "21"]; sample_submit "fourth" ["22"; "23"]].
Definition late_db : ThreadDB := perform_all late_ops (sample_db failed_ops).

Lemma failed_submittable row : late_db.(threads) !! "T-1" = Some row →
  submittable (used_by late_ops (sample_used failed_ops)) late_db "T-1" row
    (sample_command "fifth" CommandMessageSubmit) (sample_message "fifth") ["24"; "25"].
Proof.
  intros Hrow. assert ((tr_last_sequence <$> late_db.(threads) !! "T-1") = Some 7%Z) as Hs by (vm_compute; reflexivity).
  rewrite Hrow in Hs. injection Hs as Hs. split; [done|by vm_compute..| | |].
  - exists "fifth". split; vm_compute; reflexivity.
  - by_decide.
  - rewrite Hs. split; [done|]. by vm_compute.
Qed.

Lemma failed_thread_is_dead_witness :
  length (loadQueue late_db "T-1") = 3 ∧
  ∃ row', late_db.(threads) !! "T-1" = Some row' ∧ row'.(tr_activity) = ActivityError ∧
    deliveries late_db "T-1" = deliveries (sample_db failed_ops) "T-1" ∧
    ∃ r q, (perform (OpSubmit (sample_command "fifth" CommandMessageSubmit) (sample_message "fifth")) ["24"; "25"] late_db).2 = Ok (ReplyMailbox r) ∧
      r.(MailboxState_Activity) = ActivityError ∧ q ∈ messageID <$> ["24"; "25"] ∧
      r.(MailboxState_Queue) = loadQueue late_db "T-1" ++
        [mkQueueItem q (after_all (loadQueue late_db "T-1")) QueueNormal QueueItemPending "fifth"].
Proof.
  split; [by vm_compute|].
  destruct (failed_thread_is_dead (sample_used failed_ops) (sample_db failed_ops) late_ops "T-1" (sample_row failed_ops))
    as (row' & Hrow & Ha & Hd & Hsub); [apply sample_reached; by_decide|by_decide|apply sample_thread; by vm_compute|by vm_compute|].
  exists row'. split; [exact Hrow|]. split; [exact Ha|]. split; [exact Hd|].
  exact (Hsub _ _ _ (failed_submittable row' Hrow)).
Defined.

(** Receipts: a command that succeeded is stored with its result, and the same request
    under the same key gets that result again, whatever happened in between. *)

(** * Receipts are kept *)

Definition kept (db db' : ThreadDB) : Prop := db.(thread_commands) ⊆ db'.(thread_commands).

Lemma kept_refl db : kept db db.
Proof. unfold kept. reflexivity. Qed.
#[local] Hint Resolve kept_refl : core.
Lemma kept_eq db db' : db'.(thread_commands) = db.(thread_commands) → kept db db'.
Proof. unfold kept. by intros ->. Qed.

(** A statement on other tables. *)
Ltac elsewhere := intros H; inv_sql; by apply kept_eq.

#[export] Instance kept_stable : Stable kept.
Proof.
  split; try (intros; by apply kept_eq); try (intros; intros db db'; unfold insertThread, insertCatalog, setSequence,
    updateThread, insertEvent, insertQueueItem, deleteQueueItem, insertDialog; elsewhere).
  - split; [exact kept_refl|]. intros db1 db2 db3. unfold kept. apply transitivity.
  - intros id q f db db'. unfold updatePending. destruct (_ !! _); elsewhere.
  - intros command row db db'. unfold insertCommandRow. intros H. inv_sql. unfold kept. cbn. apply insert_subseteq. by apply is_Some_b_none.
Qed.

Section receipts.
Context {env : ThreadEnv}.

Lemma perform_kept op ids db : kept db (perform op ids db).1.
Proof. apply perform_keeps. destruct op; try done. intros id c row db' db''. unfold insertCompaction. elsewhere. Qed.

Lemma perform_all_kept ops db : kept db (perform_all ops db).
Proof.
  revert db. induction ops as [|[op ids] ops IH]; intros db; cbn; [done|]. etrans; [apply perform_kept|apply IH].
Qed.

(** * A command repeated *)

(** The same request finds its receipt, whatever was done since. *)
Definition repeatable {A} (m : tx A) : Prop :=
  ∀ s s' a, m s = Ok (s', a) → ∀ s2, kept s'.(se_db) s2.(se_db) → m s2 = Ok (s2, a).

Lemma repeatable_lift {A B} (m : result A) (f : A → tx B) : (∀ a, repeatable (f a)) → repeatable (lift_result m ≫= f).
Proof.
  intros Hf s s' b H s2 Hk. inv_tx. unfold mbind, tx_bind, lift_result.
  cbn. by eapply Hf.
Qed.

Definition receipt (command : ThreadCommand) (hash : string) (stored : StoredResult) (db : ThreadDB) : Prop :=
  ∃ row, db.(thread_commands) !! (command.(ThreadCommand_ActorID), command.(ThreadCommand_IdempotencyKey)) = Some row ∧
    row.(tc_request_hash) = hash ∧ row.(tc_result_json) = stored.

Lemma storedCommand_receipt command hash stored db :
  storedCommand command hash db = Ok (Some stored) ↔ receipt command hash stored db.
Proof.
  unfold storedCommand, receipt. destruct (_ !! _) as [row|]; [|naive_solver]. split.
  - intros H. inv_ok. eexists. by split_and!.
  - intros (? & [= <-] & <- & <-). by rewrite String.eqb_refl.
Qed.

Lemma receipt_kept command hash stored db db' : receipt command hash stored db → kept db db' → receipt command hash stored db'.
Proof. intros (row & H & ?) Hk. exists row. split; [|done]. eapply lookup_weaken; [exact H|exact Hk]. Qed.

Lemma commandResult_receipt command hash r db :
  commandResult command hash db = Ok (Some r) ↔ ∃ stored, receipt command hash stored db ∧ r = asThreadResult stored.
Proof.
  unfold commandResult. rewrite bind_Ok. split.
  - intros ([stored|] & H & [= <-]). apply storedCommand_receipt in H. by exists stored.
  - intros (stored & H%storedCommand_receipt & ->). by exists (Some stored).
Qed.
Lemma storedMailboxResult_receipt command hash r db :
  storedMailboxResult command hash db = Ok (Some r) ↔ ∃ stored, receipt command hash stored db ∧ r = asMailboxState stored.
Proof.
  unfold storedMailboxResult. rewrite bind_Ok. split.
  - intros ([stored|] & H & [= <-]). apply storedCommand_receipt in H. by exists stored.
  - intros (stored & H%storedCommand_receipt & ->). by exists (Some stored).
Qed.

Lemma insertCommandRow_receipt db command row db' :
  insertCommandRow db command row = Ok db' → receipt command row.(tc_request_hash) row.(tc_result_json) db'.
Proof. unfold insertCommandRow. intros H. inv_sql. exists row. cbn. by rewrite lookup_insert_eq. Qed.

(** An operation that looks its receipt up, and stores one when there is none. *)
Lemma repeatable_command {A R} command hash (find : ThreadDB → result (option R)) (decode : StoredResult → R)
    (known : R → tx A) (fresh : tx A) :
  (∀ db r, find db = Ok (Some r) ↔ ∃ stored, receipt command hash stored db ∧ r = decode stored) →
  (∀ r s s' a, known r s = Ok (s', a) → s' = s ∧ ∀ s2, known r s2 = Ok (s2, a)) →
  (∀ s s' a, fresh s = Ok (s', a) →
     ∃ stored, receipt command hash stored s'.(se_db) ∧ ∀ s2, known (decode stored) s2 = Ok (s2, a)) →
  repeatable (existing ← query find; match existing with Some r => known r | None => fresh end).
Proof.
  intros Hfind Hknown Hfresh s s' a H s2 Hk. inv_tx.
  assert (∀ stored, receipt command hash stored s'.(se_db) → (∀ s2, known (decode stored) s2 = Ok (s2, a)) →
    (query find ≫= λ existing, match existing with Some r => known r | None => fresh end) s2 = Ok (s2, a)) as Hagain.
  { intros stored Hr Ha. assert (find (se_db s2) = Ok (Some (decode stored))) as E.
    { apply Hfind. exists stored. split; [by eapply receipt_kept|done]. }
    unfold mbind, tx_bind, query. rewrite E. cbn. apply Ha. }
  destruct (_ : option R) as [r|].
  - apply Hknown in H as [-> Ha]. match goal with H : find _ = _ |- _ => apply Hfind in H as (stored & Hr & ->) end.
    by eapply Hagain.
  - apply Hfresh in H as (stored & Hr & Ha). by eapply Hagain.
Qed.

Lemma answered {A} (r : A) s s' a : mret (M:=tx) r s = Ok (s', a) → s' = s ∧ ∀ s2, mret (M:=tx) r s2 = Ok (s2, a).
Proof. intros H. inv_tx. by split. Qed.

Lemma repeatable_mailbox command request mutate : repeatable (mutateMailbox command request mutate).
Proof.
  unfold mutateMailbox. apply repeatable_lift. intros hash.
  eapply (repeatable_command command hash _ asMailboxState); [intros; apply storedMailboxResult_receipt|intros ????; apply answered|].
  intros s s' a H. inv_tx.
  match goal with H : insertMailboxCommand _ _ _ _ = Ok _ |- _ => apply insertCommandRow_receipt in H end.
  eexists. split; [done|]. done.
Qed.

Lemma insertCommand_receipt command hash r db db' :
  insertCommand command hash r db = Ok db' → receipt command hash (StoredThread r) db'.
Proof. unfold insertCommand. intros H. inv_ok. by apply insertCommandRow_receipt in H. Qed.

Lemma repeatable_thread command hash (fresh : tx ThreadResult) :
  (∀ s s' r, fresh s = Ok (s', r) → receipt command hash (StoredThread r) s'.(se_db)) →
  repeatable (existing ← query (commandResult command hash); match existing with Some r => mret r | None => fresh end).
Proof.
  intros Hf. eapply (repeatable_command command hash _ asThreadResult); [intros; apply commandResult_receipt|intros ????; apply answered|].
  intros s s' r H%Hf. eexists. by split.
Qed.

Lemma appendDrafts_receipt command hash v drafts s s' r :
  appendDrafts command hash v drafts s = Ok (s', r) → receipt command hash (StoredThread r) s'.(se_db).
Proof.
  unfold appendDrafts, advanceSequence. intros H. inv_tx.
  match goal with H : insertCommand _ _ _ _ = Ok _ |- _ => by apply insertCommand_receipt in H end.
Qed.

Lemma repeatable_Append command drafts : repeatable (Append command drafts).
Proof.
  unfold Append. repeat (apply repeatable_lift; intros ?). apply repeatable_thread. intros s s' r H. inv_tx.
  by eapply appendDrafts_receipt.
Qed.
Lemma repeatable_AppendTurnEvents command turn drafts : repeatable (AppendTurnEvents command turn drafts).
Proof.
  unfold AppendTurnEvents. repeat (apply repeatable_lift; intros ?). apply repeatable_thread. intros s s' r H. inv_tx.
  by eapply appendDrafts_receipt.
Qed.
Lemma repeatable_createThread command payload spec : repeatable (createThread command payload spec).
Proof.
  unfold createThread. repeat (apply repeatable_lift; intros ?). apply repeatable_thread. intros s s' r H. inv_tx.
  match goal with H : insertCommand _ _ _ _ = Ok _ |- _ => by apply insertCommand_receipt in H end.
Qed.
Lemma repeatable_CreateConfiguredThread command spec : repeatable (CreateConfiguredThread command spec).
Proof. unfold CreateConfiguredThread. apply repeatable_lift. intros ?. apply repeatable_createThread. Qed.
Lemma repeatable_archiveTx command archived now : repeatable (archiveTx command archived now).
Proof.
  unfold archiveTx, advanceSequence. apply repeatable_lift. intros ?. apply repeatable_thread. intros s s' r H. inv_tx.
  match goal with H : insertCommand _ _ _ _ = Ok _ |- _ => by apply insertCommand_receipt in H end.
Qed.
Lemma repeatable_CreateAtomicThread command input now : repeatable (CreateAtomicThread command input now).
Proof.
  unfold CreateAtomicThread. repeat (apply repeatable_lift; intros ?).
  eapply (repeatable_command command _ _ asMailboxState); [intros; apply storedMailboxResult_receipt|intros ????; apply answered|].
  intros s s' r H. inv_tx. inv_ok.
  match goal with H : insertMailboxCommand _ _ _ _ = Ok _ |- _ => apply insertCommandRow_receipt in H end.
  eexists. split; [done|]. done.
Qed.
Lemma repeatable_RecordCompaction command input : repeatable (RecordCompaction command input).
Proof.
  unfold RecordCompaction, advanceSequence. repeat (apply repeatable_lift; intros ?).
  eapply (repeatable_command command _ _ asThreadResult); [intros; apply commandResult_receipt| |].
  - intros r s s' c H. destruct (ThreadResult_Events r) as [|e [|]]; [by inv_tx; inv_ok| |by inv_tx; inv_ok]. by apply answered.
  - intros s s' r H. inv_tx.
    match goal with H : insertCommand _ _ _ _ = Ok _ |- _ => apply insertCommand_receipt in H end.
    eexists. split; [done|]. done.
Qed.

(** * Commands are applied once *)

(** What an operation does before its transaction. *)
Definition opened (op : ThreadOp) (db : ThreadDB) : ThreadDB :=
  match op with OpArchive _ _ _ => ensureThreadCatalog db | _ => db end.

(** Operations that carry a command. *)
Definition commanded (op : ThreadOp) : bool :=
  match op with OpCreateDialog _ | OpResolveDialog _ | OpSearch _ => false | _ => true end.

Lemma replied_Ok {A} (reply : A → ThreadReply) p r :
  (replied reply p).2 = Ok r → ∃ a, p.2 = Ok a ∧ r = reply a.
Proof. unfold replied. destruct p as [db [a|e|]]; cbn; naive_solver. Qed.

Lemma runTx_repeated {A} (body : tx A) (reply : A → ThreadReply) ids ids' db db' r :
  repeatable body → (replied reply (runTx body ids db)).2 = Ok r →
  kept (replied reply (runTx body ids db)).1 db' →
  replied reply (runTx body ids' db') = (db', Ok r).
Proof.
  intros Hb (a & Ha & ->)%replied_Ok. unfold replied, runTx, transact in *. cbn [fst].
  destruct (body (mkSession db ids)) as [[s x]|e|] eqn:E; cbn in Ha |- *; [|done..]. injection Ha as ->. intros Hk.
  by rewrite (Hb _ _ _ E (mkSession db' ids') Hk).
Qed.

Lemma repeatable_archive command archived now ids ids' db db' r :
  (replied ReplyThread (setThreadArchived command archived now ids db)).2 = Ok r →
  kept (replied ReplyThread (setThreadArchived command archived now ids db)).1 db' →
  replied ReplyThread (setThreadArchived command archived now ids' db') = (ensureThreadCatalog db', Ok r).
Proof.
  unfold setThreadArchived. destruct (_ ≫= _); [|done..]. intros H Hk.
  eapply runTx_repeated; [apply repeatable_archiveTx|exact H|exact Hk].
Qed.

(** A mailbox operation: its checks, then its transaction. *)
Ltac repeated_mailbox := repeat first [apply repeatable_mailbox | apply repeatable_lift; intros ?].

(** A command is applied once: after it succeeded, and whatever operations followed,
    the same operation changes nothing and returns what it returned at first. *)
Theorem command_applied_once op ids db r ops ids' :
  commanded op = true → (perform op ids db).2 = Ok r →
  let later := perform_all ops (perform op ids db).1 in
  perform op ids' later = (opened op later, Ok r).
Proof.
  intros Hc H later. assert (kept (perform op ids db).1 later) as Hk by apply perform_all_kept.
  clearbody later. destruct op; try discriminate Hc; unfold perform in *; cbn [opened];
    try (eapply runTx_repeated; [|exact H|exact Hk]).
  - apply repeatable_createThread.
  - apply repeatable_CreateConfiguredThread.
  - apply repeatable_CreateAtomicThread.
  - apply repeatable_Append.
  - apply repeatable_AppendTurnEvents.
  - unfold Submit. repeated_mailbox.
  - unfold Steer. repeated_mailbox.
  - unfold EditQueued. repeated_mailbox.
  - unfold SafePoint. repeated_mailbox.
  - unfold Dequeue. repeated_mailbox.
  - unfold CompleteTurn. repeated_mailbox.
  - unfold FailTurn. repeated_mailbox.
  - unfold InterruptAndSubmit. repeated_mailbox.
  - unfold Cancel. repeated_mailbox.
  - unfold SettleCancellation. repeated_mailbox.
  - apply repeatable_RecordCompaction.
  - by eapply repeatable_archive.
Qed.

End receipts.

Definition repeated_op : ThreadOp := OpSubmit (sample_command "second" CommandMessageSubmit) (sample_message "second").
Definition first_time : ThreadDB * result ThreadReply := perform repeated_op ["7"; "8"] (sample_db (take 2 busy_ops)).
Definition first_reply : ThreadReply :=
  match first_time.2 with Ok r => r | _ => ReplyThread ThreadResult_zero end.
Definition much_later : ThreadDB := perform_all (drop 3 idle_ops) first_time.1.

Lemma command_applied_once_witness :
  length (loadQueue much_later "T-1") = 1 ∧ perform repeated_op ["30"; "31"] much_later = (opened repeated_op much_later, Ok first_reply).
Proof.
  split; [by vm_compute|].
  assert ((perform repeated_op ["7"; "8"] (sample_db (take 2 busy_ops))).2 = Ok first_reply) as H by (vm_compute; reflexivity).
  exact (command_applied_once repeated_op ["7"; "8"] (sample_db (take 2 busy_ops)) first_reply (drop 3 idle_ops)
    ["30"; "31"] eq_refl H).
Defined.
