(* ===== verification/ThreadContext.v ===== *)
(** The context of a model: the latest summary of a thread and the events after its
    boundary. Boundaries advanceSequence, so that nothing of the log is left out. *)
From S2P Require Import Prelude Sql ThreadData MailboxSpec ThreadTables ThreadStore ThreadState.
From S2P Require Import ThreadMailbox ThreadService ThreadSafety.

(** * Compactions change in one operation only *)

Definition same_compactions (db db' : ThreadDB) : Prop := db'.(compactions) = db.(compactions).

#[export] Instance same_compactions_stable : Stable same_compactions.
Proof.
  split; unfold same_compactions; try done; try (intros; intros db db'; unfold insertThread, insertCatalog, setSequence,
    updateThread, insertEvent, insertQueueItem, deleteQueueItem, insertDialog, insertCommandRow; intros H; by inv_sql).
  - split; [done|]. intros db1 db2 db3. congruence.
  - intros id q f db db'. unfold updatePending. destruct (_ !! _); intros H; by inv_sql.
Qed.

Section context.
Context {env : ThreadEnv}.

(** A boundary was passed by the event that records it, and a later record has a later
    boundary. *)
Record compactions_sound (db : ThreadDB) : Prop := {
  cs_bounds id c r : db.(compactions) !! (id, c) = Some r →
    (0 < r.(co_through_sequence) < r.(co_event_sequence))%Z ∧
    ∃ row, db.(threads) !! id = Some row ∧ (r.(co_event_sequence) ≤ row.(tr_last_sequence))%Z;
  cs_order id c1 r1 c2 r2 : db.(compactions) !! (id, c1) = Some r1 → db.(compactions) !! (id, c2) = Some r2 →
    c1 = c2 ∨
    (r1.(co_event_sequence) < r2.(co_event_sequence) ∧ r1.(co_through_sequence) < r2.(co_through_sequence))%Z ∨
    (r2.(co_event_sequence) < r1.(co_event_sequence) ∧ r2.(co_through_sequence) < r1.(co_through_sequence))%Z;
}.

Lemma elem_compactionsOf db id r :
  r ∈ compactionsOf db id ↔ ∃ c row, db.(compactions) !! (id, c) = Some row ∧
    r = mkCompactionRecord c id row.(co_event_sequence) row.(co_through_sequence) row.(co_summary).
Proof.
  unfold compactionsOf. rewrite list_elem_of_omap. split.
  - intros ([[i c] row] & Hin%elem_of_map_to_list & H). cbn in H. destruct (String.eqb_spec i id) as [->|]; [|done].
    injection H as <-. by exists c, row.
  - intros (c & row & H & ->). exists ((id, c), row). rewrite elem_of_map_to_list. cbn. by rewrite String.eqb_refl.
Qed.

Lemma previousBoundary_le db id c r :
  db.(compactions) !! (id, c) = Some r → (r.(co_through_sequence) ≤ previousBoundary db id)%Z.
Proof.
  intros H. assert (mkCompactionRecord c id r.(co_event_sequence) r.(co_through_sequence) r.(co_summary) ∈ compactionsOf db id)
    as Hin by (apply elem_compactionsOf; by exists c, r).
  unfold previousBoundary. induction (compactionsOf db id) as [|x l IH]; [by apply elem_of_nil in Hin|].
  apply elem_of_cons in Hin as [<-|Hin]; cbn; [lia|]. specialize (IH Hin). lia.
Qed.

Lemma appendEvent_threads id v draft s s' e :
  appendThreadEvent id v draft s = Ok (s', e) → s'.(se_db).(threads) = s.(se_db).(threads).
Proof. unfold appendThreadEvent, insertEvent. intros H. inv_tx. by inv_sql. Qed.

(** What a compaction does to the table. *)
Lemma RecordCompaction_row command input s s' r :
  RecordCompaction command input s = Ok (s', r) → (0 ≤ input.(CompactionInput_ThroughSequence))%Z →
  s'.(se_db) = s.(se_db) ∨
  ∃ row c, s.(se_db).(threads) !! command.(ThreadCommand_ThreadID) = Some row ∧
    let through := input.(CompactionInput_ThroughSequence) in
    (0 < through ≤ row.(tr_last_sequence))%Z ∧ (previousBoundary s.(se_db) command.(ThreadCommand_ThreadID) < through)%Z ∧
    s'.(se_db).(compactions) = <[(command.(ThreadCommand_ThreadID), c) :=
      mkCompactionRow (u64 (row.(tr_last_sequence) + 1)) through input.(CompactionInput_Summary)]> s.(se_db).(compactions) ∧
    s'.(se_db).(threads) !! command.(ThreadCommand_ThreadID) = Some (row <| tr_last_sequence := u64 (row.(tr_last_sequence) + 1) |>).
Proof.
  unfold RecordCompaction, advanceSequence. intros H H0. inv_tx. destruct (_ : option ThreadResult) as [existing|]; inv_tx.
  { left. by destruct (ThreadResult_Events existing) as [|e [|]]; inv_tx; inv_ok. }
  right. inv_ok. match goal with H : threadRow _ _ = Ok ?row |- _ => apply threadRow_Ok in H; exists row end.
  match goal with H : appendThreadEvent _ _ _ _ = Ok _ |- _ =>
    pose proof (appendEvent_sequence _ _ _ _ _ _ H) as Hseq; pose proof (appendEvent_threads _ _ _ _ _ _ H) as Hthreads; apply (keeps_appendEvent (R:=same_compactions)) in H as Hc1 end.
  match goal with H : insertCommand _ _ _ _ = Ok _ |- _ => apply insertCommand_same in H as Hsame; apply (keeps_insertCommand (R:=same_compactions)) in H as Hc3 end.
  match goal with H : setSequence _ _ _ _ = Ok _ |- _ => unfold setSequence, updateThread in H end.
  match goal with H : insertCompaction _ _ ?c _ = Ok _ |- _ => unfold insertCompaction in H; exists c end. inv_sql.
  unfold same_compactions in *. split_and!; [done|lia|lia|done| |].
  - cbn [se_db]. rewrite Hc3. cbn. by rewrite Hc1, Hseq.
  - cbn [se_db]. rewrite (proj1 Hsame). cbn. rewrite lookup_alter_eq, Hthreads.
    match goal with H : threads _ !! _ = Some _ |- _ => by rewrite H, Hseq end.
Qed.

Lemma u64_next (n : nat) : (Z.of_nat n < 9223372036854775808)%Z → u64 (Z.of_nat n + 1) = (Z.of_nat n + 1)%Z.
Proof. intros H. apply u64_small. unfold two64. lia. Qed.

(** Across an operation the sequence of a thread does not fall. *)
Lemma sequence_grows used db op ids id row :
  reached used db → permitted op = true → NoDup (ids ++ used) → db.(threads) !! id = Some row →
  ∃ row', (perform op ids db).1.(threads) !! id = Some row' ∧ (row.(tr_last_sequence) ≤ row'.(tr_last_sequence))%Z.
Proof.
  intros Hr Hp Hn Hrow. destruct (thread_step _ _ _ _ _ _ Hr Hp Hn Hrow) as (row' & l' & _ & Hrow' & Hl & _).
  exists row'. split; [done|].
  destruct (so_thread _ _ (reached_sound _ _ Hr) _ _ Hrow) as (l & m & _ & Hm & _).
  destruct (so_thread _ _ (reached_sound _ _ (reached_op _ _ _ _ Hr Hp Hn)) _ _ Hrow') as (l1 & m1 & _ & Hm1 & _).
  rewrite (represents_log _ _ _ _ _ Hm), (represents_log _ _ _ _ _ Hm1) in Hl. subst l1.
  rewrite (re_sequence _ _ _ _ _ Hm), (re_sequence _ _ _ _ _ Hm1), length_app. lia.
Qed.

Lemma compaction_cases op ids db : permitted op = true →
  same_compactions db (perform op ids db).1 ∨
  ∃ command input s r, op = OpCompact command input ∧ (0 ≤ input.(CompactionInput_ThroughSequence))%Z ∧
    RecordCompaction command input (mkSession db ids) = Ok (s, r) ∧ (perform op ids db).1 = s.(se_db).
Proof.
  intros Hp. destruct op; try (left; by apply perform_keeps). cbn in Hp. apply Z.leb_le in Hp.
  unfold perform, replied, runTx, transact. destruct (RecordCompaction _ _ _) as [[s r]|e|] eqn:E; cbn; [|by left..].
  right. by eexists _, _, s, r.
Qed.

Lemma compactions_step used db op ids :
  reached used db → permitted op = true → NoDup (ids ++ used) → compactions_sound db → compactions_sound (perform op ids db).1.
Proof.
  intros Hr Hp Hn [Hb Ho]. pose proof (λ id row, sequence_grows used db op ids id row Hr Hp Hn) as Hgrow.
  assert ((perform op ids db).1.(compactions) = db.(compactions) → compactions_sound (perform op ids db).1) as Hsame.
  { intros E. split; rewrite E; [|exact Ho]. intros id c r H. destruct (Hb _ _ _ H) as (Hbound & row & Hrow & Hle).
    split; [done|]. destruct (Hgrow _ _ Hrow) as (row' & Hrow' & Hle'). exists row'. split; [done|lia]. }
  destruct (compaction_cases op ids db Hp) as [E|(command & input & s & r & -> & H0 & Hrec & Hs)]; [by apply Hsame|].
  destruct (RecordCompaction_row _ _ _ _ _ Hrec H0) as [E|(row & c & Hrow & Hth & Hprev & E & Erow)]; [apply Hsame; rewrite Hs, E; done|].
  rewrite Hs in *. cbn [se_db] in *. set (id := ThreadCommand_ThreadID command) in *.
  destruct (so_thread _ _ (reached_sound _ _ Hr) _ _ Hrow) as (l & m & _ & Hm & _).
  assert (u64 (tr_last_sequence row + 1) = tr_last_sequence row + 1)%Z as Eu.
  { rewrite (re_sequence _ _ _ _ _ Hm). apply u64_next, Hm. }
  rewrite Eu in *. split; rewrite E.
  - intros i c' r' [[E' <-]|[Hne H]]%lookup_insert_Some.
    + injection E' as <- <-. cbn. split; [lia|]. eexists. split; [exact Erow|cbn; lia].
    + destruct (Hb _ _ _ H) as (Hbound & row' & Hrow' & Hle). split; [done|].
      destruct (Hgrow _ _ Hrow') as (row'' & Hrow'' & Hle'). exists row''. split; [done|lia].
  - assert (∀ c' r', db.(compactions) !! (id, c') = Some r' → (r'.(co_event_sequence) ≤ row.(tr_last_sequence))%Z ∧
      (r'.(co_through_sequence) < input.(CompactionInput_ThroughSequence))%Z) as Hold.
    { intros c' r' H. pose proof (previousBoundary_le _ _ _ _ H). destruct (Hb _ _ _ H) as (_ & row2 & Hrow2 & Hle).
      rewrite Hrow in Hrow2. injection Hrow2 as <-. split; [done|lia]. }
    intros i c1 r1 c2 r2 [[E1 <-]|[Hne1 H1]]%lookup_insert_Some [[E2 <-]|[Hne2 H2]]%lookup_insert_Some; cbn.
    + left. congruence.
    + injection E1 as <- <-. destruct (Hold _ _ H2). right; right. lia.
    + injection E2 as <- <-. destruct (Hold _ _ H1). right; left. lia.
    + by eapply Ho.
Qed.

Lemma reached_compactions used db : reached used db → compactions_sound db.
Proof.
  induction 1 as [|used db op ids Hr IH Hp Hn]; [split; intros; done|by eapply compactions_step].
Qed.

(** * The latest *)

Lemma latestCompaction_spec db id :
  match latestCompaction db id with
  | Some r => r ∈ compactionsOf db id ∧
      ∀ r', r' ∈ compactionsOf db id → (r'.(CompactionRecord_EventSequence) ≤ r.(CompactionRecord_EventSequence))%Z
  | None => compactionsOf db id = []
  end.
Proof.
  unfold latestCompaction. induction (compactionsOf db id) as [|x l IH]; cbn; [done|].
  destruct (foldr _ _ l) as [r|]; [|subst l; split; [by left|by intros r' ->%list_elem_of_singleton]].
  destruct IH as [Hin Hmax]. destruct (Z.ltb_spec r.(CompactionRecord_EventSequence) x.(CompactionRecord_EventSequence)).
  - split; [by left|]. intros r' [->|Hr'%Hmax]%elem_of_cons; lia.
  - split; [by right|]. intros r' [->|Hr']%elem_of_cons; [lia|by apply Hmax].
Qed.

Definition boundary (r : option CompactionRecord) : Z :=
  match r with Some r => r.(CompactionRecord_ThroughSequence) | None => 0%Z end.

(** The record is the stored summary of the thread with the latest boundary. *)
Definition latest_stored (db : ThreadDB) (id : string) (record : option CompactionRecord) : Prop :=
  match record with
  | Some r => ∃ stored, db.(compactions) !! (id, r.(CompactionRecord_CompactionID)) = Some stored ∧
      r = mkCompactionRecord r.(CompactionRecord_CompactionID) id stored.(co_event_sequence) stored.(co_through_sequence) stored.(co_summary) ∧
      ∀ c other, db.(compactions) !! (id, c) = Some other → c ≠ r.(CompactionRecord_CompactionID) →
        (other.(co_event_sequence) < stored.(co_event_sequence))%Z ∧ (other.(co_through_sequence) < stored.(co_through_sequence))%Z
  | None => ∀ c, db.(compactions) !! (id, c) = None
  end.

Lemma latestCompaction_stored db id : compactions_sound db → latest_stored db id (latestCompaction db id).
Proof.
  intros [Hb Ho]. pose proof (latestCompaction_spec db id) as H. destruct (latestCompaction db id) as [r|]; cbn.
  - destruct H as [(c & stored & Hc & ->)%elem_compactionsOf Hmax]. exists stored. split; [exact Hc|]. split; [done|].
    cbn in *. intros c' other Hc' Hne. destruct (Ho _ _ _ _ _ Hc Hc') as [<-|[[Hlt _]|?]]; [done| |done]. exfalso.
    assert (mkCompactionRecord c' id other.(co_event_sequence) other.(co_through_sequence) other.(co_summary) ∈ compactionsOf db id) as Hin
      by (apply elem_compactionsOf; by exists c', other). apply Hmax in Hin. cbn in Hin. lia.
  - intros c. apply eq_None_not_Some. intros [stored Hc].
    assert (mkCompactionRecord c id stored.(co_event_sequence) stored.(co_through_sequence) stored.(co_summary) ∈ compactionsOf db id) as Hin
      by (apply elem_compactionsOf; by exists c, stored). rewrite H in Hin. by apply elem_of_nil in Hin.
Qed.

(** C36: The context of a thread leaves nothing of its log out: it is the stored summary
    with the latest boundary, if there is any, and, in order, every event after that
    boundary that is not itself a compaction record; the boundary lies within the log,
    and no other summary of the thread covers as much. *)
Theorem context_covers_the_log used db id row :
  reached used db → db.(threads) !! id = Some row → id ≠ "" →
  ∃ p, Store_ContextProjection id db = Ok p ∧ latest_stored db id p.(ContextProjection_Compaction) ∧
    let through := boundary p.(ContextProjection_Compaction) in
    (0 ≤ through ≤ Z.of_nat (length (thread_log db id)))%Z ∧
    p.(ContextProjection_Tail) =
      List.filter (λ e, e.(ThreadEvent_Type) != EventCompactionRecorded) (drop (Z.to_nat through) (thread_log db id)).
Proof.
  intros Hr Hrow Hid. destruct (so_thread _ _ (reached_sound _ _ Hr) _ _ Hrow) as (l & m & _ & Hm & _).
  pose proof (reached_compactions _ _ Hr) as Hs. pose proof (latestCompaction_stored _ id Hs) as Hlatest.
  rewrite (represents_log _ _ _ _ _ Hm).
  assert (0 ≤ boundary (latestCompaction db id) ≤ Z.of_nat (length l))%Z as Hrange.
  { destruct (latestCompaction db id) as [r|]; cbn; [|lia]. destruct Hlatest as (stored & Hc & -> & _). cbn in *.
    destruct (cs_bounds _ Hs _ _ _ Hc) as (Hbound & row' & Hrow' & Hle). rewrite Hrow in Hrow'. injection Hrow' as <-.
    rewrite (re_sequence _ _ _ _ _ Hm) in Hle. lia. }
  eexists. split.
  { unfold Store_ContextProjection, Thread_Replay. fold (boundary (latestCompaction db id)).
    rewrite (proj2 (String.eqb_neq _ _) Hid), bindUint64_small by (pose proof (re_bound _ _ _ _ _ Hm); lia). cbn.
    by rewrite (eventsAfter_is _ _ _ _ (re_log _ _ _ _ _ Hm) (re_events _ _ _ _ _ Hm)) by lia. }
  split; [exact Hlatest|]. by split.
Qed.

End context.

(** The sample run, then a summary of its first three events. *)
Definition compacted_ops : list (ThreadOp * list string) := busy_ops ++
  [(OpCompact (sample_command "compact" CommandThreadCompact) (mkCompactionInput 3 "so far"), ["12"])].

Lemma context_covers_the_log_witness :
  boundary (latestCompaction (sample_db compacted_ops) "T-1") = 3%Z ∧
  ∃ p, Store_ContextProjection "T-1" (sample_db compacted_ops) = Ok p ∧
    latest_stored (sample_db compacted_ops) "T-1" p.(ContextProjection_Compaction) ∧
    let through := boundary p.(ContextProjection_Compaction) in
    (0 ≤ through ≤ Z.of_nat (length (thread_log (sample_db compacted_ops) "T-1")))%Z ∧
    p.(ContextProjection_Tail) = List.filter (λ e, e.(ThreadEvent_Type) != EventCompactionRecorded)
      (drop (Z.to_nat through) (thread_log (sample_db compacted_ops) "T-1")).
Proof.
  split; [by vm_compute|].
  apply (context_covers_the_log (sample_used compacted_ops) _ "T-1" (sample_row compacted_ops));
    [apply sample_reached; by_decide|apply sample_thread; by vm_compute|done].
Defined.
