(* ===== verification/ThreadCatalog.v ===== *)
(** The pages of the thread catalog: following the cursors from the first page gives
    every entry the query matches, once, latest first. *)
From stdpp Require Import sorting.
From S2P Require Import Prelude Sql ThreadData MailboxSpec ThreadTables ThreadStore ThreadState.
From S2P Require Import ThreadService.

(** * The order of a page *)

Lemma ltb_leb s t : String.ltb s t = negb (String.leb t s).
Proof. unfold String.ltb, String.leb. rewrite String.compare_antisym. by destruct (String.compare t s). Qed.

Lemma leb_total s t : String.leb s t = true ∨ String.leb t s = true.
Proof. destruct (String.leb_total s t) as [->| ->]; auto. Qed.

Lemma leb_trans s t u : String.leb s t = true → String.leb t u = true → String.leb s u = true.
Proof.
  intros H1%Is_true_true H2%Is_true_true. apply Is_true_true. change (String.le s u). by transitivity t.
Qed.

(** [(u1, t1)] is not before [(u2, t2)]. *)
Lemma keyBefore_false u1 t1 u2 t2 :
  keyBefore u1 t1 u2 t2 = false ↔ String.leb u2 u1 = true ∧ (u1 = u2 → String.leb t2 t1 = true).
Proof.
  unfold keyBefore. rewrite orb_false_iff, !ltb_leb, negb_false_iff. apply and_iff_compat_l.
  destruct (String.eqb_spec u1 u2); cbn; rewrite ?negb_false_iff; naive_solver.
Qed.

#[export] Instance catalogOrder_total : Total catalogOrder.
Proof.
  intros x y. unfold catalogOrder. rewrite !keyBefore_false.
  destruct (String.eqb_spec (ThreadCatalogEntry_UpdatedAt x) (ThreadCatalogEntry_UpdatedAt y)) as [E|E].
  - rewrite E. destruct (leb_total (ThreadCatalogEntry_ThreadID x) (ThreadCatalogEntry_ThreadID y));
      [right|left]; (split; [|done]); destruct (leb_total (ThreadCatalogEntry_UpdatedAt y) (ThreadCatalogEntry_UpdatedAt y)); done.
  - destruct (leb_total (ThreadCatalogEntry_UpdatedAt x) (ThreadCatalogEntry_UpdatedAt y)); [right|left]; by split; [|intros]; [done|congruence].
Qed.

#[export] Instance catalogOrder_trans : Transitive catalogOrder.
Proof.
  intros x y z. unfold catalogOrder. rewrite !keyBefore_false. intros [H1 T1] [H2 T2]. split; [by eapply leb_trans|].
  intros E. rewrite E in H1. pose proof (String.leb_antisym _ _ H1 H2) as E'.
  eapply leb_trans; [by apply T2|]. apply T1. congruence.
Qed.

Definition sameKey (x y : ThreadCatalogEntry) : Prop :=
  x.(ThreadCatalogEntry_UpdatedAt) = y.(ThreadCatalogEntry_UpdatedAt) ∧
  x.(ThreadCatalogEntry_ThreadID) = y.(ThreadCatalogEntry_ThreadID).

Lemma catalogOrder_antisym x y : catalogOrder x y → catalogOrder y x → sameKey x y.
Proof.
  unfold catalogOrder. rewrite !keyBefore_false. intros [H1 T1] [H2 T2].
  assert (ThreadCatalogEntry_UpdatedAt x = ThreadCatalogEntry_UpdatedAt y) as E by (by apply String.leb_antisym).
  split; [done|]. apply String.leb_antisym; [by apply T2|by apply T1].
Qed.

(** * The listing *)

(** Every entry a query matches, whatever its cursor, in the order of the pages. *)
Definition listing (query : ThreadCatalogQuery) (db : ThreadDB) : list ThreadCatalogEntry :=
  merge_sort catalogOrder (List.filter (catalogMatches query) (catalogEntries db)).

Lemma elem_catalogEntries db e :
  e ∈ catalogEntries db ↔ ∃ id c t, db.(thread_catalog) !! id = Some c ∧ db.(threads) !! id = Some t ∧ e = catalogEntry id c t.
Proof.
  unfold catalogEntries. rewrite list_elem_of_omap. split.
  - intros ([id c] & Hin%elem_of_map_to_list & H). cbn in H. apply fmap_Some in H as (t & Ht & ->). by exists id, c, t.
  - intros (id & c & t & Hc & Ht & ->). exists (id, c). rewrite elem_of_map_to_list. cbn. by rewrite Ht.
Qed.

Lemma catalogEntries_key db x y :
  x ∈ catalogEntries db → y ∈ catalogEntries db → x.(ThreadCatalogEntry_ThreadID) = y.(ThreadCatalogEntry_ThreadID) → x = y.
Proof.
  intros (i & c & t & Hc & Ht & ->)%elem_catalogEntries (j & c' & t' & Hc' & Ht' & ->)%elem_catalogEntries. cbn. intros ->.
  congruence.
Qed.

Lemma catalogEntries_NoDup db : NoDup (catalogEntries db).
Proof.
  apply NoDup_omap_rows. intros i c j c' e _ _. cbn. rewrite !fmap_Some. intros (t & _ & ->) (t' & _ & E).
  by injection E.
Qed.

Lemma elem_listing query db e : e ∈ listing query db ↔ e ∈ catalogEntries db ∧ catalogMatches query e = true.
Proof. unfold listing. by rewrite merge_sort_Permutation, list_elem_of_In, filter_In, <- list_elem_of_In. Qed.

Lemma listing_sorted query db : StronglySorted catalogOrder (listing query db).
Proof. unfold listing. apply StronglySorted_merge_sort; apply _. Qed.

Lemma filter_NoDup {A} (f : A → bool) l : NoDup l → NoDup (List.filter f l).
Proof.
  induction 1 as [|x l Hx Hl IH]; [constructor|]. cbn. destruct (f x); [|done]. constructor; [|done].
  intros Hin%list_elem_of_In%filter_In. apply Hx, list_elem_of_In, Hin.
Qed.

Lemma listing_NoDup query db : NoDup (listing query db).
Proof. unfold listing. rewrite merge_sort_Permutation. apply filter_NoDup, catalogEntries_NoDup. Qed.

(** No two entries have the same key. *)
Lemma listing_keys query db x y : x ∈ listing query db → y ∈ listing query db → catalogOrder x y → catalogOrder y x → x = y.
Proof.
  rewrite !elem_listing. intros [Hx _] [Hy _] H1 H2. destruct (catalogOrder_antisym _ _ H1 H2) as [_ E].
  by eapply catalogEntries_key.
Qed.

Lemma sorted_filter_listing {A} (R : relation A) (f : A → bool) l : StronglySorted R l → StronglySorted R (List.filter f l).
Proof.
  induction 1 as [|x l Hl IH Hx]; [constructor|]. cbn. destruct (f x); [|done]. constructor; [done|].
  rewrite Forall_forall in Hx |- *. intros y [Hy _]%list_elem_of_In%filter_In. by apply Hx, list_elem_of_In.
Qed.

(** The rows of a page are those of the listing after the cursor. *)
Lemma page_rows query db (f : ThreadCatalogEntry → bool) :
  merge_sort catalogOrder (List.filter (λ e, catalogMatches query e && f e) (catalogEntries db)) =
  List.filter f (listing query db).
Proof.
  assert (∀ e, e ∈ List.filter f (listing query db) ↔ e ∈ listing query db ∧ f e = true) as He.
  { intros e. by rewrite list_elem_of_In, filter_In, <- list_elem_of_In. }
  apply merge_sort_listing; [apply _..| | | | |].
  - intros x y [Hx _]%He [Hy _]%He. by eapply listing_keys.
  - apply sorted_filter_listing, listing_sorted.
  - apply filter_NoDup, catalogEntries_NoDup.
  - apply filter_NoDup, listing_NoDup.
  - intros e. rewrite He, elem_listing, list_elem_of_In, filter_In, <- list_elem_of_In, andb_true_iff. tauto.
Qed.

Lemma filter_all {A} (f : A → bool) l : (∀ x, x ∈ l → f x = true) → List.filter f l = l.
Proof.
  induction l as [|x l IH]; [done|]. intros H. cbn. rewrite (H x) by left. f_equal. apply IH. intros y Hy. apply H. by right.
Qed.

Lemma after_key l n x :
  StronglySorted catalogOrder l → NoDup l → (∀ x y, x ∈ l → y ∈ l → catalogOrder x y → catalogOrder y x → x = y) →
  l !! n = Some x →
  List.filter (λ e, keyBefore e.(ThreadCatalogEntry_UpdatedAt) e.(ThreadCatalogEntry_ThreadID)
                      x.(ThreadCatalogEntry_UpdatedAt) x.(ThreadCatalogEntry_ThreadID)) l = drop (S n) l.
Proof.
  intros Hs. revert n. induction Hs as [|y l Hl IH Hy]; intros n Hnd Hk Hn; [done|]. rewrite Forall_forall in Hy.
  apply NoDup_cons in Hnd as [Hnin Hnd]. cbn [List.filter].
  assert (∀ x y, x ∈ l → y ∈ l → catalogOrder x y → catalogOrder y x → x = y) as Hk'.
  { intros; apply Hk; [by right|by right|done|done]. }
  destruct n as [|n]; cbn in Hn.
  - injection Hn as <-. rewrite (proj2 (keyBefore_false _ _ _ _)).
    2: { split; [|intros _]; [by destruct (leb_total (ThreadCatalogEntry_UpdatedAt y) (ThreadCatalogEntry_UpdatedAt y))|
      by destruct (leb_total (ThreadCatalogEntry_ThreadID y) (ThreadCatalogEntry_ThreadID y))]. }
    cbn [drop]. apply filter_all. intros e He. destruct (keyBefore _ _ _ _) eqn:E; [done|]. exfalso. apply Hnin.
    rewrite (Hk y e); [done|by left|by right|by apply Hy|exact E].
  - assert (x ∈ l) as Hin by (by eapply list_elem_of_lookup_2).
    rewrite (Hy x Hin : keyBefore _ _ _ _ = false). by apply IH.
Qed.

(** * Following the cursors *)

Section pages.
Context {env : ThreadEnv}.

(** The query of the page after [entry]. *)
Definition onward (query : ThreadCatalogQuery) (cursor : string) : ThreadCatalogQuery :=
  query <| ThreadCatalogQuery_Cursor := cursor |>.

(** A client that asks for page after page. *)
Fixpoint browse (fuel : nat) (query : ThreadCatalogQuery) (db : ThreadDB) : ThreadDB * result (list ThreadCatalogEntry) :=
  match fuel with
  | O => (db, Ok [])
  | S fuel =>
      match SearchThreadCatalog query db with
      | (db, Ok page) =>
          if page.(ThreadCatalogPage_NextCursor) == "" then (db, Ok page.(ThreadCatalogPage_Threads))
          else let '(db, rest) := browse fuel (onward query page.(ThreadCatalogPage_NextCursor)) db in
               (db, rest ← rest; Ok (page.(ThreadCatalogPage_Threads) ++ rest))
      | (db, Err err) => (db, Err err)
      | (db, Panic) => (db, Panic)
      end
  end.

(** The cursor the store makes of an entry. *)
Definition cursor_of (query : ThreadCatalogQuery) (e : ThreadCatalogEntry) : threadCatalogCursor :=
  mkthreadCatalogCursor ThreadCatalogSchemaVersion query.(ThreadCatalogQuery_ProjectID)
    (strings_ToLower query.(ThreadCatalogQuery_Search)) query.(ThreadCatalogQuery_Archive)
    e.(ThreadCatalogEntry_UpdatedAt) e.(ThreadCatalogEntry_ThreadID).

(** Encoding and decoding agree on the cursors of the listing (base64 and JSON). *)
Definition decodable (query : ThreadCatalogQuery) (db : ThreadDB) : Prop :=
  ∀ e, e ∈ listing query db → encodeThreadCatalogCursor query e ≠ "" ∧ e.(ThreadCatalogEntry_ThreadID) ≠ "" ∧
    decodeCursor (encodeThreadCatalogCursor query e) = Ok (cursor_of query e).

(** The listing from position [n], as the cursor of the query says. *)
Definition at_position (query : ThreadCatalogQuery) (db : ThreadDB) (n : nat) : Prop :=
  match n with
  | O => query.(ThreadCatalogQuery_Cursor) = ""
  | S n => ∃ e, listing query db !! n = Some e ∧ query.(ThreadCatalogQuery_Cursor) = encodeThreadCatalogCursor query e
  end.

Lemma page_at query db n :
  decodable query db → at_position query db n →
  ∃ cursor, decodeThreadCatalogCursor query = Ok cursor ∧
    List.filter (afterCursor cursor) (listing query db) = drop n (listing query db).
Proof.
  intros Hd Hn. unfold decodeThreadCatalogCursor. destruct n as [|n].
  - cbn in Hn. rewrite Hn. cbn. exists None. split; [done|]. by apply filter_all.
  - destruct Hn as (e & He & Hc). rewrite Hc. destruct (Hd e) as (Hne & Hid & Hdec); [by eapply list_elem_of_lookup_2|].
    rewrite (proj2 (String.eqb_neq _ _) Hne), Hdec. cbn. rewrite !String.eqb_refl, (proj2 (String.eqb_neq _ _) Hid). cbn.
    eexists. split; [done|]. apply (after_key _ n e); [apply listing_sorted|apply listing_NoDup|apply listing_keys|done].
Qed.

Lemma catalogPage_at query db n :
  decodable query db → at_position query db n →
  let limit := Z.to_nat query.(ThreadCatalogQuery_Limit) in
  let rest := drop n (listing query db) in
  0 < limit →
  ∃ next, catalogPage query db = Ok (mkThreadCatalogPage ThreadCatalogSchemaVersion (take limit rest) next) ∧
    if decide (limit < length rest) then at_position (onward query next) db (n + limit) ∧ next ≠ "" else next = "".
Proof.
  intros Hd Hn limit rest Hlim. destruct (page_at _ _ _ Hd Hn) as (cursor & Hdec & Hf).
  unfold catalogPage. rewrite Hdec. cbn [mbind result_bind]. rewrite (page_rows query db (afterCursor cursor)), Hf.
  fold rest limit. rewrite length_take, take_take, (Nat.min_l limit (limit + 1)) by lia.
  destruct (decide (limit < length rest)) as [Hlt|Hge].
  - rewrite (proj2 (Nat.ltb_lt _ _)) by lia. rewrite last_lookup, length_take, Nat.min_l by lia.
    destruct (lookup_lt_is_Some_2 rest (pred limit)) as [e He]; [lia|]. rewrite lookup_take_lt, He by lia.
    exists (encodeThreadCatalogCursor query e). split; [done|]. unfold rest in He. rewrite lookup_drop in He.
    split; [|by eapply Hd, list_elem_of_lookup_2].
    replace (n + limit) with (S (n + pred limit)) by lia. by exists e.
  - rewrite (proj2 (Nat.ltb_ge _ _)) by lia. exists "". split; [|done]. by rewrite !take_ge by lia.
Qed.

(** The cursors of the listing are no longer than the store accepts. *)
Definition cursors_fit (query : ThreadCatalogQuery) (db : ThreadDB) : Prop :=
  ∀ e, e ∈ listing query db → (Z.of_nat (String.length (encodeThreadCatalogCursor query e)) ≤ maxThreadCatalogCursorBytes)%Z.

Lemma validate_inv query query' : ThreadCatalogQuery_validate query = Ok query' →
  query' = query <| ThreadCatalogQuery_ProjectID := strings_TrimSpace query.(ThreadCatalogQuery_ProjectID) |>
                 <| ThreadCatalogQuery_Search := strings_TrimSpace query.(ThreadCatalogQuery_Search) |> ∧
  (1 ≤ query'.(ThreadCatalogQuery_Limit) ≤ MaxThreadCatalogPageSize)%Z.
Proof.
  unfold ThreadCatalogQuery_validate. cbv zeta. intros H. repeat (apply bind_Ok in H as ([] & ?%fail_if_Ok & H)). injection H as <-.
  split; [done|]. match goal with H : (_ <? 1)%Z || _ = false |- _ => apply orb_false_iff in H as [?%Z.ltb_ge ?%Z.ltb_ge] end. by split.
Qed.

Lemma validate_onward query query' cursor :
  ThreadCatalogQuery_validate query = Ok query' → (Z.of_nat (String.length cursor) ≤ maxThreadCatalogCursorBytes)%Z →
  ThreadCatalogQuery_validate (onward query cursor) = Ok (onward query' cursor).
Proof.
  unfold ThreadCatalogQuery_validate. cbv zeta. intros H Hc.
  do 4 (apply bind_Ok in H as ([] & ?%fail_if_Ok & H); apply bind_Ok; exists tt; split; [by apply fail_if_Ok|]).
  apply bind_Ok in H as ([] & _ & H). injection H as <-.
  apply bind_Ok. exists tt. split; [apply fail_if_Ok; cbn; by apply Z.ltb_ge|done].
Qed.

Lemma ensureThreadCatalog_twice db : ensureThreadCatalog (ensureThreadCatalog db) = ensureThreadCatalog db.
Proof. unfold ensureThreadCatalog. cbn. by rewrite <- map_union_assoc, map_union_idemp. Qed.

Lemma browse_from fuel query query' db n :
  ensureThreadCatalog db = db → ThreadCatalogQuery_validate query = Ok query' →
  decodable query' db → cursors_fit query' db → at_position query' db n →
  length (listing query' db) < n + fuel → browse fuel query db = (db, Ok (drop n (listing query' db))).
Proof.
  intros He. revert query query' n. induction fuel as [|fuel IH]; intros query query' n Hv Hd Hfit Hn Hfuel; cbn [browse].
  { by rewrite drop_ge by lia. }
  destruct (validate_inv _ _ Hv) as [_ [Hlim _]]. unfold SearchThreadCatalog. rewrite Hv, He.
  destruct (catalogPage_at _ _ _ Hd Hn) as (next & Hpage & Hnext); [lia|]. rewrite Hpage. cbn.
  rewrite length_drop in Hnext. case_decide as Hlt.
  - destruct Hnext as [Hpos Hne]. rewrite (proj2 (String.eqb_neq _ _) Hne).
    assert (Z.of_nat (String.length next) ≤ maxThreadCatalogCursorBytes)%Z as Hlen.
    { replace (n + Z.to_nat query'.(ThreadCatalogQuery_Limit)) with (S (n + pred (Z.to_nat query'.(ThreadCatalogQuery_Limit)))) in Hpos by lia.
      destruct Hpos as (e & Hin & E). cbn in E. rewrite E. apply Hfit. by eapply list_elem_of_lookup_2. }
    rewrite (IH (onward query next) (onward query' next) (n + Z.to_nat query'.(ThreadCatalogQuery_Limit)));
      [|by apply validate_onward|exact Hd|exact Hfit|exact Hpos|change (listing (onward query' next) db) with (listing query' db); lia].
    cbn. f_equal. f_equal. change (listing (onward query' next) db) with (listing query' db).
    by rewrite <- drop_drop, take_drop.
  - subst next. cbn. f_equal. f_equal. by rewrite take_ge by (rewrite length_drop; lia).
Qed.

(** C37: A client that follows the cursors of the catalog from the first page gets every
    entry its query matches, each once, in descending order of update and identifier,
    and the pages come to an end. That holds for every query the store accepts, so for
    pages of 1 to 100 entries, in which the cursors stay within the 2048 bytes the store
    takes back; the pages are those of the database with every thread in the catalog. *)
Theorem pages_list_the_catalog query query' db fuel :
  query.(ThreadCatalogQuery_Cursor) = "" → ThreadCatalogQuery_validate query = Ok query' →
  let db' := ensureThreadCatalog db in
  decodable query' db' → cursors_fit query' db' → length (catalogEntries db') < fuel →
  ∃ entries, browse fuel query db = (db', Ok entries) ∧ NoDup entries ∧ StronglySorted catalogOrder entries ∧
    ∀ e, e ∈ entries ↔ e ∈ catalogEntries db' ∧ catalogMatches query' e = true.
Proof.
  intros Hc Hv db' Hd Hfit Hf. exists (listing query' db').
  split_and!; [|apply listing_NoDup|apply listing_sorted|apply elem_listing].
  assert (browse fuel query db = browse fuel query db') as ->.
  { destruct fuel as [|fuel]; [lia|]. cbn [browse]. unfold SearchThreadCatalog. unfold db'. by rewrite Hv, ensureThreadCatalog_twice. }
  rewrite (browse_from fuel query query' db' 0); [done|apply ensureThreadCatalog_twice|done|done|done| |].
  - cbn. destruct (validate_inv _ _ Hv) as [-> _]. exact Hc.
  - unfold listing. rewrite merge_sort_Permutation.
    pose proof (filter_at_most (catalogMatches query') (catalogEntries db')). cbn. lia.
Qed.

End pages.

(** * The catalog of three threads *)

Definition project_query : ThreadCatalogQuery := mkThreadCatalogQuery " project " "" ArchiveActive 1 "".
Definition trimmed_query : ThreadCatalogQuery := mkThreadCatalogQuery "project" "" ArchiveActive 1 "".
Definition project_db : ThreadDB := ensureThreadCatalog (sample_db project_ops).

Lemma project_cursors : decodable trimmed_query project_db ∧ cursors_fit trimmed_query project_db.
Proof.
  split; intros e He; assert (∃ l, listing trimmed_query project_db = l ∧ e ∈ l) as (l & El & Hin) by (by eexists);
    vm_compute in El; subst l; repeat (apply elem_of_cons in Hin as [->|Hin]; [first [by split_and!|by vm_compute]|]); by apply elem_of_nil in Hin.
Qed.

Lemma pages_list_the_catalog_witness :
  (ThreadCatalogEntry_ThreadID <$> listing trimmed_query project_db) = ["T-21"; "T-11"; "T-1"] ∧
  ∃ entries, browse 4 project_query (sample_db project_ops) = (project_db, Ok entries) ∧ NoDup entries ∧
    StronglySorted catalogOrder entries ∧
    ∀ e, e ∈ entries ↔ e ∈ catalogEntries project_db ∧ catalogMatches trimmed_query e = true.
Proof.
  split; [by vm_compute|]. destruct project_cursors as [Hd Hf].
  exact (pages_list_the_catalog project_query trimmed_query (sample_db project_ops) 4 eq_refl eq_refl Hd Hf ltac:(by_decide)).
Defined.

(** * A cursor that is too long *)

(** A text of printable ASCII as [encoding/json] writes it. *)
Definition backslash : Ascii.ascii := Ascii.ascii_of_nat 92.
Definition quote : Ascii.ascii := Ascii.ascii_of_nat 34.
Fixpoint json_text (s : string) : string :=
  match s with
  | EmptyString => ""
  | String c s =>
      (if Ascii.eqb c quote || Ascii.eqb c backslash then String backslash (String c "")
       else if Ascii.nat_of_ascii c =? 60 then String backslash "u003c" else if Ascii.nat_of_ascii c =? 62 then String backslash "u003e"
       else if Ascii.nat_of_ascii c =? 38 then String backslash "u0026" else String c "") +:+ json_text s
  end.
Definition quoted (s : string) : string := String quote (json_text s) +:+ String quote "".

Definition json_fields (fields : list (string * string)) : string :=
  "{" +:+ String.concat "," ((λ f : string * string, quoted f.1 +:+ ":" +:+ f.2) <$> fields) +:+ "}".
Definition cursor_json (c : threadCatalogCursor) : string :=
  json_fields [("schema_version", "1"); ("project_id", quoted c.(threadCatalogCursor_ProjectID));
    ("search", quoted c.(threadCatalogCursor_Search)); ("archive", quoted c.(threadCatalogCursor_Archive));
    ("updated_at", quoted c.(threadCatalogCursor_UpdatedAt)); ("thread_id", quoted c.(threadCatalogCursor_ThreadID))].

(** [base64.RawURLEncoding]. *)
Definition sextet (n : nat) : string :=
  String.substring n 1 "ABCDEFGHIJKLMNOPQRSTUVWXYZabcdefghijklmnopqrstuvwxyz0123456789-_".
Fixpoint base64 (s : string) : string :=
  match s with
  | String a (String b (String c s)) =>
      let '(a, b, c) := (Ascii.nat_of_ascii a, Ascii.nat_of_ascii b, Ascii.nat_of_ascii c) in
      sextet (a / 4) +:+ sextet (a mod 4 * 16 + b / 16) +:+ sextet (b mod 16 * 4 + c / 64) +:+ sextet (c mod 64) +:+ base64 s
  | String a (String b EmptyString) =>
      let '(a, b) := (Ascii.nat_of_ascii a, Ascii.nat_of_ascii b) in
      sextet (a / 4) +:+ sextet (a mod 4 * 16 + b / 16) +:+ sextet (b mod 16 * 4)
  | String a EmptyString => let a := Ascii.nat_of_ascii a in sextet (a / 4) +:+ sextet (a mod 4 * 16)
  | EmptyString => ""
  end.

#[local] Instance json_threads : ThreadEnv := {|
  hashThreadRequest := hashThreadRequest (ThreadEnv := sample_threads);
  thread_json_Valid := thread_json_Valid (ThreadEnv := sample_threads);
  filepath_EvalSymlinks := filepath_EvalSymlinks (ThreadEnv := sample_threads);
  time_RFC3339Nano := time_RFC3339Nano (ThreadEnv := sample_threads);
  encodeCursor c := base64 (cursor_json c);
  decodeCursor := sample_decode;
  strings_ToLower s := s;
|}.

Definition angles : string := String.concat "" (replicate 256 "<").
Definition angle_query : ThreadCatalogQuery := mkThreadCatalogQuery "project" angles ArchiveActive 1 "".
Definition angle_thread (name : string) (ids : list string) : ThreadOp * list string :=
  (OpCreateAtomic (sample_command name CommandThreadCreate) (sample_input angles) 0%Z, ids).
Definition angle_db : ThreadDB := sample_db
  [angle_thread "one" ["1"; "2"; "3"; "4"; "5"; "6"]; angle_thread "two" ["11"; "12"; "13"; "14"; "15"; "16"]].

(** The catalog accepts a search for 256 angle brackets and answers with a page whose
    cursor it then refuses, so that the second thread is never listed. *)
Example long_cursor_refused :
  match SearchThreadCatalog (env := json_threads) angle_query angle_db with
  | (db, Ok page) => length page.(ThreadCatalogPage_Threads) = 1 ∧
      String.length page.(ThreadCatalogPage_NextCursor) = 2220 ∧
      (SearchThreadCatalog (env := json_threads) (onward angle_query page.(ThreadCatalogPage_NextCursor)) db).2 =
        Err (Errorf "cursor exceeds %d bytes" [AInt maxThreadCatalogCursorBytes])
  | _ => False
  end.
Proof. vm_compute. split_and!; reflexivity. Qed.
