(* ===== verification/Concurrent.v ===== *)
(** Threads that share a state: processes interleaved at every call, each call served
    atomically on the shared state, with a log of everything that was called and
    answered. A rely-guarantee logic proves an invariant of every reachable world
    and a property of every step from one property of each kind of thread. *)
From S2P Require Import Prelude Process.

Section concurrent.
Context {call : Type} {answer : call → Type} {S : Type}.

(** The shared state and the log. *)
Definition world : Type := S * history answer.

(** What a thread has called, and what is left of it. *)
Record strand : Type := mkStrand { st_past : history answer; st_rest : proc answer unit }.
Definition killed (t : strand) : strand := mkStrand t.(st_past) (Done tt).

(** How the shared state answers a call, what else may happen to it, how it starts
    again after a crash of all threads, and what the threads run. A single thread
    may stop for ever after any call. *)
Record Setting : Type := mkSetting {
  starts : S → Prop;
  serves : S → event answer → S → Prop;
  happens : S → S → Prop;
  crashes : S → S → Prop;
  spawns : proc answer unit → Prop;
}.

Inductive running (setting : Setting) : world → list strand → Prop :=
  | running_start s : setting.(starts) s → running setting (s, []) []
  | running_spawn w ts p : running setting w ts → setting.(spawns) p → running setting w (ts ++ [mkStrand [] p])
  | running_step s h ts1 past c k ts2 r s' :
      running setting (s, h) (ts1 ++ mkStrand past (Invoke c k) :: ts2) → setting.(serves) s (existT c r) s' →
      running setting (s', h ++ [existT c r]) (ts1 ++ mkStrand (past ++ [existT c r]) (k r) :: ts2)
  | running_happens s h ts s' : running setting (s, h) ts → setting.(happens) s s' → running setting (s', h) ts
  | running_crash s h ts s' :
      running setting (s, h) ts → setting.(crashes) s s' → running setting (s', h) (killed <$> ts).

(** The log is what the threads have done. *)
Definition pasts (ts : list strand) : history answer := concat (st_past <$> ts).

Lemma pasts_app ts1 ts2 : pasts (ts1 ++ ts2) = pasts ts1 ++ pasts ts2.
Proof. unfold pasts. by rewrite fmap_app, concat_app. Qed.

Lemma running_log setting w ts : running setting w ts → w.2 ≡ₚ pasts ts.
Proof.
  induction 1 as [s Hs|w ts p _ IH Hp|s h ts1 past c k ts2 r s' _ IH Hs|s h ts s' _ IH Hs|s h ts s' _ IH Hs]; cbn in *.
  - done.
  - rewrite pasts_app. unfold pasts at 2. cbn. by rewrite app_nil_r.
  - rewrite IH, !pasts_app. unfold pasts at 2 4. cbn. rewrite <- !(assoc_L (++)). f_equiv. cbn. solve_Permutation.
  - done.
  - rewrite IH. unfold pasts. by rewrite <- list_fmap_compose.
Qed.

(** What every thread keeps of its own history. *)
Lemma running_pasts setting (P : history answer → Prop) ok w ts :
  P [] → (∀ h c r, P h → ok h c → P (h ++ [existT c r])) →
  (∀ p, setting.(spawns) p → ensures ok p [] (λ _ _, True)) →
  running setting w ts → Forall (λ t, P t.(st_past)) ts.
Proof.
  intros H0 Hstep Hp Hrun.
  enough (Forall (λ t, P t.(st_past) ∧ ensures ok t.(st_rest) t.(st_past) (λ _ _, True)) ts) as H
    by (eapply Forall_impl; [exact H|]; by intros t []).
  induction Hrun as [s Hs|w ts p _ IH Hsp|s h ts1 past c k ts2 r s' _ IH Hs|s h ts s' _ IH Hs|s h ts s' _ IH Hs].
  - constructor.
  - apply Forall_app. split; [done|]. constructor; [|constructor]. split; [done|]. by apply Hp.
  - apply Forall_app in IH as [H1 [[Hq [Hok Hk]] H2]%Forall_cons]. apply Forall_app. split; [done|].
    constructor; [|done]. split; [by apply Hstep|apply Hk].
  - done.
  - apply Forall_fmap. eapply Forall_impl; [exact IH|]. intros t [Hq _]. by split.
Qed.

(** What the shared state keeps, whoever calls. *)
Lemma running_state setting (I : world → Prop) w ts :
  (∀ s, setting.(starts) s → I (s, [])) →
  (∀ s h e s', I (s, h) → setting.(serves) s e s' → I (s', h ++ [e])) →
  (∀ s h s', I (s, h) → setting.(happens) s s' ∨ setting.(crashes) s s' → I (s', h)) →
  running setting w ts → I w.
Proof. intros H0 Hs Hh. induction 1; eauto. Qed.

(** What every call keeps, given what its thread has called before. *)
Lemma running_local setting (I : world → Prop) (ok : history answer → call → Prop) w ts :
  (∀ s, setting.(starts) s → I (s, [])) →
  (∀ s h past c r s', I (s, h) → past ⊆ h → ok past c → setting.(serves) s (existT c r) s' → I (s', h ++ [existT c r])) →
  (∀ s h s', I (s, h) → setting.(happens) s s' ∨ setting.(crashes) s s' → I (s', h)) →
  (∀ p, setting.(spawns) p → ensures ok p [] (λ _ _, True)) →
  running setting w ts → I w.
Proof.
  intros H0 Hstep Hother Hp Hrun.
  enough (I w ∧ Forall (λ t, t.(st_past) ⊆ w.2 ∧ ensures ok t.(st_rest) t.(st_past) (λ _ _, True)) ts) by tauto.
  induction Hrun as [s Hs|w ts p _ [Hi Hts] Hsp|s h ts1 past c k ts2 r s' _ [Hi Hts] Hs|s h ts s' _ [Hi Hts] Hs|s h ts s' _ [Hi Hts] Hs].
  - split; [by apply H0|constructor].
  - split; [done|]. apply Forall_app. split; [done|]. constructor; [|constructor]. split; [set_solver|by apply Hp].
  - apply Forall_app in Hts as [H1 [[Hsub [Hok Hk]] H2]%Forall_cons]. cbn in *. split; [by eapply Hstep|].
    apply Forall_app. split; [|constructor; [split; [set_solver|apply Hk]|]].
    all: eapply Forall_impl; [eassumption|]; intros t [Ht ?]; split; [set_solver|done].
  - split; [by eauto|done].
  - split; [by eauto|]. apply Forall_fmap. eapply Forall_impl; [exact Hts|]. intros t [Ht _]. by split.
Qed.

(** * Rely-guarantee

    Every thread owns a token [x], [x0] at first and after a crash. [I] holds of every
    world with the tokens of its threads, [R] relates a world to the later ones before
    a crash, and [G] holds of every call in the world it is served in. A process that
    owns [x] in [w] keeps all three with the calls it makes and the tokens it changes
    to, whatever the others do in between, and ends in [Q]. *)
Section tokens.
Context {X : Type} (x0 : X).
Context (setting : Setting) (I : world → list X → Prop) (R : relation world) `{!PreOrder R}.
Context (G : world → event answer → Prop).

Fixpoint owns {A} (p : proc answer A) (w : world) (x : X) (Q : world → X → A → Prop) : Prop :=
  match p with
  | Done a => ∀ w' xs1 xs2, R w w' → I w' (xs1 ++ x :: xs2) → Q w' x a
  | Invoke c k => ∀ s h r s' xs1 xs2, R w (s, h) → I (s, h) (xs1 ++ x :: xs2) → setting.(serves) s (existT c r) s' →
      ∃ x', I (s', h ++ [existT c r]) (xs1 ++ x' :: xs2) ∧ R (s, h) (s', h ++ [existT c r]) ∧ G (s, h) (existT c r) ∧
        owns (k r) (s', h ++ [existT c r]) x' Q
  end.

Lemma owns_later {A} (p : proc answer A) w w' x Q : owns p w x Q → R w w' → owns p w' x Q.
Proof.
  destruct p as [a|c k]; cbn; intros H Hr; [intros w'' xs1 xs2 Hr'; apply H; by etrans|].
  intros s h r s' xs1 xs2 Hr'. apply H. by etrans.
Qed.

Lemma owns_mono {A} (p : proc answer A) w x (Q Q' : world → X → A → Prop) :
  owns p w x Q → (∀ w' x' a xs1 xs2, R w w' → I w' (xs1 ++ x' :: xs2) → Q w' x' a → Q' w' x' a) → owns p w x Q'.
Proof.
  revert w x. induction p as [a|c k IH]; intros w x; cbn; [intros H HQ w' xs1 xs2 Hr Hi; eapply HQ; eauto|].
  intros H HQ s h r s' xs1 xs2 Hr Hi Hs. destruct (H _ _ _ _ _ _ Hr Hi Hs) as (x' & Hi' & Hr' & Hg & Hk).
  exists x'. split_and!; [done..|]. eapply IH; [exact Hk|]. intros w' x'' a ys1 ys2 Hr'' Hi''. eapply HQ; [|exact Hi'']. by do 2 etrans.
Qed.

Lemma owns_bind {A B} (p : proc answer A) (f : A → proc answer B) w x Q :
  owns p w x (λ w' x' a, owns (f a) w' x' Q) → owns (proc_bind p f) w x Q.
Proof.
  revert w x. induction p as [a|c k IH]; intros w x H; cbn in *.
  - destruct (f a) as [b|c k]; cbn in *.
    + intros w' xs1 xs2 Hr Hi. eapply (H w'); [done..|reflexivity|exact Hi].
    + intros s h r s' xs1 xs2 Hr Hi Hs. by eapply (H (s, h)).
  - intros s h r s' xs1 xs2 Hr Hi Hs. destruct (H _ _ _ _ _ _ Hr Hi Hs) as (x' & Hi' & Hr' & Hg & Hk).
    exists x'. split_and!; [done..|]. by apply IH.
Qed.

(** When [I] and [R] survive every call that leaves the tokens as they are, and [G] holds
    of the kind of calls a process makes, nothing is left to prove. *)
Lemma owns_only {A} (P : call → Prop) (p : proc answer A) w x :
  (∀ s h e s' xs, P (projT1 e) → I (s, h) xs → setting.(serves) s e s' → I (s', h ++ [e]) xs ∧ R (s, h) (s', h ++ [e])) →
  (∀ w c r, P c → G w (existT c r)) → only P p → owns p w x (λ _ x' _, x' = x).
Proof.
  intros HIR HG Hp. specialize (Hp []). revert w Hp. generalize (@nil (event answer)) as h0.
  induction p as [a|c k IH]; intros h0 w; cbn; [done|]. intros [Hc Hk] s h r s' xs1 xs2 Hr Hi Hs.
  destruct (HIR _ _ (existT c r) _ _ Hc Hi Hs). exists x. split_and!; [done..|by apply HG|]. by eapply IH, Hk.
Qed.

Context (start_I : ∀ s, setting.(starts) s → I (s, []) []).
Context (spawn_I : ∀ w xs, I w xs → I w (xs ++ [x0])).
Context (happens_IR : ∀ s h s' xs, I (s, h) xs → setting.(happens) s s' → I (s', h) xs ∧ R (s, h) (s', h)).
Context (crashes_I : ∀ s h s' xs, I (s, h) xs → setting.(crashes) s s' → I (s', h) ((λ _, x0) <$> xs)).
Context (spawns_G : ∀ p w, setting.(spawns) p → owns p w x0 (λ _ _ _, True)).

(** What every thread keeps holds of every reachable world, *)
Lemma running_owns w ts :
  running setting w ts → ∃ xs, I w xs ∧ Forall2 (λ t x, owns t.(st_rest) w x (λ _ _ _, True)) ts xs.
Proof.
  induction 1 as [s Hs|w ts p _ (xs & Hi & Hps) Hp|s h ts1 past c k ts2 r s' _ (xs & Hi & Hps) Hs|s h ts s' _ (xs & Hi & Hps) Hs
    |s h ts s' _ (xs & Hi & Hps) Hs].
  - exists []. split; [by apply start_I|constructor].
  - exists (xs ++ [x0]). split; [by apply spawn_I|]. apply Forall2_app; [done|]. constructor; [by apply spawns_G|constructor].
  - apply Forall2_app_inv_l in Hps as (xs1 & xs' & H1 & Hp & ->). apply Forall2_cons_inv_l in Hp as (x & xs2 & Hp & H2 & ->).
    destruct (Hp s h r s' xs1 xs2) as (x' & Hi' & Hr & _ & Hg); [reflexivity|done..|].
    exists (xs1 ++ x' :: xs2). split; [done|]. apply Forall2_app; [|constructor; [exact Hg|]].
    all: eapply Forall2_impl; [eassumption|]; intros p y Hq; exact (owns_later _ _ _ _ _ Hq Hr).
  - destruct (happens_IR _ _ _ _ Hi Hs) as [Hi' Hr]. exists xs. split; [done|].
    eapply Forall2_impl; [exact Hps|]. intros p x Hp. exact (owns_later _ _ _ _ _ Hp Hr).
  - exists ((λ _, x0) <$> xs). split; [by eapply crashes_I|]. apply Forall2_fmap. eapply Forall2_impl; [exact Hps|]. by intros t x _ w'.
Qed.

(** and of every step. *)
Lemma running_owned_steps s h ts1 past c k ts2 r s' :
  running setting (s, h) (ts1 ++ mkStrand past (Invoke c k) :: ts2) → setting.(serves) s (existT c r) s' →
  G (s, h) (existT c r).
Proof.
  intros (xs & Hi & (xs1 & xs' & H1 & Hp & ->)%Forall2_app_inv_l)%running_owns Hs.
  apply Forall2_cons_inv_l in Hp as (x & xs2 & Hp & H2 & ->).
  by destruct (Hp s h r s' xs1 xs2) as (x' & _ & _ & Hg & _); [reflexivity|done..|].
Qed.
End tokens.

(** ** Without tokens *)
Section logic.
Context (setting : Setting) (I : world → Prop) (R : relation world) `{!PreOrder R}.
Context (G : world → event answer → Prop).

Definition guarantees {A} (p : proc answer A) (w : world) (Q : world → A → Prop) : Prop :=
  owns setting (λ w (_ : list unit), I w) R G p w tt (λ w _ a, Q w a).

Lemma guarantees_later {A} (p : proc answer A) w w' Q : guarantees p w Q → R w w' → guarantees p w' Q.
Proof. by apply owns_later. Qed.

Lemma guarantees_mono {A} (p : proc answer A) w (Q Q' : world → A → Prop) :
  guarantees p w Q → (∀ w' a, R w w' → I w' → Q w' a → Q' w' a) → guarantees p w Q'.
Proof. intros H HQ. eapply owns_mono; [done|exact H|]. intros w' x' a _ _. apply HQ. Qed.

Lemma guarantees_bind {A B} (p : proc answer A) (f : A → proc answer B) w Q :
  guarantees p w (λ w' a, guarantees (f a) w' Q) → guarantees (proc_bind p f) w Q.
Proof. intros H. apply owns_bind; [done|]. eapply owns_mono; [done|exact H|]. by intros w' [] a _ _ _ _. Qed.

Lemma guarantees_go_bind {A B} (m : go answer A) (f : A → go answer B) w :
  guarantees m w (λ w' r, match r with Ok a => guarantees (f a) w' (λ _ _, True) | _ => True end) →
  guarantees (m ≫= f) w (λ _ _, True).
Proof. intros H. apply guarantees_bind. eapply guarantees_mono; [exact H|]. by intros w' [a|e|] _ _ Hq. Qed.

Lemma guarantees_ret {A} (a : A) w (Q : world → Prelude.result A → Prop) :
  (∀ w', R w w' → I w' → Q w' (Ok a)) → guarantees (ret a) w Q.
Proof. intros H w' _ _. apply H. Qed.

(** A computation without calls. *)
Lemma guarantees_lift_bind {A B} (m : Prelude.result A) (f : A → go answer B) w :
  (∀ a, m = Ok a → guarantees (f a) w (λ _ _, True)) → guarantees (lift m ≫= f) w (λ _ _, True).
Proof. destruct m as [a|e|]; [intros H; by apply H|done..]. Qed.

Lemma guarantees_ask_bind {B} c (f : answer c → go answer B) w :
  (∀ s h r s', R w (s, h) → I (s, h) → setting.(serves) s (existT c r) s' →
     I (s', h ++ [existT c r]) ∧ R (s, h) (s', h ++ [existT c r]) ∧ G (s, h) (existT c r) ∧
     guarantees (f r) (s', h ++ [existT c r]) (λ _ _, True)) →
  guarantees (ask c ≫= f) w (λ _ _, True).
Proof. intros H s h r s' _ _ Hr Hi Hs. exists tt. by apply H. Qed.

Lemma guarantees_only {A} (P : call → Prop) (p : proc answer A) w :
  (∀ s h e s', I (s, h) → setting.(serves) s e s' → I (s', h ++ [e]) ∧ R (s, h) (s', h ++ [e])) →
  (∀ w c r, P c → G w (existT c r)) → only P p → guarantees p w (λ _ _, True).
Proof.
  intros HIR HG Hp. unfold guarantees. eapply owns_mono; [done|eapply owns_only; [|exact HG|exact Hp]|done].
  intros s h e s' _ _. apply HIR.
Qed.

Context (start_I : ∀ s, setting.(starts) s → I (s, [])).
Context (happens_IR : ∀ s h s', I (s, h) → setting.(happens) s s' → I (s', h) ∧ R (s, h) (s', h)).
Context (crashes_I : ∀ s h s', I (s, h) → setting.(crashes) s s' → I (s', h)).
Context (spawns_G : ∀ p w, setting.(spawns) p → guarantees p w (λ _ _, True)).

Lemma running_steps s h ts1 past c k ts2 r s' :
  running setting (s, h) (ts1 ++ mkStrand past (Invoke c k) :: ts2) → setting.(serves) s (existT c r) s' →
  G (s, h) (existT c r).
Proof.
  apply (running_owned_steps tt setting (λ w _, I w) R G); [by intros; apply start_I|done|..].
  - intros s0 h0 s1 _. apply happens_IR.
  - intros s0 h0 s1 _. apply crashes_I.
  - intros p w Hp. by apply spawns_G.
Qed.
End logic.

(** * Driving a thread

    [serve] chooses one answer for every call; [drive] lets one thread make at most
    [n] calls. *)
Section drive.
Context (setting : Setting) (serve : ∀ c, S → answer c * S).
Context (serve_serves : ∀ c s, setting.(serves) s (existT c (serve c s).1) (serve c s).2).

Fixpoint drive (n : nat) (w : world) (t : strand) : world * strand :=
  match n, t.(st_rest) with
  | Datatypes.S n, Invoke c k =>
      let '(r, s) := serve c w.1 in
      drive n (s, w.2 ++ [existT c r]) (mkStrand (t.(st_past) ++ [existT c r]) (k r))
  | _, _ => (w, t)
  end.

Lemma drive_running n w ts1 t ts2 :
  running setting w (ts1 ++ t :: ts2) → running setting (drive n w t).1 (ts1 ++ (drive n w t).2 :: ts2).
Proof.
  revert w t. induction n as [|n IH]; intros w t H; [by destruct t|]. cbn.
  destruct t as [past [a|c k]]; [done|]. cbn. destruct (serve c w.1) as [r s] eqn:E. apply IH.
  destruct w as [s0 h]. eapply running_step; [exact H|]. pose proof (serve_serves c s0) as Hs. cbn in E. by rewrite E in Hs.
Qed.

(** A new thread that makes at most [n] calls. *)
Definition drive_new (n : nat) (p : proc answer unit) (wts : world * list strand) : world * list strand :=
  let '(w, t) := drive n wts.1 (mkStrand [] p) in (w, wts.2 ++ [t]).

Lemma drive_new_running n p wts :
  running setting wts.1 wts.2 → setting.(spawns) p →
  running setting (drive_new n p wts).1 (drive_new n p wts).2.
Proof.
  intros H Hp. unfold drive_new. pose proof (running_spawn _ _ _ _ H Hp) as Hs.
  apply (drive_running n) in Hs. by destruct (drive n _ _).
Qed.
End drive.
End concurrent.

Arguments world {call} answer S.
Arguments strand {call} answer.
Arguments Setting {call} answer S.
