(* ===== verification/Auth.v ===== *)
(** The passkey authority (internal/agoauth): its data and sections, its methods as
    processes, and a daemon on concrete inputs. *)
From S2P Require Import Prelude Process Concurrent.

(** The recent-passkey authority of internal/agoauth: agoauth.go, whose methods are
    the sections they run under the mutex of the core and the checks in between, and
    the credential file of persistence.go. Bytes are strings. *)

(** * Data *)

Definition ErrInvalidConfiguration : error := ErrNew "agoauth: invalid configuration".
Definition ErrInvalidBinding : error := ErrNew "agoauth: invalid binding".
Definition ErrRandomUnavailable : error := ErrNew "agoauth: secure random unavailable".
Definition ErrChallengeInvalid : error := ErrNew "agoauth: challenge invalid or expired".
Definition ErrBindingMismatch : error := ErrNew "agoauth: binding mismatch".
Definition ErrClientDataInvalid : error := ErrNew "agoauth: client data invalid".
Definition ErrOriginInvalid : error := ErrNew "agoauth: origin invalid".
Definition ErrRPIDInvalid : error := ErrNew "agoauth: relying party ID invalid".
Definition ErrAuthenticatorDataInvalid : error := ErrNew "agoauth: authenticator data invalid".
Definition ErrCredentialInvalid : error := ErrNew "agoauth: credential invalid".
Definition ErrSignatureInvalid : error := ErrNew "agoauth: signature invalid".
Definition ErrSignCountReplay : error := ErrNew "agoauth: authenticator sign count did not increase".
Definition ErrCapacityExceeded : error := ErrNew "agoauth: authorization store capacity exceeded".
Definition ErrPersistenceUnavailable : error := ErrNew "agoauth: credential persistence unavailable".
Definition ErrPersistenceCorrupt : error := ErrNew "agoauth: credential persistence corrupt".

Record AuthBinding : Type := mkAuthBinding {
  AuthBinding_ThreadID : string; AuthBinding_ProjectID : string;
  AuthBinding_DeviceID : string; AuthBinding_ActorID : string;
}.
#[export] Instance AuthBinding_eq_dec : EqDecision AuthBinding.
Proof. solve_decision. Defined.

Definition AuthBinding_valid (binding : AuthBinding) : bool :=
  (binding.(AuthBinding_ThreadID) != "") && (binding.(AuthBinding_ProjectID) != "") &&
  (binding.(AuthBinding_DeviceID) != "") && (binding.(AuthBinding_ActorID) != "").

Record Credential : Type := mkCredential {
  Credential_ID : string; Credential_RPID : string; Credential_ActorID : string;
  Credential_DeviceID : string; Credential_PublicKey : string; Credential_SignCount : Z;
}.
#[export] Instance Credential_eta : Eta Credential := λ r, mkCredential (r.(Credential_ID)) (r.(Credential_RPID))
  (r.(Credential_ActorID)) (r.(Credential_DeviceID)) (r.(Credential_PublicKey)) (r.(Credential_SignCount)).

Record Challenge : Type := mkChallenge { Challenge_Value : string; Challenge_ExpiresAt : Time }.

Record Assertion : Type := mkAssertion {
  Assertion_CredentialID : string; Assertion_Binding : AuthBinding; Assertion_RPID : string;
  Assertion_ClientDataJSON : string; Assertion_AuthenticatorData : string; Assertion_Signature : string;
}.

Record Grant : Type := mkGrant {
  Grant_Token : string; Grant_ExpiresAt : Time; Grant_CredentialID : string; Grant_RPID : string;
  Grant_SignCount : Z;
}.

Record AuthMutation : Type := mkAuthMutation {
  AuthMutation_Binding : AuthBinding; AuthMutation_RequireRecentPasskey : bool; AuthMutation_GrantToken : string;
}.

Definition DecisionReason : Type := string.
Definition DecisionNotRequired : DecisionReason := "recent_passkey_not_required".
Definition DecisionRecentPasskeyValid : DecisionReason := "recent_passkey_valid".
Definition DecisionRecentPasskeyRequired : DecisionReason := "recent_passkey_required".
Definition DecisionRecentPasskeyExpired : DecisionReason := "recent_passkey_expired".
Definition DecisionBindingMismatch : DecisionReason := "binding_mismatch".

Record AuthDecision : Type := mkAuthDecision { AuthDecision_Allowed : bool; AuthDecision_Reason : DecisionReason }.

Record challengeRecord : Type := mkChallengeRecord {
  challengeRecord_binding : AuthBinding; challengeRecord_rpID : string; challengeRecord_expiresAt : Time;
}.
Record grantRecord : Type := mkGrantRecord { grantRecord_binding : AuthBinding; grantRecord_expiresAt : Time }.
Record credentialRecord : Type := mkCredentialRecord {
  credentialRecord_actorID : string; credentialRecord_deviceID : string; credentialRecord_publicKey : string;
  credentialRecord_signCount : Z; credentialRecord_version : Z;
}.
#[export] Instance credentialRecord_eta : Eta credentialRecord := λ r, mkCredentialRecord
  (r.(credentialRecord_actorID)) (r.(credentialRecord_deviceID)) (r.(credentialRecord_publicKey))
  (r.(credentialRecord_signCount)) (r.(credentialRecord_version)).

(** Relying party and identifier. *)
Definition credentialKey : Type := string * string.
Definition keyOf (credential : Credential) : credentialKey :=
  (credential.(Credential_RPID), credential.(Credential_ID)).

Record collectedClientData : Type := mkCollectedClientData {
  collectedClientData_Type : string; collectedClientData_Challenge : string;
  collectedClientData_Origin : string; collectedClientData_CrossOrigin : bool;
}.

(** The parts of a parsed [url.URL] that are inspected; [URL_User] says whether there
    is user information. *)
Record URL : Type := mkURL {
  URL_Scheme : string; URL_Host : string; URL_User : bool; URL_Path : string; URL_RawQuery : string;
  URL_Fragment : string; URL_Hostname : string;
}.

(** What the package takes from elsewhere: SHA-256, unpadded base64url, the JSON
    decoder (of exactly one value, [None] for anything else), [url.Parse],
    [strings.ToLower] and the verifier of signatures. *)
Class AuthEnv : Type := {
  auth_sha256 : string → string;
  base64_RawURL : string → string;
  json_clientData : string → option collectedClientData;
  url_Parse : string → option URL;
  auth_ToLower : string → string;
  Verifier_Verify : string → string → string → option error;
}.

Record AuthConfig : Type := mkAuthConfig {
  AuthConfig_RelyingParties : gmap string (list string);
  AuthConfig_ChallengeTTL : Duration; AuthConfig_GrantTTL : Duration; AuthConfig_ChallengeBytes : Z;
  AuthConfig_MaxChallenges : Z; AuthConfig_MaxGrants : Z; AuthConfig_RequireUserVerification : bool;
}.

(** The fields of a core that never change, and those its mutex protects. *)
Record Core : Type := mkCore {
  Core_rpOrigins : gmap string (gset string);
  Core_challengeTTL : Duration; Core_grantTTL : Duration; Core_challengeBytes : Z;
  Core_maxChallenges : Z; Core_maxGrants : Z; Core_requireUserVerification : bool; Core_persistent : bool;
}.
Record CoreState : Type := mkCoreState {
  nextCredentialVersion : Z;
  challenges : gmap string challengeRecord;
  grants : gmap string grantRecord;
  credentials : gmap credentialKey credentialRecord;
}.
#[export] Instance CoreState_eta : Eta CoreState := λ r, mkCoreState (r.(nextCredentialVersion)) (r.(challenges))
  (r.(grants)) (r.(credentials)).

(** * The credential file (persistence.go)

    What the file holds when it exists; a reader checks it. *)

Definition CredentialFile : Type := option (list Credential).

Definition checkStored (seen : gset credentialKey) (credential : Credential) : result (gset credentialKey) :=
  fail_if ((credential.(Credential_ID) == "") || (credential.(Credential_RPID) == "") ||
           (credential.(Credential_ActorID) == "") || (credential.(Credential_DeviceID) == "") ||
           (credential.(Credential_PublicKey) == "")) ErrPersistenceCorrupt ;;
  fail_if (bool_decide (keyOf credential ∈ seen)) ErrPersistenceCorrupt ;;
  Ok ({[ keyOf credential ]} ∪ seen).

Definition readLocked (file : CredentialFile) : result (list Credential) :=
  match file with
  | None => Ok []
  | Some stored => for_each checkStored ∅ stored ;; Ok stored
  end.

Fixpoint storeAmong (credential : Credential) (stored : list Credential) : result (list Credential) :=
  match stored with
  | [] => Ok [credential]
  | existing :: stored =>
      if bool_decide (keyOf existing = keyOf credential)
      then fail_if (credential.(Credential_SignCount) <? existing.(Credential_SignCount))%Z ErrSignCountReplay ;;
           Ok (credential :: stored)
      else stored ← storeAmong credential stored; Ok (existing :: stored)
  end.
Definition File_StoreCredential (credential : Credential) (file : CredentialFile) : result CredentialFile :=
  stored ← readLocked file; stored ← storeAmong credential stored; Ok (Some stored).

Fixpoint advanceAmong (expected : Credential) (next : Z) (stored : list Credential) : result (list Credential) :=
  match stored with
  | [] => Err ErrCredentialInvalid
  | credential :: stored =>
      if bool_decide (keyOf credential = keyOf expected)
      then
        fail_if ((credential.(Credential_ActorID) != expected.(Credential_ActorID)) ||
                 (credential.(Credential_DeviceID) != expected.(Credential_DeviceID)) ||
                 (credential.(Credential_PublicKey) != expected.(Credential_PublicKey))) ErrCredentialInvalid ;;
        fail_if (next <=? credential.(Credential_SignCount))%Z ErrSignCountReplay ;;
        Ok (credential <| Credential_SignCount := next |> :: stored)
      else stored ← advanceAmong expected next stored; Ok (credential :: stored)
  end.
Definition File_AdvanceSignCount (expected : Credential) (next : Z) (file : CredentialFile) : result CredentialFile :=
  fail_if ((next =? 0)%Z || (next <=? expected.(Credential_SignCount))%Z) ErrSignCountReplay ;;
  stored ← readLocked file; stored ← advanceAmong expected next stored; Ok (Some stored).

Definition File_LoadCredentials (file : CredentialFile) : result (list Credential) := readLocked file.

(** A write of the file may fail before the rename, and after it; what happened, and
    the error, are given by [failure]. *)
Definition persist (write : CredentialFile → result CredentialFile) (failure : option (error * bool))
    (file : CredentialFile) : CredentialFile * result unit :=
  match write file, failure with
  | Ok file', None => (file', Ok tt)
  | Ok file', Some (err, true) => (file', Err err)
  | Ok _, Some (err, false) => (file, Err err)
  | Err err, _ => (file, Err err)
  | Panic, _ => (file, Panic)
  end.

Section core.
Context {auth : AuthEnv} (core : Core).

(** * Configuration *)

Definition containsAnyOf (chars s : string) : bool :=
  existsb (λ c, existsb (Ascii.eqb c) (String.list_ascii_of_string chars)) (String.list_ascii_of_string s).

Definition validRPID (rpID : string) : bool :=
  (rpID != "") && (rpID == auth_ToLower rpID) && negb (containsAnyOf "/:@ " rpID) &&
  negb (strings_HasPrefix rpID ".") && negb (strings_HasSuffix rpID ".").

Definition validOrigin (origin : string) : bool :=
  match url_Parse origin with
  | Some parsed => (parsed.(URL_Scheme) == "https") && (parsed.(URL_Host) != "") && negb parsed.(URL_User) &&
      (parsed.(URL_Path) == "") && (parsed.(URL_RawQuery) == "") && (parsed.(URL_Fragment) == "")
  | None => false
  end.

Definition originMatchesRPID (origin rpID : string) : bool :=
  match url_Parse origin with
  | Some parsed =>
      let hostname := auth_ToLower parsed.(URL_Hostname) in
      (hostname == rpID) || strings_HasSuffix hostname ("." +:+ rpID)
  | None => false
  end.

Definition validRelyingParty (party : string * list string) : bool :=
  validRPID party.1 && negb (match party.2 with [] => true | _ => false end) &&
  forallb (λ origin, validOrigin origin && originMatchesRPID origin party.1) party.2.

(** The part of [New] that builds the core; every error is the same one, so the
    order in which the relying parties are visited does not matter. *)
Definition newCore (config : AuthConfig) (persistent : bool) : result Core :=
  fail_if ((config.(AuthConfig_ChallengeTTL) <=? 0)%Z || (config.(AuthConfig_GrantTTL) <=? 0)%Z ||
           (config.(AuthConfig_ChallengeBytes) <? 16)%Z || (config.(AuthConfig_MaxChallenges) <=? 0)%Z ||
           (config.(AuthConfig_MaxGrants) <=? 0)%Z || bool_decide (config.(AuthConfig_RelyingParties) = ∅))
    ErrInvalidConfiguration ;;
  fail_if (negb (forallb validRelyingParty (map_to_list config.(AuthConfig_RelyingParties)))) ErrInvalidConfiguration ;;
  Ok (mkCore (list_to_set <$> config.(AuthConfig_RelyingParties)) config.(AuthConfig_ChallengeTTL)
        config.(AuthConfig_GrantTTL) config.(AuthConfig_ChallengeBytes) config.(AuthConfig_MaxChallenges)
        config.(AuthConfig_MaxGrants) config.(AuthConfig_RequireUserVerification) persistent).

(** * Credentials *)

Definition validateCredentialLocked (credential : Credential) (s : CoreState) : result unit :=
  fail_if ((credential.(Credential_ID) == "") || (credential.(Credential_ActorID) == "") ||
           (credential.(Credential_DeviceID) == "") || (credential.(Credential_PublicKey) == "")) ErrCredentialInvalid ;;
  fail_if (negb (is_Some_b (core.(Core_rpOrigins) !! credential.(Credential_RPID)))) ErrRPIDInvalid ;;
  match s.(credentials) !! keyOf credential with
  | Some existing =>
      fail_if (credential.(Credential_SignCount) <? existing.(credentialRecord_signCount))%Z ErrSignCountReplay
  | None => Ok tt
  end.

(** It changes the state also when the version wraps to 0. *)
Definition installCredentialLocked (credential : Credential) (allowReplace : bool) (s : CoreState)
    : CoreState * result unit :=
  match validateCredentialLocked credential s with
  | Ok _ =>
      if is_Some_b (s.(credentials) !! keyOf credential) && negb allowReplace then (s, Err ErrPersistenceCorrupt) else
      let s := s <| nextCredentialVersion := u64 (s.(nextCredentialVersion) + 1) |> in
      if (s.(nextCredentialVersion) =? 0)%Z then (s, Err ErrCredentialInvalid) else
      (s <| credentials := <[keyOf credential := mkCredentialRecord credential.(Credential_ActorID)
             credential.(Credential_DeviceID) credential.(Credential_PublicKey) credential.(Credential_SignCount)
             s.(nextCredentialVersion)]> s.(credentials) |>, Ok tt)
  | Err err => (s, Err err)
  | Panic => (s, Panic)
  end.

Definition storeCredentialLocked (credential : Credential) (failure : option (error * bool))
    (s : CoreState) (file : CredentialFile) : CoreState * CredentialFile * result unit :=
  match validateCredentialLocked credential s with
  | Ok _ =>
      if (s.(nextCredentialVersion) =? two64 - 1)%Z then (s, file, Err ErrCredentialInvalid) else
      if core.(Core_persistent) then
        match persist (File_StoreCredential credential) failure file with
        | (file, Ok _) => let '(s, r) := installCredentialLocked credential true s in (s, file, r)
        | (file, Err err) => (s, file, Err (Errorf "%w: %w" [AWrap ErrPersistenceUnavailable; AWrap err]))
        | (file, Panic) => (s, file, Panic)
        end
      else let '(s, r) := installCredentialLocked credential true s in (s, file, r)
  | Err err => (s, file, Err err)
  | Panic => (s, file, Panic)
  end.

(** The loop of [New] over the credentials the file holds. *)
Definition loadAll (loaded : list Credential) : result CoreState :=
  for_each (λ s credential,
    match installCredentialLocked credential false s with
    | (s, Ok _) => Ok s
    | (_, Err err) => Err (Errorf "load credential: %w" [AWrap err])
    | (_, Panic) => Panic
    end) (mkCoreState 0 ∅ ∅ ∅) loaded.
Definition loadState (file : CredentialFile) : result CoreState :=
  if core.(Core_persistent) then loaded ← File_LoadCredentials file; loadAll loaded
  else Ok (mkCoreState 0 ∅ ∅ ∅).

(** * The sections under the mutex *)

Definition pruneChallengesLocked (now : Time) (s : CoreState) : CoreState :=
  s <| challenges := filter (λ kv, Time_Before now kv.2.(challengeRecord_expiresAt) = true) s.(challenges) |>.
Definition pruneGrantsLocked (now : Time) (s : CoreState) : CoreState :=
  s <| grants := filter (λ kv, Time_Before now kv.2.(grantRecord_expiresAt) = true) s.(grants) |>.

Definition issueSection (now : Time) (value : string) (record : challengeRecord) (s : CoreState)
    : CoreState * result unit :=
  let s := pruneChallengesLocked now s in
  if (core.(Core_maxChallenges) <=? Z.of_nat (size s.(challenges)))%Z then (s, Err ErrCapacityExceeded) else
  if is_Some_b (s.(challenges) !! value)
  then (s, Err (Errorf "%w: challenge collision" [AWrap ErrRandomUnavailable])) else
  (s <| challenges := <[value := record]> s.(challenges) |>, Ok tt).

Definition takeSection (value : string) (s : CoreState) : CoreState * option challengeRecord :=
  (s <| challenges := delete value s.(challenges) |>, s.(challenges) !! value).

Definition boundTo (binding : AuthBinding) (credential : option credentialRecord) : bool :=
  match credential with
  | Some credential => (credential.(credentialRecord_actorID) == binding.(AuthBinding_ActorID)) &&
      (credential.(credentialRecord_deviceID) == binding.(AuthBinding_DeviceID))
  | None => false
  end.

(** What the last section of [VerifyAssertion] is given. *)
Record Verified : Type := mkVerified {
  Verified_assertion : Assertion; Verified_now : Time; Verified_signCount : Z; Verified_version : Z;
  Verified_token : string;
}.
Definition Verified_key (v : Verified) : credentialKey :=
  (v.(Verified_assertion).(Assertion_RPID), v.(Verified_assertion).(Assertion_CredentialID)).

(** The section that issues a grant; [failure] is the failure of the file, if any. *)
Definition grantSection (v : Verified) (failure : option (error * bool)) (s : CoreState) (file : CredentialFile)
    : CoreState * CredentialFile * result Grant :=
  let assertion := v.(Verified_assertion) in
  let now := v.(Verified_now) in
  match s.(credentials) !! Verified_key v with
  | None => (s, file, Err ErrCredentialInvalid)
  | Some credential =>
      if negb (boundTo assertion.(Assertion_Binding) (Some credential)) ||
         negb (credential.(credentialRecord_version) =? v.(Verified_version))%Z
      then (s, file, Err ErrCredentialInvalid) else
      if (v.(Verified_signCount) =? 0)%Z || (v.(Verified_signCount) <=? credential.(credentialRecord_signCount))%Z
      then (s, file, Err ErrSignCountReplay) else
      let s := pruneGrantsLocked now s in
      if (core.(Core_maxGrants) <=? Z.of_nat (size s.(grants)))%Z then (s, file, Err ErrCapacityExceeded) else
      if is_Some_b (s.(grants) !! v.(Verified_token))
      then (s, file, Err (Errorf "%w: grant collision" [AWrap ErrRandomUnavailable])) else
      let expected := mkCredential assertion.(Assertion_CredentialID) assertion.(Assertion_RPID)
        credential.(credentialRecord_actorID) credential.(credentialRecord_deviceID)
        credential.(credentialRecord_publicKey) credential.(credentialRecord_signCount) in
      let grant := mkGrant v.(Verified_token) (Time_Add now core.(Core_grantTTL)) assertion.(Assertion_CredentialID)
        assertion.(Assertion_RPID) v.(Verified_signCount) in
      let granted := s
        <| credentials := <[Verified_key v := credential <| credentialRecord_signCount := v.(Verified_signCount) |>]>
             s.(credentials) |>
        <| grants := <[v.(Verified_token) := mkGrantRecord assertion.(Assertion_Binding) grant.(Grant_ExpiresAt)]>
             s.(grants) |> in
      if core.(Core_persistent) then
        match persist (File_AdvanceSignCount expected v.(Verified_signCount)) failure file with
        | (file, Ok _) => (granted, file, Ok grant)
        | (file, Err err) =>
            (s, file, Err (if errors_Is err "agoauth: authenticator sign count did not increase" then err
                           else Errorf "%w: %w" [AWrap ErrPersistenceUnavailable; AWrap err]))
        | (file, Panic) => (s, file, Panic)
        end
      else (granted, file, Ok grant)
  end.

Definition authorizeSection (now : Time) (token : string) (s : CoreState) : CoreState * option grantRecord :=
  match s.(grants) !! token with
  | Some grant =>
      (if Time_Before now grant.(grantRecord_expiresAt) then s else s <| grants := delete token s.(grants) |>, Some grant)
  | None => (s, None)
  end.

(** * The checks between the sections *)

Definition byteAt (i : nat) (data : string) : Z :=
  match String.get i data with Some c => Z.of_nat (Ascii.nat_of_ascii c) | None => 0%Z end.

Definition bigEndianUint32 (i : nat) (data : string) : Z :=
  Z.lor (byteAt (i + 3) data) (Z.lor (Z.shiftl (byteAt (i + 2) data) 8)
    (Z.lor (Z.shiftl (byteAt (i + 1) data) 16) (Z.shiftl (byteAt i data) 24))).

Definition userPresent : Z := 1%Z.
Definition userVerified : Z := 4%Z.

Definition validateAuthenticatorData (rpID data : string) : result Z :=
  fail_if (Z.of_nat (String.length data) <? 37)%Z ErrAuthenticatorDataInvalid ;;
  fail_if (String.substring 0 32 data != auth_sha256 rpID) ErrRPIDInvalid ;;
  fail_if ((Z.land (byteAt 32 data) userPresent =? 0)%Z ||
           core.(Core_requireUserVerification) && (Z.land (byteAt 32 data) userVerified =? 0)%Z)
    ErrAuthenticatorDataInvalid ;;
  Ok (bigEndianUint32 33 data).

Definition parseClientData (data : string) : result collectedClientData :=
  match json_clientData data with
  | Some parsed =>
      fail_if ((parsed.(collectedClientData_Challenge) == "") || (parsed.(collectedClientData_Origin) == ""))
        ErrClientDataInvalid ;; Ok parsed
  | None => Err ErrClientDataInvalid
  end.

(** From the challenge that was taken to the reading of the credential: the sign
    count the authenticator reports. *)
Definition checkAssertion (assertion : Assertion) (clientData : collectedClientData) (now : Time)
    (challenge : option challengeRecord) : result Z :=
  challenge ← non_nil challenge ErrChallengeInvalid;
  fail_if (negb (Time_Before now challenge.(challengeRecord_expiresAt))) ErrChallengeInvalid ;;
  fail_if (negb (AuthBinding_valid assertion.(Assertion_Binding)) ||
           negb (bool_decide (assertion.(Assertion_Binding) = challenge.(challengeRecord_binding)))) ErrBindingMismatch ;;
  fail_if (assertion.(Assertion_RPID) != challenge.(challengeRecord_rpID)) ErrRPIDInvalid ;;
  allowedOrigins ← non_nil (core.(Core_rpOrigins) !! assertion.(Assertion_RPID)) ErrRPIDInvalid;
  fail_if ((clientData.(collectedClientData_Type) != "webauthn.get") ||
           (clientData.(collectedClientData_Challenge) == "")) ErrClientDataInvalid ;;
  fail_if clientData.(collectedClientData_CrossOrigin) ErrOriginInvalid ;;
  fail_if (negb (bool_decide (clientData.(collectedClientData_Origin) ∈ allowedOrigins))) ErrOriginInvalid ;;
  signCount ← validateAuthenticatorData assertion.(Assertion_RPID) assertion.(Assertion_AuthenticatorData);
  fail_if ((assertion.(Assertion_CredentialID) == "") || (assertion.(Assertion_Signature) == "")) ErrCredentialInvalid ;;
  Ok signCount.

Definition signedData (assertion : Assertion) : string :=
  assertion.(Assertion_AuthenticatorData) +:+ auth_sha256 assertion.(Assertion_ClientDataJSON).

(** The credential that was read is the one that signed. *)
Definition checkSignature (assertion : Assertion) (credential : option credentialRecord) : result credentialRecord :=
  fail_if (negb (boundTo assertion.(Assertion_Binding) credential)) ErrCredentialInvalid ;;
  credential ← non_nil credential ErrCredentialInvalid;
  match Verifier_Verify credential.(credentialRecord_publicKey) (signedData assertion) assertion.(Assertion_Signature) with
  | Some verifyErr => Err (Errorf "%w: %v" [AWrap ErrSignatureInvalid; AVal verifyErr])
  | None => Ok credential
  end.

Definition decideGrant (request : AuthMutation) (now : Time) (grant : option grantRecord) : AuthDecision :=
  match grant with
  | None => mkAuthDecision false DecisionRecentPasskeyRequired
  | Some grant =>
      if negb (Time_Before now grant.(grantRecord_expiresAt)) then mkAuthDecision false DecisionRecentPasskeyExpired else
      if negb (bool_decide (grant.(grantRecord_binding) = request.(AuthMutation_Binding)))
      then mkAuthDecision false DecisionBindingMismatch
      else mkAuthDecision true DecisionRecentPasskeyValid
  end.

End core.

(** The methods of the passkey core (internal/agoauth/agoauth.go) as processes over
    the sections they run under its mutex, and the transport of its grants through
    the bridge (internal/agodaemon/bridge.go). One daemon runs any number of them. *)

(** * The transport's grants *)

Record bridgeGrantRecord : Type := mkBridgeGrantRecord {
  bridgeGrantRecord_binding : AuthBinding; bridgeGrantRecord_expiresAt : Time;
}.

Definition maxBridgeGrantRecords : Z := 1024%Z.

(** The loop of [register] over the grants in the order of the map's iteration. *)
Definition oldestGrant (order : list (string * bridgeGrantRecord)) : string :=
  (foldl (λ '(oldestToken, oldestExpiry) '(token, record),
    if (oldestToken == "") || Time_Before record.(bridgeGrantRecord_expiresAt) oldestExpiry
    then (token, record.(bridgeGrantRecord_expiresAt)) else (oldestToken, oldestExpiry)) ("", Time_zero) order).1.

Definition registerSection (grant : Grant) (binding : AuthBinding) (order : list (string * bridgeGrantRecord))
    (kept : gmap string bridgeGrantRecord) : gmap string bridgeGrantRecord :=
  let kept := if (maxBridgeGrantRecords <=? Z.of_nat (size kept))%Z then delete (oldestGrant order) kept else kept in
  <[grant.(Grant_Token) := mkBridgeGrantRecord binding grant.(Grant_ExpiresAt)]> kept.

(** * Calls *)

Inductive auth_call : Type :=
  | AuthNow
  | AuthRandom (count : Z)
  | SectionRegister (credential : Credential)
  | SectionIssue (now : Time) (value : string) (record : challengeRecord)
  | SectionTake (value : string)
  | SectionCredential (key : credentialKey)
  | SectionGrant (v : Verified)
  | SectionAuthorize (now : Time) (request : AuthMutation)
  | TransportRegister (grant : Grant) (binding : AuthBinding)
  | TransportTake (token : string).

Definition auth_answer (c : auth_call) : Type :=
  match c with
  | AuthNow => Time
  | AuthRandom _ => result string
  | SectionRegister _ => result unit
  | SectionIssue _ _ _ => result unit
  | SectionTake _ => option challengeRecord
  | SectionCredential _ => option credentialRecord
  | SectionGrant _ => result Grant
  | SectionAuthorize _ _ => option grantRecord
  | TransportRegister _ _ => unit
  | TransportTake _ => option bridgeGrantRecord
  end.

(** * Methods *)

Section methods.
Context {auth : AuthEnv} (core : Core).

Definition Core_RegisterCredential (credential : Credential) : go auth_answer unit :=
  r ← ask (SectionRegister credential); lift r.

Definition randomToken (prefix : string) : go auth_answer string :=
  r ← ask (AuthRandom core.(Core_challengeBytes));
  match r with
  | Ok buffer => ret (prefix +:+ base64_RawURL buffer)
  | Err err => throw (Errorf "%w: %v" [AWrap ErrRandomUnavailable; AVal err])
  | Panic => lift Panic
  end.

Definition IssueChallenge (binding : AuthBinding) (rpID : string) : go auth_answer Challenge :=
  lift (fail_if (negb (AuthBinding_valid binding)) ErrInvalidBinding) ≫= λ _,
  lift (fail_if (negb (is_Some_b (core.(Core_rpOrigins) !! rpID))) ErrRPIDInvalid) ≫= λ _,
  value ← randomToken "";
  now ← ask AuthNow;
  let expiresAt := Time_Add now core.(Core_challengeTTL) in
  r ← ask (SectionIssue now value (mkChallengeRecord binding rpID expiresAt));
  lift r ≫= λ _,
  ret (mkChallenge value expiresAt).

Definition VerifyAssertion (assertion : Assertion) : go auth_answer Grant :=
  clientData ← lift (parseClientData assertion.(Assertion_ClientDataJSON));
  now ← ask AuthNow;
  challenge ← ask (SectionTake clientData.(collectedClientData_Challenge));
  signCount ← lift (checkAssertion core assertion clientData now challenge);
  credential ← ask (SectionCredential (assertion.(Assertion_RPID), assertion.(Assertion_CredentialID)));
  credential ← lift (checkSignature assertion credential);
  grantToken ← randomToken "g.";
  r ← ask (SectionGrant (mkVerified assertion now signCount credential.(credentialRecord_version) grantToken));
  lift r.

Definition Core_AuthorizeMutation (request : AuthMutation) : go auth_answer AuthDecision :=
  if negb request.(AuthMutation_RequireRecentPasskey) then ret (mkAuthDecision true DecisionNotRequired) else
  if negb (AuthBinding_valid request.(AuthMutation_Binding)) || (request.(AuthMutation_GrantToken) == "")
  then ret (mkAuthDecision false DecisionRecentPasskeyRequired) else
  now ← ask AuthNow;
  grant ← ask (SectionAuthorize now request);
  ret (decideGrant request now grant).

Definition denied (decision : AuthDecision) : error :=
  Errorf "recent passkey denied: %s" [AStr decision.(AuthDecision_Reason)].

(** [bridgeAuthTransport.register] and [authorize]. *)
Definition transport_register (grant : Grant) (binding : AuthBinding) : go auth_answer unit :=
  ask (TransportRegister grant binding).

Definition transport_authorize (token : string) (binding : AuthBinding) : go auth_answer unit :=
  registered ← ask (TransportTake token);
  lift (fail_if (negb (match registered with
                       | Some registered => bool_decide (registered.(bridgeGrantRecord_binding) = binding)
                       | None => false end))
    (Errorf "recent passkey grant is unavailable or has already been used" [])) ≫= λ _,
  decision ← Core_AuthorizeMutation (mkAuthMutation binding true token);
  lift (fail_if (negb decision.(AuthDecision_Allowed)) (denied decision)).

(** The assertion of the bridge: verify, then hand the grant to the transport. *)
Definition assertAndRegister (assertion : Assertion) : go auth_answer Grant :=
  grant ← VerifyAssertion assertion;
  transport_register grant assertion.(Assertion_Binding) ≫= λ _,
  ret grant.

End methods.

(** * The daemon that serves the calls *)

Record AuthWorld : Type := mkAuthWorld {
  aw_core : CoreState; aw_transport : gmap string bridgeGrantRecord; aw_file : CredentialFile;
}.

Section daemon.
Context {auth : AuthEnv} (core : Core).

Inductive auth_serves (s : AuthWorld) : event auth_answer → AuthWorld → Prop :=
  | serves_now now : auth_serves s (existT AuthNow now) s
  | serves_random count r : auth_serves s (existT (AuthRandom count) r) s
  | serves_register credential failure c f r :
      storeCredentialLocked core credential failure s.(aw_core) s.(aw_file) = (c, f, r) →
      auth_serves s (existT (SectionRegister credential) r) (mkAuthWorld c s.(aw_transport) f)
  | serves_issue now value record c r :
      issueSection core now value record s.(aw_core) = (c, r) →
      auth_serves s (existT (SectionIssue now value record) r) (mkAuthWorld c s.(aw_transport) s.(aw_file))
  | serves_take value c r :
      takeSection value s.(aw_core) = (c, r) →
      auth_serves s (existT (SectionTake value) r) (mkAuthWorld c s.(aw_transport) s.(aw_file))
  | serves_credential key :
      auth_serves s (existT (SectionCredential key) (s.(aw_core).(credentials) !! key)) s
  | serves_grant v failure c f r :
      grantSection core v failure s.(aw_core) s.(aw_file) = (c, f, r) →
      auth_serves s (existT (SectionGrant v) r) (mkAuthWorld c s.(aw_transport) f)
  | serves_authorize now request c r :
      authorizeSection now request.(AuthMutation_GrantToken) s.(aw_core) = (c, r) →
      auth_serves s (existT (SectionAuthorize now request) r) (mkAuthWorld c s.(aw_transport) s.(aw_file))
  | serves_transport_register grant binding order :
      order ≡ₚ map_to_list s.(aw_transport) →
      auth_serves s (existT (TransportRegister grant binding) tt)
        (mkAuthWorld s.(aw_core) (registerSection grant binding order s.(aw_transport)) s.(aw_file))
  | serves_transport_take token :
      auth_serves s (existT (TransportTake token) (s.(aw_transport) !! token))
        (mkAuthWorld s.(aw_core) (delete token s.(aw_transport)) s.(aw_file)).

(** Other daemons use the same credential file. *)
Inductive auth_happens (s : AuthWorld) : AuthWorld → Prop :=
  | happens_store credential f :
      File_StoreCredential credential s.(aw_file) = Ok f → auth_happens s (mkAuthWorld s.(aw_core) s.(aw_transport) f)
  | happens_advance expected next f :
      File_AdvanceSignCount expected next s.(aw_file) = Ok f →
      auth_happens s (mkAuthWorld s.(aw_core) s.(aw_transport) f).

(** After a crash the daemon starts from the file. *)
Inductive auth_crashes (s : AuthWorld) : AuthWorld → Prop :=
  | crashes_load c : loadState core s.(aw_file) = Ok c → auth_crashes s (mkAuthWorld c ∅ s.(aw_file)).

Inductive auth_starts : AuthWorld → Prop :=
  | starts_load c file : loadState core file = Ok c → auth_starts (mkAuthWorld c ∅ file).

(** What the daemon runs, for any arguments. *)
Inductive auth_spawns : proc auth_answer unit → Prop :=
  | spawn_credential credential : auth_spawns (proc_bind (Core_RegisterCredential credential) (λ _, Done tt))
  | spawn_issue binding rpID : auth_spawns (proc_bind (IssueChallenge core binding rpID) (λ _, Done tt))
  | spawn_assert assertion : auth_spawns (proc_bind (assertAndRegister core assertion) (λ _, Done tt))
  | spawn_authorize token binding : auth_spawns (proc_bind (transport_authorize token binding) (λ _, Done tt)).

Definition auth_setting : Setting auth_answer AuthWorld :=
  mkSetting auth_starts auth_serves auth_happens auth_crashes auth_spawns.

End daemon.

(** A daemon on concrete inputs: one relying party, one credential, a challenge, an
    assertion that answers it and a mutation it authorises. *)

Definition zeros : string := "00000000000000000000000000000000".
(** The authenticator data: the hash of the relying party, the flags, the count 7. *)
Definition sampleData : string :=
  zeros +:+ String (Ascii.ascii_of_nat 5) (String Ascii.zero (String Ascii.zero (String Ascii.zero
    (String (Ascii.ascii_of_nat 7) "")))).

(** A signature is the public key itself. *)
#[local] Instance sample_auth : AuthEnv := {|
  auth_sha256 := λ _, zeros;
  base64_RawURL := λ s, s;
  json_clientData := λ s, if s == "client" then Some (mkCollectedClientData "webauthn.get" "nonce" "https://ago.dev" false) else None;
  url_Parse := λ s, Some (mkURL "https" "ago.dev" false "" "" "" "ago.dev");
  auth_ToLower := λ s, s;
  Verifier_Verify := λ key _ signature, if key == signature then None else Some (ErrNew "bad signature");
|}.

Definition sampleConfig : AuthConfig := mkAuthConfig {[ "ago.dev" := ["https://ago.dev"] ]} 60%Z 600%Z 32%Z 2%Z 2%Z true.
Definition sampleCore : Core := mkCore {[ "ago.dev" := {[ "https://ago.dev" ]} ]} 60%Z 600%Z 32%Z 2%Z 2%Z true true.

Example sampleCore_built : newCore sampleConfig true = Ok sampleCore.
Proof. vm_compute. reflexivity. Qed.

Definition sampleBinding : AuthBinding := mkAuthBinding "T1" "P1" "D1" "alice".
Definition sampleCredential : Credential := mkCredential "cred" "ago.dev" "alice" "D1" "key" 3%Z.
Definition sampleAssertion : Assertion := mkAssertion "cred" sampleBinding "ago.dev" "client" sampleData "key".

Section serve.
Context {auth : AuthEnv} (core : Core) (now : Time) (random : string).

(** Every call succeeds, the clock stands still and the entropy repeats. *)
Definition serve_auth (c : auth_call) (s : AuthWorld) : auth_answer c * AuthWorld :=
  match c with
  | AuthNow => (now, s)
  | AuthRandom _ => (Ok random, s)
  | SectionRegister credential =>
      let '(c, f, r) := storeCredentialLocked core credential None s.(aw_core) s.(aw_file) in
      (r, mkAuthWorld c s.(aw_transport) f)
  | SectionIssue now value record =>
      let '(c, r) := issueSection core now value record s.(aw_core) in
      (r, mkAuthWorld c s.(aw_transport) s.(aw_file))
  | SectionTake value =>
      let '(c, r) := takeSection value s.(aw_core) in (r, mkAuthWorld c s.(aw_transport) s.(aw_file))
  | SectionCredential key => (s.(aw_core).(credentials) !! key, s)
  | SectionGrant v =>
      let '(c, f, r) := grantSection core v None s.(aw_core) s.(aw_file) in (r, mkAuthWorld c s.(aw_transport) f)
  | SectionAuthorize now request =>
      let '(c, r) := authorizeSection now request.(AuthMutation_GrantToken) s.(aw_core) in
      (r, mkAuthWorld c s.(aw_transport) s.(aw_file))
  | TransportRegister grant binding =>
      (tt, mkAuthWorld s.(aw_core) (registerSection grant binding (map_to_list s.(aw_transport)) s.(aw_transport))
             s.(aw_file))
  | TransportTake token => (s.(aw_transport) !! token, mkAuthWorld s.(aw_core) (delete token s.(aw_transport)) s.(aw_file))
  end.

Lemma serve_auth_serves c s :
  (auth_setting core).(serves) s (existT c (serve_auth c s).1) (serve_auth c s).2.
Proof.
  destruct c; cbn [serve_auth auth_setting serves].
  all: repeat match goal with |- context [let '(_, _) := ?x in _] => destruct x eqn:? end.
  all: cbn [fst snd]; try by econstructor.
Qed.
End serve.

(** The daemon before its first grant, with the thread that is about to issue it; and
    after a mutation has used it. *)
Definition sampleStart : world auth_answer AuthWorld * list (strand auth_answer) :=
  ((mkAuthWorld (mkCoreState 0 ∅ ∅ ∅) ∅ None, []), []).
Definition sampleServe := serve_auth sampleCore 1000%Z "nonce".
Definition sampleIssued : world auth_answer AuthWorld * list (strand auth_answer) :=
  drive_new sampleServe 9 (proc_bind (IssueChallenge sampleCore sampleBinding "ago.dev") (λ _, Done tt))
    (drive_new sampleServe 9 (proc_bind (Core_RegisterCredential sampleCredential) (λ _, Done tt)) sampleStart).
Definition sampleAsserting : proc auth_answer unit :=
  proc_bind (assertAndRegister sampleCore sampleAssertion) (λ _, Done tt).
Definition sampleVerified : world auth_answer AuthWorld * list (strand auth_answer) :=
  drive_new sampleServe 4 sampleAsserting sampleIssued.
Definition sampleAuthorized : world auth_answer AuthWorld * list (strand auth_answer) :=
  drive_new sampleServe 9 (proc_bind (transport_authorize "g.nonce" sampleBinding) (λ _, Done tt))
    (drive_new sampleServe 9 sampleAsserting sampleIssued).

Lemma sampleStart_running : running (auth_setting sampleCore) sampleStart.1 sampleStart.2.
Proof. apply running_start. by econstructor. Qed.

Lemma sampleIssued_running : running (auth_setting sampleCore) sampleIssued.1 sampleIssued.2.
Proof.
  apply drive_new_running; [apply serve_auth_serves| |constructor].
  apply drive_new_running; [apply serve_auth_serves|apply sampleStart_running|constructor].
Qed.
Lemma sampleVerified_running : running (auth_setting sampleCore) sampleVerified.1 sampleVerified.2.
Proof. apply drive_new_running; [apply serve_auth_serves|apply sampleIssued_running|constructor]. Qed.
Lemma sampleAuthorized_running : running (auth_setting sampleCore) sampleAuthorized.1 sampleAuthorized.2.
Proof.
  apply drive_new_running; [apply serve_auth_serves| |constructor].
  apply drive_new_running; [apply serve_auth_serves|apply sampleIssued_running|constructor].
Qed.
