(* ===== verification/AuthSafety.v ===== *)
(** What a passkey grant is worth: authorizations are earned, grants are counted, and the
    stores of the daemon keep their bounds. *)
From stdpp Require Import sorting.
From S2P Require Import Prelude Process Concurrent Auth.

(** What a passkey grant is worth: it is issued for a verified assertion that answers
    a challenge of its own, a mutation is authorised by a grant of its own, sign counts
    only grow, also across crashes, and the stores are bounded. *)

(** * What the sections do to the credentials *)

(** The credentials later on: those of a known version keep what they verify with. *)
Definition credentials_later (s s' : CoreState) : Prop :=
  (s.(nextCredentialVersion) ≤ s'.(nextCredentialVersion))%Z ∧
  ∀ key c', s'.(credentials) !! key = Some c' →
    (c'.(credentialRecord_version) ≤ s.(nextCredentialVersion))%Z →
    ∃ c, s.(credentials) !! key = Some c ∧
      c.(credentialRecord_version) = c'.(credentialRecord_version) ∧
      c.(credentialRecord_actorID) = c'.(credentialRecord_actorID) ∧
      c.(credentialRecord_deviceID) = c'.(credentialRecord_deviceID) ∧
      c.(credentialRecord_publicKey) = c'.(credentialRecord_publicKey).

Definition versions_known (s : CoreState) : Prop :=
  (0 ≤ s.(nextCredentialVersion) < two64)%Z ∧
  ∀ key c, s.(credentials) !! key = Some c → (c.(credentialRecord_version) ≤ s.(nextCredentialVersion))%Z.

#[export] Instance credentials_later_preorder : PreOrder credentials_later.
Proof.
  split; [by intros s; split; [done|]; intros key c Hc _; exists c|].
  intros s1 s2 s3 [H12 C12] [H23 C23]. split; [lia|]. intros key c3 Hc3 Hv.
  destruct (C23 _ _ Hc3) as (c2 & Hc2 & E & ? & ? & ?); [lia|].
  destruct (C12 _ _ Hc2) as (c1 & Hc1 & ? & ? & ? & ?); [lia|].
  exists c1. split_and!; [done|congruence..].
Qed.

(** Sections that leave the credentials alone. *)
Lemma credentials_kept s s' :
  s'.(credentials) = s.(credentials) → s'.(nextCredentialVersion) = s.(nextCredentialVersion) →
  versions_known s → versions_known s' ∧ credentials_later s s'.
Proof.
  intros Ec En [Hn Hv]. unfold versions_known, credentials_later. rewrite Ec, En.
  split; [done|]. split; [done|]. intros key c Hc _. by exists c.
Qed.

Lemma validateCredential_cases core credential s :
  validateCredentialLocked core credential s = Ok tt ∨ ∃ e, validateCredentialLocked core credential s = Err e.
Proof.
  unfold validateCredentialLocked, fail_if.
  repeat first [by left|by right; eexists|case_match; cbn].
Qed.

Lemma install_later core credential replace s s' r :
  versions_known s → installCredentialLocked core credential replace s = (s', r) →
  s.(nextCredentialVersion) ≠ (two64 - 1)%Z ∨ r = Ok tt →
  versions_known s' ∧ credentials_later s s'.
Proof.
  intros [Hn Hv] H Hmax. unfold installCredentialLocked in H.
  destruct (validateCredential_cases core credential s) as [E|[e E]]; rewrite E in H; cbn in H;
    [|injection H as <- <-; by apply credentials_kept].
  destruct (_ && _); [injection H as <- <-; by apply credentials_kept|].
  assert (s.(nextCredentialVersion) ≠ (two64 - 1)%Z) as Hne.
  { destruct Hmax as [?| ->]; [done|]. intros Em. change (u64 _) with (u64 (s.(nextCredentialVersion) + 1)) in H.
    rewrite Em in H. done. }
  cbn [nextCredentialVersion setf] in H. rewrite u64_small in H by (unfold two64 in *; lia).
  destruct (Z.eqb_spec (s.(nextCredentialVersion) + 1) 0); [lia|]. injection H as <- <-.
  split; [split; cbn; [unfold two64 in *; lia|]|split; cbn; [lia|]].
  - intros key c [[<- <-]|[_ Hc]]%lookup_insert_Some; cbn; [lia|]. specialize (Hv _ _ Hc). lia.
  - intros key c [[<- <-]|[_ Hc]]%lookup_insert_Some Hle; cbn in *; [lia|]. by exists c.
Qed.

Lemma store_later core credential failure s file s' file' r :
  versions_known s → storeCredentialLocked core credential failure s file = (s', file', r) →
  versions_known s' ∧ credentials_later s s'.
Proof.
  intros Hs H. unfold storeCredentialLocked in H.
  destruct (validateCredential_cases core credential s) as [E|[e E]]; rewrite E in H; cbn in H;
    [|injection H as <- <- <-; by apply credentials_kept].
  destruct (Z.eqb_spec s.(nextCredentialVersion) (two64 - 1)); [injection H as <- <- <-; by apply credentials_kept|].
  destruct (Core_persistent core).
  - destruct (persist _ _ _) as [f [[]|e|]];
      [destruct (installCredentialLocked _ _ _ _) as [s1 r1] eqn:Ei|..]; injection H as <- <- <-;
      [eapply install_later; [done|exact Ei|by left]|by apply credentials_kept..].
  - destruct (installCredentialLocked _ _ _ _) as [s1 r1] eqn:Ei. injection H as <- <- <-. eapply install_later; [done|exact Ei|by left].
Qed.

(** The section that issues grants, on every branch. *)
Lemma grant_cases core v failure s file s' file' r :
  grantSection core v failure s file = (s', file', r) →
  (∃ c, r = Ok (mkGrant v.(Verified_token) (Time_Add v.(Verified_now) core.(Core_grantTTL))
          v.(Verified_assertion).(Assertion_CredentialID) v.(Verified_assertion).(Assertion_RPID) v.(Verified_signCount)) ∧
     s.(credentials) !! Verified_key v = Some c ∧
     boundTo v.(Verified_assertion).(Assertion_Binding) (Some c) = true ∧
     c.(credentialRecord_version) = v.(Verified_version) ∧
     (c.(credentialRecord_signCount) < v.(Verified_signCount))%Z ∧
     s'.(credentials) = <[Verified_key v := c <| credentialRecord_signCount := v.(Verified_signCount) |>]> s.(credentials) ∧
     s'.(nextCredentialVersion) = s.(nextCredentialVersion) ∧ s'.(challenges) = s.(challenges) ∧
     (Z.of_nat (size (pruneGrantsLocked v.(Verified_now) s).(grants)) < core.(Core_maxGrants))%Z ∧
     s'.(grants) = <[v.(Verified_token) := mkGrantRecord v.(Verified_assertion).(Assertion_Binding)
       (Time_Add v.(Verified_now) core.(Core_grantTTL))]> (pruneGrantsLocked v.(Verified_now) s).(grants) ∧
     if core.(Core_persistent)
     then File_AdvanceSignCount (mkCredential (Verified_key v).2 (Verified_key v).1 c.(credentialRecord_actorID)
            c.(credentialRecord_deviceID) c.(credentialRecord_publicKey) c.(credentialRecord_signCount))
            v.(Verified_signCount) file = Ok file'
     else file' = file) ∨
  (is_ok r = false ∧ s'.(credentials) = s.(credentials) ∧ s'.(nextCredentialVersion) = s.(nextCredentialVersion) ∧
   s'.(challenges) = s.(challenges) ∧ s'.(grants) ⊆ s.(grants) ∧
   (file' = file ∨ ∃ e n, core.(Core_persistent) = true ∧ File_AdvanceSignCount e n file = Ok file')).
Proof.
  unfold grantSection. intros H.
  assert (∀ t, (pruneGrantsLocked t s).(grants) ⊆ s.(grants)) as Hsub by (intros t; apply map_filter_subseteq).
  destruct (s.(credentials) !! _) as [c|] eqn:Ec; [|injection H as <- <- <-; right; split_and!; auto].
  destruct (_ || _) eqn:Eb; [injection H as <- <- <-; right; split_and!; auto|].
  apply orb_false_iff in Eb as [Eb%negb_false_iff Ev%negb_false_iff%Z.eqb_eq].
  destruct (_ || _) eqn:En; [injection H as <- <- <-; right; split_and!; auto|].
  apply orb_false_iff in En as [_ En%Z.leb_gt].
  destruct (_ <=? _)%Z eqn:Esz; [injection H as <- <- <-; right; split_and!; auto|]. apply Z.leb_gt in Esz.
  destruct (is_Some_b _); [injection H as <- <- <-; right; split_and!; auto|].
  destruct (Core_persistent core) eqn:Ep.
  - unfold persist in H. destruct (File_AdvanceSignCount _ _ file) as [f| |] eqn:Ef;
      [destruct failure as [[err []]|]|..]; injection H as <- <- <-.
    all: try (right; split_and!; auto; right; by eauto).
    left. exists c. split_and!; done.
  - injection H as <- <- <-. left. exists c. split_and!; done.
Qed.

Lemma grant_later core v failure s file s' file' r :
  versions_known s → grantSection core v failure s file = (s', file', r) → versions_known s' ∧ credentials_later s s'.
Proof.
  intros [Hn Hv] [(c & _ & Hc & _ & _ & _ & Ec & En & _)|(_ & Ec & En & _)]%grant_cases; [|by apply credentials_kept].
  unfold versions_known, credentials_later. rewrite En, Ec. split; [split; [done|]|split; [done|]].
  - intros key c' [[<- <-]|[_ Hc']]%lookup_insert_Some; [by apply (Hv _ _ Hc)|by eapply Hv].
  - intros key c' [[<- <-]|[_ Hc']]%lookup_insert_Some _; [by exists c|by exists c'].
Qed.

(** * What the credential file remembers *)

Fixpoint signCountOf (key : credentialKey) (stored : list Credential) : option Z :=
  match stored with
  | [] => None
  | c :: stored => if bool_decide (keyOf c = key) then Some c.(Credential_SignCount) else signCountOf key stored
  end.

(** The file knows the key with at least this count. *)
Definition remembers (file : CredentialFile) (key : credentialKey) (count : Z) : Prop :=
  ∃ stored n, file = Some stored ∧ signCountOf key stored = Some n ∧ (count ≤ n)%Z.

Lemma storeAmong_counts credential stored stored' key n :
  storeAmong credential stored = Ok stored' → signCountOf key stored = Some n →
  ∃ m, signCountOf key stored' = Some m ∧ (n ≤ m)%Z.
Proof.
  revert stored'. induction stored as [|c stored IH]; intros stored' H Hn; [done|]. cbn in H, Hn.
  destruct (bool_decide_reflect (keyOf c = keyOf credential)) as [E|E]; inv_ok; cbn.
  - rewrite <- E. destruct (bool_decide _); [|by eauto with lia]. injection Hn as <-. by eexists.
  - destruct (bool_decide _); [by eauto with lia|]. by eapply IH.
Qed.

Lemma advanceAmong_counts expected next stored stored' :
  advanceAmong expected next stored = Ok stored' →
  (∃ n, signCountOf (keyOf expected) stored = Some n ∧ (n < next)%Z) ∧
  signCountOf (keyOf expected) stored' = Some next ∧
  ∀ key, key ≠ keyOf expected → signCountOf key stored' = signCountOf key stored.
Proof.
  revert stored'. induction stored as [|c stored IH]; intros stored' H; [done|]. cbn in H |- *.
  destruct (bool_decide_reflect (keyOf c = keyOf expected)) as [E|E]; inv_ok; cbn.
  - split_and!; [by eexists|by rewrite bool_decide_eq_true_2|].
    intros key Hk. rewrite !bool_decide_eq_false_2; [done|congruence|].
    change (keyOf c ≠ key). congruence.
  - destruct (IH _ ltac:(eassumption)) as (Hn & Ha & Hk). split_and!; [exact Hn|by rewrite (bool_decide_eq_false_2 _ E)|]. intros key Hne. by rewrite (Hk _ Hne).
Qed.

Lemma store_remembers credential file file' key n :
  File_StoreCredential credential file = Ok file' → remembers file key n → remembers file' key n.
Proof.
  intros H (stored & m & -> & Hm & Hle). unfold File_StoreCredential, readLocked in H. inv_ok.
  match goal with H : storeAmong _ _ = Ok _ |- _ => destruct (storeAmong_counts _ _ _ _ _ H Hm) as (m' & ? & ?) end.
  eexists _, m'. split_and!; [done..|lia].
Qed.

Lemma advance_remembers expected next file file' :
  File_AdvanceSignCount expected next file = Ok file' →
  remembers file' (keyOf expected) next ∧ (∀ n, remembers file (keyOf expected) n → (n < next)%Z) ∧
  ∀ key n, remembers file key n → remembers file' key n.
Proof.
  intros ([] & _ & (read & Hread & (written & Hadv & [= <-])%bind_Ok)%bind_Ok)%bind_Ok.
  destruct (advanceAmong_counts _ _ _ _ Hadv) as ((n & Hn & Hlt) & Hx & Hk).
  assert (∀ stored, file = Some stored → stored = read) as Hfile.
  { intros stored ->. unfold readLocked in Hread. by inv_ok. }
  split_and!.
  - by eexists _, next.
  - intros m (stored & m' & Es & Hm & Hle). rewrite (Hfile _ Es) in Hm. assert (m' = n) by congruence. lia.
  - intros key m (stored & m' & Es & Hm & Hle). rewrite (Hfile _ Es) in Hm.
    destruct (decide (key = keyOf expected)) as [->|Hne].
    + eexists _, next. split_and!; [done..|]. assert (m' = n) by congruence. lia.
    + eexists _, m'. by rewrite Hk.
Qed.

Lemma store_file core credential failure s file s' file' r :
  storeCredentialLocked core credential failure s file = (s', file', r) →
  file' = file ∨ File_StoreCredential credential file = Ok file'.
Proof.
  unfold storeCredentialLocked, persist. intros H. repeat case_match; simplify_eq; auto.
Qed.

Lemma load_known core file s : loadState core file = Ok s → versions_known s.
Proof.
  assert (versions_known (mkCoreState 0 ∅ ∅ ∅)) as H0 by (split; cbn; [done|by intros]).
  unfold loadState. destruct (Core_persistent core); [|by intros [= <-]].
  intros (loaded & _ & H)%bind_Ok. unfold loadAll in H. revert H0 H.
  generalize (mkCoreState 0 ∅ ∅ ∅) as s0. induction loaded as [|c loaded IH]; intros s0 H0 H; cbn in H.
  - by injection H as <-.
  - apply bind_Ok in H as (s1 & H1 & H). eapply IH; [|exact H].
    destruct (installCredentialLocked _ _ _ _) as [s2 [[]|e|]] eqn:Ei; simplify_eq.
    eapply install_later; [exact H0|exact Ei|by right].
Qed.

(** * The log *)

Section log.
Context {auth : AuthEnv} (core : Core).
Implicit Types (h : history auth_answer) (e : event auth_answer) (s : AuthWorld).

Definition granted1 e : option Verified :=
  match e with existT (SectionGrant v) (Ok _) => Some v | _ => None end.
Definition granted h : list Verified := omap granted1 h.

(** Whom a challenge, a grant or an authorisation is for: the binding and, for the
    first two, the relying party. *)
Definition scope : Type := AuthBinding * string.
Definition bindingOf (v : Verified) : AuthBinding := v.(Verified_assertion).(Assertion_Binding).
Definition scopeOf (v : Verified) : scope :=
  (v.(Verified_assertion).(Assertion_Binding), v.(Verified_assertion).(Assertion_RPID)).

Definition recordScope (r : challengeRecord) : scope := (r.(challengeRecord_binding), r.(challengeRecord_rpID)).

Definition issued1 e : option scope :=
  match e with existT (SectionIssue _ _ record) (Ok _) => Some (recordScope record) | _ => None end.
Definition issued h : list scope := omap issued1 h.

Definition taken1 e : option scope :=
  match e with existT (SectionTake _) (Some record) => Some (recordScope record) | _ => None end.
Definition taken h : list scope := omap taken1 h.

(** A mutation that is let pass. *)
Definition allowed1 e : option AuthBinding :=
  match e with
  | existT (SectionAuthorize now request) grant =>
      if (decideGrant request now grant).(AuthDecision_Allowed) then Some request.(AuthMutation_Binding) else None
  | _ => None
  end.
Definition allowed h : list AuthBinding := omap allowed1 h.

Definition released1 e : option AuthBinding :=
  match e with existT (TransportTake _) (Some r) => Some r.(bridgeGrantRecord_binding) | _ => None end.
Definition released h : list AuthBinding := omap released1 h.
Definition handed1 e : option AuthBinding :=
  match e with existT (TransportRegister _ binding) _ => Some binding | _ => None end.
Definition handed h : list AuthBinding := omap handed1 h.

(** * Every step *)

Definition auth_invariant (w : world auth_answer AuthWorld) : Prop := versions_known w.1.(aw_core).
Definition auth_later (w w' : world auth_answer AuthWorld) : Prop :=
  w.2 `prefix_of` w'.2 ∧ credentials_later w.1.(aw_core) w'.1.(aw_core).

#[local] Instance auth_later_preorder : PreOrder auth_later.
Proof.
  split; [by intros w; split|]. intros w1 w2 w3 [? ?] [? ?]. split; by etrans.
Qed.

Lemma auth_serves_later s h e s' :
  auth_invariant (s, h) → auth_serves core s e s' → auth_invariant (s', h ++ [e]) ∧ auth_later (s, h) (s', h ++ [e]).
Proof.
  intros Hi Hs. enough (versions_known s'.(aw_core) ∧ credentials_later s.(aw_core) s'.(aw_core)) as []
    by (split; [done|]; split; [by apply prefix_app_r|done]).
  unfold auth_invariant in Hi. cbn [fst] in Hi.
  destruct Hs; cbn [aw_core]; try by apply credentials_kept.
  - by eapply store_later.
  - unfold issueSection in *. repeat case_match; simplify_eq; by apply credentials_kept.
  - unfold takeSection in *. simplify_eq. by apply credentials_kept.
  - by eapply grant_later.
  - unfold authorizeSection in *. repeat case_match; simplify_eq; by apply credentials_kept.
Qed.

(** What the calls that matter answer. *)
Lemma auth_serves_inv s e s' :
  auth_serves core s e s' →
  match e with existT c r =>
    match c return auth_answer c → Prop with
    | SectionCredential key => λ r, s' = s ∧ r = s.(aw_core).(credentials) !! key
    | SectionGrant v => λ r, ∃ failure,
        grantSection core v failure s.(aw_core) s.(aw_file) = (s'.(aw_core), s'.(aw_file), r) ∧
        s'.(aw_transport) = s.(aw_transport)
    | _ => λ _, True
    end r end.
Proof. destruct 1; eauto. Qed.

(** A grant is earned: what the log and the credentials say when it is issued. *)
Definition earned (w : world auth_answer AuthWorld) (v : Verified) : Prop :=
  let a := v.(Verified_assertion) in
  ∃ clientData challenge credential origins,
    parseClientData a.(Assertion_ClientDataJSON) = Ok clientData ∧
    clientData.(collectedClientData_Type) = "webauthn.get" ∧
    clientData.(collectedClientData_CrossOrigin) = false ∧
    core.(Core_rpOrigins) !! a.(Assertion_RPID) = Some origins ∧
    clientData.(collectedClientData_Origin) ∈ origins ∧
    existT (SectionTake clientData.(collectedClientData_Challenge)) (Some challenge) ∈ w.2 ∧
    recordScope challenge = scopeOf v ∧ AuthBinding_valid a.(Assertion_Binding) = true ∧
    (v.(Verified_now) < challenge.(challengeRecord_expiresAt))%Z ∧
    validateAuthenticatorData core a.(Assertion_RPID) a.(Assertion_AuthenticatorData) = Ok v.(Verified_signCount) ∧
    w.1.(aw_core).(credentials) !! Verified_key v = Some credential ∧
    credential.(credentialRecord_actorID) = a.(Assertion_Binding).(AuthBinding_ActorID) ∧
    credential.(credentialRecord_deviceID) = a.(Assertion_Binding).(AuthBinding_DeviceID) ∧
    Verifier_Verify credential.(credentialRecord_publicKey) (signedData a) a.(Assertion_Signature) = None ∧
    (credential.(credentialRecord_signCount) < v.(Verified_signCount))%Z.

Definition grants_earned (w : world auth_answer AuthWorld) (e : event auth_answer) : Prop :=
  match granted1 e with Some v => earned w v | None => True end.

Definition not_grant (c : auth_call) : Prop := match c with SectionGrant _ => False | _ => True end.

Abbreviation auth_guarantees := (guarantees (auth_setting core) auth_invariant auth_later grants_earned).

Lemma not_grant_guarantees {A} (p : proc auth_answer A) w : only not_grant p → auth_guarantees p w (λ _ _, True).
Proof.
  apply (guarantees_only (auth_setting core) auth_invariant auth_later); [apply auth_serves_later|]. intros w' c r Hc. by destruct c.
Qed.

(** A call that issues no grant. *)
Lemma quiet_ask_bind {B} c (f : auth_answer c → go auth_answer B) w :
  not_grant c →
  (∀ s h r s', auth_later w (s, h) → auth_invariant (s, h) → auth_serves core s (existT c r) s' →
     auth_later w (s', h ++ [existT c r]) → auth_invariant (s', h ++ [existT c r]) →
     auth_guarantees (f r) (s', h ++ [existT c r]) (λ _ _, True)) →
  auth_guarantees (ask c ≫= f) w (λ _ _, True).
Proof.
  intros Hc Hf. apply (guarantees_ask_bind (auth_setting core)). intros s h r s' Hr Hi Hs.
  pose proof (auth_serves_later _ _ _ _ Hi Hs) as [Hi' Hr']. split_and!; [done..|by destruct c|].
  eapply Hf; [exact Hr|exact Hi|exact Hs|by etrans|done].
Qed.

Lemma checkAssertion_inv a clientData now challenge n :
  checkAssertion core a clientData now challenge = Ok n →
  ∃ record origins, challenge = Some record ∧ (now < record.(challengeRecord_expiresAt))%Z ∧
    AuthBinding_valid a.(Assertion_Binding) = true ∧
    recordScope record = (a.(Assertion_Binding), a.(Assertion_RPID)) ∧
    core.(Core_rpOrigins) !! a.(Assertion_RPID) = Some origins ∧
    clientData.(collectedClientData_Type) = "webauthn.get" ∧
    clientData.(collectedClientData_CrossOrigin) = false ∧ clientData.(collectedClientData_Origin) ∈ origins ∧
    validateAuthenticatorData core a.(Assertion_RPID) a.(Assertion_AuthenticatorData) = Ok n.
Proof.
  unfold checkAssertion. intros H. inv_ok.
  repeat match goal with H : bool_decide _ = true |- _ => apply bool_decide_eq_true in H end.
  unfold Time_Before in *. inv_bool. eexists _, _. split_and!; try done.
  unfold recordScope. f_equal; by symmetry.
Qed.

Lemma checkSignature_inv a credential record :
  checkSignature a credential = Ok record →
  credential = Some record ∧ record.(credentialRecord_actorID) = a.(Assertion_Binding).(AuthBinding_ActorID) ∧
  record.(credentialRecord_deviceID) = a.(Assertion_Binding).(AuthBinding_DeviceID) ∧
  Verifier_Verify record.(credentialRecord_publicKey) (signedData a) a.(Assertion_Signature) = None.
Proof.
  unfold checkSignature. intros H. destruct credential as [c|]; [|done]. cbn in H. inv_ok.
  destruct (Verifier_Verify _ _ _) eqn:Ev; [done|]. by inv_ok.
Qed.

Lemma VerifyAssertion_earns a w : auth_guarantees (VerifyAssertion core a) w (λ _ _, True).
Proof.
  unfold VerifyAssertion. apply (guarantees_lift_bind (auth_setting core)). intros clientData Hclient.
  apply quiet_ask_bind; [done|]. intros s0 h0 now s0' _ _ _ _ _.
  apply quiet_ask_bind; [done|]. intros s1 h1 challenge s1' _ _ _ _ _.
  apply (guarantees_lift_bind (auth_setting core)).
  intros signCount (record & origins & -> & Hexp & Hvalid & Hscope & Hrp & Htype & Hcross & Hin & Hdata)%checkAssertion_inv.
  set (took := existT (SectionTake _) (Some record) : event auth_answer).
  assert (took ∈ h1 ++ [took]) as Htook by set_solver.
  apply quiet_ask_bind; [done|]. intros s2 h2 credential s2' [Hp2 _] _ [-> Hread]%auth_serves_inv [Hp2' _] [_ Hv2].
  apply (guarantees_lift_bind (auth_setting core)). intros cred (Hcred & Hactor & Hdevice & Hsig)%checkSignature_inv.
  rewrite Hcred in Hread. symmetry in Hread. specialize (Hv2 _ _ Hread). cbn [fst] in Hv2.
  pose proof (event_kept _ _ _ Hp2' Htook) as Htook2.
  apply (guarantees_go_bind (auth_setting core) auth_invariant auth_later). eapply (guarantees_mono (auth_setting core) auth_invariant auth_later).
  { apply not_grant_guarantees. unfold randomToken. walk. }
  intros w3 token [Hp3 Hc3] _ _. destruct token as [token|e|]; [|done..].
  apply (guarantees_ask_bind (auth_setting core)). intros s4 h4 r s4' [Hp4 Hc4] Hi4 Hs.
  destruct (auth_serves_later _ _ _ _ Hi4 Hs) as [Hi4' Hr4]. split_and!; [done..| |].
  2: { destruct r; done. }
  unfold grants_earned. destruct r as [grant| |]; [|done..]. cbn [granted1].
  apply auth_serves_inv in Hs as (failure & [(c & _ & Hc & _ & Hversion & Hcount & _)|[? _]]%grant_cases & _); [|done].
  cbn in Hversion, Hcount, Hc.
  assert (credentials_later s2.(aw_core) s4.(aw_core)) as [_ Hlater] by (etrans; [exact Hc3|exact Hc4]).
  destruct (Hlater _ _ Hc) as (c0 & Hc0 & _ & Ea & Ed & Ep); [rewrite Hversion; exact Hv2|].
  assert (c0 = cred) as -> by (unfold Verified_key in Hc0; cbn in *; congruence).
  exists clientData, record, c, origins. cbn. split_and!; try done; [|congruence..].
  eapply event_kept; [exact Hp4|]. eapply event_kept; [exact Hp3|exact Htook2].
Qed.

Lemma assertAndRegister_earns a w : auth_guarantees (assertAndRegister core a) w (λ _ _, True).
Proof.
  unfold assertAndRegister. apply (guarantees_go_bind (auth_setting core) auth_invariant auth_later). eapply (guarantees_mono (auth_setting core) auth_invariant auth_later); [apply VerifyAssertion_earns|].
  intros w' [grant|e|] _ _ _; [|done..]. apply not_grant_guarantees. unfold transport_register. walk.
Qed.

Lemma auth_spawns_earn p w : auth_spawns core p → auth_guarantees p w (λ _ _, True).
Proof.
  destruct 1; apply (guarantees_bind (auth_setting core) auth_invariant auth_later).
  3: { eapply (guarantees_mono (auth_setting core) auth_invariant auth_later); [apply assertAndRegister_earns|done]. }
  all: eapply (guarantees_mono (auth_setting core) auth_invariant auth_later); [apply not_grant_guarantees|done].
  all: unfold Core_RegisterCredential, IssueChallenge, transport_authorize, Core_AuthorizeMutation, randomToken; walk.
Qed.

(** * The theorems *)

(** A grant is issued only for a verified assertion. In every reachable state of
    a daemon, whatever its other threads did and however often it crashed, the
    section that issues a grant succeeds only when the assertion it was called for
    has well-formed client data of type webauthn.get from an allowed origin of the
    relying party, answers a challenge that was taken from the store, unexpired and
    issued for exactly the same thread, project, device and actor, carries valid
    authenticator data, and is signed under a credential that is registered at this
    moment for that actor and device, with a sign count above its last one. *)
Theorem grant_is_earned s h ts1 past v k ts2 grant s' :
  running (auth_setting core) (s, h) (ts1 ++ mkStrand past (Invoke (SectionGrant v) k) :: ts2) →
  auth_serves core s (existT (SectionGrant v) (Ok grant)) s' →
  earned (s, h) v.
Proof.
  intros Hrun Hs.
  enough (grants_earned (s, h) (existT (SectionGrant v) (Ok grant))) by done.
  eapply (running_steps (auth_setting core) auth_invariant auth_later grants_earned); [..|exact Hrun|exact Hs].
  - intros s0 [c file H]. by eapply load_known.
  - intros s0 h0 s1 Hi Hh. destruct Hh; (split; [exact Hi|split; reflexivity]).
  - intros s0 h0 s1 _ [c H]. by eapply load_known.
  - intros p w Hp. by apply auth_spawns_earn.
Qed.

(** * Accounts *)

Definition recordsOf (s : AuthWorld) : list scope := (λ kv, recordScope kv.2) <$> map_to_list s.(aw_core).(challenges).
Definition bindingsOf (s : AuthWorld) : list AuthBinding :=
  (λ kv, kv.2.(bridgeGrantRecord_binding)) <$> map_to_list s.(aw_transport).

(** Every challenge in the store or taken from it was issued; the same for the
    grants of the transport. *)
Definition accounted (w : world auth_answer AuthWorld) : Prop :=
  taken w.2 ++ recordsOf w.1 ⊆+ issued w.2 ∧ released w.2 ++ bindingsOf w.1 ⊆+ handed w.2.

Lemma records_subset s s' : s'.(aw_core).(challenges) ⊆ s.(aw_core).(challenges) → recordsOf s' ⊆+ recordsOf s.
Proof. intros H. by apply fmap_submseteq, map_to_list_submseteq. Qed.
Lemma bindings_subset s s' : s'.(aw_transport) ⊆ s.(aw_transport) → bindingsOf s' ⊆+ bindingsOf s.
Proof. intros H. by apply fmap_submseteq, map_to_list_submseteq. Qed.

(** Taking a key out of a map takes its value out of the list. *)
Lemma values_delete {K A B} `{Countable K} (f : A → B) (m : gmap K A) k :
  option_list (f <$> m !! k) ++ ((λ kv, f kv.2) <$> map_to_list (delete k m)) ≡ₚ (λ kv, f kv.2) <$> map_to_list m.
Proof.
  destruct (m !! k) as [x|] eqn:E; cbn.
  - by rewrite <- (map_to_list_delete m k x E).
  - by rewrite delete_id.
Qed.

Lemma accounted_quiet s h e s' :
  accounted (s, h) → s'.(aw_core).(challenges) ⊆ s.(aw_core).(challenges) → s'.(aw_transport) ⊆ s.(aw_transport) →
  taken1 e = None → released1 e = None → accounted (s', h ++ [e]).
Proof.
  intros [H1 H2] Hc Ht E1 E2. unfold accounted, taken, released, issued, handed in *. cbn [fst snd] in *.
  rewrite !omap_app. cbn [omap list_omap]. rewrite E1, E2, !app_nil_r. split.
  - etrans; [apply submseteq_app; [reflexivity|by apply records_subset]|]. etrans; [exact H1|]. by apply submseteq_inserts_r.
  - etrans; [apply submseteq_app; [reflexivity|by apply bindings_subset]|]. etrans; [exact H2|]. by apply submseteq_inserts_r.
Qed.

Lemma values_insert {K A B} `{Countable K} (f : A → B) (m : gmap K A) k x :
  ((λ kv, f kv.2) <$> map_to_list (<[k:=x]> m)) ⊆+ f x :: ((λ kv, f kv.2) <$> map_to_list m).
Proof.
  rewrite <- insert_delete_eq, map_to_list_insert by apply lookup_delete_eq. cbn.
  apply submseteq_skip. by apply fmap_submseteq, map_to_list_submseteq, delete_subseteq.
Qed.

Lemma submseteq_account {A} (a l l' m : list A) x : a ++ l ⊆+ m → l' ⊆+ l → a ++ x :: l' ⊆+ m ++ [x].
Proof.
  intros H Hl. rewrite <- Permutation_middle, (Permutation_app_comm m [x]). cbn. apply submseteq_skip.
  etrans; [|exact H]. by apply submseteq_app.
Qed.

Lemma store_sections credential failure (s s' : CoreState) file file' r :
  storeCredentialLocked core credential failure s file = (s', file', r) →
  s'.(challenges) = s.(challenges) ∧ s'.(grants) = s.(grants).
Proof.
  unfold storeCredentialLocked, installCredentialLocked. intros H. repeat case_match; by simplify_eq.
Qed.

Lemma grant_sections v failure (s s' : CoreState) file file' r :
  grantSection core v failure s file = (s', file', r) → s'.(challenges) = s.(challenges).
Proof.
  intros [(c & _ & _ & _ & _ & _ & _ & _ & E & _)|(_ & _ & _ & E & _)]%grant_cases; exact E.
Qed.

Lemma accounted_serves s h e s' : accounted (s, h) → auth_serves core s e s' → accounted (s', h ++ [e]).
Proof.
  intros Ha Hs. destruct Hs; try by (eapply accounted_quiet; [exact Ha|done..]).
  - apply store_sections in H as [E _]. eapply accounted_quiet; [exact Ha|cbn; by rewrite E|done..].
  - unfold issueSection in H. set (kept := pruneChallengesLocked now (aw_core s)) in H.
    assert (kept.(challenges) ⊆ s.(aw_core).(challenges)) as Hk by apply map_filter_subseteq.
    destruct (_ <=? _)%Z; [injection H as <- <-; by eapply accounted_quiet|].
    destruct (is_Some_b _); [injection H as <- <-; by eapply accounted_quiet|]. injection H as <- <-.
    destruct Ha as [H1 H2]. unfold accounted, taken, released, issued, handed in *. cbn [fst snd] in *.
    rewrite !omap_app. cbn. rewrite !app_nil_r. split; [|done].
    etrans; [apply submseteq_app; [reflexivity|apply values_insert]|]. eapply submseteq_account; [exact H1|].
    by apply fmap_submseteq, map_to_list_submseteq.
  - injection H as <- <-. destruct Ha as [H1 H2]. unfold accounted, taken, released, issued, handed in *. cbn [fst snd] in *.
    rewrite !omap_app. cbn [omap list_omap issued1 handed1 released1]. rewrite !app_nil_r. split; [|done].
    etrans; [|exact H1]. rewrite <- (assoc_L (++)). apply submseteq_app; [done|].
    unfold recordsOf. cbn [aw_core]. rewrite <- (values_delete recordScope s.(aw_core).(challenges) value).
    by destruct (challenges (aw_core s) !! value).
  - apply grant_sections in H as E. eapply accounted_quiet; [exact Ha|cbn; by rewrite E|done..].
  - eapply accounted_quiet; [exact Ha| |done..]. unfold authorizeSection in H. by repeat case_match; simplify_eq.
  - destruct Ha as [H1 H2]. unfold accounted, taken, released, issued, handed in *. cbn [fst snd] in *.
    rewrite !omap_app. cbn. rewrite !app_nil_r. split; [done|].
    etrans; [apply submseteq_app; [reflexivity|apply values_insert]|]. eapply submseteq_account; [exact H2|].
    apply fmap_submseteq, map_to_list_submseteq. case_match; [apply delete_subseteq|done].
  - destruct Ha as [H1 H2]. unfold accounted, taken, released, issued, handed in *. cbn [fst snd] in *.
    rewrite !omap_app. cbn [omap list_omap issued1 handed1 taken1]. rewrite !app_nil_r. split; [done|].
    etrans; [|exact H2]. rewrite <- (assoc_L (++)). apply submseteq_app; [done|].
    unfold bindingsOf. cbn [aw_transport]. rewrite <- (values_delete bridgeGrantRecord_binding s.(aw_transport) token).
    by destruct (aw_transport s !! token).
Qed.

Lemma load_fresh file (s : CoreState) : loadState core file = Ok s → s.(challenges) = ∅ ∧ s.(grants) = ∅.
Proof.
  unfold loadState. destruct (Core_persistent core); [|by intros [= <-]].
  intros (loaded & _ & H)%bind_Ok. unfold loadAll in H.
  assert (challenges (mkCoreState 0 ∅ ∅ ∅) = ∅ ∧ grants (mkCoreState 0 ∅ ∅ ∅) = ∅) as H0 by done. revert H0 H.
  generalize (mkCoreState 0 ∅ ∅ ∅) as s0. induction loaded as [|c loaded IH]; intros s0 H0 H; cbn in H.
  - by injection H as <-.
  - apply bind_Ok in H as (s1 & H1 & H). eapply IH; [|exact H]. unfold installCredentialLocked in H1.
    repeat case_match; by simplify_eq.
Qed.

Lemma running_accounted w ts : running (auth_setting core) w ts → accounted w.
Proof.
  apply running_state.
  - intros s [c file H]. apply load_fresh in H as [H _]. unfold accounted, recordsOf, bindingsOf. cbn.
    by rewrite H, !map_to_list_empty.
  - intros s h e s'. apply accounted_serves.
  - intros s h s' [H1 H2] [[]|[c H]]; [done..|]. apply load_fresh in H as [H _].
    unfold accounted, recordsOf, bindingsOf in *. cbn [fst snd aw_core aw_transport] in *.
    rewrite H, !map_to_list_empty, !app_nil_r.
    split; (etrans; [|eassumption]; by apply submseteq_inserts_r).
Qed.

(** What a thread has authorised, handed on and been granted is covered by what it
    has taken. *)
Lemma fmap_omap {A B C} (f : B → C) (g : A → option B) (l : list A) : f <$> omap g l = omap (λ x, f <$> g x) l.
Proof. induction l as [|x l IH]; [done|]. cbn. destruct (g x); cbn; [by f_equal|done]. Qed.

Definition grantsSettled (past : history auth_answer) : Prop :=
  allowed past ⊆+ released past ∧ handed past ⊆+ bindingOf <$> granted past ∧
  scopeOf <$> granted past ⊆+ taken past.
Definition settles (past : history auth_answer) (c : auth_call) : Prop := ∀ r, grantsSettled (past ++ [existT c r]).

(** Calls that are on no account. *)
Definition plain (c : auth_call) : Prop :=
  match c with
  | AuthNow | AuthRandom _ | SectionRegister _ | SectionIssue _ _ _ | SectionCredential _ => True
  | _ => False
  end.

Lemma settled_more past e :
  grantsSettled past →
  (∀ b, allowed1 e = Some b → allowed past ++ [b] ⊆+ released past) →
  (∀ b, handed1 e = Some b → handed past ++ [b] ⊆+ bindingOf <$> granted past) →
  (∀ v, granted1 e = Some v → (scopeOf <$> granted past) ++ [scopeOf v] ⊆+ taken past) →
  grantsSettled (past ++ [e]).
Proof.
  intros (H1 & H2 & H3) Ha Hh Hg. unfold grantsSettled, allowed, released, handed, granted, taken in *.
  rewrite !omap_app, !fmap_app. cbn [omap list_omap]. split_and!.
  - destruct (allowed1 e) as [b|] eqn:E; [|rewrite app_nil_r]; apply submseteq_inserts_r; auto.
  - destruct (handed1 e) as [b|] eqn:E; [|rewrite app_nil_r]; apply submseteq_inserts_r; auto.
  - destruct (granted1 e) as [v|] eqn:E; apply submseteq_inserts_r; [by apply Hg|by rewrite app_nil_r].
Qed.

Lemma settled_plain past c r : plain c → grantsSettled past → grantsSettled (past ++ [existT c r]).
Proof. intros Hc Hp. apply settled_more; [exact Hp|by destruct c..]. Qed.

Lemma plain_settles {A} (p : proc auth_answer A) past (Q : history auth_answer → A → Prop) :
  only plain p → grantsSettled past → (∀ past' a, grantsSettled past' → allowed past' = allowed past → released past' = released past →
    handed past' = handed past → granted past' = granted past → taken past' = taken past → Q past' a) →
  ensures settles p past Q.
Proof.
  intros Hp. specialize (Hp past). revert past Hp. induction p as [a|c k IH]; intros past; cbn; [auto|].
  intros [Hc Hk] Hs HQ. split; [intros r; by apply settled_plain|]. intros r. apply IH; [apply Hk|by apply settled_plain|].
  intros past' a Hs' E1 E2 E3 E4 E5. apply HQ; [exact Hs'|..]; (etrans; [eassumption|]).
  all: unfold allowed, released, handed, granted, taken; rewrite omap_app; destruct c; try done; cbn; apply app_nil_r.
Qed.

(** The next call of a process. *)
Ltac asks := lazymatch goal with |- ensures _ (@ask ?C ?a ?c) _ _ => apply (@ensures_ask C a _ c) end.

Lemma settled_nil : grantsSettled [].
Proof. repeat split; apply submseteq_nil_l. Qed.

Lemma transport_authorize_settles token binding :
  ensures settles (transport_authorize token binding) [] (λ _ _, True).
Proof.
  unfold transport_authorize. apply ensures_go_bind; asks.
  { intros r. by apply settled_more; [apply settled_nil|..]. }
  intros registered. cbn in registered. apply ensures_go_bind. cbn [lift].
  destruct registered as [r|]; cbn [negb fail_if ensures]; [|done].
  destruct (bool_decide_reflect (bridgeGrantRecord_binding r = binding)) as [Er|]; [|done].
  cbn [negb fail_if ensures]. apply ensures_go_bind. unfold Core_AuthorizeMutation. cbn [negb AuthMutation_RequireRecentPasskey].
  destruct (_ || _); [done|]. apply ensures_go_bind; asks.
  { intros now. apply settled_plain; [done|]. by apply settled_more; [apply settled_nil|..]. }
  intros now. apply ensures_go_bind; asks.
  { intros grant. apply settled_more; try done.
    - apply settled_plain; [done|]. by apply settled_more; [apply settled_nil|..].
    - cbn. intros b. case_match; [|done]. intros [= <-]. by rewrite Er. }
  intros grant. cbn. by repeat case_match.
Qed.

Lemma assertAndRegister_settles a : ensures settles (assertAndRegister core a) [] (λ _ _, True).
Proof.
  unfold assertAndRegister, VerifyAssertion. apply ensures_go_bind, ensures_go_bind. cbn [lift].
  destruct (parseClientData _) as [clientData|e|]; cbn [ensures]; [|done..].
  apply ensures_go_bind; asks; [intros now; by apply settled_plain, settled_nil|]. intros now.
  apply ensures_go_bind; asks.
  { intros r. by apply settled_more; [by apply settled_plain, settled_nil|..]. }
  intros challenge. set (past := _ ++ _). assert (grantsSettled past) as Hpast.
  { by apply settled_more; [by apply settled_plain, settled_nil|..]. }
  apply ensures_go_bind. destruct (checkAssertion _ _ _ _ _) as [signCount|e|] eqn:Ec; cbn [lift ensures]; [|done..].
  apply checkAssertion_inv in Ec as (record & origins & -> & _ & _ & Hscope & _).
  assert (granted past = [] ∧ handed past = [] ∧ taken past = [(a.(Assertion_Binding), a.(Assertion_RPID))])
    as (Eg & Eh & Et) by (rewrite <- Hscope; done). clearbody past.
  apply ensures_go_bind; asks; [intros r; by apply settled_plain|]. intros credential.
  set (past1 := past ++ _). assert (grantsSettled past1) as Hpast1 by by apply settled_plain.
  assert (granted past1 = [] ∧ handed past1 = [] ∧ taken past1 = taken past) as (Eg1 & Eh1 & Et1).
  { unfold past1, granted, handed, taken in *. rewrite !omap_app. cbn. by rewrite !app_nil_r. } clearbody past1.
  apply ensures_go_bind. destruct (checkSignature _ _) as [cred|e|]; cbn [lift ensures]; [|done..].
  apply ensures_go_bind. apply plain_settles; [unfold randomToken; by walk|exact Hpast1|].
  intros past2 [token|e|] Hpast2 _ _ Eh2 Eg2 Et2; [|done..]. rewrite Eh1 in Eh2. rewrite Eg1 in Eg2. rewrite Et1, Et in Et2.
  assert (∀ v r, scopeOf v = (a.(Assertion_Binding), a.(Assertion_RPID)) → grantsSettled (past2 ++ [existT (SectionGrant v) r])) as Hg.
  { intros v r Hv. cbn in r. apply settled_more; [done|by destruct r..|]. intros v'. destruct r; [|done..]. intros [= <-].
    by rewrite Eg2, Et2, Hv. }
  apply ensures_go_bind; asks; [intros r; by apply Hg|]. intros r. cbn in r.
  destruct r as [grant|e|]; cbn [lift ensures]; [|done..].
  apply ensures_go_bind. unfold transport_register. asks; [|done]. intros r.
  apply settled_more; [by apply Hg|done| |done]. intros b [= <-].
  unfold handed, granted in *. rewrite !omap_app, Eh2, Eg2. cbn. done.
Qed.

Lemma running_settled w ts : running (auth_setting core) w ts → Forall (λ t, grantsSettled t.(st_past)) ts.
Proof.
  apply (running_pasts (auth_setting core) grantsSettled settles); [apply settled_nil|by intros h c r _ H|].
  intros p Hp. destruct Hp; apply ensures_bind.
  - apply plain_settles; [unfold Core_RegisterCredential; by walk|apply settled_nil|done].
  - apply plain_settles; [unfold IssueChallenge, randomToken; by walk|apply settled_nil|done].
  - eapply ensures_mono; [apply assertAndRegister_settles|done].
  - eapply ensures_mono; [apply transport_authorize_settles|done].
Qed.

(** Accounts of the threads add up to accounts of the log. *)
Lemma omap_pasts {B} (f : event auth_answer → option B) ts : omap f (pasts ts) = concat ((λ t, omap f t.(st_past)) <$> ts).
Proof.
  induction ts as [|t ts IH]; [done|]. change (pasts (t :: ts)) with (t.(st_past) ++ pasts ts).
  rewrite omap_app, IH. done.
Qed.

Lemma submseteq_concat {A T} (f g : T → list A) (ts : list T) :
  Forall (λ t, f t ⊆+ g t) ts → concat (f <$> ts) ⊆+ concat (g <$> ts).
Proof. induction 1 as [|t ts H _ IH]; [done|]. cbn. by apply submseteq_app. Qed.

End log.

#[local] Existing Instance sample_auth.

(** The thread of [sampleVerified] stands before the section that issues its grant. *)
Definition sampleGrantCall : Verified := mkVerified sampleAssertion 1000%Z 7%Z 1%Z "g.nonce".

Lemma grant_is_earned_witness :
  ∃ ts past k s' grant,
    sampleVerified.2 = ts ++ [mkStrand past (Invoke (SectionGrant sampleGrantCall) k)] ∧
    auth_serves sampleCore sampleVerified.1.1 (existT (SectionGrant sampleGrantCall) (Ok grant)) s' ∧
    earned sampleCore sampleVerified.1 sampleGrantCall.
Proof.
  destruct (drive sampleServe 4 sampleIssued.1 (mkStrand [] sampleAsserting)) as [w [past p]] eqn:E.
  assert (sampleVerified = (w, sampleIssued.2 ++ [mkStrand past p])) as Ev
    by (unfold sampleVerified, drive_new; by rewrite E).
  pose proof sampleVerified_running as Hrun. rewrite Ev in *. cbn [fst snd] in *.
  vm_compute in E. injection E as <- <- <-.
  match goal with |- context [mkStrand ?past (Invoke _ ?k)] => exists sampleIssued.2, past, k end.
  match goal with |- context [auth_serves _ ?s _ _] =>
    exists (serve_auth sampleCore 1000%Z "nonce" (SectionGrant sampleGrantCall) s).2,
      (mkGrant "g.nonce" 1600%Z "cred" "ago.dev" 7%Z);
    assert (auth_serves sampleCore s (existT (SectionGrant sampleGrantCall) (Ok (mkGrant "g.nonce" 1600%Z "cred" "ago.dev" 7%Z)))
      (serve_auth sampleCore 1000%Z "nonce" (SectionGrant sampleGrantCall) s).2) as Hs
      by exact (serve_auth_serves sampleCore 1000%Z "nonce" (SectionGrant sampleGrantCall) s)
  end.
  split_and!; [reflexivity|exact Hs|]. eapply grant_is_earned; [exact Hrun|exact Hs].
Defined.

(** Sign counts of grants only grow, for ever, and the stores of the daemon keep
    their bounds. *)

Section counts.
Context {auth : AuthEnv} (core : Core).
Implicit Types (h : history auth_answer) (e : event auth_answer) (s : AuthWorld).

(** The sign counts of the grants of a credential, in the order of the log. *)
Definition grantCounts (key : credentialKey) h : list Z :=
  Verified_signCount <$> filter (λ v, Verified_key v = key) (granted h).

Definition counted (w : world auth_answer AuthWorld) : Prop :=
  Forall (λ v, remembers w.1.(aw_file) (Verified_key v) v.(Verified_signCount)) (granted w.2) ∧
  ∀ key, StronglySorted Z.lt (grantCounts key w.2).

Lemma granted_snoc h e : granted (h ++ [e]) = granted h ++ option_list (granted1 e).
Proof. unfold granted. rewrite omap_app. cbn. by destruct (granted1 e). Qed.

Lemma counted_kept s h e s' :
  counted (s, h) → granted1 e = None →
  (s'.(aw_file) = s.(aw_file) ∨ (∃ c, File_StoreCredential c s.(aw_file) = Ok s'.(aw_file)) ∨
   ∃ x n, File_AdvanceSignCount x n s.(aw_file) = Ok s'.(aw_file)) →
  counted (s', h ++ [e]).
Proof.
  intros [H1 H2] He Hf. unfold counted, grantCounts in *. cbn [fst snd] in *. rewrite granted_snoc, He, app_nil_r.
  split; [|done]. eapply Forall_impl; [exact H1|]. intros v Hv.
  destruct Hf as [->|[[c Hc]|(x & n & Hx)]]; [done|by eapply store_remembers|].
  apply advance_remembers in Hx as (_ & _ & Hk). by apply Hk.
Qed.

Lemma counted_serves s h e s' :
  core.(Core_persistent) = true → counted (s, h) → auth_serves core s e s' → counted (s', h ++ [e]).
Proof.
  intros Hpers Hc Hs. destruct Hs; try by (eapply counted_kept; [exact Hc|done|by left]).
  - eapply counted_kept; [exact Hc|done|]. apply store_file in H as [->|H]; [by left|right; left; by exists credential].
  - apply grant_cases in H as [(cred & -> & Hcred & _ & _ & Hlt & _ & _ & _ & _ & _ & Hfile)|(Hr & _ & _ & _ & _ & Hf)].
    2: { eapply counted_kept; [exact Hc|by destruct r|]. destruct Hf as [->|(x & n & _ & Hx)]; [by left|right; right; eauto]. }
    rewrite Hpers in Hfile. apply advance_remembers in Hfile as (Hnew & Hold & Hk).
    change (keyOf _) with (Verified_key v) in *. destruct Hc as [H1 H2].
    unfold counted, grantCounts in *. cbn [fst snd aw_file] in *. rewrite granted_snoc. cbn [granted1 option_list]. split.
    + apply Forall_app. split; [|by repeat constructor]. eapply Forall_impl; [exact H1|]. intros v' Hv'. by apply Hk.
    + intros key. rewrite filter_app, fmap_app. change (option_list _) with [v]. rewrite (filter_singleton _ _ []). case_decide as Ek; [|by rewrite app_nil_r].
      apply StronglySorted_app. split_and!; [|apply H2|by repeat constructor].
      intros n n' (v' & -> & [Hk' Hv']%list_elem_of_filter)%list_elem_of_fmap ->%list_elem_of_singleton.
      rewrite Forall_forall in H1. apply Hold. rewrite Ek, <- Hk'. by apply H1.
Qed.

(** C20: Sign counts never repeat. When credentials are persistent, the counts of the
    grants of a credential are strictly increasing over the whole life of the
    system, through replacements of the credential, crashes of the daemon and other
    daemons on the same file; no assertion is ever accepted a second time. *)
Theorem sign_counts_increase w ts key :
  core.(Core_persistent) = true → running (auth_setting core) w ts → StronglySorted Z.lt (grantCounts key w.2).
Proof.
  intros Hpers Hrun. enough (counted w) as [_ H] by apply H. revert Hrun. apply running_state.
  - intros s _. split; [constructor|]. intros k. constructor.
  - intros s h e s'. by apply counted_serves.
  - intros s h s' [H1 H2] [[]|[]]; (split; [|exact H2]); cbn [fst snd aw_file] in *; [| |exact H1].
    all: eapply Forall_impl; [exact H1|]; intros v Hv.
    + by eapply store_remembers.
    + apply advance_remembers in H as (_ & _ & Hk). by apply Hk.
Qed.

(** * Bounds *)

Definition bounded (s : AuthWorld) : Prop :=
  (Z.of_nat (size s.(aw_core).(challenges)) ≤ core.(Core_maxChallenges))%Z ∧
  (Z.of_nat (size s.(aw_core).(grants)) ≤ core.(Core_maxGrants))%Z ∧
  (Z.of_nat (size s.(aw_transport)) ≤ maxBridgeGrantRecords)%Z.

Lemma size_subset {K A} `{Countable K} (m m' : gmap K A) b :
  m' ⊆ m → (Z.of_nat (size m) ≤ b)%Z → (Z.of_nat (size m') ≤ b)%Z.
Proof.
  intros Hm%map_subseteq_size Hb. lia.
Qed.

Lemma size_insert_le {K A} `{Countable K} (m : gmap K A) k x : size (<[k:=x]> m) ≤ S (size m).
Proof. destruct (m !! k) eqn:E; [rewrite map_size_insert_Some by eauto; lia|by rewrite map_size_insert_None]. Qed.

(** The grant that is evicted is one of them. *)
Lemma oldestGrant_in order : order ≠ [] → oldestGrant order ∈ order.*1.
Proof.
  unfold oldestGrant. destruct order as [|[token r] order]; [done|]. intros _. cbn.
  enough (∀ rest best, best.1 ∈ token :: order.*1 → (∀ x, x ∈ rest.*1 → x ∈ token :: order.*1) →
    (foldl (λ '(oldestToken, oldestExpiry) '(token, record),
      if (oldestToken == "") || Time_Before (bridgeGrantRecord_expiresAt record) oldestExpiry
      then (token, bridgeGrantRecord_expiresAt record) else (oldestToken, oldestExpiry)) best rest).1 ∈ token :: order.*1) as H.
  { apply H; [by left|]. intros x Hx. by right. }
  induction rest as [|[t r'] rest IH]; intros [bt be] Hb Hr; [exact Hb|]. cbn. apply IH.
  - case_match; [apply Hr; by left|exact Hb].
  - intros x Hx. apply Hr. by right.
Qed.

Lemma register_bounded grant binding order kept :
  order ≡ₚ map_to_list kept → (Z.of_nat (size kept) ≤ maxBridgeGrantRecords)%Z →
  (Z.of_nat (size (registerSection grant binding order kept)) ≤ maxBridgeGrantRecords)%Z.
Proof.
  intros Ho Hb. unfold registerSection. etrans; [apply inj_le, size_insert_le|].
  destruct (Z.leb_spec maxBridgeGrantRecords (Z.of_nat (size kept))) as [Hle|Hlt]; [|lia].
  assert (is_Some (kept !! oldestGrant order)) as Hsome.
  { assert (oldestGrant order ∈ order.*1) as Hin.
    { apply oldestGrant_in. intros ->. symmetry in Ho. apply Permutation_nil_r, map_to_list_empty_iff in Ho as ->.
      by rewrite map_size_empty in Hle. }
    apply list_elem_of_fmap in Hin as ([k r] & -> & Hk). rewrite Ho in Hk. apply elem_of_map_to_list in Hk. by exists r. }
  rewrite map_size_delete_Some by done. unfold maxBridgeGrantRecords in *. lia.
Qed.

(** The daemon's memory is bounded. In every reachable state there are at most the
    configured number of challenges and of grants, and at most 1024 grants wait in
    the transport of the bridge. *)
Theorem passkey_stores_bounded w ts :
  (0 ≤ core.(Core_maxChallenges))%Z → (0 ≤ core.(Core_maxGrants))%Z →
  running (auth_setting core) w ts → bounded w.1.
Proof.
  intros Hmc Hmg. apply (running_state (auth_setting core) (λ w, bounded w.1)).
  - intros s [c file [E1 E2]%load_fresh]. unfold bounded, maxBridgeGrantRecords. cbn. rewrite E1, E2, !map_size_empty. lia.
  - intros s h e s' (Hc & Hg & Ht) Hs. cbn [fst snd] in *. unfold bounded.
    destruct Hs; cbn [aw_core aw_transport]; try done.
    + apply store_sections in H as [E1 E2]. by rewrite E1, E2.
    + unfold issueSection in H. set (kept := pruneChallengesLocked now (aw_core s)) in H.
      assert (kept.(challenges) ⊆ s.(aw_core).(challenges)) as Hk by apply map_filter_subseteq.
      pose proof (size_subset _ _ _ Hk Hc) as Hsz.
      destruct (Z.leb_spec (Core_maxChallenges core) (Z.of_nat (size kept.(challenges)))); [by injection H as <- _|].
      destruct (is_Some_b _); [by injection H as <- _|]. injection H as <- _. cbn. split_and!; [|done..].
      pose proof (size_insert_le kept.(challenges) value record). unfold kept in *. cbn in *. lia.
    + injection H as <- _. cbn. split_and!; [|done..]. by eapply size_subset, Hc; apply delete_subseteq.
    + apply grant_cases in H as [(cred & _ & _ & _ & _ & _ & _ & _ & E1 & Hsz & E2 & _)|(_ & _ & _ & E1 & Hsub & _)]; rewrite E1.
      * rewrite E2. split_and!; [done| |done]. pose proof (size_insert_le (grants (pruneGrantsLocked (Verified_now v) (aw_core s)))
          (Verified_token v) (mkGrantRecord (Assertion_Binding (Verified_assertion v))
            (Time_Add (Verified_now v) (Core_grantTTL core)))). lia.
      * split_and!; [done|by eapply size_subset|done].
    + unfold authorizeSection in H. repeat case_match; simplify_eq; try done. cbn. split_and!; [done| |done].
      eapply size_subset, Hg. apply delete_subseteq.
    + split_and!; [done..|by apply register_bounded].
    + split_and!; [done..|]. eapply size_subset, Ht. apply delete_subseteq.
  - intros s h s' Hb [[]|[c [E1 E2]%load_fresh]]; [done..|]. unfold bounded in *. cbn in *. rewrite E1, E2, !map_size_empty.
    unfold maxBridgeGrantRecords. lia.
Qed.

End counts.

#[local] Existing Instance sample_auth.

Lemma sign_counts_increase_witness :
  grantCounts ("ago.dev", "cred") sampleAuthorized.1.2 = [7%Z] ∧
  StronglySorted Z.lt (grantCounts ("ago.dev", "cred") sampleAuthorized.1.2).
Proof.
  split; [vm_compute; reflexivity|].
  apply (sign_counts_increase sampleCore _ sampleAuthorized.2); [reflexivity|apply sampleAuthorized_running].
Defined.

Lemma passkey_stores_bounded_witness : bounded sampleCore sampleAuthorized.1.1.
Proof.
  apply (passkey_stores_bounded sampleCore _ sampleAuthorized.2); [done|done|apply sampleAuthorized_running].
Defined.
