(* ===== verification/AuthTime.v ===== *)
(** The times of challenges and grants: a mutation is authorised within the lifetime of
    its grant, a grant is issued within the lifetime of the challenge it answers. *)
From S2P Require Import Prelude Process Concurrent Auth AuthSafety.

Section log.
Context {auth : AuthEnv} (core : Core).
Implicit Types (h : history auth_answer) (e : event auth_answer) (s : AuthWorld).

(** * In time

    A challenge and a grant carry the time they are good until; the times below are
    readings of the daemon's clock. *)

Definition answered1 e : option (string * challengeRecord) :=
  match e with existT (SectionTake value) (Some record) => Some (value, record) | _ => None end.
Definition answered h : list (string * challengeRecord) := omap answered1 h.

(** The mutations that were let pass, with the time of the decision. *)
Definition authorized1 e : option (Time * AuthMutation) :=
  match e with
  | existT (SectionAuthorize now request) grant =>
      if (decideGrant request now grant).(AuthDecision_Allowed) then Some (now, request) else None
  | _ => None
  end.
Definition authorized h : list (Time * AuthMutation) := omap authorized1 h.

Definition clockRead h (now : Time) : Prop := existT AuthNow now ∈ h.

(** The challenge was issued, and when. *)
Definition issuedAs h (value : string) (record : challengeRecord) (issuedAt : Time) : Prop :=
  clockRead h issuedAt ∧ existT (SectionIssue issuedAt value record) (Ok tt) ∈ h.

(** The assertion answers a challenge of its scope in time. *)
Definition answersInTime h (v : Verified) : Prop :=
  ∃ clientData record issuedAt,
    parseClientData v.(Verified_assertion).(Assertion_ClientDataJSON) = Ok clientData ∧
    issuedAs h clientData.(collectedClientData_Challenge) record issuedAt ∧ recordScope record = scopeOf v ∧
    clockRead h v.(Verified_now) ∧ (v.(Verified_now) < issuedAt + core.(Core_challengeTTL))%Z.

(** The mutation uses the grant of a verified assertion in time. *)
Definition usesInTime h (now : Time) (request : AuthMutation) : Prop :=
  ∃ v, v ∈ granted h ∧ v.(Verified_token) = request.(AuthMutation_GrantToken) ∧
    bindingOf v = request.(AuthMutation_Binding) ∧ clockRead h now ∧
    (now < v.(Verified_now) + core.(Core_grantTTL))%Z.

Definition challengeDated h value (record : challengeRecord) : Prop :=
  ∃ issuedAt, issuedAs h value record issuedAt ∧
    record.(challengeRecord_expiresAt) = Time_Add issuedAt core.(Core_challengeTTL).
Definition grantDated h token (record : grantRecord) : Prop :=
  ∃ v, v ∈ granted h ∧ v.(Verified_token) = token ∧
    record = mkGrantRecord (bindingOf v) (Time_Add v.(Verified_now) core.(Core_grantTTL)).

Definition dated (w : world auth_answer AuthWorld) : Prop :=
  (∀ value record, w.1.(aw_core).(challenges) !! value = Some record → challengeDated w.2 value record) ∧
  (∀ value record, (value, record) ∈ answered w.2 → challengeDated w.2 value record) ∧
  (∀ token record, w.1.(aw_core).(grants) !! token = Some record → grantDated w.2 token record) ∧
  (∀ v, v ∈ granted w.2 → answersInTime w.2 v) ∧
  (∀ now request, (now, request) ∈ authorized w.2 → usesInTime w.2 now request).

Lemma omap_subset {B} (f : event auth_answer → option B) h h' : h ⊆ h' → omap f h ⊆ omap f h'.
Proof. intros Hs x (e & He & Hx)%list_elem_of_omap. apply list_elem_of_omap. eauto. Qed.

Lemma omap_snoc {B} (f : event auth_answer → option B) h e x : x ∈ omap f (h ++ [e]) → x ∈ omap f h ∨ f e = Some x.
Proof.
  rewrite omap_app, elem_of_app. intros [?|H]; [by left|right]. cbn in H. destruct (f e); [|by apply not_elem_of_nil in H].
  by apply list_elem_of_singleton in H as ->.
Qed.

Lemma challengeDated_later h h' value record : h ⊆ h' → challengeDated h value record → challengeDated h' value record.
Proof. intros Hs (t & [] & ?). exists t. repeat split; auto; by apply Hs. Qed.
Lemma grantDated_later h h' token record : h ⊆ h' → grantDated h token record → grantDated h' token record.
Proof. intros Hs (v & Hv & ?). exists v. split; [|done]. by eapply omap_subset. Qed.
Lemma answersInTime_later h h' v : h ⊆ h' → answersInTime h v → answersInTime h' v.
Proof. intros Hs (c & r & t & ? & [] & ? & ? & ?). exists c, r, t. split_and!; [done|split; by apply Hs|done|by apply Hs|done]. Qed.
Lemma usesInTime_later h h' now request : h ⊆ h' → usesInTime h now request → usesInTime h' now request.
Proof. intros Hs (v & Hv & ? & ? & ? & ?). exists v. split_and!; [by eapply omap_subset|done..|by apply Hs|done]. Qed.

Lemma dated_more s h e s' (h' := h ++ [e]) :
  dated (s, h) →
  (∀ value record, s'.(aw_core).(challenges) !! value = Some record →
     s.(aw_core).(challenges) !! value = Some record ∨ challengeDated h' value record) →
  (∀ value record, answered1 e = Some (value, record) → s.(aw_core).(challenges) !! value = Some record) →
  (∀ token record, s'.(aw_core).(grants) !! token = Some record →
     s.(aw_core).(grants) !! token = Some record ∨ grantDated h' token record) →
  (∀ v, granted1 e = Some v → answersInTime h' v) →
  (∀ now request, authorized1 e = Some (now, request) → usesInTime h' now request) →
  dated (s', h').
Proof.
  intros (H1 & H2 & H3 & H4 & H5) N1 N2 N3 N4 N5. assert (h ⊆ h') as Hs by set_solver.
  split_and!; cbn [fst snd] in *.
  - intros value record [H|?]%N1; [|done]. by eapply challengeDated_later, H1.
  - intros value record [H|H]%omap_snoc; eapply challengeDated_later; [exact Hs|by apply H2|exact Hs|by apply H1, N2].
  - intros token record [H|?]%N3; [|done]. by eapply grantDated_later, H3.
  - intros v [H|H]%omap_snoc; [by eapply answersInTime_later, H4|by apply N4].
  - intros now request [H|H]%omap_snoc; [by eapply usesInTime_later, H5|by apply N5].
Qed.

Lemma dated_quiet s h e s' :
  dated (s, h) → s'.(aw_core).(challenges) ⊆ s.(aw_core).(challenges) → s'.(aw_core).(grants) ⊆ s.(aw_core).(grants) →
  answered1 e = None → granted1 e = None → authorized1 e = None → dated (s', h ++ [e]).
Proof.
  intros Hd Hc Hg E1 E2 E3. apply (dated_more s); [exact Hd|..]; [..|by rewrite E2|by rewrite E3].
  - intros value record H. left. by eapply lookup_weaken.
  - by rewrite E1.
  - intros token record H. left. by eapply lookup_weaken.
Qed.

(** What a thread has read and taken before it calls. *)
Definition inTime (past : history auth_answer) (c : auth_call) : Prop :=
  match c with
  | SectionIssue now _ record =>
      clockRead past now ∧ record.(challengeRecord_expiresAt) = Time_Add now core.(Core_challengeTTL)
  | SectionGrant v => ∃ clientData record,
      parseClientData v.(Verified_assertion).(Assertion_ClientDataJSON) = Ok clientData ∧
      (clientData.(collectedClientData_Challenge), record) ∈ answered past ∧ recordScope record = scopeOf v ∧
      clockRead past v.(Verified_now) ∧ (v.(Verified_now) < record.(challengeRecord_expiresAt))%Z
  | SectionAuthorize now _ => clockRead past now
  | _ => True
  end.

Lemma dated_serves s h past e s' :
  dated (s, h) → past ⊆ h → inTime past (projT1 e) → auth_serves core s e s' → dated (s', h ++ [e]).
Proof.
  intros Hd Hpast Hok Hs. assert (h ⊆ h ++ [e]) as Hh by set_solver. destruct Hs; cbn [projT1 inTime] in Hok.
  all: try by apply (dated_quiet s).
  - apply store_sections in H as [E1 E2]. apply (dated_quiet s); [done|cbn; by rewrite ?E1, ?E2..|done|done|done].
  - unfold issueSection in H. set (kept := pruneChallengesLocked now (aw_core s)) in H.
    assert (kept.(challenges) ⊆ s.(aw_core).(challenges)) as Hk by apply map_filter_subseteq.
    destruct (_ <=? _)%Z; [injection H as <- <-; by apply (dated_quiet s)|].
    destruct (is_Some_b _); [injection H as <- <-; by apply (dated_quiet s)|]. injection H as <- <-.
    apply (dated_more s); [exact Hd| |done|by left|done|done]. cbn.
    intros value' record' [[<- <-]|[_ H]]%lookup_insert_Some; [right|left; by eapply lookup_weaken].
    destruct Hok as [Hread Hexp]. exists now. split; [split; [by apply Hh, Hpast|set_solver]|done].
  - injection H as <- <-. apply (dated_more s); [exact Hd| | |by left|done|done]; cbn.
    + intros value' record' H. left. by eapply lookup_weaken, delete_subseteq.
    + intros value' record' H. case_match; [|done]. by simplify_eq.
  - apply grant_cases in H as [(cred & -> & _ & _ & _ & _ & _ & _ & Ec & _ & Eg & _)|(Hr & _ & _ & Ec & Hsub & _)].
    2: { apply (dated_quiet s); [done|cbn; by rewrite Ec|done|done|by destruct r|done]. }
    apply (dated_more s); [exact Hd|cbn; rewrite Ec; by left|done|..|done].
    + cbn. rewrite Eg. intros token record [[<- <-]|[_ H]]%lookup_insert_Some.
      * right. exists v. split; [|done]. unfold granted. rewrite omap_app. set_solver.
      * left. eapply lookup_weaken; [exact H|apply map_filter_subseteq].
    + intros v' [= <-]. destruct Hok as (clientData & record & Hp & Hin & Hscope & Hread & Hlt).
      destruct Hd as (_ & Htaken & _). cbn [fst snd] in Htaken.
      destruct (Htaken _ _ (omap_subset _ _ _ Hpast _ Hin)) as (issuedAt & [Hr Hi] & Hexp).
      exists clientData, record, issuedAt. split_and!; [done|split; by apply Hh|done|by apply Hh, Hpast|].
      rewrite Hexp in Hlt. exact Hlt.
  - assert (challenges c = challenges (aw_core s) ∧ grants c ⊆ grants (aw_core s) ∧
      r = grants (aw_core s) !! AuthMutation_GrantToken request) as (Ec & Eg & Er).
    { unfold authorizeSection in H. repeat case_match; simplify_eq; split_and!; try done. apply delete_subseteq. }
    apply (dated_more s); [exact Hd|cbn; rewrite Ec; by left|done|..|done|].
    + cbn. intros token record H1. left. by eapply lookup_weaken.
    + cbn. intros now' request' Hr. case_match eqn:E; [|done]. injection Hr as <- <-.
      unfold decideGrant in E. destruct r as [g|]; [|done]. symmetry in Er.
      destruct Hd as (_ & _ & Hg & _). cbn [fst snd] in Hg. destruct (Hg _ _ Er) as (v & Hv & Htoken & ->).
      cbn in E. destruct (Time_Before now _) eqn:Eb; [|done]. cbn in E.
      destruct (bool_decide_reflect (bindingOf v = request.(AuthMutation_Binding))); [|done].
      exists v. split_and!; [by eapply omap_subset|done|done|by apply Hh, Hpast|]. unfold Time_Before in Eb. by apply Z.ltb_lt in Eb.
Qed.

(** ** What the threads do *)

Lemma plain_inTime {A} (p : proc auth_answer A) past (Q : history auth_answer → A → Prop) :
  only plain p → only (λ c, match c with SectionIssue _ _ _ => False | _ => True end) p →
  (∀ past' a, past `prefix_of` past' → Q past' a) → ensures inTime p past Q.
Proof.
  intros Hp Hq. specialize (Hp past). specialize (Hq past). revert past Hp Hq.
  induction p as [a|c k IH]; intros past; cbn; [by auto|].
  intros [Hc Hk] [Hc' Hk'] HQ. split; [by destruct c|]. intros r. apply IH; [apply Hk|apply Hk'|].
  intros past' a Hp. apply HQ. etrans; [by apply prefix_app_r|exact Hp].
Qed.

Lemma randomToken_inTime prefix past :
  ensures inTime (randomToken core prefix) past (λ past' _, past `prefix_of` past').
Proof. apply plain_inTime; [unfold randomToken; by walk..|done]. Qed.

Lemma IssueChallenge_inTime binding rpID : ensures inTime (IssueChallenge core binding rpID) [] (λ _ _, True).
Proof.
  unfold IssueChallenge. apply ensures_go_bind. destruct (fail_if _ _); cbn [lift ensures]; [|done..].
  apply ensures_go_bind. destruct (fail_if _ _); cbn [lift ensures]; [|done..].
  apply ensures_go_bind. eapply ensures_mono; [apply randomToken_inTime|]. intros past [value|e|] _ _; [|done..].
  apply ensures_go_bind; ensures_call; [done|]. intros now.
  apply ensures_go_bind; ensures_call; [split; [unfold clockRead; set_solver|done]|]. intros r. cbn in r.
  apply ensures_go_bind. by destruct r.
Qed.

Lemma assertAndRegister_inTime a : ensures inTime (assertAndRegister core a) [] (λ _ _, True).
Proof.
  unfold assertAndRegister, VerifyAssertion. apply ensures_go_bind, ensures_go_bind. cbn [lift].
  destruct (parseClientData _) as [clientData|e|] eqn:Ep; cbn [ensures]; [|done..].
  apply ensures_go_bind; ensures_call; [done|]. intros now. cbn in now.
  apply ensures_go_bind; ensures_call; [done|]. intros challenge. cbn in challenge.
  apply ensures_go_bind. destruct (checkAssertion _ _ _ _ _) as [signCount|e|] eqn:Ec; cbn [lift ensures]; [|done..].
  apply checkAssertion_inv in Ec as (record & origins & -> & Hlt & _ & Hscope & _).
  set (past := _ ++ _). assert (clockRead past now) as Hread by (unfold clockRead, past; set_solver).
  assert ((collectedClientData_Challenge clientData, record) ∈ answered past) as Hin by (unfold past; cbn; set_solver).
  clearbody past.
  apply ensures_go_bind; ensures_call; [done|]. intros credential. set (past1 := past ++ _).
  apply ensures_go_bind. destruct (checkSignature _ _) as [cred|e|]; cbn [lift ensures]; [|done..].
  apply ensures_go_bind. eapply ensures_mono; [apply randomToken_inTime|].
  intros past2 [token|e|] _ Hp; [|done..].
  assert (past ⊆ past2) as Hsub by (destruct Hp as [rest ->]; unfold past1; set_solver).
  apply ensures_go_bind; ensures_call.
  { exists clientData, record. split_and!; [done|by eapply omap_subset|done|by apply Hsub|done]. }
  intros r. cbn in r. destruct r as [grant|e|]; cbn [lift ensures]; [|done..].
  apply ensures_go_bind. unfold transport_register. ensures_call; [done|]. by intros r.
Qed.

Lemma transport_authorize_inTime token binding : ensures inTime (transport_authorize token binding) [] (λ _ _, True).
Proof.
  unfold transport_authorize. apply ensures_go_bind; ensures_call; [done|]. intros registered. cbn in registered.
  apply ensures_go_bind. destruct (fail_if _ _); cbn [lift ensures]; [|done..].
  apply ensures_go_bind. unfold Core_AuthorizeMutation. cbn [negb AuthMutation_RequireRecentPasskey].
  destruct (_ || _); [done|]. apply ensures_go_bind; ensures_call; [done|]. intros now. cbn in now.
  apply ensures_go_bind; ensures_call; [unfold inTime, clockRead; set_solver|]. intros grant. cbn. by repeat case_match.
Qed.

Lemma running_dated w ts : running (auth_setting core) w ts → dated w.
Proof.
  apply (running_local (auth_setting core) dated inTime).
  - intros s [c file [E1 E2]%load_fresh]. unfold dated. cbn [fst snd aw_core]. rewrite E1, E2.
    split_and!; intros *; set_solver.
  - intros s h past c r s' Hd Hp Hok Hs. by eapply dated_serves.
  - intros s h s' (H1 & H2 & H3 & H4) [[]|[c [E1 E2]%load_fresh]]; [exact (conj H1 (conj H2 (conj H3 H4)))..|].
    unfold dated. cbn [fst snd aw_core]. rewrite E1, E2. split_and!; [|exact H2| |apply H4..]; intros *; set_solver.
  - intros p Hp. destruct Hp; apply ensures_bind.
    + apply plain_inTime; [unfold Core_RegisterCredential; by walk..|done].
    + eapply ensures_mono; [apply IssueChallenge_inTime|done].
    + eapply ensures_mono; [apply assertAndRegister_inTime|done].
    + eapply ensures_mono; [apply transport_authorize_inTime|done].
Qed.

(** * The claim *)

(** C19: Authorisations are never more than was asked for and proved, and each is in
    time. In every reachable state of the daemon, through any interleaving, expiry,
    eviction or crash: each mutation that was authorised has a verified assertion of
    its own, for exactly its thread, project, device and actor, and each verified
    assertion has a challenge of its own that was issued for the same binding and
    relying party; nothing is used twice. The grant a mutation names was issued for
    a verified assertion of its binding, less than the lifetime of a grant before the
    reading of the clock the mutation was decided at; and the assertion answers a
    challenge of its binding and relying party that was issued less than the lifetime
    of a challenge before the reading of the clock the assertion was checked at. *)
Theorem authorizations_are_earned w ts :
  running (auth_setting core) w ts →
  allowed w.2 ⊆+ bindingOf <$> granted w.2 ∧ scopeOf <$> granted w.2 ⊆+ issued w.2 ∧
  (∀ now request, (now, request) ∈ authorized w.2 → usesInTime w.2 now request) ∧
  (∀ v, v ∈ granted w.2 → answersInTime w.2 v).
Proof.
  intros Hrun. pose proof (running_log _ _ _ Hrun) as Hlog. pose proof (running_settled _ _ _ Hrun) as Ht.
  destruct (running_accounted _ _ _ Hrun) as [Hc Hb].
  assert (∀ B (f : event auth_answer → option B), omap f w.2 ≡ₚ concat ((λ t, omap f t.(st_past)) <$> ts)) as Hsum.
  { intros B f. rewrite Hlog. by rewrite omap_pasts. }
  assert (allowed w.2 ⊆+ released w.2) as H1.
  { unfold allowed, released. rewrite !Hsum. apply submseteq_concat. eapply Forall_impl; [exact Ht|]. by intros t [H _]. }
  assert (handed w.2 ⊆+ bindingOf <$> granted w.2) as H2.
  { unfold handed, granted. rewrite fmap_omap, !Hsum. apply submseteq_concat. eapply Forall_impl; [exact Ht|].
    intros t (_ & H & _). unfold handed, granted in H. by rewrite fmap_omap in H. }
  assert (scopeOf <$> granted w.2 ⊆+ taken w.2) as H3.
  { unfold taken, granted. rewrite fmap_omap, !Hsum. apply submseteq_concat. eapply Forall_impl; [exact Ht|].
    intros t (_ & _ & H). unfold taken, granted in H. by rewrite fmap_omap in H. }
  destruct (running_dated _ _ Hrun) as (_ & _ & _ & Hd). split_and!; [..|apply Hd|apply Hd].
  - etrans; [exact H1|]. etrans; [|exact H2]. etrans; [|exact Hb]. by apply submseteq_inserts_r.
  - etrans; [exact H3|]. etrans; [|exact Hc]. by apply submseteq_inserts_r.
Qed.

End log.

#[local] Existing Instance sample_auth.

Lemma authorizations_are_earned_witness :
  length (authorized sampleAuthorized.1.2) = 1 ∧
  allowed sampleAuthorized.1.2 ⊆+ bindingOf <$> granted sampleAuthorized.1.2 ∧
  scopeOf <$> granted sampleAuthorized.1.2 ⊆+ issued sampleAuthorized.1.2 ∧
  (∀ now request, (now, request) ∈ authorized sampleAuthorized.1.2 →
     usesInTime sampleCore sampleAuthorized.1.2 now request) ∧
  (∀ v, v ∈ granted sampleAuthorized.1.2 → answersInTime sampleCore sampleAuthorized.1.2 v).
Proof.
  split; [vm_compute; reflexivity|]. apply (authorizations_are_earned sampleCore _ sampleAuthorized.2), sampleAuthorized_running.
Defined.
