(* ===== verification/RelayStore.v ===== *)
(** The relay of the remote control: the envelopes it exchanges with a daemon, the tables
    and operations of its store (internal/agorelay/store.go), and a run on concrete inputs. *)
From S2P Require Import Prelude Sql.

(** What a relay and the bridge of a daemon exchange (the envelopes of
    internal/agobridge/client.go), and the encodings both use. *)

Record ResponseError : Type := mkResponseError { ResponseError_Code : string; ResponseError_Message : string }.
#[export] Instance ResponseError_eq_dec : EqDecision ResponseError.
Proof. solve_decision. Defined.

Record RequestEnvelope : Type := mkRequestEnvelope {
  RequestEnvelope_Sequence : Z; RequestEnvelope_Nonce : string; RequestEnvelope_AccountID : string;
  RequestEnvelope_DeviceID : string; RequestEnvelope_ProjectID : string; RequestEnvelope_ThreadID : string;
  RequestEnvelope_Action : string; RequestEnvelope_AuthorizationToken : string; RequestEnvelope_Payload : string;
}.
#[export] Instance RequestEnvelope_eta : Eta RequestEnvelope := λ r, mkRequestEnvelope
  (r.(RequestEnvelope_Sequence)) (r.(RequestEnvelope_Nonce)) (r.(RequestEnvelope_AccountID))
  (r.(RequestEnvelope_DeviceID)) (r.(RequestEnvelope_ProjectID)) (r.(RequestEnvelope_ThreadID))
  (r.(RequestEnvelope_Action)) (r.(RequestEnvelope_AuthorizationToken)) (r.(RequestEnvelope_Payload)).
#[export] Instance RequestEnvelope_eq_dec : EqDecision RequestEnvelope.
Proof. solve_decision. Defined.

Record ResponseEnvelope : Type := mkResponseEnvelope {
  ResponseEnvelope_Sequence : Z; ResponseEnvelope_Nonce : string; ResponseEnvelope_AccountID : string;
  ResponseEnvelope_DeviceID : string; ResponseEnvelope_Payload : string;
  ResponseEnvelope_Error : option ResponseError;
}.
#[export] Instance ResponseEnvelope_eq_dec : EqDecision ResponseEnvelope.
Proof. solve_decision. Defined.

Record PollEnvelope : Type := mkPollEnvelope {
  PollEnvelope_AccountID : string; PollEnvelope_DeviceID : string; PollEnvelope_Cursor : Z;
  PollEnvelope_Responses : list ResponseEnvelope;
}.
#[export] Instance PollEnvelope_eta : Eta PollEnvelope := λ r, mkPollEnvelope (r.(PollEnvelope_AccountID))
  (r.(PollEnvelope_DeviceID)) (r.(PollEnvelope_Cursor)) (r.(PollEnvelope_Responses)).
#[export] Instance PollEnvelope_eq_dec : EqDecision PollEnvelope.
Proof. solve_decision. Defined.

Record PollResult : Type := mkPollResult {
  PollResult_AccountID : string; PollResult_DeviceID : string; PollResult_AcknowledgedThrough : Z;
  PollResult_Requests : list RequestEnvelope;
}.

Record EnqueueRequest : Type := mkEnqueueRequest {
  EnqueueRequest_Nonce : string; EnqueueRequest_ProjectID : string; EnqueueRequest_ThreadID : string;
  EnqueueRequest_Action : string; EnqueueRequest_AuthorizationToken : string; EnqueueRequest_Payload : string;
}.

(** What the relay and the bridge take from elsewhere: [json.Valid], the JSON of a
    response, of a poll and of a list of projects, the form in which a raw message is
    written as a part of other JSON, and the hexadecimal SHA-256 of bytes and of the
    JSON of a request. *)
Class RemoteEnv : Type := {
  remote_json_Valid : string → bool;
  json_compact : string → string;
  marshalResponse : ResponseEnvelope → result string;
  unmarshalResponse : string → option ResponseEnvelope;
  marshalPoll : PollEnvelope → result string;
  marshalProjects : list string → string;
  unmarshalProjects : string → option (list string);
  hexDigest : string → string;
  requestDigest : RequestEnvelope → string;
  enqueueDigest : EnqueueRequest → string;
}.

(** [strings.ContainsAny] for the bytes 0, 13 and 10. *)
Definition controlBytes : list Ascii.ascii := bytes [0; 13; 10].
Definition containsControl (value : string) : bool :=
  existsb (λ c, existsb (Ascii.eqb c) controlBytes) (String.list_ascii_of_string value).

(** [validIdentity] of the bridge; [validID] of the relay is the same with 512. *)
Definition validIdentity (value : string) (max : Z) : bool :=
  (value != "") && (Z.of_nat (String.length value) <=? max)%Z && (strings_TrimSpace value == value) &&
  negb (containsControl value).

Definition len (s : string) : Z := Z.of_nat (String.length s).

(** A response as it is read back from JSON it was written to. *)
Definition writtenResponse {remote : RemoteEnv} (response : ResponseEnvelope) : ResponseEnvelope :=
  mkResponseEnvelope response.(ResponseEnvelope_Sequence) response.(ResponseEnvelope_Nonce)
    response.(ResponseEnvelope_AccountID) response.(ResponseEnvelope_DeviceID)
    (json_compact response.(ResponseEnvelope_Payload)) response.(ResponseEnvelope_Error).
Definition writtenPoll {remote : RemoteEnv} (poll : PollEnvelope) : PollEnvelope :=
  poll <| PollEnvelope_Responses := writtenResponse <$> poll.(PollEnvelope_Responses) |>.

(** The relay (internal/agorelay/store.go): its tables, and the operations of its store,
    each a transaction under one mutex. *)

Definition RoleDaemon : string := "daemon".
Definition RoleBrowser : string := "browser".
Definition ActionProjection : string := "thread.projection".
Definition ActionSubmit : string := "thread.submit".
Definition ActionArchive : string := "thread.archive".
Definition ActionAuthChallenge : string := "auth.challenge".
Definition ActionAuthAssertion : string := "auth.assertion".
Definition maxStoredPayloadBytes : Z := 524288%Z.

Definition ErrUnauthorized : error := ErrNew "agorelay: unauthorized".
Definition ErrConflict : error := ErrNew "agorelay: conflict".
Definition ErrInvalid : error := ErrNew "agorelay: invalid request".
Definition ErrNotFound : error := ErrNew "agorelay: not found".

(** * Data *)

Record RelayCredential : Type := mkRelayCredential {
  RelayCredential_AccountID : string; RelayCredential_DeviceID : string; RelayCredential_Role : string;
  RelayCredential_Generation : Z; RelayCredential_Token : string; RelayCredential_Projects : list string;
}.

Record Principal : Type := mkPrincipal {
  Principal_AccountID : string; Principal_DeviceID : string; Principal_Role : string;
  Principal_Generation : Z; Principal_Projects : gset string;
}.

Record EnqueueResult : Type := mkEnqueueResult { EnqueueResult_Sequence : Z; EnqueueResult_Nonce : string }.

Record RelayResult : Type := mkRelayResult {
  RelayResult_Sequence : Z; RelayResult_Pending : bool; RelayResult_Response : option ResponseEnvelope;
}.

(** * Tables *)

Record RelayCredentialRow : Type := mkRelayCredentialRow {
  rc_token_hash : string; rc_projects_json : string; rc_active : bool;
}.
#[export] Instance RelayCredentialRow_eta : Eta RelayCredentialRow := λ r, mkRelayCredentialRow
  (r.(rc_token_hash)) (r.(rc_projects_json)) (r.(rc_active)).

Record RelayRequestRow : Type := mkRelayRequestRow {
  rr_nonce : string; rr_project_id : string; rr_thread_id : string; rr_action : string;
  rr_authorization_token : string; rr_payload : string; rr_request_digest : string;
  rr_response_json : option string;
}.
#[export] Instance RelayRequestRow_eta : Eta RelayRequestRow := λ r, mkRelayRequestRow (r.(rr_nonce))
  (r.(rr_project_id)) (r.(rr_thread_id)) (r.(rr_action)) (r.(rr_authorization_token)) (r.(rr_payload))
  (r.(rr_request_digest)) (r.(rr_response_json)).

(** An account and a device. *)
Definition Device : Type := string * string.

Record RelayDB : Type := mkRelayDB {
  relay_credentials : gmap (Device * string * Z) RelayCredentialRow;
  device_state : gmap Device Z;
  sequence_counters : gmap Device Z;
  requests : gmap (Device * Z) RelayRequestRow;
}.
#[export] Instance RelayDB_eta : Eta RelayDB := λ r, mkRelayDB (r.(relay_credentials)) (r.(device_state))
  (r.(sequence_counters)) (r.(requests)).
Definition RelayDB_empty : RelayDB := mkRelayDB ∅ ∅ ∅ ∅.

Definition deviceOf (principal : Principal) : Device := (principal.(Principal_AccountID), principal.(Principal_DeviceID)).

(** The keys of a table that satisfy a condition, with their rows. *)
Definition rowsWhere {K A} `{Countable K} (P : K * A → bool) (table : gmap K A) : list (K * A) :=
  List.filter P (map_to_list table).

Section store.
Context {remote : RemoteEnv}.

Definition validID (value : string) : bool := validIdentity value 512.

Definition tokenHash (token : string) : string := hexDigest ("agorelay-token-v1" +:+ String Ascii.zero "" +:+ token).

(** * Credentials *)

Definition checkProject (seen : gset string) (project : string) : result (gset string) :=
  fail_if (negb (validID project)) ErrInvalid ;;
  fail_if (bool_decide (project ∈ seen)) ErrInvalid ;;
  Ok ({[ project ]} ∪ seen).

(** The generations on record for a device and a role: the keys that MAX ranges over. *)
Definition generationsOf (device : Device) (role : string) (db : RelayDB) : list Z :=
  (λ kv, kv.1.2) <$> rowsWhere (λ kv, bool_decide (kv.1.1 = (device, role))) db.(relay_credentials).
Definition maxGeneration (device : Device) (role : string) (db : RelayDB) : option Z :=
  match generationsOf device role db with [] => None | g :: gs => Some (foldr Z.max g gs) end.

Definition insertRelayCredential (key : Device * string * Z) (row : RelayCredentialRow) (db : RelayDB) : result RelayDB :=
  checkConstraint (negb (is_Some_b (db.(relay_credentials) !! key))) "credentials" ;;
  checkConstraint (negb (existsb (λ kv, kv.2.(rc_token_hash) == row.(rc_token_hash)) (map_to_list db.(relay_credentials))))
    "credentials.token_hash" ;;
  Ok (db <| relay_credentials := <[key := row]> db.(relay_credentials) |>).

(** [UPDATE credentials SET active=0] *)
Definition deactivate (device : Device) (role : string) (db : RelayDB) : RelayDB :=
  db <| relay_credentials := map_imap (λ k row,
    Some (if bool_decide (k.1 = (device, role)) then row <| rc_active := false |> else row)) db.(relay_credentials) |>.

Definition RotateCredential (credential : RelayCredential) : RelayDB → RelayDB * result unit := transact (λ db,
  fail_if (negb (validID credential.(RelayCredential_AccountID)) || negb (validID credential.(RelayCredential_DeviceID)) ||
    ((credential.(RelayCredential_Role) != RoleDaemon) && (credential.(RelayCredential_Role) != RoleBrowser)) ||
    (credential.(RelayCredential_Generation) =? 0)%Z || (len credential.(RelayCredential_Token) <? 3)%Z ||
    (8192 <? len credential.(RelayCredential_Token))%Z || (length credential.(RelayCredential_Projects) =? 0)) ErrInvalid ;;
  for_each checkProject ∅ credential.(RelayCredential_Projects) ;;
  let projectsJSON := marshalProjects credential.(RelayCredential_Projects) in
  let hash := tokenHash credential.(RelayCredential_Token) in
  let device := (credential.(RelayCredential_AccountID), credential.(RelayCredential_DeviceID)) in
  let role := credential.(RelayCredential_Role) in
  let generation := credential.(RelayCredential_Generation) in
  let rotate :=
    let db := deactivate device role db in
    bindUint64 generation ;;
    db ← insertRelayCredential (device, role, generation) (mkRelayCredentialRow hash projectsJSON true) db;
    Ok (db, tt) in
  match maxGeneration device role db with
  | Some current =>
      if (generation <=? u64 current)%Z then
        fail_if (negb (generation =? u64 current)%Z) ErrConflict ;;
        match (bindUint64 generation ;; non_nil (db.(relay_credentials) !! (device, role, generation)) ErrConflict) with
        | Ok row =>
            fail_if (negb row.(rc_active) || (row.(rc_token_hash) != hash) || (row.(rc_projects_json) != projectsJSON))
              ErrConflict ;;
            uncommitted db tt
        | _ => Err ErrConflict
        end
      else rotate
  | None => rotate
  end).

(** The active credential with the hash of the token; hashes are unique. *)
Definition Authenticate (token role : string) (db : RelayDB) : result Principal :=
  fail_if ((token == "") || ((role != RoleDaemon) && (role != RoleBrowser))) ErrUnauthorized ;;
  match rowsWhere (λ kv, (kv.2.(rc_token_hash) == tokenHash token) && (kv.1.1.2 == role) && kv.2.(rc_active))
          db.(relay_credentials) with
  | [] => Err ErrUnauthorized
  | (device, role, generation, row) :: _ =>
      projects ← non_nil (unmarshalProjects row.(rc_projects_json)) (ErrNew "agorelay: corrupt credential projects");
      fail_if (negb (forallb validID projects)) (ErrNew "agorelay: corrupt credential project") ;;
      Ok (mkPrincipal device.1 device.2 role generation (list_to_set projects))
  end.

(** * Requests *)

Definition validEnqueue (request : EnqueueRequest) : bool :=
  if negb (validID request.(EnqueueRequest_Nonce)) || negb (validID request.(EnqueueRequest_ProjectID)) ||
     negb (validID request.(EnqueueRequest_ThreadID)) || (8192 <? len request.(EnqueueRequest_AuthorizationToken))%Z ||
     (len request.(EnqueueRequest_Payload) =? 0)%Z || (maxStoredPayloadBytes <? len request.(EnqueueRequest_Payload))%Z ||
     negb (remote_json_Valid request.(EnqueueRequest_Payload))
  then false
  else (request.(EnqueueRequest_Action) == ActionProjection) || (request.(EnqueueRequest_Action) == ActionSubmit) ||
    (request.(EnqueueRequest_Action) == ActionArchive) || (request.(EnqueueRequest_Action) == ActionAuthChallenge) ||
    (request.(EnqueueRequest_Action) == ActionAuthAssertion).

(** The request of a device under a nonce; nonces are unique per device. *)
Definition requestByNonce (device : Device) (nonce : string) (db : RelayDB) : option (Z * RelayRequestRow) :=
  match rowsWhere (λ kv, bool_decide (kv.1.1 = device) && (kv.2.(rr_nonce) == nonce)) db.(requests) with
  | (_, sequence, row) :: _ => Some (sequence, row)
  | [] => None
  end.

(** [INSERT ... ON CONFLICT DO UPDATE SET last_sequence=last_sequence+1 RETURNING]: an
    integer of SQLite that overflows is no longer an integer. *)
Definition nextSequence (device : Device) (db : RelayDB) : result (RelayDB * Z) :=
  let sequence := match db.(sequence_counters) !! device with Some last => (last + 1)%Z | None => 1%Z end in
  fail_if (two64 / 2 <=? sequence)%Z (Errorf "sql: Scan error: %s" [AStr "last_sequence"]) ;;
  Ok (db <| sequence_counters := <[device := sequence]> db.(sequence_counters) |>, sequence).

Definition insertRequest (device : Device) (sequence : Z) (row : RelayRequestRow) (db : RelayDB) : result RelayDB :=
  bindUint64 sequence ;;
  checkConstraint (negb (is_Some_b (db.(requests) !! (device, sequence)))) "requests" ;;
  checkConstraint (negb (is_Some_b (requestByNonce device row.(rr_nonce) db))) "requests.nonce" ;;
  Ok (db <| requests := <[(device, sequence) := row]> db.(requests) |>).

(** [INSERT INTO device_state ... VALUES(?,?,0) ON CONFLICT DO NOTHING] *)
Definition ensureDevice (device : Device) (db : RelayDB) : RelayDB :=
  match db.(device_state) !! device with
  | Some _ => db
  | None => db <| device_state := <[device := 0%Z]> db.(device_state) |>
  end.

Definition Enqueue (principal : Principal) (request : EnqueueRequest) : RelayDB → RelayDB * result EnqueueResult :=
  transact (λ db,
  fail_if ((principal.(Principal_Role) != RoleBrowser) || negb (validEnqueue request)) ErrInvalid ;;
  fail_if (negb (bool_decide (request.(EnqueueRequest_ProjectID) ∈ principal.(Principal_Projects)))) ErrUnauthorized ;;
  let digest := enqueueDigest request in
  let device := deviceOf principal in
  match requestByNonce device request.(EnqueueRequest_Nonce) db with
  | Some (existingSequence, existing) =>
      fail_if (existing.(rr_request_digest) != digest) ErrConflict ;;
      uncommitted db (mkEnqueueResult existingSequence request.(EnqueueRequest_Nonce))
  | None =>
      '(db, sequence) ← nextSequence device db;
      db ← insertRequest device sequence (mkRelayRequestRow request.(EnqueueRequest_Nonce)
             request.(EnqueueRequest_ProjectID) request.(EnqueueRequest_ThreadID) request.(EnqueueRequest_Action)
             request.(EnqueueRequest_AuthorizationToken) request.(EnqueueRequest_Payload) digest None) db;
      Ok (ensureDevice device db, mkEnqueueResult sequence request.(EnqueueRequest_Nonce))
  end).

Definition requestOf (device : Device) (sequence : Z) (row : RelayRequestRow) : RequestEnvelope :=
  mkRequestEnvelope sequence row.(rr_nonce) device.1 device.2 row.(rr_project_id) row.(rr_thread_id)
    row.(rr_action) row.(rr_authorization_token) row.(rr_payload).

(** The part of [Poll] that records a response: the cursor it leaves. *)
Definition acceptResponse (device : Device) (poll : PollEnvelope) (response : ResponseEnvelope) (cursor : Z) (db : RelayDB)
    : result (RelayDB * Z) :=
  fail_if ((response.(ResponseEnvelope_AccountID) != device.1) || (response.(ResponseEnvelope_DeviceID) != device.2) ||
    negb (response.(ResponseEnvelope_Sequence) =? poll.(PollEnvelope_Cursor))%Z ||
    (negb (poll.(PollEnvelope_Cursor) =? cursor)%Z && negb (poll.(PollEnvelope_Cursor) =? u64 (cursor + 1))%Z)) ErrConflict ;;
  bindUint64 response.(ResponseEnvelope_Sequence) ;;
  row ← non_nil (db.(requests) !! (device, response.(ResponseEnvelope_Sequence))) ErrConflict;
  fail_if ((row.(rr_nonce) != response.(ResponseEnvelope_Nonce)) ||
    ((0 <? len response.(ResponseEnvelope_Payload))%Z && negb (remote_json_Valid response.(ResponseEnvelope_Payload)))) ErrConflict ;;
  encoded ← wrap_err (λ _, ErrInvalid) (marshalResponse response);
  match row.(rr_response_json) with
  | Some existing => fail_if (existing != encoded) ErrConflict ;; Ok (db, cursor)
  | None =>
      fail_if (negb (response.(ResponseEnvelope_Sequence) =? u64 (cursor + 1))%Z) ErrConflict ;;
      let sequence := response.(ResponseEnvelope_Sequence) in
      Ok (db <| requests := <[(device, sequence) := row <| rr_response_json := Some encoded |>]> db.(requests) |>
             <| device_state := <[device := sequence]> db.(device_state) |>, sequence)
  end.

Definition responseTooLarge (response : ResponseEnvelope) : bool :=
  match marshalResponse response with Ok encoded => (maxStoredPayloadBytes <? len encoded)%Z | _ => true end.

Definition Poll (principal : Principal) (poll : PollEnvelope) : RelayDB → RelayDB * result PollResult := transact (λ db,
  fail_if ((principal.(Principal_Role) != RoleDaemon) ||
    (poll.(PollEnvelope_AccountID) != principal.(Principal_AccountID)) ||
    (poll.(PollEnvelope_DeviceID) != principal.(Principal_DeviceID)) || (1 <? length poll.(PollEnvelope_Responses))) ErrUnauthorized ;;
  fail_if (existsb responseTooLarge poll.(PollEnvelope_Responses)) ErrInvalid ;;
  let device := deviceOf principal in
  let db := ensureDevice device db in
  cursor ← non_nil (db.(device_state) !! device) (ErrNew "sql: no rows in result set");
  '(db, cursor) ← match poll.(PollEnvelope_Responses) with
    | [] => fail_if (negb (poll.(PollEnvelope_Cursor) =? cursor)%Z) ErrConflict ;; Ok (db, cursor)
    | response :: _ => acceptResponse device poll response cursor db
    end;
  bindUint64 (u64 (cursor + 1)) ;;
  match db.(requests) !! (device, u64 (cursor + 1)) with
  | Some row =>
      fail_if (negb (bool_decide (row.(rr_project_id) ∈ principal.(Principal_Projects)))) ErrUnauthorized ;;
      Ok (db, mkPollResult device.1 device.2 cursor [requestOf device (u64 (cursor + 1)) row])
  | None => Ok (db, mkPollResult device.1 device.2 cursor [])
  end).

Definition Store_Result (principal : Principal) (sequence : Z) (db : RelayDB) : result RelayResult :=
  fail_if ((principal.(Principal_Role) != RoleBrowser) || (sequence =? 0)%Z) ErrUnauthorized ;;
  bindUint64 sequence ;;
  row ← non_nil (db.(requests) !! (deviceOf principal, sequence)) ErrNotFound;
  fail_if (negb (bool_decide (row.(rr_project_id) ∈ principal.(Principal_Projects)))) ErrUnauthorized ;;
  match row.(rr_response_json) with
  | None => Ok (mkRelayResult sequence true None)
  | Some encoded =>
      response ← non_nil (unmarshalResponse encoded) (ErrNew "agorelay: corrupt response");
      Ok (mkRelayResult sequence false (Some response))
  end.

End store.

(** The relay on concrete inputs: a laptop whose daemon has one project and whose
    browser has two, and a request for each of them. *)

(** Digests are the content itself, of a request padded to their length; JSON is plain
    text. *)
Definition padded (s : string) : string := String.substring 0 64 (s +:+ String.concat "" (replicate 64 "0")).
#[local] Instance sample_remote : RemoteEnv := {|
  remote_json_Valid := λ s, s != "{";
  json_compact := λ s, s;
  marshalResponse := λ r, Ok (r.(ResponseEnvelope_Nonce) +:+ "|" +:+ r.(ResponseEnvelope_Payload));
  unmarshalResponse := λ s, Some (mkResponseEnvelope 1 "n1" "alice" "laptop" s None);
  marshalPoll := λ p, Ok (p.(PollEnvelope_DeviceID));
  marshalProjects := String.concat ",";
  unmarshalProjects := λ s, Some (if s == "p,q" then ["p"; "q"] else [s]);
  hexDigest := λ s, s;
  requestDigest := λ r, padded (if r.(RequestEnvelope_Payload) == "{}" then "a" else "b");
  enqueueDigest := λ r, r.(EnqueueRequest_Nonce) +:+ "|" +:+ r.(EnqueueRequest_Payload);
|}.

Definition daemonCredential : RelayCredential := mkRelayCredential "alice" "laptop" RoleDaemon 1 "daemon-token" ["p"].
Definition browserCredential : RelayCredential := mkRelayCredential "alice" "laptop" RoleBrowser 1 "browser-token" ["p"; "q"].
Definition laptopDaemon : Principal := mkPrincipal "alice" "laptop" RoleDaemon 1 {[ "p" ]}.
Definition laptopBrowser : Principal := mkPrincipal "alice" "laptop" RoleBrowser 1 {[ "p"; "q" ]}.
Definition laptop : Device := ("alice", "laptop").

Definition firstRequest : EnqueueRequest := mkEnqueueRequest "n1" "p" "T1" ActionProjection "" "{}".
Definition foreignRequest : EnqueueRequest := mkEnqueueRequest "n2" "q" "T1" ActionProjection "" "{}".
Definition changedRequest : EnqueueRequest := mkEnqueueRequest "n1" "p" "T1" ActionProjection "" "[]".
Definition firstResponse : ResponseEnvelope := mkResponseEnvelope 1 "n1" "alice" "laptop" "done" None.
Definition emptyPoll : PollEnvelope := mkPollEnvelope "alice" "laptop" 0 [].
Definition answeringPoll : PollEnvelope := mkPollEnvelope "alice" "laptop" 1 [firstResponse].

Definition credentialDB : RelayDB := (RotateCredential browserCredential (RotateCredential daemonCredential RelayDB_empty).1).1.
Definition queuedDB : RelayDB := (Enqueue laptopBrowser firstRequest credentialDB).1.
Definition answeredDB : RelayDB := (Poll laptopDaemon answeringPoll queuedDB).1.
Definition blockedDB : RelayDB := (Enqueue laptopBrowser foreignRequest queuedDB).1.

Example sample_authenticate :
  Authenticate "daemon-token" RoleDaemon credentialDB = Ok laptopDaemon ∧
  Authenticate "browser-token" RoleBrowser credentialDB = Ok laptopBrowser ∧
  Authenticate "browser-token" RoleDaemon credentialDB = Err ErrUnauthorized.
Proof. split_and!; vm_compute; reflexivity. Qed.

Example sample_round :
  (Enqueue laptopBrowser firstRequest credentialDB).2 = Ok (mkEnqueueResult 1 "n1") ∧
  (Poll laptopDaemon emptyPoll queuedDB).2 = Ok (mkPollResult "alice" "laptop" 0
     [mkRequestEnvelope 1 "n1" "alice" "laptop" "p" "T1" ActionProjection "" "{}"]) ∧
  (Poll laptopDaemon answeringPoll queuedDB).2 = Ok (mkPollResult "alice" "laptop" 1 []) ∧
  Store_Result laptopBrowser 1 answeredDB = Ok (mkRelayResult 1 false (Some
    (mkResponseEnvelope 1 "n1" "alice" "laptop" "n1|done" None))).
Proof. split_and!; vm_compute; reflexivity. Qed.

(** A request for a project the daemon does not have, and the response to the request
    before it is refused. *)
Example sample_halt :
  (Enqueue laptopBrowser foreignRequest queuedDB).2 = Ok (mkEnqueueResult 2 "n2") ∧
  Poll laptopDaemon answeringPoll blockedDB = (blockedDB, Err ErrUnauthorized).
Proof. split; vm_compute; reflexivity. Qed.
