(* ===== verification/RelaySafety.v ===== *)
(** The relay as a queue per device: the abstract queues, and the proof that every operation
    of the store is at most one step of one of them. *)
From S2P Require Import Prelude Sql RelayStore.

(** The relay as queues: each device has a queue of requests that are answered in
    order, and every operation of the store is at most one step of one queue. *)

(** * The abstract queue *)

(** The requests of a device in order, and the answers to the first of them. *)
Record Queue : Type := mkQueue { q_requests : list RelayRequestRow; q_answers : list string }.

Definition unanswered (row : RelayRequestRow) : Prop := row.(rr_response_json) = None.

Inductive queue_step (q : Queue) : Queue → Prop :=
  | queue_enqueue row :
      unanswered row → row.(rr_nonce) ∉ rr_nonce <$> q.(q_requests) →
      queue_step q (mkQueue (q.(q_requests) ++ [row]) q.(q_answers))
  | queue_answer answer :
      length q.(q_answers) < length q.(q_requests) →
      queue_step q (mkQueue q.(q_requests) (q.(q_answers) ++ [answer])).

Record queue_ok (q : Queue) : Prop := {
  qo_rows : Forall unanswered q.(q_requests);
  qo_nonces : NoDup (rr_nonce <$> q.(q_requests));
  qo_answers : length q.(q_answers) ≤ length q.(q_requests);
}.

Lemma queue_ok_empty : queue_ok (mkQueue [] []).
Proof. split; [constructor|constructor|done]. Qed.

Lemma queue_ok_step q q' : queue_ok q → queue_step q q' → queue_ok q'.
Proof.
  intros [Hr Hn Ha] [row Hrow Hf|answer Hlt]; split; cbn; try done.
  - apply Forall_app. by repeat constructor.
  - rewrite fmap_app. apply NoDup_app. split_and!; [done| |apply NoDup_singleton]. intros x Hx ->%list_elem_of_singleton. done.
  - rewrite length_app. lia.
  - rewrite length_app. cbn. lia.
Qed.

(** The row of a position, with its answer. *)
Definition rowAt (q : Queue) (n : Z) : option RelayRequestRow :=
  if (n <=? 0)%Z then None else
  (λ row, row <| rr_response_json := q.(q_answers) !! Z.to_nat (n - 1) |>) <$> q.(q_requests) !! Z.to_nat (n - 1).

(** * The relay's tables as queues *)

Record represents_queue (db : RelayDB) (device : Device) (q : Queue) : Prop := {
  rq_ok : queue_ok q;
  rq_rows n : db.(requests) !! (device, n) = rowAt q n;
  rq_counter : default 0%Z (db.(sequence_counters) !! device) = Z.of_nat (length q.(q_requests));
  rq_cursor : default 0%Z (db.(device_state) !! device) = Z.of_nat (length q.(q_answers));
  rq_bound : (Z.of_nat (length q.(q_requests)) < 9223372036854775808)%Z;
}.

Definition queues (db : RelayDB) (qs : Device → Queue) : Prop := ∀ device, represents_queue db device (qs device).

Lemma rowAt_inv q n row :
  rowAt q n = Some row → ∃ i stored, n = (Z.of_nat i + 1)%Z ∧ q.(q_requests) !! i = Some stored ∧
    row = stored <| rr_response_json := q.(q_answers) !! i |>.
Proof.
  unfold rowAt. destruct (Z.leb_spec n 0); [done|]. intros (stored & Hs & Hrow)%fmap_Some.
  exists (Z.to_nat (n - 1)), stored. split_and!; [lia|done..].
Qed.

Lemma rowAt_pos q i : rowAt q (Z.of_nat i + 1) = (λ row, row <| rr_response_json := q.(q_answers) !! i |>) <$> q.(q_requests) !! i.
Proof. unfold rowAt. destruct (Z.leb_spec (Z.of_nat i + 1) 0); [lia|]. by replace (Z.to_nat (Z.of_nat i + 1 - 1)) with i by lia. Qed.

Lemma rowAt_nonpos q n : (n ≤ 0)%Z → rowAt q n = None.
Proof. intros H. unfold rowAt. by rewrite (proj2 (Z.leb_le n 0) H). Qed.

Section relay.
Context {remote : RemoteEnv}.
Implicit Types (db : RelayDB) (device : Device) (q : Queue).

(** ** Reading *)

Lemma rowsWhere_elem {K A} `{Countable K} (P : K * A → bool) (m : gmap K A) kv :
  kv ∈ rowsWhere P m ↔ m !! kv.1 = Some kv.2 ∧ P kv = true.
Proof.
  unfold rowsWhere. rewrite list_elem_of_In, List.filter_In, <- list_elem_of_In. destruct kv as [k v].
  by rewrite elem_of_map_to_list.
Qed.

Lemma requestByNonce_Some db device nonce n row :
  requestByNonce device nonce db = Some (n, row) → db.(requests) !! (device, n) = Some row ∧ row.(rr_nonce) = nonce.
Proof.
  unfold requestByNonce. intros H. destruct (rowsWhere _ _) as [|[[d n'] row'] rest] eqn:E; [done|]. simplify_eq.
  assert ((d, n, row) ∈ rowsWhere (λ kv, bool_decide (kv.1.1 = device) && (kv.2.(rr_nonce) == nonce)) db.(requests))
    as [Hl Hp]%rowsWhere_elem by (rewrite E; by left).
  cbn in *. inv_bool. match goal with H : bool_decide _ = true |- _ => apply bool_decide_eq_true in H; subst end. done.
Qed.

Lemma requestByNonce_None db device nonce n row :
  requestByNonce device nonce db = None → db.(requests) !! (device, n) = Some row → row.(rr_nonce) ≠ nonce.
Proof.
  unfold requestByNonce. intros H Hl <-. destruct (rowsWhere _ _) as [|[[d n'] row'] rest] eqn:E; [|done].
  assert ((device, n, row) ∈ rowsWhere (λ kv, bool_decide (kv.1.1 = device) && (kv.2.(rr_nonce) == row.(rr_nonce))) db.(requests)) as Hin.
  { apply rowsWhere_elem. split; [done|]. cbn. by rewrite bool_decide_true, String.eqb_refl. }
  rewrite E in Hin. by apply not_elem_of_nil in Hin.
Qed.

(** A nonce names at most one request. *)
Lemma nonce_unique db device q n row n' row' :
  represents_queue db device q → db.(requests) !! (device, n) = Some row → db.(requests) !! (device, n') = Some row' →
  row.(rr_nonce) = row'.(rr_nonce) → n = n'.
Proof.
  intros [Hq Hr _ _ _]. rewrite !Hr. intros (i & s & -> & Hi & ->)%rowAt_inv (j & s' & -> & Hj & ->)%rowAt_inv E. cbn in E.
  enough (i = j) by lia. eapply NoDup_lookup; [apply (qo_nonces _ Hq)|..]; rewrite list_lookup_fmap.
  - by rewrite Hi.
  - rewrite Hj. cbn. by rewrite E.
Qed.

(** ** Steps *)

(** Nothing of the queues changes. *)
Definition same_queues db db' : Prop :=
  db'.(requests) = db.(requests) ∧ db'.(sequence_counters) = db.(sequence_counters) ∧
  ∀ device, default 0%Z (db'.(device_state) !! device) = default 0%Z (db.(device_state) !! device).

Lemma same_queues_represents db db' device q :
  same_queues db db' → represents_queue db device q → represents_queue db' device q.
Proof.
  intros (E1 & E2 & E3) [Hq Hr Hc Hd Hb]. split; [done|by rewrite E1|by rewrite E2|by rewrite E3|done].
Qed.

Lemma ensureDevice_same db device : same_queues db (ensureDevice device db).
Proof.
  unfold ensureDevice, same_queues. destruct (db.(device_state) !! device) eqn:E; [done|]. cbn. split_and!; [done..|].
  intros d. destruct (decide (d = device)) as [->|]; [by rewrite lookup_insert_eq, E|by rewrite lookup_insert_ne].
Qed.

(** Another device's queue is not touched. *)
Lemma represents_other db db' device device' q :
  device ≠ device' →
  (∀ n, db'.(requests) !! (device', n) = db.(requests) !! (device', n)) →
  db'.(sequence_counters) !! device' = db.(sequence_counters) !! device' →
  db'.(device_state) !! device' = db.(device_state) !! device' →
  represents_queue db device' q → represents_queue db' device' q.
Proof. intros Hne E1 E2 E3 [Hq Hr Hc Hd Hb]. split; [done|intros n; by rewrite E1|by rewrite E2|by rewrite E3|done]. Qed.

Lemma rowAt_enqueue q row n :
  queue_ok q → unanswered row →
  rowAt (mkQueue (q.(q_requests) ++ [row]) q.(q_answers)) n =
  if decide (n = Z.of_nat (length q.(q_requests)) + 1)%Z then Some row else rowAt q n.
Proof.
  intros Hq Hrow. pose proof (qo_answers _ Hq). case_decide as E.
  - subst n. rewrite rowAt_pos. cbn. rewrite lookup_app_r, Nat.sub_diag by lia. cbn.
    rewrite lookup_ge_None_2 by lia. destruct row. unfold unanswered in Hrow. cbn in *. by subst.
  - destruct (Z.leb_spec n 0); [by rewrite !rowAt_nonpos|].
    replace n with (Z.of_nat (Z.to_nat (n - 1)) + 1)%Z by lia. rewrite !rowAt_pos. cbn.
    destruct (decide (Z.to_nat (n - 1) < length (q_requests q))) as [Hlt|Hge]; [by rewrite lookup_app_l|].
    by rewrite lookup_app_r, !lookup_ge_None_2 by (cbn; lia).
Qed.

Lemma rowAt_answer q answer stored n :
  queue_ok q → q.(q_requests) !! length q.(q_answers) = Some stored →
  rowAt (mkQueue q.(q_requests) (q.(q_answers) ++ [answer])) n =
  if decide (n = Z.of_nat (length q.(q_answers)) + 1)%Z then Some (stored <| rr_response_json := Some answer |>)
  else rowAt q n.
Proof.
  intros Hq Hs. case_decide as E.
  - subst n. rewrite rowAt_pos. cbn. rewrite Hs. cbn. by rewrite lookup_app_r, Nat.sub_diag by lia.
  - destruct (Z.leb_spec n 0); [by rewrite !rowAt_nonpos|].
    replace n with (Z.of_nat (Z.to_nat (n - 1)) + 1)%Z by lia. rewrite !rowAt_pos. cbn.
    destruct (decide (Z.to_nat (n - 1) < length (q_answers q))) as [Hlt|Hge]; [by rewrite lookup_app_l|].
    assert ((q_answers q ++ [answer]) !! Z.to_nat (n - 1) = None) as -> by (apply lookup_ge_None_2; rewrite length_app; cbn; lia).
    by rewrite (lookup_ge_None_2 (q_answers q)) by lia.
Qed.

End relay.

(** What the relay promises: a queue per device whose requests are taken once and
    answered in order, credentials of which only the latest generation is good, and
    a device that a request for a project its daemon does not have brings to a halt. *)

(** The operations that change the store. *)
Inductive RelayOp : Type :=
  | OpRotateCredential (credential : RelayCredential)
  | OpEnqueue (principal : Principal) (request : EnqueueRequest)
  | OpPoll (principal : Principal) (poll : PollEnvelope).

Section relay.
Context {remote : RemoteEnv}.
Implicit Types (db : RelayDB) (device : Device) (q : Queue).

Definition perform_relay (op : RelayOp) db : RelayDB :=
  match op with
  | OpRotateCredential credential => (RotateCredential credential db).1
  | OpEnqueue principal request => (Enqueue principal request db).1
  | OpPoll principal poll => (Poll principal poll db).1
  end.

(** The integers of an operation are of type uint64. *)
Definition typed_op (op : RelayOp) : Prop :=
  match op with
  | OpRotateCredential credential => (0 ≤ credential.(RelayCredential_Generation) < two64)%Z
  | OpEnqueue _ _ => True
  | OpPoll _ poll => (0 ≤ poll.(PollEnvelope_Cursor) < two64)%Z
  end.

Inductive relay_reachable : RelayDB → Prop :=
  | relay_empty : relay_reachable RelayDB_empty
  | relay_perform db op : relay_reachable db → typed_op op → relay_reachable (perform_relay op db).

Lemma transact_cases {A} (body : Tx RelayDB A) db db' r :
  transact body db = (db', r) →
  (∃ a, body db = Ok (db', a) ∧ r = Ok a) ∨ (db' = db ∧ is_ok r = false).
Proof.
  unfold transact. destruct (body db) as [[db1 a]|e|] eqn:E; intros H; injection H as <- <-; eauto.
Qed.

(** * What each operation does *)

Ltac inv_sqlite := inv_ok; repeat match goal with
  | H : checkConstraint _ _ = Ok _ |- _ => apply checkConstraint_Ok, negb_true_iff in H
  | H : bindUint64 _ = Ok _ |- _ => apply bindUint64_Ok in H
  end.

Lemma rotate_inv credential db db' r :
  RotateCredential credential db = (db', r) →
  let device := (credential.(RelayCredential_AccountID), credential.(RelayCredential_DeviceID)) in
  let role := credential.(RelayCredential_Role) in
  let key := (device, role, credential.(RelayCredential_Generation)) in
  let row := mkRelayCredentialRow (tokenHash credential.(RelayCredential_Token))
               (marshalProjects credential.(RelayCredential_Projects)) true in
  let old := deactivate device role db in
  (db' = db ∧ (r = Ok tt → db.(relay_credentials) !! key = Some row)) ∨
  r = Ok tt ∧ old.(relay_credentials) !! key = None ∧
  (∀ key' row', old.(relay_credentials) !! key' = Some row' → row'.(rc_token_hash) ≠ row.(rc_token_hash)) ∧
  (∀ current, maxGeneration device role db = Some current → (u64 current < credential.(RelayCredential_Generation))%Z) ∧
  (credential.(RelayCredential_Generation) < 9223372036854775808)%Z ∧
  db' = old <| relay_credentials := <[key := row]> old.(relay_credentials) |>.
Proof.
  unfold RotateCredential. intros [(a & H & ->)|[-> Hr]]%transact_cases; [|left; split; [done|by intros ->]].
  apply bind_Ok in H as ([] & _ & H). apply bind_Ok in H as (_ & _ & H). cbv zeta in H |- *.
  set (old := deactivate _ _ db) in *.
  assert (∀ key row x u, (bindUint64 key.2 ;; db ← insertRelayCredential key row old; Ok (db, tt)) = Ok (x, u) →
    old.(relay_credentials) !! key = None ∧
    (∀ key' row', old.(relay_credentials) !! key' = Some row' → row'.(rc_token_hash) ≠ row.(rc_token_hash)) ∧
    (key.2 < 9223372036854775808)%Z ∧ x = old <| relay_credentials := <[key := row]> old.(relay_credentials) |>) as Hins.
  { intros key row x u Hi. unfold insertRelayCredential in Hi. inv_sqlite. split_and!; [| |done|done].
    - by destruct (_ !! key).
    - intros key' row' Hk E. match goal with H : existsb _ _ = false |- _ => rewrite <- not_true_iff_false, existsb_exists in H; apply H end.
      exists (key', row'). split; [by apply list_elem_of_In, elem_of_map_to_list|]. by apply String.eqb_eq. }
  destruct (maxGeneration _ _ db) as [current|] eqn:Em.
  - destruct (Z.leb_spec (RelayCredential_Generation credential) (u64 current)) as [Hle|Hlt].
    + left. apply bind_Ok in H as ([] & Hg & H). case_match eqn:Er; [|done..]. apply bind_Ok in H as ([] & Hc & H).
      injection H as <- _. split; [done|]. intros _. inv_ok. rewrite Er. destruct a0. cbn in *. by subst.
    + right. apply (Hins (_, _, _)) in H as (? & ? & ? & ->). split_and!; try done; [by destruct a|]. by intros c [= <-].
  - right. apply (Hins (_, _, _)) in H as (? & ? & ? & ->). split_and!; try done. by destruct a.
Qed.

Lemma enqueue_inv principal request db db' r :
  Enqueue principal request db = (db', r) →
  (db' = db ∧ ∀ res, r = Ok res → res.(EnqueueResult_Nonce) = request.(EnqueueRequest_Nonce) ∧ ∃ row, db.(requests) !! (deviceOf principal, res.(EnqueueResult_Sequence)) = Some row ∧
     row.(rr_nonce) = request.(EnqueueRequest_Nonce) ∧ row.(rr_request_digest) = enqueueDigest request) ∨
  let device := deviceOf principal in
  let sequence := (default 0%Z (db.(sequence_counters) !! device) + 1)%Z in
  let row := mkRelayRequestRow request.(EnqueueRequest_Nonce) request.(EnqueueRequest_ProjectID)
    request.(EnqueueRequest_ThreadID) request.(EnqueueRequest_Action) request.(EnqueueRequest_AuthorizationToken)
    request.(EnqueueRequest_Payload) (enqueueDigest request) None in
  principal.(Principal_Role) = RoleBrowser ∧ validEnqueue request = true ∧
  request.(EnqueueRequest_ProjectID) ∈ principal.(Principal_Projects) ∧
  requestByNonce device request.(EnqueueRequest_Nonce) db = None ∧
  (sequence < 9223372036854775808)%Z ∧ db.(requests) !! (device, sequence) = None ∧
  r = Ok (mkEnqueueResult sequence request.(EnqueueRequest_Nonce)) ∧
  db' = ensureDevice device (db <| sequence_counters := <[device := sequence]> db.(sequence_counters) |>
                               <| requests := <[(device, sequence) := row]> db.(requests) |>).
Proof.
  unfold Enqueue. intros [(a & H & ->)|[-> Hr]]%transact_cases; [|left; split; [done|by intros res ->]].
  apply bind_Ok in H as ([] & H1 & H). apply fail_if_Ok, orb_false_iff in H1 as [H1 H1'].
  apply bind_Ok in H as ([] & H2 & H). apply fail_if_Ok, negb_false_iff, bool_decide_eq_true in H2. cbv zeta in H.
  destruct (requestByNonce _ _ db) as [[n existing]|] eqn:En.
  - left. apply bind_Ok in H as ([] & Hd & H). apply fail_if_Ok in Hd. injection H as <- <-. split; [done|].
    intros res [= <-]. apply requestByNonce_Some in En as [Hrow Hn]. split; [done|]. exists existing. cbn. inv_bool. done.
  - right. unfold nextSequence, insertRequest in H.
    apply bind_Ok in H as ([db1 sequence] & Hs & H). apply bind_Ok in Hs as ([] & Hmax & Hs).
    apply fail_if_Ok, Z.leb_gt in Hmax. injection Hs as <- <-. inv_sqlite. cbn in *.
    assert ((match sequence_counters db !! deviceOf principal with Some last => last + 1 | None => 1 end =
      default 0 (sequence_counters db !! deviceOf principal) + 1)%Z) as Eseq by by destruct (_ !! _).
    rewrite Eseq in *. split_and!; try done; [by destruct (requests db !! _)].
Qed.

Lemma accept_inv device poll response cursor db db' cursor' :
  acceptResponse device poll response cursor db = Ok (db', cursor') →
  ∃ row encoded, db.(requests) !! (device, response.(ResponseEnvelope_Sequence)) = Some row ∧
    row.(rr_nonce) = response.(ResponseEnvelope_Nonce) ∧ marshalResponse response = Ok encoded ∧
    response.(ResponseEnvelope_AccountID) = device.1 ∧ response.(ResponseEnvelope_DeviceID) = device.2 ∧
    response.(ResponseEnvelope_Sequence) = poll.(PollEnvelope_Cursor) ∧
    ((row.(rr_response_json) = Some encoded ∧ db' = db ∧ cursor' = cursor) ∨
     (row.(rr_response_json) = None ∧ response.(ResponseEnvelope_Sequence) = u64 (cursor + 1) ∧
      cursor' = response.(ResponseEnvelope_Sequence) ∧
      db' = db <| requests := <[(device, response.(ResponseEnvelope_Sequence)) :=
                   row <| rr_response_json := Some encoded |>]> db.(requests) |>
               <| device_state := <[device := response.(ResponseEnvelope_Sequence)]> db.(device_state) |>)).
Proof.
  unfold acceptResponse. intros H. inv_sqlite.
  match goal with H : match rr_response_json ?row with _ => _ end = _ |- _ => exists row; destruct (rr_response_json row) eqn:Ej end;
    inv_ok; eexists; split_and!; eauto; subst; by left.
Qed.

Lemma poll_inv principal poll db db' r :
  Poll principal poll db = (db', r) →
  (db' = db ∧ is_ok r = false) ∨
  let device := deviceOf principal in
  let db0 := ensureDevice device db in
  ∃ cursor cursor', db0.(device_state) !! device = Some cursor ∧
    (match poll.(PollEnvelope_Responses) with
     | [] => poll.(PollEnvelope_Cursor) = cursor ∧ db' = db0 ∧ cursor' = cursor
     | response :: _ => acceptResponse device poll response cursor db0 = Ok (db', cursor')
     end) ∧
    principal.(Principal_Role) = RoleDaemon ∧
    ∃ rs, r = Ok (mkPollResult device.1 device.2 cursor' rs) ∧
      match db'.(requests) !! (device, u64 (cursor' + 1)) with
      | Some row => rs = [requestOf device (u64 (cursor' + 1)) row] ∧ row.(rr_project_id) ∈ principal.(Principal_Projects)
      | None => rs = []
      end.
Proof.
  unfold Poll. intros [(a & H & ->)|?]%transact_cases; [|by left]. right.
  apply bind_Ok in H as ([] & H1 & H). apply fail_if_Ok in H1. apply bind_Ok in H as ([] & _ & H). cbv zeta in H.
  apply bind_Ok in H as (cursor & Hc & H). apply non_nil_Ok in Hc. apply bind_Ok in H as ([db1 cursor'] & Hm & H).
  apply bind_Ok in H as ([] & _ & H). inv_bool. cbv zeta. exists cursor, cursor'.
  assert (db1 = db' ∧ ∃ rs, Ok a = Ok (mkPollResult (deviceOf principal).1 (deviceOf principal).2 cursor' rs) ∧
      match db1.(requests) !! (deviceOf principal, u64 (cursor' + 1)) with
      | Some row => rs = [requestOf (deviceOf principal) (u64 (cursor' + 1)) row] ∧ row.(rr_project_id) ∈ principal.(Principal_Projects)
      | None => rs = []
      end) as [-> Hrs].
  { destruct (db1.(requests) !! _) as [row|] eqn:Er.
    - apply bind_Ok in H as ([] & Hp & H). apply fail_if_Ok, negb_false_iff, bool_decide_eq_true in Hp.
      injection H as <- <-. split; [done|]. by eexists.
    - injection H as <- <-. split; [done|]. by eexists. }
  split_and!; [done| |done|done].
  destruct (PollEnvelope_Responses poll); [|done]. inv_ok. done.
Qed.

(** * Queues *)

Definition set_queue (qs : Device → Queue) device q : Device → Queue := λ d, if decide (d = device) then q else qs d.

(** A change to one device's tables is a change of its queue. *)
Lemma queues_set db db' qs device q :
  queues db qs → represents_queue db' device q →
  (∀ d n, d ≠ device → db'.(requests) !! (d, n) = db.(requests) !! (d, n)) →
  (∀ d, d ≠ device → db'.(sequence_counters) !! d = db.(sequence_counters) !! d) →
  (∀ d, d ≠ device → db'.(device_state) !! d = db.(device_state) !! d) →
  queues db' (set_queue qs device q).
Proof.
  intros Hq Hd E1 E2 E3 d. unfold set_queue. destruct (decide (d = device)) as [->|Hne]; [done|].
  apply (represents_other db _ device); auto.
Qed.

Lemma queues_same db db' qs : queues db qs → same_queues db db' → queues db' qs.
Proof. intros Hq Hs d. by eapply same_queues_represents. Qed.

Lemma enqueue_queues principal request db db' r qs :
  Enqueue principal request db = (db', r) → queues db qs →
  queues db' qs ∨ ∃ q', queues db' (set_queue qs (deviceOf principal) q') ∧ queue_step (qs (deviceOf principal)) q'.
Proof.
  intros [[-> _]|(_ & _ & _ & Hn & Hmax & Hfree & _ & ->)]%enqueue_inv Hq; [by left|]. right.
  set (device := deviceOf principal) in *. destruct (Hq device) as [Hok Hrows Hcount Hcur Hb].
  set (row := mkRelayRequestRow _ _ _ _ _ _ _ _). rewrite Hcount in *.
  exists (mkQueue ((qs device).(q_requests) ++ [row]) (qs device).(q_answers)).
  assert (queue_step (qs device) (mkQueue ((qs device).(q_requests) ++ [row]) (qs device).(q_answers))) as Hstep.
  { constructor; [done|]. intros (stored & E & (i & Hi)%list_elem_of_lookup_1)%list_elem_of_fmap.
    assert (db.(requests) !! (device, Z.of_nat i + 1)%Z = Some (stored <| rr_response_json := (qs device).(q_answers) !! i |>))
      as Hr by by rewrite Hrows, rowAt_pos, Hi.
    apply (requestByNonce_None _ _ _ _ _ Hn) in Hr. by apply Hr. }
  split; [|exact Hstep]. eapply queues_set; [exact Hq|..].
  - eapply same_queues_represents; [apply ensureDevice_same|]. split; cbn.
    + by eapply queue_ok_step.
    + intros n. rewrite rowAt_enqueue by done. case_decide as E; [subst n; by rewrite lookup_insert_eq|].
      rewrite lookup_insert_ne by congruence. apply Hrows.
    + rewrite lookup_insert_eq, length_app. cbn. lia.
    + exact Hcur.
    + rewrite length_app. cbn. lia.
  - intros d n Hne. destruct (ensureDevice_same (db <| sequence_counters := <[device := (Z.of_nat (length (q_requests (qs device))) + 1)%Z]> db.(sequence_counters) |>
      <| requests := <[(device, (Z.of_nat (length (q_requests (qs device))) + 1)%Z) := row]> db.(requests) |>) device) as (E & _ & _).
    rewrite E. cbn. rewrite lookup_insert_ne; [done|congruence].
  - intros d Hne. unfold ensureDevice. case_match; cbn; by rewrite lookup_insert_ne.
  - intros d Hne. unfold ensureDevice. case_match; cbn; [done|]. by rewrite lookup_insert_ne.
Qed.

Lemma accept_queues device poll response cursor db db' cursor' qs :
  acceptResponse device poll response cursor db = Ok (db', cursor') → queues db qs →
  db.(device_state) !! device = Some cursor → (0 ≤ poll.(PollEnvelope_Cursor) < two64)%Z →
  (queues db' qs ∧ db' = db ∧ cursor' = cursor) ∨
  ∃ q', queues db' (set_queue qs device q') ∧ queue_step (qs device) q' ∧
    db'.(device_state) !! device = Some cursor' ∧ cursor' = (cursor + 1)%Z.
Proof.
  intros (row & encoded & Hrow & _ & _ & _ & _ & Ecur & [(_ & -> & ->)|(Hnone & Eseq & -> & ->)])%accept_inv Hq Hstate Htyped;
    [by left|]. right.
  destruct (Hq device) as [Hok Hrows Hcount Hcur Hb]. rewrite Hstate in Hcur. cbn in Hcur.
  pose proof (qo_answers _ Hok) as Hle. rewrite u64_small in Eseq by (unfold two64; lia). rewrite Eseq in *.
  rewrite Hrows in Hrow. apply rowAt_inv in Hrow as (i & stored & Ei & Hi & ->).
  assert (i = length (qs device).(q_answers)) as -> by lia.
  exists (mkQueue (qs device).(q_requests) ((qs device).(q_answers) ++ [encoded])).
  assert (length (qs device).(q_answers) < length (qs device).(q_requests)) as Hlt by by eapply lookup_lt_Some.
  assert (queue_step (qs device) (mkQueue (qs device).(q_requests) ((qs device).(q_answers) ++ [encoded]))) as Hstep by by constructor.
  split_and!; [|exact Hstep|by cbn; rewrite lookup_insert_eq|done]. eapply queues_set; [exact Hq|..].
  - split; cbn.
    + by eapply queue_ok_step.
    + intros n. rewrite (rowAt_answer _ _ stored) by done. case_decide as E.
      * subst n. by rewrite Ei, lookup_insert_eq.
      * rewrite lookup_insert_ne by congruence. apply Hrows.
    + exact Hcount.
    + rewrite lookup_insert_eq, length_app. cbn. lia.
    + exact Hb.
  - intros d n Hne. cbn. rewrite lookup_insert_ne; [done|congruence].
  - done.
  - intros d Hne. cbn. by rewrite lookup_insert_ne.
Qed.

Lemma poll_queues principal poll db db' r qs :
  Poll principal poll db = (db', r) → queues db qs → (0 ≤ poll.(PollEnvelope_Cursor) < two64)%Z →
  queues db' qs ∨ ∃ q', queues db' (set_queue qs (deviceOf principal) q') ∧ queue_step (qs (deviceOf principal)) q'.
Proof.
  intros [[-> _]|(cursor & cursor' & Hc & Hm & _)]%poll_inv Hq Ht; [by left|].
  assert (queues (ensureDevice (deviceOf principal) db) qs) as Hq0 by (eapply queues_same; [exact Hq|apply ensureDevice_same]).
  destruct (PollEnvelope_Responses poll) as [|response rest]; [destruct Hm as (_ & -> & _); by left|].
  destruct (accept_queues _ _ _ _ _ _ _ _ Hm Hq0 Hc Ht) as [(H & _)|(q' & H1 & H2 & _)]; eauto.
Qed.

Lemma rotate_queues credential db db' r qs : RotateCredential credential db = (db', r) → queues db qs → queues db' qs.
Proof. intros [[-> _]|(_ & _ & _ & _ & _ & ->)]%rotate_inv Hq; [done|]. by eapply queues_same. Qed.

Lemma perform_queues op db qs :
  queues db qs → typed_op op →
  queues (perform_relay op db) qs ∨
  ∃ device q', queues (perform_relay op db) (set_queue qs device q') ∧ queue_step (qs device) q'.
Proof.
  intros Hq Ht. destruct op as [credential|principal request|principal poll]; cbn.
  - left. destruct (RotateCredential credential db) as [db' r] eqn:E. by eapply rotate_queues.
  - destruct (Enqueue principal request db) as [db' r] eqn:E. eapply enqueue_queues in E as [H|(q & ? & ?)]; eauto.
  - destruct (Poll principal poll db) as [db' r] eqn:E. eapply poll_queues in E as [H|(q & ? & ?)]; eauto.
Qed.

Lemma reachable_queues db : relay_reachable db → ∃ qs, queues db qs.
Proof.
  induction 1 as [|db op _ [qs IH] Ht].
  - exists (λ _, mkQueue [] []). intros device. split; [apply queue_ok_empty| |done..].
    intros n. unfold rowAt. cbn. rewrite lookup_empty. by case_match.
  - destruct (perform_queues op db qs IH Ht) as [H|(device & q & H & _)]; eauto.
Qed.

(** C17: The relay is a queue per device. In every reachable state the tables are, for
    each device, a list of requests numbered from 1 without gaps and with distinct
    nonces, of which the first ones are answered, as many as its cursor says; and
    every operation leaves all queues as they are or appends one unanswered request
    with a new nonce to one of them, or answers the first request of one that is
    not answered yet. Nothing is removed, reordered or answered twice. *)
Theorem relay_refines_queues db op :
  relay_reachable db → typed_op op →
  ∃ qs, queues db qs ∧
    (queues (perform_relay op db) qs ∨
     ∃ device q', queues (perform_relay op db) (set_queue qs device q') ∧ queue_step (qs device) q').
Proof.
  intros Hr Ht. destruct (reachable_queues db Hr) as [qs Hq]. exists qs. split; [done|]. by apply perform_queues.
Qed.

End relay.

(** The sample stores are reachable. *)
Lemma perform_reachable {remote : RemoteEnv} db op db' :
  relay_reachable db → typed_op op → perform_relay op db = db' → relay_reachable db'.
Proof. intros Hr Ht <-. by apply relay_perform. Qed.

Lemma credentialDB_reachable : relay_reachable (remote := sample_remote) credentialDB.
Proof.
  unfold credentialDB. apply (perform_reachable (remote := sample_remote) _ (OpRotateCredential browserCredential) _
    (perform_reachable (remote := sample_remote) _ (OpRotateCredential daemonCredential) _ relay_empty ltac:(cbn; unfold two64; lia) eq_refl)); [|done].
  cbn. unfold two64. lia.
Qed.

Lemma queuedDB_reachable : relay_reachable (remote := sample_remote) queuedDB.
Proof. by apply (perform_reachable (remote := sample_remote) _ (OpEnqueue laptopBrowser firstRequest) _ credentialDB_reachable). Qed.

Lemma relay_refines_queues_witness :
  let op := OpPoll laptopDaemon answeringPoll in
  ∃ qs, queues queuedDB qs ∧
    (queues (perform_relay (remote := sample_remote) op queuedDB) qs ∨
     ∃ device q', queues (perform_relay (remote := sample_remote) op queuedDB) (set_queue qs device q') ∧
       queue_step (qs device) q').
Proof.
  apply (relay_refines_queues (remote := sample_remote)); [exact queuedDB_reachable|]. cbn. unfold two64. lia.
Defined.
