(* ===== verification/RelayGuarantees.v ===== *)
(** What the clients of the relay may rely on for ever: answers are final, and only the
    latest credential of a device and a role is good. *)
From S2P Require Import Prelude Sql RelayStore RelaySafety.

(** What a client of the relay may rely on for ever: a request is queued once under its
    nonce, its answer is final, and only the latest credential of a device and a role is
    good. And what it may not: that its request is ever delivered. *)

Section relay.
Context {remote : RemoteEnv}.
Implicit Types (db : RelayDB) (device : Device) (q : Queue).

(** The store after any further operations. *)
Definition relay_step db db' : Prop := ∃ op, typed_op op ∧ db' = perform_relay op db.
Definition relay_later : relation RelayDB := rtc relay_step.

Lemma later_reachable db db' : relay_reachable db → relay_later db db' → relay_reachable db'.
Proof. intros Hr H. induction H as [|db1 db2 db3 (op & Ht & ->) _ IH]; [done|]. by apply IH, relay_perform. Qed.

(** * Rows *)

(** A row is only ever given its answer. *)
Definition row_later (row row' : RelayRequestRow) : Prop :=
  row' <| rr_response_json := row.(rr_response_json) |> = row ∧
  ∀ answer, row.(rr_response_json) = Some answer → row'.(rr_response_json) = Some answer.

Lemma row_later_refl row : row_later row row.
Proof. by destruct row. Qed.

Lemma row_later_trans row1 row2 row3 : row_later row1 row2 → row_later row2 row3 → row_later row1 row3.
Proof.
  unfold row_later. destruct row1, row2, row3. cbn. intros [E1 H1] [E2 H2]. simplify_eq. split; [congruence|auto].
Qed.

Lemma rowAt_step q q' n row :
  queue_ok q → queue_step q q' → rowAt q n = Some row → ∃ row', rowAt q' n = Some row' ∧ row_later row row'.
Proof.
  intros Hq [new Hnew _|answer Hlt] Hrow.
  - rewrite rowAt_enqueue by done. case_decide as E; [|eauto using row_later_refl].
    subst n. rewrite rowAt_pos, (lookup_ge_None_2 q.(q_requests)) in Hrow by lia. done.
  - destruct (lookup_lt_is_Some_2 _ _ Hlt) as [stored Hs]. rewrite (rowAt_answer _ _ stored) by done.
    case_decide as E; [|eauto using row_later_refl]. subst n. eexists. split; [done|].
    rewrite rowAt_pos, Hs, lookup_ge_None_2 in Hrow by lia. injection Hrow as <-. by destruct stored.
Qed.

Lemma perform_row db op key row :
  relay_reachable db → typed_op op → db.(requests) !! key = Some row →
  ∃ row', (perform_relay op db).(requests) !! key = Some row' ∧ row_later row row'.
Proof.
  destruct key as [d n]. intros [qs Hq]%reachable_queues Ht Hrow.
  destruct (perform_queues op db qs Hq Ht) as [Hq'|(device & q' & Hq' & Hstep)];
    specialize (Hq' d); rewrite (rq_rows _ _ _ Hq'); rewrite (rq_rows _ _ _ (Hq d)) in Hrow.
  - eauto using row_later_refl.
  - unfold set_queue. case_decide as E; [subst|eauto using row_later_refl].
    eapply rowAt_step; [apply (rq_ok _ _ _ (Hq device))|done..].
Qed.

Lemma later_row db db' key row :
  relay_reachable db → relay_later db db' → db.(requests) !! key = Some row →
  ∃ row', db'.(requests) !! key = Some row' ∧ row_later row row'.
Proof.
  intros Hr H. revert row Hr. induction H as [|db1 db2 db3 (op & Ht & ->) _ IH]; intros row Hr Hrow; [eauto using row_later_refl|].
  destruct (perform_row db1 op key row Hr Ht Hrow) as (row1 & Hrow1 & H1).
  destruct (IH row1) as (row2 & Hrow2 & H2); [by apply relay_perform|done|]. eauto using row_later_trans.
Qed.

(** ** Enqueueing *)

Lemma enqueue_row principal request db db' res :
  Enqueue principal request db = (db', Ok res) →
  res.(EnqueueResult_Nonce) = request.(EnqueueRequest_Nonce) ∧
  ∃ row, db'.(requests) !! (deviceOf principal, res.(EnqueueResult_Sequence)) = Some row ∧
    row.(rr_nonce) = request.(EnqueueRequest_Nonce) ∧ row.(rr_request_digest) = enqueueDigest request.
Proof.
  intros [[-> H]|(_ & _ & _ & _ & _ & _ & [= ->] & ->)]%enqueue_inv; [by apply H|]. split; [done|].
  eexists. rewrite (proj1 (ensureDevice_same _ _)). cbn. by rewrite lookup_insert_eq.
Qed.

Lemma requestByNonce_unique db device n row :
  relay_reachable db → db.(requests) !! (device, n) = Some row → requestByNonce device row.(rr_nonce) db = Some (n, row).
Proof.
  intros [qs Hq]%reachable_queues Hrow. destruct (requestByNonce _ _ db) as [[n' row']|] eqn:E.
  - apply requestByNonce_Some in E as [Hrow' Hn]. assert (n' = n) as -> by by eapply nonce_unique. congruence.
  - by eapply requestByNonce_None in E.
Qed.

(** A nonce is queued once. After an accepted [Enqueue], and after any further
    operations on the relay, a request with the same nonce for the same device is
    answered with the sequence of the first one if it has the same content, and
    refused as a conflict if it has not; neither changes the store. *)
Theorem enqueue_once principal request db db1 res db2 principal' request' :
  relay_reachable db → Enqueue principal request db = (db1, Ok res) → relay_later db1 db2 →
  deviceOf principal' = deviceOf principal → principal'.(Principal_Role) = RoleBrowser →
  validEnqueue request' = true → request'.(EnqueueRequest_ProjectID) ∈ principal'.(Principal_Projects) →
  request'.(EnqueueRequest_Nonce) = request.(EnqueueRequest_Nonce) →
  Enqueue principal' request' db2 =
    (db2, if enqueueDigest request' == enqueueDigest request then Ok res else Err ErrConflict).
Proof.
  intros Hr H1 Hl Hdev Hrole Hv Hp Hn.
  assert (relay_reachable db1) as Hr1.
  { replace db1 with (perform_relay (OpEnqueue principal request) db) by (cbn; by rewrite H1). by apply relay_perform. }
  pose proof (enqueue_row _ _ _ _ _ H1) as (Hres & row & Hrow & Hrn & Hrd).
  destruct (later_row _ _ _ _ Hr1 Hl Hrow) as (row' & Hrow' & [Hsame _]).
  assert (row'.(rr_nonce) = request'.(EnqueueRequest_Nonce) ∧ row'.(rr_request_digest) = enqueueDigest request) as [En Ed]
    by (rewrite Hn, <- Hrd, <- Hrn, <- Hsame; done).
  apply requestByNonce_unique in Hrow'; [|by eapply later_reachable].
  unfold Enqueue, transact. rewrite Hrole, Hv, bool_decide_true, Hdev, <- En, Hrow', Ed by done. cbn.
  rewrite String.eqb_sym. destruct (_ == _); cbn; [|done]. destruct res. cbn in *. by rewrite En, Hn, Hres.
Qed.

(** ** Answers *)

(** An answer is final. Once [Result] returns the response of a request, it
    returns the same response after any further operations on the relay. *)
Theorem answer_is_final principal sequence db res db' :
  relay_reachable db → Store_Result principal sequence db = Ok res → res.(RelayResult_Pending) = false →
  relay_later db db' → Store_Result principal sequence db' = Ok res.
Proof.
  intros Hr H Hp Hl. unfold Store_Result in *. apply bind_Ok in H as ([] & H1 & H). rewrite H1. cbn [mbind result_bind].
  apply bind_Ok in H as ([] & H2 & H). rewrite H2. cbn [mbind result_bind]. apply bind_Ok in H as (row & Hrow & H).
  apply non_nil_Ok in Hrow. apply bind_Ok in H as ([] & H3 & H).
  destruct (later_row _ _ _ _ Hr Hl Hrow) as (row' & -> & [Hsame Hans]). cbn.
  assert (row'.(rr_project_id) = row.(rr_project_id)) as -> by by rewrite <- Hsame.
  rewrite H3. cbn. destruct row.(rr_response_json) as [encoded|] eqn:E; [|by injection H as <-]. by rewrite (Hans encoded).
Qed.

(** * Halting *)

(** Operations in which no poll of the device is by a holder of the project. *)
Definition lacking_step device (project : string) : relation RelayDB := λ db db', ∃ op, typed_op op ∧
  (∀ principal poll, op = OpPoll principal poll → deviceOf principal = device → project ∉ principal.(Principal_Projects)) ∧
  db' = perform_relay op db.

Definition cursorOf device db : Z := default 0%Z (db.(device_state) !! device).

Lemma cursor_other device db op :
  (∀ principal poll, op = OpPoll principal poll → deviceOf principal ≠ device) →
  cursorOf device (perform_relay op db) = cursorOf device db.
Proof.
  unfold cursorOf. intros Hop. destruct op as [credential|principal request|principal poll]; cbn.
  - destruct (RotateCredential credential db) as [db' r] eqn:E. by apply rotate_inv in E as [[-> _]|(_ & _ & _ & _ & _ & ->)].
  - destruct (Enqueue principal request db) as [db' r] eqn:E.
    apply enqueue_inv in E as [[-> _]|(_ & _ & _ & _ & _ & _ & _ & ->)]; [done|]. cbn [fst].
    by rewrite (proj2 (proj2 (ensureDevice_same _ _)) device).
  - specialize (Hop principal poll eq_refl). destruct (Poll principal poll db) as [db' r] eqn:E.
    apply poll_inv in E as [[-> _]|(cursor & cursor' & _ & Hm & _)]; [done|]. cbn.
    trans (default 0%Z ((ensureDevice (deviceOf principal) db).(device_state) !! device)); [|apply ensureDevice_same].
    destruct (PollEnvelope_Responses poll); [by destruct Hm as (_ & -> & _)|].
    apply accept_inv in Hm as (? & ? & _ & _ & _ & _ & _ & _ & [(_ & -> & _)|(_ & _ & _ & ->)]); [done|].
    cbn. by rewrite lookup_insert_ne.
Qed.

Lemma polls_or_not device op :
  (∃ principal poll, op = OpPoll principal poll ∧ deviceOf principal = device) ∨
  (∀ principal poll, op = OpPoll principal poll → deviceOf principal ≠ device).
Proof.
  destruct op as [|principal request|principal poll]; [by right..|].
  destruct (decide (deviceOf principal = device)); [left; eauto|right]. by intros ? ? [= <- <-].
Qed.

(** A poll that succeeds leaves the cursor before a request of one of its projects. *)
Lemma poll_cursor principal poll db db' r qs :
  Poll principal poll db = (db', r) → queues db qs → (0 ≤ poll.(PollEnvelope_Cursor) < two64)%Z →
  db' = db ∨ queues db' qs ∧ cursorOf (deviceOf principal) db' = cursorOf (deviceOf principal) db ∨
  cursorOf (deviceOf principal) db' = (cursorOf (deviceOf principal) db + 1)%Z ∧
    ∀ row, db'.(requests) !! (deviceOf principal, u64 (cursorOf (deviceOf principal) db' + 1)) = Some row →
      row.(rr_project_id) ∈ principal.(Principal_Projects).
Proof.
  intros [[-> _]|(cursor & cursor' & Hc & Hm & _ & rs & _ & Hrs)]%poll_inv Hq Ht; [by left|right].
  assert (queues (ensureDevice (deviceOf principal) db) qs) as Hq0 by (eapply queues_same; [exact Hq|apply ensureDevice_same]).
  assert (cursorOf (deviceOf principal) (ensureDevice (deviceOf principal) db) = cursorOf (deviceOf principal) db) as E0
    by apply ensureDevice_same.
  destruct (PollEnvelope_Responses poll) as [|response rest]; [destruct Hm as (_ & -> & _); left; by split|].
  destruct (accept_queues _ _ _ _ _ _ _ _ Hm Hq0 Hc Ht) as [(H & -> & _)|(q' & _ & _ & Hs & Ec)]; [left; by split|right].
  rewrite <- E0. unfold cursorOf. rewrite Hs, Hc. cbn. split; [done|]. intros row Hrow. rewrite Hrow in Hrs. by destruct Hrs.
Qed.

(** Until a holder of the project polls, the cursor stays before the request. *)
Lemma halted device n row db db' :
  relay_reachable db → db.(requests) !! (device, n) = Some row → (cursorOf device db < n - 1)%Z →
  rtc (lacking_step device row.(rr_project_id)) db db' →
  relay_reachable db' ∧ (cursorOf device db' < n - 1)%Z ∧
  ∃ row', db'.(requests) !! (device, n) = Some row' ∧ row'.(rr_project_id) = row.(rr_project_id).
Proof.
  set (project := row.(rr_project_id)). assert (row.(rr_project_id) = project) as Ep by done. clearbody project.
  intros Hr Hrow Hc H. revert row Hr Hrow Hc Ep.
  induction H as [|db1 db2 db3 (op & Ht & Hop & ->) _ IH]; intros row Hr Hrow Hc Ep; [by eauto|].
  destruct (perform_row db1 op _ row Hr Ht Hrow) as (row2 & Hrow2 & [Hsame _]).
  assert (row2.(rr_project_id) = project) as Ep2 by by rewrite <- Ep, <- Hsame.
  apply (IH row2); [by apply relay_perform|done| |done].
  destruct (polls_or_not device op) as [(principal & poll & -> & <-)|Hno]; [|by rewrite cursor_other].
  destruct (reachable_queues _ Hr) as [qs Hq]. cbn [perform_relay] in Hrow2 |- *. destruct (Poll principal poll db1) as [db2 r] eqn:E. cbn [fst] in *.
  destruct (poll_cursor _ _ _ _ _ _ E Hq Ht) as [->|[[_ ->]|[Hcur Hnext]]]; [done..|]. rewrite Hcur in Hnext |- *.
  destruct (decide (cursorOf (deviceOf principal) db1 + 1 = n - 1)%Z) as [En|]; [|lia]. exfalso.
  pose proof (rq_bound _ _ _ (Hq (deviceOf principal))) as Hb. pose proof (rq_rows _ _ _ (Hq (deviceOf principal)) n) as Hrn.
  rewrite Hrow in Hrn. symmetry in Hrn. apply rowAt_inv in Hrn as (i & stored & -> & Hi%lookup_lt_Some & _).
  apply (Hop principal poll eq_refl eq_refl). rewrite <- Ep2. apply Hnext. rewrite En, u64_small; [|unfold two64; lia].
  cbn in *. by replace (Z.of_nat i + 1 - 1 + 1)%Z with (Z.of_nat i + 1)%Z by lia.
Qed.

(** The requests behind the cursor have no answer. *)
Lemma unanswered device db m row : relay_reachable db → (cursorOf device db < m)%Z →
  db.(requests) !! (device, m) = Some row → row.(rr_response_json) = None.
Proof.
  intros Hr Hm Hrow. destruct (reachable_queues _ Hr) as [qs Hq]. specialize (Hq device).
  rewrite (rq_rows _ _ _ Hq) in Hrow. apply rowAt_inv in Hrow as (i & stored & -> & _ & ->). cbn.
  apply lookup_ge_None_2. unfold cursorOf in Hm. rewrite (rq_cursor _ _ _ Hq) in Hm. lia.
Qed.

(** A poll that brings the answer of the request before one of a foreign project, or of
    a later one, is refused. *)
Lemma halted_poll principal poll db n row :
  relay_reachable db → db.(requests) !! (deviceOf principal, n) = Some row → (cursorOf (deviceOf principal) db < n - 1)%Z →
  row.(rr_project_id) ∉ principal.(Principal_Projects) → (n - 1 ≤ poll.(PollEnvelope_Cursor) < two64)%Z →
  (Poll principal poll db).1 = db ∧ is_ok (Poll principal poll db).2 = false.
Proof.
  intros Hr Hrow Hc Hp Hk. destruct (Poll principal poll db) as [db' r] eqn:E. cbn [fst snd].
  apply poll_inv in E as [?|(cursor & cursor' & Hcur & Hm & _ & rs & _ & Hrs)]; [done|exfalso].
  destruct (reachable_queues _ Hr) as [qs Hq].
  destruct (ensureDevice_same db (deviceOf principal)) as (Er & _ & Es).
  assert (cursor = cursorOf (deviceOf principal) db) as Ec by (unfold cursorOf; specialize (Es (deviceOf principal)); rewrite Hcur in Es; exact Es).
  destruct (PollEnvelope_Responses poll) as [|response rest]; [lia|].
  apply accept_inv in Hm as (row1 & encoded & Hrow1 & _ & _ & _ & _ & Hseq & Hcase). rewrite Er in Hrow1.
  assert (row1.(rr_response_json) = None) as Hn by (eapply unanswered; [exact Hr| |exact Hrow1]; lia).
  destruct Hcase as [(Hsome & _)|(_ & Hnext & -> & ->)]; [congruence|].
  pose proof (rq_bound _ _ _ (Hq (deviceOf principal))) as Hb. pose proof (rq_rows _ _ _ (Hq (deviceOf principal)) n) as Hrn.
  rewrite Hrow in Hrn. symmetry in Hrn. apply rowAt_inv in Hrn as (i & stored & -> & Hi%lookup_lt_Some & _).
  assert (0 ≤ cursor)%Z by (rewrite Ec; unfold cursorOf; rewrite (rq_cursor _ _ _ (Hq (deviceOf principal))); lia).
  rewrite (u64_small (cursor + 1)) in Hnext by (unfold two64; lia).
  assert (response.(ResponseEnvelope_Sequence) = Z.of_nat i) as Ei by lia. rewrite Ei in Hrs.
  rewrite u64_small in Hrs by (unfold two64; lia). cbn in Hrs.
  revert Hrs. rewrite lookup_insert_ne by (intros [= ?]; lia). rewrite Er, Hrow. intros [_ ?]. done.
Qed.

(** C18: A request for a project that the daemon's credential lacks halts the device.
    Let it be queued behind a request that is not answered yet. Then, as long as no
    credential with the project polls, the cursor never reaches the request before it;
    every poll that brings the answer of that one, or of a later one, is refused and
    undone; and that request and everything after it stay without an answer, whatever
    else is enqueued, polled or rotated. *)
Theorem foreign_project_halts_device device n row db db' :
  relay_reachable db → db.(requests) !! (device, n) = Some row → (cursorOf device db < n - 1)%Z →
  rtc (lacking_step device row.(rr_project_id)) db db' →
  (cursorOf device db' < n - 1)%Z ∧
  (∀ principal poll, deviceOf principal = device → row.(rr_project_id) ∉ principal.(Principal_Projects) →
     (n - 1 ≤ poll.(PollEnvelope_Cursor) < two64)%Z →
     (Poll principal poll db').1 = db' ∧ is_ok (Poll principal poll db').2 = false) ∧
  ∀ m row', (n - 1 ≤ m)%Z → db'.(requests) !! (device, m) = Some row' → row'.(rr_response_json) = None.
Proof.
  intros Hr Hrow Hc H. destruct (halted _ _ _ _ _ Hr Hrow Hc H) as (Hr' & Hc' & row' & Hrow' & Ep). split_and!; [done| |].
  - intros principal poll <- Hp Hk. rewrite <- Ep in Hp. by eapply halted_poll.
  - intros m row2 Hm Hrow2. eapply unanswered; [done| |done]. lia.
Qed.

End relay.

(** * The laptop *)

Lemma enqueue_once_witness :
  Enqueue (remote := sample_remote) laptopBrowser changedRequest answeredDB =
    (answeredDB, if enqueueDigest (RemoteEnv := sample_remote) changedRequest == enqueueDigest (RemoteEnv := sample_remote) firstRequest
                 then Ok (mkEnqueueResult 1 "n1") else Err ErrConflict).
Proof.
  eapply (enqueue_once (remote := sample_remote) laptopBrowser firstRequest credentialDB queuedDB); try reflexivity.
  - exact credentialDB_reachable.
  - apply rtc_once. exists (OpPoll laptopDaemon answeringPoll). split; [cbn; unfold two64; lia|reflexivity].
Defined.

Lemma answer_is_final_witness :
  ∃ res, Store_Result (remote := sample_remote) laptopBrowser 1 (Enqueue (remote := sample_remote) laptopBrowser foreignRequest answeredDB).1 = Ok res.
Proof.
  eexists. eapply (answer_is_final (remote := sample_remote) _ _ answeredDB); [|vm_compute; reflexivity|reflexivity|].
  - apply (perform_reachable (remote := sample_remote) _ (OpPoll laptopDaemon answeringPoll) _ queuedDB_reachable); [|reflexivity].
    cbn. unfold two64. lia.
  - apply rtc_once. by exists (OpEnqueue laptopBrowser foreignRequest).
Defined.

Lemma blocked_row : ∃ row, blockedDB.(requests) !! (laptop, 2%Z) = Some row ∧ row.(rr_project_id) = "q".
Proof.
  assert ((rr_project_id <$> blockedDB.(requests) !! (laptop, 2%Z)) = Some "q") as E by (vm_compute; reflexivity).
  apply fmap_Some in E as (row & Hrow & Eq). eauto.
Qed.

Lemma foreign_project_halts_device_witness :
  let db' := (RotateCredential (remote := sample_remote) (mkRelayCredential "alice" "laptop" RoleDaemon 2 "next-token" ["p"])
               (Poll (remote := sample_remote) laptopDaemon answeringPoll blockedDB).1).1 in
  (cursorOf laptop db' < 2 - 1)%Z ∧ ∃ row, row.(rr_project_id) = "q" ∧
  (∀ principal poll, deviceOf principal = laptop → row.(rr_project_id) ∉ principal.(Principal_Projects) →
     (2 - 1 ≤ poll.(PollEnvelope_Cursor) < two64)%Z →
     (Poll (remote := sample_remote) principal poll db').1 = db' ∧ is_ok (Poll (remote := sample_remote) principal poll db').2 = false) ∧
  ∀ m row', (2 - 1 ≤ m)%Z → db'.(requests) !! (laptop, m) = Some row' → row'.(rr_response_json) = None.
Proof.
  destruct blocked_row as (row & Hrow & Eq). cbv zeta.
  edestruct (foreign_project_halts_device (remote := sample_remote) laptop 2 row blockedDB
    (RotateCredential (remote := sample_remote) (mkRelayCredential "alice" "laptop" RoleDaemon 2 "next-token" ["p"])
      (Poll (remote := sample_remote) laptopDaemon answeringPoll blockedDB).1).1) as (H1 & H2 & H3).
  - by apply (perform_reachable (remote := sample_remote) _ (OpEnqueue laptopBrowser foreignRequest) _ queuedDB_reachable).
  - exact Hrow.
  - reflexivity.
  - rewrite Eq. eapply rtc_l; [exists (OpPoll laptopDaemon answeringPoll)|apply rtc_once; exists (OpRotateCredential
      (mkRelayCredential "alice" "laptop" RoleDaemon 2 "next-token" ["p"]))]; split_and!;
      try reflexivity; try (cbn; unfold two64; lia); [|done].
    intros principal poll [= <- <-] _. cbn. clear. set_solver.
  - split; [exact H1|]. exists row. split; [exact Eq|]. split; [exact H2|exact H3].
Defined.

(** The credentials of the relay: of the generations of a device's credential only the
    latest is good, and its holder is exactly who the latest rotation says. And what
    follows when a daemon's credential lacks a project that a browser's one has. *)

Section relay.
Context {remote : RemoteEnv}.
Implicit Types (db : RelayDB) (device : Device) (key : Device * string * Z).

(** * The table of credentials *)

Record credentials_ok db : Prop := {
  co_typed key row : db.(relay_credentials) !! key = Some row → (0 ≤ key.2 < 9223372036854775808)%Z;
  co_latest key key' row row' : db.(relay_credentials) !! key = Some row → row.(rc_active) = true →
    db.(relay_credentials) !! key' = Some row' → key'.1 = key.1 → (key'.2 ≤ key.2)%Z;
  co_hash key key' row row' : db.(relay_credentials) !! key = Some row → db.(relay_credentials) !! key' = Some row' →
    row.(rc_token_hash) = row'.(rc_token_hash) → key = key';
}.

Lemma deactivate_lookup device role db key :
  (deactivate device role db).(relay_credentials) !! key =
  (λ row, if bool_decide (key.1 = (device, role)) then row <| rc_active := false |> else row) <$> db.(relay_credentials) !! key.
Proof. unfold deactivate. cbn. rewrite map_lookup_imap. by destruct (_ !! key). Qed.

Lemma deactivate_Some device role db key row :
  (deactivate device role db).(relay_credentials) !! key = Some row →
  ∃ row0, db.(relay_credentials) !! key = Some row0 ∧ row.(rc_token_hash) = row0.(rc_token_hash) ∧
    (row.(rc_active) = true → row0.(rc_active) = true ∧ key.1 ≠ (device, role)).
Proof.
  rewrite deactivate_lookup. intros (row0 & Hrow & ->)%fmap_Some. exists row0. case_bool_decide; cbn; by split_and!.
Qed.

Lemma maxGeneration_ge device role db g row :
  db.(relay_credentials) !! (device, role, g) = Some row → ∃ m, maxGeneration device role db = Some m ∧ (g ≤ m)%Z.
Proof.
  intros Hrow. assert (g ∈ generationsOf device role db) as Hin.
  { apply list_elem_of_fmap. exists (device, role, g, row). split; [done|]. apply rowsWhere_elem. split; [done|].
    cbn. by rewrite bool_decide_true. }
  unfold maxGeneration. destruct (generationsOf device role db) as [|g0 gs]; [by apply not_elem_of_nil in Hin|].
  eexists. split; [done|]. apply elem_of_cons in Hin as [->|Hin]; [clear; induction gs; cbn; lia|].
  clear -Hin. induction Hin; cbn; lia.
Qed.

Lemma maxGeneration_elem device role db m :
  maxGeneration device role db = Some m → ∃ row, db.(relay_credentials) !! (device, role, m) = Some row.
Proof.
  intros H. assert (m ∈ generationsOf device role db) as Hin.
  { unfold maxGeneration in H. destruct (generationsOf device role db) as [|g0 gs]; [done|]. injection H as <-.
    induction gs as [|g gs IH]; cbn; [by left|].
    destruct (Z.max_spec g (foldr Z.max g0 gs)) as [[_ ->]|[_ ->]]; [|by right; left].
    apply elem_of_cons in IH as [->|IH]; [by left|by do 2 right]. }
  apply list_elem_of_fmap in Hin as ([[[d r] g] row] & -> & [Hl Hp]%rowsWhere_elem). cbn in *.
  apply bool_decide_eq_true in Hp as [= -> ->]. eauto.
Qed.

Lemma credentials_ok_rotate credential db db' r :
  typed_op (OpRotateCredential credential) → RotateCredential credential db = (db', r) →
  credentials_ok db → credentials_ok db'.
Proof.
  cbn. intros [Ht0 _] [[-> _]|(_ & Hfree & Hhash & Hmax & Htyped & ->)]%rotate_inv Hok; [done|].
  destruct Hok as [Hty Hlast Hu].
  set (device := (credential.(RelayCredential_AccountID), credential.(RelayCredential_DeviceID))) in *. set (role := credential.(RelayCredential_Role)) in *.
  set (generation := credential.(RelayCredential_Generation)) in *.
  assert (∀ key row, db.(relay_credentials) !! key = Some row → key.1 = (device, role) → (key.2 < generation)%Z) as Hlt.
  { intros [[d ro] g] row Hrow [= -> ->]. destruct (maxGeneration_ge _ _ _ _ _ Hrow) as (m & Hm & Hle). cbn.
    pose proof (Hmax m Hm) as Hlt. destruct (maxGeneration_elem _ _ _ _ Hm) as [rowm Hrowm%Hty]. cbn in Hrowm.
    rewrite u64_small in Hlt by (unfold two64; lia). lia. }
  split; cbn.
  - intros key row [[<- <-]|[_ (row0 & Hrow & _)%deactivate_Some]]%lookup_insert_Some; [cbn; lia|by eapply Hty].
  - intros key key' row row' [[<- <-]|[Hne (row0 & Hrow & _ & Ha)%deactivate_Some]]%lookup_insert_Some Hact
      [[<- <-]|[_ (row0' & Hrow' & _)%deactivate_Some]]%lookup_insert_Some E; cbn in *.
    + lia.
    + apply Z.lt_le_incl. by eapply Hlt.
    + by apply Ha in Hact as [_ Hact].
    + apply Ha in Hact as [Hact _]. by eapply Hlast.
  - intros key key' row row' [[<- <-]|[Hne Hr]]%lookup_insert_Some [[<- <-]|[Hne' Hr']]%lookup_insert_Some E; [done| | |].
    + by apply Hhash in Hr'.
    + by apply Hhash in Hr.
    + apply deactivate_Some in Hr as (? & Hr & Eh & _), Hr' as (? & Hr' & Eh' & _). eapply Hu; [done..|]. congruence.
Qed.

Lemma same_credentials op db :
  match op with OpRotateCredential _ => True | _ => (perform_relay op db).(relay_credentials) = db.(relay_credentials) end.
Proof.
  assert (∀ device db, (ensureDevice device db).(relay_credentials) = db.(relay_credentials)) as Hens
    by (intros; unfold ensureDevice; by case_match).
  destruct op as [|principal request|principal poll]; [done|cbn..].
  - destruct (Enqueue principal request db) as [db' r] eqn:E.
    apply enqueue_inv in E as [[-> _]|(_ & _ & _ & _ & _ & _ & _ & ->)]; [done|]. by etrans; [apply Hens|].
  - destruct (Poll principal poll db) as [db' r] eqn:E.
    apply poll_inv in E as [[-> _]|(cursor & cursor' & _ & Hm & _)]; [done|]. etrans; [|apply (Hens (deviceOf principal))].
    destruct (PollEnvelope_Responses poll); [by destruct Hm as (_ & -> & _)|].
    by apply accept_inv in Hm as (? & ? & _ & _ & _ & _ & _ & _ & [(_ & -> & _)|(_ & _ & _ & ->)]).
Qed.

Lemma reachable_credentials db : relay_reachable db → credentials_ok db.
Proof.
  induction 1 as [|db op _ IH Ht]; [by split; cbn; intros *; rewrite lookup_empty|].
  pose proof (same_credentials op db) as E. destruct op as [credential|principal request|principal poll].
  - cbn. destruct (RotateCredential credential db) as [db' r] eqn:Er. by eapply credentials_ok_rotate.
  - destruct IH. split; rewrite E; eauto.
  - destruct IH. split; rewrite E; eauto.
Qed.

(** * Authentication *)

Definition authenticated (key : Device * string * Z) (projects : list string) : Principal :=
  mkPrincipal key.1.1.1 key.1.1.2 key.1.2 key.2 (list_to_set projects).

Lemma Authenticate_inv token role db p :
  Authenticate token role db = Ok p →
  ∃ key row projects, db.(relay_credentials) !! key = Some row ∧ row.(rc_token_hash) = tokenHash token ∧
    row.(rc_active) = true ∧ key.1.2 = role ∧ unmarshalProjects row.(rc_projects_json) = Some projects ∧
    p = authenticated key projects.
Proof.
  unfold Authenticate. intros H. apply bind_Ok in H as ([] & _ & H).
  set (P := λ kv : Device * string * Z * RelayCredentialRow, _) in H.
  destruct (rowsWhere P _) as [|[[[device ro] g] row] rest] eqn:E; [done|].
  assert ((device, ro, g, row) ∈ rowsWhere P db.(relay_credentials)) as [Hl Hp]%rowsWhere_elem by (rewrite E; by left).
  unfold P in Hp. cbn in Hl, Hp. inv_ok. inv_bool. exists (device, ro, g), row. eexists. by split_and!.
Qed.

Lemma Authenticate_intro token db key row projects :
  credentials_ok db → db.(relay_credentials) !! key = Some row → row.(rc_token_hash) = tokenHash token →
  row.(rc_active) = true → token ≠ "" → key.1.2 = RoleDaemon ∨ key.1.2 = RoleBrowser →
  unmarshalProjects row.(rc_projects_json) = Some projects → Forall (λ project, validID project = true) projects →
  Authenticate token key.1.2 db = Ok (authenticated key projects).
Proof.
  intros Hok Hrow Hh Ha Ht Hrole Hu Hp. unfold Authenticate.
  assert ((token == "") || ((key.1.2 != RoleDaemon) && (key.1.2 != RoleBrowser)) = false) as ->.
  { rewrite (proj2 (String.eqb_neq _ _) Ht). by destruct Hrole as [-> | ->]. }
  cbn [fail_if mbind result_bind]. set (P := λ kv : Device * string * Z * RelayCredentialRow, _).
  assert ((key, row) ∈ rowsWhere P db.(relay_credentials)) as Hin.
  { apply rowsWhere_elem. split; [done|]. unfold P. cbn. by rewrite Hh, Ha, !String.eqb_refl. }
  destruct (rowsWhere P _) as [|[[[device ro] g] row'] rest] eqn:E; [by apply not_elem_of_nil in Hin|].
  assert ((device, ro, g, row') ∈ rowsWhere P db.(relay_credentials)) as [Hl HP]%rowsWhere_elem by (rewrite E; by left).
  unfold P in HP. cbn in Hl, HP. inv_bool.
  assert (key = (device, ro, g)) as -> by (eapply (co_hash _ Hok); [done..|congruence]).
  assert (row' = row) as -> by congruence. rewrite Hu. cbn [non_nil mbind result_bind].
  assert (forallb validID projects = true) as -> by by apply forallb_forall, List.Forall_forall.
  done.
Qed.

Lemma checkProject_Ok seen project seen' :
  checkProject seen project = Ok seen' → validID project = true.
Proof. unfold checkProject. intros H. inv_ok. inv_bool. done. Qed.

Lemma checkProjects_Ok seen projects seen' :
  for_each checkProject seen projects = Ok seen' → Forall (λ project, validID project = true) projects.
Proof.
  revert seen. induction projects as [|project projects IH]; intros seen H; [constructor|]. cbn in H.
  apply bind_Ok in H as (seen1 & H1 & H). constructor; [by eapply checkProject_Ok|by eapply IH].
Qed.

Lemma rotate_valid credential db db' :
  RotateCredential credential db = (db', Ok tt) →
  (credential.(RelayCredential_Role) = RoleDaemon ∨ credential.(RelayCredential_Role) = RoleBrowser) ∧
  credential.(RelayCredential_Token) ≠ "" ∧ Forall (λ project, validID project = true) credential.(RelayCredential_Projects).
Proof.
  unfold RotateCredential. intros [(a & H & _)|[_ ?]]%transact_cases; [|done].
  apply bind_Ok in H as ([] & Hv & H). apply bind_Ok in H as (seen & Hp & _). apply checkProjects_Ok in Hp.
  apply fail_if_Ok in Hv. inv_bool. split_and!; [|intros E; rewrite E in *; done|done].
  match goal with H : (_ != RoleDaemon) && _ = false |- _ => apply andb_false_iff in H as [H|H]; apply negb_false_iff, String.eqb_eq in H; auto end.
Qed.

(** A rotation replaces. After a successful [RotateCredential] the new token
    authenticates as exactly the device, the generation and the projects of the
    rotation, and no other token authenticates for that device in that role: one
    that does has the digest of the new one and is the same principal. The encoding
    of the projects is assumed to be read back as it was written. *)
Theorem rotation_replaces credential db db' :
  relay_reachable db → typed_op (OpRotateCredential credential) →
  unmarshalProjects (marshalProjects credential.(RelayCredential_Projects)) = Some credential.(RelayCredential_Projects) →
  RotateCredential credential db = (db', Ok tt) →
  let device := (credential.(RelayCredential_AccountID), credential.(RelayCredential_DeviceID)) in
  let holder := mkPrincipal device.1 device.2 credential.(RelayCredential_Role)
                  credential.(RelayCredential_Generation) (list_to_set credential.(RelayCredential_Projects)) in
  Authenticate credential.(RelayCredential_Token) credential.(RelayCredential_Role) db' = Ok holder ∧
  ∀ token p, Authenticate token credential.(RelayCredential_Role) db' = Ok p → deviceOf p = device →
    tokenHash token = tokenHash credential.(RelayCredential_Token) ∧ p = holder.
Proof.
  intros Hr Ht Hjson H. cbv zeta. destruct (rotate_valid _ _ _ H) as (Hrole & Htoken & Hprojects).
  set (device := (credential.(RelayCredential_AccountID), credential.(RelayCredential_DeviceID))). set (role := credential.(RelayCredential_Role)) in *.
  set (key := (device, role, credential.(RelayCredential_Generation))).
  pose proof (credentials_ok_rotate _ _ _ _ Ht H (reachable_credentials _ Hr)) as Hok.
  set (row := mkRelayCredentialRow (tokenHash credential.(RelayCredential_Token))
                (marshalProjects credential.(RelayCredential_Projects)) true).
  assert (db'.(relay_credentials) !! key = Some row) as Hrow.
  { apply rotate_inv in H as [[-> H]|(_ & _ & _ & _ & _ & ->)]; [by apply H|]. cbn. by rewrite lookup_insert_eq. }
  split; [by eapply (Authenticate_intro _ _ key row)|].
  intros token p ([[d ro] g] & row' & projects & Hrow' & Hh & Ha & Ero & Hu & ->)%Authenticate_inv Hdev.
  cbn in Ero, Hdev. destruct d as [account dev]. cbn in *. injection Hdev as -> ->. subst ro.
  assert (g = credential.(RelayCredential_Generation)) as ->.
  { apply Z.le_antisymm; [by apply (co_latest _ Hok key (device, role, g) row row')|].
    by apply (co_latest _ Hok (device, role, g) key row' row). }
  assert (Some row' = Some row) as [= ->] by (etrans; [symmetry; exact Hrow'|exact Hrow]). cbn in *.
  rewrite Hjson in Hu. injection Hu as <-. by split.
Qed.

End relay.

Lemma rotation_replaces_witness :
  Authenticate (remote := sample_remote) "browser-token" RoleBrowser credentialDB = Ok laptopBrowser ∧
  ∀ token p, Authenticate (remote := sample_remote) token RoleBrowser credentialDB = Ok p → deviceOf p = ("alice", "laptop") →
    tokenHash (remote := sample_remote) token = tokenHash (remote := sample_remote) "browser-token" ∧ p = laptopBrowser.
Proof.
  apply (rotation_replaces (remote := sample_remote) browserCredential (RotateCredential (remote := sample_remote) daemonCredential RelayDB_empty).1);
    [|cbn; unfold two64; lia|vm_compute; reflexivity..].
  apply (perform_reachable (remote := sample_remote) _ (OpRotateCredential daemonCredential) _ relay_empty); [|reflexivity].
  cbn. unfold two64. lia.
Defined.
