(* ===== verification/BridgeState.v ===== *)
(** The durable state of a bridge (internal/agobridge/client.go) and the file that keeps
    it (internal/agobridge/localstore_unix.go): a compare-and-swap by revision over a
    file that is replaced by a rename. *)
From S2P Require Import Prelude RelayStore.

Definition defaultMaxRemembered : Z := 4096%Z.
Definition maxIdentityBytes : Z := 512%Z.
Definition maxActionBytes : Z := 256%Z.
Definition maxNonceBytes : Z := 512%Z.
Definition maxStoredEvidence : Z := defaultMaxRemembered.

Definition ErrorConflict : string := "conflict".
Definition ErrorUnknownOutcome : string := "unknown_outcome".
Definition orderConflict : string := "sequence already used by a different request".

Definition EvidencePrepared : string := "prepared".
Definition EvidenceCompleted : string := "completed".

Definition ErrStateConflict : error := ErrNew "agobridge: durable state revision conflict".

(** * Data *)

Record BridgeIdentity : Type := mkBridgeIdentity { BridgeIdentity_AccountID : string; BridgeIdentity_DeviceID : string }.

Record BridgeEvidence : Type := mkBridgeEvidence {
  BridgeEvidence_Sequence : Z; BridgeEvidence_Nonce : string; BridgeEvidence_RequestDigest : string; BridgeEvidence_Status : string;
  BridgeEvidence_Response : option ResponseEnvelope;
}.
#[export] Instance BridgeEvidence_eta : Eta BridgeEvidence := λ r, mkBridgeEvidence (r.(BridgeEvidence_Sequence)) (r.(BridgeEvidence_Nonce))
  (r.(BridgeEvidence_RequestDigest)) (r.(BridgeEvidence_Status)) (r.(BridgeEvidence_Response)).

Record PendingResponse : Type := mkPendingResponse {
  PendingResponse_RequestDigest : string; PendingResponse_Response : ResponseEnvelope;
}.

Record State : Type := mkState {
  State_Revision : Z; State_Cursor : Z; State_Pending : option PendingResponse; State_Evidence : list BridgeEvidence;
}.
#[export] Instance State_eta : Eta State := λ r, mkState (r.(State_Revision)) (r.(State_Cursor)) (r.(State_Pending))
  (r.(State_Evidence)).
Definition State_zero : State := mkState 0 0 None [].

(** The elements of a list with their indices. *)
Definition indexed {A} (l : list A) : list (Z * A) := imap (λ i x, (Z.of_nat i, x)) l.

(** The digits of an encoded SHA-256: [hex.DecodeString] takes either case,
    [hex.EncodeToString] writes the lower one. *)
Definition hexDigit (c : Ascii.ascii) : bool :=
  let n := Ascii.N_of_ascii c in ((48 <=? n) && (n <=? 57) || (97 <=? n) && (n <=? 102))%N.
Definition anyHexDigit (c : Ascii.ascii) : bool :=
  let n := Ascii.N_of_ascii c in (hexDigit c || (65 <=? n) && (n <=? 70))%N.
Definition isDigest (s : string) : bool := (len s =? 64)%Z && forallb hexDigit (String.list_ascii_of_string s).
Definition isAnyDigest (s : string) : bool := (len s =? 64)%Z && forallb anyHexDigit (String.list_ascii_of_string s).

Section file.
Context {remote : RemoteEnv}.

Definition responsesEqual (first second : ResponseEnvelope) : bool :=
  match marshalResponse first, marshalResponse second with
  | Ok firstJSON, Ok secondJSON => firstJSON == secondJSON
  | _, _ => false
  end.

(** * Validation *)

Definition completedResponseMismatch (identity : BridgeIdentity) (evidence : BridgeEvidence) (response : ResponseEnvelope) : bool :=
  negb (response.(ResponseEnvelope_Sequence) =? evidence.(BridgeEvidence_Sequence))%Z ||
  (response.(ResponseEnvelope_Nonce) != evidence.(BridgeEvidence_Nonce)) ||
  (response.(ResponseEnvelope_AccountID) != identity.(BridgeIdentity_AccountID)) ||
  (response.(ResponseEnvelope_DeviceID) != identity.(BridgeIdentity_DeviceID)) ||
  ((0 <? len response.(ResponseEnvelope_Payload))%Z && negb (remote_json_Valid response.(ResponseEnvelope_Payload))).

Definition validateEvidence (identity : BridgeIdentity) (state : State) (index : Z) (evidence : BridgeEvidence) : result unit :=
  fail_if (negb (evidence.(BridgeEvidence_Sequence) =? u64 (index + 1))%Z ||
    negb (validIdentity evidence.(BridgeEvidence_Nonce) maxNonceBytes) || negb (len evidence.(BridgeEvidence_RequestDigest) =? 64)%Z ||
    ((evidence.(BridgeEvidence_Status) != EvidencePrepared) && (evidence.(BridgeEvidence_Status) != EvidenceCompleted)))
    (ErrNew "agobridge: invalid durable state evidence") ;;
  fail_if (negb (isDigest evidence.(BridgeEvidence_RequestDigest))) (ErrNew "agobridge: invalid durable state digest") ;;
  if evidence.(BridgeEvidence_Status) == EvidencePrepared then
    fail_if (is_Some_b evidence.(BridgeEvidence_Response) ||
      negb (index =? Z.of_nat (length state.(State_Evidence)) - 1)%Z ||
      (evidence.(BridgeEvidence_Sequence) <? state.(State_Cursor))%Z ||
      (u64 (state.(State_Cursor) + 1) <? evidence.(BridgeEvidence_Sequence))%Z) (ErrNew "agobridge: invalid prepared durable evidence")
  else
    fail_if ((state.(State_Cursor) <? evidence.(BridgeEvidence_Sequence))%Z ||
      match evidence.(BridgeEvidence_Response) with
      | None => true
      | Some response => completedResponseMismatch identity evidence response
      end) (ErrNew "agobridge: invalid completed durable evidence").

(** The response of a request whose sequence was used by another one. *)
Definition conflictResponse (response : ResponseEnvelope) : bool :=
  (len response.(ResponseEnvelope_Payload) =? 0)%Z && validIdentity response.(ResponseEnvelope_Nonce) maxNonceBytes &&
  match response.(ResponseEnvelope_Error) with
  | Some e => (e.(ResponseError_Code) == ErrorConflict) && (e.(ResponseError_Message) == orderConflict)
  | None => false
  end.

Definition pendingMatches (evidence : BridgeEvidence) (pending : PendingResponse) : bool :=
  (evidence.(BridgeEvidence_Status) == EvidenceCompleted) &&
  (evidence.(BridgeEvidence_RequestDigest) == pending.(PendingResponse_RequestDigest)) &&
  match evidence.(BridgeEvidence_Response) with
  | Some response => responsesEqual response pending.(PendingResponse_Response)
  | None => false
  end.

Definition pendingConflicts (digestValid : string → bool) (evidence : BridgeEvidence) (pending : PendingResponse) : bool :=
  (evidence.(BridgeEvidence_Status) == EvidenceCompleted) &&
  (evidence.(BridgeEvidence_RequestDigest) != pending.(PendingResponse_RequestDigest)) &&
  digestValid pending.(PendingResponse_RequestDigest) && conflictResponse pending.(PendingResponse_Response).

Definition validatePending (identity : BridgeIdentity) (state : State) (pending : PendingResponse) : result unit :=
  let response := pending.(PendingResponse_Response) in
  fail_if ((response.(ResponseEnvelope_Sequence) =? 0)%Z ||
    (Z.of_nat (length state.(State_Evidence)) <? response.(ResponseEnvelope_Sequence))%Z ||
    negb (response.(ResponseEnvelope_Sequence) =? state.(State_Cursor))%Z ||
    (response.(ResponseEnvelope_AccountID) != identity.(BridgeIdentity_AccountID)) ||
    (response.(ResponseEnvelope_DeviceID) != identity.(BridgeIdentity_DeviceID)))
    (ErrNew "agobridge: invalid durable pending response") ;;
  match state.(State_Evidence) !! Z.to_nat (response.(ResponseEnvelope_Sequence) - 1) with
  | None => Panic
  | Some evidence =>
      fail_if (negb (pendingMatches evidence pending) && negb (pendingConflicts isDigest evidence pending))
        (ErrNew "agobridge: durable pending response does not match evidence")
  end.

(** The number of evidences is about the cursor. *)
Definition cursorMismatch (state : State) : bool :=
  (Z.of_nat (length state.(State_Evidence)) <? state.(State_Cursor))%Z ||
  (u64 (state.(State_Cursor) + 1) <? Z.of_nat (length state.(State_Evidence)))%Z.

Definition validateFileState (identity : BridgeIdentity) (state : State) : result unit :=
  fail_if ((maxStoredEvidence <? Z.of_nat (length state.(State_Evidence)))%Z || cursorMismatch state)
    (ErrNew "agobridge: durable state evidence exceeds bound") ;;
  for_each (λ _ '(index, evidence), validateEvidence identity state index evidence) tt (indexed state.(State_Evidence)) ;;
  match state.(State_Pending) with
  | Some pending => validatePending identity state pending
  | None => Ok tt
  end.

Definition validateBridgeIdentity (identity : BridgeIdentity) : result unit :=
  fail_if (negb (validIdentity identity.(BridgeIdentity_AccountID) maxIdentityBytes) ||
    negb (validIdentity identity.(BridgeIdentity_DeviceID) maxIdentityBytes)) (ErrNew "agobridge: invalid bridge identity").

(** * The file *)

(** A state as it is read back from the file: [encodeDiskState], then [decodeDiskState],
    whose checksum and version match what was written. *)
Definition writtenEvidence (evidence : BridgeEvidence) : BridgeEvidence :=
  evidence <| BridgeEvidence_Response := writtenResponse <$> evidence.(BridgeEvidence_Response) |>.
Definition writtenPending (pending : PendingResponse) : PendingResponse :=
  mkPendingResponse pending.(PendingResponse_RequestDigest) (writtenResponse pending.(PendingResponse_Response)).
Definition writtenState (state : State) : State :=
  state <| State_Pending := writtenPending <$> state.(State_Pending) |>
        <| State_Evidence := writtenEvidence <$> state.(State_Evidence) |>.

(** What is read from the file now, and what would be read after a loss of power. *)
Record BridgeFile : Type := mkBridgeFile { bf_visible : option State; bf_durable : option State }.
Definition BridgeFile_empty : BridgeFile := mkBridgeFile None None.

Definition loadLocked (identity : BridgeIdentity) (file : BridgeFile) : result State :=
  match file.(bf_visible) with
  | None => Ok State_zero
  | Some state => validateFileState identity state ;; Ok state
  end.

(** How an operation on the file may fail: before anything is changed (a cancelled
    context, the lock, the size of the file, any step up to the rename), or when the
    directory is synchronised after the rename. *)
Inductive FileFault : Type :=
  | Refused (err : error)
  | Unsynced (err : error).

Definition FileLoad (identity : BridgeIdentity) (fault : option FileFault) (file : BridgeFile) : result State :=
  validateBridgeIdentity identity ;;
  match fault with Some (Refused err | Unsynced err) => Err err | None => loadLocked identity file end.

Definition FileCommit (identity : BridgeIdentity) (fault : option FileFault) (expectedRevision : Z) (state : State)
    (file : BridgeFile) : BridgeFile * result Z :=
  let next :=
    validateBridgeIdentity identity ;;
    match fault with Some (Refused err) => Err err | _ => Ok tt end ;;
    current ← loadLocked identity file;
    fail_if (negb (current.(State_Revision) =? expectedRevision)%Z) ErrStateConflict ;;
    let state := state <| State_Revision := u64 (expectedRevision + 1) |> in
    fail_if (state.(State_Revision) =? 0)%Z (ErrNew "agobridge: state revision overflow") ;;
    validateFileState identity state ;;
    Ok state in
  match next with
  | Ok state =>
      match fault with
      | Some (Unsynced err) => (mkBridgeFile (Some (writtenState state)) file.(bf_durable), Err err)
      | _ => (mkBridgeFile (Some (writtenState state)) (Some (writtenState state)), Ok state.(State_Revision))
      end
  | Err err => (file, Err err)
  | Panic => (file, Panic)
  end.

End file.
