(* ===== verification/Bridge.v ===== *)
(** The bridge of a daemon (internal/agobridge/client.go): a client that polls a relay,
    keeps evidence of every request before it executes it, and answers with what the
    evidence says. Its methods are processes; one file may be shared by several. *)
From S2P Require Import Prelude Process Concurrent Auth RelayStore BridgeState.

Definition ErrorUnauthorized : string := "unauthorized".
Definition ErrorReplay : string := "replay".
Definition ErrorAuthorizationRequired : string := "authorization_required".
Definition ErrorInvalidRequest : string := "invalid_request".
Definition ErrorExecutionFailed : string := "execution_failed".
Definition ErrorStateUnavailable : string := "state_unavailable".

Definition ErrCertificatePin : string := "agobridge: relay certificate pin mismatch".
Definition ErrSequence : error := ErrNew "agobridge: invalid relay sequence".
Definition ErrStateCapacity : error := ErrNew "agobridge: durable replay evidence capacity reached".

(** * Data *)

(** An operation on a published thread: what [Mutation] returns, and what it is. *)
Record BridgeOperation : Type := mkBridgeOperation { Operation_Mutation : bool; Operation_handle : string }.

Record ExecutionRequest : Type := mkExecutionRequest {
  ExecutionRequest_AccountID : string; ExecutionRequest_DeviceID : string; ExecutionRequest_ProjectID : string;
  ExecutionRequest_ThreadID : string; ExecutionRequest_Action : string; ExecutionRequest_Nonce : string;
  ExecutionRequest_Sequence : Z; ExecutionRequest_AuthorizationToken : string; ExecutionRequest_Payload : string;
}.

Record MutationAuthorization : Type := mkMutationAuthorization {
  MutationAuthorization_AccountID : string; MutationAuthorization_DeviceID : string;
  MutationAuthorization_ProjectID : string; MutationAuthorization_ThreadID : string;
  MutationAuthorization_Action : string; MutationAuthorization_Nonce : string; MutationAuthorization_Sequence : Z;
  MutationAuthorization_AuthorizationToken : string;
}.

(** The configuration; durations in nanoseconds. [HasPublications] and the like say
    whether the interface is not nil. *)
Record BridgeConfig : Type := mkBridgeConfig {
  BridgeConfig_RelayURL : string; BridgeConfig_CertificatePin : string; BridgeConfig_BearerToken : string;
  BridgeConfig_AccountID : string; BridgeConfig_DeviceID : string; BridgeConfig_AllowedProjects : gset string;
  BridgeConfig_HasPublications : bool; BridgeConfig_HasAuthorization : bool; BridgeConfig_HasStateStore : bool;
  BridgeConfig_PollTimeout : Z; BridgeConfig_RequestTimeout : Z; BridgeConfig_ExecutionTimeout : Z;
  BridgeConfig_MinBackoff : Z; BridgeConfig_MaxBackoff : Z; BridgeConfig_MaxBodyBytes : Z;
  BridgeConfig_MaxRemembered : Z;
}.
#[export] Instance BridgeConfig_eta : Eta BridgeConfig := λ r, mkBridgeConfig (r.(BridgeConfig_RelayURL))
  (r.(BridgeConfig_CertificatePin)) (r.(BridgeConfig_BearerToken)) (r.(BridgeConfig_AccountID))
  (r.(BridgeConfig_DeviceID)) (r.(BridgeConfig_AllowedProjects)) (r.(BridgeConfig_HasPublications))
  (r.(BridgeConfig_HasAuthorization)) (r.(BridgeConfig_HasStateStore)) (r.(BridgeConfig_PollTimeout))
  (r.(BridgeConfig_RequestTimeout)) (r.(BridgeConfig_ExecutionTimeout)) (r.(BridgeConfig_MinBackoff))
  (r.(BridgeConfig_MaxBackoff)) (r.(BridgeConfig_MaxBodyBytes)) (r.(BridgeConfig_MaxRemembered)).

(** The state of a client, with the two indexes of its evidence. *)
Record Client : Type := mkClient {
  Client_state : State; Client_bySequence : gmap Z nat; Client_nonces : gmap string Z;
}.
#[export] Instance Client_eta : Eta Client := λ r, mkClient (r.(Client_state)) (r.(Client_bySequence)) (r.(Client_nonces)).

(** * Calls *)

Inductive bridge_call : Type :=
  | LoadState
  | CommitState (expected : Z) (state : State)
  | SendPoll (poll : PollEnvelope)
  | ResolvePublished (project thread action : string)
  | AuthorizeBridged (request : MutationAuthorization)
  | ExecuteOperation (operation : BridgeOperation) (request : ExecutionRequest)
  | BridgeContextErr
  | BridgeSleep (duration : Z).

Definition bridge_answer (c : bridge_call) : Type :=
  match c with
  | LoadState => result State
  | CommitState _ _ => result Z
  | SendPoll _ => result PollResult
  | ResolvePublished _ _ _ => option BridgeOperation
  | AuthorizeBridged _ => result unit
  | ExecuteOperation _ _ => result string
  | BridgeContextErr => option error
  | BridgeSleep _ => result unit
  end.

Abbreviation bridge_go A := (go bridge_answer A).
Abbreviation bridge A := (method bridge_answer Client A).

(** * Configuration *)

(** How a URL is parsed (its fields as in [Auth]). *)
Class BridgeEnv : Type := { bridge_url_Parse : string → option URL }.

(** [strings.ContainsAny] for the bytes 13 and 10. *)
Definition containsNewline (value : string) : bool :=
  existsb (λ c, existsb (Ascii.eqb c) (bytes [13; 10])) (String.list_ascii_of_string value).

Definition positiveOr (value default : Z) : Z := if (value <=? 0)%Z then default else value.

Definition applyDefaults (config : BridgeConfig) : BridgeConfig :=
  config <| BridgeConfig_PollTimeout := positiveOr config.(BridgeConfig_PollTimeout) 30000000000 |>
         <| BridgeConfig_RequestTimeout := positiveOr config.(BridgeConfig_RequestTimeout) 35000000000 |>
         <| BridgeConfig_ExecutionTimeout := positiveOr config.(BridgeConfig_ExecutionTimeout) 30000000000 |>
         <| BridgeConfig_MinBackoff := positiveOr config.(BridgeConfig_MinBackoff) 250000000 |>
         <| BridgeConfig_MaxBackoff := positiveOr config.(BridgeConfig_MaxBackoff) 10000000000 |>
         <| BridgeConfig_MaxBodyBytes := positiveOr config.(BridgeConfig_MaxBodyBytes) 1048576 |>
         <| BridgeConfig_MaxRemembered := positiveOr config.(BridgeConfig_MaxRemembered) defaultMaxRemembered |>.

Section client.
Context {remote : RemoteEnv} {env : BridgeEnv}.

(** What [New] checks before it loads the state, giving the configuration it uses. *)
Definition checkConfig (config : BridgeConfig) : result BridgeConfig :=
  relayURL ← non_nil (bridge_url_Parse config.(BridgeConfig_RelayURL)) (ErrNew "agobridge: relay URL must be an HTTPS origin");
  fail_if ((relayURL.(URL_Scheme) != "https") || (relayURL.(URL_Host) == "") || relayURL.(URL_User) ||
    (relayURL.(URL_RawQuery) != "") || (relayURL.(URL_Fragment) != "")) (ErrNew "agobridge: relay URL must be an HTTPS origin") ;;
  fail_if ((relayURL.(URL_Path) != "") && (relayURL.(URL_Path) != "/")) (ErrNew "agobridge: relay URL must not contain a path") ;;
  fail_if (negb (isAnyDigest config.(BridgeConfig_CertificatePin)))
    (ErrNew "agobridge: certificate pin must be a SHA-256 hex digest") ;;
  fail_if ((len config.(BridgeConfig_BearerToken) =? 0)%Z || (8192 <? len config.(BridgeConfig_BearerToken))%Z ||
    containsNewline config.(BridgeConfig_BearerToken) ||
    negb (validIdentity config.(BridgeConfig_AccountID) maxIdentityBytes) ||
    negb (validIdentity config.(BridgeConfig_DeviceID) maxIdentityBytes))
    (ErrNew "agobridge: relay credentials and account/device identity are required") ;;
  fail_if (bool_decide (config.(BridgeConfig_AllowedProjects) = ∅) || negb config.(BridgeConfig_HasPublications) ||
    negb config.(BridgeConfig_HasStateStore)) (ErrNew "agobridge: project ACL, publications, and durable state store are required") ;;
  fail_if (negb (forallb (λ projectID, validIdentity projectID maxIdentityBytes) (elements config.(BridgeConfig_AllowedProjects))))
    (ErrNew "agobridge: invalid project ACL entry") ;;
  let config := applyDefaults config in
  fail_if ((config.(BridgeConfig_MaxBackoff) <? config.(BridgeConfig_MinBackoff))%Z ||
    (config.(BridgeConfig_RequestTimeout) <=? config.(BridgeConfig_PollTimeout))%Z ||
    (config.(BridgeConfig_ExecutionTimeout) <=? 0)%Z || (config.(BridgeConfig_MaxBodyBytes) <=? 0)%Z ||
    (config.(BridgeConfig_MaxRemembered) <=? 0)%Z) (ErrNew "agobridge: invalid timeout, backoff, or body limit") ;;
  fail_if match marshalPoll (mkPollEnvelope config.(BridgeConfig_AccountID) config.(BridgeConfig_DeviceID) 0 []) with
          | Ok emptyPoll => (config.(BridgeConfig_MaxBodyBytes) <? len emptyPoll)%Z
          | _ => true
          end (ErrNew "agobridge: body limit cannot contain the minimum poll envelope") ;;
  Ok config.

Context (config : BridgeConfig).

Definition identity : BridgeIdentity := mkBridgeIdentity config.(BridgeConfig_AccountID) config.(BridgeConfig_DeviceID).

(** * Responses *)

Definition failureOf (sequence : Z) (nonce code message : string) : ResponseEnvelope :=
  mkResponseEnvelope sequence nonce config.(BridgeConfig_AccountID) config.(BridgeConfig_DeviceID) ""
    (Some (mkResponseError code message)).
Definition failure (request : RequestEnvelope) (code message : string) : ResponseEnvelope :=
  failureOf request.(RequestEnvelope_Sequence) request.(RequestEnvelope_Nonce) code message.

Definition responseFitsPoll (response : ResponseEnvelope) : bool :=
  match marshalPoll (mkPollEnvelope config.(BridgeConfig_AccountID) config.(BridgeConfig_DeviceID)
                       response.(ResponseEnvelope_Sequence) [response]) with
  | Ok encoded => (len encoded <=? config.(BridgeConfig_MaxBodyBytes))%Z
  | _ => false
  end.

Definition boundResponse (response : ResponseEnvelope) : ResponseEnvelope :=
  if responseFitsPoll response then response
  else failureOf response.(ResponseEnvelope_Sequence) response.(ResponseEnvelope_Nonce) ErrorExecutionFailed
         "published operation response exceeds transport limit".

(** * Indexes *)

Definition indexEvidence (indexes : gmap Z nat * gmap string Z) (entry : Z * BridgeEvidence) : gmap Z nat * gmap string Z :=
  let '(bySequence, nonces) := indexes in
  let '(index, evidence) := entry in
  (<[evidence.(BridgeEvidence_Sequence) := Z.to_nat index]> bySequence,
   match nonces !! evidence.(BridgeEvidence_Nonce) with
   | Some _ => nonces
   | None => <[evidence.(BridgeEvidence_Nonce) := evidence.(BridgeEvidence_Sequence)]> nonces
   end).
Definition indexesOf (evidence : list BridgeEvidence) : gmap Z nat * gmap string Z :=
  foldl indexEvidence (∅, ∅) (indexed evidence).

Definition clientOf (state : State) : Client :=
  mkClient state (indexesOf state.(State_Evidence)).1 (indexesOf state.(State_Evidence)).2.
Definition rebuildIndexes (client : Client) : Client := clientOf client.(Client_state).

Definition checkIndexed (client : Client) (index : Z) (evidence : BridgeEvidence) : result unit :=
  let state := client.(Client_state) in
  fail_if (negb (evidence.(BridgeEvidence_Sequence) =? u64 (index + 1))%Z ||
    negb (validIdentity evidence.(BridgeEvidence_Nonce) maxNonceBytes) ||
    negb (isDigest evidence.(BridgeEvidence_RequestDigest))) (ErrNew "agobridge: invalid durable evidence") ;;
  fail_if (negb (Z.of_nat (default 0%nat (client.(Client_bySequence) !! evidence.(BridgeEvidence_Sequence))) =? index)%Z)
    (ErrNew "agobridge: duplicate durable sequence evidence") ;;
  fail_if ((evidence.(BridgeEvidence_Status) != EvidencePrepared) && (evidence.(BridgeEvidence_Status) != EvidenceCompleted))
    (ErrNew "agobridge: invalid durable evidence status") ;;
  if evidence.(BridgeEvidence_Status) == EvidenceCompleted then
    fail_if (state.(State_Cursor) <? evidence.(BridgeEvidence_Sequence))%Z (ErrNew "agobridge: completed evidence is ahead of cursor") ;;
    fail_if match evidence.(BridgeEvidence_Response) with
            | None => true
            | Some response => completedResponseMismatch identity evidence response ||
                (config.(BridgeConfig_MaxBodyBytes) <? len response.(ResponseEnvelope_Payload))%Z
            end (ErrNew "agobridge: invalid durable completed response")
  else
    fail_if (is_Some_b evidence.(BridgeEvidence_Response) || negb (index =? Z.of_nat (length state.(State_Evidence)) - 1)%Z ||
      (evidence.(BridgeEvidence_Sequence) <? state.(State_Cursor))%Z ||
      (u64 (state.(State_Cursor) + 1) <? evidence.(BridgeEvidence_Sequence))%Z) (ErrNew "agobridge: invalid prepared evidence").

Definition checkPending (client : Client) (pending : PendingResponse) : result unit :=
  let state := client.(Client_state) in
  let response := pending.(PendingResponse_Response) in
  let invalid := ErrNew "agobridge: invalid durable pending response" in
  fail_if (negb (response.(ResponseEnvelope_Sequence) =? state.(State_Cursor))%Z ||
    (response.(ResponseEnvelope_AccountID) != config.(BridgeConfig_AccountID)) ||
    (response.(ResponseEnvelope_DeviceID) != config.(BridgeConfig_DeviceID)) || negb (responseFitsPoll response)) invalid ;;
  index ← non_nil (client.(Client_bySequence) !! response.(ResponseEnvelope_Sequence)) invalid;
  match state.(State_Evidence) !! index with
  | None => Panic
  | Some evidence =>
      fail_if (negb (pendingMatches evidence pending) && negb (pendingConflicts isAnyDigest evidence pending)) invalid
  end.

(** [indexState] of a client with this state. *)
Definition indexState (state : State) : result Client :=
  fail_if (config.(BridgeConfig_MaxRemembered) <? Z.of_nat (length state.(State_Evidence)))%Z
    (ErrNew "agobridge: durable evidence exceeds configured bound") ;;
  fail_if (cursorMismatch state) (ErrNew "agobridge: invalid durable cursor") ;;
  let client := clientOf state in
  for_each (λ _ '(index, evidence), checkIndexed client index evidence) tt (indexed state.(State_Evidence)) ;;
  match state.(State_Pending) with
  | Some pending => checkPending client pending
  | None => Ok tt
  end ;;
  Ok client.

(** * Commits *)

Definition inState (f : State → State) (client : Client) : Client := client <| Client_state := f client.(Client_state) |>.

Definition Commit (expected : Z) (state : State) : bridge_go Z := r ← ask (CommitState expected state); lift r.

Definition commitLocked (expectedRevision : Z) : bridge unit :=
  client ← get;
  revision ← fails_with (λ err, Errorf "agobridge: commit durable state: %w" [AWrap err])
               (calls (Commit expectedRevision client.(Client_state)));
  if (revision <=? expectedRevision)%Z then fail (ErrNew "agobridge: state store returned a non-monotonic revision")
  else update (inState (λ state, state <| State_Revision := revision |>)).

(** [if err := client.commitLocked(...); err != nil { restore the previous state; return err }] *)
Definition commitOr (restore : Client → Client) (expectedRevision : Z) : bridge unit :=
  r ← attempt (commitLocked expectedRevision);
  match r with
  | Ok _ => done tt
  | Err err => update restore ≫= λ _, fail err
  | Panic => calls (lift Panic)
  end.

Definition advance (response : ResponseEnvelope) (state : State) : State :=
  if (response.(ResponseEnvelope_Sequence) =? u64 (state.(State_Cursor) + 1))%Z
  then state <| State_Cursor := response.(ResponseEnvelope_Sequence) |> else state.

Definition withResponse (response : ResponseEnvelope) (evidence : BridgeEvidence) : BridgeEvidence :=
  evidence <| BridgeEvidence_Status := EvidenceCompleted |> <| BridgeEvidence_Response := Some response |>.

Definition completedState (index : nat) (digest : string) (response : ResponseEnvelope) (state : State) : State :=
  advance response (state <| State_Evidence := alter (withResponse response) index state.(State_Evidence) |>)
    <| State_Pending := Some (mkPendingResponse digest response) |>.

Definition completeLocked (index : nat) (digest : string) (response : ResponseEnvelope) : bridge unit :=
  let response := boundResponse response in
  if negb (responseFitsPoll response) then fail (ErrNew "agobridge: response envelope exceeds configured body limit") else
  client ← get;
  let previous := client.(Client_state) in
  update (inState (completedState index digest response)) ≫= λ _,
  commitOr (λ client, rebuildIndexes (inState (λ _, previous) client)) previous.(State_Revision).

Definition completePreparedConflictLocked (index : nat) (evidence : BridgeEvidence) (digest : string)
    (conflict : ResponseEnvelope) : bridge unit :=
  client ← get;
  let previous := client.(Client_state) in
  let unknown := boundResponse (failureOf evidence.(BridgeEvidence_Sequence) evidence.(BridgeEvidence_Nonce)
                   ErrorUnknownOutcome "prepared request outcome is unknown") in
  let conflict := boundResponse conflict in
  update (inState (λ state,
    state <| State_Evidence := alter (withResponse unknown) index state.(State_Evidence) |>
          <| State_Cursor := evidence.(BridgeEvidence_Sequence) |>
          <| State_Pending := Some (mkPendingResponse digest conflict) |>)) ≫= λ _,
  commitOr (λ client, rebuildIndexes (inState (λ _, previous) client)) previous.(State_Revision).

Definition persistPendingLocked (digest : string) (response : ResponseEnvelope) : bridge unit :=
  client ← get;
  let previous := client.(Client_state) in
  match previous.(State_Pending) with
  | Some _ => done tt
  | None =>
      update (inState (λ state,
        advance response state <| State_Pending := Some (mkPendingResponse digest response) |>)) ≫= λ _,
      commitOr (inState (λ _, previous)) previous.(State_Revision)
  end.

(** * Executing a request *)

Definition validRequestEnvelope (request : RequestEnvelope) : bool :=
  negb (request.(RequestEnvelope_Sequence) =? 0)%Z && validIdentity request.(RequestEnvelope_Nonce) maxNonceBytes &&
  validIdentity request.(RequestEnvelope_ProjectID) maxIdentityBytes &&
  validIdentity request.(RequestEnvelope_ThreadID) maxIdentityBytes &&
  validIdentity request.(RequestEnvelope_Action) maxActionBytes && (0 <? len request.(RequestEnvelope_Payload))%Z &&
  (len request.(RequestEnvelope_Payload) <=? config.(BridgeConfig_MaxBodyBytes))%Z &&
  remote_json_Valid request.(RequestEnvelope_Payload).

Definition authorizationOf (request : RequestEnvelope) : MutationAuthorization :=
  mkMutationAuthorization request.(RequestEnvelope_AccountID) request.(RequestEnvelope_DeviceID)
    request.(RequestEnvelope_ProjectID) request.(RequestEnvelope_ThreadID) request.(RequestEnvelope_Action)
    request.(RequestEnvelope_Nonce) request.(RequestEnvelope_Sequence) request.(RequestEnvelope_AuthorizationToken).
Definition executionOf (request : RequestEnvelope) : ExecutionRequest :=
  mkExecutionRequest request.(RequestEnvelope_AccountID) request.(RequestEnvelope_DeviceID)
    request.(RequestEnvelope_ProjectID) request.(RequestEnvelope_ThreadID) request.(RequestEnvelope_Action)
    request.(RequestEnvelope_Nonce) request.(RequestEnvelope_Sequence) request.(RequestEnvelope_AuthorizationToken)
    request.(RequestEnvelope_Payload).

Definition responseOf (request : RequestEnvelope) (payload : string) : ResponseEnvelope :=
  mkResponseEnvelope request.(RequestEnvelope_Sequence) request.(RequestEnvelope_Nonce)
    config.(BridgeConfig_AccountID) config.(BridgeConfig_DeviceID) payload None.

(** The end of [validateAndExecute], once the operation is found and authorised. *)
Definition executeOperation (request : RequestEnvelope) (operation : BridgeOperation) : bridge_go ResponseEnvelope :=
  r ← ask (ExecuteOperation operation (executionOf request));
  match r with
  | Ok payload =>
      if (config.(BridgeConfig_MaxBodyBytes) <? len payload)%Z || ((0 <? len payload)%Z && negb (remote_json_Valid payload))
      then ret (failure request ErrorExecutionFailed "published operation returned an invalid response")
      else ret (responseOf request payload)
  | Err _ => ret (failure request ErrorExecutionFailed "published operation failed")
  | Panic => lift Panic
  end.

Definition resolveAndExecute (request : RequestEnvelope) : bridge_go ResponseEnvelope :=
  resolved ← ask (ResolvePublished request.(RequestEnvelope_ProjectID) request.(RequestEnvelope_ThreadID)
                    request.(RequestEnvelope_Action));
  match resolved with
  | None => ret (failure request ErrorUnauthorized "project or thread is not published")
  | Some operation =>
      if operation.(Operation_Mutation) then
        if negb config.(BridgeConfig_HasAuthorization)
        then ret (failure request ErrorAuthorizationRequired "recent passkey authorization is required") else
        r ← ask (AuthorizeBridged (authorizationOf request));
        match r with
        | Ok _ => executeOperation request operation
        | Err _ => ret (failure request ErrorAuthorizationRequired "recent passkey authorization is required")
        | Panic => lift Panic
        end
      else executeOperation request operation
  end.

Definition validateAndExecute (request : RequestEnvelope) : bridge ResponseEnvelope :=
  client ← get;
  if negb (validRequestEnvelope request) then done (failure request ErrorInvalidRequest "invalid request envelope")
  else if (request.(RequestEnvelope_AccountID) != config.(BridgeConfig_AccountID)) ||
          (request.(RequestEnvelope_DeviceID) != config.(BridgeConfig_DeviceID))
  then done (failure request ErrorUnauthorized "account or device is not authorized")
  else if match client.(Client_nonces) !! request.(RequestEnvelope_Nonce) with
          | Some previous => negb (previous =? request.(RequestEnvelope_Sequence))%Z
          | None => false
          end
  then done (failure request ErrorReplay "nonce has already been used") else
  update (λ client, client <| Client_nonces :=
    <[request.(RequestEnvelope_Nonce) := request.(RequestEnvelope_Sequence)]> client.(Client_nonces) |>) ≫= λ _,
  if negb (bool_decide (request.(RequestEnvelope_ProjectID) ∈ config.(BridgeConfig_AllowedProjects)))
  then done (failure request ErrorUnauthorized "project or thread is not published") else
  calls (resolveAndExecute request).

(** * Handling a request *)

Definition prepare (request : RequestEnvelope) (client : Client) : Client :=
  let evidence := client.(Client_state).(State_Evidence) in
  inState (λ state, state <| State_Evidence := evidence ++ [mkBridgeEvidence request.(RequestEnvelope_Sequence)
             request.(RequestEnvelope_Nonce) (requestDigest request) EvidencePrepared None] |>) client
    <| Client_bySequence := <[request.(RequestEnvelope_Sequence) := length evidence]> client.(Client_bySequence) |>
    <| Client_nonces := match client.(Client_nonces) !! request.(RequestEnvelope_Nonce) with
                        | Some _ => client.(Client_nonces)
                        | None => <[request.(RequestEnvelope_Nonce) := request.(RequestEnvelope_Sequence)]> client.(Client_nonces)
                        end |>.

(** A request whose sequence is known. *)
Definition handleAgain (request : RequestEnvelope) (index : nat) (evidence : BridgeEvidence) : bridge ResponseEnvelope :=
  let digest := requestDigest request in
  client ← get;
  if evidence.(BridgeEvidence_RequestDigest) != digest then
    let response := failure request ErrorConflict orderConflict in
    if evidence.(BridgeEvidence_Status) == EvidencePrepared then
      completePreparedConflictLocked index evidence digest response ≫= λ _, done response
    else if is_Some_b client.(Client_state).(State_Pending) then done response
    else persistPendingLocked digest response ≫= λ _, done response
  else if evidence.(BridgeEvidence_Status) == EvidencePrepared then
    let response := failure request ErrorUnknownOutcome "prepared request outcome is unknown" in
    completeLocked index digest response ≫= λ _, done response
  else
    match evidence.(BridgeEvidence_Response) with
    | None => calls (lift Panic)
    | Some response =>
        if is_Some_b client.(Client_state).(State_Pending) then done response
        else persistPendingLocked digest response ≫= λ _, done response
    end.

(** A request whose sequence is new. *)
Definition handleNew (request : RequestEnvelope) : bridge ResponseEnvelope :=
  client ← get;
  let previous := client.(Client_state) in
  if negb (request.(RequestEnvelope_Sequence) =? u64 (previous.(State_Cursor) + 1))%Z ||
     negb (validIdentity request.(RequestEnvelope_Nonce) maxNonceBytes) then fail ErrSequence
  else if (config.(BridgeConfig_MaxRemembered) <=? Z.of_nat (length previous.(State_Evidence)))%Z then fail ErrStateCapacity else
  update (prepare request) ≫= λ _,
  commitOr (λ client, rebuildIndexes (inState (λ _, previous) client)) previous.(State_Revision) ≫= λ _,
  response ← validateAndExecute request;
  let response := boundResponse response in
  completeLocked (length previous.(State_Evidence)) (requestDigest request) response ≫= λ _,
  done response.

Definition handleLocked (request : RequestEnvelope) : bridge ResponseEnvelope :=
  client ← get;
  match client.(Client_bySequence) !! request.(RequestEnvelope_Sequence) with
  | Some index =>
      match client.(Client_state).(State_Evidence) !! index with
      | Some evidence => handleAgain request index evidence
      | None => calls (lift Panic)
      end
  | None => handleNew request
  end.

Definition handle (request : RequestEnvelope) : bridge ResponseEnvelope :=
  r ← attempt (handleLocked request);
  match r with
  | Ok response => done response
  | Err _ => done (failure request ErrorStateUnavailable "durable bridge state is unavailable")
  | Panic => calls (lift Panic)
  end.

(** * Polling *)

Definition dropAcknowledged (result : PollResult) : bridge unit :=
  client ← get;
  let previous := client.(Client_state) in
  match previous.(State_Pending) with
  | Some pending =>
      if (pending.(PendingResponse_Response).(ResponseEnvelope_Sequence) <=? result.(PollResult_AcknowledgedThrough))%Z then
        update (inState (λ state, state <| State_Pending := None |>)) ≫= λ _,
        commitOr (inState (λ _, previous)) previous.(State_Revision)
      else done tt
  | None => done tt
  end.

Definition accept (result : PollResult) : bridge unit :=
  client ← get;
  let state := client.(Client_state) in
  if (result.(PollResult_AccountID) != config.(BridgeConfig_AccountID)) ||
     (result.(PollResult_DeviceID) != config.(BridgeConfig_DeviceID))
  then fail (ErrNew "agobridge: relay response identity mismatch")
  else if (state.(State_Cursor) <? result.(PollResult_AcknowledgedThrough))%Z || (1 <? length result.(PollResult_Requests))
  then fail ErrSequence else
  dropAcknowledged result ≫= λ _,
  client ← get;
  let state := client.(Client_state) in
  match result.(PollResult_Requests) with
  | [] => done tt
  | request :: _ =>
      if (request.(RequestEnvelope_Sequence) =? state.(State_Cursor))%Z && negb (state.(State_Cursor) =? 0)%Z
      then handleLocked request ≫= λ _, done tt
      else if is_Some_b state.(State_Pending) || negb (request.(RequestEnvelope_Sequence) =? u64 (state.(State_Cursor) + 1))%Z
      then fail ErrSequence
      else handleLocked request ≫= λ _, done tt
  end.

Definition pollOf (client : Client) : PollEnvelope :=
  mkPollEnvelope config.(BridgeConfig_AccountID) config.(BridgeConfig_DeviceID) client.(Client_state).(State_Cursor)
    match client.(Client_state).(State_Pending) with
    | Some pending => [pending.(PendingResponse_Response)]
    | None => []
    end.

Definition poll : bridge PollResult :=
  client ← get;
  calls (body ← lift (marshalPoll (pollOf client));
         lift (fail_if (config.(BridgeConfig_MaxBodyBytes) <? len body)%Z
                 (ErrNew "agobridge: outbound poll body exceeds limit")) ≫= λ _,
         r ← ask (SendPoll (pollOf client)); lift r).

(** The first [rounds] rounds of the loop of [Run]. *)
Fixpoint Run (rounds : nat) (backoff : Z) : bridge unit :=
  match rounds with
  | O => done tt
  | Datatypes.S rounds =>
      r ← attempt poll;
      match r with
      | Ok result => accept result ≫= λ _, Run rounds config.(BridgeConfig_MinBackoff)
      | Err err =>
          cancelled ← calls (ask BridgeContextErr);
          match cancelled with
          | Some cause => fail cause
          | None =>
              if errors_Is err ErrCertificatePin then fail err else
              calls (slept ← ask (BridgeSleep backoff); lift slept) ≫= λ _,
              let backoff := i64 (backoff * 2) in
              Run rounds (if (config.(BridgeConfig_MaxBackoff) <? backoff)%Z then config.(BridgeConfig_MaxBackoff) else backoff)
          end
      | Panic => calls (lift Panic)
      end
  end.

(** The part of [New] that reads the state. *)
Definition openState : bridge_go Client :=
  r ← ask LoadState;
  state ← lift (wrap_err (λ err, Errorf "agobridge: load durable state: %w" [AWrap err]) r);
  lift (indexState state).

End client.

Definition New {remote : RemoteEnv} {env : BridgeEnv} (config : BridgeConfig) : bridge_go (BridgeConfig * Client) :=
  config ← lift (checkConfig config);
  client ← openState config;
  ret (config, client).

(** A bridge: [New], then [Run]. *)
Definition bridgeProcess {remote : RemoteEnv} {env : BridgeEnv} (config : BridgeConfig) (rounds : nat)
  : proc bridge_answer unit :=
  proc_bind (New config) (λ r,
    match r with
    | Ok (config, client) => proc_bind (Run config rounds config.(BridgeConfig_MinBackoff) client) (λ _, Done tt)
    | _ => Done tt
    end).
