(* ===== verification/BridgeWorld.v ===== *)
(** The setting a bridge runs in, and what its evidence file holds there. *)
From S2P Require Import Prelude Process Concurrent Auth RelayStore BridgeState Bridge.

(** Bridges that share a state file and talk to a relay: the setting their threads run
    in, for any relay, and a run of one of them. *)

Record BridgeWorld (T : Type) : Type := mkBridgeWorld { bw_file : BridgeFile; bw_relay : T }.
Arguments mkBridgeWorld {T} _ _.
Arguments bw_file {T} _.
Arguments bw_relay {T} _.

Section world.
Context {remote : RemoteEnv} {env : BridgeEnv} {T : Type}.
(** How the relay answers a poll, how it starts and what else happens to it. *)
Context (relay_starts : T → Prop) (relay_polls : T → PollEnvelope → result PollResult → T → Prop) (relay_happens : T → T → Prop).
Context (config : BridgeConfig).

(** Commits and loads are served by the file; a poll reaches the relay as JSON, or is lost
    with its answer; everything else may answer anything. *)
Definition bridge_serves (s : BridgeWorld T) (e : event bridge_answer) (s' : BridgeWorld T) : Prop :=
  match e with
  | existT c r =>
      match c return bridge_answer c → Prop with
      | LoadState => λ r, s' = s ∧ ∃ fault, r = FileLoad (identity config) fault s.(bw_file)
      | CommitState expected state => λ r, s'.(bw_relay) = s.(bw_relay) ∧
          ∃ fault, FileCommit (identity config) fault expected state s.(bw_file) = (s'.(bw_file), r)
      | SendPoll poll => λ r, s'.(bw_file) = s.(bw_file) ∧
          ((is_ok r = false ∧ s'.(bw_relay) = s.(bw_relay)) ∨
           ∃ answer, relay_polls s.(bw_relay) (writtenPoll poll) answer s'.(bw_relay) ∧ (r = answer ∨ is_ok r = false))
      | _ => λ _, s' = s
      end r
  end.

Inductive bridge_starts : BridgeWorld T → Prop :=
  | bridge_fresh t : relay_starts t → bridge_starts (mkBridgeWorld BridgeFile_empty t).
Inductive bridge_happens : BridgeWorld T → BridgeWorld T → Prop :=
  | bridge_relay file t t' : relay_happens t t' → bridge_happens (mkBridgeWorld file t) (mkBridgeWorld file t').
(** After a crash the file is what was visible, or what was durable. *)
Inductive bridge_crashes : BridgeWorld T → BridgeWorld T → Prop :=
  | bridge_crash file t survived : survived = file.(bf_visible) ∨ survived = file.(bf_durable) →
      bridge_crashes (mkBridgeWorld file t) (mkBridgeWorld (mkBridgeFile survived survived) t).
(** Bridges whose configuration, once it is checked, is this one. *)
Inductive bridge_spawns : proc bridge_answer unit → Prop :=
  | bridge_spawn raw rounds : checkConfig raw = Ok config → bridge_spawns (bridgeProcess raw rounds).

Definition bridge_setting : Setting bridge_answer (BridgeWorld T) :=
  {| starts := bridge_starts; serves := bridge_serves; happens := bridge_happens; crashes := bridge_crashes;
     spawns := bridge_spawns |}.

End world.

(** A relay that may answer anything. *)
Definition any_starts : unit → Prop := λ _, True.
Definition any_polls : unit → PollEnvelope → result PollResult → unit → Prop := λ _ _ _ _, True.
Definition any_happens : unit → unit → Prop := λ _ _, True.

(** * A run *)

#[local] Instance sample_bridge : BridgeEnv := {| bridge_url_Parse := λ s, Some (mkURL "https" s false "" "" "" s) |}.

Definition sampleBridge : BridgeConfig := mkBridgeConfig "relay.ago.dev" (String.concat "" (replicate 64 "0")) "daemon-token"
  "alice" "laptop" {[ "p" ]} true true true 0 0 0 0 0 0 0.

Definition checkedBridge : BridgeConfig := applyDefaults sampleBridge.

Example sampleBridge_checked : checkConfig (remote := sample_remote) sampleBridge = Ok checkedBridge.
Proof. vm_compute. reflexivity. Qed.

Definition sampleRequest (n : Z) (nonce payload : string) : RequestEnvelope :=
  mkRequestEnvelope n nonce "alice" "laptop" "p" "T1" ActionSubmit "token" payload.
Definition delivering (acknowledged : Z) (requests : list RequestEnvelope) : result PollResult :=
  Ok (mkPollResult "alice" "laptop" acknowledged requests).

Section run.
Context {remote : RemoteEnv} (config : BridgeConfig) (fault : option FileFault).
Context {T : Type} (answer_poll : T → PollEnvelope → T * result PollResult) (closed : T → bool).

(** The relay answers every poll, the file fails as told, every operation succeeds. *)
Definition serve_bridge (c : bridge_call) (s : BridgeWorld T) : bridge_answer c * BridgeWorld T :=
  match c with
  | LoadState => (FileLoad (identity config) None s.(bw_file), s)
  | CommitState expected state =>
      let '(file, r) := FileCommit (identity config) fault expected state s.(bw_file) in (r, mkBridgeWorld file s.(bw_relay))
  | SendPoll poll =>
      let '(t, answer) := answer_poll s.(bw_relay) (writtenPoll poll) in (answer, mkBridgeWorld s.(bw_file) t)
  | ResolvePublished _ _ action => (Some (mkBridgeOperation (action == ActionSubmit) action), s)
  | AuthorizeBridged _ => (Ok tt, s)
  | ExecuteOperation _ request => (Ok ("done: " +:+ request.(ExecutionRequest_Nonce)), s)
  | BridgeContextErr => (if closed s.(bw_relay) then Some (ErrNew "context canceled") else None, s)
  | BridgeSleep _ => (Ok tt, s)
  end.

Lemma serve_bridge_serves (polls : T → PollEnvelope → result PollResult → T → Prop) c s :
  (∀ t poll, c = SendPoll poll → is_ok (answer_poll t (writtenPoll poll)).2 = false ∧ (answer_poll t (writtenPoll poll)).1 = t ∨
     polls t (writtenPoll poll) (answer_poll t (writtenPoll poll)).2 (answer_poll t (writtenPoll poll)).1) →
  bridge_serves polls config s (existT c (serve_bridge c s).1) (serve_bridge c s).2.
Proof.
  intros Hp. destruct c; cbn; try done.
  - split; [done|]. by exists None.
  - destruct (FileCommit _ _ _ _ _) as [file r] eqn:E. cbn. split; [done|]. by exists fault.
  - specialize (Hp s.(bw_relay) poll eq_refl). destruct (answer_poll _ _) as [t answer]. cbn in *. split; [done|].
    destruct Hp as [[Hr ->]|Hp]; [by left|right]. exists answer. by split; [|left].
Qed.
End run.

Definition scripted_starts : list (result PollResult) → Prop := λ _, True.
Definition scripted_polls : list (result PollResult) → PollEnvelope → result PollResult → list (result PollResult) → Prop :=
  λ script _ answer script', script = answer :: script'.
Definition scripted_happens : list (result PollResult) → list (result PollResult) → Prop := λ _ _, True.
Abbreviation scripted_setting := (bridge_setting (remote := sample_remote) (env := sample_bridge) scripted_starts scripted_polls scripted_happens checkedBridge).

Definition answer_script (script : list (result PollResult)) (_ : PollEnvelope) : list (result PollResult) * result PollResult :=
  match script with answer :: script => (script, answer) | [] => ([], Err (ErrNew "relay is closed")) end.
Abbreviation serve_script := (serve_bridge (remote := sample_remote) checkedBridge None answer_script (λ script, length script =? 0)).

Lemma serve_script_serves c s :
  bridge_serves (remote := sample_remote) scripted_polls checkedBridge s (existT c (serve_script c s).1) (serve_script c s).2.
Proof. apply serve_bridge_serves. intros [|answer script] poll _; [by left|by right]. Qed.

(** Two requests, a repetition of the first and a third with its nonce. *)
Definition sampleScript : list (result PollResult) :=
  [delivering 0 [sampleRequest 1 "n1" "{}"]; delivering 1 [sampleRequest 2 "n2" "{}"]; delivering 1 [sampleRequest 2 "n2" "{}"];
   delivering 2 [sampleRequest 3 "n1" "{}"]; delivering 3 []].
Definition sampleRun := drive_new serve_script 60
  (bridgeProcess (remote := sample_remote) sampleBridge 10)
  ((mkBridgeWorld BridgeFile_empty sampleScript, []), []).

(** What was executed. *)
Definition execution (e : event bridge_answer) : option ExecutionRequest :=
  match e with existT (ExecuteOperation _ request) _ => Some request | _ => None end.
Definition executions (h : history bridge_answer) : list ExecutionRequest := omap execution h.
Arguments executions : simpl never.

Example sampleRun_executes :
  ExecutionRequest_Nonce <$> executions sampleRun.1.2 = ["n1"; "n2"] ∧
  (BridgeEvidence_Nonce <$> (default State_zero sampleRun.1.1.(bw_file).(bf_durable)).(State_Evidence)) = ["n1"; "n2"; "n1"].
Proof. split; vm_compute; reflexivity. Qed.

Lemma sampleRun_running : running scripted_setting sampleRun.1 sampleRun.2.
Proof.
  apply drive_new_running; [apply serve_script_serves|by apply running_start|]. constructor. apply sampleBridge_checked.
Qed.

(** The call that the only thread of a run makes next. *)
Definition next_call {call} {answer : call → Type} (ts : list (strand answer)) : option call :=
  match ts with [mkStrand _ (Invoke c _)] => Some c | _ => None end.

Lemma next_call_inv {call} {answer : call → Type} (ts : list (strand answer)) c :
  next_call ts = Some c → ∃ past k, ts = [mkStrand past (Invoke c k)].
Proof. destruct ts as [|[past [a|c' k]] [|t ts]]; try done. intros [= ->]. eauto. Qed.

(** The evidence of a bridge: what its keys are, what its indexes find, and what a commit
    to the file leaves behind. *)

(** What never changes of an evidence. *)
Definition ekey (evidence : BridgeEvidence) : Z * string * string :=
  (evidence.(BridgeEvidence_Sequence), evidence.(BridgeEvidence_Nonce), evidence.(BridgeEvidence_RequestDigest)).
Definition ekeys (state : State) : list (Z * string * string) := ekey <$> state.(State_Evidence).

(** The key of a request. *)
Definition rkey {remote : RemoteEnv} (request : RequestEnvelope) : Z * string * string :=
  (request.(RequestEnvelope_Sequence), request.(RequestEnvelope_Nonce), requestDigest request).

(** A nonce is not among the keys. *)
Definition unusedNonce (nonce : string) (keys : list (Z * string * string)) : Prop := Forall (λ key, key.1.2 ≠ nonce) keys.

Lemma imap_app_snoc {A B} (f : nat → A → B) l x : imap f (l ++ [x]) = imap f l ++ [f (length l) x].
Proof. rewrite imap_app. cbn. by rewrite Nat.add_0_r. Qed.

(** ** Indexes *)

Lemma indexesOf_snoc evidence e :
  indexesOf (evidence ++ [e]) = indexEvidence (indexesOf evidence) (Z.of_nat (length evidence), e).
Proof. unfold indexesOf, indexed. by rewrite imap_app_snoc, foldl_app. Qed.

(** The indexes depend on the keys only. *)
Lemma indexesOf_keys evidence evidence' : ekey <$> evidence = ekey <$> evidence' → indexesOf evidence = indexesOf evidence'.
Proof.
  revert evidence'. induction evidence as [|e evidence IH] using rev_ind; intros evidence' H.
  - by destruct evidence'.
  - destruct evidence' as [|e' evidence' _] using rev_ind; [by rewrite fmap_app in H; destruct (ekey <$> evidence)|].
    rewrite !fmap_app in H. cbn in H. apply app_inj_tail in H as [H1 H2].
    assert (length evidence = length evidence') as El by (apply (f_equal length) in H1; by rewrite !length_fmap in H1).
    rewrite !indexesOf_snoc, (IH _ H1), El. injection H2 as E1 E2 _. unfold indexEvidence. destruct (indexesOf evidence').
    by rewrite E1, E2.
Qed.

(** The evidence with a sequence. *)
Lemma bySequence_Some evidence n i :
  (indexesOf evidence).1 !! n = Some i → ∃ e, evidence !! i = Some e ∧ e.(BridgeEvidence_Sequence) = n.
Proof.
  induction evidence as [|e evidence IH] using rev_ind; [done|]. rewrite indexesOf_snoc. unfold indexEvidence.
  destruct (indexesOf evidence) as [m nonces]. cbn in *. rewrite Nat2Z.id.
  intros [[<- <-]|[_ H]]%lookup_insert_Some; [exists e; by rewrite list_lookup_middle|].
  destruct (IH H) as (e' & He' & ?). exists e'. split; [by apply lookup_app_l_Some|done].
Qed.

(** The first evidence with a nonce. *)
Lemma nonces_Some evidence nonce n :
  (indexesOf evidence).2 !! nonce = Some n →
  ∃ before e after, evidence = before ++ e :: after ∧ e.(BridgeEvidence_Nonce) = nonce ∧ e.(BridgeEvidence_Sequence) = n ∧
    unusedNonce nonce (ekey <$> before).
Proof.
  revert n. induction evidence as [|e evidence IH] using rev_ind; intros n; [done|].
  rewrite indexesOf_snoc. unfold indexEvidence. destruct (indexesOf evidence) as [m nonces] eqn:E. cbn in *.
  assert (nonces !! nonce = Some n → ∃ before e0 after, evidence ++ [e] = before ++ e0 :: after ∧
    e0.(BridgeEvidence_Nonce) = nonce ∧ e0.(BridgeEvidence_Sequence) = n ∧ unusedNonce nonce (ekey <$> before)) as Hold.
  { intros (before & e0 & after & -> & H)%IH. exists before, e0, (after ++ [e]). by rewrite <- app_assoc. }
  destruct (nonces !! e.(BridgeEvidence_Nonce)) eqn:En; [exact Hold|].
  intros [[<- <-]|[_ H]]%lookup_insert_Some; [|auto]. exists evidence, e, []. split_and!; [done..|].
  clear IH Hold. revert nonces m E En. induction evidence as [|e1 evidence IH] using rev_ind; intros nonces m E En; [constructor|].
  rewrite indexesOf_snoc in E. unfold indexEvidence in E. destruct (indexesOf evidence) as [m1 nonces1].
  injection E as <- <-. rewrite fmap_app. apply Forall_app. destruct (nonces1 !! BridgeEvidence_Nonce e1) eqn:E1.
  - split; [by eapply IH|]. repeat constructor. cbn. intros Ee. rewrite Ee in E1. congruence.
  - apply lookup_insert_None in En as [En Hne]. split; [by eapply IH|]. repeat constructor. by cbn.
Qed.

Lemma indexState_inv {remote : RemoteEnv} config state client : indexState config state = Ok client → client = clientOf state.
Proof.
  unfold indexState. intros H. apply bind_Ok in H as ([] & _ & H). apply bind_Ok in H as ([] & _ & H).
  apply bind_Ok in H as (? & _ & H). apply bind_Ok in H as (? & _ & H). by injection H as <-.
Qed.

(** ** Validity *)

Section valid.
Context {remote : RemoteEnv}.

(** In a valid state an evidence is at the index of its sequence. *)
Lemma validate_sequence id state i e :
  validateFileState id state = Ok tt → state.(State_Evidence) !! i = Some e →
  e.(BridgeEvidence_Sequence) = (Z.of_nat i + 1)%Z.
Proof.
  unfold validateFileState. intros H Hi. apply bind_Ok in H as ([] & Hb & H). apply bind_Ok in H as ([] & H & _).
  apply fail_if_Ok, orb_false_iff in Hb as [Hb _]. apply Z.ltb_ge in Hb.
  assert ((Z.of_nat i, e) ∈ indexed state.(State_Evidence)) as Hin
    by (apply list_elem_of_lookup; exists i; unfold indexed; by rewrite list_lookup_imap, Hi).
  assert (validateEvidence id state (Z.of_nat i) e = Ok tt) as Hv.
  { apply (for_each_Ok_unit (λ '(index, evidence), validateEvidence id state index evidence)) in H.
    rewrite Forall_forall in H. apply (H _ Hin). }
  unfold validateEvidence in Hv. apply bind_Ok in Hv as ([] & Hv & _). apply fail_if_Ok in Hv.
  apply orb_false_iff in Hv as [Hv _]. apply orb_false_iff in Hv as [Hv _]. apply orb_false_iff in Hv as [Hv _].
  apply negb_false_iff, Z.eqb_eq in Hv. rewrite Hv. apply lookup_lt_Some in Hi. unfold maxStoredEvidence, defaultMaxRemembered in Hb.
  apply u64_small. unfold two64. lia.
Qed.

Lemma ekeys_written state : ekeys (writtenState state) = ekeys state.
Proof. unfold ekeys, writtenState. cbn. rewrite <- list_fmap_compose. by apply list_fmap_ext. Qed.

Lemma ekeys_alter response index state :
  ekeys (state <| State_Evidence := alter (withResponse response) index state.(State_Evidence) |>) = ekeys state.
Proof.
  unfold ekeys. cbn. apply list_eq. intros i. rewrite !list_lookup_fmap, list_lookup_alter.
  case_decide; [subst|done]. by destruct (_ !! _).
Qed.

(** ** Commits *)

Definition stateIn (slot : option State) : State := default State_zero slot.

Lemma FileLoad_inv id fault file state : FileLoad id fault file = Ok state → state = stateIn file.(bf_visible).
Proof.
  unfold FileLoad, loadLocked. intros H. apply bind_Ok in H as ([] & _ & H). destruct fault as [[]|]; [done..|].
  destruct (bf_visible file); [|by injection H as <-]. apply bind_Ok in H as ([] & _ & H). by injection H as <-.
Qed.

(** A commit replaces the file by the next revision of a valid state, or not at all. *)
Lemma FileCommit_inv id fault expected state file file' r :
  FileCommit id fault expected state file = (file', r) →
  (file' = file ∧ is_ok r = false) ∨
  let next := state <| State_Revision := u64 (expected + 1) |> in
  (stateIn file.(bf_visible)).(State_Revision) = expected ∧ u64 (expected + 1) ≠ 0%Z ∧ validateFileState id next = Ok tt ∧
  file'.(bf_visible) = Some (writtenState next) ∧
  ((file'.(bf_durable) = file.(bf_durable) ∧ is_ok r = false) ∨
   (file'.(bf_durable) = Some (writtenState next) ∧ r = Ok (u64 (expected + 1)))).
Proof.
  unfold FileCommit. set (next := _ ≫= _). destruct next as [next0|e|] eqn:E; [|intros [= <- <-]; by left..].
  subst next. apply bind_Ok in E as ([] & _ & E). apply bind_Ok in E as ([] & _ & E). apply bind_Ok in E as (current & Hc & E).
  apply bind_Ok in E as ([] & Hrev & E). apply fail_if_Ok, negb_false_iff, Z.eqb_eq in Hrev. cbv zeta in E.
  apply bind_Ok in E as ([] & Hz & E). apply fail_if_Ok, Z.eqb_neq in Hz. apply bind_Ok in E as ([] & Hv & E). injection E as <-.
  assert (current = stateIn file.(bf_visible)) as ->.
  { unfold loadLocked in Hc. destruct (bf_visible file); [|by injection Hc as <-]. apply bind_Ok in Hc as ([] & _ & Hc). by injection Hc as <-. }
  intros H. right. cbv zeta. destruct fault as [[err|err]|]; injection H as <- <-; cbn; split_and!; auto.
Qed.

End valid.
