(* ===== verification/BridgeSafety.v ===== *)
(** What bridges that share a state file keep, whatever the relay sends, the file does,
    and however often they crash: a request is executed at most once, only after its
    evidence is durable, and every response that is reported is accounted for. *)
From S2P Require Import Prelude Process Concurrent Auth RelayStore BridgeState Bridge.
From S2P Require Import BridgeWorld.

(** * Executions and responses *)

Definition requestOfExecution (x : ExecutionRequest) : RequestEnvelope :=
  mkRequestEnvelope x.(ExecutionRequest_Sequence) x.(ExecutionRequest_Nonce) x.(ExecutionRequest_AccountID)
    x.(ExecutionRequest_DeviceID) x.(ExecutionRequest_ProjectID) x.(ExecutionRequest_ThreadID)
    x.(ExecutionRequest_Action) x.(ExecutionRequest_AuthorizationToken) x.(ExecutionRequest_Payload).

Lemma requestOfExecution_of request : requestOfExecution (executionOf request) = request.
Proof. by destruct request. Qed.

Lemma executed_app h h' : executions (h ++ h') = executions h ++ executions h'.
Proof. apply omap_app. Qed.

(** A poll returned the request, alone and for this device. *)
Definition given (config : BridgeConfig) (h : history bridge_answer) (request : RequestEnvelope) : Prop := ∃ poll result,
  existT (SendPoll poll) (Ok result) ∈ h ∧ result.(PollResult_AccountID) = config.(BridgeConfig_AccountID) ∧
  result.(PollResult_DeviceID) = config.(BridgeConfig_DeviceID) ∧ result.(PollResult_Requests) = [request].

Lemma given_kept config h h' request : h `prefix_of` h' → given config h request → given config h' request.
Proof. intros Hh (p & r & Hin & H). exists p, r. split; [by eapply event_kept|done]. Qed.

Section bridge.
Context {remote : RemoteEnv} {env : BridgeEnv} {T : Type}.
Context (relay_starts : T → Prop) (relay_polls : T → PollEnvelope → result PollResult → T → Prop) (relay_happens : T → T → Prop).
Context (config : BridgeConfig).
(** JSON that is compact stays as it is. *)
Context (compact_idem : ∀ s, json_compact (json_compact s) = json_compact s).

Abbreviation history := (history bridge_answer).
Abbreviation bworld := (world bridge_answer (BridgeWorld T)).
Implicit Types (s : BridgeWorld T) (h : history) (w : bworld).

(** The response is the result of an execution. *)
Definition real h (response : ResponseEnvelope) : Prop := ∃ operation x payload,
  existT (ExecuteOperation operation x) (Ok payload) ∈ h ∧
  x.(ExecutionRequest_Sequence) = response.(ResponseEnvelope_Sequence) ∧
  x.(ExecutionRequest_Nonce) = response.(ResponseEnvelope_Nonce) ∧
  json_compact response.(ResponseEnvelope_Payload) = json_compact payload.

(** The response is to the request, which a poll delivered. *)
Definition answers h (request : RequestEnvelope) (response : ResponseEnvelope) : Prop :=
  given config h request ∧ request.(RequestEnvelope_Sequence) = response.(ResponseEnvelope_Sequence) ∧
  request.(RequestEnvelope_Nonce) = response.(ResponseEnvelope_Nonce).

(** Why a request has no result, for each code but that of a failure. *)
Inductive refused h (request : RequestEnvelope) : string → Prop :=
  | refused_invalid : validRequestEnvelope config request = false → refused h request ErrorInvalidRequest
  | refused_identity :
      request.(RequestEnvelope_AccountID) ≠ config.(BridgeConfig_AccountID) ∨
      request.(RequestEnvelope_DeviceID) ≠ config.(BridgeConfig_DeviceID) → refused h request ErrorUnauthorized
  | refused_project :
      request.(RequestEnvelope_ProjectID) ∉ config.(BridgeConfig_AllowedProjects) → refused h request ErrorUnauthorized
  | refused_unpublished :
      (existT (ResolvePublished request.(RequestEnvelope_ProjectID) request.(RequestEnvelope_ThreadID)
        request.(RequestEnvelope_Action)) None : event bridge_answer) ∈ h → refused h request ErrorUnauthorized
  | refused_unauthorised :
      config.(BridgeConfig_HasAuthorization) = false ∨
      (∃ err, (existT (AuthorizeBridged (authorizationOf request)) (Err err) : event bridge_answer) ∈ h) →
      refused h request ErrorAuthorizationRequired
  | refused_replay other : given config h other →
      other.(RequestEnvelope_Nonce) = request.(RequestEnvelope_Nonce) →
      other.(RequestEnvelope_Sequence) ≠ request.(RequestEnvelope_Sequence) → refused h request ErrorReplay
  | refused_conflict other : given config h other →
      other.(RequestEnvelope_Sequence) = request.(RequestEnvelope_Sequence) →
      requestDigest other ≠ requestDigest request → refused h request ErrorConflict
  | refused_unknown : refused h request ErrorUnknownOutcome.

(** A response is accounted for: a success and a failure of the operation by an execution
    that returned it, a response that is too large by the one it stands for, everything
    else by the reason of its code. *)
Inductive truthful h (response : ResponseEnvelope) : Prop :=
  | truthful_success : response.(ResponseEnvelope_Error) = None → real h response → truthful h response
  | truthful_failed operation x err :
      response.(ResponseEnvelope_Error) = Some (mkResponseError ErrorExecutionFailed "published operation failed") →
      (existT (ExecuteOperation operation x) (Err err) : event bridge_answer) ∈ h →
      x.(ExecutionRequest_Sequence) = response.(ResponseEnvelope_Sequence) →
      x.(ExecutionRequest_Nonce) = response.(ResponseEnvelope_Nonce) → truthful h response
  | truthful_unusable operation x payload :
      response.(ResponseEnvelope_Error) =
        Some (mkResponseError ErrorExecutionFailed "published operation returned an invalid response") →
      (existT (ExecuteOperation operation x) (Ok payload) : event bridge_answer) ∈ h →
      x.(ExecutionRequest_Sequence) = response.(ResponseEnvelope_Sequence) →
      x.(ExecutionRequest_Nonce) = response.(ResponseEnvelope_Nonce) →
      (config.(BridgeConfig_MaxBodyBytes) < len payload)%Z ∨ remote_json_Valid payload = false → truthful h response
  | truthful_oversized whole :
      response.(ResponseEnvelope_Error) =
        Some (mkResponseError ErrorExecutionFailed "published operation response exceeds transport limit") →
      truthful h whole → responseFitsPoll config whole = false →
      whole.(ResponseEnvelope_Sequence) = response.(ResponseEnvelope_Sequence) →
      whole.(ResponseEnvelope_Nonce) = response.(ResponseEnvelope_Nonce) → truthful h response
  | truthful_refused request code message :
      response.(ResponseEnvelope_Error) = Some (mkResponseError code message) → answers h request response →
      refused h request code → truthful h response.

(** Every response of a state is truthful, every evidence that of a delivered request. *)
Record honest h (state : State) : Prop := {
  honest_evidence e response : e ∈ state.(State_Evidence) → e.(BridgeEvidence_Response) = Some response → truthful h response;
  honest_pending pending : state.(State_Pending) = Some pending → truthful h pending.(PendingResponse_Response);
  honest_keys key : key ∈ ekeys state → ∃ request, given config h request ∧ rkey request = key;
}.

Lemma refused_mono h h' request code : h `prefix_of` h' → refused h request code → refused h' request code.
Proof.
  intros Hh [| | |He|[?|[err He]]|other Ho ? ?|other Ho ? ?|]; [by constructor..| | | | | |].
  - apply refused_unpublished. by eapply event_kept.
  - by apply refused_unauthorised; left.
  - apply refused_unauthorised. right. exists err. by eapply event_kept.
  - eapply refused_replay; [by eapply given_kept|done..].
  - eapply refused_conflict; [by eapply given_kept|done..].
  - apply refused_unknown.
Qed.

Lemma truthful_mono h h' response : h `prefix_of` h' → truthful h response → truthful h' response.
Proof.
  intros Hh. induction 1 as [response He (o & x & p & Hin & H)|response o x e He Hin Hs Hn|response o x p He Hin Hs Hn Hp
    |response whole He _ IH Hf Hs Hn|response request code message He (Hg & Hs & Hn) Hr].
  - apply truthful_success; [done|]. exists o, x, p. split; [by eapply event_kept|done].
  - eapply truthful_failed; [done|by eapply event_kept|done..].
  - eapply truthful_unusable; [done|by eapply event_kept|done..].
  - by eapply truthful_oversized.
  - eapply truthful_refused; [done|split; [by eapply given_kept|done]|by eapply refused_mono].
Qed.

Lemma truthful_real h response : truthful h response → response.(ResponseEnvelope_Error) = None → real h response.
Proof. destruct 1; [done|congruence..]. Qed.

Lemma honest_mono h h' state : h `prefix_of` h' → honest h state → honest h' state.
Proof.
  intros Hh [H1 H2 H3]. split; [intros; eapply truthful_mono; eauto..|].
  intros key (request & Hg & E)%H3. exists request. split; [by eapply given_kept|done].
Qed.

Lemma truthful_written h response : truthful h response → truthful h (writtenResponse response).
Proof.
  destruct 1 as [He (o & x & p & ? & ? & ? & E)| | | |].
  - apply truthful_success; [done|]. exists o, x, p. cbn. by rewrite compact_idem.
  - by eapply truthful_failed.
  - by eapply truthful_unusable.
  - by eapply truthful_oversized.
  - by eapply truthful_refused.
Qed.

Lemma honest_written h state : honest h state → honest h (writtenState state).
Proof.
  intros [H1 H2 H3]. split; [..|by rewrite ekeys_written]; cbn.
  - intros e response (e0 & -> & He)%list_elem_of_fmap (response0 & Hr & ->)%fmap_Some. eapply truthful_written, H1; eauto.
  - intros pending (pending0 & Hp & ->)%fmap_Some. cbn. by apply truthful_written, H2.
Qed.

Lemma honest_zero h : honest h State_zero.
Proof. split; cbn; [by intros e response ?%not_elem_of_nil|done|by intros key ?%not_elem_of_nil]. Qed.

Lemma honest_revision h revision state : honest h state → honest h (state <| State_Revision := revision |>).
Proof. by intros [H1 H2 H3]; split. Qed.

Lemma honest_alter h index response state :
  honest h state → truthful h response → honest h (state <| State_Evidence := alter (withResponse response) index state.(State_Evidence) |>).
Proof.
  intros [H1 H2 H3] Hr. split; [|exact H2|by rewrite ekeys_alter]. cbn. intros e response' (i & Hi)%list_elem_of_lookup_1 He.
  rewrite list_lookup_alter in Hi. case_decide; [|eapply H1; [by eapply list_elem_of_lookup_2|done]].
  apply fmap_Some in Hi as (e0 & Hi & ->). cbn in He. by injection He as <-.
Qed.

Lemma honest_pend h digest response state :
  honest h state → truthful h response → honest h (state <| State_Pending := Some (mkPendingResponse digest response) |>).
Proof. intros [H1 H2 H3] Hr. split; [exact H1| |exact H3]. by intros p [= <-]. Qed.

Lemma honest_advance h response state : honest h state → honest h (advance response state).
Proof. intros [H1 H2 H3]. unfold advance. case_match; [by split|done]. Qed.

(** An event that is not an answered poll. *)
Definition lost (e : event bridge_answer) : Prop := match e with existT (SendPoll _) r => is_ok r = false | _ => True end.

(** * The invariant *)

Definition visible s : State := stateIn s.(bw_file).(bf_visible).
Definition durable s : State := stateIn s.(bw_file).(bf_durable).
Arguments visible : simpl never.
Arguments durable : simpl never.

(** What else is kept of the relay and the history, with what is known of every poll. *)
Context (J : T → history → Prop).
Context (J_start : ∀ t, relay_starts t → J t []).
Context (J_happens : ∀ t t' h, relay_happens t t' → J t h → J t' h).
Context (J_poll : ∀ t t' h poll answer r, J t h → Forall (truthful h) poll.(PollEnvelope_Responses) →
  relay_polls t (writtenPoll poll) answer t' → r = answer ∨ is_ok r = false → J t' (h ++ [existT (SendPoll poll) r])).
Context (J_other : ∀ t h (e : event bridge_answer),
  lost e → J t h → J t (h ++ [e])).

(** [Some n]: the thread may execute the request [n]. *)
Record bridge_ok w (tokens : list (option Z)) : Prop := {
  ok_revision : (0 ≤ (visible w.1).(State_Revision) < two64)%Z ∧ (0 ≤ (durable w.1).(State_Revision) < two64)%Z;
  ok_honest : honest w.2 (visible w.1) ∧ honest w.2 (durable w.1);
  ok_prefix : ekeys (durable w.1) `prefix_of` ekeys (visible w.1);
  ok_evidence x : x ∈ executions w.2 → (1 ≤ x.(ExecutionRequest_Sequence))%Z ∧ ∃ keys,
    keys ++ [rkey (requestOfExecution x)] `prefix_of` ekeys (durable w.1) ∧
    length keys = Z.to_nat (x.(ExecutionRequest_Sequence) - 1) ∧ unusedNonce x.(ExecutionRequest_Nonce) keys;
  ok_once : NoDup (ExecutionRequest_Sequence <$> executions w.2);
  ok_tokens n : Some n ∈ tokens → (1 ≤ n)%Z ∧ n ∉ ExecutionRequest_Sequence <$> executions w.2 ∧
    Z.to_nat (n - 1) < length (ekeys (durable w.1));
  ok_distinct : NoDup (omap id tokens);
  ok_relay : J w.1.(bw_relay) w.2;
}.

Record bridge_later w w' : Prop := {
  later_history : w.2 `prefix_of` w'.2;
  later_visible : ekeys (visible w.1) `prefix_of` ekeys (visible w'.1);
  later_durable : ekeys (durable w.1) `prefix_of` ekeys (durable w'.1);
  later_revision : ((visible w.1).(State_Revision) < (visible w'.1).(State_Revision))%Z ∨
    (visible w.1).(State_Revision) = (visible w'.1).(State_Revision) ∧ ekeys (visible w.1) = ekeys (visible w'.1);
}.

#[local] Instance bridge_later_preorder : PreOrder bridge_later.
Proof.
  split; [intros w; split; auto|]. intros w1 w2 w3 [H1 H2 H3 H4] [H5 H6 H7 H8]. split; [by etrans..|].
  destruct H4 as [?|[? ?]], H8 as [?|[? ?]]; [left; lia..|right; split; congruence].
Qed.

(** Every response of a poll is truthful. *)
Definition polls_truthfully w (e : event bridge_answer) : Prop :=
  match e with existT (SendPoll poll) _ => Forall (truthful w.2) poll.(PollEnvelope_Responses) | _ => True end.

Abbreviation setting := (bridge_setting relay_starts relay_polls relay_happens config).
Abbreviation bowns := (owns setting bridge_ok bridge_later polls_truthfully).

(** ** Calls that do not change the file *)

Lemma history_ok s s' h e tokens :
  s'.(bw_file) = s.(bw_file) → J s'.(bw_relay) (h ++ [e]) → execution e = None →
  bridge_ok (s, h) tokens → bridge_ok (s', h ++ [e]) tokens ∧ bridge_later (s, h) (s', h ++ [e]).
Proof.
  intros Ef HJ He [Hrev Hho Hpre Hev Hon Hto Hdi _]. unfold visible, durable in *. cbn in *.
  assert (executions (h ++ [e]) = executions h) as Ex by (rewrite executed_app; unfold executions at 2; cbn; by rewrite He, app_nil_r).
  assert (h `prefix_of` h ++ [e]) as Hh by by apply prefix_app_r.
  split; split; unfold visible, durable; cbn; rewrite ?Ex, ?Ef; auto.
  destruct Hho. split; by eapply honest_mono.
Qed.

Definition quiet (c : bridge_call) : Prop :=
  match c with CommitState _ _ | ExecuteOperation _ _ | SendPoll _ => False | _ => True end.

Lemma quiet_ok s h e s' tokens :
  quiet (projT1 e) → bridge_ok (s, h) tokens → bridge_serves relay_polls config s e s' →
  bridge_ok (s', h ++ [e]) tokens ∧ bridge_later (s, h) (s', h ++ [e]).
Proof.
  intros Hq Hok Hs. assert (s' = s) as -> by (destruct e as [[] r]; try done; by destruct Hs).
  apply history_ok; [done| |by destruct e as [[] r]|done]. apply J_other; [by destruct e as [[] r]|apply (ok_relay _ _ Hok)].
Qed.

Lemma poll_ok s h poll r s' tokens :
  Forall (truthful h) poll.(PollEnvelope_Responses) →
  bridge_ok (s, h) tokens → bridge_serves relay_polls config s (existT (SendPoll poll) r) s' →
  bridge_ok (s', h ++ [existT (SendPoll poll) r]) tokens ∧ bridge_later (s, h) (s', h ++ [existT (SendPoll poll) r]).
Proof.
  intros Ht Hok [Ef Hs]. apply history_ok; [done| |done|done]. pose proof (ok_relay _ _ Hok) as HJ. cbn in *.
  destruct Hs as [[Hr ->]|(answer & Hp & Hr)].
  - by apply J_other.
  - by eapply J_poll.
Qed.

(** ** Tokens *)

Lemma tokens_replace w tokens1 x tokens2 :
  bridge_ok w (tokens1 ++ x :: tokens2) → bridge_ok w (tokens1 ++ None :: tokens2).
Proof.
  intros [? ? ? ? ? Hto Hdi ?]. split; try done.
  - intros n Hn. apply Hto. set_solver.
  - rewrite !omap_app in *. cbn in *. destruct x; [|done]. rewrite <- Permutation_middle, NoDup_cons in Hdi. apply Hdi.
Qed.

Lemma tokens_claim w tokens1 x tokens2 n :
  bridge_ok w (tokens1 ++ x :: tokens2) → (1 ≤ n)%Z → n ∉ ExecutionRequest_Sequence <$> executions w.2 →
  Z.to_nat (n - 1) < length (ekeys (durable w.1)) → Some n ∉ tokens1 ++ x :: tokens2 →
  bridge_ok w (tokens1 ++ Some n :: tokens2).
Proof.
  intros Hok%tokens_replace H1 Hn Hl Hf. destruct Hok as [? ? ? ? ? Hto Hdi ?]. split; try done.
  - intros m Hm. destruct (decide (m = n)) as [->|Hne]; [done|]. apply Hto. set_solver.
  - rewrite !omap_app in *. cbn in *. rewrite <- Permutation_middle. apply NoDup_cons. split; [|done].
    rewrite <- omap_app. intros (x' & Hx & E)%list_elem_of_omap. cbn in E. subst x'. apply Hf. set_solver.
Qed.

(** ** Commits *)

Lemma executions_none h e : execution e = None → executions (h ++ [e]) = executions h.
Proof. intros He. rewrite executed_app. unfold executions at 2. cbn. by rewrite He, app_nil_r. Qed.

(** The file moves to a later state. *)
Lemma file_ok s s' h e tokens :
  execution e = None → J s'.(bw_relay) (h ++ [e]) → bridge_ok (s, h) tokens →
  (visible s').(State_Revision) = ((visible s).(State_Revision) + 1)%Z → ((visible s').(State_Revision) < two64)%Z →
  honest h (visible s') → ekeys (visible s) `prefix_of` ekeys (visible s') →
  durable s' = durable s ∨ durable s' = visible s' →
  bridge_ok (s', h ++ [e]) tokens ∧ bridge_later (s, h) (s', h ++ [e]).
Proof.
  intros He HJ [[Hr1 Hr2] [Hh1 Hh2] Hpre Hev Hon Hto Hdi _] Erev Hrev Hhon Hkeys Hd. cbn in *.
  assert (h `prefix_of` h ++ [e]) as Hh by by apply prefix_app_r.
  assert (ekeys (durable s) `prefix_of` ekeys (durable s')) as Hdk by (destruct Hd as [-> | ->]; [done|by etrans]).
  split; split; cbn; rewrite ?executions_none by done; try done.
  - split; [lia|]. destruct Hd as [-> | ->]; [done|lia].
  - split; [by eapply honest_mono|]. destruct Hd as [-> | ->]; by eapply honest_mono.
  - destruct Hd as [-> | ->]; [by trans (ekeys (visible s))|reflexivity].
  - intros x Hx. destruct (Hev x Hx) as (H1 & keys & Hk & H2). split; [done|]. exists keys. split; [by etrans|done].
  - intros n Hn. destruct (Hto n Hn) as (H1 & H2 & H3). split_and!; [done..|]. apply prefix_length in Hdk. lia.
  - left. lia.
Qed.

Lemma commit_ok s h expected next r s' tokens :
  bridge_ok (s, h) tokens → ((visible s).(State_Revision) = expected → ekeys (visible s) `prefix_of` ekeys next) → honest h next →
  bridge_serves relay_polls config s (existT (CommitState expected next) r) s' →
  let w' := (s', h ++ [existT (CommitState expected next) r]) in
  bridge_ok w' tokens ∧ bridge_later (s, h) w' ∧
  ∀ revision, r = Ok revision →
    let next := next <| State_Revision := revision |> in
    (visible s).(State_Revision) = expected ∧ validateFileState (identity config) next = Ok tt ∧
    visible s' = writtenState next ∧ durable s' = writtenState next.
Proof.
  intros Hok Hkeys Hhon [Er (fault & [[Ef Hr]|H]%FileCommit_inv)]; cbv zeta.
  { assert (bridge_ok (s', h ++ [existT (CommitState expected next) r]) tokens ∧
            bridge_later (s, h) (s', h ++ [existT (CommitState expected next) r])) as [? ?].
    { apply history_ok; [done| |done|done]. rewrite Er. apply J_other; [done|]. apply (ok_relay _ _ Hok). }
    split_and!; [done..|]. by intros rev ->. }
  destruct H as (Erev & Hz & Hv & Evis & Hdur). destruct (ok_revision _ _ Hok) as [Hrev _]. cbn in Hrev.
  assert (u64 (expected + 1) = expected + 1)%Z as Eu.
  { fold (visible s) in Erev. rewrite Erev in Hrev. destruct (decide (expected + 1 = two64)%Z) as [E|]; [|apply u64_small; lia].
    rewrite E in Hz. by unfold u64 in Hz. }
  rewrite Eu in *.
  assert (visible s' = writtenState (next <| State_Revision := (expected + 1)%Z |>)) as Ev by (unfold visible; by rewrite Evis).
  assert (bridge_ok (s', h ++ [existT (CommitState expected next) r]) tokens ∧
          bridge_later (s, h) (s', h ++ [existT (CommitState expected next) r])) as [? ?].
  { apply file_ok; try done; rewrite ?Ev.
    - rewrite Er. apply J_other; [done|]. apply (ok_relay _ _ Hok).
    - cbn. fold (visible s) in Erev. lia.
    - cbn. fold (visible s) in Erev. pose proof (Z.mod_pos_bound (expected + 1) two64). unfold u64 in Eu. unfold two64 in *. lia.
    - by apply honest_written, honest_revision.
    - rewrite ekeys_written. by apply Hkeys.
    - rewrite <- Ev. unfold durable, visible. rewrite Evis. destruct Hdur as [[-> _]|[-> _]]; auto. }
  split_and!; [done..|]. intros rev ->. destruct Hdur as [[_ ?]|[Edur [= ->]]]; [done|].
  split_and!; try done. unfold durable. by rewrite Edur.
Qed.

(** ** Executions *)

(** The thread that has the token of a request whose evidence is durable, with a nonce
    that no earlier one has, may execute it. *)
Definition entitled (request : RequestEnvelope) w : Prop := (1 ≤ request.(RequestEnvelope_Sequence))%Z ∧ ∃ keys,
  keys ++ [rkey request] `prefix_of` ekeys (durable w.1) ∧
  length keys = Z.to_nat (request.(RequestEnvelope_Sequence) - 1) ∧ unusedNonce request.(RequestEnvelope_Nonce) keys.

Lemma entitled_later request w w' : bridge_later w w' → entitled request w → entitled request w'.
Proof. intros Hl (H1 & keys & Hk & H). split; [done|]. exists keys. split; [|done]. etrans; [exact Hk|apply (later_durable _ _ Hl)]. Qed.

Lemma execute_ok s h operation request r s' tokens1 tokens2 :
  bridge_ok (s, h) (tokens1 ++ Some request.(RequestEnvelope_Sequence) :: tokens2) → entitled request (s, h) →
  bridge_serves relay_polls config s (existT (ExecuteOperation operation (executionOf request)) r) s' →
  let w' := (s', h ++ [existT (ExecuteOperation operation (executionOf request)) r]) in
  bridge_ok w' (tokens1 ++ None :: tokens2) ∧ bridge_later (s, h) w'.
Proof.
  intros Hok Hen Hs. cbn in Hs. subst s'. cbv zeta. set (e := existT _ r).
  assert (executions (h ++ [e]) = executions h ++ [executionOf request]) as Ex by apply executed_app.
  assert (h `prefix_of` h ++ [e]) as Hh by by apply prefix_app_r.
  split; [|by split; cbn; auto].
  pose proof (tokens_replace _ _ _ _ Hok) as [Hrev [Hh1 Hh2] Hpre Hev Hon Hto Hdi HJ].
  destruct (ok_tokens _ _ Hok (RequestEnvelope_Sequence request)) as (_ & Hfresh & _); [set_solver|].
  split; cbn in *; rewrite ?Ex; try done.
  - split; by eapply honest_mono.
  - intros x [Hx | ->%list_elem_of_singleton]%elem_of_app; [by apply Hev|]. by rewrite requestOfExecution_of.
  - rewrite fmap_app. apply NoDup_app. split_and!; [done| |apply NoDup_singleton].
    intros n Hn ->%list_elem_of_singleton. by apply Hfresh.
  - intros n Hn. destruct (Hto n Hn) as (H1 & H2 & H3). split_and!; [done| |done].
    rewrite fmap_app. intros [?|E%list_elem_of_singleton]%elem_of_app; [done|]. cbn in E. subst n.
    pose proof (ok_distinct _ _ Hok) as Hd. rewrite omap_app in Hd. cbn in Hd.
    rewrite <- Permutation_middle, NoDup_cons in Hd. apply Hd. rewrite <- omap_app.
    apply list_elem_of_omap. exists (Some (RequestEnvelope_Sequence request)). split; [set_solver|done].
  - by apply J_other.
Qed.

(** * Threads *)

Lemma bowns_later {A} (p : proc bridge_answer A) w w' x Q : bowns p w x Q → bridge_later w w' → bowns p w' x Q.
Proof. apply (owns_later setting bridge_ok bridge_later). Qed.

(** A call that leaves the file alone. *)
Lemma bowns_quiet_bind {A} c (f : bridge_answer c → go bridge_answer A) w x (Q : bworld → option Z → result A → Prop) :
  quiet c → (∀ r w', bridge_later w w' → bowns (f r) w' x Q) → bowns (ask c ≫= f) w x Q.
Proof.
  intros Hq Hf s h r s' xs1 xs2 Hl Hok Hs. exists x.
  destruct (quiet_ok s h (existT c r) s' (xs1 ++ x :: xs2)) as [Hok' Hl']; [done..|]. split_and!; [done|done|by destruct c|].
  apply Hf. by etrans.
Qed.

Lemma bowns_done {A} (a : A) w x (Q : bworld → option Z → A → Prop) :
  (∀ w', bridge_later w w' → Q w' x a) → bowns (Done a) w x Q.
Proof. intros H w' xs1 xs2 Hl _. by apply H. Qed.

(** What a client with this state knows of the file. *)
Definition informed (state : State) w : Prop :=
  (state.(State_Revision) < (visible w.1).(State_Revision))%Z ∨
  state.(State_Revision) = (visible w.1).(State_Revision) ∧ ekeys state = ekeys (visible w.1).

Record knows (client : Client) w : Prop := {
  knows_indexed : clientOf client.(Client_state) = client;
  knows_honest : honest w.2 client.(Client_state);
  knows_informed : informed client.(Client_state) w;
}.

Lemma informed_later state w w' : bridge_later w w' → informed state w → informed state w'.
Proof.
  intros Hl [Hi|[Hi Hk]]; destruct (later_revision _ _ Hl) as [Hr|[Hr Hv]]; unfold informed; [left; lia..|right].
  split; congruence.
Qed.

Lemma knows_later client w w' : bridge_later w w' → knows client w → knows client w'.
Proof.
  intros Hl [H1 H2 H3]. split; [done|by eapply honest_mono, H2; apply (later_history _ _ Hl)|by eapply informed_later].
Qed.

(** A state with the same keys has the same indexes. *)
Lemma inState_indexed f client :
  ekeys (f client.(Client_state)) = ekeys client.(Client_state) → clientOf client.(Client_state) = client →
  clientOf (f client.(Client_state)) = inState f client.
Proof.
  intros Hk Hc. rewrite <- Hc. unfold inState, clientOf in *. cbn. by rewrite (indexesOf_keys _ _ Hk).
Qed.

(** ** Committing *)

(** The right that a commit gives: to a new request. *)
Definition claims (claim : option Z) (previous next : State) : Prop := ∀ n, claim = Some n →
  (1 ≤ n)%Z ∧ length (ekeys previous) = Z.to_nat (n - 1) ∧ length (ekeys previous) < length (ekeys next).

Lemma claim_ok s h e s' tokens1 x tokens2 previous next n :
  execution e = None →
  bridge_ok (s, h) (tokens1 ++ x :: tokens2) → bridge_ok (s', h ++ [e]) (tokens1 ++ x :: tokens2) →
  ekeys previous = ekeys (visible s) → ekeys next = ekeys (durable s') → claims (Some n) previous next →
  bridge_ok (s', h ++ [e]) (tokens1 ++ Some n :: tokens2).
Proof.
  intros He Hok Hok' Hp Hn Hc. destruct (Hc n eq_refl) as (H1 & Hl & Hlt). pose proof (prefix_length _ _ (ok_prefix _ _ Hok)) as Hd.
  cbn in Hd. rewrite <- Hp in Hd. eapply tokens_claim; [done..| | |]; cbn.
  - rewrite executions_none by done. intros (x0 & -> & Hx)%list_elem_of_fmap.
    destruct (ok_evidence _ _ Hok x0 Hx) as (_ & keys & Hk%prefix_length & El & _). rewrite length_app in Hk. cbn in Hk. lia.
  - rewrite <- Hn. lia.
  - intros Hin. destruct (ok_tokens _ _ Hok n Hin) as (_ & _ & H). cbn in H. lia.
Qed.

Definition committed (client : Client) (claim : option Z) (w : bworld) (x : option Z) (client' : Client) : Prop :=
  (∀ n, claim = Some n → x = Some n) ∧ (∃ revision, client' = inState (λ state, state <| State_Revision := revision |>) client) ∧
  validateFileState (identity config) client'.(Client_state) = Ok tt ∧
  ekeys client'.(Client_state) `prefix_of` ekeys (durable w.1).

Lemma commitOr_owns restore previous client claim w x :
  informed previous w → clientOf client.(Client_state) = client → ekeys previous `prefix_of` ekeys client.(Client_state) →
  honest w.2 client.(Client_state) → knows (restore client) w → claims claim previous client.(Client_state) →
  bowns (commitOr restore previous.(State_Revision) client) w x (λ w' x' '(client', r),
    (r ≠ Panic → knows client' w') ∧
    match r with Ok _ => committed client claim w' x' client' | Err _ => client' = restore client | Panic => True end).
Proof.
  intros Hi Hc Hk Hh Hr Hcl. unfold commitOr, commitLocked, Commit. cbn.
  intros s h r s' xs1 xs2 Hl Hok Hs. set (state := client.(Client_state)) in *.
  destruct (commit_ok s h previous.(State_Revision) state r s' (xs1 ++ x :: xs2)) as (Hok' & Hl' & Hdone); [done| | |done|].
  { intros E. destruct (informed_later _ _ _ Hl Hi) as [Hi'|[_ Ek]]; cbn in *; [lia|]. by rewrite <- Ek. }
  { eapply honest_mono; [apply (later_history _ _ Hl)|done]. }
  cbv zeta in *. assert (knows (restore client) (s', h ++ [existT (CommitState previous.(State_Revision) state) r])) as Hr'
    by (eapply knows_later, Hr; by etrans).
  assert (∀ e, bowns (Done (restore client, @Err unit e)) (s', h ++ [existT (CommitState previous.(State_Revision) state) r]) x
    (λ w' x' '(client', r), (r ≠ Panic → knows client' w') ∧
    match r with Ok _ => committed client claim w' x' client' | Err _ => client' = restore client | Panic => True end)) as Hfail.
  { intros e. apply bowns_done. intros w' Hw. split; [|done]. intros _. by eapply knows_later. }
  destruct r as [revision|e|].
  2: { exists x. split_and!; [done..|]. apply Hfail. }
  2: { exists x. split_and!; [done..|]. by apply bowns_done. }
  destruct (Hdone revision eq_refl) as (Erev & Hv & Evis & Edur). cbn.
  assert (∃ x', (∀ n, claim = Some n → x' = Some n) ∧
    bridge_ok (s', h ++ [existT (CommitState (State_Revision previous) state) (Ok revision)]) (xs1 ++ x' :: xs2)) as (x' & Hx' & Hok'').
  { destruct claim as [n|]; [|by exists x]. exists (Some n). split; [done|].
    eapply (claim_ok s); [done|exact Hok|exact Hok'| | |exact Hcl].
    - destruct (informed_later _ _ _ Hl Hi) as [Hi'|[_ Ek]]; cbn in *; [lia|done].
    - by rewrite Edur, ekeys_written. }
  destruct (Z.leb_spec revision (State_Revision previous)).
  { exists x. split_and!; [done..|]. apply Hfail. }
  assert (clientOf (inState (λ state, state <| State_Revision := revision |>) client).(Client_state) =
    inState (λ state, state <| State_Revision := revision |>) client) as Hci by by apply (inState_indexed (λ state, state <| State_Revision := revision |>)).
  exists x'. split_and!; [done..|]. cbn. intros w' ys1 ys2 Hw _.
  split.
  - intros _. eapply knows_later; [exact Hw|]. split; cbn.
    + exact Hci.
    + apply (honest_revision _ revision state). eapply honest_mono; [|exact Hh]. etrans; [apply (later_history _ _ Hl)|apply (later_history _ _ Hl')].
    + right. cbn. rewrite Evis. split; [done|by rewrite ekeys_written].
  - split_and!; [done|by exists revision|done|]. etrans; [|apply (later_durable _ _ Hw)]. cbn. by rewrite Edur, ekeys_written.
Qed.

(** ** Methods *)

(** A method keeps what its client knows where [P] holds, which stays so. *)
Definition stays (P : bworld → Prop) : Prop := ∀ w w', bridge_later w w' → P w → P w'.
Definition keeps_at {A} (P : bworld → Prop) (client : Client) (m : bridge A) : Prop := ∀ w x, P w → knows client w →
  bowns (m client) w x (λ w' _ '(client', r), r ≠ Panic → knows client' w').
Definition anywhere (w : bworld) : Prop := True.

Lemma stays_anywhere : stays anywhere.
Proof. done. Qed.
Lemma stays_given request : stays (λ w, given config w.2 request).
Proof. intros w w' Hl. apply given_kept, (later_history _ _ Hl). Qed.

Lemma keeps_pure {A} P client (r : result A) : keeps_at P client (λ client, Done (client, r)).
Proof. intros w x _ Hk. apply bowns_done. intros w' Hw _. by eapply knows_later. Qed.

Lemma kept_get {A} P client (f : Client → bridge A) : keeps_at P client (f client) → keeps_at P client (get ≫= f).
Proof. done. Qed.

Lemma keeps_at_weaken {A} (P P' : bworld → Prop) client (m : bridge A) :
  (∀ w, P w → P' w) → keeps_at P' client m → keeps_at P client m.
Proof. intros HP Hm w x Hw. by apply Hm, HP. Qed.

Lemma bowns_bind {A B} (m : bridge A) (f : A → bridge B) client w x (Q : bworld → option Z → Client * result B → Prop) :
  bowns (m client) w x (λ w' x' '(client', r), match r with
    | Ok a => bowns (f a client') w' x' Q
    | Err e => bowns (Done (client', Err e)) w' x' Q
    | Panic => bowns (Done (client', Panic)) w' x' Q
    end) → bowns ((m ≫= f) client) w x Q.
Proof.
  intros H. apply (owns_bind setting bridge_ok bridge_later).
  eapply (owns_mono setting bridge_ok bridge_later); [exact H|]. by intros w' x' [client' [a|e|]] xs1 xs2 _ _.
Qed.

Lemma kept_bind {A B} P client (m : bridge A) (f : A → bridge B) :
  stays P → keeps_at P client m → (∀ a client', keeps_at P client' (f a)) → keeps_at P client (m ≫= f).
Proof.
  intros HP Hm Hf w x Hw0 Hk. apply bowns_bind. eapply (owns_mono setting bridge_ok bridge_later); [by apply Hm|].
  intros w' x' [client' [a|e|]] xs1 xs2 Hl _ H; [apply Hf; [by eapply HP|by apply H]|..]; apply bowns_done; intros w'' Hw; [|done].
  intros _. eapply knows_later; [exact Hw|]. by apply H.
Qed.

Lemma commitOr_keeps f restore client w x :
  knows client w → ekeys client.(Client_state) = ekeys (f client.(Client_state)) → honest w.2 (f client.(Client_state)) →
  restore (inState f client) = client →
  bowns (commitOr restore client.(Client_state).(State_Revision) (inState f client)) w x
    (λ w' _ '(client', r), r ≠ Panic → knows client' w').
Proof.
  intros Hk Hf Hh Hr. destruct Hk as [Hc H1 H2].
  eapply (owns_mono setting bridge_ok bridge_later).
  - apply (commitOr_owns _ _ _ None); [done|by apply inState_indexed|cbn; by rewrite <- Hf|done|by rewrite Hr|done].
  - by intros w' x' [client' r] xs1 xs2 _ _ [H _].
Qed.

Lemma ekeys_advance response state : ekeys (advance response state) = ekeys state.
Proof. unfold advance. by case_match. Qed.

Lemma restore_indexed f client :
  clientOf client.(Client_state) = client → rebuildIndexes (inState (λ _, client.(Client_state)) (inState f client)) = client.
Proof. intros Hc. by unfold rebuildIndexes. Qed.

Lemma restore_state f client : inState (λ _, client.(Client_state)) (inState f client) = client.
Proof. by destruct client. Qed.

(** An evidence is that of a delivered request. *)
Lemma evidence_given client w index evidence :
  knows client w → client.(Client_state).(State_Evidence) !! index = Some evidence →
  ∃ request, given config w.2 request ∧ rkey request = ekey evidence.
Proof.
  intros Hk He. apply (honest_keys _ _ (knows_honest _ _ Hk)). by eapply list_elem_of_fmap_2, list_elem_of_lookup_2.
Qed.

Lemma ekeys_completed index digest response state : ekeys (completedState index digest response state) = ekeys state.
Proof. etrans; [apply ekeys_advance|apply ekeys_alter]. Qed.

Lemma honest_completed h index digest response state :
  honest h state → truthful h response → honest h (completedState index digest response state).
Proof. intros Hs Hr. by apply honest_pend, Hr; apply honest_advance, honest_alter. Qed.

Lemma truthful_failure h request code message :
  given config h request → refused h request code → truthful h (failure config request code message).
Proof. intros Hg Hr. by eapply truthful_refused. Qed.

Lemma truthful_bound h response : truthful h response → truthful h (boundResponse config response).
Proof. intros H. unfold boundResponse. case_match; [done|]. by eapply truthful_oversized. Qed.

Lemma completeLocked_keeps index digest response client w x :
  knows client w → truthful w.2 response →
  bowns (completeLocked config index digest response client) w x (λ w' _ '(client', r), r ≠ Panic → knows client' w').
Proof.
  intros Hk Hr%truthful_bound. unfold completeLocked. destruct (negb _); [by apply (keeps_pure anywhere)|].
  apply (commitOr_keeps (completedState index digest (boundResponse config response))); [done| | |].
  - by rewrite ekeys_completed.
  - apply honest_completed; [apply Hk|done].
  - apply restore_indexed, Hk.
Qed.

Lemma completePreparedConflict_keeps index evidence digest conflict client w x :
  knows client w → truthful w.2 conflict → client.(Client_state).(State_Evidence) !! index = Some evidence →
  bowns (completePreparedConflictLocked config index evidence digest conflict client) w x
    (λ w' _ '(client', r), r ≠ Panic → knows client' w').
Proof.
  intros Hk Ht%truthful_bound He. unfold completePreparedConflictLocked.
  set (unknown := boundResponse config (failureOf _ _ _ _ _)).
  assert (truthful w.2 unknown) as Hu.
  { apply truthful_bound. destruct (evidence_given _ _ _ _ Hk He) as (other & Hg & E).
    apply (truthful_refused _ _ other ErrorUnknownOutcome "prepared request outcome is unknown"); [done| |constructor].
    injection E as E1 E2 _. by split. }
  refine (commitOr_keeps (λ state, state <| State_Evidence := alter (withResponse unknown) index state.(State_Evidence) |>
          <| State_Cursor := evidence.(BridgeEvidence_Sequence) |>
          <| State_Pending := Some (mkPendingResponse digest (boundResponse config conflict)) |>) _ _ _ _ Hk _ _ _).
  - symmetry. apply (ekeys_alter unknown).
  - apply (honest_pend _ _ (boundResponse config conflict)); [|done].
    pose proof (honest_alter _ index unknown _ (knows_honest _ _ Hk) Hu) as [H1 H2 H3]. by split.
  - apply restore_indexed, Hk.
Qed.

Lemma persistPending_keeps digest response client w x :
  knows client w → truthful w.2 response →
  bowns (persistPendingLocked digest response client) w x (λ w' _ '(client', r), r ≠ Panic → knows client' w').
Proof.
  intros Hk Hr. unfold persistPendingLocked. change (get ≫= ?f) with (λ c : Client, (f c) c). cbv beta.
  destruct (State_Pending _) eqn:E; [by apply (keeps_pure anywhere)|].
  refine (commitOr_keeps (λ state, advance response state <| State_Pending := Some (mkPendingResponse digest response) |>) _ _ _ _ Hk _ _ _).
  - symmetry. apply ekeys_advance.
  - apply honest_pend, Hr. apply honest_advance, Hk.
  - apply restore_state.
Qed.

(** ** Executing *)

(** Whatever a response is worth when it is returned. *)
Definition answers_truthfully (w : bworld) (r : result ResponseEnvelope) : Prop :=
  match r with Ok response => truthful w.2 response | _ => True end.

Lemma answers_later w w' r : bridge_later w w' → answers_truthfully w r → answers_truthfully w' r.
Proof. intros Hl. destruct r; [|done..]. apply truthful_mono, (later_history _ _ Hl). Qed.

Lemma executeOperation_owns request operation w :
  entitled request w →
  bowns (executeOperation config request operation) w (Some request.(RequestEnvelope_Sequence)) (λ w' _ r, answers_truthfully w' r).
Proof.
  intros Hen s h r s' xs1 xs2 Hl Hok Hs.
  destruct (execute_ok s h operation request r s' xs1 xs2) as [Hok' Hl']; [done|by eapply entitled_later|done|].
  exists None. split_and!; [done..|]. cbn in r.
  set (c := ExecuteOperation operation (executionOf request)).
  assert (∀ w', bridge_later (s', h ++ [existT c r]) w' → existT c r ∈ w'.2) as Hin
    by (intros w' Hw; eapply event_kept; [apply (later_history _ _ Hw)|cbn; set_solver]).
  unfold c in *. clear c. destruct r as [payload|e|]; [|apply bowns_done; intros w' Hw; cbn|by apply bowns_done].
  - cbn. destruct (_ || _) eqn:Ep; apply bowns_done; intros w' Hw; cbn.
    + eapply truthful_unusable; [done|by apply Hin|done|done|]. apply orb_true_iff in Ep as [Ep|Ep].
      * left. by apply Z.ltb_lt.
      * right. apply andb_true_iff in Ep as [_ Ep]. by apply negb_true_iff.
    + apply truthful_success; [done|]. exists operation, (executionOf request), payload. split; [by apply Hin|done].
  - eapply truthful_failed; [done|by apply Hin|done|done].
Qed.

Lemma resolveAndExecute_owns request w :
  given config w.2 request → entitled request w →
  bowns (resolveAndExecute config request) w (Some request.(RequestEnvelope_Sequence)) (λ w' _ r, answers_truthfully w' r).
Proof.
  intros Hg Hen. unfold resolveAndExecute.
  assert (∀ code message x w', bridge_later w w' → refused w'.2 request code →
    bowns (ret (failure config request code message)) w' x (λ w' _ r, answers_truthfully w' r)) as Hfail.
  { intros code message x w' Hw Hr. apply bowns_done. intros w'' Hw'. cbn. apply truthful_failure.
    - eapply stays_given, Hg. by etrans.
    - eapply refused_mono, Hr. apply (later_history _ _ Hw'). }
  intros s h resolved s' xs1 xs2 Hl Hok Hs. exists (Some request.(RequestEnvelope_Sequence)).
  destruct (quiet_ok s h (existT _ resolved) s' _ I Hok Hs) as [Hok1 Hl1]. split_and!; [done..|]. cbn in resolved.
  assert (bridge_later w (s', h ++ [existT (ResolvePublished (RequestEnvelope_ProjectID request) (RequestEnvelope_ThreadID request)
    (RequestEnvelope_Action request)) resolved])) as H1 by by etrans.
  destruct resolved as [operation|]; [|apply Hfail; [done|apply refused_unpublished; cbn; set_solver]].
  destruct (Operation_Mutation operation) eqn:Em; cbn; rewrite Em; [|by apply executeOperation_owns; eapply entitled_later].
  destruct (BridgeConfig_HasAuthorization config) eqn:Ea; cbn [negb]; [|apply Hfail; [done|by apply refused_unauthorised; left]].
  intros s2 h2 r s2' ys1 ys2 Hl2 Hok2 Hs2. exists (Some request.(RequestEnvelope_Sequence)).
  destruct (quiet_ok s2 h2 (existT _ r) s2' _ I Hok2 Hs2) as [Hok3 Hl3]. split_and!; [done..|]. cbn in r.
  assert (bridge_later w (s2', h2 ++ [existT (AuthorizeBridged (authorizationOf request)) r])) as H2 by by do 2 (etrans; [eassumption|]).
  destruct r as [u|e|]; [|apply Hfail; [done|]|by apply bowns_done].
  - apply executeOperation_owns. by eapply entitled_later.
  - apply refused_unauthorised. right. exists e. cbn. set_solver.
Qed.

(** The nonce of the last evidence finds it, unless an earlier one has it. *)
Lemma prepared_nonce evidence e n :
  (∀ i e', (evidence ++ [e]) !! i = Some e' → e'.(BridgeEvidence_Sequence) = (Z.of_nat i + 1)%Z) →
  (indexesOf (evidence ++ [e])).2 !! e.(BridgeEvidence_Nonce) = Some n →
  n = e.(BridgeEvidence_Sequence) → unusedNonce e.(BridgeEvidence_Nonce) (ekey <$> evidence).
Proof.
  intros Hseq Hn ->. destruct (nonces_Some _ _ _ Hn) as (before & e0 & after & E & _ & Es & Hu).
  assert (length before = length evidence) as El.
  { pose proof (Hseq (length before) e0) as H1. rewrite E in H1. rewrite list_lookup_middle in H1 by done. specialize (H1 eq_refl).
    pose proof (Hseq (length evidence) e) as H2. rewrite list_lookup_middle in H2 by done. specialize (H2 eq_refl). lia. }
  assert (before = evidence) as -> by by apply app_inj_1 in E as [-> _].
  done.
Qed.

Lemma nonces_last evidence e : is_Some ((indexesOf (evidence ++ [e])).2 !! e.(BridgeEvidence_Nonce)).
Proof.
  rewrite indexesOf_snoc. unfold indexEvidence. destruct (indexesOf evidence) as [m nonces]. cbn.
  destruct (nonces !! e.(BridgeEvidence_Nonce)) eqn:E; [by rewrite E|]. by rewrite lookup_insert_eq.
Qed.

Definition preparedEvidence (request : RequestEnvelope) : BridgeEvidence :=
  mkBridgeEvidence request.(RequestEnvelope_Sequence) request.(RequestEnvelope_Nonce) (requestDigest request) EvidencePrepared None.

Lemma validateAndExecute_owns request client evidence w :
  given config w.2 request → knows client w → client.(Client_state).(State_Evidence) = evidence ++ [preparedEvidence request] →
  validateFileState (identity config) client.(Client_state) = Ok tt → ekeys client.(Client_state) `prefix_of` ekeys (durable w.1) →
  bowns (validateAndExecute config request client) w (Some request.(RequestEnvelope_Sequence))
    (λ w' _ '(client', r), (r ≠ Panic → knows client' w') ∧ answers_truthfully w' r).
Proof.
  intros Hg Hk Hev Hv Hd.
  assert (∀ code message x, refused w.2 request code → bowns (Done (client, Ok (failure config request code message))) w x
    (λ w' _ '(client', r), (r ≠ Panic → knows client' w') ∧ answers_truthfully w' r)) as Hdone.
  { intros code message x Hr. apply bowns_done. intros w' Hw. split.
    - intros _. by eapply knows_later.
    - eapply answers_later; [exact Hw|]. by apply truthful_failure. }
  assert (∀ i e', (evidence ++ [preparedEvidence request]) !! i = Some e' → e'.(BridgeEvidence_Sequence) = (Z.of_nat i + 1)%Z) as Hseq
    by (rewrite <- Hev; intros i e'; apply (validate_sequence _ _ _ _ Hv)).
  pose proof (Hseq (length evidence) (preparedEvidence request)) as Hn. rewrite list_lookup_middle in Hn by done.
  specialize (Hn eq_refl). cbn in Hn.
  unfold validateAndExecute. change (get ≫= ?f) with (λ c : Client, (f c) c). cbv beta.
  destruct (validRequestEnvelope config request) eqn:Evalid; cbn [negb]; [|by apply Hdone, refused_invalid].
  destruct (_ || _) eqn:Eid.
  { apply Hdone, refused_identity. apply orb_true_iff in Eid as [E|E]; [left|right]; by apply negb_true_iff, String.eqb_neq in E. }
  destruct (nonces_last evidence (preparedEvidence request)) as [previous Hprev].
  pose proof (prepared_nonce evidence (preparedEvidence request) previous Hseq Hprev) as Hunused. cbn in Hprev, Hunused.
  assert (client.(Client_nonces) !! request.(RequestEnvelope_Nonce) = Some previous) as Ec
    by (rewrite <- (knows_indexed _ _ Hk); cbn; by rewrite Hev).
  rewrite Ec. destruct (Z.eqb_spec previous (RequestEnvelope_Sequence request)) as [->|]; cbn [negb].
  2: { apply Hdone. destruct (nonces_Some _ _ _ Hprev) as (before & other & after & E & En & Es & _).
    destruct (evidence_given client w (length before) other Hk) as (request' & Hg' & Er); [rewrite Hev, E; by apply list_lookup_middle|].
    injection Er as E1 E2 _. apply (refused_replay _ _ request'); [done|congruence|congruence]. }
  assert (client <| Client_nonces := <[request.(RequestEnvelope_Nonce) := request.(RequestEnvelope_Sequence)]> client.(Client_nonces) |> = client)
    as Esame by (destruct client; cbn in *; f_equal; by apply insert_id).
  change ((update ?g ≫= ?f) client) with (f tt (g client)). cbv beta. rewrite Esame.
  destruct (bool_decide_reflect (RequestEnvelope_ProjectID request ∈ BridgeConfig_AllowedProjects config)); cbn [negb];
    [|by apply Hdone, refused_project].
  assert (entitled request w) as Hen.
  { split; [lia|]. exists (ekey <$> evidence). split_and!; [|rewrite length_fmap; lia|by apply Hunused].
    unfold ekeys in Hd. rewrite Hev, fmap_app in Hd. exact Hd. }
  apply (owns_bind setting bridge_ok bridge_later). eapply (owns_mono setting bridge_ok bridge_later).
  - eapply (owns_mono setting bridge_ok bridge_later); [by apply resolveAndExecute_owns|].
    intros w' x' r xs1 xs2 Hl _ H. exact (conj Hl H).
  - intros w' x' r xs1 xs2 _ _ [Hl Hr]. apply bowns_done. intros w'' Hw. split; [|by eapply answers_later].
    intros _. eapply knows_later, Hk. by etrans.
Qed.

(** ** Handling *)

Lemma prepare_indexed request client :
  clientOf client.(Client_state) = client → clientOf (prepare request client).(Client_state) = prepare request client.
Proof.
  intros Hc. rewrite <- Hc. unfold prepare, clientOf. cbn -[indexesOf]. rewrite indexesOf_snoc. unfold indexEvidence.
  destruct (indexesOf _) as [m nonces]. cbn. by rewrite Nat2Z.id.
Qed.

Abbreviation from request := (λ w : bworld, given config w.2 request).

Lemma handleNew_keeps request client : keeps_at (from request) client (handleNew config request).
Proof.
  intros w x Hg Hk. unfold handleNew. change (get ≫= ?f) with (λ c : Client, (f c) c). cbv beta zeta.
  destruct (_ || _); [by apply (keeps_pure anywhere)|]. destruct (_ <=? _)%Z; [by apply (keeps_pure anywhere)|].
  change ((update ?g ≫= ?f) client) with (f tt (g client)). cbv beta.
  set (evidence := client.(Client_state).(State_Evidence)). set (n := (Z.of_nat (length evidence) + 1)%Z).
  assert (ekeys (prepare request client).(Client_state) = ekeys client.(Client_state) ++ [rkey request]) as Ek
    by (unfold ekeys; cbn; by rewrite fmap_app).
  destruct Hk as [Hc Hh Hi] eqn:EHk. clear EHk.
  apply bowns_bind. eapply (owns_mono setting bridge_ok bridge_later).
  { apply (commitOr_owns _ client.(Client_state) _ (Some n)); [done|by apply prepare_indexed|rewrite Ek; by apply prefix_app_r| | |].
    - destruct Hh as [H1 H2 H3]. split; [|exact H2|].
      2: { rewrite Ek. intros key [Hkey | ->%list_elem_of_singleton]%elem_of_app; [by apply H3|by exists request]. }
      cbn. intros e response [He | ->%list_elem_of_singleton]%elem_of_app; [by apply H1|done].
    - change (knows (clientOf client.(Client_state)) w). by rewrite Hc.
    - intros m [= <-]. rewrite Ek, length_app. unfold ekeys. rewrite length_fmap. fold evidence. cbn. lia. }
  intros w1 x1 [client1 [u|e|]] ys1 ys2 Hw1 _ [Hk1 H1]; [|apply bowns_done; intros w' Hw' _; eapply knows_later; [exact Hw'|by apply Hk1]|by apply bowns_done].
  destruct H1 as (Hx & (revision & E1) & Hv & Hd). specialize (Hx n eq_refl). subst x1.
  assert (client1.(Client_state).(State_Evidence) = evidence ++ [preparedEvidence request]) as Ev by by rewrite E1.
  assert (RequestEnvelope_Sequence request = n) as En.
  { apply (validate_sequence _ _ (length evidence) (preparedEvidence request) Hv). rewrite Ev. by apply list_lookup_middle. }
  apply bowns_bind. eapply (owns_mono setting bridge_ok bridge_later).
  { rewrite <- En. eapply validateAndExecute_owns; [by eapply stays_given|by apply Hk1|exact Ev|exact Hv|exact Hd]. }
  intros w2 x2 [client2 [response|e|]] zs1 zs2 Hw2 _ [Hk2 H2]; [|apply bowns_done; intros w' Hw' _; eapply knows_later; [exact Hw'|by apply Hk2]|by apply bowns_done].
  apply bowns_bind. eapply (owns_mono setting bridge_ok bridge_later).
  { apply completeLocked_keeps; [by apply Hk2|by apply truthful_bound]. }
  intros w3 x3 [client3 [u3|e|]] us1 us2 Hw3 _ H3; apply bowns_done; intros w' Hw' Hp; [|eapply knows_later; [exact Hw'|by apply H3]..|done].
  eapply knows_later; [exact Hw'|]. by apply H3.
Qed.

(** A change of the state, then a response. *)
Lemma keeps_then {A B} P client (m : bridge B) (a : A) : stays P → keeps_at P client m → keeps_at P client (m ≫= λ _, done a).
Proof. intros HP Hm. apply kept_bind; [done..|]. intros u client'. apply keeps_pure. Qed.

Lemma handleAgain_keeps request index evidence client :
  client.(Client_bySequence) !! request.(RequestEnvelope_Sequence) = Some index →
  client.(Client_state).(State_Evidence) !! index = Some evidence →
  keeps_at (from request) client (handleAgain config request index evidence).
Proof.
  intros Hindex He. apply kept_get. cbv zeta. destruct (_ != _) eqn:Ed.
  - assert (∀ w, from request w → knows client w → truthful w.2 (failure config request ErrorConflict orderConflict)) as Hc.
    { intros w Hg Hk. apply truthful_failure; [done|]. destruct (evidence_given _ _ _ _ Hk He) as (other & Hg' & E).
      injection E as E1 _ E3. apply (refused_conflict _ _ other); [done| |].
      - rewrite <- (knows_indexed _ _ Hk) in Hindex. cbn in Hindex.
        destruct (bySequence_Some _ _ _ Hindex) as (e' & He' & <-). congruence.
      - apply negb_true_iff, String.eqb_neq in Ed. congruence. }
    clear Ed. destruct (_ == _).
    { apply keeps_then; [apply stays_given|]. intros w x Hg Hk. apply completePreparedConflict_keeps; auto. }
    destruct (is_Some_b _); [apply keeps_pure|]. apply keeps_then; [apply stays_given|]. intros w x Hg Hk. apply persistPending_keeps; auto.
  - clear Ed. destruct (_ == _).
    { apply keeps_then; [apply stays_given|]. intros w x Hg Hk. apply completeLocked_keeps; [done|].
      apply truthful_failure; [done|constructor]. }
    destruct (BridgeEvidence_Response evidence) as [response|] eqn:Er; [|apply keeps_pure].
    destruct (is_Some_b _); [apply keeps_pure|]. apply keeps_then; [apply stays_given|]. intros w x _ Hk.
    apply persistPending_keeps; [done|]. eapply (honest_evidence _ _ (knows_honest _ _ Hk)); [by eapply list_elem_of_lookup_2|done].
Qed.

Lemma handleLocked_keeps request client : keeps_at (from request) client (handleLocked config request).
Proof.
  apply kept_get. destruct (Client_bySequence client !! _) as [index|] eqn:Ei; [|by apply handleNew_keeps].
  destruct (State_Evidence _ !! index) as [evidence|] eqn:E; [by apply handleAgain_keeps|apply keeps_pure].
Qed.

Lemma dropAcknowledged_keeps P result client : keeps_at P client (dropAcknowledged result).
Proof.
  apply kept_get. cbv beta zeta. destruct (State_Pending _) eqn:E; [|apply keeps_pure]. destruct (_ <=? _)%Z; [|apply keeps_pure].
  intros w x _ Hk. refine (commitOr_keeps (λ state, state <| State_Pending := None |>) _ _ _ _ Hk _ _ _); [done| |apply restore_state].
  destruct (knows_honest _ _ Hk). by split.
Qed.

(** A poll returned the result. *)
Definition returned (result : PollResult) (w : bworld) : Prop := ∃ poll, existT (SendPoll poll) (Ok result) ∈ w.2.
Lemma stays_returned result : stays (returned result).
Proof. intros w w' Hl [poll Hin]. exists poll. eapply event_kept, Hin. apply (later_history _ _ Hl). Qed.

Lemma accept_keeps result client : keeps_at (returned result) client (accept config result).
Proof.
  apply kept_get. cbv zeta. destruct ((PollResult_AccountID result != _) || _) eqn:Ei; [apply keeps_pure|].
  destruct ((_ <? PollResult_AcknowledgedThrough result)%Z || _) eqn:El; [apply keeps_pure|].
  apply orb_false_iff in Ei as [E1%negb_false_iff%String.eqb_eq E2%negb_false_iff%String.eqb_eq].
  apply orb_false_iff in El as [_ El%Nat.ltb_ge].
  apply kept_bind; [apply stays_returned|apply dropAcknowledged_keeps|]. intros u client'. apply kept_get.
  destruct (PollResult_Requests result) as [|request rest] eqn:Er; [apply keeps_pure|].
  assert (keeps_at (returned result) client' (handleLocked config request ≫= λ _, done tt)) as Hl.
  { apply keeps_then; [apply stays_returned|]. eapply keeps_at_weaken, handleLocked_keeps. intros w [poll Hin].
    exists poll, result. split_and!; [done..|]. destruct rest; [done|cbn in El; lia]. }
  destruct (_ && _); [exact Hl|]. destruct (_ || _); [apply keeps_pure|exact Hl].
Qed.

(** ** Polling *)

(** A method that only makes quiet calls. *)
Lemma keeps_quiet {A} P client (m : bridge_go A) : only quiet m → keeps_at P client (calls m).
Proof.
  intros Hm w x _ Hk. apply (owns_bind setting bridge_ok bridge_later). eapply (owns_mono setting bridge_ok bridge_later).
  - eapply (owns_mono setting bridge_ok bridge_later); [eapply owns_only; [| |exact Hm]|].
    + intros s h e s' xs. apply quiet_ok.
    + intros w' c r Hc. by destruct c.
    + intros w' x' a xs1 xs2 Hl _ _. exact Hl.
  - intros w' x' a xs1 xs2 _ _ Hl. apply bowns_done. intros w'' Hw _. eapply knows_later, Hk. cbv beta in Hl. by etrans.
Qed.

Lemma poll_keeps client w x : knows client w →
  bowns (poll config client) w x (λ w' _ '(client', r),
    (r ≠ Panic → knows client' w') ∧ ∀ result, r = Ok result → returned result w').
Proof.
  intros Hk. unfold poll. change (get ≫= ?f) with (λ c : Client, (f c) c). cbv beta. unfold calls.
  assert (∀ r, is_ok r = false → bowns (Done (client, r)) w x (λ w' _ '(client', r),
    (r ≠ Panic → knows client' w') ∧ ∀ result, r = Ok result → returned result w')) as Hdone
    by (intros r Hr; apply bowns_done; intros w' Hw; split; [intros _; by eapply knows_later|by intros result ->]).
  destruct (marshalPoll _) as [body|e|]; [|by apply Hdone..]. cbn [lift mbind go_bind proc_bind].
  destruct (fail_if _ _) as [u|e|]; [|by apply Hdone..].
  intros s h r s' xs1 xs2 Hl Hok Hs.
  assert (Forall (truthful h) (PollEnvelope_Responses (pollOf config client))) as Ht.
  { cbn. destruct (State_Pending _) as [pending|] eqn:E; [|constructor]. constructor; [|constructor].
    eapply truthful_mono; [apply (later_history _ _ Hl)|]. by apply (honest_pending _ _ (knows_honest _ _ Hk)). }
  destruct (poll_ok s h (pollOf config client) r s' (xs1 ++ x :: xs2) Ht Hok Hs) as [Hok' Hl'].
  exists x. split_and!; [done..|]. apply (bowns_done (client, _)). intros w' Hw. split.
  - intros _. eapply knows_later, Hk. by do 2 (etrans; [eassumption|]).
  - intros result E. apply (stays_returned _ _ _ Hw). exists (pollOf config client). cbn in *. destruct r; simplify_eq/=; set_solver.
Qed.

Lemma Run_keeps rounds backoff client : keeps_at anywhere client (Run config rounds backoff).
Proof.
  revert backoff client. induction rounds as [|rounds IH]; intros backoff client; [apply keeps_pure|]. cbn [Run].
  intros w x _ Hk. apply bowns_bind. unfold attempt. apply (owns_bind setting bridge_ok bridge_later).
  eapply (owns_mono setting bridge_ok bridge_later); [by apply poll_keeps|].
  intros w1 x1 [client1 [result|e|]] xs1 xs2 _ _ [Hk1 Hp]; apply bowns_done; intros w2 Hw2; [..|by apply bowns_done].
  - apply bowns_bind. eapply (owns_mono setting bridge_ok bridge_later).
    { apply (accept_keeps result); [apply (stays_returned _ _ _ Hw2); by apply Hp|]. eapply knows_later; [exact Hw2|by apply Hk1]. }
    intros w3 x3 [client3 [u|e|]] ys1 ys2 _ _ Hk3; [by apply IH, Hk3|apply bowns_done; intros w4 Hw4 _; eapply knows_later; [exact Hw4|by apply Hk3]|by apply bowns_done].
  - assert (keeps_at anywhere client1 (cancelled ← calls (ask BridgeContextErr);
      match cancelled with
      | Some cause => fail cause
      | None =>
          if errors_Is e ErrCertificatePin then fail e else
          calls (slept ← ask (BridgeSleep backoff); lift slept) ≫= λ _,
          let backoff := i64 (backoff * 2) in
          Run config rounds (if (config.(BridgeConfig_MaxBackoff) <? backoff)%Z then config.(BridgeConfig_MaxBackoff) else backoff)
      end)) as Hrest.
    { apply kept_bind; [done|apply keeps_quiet; walk|]. intros [cause|] client2; [apply keeps_pure|].
      destruct (errors_Is _ _); [apply keeps_pure|]. apply kept_bind; [done|apply keeps_quiet; walk|]. intros u client3. apply IH. }
    apply Hrest; [done|]. eapply knows_later; [exact Hw2|by apply Hk1].
Qed.

(** ** Starting *)

Lemma openState_owns w x : bowns (openState config) w x (λ w' _ r, match r with Ok client => knows client w' | _ => True end).
Proof.
  intros s h r s' xs1 xs2 Hl Hok Hs. destruct (quiet_ok s h (existT LoadState r) s' (xs1 ++ x :: xs2)) as [Hok' Hl']; [done..|].
  exists x. split_and!; [done..|]. cbn in Hs. destruct Hs as [-> (fault & ->)]. cbn.
  destruct (FileLoad _ _ _) as [state|e|] eqn:E; [|by apply bowns_done..]. apply FileLoad_inv in E as ->. cbn.
  intros w' ys1 ys2 Hw _. destruct (indexState config _) as [client|e|] eqn:E; [|done..].
  apply indexState_inv in E as ->. eapply knows_later; [exact Hw|]. split; [done| |by right].
  eapply honest_mono; [apply (later_history _ _ Hl')|]. apply (ok_honest _ _ Hok).
Qed.

Lemma bridge_owned p w : bridge_spawns config p → bowns p w None (λ _ _ _, True).
Proof.
  intros [raw rounds Hraw]. unfold bridgeProcess, New. rewrite Hraw.
  apply (owns_bind setting bridge_ok bridge_later). change (lift (Ok config) ≫= ?f) with (f config). cbv beta.
  apply (owns_bind setting bridge_ok bridge_later). eapply (owns_mono setting bridge_ok bridge_later); [apply openState_owns|].
  intros w' x' [client|e|] xs1 xs2 _ _ Hk; [|by apply bowns_done..]. apply bowns_done. intros w'' Hw.
  apply (owns_bind setting bridge_ok bridge_later). eapply (owns_mono setting bridge_ok bridge_later).
  - apply Run_keeps; [done|]. by eapply knows_later.
  - intros. by apply bowns_done.
Qed.

Lemma start_ok s : bridge_starts relay_starts s → bridge_ok (s, []) [].
Proof.
  intros [t Ht]. split; cbn; [by split|by split; apply honest_zero|done|by intros ? ?%not_elem_of_nil|constructor
    |by intros ? ?%not_elem_of_nil|constructor|by apply J_start].
Qed.

Lemma spawn_ok w tokens : bridge_ok w tokens → bridge_ok w (tokens ++ [None]).
Proof.
  intros [? ? ? ? ? Ht Hd ?]. split; try done.
  - intros n Hn. apply Ht. set_solver.
  - by rewrite omap_app, app_nil_r.
Qed.

Lemma happens_ok s h s' tokens :
  bridge_ok (s, h) tokens → bridge_happens relay_happens s s' → bridge_ok (s', h) tokens ∧ bridge_later (s, h) (s', h).
Proof.
  intros Hok Hh. revert Hok. destruct Hh as [file t t' Ht]. intros [? ? ? ? ? ? ? HJ].
  split; [split; try done; by eapply J_happens|]. split; cbn; auto.
Qed.

Lemma crash_ok s h s' tokens :
  bridge_ok (s, h) tokens → bridge_crashes s s' → bridge_ok (s', h) ((λ _, None) <$> tokens).
Proof.
  intros Hok Hc. revert Hok. destruct Hc as [file t survived Hs]. intros [[Hr1 Hr2] [Hh1 Hh2] Hpre Hev Hon _ _ HJ]. cbn in *.
  assert (∀ n, Some n ∉ ((λ _, None) <$> tokens : list (option Z))) as Hnone by (intros n (y & ? & _)%list_elem_of_fmap; done).
  assert (visible (mkBridgeWorld (mkBridgeFile survived survived) t) = visible (mkBridgeWorld file t) ∨
          visible (mkBridgeWorld (mkBridgeFile survived survived) t) = durable (mkBridgeWorld file t)) as Hv
    by (destruct Hs as [-> | ->]; auto).
  assert (durable (mkBridgeWorld (mkBridgeFile survived survived) t) = visible (mkBridgeWorld (mkBridgeFile survived survived) t)) as Ed by done.
  split; cbn; rewrite ?Ed; try done.
  - by destruct Hv as [-> | ->].
  - by destruct Hv as [-> | ->].
  - intros x Hx. destruct (Hev x Hx) as (H1 & keys & Hk & H2). split; [done|]. exists keys. split; [|done].
    destruct Hv as [-> | ->]; [by etrans|done].
  - intros n Hn. by apply Hnone in Hn.
  - clear. induction tokens; [constructor|done].
Qed.

Lemma bridges_ok w ts : running setting w ts → ∃ tokens, bridge_ok w tokens.
Proof.
  intros Hrun. enough (∃ xs, bridge_ok w xs ∧ Forall2 (λ t x, bowns t.(st_rest) w x (λ _ _ _, True)) ts xs) as (xs & H & _) by eauto.
  revert Hrun. apply (running_owns None setting bridge_ok bridge_later polls_truthfully);
    [apply start_ok|apply spawn_ok|apply happens_ok|apply crash_ok|apply bridge_owned].
Qed.

Lemma bridges_poll_truthfully s h ts1 past c k ts2 r s' :
  running setting (s, h) (ts1 ++ mkStrand past (Invoke c k) :: ts2) → setting.(serves) s (existT c r) s' →
  polls_truthfully (s, h) (existT c r).
Proof.
  apply (running_owned_steps None setting bridge_ok bridge_later polls_truthfully);
    [apply start_ok|apply spawn_ok|apply happens_ok|apply crash_ok|apply bridge_owned].
Qed.

(** Two executions with one nonce are of one request. *)
Lemma executed_nonce w tokens x y :
  bridge_ok w tokens → x ∈ executions w.2 → y ∈ executions w.2 → x.(ExecutionRequest_Nonce) = y.(ExecutionRequest_Nonce) →
  (x.(ExecutionRequest_Sequence) < y.(ExecutionRequest_Sequence))%Z → False.
Proof.
  intros Hok Hx Hy En Hlt.
  destruct (ok_evidence _ _ Hok x Hx) as (H1 & keys & Hk & El & _), (ok_evidence _ _ Hok y Hy) as (H2 & keys' & Hk' & El' & Hu).
  assert (keys' !! length keys = Some (rkey (requestOfExecution x))) as Hi.
  { destruct Hk as [rest E], Hk' as [rest' E']. rewrite E in E'.
    apply (f_equal (.!! length keys)) in E'. rewrite <- !app_assoc in E'. cbn in E'. rewrite list_lookup_middle in E' by done.
    rewrite lookup_app_l in E' by lia. by symmetry. }
  eapply Forall_lookup_1 in Hu; [|exact Hi]. by apply Hu.
Qed.

End bridge.
