(* ===== verification/BridgeLicence.v ===== *)
(** The guarantees of a bridge: executions are licensed, happen at most once, and what a
    browser reads as an answer is the result of one. *)
From S2P Require Import Prelude Sql Process Concurrent Auth RelayStore RelaySafety.
From S2P Require Import RelayGuarantees BridgeState Bridge BridgeWorld BridgeSafety.

(** What a bridge has done before it executes a request, in the thread that executes it:
    the relay delivered the request, its evidence was committed, the operation was
    found among the published ones and, if it is a mutation, authorised. *)

Section licence.
Context {remote : RemoteEnv} {env : BridgeEnv} (config : BridgeConfig).
Abbreviation history := (history bridge_answer).
Implicit Types h : history.

Abbreviation given := (BridgeSafety.given config).

(** The evidence of the request is in a state that was committed. *)
Definition recorded h (request : RequestEnvelope) : Prop := ∃ expected state revision,
  existT (CommitState expected state) (Ok revision) ∈ h ∧ last state.(State_Evidence) = Some (preparedEvidence request).

Definition resolved h (request : RequestEnvelope) (operation : BridgeOperation) : Prop :=
  existT (ResolvePublished request.(RequestEnvelope_ProjectID) request.(RequestEnvelope_ThreadID)
    request.(RequestEnvelope_Action)) (Some operation) ∈ h.

Definition authorised h (request : RequestEnvelope) : Prop :=
  config.(BridgeConfig_HasAuthorization) = true ∧ existT (AuthorizeBridged (authorizationOf request)) (Ok tt) ∈ h.

Record licensed h (operation : BridgeOperation) (request : RequestEnvelope) : Prop := {
  licence_given : given h request;
  licence_recorded : recorded h request;
  licence_valid : validRequestEnvelope config request = true;
  licence_scope : request.(RequestEnvelope_AccountID) = config.(BridgeConfig_AccountID) ∧
    request.(RequestEnvelope_DeviceID) = config.(BridgeConfig_DeviceID) ∧
    request.(RequestEnvelope_ProjectID) ∈ config.(BridgeConfig_AllowedProjects);
  licence_resolved : resolved h request operation;
  licence_authorised : operation.(Operation_Mutation) = true → authorised h request;
}.

Definition licences h (c : bridge_call) : Prop :=
  match c with ExecuteOperation operation x => licensed h operation (requestOfExecution x) | _ => True end.

Lemma recorded_kept h h' request : h `prefix_of` h' → recorded h request → recorded h' request.
Proof. intros Hh (e & s & r & Hin & H). exists e, s, r. split; [by eapply event_kept|done]. Qed.

(** ** Executing *)

Definition ready h (request : RequestEnvelope) : Prop :=
  given h request ∧ recorded h request ∧ validRequestEnvelope config request = true ∧
  request.(RequestEnvelope_AccountID) = config.(BridgeConfig_AccountID) ∧
  request.(RequestEnvelope_DeviceID) = config.(BridgeConfig_DeviceID) ∧
  request.(RequestEnvelope_ProjectID) ∈ config.(BridgeConfig_AllowedProjects).

Lemma ready_kept h h' request : h `prefix_of` h' → ready h request → ready h' request.
Proof. intros Hh (H1 & H2 & H). split; [by eapply given_kept|]. split; [by eapply recorded_kept|done]. Qed.

Lemma executeOperation_licensed request operation h :
  ready h request → resolved h request operation → (operation.(Operation_Mutation) = true → authorised h request) →
  ensures licences (executeOperation config request operation) h (λ _ _, True).
Proof.
  intros (H1 & H2 & H3 & H4) Hr Ha. split.
  - cbn. rewrite requestOfExecution_of. by split.
  - intros [payload|e|]; [|done..]. cbn. by case_match.
Qed.

Lemma resolveAndExecute_licensed request h : ready h request → ensures licences (resolveAndExecute config request) h (λ _ _, True).
Proof.
  intros Hr. split; [done|]. intros [operation|]; [|done]. cbn. set (h1 := h ++ _).
  assert (ready h1 request) as Hr1 by (eapply ready_kept, Hr; by apply prefix_app_r).
  assert (resolved h1 request operation) as Hs by (unfold resolved, h1; set_solver).
  destruct (Operation_Mutation operation) eqn:Em; [|by apply executeOperation_licensed; rewrite ?Em].
  destruct (BridgeConfig_HasAuthorization config) eqn:Ea; cbn; [|done]. split; [done|].
  intros [[]|e|]; [|done..]. cbn. apply executeOperation_licensed.
  - eapply ready_kept, Hr1. by apply prefix_app_r.
  - eapply event_kept, Hs. by apply prefix_app_r.
  - intros _. split; [done|]. set_solver.
Qed.

Lemma validateAndExecute_licensed request client h :
  given h request → recorded h request → ensures licences (validateAndExecute config request client) h (λ _ _, True).
Proof.
  intros Hg Hr. unfold validateAndExecute. apply ensures_get_bind.
  destruct (validRequestEnvelope config request) eqn:Ev; [|done]. cbn [negb].
  destruct (_ || _) eqn:Ei; [done|]. apply orb_false_iff in Ei as [E1 E2]. apply negb_false_iff, String.eqb_eq in E1, E2.
  destruct (Client_nonces client !! _) as [previous|]; [destruct (negb _); [done|]|].
  all: apply ensures_update_bind; destruct (bool_decide _) eqn:Ep; [|done]; apply bool_decide_eq_true in Ep.
  all: apply ensures_state_calls, resolveAndExecute_licensed; by split_and!.
Qed.

(** ** Committing *)

Lemma commitOr_free restore expected : allows licences (commitOr restore expected).
Proof. unfold commitOr, commitLocked, Commit. walk_state; done. Qed.

Lemma commitOr_records restore expected client h :
  ensures licences (commitOr restore expected client) h
    (λ h' '(_, r), ∀ u, r = Ok u → ∃ revision, existT (CommitState expected client.(Client_state)) (Ok revision) ∈ h').
Proof.
  unfold commitOr, commitLocked, Commit. cbn. split; [done|]. intros [revision|e|]; cbn; [|done..].
  case_match; cbn; [done|]. intros u _. exists revision. set_solver.
Qed.

Lemma completeLocked_free index digest response : allows licences (completeLocked config index digest response).
Proof. unfold completeLocked. walk_state; try apply commitOr_free; done. Qed.
Lemma completePreparedConflict_free index evidence digest conflict :
  allows licences (completePreparedConflictLocked config index evidence digest conflict).
Proof. unfold completePreparedConflictLocked. walk_state; try apply commitOr_free; done. Qed.
Lemma persistPending_free digest response : allows licences (persistPendingLocked digest response).
Proof. unfold persistPendingLocked. walk_state; try apply commitOr_free; done. Qed.
Lemma handleAgain_free request index evidence : allows licences (handleAgain config request index evidence).
Proof.
  unfold handleAgain. cbv zeta.
  walk_state; first [apply completePreparedConflict_free|apply completeLocked_free|apply persistPending_free|done].
Qed.
Lemma dropAcknowledged_free result : allows licences (dropAcknowledged result).
Proof. unfold dropAcknowledged. walk_state; try apply commitOr_free; done. Qed.
Lemma poll_free : allows licences (poll config).
Proof. unfold poll. walk_state; done. Qed.

(** ** Handling *)

(** After the part that matters, a method that is free to go on. *)
Lemma free_bind {A B} (m : bridge A) (f : A → bridge B) client h :
  ensures licences (m client) h (λ _ _, True) → (∀ a, allows licences (f a)) → ensures licences ((m ≫= f) client) h (λ _ _, True).
Proof.
  intros Hm Hf. apply ensures_state_bind. eapply ensures_mono; [exact Hm|]. intros h' [client' [a|e|]] _ _; [apply Hf|done..].
Qed.

Lemma handleNew_licensed request client h : given h request → ensures licences (handleNew config request client) h (λ _ _, True).
Proof.
  intros Hg. unfold handleNew. apply ensures_get_bind. cbv zeta. destruct (_ || _); [done|]. destruct (_ <=? _)%Z; [done|].
  apply ensures_update_bind, ensures_state_bind. eapply ensures_mono; [apply commitOr_records|].
  intros h1 [client1 [u|e|]] Hh1 Hc; [|done..]. apply free_bind.
  - apply validateAndExecute_licensed; [by eapply given_kept|]. destruct (Hc u eq_refl) as [revision Hin].
    eexists _, _, revision. split; [exact Hin|]. cbn. by rewrite last_snoc.
  - intros response. walk_state. apply completeLocked_free.
Qed.

Lemma handleLocked_licensed request client h : given h request → ensures licences (handleLocked config request client) h (λ _ _, True).
Proof.
  intros Hg. unfold handleLocked. apply ensures_get_bind. destruct (Client_bySequence client !! _) as [index|]; [|by apply handleNew_licensed].
  destruct (State_Evidence _ !! index); [apply handleAgain_free|done].
Qed.

Lemma accept_licensed result client h :
  (∃ poll, existT (SendPoll poll) (Ok result) ∈ h) → ensures licences (accept config result client) h (λ _ _, True).
Proof.
  intros [poll Hin]. unfold accept. apply ensures_get_bind. cbv zeta. destruct ((PollResult_AccountID result != _) || _) eqn:Ei; [done|].
  destruct ((_ <? PollResult_AcknowledgedThrough result)%Z || _) eqn:El; [done|].
  apply orb_false_iff in Ei as [E1 E2]. apply negb_false_iff, String.eqb_eq in E1, E2.
  apply orb_false_iff in El as [_ El]. apply Nat.ltb_ge in El.
  apply ensures_state_bind. eapply ensures_mono; [apply (dropAcknowledged_free result client)|].
  intros h1 [client1 [u|e|]] Hh1 _; [|done..]. apply ensures_get_bind.
  destruct (PollResult_Requests result) as [|request rest] eqn:Er; [done|].
  assert (given h1 request) as Hg.
  { exists poll, result. split_and!; [by eapply event_kept|done|done|]. destruct rest; [done|cbn in El; lia]. }
  assert (ensures licences ((handleLocked config request ≫= λ _, done tt) client1) h1 (λ _ _, True)) as Hl
    by (apply free_bind; [by apply handleLocked_licensed|intros; apply allows_done]).
  destruct (_ && _); [exact Hl|]. destruct (_ || _); [done|exact Hl].
Qed.

(** ** Running *)

Lemma poll_sends client h :
  ensures licences (poll config client) h (λ h' '(_, r), ∀ result, r = Ok result → ∃ p, existT (SendPoll p) (Ok result) ∈ h').
Proof.
  unfold poll. apply ensures_get_bind, ensures_state_calls. destruct (marshalPoll _) as [body|e|]; [|done..].
  cbn [lift mbind go_bind proc_bind]. destruct (fail_if _ _); [|done..]. cbn. split; [done|].
  intros [result|e|]; cbn; [|done..]. intros result' [= <-]. exists (pollOf config client). set_solver.
Qed.

Lemma Run_licensed rounds backoff client h : ensures licences (Run config rounds backoff client) h (λ _ _, True).
Proof.
  revert backoff client h. induction rounds as [|rounds IH]; intros backoff client h; [done|]. cbn [Run].
  apply ensures_state_bind, ensures_attempt. eapply ensures_mono; [apply poll_sends|].
  intros h1 [client1 [result|e|]] _ Hp; [| |done].
  - apply ensures_state_bind. eapply ensures_mono; [apply accept_licensed; by apply Hp|].
    intros h2 [client2 [u|e|]] _ _; [apply IH|done..].
  - apply ensures_state_bind, ensures_state_calls. split; [done|]. intros [cause|]; [done|]. cbn [errors_Is].
    destruct (errors_Is _ _); [done|]. apply ensures_state_bind, ensures_state_calls. split; [done|].
    intros [u|e'|]; cbn [proc_bind lift]; [apply IH|done..].
Qed.

End licence.

(** What is true of the past of every thread. *)
Lemma past_licensed {remote : RemoteEnv} {env : BridgeEnv} {T : Type} relay_starts relay_polls relay_happens config
    (w : world bridge_answer (BridgeWorld T)) ts t h1 operation x r h2 :
  running (bridge_setting relay_starts relay_polls relay_happens config) w ts → t ∈ ts →
  t.(st_past) = h1 ++ existT (ExecuteOperation operation x) r :: h2 →
  licensed config h1 operation (requestOfExecution x).
Proof.
  intros Hrun Ht Hpast.
  assert (Forall (λ t, ∀ h1 operation x r h2, t.(st_past) = h1 ++ existT (ExecuteOperation operation x) r :: h2 →
    licensed config h1 operation (requestOfExecution x)) ts) as Hf; [|rewrite Forall_forall in Hf; by eapply Hf].
  apply (running_pasts (bridge_setting relay_starts relay_polls relay_happens config) (λ past, ∀ h1 operation x r h2, past = h1 ++ existT (ExecuteOperation operation x) r :: h2 →
    licensed config h1 operation (requestOfExecution x)) (licences config) w); [..|exact Hrun]; clear Hrun Ht Hpast.
  - intros h o y r' h'. by destruct h.
  - intros h c r0 IH Hc h' o y r' h'' E. destruct h'' as [|e h''] using rev_ind.
    + apply app_inj_tail in E as [-> [= -> _]]. exact Hc.
    + rewrite app_comm_cons, app_assoc in E. apply app_inj_tail in E as [E _]. by eapply IH.
  - intros p [raw rounds Hraw]. unfold bridgeProcess, New. rewrite Hraw. split; [done|]. intros [state|e|]; [|done..].
    cbn. destruct (indexState config state) as [client|e|]; [|done..]. cbn. apply ensures_bind.
    eapply ensures_mono; [apply Run_licensed|]. by intros h [client' r'] _ _.
Qed.

(** C11: A bridge executes only what it may. In every reachable world, in the past of
    every thread, an execution comes after the poll that delivered exactly this request
    to this device, alone; after a commit of its evidence, as prepared; after the
    request was checked and found to be for this account and device and for an allowed
    project; after the publications resolved exactly its project, thread and action to
    the operation that is executed; and, if the operation is a mutation, after the
    authority authorised exactly this request. *)
Theorem executions_are_licensed {remote : RemoteEnv} {env : BridgeEnv} {T : Type} relay_starts relay_polls relay_happens config
    (w : world bridge_answer (BridgeWorld T)) ts t h1 operation x r h2 :
  running (bridge_setting relay_starts relay_polls relay_happens config) w ts → t ∈ ts →
  t.(st_past) = h1 ++ existT (ExecuteOperation operation x) r :: h2 →
  licensed config h1 operation (requestOfExecution x).
Proof. apply past_licensed. Qed.

(** * The laptop's bridge *)

Definition executed_at (h : history bridge_answer) (i : nat) : option (BridgeOperation * ExecutionRequest) :=
  match h !! i with Some (existT (ExecuteOperation operation x) _) => Some (operation, x) | _ => None end.

Lemma executed_at_inv h i operation x :
  executed_at h i = Some (operation, x) → ∃ r, h = take i h ++ existT (ExecuteOperation operation x) r :: drop (Datatypes.S i) h.
Proof.
  unfold executed_at. destruct (h !! i) as [[[] r]|] eqn:E; intros H; try done. injection H as -> ->. exists r.
  symmetry. by apply take_drop_middle.
Qed.

Definition sampleThread : strand bridge_answer := hd (mkStrand [] (Done tt)) sampleRun.2.
Lemma sampleThread_in : sampleThread ∈ sampleRun.2.
Proof. unfold sampleThread, sampleRun, drive_new. destruct (drive _ _ _ _) as [w t]. by left. Qed.

Definition submit : BridgeOperation := mkBridgeOperation true ActionSubmit.

Lemma sampleThread_executes : executed_at sampleThread.(st_past) 5 = Some (submit, executionOf (sampleRequest 1 "n1" "{}")).
Proof. vm_compute. reflexivity. Qed.

Lemma executions_are_licensed_witness :
  licensed (remote := sample_remote) checkedBridge (take 5 sampleThread.(st_past)) submit (sampleRequest 1 "n1" "{}").
Proof.
  destruct (executed_at_inv _ _ _ _ sampleThread_executes) as [r E].
  exact (executions_are_licensed (remote := sample_remote) (env := sample_bridge) scripted_starts scripted_polls scripted_happens
    checkedBridge sampleRun.1 sampleRun.2 sampleThread _ _ _ r _ sampleRun_running sampleThread_in E).
Defined.

(** The guarantees of a bridge for any relay: no request is executed twice, and no
    success or failure of an operation is reported that an execution did not return. *)

Section once.
Context {remote : RemoteEnv} {env : BridgeEnv} {T : Type}.
Context (relay_starts : T → Prop) (relay_polls : T → PollEnvelope → result PollResult → T → Prop) (relay_happens : T → T → Prop).
Context (config : BridgeConfig).
Abbreviation setting := (bridge_setting relay_starts relay_polls relay_happens config).

Definition nothing_else : T → history bridge_answer → Prop := λ _ _, True.

(** C6: A request is executed at most once. Whatever the relay sends, however often the
    bridges crash and start again, and however many of them share the state file, no
    two executions have the same sequence and no two have the same nonce; and before a
    request is executed its evidence, with its sequence, its nonce and its digest, is
    in the durable state, where it stays. Compact JSON is assumed to be a fixed point
    of compaction. *)
Theorem executed_at_most_once (w : world bridge_answer (BridgeWorld T)) ts :
  (∀ s, json_compact (json_compact s) = json_compact s) → running setting w ts →
  NoDup (ExecutionRequest_Sequence <$> executions w.2) ∧ NoDup (ExecutionRequest_Nonce <$> executions w.2) ∧
  ∀ x, x ∈ executions w.2 → rkey (requestOfExecution x) ∈ ekeys (durable w.1).
Proof.
  intros Hidem Hrun.
  destruct (bridges_ok relay_starts relay_polls relay_happens config Hidem nothing_else ltac:(done) ltac:(done) ltac:(done) ltac:(done)
    w ts Hrun) as [tokens Hok].
  split_and!; [apply (ok_once _ _ _ _ Hok)| |].
  - apply NoDup_fmap_2_strong; [|by eapply NoDup_fmap_1, (ok_once _ _ _ _ Hok)]. intros x y Hx Hy En.
    destruct (Z.lt_trichotomy (ExecutionRequest_Sequence x) (ExecutionRequest_Sequence y)) as [Hlt|[E|Hlt]].
    + destruct (executed_nonce config nothing_else w tokens x y Hok Hx Hy En Hlt).
    + apply list_elem_of_lookup in Hx as [i Hi], Hy as [j Hj]. assert (i = j) as ->; [|congruence].
      eapply NoDup_lookup; [apply (ok_once _ _ _ _ Hok)|..]; rewrite list_lookup_fmap; [by rewrite Hi|by rewrite Hj, E].
    + destruct (executed_nonce config nothing_else w tokens y x Hok Hy Hx (eq_sym En) Hlt).
  - intros x Hx. destruct (ok_evidence _ _ _ _ Hok x Hx) as (_ & keys & [rest ->] & _). set_solver.
Qed.

(** C12: What is reported is accounted for. When a bridge sends a poll, every response in
    it that carries no error is the result of an execution of a request with its
    sequence and nonce, whose payload it carries up to the form of the JSON; every
    response that says the operation failed, or returned something unusable, follows
    an execution of such a request that did. Every other response is to a delivered
    request and has the reason of its code: the request is invalid, not for this
    device, not published, not authorised, or has the nonce or the sequence of another
    delivered request; or it is an unknown outcome, which needs none. A response that
    does not fit the transport limit is replaced by one that says so, whose code is also
    that of a failure. Apart from that, a request whose execution was interrupted is
    never reported as executed or as failed, and as refused only with such a reason,
    after crashes, restarts and repeated requests as well. Compact JSON is assumed to be
    a fixed point of compaction. *)
Theorem reports_are_accounted s h ts1 past poll k ts2 r s' response :
  (∀ s, json_compact (json_compact s) = json_compact s) →
  running setting (s, h) (ts1 ++ mkStrand past (Invoke (SendPoll poll) k) :: ts2) →
  bridge_serves relay_polls config s (existT (SendPoll poll) r) s' →
  response ∈ poll.(PollEnvelope_Responses) → truthful config h response.
Proof.
  intros Hidem Hrun Hs Hin.
  pose proof (bridges_poll_truthfully relay_starts relay_polls relay_happens config Hidem nothing_else ltac:(done) ltac:(done) ltac:(done)
    ltac:(done) s h ts1 past (SendPoll poll) k ts2 r s' Hrun Hs) as H. cbn in H. rewrite Forall_forall in H. by apply (H _ Hin).
Qed.
End once.

(** * The laptop's bridge *)

Lemma executed_at_most_once_witness :
  NoDup (ExecutionRequest_Sequence <$> executions sampleRun.1.2) ∧ NoDup (ExecutionRequest_Nonce <$> executions sampleRun.1.2) ∧
  ∀ x, x ∈ executions sampleRun.1.2 → rkey (remote := sample_remote) (requestOfExecution x) ∈ ekeys (durable sampleRun.1.1).
Proof.
  apply (executed_at_most_once (remote := sample_remote) (env := sample_bridge) scripted_starts scripted_polls scripted_happens checkedBridge _ sampleRun.2);
    [done|exact sampleRun_running].
Defined.

(** The run before its second poll, which reports the first request. *)
Definition reportingRun := drive_new serve_script 7
  (bridgeProcess (remote := sample_remote) (env := sample_bridge) sampleBridge 10)
  ((mkBridgeWorld BridgeFile_empty sampleScript, []), []).
Definition firstReport : ResponseEnvelope := mkResponseEnvelope 1 "n1" "alice" "laptop" "done: n1" None.

Lemma reportingRun_running : running scripted_setting reportingRun.1 reportingRun.2.
Proof.
  apply drive_new_running; [apply serve_script_serves|by apply running_start|]. constructor. apply sampleBridge_checked.
Qed.

(** It is about to report. *)
Lemma reportingRun_thread : ∃ past k, reportingRun.2 = [mkStrand past (Invoke (SendPoll (mkPollEnvelope "alice" "laptop" 1 [firstReport])) k)].
Proof. apply next_call_inv. vm_compute. reflexivity. Qed.

(** A bridge that crashes before its operation returns; the next one is delivered the
    request again. *)
Definition interruptedScript : list (result PollResult) :=
  [delivering 0 [sampleRequest 1 "n1" "{}"]; delivering 0 [sampleRequest 1 "n1" "{}"]].
Definition interruptedRun := drive_new serve_script 5
  (bridgeProcess (remote := sample_remote) (env := sample_bridge) sampleBridge 10)
  ((mkBridgeWorld BridgeFile_empty interruptedScript, []), []).
Definition crashedWorld : world bridge_answer (BridgeWorld (list (result PollResult))) :=
  (mkBridgeWorld (mkBridgeFile interruptedRun.1.1.(bw_file).(bf_durable) interruptedRun.1.1.(bw_file).(bf_durable))
    interruptedRun.1.1.(bw_relay), interruptedRun.1.2).
Definition recoveredRun := drive_new serve_script 3
  (bridgeProcess (remote := sample_remote) (env := sample_bridge) sampleBridge 10) (crashedWorld, killed <$> interruptedRun.2).
Definition unknownReport : ResponseEnvelope := mkResponseEnvelope 1 "n1" "alice" "laptop" ""
  (Some (mkResponseError ErrorUnknownOutcome "prepared request outcome is unknown")).

Lemma recoveredRun_running : running scripted_setting recoveredRun.1 recoveredRun.2.
Proof.
  apply drive_new_running; [apply serve_script_serves| |constructor; apply sampleBridge_checked].
  assert (running scripted_setting interruptedRun.1 interruptedRun.2) as H.
  { apply drive_new_running; [apply serve_script_serves|by apply running_start|]. constructor. apply sampleBridge_checked. }
  rewrite (surjective_pairing interruptedRun.1) in H. eapply running_crash; [exact H|].
  generalize interruptedRun.1.1. intros [file t]. constructor. by right.
Qed.

(** The first bridge was about to execute, *)
Example interruptedRun_executes :
  next_call interruptedRun.2 = Some (ExecuteOperation submit (executionOf (sampleRequest 1 "n1" "{}"))).
Proof. vm_compute. reflexivity. Qed.

(** and the second is about to report that it does not know. *)
Lemma recoveredRun_thread : ∃ ts1 past k,
  recoveredRun.2 = ts1 ++ [mkStrand past (Invoke (SendPoll (mkPollEnvelope "alice" "laptop" 1 [unknownReport])) k)].
Proof.
  assert (next_call (drop 1 recoveredRun.2) = Some (SendPoll (mkPollEnvelope "alice" "laptop" 1 [unknownReport]))) as H
    by (vm_compute; reflexivity).
  apply next_call_inv in H as (past & k & E). exists (take 1 recoveredRun.2), past, k. by rewrite <- E, take_drop.
Qed.

Lemma reports_are_accounted_witness :
  truthful (remote := sample_remote) checkedBridge reportingRun.1.2 firstReport ∧
  truthful (remote := sample_remote) checkedBridge recoveredRun.1.2 unknownReport.
Proof.
  split.
  - destruct reportingRun_thread as (past & k & E). pose proof reportingRun_running as Hrun. rewrite E in Hrun.
    rewrite (surjective_pairing reportingRun.1) in Hrun.
    refine (reports_are_accounted (remote := sample_remote) (env := sample_bridge) scripted_starts scripted_polls scripted_happens
      checkedBridge reportingRun.1.1 reportingRun.1.2 [] past _ k [] (Err (ErrNew "no answer")) reportingRun.1.1 firstReport _ Hrun _ _).
    + done.
    + split; [reflexivity|left]. split; reflexivity.
    + left.
  - destruct recoveredRun_thread as (ts1 & past & k & E). pose proof recoveredRun_running as Hrun. rewrite E in Hrun.
    rewrite (surjective_pairing recoveredRun.1) in Hrun.
    refine (reports_are_accounted (remote := sample_remote) (env := sample_bridge) scripted_starts scripted_polls scripted_happens
      checkedBridge recoveredRun.1.1 recoveredRun.1.2 ts1 past _ k [] (Err (ErrNew "no answer")) recoveredRun.1.1 unknownReport _ Hrun _ _).
    + done.
    + split; [reflexivity|left]. split; reflexivity.
    + left.
Defined.

(** A bridge and the relay of internal/agorelay together: what a browser reads as the
    answer of its request is what the execution of exactly that request returned. *)

Section together.
Context {remote : RemoteEnv} {env : BridgeEnv} (config : BridgeConfig).
Context (compact_idem : ∀ s, json_compact (json_compact s) = json_compact s).
Abbreviation history := (history bridge_answer).
Implicit Types (db : RelayDB) (h : history).

Definition bridgeDevice : Device := (config.(BridgeConfig_AccountID), config.(BridgeConfig_DeviceID)).

(** The relay answers a poll with its store's [Poll] for a credential of the device (a long
    poll is the last of its polls: those before it had nothing to deliver and, with no
    response in them, changed nothing). *)
Definition honest_starts db : Prop := db = RelayDB_empty.
Definition honest_polls db (poll : PollEnvelope) (answer : result PollResult) db' : Prop :=
  ∃ principal, deviceOf principal = bridgeDevice ∧ (0 ≤ poll.(PollEnvelope_Cursor) < two64)%Z ∧
    Poll principal poll db = (db', answer).
(** Anything else may happen to the relay, but a poll of the device by somebody else. *)
Definition honest_happens db db' : Prop := ∃ op, typed_op op ∧
  (∀ principal poll, op = OpPoll principal poll → deviceOf principal ≠ bridgeDevice) ∧ db' = perform_relay op db.

Definition honest_setting : Setting bridge_answer (BridgeWorld RelayDB) :=
  bridge_setting honest_starts honest_polls honest_happens config.

(** * What is kept of the relay *)

(** A stored response is a truthful one, to its request. *)
Definition answered_truthfully h (n : Z) (row : RelayRequestRow) : Prop := ∀ encoded, row.(rr_response_json) = Some encoded →
  ∃ response, marshalResponse response = Ok encoded ∧ response.(ResponseEnvelope_Sequence) = n ∧
    response.(ResponseEnvelope_Nonce) = row.(rr_nonce) ∧ truthful config h response.

Record relay_kept db h : Prop := {
  kept_reachable : relay_reachable db;
  kept_answers n row : db.(requests) !! (bridgeDevice, n) = Some row → answered_truthfully h n row;
  kept_delivered poll result request : existT (SendPoll poll) (Ok result) ∈ h → request ∈ result.(PollResult_Requests) →
    ∃ row, db.(requests) !! (bridgeDevice, request.(RequestEnvelope_Sequence)) = Some row ∧
      requestOf bridgeDevice request.(RequestEnvelope_Sequence) row = request;
}.

Lemma answered_mono h h' n row : h `prefix_of` h' → answered_truthfully h n row → answered_truthfully h' n row.
Proof. intros Hh H encoded He. destruct (H encoded He) as (r & ? & ? & ? & ?). exists r. split_and!; try done. by eapply truthful_mono. Qed.

Lemma requestOf_later device n row row' : row_later row row' → requestOf device n row' = requestOf device n row.
Proof. intros [E _]. by rewrite <- E. Qed.

(** Delivered requests stay as they are. *)
Lemma delivered_later db db' request :
  relay_reachable db → relay_step db db' →
  (∃ row, db.(requests) !! (bridgeDevice, request.(RequestEnvelope_Sequence)) = Some row ∧
     requestOf bridgeDevice request.(RequestEnvelope_Sequence) row = request) →
  ∃ row, db'.(requests) !! (bridgeDevice, request.(RequestEnvelope_Sequence)) = Some row ∧
     requestOf bridgeDevice request.(RequestEnvelope_Sequence) row = request.
Proof.
  intros Hr (op & Ht & ->) (row & Hrow & E). destruct (perform_row db op _ row Hr Ht Hrow) as (row' & Hrow' & Hl).
  exists row'. split; [done|]. by rewrite (requestOf_later _ _ _ _ Hl).
Qed.

(** ** What else happens *)

Lemma other_rows db op n row encoded :
  (∀ principal poll, op = OpPoll principal poll → deviceOf principal ≠ bridgeDevice) →
  (perform_relay op db).(requests) !! (bridgeDevice, n) = Some row → row.(rr_response_json) = Some encoded →
  db.(requests) !! (bridgeDevice, n) = Some row.
Proof.
  intros Hop. destruct op as [credential|principal request|principal poll]; cbn.
  - destruct (RotateCredential credential db) as [db' r] eqn:E. by apply rotate_inv in E as [[-> _]|(_ & _ & _ & _ & _ & ->)].
  - destruct (Enqueue principal request db) as [db' r] eqn:E.
    apply enqueue_inv in E as [[-> _]|(_ & _ & _ & _ & _ & _ & _ & ->)]; [done|]. cbn [fst].
    rewrite (proj1 (ensureDevice_same _ _)). cbn. intros [[_ <-]|[_ H]]%lookup_insert_Some He; [done|exact H].
  - specialize (Hop principal poll eq_refl). destruct (Poll principal poll db) as [db' r] eqn:E. cbn.
    apply poll_inv in E as [[-> _]|(cursor & cursor' & _ & Hm & _)]; [done|].
    rewrite <- (proj1 (ensureDevice_same db (deviceOf principal))).
    destruct (PollEnvelope_Responses poll); [by destruct Hm as (_ & -> & _)|].
    apply accept_inv in Hm as (? & ? & _ & _ & _ & _ & _ & _ & [(_ & -> & _)|(_ & _ & _ & ->)]); [done|].
    cbn. rewrite lookup_insert_ne; [done|congruence].
Qed.

Lemma kept_happens db db' h : honest_happens db db' → relay_kept db h → relay_kept db' h.
Proof.
  intros (op & Ht & Hop & ->) [Hr Ha Hd]. split; [by apply relay_perform| |].
  - intros n row Hrow encoded He. by eapply Ha; [eapply other_rows|].
  - intros poll result request Hin Hreq. eapply delivered_later; [exact Hr|by exists op|by eapply Hd].
Qed.

Lemma kept_other db h (e : event bridge_answer) : lost e → relay_kept db h → relay_kept db (h ++ [e]).
Proof.
  intros He [Hr Ha Hd]. split; [done| |].
  - intros n row Hrow. eapply answered_mono, Ha, Hrow. by apply prefix_app_r.
  - intros poll result request [Hin | <-%list_elem_of_singleton]%elem_of_app Hreq; [by eapply Hd|done].
Qed.

(** ** Polls *)

Lemma poll_delivers principal poll db db' result request :
  Poll principal poll db = (db', Ok result) → deviceOf principal = bridgeDevice → request ∈ result.(PollResult_Requests) →
  ∃ row, db'.(requests) !! (bridgeDevice, request.(RequestEnvelope_Sequence)) = Some row ∧
    requestOf bridgeDevice request.(RequestEnvelope_Sequence) row = request.
Proof.
  intros H Hdev Hin. unfold Poll in H. apply transact_cases in H as [(a & H & [= <-])|[_ ?]]; [|done].
  apply bind_Ok in H as ([] & _ & H). apply bind_Ok in H as ([] & _ & H). cbv zeta in H. apply bind_Ok in H as (cursor & _ & H).
  apply bind_Ok in H as ([db1 cursor1] & _ & H). apply bind_Ok in H as ([] & _ & H). rewrite Hdev in H.
  destruct (db1.(requests) !! _) as [row|] eqn:Er.
  - apply bind_Ok in H as ([] & _ & H). injection H as <- <-. cbn in Hin. apply list_elem_of_singleton in Hin as ->. eauto.
  - injection H as <- <-. by apply not_elem_of_nil in Hin.
Qed.

Lemma poll_answers principal poll db db' r h n row :
  Poll principal (writtenPoll poll) db = (db', r) → deviceOf principal = bridgeDevice →
  Forall (truthful config h) poll.(PollEnvelope_Responses) →
  (∀ n row, db.(requests) !! (bridgeDevice, n) = Some row → answered_truthfully h n row) →
  db'.(requests) !! (bridgeDevice, n) = Some row → answered_truthfully h n row.
Proof.
  intros H Hdev Ht Ha Hrow. apply poll_inv in H as [[-> _]|(cursor & cursor' & _ & Hm & _)]; [by apply Ha|]. cbv zeta in Hm.
  rewrite Hdev in Hm. rewrite <- (proj1 (ensureDevice_same db bridgeDevice)) in Ha.
  cbn in Hm. destruct (PollEnvelope_Responses poll) as [|response rest]; cbn in Hm; [destruct Hm as (_ & -> & _); by apply Ha|].
  apply Forall_cons in Ht as [Ht _].
  apply accept_inv in Hm as (row0 & encoded & Hrow0 & Hn & He & _ & _ & _ & [(_ & -> & _)|(_ & _ & _ & ->)]); [by apply Ha|].
  cbn in Hrow. apply lookup_insert_Some in Hrow as [[[= <-] <-]|[_ Hrow]]; [|by apply Ha].
  intros encoded' [= <-]. exists (writtenResponse response). split_and!; [done|done|done|by apply truthful_written].
Qed.

Lemma kept_poll db db' h poll answer r :
  relay_kept db h → Forall (truthful config h) poll.(PollEnvelope_Responses) →
  honest_polls db (writtenPoll poll) answer db' → r = answer ∨ is_ok r = false →
  relay_kept db' (h ++ [existT (SendPoll poll) r]).
Proof.
  intros [Hr Ha Hd] Ht (principal & Hdev & Htyped & H) Hans.
  assert (relay_step db db') as Hstep by (exists (OpPoll principal (writtenPoll poll)); split; [done|]; cbn; by rewrite H).
  assert (h `prefix_of` h ++ [existT (SendPoll poll) r]) as Hh by by apply prefix_app_r.
  split.
  - destruct Hstep as (op & Hto & ->). by apply relay_perform.
  - intros n row Hrow. eapply answered_mono; [exact Hh|]. by eapply poll_answers.
  - intros p result request [Hin | E%list_elem_of_singleton]%elem_of_app Hreq; [by eapply delivered_later, Hd|].
    destruct Hans as [-> |Hf].
    + destruct answer as [result'|e|].
      all: apply (f_equal (λ e : event bridge_answer, match e with existT (SendPoll _) r => Some r | _ => None end)) in E; try done.
      injection E as ->. by eapply poll_delivers.
    + exfalso. apply (f_equal (λ e : event bridge_answer, match e with existT (SendPoll _) r => is_ok r | _ => true end)) in E.
      cbn in E. congruence.
Qed.

(** C7: End to end. With the relay of this repository between them, and whatever else
    happens to it and to the bridges, the response that the relay stores for the
    request of a browser is to that request, and if it carries no error it is what
    the execution of exactly the enqueued content, with its sequence, nonce,
    project, thread, action, token and payload, returned on the device. *)
Theorem answers_are_executions (w : world bridge_answer (BridgeWorld RelayDB)) ts n row encoded :
  running honest_setting w ts → w.1.(bw_relay).(requests) !! (bridgeDevice, n) = Some row →
  row.(rr_response_json) = Some encoded →
  ∃ response, marshalResponse response = Ok encoded ∧ response.(ResponseEnvelope_Sequence) = n ∧
    response.(ResponseEnvelope_Nonce) = row.(rr_nonce) ∧
    (response.(ResponseEnvelope_Error) = None → ∃ operation x payload,
       existT (ExecuteOperation operation x) (Ok payload) ∈ w.2 ∧ requestOfExecution x = requestOf bridgeDevice n row ∧
       json_compact response.(ResponseEnvelope_Payload) = json_compact payload).
Proof.
  intros Hrun Hrow He.
  destruct (bridges_ok honest_starts honest_polls honest_happens config compact_idem relay_kept) with (w := w) (ts := ts)
    as [tokens Hok]; [..|done|].
  { intros db ->. split; [constructor|by intros n' row'; cbn; rewrite lookup_empty|by intros p r q ?%not_elem_of_nil]. }
  { intros db db' h. by apply kept_happens. }
  { intros db db' h poll answer r. by apply kept_poll. }
  { intros db h e. by apply kept_other. }
  destruct (ok_relay _ _ _ _ Hok) as [Hr Ha Hd]. destruct (Ha n row Hrow encoded He) as (response & Hm & Hs & Hn & Ht).
  exists response. split_and!; [done..|]. intros Herr. destruct (truthful_real _ _ _ Ht Herr) as (operation & x & payload & Hin & Es & En & Ep).
  exists operation, x, payload. split_and!; [done| |done].
  pose proof (running_log _ _ _ Hrun) as Hlog. rewrite Hlog in Hin. unfold pasts in Hin.
  apply list_elem_of_In, in_concat in Hin as (past & Hpast & Hin).
  apply list_elem_of_In, list_elem_of_fmap in Hpast as (t & -> & Ht'). apply list_elem_of_In, list_elem_of_split in Hin as (h1 & h2 & E).
  destruct (past_licensed honest_starts honest_polls honest_happens config w ts t h1 operation x _ h2 Hrun Ht' E)
    as [(poll & result & Hsent & _ & _ & Hreq) _ _ _ _ _].
  assert (existT (SendPoll poll) (Ok result) ∈ w.2) as Hsent'.
  { rewrite Hlog. unfold pasts. apply list_elem_of_In, in_concat. exists t.(st_past). split; apply list_elem_of_In; [by apply list_elem_of_fmap_2|].
    rewrite E. apply elem_of_app. by left. }
  destruct (Hd poll result (requestOfExecution x) Hsent') as (row' & Hrow' & <-); [rewrite Hreq; by left|]. cbn in *.
  rewrite Es, Hs in *. congruence.
Qed.

End together.

(** * The laptop's relay and bridge *)

Definition answer_laptop (db : RelayDB) (poll : PollEnvelope) : RelayDB * result PollResult :=
  if (0 <=? poll.(PollEnvelope_Cursor))%Z && (poll.(PollEnvelope_Cursor) <? two64)%Z
  then Poll (remote := sample_remote) laptopDaemon poll db else (db, Err (ErrNew "bad request")).
Abbreviation serve_laptop := (serve_bridge (remote := sample_remote) checkedBridge None answer_laptop (λ _, true)).
Abbreviation laptop_setting := (honest_setting (remote := sample_remote) (env := sample_bridge) checkedBridge).

(** The request is enqueued, then a bridge takes it, executes it and reports. *)
Definition laptopRun := drive_new serve_laptop 7 (bridgeProcess (remote := sample_remote) (env := sample_bridge) sampleBridge 10)
  ((mkBridgeWorld BridgeFile_empty queuedDB, []), []).

Lemma laptop_happens w ts db op :
  running laptop_setting (mkBridgeWorld BridgeFile_empty db, w) ts → typed_op op →
  match op with OpPoll _ _ => False | _ => True end →
  running laptop_setting (mkBridgeWorld BridgeFile_empty (perform_relay (remote := sample_remote) op db), w) ts.
Proof.
  intros Hrun Ht Hop. eapply running_happens; [exact Hrun|]. constructor. exists op. split_and!; [done| |done]. by intros p q ->.
Qed.

Lemma serve_laptop_serves c s :
  bridge_serves (remote := sample_remote) (honest_polls (remote := sample_remote) checkedBridge) checkedBridge s
    (existT c (serve_laptop c s).1) (serve_laptop c s).2.
Proof.
  apply serve_bridge_serves. intros db poll _. unfold answer_laptop. destruct (_ && _) eqn:E; [right|by left].
  apply andb_true_iff in E as [E1%Z.leb_le E2%Z.ltb_lt]. exists laptopDaemon. split_and!; [done..|]. by destruct (Poll _ _ _).
Qed.

Lemma laptopRun_running : running laptop_setting laptopRun.1 laptopRun.2.
Proof.
  apply drive_new_running; [apply serve_laptop_serves| |constructor; apply sampleBridge_checked].
  assert (running laptop_setting (mkBridgeWorld BridgeFile_empty RelayDB_empty, []) []) as H by by apply running_start.
  apply (laptop_happens _ _ _ (OpRotateCredential daemonCredential)) in H; [|cbn; unfold two64; lia|done].
  apply (laptop_happens _ _ _ (OpRotateCredential browserCredential)) in H; [|cbn; unfold two64; lia|done].
  by apply (laptop_happens _ _ _ (OpEnqueue laptopBrowser firstRequest)) in H.
Qed.

Definition laptopRow : RelayRequestRow := mkRelayRequestRow "n1" "p" "T1" ActionProjection "" "{}" "n1|{}" (Some "n1|done: n1").

Lemma laptopRun_row : laptopRun.1.1.(bw_relay).(requests) !! (bridgeDevice checkedBridge, 1%Z) = Some laptopRow.
Proof. vm_compute. reflexivity. Qed.

Lemma answers_are_executions_witness :
  ∃ response, marshalResponse (RemoteEnv := sample_remote) response = Ok "n1|done: n1" ∧
    response.(ResponseEnvelope_Sequence) = 1%Z ∧ response.(ResponseEnvelope_Nonce) = "n1" ∧
    (response.(ResponseEnvelope_Error) = None → ∃ operation x payload,
       existT (ExecuteOperation operation x) (Ok payload) ∈ laptopRun.1.2 ∧
       requestOfExecution x = requestOf (bridgeDevice checkedBridge) 1 laptopRow ∧
       json_compact (RemoteEnv := sample_remote) response.(ResponseEnvelope_Payload) = json_compact (RemoteEnv := sample_remote) payload).
Proof.
  exact (answers_are_executions (remote := sample_remote) (env := sample_bridge) checkedBridge (λ s, eq_refl) laptopRun.1 laptopRun.2
    1 laptopRow "n1|done: n1" laptopRun_running laptopRun_row eq_refl).
Defined.
