(* ===== verification/BridgeRestart.v ===== *)
(** A bridge can always be started again: whatever state was left in the file, [New]
    accepts it. *)
From S2P Require Import Prelude Process Concurrent Auth RelayStore BridgeState Bridge.
From S2P Require Import BridgeWorld.

(** What the bridge relies on of encoding/json: what is written inside other JSON is
    compact, stays valid, and is what the encoding of a response and of a poll are made
    of; a poll is at least as long as a payload in it. *)
Class RemoteLaws {remote : RemoteEnv} : Prop := {
  compact_empty : json_compact "" = "";
  compact_valid s : remote_json_Valid s = true → remote_json_Valid (json_compact s) = true;
  marshal_written response : marshalResponse (writtenResponse response) = marshalResponse response;
  marshal_poll account device cursor response response' :
    marshalResponse response = marshalResponse response' →
    marshalPoll (mkPollEnvelope account device cursor [response]) = marshalPoll (mkPollEnvelope account device cursor [response']);
  marshal_length account device cursor response body :
    marshalPoll (mkPollEnvelope account device cursor [response]) = Ok body →
    (len (json_compact response.(ResponseEnvelope_Payload)) ≤ len body)%Z;
}.

Section restart.
Context {remote : RemoteEnv} {env : BridgeEnv} {laws : RemoteLaws} {T : Type}.
Context (relay_starts : T → Prop) (relay_polls : T → PollEnvelope → result PollResult → T → Prop) (relay_happens : T → T → Prop).
Context (config : BridgeConfig).
Implicit Types (state : State) (response : ResponseEnvelope).

(** The body limit leaves room for the failures a bridge makes up. *)
Context (failures_fit : ∀ n nonce code message, (0 ≤ n < two64)%Z → validIdentity nonce maxNonceBytes = true →
  (String.length code + String.length message ≤ 128)%nat → responseFitsPoll config (failureOf config n nonce code message) = true).

Abbreviation id := (identity config).

(** * States that can be opened *)

Record tidy state : Prop := {
  tidy_cursor : (0 ≤ state.(State_Cursor))%Z;
  tidy_length : (Z.of_nat (length state.(State_Evidence)) ≤ config.(BridgeConfig_MaxRemembered))%Z;
  tidy_sequence e : e ∈ state.(State_Evidence) → (0 ≤ e.(BridgeEvidence_Sequence) < two64)%Z;
  tidy_fits e response : e ∈ state.(State_Evidence) → validIdentity e.(BridgeEvidence_Nonce) maxNonceBytes = true →
    e.(BridgeEvidence_Response) = Some response → responseFitsPoll config response = true;
}.

Definition sound state : Prop := validateFileState id state = Ok tt ∧ tidy state.

Lemma validate_iff state :
  validateFileState id state = Ok tt ↔
  ((Z.of_nat (length state.(State_Evidence)) ≤ maxStoredEvidence)%Z ∧ cursorMismatch state = false) ∧
  (∀ i e, state.(State_Evidence) !! i = Some e → validateEvidence id state (Z.of_nat i) e = Ok tt) ∧
  (∀ pending, state.(State_Pending) = Some pending → validatePending id state pending = Ok tt).
Proof.
  unfold validateFileState. split.
  - intros H. apply bind_Ok in H as ([] & Hb & H). apply bind_Ok in H as ([] & He & Hp).
    apply fail_if_Ok, orb_false_iff in Hb as [Hb Hc]. apply Z.ltb_ge in Hb. split; [done|].
    apply (for_each_Ok_unit (λ '(index, evidence), validateEvidence id state index evidence)) in He. rewrite Forall_forall in He. split.
    + intros i e Hi. apply (He (Z.of_nat i, e)). unfold indexed. apply list_elem_of_lookup. exists i. by rewrite list_lookup_imap, Hi.
    + intros pending Ep. rewrite Ep in Hp. done.
  - intros ([Hb Hc] & He & Hp). rewrite Hc. rewrite (proj2 (Z.ltb_ge _ _) Hb). cbn [orb fail_if mbind result_bind].
    assert (for_each (λ _ '(index, evidence), validateEvidence id state index evidence) tt (indexed state.(State_Evidence)) = Ok tt) as ->.
    { apply (for_each_Ok_unit (λ '(index, evidence), validateEvidence id state index evidence)). apply Forall_forall.
      intros [index e] (i & Hi)%list_elem_of_lookup. unfold indexed in Hi. rewrite list_lookup_imap in Hi.
      apply fmap_Some in Hi as (e' & Hi & [= -> ->]). by apply He. }
    cbn. destruct (State_Pending state); [by apply Hp|done].
Qed.

(** ** What is written stays valid *)

Lemma compact_length payload : (len payload =? 0)%Z = true → (len (json_compact payload) =? 0)%Z = true.
Proof. destruct payload; [by rewrite compact_empty|done]. Qed.

Lemma mismatch_written e response :
  completedResponseMismatch id e response = false → completedResponseMismatch id (writtenEvidence e) (writtenResponse response) = false.
Proof.
  unfold completedResponseMismatch. cbn. rewrite !orb_false_iff, !andb_false_iff. intros ([[[-> ->] ->] ->] & Hp). split; [done|].
  destruct Hp as [Hp|Hp].
  - left. apply Z.ltb_ge in Hp. pose proof (compact_length (ResponseEnvelope_Payload response)) as Hc. unfold len in *. 
    apply Z.ltb_ge. rewrite (proj1 (Z.eqb_eq _ _) (Hc ltac:(apply Z.eqb_eq; lia))). done.
  - right. apply negb_false_iff in Hp. by rewrite compact_valid.
Qed.

Lemma validateEvidence_written state i e :
  validateEvidence id state i e = Ok tt → validateEvidence id (writtenState state) i (writtenEvidence e) = Ok tt.
Proof.
  unfold validateEvidence. intros H. apply bind_Ok in H as ([] & H1 & H). apply bind_Ok in H as ([] & H2 & H).
  apply bind_Ok. exists tt. split; [exact H1|]. apply bind_Ok. exists tt. split; [exact H2|]. clear H1 H2.
  change (BridgeEvidence_Status (writtenEvidence e)) with (BridgeEvidence_Status e). destruct (_ == EvidencePrepared).
  - apply fail_if_Ok in H. apply fail_if_Ok. cbn in *. rewrite length_fmap. by destruct (BridgeEvidence_Response e).
  - apply fail_if_Ok, orb_false_iff in H as [H1 H]. apply fail_if_Ok, orb_false_iff. split; [exact H1|].
    cbn in *. destruct (BridgeEvidence_Response e) as [response|]; [|done]. exact (mismatch_written e response H).
Qed.

Lemma responsesEqual_written first second :
  responsesEqual (writtenResponse first) (writtenResponse second) = responsesEqual first second.
Proof. unfold responsesEqual. by rewrite !marshal_written. Qed.

Lemma conflict_written response : conflictResponse response = true → conflictResponse (writtenResponse response) = true.
Proof. unfold conflictResponse. cbn. rewrite !andb_true_iff. intros [[Hp ->] ->]. by rewrite (compact_length _ Hp). Qed.

Lemma validatePending_written state pending :
  validatePending id state pending = Ok tt → validatePending id (writtenState state) (writtenPending pending) = Ok tt.
Proof.
  unfold validatePending. intros H. apply bind_Ok in H as ([] & H1 & H). apply bind_Ok. exists tt. split.
  { apply fail_if_Ok in H1. apply fail_if_Ok. cbn in *. by rewrite length_fmap. }
  cbn in *. rewrite list_lookup_fmap. destruct (State_Evidence state !! _) as [e|]; [|done]. cbn.
  apply fail_if_Ok, andb_false_iff in H. unfold fail_if.
  assert (negb (pendingMatches (writtenEvidence e) (writtenPending pending)) && negb (pendingConflicts isDigest (writtenEvidence e) (writtenPending pending)) = false) as ->; [|done].
  apply andb_false_iff. destruct H as [H|H]; apply negb_false_iff in H; [left|right]; apply negb_false_iff.
  - unfold pendingMatches in *. cbn. rewrite !andb_true_iff in *. destruct H as [[-> ->] H].
    destruct (BridgeEvidence_Response e); [|done]. cbn. by rewrite responsesEqual_written.
  - unfold pendingConflicts in *. cbn. rewrite !andb_true_iff in *. destruct H as [[[-> ->] ->] H]. by rewrite conflict_written.
Qed.

Lemma validate_written state : validateFileState id state = Ok tt → validateFileState id (writtenState state) = Ok tt.
Proof.
  intros [[Hl Hc] [He Hp]]%validate_iff. apply validate_iff. unfold cursorMismatch in *. cbn. rewrite length_fmap. split; [done|]. split.
  - intros i e. rewrite list_lookup_fmap. intros (e0 & Hi & ->)%fmap_Some. by apply validateEvidence_written, He.
  - intros pending (pending0 & Ep & ->)%fmap_Some. by apply validatePending_written, Hp.
Qed.

(** The revision does not matter. *)
Lemma validate_revision state revision :
  validateFileState id (state <| State_Revision := revision |>) = validateFileState id state.
Proof. done. Qed.

(** ** What is valid can be opened *)

Lemma fits_written response : responseFitsPoll config (writtenResponse response) = responseFitsPoll config response.
Proof. unfold responseFitsPoll. cbn. by rewrite (marshal_poll _ _ _ _ _ (marshal_written response)). Qed.

Lemma tidy_written state : tidy state → tidy (writtenState state).
Proof.
  intros [Hc Hl Hs Hf]. split; cbn; [done|by rewrite length_fmap|..].
  - intros e (e0 & -> & He)%list_elem_of_fmap. exact (Hs e0 He).
  - intros e response (e0 & -> & He)%list_elem_of_fmap Hn (response0 & Hr & ->)%fmap_Some. rewrite fits_written. eauto.
Qed.

(** The sequences find the evidences. *)
Lemma bySequence_lookup evidence i e :
  (∀ j e', evidence !! j = Some e' → e'.(BridgeEvidence_Sequence) = (Z.of_nat j + 1)%Z) →
  evidence !! i = Some e → (indexesOf evidence).1 !! (Z.of_nat i + 1)%Z = Some i.
Proof.
  revert i e. induction evidence as [|x evidence IH] using rev_ind; intros i e Hseq Hi; [done|].
  rewrite indexesOf_snoc. unfold indexEvidence. destruct (indexesOf evidence) as [m nonces] eqn:E. cbn [fst] in *.
  rewrite (Hseq (length evidence) x) by by apply list_lookup_middle.
  destruct (decide (i = length evidence)) as [->|Hne]; [by rewrite lookup_insert_eq, Nat2Z.id|].
  rewrite lookup_insert_ne by lia. apply (IH i e).
  - intros j e' Hj. apply Hseq. by apply lookup_app_l_Some.
  - rewrite lookup_app_l in Hi; [done|]. apply lookup_lt_Some in Hi. rewrite length_app in Hi. cbn in Hi. lia.
Qed.

Lemma digest_any digest : isDigest digest = true → isAnyDigest digest = true.
Proof.
  unfold isDigest, isAnyDigest. rewrite !andb_true_iff. intros [-> H]. split; [done|]. rewrite !forallb_forall in *.
  intros c Hc. unfold anyHexDigit. by rewrite (H c Hc).
Qed.

Lemma completed_mismatch state i e response :
  validateEvidence id state i e = Ok tt → e.(BridgeEvidence_Status) = EvidenceCompleted → e.(BridgeEvidence_Response) = Some response →
  completedResponseMismatch id e response = false.
Proof.
  unfold validateEvidence. intros H Hs Hr. apply bind_Ok in H as ([] & _ & H). apply bind_Ok in H as ([] & _ & H).
  rewrite Hs, Hr in H. change (EvidenceCompleted == EvidencePrepared) with false in H. by apply fail_if_Ok, orb_false_iff in H as [_ H].
Qed.

Lemma completed_sequence state i e response :
  validateEvidence id state i e = Ok tt → e.(BridgeEvidence_Status) = EvidenceCompleted → e.(BridgeEvidence_Response) = Some response →
  response.(ResponseEnvelope_Sequence) = e.(BridgeEvidence_Sequence).
Proof.
  intros H Hs Hr. apply (completed_mismatch _ _ _ _ H Hs) in Hr. unfold completedResponseMismatch in Hr. rewrite !orb_false_iff in Hr.
  destruct Hr as [[[[Hr _] _] _] _]. by apply negb_false_iff, Z.eqb_eq in Hr.
Qed.

Lemma valid_nonce state i e : validateEvidence id state i e = Ok tt → validIdentity e.(BridgeEvidence_Nonce) maxNonceBytes = true.
Proof.
  unfold validateEvidence. intros H. apply bind_Ok in H as ([] & H & _). apply fail_if_Ok in H. rewrite !orb_false_iff in H.
  destruct H as [[[_ H] _] _]. by apply negb_false_iff in H.
Qed.

(** A pending response of a valid state fits into a poll: it is the one of its evidence,
    or the conflict of a request with a valid nonce. *)
Lemma pending_fits state pending :
  sound state → state.(State_Pending) = Some pending → responseFitsPoll config pending.(PendingResponse_Response) = true.
Proof.
  intros [Hv [Hcur _ _ Hfit]] Epend. pose proof Hv as [[Hlen _] [He Hp]]%validate_iff. specialize (Hp _ Epend). unfold validatePending in Hp.
  apply bind_Ok in Hp as ([] & H1 & Hp). apply fail_if_Ok in H1. destruct (State_Evidence state !! _) as [e|] eqn:Ee; [|done].
  apply fail_if_Ok, andb_false_iff in Hp. destruct Hp as [Hp|Hp]; apply negb_false_iff in Hp.
  - unfold pendingMatches in Hp. rewrite !andb_true_iff in Hp. destruct Hp as [[Hst _] Hr].
    destruct (BridgeEvidence_Response e) as [response|] eqn:Er; [|done].
    specialize (He _ _ Ee). pose proof (Hfit e response (list_elem_of_lookup_2 _ _ _ Ee) (valid_nonce _ _ _ He) Er) as Hf.
    unfold responsesEqual in Hr. destruct (marshalResponse response) as [j|?|] eqn:E1; [|done..].
    destruct (marshalResponse (PendingResponse_Response pending)) as [j'|?|] eqn:E2; [|done..]. apply String.eqb_eq in Hr as ->.
    pose proof (validate_sequence _ _ _ _ Hv Ee) as Ei. apply (completed_sequence state _ e response) in He as Es; [|by apply String.eqb_eq|done].
    rewrite !orb_false_iff in H1. destruct H1 as [[[[Hz _] Hs] _] _]. apply Z.eqb_neq in Hz. apply negb_false_iff, Z.eqb_eq in Hs.
    assert (response.(ResponseEnvelope_Sequence) = pending.(PendingResponse_Response).(ResponseEnvelope_Sequence)) as Esp by lia.
    unfold responseFitsPoll in *. rewrite <- Esp, <- (marshal_poll _ _ _ response); [done|congruence].
  - unfold pendingConflicts, conflictResponse in Hp. rewrite !andb_true_iff in Hp. destruct Hp as (_ & [Hpay Hn] & He').
    rewrite !orb_false_iff in H1. destruct H1 as [[[[_ Hb] Hs] Ha] Hd]. apply negb_false_iff, Z.eqb_eq in Hs. apply Z.ltb_ge in Hb. apply negb_false_iff, String.eqb_eq in Ha, Hd.
    destruct (PendingResponse_Response pending) as [n nonce account device payload [[code message]|]] eqn:Epr; [|done]. cbn in *.
    apply andb_true_iff in He' as [-> %String.eqb_eq ->%String.eqb_eq]. subst account device.
    assert (payload = "") as -> by (apply Z.eqb_eq in Hpay; unfold len in Hpay; destruct payload; [done|cbn in Hpay; lia]).
    apply failures_fit; [|done|].
    { unfold maxStoredEvidence, defaultMaxRemembered in Hlen. unfold two64. lia. }
    apply Nat.leb_le. vm_compute. reflexivity.
Qed.

Lemma checkIndexed_ok state i e :
  validateEvidence id state (Z.of_nat i) e = Ok tt →
  (indexesOf state.(State_Evidence)).1 !! e.(BridgeEvidence_Sequence) = Some i →
  (∀ response, e.(BridgeEvidence_Response) = Some response → (len response.(ResponseEnvelope_Payload) ≤ config.(BridgeConfig_MaxBodyBytes))%Z) →
  checkIndexed config (clientOf state) (Z.of_nat i) e = Ok tt.
Proof.
  intros He Hi Hlen. unfold validateEvidence in He. apply bind_Ok in He as ([] & H1 & He). apply bind_Ok in He as ([] & H2 & He).
  apply fail_if_Ok in H1, H2. rewrite !orb_false_iff in H1. destruct H1 as [[[Hq Hn] _] Hst].
  apply bind_Ok. exists tt. split; [apply fail_if_Ok; by rewrite Hq, Hn, H2|].
  apply bind_Ok. exists tt. split; [apply fail_if_Ok; cbn [clientOf Client_bySequence]; by rewrite Hi, Z.eqb_refl|].
  apply bind_Ok. exists tt. split; [by apply fail_if_Ok|]. cbn [clientOf Client_state].
  destruct (String.eqb_spec (BridgeEvidence_Status e) EvidenceCompleted) as [Ec|Ec].
  - rewrite Ec in He. change (EvidenceCompleted == EvidencePrepared) with false in He.
    apply fail_if_Ok, orb_false_iff in He as [Hcur He]. apply bind_Ok. exists tt. split; [by apply fail_if_Ok|].
    apply fail_if_Ok. destruct (BridgeEvidence_Response e) as [response|]; [|done]. rewrite He. cbn.
    apply Z.ltb_ge. by apply Hlen.
  - cbn in Hst. rewrite andb_true_r in Hst. apply negb_false_iff in Hst.
    rewrite Hst in He. apply fail_if_Ok in He. by apply fail_if_Ok.
Qed.

Lemma checkPending_ok state pending :
  validatePending id state pending = Ok tt → (0 ≤ state.(State_Cursor))%Z →
  responseFitsPoll config pending.(PendingResponse_Response) = true →
  (∀ i e, state.(State_Evidence) !! i = Some e → (indexesOf state.(State_Evidence)).1 !! (Z.of_nat i + 1)%Z = Some i) →
  checkPending config (clientOf state) pending = Ok tt.
Proof.
  intros H Hcur Hfit Hi. unfold validatePending in H. apply bind_Ok in H as ([] & H1 & H). apply fail_if_Ok in H1.
  rewrite !orb_false_iff in H1. destruct H1 as [[[[Hz _] Hs] Ha] Hd]. apply Z.eqb_neq in Hz.
  pose proof Hs as Hs'%negb_false_iff%Z.eqb_eq.
  destruct (State_Evidence state !! _) as [e|] eqn:Ee; [|done]. apply Hi in Ee as Hx.
  replace (Z.of_nat (Z.to_nat (ResponseEnvelope_Sequence (PendingResponse_Response pending) - 1)) + 1)%Z
    with (ResponseEnvelope_Sequence (PendingResponse_Response pending)) in Hx by lia.
  apply bind_Ok. exists tt. split.
  { apply fail_if_Ok. cbn [clientOf Client_state]. rewrite Hs, Hfit. cbn in Ha, Hd. by rewrite Ha, Hd. }
  apply bind_Ok. eexists. split; [cbn [clientOf Client_bySequence]; by rewrite Hx|]. cbn [clientOf Client_state]. rewrite Ee.
  apply fail_if_Ok, andb_false_iff in H. apply fail_if_Ok, andb_false_iff.
  destruct H as [H|H]; [by left|right]. apply negb_false_iff in H. apply negb_false_iff. unfold pendingConflicts in *.
  rewrite !andb_true_iff in *. destruct H as [[[? ?] ?] ?]. split_and!; try done. by apply digest_any.
Qed.

(** A state that is valid and fits is accepted by [indexState], as it was written. *)
Lemma open_written state : sound state → indexState config (writtenState state) = Ok (clientOf (writtenState state)).
Proof.
  intros Hsound. destruct (Hsound) as [Hv Ht]. apply validate_written in Hv as Hw. apply tidy_written in Ht as Htw.
  pose proof Hw as [[Hl Hc] [He Hp]]%validate_iff. set (state' := writtenState state) in *.
  assert (∀ i e, state'.(State_Evidence) !! i = Some e → e.(BridgeEvidence_Sequence) = (Z.of_nat i + 1)%Z) as Hseq
    by (intros i e; apply (validate_sequence _ _ _ _ Hw)).
  assert (∀ i e, state'.(State_Evidence) !! i = Some e → (indexesOf state'.(State_Evidence)).1 !! (Z.of_nat i + 1)%Z = Some i) as Hi
    by (intros i e; by apply bySequence_lookup).
  apply bind_Ok. exists tt. split; [apply fail_if_Ok, Z.ltb_ge, Htw|]. apply bind_Ok. exists tt. split; [by apply fail_if_Ok|].
  apply bind_Ok. exists tt. split; [|apply bind_Ok; exists tt; split; [|done]].
  - apply (for_each_Ok_unit (λ '(index, evidence), checkIndexed config (clientOf state') index evidence)). apply Forall_forall.
    intros [index e] (i & Hx)%list_elem_of_lookup. unfold indexed in Hx. rewrite list_lookup_imap in Hx.
    apply fmap_Some in Hx as (e' & Hx & [= -> ->]). apply checkIndexed_ok; [by apply He|by rewrite (Hseq _ _ Hx), (Hi _ _ Hx)|].
    intros response Hr. pose proof (valid_nonce _ _ _ (He _ _ Hx)) as Hn. apply list_elem_of_lookup_2 in Hx. cbn in Hx. apply list_elem_of_fmap in Hx as (e0 & -> & He0).
    cbn in Hr. apply fmap_Some in Hr as (response0 & Hr & ->). pose proof (tidy_fits _ Ht _ _ He0 Hn Hr) as Hf.
    unfold responseFitsPoll in Hf. destruct (marshalPoll _) as [body| |] eqn:Eb; [|done..]. apply Z.leb_le in Hf.
    etrans; [|exact Hf]. cbn. eapply marshal_length, Eb.
  - destruct (State_Pending state') as [pending|] eqn:Ep; [|done]. apply checkPending_ok; [by apply Hp|apply Htw| |done].
    apply (pending_fits state' pending); [by split|done].
Qed.

(** * What a thread writes *)

(** Every state a thread has read is tidy; then so is every state it commits. *)
Definition tidy_loads (h : history bridge_answer) : Prop := ∀ state, existT LoadState (Ok state) ∈ h → tidy state.
Definition loaded (e : event bridge_answer) : option (result State) :=
  match e with existT LoadState r => Some r | _ => None end.
Definition tidily (h : history bridge_answer) (c : bridge_call) : Prop :=
  match c with CommitState _ state => tidy_loads h → tidy state | _ => True end.

Definition neat (previous : State) (h : history bridge_answer) (client : Client) : Prop :=
  tidy_loads h → tidy previous ∧ tidy client.(Client_state).

Lemma tidy_loads_before h e : tidy_loads (h ++ [e]) → tidy_loads h.
Proof. intros H state Hs. apply H, elem_of_app. by left. Qed.

Lemma tidy_revision state revision : tidy state → tidy (state <| State_Revision := revision |>).
Proof. by intros []. Qed.

Lemma commitLocked_neat previous expected : maintains tidily (neat previous) (commitLocked expected).
Proof.
  intros h client Hn. apply ensures_get_bind, ensures_state_bind, ensures_bind, ensures_state_calls. cbn.
  split; [by intros [_ H]%Hn|]. intros r.
  assert (neat previous (h ++ [existT (CommitState expected (Client_state client)) r]) client) as Hn'
    by (intros H%tidy_loads_before%Hn; exact H).
  destruct r as [revision|err|]; cbn; [|exact Hn'..]. destruct (revision <=? expected)%Z; [exact Hn'|].
  intros [Hp Ht]%Hn'. split; [exact Hp|]. by apply tidy_revision.
Qed.

Definition tidied (h : history bridge_answer) (client : Client) : Prop := tidy_loads h → tidy client.(Client_state).

(** A change that is committed, or undone. *)
Lemma change_tidied change restore expected h client :
  (∀ client', Client_state (restore client') = client.(Client_state)) →
  (tidy client.(Client_state) → tidy (change client).(Client_state)) → tidied h client →
  ensures tidily (commitOr restore expected (change client)) h (λ h' '(client', _), tidied h' client').
Proof.
  intros Hr Hc Ht. set (previous := Client_state client) in *.
  assert (maintains tidily (neat previous) (commitOr restore expected)) as Hm.
  { unfold commitOr. apply maintains_bind; [apply maintains_attempt, commitLocked_neat|].
    intros [u|err|]; [apply maintains_done| |by apply (maintains_calls _ _ (λ _, False)); [|walk]].
    apply maintains_bind; [|intros; apply maintains_fail]. apply maintains_update.
    intros h' client' Hn [Hp _]%Hn. by rewrite Hr. }
  eapply ensures_mono; [apply (Hm h)|].
  - intros Hl. specialize (Ht Hl). auto.
  - intros h' [client' r] _ Hn H. by apply Hn.
Qed.

Lemma u64_range z : (0 ≤ u64 z < two64)%Z.
Proof. by apply Z.mod_pos_bound. Qed.

Lemma tidy_advance state response : tidy state → tidy (advance response state).
Proof.
  intros [Hc Hl Hs Hf]. unfold advance. destruct (Z.eqb_spec (ResponseEnvelope_Sequence response) (u64 (State_Cursor state + 1))) as [E|]; [|done].
  split; cbn; [|done..]. rewrite E. apply u64_range.
Qed.

Lemma tidy_pending state pending : tidy state → tidy (state <| State_Pending := pending |>).
Proof. by intros []. Qed.

(** A response that fits is added to an evidence. *)
Lemma tidy_alter state index response :
  tidy state → (∀ e, state.(State_Evidence) !! index = Some e → validIdentity e.(BridgeEvidence_Nonce) maxNonceBytes = true → responseFitsPoll config response = true) →
  tidy (state <| State_Evidence := alter (withResponse response) index state.(State_Evidence) |>).
Proof.
  intros [Hc Hl Hs Hf] Hr. split; cbn; [done|by rewrite length_alter|..].
  - intros e (i & Hi)%list_elem_of_lookup_1. rewrite list_lookup_alter in Hi. case_decide; [subst|by eapply Hs, list_elem_of_lookup_2].
    apply fmap_Some in Hi as (e0 & Hi & ->). exact (Hs e0 (list_elem_of_lookup_2 _ _ _ Hi)).
  - intros e response' (i & Hi)%list_elem_of_lookup_1 Hn He. rewrite list_lookup_alter in Hi. case_decide; [subst|by eapply Hf; [eapply list_elem_of_lookup_2| |]].
    apply fmap_Some in Hi as (e0 & Hi & ->). injection He as <-. by eapply Hr.
Qed.

Lemma completeLocked_tidied index digest response : maintains tidily tidied (completeLocked config index digest response).
Proof.
  unfold completeLocked. cbv zeta. destruct (responseFitsPoll config (boundResponse config response)) eqn:Ef; cbn [negb]; [|apply maintains_fail].
  intros h client Ht. apply ensures_get_bind. apply ensures_update_bind, change_tidied; [done| |exact Ht].
  intros H. apply tidy_pending, tidy_advance, tidy_alter; [exact H|]. done.
Qed.

Lemma completePreparedConflictLocked_tidied index evidence digest conflict h client :
  client.(Client_state).(State_Evidence) !! index = Some evidence → tidied h client →
  ensures tidily (completePreparedConflictLocked config index evidence digest conflict client) h (λ h' '(client', _), tidied h' client').
Proof.
  intros He Ht. unfold completePreparedConflictLocked. apply ensures_get_bind. cbv zeta. apply ensures_update_bind, change_tidied; [done| |exact Ht].
  intros H. cbn. pose proof (tidy_sequence _ H evidence (list_elem_of_lookup_2 _ _ _ He)) as Hs.
  assert (tidy (client.(Client_state) <| State_Cursor := evidence.(BridgeEvidence_Sequence) |>)) as H' by (destruct H; split; cbn; [lia|done..]).
  refine (tidy_pending _ _ (tidy_alter (client.(Client_state) <| State_Cursor := evidence.(BridgeEvidence_Sequence) |>) index _ H' _)). cbn.
  intros e. rewrite He. intros [= <-] Hn.
  unfold boundResponse. destruct (responseFitsPoll config (failureOf _ _ _ _ _)) eqn:Ef; [exact Ef|].
  apply failures_fit; [exact Hs|exact Hn|]. apply Nat.leb_le. vm_compute. reflexivity.
Qed.

Lemma persistPendingLocked_tidied digest response : maintains tidily tidied (persistPendingLocked digest response).
Proof.
  intros h client Ht. unfold persistPendingLocked. apply ensures_get_bind. cbv zeta. destruct (State_Pending _); [exact Ht|].
  apply ensures_update_bind, change_tidied; [done| |exact Ht]. intros H. by apply tidy_pending, tidy_advance.
Qed.

(** Calls that have nothing to do with the file. *)
Definition offFile (c : bridge_call) : Prop := match c with LoadState | CommitState _ _ => False | _ => True end.
Lemma offFile_tidied {A} (m : bridge_go A) : only offFile m → maintains tidily tidied (calls m).
Proof.
  apply maintains_calls. intros h client c Hc Ht. split; [by destruct c|]. intros r Hl%tidy_loads_before. by apply Ht.
Qed.

Lemma validateAndExecute_tidied request : maintains tidily tidied (validateAndExecute config request).
Proof.
  unfold validateAndExecute. repeat (walk_maintains_once; cbn beta).
  - by apply maintains_update.
  - apply offFile_tidied. unfold resolveAndExecute, executeOperation. walk.
Qed.

Lemma handleNew_tidied request : maintains tidily tidied (handleNew config request).
Proof.
  intros h client Ht. unfold handleNew. apply ensures_get_bind. cbv zeta.
  destruct (Z.eqb_spec (RequestEnvelope_Sequence request) (u64 (State_Cursor (Client_state client) + 1))) as [Es|]; [|exact Ht]. cbn [negb orb].
  destruct (negb _); [exact Ht|]. destruct (Z.leb_spec (BridgeConfig_MaxRemembered config) (Z.of_nat (length (State_Evidence (Client_state client))))) as [|Hl]; [exact Ht|].
  apply ensures_update_bind, ensures_state_bind. eapply ensures_mono; [apply change_tidied; [done| |exact Ht]|].
  - intros [Hc _ Hs Hf]. split; cbn; [done|rewrite length_app; cbn; lia|..].
    + intros e [He| ->%list_elem_of_singleton]%elem_of_app; [by apply Hs|]. cbn. rewrite Es. apply u64_range.
    + intros e response [He| ->%list_elem_of_singleton]%elem_of_app; [by apply Hf|done].
  - cbn. intros h1 [client1 [u|err|]] _ Ht1; [|exact Ht1..]. revert h1 client1 Ht1.
    change (maintains tidily tidied (response ← validateAndExecute config request;
      completeLocked config (length (State_Evidence (Client_state client))) (requestDigest request) (boundResponse config response) ≫= λ _,
      done (boundResponse config response))).
    apply maintains_bind; [apply validateAndExecute_tidied|]. intros response.
    apply maintains_bind; [apply completeLocked_tidied|]. intros u'. apply maintains_done.
Qed.

Lemma handleAgain_tidied request index evidence h client :
  client.(Client_state).(State_Evidence) !! index = Some evidence → tidied h client →
  ensures tidily (handleAgain config request index evidence client) h (λ h' '(client', _), tidied h' client').
Proof.
  intros He Ht. unfold handleAgain. apply ensures_get_bind. cbv zeta.
  destruct (_ != _).
  - destruct (_ == EvidencePrepared).
    + apply ensures_state_bind. eapply ensures_mono; [by apply completePreparedConflictLocked_tidied|]. by intros h' [client' [|?|]] _ H.
    + destruct (is_Some_b _); [exact Ht|]. revert h client He Ht. intros h client _. revert h client.
      refine (maintains_bind _ _ _ _ (persistPendingLocked_tidied _ _) _). intros u. apply maintains_done.
  - destruct (_ == EvidencePrepared).
    + revert h client He Ht. intros h client _. revert h client.
      refine (maintains_bind _ _ _ _ (completeLocked_tidied _ _ _) _). intros u. apply maintains_done.
    + destruct (BridgeEvidence_Response evidence); [|exact Ht]. destruct (is_Some_b _); [exact Ht|].
      revert h client He Ht. intros h client _. revert h client.
      refine (maintains_bind _ _ _ _ (persistPendingLocked_tidied _ _) _). intros u. apply maintains_done.
Qed.

Lemma handleLocked_tidied request : maintains tidily tidied (handleLocked config request).
Proof.
  intros h client Ht. unfold handleLocked. apply ensures_get_bind. cbv beta zeta.
  destruct (Client_bySequence client !! _) as [index|]; [|by apply handleNew_tidied].
  destruct (State_Evidence (Client_state client) !! index) as [evidence|] eqn:Ee; [by apply handleAgain_tidied|exact Ht].
Qed.

Lemma dropAcknowledged_tidied result : maintains tidily tidied (dropAcknowledged result).
Proof.
  intros h client Ht. unfold dropAcknowledged. apply ensures_get_bind. cbv beta zeta. destruct (State_Pending _); [|exact Ht].
  destruct (_ <=? _)%Z; [|exact Ht]. apply ensures_update_bind, change_tidied; [done| |exact Ht]. apply tidy_pending.
Qed.

Lemma Run_tidied rounds backoff : maintains tidily tidied (Run config rounds backoff).
Proof.
  revert backoff. induction rounds as [|rounds IH]; intros backoff; cbn [Run]; [apply maintains_done|].
  apply maintains_bind.
  - apply maintains_attempt. unfold poll. apply maintains_bind; [apply maintains_get|]. intros client. apply offFile_tidied. walk.
  - intros [answer|err|]; [| |by apply offFile_tidied; walk].
    + apply maintains_bind; [|intros; apply IH]. unfold accept. repeat (walk_maintains_once; cbn beta).
      all: first [apply dropAcknowledged_tidied|apply handleLocked_tidied].
    + repeat (walk_maintains_once; cbn beta). all: first [apply offFile_tidied; walk|apply IH].
Qed.

Lemma bridgeProcess_tidily raw rounds : checkConfig raw = Ok config → ensures tidily (bridgeProcess raw rounds) [] (λ _ _, True).
Proof.
  intros Hc. unfold bridgeProcess, New. rewrite Hc. split; [done|]. intros [state|e|]; [|done..].
  cbn. destruct (indexState config state) as [client|e|] eqn:E; [|done..]. apply indexState_inv in E as ->. cbn. apply ensures_bind.
  eapply ensures_mono; [apply Run_tidied|by intros h [client' r'] _ _].
  intros Hl. apply Hl. by left.
Qed.

(** * What the file holds *)

Definition sound_slot (slot : option State) : Prop := ∀ state, slot = Some state → ∃ state', state = writtenState state' ∧ sound state'.

Abbreviation setting := (bridge_setting relay_starts relay_polls relay_happens config).
Definition sound_world (w : world bridge_answer (BridgeWorld T)) : Prop :=
  sound_slot w.1.(bw_file).(bf_visible) ∧ sound_slot w.1.(bw_file).(bf_durable) ∧ tidy_loads w.2.

Lemma tidy_zero : tidy State_zero ↔ (0 ≤ config.(BridgeConfig_MaxRemembered))%Z.
Proof. 
  split; [by intros [_ H _ _]|]. intros H. split; cbn; [done|exact H|by intros e ?%not_elem_of_nil|by intros e response ?%not_elem_of_nil].
Qed.

Lemma sound_world_quiet s h e s' :
  sound_world (s, h) → s'.(bw_file) = s.(bw_file) → (∀ state, e ≠ existT LoadState (Ok state)) → sound_world (s', h ++ [e]).
Proof.
  intros (Hv & Hd & Hl) Ef He. split_and!; cbn in *; [by rewrite Ef..|].
  intros state [H|H%list_elem_of_singleton]%elem_of_app; [by apply Hl|]. by destruct (He state).
Qed.

Lemma sound_world_step s h past c r s' : (0 ≤ config.(BridgeConfig_MaxRemembered))%Z →
  sound_world (s, h) → past ⊆ h → tidily past c → setting.(serves) s (existT c r) s' → sound_world (s', h ++ [existT c r]).
Proof.
  intros Hm Hs Hp Hc Hserve. pose proof Hs as (Hv & Hd & Hl). destruct c; cbn in Hserve.
  - destruct Hserve as [-> [fault E]]. split_and!; [done..|]. intros state' [H|H%list_elem_of_singleton]%elem_of_app; [by apply Hl|].
    apply (f_equal loaded) in H as [= <-]. symmetry in E. apply FileLoad_inv in E as ->. cbn in Hv.
    unfold stateIn. destruct (bf_visible (bw_file s)) as [state|]; [|by apply tidy_zero].
    destruct (Hv state eq_refl) as (state' & -> & [_ Ht]). by apply tidy_written.
  - destruct Hserve as (_ & fault & E). apply FileCommit_inv in E.
    assert (tidy state) as Ht by (apply Hc; intros state' H'; apply Hl; set_solver).
    destruct E as [[E _]|(_ & _ & Hok & Ev & Ed)].
    + by apply (sound_world_quiet s).
    + assert (sound_slot (Some (writtenState (state <| State_Revision := u64 (expected + 1) |>)))) as Hnew.
      { intros ? [= <-]. eexists. split; [done|]. split; [exact Hok|by apply tidy_revision]. }
      split_and!; cbn in *; [by rewrite Ev| |].
      * destruct Ed as [[-> _]|[-> _]]; [exact Hd|exact Hnew].
      * intros state' [H|H%list_elem_of_singleton]%elem_of_app; [by apply Hl|done].
  - destruct Hserve as [E _]. by apply (sound_world_quiet s).
  - subst s'. by apply (sound_world_quiet s).
  - subst s'. by apply (sound_world_quiet s).
  - subst s'. by apply (sound_world_quiet s).
  - subst s'. by apply (sound_world_quiet s).
  - subst s'. by apply (sound_world_quiet s).
Qed.

Lemma running_sound w ts : (0 ≤ config.(BridgeConfig_MaxRemembered))%Z → running setting w ts → sound_world w.
Proof.
  intros Hm. apply (running_local _ _ tidily).
  - intros s [t _]. split_and!; [done..|]. by intros state ?%not_elem_of_nil.
  - intros s h past c r s'. by apply sound_world_step.
  - intros s h s' Hs [Hh|Hc]; [by destruct Hh|]. destruct Hc as [file t survived [-> | ->]]; destruct Hs as (Hv & Hd & Hl); by split_and!.
  - intros p [raw rounds Hc]. by apply bridgeProcess_tidily.
Qed.

(** What a checked configuration guarantees. *)
Lemma checkConfig_inv raw : checkConfig raw = Ok config →
  validateBridgeIdentity id = Ok tt ∧ (0 < config.(BridgeConfig_MaxRemembered))%Z.
Proof.
  unfold checkConfig. intros H. apply bind_Ok in H as (url & _ & H). apply bind_Ok in H as ([] & _ & H).
  apply bind_Ok in H as ([] & _ & H). apply bind_Ok in H as ([] & _ & H). apply bind_Ok in H as ([] & Hid & H).
  apply bind_Ok in H as ([] & _ & H). apply bind_Ok in H as ([] & _ & H). cbv zeta in H.
  apply bind_Ok in H as ([] & Hb & H). apply bind_Ok in H as ([] & _ & H). injection H as <-. split.
  - apply fail_if_Ok in Hid. rewrite !orb_false_iff in Hid. destruct Hid as [[_ Ha] Hd].
    unfold validateBridgeIdentity. cbn. by rewrite Ha, Hd.
  - apply fail_if_Ok, orb_false_iff in Hb as [_ Hb]. by apply Z.leb_gt in Hb.
Qed.

Lemma open_slot slot : validateBridgeIdentity id = Ok tt → (0 < config.(BridgeConfig_MaxRemembered))%Z → sound_slot slot →
  FileLoad id None (mkBridgeFile slot slot) = Ok (stateIn slot) ∧ indexState config (stateIn slot) = Ok (clientOf (stateIn slot)).
Proof.
  intros Hid Hm Hs. unfold FileLoad, loadLocked. rewrite Hid. cbn. destruct slot as [state|]; cbn.
  - destruct (Hs state eq_refl) as (state' & -> & Hsound). split; [|by apply open_written].
    destruct Hsound as [Hv _]. by rewrite (validate_written _ Hv).
  - split; [done|]. apply bind_Ok. exists tt. split; [|done]. apply fail_if_Ok, Z.ltb_ge. cbn. lia.
Qed.

(** C13: A bridge can always be started again. In every reachable world of bridges that
    share a file, whatever the relay, the authority and the operations answer, whatever
    commits fail and whenever the bridges crash, the file, and the file a loss of power
    would leave, is read back without an error, and [indexState] of [New] accepts the
    state: no request, however malformed, makes a bridge write a state that a bridge
    refuses. The limit of bodies is assumed to be large enough for a poll with any
    failure a bridge makes up, a code and a message of at most 128 bytes together;
    [checkConfig] does not ask for that, and [small_limit_refuses_restart] is what
    happens without it. *)
Theorem restart_accepts raw w ts slot :
  checkConfig raw = Ok config → running setting w ts →
  slot = w.1.(bw_file).(bf_visible) ∨ slot = w.1.(bw_file).(bf_durable) →
  FileLoad id None (mkBridgeFile slot slot) = Ok (stateIn slot) ∧ indexState config (stateIn slot) = Ok (clientOf (stateIn slot)).
Proof.
  intros [Hid Hm]%checkConfig_inv Hrun Hslot. apply running_sound in Hrun as (Hv & Hd & _); [|lia].
  apply open_slot; [done..|]. by destruct Hslot as [-> | ->].
Qed.

End restart.

(** * The laptop's bridge *)

Lemma string_length_append a b : String.length (a +:+ b) = (String.length a + String.length b)%nat.
Proof. induction a as [|c a IH]; [done|]. exact (f_equal Datatypes.S IH). Qed.

(** Polls whose encoding contains the responses. *)
#[local] Instance restart_remote : RemoteEnv := {|
  remote_json_Valid := λ s, s != "{"; json_compact := λ s, s;
  marshalResponse := λ r, Ok (r.(ResponseEnvelope_Nonce) +:+ r.(ResponseEnvelope_Payload));
  unmarshalResponse := λ _, None;
  marshalPoll := λ p, Ok (p.(PollEnvelope_DeviceID) +:+
    match p.(PollEnvelope_Responses) with r :: _ => r.(ResponseEnvelope_Nonce) +:+ r.(ResponseEnvelope_Payload) | [] => "" end);
  marshalProjects := String.concat ","; unmarshalProjects := λ _, None; hexDigest := λ s, s;
  requestDigest := λ r, padded (if r.(RequestEnvelope_Payload) == "{}" then "a" else "b");
  enqueueDigest := λ r, r.(EnqueueRequest_Nonce);
|}.

#[local] Existing Instance sample_bridge.

#[local] Instance restart_laws : RemoteLaws.
Proof.
  split; try done.
  - intros account device cursor response response' [= H]. cbn. by rewrite H.
  - intros account device cursor response body [= <-]. unfold len. cbn. rewrite !string_length_append. lia.
Qed.

Example restart_checked : checkConfig sampleBridge = Ok checkedBridge.
Proof. vm_compute. reflexivity. Qed.

Lemma restart_failures_fit n nonce code message : (0 ≤ n < two64)%Z → validIdentity nonce maxNonceBytes = true →
  (String.length code + String.length message ≤ 128)%nat → responseFitsPoll checkedBridge (failureOf checkedBridge n nonce code message) = true.
Proof.
  intros _ Hn _. unfold responseFitsPoll. cbn. apply Z.leb_le. unfold validIdentity in Hn. rewrite !andb_true_iff in Hn.
  destruct Hn as [[[_ Hn] _] _]. apply Z.leb_le in Hn. unfold len. cbn. rewrite !string_length_append. cbn [String.length].
  change (BridgeConfig_MaxBodyBytes checkedBridge) with 1048576%Z. unfold maxNonceBytes in Hn. lia.
Qed.

Abbreviation serve_restart := (serve_bridge checkedBridge None answer_script (λ script, length script =? 0)).
Definition restartRun := drive_new serve_restart 60 (bridgeProcess sampleBridge 10) ((mkBridgeWorld BridgeFile_empty sampleScript, []), []).

Lemma restartRun_running : running (bridge_setting scripted_starts scripted_polls scripted_happens checkedBridge) restartRun.1 restartRun.2.
Proof.
  apply drive_new_running; [|by apply running_start|constructor; exact restart_checked].
  intros c s. apply serve_bridge_serves. intros [|answer script] poll _; [by left|by right].
Qed.

Lemma restart_accepts_witness :
  let slot := restartRun.1.1.(bw_file).(bf_durable) in
  FileLoad (identity checkedBridge) None (mkBridgeFile slot slot) = Ok (stateIn slot) ∧
  length (stateIn slot).(State_Evidence) = 3%nat ∧
  indexState checkedBridge (stateIn slot) = Ok (clientOf (stateIn slot)).
Proof.
  intros slot.
  destruct (restart_accepts scripted_starts scripted_polls scripted_happens checkedBridge restart_failures_fit sampleBridge
    restartRun.1 restartRun.2 slot restart_checked restartRun_running (or_intror eq_refl)) as [Hf Hi].
  split; [exact Hf|]. split; [vm_compute; reflexivity|exact Hi].
Defined.

(** With a limit that [checkConfig] accepts, but that is too small for the failures a
    bridge makes up, a bridge is not started again: [persistPendingLocked] commits a
    conflict without asking whether it fits a poll, and [indexState] refuses it. *)

(** Polls whose encoding also contains the error of a response. *)
#[local] Instance small_remote : RemoteEnv := {|
  remote_json_Valid := λ s, s != "{"; json_compact := λ s, s;
  marshalResponse := λ r, Ok (r.(ResponseEnvelope_Nonce) +:+ r.(ResponseEnvelope_Payload));
  unmarshalResponse := λ _, None;
  marshalPoll := λ p, Ok (p.(PollEnvelope_DeviceID) +:+
    match p.(PollEnvelope_Responses) with
    | r :: _ => r.(ResponseEnvelope_Nonce) +:+ r.(ResponseEnvelope_Payload) +:+
        match r.(ResponseEnvelope_Error) with Some e => e.(ResponseError_Code) +:+ e.(ResponseError_Message) | None => "" end
    | [] => ""
    end);
  marshalProjects := String.concat ","; unmarshalProjects := λ _, None; hexDigest := λ s, s;
  requestDigest := λ r, padded (if r.(RequestEnvelope_Payload) == "{}" then "a" else "b");
  enqueueDigest := λ r, r.(EnqueueRequest_Nonce);
|}.

Definition smallBridge : BridgeConfig := sampleBridge <| BridgeConfig_MaxBodyBytes := 20%Z |>.
Definition smallChecked : BridgeConfig := applyDefaults smallBridge.

(** A request, and when its answer is acknowledged another one with its sequence. *)
Definition smallScript : list (result PollResult) :=
  [delivering 0 [sampleRequest 1 "n1" "{}"]; delivering 1 [sampleRequest 1 "n1" "[]"]].
Definition smallRun := drive_new (serve_bridge smallChecked None answer_script (λ script, length script =? 0)) 60
  (bridgeProcess smallBridge 10) ((mkBridgeWorld BridgeFile_empty smallScript, []), []).
Definition smallSlot : option State := smallRun.1.1.(bw_file).(bf_durable).

Lemma small_checked : checkConfig smallBridge = Ok smallChecked.
Proof. vm_compute. reflexivity. Qed.

Example small_limit_refuses_restart :
  checkConfig smallBridge = Ok smallChecked ∧
  running (bridge_setting scripted_starts scripted_polls scripted_happens smallChecked) smallRun.1 smallRun.2 ∧
  FileLoad (identity smallChecked) None (mkBridgeFile smallSlot smallSlot) = Ok (stateIn smallSlot) ∧
  indexState smallChecked (stateIn smallSlot) = Err (ErrNew "agobridge: invalid durable pending response").
Proof.
  split_and!; [exact small_checked| |vm_compute; reflexivity..].
  apply drive_new_running; [|by apply running_start|constructor; exact small_checked].
  intros c s. apply serve_bridge_serves. intros [|answer script] poll _; [by left|by right].
Qed.
