(* ===== verification/Router.v ===== *)
(** The router: the catalogue of models and the lanes requests are given to
    (internal/catalog, internal/router). *)
From stdpp Require Import sorting gmap.
From S2P Require Import Prelude Sql Paths.

(** The models the router may select (internal/catalog/catalog.go). *)

Record Profile : Type := mkProfile {
  Profile_ID : string; Profile_DisplayName : string; Profile_Provider : string; Profile_DefaultEffort : string;
  Profile_AllowedEfforts : list string; Profile_Strengths : list string; Profile_AutoRoute : bool; Profile_ProbeStatus : string;
}.
#[export] Instance Profile_eta : Eta Profile := λ r, mkProfile (r.(Profile_ID)) (r.(Profile_DisplayName))
  (r.(Profile_Provider)) (r.(Profile_DefaultEffort)) (r.(Profile_AllowedEfforts)) (r.(Profile_Strengths))
  (r.(Profile_AutoRoute)) (r.(Profile_ProbeStatus)).

Definition profiles : list Profile :=
  [ mkProfile "opus" "Opus" "anthropic" "high" ["low"; "medium"; "high"; "xhigh"; "max"] ["general"; "plan"; "judge"; "review"] true "tool-pass";
    mkProfile "sonnet" "Sonnet" "anthropic" "high" ["low"; "medium"; "high"; "xhigh"; "max"] ["quick"; "general"] true "tool-pass";
    mkProfile "sonnet[1m]" "Sonnet 5 (1M)" "anthropic" "high" ["low"; "medium"; "high"; "xhigh"; "max"] ["long-context"] true "inherited-from-sonnet";
    mkProfile "claude-fable-5" "Claude Fable 5" "anthropic" "high" ["low"; "medium"; "high"; "xhigh"; "max"] ["hard"; "high-risk"; "judge"] false "timeout-75s";
    mkProfile "gpt-5.6-sol" "GPT 5.6 Sol" "openai" "high" ["medium"; "high"; "xhigh"] ["complex-implementation"; "architecture"] true "tool-pass";
    mkProfile "gpt-5.6-luna" "GPT 5.6 Luna" "openai" "high" ["medium"; "high"; "xhigh"] ["bounded-implementation"; "tests"; "repair"] true "tool-pass";
    mkProfile "gpt-5.6-terra" "GPT 5.6 Terra" "openai" "high" ["medium"; "high"; "xhigh"] ["exploration"; "context"] true "tool-pass";
    mkProfile "gemini-3.1-pro" "Gemini 3.1 Pro" "google" "high" ["low"; "medium"; "high"] ["deep-research"; "technical-review"] true "tool-pass";
    mkProfile "gemini-3.5-flash" "Gemini 3.5 Flash" "google" "medium" ["low"; "medium"; "high"] ["fast-research"; "summarize"] true "tool-pass";
    mkProfile "grok-4.5" "Grok 4.5" "xai" "high" ["low"; "medium"; "high"] ["realtime"; "external-signal"; "second-opinion"] true "tool-pass";
    mkProfile "glm-5.2" "GLM 5.2" "zai" "" [] ["chinese"; "backup"; "independent-review"] true "tool-pass" ].

(** [Get] of the catalog. *)
Definition catalog_Get (id : string) : option Profile := List.find (λ p, p.(Profile_ID) == id) profiles.

Definition ValidateEffort (p : Profile) (effort : string) : result unit :=
  if effort == "" then Ok tt else
  if existsb (λ allowed, effort == allowed) p.(Profile_AllowedEfforts) then Ok tt else
  if (length p.(Profile_AllowedEfforts) =? 0) then
    Err (Errorf "model %s uses provider-native thinking; omit --effort" [AStr p.(Profile_ID)]) else
  Err (Errorf "model %s does not support effort %q; allowed: %s"
         [AStr p.(Profile_ID); AStr effort; AStr (strings_Join (merge_sort byteOrder p.(Profile_AllowedEfforts)) ", ")]).

(** The router (internal/router/router.go): the lane a request is given to, whether a
    bounded Worker is admitted, and the bounds it runs in. *)

Definition KindAuto : string := "auto".
Definition KindGeneral : string := "general".
Definition KindQuick : string := "quick".
Definition KindHard : string := "hard".
Definition KindImplement : string := "implement".
Definition KindComplexImplement : string := "complex-implement".
Definition KindExplore : string := "explore".
Definition KindFastResearch : string := "fast-research".
Definition KindDeepResearch : string := "deep-research".
Definition KindRealtime : string := "realtime".
Definition KindChinese : string := "chinese".
Definition KindLongContext : string := "long-context".
Definition KindFindThread : string := "find-thread".
Definition KindReadThread : string := "read-thread".

Definition ActionDirect : string := "supervisor_direct".
Definition ActionCapability : string := "specialist_capability".
Definition ActionWorker : string := "bounded_worker".
Definition ActionBlocked : string := "capability_blocked".

(** * Data *)

Record LaneHealth : Type := mkLaneHealth {
  LaneHealth_Tool : string; LaneHealth_Status : string; LaneHealth_FailureClass : string; LaneHealth_Reason : string;
  LaneHealth_ObservedAt : string;
}.
#[export] Instance LaneHealth_eta : Eta LaneHealth := λ r, mkLaneHealth (r.(LaneHealth_Tool)) (r.(LaneHealth_Status))
  (r.(LaneHealth_FailureClass)) (r.(LaneHealth_Reason)) (r.(LaneHealth_ObservedAt)).

Record RouteRequest : Type := mkRouteRequest {
  RouteRequest_Objective : string; RouteRequest_Kind : string; RouteRequest_Risk : string;
  RouteRequest_ExplicitURLs : list string; RouteRequest_AcceptanceCriteria : list string;
  RouteRequest_VerificationTarget : string; RouteRequest_WorkerMarginalContribution : string;
  RouteRequest_EstimatedWorkerSeconds : Z; RouteRequest_EstimatedParallelSavings : Z; RouteRequest_EstimateBasis : string;
  RouteRequest_LaneHealth : list LaneHealth; RouteRequest_IndependentSlices : Z; RouteRequest_SharedMutableState : bool;
  RouteRequest_Checkability : string; RouteRequest_Topology : string; RouteRequest_RuntimeVerifierStatus : string;
}.
#[export] Instance RouteRequest_eta : Eta RouteRequest := λ r, mkRouteRequest (r.(RouteRequest_Objective)) (r.(RouteRequest_Kind))
  (r.(RouteRequest_Risk)) (r.(RouteRequest_ExplicitURLs)) (r.(RouteRequest_AcceptanceCriteria)) (r.(RouteRequest_VerificationTarget))
  (r.(RouteRequest_WorkerMarginalContribution)) (r.(RouteRequest_EstimatedWorkerSeconds)) (r.(RouteRequest_EstimatedParallelSavings))
  (r.(RouteRequest_EstimateBasis)) (r.(RouteRequest_LaneHealth)) (r.(RouteRequest_IndependentSlices)) (r.(RouteRequest_SharedMutableState))
  (r.(RouteRequest_Checkability)) (r.(RouteRequest_Topology)) (r.(RouteRequest_RuntimeVerifierStatus)).

Record Lane : Type := mkLane { Lane_Model : string; Lane_Effort : string; Lane_Role : string; Lane_Tool : string }.

Record RouteFactors : Type := mkRouteFactors {
  RouteFactors_Ambiguity : string; RouteFactors_Coupling : string; RouteFactors_StateDepth : string;
  RouteFactors_SemanticRisk : string; RouteFactors_Checkability : string; RouteFactors_ExpectedRework : string;
  RouteFactors_ContextDuplication : string;
}.

Record AcceptanceContract : Type := mkAcceptanceContract {
  AcceptanceContract_Ready : bool; AcceptanceContract_Criteria : list string;
  AcceptanceContract_VerificationTarget : string; AcceptanceContract_Boundary : string;
}.

Record SurfaceSnapshot : Type := mkSurfaceSnapshot {
  SurfaceSnapshot_Client : string; SurfaceSnapshot_LeadLane : string; SurfaceSnapshot_WorkerLane : string;
  SurfaceSnapshot_WorkerOverrideEvidence : string; SurfaceSnapshot_MaximumConcurrentRuns : Z;
  SurfaceSnapshot_AccountingComparability : string; SurfaceSnapshot_LaneHealth : list LaneHealth;
}.

Record Candidate : Type := mkCandidate {
  Candidate_Name : string; Candidate_Lane : Lane; Candidate_Qualified : bool; Candidate_RelativeIntensity : string;
  Candidate_Reason : string;
}.

Record EscalationStep : Type := mkEscalationStep {
  EscalationStep_Trigger : string; EscalationStep_Change : string; EscalationStep_Action : string;
}.

Record WorkerPolicy : Type := mkWorkerPolicy {
  WorkerPolicy_Mode : string; WorkerPolicy_EstimateTrust : string; WorkerPolicy_EstimatedWorkerSeconds : Z;
  WorkerPolicy_EstimatedParallelSavings : Z; WorkerPolicy_IndependentSlices : Z; WorkerPolicy_RootOwnedSlices : Z;
  WorkerPolicy_MaxWorkerStarts : Z; WorkerPolicy_MaxWorkerDeadlineMS : Z;
}.
#[export] Instance WorkerPolicy_eta : Eta WorkerPolicy := λ r, mkWorkerPolicy (r.(WorkerPolicy_Mode)) (r.(WorkerPolicy_EstimateTrust))
  (r.(WorkerPolicy_EstimatedWorkerSeconds)) (r.(WorkerPolicy_EstimatedParallelSavings)) (r.(WorkerPolicy_IndependentSlices))
  (r.(WorkerPolicy_RootOwnedSlices)) (r.(WorkerPolicy_MaxWorkerStarts)) (r.(WorkerPolicy_MaxWorkerDeadlineMS)).

(** The [Plan] of the router, as it is made by [PlanRoute]. *)
Record RoutePlan : Type := mkRoutePlan {
  RoutePlan_Kind : string; RoutePlan_Risk : string; RoutePlan_Action : string; RoutePlan_Supervisor : Lane;
  RoutePlan_SelectedLane : Lane; RoutePlan_Reason : string; RoutePlan_Surface : SurfaceSnapshot; RoutePlan_Factors : RouteFactors;
  RoutePlan_Acceptance : AcceptanceContract; RoutePlan_Candidates : list Candidate; RoutePlan_EvidenceBasis : string;
  RoutePlan_AccountingUnit : string; RoutePlan_DurableDefault : bool; RoutePlan_AdoptionRule : string;
  RoutePlan_WorkerAdmissible : bool; RoutePlan_WorkerRejectionReasons : list string; RoutePlan_WorkerPolicy : WorkerPolicy;
  RoutePlan_Verification : string; RoutePlan_ResidualReview : string; RoutePlan_Escalation : list EscalationStep;
  RoutePlan_StopCondition : string; RoutePlan_BlockedCapability : string;
}.

Record RouteDecision : Type := mkRouteDecision {
  RouteDecision_Kind : string; RouteDecision_Risk : string; RouteDecision_Profile : Profile; RouteDecision_Reason : string;
  RouteDecision_CostClass : string; RouteDecision_Escalation : string; RouteDecision_RouteAction : string; RouteDecision_Tool : string;
  RouteDecision_EvidenceBasis : string; RouteDecision_Plan : RoutePlan;
}.

(** The lower case of a text, and the variable CLAUDEX_THREAD_EFFORT of the environment. *)
Class RouterEnv : Type := { router_ToLower : string → string; launchEffort : string }.

Definition size (s : string) : Z := Z.of_nat (String.length s).

(** * URLs in a text *)

(** [^\s<>()\[\]{}Q'] where Q is the double quote (byte 34). *)
Definition urlByte (c : Ascii.ascii) : bool :=
  negb (existsb (Ascii.eqb c) (bytes [9; 10; 12; 13; 32; 60; 62; 40; 41; 91; 93; 123; 125; 34; 39])).

(** The longest run of such bytes, and what is after it. *)
Fixpoint takeRun (s : string) : string * string :=
  match s with
  | String c s' => if urlByte c then let '(run, rest) := takeRun s' in (String c run, rest) else (EmptyString, s)
  | EmptyString => (EmptyString, EmptyString)
  end.

Definition urlScheme (s : string) : option string :=
  if strings_HasPrefix s "https://" then Some "https://"
  else if strings_HasPrefix s "http://" then Some "http://" else None.

(** The match of [urlPattern] at the start of a text. *)
Definition urlHere (s : string) : option (string * string) :=
  match urlScheme s with
  | Some scheme =>
      let '(run, rest) := takeRun (String.substring (String.length scheme) (String.length s) s) in
      if run == "" then None else Some (scheme +:+ run, rest)
  | None => None
  end.

(** [FindAllString] with at most [n] matches; every round drops a byte. *)
Fixpoint findURLs (fuel n : nat) (s : string) : list string :=
  match fuel, n, s with
  | Datatypes.S fuel, Datatypes.S n', String _ s' =>
      match urlHere s with
      | Some (url, rest) => url :: findURLs fuel n' rest
      | None => findURLs fuel n s'
      end
  | _, _, _ => []
  end.
Definition FindAllString (s : string) (n : nat) : list string := findURLs (String.length s) n s.
Definition MatchString (s : string) : bool := (0 <? length (FindAllString s 1)).

Lemma takeRun_length s : String.length (takeRun s).2 ≤ String.length s.
Proof. induction s as [|c s IH]; cbn; [lia|]. destruct (urlByte c), (takeRun s); cbn in *; lia. Qed.

Lemma substring_length n m s : String.length (String.substring n m s) ≤ String.length s - n.
Proof.
  revert n m. induction s as [|c s IH]; intros [|n] [|m]; cbn; try lia.
  - pose proof (IH 0 m). lia.
  - pose proof (IH n 0). lia.
  - pose proof (IH n (S m)). lia.
Qed.

Lemma urlHere_shorter s url rest : urlHere s = Some (url, rest) → String.length rest < String.length s.
Proof.
  unfold urlHere. destruct (urlScheme s) as [scheme|] eqn:E; [|done].
  pose proof (takeRun_length (String.substring (String.length scheme) (String.length s) s)) as H1.
  pose proof (substring_length (String.length scheme) (String.length s) s) as H2.
  destruct (takeRun _) as [run rest']; cbn in *. case_match; [done|]. intros [= _ <-].
  unfold urlScheme in E. destruct s as [|c s]; [done|].
  repeat case_match; simplify_eq; cbn in *; lia.
Qed.

(** More fuel gives the same matches. *)
Lemma findURLs_fuel k m n s :
  String.length s ≤ k → String.length s ≤ m → findURLs k n s = findURLs m n s.
Proof.
  revert m n s. induction k as [|k IH]; intros [|m] [|n] [|c s] Hk Hm; cbn in Hk, Hm; try lia; try done.
  cbn [findURLs]. destruct (urlHere (String c s)) as [[url rest]|] eqn:E; [|apply IH; lia].
  apply urlHere_shorter in E. cbn in E. f_equal. apply IH; lia.
Qed.

(** * Inference *)

Definition containsAny (s : string) (values : list string) : bool :=
  existsb (λ v, (s == v) || strings_Contains s v) values.

Definition validKind (kind : string) : bool :=
  existsb (String.eqb kind) [KindGeneral; KindQuick; KindHard; KindImplement; KindComplexImplement; KindExplore; KindFastResearch;
    KindDeepResearch; KindRealtime; KindChinese; KindLongContext; KindFindThread; KindReadThread].

Definition candidateIntensity (candidates : list Candidate) (action : string) : string :=
  let target := if action == ActionDirect then "cheapest_plausible_single_agent" else "routed_route" in
  match List.find (λ candidate, candidate.(Candidate_Name) == target) candidates with
  | Some candidate => candidate.(Candidate_RelativeIntensity)
  | None => "unknown"
  end.

Definition laneUnavailable (values : list LaneHealth) (tool : string) : bool :=
  existsb (λ value, (value.(LaneHealth_Tool) == tool) && (value.(LaneHealth_Status) == "unavailable")) values.

Definition stopCondition (blockedCapability : string) : string :=
  if blockedCapability != "" then
    "stop and report the quarantined capability plus repair evidence required; do not silently fallback"
  else "stop immediately when the frozen acceptance contract and required residual review pass".

Definition verificationInstruction (target : string) : string :=
  let target := strings_TrimSpace target in
  if target == "" then
    "no concrete verification target supplied; keep execution direct unless the route is only a read-only capability gap"
  else "run the frozen verification target before residual semantic review: " +:+ target.

(** * Normalising *)

Definition normalizeCriterion (s : gset string * list string) (value : string) : result (gset string * list string) :=
  let '(seen, out) := s in
  let value := strings_TrimSpace value in
  if value == "" then Ok s else
  fail_if (1000 <? size value)%Z (Errorf "each acceptance criterion must be at most 1000 bytes" []) ;;
  Ok (if bool_decide (value ∈ seen) then s else ({[ value ]} ∪ seen, out ++ [value])).
Definition normalizeCriteria (values : list string) : result (list string) :=
  fail_if (12 <? length values) (Errorf "acceptance_criteria are capped at 12 entries" []) ;;
  '(_, out) ← for_each normalizeCriterion (∅, []) values;
  Ok out.

Definition knownTools : list string :=
  ["start_worker"; "search_external"; "digest_urls"; "explore_repository"; "consult_native_claude"; "find_thread"; "read_thread"].

Definition normalizeHealth (byTool : gmap string LaneHealth) (value : LaneHealth) : result (gmap string LaneHealth) :=
  let value := value <| LaneHealth_Tool := strings_TrimSpace value.(LaneHealth_Tool) |>
                     <| LaneHealth_Status := strings_TrimSpace value.(LaneHealth_Status) |>
                     <| LaneHealth_FailureClass := strings_TrimSpace value.(LaneHealth_FailureClass) |> in
  fail_if (negb (existsb (String.eqb value.(LaneHealth_Tool)) knownTools))
    (Errorf "unsupported lane_health tool %q" [AStr value.(LaneHealth_Tool)]) ;;
  fail_if ((value.(LaneHealth_Status) != "healthy") && (value.(LaneHealth_Status) != "degraded") && (value.(LaneHealth_Status) != "unavailable"))
    (Errorf "lane_health status for %s must be healthy, degraded, or unavailable" [AStr value.(LaneHealth_Tool)]) ;;
  fail_if ((2000 <? size value.(LaneHealth_Reason))%Z || (128 <? size value.(LaneHealth_FailureClass))%Z)
    (Errorf "lane_health evidence exceeds bounded field limits" []) ;;
  Ok (<[value.(LaneHealth_Tool) := value]> byTool).
Definition normalizeLaneHealth (values : list LaneHealth) : result (list LaneHealth) :=
  fail_if (8 <? length values) (Errorf "lane_health is capped at 8 entries" []) ;;
  byTool ← for_each normalizeHealth ∅ values;
  Ok (omap (λ tool, byTool !! tool) (merge_sort byteOrder (fst <$> map_to_list byTool))).

(** * Admitting Workers *)

Definition workerLane : Lane := mkLane "grok-4.5" "high" "worker" "start_worker".

(** A reason is given when its condition holds. *)
Definition reasonIf (condition : bool) (reason : string) : list string := if condition then [reason] else [].

Definition workerRejectionReasons (request : RouteRequest) (factors : RouteFactors) : list string :=
  reasonIf (length request.(RouteRequest_AcceptanceCriteria) =? 0) "no observable acceptance criteria were fixed" ++
  reasonIf (strings_TrimSpace request.(RouteRequest_VerificationTarget) == "") "no concrete verification target was fixed" ++
  reasonIf (request.(RouteRequest_IndependentSlices) =? 0)%Z "no independent slice was declared" ++
  reasonIf ((request.(RouteRequest_Topology) == "auto") && (request.(RouteRequest_IndependentSlices) <? 2)%Z)
    "automatic delegation requires at least two independent slices so the Supervisor retains useful work" ++
  reasonIf (strings_TrimSpace request.(RouteRequest_WorkerMarginalContribution) == "")
    "no marginal contribution was declared for the Worker" ++
  reasonIf (request.(RouteRequest_EstimatedWorkerSeconds) <? 90)%Z
    "estimated useful work per Worker is below the 90-second delegation threshold" ++
  reasonIf (request.(RouteRequest_EstimatedParallelSavings) <? 45)%Z
    "estimated critical-path savings is below the 45-second delegation threshold" ++
  reasonIf (strings_TrimSpace request.(RouteRequest_EstimateBasis) == "")
    "no task-local estimate basis was supplied; unknown ROI stays Supervisor-direct" ++
  reasonIf request.(RouteRequest_SharedMutableState) "candidate work shares mutable state" ++
  reasonIf (factors.(RouteFactors_Checkability) == "semantic") "the slice lacks an affordable objective or partial verifier" ++
  reasonIf ((request.(RouteRequest_RuntimeVerifierStatus) != "") && (request.(RouteRequest_RuntimeVerifierStatus) != "available") &&
            (request.(RouteRequest_RuntimeVerifierStatus) != "available_fallback"))
    ("the Root verifier is not executable in the current project environment (status=" +:+
     request.(RouteRequest_RuntimeVerifierStatus) +:+ ")") ++
  reasonIf (factors.(RouteFactors_ContextDuplication) == "high") "the slice would duplicate most lead context" ++
  reasonIf (laneUnavailable request.(RouteRequest_LaneHealth) "start_worker")
    "start_worker is quarantined by observed runtime evidence".

Definition buildWorkerPolicy (request : RouteRequest) (action : string) : WorkerPolicy :=
  let slices := request.(RouteRequest_IndependentSlices) in
  let policy := mkWorkerPolicy "direct" "caller_advisory_unattested" request.(RouteRequest_EstimatedWorkerSeconds)
                  request.(RouteRequest_EstimatedParallelSavings) slices 0 0 0 in
  if action != ActionWorker then policy else
  let policy := policy <| WorkerPolicy_Mode := "bounded_speculation" |> <| WorkerPolicy_MaxWorkerDeadlineMS := 180000%Z |>
                       <| WorkerPolicy_RootOwnedSlices := 1%Z |> <| WorkerPolicy_MaxWorkerStarts := i64 (slices - 1) |> in
  let policy := if (2 <? policy.(WorkerPolicy_MaxWorkerStarts))%Z then policy <| WorkerPolicy_MaxWorkerStarts := 2%Z |> else policy in
  let policy := if request.(RouteRequest_Topology) == "worker" then
                  policy <| WorkerPolicy_Mode := "user_mandated_bounded" |> <| WorkerPolicy_RootOwnedSlices := 0%Z |>
                         <| WorkerPolicy_MaxWorkerStarts := slices |> <| WorkerPolicy_MaxWorkerDeadlineMS := 300000%Z |>
                else policy in
  if (policy.(WorkerPolicy_MaxWorkerStarts) <? 0)%Z then policy <| WorkerPolicy_MaxWorkerStarts := 0%Z |> else policy.

Definition chooseAction (request : RouteRequest) (urls : list string) (workerAdmissible : bool) (supervisor : Lane)
  : string * Lane * string :=
  let kind := request.(RouteRequest_Kind) in
  if request.(RouteRequest_Topology) == "direct" then
    (ActionDirect, supervisor, "direct topology was explicitly requested and preserves the acceptance contract")
  else if kind == KindFindThread then
    (ActionCapability, mkLane supervisor.(Lane_Model) supervisor.(Lane_Effort) "local_thread_index" "find_thread",
     "the missing context is a prior Thread identity; use the zero-model local index before spending tokens on read_thread")
  else if kind == KindReadThread then
    (ActionCapability, mkLane "glm-5.2" "" "read_thread" "read_thread",
     "a prior local Thread is the concrete missing context; use one bounded GLM extraction instead of copying the transcript into the Supervisor")
  else if (0 <? length urls) || (kind == KindFastResearch) then
    (ActionCapability, mkLane "gemini-3.5-flash" "medium" "url_digest" "digest_urls",
     "explicit URLs need bounded extraction, not search or Worker fan-out")
  else if (kind == KindRealtime) || (kind == KindDeepResearch) then
    (ActionCapability, mkLane "grok-4.5" "high" "external_search" "search_external",
     "external/current evidence is the concrete missing capability; the Sol supervisor retains synthesis")
  else if kind == KindExplore then
    (ActionCapability, mkLane "gpt-5.6-terra" "high" "repo_explore" "explore_repository",
     "repository location and dependency evidence is the concrete missing capability")
  else if kind == KindLongContext then
    (ActionCapability, mkLane "sonnet[1m]" "high" "native_claude" "consult_native_claude",
     "the context requirement exceeds the root lane; use one bounded native 1M consultation and return evidence")
  else if (request.(RouteRequest_Topology) == "worker") || ((request.(RouteRequest_Topology) == "auto") && workerAdmissible) then
    (ActionWorker, workerLane, "an explicit independent, checkable slice can avoid duplicating Supervisor implementation")
  else (ActionDirect, supervisor, "no qualified capability gap or net-useful independent Worker slice was established").

(** The lane, the qualification, the intensity and the reason of the routed candidate. *)
Definition routedCandidate (action : string) (selected : Lane) (workerAdmissible : bool) (workerReasons : list string) : Candidate :=
  let reasons := strings_Join workerReasons "; " in
  switch action
    [(ActionCapability,
       if selected.(Lane_Tool) == "find_thread" then
         mkCandidate "routed_route" selected true "minimal_zero_model_local_scan"
           "one bounded local transcript scan returns candidate IDs without a child model or duplicated Supervisor context"
       else mkCandidate "routed_route" selected true "lower_for_bounded_gap"
              "one specialist answers only the bounded capability gap; Supervisor context is not duplicated");
     (ActionWorker, mkCandidate "routed_route" selected workerAdmissible "potentially_lower_if_first_pass_accepts"
        "one independent Worker avoids declared Supervisor work; coordination, verification, retries, and rescue remain counted");
     (ActionBlocked, mkCandidate "routed_route" selected false "unavailable"
        "the required capability is quarantined; no silent substitute is qualified");
     (ActionDirect, mkCandidate "routed_route" workerLane false "not_qualified"
        (if reasons == "" then "no qualified independent routed slice was established" else reasons))]
    (mkCandidate "routed_route" selected false "not_qualified" reasons).

Definition compareCandidates (action : string) (selected supervisor : Lane) (workerAdmissible : bool) (workerReasons : list string)
  : list Candidate :=
  [ mkCandidate "current_single_agent" supervisor true "baseline" "fixed Claude X supervisor lane";
    mkCandidate "cheapest_plausible_single_agent" supervisor true "baseline"
      "no cheaper in-session single-agent lead has verified non-inferiority and an actionable switch; keep the current qualified Supervisor";
    routedCandidate action selected workerAdmissible workerReasons ].

Section router.
Context {router : RouterEnv}.

Definition infer (task : string) : string :=
  let t := router_ToLower task in
  if containsAny t ["find thread"; "find-thread"; "find_thread"; "search threads"; "which thread"; "查找 thread"; "搜索 thread";
                    "找到 thread"; "哪个 thread"; "查找线程"; "搜索线程"; "找到哪个线程"] then KindFindThread
  else if strings_Contains t "ampcode.com/threads/" then KindFastResearch
  else if containsAny t ["claudex-threads.ppop.workers.dev/#/thread/"; "#/thread/"; "read thread"; "read-thread"; "读取 thread"; "读取线程";
                    "历史 thread"; "previous claude x thread"; "prior claude x thread"] then KindReadThread
  else if MatchString t then KindFastResearch
  else if containsAny t ["latest"; "today"; "current news"; "x.com"; "twitter"; "实时"; "最新"; "新闻"] then KindRealtime
  else if containsAny t ["explore"; "locate"; "where is"; "dependency"; "repository map"; "探索"; "定位"; "依赖"] then KindExplore
  else if containsAny t ["research"; "compare sources"; "literature"; "调研"; "资料"; "多源"] then KindDeepResearch
  else if containsAny t ["implement"; "fix"; "refactor"; "test"; "optimize"; "upgrade"; "实现"; "修复"; "重构"; "测试"; "优化"; "升级"] then
    if containsAny t ["architecture"; "migration"; "cross-module"; "complex"; "workflow"; "router"; "架构"; "迁移"; "跨模块"; "复杂"; "工作流"; "路由"]
    then KindComplexImplement else KindImplement
  else if containsAny t ["huge context"; "1m"; "large repository"; "超长上下文"; "大型仓库"] then KindLongContext
  else if containsAny t ["hardest"; "proof"; "irreversible"; "极难"; "证明"; "不可逆"] then KindHard
  else KindGeneral.

Definition inferCheckability (task kind : string) : string :=
  let t := router_ToLower task in
  if containsAny t ["go test"; "npm test"; "pytest"; "lint"; "typecheck"; "build"; "schema"; "exact"; "测试通过"; "构建通过"; "精确"]
  then "objective"
  else if existsb (String.eqb kind) [KindImplement; KindComplexImplement; KindExplore; KindFastResearch; KindRealtime; KindFindThread; KindReadThread]
  then "partial" else "semantic".

Definition analyzeFactors (request : RouteRequest) : RouteFactors :=
  let t := router_ToLower request.(RouteRequest_Objective) in
  let kind := request.(RouteRequest_Kind) in
  let ambiguity :=
    if containsAny t ["exact"; "only"; "specific"; "明确"; "仅"; "只需"] then "low"
    else if containsAny t ["best"; "improve"; "optimize"; "strategy"; "better"; "最好"; "优化"; "策略"; "更好"] then "high" else "medium" in
  let coupling :=
    if request.(RouteRequest_SharedMutableState) then "high"
    else if (0 <? request.(RouteRequest_IndependentSlices))%Z then "low"
    else if kind == KindComplexImplement then "high" else "medium" in
  let stateDepth :=
    if existsb (String.eqb kind) [KindQuick; KindFastResearch; KindRealtime; KindExplore; KindFindThread; KindReadThread] then "low"
    else if existsb (String.eqb kind) [KindComplexImplement; KindHard; KindLongContext] then "high" else "medium" in
  let semanticRisk :=
    if (request.(RouteRequest_Risk) == "high") || (kind == KindHard) ||
       containsAny t ["irreversible"; "security"; "payment"; "production"; "不可逆"; "安全"; "支付"; "生产"] then "high"
    else if kind == KindQuick then "low" else "normal" in
  let contextDuplication :=
    if request.(RouteRequest_SharedMutableState) || (kind == KindLongContext) then "high"
    else if (0 <? request.(RouteRequest_IndependentSlices))%Z then "low"
    else if kind == KindComplexImplement then "high" else "medium" in
  let expectedRework :=
    if (ambiguity == "high") || (coupling == "high") || (semanticRisk == "high") then "high"
    else if (ambiguity == "low") && (request.(RouteRequest_Checkability) == "objective") then "low" else "medium" in
  mkRouteFactors ambiguity coupling stateDepth semanticRisk request.(RouteRequest_Checkability) expectedRework contextDuplication.

Definition supervisorEffort : string :=
  let effort := router_ToLower (strings_TrimSpace launchEffort) in
  if existsb (String.eqb effort) ["medium"; "high"; "xhigh"] then effort else "high".
Definition supervisorLane : Lane := mkLane "gpt-5.6-sol" supervisorEffort "supervisor" "".

(** * Planning a route *)

Definition orDefault (value default : string) : string := if value == "" then default else value.

(** The checks of [PlanRoute] on the scalar fields, giving the request with its defaults. *)
Definition checkRequest (request : RouteRequest) : result RouteRequest :=
  let objective := strings_TrimSpace request.(RouteRequest_Objective) in
  fail_if (objective == "") (Errorf "objective is required" []) ;;
  fail_if (8000 <? size objective)%Z (Errorf "objective exceeds 8000 bytes" []) ;;
  let risk := orDefault request.(RouteRequest_Risk) "normal" in
  fail_if ((risk != "normal") && (risk != "high")) (Errorf "risk must be normal or high" []) ;;
  let kind := if (request.(RouteRequest_Kind) == "") || (request.(RouteRequest_Kind) == KindAuto) then infer objective
              else request.(RouteRequest_Kind) in
  fail_if (negb (validKind kind)) (Errorf "unsupported kind %q" [AStr kind]) ;;
  let checkability := if (request.(RouteRequest_Checkability) == "") || (request.(RouteRequest_Checkability) == "auto")
                      then inferCheckability objective kind else request.(RouteRequest_Checkability) in
  fail_if ((checkability != "objective") && (checkability != "partial") && (checkability != "semantic"))
    (Errorf "checkability must be auto, objective, partial, or semantic" []) ;;
  let topology := orDefault request.(RouteRequest_Topology) "auto" in
  fail_if ((topology != "auto") && (topology != "direct") && (topology != "worker"))
    (Errorf "topology must be auto, direct, or worker" []) ;;
  fail_if ((request.(RouteRequest_IndependentSlices) <? 0)%Z || (3 <? request.(RouteRequest_IndependentSlices))%Z)
    (Errorf "independent_slices must be between 0 and 3" []) ;;
  fail_if ((request.(RouteRequest_EstimatedWorkerSeconds) <? 0)%Z || (86400 <? request.(RouteRequest_EstimatedWorkerSeconds))%Z)
    (Errorf "estimated_worker_seconds must be between 0 and 86400" []) ;;
  fail_if ((request.(RouteRequest_EstimatedParallelSavings) <? 0)%Z || (86400 <? request.(RouteRequest_EstimatedParallelSavings))%Z)
    (Errorf "estimated_parallel_savings_seconds must be between 0 and 86400" []) ;;
  let basis := strings_TrimSpace request.(RouteRequest_EstimateBasis) in
  fail_if (2000 <? size basis)%Z (Errorf "estimate_basis exceeds 2000 bytes" []) ;;
  Ok (request <| RouteRequest_Objective := objective |> <| RouteRequest_Risk := risk |> <| RouteRequest_Kind := kind |>
              <| RouteRequest_Checkability := checkability |> <| RouteRequest_Topology := topology |>
              <| RouteRequest_EstimateBasis := basis |>).

Definition routeURLs (request : RouteRequest) : result (list string) :=
  let urls := if (length request.(RouteRequest_ExplicitURLs) =? 0) then FindAllString request.(RouteRequest_Objective) 8
              else request.(RouteRequest_ExplicitURLs) in
  fail_if (8 <? length urls) (Errorf "explicit URLs are capped at 8" []) ;; Ok urls.

(** The checks on its texts and on the health of the lanes. *)
Definition normalizeRequest (request : RouteRequest) : result RouteRequest :=
  criteria ← normalizeCriteria request.(RouteRequest_AcceptanceCriteria);
  let target := strings_TrimSpace request.(RouteRequest_VerificationTarget) in
  let contribution := strings_TrimSpace request.(RouteRequest_WorkerMarginalContribution) in
  fail_if (4000 <? size target)%Z (Errorf "verification_target exceeds 4000 bytes" []) ;;
  fail_if (4000 <? size contribution)%Z (Errorf "worker_marginal_contribution exceeds 4000 bytes" []) ;;
  health ← normalizeLaneHealth request.(RouteRequest_LaneHealth);
  Ok (request <| RouteRequest_AcceptanceCriteria := criteria |> <| RouteRequest_VerificationTarget := target |>
              <| RouteRequest_WorkerMarginalContribution := contribution |> <| RouteRequest_LaneHealth := health |>).

Definition escalationLadder : list EscalationStep :=
  [ mkEscalationStep "missing_or_conflicting_context" "prompt_context" "repair only the missing context; keep lane, tools, and topology fixed";
    mkEscalationStep "transient_start_or_tool_failure" "retry"
      "retry the same lane once only when runtime marks it retryable and no side effect occurred";
    mkEscalationStep "clear_task_but_insufficient_checking" "effort" "raise effort one supported level for only the failing workstream";
    mkEscalationStep "reasoning_ambiguity_or_state_tracking_mismatch" "lane"
      "escalate only the unresolved slice, then return to the cheaper qualified lane" ].

(** The end of [PlanRoute]: the plan of a request that was checked. *)
Definition planOf (request : RouteRequest) (factors : RouteFactors) (workerReasons : list string) (urls : list string) : RoutePlan :=
  let workerAdmissible := (length workerReasons =? 0) in
  let supervisor := supervisorLane in
  let '(chosen, selected, why) := chooseAction request urls workerAdmissible supervisor in
  let workerPolicy := buildWorkerPolicy request chosen in
  let blocked := (selected.(Lane_Tool) != "") && laneUnavailable request.(RouteRequest_LaneHealth) selected.(Lane_Tool) in
  let blockedCapability := if blocked then selected.(Lane_Tool) else "" in
  let action := if blocked then ActionBlocked else chosen in
  let reason := if blocked then "required capability " +:+ selected.(Lane_Tool) +:+
                  " is quarantined by observed runtime evidence; do not fallback or repeat it until the lane is repaired and a health canary passes"
                else why in
  let candidates := compareCandidates action selected supervisor workerAdmissible workerReasons in
  let residual := if (request.(RouteRequest_Risk) == "high") || (factors.(RouteFactors_SemanticRisk) == "high")
                  then "after deterministic PASS, use one fresh-context review only for material unencoded semantic risk"
                  else "review only acceptance properties not encoded by the deterministic verifier" in
  let evidenceBasis := if (request.(RouteRequest_Topology) == "worker") || (request.(RouteRequest_Topology) == "direct")
                       then "user_mandated_topology" else "one_off_task_shape_heuristic" in
  mkRoutePlan request.(RouteRequest_Kind) request.(RouteRequest_Risk) action supervisor selected reason
    (mkSurfaceSnapshot "Claude Code via Claude X" ("gpt-5.6-sol/" +:+ supervisor.(Lane_Effort)) "grok-4.5/high"
       "pinned request plus resolved-model verification" 3 "mixed subscription and gateway signals; no single comparable spend unit"
       request.(RouteRequest_LaneHealth))
    factors
    (mkAcceptanceContract ((0 <? length request.(RouteRequest_AcceptanceCriteria)) && (request.(RouteRequest_VerificationTarget) != ""))
       request.(RouteRequest_AcceptanceCriteria) request.(RouteRequest_VerificationTarget)
       "criteria and verification are frozen for this route; a real scope replacement requires a new route")
    candidates evidenceBasis "relative_resource_intensity" false
    "promote a route only after predeclared representative runs meet the frozen acceptance contract and non-inferiority threshold"
    workerAdmissible workerReasons workerPolicy (verificationInstruction request.(RouteRequest_VerificationTarget)) residual
    escalationLadder (stopCondition blockedCapability) blockedCapability.

Definition PlanRoute (request : RouteRequest) : result RoutePlan :=
  request ← checkRequest request;
  urls ← routeURLs request;
  request ← normalizeRequest request;
  let factors := analyzeFactors request in
  let workerReasons := workerRejectionReasons request factors in
  fail_if ((request.(RouteRequest_Topology) == "worker") && negb (length workerReasons =? 0))
    (Errorf "mandatory worker topology is not admissible: %s" [AStr (strings_Join workerReasons "; ")]) ;;
  Ok (planOf request factors workerReasons urls).

(** * A decision for one lane *)

Definition RouteRequest_of (task kind risk : string) : RouteRequest :=
  mkRouteRequest task kind risk [] [] "" "" 0 0 "" [] 0 false "" "" "".

Definition Decide (task kind risk modelOverride effortOverride : string) : result RouteDecision :=
  plan ← PlanRoute (RouteRequest_of task kind risk);
  let overridden := modelOverride != "" in
  let selected := if overridden then mkLane modelOverride "" "explicit_single_lane" "" else plan.(RoutePlan_SelectedLane) in
  let reason := if overridden then "explicit model override; automatic route comparison is advisory only" else plan.(RoutePlan_Reason) in
  let evidenceBasis := if overridden then "user_override" else plan.(RoutePlan_EvidenceBasis) in
  p ← non_nil (catalog_Get selected.(Lane_Model)) (Errorf "unknown model %q" [AStr selected.(Lane_Model)]);
  let p := if selected.(Lane_Effort) != "" then p <| Profile_DefaultEffort := selected.(Lane_Effort) |> else p in
  p ← (if effortOverride != "" then ValidateEffort p effortOverride ;; Ok (p <| Profile_DefaultEffort := effortOverride |>) else Ok p);
  match plan.(RoutePlan_Escalation) with
  | firstEscalation :: _ =>
      Ok (mkRouteDecision plan.(RoutePlan_Kind) plan.(RoutePlan_Risk) p reason
            ("relative:" +:+ candidateIntensity plan.(RoutePlan_Candidates) plan.(RoutePlan_Action))
            firstEscalation.(EscalationStep_Action) plan.(RoutePlan_Action) selected.(Lane_Tool) evidenceBasis plan)
  | [] => Panic
  end.

End router.
