(* ===== verification/RouterSafety.v ===== *)
(** What the routes of the router guarantee: a Worker is admitted only within its bounds,
    an unavailable lane is never used or replaced, and a decision can be run. *)
From stdpp Require Import sorting gmap.
From S2P Require Import Prelude Sql Paths Router.

(** * Checking *)

Lemma reasonIf_nil condition reason : reasonIf condition reason = [] ↔ condition = false.
Proof. by destruct condition. Qed.

Lemma one_of_three x a b c : (x != a) && (x != b) && (x != c) = false → x ∈ [a; b; c].
Proof.
  destruct (String.eqb_spec x a) as [->|]; [by left|]. destruct (String.eqb_spec x b) as [->|]; [by right; left|].
  destruct (String.eqb_spec x c) as [->|]; [by right; right; left|done].
Qed.

(** What a checked request has. *)
Record checked (request request' : RouteRequest) : Prop := {
  checked_slices : (0 ≤ request'.(RouteRequest_IndependentSlices) ≤ 3)%Z;
  checked_topology : request'.(RouteRequest_Topology) = orDefault request.(RouteRequest_Topology) "auto";
  checked_topologies : request'.(RouteRequest_Topology) ∈ ["auto"; "direct"; "worker"];
  checked_same : request' = request <| RouteRequest_Objective := request'.(RouteRequest_Objective) |>
    <| RouteRequest_Risk := request'.(RouteRequest_Risk) |> <| RouteRequest_Kind := request'.(RouteRequest_Kind) |>
    <| RouteRequest_Checkability := request'.(RouteRequest_Checkability) |>
    <| RouteRequest_Topology := request'.(RouteRequest_Topology) |>
    <| RouteRequest_EstimateBasis := strings_TrimSpace request.(RouteRequest_EstimateBasis) |>;
}.

Section router.
Context {router : RouterEnv}.

Lemma checkRequest_inv request request' : checkRequest request = Ok request' → checked request request'.
Proof.
  unfold checkRequest. cbv zeta. intros H. repeat (apply bind_Ok in H as ([] & ?%fail_if_Ok & H)). injection H as <-.
  split; cbn; [|done| |done].
  - match goal with H : (_ || (3 <? _)%Z) = false |- _ => apply orb_false_iff in H as [?%Z.ltb_ge ?%Z.ltb_ge]; lia end.
  - by apply one_of_three.
Qed.

(** ** The health of lanes *)

Definition lastReport (values : list LaneHealth) (tool : string) : option LaneHealth :=
  List.last (Some <$> List.filter (λ v, strings_TrimSpace v.(LaneHealth_Tool) == tool) values) None.

(** The last report of a tool says that it is unavailable. *)
Definition reportedDown (values : list LaneHealth) (tool : string) : bool :=
  match lastReport values tool with
  | Some v => strings_TrimSpace v.(LaneHealth_Status) == "unavailable"
  | None => false
  end.

Lemma lastReport_snoc values v tool :
  lastReport (values ++ [v]) tool = if strings_TrimSpace v.(LaneHealth_Tool) == tool then Some v else lastReport values tool.
Proof.
  unfold lastReport. rewrite List.filter_app, fmap_app. cbn. destruct (_ == tool); cbn; [by rewrite List.last_last|by rewrite app_nil_r].
Qed.

Definition trimmed (v : LaneHealth) : LaneHealth :=
  v <| LaneHealth_Tool := strings_TrimSpace v.(LaneHealth_Tool) |> <| LaneHealth_Status := strings_TrimSpace v.(LaneHealth_Status) |>
    <| LaneHealth_FailureClass := strings_TrimSpace v.(LaneHealth_FailureClass) |>.

Lemma normalizeHealth_inv byTool v byTool' :
  normalizeHealth byTool v = Ok byTool' → byTool' = <[strings_TrimSpace v.(LaneHealth_Tool) := trimmed v]> byTool ∧
  existsb (String.eqb (strings_TrimSpace v.(LaneHealth_Tool))) knownTools = true.
Proof.
  unfold normalizeHealth. cbv zeta. intros H. apply bind_Ok in H as ([] & Hk%fail_if_Ok & H).
  apply bind_Ok in H as ([] & _ & H). apply bind_Ok in H as ([] & _ & H). injection H as <-. by apply negb_false_iff in Hk.
Qed.

Lemma for_each_snoc {A S} (f : S → A → result S) s l x s' :
  for_each f s (l ++ [x]) = Ok s' → ∃ s1, for_each f s l = Ok s1 ∧ f s1 x = Ok s'.
Proof.
  revert s. induction l as [|y l IH]; intros s; cbn.
  - intros H. apply bind_Ok in H as (s1 & H & [= ->]). eauto.
  - intros H. apply bind_Ok in H as (s1 & H1 & (s2 & H2 & H3)%IH). exists s2. split; [|done]. apply bind_Ok. eauto.
Qed.

Lemma byTool_last values byTool : for_each normalizeHealth ∅ values = Ok byTool →
  ∀ tool, byTool !! tool = trimmed <$> lastReport values tool.
Proof.
  revert byTool. induction values as [|v values IH] using rev_ind; intros byTool H tool.
  - by injection H as <-.
  - apply for_each_snoc in H as (byTool1 & H1 & [-> _]%normalizeHealth_inv). rewrite lastReport_snoc.
    destruct (String.eqb_spec (strings_TrimSpace (LaneHealth_Tool v)) tool) as [->|Hne]; [by rewrite lookup_insert_eq|].
    rewrite lookup_insert_ne by done. by apply IH.
Qed.

Lemma byTool_keys values byTool tool v : for_each normalizeHealth ∅ values = Ok byTool → byTool !! tool = Some v →
  v.(LaneHealth_Tool) = tool ∧ existsb (String.eqb tool) knownTools = true.
Proof.
  revert byTool. induction values as [|x values IH] using rev_ind; intros byTool H Hv.
  - injection H as <-. done.
  - apply for_each_snoc in H as (byTool1 & H1 & [-> Hk]%normalizeHealth_inv).
    apply lookup_insert_Some in Hv as [[<- <-]|[_ Hv]]; [done|by eapply IH].
Qed.

(** A lane is unavailable when the last report about it says so. *)
Lemma laneUnavailable_spec values health tool : normalizeLaneHealth values = Ok health →
  laneUnavailable health tool = reportedDown values tool.
Proof.
  unfold normalizeLaneHealth. intros H. apply bind_Ok in H as ([] & _ & H). apply bind_Ok in H as (byTool & Hb & H). injection H as <-.
  assert (∀ v, v ∈ omap (λ tool, byTool !! tool) (merge_sort byteOrder (fst <$> map_to_list byTool)) ↔
    byTool !! v.(LaneHealth_Tool) = Some v) as Hin.
  { intros v. rewrite list_elem_of_omap. split.
    - intros (key & _ & Hv). by destruct (byTool_keys _ _ _ _ Hb Hv) as [-> _].
    - intros Hv. exists v.(LaneHealth_Tool). split; [|done]. rewrite merge_sort_Permutation.
      apply list_elem_of_fmap. exists (v.(LaneHealth_Tool), v). split; [done|]. by apply elem_of_map_to_list. }
  unfold reportedDown. pose proof (byTool_last _ _ Hb tool) as Hl.
  apply bool_true_or_false.
  - unfold laneUnavailable. intros (v & Hv%list_elem_of_In & H)%existsb_exists. apply andb_true_iff in H as [<-%String.eqb_eq Hs].
    apply Hin in Hv. rewrite Hv in Hl. destruct (lastReport _ _); [|done]. by injection Hl as ->.
  - intros Hs. unfold laneUnavailable. destruct (lastReport values tool) as [v|]; [|done]. cbn in Hl.
    apply existsb_exists. exists (trimmed v). split.
    + apply list_elem_of_In, Hin. by destruct (byTool_keys _ _ _ _ Hb Hl) as [-> _].
    + destruct (byTool_keys _ _ _ _ Hb Hl) as [-> _]. rewrite String.eqb_refl. exact Hs.
Qed.

Lemma no_nameless values health : normalizeLaneHealth values = Ok health → reportedDown values "" = false.
Proof.
  unfold normalizeLaneHealth. intros H. apply bind_Ok in H as ([] & _ & H). apply bind_Ok in H as (byTool & Hb & _).
  unfold reportedDown. pose proof (byTool_last _ _ Hb "") as Hl. destruct (lastReport values ""); [|done].
  by destruct (byTool_keys _ _ _ _ Hb Hl) as [_ ?].
Qed.

(** * Plans *)

(** What a plan is made from. *)
Lemma PlanRoute_inv request plan : PlanRoute request = Ok plan →
  ∃ request1 request2 urls, checked request request1 ∧ routeURLs request1 = Ok urls ∧ normalizeRequest request1 = Ok request2 ∧
    let factors := analyzeFactors request2 in let reasons := workerRejectionReasons request2 factors in
    (request2.(RouteRequest_Topology) = "worker" → reasons = []) ∧ plan = planOf request2 factors reasons urls.
Proof.
  unfold PlanRoute. intros H. apply bind_Ok in H as (request1 & Hc%checkRequest_inv & H). apply bind_Ok in H as (urls & Hu & H).
  apply bind_Ok in H as (request2 & Hn & H). cbv zeta in H. apply bind_Ok in H as ([] & Hm%fail_if_Ok & H). injection H as <-.
  exists request1, request2, urls. split_and!; [done..| |done]. intros Ht. rewrite Ht in Hm. cbn in Hm.
  apply negb_false_iff, Nat.eqb_eq, nil_length_inv in Hm. done.
Qed.

Lemma normalizeRequest_inv request request' : normalizeRequest request = Ok request' →
  ∃ criteria health, normalizeLaneHealth request.(RouteRequest_LaneHealth) = Ok health ∧
  request' = request <| RouteRequest_AcceptanceCriteria := criteria |>
    <| RouteRequest_VerificationTarget := strings_TrimSpace request.(RouteRequest_VerificationTarget) |>
    <| RouteRequest_WorkerMarginalContribution := strings_TrimSpace request.(RouteRequest_WorkerMarginalContribution) |>
    <| RouteRequest_LaneHealth := health |>.
Proof.
  unfold normalizeRequest. intros H. apply bind_Ok in H as (criteria & _ & H). cbv zeta in H. apply bind_Ok in H as ([] & _ & H).
  apply bind_Ok in H as ([] & _ & H). apply bind_Ok in H as (health & Hh & H). injection H as <-. eauto.
Qed.

(** ** The chosen action *)

Lemma chooseAction_inv request urls admitsWorkers action selected why :
  chooseAction request urls admitsWorkers supervisorLane = (action, selected, why) →
  (action = ActionWorker ∧ selected = workerLane ∧
     (request.(RouteRequest_Topology) = "worker" ∨ request.(RouteRequest_Topology) = "auto" ∧ admitsWorkers = true)) ∨
  action ∈ [ActionDirect; ActionCapability] ∧ selected.(Lane_Tool) ≠ "start_worker".
Proof.
  unfold chooseAction. cbv zeta. destruct (RouteRequest_Topology request == "direct"); [intros [= <- <- <-]; right; by split; [left|]|].
  destruct (_ == KindFindThread); [intros [= <- <- <-]; right; by split; [right; left|]|].
  destruct (_ == KindReadThread); [intros [= <- <- <-]; right; by split; [right; left|]|].
  destruct (_ || _); [intros [= <- <- <-]; right; by split; [right; left|]|].
  destruct (_ || _); [intros [= <- <- <-]; right; by split; [right; left|]|].
  destruct (_ == KindExplore); [intros [= <- <- <-]; right; by split; [right; left|]|].
  destruct (_ == KindLongContext); [intros [= <- <- <-]; right; by split; [right; left|]|].
  destruct (_ || _) eqn:E; intros [= <- <- <-]; [left|right; by split; [left|]].
  split_and!; [done..|]. apply orb_true_iff in E as [E%String.eqb_eq|[E%String.eqb_eq Ha]%andb_true_iff]; auto.
Qed.

(** The lane can be run: its model is in the catalog and supports its effort. *)
Definition runnable (model effort : string) : bool :=
  match catalog_Get model with Some p => is_ok (ValidateEffort p effort) | None => false end.

Lemma supervisor_runnable : runnable supervisorLane.(Lane_Model) supervisorLane.(Lane_Effort) = true.
Proof.
  cbn. unfold supervisorEffort. cbv zeta. destruct (existsb _ _) eqn:E; [|reflexivity].
  apply existsb_exists in E as (effort & Hin & E%String.eqb_eq). rewrite E. by destruct Hin as [<-|[<-|[<-|[]]]].
Qed.

Lemma chosen_runnable request urls admitsWorkers action selected why :
  chooseAction request urls admitsWorkers supervisorLane = (action, selected, why) → runnable selected.(Lane_Model) selected.(Lane_Effort) = true.
Proof.
  unfold chooseAction. cbv zeta. repeat match goal with |- (if ?c then _ else _) = _ → _ => destruct c end;
    intros [= _ <- _]; first [exact supervisor_runnable|reflexivity].
Qed.

(** ** The bounds of Workers *)

(** What the request of an admitted Worker has declared. *)
Record admitsWorkers (request : RouteRequest) (checkability : string) : Prop := {
  admissible_target : strings_TrimSpace request.(RouteRequest_VerificationTarget) ≠ "";
  admissible_contribution : strings_TrimSpace request.(RouteRequest_WorkerMarginalContribution) ≠ "";
  admissible_estimates : (90 ≤ request.(RouteRequest_EstimatedWorkerSeconds))%Z ∧ (45 ≤ request.(RouteRequest_EstimatedParallelSavings))%Z ∧
    strings_TrimSpace request.(RouteRequest_EstimateBasis) ≠ "";
  admissible_alone : request.(RouteRequest_SharedMutableState) = false;
  admissible_verifier : checkability ≠ "semantic" ∧
    request.(RouteRequest_RuntimeVerifierStatus) ∈ [""; "available"; "available_fallback"];
  admissible_lane : reportedDown request.(RouteRequest_LaneHealth) "start_worker" = false;
}.

Lemma trimSpace_not_empty s : strings_TrimSpace s ≠ "" → s ≠ "".
Proof. by intros H ->. Qed.

(** A request without a reason against a Worker. *)
Lemma workerRejectionReasons_nil request request1 request2 factors :
  checked request request1 → normalizeRequest request1 = Ok request2 → workerRejectionReasons request2 factors = [] →
  admitsWorkers request factors.(RouteFactors_Checkability) ∧ request2.(RouteRequest_AcceptanceCriteria) ≠ [] ∧
  request.(RouteRequest_IndependentSlices) ≠ 0%Z ∧
  (request1.(RouteRequest_Topology) = "auto" → (2 ≤ request.(RouteRequest_IndependentSlices))%Z).
Proof.
  intros [_ _ _ Hsame] (criteria & health & Hh & ->)%normalizeRequest_inv. rewrite Hsame in Hh |- *.
  unfold workerRejectionReasons. intros H. apply app_nil in H as [H1%reasonIf_nil H]. apply app_nil in H as [H2%reasonIf_nil H].
  apply app_nil in H as [H3%reasonIf_nil H]. apply app_nil in H as [H4%reasonIf_nil H]. apply app_nil in H as [H5%reasonIf_nil H].
  apply app_nil in H as [H6%reasonIf_nil H]. apply app_nil in H as [H7%reasonIf_nil H]. apply app_nil in H as [H8%reasonIf_nil H].
  apply app_nil in H as [H9%reasonIf_nil H]. apply app_nil in H as [H10%reasonIf_nil H]. apply app_nil in H as [H11%reasonIf_nil H].
  apply app_nil in H as [H12%reasonIf_nil H13%reasonIf_nil]. cbn in H1, H2, H3, H4, H5, H6, H7, H8.
  apply String.eqb_neq in H2, H5, H8, H10. apply Z.eqb_neq in H3. apply Z.ltb_ge in H6, H7.
  split_and!.
  - split; [by apply trimSpace_not_empty|by apply trimSpace_not_empty|by split_and!; [| |apply trimSpace_not_empty]|done| |].
    2: { rewrite <- (laneUnavailable_spec _ _ _ Hh). exact H13. }
    split; [done|]. by apply one_of_three.
  - cbn. intros E. by rewrite E in H1.
  - done.
  - cbn. intros E. rewrite E in H4. cbn in H4. by apply Z.ltb_ge in H4.
Qed.

(** The policy of a plan: every slice of an admitted route is a Worker's or the root's. *)
Record bounded (topology : string) (slices : Z) (policy : WorkerPolicy) : Prop := {
  bounded_slices : (policy.(WorkerPolicy_MaxWorkerStarts) + policy.(WorkerPolicy_RootOwnedSlices) = slices)%Z;
  bounded_starts : (1 ≤ policy.(WorkerPolicy_MaxWorkerStarts) ≤ 3)%Z;
  bounded_root : policy.(WorkerPolicy_RootOwnedSlices) = if topology == "worker" then 0%Z else 1%Z;
  bounded_deadline : policy.(WorkerPolicy_MaxWorkerDeadlineMS) = if topology == "worker" then 300000%Z else 180000%Z;
}.

Lemma policy_bounded request : (1 ≤ request.(RouteRequest_IndependentSlices) ≤ 3)%Z →
  (request.(RouteRequest_Topology) = "worker" ∨ (2 ≤ request.(RouteRequest_IndependentSlices))%Z) →
  bounded request.(RouteRequest_Topology) request.(RouteRequest_IndependentSlices) (buildWorkerPolicy request ActionWorker).
Proof.
  intros Hs Ht. unfold buildWorkerPolicy. change (ActionWorker != ActionWorker) with false. cbv zeta.
  assert (request.(RouteRequest_IndependentSlices) = 1 ∨ request.(RouteRequest_IndependentSlices) = 2 ∨ request.(RouteRequest_IndependentSlices) = 3)%Z
    as E by lia.
  destruct (String.eqb_spec (RouteRequest_Topology request) "worker") as [Et|Et].
  - rewrite Et. destruct E as [-> |[-> | ->]]; split; by vm_compute.
  - apply String.eqb_neq in Et as Hf.
    destruct E as [E|[-> | ->]]; [by destruct Ht; [|lia]| |]; split; rewrite ?Hf; by vm_compute.
Qed.

(** ** The parts of a plan *)

Lemma planOf_parts request factors reasons urls chosen selected why :
  chooseAction request urls (length reasons =? 0) supervisorLane = (chosen, selected, why) →
  let plan := planOf request factors reasons urls in
  let blocked := (selected.(Lane_Tool) != "") && laneUnavailable request.(RouteRequest_LaneHealth) selected.(Lane_Tool) in
  plan.(RoutePlan_Action) = (if blocked then ActionBlocked else chosen) ∧ plan.(RoutePlan_SelectedLane) = selected ∧
  plan.(RoutePlan_WorkerPolicy) = buildWorkerPolicy request chosen ∧
  plan.(RoutePlan_BlockedCapability) = (if blocked then selected.(Lane_Tool) else "") ∧
  plan.(RoutePlan_Acceptance).(AcceptanceContract_Criteria) = request.(RouteRequest_AcceptanceCriteria) ∧
  plan.(RoutePlan_Factors) = factors ∧
  plan.(RoutePlan_Candidates) = compareCandidates plan.(RoutePlan_Action) selected supervisorLane (length reasons =? 0) reasons ∧
  plan.(RoutePlan_Escalation) = escalationLadder.
Proof. intros E. unfold planOf. rewrite E. cbv zeta. by split_and!. Qed.

(** C33: A Worker is admitted only within its bounds. If the route of a request is a
    bounded Worker, the request fixed acceptance criteria and a verification target that
    can be checked and run, declared useful independent work that shares no state, and
    the Worker lane is not reported down; and then the Workers and the root together own
    exactly the declared slices, of which there are at most three, within the deadline,
    and the root keeps one unless the topology is mandated. Every other route starts no
    Worker. *)
Theorem workers_are_bounded request plan :
  PlanRoute request = Ok plan →
  if plan.(RoutePlan_Action) == ActionWorker then
    plan.(RoutePlan_SelectedLane) = workerLane ∧ plan.(RoutePlan_Acceptance).(AcceptanceContract_Criteria) ≠ [] ∧
    admitsWorkers request plan.(RoutePlan_Factors).(RouteFactors_Checkability) ∧
    bounded (orDefault request.(RouteRequest_Topology) "auto") request.(RouteRequest_IndependentSlices) plan.(RoutePlan_WorkerPolicy)
  else plan.(RoutePlan_WorkerPolicy).(WorkerPolicy_MaxWorkerStarts) = 0%Z.
Proof.
  intros (request1 & request2 & urls & Hc & _ & Hn & Hm & ->)%PlanRoute_inv. cbv zeta in *.
  set (factors := analyzeFactors request2) in *. set (reasons := workerRejectionReasons request2 factors) in *.
  destruct (chooseAction request2 urls (length reasons =? 0) supervisorLane) as [[chosen selected] why] eqn:E.
  destruct (planOf_parts _ factors _ _ _ _ _ E) as (-> & -> & -> & _ & -> & -> & _).
  apply normalizeRequest_inv in Hn as Hn'. destruct Hn' as (criteria & health & Hh & E2).
  apply chooseAction_inv in E as [(-> & -> & Ht)|[Hin Hne]].
  - assert (reasons = []) as Hr.
    { destruct Ht as [Ht|[_ Ht]]; [by apply Hm|]. by apply Nat.eqb_eq, nil_length_inv in Ht. }
    destruct (workerRejectionReasons_nil _ _ _ _ Hc Hn Hr) as (Ha & Hcr & Hz & H2).
    destruct (Hc) as [Hs Htop _ Hsame].
    assert (laneUnavailable (RouteRequest_LaneHealth request2) "start_worker" = false) as Hl.
    { rewrite E2. etrans; [exact (laneUnavailable_spec _ _ "start_worker" Hh)|]. rewrite Hsame. exact (admissible_lane _ _ Ha). }
    cbn [workerLane Lane_Tool]. rewrite Hl, andb_false_r. change (ActionWorker == ActionWorker) with true. cbv iota.
    split_and!; [done|exact Hcr|exact Ha|]. rewrite <- Htop.
    replace (RouteRequest_IndependentSlices request) with (RouteRequest_IndependentSlices request2) by by rewrite E2, Hsame.
    replace (RouteRequest_Topology request1) with (RouteRequest_Topology request2) by by rewrite E2.
    apply policy_bounded; rewrite E2; cbn; [rewrite Hsame in Hs |- *; cbn in *; lia|]. rewrite E2 in Ht. cbn in Ht.
    destruct Ht as [Ht|[Ht _]]; [by left|right]. rewrite Hsame. cbn. by apply H2.
  - assert (chosen ≠ ActionWorker) as Hw by (intros ->; by apply elem_of_cons in Hin as [?|[?|?%not_elem_of_nil]%elem_of_cons]).
    assert (((if (Lane_Tool selected != "") && laneUnavailable (RouteRequest_LaneHealth request2) (Lane_Tool selected)
      then ActionBlocked else chosen) == ActionWorker) = false) as ->.
    { destruct (_ && _); [done|]. by apply String.eqb_neq. }
    unfold buildWorkerPolicy. apply String.eqb_neq in Hw. by rewrite Hw.
Qed.

(** ** Plans without reports *)

(** The same request without reports about lanes. *)
Definition unreported (request : RouteRequest) : RouteRequest := request <| RouteRequest_LaneHealth := [] |>.

Lemma checkRequest_unreported request request1 :
  checkRequest request = Ok request1 → checkRequest (unreported request) = Ok (unreported request1).
Proof.
  unfold checkRequest. cbv zeta. intros H.
  repeat (apply bind_Ok in H as ([] & ?%fail_if_Ok & H); apply bind_Ok; exists tt; split; [apply fail_if_Ok; assumption|]).
  injection H as <-. reflexivity.
Qed.

Lemma normalizeRequest_unreported request request2 :
  normalizeRequest request = Ok request2 → normalizeRequest (unreported request) = Ok (unreported request2).
Proof.
  unfold normalizeRequest. intros H. apply bind_Ok in H as (criteria & Ec & H). cbv zeta in H. apply bind_Ok in H as ([] & Et%fail_if_Ok & H).
  apply bind_Ok in H as ([] & Em%fail_if_Ok & H). apply bind_Ok in H as (health & _ & H). injection H as <-.
  apply bind_Ok. exists criteria. split; [exact Ec|]. cbv zeta. do 2 (apply bind_Ok; exists tt; split; [apply fail_if_Ok; assumption|]).
  reflexivity.
Qed.

(** A report takes nothing away from the reasons against a Worker, and adds one only about
    the lane of the Workers. *)
Lemma reasons_unreported request factors : workerRejectionReasons request factors =
  workerRejectionReasons (unreported request) factors ++
  reasonIf (laneUnavailable request.(RouteRequest_LaneHealth) "start_worker") "start_worker is quarantined by observed runtime evidence".
Proof. unfold workerRejectionReasons. cbn [laneUnavailable unreported]. cbn. rewrite app_nil_r, !(assoc_L (++)). reflexivity. Qed.

(** Without a Worker, the Supervisor does the work itself. *)
Lemma chooseAction_admits request urls : let choose admits := chooseAction request urls admits supervisorLane in
  choose true = choose false ∨
  request.(RouteRequest_Topology) ≠ "worker" ∧ (∃ why, choose true = (ActionWorker, workerLane, why)) ∧
  ∃ why, choose false = (ActionDirect, supervisorLane, why).
Proof.
  cbv zeta. unfold chooseAction. cbv zeta.
  repeat match goal with |- (if ?c then _ else _) = (if ?c then _ else _) ∨ _ => destruct c; [left; reflexivity|] end.
  destruct (String.eqb_spec (RouteRequest_Topology request) "worker"); [by left|]. cbn [orb].
  destruct (_ == "auto"); [|by left]. right. eauto.
Qed.

(** The plan of a request with reports against the one without. *)
Lemma plan_unreported request plan : PlanRoute request = Ok plan → ∃ plain, PlanRoute (unreported request) = Ok plain ∧
  if (plain.(RoutePlan_Action) == ActionWorker) && reportedDown request.(RouteRequest_LaneHealth) "start_worker"
  then plan.(RoutePlan_Action) = ActionDirect ∧ plan.(RoutePlan_SelectedLane) = supervisorLane
  else plan.(RoutePlan_SelectedLane) = plain.(RoutePlan_SelectedLane) ∧
    plan.(RoutePlan_Action) = (if reportedDown request.(RouteRequest_LaneHealth) plan.(RoutePlan_SelectedLane).(Lane_Tool)
                               then ActionBlocked else plain.(RoutePlan_Action)).
Proof.
  unfold PlanRoute at 1. intros H. apply bind_Ok in H as (request1 & H1 & H). apply bind_Ok in H as (urls & Hu & H).
  apply bind_Ok in H as (request2 & H2 & H). cbv zeta in H. apply bind_Ok in H as ([] & Hm%fail_if_Ok & H). injection H as <-.
  pose proof (checkRequest_inv _ _ H1) as Hc.
  apply normalizeRequest_inv in H2 as H2'. destruct H2' as (criteria & health & Hh & E2).
  assert (∀ tool, laneUnavailable (RouteRequest_LaneHealth request2) tool = reportedDown (RouteRequest_LaneHealth request) tool) as Hd.
  { intros tool. rewrite E2. etrans; [exact (laneUnavailable_spec _ _ tool Hh)|]. by rewrite (checked_same _ _ Hc). }
  assert (reportedDown (RouteRequest_LaneHealth request) "" = false) as Hz.
  { rewrite <- (no_nameless _ _ Hh). by rewrite (checked_same _ _ Hc). }
  clear E2 Hh Hc.
  pose proof (reasons_unreported request2 (analyzeFactors request2)) as Hr. rewrite Hd in Hr.
  set (reasons := workerRejectionReasons request2 (analyzeFactors request2)) in *.
  change (analyzeFactors request2) with (analyzeFactors (unreported request2)) in Hr.
  set (reasons0 := workerRejectionReasons (unreported request2) (analyzeFactors (unreported request2))) in *.
  exists (planOf (unreported request2) (analyzeFactors (unreported request2)) reasons0 urls). split.
  { unfold PlanRoute. apply bind_Ok. exists (unreported request1). split; [by apply checkRequest_unreported|].
    apply bind_Ok. exists urls. split; [exact Hu|]. apply bind_Ok. exists (unreported request2).
    split; [by apply normalizeRequest_unreported|]. cbv zeta. apply bind_Ok. exists tt. split; [|done]. apply fail_if_Ok.
    fold reasons0. cbn [unreported]. apply andb_false_iff in Hm as [Hm|Hm]; [by apply andb_false_iff; left|].
    apply negb_false_iff, Nat.eqb_eq, nil_length_inv in Hm. rewrite Hm in Hr. symmetry in Hr. apply app_nil in Hr as [-> _].
    apply andb_false_r. }
  assert (length reasons =? 0 = (length reasons0 =? 0) && negb (reportedDown (RouteRequest_LaneHealth request) "start_worker")) as Hl.
  { rewrite Hr, length_app. destruct (reportedDown _ "start_worker"); cbn [negb reasonIf length]; [rewrite andb_false_r|rewrite andb_true_r];
    [by rewrite Nat.add_1_r|by rewrite Nat.add_0_r]. }
  destruct (chooseAction request2 urls (length reasons =? 0) supervisorLane) as [[chosen selected] why] eqn:E.
  destruct (chooseAction (unreported request2) urls (length reasons0 =? 0) supervisorLane) as [[chosen0 selected0] why0] eqn:E0.
  destruct (planOf_parts _ (analyzeFactors request2) _ _ _ _ _ E) as (-> & -> & _).
  destruct (planOf_parts _ (analyzeFactors (unreported request2)) _ _ _ _ _ E0) as (-> & -> & _).
  rewrite Hd. cbn [laneUnavailable unreported]. cbn [RouteRequest_LaneHealth existsb]. rewrite andb_false_r.
  change (chooseAction (unreported request2)) with (chooseAction request2) in E0.
  assert ((Lane_Tool selected != "") && reportedDown (RouteRequest_LaneHealth request) (Lane_Tool selected) =
    reportedDown (RouteRequest_LaneHealth request) (Lane_Tool selected)) as ->.
  { destruct (String.eqb_spec (Lane_Tool selected) "") as [->|]; [by rewrite Hz|done]. }
  rewrite Hl in E, Hm. destruct (reportedDown _ "start_worker") eqn:Eds.
  2: { rewrite andb_true_r in E. rewrite andb_false_r. rewrite E in E0. by injection E0 as <- <- _. }
  rewrite andb_false_r in E, Hm. rewrite andb_true_r in Hm |- *.
  assert (chosen ≠ ActionWorker) as Hw.
  { intros ->. apply chooseAction_inv in E as [(_ & _ & [Ht|[_ ?]])|[Hin _]]; [by rewrite Ht in Hm|done|].
    by apply elem_of_cons in Hin as [?|[?|?%not_elem_of_nil]%elem_of_cons]. }
  assert ((chosen, selected, why) = (chosen0, selected0, why0) →
    if chosen0 == ActionWorker then
      (if reportedDown (RouteRequest_LaneHealth request) (Lane_Tool selected) then ActionBlocked else chosen) = ActionDirect ∧
      selected = supervisorLane
    else selected = selected0 ∧ (if reportedDown (RouteRequest_LaneHealth request) (Lane_Tool selected) then ActionBlocked else chosen) =
      (if reportedDown (RouteRequest_LaneHealth request) (Lane_Tool selected) then ActionBlocked else chosen0)) as Hsame.
  { intros [= <- <- _]. apply String.eqb_neq in Hw. by rewrite Hw. }
  destruct (length reasons0 =? 0); [|apply Hsame; by rewrite <- E, <- E0].
  destruct (chooseAction_admits request2 urls) as [Ec|(_ & [w1 Ec1] & w2 & Ec2)]; [apply Hsame; by rewrite <- E, <- E0|].
  rewrite Ec2 in E. rewrite Ec1 in E0. injection E as <- <- _. injection E0 as <- _ _. cbn [supervisorLane Lane_Tool]. by rewrite Hz.
Qed.

(** C34: An unavailable lane is neither used nor replaced. The route is blocked exactly
    when the last report in the request about the tool of the selected lane says that it
    is unavailable; then the tool is named, the lane stays the one the request needs, no
    routed candidate is qualified and no Worker is started. Against the plan of the same
    request without reports nothing is substituted: the lane is the same one and the
    action is the same or blocked; but a Worker whose lane is down is never chosen, the
    Supervisor then does the work itself. *)
Theorem quarantine_is_respected request plan :
  PlanRoute request = Ok plan →
  let tool := plan.(RoutePlan_SelectedLane).(Lane_Tool) in
  (plan.(RoutePlan_Action) = ActionBlocked ↔ reportedDown request.(RouteRequest_LaneHealth) tool = true) ∧
  plan.(RoutePlan_BlockedCapability) = (if reportedDown request.(RouteRequest_LaneHealth) tool then tool else "") ∧
  (plan.(RoutePlan_Action) = ActionBlocked → plan.(RoutePlan_WorkerPolicy).(WorkerPolicy_MaxWorkerStarts) = 0%Z ∧
     ∀ candidate, candidate ∈ plan.(RoutePlan_Candidates) → candidate.(Candidate_Name) = "routed_route" →
       candidate.(Candidate_Qualified) = false ∧ candidate.(Candidate_Lane) = plan.(RoutePlan_SelectedLane)) ∧
  ∃ plain, PlanRoute (unreported request) = Ok plain ∧
    if (plain.(RoutePlan_Action) == ActionWorker) && reportedDown request.(RouteRequest_LaneHealth) "start_worker"
    then plan.(RoutePlan_Action) = ActionDirect ∧ plan.(RoutePlan_SelectedLane) = supervisorLane
    else plan.(RoutePlan_SelectedLane) = plain.(RoutePlan_SelectedLane) ∧
         plan.(RoutePlan_Action) = (if reportedDown request.(RouteRequest_LaneHealth) tool then ActionBlocked else plain.(RoutePlan_Action)).
Proof.
  intros Hp. cbv zeta. assert (∀ A B C D : Prop, A ∧ B ∧ C → D → A ∧ B ∧ C ∧ D) as Hand by tauto.
  apply Hand; [|by apply plan_unreported]. clear Hand. revert Hp.
  intros (request1 & request2 & urls & Hc & _ & Hn & Hm & ->)%PlanRoute_inv. cbv zeta in *.
  set (factors := analyzeFactors request2) in *. set (reasons := workerRejectionReasons request2 factors) in *.
  destruct (chooseAction request2 urls (length reasons =? 0) supervisorLane) as [[chosen selected] why] eqn:E.
  destruct (planOf_parts _ factors _ _ _ _ _ E) as (Ha & -> & -> & -> & _ & _ & -> & _). rewrite Ha. clear Ha.
  apply normalizeRequest_inv in Hn as (criteria & health & Hh & E2).
  assert (∀ tool, laneUnavailable (RouteRequest_LaneHealth request2) tool = reportedDown (RouteRequest_LaneHealth request) tool) as Hd.
  { intros tool. rewrite E2. etrans; [exact (laneUnavailable_spec _ _ tool Hh)|]. by rewrite (checked_same _ _ Hc). }
  assert (reportedDown (RouteRequest_LaneHealth request) "" = false) as Hz.
  { rewrite <- (no_nameless _ _ Hh). by rewrite (checked_same _ _ Hc). }
  assert (chosen ≠ ActionBlocked) as Hb.
  { apply chooseAction_inv in E as [(-> & _)|[Hin _]]; [done|]. by intros ->; apply elem_of_cons in Hin as [?|[?|?%not_elem_of_nil]%elem_of_cons]. }
  rewrite Hd. assert ((Lane_Tool selected != "") && reportedDown (RouteRequest_LaneHealth request) (Lane_Tool selected) =
    reportedDown (RouteRequest_LaneHealth request) (Lane_Tool selected)) as ->.
  { destruct (String.eqb_spec (Lane_Tool selected) "") as [->|]; [by rewrite Hz|done]. }
  destruct (reportedDown _ (Lane_Tool selected)) eqn:Er; (split; [|split; [done|]]); [by split| |by split|done].
  intros _. split.
  - assert (chosen ≠ ActionWorker) as Hw%String.eqb_neq.
    { intros ->. apply chooseAction_inv in E as [(_ & -> & Ht)|[Hin _]].
      - assert (reasons = []) as Hr by (destruct Ht as [Ht|[_ Ht]]; [by apply Hm|by apply Nat.eqb_eq, nil_length_inv in Ht]).
        unfold reasons, workerRejectionReasons in Hr. do 12 apply app_nil in Hr as [_ Hr]. apply reasonIf_nil in Hr.
        rewrite Hd in Hr. cbn [workerLane Lane_Tool] in Er. congruence.
      - by apply elem_of_cons in Hin as [?|[?|?%not_elem_of_nil]%elem_of_cons]. }
    unfold buildWorkerPolicy. by rewrite Hw.
  - intros candidate [-> |[-> |[-> |?%not_elem_of_nil]%elem_of_cons]%elem_of_cons]%elem_of_cons; done.
Qed.

(** ** Decisions *)

Lemma default_effort_supported p : p ∈ profiles → is_ok (ValidateEffort p p.(Profile_DefaultEffort)) = true.
Proof.
  assert (forallb (λ p, is_ok (ValidateEffort p p.(Profile_DefaultEffort))) profiles = true) as H by (vm_compute; reflexivity).
  intros Hp. rewrite forallb_forall in H. by apply H, list_elem_of_In.
Qed.

Lemma catalog_Get_inv id p : catalog_Get id = Some p → p ∈ profiles ∧ p.(Profile_ID) = id.
Proof. intros [Hin Hid%String.eqb_eq]%find_some. by split; [apply list_elem_of_In|]. Qed.

Lemma runnable_inv model effort : runnable model effort = true →
  ∃ p, catalog_Get model = Some p ∧ ValidateEffort p effort = Ok tt.
Proof.
  unfold runnable. destruct (catalog_Get model) as [p|]; [|done]. intros H. exists p. split; [done|]. by destruct (ValidateEffort p effort) as [[]| |].
Qed.

Lemma planned_lane request plan : PlanRoute request = Ok plan →
  (∃ p, catalog_Get plan.(RoutePlan_SelectedLane).(Lane_Model) = Some p ∧ ValidateEffort p plan.(RoutePlan_SelectedLane).(Lane_Effort) = Ok tt) ∧
  plan.(RoutePlan_Escalation) = escalationLadder.
Proof.
  intros (request1 & request2 & urls & _ & _ & _ & _ & ->)%PlanRoute_inv. cbv zeta.
  destruct (chooseAction request2 urls (length (workerRejectionReasons request2 (analyzeFactors request2)) =? 0) supervisorLane) as [[chosen selected] why] eqn:E.
  destruct (planOf_parts _ (analyzeFactors request2) _ _ _ _ _ E) as (_ & -> & _ & _ & _ & _ & _ & ->).
  split; [|done]. by eapply runnable_inv, chosen_runnable.
Qed.

Lemma ValidateEffort_total p effort : ValidateEffort p effort ≠ Panic.
Proof. unfold ValidateEffort. destruct (_ == _); [done|]. destruct (existsb _ _); [done|]. by destruct (_ =? _). Qed.

(** [Decide] of a planned request, its panics and its errors apart. *)
Lemma Decide_cases task kind risk model effort plan : PlanRoute (RouteRequest_of task kind risk) = Ok plan →
  Decide task kind risk model effort ≠ Panic ∧
  ∀ decision, Decide task kind risk model effort = Ok decision → ∃ original,
    catalog_Get (if model != "" then model else plan.(RoutePlan_SelectedLane).(Lane_Model)) = Some original ∧
    decision.(RouteDecision_Plan) = plan ∧
    let lane := if model != "" then "" else plan.(RoutePlan_SelectedLane).(Lane_Effort) in
    let chosen := if effort != "" then effort else if lane != "" then lane else original.(Profile_DefaultEffort) in
    decision.(RouteDecision_Profile) = original <| Profile_DefaultEffort := chosen |> ∧
    ValidateEffort original effort = Ok tt.
Proof.
  intros Hp. apply planned_lane in Hp as Hl. destruct Hl as [(q & Hq & _) He].
  unfold Decide. rewrite Hp. cbn [mbind result_bind]. cbv zeta.
  set (selected := if model != "" then mkLane _ _ _ _ else _).
  assert (selected.(Lane_Model) = if model != "" then model else plan.(RoutePlan_SelectedLane).(Lane_Model)) as <- by (unfold selected; by destruct (model != "")).
  assert (selected.(Lane_Effort) = if model != "" then "" else plan.(RoutePlan_SelectedLane).(Lane_Effort)) as <- by (unfold selected; by destruct (model != "")).
  destruct (catalog_Get (Lane_Model selected)) as [original|]; [|done]. cbn [non_nil mbind result_bind]. rewrite He.
  assert (∀ p, p = (if Lane_Effort selected != "" then original <| Profile_DefaultEffort := Lane_Effort selected |> else original) →
    ValidateEffort p effort = ValidateEffort original effort) as Hv by (intros p ->; by destruct (Lane_Effort selected != "")).
  destruct (String.eqb_spec effort "") as [->|Hne]; cbn [negb mbind result_bind].
  - split; [done|]. intros decision [= <-]. exists original. split_and!; [done..| |done]. cbn.
    destruct (Lane_Effort selected != ""); [done|]. by destruct original.
  - rewrite (Hv _ eq_refl). destruct (ValidateEffort original effort) as [[]|e|] eqn:E; [|done|].
    + split; [done|]. intros decision [= <-]. exists original. split_and!; [done..| |done]. cbn. by destruct (Lane_Effort selected != "").
    + by apply ValidateEffort_total in E.
Qed.

(** A decision can be run. The lane of every route is in the catalog and its effort
    is one its model supports, so without an override [Decide] fails only when
    [PlanRoute] does; and whatever is overridden, the effort of a decision is one that
    its model supports, and the plan is the one of the request. *)
Theorem decisions_are_runnable task kind risk plan :
  PlanRoute (RouteRequest_of task kind risk) = Ok plan →
  (∃ decision, Decide task kind risk "" "" = Ok decision ∧ decision.(RouteDecision_Tool) = plan.(RoutePlan_SelectedLane).(Lane_Tool) ∧
     decision.(RouteDecision_Profile).(Profile_ID) = plan.(RoutePlan_SelectedLane).(Lane_Model)) ∧
  ∀ model effort, Decide task kind risk model effort ≠ Panic ∧
    ∀ decision, Decide task kind risk model effort = Ok decision →
    let profile := decision.(RouteDecision_Profile) in
    decision.(RouteDecision_Plan) = plan ∧
    (∃ original, catalog_Get profile.(Profile_ID) = Some original ∧ profile = original <| Profile_DefaultEffort := profile.(Profile_DefaultEffort) |>) ∧
    ValidateEffort profile profile.(Profile_DefaultEffort) = Ok tt.
Proof.
  intros Hp. apply planned_lane in Hp as Hl. destruct Hl as [(p & Hq & Hve) _]. split.
  - apply planned_lane in Hp as Hl. destruct Hl as [_ He]. unfold Decide. rewrite Hp. change ("" != "") with false.
    cbn [mbind result_bind]. cbv iota zeta. rewrite Hq. cbn [non_nil mbind result_bind]. rewrite He. eexists. split; [reflexivity|].
    cbn [RouteDecision_Tool RouteDecision_Profile]. split; [done|]. apply catalog_Get_inv in Hq as [_ <-]. by destruct (Lane_Effort _ != "").
  - intros model effort. destruct (Decide_cases _ _ _ model effort _ Hp) as [Hpanic Hd]. split; [done|].
    intros decision Hok. destruct (Hd _ Hok) as (original & Ho & Hplan & Hprofile & Hv). cbv zeta in *.
    apply catalog_Get_inv in Ho as Ho'. destruct Ho' as [Hin Hid]. rewrite Hprofile. cbn [setf Profile_ID Profile_DefaultEffort].
    split_and!; [done|exists original; split; [exact (eq_trans (f_equal catalog_Get Hid) Ho)|reflexivity]|].
    match goal with |- ValidateEffort _ ?e = _ => change (ValidateEffort original e = Ok tt) end. destruct (String.eqb_spec effort "") as [->|Hne]; cbn [negb]; [|done].
    assert (ValidateEffort original original.(Profile_DefaultEffort) = Ok tt) as Hdef.
    { pose proof (default_effort_supported _ Hin) as H. revert H.
      destruct (ValidateEffort original (Profile_DefaultEffort original)) as [[]|e|]; cbn; [reflexivity|discriminate..]. }
    destruct (model != ""); cbn [negb]; [done|]. destruct (Lane_Effort _ != ""); [|done]. rewrite Ho in Hq. by injection Hq as <-.
Qed.

(** ** A mandated Worker

    A topology that the user mandates is not kept when the text has a URL: the route is
    the URL digest, and its evidence basis is the mandate all the same. *)
Lemma mandate_is_passed_over request urls reasons factors :
  request.(RouteRequest_Topology) = "worker" → request.(RouteRequest_Kind) ∉ [KindFindThread; KindReadThread] →
  urls ≠ [] → laneUnavailable request.(RouteRequest_LaneHealth) "digest_urls" = false →
  let plan := planOf request factors reasons urls in
  plan.(RoutePlan_Action) = ActionCapability ∧ plan.(RoutePlan_SelectedLane).(Lane_Tool) = "digest_urls" ∧
  plan.(RoutePlan_EvidenceBasis) = "user_mandated_topology".
Proof.
  intros Ht Hk Hu Hl. rewrite !not_elem_of_cons in Hk. destruct Hk as (H1%String.eqb_neq & H2%String.eqb_neq & _).
  unfold planOf, chooseAction. rewrite Ht. change ("worker" == "direct") with false. cbv iota zeta. rewrite H1, H2.
  assert ((0 <? length urls) = true) as -> by (destruct urls; [done|reflexivity]). cbn [orb Lane_Tool RoutePlan_Action RoutePlan_SelectedLane RoutePlan_EvidenceBasis].
  rewrite Hl. by split_and!.
Qed.

End router.

(** * Concrete requests *)

(** Letters of ASCII only; no launch profile. *)
Definition lowerByte (c : Ascii.ascii) : Ascii.ascii :=
  let n := Ascii.N_of_ascii c in if ((65 <=? n) && (n <=? 90))%N then Ascii.ascii_of_N (n + 32) else c.
Definition lowerASCII (s : string) : string := String.string_of_list_ascii (lowerByte <$> String.list_ascii_of_string s).
#[local] Instance sample_router : RouterEnv := {| router_ToLower := lowerASCII; launchEffort := "" |}.

Definition parserRequest : RouteRequest :=
  mkRouteRequest "Implement the isolated parser package and run go test ./parser." "" "" []
    ["Parser behavior matches the fixture."; " Parser behavior matches the fixture. "] "go test ./parser"
    "Own the isolated parser implementation so the supervisor only verifies it." 180 60
    "isolated implementation with a deterministic package verifier" [] 2 false "objective" "" "".

Definition newsRequest : RouteRequest :=
  mkRouteRequest "Research today's current vendor announcement." KindRealtime "" [] [] "" "" 0 0 ""
    [mkLaneHealth "search_external" "healthy" "" "" ""; mkLaneHealth " search_external" "unavailable" "auth_configuration" "gateway auth failed" ""]
    0 false "" "" "".

Definition routeOf (task : string) : option (string * string * string) :=
  match PlanRoute (RouteRequest_of task "" "") with
  | Ok plan => Some (plan.(RoutePlan_Kind), plan.(RoutePlan_Action), plan.(RoutePlan_SelectedLane).(Lane_Tool))
  | _ => None
  end.

Example sample_routes :
  routeOf "fix a parser bug" = Some (KindImplement, ActionDirect, "") ∧
  routeOf "locate repository dependencies" = Some (KindExplore, ActionCapability, "explore_repository") ∧
  routeOf "find today's latest X news" = Some (KindRealtime, ActionCapability, "search_external") ∧
  routeOf "digest https://example.com/spec" = Some (KindFastResearch, ActionCapability, "digest_urls") ∧
  routeOf "Read thread https://ampcode.com/threads/T-123 and summarize the decision" = Some (KindFastResearch, ActionCapability, "digest_urls") ∧
  routeOf "Read https://claudex-threads.ppop.workers.dev/#/thread/thread-123 and extract the verifier" =
    Some (KindReadThread, ActionCapability, "read_thread").
Proof. split_and!; vm_compute; reflexivity. Qed.

Definition planned (request : RouteRequest) : RoutePlan :=
  match PlanRoute request with Ok plan => plan | _ => planOf request (analyzeFactors request) [] [] end.

Lemma planned_Ok request : is_ok (PlanRoute request) = true → PlanRoute request = Ok (planned request).
Proof. unfold planned. by destruct (PlanRoute request). Qed.

Lemma parser_planned : PlanRoute parserRequest = Ok (planned parserRequest).
Proof. apply planned_Ok. vm_compute. reflexivity. Qed.
Lemma parser_admitted : (planned parserRequest).(RoutePlan_Action) = ActionWorker ∧
  (planned parserRequest).(RoutePlan_Factors).(RouteFactors_Checkability) = "objective".
Proof. split; vm_compute; reflexivity. Qed.
Lemma news_planned : PlanRoute newsRequest = Ok (planned newsRequest).
Proof. apply planned_Ok. vm_compute. reflexivity. Qed.
Lemma news_lane : (planned newsRequest).(RoutePlan_SelectedLane) = mkLane "grok-4.5" "high" "external_search" "search_external" ∧
  reportedDown newsRequest.(RouteRequest_LaneHealth) "search_external" = true.
Proof. split; vm_compute; reflexivity. Qed.
Lemma news_workers : reportedDown newsRequest.(RouteRequest_LaneHealth) "start_worker" = false.
Proof. vm_compute. reflexivity. Qed.
Lemma bug_planned : PlanRoute (RouteRequest_of "fix a parser bug" KindAuto "normal") =
  Ok (planned (RouteRequest_of "fix a parser bug" KindAuto "normal")).
Proof. apply planned_Ok. vm_compute. reflexivity. Qed.
Lemma bug_lane : (planned (RouteRequest_of "fix a parser bug" KindAuto "normal")).(RoutePlan_SelectedLane).(Lane_Model) = "gpt-5.6-sol".
Proof. vm_compute. reflexivity. Qed.

Lemma workers_are_bounded_witness :
  (planned parserRequest).(RoutePlan_Action) = ActionWorker ∧
  bounded "auto" 2 (planned parserRequest).(RoutePlan_WorkerPolicy) ∧ admitsWorkers parserRequest "objective".
Proof.
  pose proof (workers_are_bounded parserRequest _ parser_planned) as H. destruct parser_admitted as [E Ef].
  rewrite E, Ef in H. destruct H as (_ & _ & Ha & Hb). split; [exact E|]. split; [exact Hb|exact Ha].
Defined.

Lemma quarantine_is_respected_witness :
  (planned newsRequest).(RoutePlan_Action) = ActionBlocked ∧ (planned newsRequest).(RoutePlan_BlockedCapability) = "search_external" ∧
  (planned newsRequest).(RoutePlan_SelectedLane).(Lane_Model) = "grok-4.5" ∧
  ∃ plain, PlanRoute (unreported newsRequest) = Ok plain ∧ (planned newsRequest).(RoutePlan_SelectedLane) = plain.(RoutePlan_SelectedLane).
Proof.
  destruct (quarantine_is_respected newsRequest _ news_planned) as (Ha & Hb & _ & plain & Hp & Hs). destruct news_lane as [El Er].
  rewrite news_workers, andb_false_r in Hs. destruct Hs as [Hs _].
  rewrite El in Ha, Hb |- *. cbn [Lane_Tool Lane_Model] in *. rewrite Er in Hb.
  split; [exact (proj2 Ha Er)|]. split; [exact Hb|]. split; [reflexivity|]. exists plain. split; [exact Hp|]. by rewrite <- Hs, El.
Defined.

Lemma decisions_are_runnable_witness :
  ∃ decision, Decide "fix a parser bug" KindAuto "normal" "" "" = Ok decision ∧ decision.(RouteDecision_Profile).(Profile_ID) = "gpt-5.6-sol".
Proof.
  destruct (decisions_are_runnable _ _ _ _ bug_planned) as [(decision & Hd & _ & Hid) _].
  exists decision. split; [exact Hd|]. exact (eq_trans Hid bug_lane).
Defined.

(** A mandated Worker, and a URL in the text. *)
Example mandated_digest :
  let plan := planned (parserRequest <| RouteRequest_Topology := "worker" |>
    <| RouteRequest_Objective := "Implement the parser of https://example.com/spec and run go test ./parser." |>
    <| RouteRequest_Kind := KindImplement |>) in
  plan.(RoutePlan_WorkerAdmissible) = true ∧ plan.(RoutePlan_SelectedLane).(Lane_Tool) = "digest_urls" ∧
  plan.(RoutePlan_EvidenceBasis) = "user_mandated_topology".
Proof. split_and!; vm_compute; reflexivity. Qed.
