(* ===== verification/HookData.v ===== *)
(** What the Supervisor gate reads: its own state and events, shell commands, and requests
    that qualify for the Fast Path (internal/supervisorgate, internal/fastpath). *)
From stdpp Require Import gmap.
From S2P Require Import Prelude Paths Process Environment.

(** The data of the Supervisor gate (internal/supervisorgate/state.go, gate.go): the
    budgets, the state of a Root session, a hook event and what answers it. *)

(** Budgets of a Root, which [DeclareGate] never resets. *)
Definition rootMaxPlaywright : Z := 12%Z.
Definition rootMaxScreenshot : Z := 8%Z.
Definition rootMaxSameVerify : Z := 3%Z.
Definition rootHighCostSoft : Z := 8%Z.
Definition rootHighCostHard : Z := 24%Z.
Definition maxCompactsHandoff : Z := 3%Z.
Definition maxTranscriptBytes : Z := 8388608%Z.
Definition maxRootAge : Duration := 14400000000000%Z.
Definition maxGatesPerRoot : Z := 8%Z.
Definition rootMaxDeploy : Z := 3%Z.
Definition rootMaxTestBash : Z := 12%Z.
Definition defaultContextWindow : Z := 272000%Z.
Definition toolBytesSoft : Z := 524288%Z.
Definition toolBytesHard : Z := 2097152%Z.
Definition toolBytesMaxWin : Z := 4194304%Z.
(** Budgets of a gate. *)
Definition gateMaxPlaywright : Z := 4%Z.
Definition gateMaxScreenshot : Z := 3%Z.
Definition gateMaxSameVerify : Z := 3%Z.
Definition gateHighCostSoft : Z := 4%Z.
Definition gateHighCostHard : Z := 8%Z.
Definition overrideTTL : Duration := 600000000000%Z.
Definition overrideMaxActs : Z := 3%Z.
Definition schemaVersion : Z := 4%Z.

Record GateConfig : Type := mkGateConfig {
  GateConfig_MaxPlaywright : Z; GateConfig_MaxScreenshot : Z; GateConfig_MaxSameVerify : Z; GateConfig_HighCostSoft : Z;
  GateConfig_HighCostHard : Z; GateConfig_MaxCompacts : Z; GateConfig_MaxTranscriptBytes : Z; GateConfig_MaxAge : Duration;
  GateConfig_GateMaxPlaywright : Z; GateConfig_GateMaxScreenshot : Z; GateConfig_GateMaxSameVerify : Z;
  GateConfig_GateHighCostSoft : Z; GateConfig_GateHighCostHard : Z;
}.

Definition orPositive (value default : Z) : Z := if (value <=? 0)%Z then default else value.

Definition normalizeConfig (cfg : GateConfig) : GateConfig :=
  mkGateConfig (orPositive cfg.(GateConfig_MaxPlaywright) rootMaxPlaywright) (orPositive cfg.(GateConfig_MaxScreenshot) rootMaxScreenshot)
    (orPositive cfg.(GateConfig_MaxSameVerify) rootMaxSameVerify) (orPositive cfg.(GateConfig_HighCostSoft) rootHighCostSoft)
    (orPositive cfg.(GateConfig_HighCostHard) rootHighCostHard) (orPositive cfg.(GateConfig_MaxCompacts) maxCompactsHandoff)
    (orPositive cfg.(GateConfig_MaxTranscriptBytes) maxTranscriptBytes) (orPositive cfg.(GateConfig_MaxAge) maxRootAge)
    (orPositive cfg.(GateConfig_GateMaxPlaywright) gateMaxPlaywright) (orPositive cfg.(GateConfig_GateMaxScreenshot) gateMaxScreenshot)
    (orPositive cfg.(GateConfig_GateMaxSameVerify) gateMaxSameVerify) (orPositive cfg.(GateConfig_GateHighCostSoft) gateHighCostSoft)
    (orPositive cfg.(GateConfig_GateHighCostHard) gateHighCostHard).

(** * State *)

(** A gate; a nil map of counts is the empty one. *)
Record GateRecord : Type := mkGateRecord {
  GateRecord_GateID : string; GateRecord_Acceptance : list string; GateRecord_StopCondition : string;
  GateRecord_AcceptanceHash : string; GateRecord_Status : string; GateRecord_OpenedAt : string; GateRecord_ClosedAt : string;
  GateRecord_PlaywrightCalls : Z; GateRecord_ScreenshotCalls : Z; GateRecord_HighCostCalls : Z;
  GateRecord_VerifyCounts : gmap string Z;
}.
#[export] Instance GateRecord_eta : Eta GateRecord := λ r, mkGateRecord (r.(GateRecord_GateID)) (r.(GateRecord_Acceptance))
  (r.(GateRecord_StopCondition)) (r.(GateRecord_AcceptanceHash)) (r.(GateRecord_Status)) (r.(GateRecord_OpenedAt))
  (r.(GateRecord_ClosedAt)) (r.(GateRecord_PlaywrightCalls)) (r.(GateRecord_ScreenshotCalls)) (r.(GateRecord_HighCostCalls))
  (r.(GateRecord_VerifyCounts)).

Record OverrideLease : Type := mkOverrideLease {
  OverrideLease_ExpiresAt : string; OverrideLease_RemainingActions : Z; OverrideLease_ToolClasses : list string;
  OverrideLease_PathScope : list string; OverrideLease_Reason : string; OverrideLease_IssuedAt : string;
}.
#[export] Instance OverrideLease_eta : Eta OverrideLease := λ r, mkOverrideLease (r.(OverrideLease_ExpiresAt))
  (r.(OverrideLease_RemainingActions)) (r.(OverrideLease_ToolClasses)) (r.(OverrideLease_PathScope)) (r.(OverrideLease_Reason))
  (r.(OverrideLease_IssuedAt)).

(** The [state] of a session. *)
Record RootState : Type := mkRootState {
  Root_SessionID : string; Root_StartedAt : string; Root_UpdatedAt : string; Root_SchemaVersion : Z;
  Root_CompactCount : Z; Root_PlaywrightCalls : Z; Root_ScreenshotCalls : Z; Root_HighCostCalls : Z; Root_VerifyCounts : gmap string Z;
  Root_StickyReroutePending : bool; Root_StickyReason : string;
  Root_OpenGate : option GateRecord; Root_GateHistory : list GateRecord; Root_UsedGateIDs : list string;
  Root_Override : option OverrideLease;
  Root_HandoffRequired : bool; Root_HandoffReason : string; Root_HandoffJSONPath : string; Root_HandoffMDPath : string;
  Root_LastToolName : string; Root_LastVerifyKey : string;
  Root_LatestPromptTokens : Z; Root_ToolResultBytesWindow : Z; Root_ContextPressure : string; Root_OverflowLatched : bool;
  Root_DeployCalls : Z; Root_TestCalls : Z;
  Root_TranscriptPath : string; Root_PathHints : list string; Root_TokenSource : string;
  Root_FastPathActive : bool; Root_FastPathTarget : string; Root_FastPathVerifier : string; Root_FastPathEdited : bool;
  Root_FastPathDiffSeen : bool; Root_VerifiedStop : bool; Root_VerifiedReason : string;
}.
#[export] Instance RootState_eta : Eta RootState := λ r, mkRootState (r.(Root_SessionID)) (r.(Root_StartedAt)) (r.(Root_UpdatedAt))
  (r.(Root_SchemaVersion)) (r.(Root_CompactCount)) (r.(Root_PlaywrightCalls)) (r.(Root_ScreenshotCalls)) (r.(Root_HighCostCalls))
  (r.(Root_VerifyCounts)) (r.(Root_StickyReroutePending)) (r.(Root_StickyReason)) (r.(Root_OpenGate)) (r.(Root_GateHistory))
  (r.(Root_UsedGateIDs)) (r.(Root_Override)) (r.(Root_HandoffRequired)) (r.(Root_HandoffReason)) (r.(Root_HandoffJSONPath))
  (r.(Root_HandoffMDPath)) (r.(Root_LastToolName)) (r.(Root_LastVerifyKey)) (r.(Root_LatestPromptTokens))
  (r.(Root_ToolResultBytesWindow)) (r.(Root_ContextPressure)) (r.(Root_OverflowLatched)) (r.(Root_DeployCalls)) (r.(Root_TestCalls))
  (r.(Root_TranscriptPath)) (r.(Root_PathHints)) (r.(Root_TokenSource)) (r.(Root_FastPathActive)) (r.(Root_FastPathTarget))
  (r.(Root_FastPathVerifier)) (r.(Root_FastPathEdited)) (r.(Root_FastPathDiffSeen)) (r.(Root_VerifiedStop)) (r.(Root_VerifiedReason)).

Definition newRootState (sessionID startedAt : string) : RootState :=
  mkRootState sessionID startedAt "" schemaVersion 0 0 0 0 ∅ false "" None [] [] None false "" "" "" "" "" 0 0 "" false 0 0 "" [] ""
    false "" "" false false false "".

(** * Events *)

Record HookInput : Type := mkHookInput {
  HookInput_SessionID : string; HookInput_TranscriptPath : string; HookInput_HookEventName : string; HookInput_ToolName : string;
  HookInput_ToolInput : string; HookInput_ToolResponse : string; HookInput_Cwd : string; HookInput_Prompt : string;
  HookInput_Error : string; HookInput_ErrorDetails : string; HookInput_LastAssistantMsg : string;
  HookInput_InputTokens : Z; HookInput_CacheReadInputTokens : Z; HookInput_CacheCreationInputTokens : Z;
}.
#[export] Instance HookInput_eta : Eta HookInput := λ r, mkHookInput (r.(HookInput_SessionID)) (r.(HookInput_TranscriptPath))
  (r.(HookInput_HookEventName)) (r.(HookInput_ToolName)) (r.(HookInput_ToolInput)) (r.(HookInput_ToolResponse)) (r.(HookInput_Cwd))
  (r.(HookInput_Prompt)) (r.(HookInput_Error)) (r.(HookInput_ErrorDetails)) (r.(HookInput_LastAssistantMsg)) (r.(HookInput_InputTokens))
  (r.(HookInput_CacheReadInputTokens)) (r.(HookInput_CacheCreationInputTokens)).

Record GateDecision : Type := mkGateDecision {
  GateDecision_Permission : string; GateDecision_Reason : string; GateDecision_Context : string; GateDecision_State : string;
}.
#[export] Instance GateDecision_eta : Eta GateDecision := λ r, mkGateDecision (r.(GateDecision_Permission)) (r.(GateDecision_Reason))
  (r.(GateDecision_Context)) (r.(GateDecision_State)).
Definition inState_ (name : string) : GateDecision := mkGateDecision "" "" "" name.
Definition allowing (name context : string) : GateDecision := mkGateDecision "allow" "" context name.
Definition denying (name reason context : string) : GateDecision := mkGateDecision "deny" reason context name.

(** * Libraries and surroundings *)

(** The functions of the standard library the gate relies on: [strings.ToLower] and
    [strings.EqualFold]; encoding/json on the input of a tool (its fields that are
    strings, when it is an object; its text, when it is a string) and on a response
    (the two interruption flags); the first eight bytes of a SHA-256 in hexadecimal;
    RFC 3339 times; the products of a window with the ratios of soft and hard
    pressure, in binary floating point; the regular expressions of the Fast Path: the
    first groups of the matches of [codePath], and the first group of the first
    verifier pattern that matches. *)
Class GateLib : Type := {
  gate_ToLower : string → string;
  strings_EqualFold : string → string → bool;
  json_object : string → option (string → option string);
  json_string : string → option string;
  json_interrupted : string → option (bool * bool);
  gate_digest : string → string;
  formatTime : Time → string;
  parseTime : string → option Time;
  softTokens : Z → Z;
  hardTokens : Z → Z;
  codePaths : string → list string;
  verifierMatch : string → option string;
}.

(** The surroundings of one event: the readings of the clock, in their order; the
    variables of the process; the home and working directories, when they are known;
    the size of a file, and the tokens its transcript tells; and how the lock, the
    capsule and the file of the state behave, an error when there is one. *)
Record HookEnv : Type := mkHookEnv {
  he_now : nat → Time;
  he_childSession : bool; he_supervisorRole : bool; he_workflowStrict : bool; he_compactWindow : string;
  he_home : string; he_cwd : option string;
  he_size : string → option Z; he_transcriptTokens : string → option Z;
  he_capsule : (string * string) + error;
  he_load : option error; he_save : option error;
}.

(** Shell commands as the gate reads them (internal/supervisorgate/bash.go): their class,
    and the git commands that are refused. A command is its bytes in UTF-8; every byte
    the code tests is an ASCII one. *)

Definition byte (n : nat) : Ascii.ascii := Ascii.ascii_of_nat n.
Definition textOf (l : list Ascii.ascii) : string := String.string_of_list_ascii l.

(** [filepath.Base]. *)
Definition filepath_Base (path : string) : string :=
  if path == "" then "." else
  match List.filter (λ name, name != "") (components path) with
  | [] => "/"
  | name :: names => List.last names name
  end.

(** [strings.IndexByte(s, '=') > 0]. *)
Definition assigns (s : string) : bool :=
  match String.list_ascii_of_string s with
  | c :: l => negb (Ascii.eqb c (byte 61)) && existsb (Ascii.eqb (byte 61)) l
  | [] => false
  end.

(** * Segments and fields *)

(** Inside single quotes, inside double quotes, after a backslash. *)
Record Quoting : Type := mkQuoting { inSingle : bool; inDouble : bool; escaped : bool }.
#[export] Instance Quoting_eta : Eta Quoting := λ r, mkQuoting (r.(inSingle)) (r.(inDouble)) (r.(escaped)).
Definition unquoted : Quoting := mkQuoting false false false.
Definition outside (q : Quoting) : bool := negb q.(inSingle) && negb q.(inDouble).

Inductive Quote : Type :=
  | QuoteEscaped  (** the byte after a backslash *)
  | QuoteMark     (** a backslash or a quote *)
  | QuotePlain.

(** How a byte is read, and the quoting after it. *)
Definition readByte (q : Quoting) (c : Ascii.ascii) : Quote * Quoting :=
  if q.(escaped) then (QuoteEscaped, q <| escaped := false |>)
  else if Ascii.eqb c (byte 92) && negb q.(inSingle) then (QuoteMark, q <| escaped := true |>)
  else if Ascii.eqb c (byte 39) && negb q.(inDouble) then (QuoteMark, q <| inSingle := negb q.(inSingle) |>)
  else if Ascii.eqb c (byte 34) && negb q.(inSingle) then (QuoteMark, q <| inDouble := negb q.(inDouble) |>)
  else (QuotePlain, q).

(** The trimmed segment of the bytes kept, last first; an empty one is dropped. *)
Definition flushSegment (kept : list Ascii.ascii) : list string :=
  let s := strings_TrimSpace (textOf (reverse kept)) in if s == "" then [] else [s].

(** [skip] is set when the byte is the second one of a doubled operator. *)
Fixpoint segmentsFrom (q : Quoting) (skip : bool) (kept l : list Ascii.ascii) : list string :=
  match l with
  | [] => flushSegment kept
  | c :: l' =>
      if skip then segmentsFrom q false kept l' else
      match readByte q c with
      | (QuotePlain, q) =>
          if outside q && (Ascii.eqb c (byte 10) || Ascii.eqb c (byte 13) || Ascii.eqb c (byte 59)) then
            flushSegment kept ++ segmentsFrom q false [] l'
          else if outside q && (Ascii.eqb c (byte 124) || Ascii.eqb c (byte 38)) then
            flushSegment kept ++ segmentsFrom q (match l' with d :: _ => Ascii.eqb d c | [] => false end) [] l'
          else segmentsFrom q false (c :: kept) l'
      | (_, q) => segmentsFrom q false (c :: kept) l'
      end
  end.
Definition splitShellSegments (cmd : string) : list string :=
  match segmentsFrom unquoted false [] (String.list_ascii_of_string cmd) with
  | [] => [strings_TrimSpace cmd]
  | segs => segs
  end.

Definition flushField (kept : list Ascii.ascii) : list string :=
  match kept with [] => [] | _ => [textOf (reverse kept)] end.

(** Every round drops a byte, or the bytes of a space. *)
Fixpoint shellFieldsFrom (fuel : nat) (q : Quoting) (kept l : list Ascii.ascii) : list string :=
  match fuel, l with
  | O, _ | _, [] => flushField kept
  | Datatypes.S fuel, c :: l' =>
      match readByte q c with
      | (QuoteMark, q) => shellFieldsFrom fuel q kept l'
      | (QuoteEscaped, q) => shellFieldsFrom fuel q (c :: kept) l'
      | (QuotePlain, q) =>
          match (if outside q then first_strip spaceRunes l else None) with
          | Some l' => flushField kept ++ shellFieldsFrom fuel q [] l'
          | None => shellFieldsFrom fuel q (c :: kept) l'
          end
      end
  end.
Definition shellFields (s : string) : list string :=
  let l := String.list_ascii_of_string s in shellFieldsFrom (length l) unquoted [] l.

(** * Git *)

Definition isGit (field : string) : bool := (filepath_Base field == "git") || (filepath_Base field == "git.exe").

Fixpoint stripLeadingAssignments (fields : list string) : list string :=
  match fields with
  | f :: fields' => if assigns f && negb (strings_HasPrefix f "-") && negb (isGit f) then stripLeadingAssignments fields' else fields
  | [] => []
  end.

(** The arguments of env before its utility. *)
Fixpoint skipEnv (rest : list string) : list string :=
  match rest with
  | [] => []
  | f :: rest' =>
      if existsb (String.eqb f) ["-i"; "-"; "--ignore-environment"; "--"] then skipEnv rest'
      else if existsb (String.eqb f) ["-u"; "--unset"; "-P"; "-S"; "-C"; "--chdir"; "--split-string"] then
        match rest' with _ :: rest'' => skipEnv rest'' | [] => [] end
      else if strings_HasPrefix f "-" then skipEnv rest'
      else if assigns f then skipEnv rest'
      else rest
  end.

(** The arguments of command before its name. *)
Fixpoint skipCommand (rest : list string) : list string :=
  match rest with
  | [] => []
  | f :: rest' => if strings_HasPrefix f "-" then skipCommand rest' else rest
  end.

(** Every round drops a field. *)
Fixpoint unwrapFrom (fuel : nat) (fields : list string) : list string :=
  match fuel, fields with
  | Datatypes.S fuel, f :: rest =>
      let base := filepath_Base f in
      let rest := if base == "env" then skipEnv rest else if base == "command" then skipCommand rest else [] in
      if (base == "env") || (base == "command") then
        match rest with [] => fields | _ => unwrapFrom fuel rest end
      else fields
  | _, _ => fields
  end.
Definition unwrapExecWrappers (fields : list string) : list string := unwrapFrom (length fields) fields.

Definition takesValue : list string := ["-C"; "-c"; "--git-dir"; "--work-tree"; "--namespace"; "--config-env"; "-o"].

(** The subcommand and its arguments. *)
Fixpoint parseGitArgv (args : list string) : string * list string :=
  match args with
  | [] => ("", [])
  | a :: args' =>
      if a == "" then parseGitArgv args'
      else if a == "--" then ("", [])
      else if existsb (String.eqb a) takesValue then match args' with _ :: args'' => parseGitArgv args'' | [] => ("", []) end
      else if strings_HasPrefix a "-" then parseGitArgv args'
      else (a, args')
  end.

Definition forcesReset (a : string) : bool := (a == "--hard") || (a == "-hard").
Definition forcesPush (a : string) : bool :=
  (a == "--force") || (a == "-f") || (a == "--force-with-lease") || strings_HasPrefix a "--force-with-lease=" ||
  strings_HasPrefix a "--force=".
Definition forcesClean (a : string) : bool :=
  (a == "-f") || (a == "-fd") || (a == "-fx") || (a == "-ff") || (a == "--force") ||
  (strings_HasPrefix a "-" && strings_Contains a "f" && negb (strings_HasPrefix a "--")).

Definition destructiveArgv (fields : list string) : bool :=
  match unwrapExecWrappers (stripLeadingAssignments fields) with
  | f :: args =>
      if isGit f then
        let '(sub, rest) := parseGitArgv args in
        if sub == "reset" then existsb forcesReset rest
        else if sub == "push" then existsb forcesPush rest
        else if sub == "clean" then existsb forcesClean rest else false
      else false
  | [] => false
  end.
Definition gitSegmentDestructive (seg : string) : bool := destructiveArgv (shellFields seg).

(** ** More fuel gives the same fields *)

Lemma strip_prefix_length p l l' : strip_prefix p l = Some l' → length l = length p + length l'.
Proof.
  revert l. induction p as [|c p IH]; intros [|d l]; cbn; try (by intros [= <-]).
  case_match; [|done]. intros Hs. by rewrite (IH l Hs).
Qed.

Lemma first_strip_shorter runes l l' :
  Forall (λ p, p ≠ []) runes → first_strip runes l = Some l' → length l' < length l.
Proof.
  induction 1 as [|p runes Hp _ IH]; cbn; [done|]. case_match eqn:E; [|auto].
  intros [= <-]. apply strip_prefix_length in E. destruct p; cbn in E; [done|lia].
Qed.

Lemma space_shorter l l' : first_strip spaceRunes l = Some l' → length l' < length l.
Proof. apply first_strip_shorter. by repeat constructor. Qed.

Lemma shellFieldsFrom_fuel n m q kept l :
  length l ≤ n → length l ≤ m → shellFieldsFrom n q kept l = shellFieldsFrom m q kept l.
Proof.
  revert m q kept l. induction n as [|n IH]; intros [|m] q kept [|c l] Hn Hm; cbn in Hn, Hm; try lia; try done.
  cbn [shellFieldsFrom]. destruct (readByte q c) as [[] q']; [apply IH; lia..|].
  destruct (outside q'); [|apply IH; lia].
  destruct (first_strip spaceRunes (c :: l)) as [l'|] eqn:E; [|apply IH; lia].
  apply space_shorter in E. cbn in E. f_equal. apply IH; lia.
Qed.

Lemma skipEnv_length rest : length (skipEnv rest) ≤ length rest.
Proof.
  induction rest as [rest IH] using (induction_ltof1 _ (@length string)). unfold ltof in IH.
  destruct rest as [|f [|g rest]]; cbn [skipEnv]; [done|repeat case_match; cbn; lia|].
  pose proof (IH rest) as H1. pose proof (IH (g :: rest)) as H2. cbn [skipEnv length] in *.
  repeat match goal with |- context [if ?b then _ else _] => destruct b end; cbn [length] in *; lia.
Qed.

Lemma skipCommand_length rest : length (skipCommand rest) ≤ length rest.
Proof. induction rest as [|f rest IH]; cbn; [lia|]. case_match; cbn; lia. Qed.

Lemma unwrapFrom_fuel n m fields :
  length fields ≤ n → length fields ≤ m → unwrapFrom n fields = unwrapFrom m fields.
Proof.
  revert m fields. induction n as [|n IH]; intros [|m] [|f rest] Hn Hm; cbn in Hn, Hm; try lia; try done.
  cbn [unwrapFrom]. pose proof (skipEnv_length rest). pose proof (skipCommand_length rest).
  destruct (filepath_Base f == "env"), (filepath_Base f == "command"); cbn [orb]; try done.
  1,2: destruct (skipEnv rest) eqn:E; [done|]; apply IH; lia.
  destruct (skipCommand rest) eqn:E; [done|]; apply IH; lia.
Qed.

(** * The input of a tool *)

Section bash.
Context {lib : GateLib}.

(** The first of the fields that is a string. *)
Definition firstField (object : string → option string) (keys : list string) : option string :=
  foldr (λ key rest, match object key with Some v => Some v | None => rest end) None keys.

Definition bashCommand (raw : string) : string :=
  if (raw == "") || (raw == "null") then "" else
  match (match json_object raw with Some object => firstField object ["command"; "cmd"] | None => None end) with
  | Some v => strings_TrimSpace v
  | None => match json_string raw with Some s => strings_TrimSpace s | None => "" end
  end.

Definition toolPathFromInput (raw : string) : string :=
  if raw == "" then "" else
  match json_object raw with
  | Some object => match firstField object ["file_path"; "path"; "filePath"] with Some v => strings_TrimSpace v | None => "" end
  | None => ""
  end.

Definition bashIsDestructiveGit (raw : string) : bool :=
  let cmd := bashCommand raw in
  if cmd == "" then false else existsb gitSegmentDestructive (splitShellSegments cmd).

Definition unsafeShapes : list string :=
  [">"; ">>"; "<<"; "$("; "`"; "&&"; "||"; ";"; "|"; newline; String (byte 13) ""; "tee "; " wrangler"; "npm "; "npx "; "pnpm "; "yarn ";
   "git commit"; "git push"; "git reset"; "rm "; "mv "; "cp "; "chmod "; "curl "; "wget "; "python "; "python3 "; "node "; "go run";
   "go test"; "make "; "deploy"; "dd "; "truncate"].

Definition bashReadOnly (raw : string) : bool :=
  let cmd := bashCommand raw in
  if cmd == "" then false else
  if existsb (strings_Contains (gate_ToLower cmd)) unsafeShapes then false else
  match strings_Fields cmd with
  | [] => false
  | f :: args =>
      existsb (String.eqb f) ["ls"; "pwd"; "true"] ||
      (existsb (String.eqb f) ["cat"; "head"; "tail"; "wc"; "file"; "stat"; "rg"; "grep"] && (0 <? length args)%nat)
  end.

Definition bashClass (raw : string) : string :=
  let cmd := gate_ToLower (bashCommand raw) in
  if cmd == "" then "other"
  else if bashReadOnly raw then "readonly"
  else if existsb (strings_Contains cmd) ["wrangler deploy"; "npm run deploy"; "cloudflare deploy"; " production deploy"] then "deploy"
  else if existsb (strings_Contains cmd) ["go test"; "npm test"; "npm run test"; "npx vitest"; "pytest"] then "test"
  else if existsb (strings_Contains cmd) [">"; ">>"; "git commit"; "rm "; "mv "] then "mutate"
  else "other".

End bash.

(** The Fast Path (internal/fastpath/fastpath.go): a request for one file with an explicit
    verifier. *)

Record Contract : Type := mkContract { Contract_TargetPath : string; Contract_Verifier : string }.

Definition blockedTopics : list string :=
  ["deploy"; "migration"; "schema"; "database"; "ui"; "dashboard"; "research"; "search the web"; "browse"; "architecture"; "refactor repository"].
Definition changeCues : list string := ["fix"; "change"; "update"; "modify"; "implement"].

(** [strings.ContainsAny] for a set of bytes. *)
Definition containsBytes (s : string) (set : list Ascii.ascii) : bool :=
  existsb (λ c, existsb (Ascii.eqb c) set) (String.list_ascii_of_string s).

(** [strings.Trim] of the bytes space, tab, CR, LF and the two quotes. *)
Definition trimByte (c : Ascii.ascii) : bool := existsb (Ascii.eqb c) (bytes [32; 9; 13; 10; 34; 39]).
Fixpoint dropTrim (l : list Ascii.ascii) : list Ascii.ascii :=
  match l with c :: l' => if trimByte c then dropTrim l' else l | [] => [] end.
Definition trimQuotes (s : string) : string :=
  textOf (reverse (dropTrim (reverse (dropTrim (String.list_ascii_of_string s))))).

Section fastpath.
Context {golib : GoLib} {lib : GateLib}.

(** The bytes newline, CR, [;|&><] and the backquote. *)
Definition SafeVerifier (command : string) : bool :=
  let command := strings_TrimSpace command in
  if (command == "") || containsBytes command (bytes [10; 13; 59; 124; 38; 62; 60; 96]) || strings_Contains command "$(" then false else
  let lower := gate_ToLower command in
  strings_HasPrefix lower "go test " || (lower == "pytest") || strings_HasPrefix lower "pytest " ||
  (lower == "npm test") || strings_HasPrefix lower "npm test " || (lower == "npm run test") ||
  strings_HasPrefix lower "npm run test " || (lower == "npx vitest") || strings_HasPrefix lower "npx vitest ".

Definition extractVerifier (prompt : string) : string :=
  match verifierMatch prompt with Some group => strings_TrimSpace (trimQuotes group) | None => "" end.

(** The distinct paths of a prompt, in the order they are first seen. *)
Definition seenPaths (prompt : string) : list string :=
  foldl (λ seen path, let path := strings_TrimSpace path in if bool_decide (path ∈ seen) then seen else seen ++ [path]) [] (codePaths prompt).

Definition FastPath_Parse (prompt : string) : option Contract :=
  let p := gate_ToLower (strings_TrimSpace prompt) in
  if p == "" then None
  else if existsb (strings_Contains p) blockedTopics then None
  else if negb (existsb (strings_Contains p) changeCues) then None
  else match seenPaths prompt with
       | [target] =>
           let verifier := extractVerifier prompt in
           if (verifier == "") || negb (SafeVerifier verifier) then None else Some (mkContract target verifier)
       | _ => None
       end.
Definition Detect (prompt : string) : bool := is_Some_b (FastPath_Parse prompt).

Definition FastPath_Context (contract : Contract) : string :=
  fmt_Sprintf "CLAUDEX_FAST_PATH v3: target=%q verifier=%q. This is a conservative single-file deterministic slice. Skip route_task, gates, Worker, specialists, browser, and broad shell commands. Read and edit only the target. If final inspection is needed, use Read for a new file or exactly `git diff -- %s` once for an existing tracked file; never combine it with the verifier. Run the exact verifier once after the edit, then report immediately."
    [AStr contract.(Contract_TargetPath); AStr contract.(Contract_Verifier); AStr contract.(Contract_TargetPath)].

End fastpath.
