(* ===== verification/HookGate.v ===== *)
(** The Supervisor gate (internal/supervisorgate/gate.go, state.go, ops.go): what it
    answers to a hook event and to the operations on gates, and how the state of the
    session changes. *)
From stdpp Require Import gmap.
From S2P Require Import Prelude Paths Process Environment HookData.

(** * Tools *)

Definition flowPrefix : string := "mcp__claudex-flow__".

Definition isNativeCoordinationTool (name : string) : bool :=
  existsb (String.eqb name) ["Agent"; "Task"; "TaskCreate"; "TaskGet"; "TaskList"; "TaskOutput"; "TaskUpdate"].

Definition isVerifiedStopControl (name : string) : bool :=
  strings_HasPrefix name flowPrefix && (strings_HasSuffix name "__close_gate" || strings_HasSuffix name "__record_route_outcome").

Definition isControlTool (name : string) : bool :=
  existsb (String.eqb name) ["Read"; "Grep"; "Glob"; "TaskList"; "TaskGet"] ||
  (strings_HasPrefix name flowPrefix &&
   existsb (strings_HasSuffix name) ["__declare_gate"; "__close_gate"; "__ack_reroute"; "__gate_status"; "__workflow_status";
     "__runtime_contract"; "__find_thread"; "__read_thread"; "__route_task"; "__record_route_outcome"; "__collect_worker"; "__close_worker"]).

Definition isHandoffControlTool (name : string) : bool :=
  strings_HasPrefix name flowPrefix &&
  existsb (strings_HasSuffix name) ["__declare_gate"; "__close_gate"; "__ack_reroute"; "__gate_status"; "__workflow_status";
    "__runtime_contract"; "__find_thread"; "__read_thread"; "__collect_worker"; "__close_worker"].

(** * The parts of a state *)

Definition gateIDUsed (st : RootState) (id : string) : bool := existsb (λ g, g == id) st.(Root_UsedGateIDs).

Definition lastClosedHash (st : RootState) : string :=
  match List.find (λ g, g.(GateRecord_AcceptanceHash) != "") (reverse st.(Root_GateHistory)) with
  | Some g => g.(GateRecord_AcceptanceHash)
  | None => ""
  end.

Definition ofGate {A} (f : GateRecord → A) (zero : A) (st : RootState) : A :=
  match st.(Root_OpenGate) with Some gate => f gate | None => zero end.
Definition gateHigh : RootState → Z := ofGate GateRecord_HighCostCalls 0%Z.
Definition gatePW : RootState → Z := ofGate GateRecord_PlaywrightCalls 0%Z.
Definition gateShot : RootState → Z := ofGate GateRecord_ScreenshotCalls 0%Z.
Definition inGate (f : GateRecord → GateRecord) (st : RootState) : RootState := st <| Root_OpenGate := f <$> st.(Root_OpenGate) |>.

Definition countOf (counts : gmap string Z) (key : string) : Z := default 0%Z (counts !! key).
Definition increment (counts : gmap string Z) (key : string) : gmap string Z := <[key := (countOf counts key + 1)%Z]> counts.

Definition appendPathHint (hints : list string) (path : string) (max : nat) : list string :=
  let path := strings_TrimSpace path in
  if path == "" then hints else
  if existsb (λ h, h == path) hints then hints else
  let hints := hints ++ [path] in
  if (0 <? max)%nat && (max <? length hints)%nat then drop (length hints - max) hints else hints.

Definition requireHandoff (reason : string) (st : RootState) : RootState :=
  st <| Root_HandoffRequired := true |> <| Root_HandoffReason := reason |>.

(** What [loadStateUnlocked] repairs. *)
Definition repairLoaded (st : RootState) : RootState :=
  if st.(Root_FastPathActive) && ((strings_TrimSpace st.(Root_FastPathTarget) == "") || (strings_TrimSpace st.(Root_FastPathVerifier) == ""))
  then st <| Root_FastPathActive := false |> <| Root_FastPathEdited := false |> else st.

Section gate.
Context {golib : GoLib} {lib : GateLib}.

Definition isPlaywright (name : string) : bool :=
  let n := gate_ToLower name in strings_Contains n "playwright" || strings_Contains n "browser_".
Definition isScreenshot (name : string) : bool :=
  let n := gate_ToLower name in strings_Contains n "screenshot" || strings_Contains n "take_screenshot".
Definition isHighCost (name : string) : bool :=
  isPlaywright name || isScreenshot name ||
  existsb (String.eqb name) ["Agent"; "Task"; "TaskCreate"; "TaskUpdate"; "TaskOutput"; "Skill"; "Write"; "Edit"] ||
  strings_HasPrefix name "mcp__claudex-flow__start_worker" || strings_HasPrefix name "mcp__plugin_playwright".

(** The reason to block a tool during a handoff. *)
Definition handoffBlocks (name : string) : option string :=
  if existsb (String.eqb name) ["Read"; "Grep"; "Glob"] then None
  else if isHandoffControlTool name then None
  else if name == "Bash" then Some "Bash is fully denied during handoff (bypass-resistant); use Read/Grep"
  else if isPlaywright name || isScreenshot name then Some "browser/screenshot tools are blocked during handoff"
  else if strings_HasPrefix name "mcp__claudex-flow__start_worker" || strings_HasPrefix name "mcp__claudex-flow__resume_worker"
  then Some "Worker tools are blocked during handoff"
  else Some "unknown or construction tool denied during handoff (fail-closed allowlist)".

Definition verifyKey (name raw : string) : string :=
  if name == "" then "" else
  if negb ((name == "Bash") || isPlaywright name || isScreenshot name || (name == "TaskGet")) then "" else
  let body := strings_TrimSpace raw in
  if (body == "") || (body == "null") then name else
  let body := if (240 <? Z.of_nat (String.length body))%Z then String.substring 0 240 body else body in
  name +:+ ":" +:+ gate_digest (name +:+ String (byte 0) body).

(** * Contexts *)

Definition boolText (b : bool) : string := if b then "true" else "false".

Definition verifiedStopContext (st : RootState) : string :=
  fmt_Sprintf "CLAUDEX_VERIFIED_HARD_STOP v1: %s. Return the concise result now. Do not inspect diff/status, re-run tests, open a review, or start another model. Control tools remain available only to close an already-open lifecycle record."
    [AStr st.(Root_VerifiedReason)].

Definition stickyContext (st : RootState) : string :=
  fmt_Sprintf "CLAUDEX_STICKY_REROUTE v1: pending=%v reason=%q open_gate=%q root_high_cost=%d. Call mcp__claudex-flow__ack_reroute with gate_id, remaining_acceptance[], worker_decision (none|start|resume), optional hypothesis_change. Control tools (declare_gate/close_gate/ack_reroute/gate_status/Read/Grep) remain allowed."
    [AStr (boolText st.(Root_StickyReroutePending)); AStr st.(Root_StickyReason); AStr (ofGate GateRecord_GateID "" st); AInt st.(Root_HighCostCalls)].

Definition lifecycleContext (st : RootState) : string :=
  let reason := if st.(Root_HandoffReason) == "" then "root lifecycle budget reached" else st.(Root_HandoffReason) in
  let paths := if st.(Root_HandoffMDPath) != "" then fmt_Sprintf " capsule_md=%s capsule_json=%s" [AStr st.(Root_HandoffMDPath); AStr st.(Root_HandoffJSONPath)] else "" in
  fmt_Sprintf "CLAUDEX_ROOT_HANDOFF_REQUIRED v1: %s. compact_count=%d.%s Stop construction tools. User starts a new Root with claudex --from-handoff (explicit only). Use Read/Grep/find_thread/read_thread only (Bash denied during handoff). Enforcement is PreToolUse."
    [AStr reason; AInt st.(Root_CompactCount); AStr paths].

(** * Context pressure *)

(** A decimal number, if every byte is a digit; an [int64] wraps around. *)
Definition parseWindow (raw : string) : option Z :=
  foldl (λ n c, n ← n; let d := Z.of_nat (Ascii.nat_of_ascii c) in
    if (d <? 48)%Z || (57 <? d)%Z then None else Some (i64 (n * 10 + (d - 48)))) (Some 0%Z) (String.list_ascii_of_string raw).

Definition contextWindowTokens (env : HookEnv) : Z :=
  let raw := strings_TrimSpace env.(he_compactWindow) in
  if raw == "" then defaultContextWindow else
  match parseWindow raw with
  | Some n => if (0 <? n)%Z then n else defaultContextWindow
  | None => defaultContextWindow
  end.

Definition contextPressureContext (env : HookEnv) (st : RootState) : string :=
  let w := contextWindowTokens env in
  fmt_Sprintf "CLAUDEX_CONTEXT_PRESSURE v1 level=%s prompt_tokens=%d soft>=%d hard>=%d tool_bytes_window=%d. Soft is warning only; hard latches handoff / blocks large-output tools. PostCompact resets samples. StopFailure latch is reactive only."
    [AStr st.(Root_ContextPressure); AInt st.(Root_LatestPromptTokens); AInt (softTokens w); AInt (hardTokens w); AInt st.(Root_ToolResultBytesWindow)].

Definition applyContextPressure (env : HookEnv) (st : RootState) : RootState * string :=
  let w := contextWindowTokens env in
  let soft := softTokens w in let hard := hardTokens w in
  if (hard <=? st.(Root_LatestPromptTokens))%Z || (toolBytesHard <=? st.(Root_ToolResultBytesWindow))%Z then
    let st := st <| Root_ContextPressure := "hard" |> in
    (if st.(Root_HandoffRequired) then st else
       requireHandoff (fmt_Sprintf "context hard pressure: prompt_tokens=%d (hard>=%d) tool_bytes=%d"
         [AInt st.(Root_LatestPromptTokens); AInt hard; AInt st.(Root_ToolResultBytesWindow)]) st, "hard")
  else if (soft <=? st.(Root_LatestPromptTokens))%Z || (toolBytesSoft <=? st.(Root_ToolResultBytesWindow))%Z then
    (st <| Root_ContextPressure := "soft" |>, "soft")
  else (st <| Root_ContextPressure := "" |>, "").

Definition ingestUsageHint (env : HookEnv) (hook : HookInput) (st : RootState) : RootState :=
  let promptSide := i64 (i64 (hook.(HookInput_InputTokens) + hook.(HookInput_CacheReadInputTokens)) + hook.(HookInput_CacheCreationInputTokens)) in
  if (0 <? promptSide)%Z then st <| Root_LatestPromptTokens := promptSide |> <| Root_TokenSource := "hook" |> else
  let path := strings_TrimSpace hook.(HookInput_TranscriptPath) in
  if path != "" then
    match env.(he_transcriptTokens) path with
    | Some n => if (0 <? n)%Z then st <| Root_LatestPromptTokens := n |> <| Root_TokenSource := "transcript" |> else st
    | None => st
    end
  else st.

(** * Lifecycle *)

Definition filepath_Join (dir name : string) : string := path_Clean (dir +:+ "/" +:+ name).

Definition expandHome (env : HookEnv) (path : string) : string :=
  if strings_HasPrefix path "~/" then
    let rest := String.substring 2 (String.length path) path in
    if env.(he_home) == "" then (if rest == "" then "" else path_Clean rest) else filepath_Join env.(he_home) rest
  else path.

Definition refreshLifecycle (cfg : GateConfig) (env : HookEnv) (now : Time) (hook : HookInput) (st : RootState) : RootState :=
  if st.(Root_HandoffRequired) then st else
  if (cfg.(GateConfig_MaxCompacts) <=? st.(Root_CompactCount))%Z then
    requireHandoff (fmt_Sprintf "compact_count=%d exceeds budget %d" [AInt st.(Root_CompactCount); AInt cfg.(GateConfig_MaxCompacts)]) st
  else
  let expired := match parseTime st.(Root_StartedAt) with
                 | Some started => (cfg.(GateConfig_MaxAge) <=? now - started)%Z
                 | None => false
                 end in
  if expired then requireHandoff (fmt_Sprintf "root_age exceeds %s" [AInt cfg.(GateConfig_MaxAge)]) st else
  let path := strings_TrimSpace hook.(HookInput_TranscriptPath) in
  if path == "" then st else
  let st := st <| Root_TranscriptPath := expandHome env path |> in
  match env.(he_size) st.(Root_TranscriptPath) with
  | Some size =>
      if (cfg.(GateConfig_MaxTranscriptBytes) <=? size)%Z then
        requireHandoff (fmt_Sprintf "transcript_bytes=%d exceeds budget %d" [AInt size; AInt cfg.(GateConfig_MaxTranscriptBytes)]) st
      else st
  | None => st
  end.

(** * Overrides *)

Definition expireOverride (now : Time) (st : RootState) : RootState :=
  match st.(Root_Override) with
  | None => st
  | Some lease =>
      let live := match parseTime lease.(OverrideLease_ExpiresAt) with
                  | Some expires => Time_Before now expires && (0 <? lease.(OverrideLease_RemainingActions))%Z
                  | None => false
                  end in
      if live then st else st <| Root_Override := None |>
  end.

Definition overrideToolClass (tool raw : string) : string :=
  if (tool == "Edit") || (tool == "Write") then "Edit"
  else if tool == "Bash" then
    let class := bashClass raw in if class == "test" then "Test" else if class == "deploy" then "Deploy" else ""
  else "".

Definition pathInScope (path p : string) : bool :=
  let p := strings_TrimSpace p in
  (p != "") && ((path == p) || strings_HasPrefix path (strings_TrimSuffix p "/" +:+ "/")).

Definition overrideCovers (lease : OverrideLease) (tool raw : string) : bool :=
  let class := overrideToolClass tool raw in
  if class == "" then false else
  if negb (existsb (λ c, strings_EqualFold c class) lease.(OverrideLease_ToolClasses)) then false else
  let path := toolPathFromInput raw in
  if path == "" then false else existsb (pathInScope path) lease.(OverrideLease_PathScope).

(** [strings.Index], giving the text from there. *)
Fixpoint fromFirst (s sub : string) : option string :=
  if String.prefix sub s then Some s else
  match s with EmptyString => None | String _ s' => fromFirst s' sub end.

(** [strings.Split] at one byte. *)
Fixpoint splitAt (c : Ascii.ascii) (s : string) : list string :=
  match s with
  | EmptyString => [EmptyString]
  | String d s' =>
      if Ascii.eqb d c then EmptyString :: splitAt c s'
      else match splitAt c s' with x :: xs => String d x :: xs | [] => [] end
  end.

(** [strings.SplitN(part, "=", 2)] with two parts. *)
Fixpoint keyValue (part : string) : option (string * string) :=
  match part with
  | EmptyString => None
  | String c part' =>
      if Ascii.eqb c (byte 61) then Some (EmptyString, part')
      else '(k, v) ← keyValue part'; Some (String c k, v)
  end.

(** The value of the last field with a key. *)
Definition overrideField (fields : list string) (key : string) : string :=
  foldl (λ value part, match keyValue part with Some (k, v) => if gate_ToLower k == key then v else value | None => value end) "" fields.

Definition nonEmptyParts (s : string) : list string := List.filter (λ x, x != "") (strings_TrimSpace <$> splitAt (byte 44) s).

Definition parseGateOverride (prompt : string) (now : Time) : option OverrideLease :=
  let p := strings_TrimSpace prompt in
  match (if strings_HasPrefix p "/gate-override" then Some p else strings_TrimSpace <$> fromFirst p "/gate-override") with
  | None => None
  | Some p =>
      let fields := strings_Fields (strings_TrimSpace (strings_TrimPrefix p "/gate-override")) in
      let reason := strings_TrimSpace (overrideField fields "reason") in
      let pathsRaw := strings_TrimSpace (overrideField fields "paths") in
      if (reason == "") || (pathsRaw == "") then None else
      let paths := nonEmptyParts pathsRaw in
      if (length paths =? 0)%nat then None else
      let classesRaw := strings_TrimSpace (overrideField fields "classes") in
      let classes := if classesRaw != "" then nonEmptyParts classesRaw else ["Edit"; "Test"; "Deploy"] in
      Some (mkOverrideLease (formatTime (Time_Add now overrideTTL)) overrideMaxActs classes paths reason (formatTime now))
  end.

(** * The Fast Path of a turn *)

Definition resolvePath (env : HookEnv) (cwd path : string) : string :=
  let path := expandHome env path in
  let path := if strings_HasPrefix path "/" then path else filepath_Join cwd path in
  if strings_HasPrefix path "/" then path_Clean path else
  match env.(he_cwd) with Some wd => filepath_Join wd path | None => path_Clean path end.

Definition fastPathPathMatches (env : HookEnv) (st : RootState) (cwd actual : string) : bool :=
  let target := strings_TrimSpace st.(Root_FastPathTarget) in
  if (actual == "") || (target == "") then false else
  if path_Clean actual == path_Clean target then true else
  let cwd := strings_TrimSpace cwd in
  let cwd := if cwd == "" then "." else cwd in
  resolvePath env cwd actual == resolvePath env cwd target.

Definition fastPathTargetMatches (env : HookEnv) (st : RootState) (hook : HookInput) : bool :=
  fastPathPathMatches env st hook.(HookInput_Cwd) (strings_TrimSpace (toolPathFromInput hook.(HookInput_ToolInput))).

(** The bytes of [QQ$`;&|<>(){}[]*?!~], where Q is either quote. *)
Definition shellBytes : list Ascii.ascii := bytes [39; 34; 36; 96; 59; 38; 124; 60; 62; 40; 41; 123; 125; 91; 93; 42; 63; 33; 126].

Definition fastPathReadOnlyDiffMatches (env : HookEnv) (st : RootState) (hook : HookInput) : bool :=
  match strings_Fields (strings_TrimSpace (bashCommand hook.(HookInput_ToolInput))) with
  | [git; diff; dashes; path] =>
      (git == "git") && (diff == "diff") && (dashes == "--") && negb (containsBytes path shellBytes) &&
      fastPathPathMatches env st hook.(HookInput_Cwd) path
  | _ => false
  end.

Definition toolResponseInterrupted (raw : string) : bool :=
  if raw == "" then false else
  match json_interrupted raw with Some (interrupted, isInterrupt) => interrupted || isInterrupt | None => false end.

Definition fastContextOf (st : RootState) : string := FastPath_Context (mkContract st.(Root_FastPathTarget) st.(Root_FastPathVerifier)).

Definition evaluateFastPathPre (env : HookEnv) (st : RootState) (hook : HookInput) : GateDecision :=
  let context := fastContextOf st in
  let deny := λ reason, denying "fast_path_deny" ("CLAUDEX_FAST_PATH_HARD: " +:+ reason) context in
  let name := hook.(HookInput_ToolName) in
  if existsb (String.eqb name) ["Read"; "Grep"] then
    if negb (fastPathTargetMatches env st hook) then deny "read scope must be the frozen target file"
    else allowing "fast_path_read_allow" context
  else if existsb (String.eqb name) ["Edit"; "Write"; "MultiEdit"] then
    if negb (fastPathTargetMatches env st hook) then deny "write scope must be the frozen target file"
    else allowing "fast_path_edit_allow" context
  else if name == "Bash" then
    let command := strings_TrimSpace (bashCommand hook.(HookInput_ToolInput)) in
    if negb st.(Root_FastPathEdited) then deny "the frozen target must be edited successfully before verification"
    else if fastPathReadOnlyDiffMatches env st hook then
      if st.(Root_FastPathDiffSeen) then deny "the one read-only target diff was already inspected"
      else allowing "fast_path_diff_allow" context
    else if (command != st.(Root_FastPathVerifier)) || negb (SafeVerifier command) then
      deny "only one exact read-only target diff or the frozen foreground verifier is allowed; never combine commands"
    else allowing "fast_path_verify_allow" context
  else deny "orchestration, secondary models, broad tools, and lifecycle ceremony are disabled on Fast Path".

End gate.
