(* ===== verification/HookRun.v ===== *)
(** The handlers of the Supervisor gate and the transactions around them
    (internal/supervisorgate/gate.go, ops.go): a hook event or an operation on a gate
    reads the state of its session under a lock, changes it, and writes it back. *)
From stdpp Require Import gmap.
From S2P Require Import Prelude Paths Process Environment HookData HookGate.

(** An entry of events.jsonl. *)
Record gateEvent : Type := mkGateEvent {
  gateEvent_Event : string; gateEvent_Observed : string; gateEvent_SessionID : string; gateEvent_HookEvent : string;
  gateEvent_ToolName : string; gateEvent_State : string; gateEvent_Detail : string; gateEvent_Permission : string;
}.

(** The files of the states, by name, and the log of events. *)
Record GateWorld : Type := mkGateWorld { gw_states : gmap string RootState; gw_events : list gateEvent }.
#[export] Instance GateWorld_eta : Eta GateWorld := λ r, mkGateWorld (r.(gw_states)) (r.(gw_events)).
Definition GateWorld_empty : GateWorld := mkGateWorld ∅ [].

(** The name of the file of a session: every rune but letters, digits, [-] and [_] is
    an underscore; the bytes 128 to 191 continue a rune. *)
Definition safeByte (c : Ascii.ascii) : bool :=
  let n := Ascii.N_of_ascii c in
  (((97 <=? n) && (n <=? 122)) || ((65 <=? n) && (n <=? 90)) || ((48 <=? n) && (n <=? 57)) || (n =? 45) || (n =? 95))%N.
Definition continuationByte (c : Ascii.ascii) : bool := let n := Ascii.N_of_ascii c in ((128 <=? n) && (n <=? 191))%N.
Definition statePath (sessionID : string) : string :=
  let safe := (λ c, if safeByte c then c else byte 95) <$>
    List.filter (λ c, negb (continuationByte c)) (String.list_ascii_of_string sessionID) in
  (match safe with [] => "unknown" | _ => textOf safe end) +:+ ".json".

Section run.
Context {golib : GoLib} {lib : GateLib}.

(** * User prompts *)

(** A new turn releases the latches of the one before. *)
Definition newTurn (st : RootState) : RootState :=
  st <| Root_VerifiedStop := false |> <| Root_VerifiedReason := "" |> <| Root_FastPathActive := false |> <| Root_FastPathTarget := "" |>
     <| Root_FastPathVerifier := "" |> <| Root_FastPathEdited := false |> <| Root_FastPathDiffSeen := false |>.

Definition activateFastPath (prompt : string) (st : RootState) : RootState :=
  match FastPath_Parse prompt with
  | Some contract =>
      if negb (is_Some_b st.(Root_OpenGate)) && negb st.(Root_StickyReroutePending) && negb st.(Root_HandoffRequired) && negb st.(Root_OverflowLatched)
      then st <| Root_FastPathActive := true |> <| Root_FastPathTarget := contract.(Contract_TargetPath) |>
              <| Root_FastPathVerifier := contract.(Contract_Verifier) |>
      else st
  | None => st
  end.

Definition handleUserPrompt (env : HookEnv) (hook : HookInput) (st : RootState) : RootState * GateDecision * list gateEvent :=
  let st := activateFastPath hook.(HookInput_Prompt) (newTurn st) in
  match parseGateOverride hook.(HookInput_Prompt) (env.(he_now) 3) with
  | Some lease =>
      if st.(Root_HandoffRequired) then
        (st, mkGateDecision "" "" "CLAUDEX_GATE: override refused while handoff_required; finish capsule and start a new Root."
               "override_blocked_handoff", [])
      else
        (st <| Root_Override := Some lease |>,
         mkGateDecision "" "" (fmt_Sprintf "CLAUDEX_GATE_OVERRIDE v1: lease active until %s, remaining_actions=%d, paths=%v. %s"
           [AStr lease.(OverrideLease_ExpiresAt); AInt lease.(OverrideLease_RemainingActions); AStrs lease.(OverrideLease_PathScope);
            AStr "path_scope required; max 3 actions / 10 minutes"]) "override_issued",
         [mkGateEvent "gate_override_issued" (formatTime (env.(he_now) 4)) st.(Root_SessionID) "" "" "" lease.(OverrideLease_Reason) ""])
  | None =>
      if st.(Root_FastPathActive) then (st, mkGateDecision "" "" (fastContextOf st) "fast_path", [])
      else (st, inState_ "user_prompt", [])
  end.

Definition handleStopFailure (hook : HookInput) (st : RootState) : RootState * GateDecision :=
  let blob := gate_ToLower (hook.(HookInput_Error) +:+ " " +:+ hook.(HookInput_ErrorDetails) +:+ " " +:+ hook.(HookInput_LastAssistantMsg)) in
  if existsb (strings_Contains blob) ["prompt is too long"; "context limit"; "context window"; "maximum context"] then
    let st := st <| Root_OverflowLatched := true |> <| Root_ContextPressure := "hard" |> in
    (if st.(Root_HandoffRequired) then st else requireHandoff "StopFailure: prompt/context overflow latched (reactive)" st,
     inState_ "overflow_latched")
  else (st, inState_ "stop_observed").

(** * Recording a tool that was used *)

Definition recordFastPath (env : HookEnv) (hook : HookInput) (st : RootState) : RootState :=
  let name := hook.(HookInput_ToolName) in
  if negb ((hook.(HookInput_HookEventName) == "PostToolUse") && st.(Root_FastPathActive)) then st else
  if existsb (String.eqb name) ["Edit"; "Write"; "MultiEdit"] then
    if fastPathTargetMatches env st hook then st <| Root_FastPathEdited := true |> else st
  else if name == "Bash" then
    let command := strings_TrimSpace (bashCommand hook.(HookInput_ToolInput)) in
    if fastPathReadOnlyDiffMatches env st hook then st <| Root_FastPathDiffSeen := true |>
    else if st.(Root_FastPathEdited) && (command == st.(Root_FastPathVerifier)) && SafeVerifier command &&
            negb (toolResponseInterrupted hook.(HookInput_ToolResponse))
    then st <| Root_VerifiedStop := true |> <| Root_VerifiedReason := "Fast Path target edited and frozen verifier succeeded" |>
    else st
  else st.

Definition recordHints (hook : HookInput) (st : RootState) : RootState :=
  let p := toolPathFromInput hook.(HookInput_ToolInput) in
  let name := hook.(HookInput_ToolName) in
  let st := if (p != "") && ((name == "Write") || (name == "Edit") || (name == "MultiEdit"))
            then st <| Root_PathHints := appendPathHint st.(Root_PathHints) p 32 |> else st in
  let size := Z.of_nat (String.length hook.(HookInput_ToolResponse)) in
  if (0 <? size)%Z then st <| Root_ToolResultBytesWindow := Z.min (st.(Root_ToolResultBytesWindow) + size) toolBytesMaxWin |> else st.

Definition countPlaywright (st : RootState) : RootState :=
  inGate (λ g, g <| GateRecord_PlaywrightCalls := (g.(GateRecord_PlaywrightCalls) + 1)%Z |>)
    (st <| Root_PlaywrightCalls := (st.(Root_PlaywrightCalls) + 1)%Z |>).
Definition countScreenshot (st : RootState) : RootState :=
  inGate (λ g, g <| GateRecord_ScreenshotCalls := (g.(GateRecord_ScreenshotCalls) + 1)%Z |>)
    (st <| Root_ScreenshotCalls := (st.(Root_ScreenshotCalls) + 1)%Z |>).
Definition countHighCost (st : RootState) : RootState :=
  inGate (λ g, g <| GateRecord_HighCostCalls := (g.(GateRecord_HighCostCalls) + 1)%Z |>)
    (st <| Root_HighCostCalls := (st.(Root_HighCostCalls) + 1)%Z |>).
Definition countVerify (key : string) (st : RootState) : RootState :=
  inGate (λ g, g <| GateRecord_VerifyCounts := increment g.(GateRecord_VerifyCounts) key |>)
    (st <| Root_VerifyCounts := increment st.(Root_VerifyCounts) key |>) <| Root_LastVerifyKey := key |>.

(** The class of a Bash command counts; whether it is a high-cost use. *)
Definition countBash (raw : string) (st : RootState) : RootState * bool :=
  let class := bashClass raw in
  if class == "test" then (st <| Root_TestCalls := (st.(Root_TestCalls) + 1)%Z |>, true)
  else if class == "deploy" then (st <| Root_DeployCalls := (st.(Root_DeployCalls) + 1)%Z |>, true)
  else (st, class == "mutate").

(** The counters of a tool that is not a control tool. *)
Definition countTool (hook : HookInput) (st : RootState) : RootState :=
  let name := hook.(HookInput_ToolName) in
  let st := if isPlaywright name then countPlaywright st else st in
  let st := if isScreenshot name then countScreenshot st else st in
  let '(st, bashHigh) := if name == "Bash" then countBash hook.(HookInput_ToolInput) st else (st, isHighCost name) in
  let st := if isPlaywright name || isScreenshot name || bashHigh then countHighCost st else st in
  let key := verifyKey name hook.(HookInput_ToolInput) in
  if key != "" then countVerify key st else st.

Definition armSticky (cfg : GateConfig) (st : RootState) : RootState :=
  let gateSoft := ofGate (λ g, (cfg.(GateConfig_GateHighCostSoft) <=? g.(GateRecord_HighCostCalls))%Z) false st in
  if gateSoft && negb st.(Root_StickyReroutePending) then
    st <| Root_StickyReroutePending := true |>
       <| Root_StickyReason := fmt_Sprintf "high_cost root=%d gate=%d" [AInt st.(Root_HighCostCalls); AInt (gateHigh st)] |>
  else st.

Definition recordTool (cfg : GateConfig) (env : HookEnv) (hook : HookInput) (st : RootState) : RootState * GateDecision :=
  let name := hook.(HookInput_ToolName) in
  let st := st <| Root_LastToolName := name |> in
  let st := recordFastPath env hook st in
  let st := recordHints hook st in
  let '(st, pressure) := applyContextPressure env st in
  if isControlTool name then
    (st, if pressure == "soft" then mkGateDecision "" "" (contextPressureContext env st) "recorded_control" else inState_ "recorded_control")
  else
  let st := armSticky cfg (countTool hook st) in
  let st := refreshLifecycle cfg env (env.(he_now) 3) hook st in
  (st, if st.(Root_VerifiedStop) then mkGateDecision "" "" (verifiedStopContext st) "verified_stop_latched" else inState_ "recorded").

(** * Deciding on a tool *)

(** The denials by a budget, in the order they are tried. *)
Definition bashBudget (hook : HookInput) (st : RootState) : option GateDecision :=
  if hook.(HookInput_ToolName) != "Bash" then None else
  let class := bashClass hook.(HookInput_ToolInput) in
  if (class == "deploy") && (rootMaxDeploy <=? st.(Root_DeployCalls))%Z then
    Some (denying "deploy_budget_deny" (fmt_Sprintf "CLAUDEX_DEPLOY_BUDGET: %d deploys already used (cap %d)" [AInt st.(Root_DeployCalls); AInt rootMaxDeploy]) "")
  else if (class == "test") && (rootMaxTestBash <=? st.(Root_TestCalls))%Z then
    Some (denying "test_budget_deny" (fmt_Sprintf "CLAUDEX_TEST_BASH_BUDGET: %d test bash calls (cap %d)" [AInt st.(Root_TestCalls); AInt rootMaxTestBash]) "")
  else None.

Definition stickyBlock (hook : HookInput) (st : RootState) : option GateDecision :=
  let name := hook.(HookInput_ToolName) in
  if negb st.(Root_StickyReroutePending) then None else
  if isHighCost name then
    Some (denying "sticky_deny" "CLAUDEX_STICKY_REROUTE: call mcp__claudex-flow__ack_reroute with open gate_id, remaining_acceptance, and worker_decision before more high-cost tools" (stickyContext st))
  else if (name == "Bash") && existsb (String.eqb (bashClass hook.(HookInput_ToolInput))) ["test"; "deploy"; "mutate"] then
    Some (denying "sticky_deny" "CLAUDEX_STICKY_REROUTE: mutating/test/deploy Bash blocked until ack_reroute" (stickyContext st))
  else None.

Definition verifyBudget (cfg : GateConfig) (hook : HookInput) (st : RootState) : option GateDecision :=
  let key := verifyKey hook.(HookInput_ToolName) hook.(HookInput_ToolInput) in
  if key == "" then None else
  let rootN := countOf st.(Root_VerifyCounts) key in
  let gateN := ofGate (λ g, countOf g.(GateRecord_VerifyCounts) key) 0%Z st in
  if (cfg.(GateConfig_MaxSameVerify) <=? rootN)%Z || (cfg.(GateConfig_GateMaxSameVerify) <=? gateN)%Z then
    Some (denying "verify_budget_deny" (fmt_Sprintf "CLAUDEX_VERIFY_BUDGET: fingerprint ran root=%d gate=%d (caps %d/%d)"
      [AInt rootN; AInt gateN; AInt cfg.(GateConfig_MaxSameVerify); AInt cfg.(GateConfig_GateMaxSameVerify)])
      "CLAUDEX_GATE: stop repeating the same check. Change one variable or state a new hypothesis.")
  else None.

Definition playwrightBudget (cfg : GateConfig) (hook : HookInput) (st : RootState) : option GateDecision :=
  if isPlaywright hook.(HookInput_ToolName) &&
     ((cfg.(GateConfig_MaxPlaywright) <=? st.(Root_PlaywrightCalls))%Z ||
      ofGate (λ g, (cfg.(GateConfig_GateMaxPlaywright) <=? g.(GateRecord_PlaywrightCalls))%Z) false st) then
    Some (denying "playwright_budget_deny" (fmt_Sprintf "CLAUDEX_PLAYWRIGHT_BUDGET: root=%d/%d gate=%d/%d"
      [AInt st.(Root_PlaywrightCalls); AInt cfg.(GateConfig_MaxPlaywright); AInt (gatePW st); AInt cfg.(GateConfig_GateMaxPlaywright)])
      "CLAUDEX_GATE: Playwright budget exhausted (Root and/or current gate).")
  else None.

Definition screenshotBudget (cfg : GateConfig) (hook : HookInput) (st : RootState) : option GateDecision :=
  if isScreenshot hook.(HookInput_ToolName) &&
     ((cfg.(GateConfig_MaxScreenshot) <=? st.(Root_ScreenshotCalls))%Z ||
      ofGate (λ g, (cfg.(GateConfig_GateMaxScreenshot) <=? g.(GateRecord_ScreenshotCalls))%Z) false st) then
    Some (denying "screenshot_budget_deny" (fmt_Sprintf "CLAUDEX_SCREENSHOT_BUDGET: root=%d/%d gate=%d/%d"
      [AInt st.(Root_ScreenshotCalls); AInt cfg.(GateConfig_MaxScreenshot); AInt (gateShot st); AInt cfg.(GateConfig_GateMaxScreenshot)])
      "CLAUDEX_GATE: screenshot budget exhausted.")
  else None.

Definition highCostBudget (cfg : GateConfig) (hook : HookInput) (st : RootState) : option GateDecision :=
  if isHighCost hook.(HookInput_ToolName) &&
     ((cfg.(GateConfig_HighCostHard) <=? st.(Root_HighCostCalls))%Z ||
      ofGate (λ g, (cfg.(GateConfig_GateHighCostHard) <=? g.(GateRecord_HighCostCalls))%Z) false st) then
    Some (denying "high_cost_budget_deny" (fmt_Sprintf "CLAUDEX_HIGH_COST_BUDGET: root=%d/%d gate=%d/%d"
      [AInt st.(Root_HighCostCalls); AInt cfg.(GateConfig_HighCostHard); AInt (gateHigh st); AInt cfg.(GateConfig_GateHighCostHard)]) (stickyContext st))
  else None.

(** The end of [evaluatePre]: destructive git, the budgets, the context pressure. *)
Definition evaluateBudgets (cfg : GateConfig) (env : HookEnv) (hook : HookInput) (st : RootState) : GateDecision :=
  let name := hook.(HookInput_ToolName) in
  if (name == "Bash") && bashIsDestructiveGit hook.(HookInput_ToolInput) then
    denying "git_destructive_deny" "CLAUDEX_GIT_DESTRUCTIVE: git reset --hard / push --force blocked; use explicit user approval outside automated thrash" ""
  else
  match bashBudget hook st with Some d => d | None =>
  match stickyBlock hook st with Some d => d | None =>
  match verifyBudget cfg hook st with Some d => d | None =>
  match playwrightBudget cfg hook st with Some d => d | None =>
  match screenshotBudget cfg hook st with Some d => d | None =>
  match highCostBudget cfg hook st with Some d => d | None =>
  if st.(Root_ContextPressure) == "soft" then allowing "context_soft" (contextPressureContext env st)
  else if (st.(Root_ContextPressure) == "hard") && (isPlaywright name || isScreenshot name || (name == "Bash")) then
    denying "context_hard_deny" "CLAUDEX_CONTEXT_HARD: large-output tools blocked; compact or hand off" (contextPressureContext env st)
  else allowing "allow" ""
  end end end end end end.

(** A lease that covers the use, and is one action poorer afterwards. *)
Definition consumeOverride (lease : OverrideLease) (st : RootState) : RootState :=
  let lease := lease <| OverrideLease_RemainingActions := (lease.(OverrideLease_RemainingActions) - 1)%Z |> in
  st <| Root_Override := if (lease.(OverrideLease_RemainingActions) <=? 0)%Z then None else Some lease |>.

Definition coveringLease (hook : HookInput) (st : RootState) : option OverrideLease :=
  lease ← st.(Root_Override);
  if negb st.(Root_HandoffRequired) && overrideCovers lease hook.(HookInput_ToolName) hook.(HookInput_ToolInput) then Some lease else None.

Definition evaluatePre (cfg : GateConfig) (env : HookEnv) (hook : HookInput) (st : RootState) : RootState * GateDecision :=
  let name := hook.(HookInput_ToolName) in
  let st := refreshLifecycle cfg env (env.(he_now) 3) hook st in
  let st := expireOverride (env.(he_now) 4) st in
  if st.(Root_VerifiedStop) then
    (st, if isVerifiedStopControl name then allowing "verified_stop_control_allow" (verifiedStopContext st)
         else denying "verified_stop_deny" "CLAUDEX_VERIFIED_HARD_STOP: deterministic verifier already passed; no more tools on this turn" (verifiedStopContext st))
  else if st.(Root_FastPathActive) then (st, evaluateFastPathPre env st hook)
  else if env.(he_workflowStrict) && isNativeCoordinationTool name then
    (st, denying "strict_coordination_deny" "CLAUDEX_WORKFLOW_STRICT: native Agent/Task coordination denied; use one event-returning mcp__claudex-flow__start_worker call only after ROI admission"
       "CLAUDEX_STRICT: keep short and serial work Supervisor-direct; do not poll worker state.")
  else if isControlTool name then (st, allowing "control_allow" "")
  else
  match coveringLease hook st with
  | Some lease => (consumeOverride lease st, allowing "override_allow" "CLAUDEX_GATE_OVERRIDE: consumed one lease action.")
  | None =>
      if st.(Root_HandoffRequired) || st.(Root_OverflowLatched) then
        (st, match handoffBlocks name with
             | Some why => denying "handoff_deny" ("CLAUDEX_ROOT_HANDOFF_REQUIRED: " +:+ st.(Root_HandoffReason) +:+ "; " +:+ why) (lifecycleContext st)
             | None => allowing "handoff_allow_readonly" (lifecycleContext st)
             end)
      else (st, evaluateBudgets cfg env hook st)
  end.

(** * Events *)

Definition recordCompact (st : RootState) : RootState :=
  let st := st <| Root_CompactCount := (st.(Root_CompactCount) + 1)%Z |> <| Root_LatestPromptTokens := 0%Z |> <| Root_ToolResultBytesWindow := 0%Z |> in
  if st.(Root_ContextPressure) == "soft" then st <| Root_ContextPressure := "" |> else st.

Definition handoffLatched (st : RootState) : bool := st.(Root_OverflowLatched) || st.(Root_HandoffRequired).

(** The switch of [Run] on the event. *)
Definition dispatchEvent (cfg : GateConfig) (env : HookEnv) (hook : HookInput) (st : RootState) : RootState * GateDecision * list gateEvent :=
  let event := hook.(HookInput_HookEventName) in
  if event == "SessionStart" then
    (st, mkGateDecision "" "" (if handoffLatched st then lifecycleContext st else "") "session_start", [])
  else if event == "UserPromptSubmit" then
    let '(st, decision, events) := handleUserPrompt env hook st in
    (st, if handoffLatched st && (decision.(GateDecision_Context) == "") then decision <| GateDecision_Context := lifecycleContext st |> else decision, events)
  else if (event == "PreCompact") || (event == "PostCompact") then
    let st := if event == "PostCompact" then recordCompact st else st in
    (refreshLifecycle cfg env (env.(he_now) 3) hook st, inState_ "compact_recorded", [])
  else if (event == "PostToolUse") || (event == "PostToolUseFailure") then (recordTool cfg env hook st, [])
  else if (event == "StopFailure") || (event == "Stop") then (handleStopFailure hook st, [])
  else if event == "PreToolUse" then (evaluatePre cfg env hook st, [])
  else (st, inState_ "ignored", []).

(** The capsule of a handoff, when it is first required. *)
Definition writeCapsule (env : HookEnv) (st : RootState) (decision : GateDecision) : RootState * GateDecision * list gateEvent :=
  if st.(Root_HandoffRequired) && (st.(Root_HandoffJSONPath) == "") then
    match env.(he_capsule) with
    | inl (json, md) => (st <| Root_HandoffJSONPath := json |> <| Root_HandoffMDPath := md |>, decision, [])
    | inr err =>
        let failure := "CLAUDEX_HANDOFF_CAPSULE_FAILURE: " +:+ error_Error err in
        (st, decision <| GateDecision_Context := if decision.(GateDecision_Context) == "" then failure
                                                 else decision.(GateDecision_Context) +:+ " | " +:+ failure |>,
         [mkGateEvent "handoff_capsule_failure" (formatTime (env.(he_now) 6)) st.(Root_SessionID) "" "" "" (error_Error err) ""])
    end
  else (st, decision, []).

(** The state of a session as it is loaded; a fresh one when there is none. *)
Definition loadStateUnlocked (sessionID : string) (now : Time) (w : GateWorld) : RootState :=
  match w.(gw_states) !! statePath sessionID with
  | Some st => if st.(Root_SessionID) == "" then newRootState sessionID (formatTime now) else repairLoaded st
  | None => newRootState sessionID (formatTime now)
  end.

Definition saveStateUnlocked (st : RootState) (w : GateWorld) : GateWorld :=
  w <| gw_states := <[statePath st.(Root_SessionID) := st <| Root_SchemaVersion := schemaVersion |>]> w.(gw_states) |>.

Definition logEvents (events : list gateEvent) (w : GateWorld) : GateWorld := w <| gw_events := w.(gw_events) ++ events |>.

(** The changes of an event to the state, between its load and its save. *)
Definition processEvent (cfg : GateConfig) (env : HookEnv) (hook : HookInput) (st : RootState) : RootState * GateDecision * list gateEvent :=
  let st := refreshLifecycle cfg env (env.(he_now) 1) hook st in
  let st := expireOverride (env.(he_now) 2) st in
  let st := ingestUsageHint env hook st in
  let '(st, decision, events) := dispatchEvent cfg env hook st in
  let '(st, decision, events') := writeCapsule env st decision in
  (st <| Root_UpdatedAt := formatTime (env.(he_now) 7) |>, decision, events ++ events').

(** What is written to the standard output. *)
Record SpecificOutput : Type := mkSpecificOutput {
  SpecificOutput_HookEventName : string; SpecificOutput_PermissionDecision : string;
  SpecificOutput_PermissionDecisionReason : string; SpecificOutput_AdditionalContext : string;
}.
Definition encodeDecision (event : string) (d : GateDecision) : option SpecificOutput :=
  let context := d.(GateDecision_Context) in
  if event == "PreToolUse" then
    if (d.(GateDecision_Permission) != "deny") && (context == "") then None
    else Some (mkSpecificOutput event d.(GateDecision_Permission) (if d.(GateDecision_Permission) != "" then d.(GateDecision_Reason) else "") context)
  else if (event == "UserPromptSubmit") && (context != "") then Some (mkSpecificOutput event "" "" context)
  else if (context == "") || (event == "PostCompact") || (event == "PreCompact") then None
  else Some (mkSpecificOutput event "" "" context).

Definition isActualChildSession (env : HookEnv) : bool := env.(he_childSession) && negb env.(he_supervisorRole).

(** [Run] on an input that was read ([Err] when that failed or it is too large) and
    decoded ([Err] when it is not a hook event). *)
Definition Run (config : GateConfig) (env : HookEnv) (input : result (result HookInput)) (w : GateWorld)
  : GateWorld * result (GateDecision * option SpecificOutput) :=
  let cfg := normalizeConfig config in
  match input with
  | Err err => (w, Err err)
  | Panic => (w, Panic)
  | Ok decoded =>
      if isActualChildSession env then (w, Ok (inState_ "child_skip", None)) else
      match decoded with
      | Err err => (w, Err (Errorf "decode supervisor-gate hook: %w" [AWrap err]))
      | Panic => (w, Panic)
      | Ok hook =>
          if strings_TrimSpace hook.(HookInput_SessionID) == "" then (w, Ok (inState_ "no_session", None)) else
          let internal := λ err w, (logEvents [mkGateEvent "gate_internal_failure" (formatTime (env.(he_now) 8)) hook.(HookInput_SessionID)
            hook.(HookInput_HookEventName) hook.(HookInput_ToolName) "" (error_Error err) ""] w, Err err) in
          match env.(he_load) with
          | Some err => internal err w
          | None =>
              let st := loadStateUnlocked hook.(HookInput_SessionID) (env.(he_now) 0) w in
              let '(st, decision, events) := processEvent cfg env hook st in
              let w := logEvents events w in
              match env.(he_save) with
              | Some err => internal err w
              | None =>
                  let w := saveStateUnlocked st w in
                  let w := if decision.(GateDecision_Permission) == "deny" then
                    logEvents [mkGateEvent "gate_deny" st.(Root_UpdatedAt) st.(Root_SessionID) hook.(HookInput_HookEventName) hook.(HookInput_ToolName)
                      decision.(GateDecision_State) decision.(GateDecision_Reason) "deny"] w else w in
                  (w, Ok (decision, encodeDecision hook.(HookInput_HookEventName) decision))
              end
          end
      end
  end.

(** * Operations on gates *)

Record DeclareGateInput : Type := mkDeclareGateInput {
  DeclareGateInput_SessionID : string; DeclareGateInput_GateID : string; DeclareGateInput_Acceptance : list string;
  DeclareGateInput_StopCondition : string;
}.
Record CloseGateInput : Type := mkCloseGateInput {
  CloseGateInput_SessionID : string; CloseGateInput_GateID : string; CloseGateInput_Status : string;
}.
Record AckRerouteInput : Type := mkAckRerouteInput {
  AckRerouteInput_SessionID : string; AckRerouteInput_GateID : string; AckRerouteInput_RemainingAcceptance : list string;
  AckRerouteInput_WorkerDecision : string; AckRerouteInput_HypothesisChange : string;
}.

Definition cleanStrings (l : list string) : list string := List.filter (λ s, s != "") (strings_TrimSpace <$> l).

(** [^[a-zA-Z0-9][a-zA-Z0-9._-]{0,63}$] *)
Definition isAlphanumeric (c : Ascii.ascii) : bool :=
  let n := Ascii.N_of_ascii c in (((97 <=? n) && (n <=? 122)) || ((65 <=? n) && (n <=? 90)) || ((48 <=? n) && (n <=? 57)))%N.
Definition validGateID (id : string) : bool :=
  match String.list_ascii_of_string id with
  | c :: l => isAlphanumeric c && forallb (λ c, isAlphanumeric c || Ascii.eqb c (byte 46) || Ascii.eqb c (byte 95) || Ascii.eqb c (byte 45)) l &&
      (length l <=? 63)%nat
  | [] => false
  end.

Definition acceptanceHash (acceptance : list string) (stop : string) : string :=
  gate_digest (strings_Join acceptance newline +:+ String (byte 0) stop).

(** A change of the state of a session under its lock, logged when it is saved; the
    status that is returned shows the state. *)
Definition gateTransaction (env : HookEnv) (sessionID : string) (now : Time) (change : RootState → result (RootState * gateEvent)) (w : GateWorld)
  : GateWorld * result RootState :=
  match env.(he_load) with
  | Some err => (w, Err err)
  | None =>
      match change (loadStateUnlocked sessionID now w) with
      | Ok (st, event) =>
          match env.(he_save) with
          | Some err => (w, Err err)
          | None => (logEvents [event] (saveStateUnlocked st w), Ok st)
          end
      | Err err => (w, Err err)
      | Panic => (w, Panic)
      end
  end.

Definition opTime (env : HookEnv) (now : Time) : Time := if Time_IsZero now then env.(he_now) 0 else now.

Definition declare (input : DeclareGateInput) (gateID : string) (acceptance : list string) (now : Time) (st : RootState)
  : result (RootState * gateEvent) :=
  let stop := strings_TrimSpace input.(DeclareGateInput_StopCondition) in
  let hash := acceptanceHash acceptance stop in
  fail_if (ofGate (λ g, g.(GateRecord_Status) == "open") false st)
    (Errorf "gate %q is still open; close_gate or abandon it first" [AStr (ofGate GateRecord_GateID "" st)]) ;;
  fail_if (gateIDUsed st gateID) (Errorf "gate_id %q already used in this Root" [AStr gateID]) ;;
  fail_if (maxGatesPerRoot <=? Z.of_nat (length st.(Root_UsedGateIDs)))%Z (Errorf "Root gate budget exhausted: max %d gates" [AInt maxGatesPerRoot]) ;;
  fail_if ((lastClosedHash st != "") && (lastClosedHash st == hash))
    (Errorf "acceptance hash matches previous gate; change acceptance or stop_condition" []) ;;
  let rec := mkGateRecord gateID acceptance stop hash "open" (formatTime now) "" 0 0 0 ∅ in
  Ok (st <| Root_OpenGate := Some rec |> <| Root_UsedGateIDs := st.(Root_UsedGateIDs) ++ [gateID] |> <| Root_UpdatedAt := formatTime now |>,
      mkGateEvent "declare_gate" (formatTime now) (strings_TrimSpace input.(DeclareGateInput_SessionID)) "" "" "open" gateID "").

Definition DeclareGate (env : HookEnv) (input : DeclareGateInput) (now : Time) (w : GateWorld) : GateWorld * result RootState :=
  let now := opTime env now in
  let sessionID := strings_TrimSpace input.(DeclareGateInput_SessionID) in
  let gateID := strings_TrimSpace input.(DeclareGateInput_GateID) in
  if sessionID == "" then (w, Err (Errorf "session_id is required" [])) else
  if negb (validGateID gateID) then (w, Err (Errorf "gate_id must be 1-64 chars [A-Za-z0-9._-]" [])) else
  let acceptance := cleanStrings input.(DeclareGateInput_Acceptance) in
  if (length acceptance =? 0)%nat then (w, Err (Errorf "acceptance requires at least one criterion" [])) else
  gateTransaction env sessionID now (declare input gateID acceptance now) w.

Definition closeOpen (sessionID gateID status : string) (now : Time) (st : RootState) : result (RootState * gateEvent) :=
  match st.(Root_OpenGate) with
  | Some gate =>
      fail_if (gate.(GateRecord_GateID) != gateID) (Errorf "no open gate %q" [AStr gateID]) ;;
      let rec := gate <| GateRecord_Status := status |> <| GateRecord_ClosedAt := formatTime now |> in
      Ok (st <| Root_GateHistory := st.(Root_GateHistory) ++ [rec] |> <| Root_OpenGate := None |> <| Root_UpdatedAt := formatTime now |>,
          mkGateEvent "close_gate" (formatTime now) sessionID "" "" status gateID "")
  | None => Err (Errorf "no open gate %q" [AStr gateID])
  end.

Definition CloseGate (env : HookEnv) (input : CloseGateInput) (now : Time) (w : GateWorld) : GateWorld * result RootState :=
  let now := opTime env now in
  let sessionID := strings_TrimSpace input.(CloseGateInput_SessionID) in
  let gateID := strings_TrimSpace input.(CloseGateInput_GateID) in
  let status := strings_TrimSpace input.(CloseGateInput_Status) in
  let status := if status == "" then "closed" else status in
  if (status != "closed") && (status != "abandoned") then (w, Err (Errorf "status must be closed or abandoned" [])) else
  if (sessionID == "") || (gateID == "") then (w, Err (Errorf "session_id and gate_id are required" [])) else
  gateTransaction env sessionID now (closeOpen sessionID gateID status now) w.

Definition acknowledge (sessionID gateID worker : string) (now : Time) (st : RootState) : result (RootState * gateEvent) :=
  fail_if (negb st.(Root_StickyReroutePending)) (Errorf "no sticky re-route pending" []) ;;
  fail_if (negb (ofGate (λ g, g.(GateRecord_GateID) == gateID) false st)) (Errorf "ack_reroute requires open gate_id %q" [AStr gateID]) ;;
  Ok (st <| Root_StickyReroutePending := false |> <| Root_StickyReason := "" |> <| Root_UpdatedAt := formatTime now |>,
      mkGateEvent "ack_reroute" (formatTime now) sessionID "" "" "cleared" (gateID +:+ " worker=" +:+ worker) "").

Definition AckReroute (env : HookEnv) (input : AckRerouteInput) (now : Time) (w : GateWorld) : GateWorld * result RootState :=
  let now := opTime env now in
  let sessionID := strings_TrimSpace input.(AckRerouteInput_SessionID) in
  let gateID := strings_TrimSpace input.(AckRerouteInput_GateID) in
  if (sessionID == "") || (gateID == "") then (w, Err (Errorf "session_id and gate_id are required" [])) else
  if (length (cleanStrings input.(AckRerouteInput_RemainingAcceptance)) =? 0)%nat
  then (w, Err (Errorf "remaining_acceptance requires at least one item" [])) else
  let wd := strings_TrimSpace (gate_ToLower input.(AckRerouteInput_WorkerDecision)) in
  if (wd != "none") && (wd != "start") && (wd != "resume") then (w, Err (Errorf "worker_decision must be none, start, or resume" [])) else
  gateTransaction env sessionID now (acknowledge sessionID gateID wd now) w.

(** [LoadStatus]: the state that is shown, when there is one. *)
Definition LoadStatus (env : HookEnv) (sessionID : string) (w : GateWorld) : result (option RootState) :=
  let sessionID := strings_TrimSpace sessionID in
  fail_if (sessionID == "") (Errorf "session_id is required" []) ;;
  match env.(he_load) with
  | Some err => Err err
  | None =>
      Ok (match w.(gw_states) !! statePath sessionID with
          | Some st => if st.(Root_SessionID) == "" then None else Some (repairLoaded st)
          | None => None
          end)
  end.

End run.
