(* ===== verification/HookSystem.v ===== *)
(** The Supervisor gate as a system of operations on its files, and runs of it. *)
From stdpp Require Import gmap pretty.
From S2P Require Import Prelude Paths Process Environment SampleSystem HookData HookGate.
From S2P Require Import HookRun.

(** The Supervisor gate as a system: operations on its files in any order, each under the
    lock of its session, and what single operations keep of a state. *)

Section system.
Context {golib : GoLib} {lib : GateLib} (config : GateConfig).
Abbreviation cfg := (normalizeConfig config).
Implicit Types (st : RootState) (w : GateWorld) (env : HookEnv) (hook : HookInput).

(** * Operations *)

Inductive GateOp : Type :=
  | OpEvent (env : HookEnv) (input : result (result HookInput))
  | OpDeclare (env : HookEnv) (input : DeclareGateInput) (now : Time)
  | OpClose (env : HookEnv) (input : CloseGateInput) (now : Time)
  | OpAck (env : HookEnv) (input : AckRerouteInput) (now : Time).

Definition perform (op : GateOp) (w : GateWorld) : GateWorld :=
  match op with
  | OpEvent env input => (Run config env input w).1
  | OpDeclare env input now => (DeclareGate env input now w).1
  | OpClose env input now => (CloseGate env input now w).1
  | OpAck env input now => (AckReroute env input now w).1
  end.
Definition performAll (ops : list GateOp) (w : GateWorld) : GateWorld := foldl (λ w op, perform op w) w ops.

(** The hook event of an operation and what was decided on it, when the state of the
    session was read and written back. *)
Definition decided (op : GateOp) (w : GateWorld) : option (HookInput * GateDecision) :=
  match op with
  | OpEvent env (Ok (Ok hook)) =>
      if isActualChildSession env then None else
      if strings_TrimSpace hook.(HookInput_SessionID) == "" then None else
      match (Run config env (Ok (Ok hook)) w).2 with Ok (decision, _) => Some (hook, decision) | _ => None end
  | _ => None
  end.

(** * Changes of one state *)

(** What one operation does to the state of its session. *)
Inductive change : RootState → option (HookInput * GateDecision) → RootState → Prop :=
  | change_event env hook st st' decision events :
      processEvent cfg env hook st = (st', decision, events) → change st (Some (hook, decision)) st'
  | change_declare input gateID acceptance now st st' event :
      declare input gateID acceptance now st = Ok (st', event) → change st None st'
  | change_close sessionID gateID status now st st' event :
      status ≠ "open" → closeOpen sessionID gateID status now st = Ok (st', event) → change st None st'
  | change_ack sessionID gateID worker now st st' event :
      acknowledge sessionID gateID worker now st = Ok (st', event) → change st None st'.

(** The state an operation starts from. *)
Definition fromSlot (sessionID : string) (now : Time) (slot : option RootState) : RootState :=
  match slot with
  | Some st => if st.(Root_SessionID) == "" then newRootState sessionID (formatTime now) else repairLoaded st
  | None => newRootState sessionID (formatTime now)
  end.

Definition saved st : RootState := st <| Root_SchemaVersion := schemaVersion |>.

(** A file is changed; an event is the one of its session. *)
Definition changed w (label : option (HookInput * GateDecision)) w' : Prop := ∃ sessionID now st,
  sessionID ≠ "" ∧ change (fromSlot sessionID now (w.(gw_states) !! statePath sessionID)) label st ∧
  (∀ hook d, label = Some (hook, d) → sessionID = hook.(HookInput_SessionID)) ∧
  w'.(gw_states) = <[statePath st.(Root_SessionID) := saved st]> w.(gw_states).

Lemma gateTransaction_inv env sessionID now f w w' r :
  gateTransaction env sessionID now f w = (w', r) →
  w'.(gw_states) = w.(gw_states) ∨ ∃ st event, f (fromSlot sessionID now (w.(gw_states) !! statePath sessionID)) = Ok (st, event) ∧
    w'.(gw_states) = <[statePath st.(Root_SessionID) := saved st]> w.(gw_states).
Proof.
  unfold gateTransaction. destruct (he_load env); [intros [= <- <-]; by left|].
  destruct (f _) as [[st event]|err|] eqn:E; [|intros [= <- <-]; by left..].
  destruct (he_save env); intros [= <- <-]; [by left|right]. by exists st, event.
Qed.

(** Every operation leaves the files alone, or changes one of them. *)
Lemma perform_changes op w :
  ((perform op w).(gw_states) = w.(gw_states) ∧ decided op w = None) ∨ changed w (decided op w) (perform op w).
Proof.
  destruct op as [env input|env input now|env input now|env input now]; cbn [perform decided].
  - destruct input as [[hook|err|]|err|]; [|cbn; destruct (isActualChildSession env); by left|cbn; destruct (isActualChildSession env); by left|by left..].
    unfold Run. cbv zeta. destruct (isActualChildSession env); [by left|].
    destruct (strings_TrimSpace (HookInput_SessionID hook) == "") eqn:Es; [by left|].
    destruct (he_load env); [by left|].
    destruct (processEvent cfg env hook (loadStateUnlocked (HookInput_SessionID hook) (he_now env 0) w)) as [[st decision] events] eqn:E.
    destruct (he_save env); [by left|]. right. exists (HookInput_SessionID hook), (he_now env 0), st.
    split_and!; [by intros Ee; rewrite Ee in Es|by econstructor|by intros ? ? [= -> _]|]. by destruct (_ == "deny").
  - unfold DeclareGate. cbv zeta. destruct (String.eqb_spec (strings_TrimSpace (DeclareGateInput_SessionID input)) "") as [|Es]; [by left|].
    destruct (negb _); [by left|]. destruct (length _ =? 0)%nat; [by left|].
    destruct (gateTransaction _ _ _ _ _) as [w' r] eqn:E. apply gateTransaction_inv in E as [E|(st & event & E & Ew)]; [by left|right].
    eexists _, _, st. split_and!; [exact Es|by econstructor|done|exact Ew].
  - unfold CloseGate. cbv zeta. set (status := if strings_TrimSpace (CloseGateInput_Status input) == "" then "closed" else _).
    destruct ((status != "closed") && (status != "abandoned")) eqn:Est; [by left|].
    destruct (String.eqb_spec (strings_TrimSpace (CloseGateInput_SessionID input)) "") as [|Es]; [by left|]. cbn [orb].
    destruct (strings_TrimSpace (CloseGateInput_GateID input) == ""); [by left|].
    destruct (gateTransaction _ _ _ _ _) as [w' r] eqn:E. apply gateTransaction_inv in E as [E|(st & event & E & Ew)]; [by left|right].
    eexists _, _, st. split_and!; [exact Es| |done|exact Ew]. eapply change_close; [|exact E]. intros E'. by rewrite E' in Est.
  - unfold AckReroute. cbv zeta. destruct (String.eqb_spec (strings_TrimSpace (AckRerouteInput_SessionID input)) "") as [|Es]; [by left|]. cbn [orb].
    destruct (strings_TrimSpace (AckRerouteInput_GateID input) == ""); [by left|].
    destruct (length _ =? 0)%nat; [by left|]. destruct (_ && _); [by left|].
    destruct (gateTransaction _ _ _ _ _) as [w' r] eqn:E. apply gateTransaction_inv in E as [E|(st & event & E & Ew)]; [by left|right].
    eexists _, _, st. split_and!; [exact Es|by econstructor|done|exact Ew].
Qed.

(** * The core of a state *)

(** What only events of their own kind change: the session, the counters, the gates, the
    Fast Path, the sticky re-route and the latches. *)
Definition rootCounters st : Z * Z * Z * Z * Z * gmap string Z :=
  (st.(Root_PlaywrightCalls), st.(Root_ScreenshotCalls), st.(Root_HighCostCalls), st.(Root_DeployCalls), st.(Root_TestCalls), st.(Root_VerifyCounts)).
Definition gates st : option GateRecord * list GateRecord * list string := (st.(Root_OpenGate), st.(Root_GateHistory), st.(Root_UsedGateIDs)).
Definition fastPath st : bool * string * string * bool * bool :=
  (st.(Root_FastPathActive), st.(Root_FastPathTarget), st.(Root_FastPathVerifier), st.(Root_FastPathEdited), st.(Root_FastPathDiffSeen)).

(** The actions an override still allows. *)
Definition leaseActions st : Z := match st.(Root_Override) with Some lease => Z.max 0 lease.(OverrideLease_RemainingActions) | None => 0%Z end.

Record quiet st st' : Prop := {
  quiet_session : st'.(Root_SessionID) = st.(Root_SessionID);
  quiet_counters : rootCounters st' = rootCounters st;
  quiet_gates : gates st' = gates st;
  quiet_fast : fastPath st' = fastPath st;
  quiet_verified : st'.(Root_VerifiedStop) = st.(Root_VerifiedStop);
  quiet_sticky : st'.(Root_StickyReroutePending) = st.(Root_StickyReroutePending);
  quiet_overflow : st.(Root_OverflowLatched) = true → st'.(Root_OverflowLatched) = true;
  quiet_handoff : st.(Root_HandoffRequired) = true → st'.(Root_HandoffRequired) = true;
  quiet_override : (leaseActions st' ≤ leaseActions st)%Z;
}.

#[export] Instance quiet_preorder : PreOrder quiet.
Proof.
  split.
  - intros st. split; auto. reflexivity.
  - intros st st1 st2 [] []. split; try congruence; auto. by etrans.
Qed.

Lemma leaseActions_pos st : (0 ≤ leaseActions st)%Z.
Proof. unfold leaseActions. destruct (Root_Override st); lia. Qed.

Ltac solve_quiet := split; cbn; auto; first [reflexivity|apply leaseActions_pos|unfold leaseActions; cbn; reflexivity].

Lemma refresh_quiet env now hook st : quiet st (refreshLifecycle cfg env now hook st).
Proof.
  unfold refreshLifecycle, requireHandoff. destruct (Root_HandoffRequired st) eqn:Eh; [done|].
  destruct (_ <=? _)%Z; [solve_quiet|]. destruct (match parseTime _ with Some _ => _ | None => _ end); [solve_quiet|].
  cbv zeta. destruct (_ == ""); [done|]. destruct (he_size _ _); [|solve_quiet]. destruct (_ <=? _)%Z; solve_quiet.
Qed.

Lemma expire_quiet now st : quiet st (expireOverride now st).
Proof.
  unfold expireOverride. destruct (Root_Override st) as [lease|] eqn:Eo; [|done].
  cbv zeta. destruct (match parseTime _ with Some _ => _ | None => _ end); [done|solve_quiet].
Qed.

Lemma ingest_quiet env hook st : quiet st (ingestUsageHint env hook st).
Proof.
  unfold ingestUsageHint. cbv zeta. destruct (_ <? _)%Z; [solve_quiet|]. destruct (_ != ""); [|done].
  destruct (he_transcriptTokens _ _); [|done]. destruct (_ <? _)%Z; [solve_quiet|done].
Qed.

Lemma capsule_quiet env st decision st' decision' events :
  writeCapsule env st decision = (st', decision', events) → quiet st st' ∧
  decision'.(GateDecision_Permission) = decision.(GateDecision_Permission) ∧ decision'.(GateDecision_State) = decision.(GateDecision_State).
Proof.
  unfold writeCapsule. destruct (_ && _); [|by intros [= <- <- _]].
  destruct (he_capsule env) as [[json md]|err]; intros [= <- <- _]; (split; [first [done|solve_quiet]|done]).
Qed.

Lemma pressure_quiet env st : quiet st (applyContextPressure env st).1.
Proof.
  unfold applyContextPressure, requireHandoff. cbv zeta. destruct (_ || _); [cbn; destruct (Root_HandoffRequired st) eqn:E; solve_quiet|].
  destruct (_ || _); solve_quiet.
Qed.

Lemma hints_quiet hook st : quiet st (recordHints hook st).
Proof. unfold recordHints. cbv zeta. destruct (_ && _), (_ <? _)%Z; solve_quiet. Qed.

(** An event is its switch, between quiet changes. *)
Lemma processEvent_inv env hook st st' d events : processEvent cfg env hook st = (st', d, events) →
  ∃ st1 st2 d2 events2, quiet st st1 ∧ dispatchEvent cfg env hook st1 = (st2, d2, events2) ∧ quiet st2 st' ∧
    d.(GateDecision_Permission) = d2.(GateDecision_Permission) ∧ d.(GateDecision_State) = d2.(GateDecision_State).
Proof.
  unfold processEvent. cbv zeta. set (st1 := ingestUsageHint env hook _).
  destruct (dispatchEvent cfg env hook st1) as [[st2 d2] events2] eqn:Ed.
  destruct (writeCapsule env st2 d2) as [[st3 d3] events3] eqn:Ec. intros [= <- <- <-].
  apply capsule_quiet in Ec as (Hq & Hp & Hs). exists st1, st2, d2, events2. split; [|split; [done|split; [|done]]].
  - unfold st1. etrans; [|apply ingest_quiet]. etrans; [|apply expire_quiet]. apply refresh_quiet.
  - etrans; [exact Hq|]. solve_quiet.
Qed.

(** ** The switch *)

(** Decisions on events that are not about tools. *)
Definition remarks (d : GateDecision) : Prop :=
  d.(GateDecision_Permission) = "" ∧ d.(GateDecision_State) ∈ ["session_start"; "compact_recorded"; "overflow_latched"; "stop_observed"; "ignored"].

Lemma dispatch_cases env hook st st' d events : dispatchEvent cfg env hook st = (st', d, events) →
  let event := hook.(HookInput_HookEventName) in
  (event = "UserPromptSubmit" ∧ ∃ d0, handleUserPrompt env hook st = (st', d0, events) ∧
     d.(GateDecision_Permission) = d0.(GateDecision_Permission) ∧ d.(GateDecision_State) = d0.(GateDecision_State)) ∨
  ((event = "PostToolUse" ∨ event = "PostToolUseFailure") ∧ recordTool cfg env hook st = (st', d)) ∨
  (event = "PreToolUse" ∧ evaluatePre cfg env hook st = (st', d)) ∨
  (event ∉ ["UserPromptSubmit"; "PostToolUse"; "PostToolUseFailure"; "PreToolUse"] ∧ quiet st st' ∧ remarks d).
Proof.
  unfold dispatchEvent. cbv zeta. generalize (HookInput_HookEventName hook) as event. intros event.
  destruct (String.eqb_spec event "SessionStart") as [->|].
  { intros [= <- <- _]. right; right; right. split; [set_solver|]. split; [done|]. split; [done|by left]. }
  destruct (String.eqb_spec event "UserPromptSubmit") as [->|].
  { destruct (handleUserPrompt env hook st) as [[st1 d1] events1] eqn:E. intros [= <- <- <-]. left. split; [done|]. exists d1.
    split; [done|]. by destruct (_ && _). }
  destruct ((event == "PreCompact") || (event == "PostCompact")) eqn:Ec.
  { intros [= <- <- _]. right; right; right. split.
    { apply orb_true_iff in Ec as [->%String.eqb_eq| ->%String.eqb_eq]; set_solver. }
    split; [|split; [done|by right; left]]. etrans; [|apply refresh_quiet]. destruct (event == "PostCompact"); [|done].
    unfold recordCompact. cbv zeta. destruct (_ == "soft"); solve_quiet. }
  destruct ((event == "PostToolUse") || (event == "PostToolUseFailure")) eqn:Et.
  { destruct (recordTool cfg env hook st) as [st1 d1]. intros [= <- <- _]. right; left. split; [|done].
    apply orb_true_iff in Et as [->%String.eqb_eq| ->%String.eqb_eq]; auto. }
  destruct ((event == "StopFailure") || (event == "Stop")) eqn:Es.
  { destruct (handleStopFailure hook st) as [st1 d1] eqn:E. intros [= <- <- _]. right; right; right. split.
    { apply orb_true_iff in Es as [->%String.eqb_eq| ->%String.eqb_eq]; set_solver. }
    unfold handleStopFailure, requireHandoff in E. cbv zeta in E. destruct (existsb _ _); injection E as <- <-.
    - split; [cbn; destruct (Root_HandoffRequired st) eqn:Eh; solve_quiet|]. split; [done|set_solver].
    - split; [done|]. split; [done|set_solver]. }
  destruct (String.eqb_spec event "PreToolUse") as [->|].
  { destruct (evaluatePre cfg env hook st) as [st1 d1]. intros [= <- <- _]. right; right; left. done. }
  intros [= <- <- _]. right; right; right. apply orb_false_iff in Et as [?%String.eqb_neq ?%String.eqb_neq].
  split; [set_solver|]. split; [done|]. split; [done|set_solver].
Qed.

End system.

(** The Supervisor gate on concrete inputs: a turn on the Fast Path, a session that must
    be handed off, and one that uses a browser. *)

(** The input of a tool is a field, [=] and its text; a prompt names its files and its
    verifier after a space. *)
#[export] Instance sample_gatelib : GateLib := {|
  gate_ToLower := λ s, s;
  strings_EqualFold := String.eqb;
  json_object := λ raw, '(key, v) ← keyValue raw; Some (λ k, if k == key then Some v else None);
  json_string := λ _, None;
  json_interrupted := λ raw, Some (raw == "interrupted", false);
  gate_digest := λ s, s;
  formatTime := λ t, pretty t;
  parseTime := parseWindow;
  softTokens := λ w, (w * 7 / 10)%Z;
  hardTokens := λ w, (w * 9 / 10)%Z;
  codePaths := λ prompt, List.filter (λ word, strings_HasSuffix word ".go") (strings_Fields prompt);
  verifierMatch := λ prompt, fromFirst prompt "go test";
|}.

Definition sample_hooks : HookEnv :=
  mkHookEnv (λ _, 1000%Z) false false false "" "/home/u" (Some "/repo") (λ _, None) (λ _, None) (inl ("h.json", "h.md")) None None.
Definition sample_config : GateConfig := mkGateConfig 0 0 0 0 0 0 0 0%Z 0 0 0 0 0.

(** An event of the session "root". *)
Definition hookOf (event tool input response prompt : string) : HookInput :=
  mkHookInput "root" "" event tool input response "/repo" prompt "" "" "" 0 0 0.
Definition sending (hook : HookInput) : GateOp := OpEvent sample_hooks (Ok (Ok hook)).
Definition asking (tool input : string) : GateOp := sending (hookOf "PreToolUse" tool input "" "").
Definition used (tool input : string) : GateOp := sending (hookOf "PostToolUse" tool input "done" "").
Definition prompting (prompt : string) : GateOp := sending (hookOf "UserPromptSubmit" "" "" "" prompt).
Definition compacting : GateOp := sending (hookOf "PostCompact" "" "" "" "").

Abbreviation sampleWorld ops := (performAll sample_config ops GateWorld_empty).
(** What was decided on an operation after others. *)
Definition decisionAfter (ops : list GateOp) (op : GateOp) : option (string * string) :=
  (λ e : HookInput * GateDecision, (e.2.(GateDecision_Permission), e.2.(GateDecision_State))) <$> decided sample_config op (sampleWorld ops).

(** ** A turn on the Fast Path *)

Definition fastTurn : list GateOp :=
  [prompting "fix the parser.go with go test ./parser"; asking "Edit" "file_path=parser.go"; used "Edit" "file_path=parser.go";
   asking "Bash" "command=go test ./parser"; used "Bash" "command=go test ./parser"].

Example sample_fast :
  decisionAfter (take 1 fastTurn) (asking "Edit" "file_path=parser.go") = Some ("allow", "fast_path_edit_allow") ∧
  decisionAfter (take 1 fastTurn) (asking "Edit" "file_path=main.go") = Some ("deny", "fast_path_deny") ∧
  decisionAfter (take 1 fastTurn) (asking "Bash" "command=go test ./parser") = Some ("deny", "fast_path_deny") ∧
  decisionAfter (take 3 fastTurn) (asking "Bash" "command=go test ./parser") = Some ("allow", "fast_path_verify_allow") ∧
  decisionAfter (take 3 fastTurn) (asking "Bash" "command=git diff -- parser.go") = Some ("allow", "fast_path_diff_allow") ∧
  decisionAfter fastTurn (asking "Read" "file_path=parser.go") = Some ("deny", "verified_stop_deny").
Proof. split_and!; vm_compute; reflexivity. Qed.

Definition sampleState (ops : list GateOp) : RootState := default (newRootState "" "") ((sampleWorld ops).(gw_states) !! "root.json").

Lemma sample_fast_state : (sampleWorld fastTurn).(gw_states) !! "root.json" = Some (sampleState fastTurn) ∧
  (sampleState fastTurn).(Root_VerifiedStop) = true.
Proof. split; vm_compute; reflexivity. Qed.

(** ** A handoff *)

Definition compactedTurn : list GateOp := [compacting; compacting; compacting].

Lemma sample_handoff_state : (sampleWorld compactedTurn).(gw_states) !! "root.json" = Some (sampleState compactedTurn) ∧
  (sampleState compactedTurn).(Root_HandoffRequired) = true ∧ (sampleState compactedTurn).(Root_FastPathActive) = false.
Proof. split_and!; vm_compute; reflexivity. Qed.

Example sample_handoff :
  decisionAfter compactedTurn (asking "Bash" "command=ls") = Some ("deny", "handoff_deny") ∧
  decisionAfter compactedTurn (asking "Write" "file_path=parser.go") = Some ("deny", "handoff_deny") ∧
  decisionAfter compactedTurn (asking "Read" "file_path=parser.go") = Some ("allow", "control_allow") ∧
  decisionAfter compactedTurn (prompting "/gate-override reason=urgent paths=src") = Some ("", "override_blocked_handoff").
Proof. split_and!; vm_compute; reflexivity. Qed.

(** A handoff that is required in the course of a turn on the Fast Path leaves its tools
    allowed. *)
Example sample_fast_handoff :
  decisionAfter (take 1 fastTurn ++ compactedTurn) (asking "Edit" "file_path=parser.go") = Some ("allow", "fast_path_edit_allow") ∧
  (sampleState (take 1 fastTurn ++ compactedTurn)).(Root_HandoffRequired) = true.
Proof. split; vm_compute; reflexivity. Qed.

(** Tools outside the narrow list of a handoff are allowed, as control tools. *)
Example sample_handoff_control :
  isHandoffControlTool "mcp__claudex-flow__route_task" = false ∧
  decisionAfter compactedTurn (asking "mcp__claudex-flow__route_task" "") = Some ("allow", "control_allow").
Proof. split; vm_compute; reflexivity. Qed.

(** ** Browsing *)

Definition browsing (n : nat) : list GateOp :=
  concat (replicate n [asking "browser_click" ""; used "browser_click" ""]).

Example sample_budget :
  decisionAfter (browsing 3) (asking "browser_click" "") = Some ("deny", "verify_budget_deny") ∧
  decisionAfter (browsing 2) (asking "browser_click" "") = Some ("allow", "allow") ∧
  (sampleState (browsing 3)).(Root_PlaywrightCalls) = 3%Z.
Proof. split_and!; vm_compute; reflexivity. Qed.

(** ** An override *)

Definition overriding : list GateOp := [prompting "/gate-override reason=urgent paths=internal"].

Example sample_override :
  decisionAfter [] (prompting "/gate-override reason=urgent paths=internal") = Some ("", "override_issued") ∧
  decisionAfter overriding (asking "Edit" "file_path=internal/a.go") = Some ("allow", "override_allow") ∧
  decisionAfter (overriding ++ [asking "Edit" "file_path=internal/a.go"; asking "Edit" "file_path=internal/a.go"; asking "Edit" "file_path=internal/a.go"])
    (asking "Edit" "file_path=internal/a.go") = Some ("allow", "allow") ∧
  decisionAfter overriding (asking "Edit" "file_path=internal/../secrets/a.go") = Some ("allow", "override_allow").
Proof. split_and!; vm_compute; reflexivity. Qed.
