(* ===== verification/HookSafety.v ===== *)
(** What the Supervisor gate guarantees of a session: a required handoff is final, and a
    verified stop holds until the next prompt. *)
From stdpp Require Import gmap.
From S2P Require Import Prelude Paths Process Environment SampleSystem HookData HookGate.
From S2P Require Import HookRun HookSystem.

Section safety.
Context {golib : GoLib} {lib : GateLib} (config : GateConfig).
Abbreviation cfg := (normalizeConfig config).
Implicit Types (st : RootState) (w : GateWorld) (env : HookEnv) (hook : HookInput).

(** * Handlers *)

(** How [evaluatePre] decides, in the state its checks start from. *)
Inductive pre_case env hook st : RootState → GateDecision → Prop :=
  | pre_verified d : st.(Root_VerifiedStop) = true →
      d = (if isVerifiedStopControl hook.(HookInput_ToolName) then allowing "verified_stop_control_allow" (verifiedStopContext st)
           else denying "verified_stop_deny" "CLAUDEX_VERIFIED_HARD_STOP: deterministic verifier already passed; no more tools on this turn" (verifiedStopContext st)) →
      pre_case env hook st st d
  | pre_fast : st.(Root_VerifiedStop) = false → st.(Root_FastPathActive) = true → pre_case env hook st st (evaluateFastPathPre env st hook)
  | pre_strict reason context : st.(Root_VerifiedStop) = false → st.(Root_FastPathActive) = false →
      pre_case env hook st st (denying "strict_coordination_deny" reason context)
  | pre_control : st.(Root_VerifiedStop) = false → st.(Root_FastPathActive) = false → isControlTool hook.(HookInput_ToolName) = true →
      pre_case env hook st st (allowing "control_allow" "")
  | pre_override lease context : st.(Root_VerifiedStop) = false → st.(Root_FastPathActive) = false →
      isControlTool hook.(HookInput_ToolName) = false → coveringLease hook st = Some lease →
      pre_case env hook st (consumeOverride lease st) (allowing "override_allow" context)
  | pre_handoff d : st.(Root_VerifiedStop) = false → st.(Root_FastPathActive) = false → isControlTool hook.(HookInput_ToolName) = false →
      handoffLatched st = true →
      d = match handoffBlocks hook.(HookInput_ToolName) with
          | Some why => denying "handoff_deny" ("CLAUDEX_ROOT_HANDOFF_REQUIRED: " +:+ st.(Root_HandoffReason) +:+ "; " +:+ why) (lifecycleContext st)
          | None => allowing "handoff_allow_readonly" (lifecycleContext st)
          end → pre_case env hook st st d
  | pre_budgets : st.(Root_VerifiedStop) = false → st.(Root_FastPathActive) = false → isControlTool hook.(HookInput_ToolName) = false →
      coveringLease hook st = None → handoffLatched st = false → pre_case env hook st st (evaluateBudgets cfg env hook st).

Definition live st : Prop := ∀ lease, st.(Root_Override) = Some lease → (0 < lease.(OverrideLease_RemainingActions))%Z.

Lemma expire_live now st : live (expireOverride now st).
Proof.
  unfold expireOverride. destruct (Root_Override st) as [lease|] eqn:Eo; [|by intros lease; rewrite Eo].
  cbv zeta. destruct (parseTime _); [|done]. destruct (_ && _) eqn:E; [|done].
  intros lease' H. rewrite Eo in H. injection H as <-. apply andb_true_iff in E as [_ E]. by apply Z.ltb_lt.
Qed.

Lemma evaluatePre_inv env hook st st' d : evaluatePre cfg env hook st = (st', d) →
  ∃ st1, quiet st st1 ∧ live st1 ∧ pre_case env hook st1 st' d.
Proof.
  unfold evaluatePre. cbv zeta. set (st1 := expireOverride _ _). intros H. exists st1.
  split; [etrans; [apply refresh_quiet|apply expire_quiet]|]. split; [apply expire_live|]. revert H. generalize st1 as st0. intros st0.
  destruct (Root_VerifiedStop st0) eqn:Ev; [intros [= <- <-]; by constructor|].
  destruct (Root_FastPathActive st0) eqn:Ef; [intros [= <- <-]; by constructor|].
  destruct (_ && _); [intros [= <- <-]; by constructor|].
  destruct (isControlTool _) eqn:Ec; [intros [= <- <-]; by constructor|].
  destruct (coveringLease hook st0) as [lease|] eqn:El; [intros [= <- <-]; by constructor|].
  destruct (Root_HandoffRequired st0 || Root_OverflowLatched st0) eqn:Eh; intros [= <- <-].
  - apply pre_handoff; [done..| |done]. unfold handoffLatched. by rewrite orb_comm.
  - apply pre_budgets; [done..|]. unfold handoffLatched. by rewrite orb_comm.
Qed.

(** The parts of a state that a use of a tool leaves alone. *)
Record recording st st' : Prop := {
  recording_session : st'.(Root_SessionID) = st.(Root_SessionID);
  recording_used : st'.(Root_UsedGateIDs) = st.(Root_UsedGateIDs) ∧ st'.(Root_GateHistory) = st.(Root_GateHistory);
  recording_gate : (λ g, (g.(GateRecord_GateID), g.(GateRecord_Status), g.(GateRecord_AcceptanceHash))) <$> st'.(Root_OpenGate) =
                   (λ g, (g.(GateRecord_GateID), g.(GateRecord_Status), g.(GateRecord_AcceptanceHash))) <$> st.(Root_OpenGate);
  recording_verified : st.(Root_VerifiedStop) = true → st'.(Root_VerifiedStop) = true;
  recording_sticky : st.(Root_StickyReroutePending) = true → st'.(Root_StickyReroutePending) = true;
  recording_overflow : st.(Root_OverflowLatched) = true → st'.(Root_OverflowLatched) = true;
  recording_handoff : st.(Root_HandoffRequired) = true → st'.(Root_HandoffRequired) = true;
  recording_target : st'.(Root_FastPathActive) = st.(Root_FastPathActive) ∧ st'.(Root_FastPathTarget) = st.(Root_FastPathTarget) ∧
    st'.(Root_FastPathVerifier) = st.(Root_FastPathVerifier);
  recording_override : (leaseActions st' ≤ leaseActions st)%Z;
}.

#[export] Instance recording_preorder : PreOrder recording.
Proof.
  split.
  - intros st. split; auto. reflexivity.
  - intros st st1 st2 [? [] ? ? ? ? ? (?&?&?)] [? [] ? ? ? ? ? (?&?&?)]. split; try split_and!; try congruence; auto. by etrans.
Qed.

Lemma recording_of_quiet st st' : quiet st st' → recording st st'.
Proof. intros [? ? Hg Hf ? ? ? ? ?]. injection Hg as ? ? ?. injection Hf as ? ? ? ? ?. split; try split_and!; try congruence; auto. Qed.

Ltac solve_recording := split; cbn; try split_and!; auto; first [reflexivity|unfold leaseActions; cbn; reflexivity].

Lemma inGate_recording f st :
  (∀ g, (GateRecord_GateID (f g), GateRecord_Status (f g), GateRecord_AcceptanceHash (f g)) =
        (GateRecord_GateID g, GateRecord_Status g, GateRecord_AcceptanceHash g)) → recording st (inGate f st).
Proof.
  intros Hf. split; cbn; try split_and!; auto; [|unfold leaseActions; cbn; reflexivity].
  destruct (Root_OpenGate st); [|done]. cbn. f_equal. apply Hf.
Qed.

Lemma countTool_recording hook st : recording st (countTool hook st).
Proof.
  unfold countTool. cbv zeta.
  assert (∀ (b : bool) (f : RootState → RootState) st, (∀ st, recording st (f st)) → recording st (if b then f st else st)) as Hif
    by (intros b f st0 Hf; by destruct b).
  assert (∀ st, recording st (countPlaywright st)) as H1 by (intros st0; etrans; [|by apply inGate_recording]; solve_recording).
  assert (∀ st, recording st (countScreenshot st)) as H2 by (intros st0; etrans; [|by apply inGate_recording]; solve_recording).
  assert (∀ st, recording st (countHighCost st)) as H3 by (intros st0; etrans; [|by apply inGate_recording]; solve_recording).
  assert (∀ key st, recording st (countVerify key st)) as H4
    by (intros key st0; unfold countVerify; etrans; [|etrans; [by apply (inGate_recording (λ g : GateRecord, g <| GateRecord_VerifyCounts := increment g.(GateRecord_VerifyCounts) key |>))|]]; solve_recording).
  assert (∀ st, recording st (countBash hook.(HookInput_ToolInput) st).1) as H5.
  { intros st0. unfold countBash. cbv zeta. destruct (_ == _); [solve_recording|]. destruct (_ == _); [solve_recording|done]. }
  set (st1 := if isPlaywright _ then _ else st). set (st2 := if isScreenshot _ then _ else st1).
  assert (recording st st2) as H12 by (etrans; [apply (Hif (isPlaywright (HookInput_ToolName hook)) countPlaywright st), H1|]; apply (Hif (isScreenshot (HookInput_ToolName hook)) countScreenshot st1), H2).
  destruct (if HookInput_ToolName hook == "Bash" then _ else _) as [st3 high] eqn:E.
  assert (recording st2 st3) as H23.
  { destruct (HookInput_ToolName hook == "Bash"); [|by injection E as <- _]. specialize (H5 st2). rewrite E in H5. exact H5. }
  etrans; [exact H12|]. etrans; [exact H23|]. etrans; [apply (Hif (isPlaywright (HookInput_ToolName hook) || isScreenshot (HookInput_ToolName hook) || high) countHighCost st3), H3|].
  destruct (_ != ""); [apply H4|done].
Qed.

Lemma recordFastPath_recording env hook st : recording st (recordFastPath env hook st).
Proof.
  unfold recordFastPath. cbv zeta. destruct (negb _); [done|]. destruct (existsb _ _); [destruct (fastPathTargetMatches _ _ _); [solve_recording|done]|].
  destruct (_ == "Bash"); [|done]. destruct (fastPathReadOnlyDiffMatches _ _ _); [solve_recording|]. destruct (_ && _); [solve_recording|done].
Qed.

Lemma armSticky_recording st : recording st (armSticky cfg st).
Proof. unfold armSticky. cbv zeta. destruct (_ && _); [solve_recording|done]. Qed.

(** The state after a tool was recorded: [before] when the counters are reached. *)
Lemma recordTool_inv env hook st st' d : recordTool cfg env hook st = (st', d) →
  ∃ st1 before, st1 = recordFastPath env hook (st <| Root_LastToolName := hook.(HookInput_ToolName) |>) ∧ quiet st1 before ∧
    (if isControlTool hook.(HookInput_ToolName) then st' = before else quiet (armSticky cfg (countTool hook before)) st').
Proof.
  unfold recordTool. cbv zeta. set (st1 := recordFastPath env hook _). set (st2 := recordHints hook st1).
  destruct (applyContextPressure env st2) as [before pressure] eqn:E. intros H. exists st1, before. split; [done|]. split.
  { etrans; [apply hints_quiet|]. fold st2. pose proof (pressure_quiet env st2) as Hq. by rewrite E in Hq. }
  destruct (isControlTool _); [by injection H as <- _|]. injection H as <- _. apply refresh_quiet.
Qed.

Lemma recordTool_recording env hook st st' d : recordTool cfg env hook st = (st', d) → recording st st'.
Proof.
  intros (st1 & before & E1 & Hq & H)%recordTool_inv. etrans.
  { etrans; [|apply recordFastPath_recording with (env := env) (hook := hook)]. instantiate (1 := st <| Root_LastToolName := hook.(HookInput_ToolName) |>). solve_recording. }
  rewrite <- E1. etrans; [by apply recording_of_quiet|]. destruct (isControlTool _); [by subst|].
  etrans; [|by apply recording_of_quiet]. etrans; [apply countTool_recording|apply armSticky_recording].
Qed.

(** What a prompt of the user does. *)
Record prompted env hook st st' (d : GateDecision) : Prop := {
  prompted_session : st'.(Root_SessionID) = st.(Root_SessionID);
  prompted_counters : rootCounters st' = rootCounters st;
  prompted_gates : gates st' = gates st;
  prompted_sticky : st'.(Root_StickyReroutePending) = st.(Root_StickyReroutePending);
  prompted_latches : st'.(Root_OverflowLatched) = st.(Root_OverflowLatched) ∧ st'.(Root_HandoffRequired) = st.(Root_HandoffRequired);
  prompted_verified : st'.(Root_VerifiedStop) = false ∧ st'.(Root_FastPathEdited) = false;
  prompted_fast : st'.(Root_FastPathActive) = true → handoffLatched st = false ∧ st.(Root_OpenGate) = None ∧ st.(Root_StickyReroutePending) = false ∧
    FastPath_Parse hook.(HookInput_Prompt) = Some (mkContract st'.(Root_FastPathTarget) st'.(Root_FastPathVerifier));
  prompted_override : (d.(GateDecision_State) = "override_issued" ∧ leaseActions st' = overrideMaxActs ∧ st.(Root_HandoffRequired) = false) ∨
    (leaseActions st' = leaseActions st ∧ d.(GateDecision_State) ∈ ["override_blocked_handoff"; "fast_path"; "user_prompt"]);
  prompted_permission : d.(GateDecision_Permission) = "";
}.

Lemma parseGateOverride_actions prompt now lease : parseGateOverride prompt now = Some lease →
  lease.(OverrideLease_RemainingActions) = overrideMaxActs.
Proof.
  unfold parseGateOverride. cbv zeta. destruct (if strings_HasPrefix _ _ then _ else _); [|done].
  destruct (_ || _); [done|]. destruct (length _ =? 0)%nat; [done|]. by intros [= <-].
Qed.

Lemma handleUserPrompt_inv env hook st st' d events : handleUserPrompt env hook st = (st', d, events) → prompted env hook st st' d.
Proof.
  unfold handleUserPrompt. cbv zeta. set (st1 := activateFastPath _ _).
  assert (st1.(Root_SessionID) = st.(Root_SessionID) ∧ rootCounters st1 = rootCounters st ∧ gates st1 = gates st ∧
    st1.(Root_StickyReroutePending) = st.(Root_StickyReroutePending) ∧ st1.(Root_OverflowLatched) = st.(Root_OverflowLatched) ∧
    st1.(Root_HandoffRequired) = st.(Root_HandoffRequired) ∧ st1.(Root_VerifiedStop) = false ∧ st1.(Root_FastPathEdited) = false ∧
    (st1.(Root_FastPathActive) = true → handoffLatched st = false ∧ st.(Root_OpenGate) = None ∧ st.(Root_StickyReroutePending) = false ∧
      FastPath_Parse hook.(HookInput_Prompt) = Some (mkContract st1.(Root_FastPathTarget) st1.(Root_FastPathVerifier))) ∧
    st1.(Root_Override) = st.(Root_Override)) as (H1 & H2 & H3 & H4 & H5 & H6 & H7 & H8 & H9 & H10).
  { unfold st1, activateFastPath. destruct (FastPath_Parse _) as [contract|]; [|by split_and!].
    destruct (_ && _) eqn:E; [|by split_and!]. split_and!; try done. intros _. cbn in E. unfold handoffLatched. rewrite !andb_true_iff, !negb_true_iff in E.
    destruct E as [[[Eg ->] ->] ->]. split_and!; [done| |done|by destruct contract]. by destruct (Root_OpenGate st). }
  clearbody st1. destruct (parseGateOverride _ _) as [lease|] eqn:Ep.
  - apply parseGateOverride_actions in Ep. destruct (Root_HandoffRequired st1) eqn:Eh; intros [= <- <- _].
    + split; try done; [by rewrite Eh|]. right. split; [|by left]. unfold leaseActions. by rewrite H10.
    + split; cbn; try done; [by rewrite Eh|]. left. split_and!; [done| |by rewrite <- H6]. unfold leaseActions. cbn. by rewrite Ep.
  - assert (leaseActions st1 = leaseActions st) as Hl by (unfold leaseActions; by rewrite H10).
    destruct (Root_FastPathActive st1) eqn:Ea; intros [= <- <- _].
    + split; try done; [by rewrite Ea|]. right. split; [done|by right; left].
    + split; try done; [by rewrite Ea|]. right. split; [done|by right; right; left].
Qed.

(** * Sessions *)

Lemma consume_fields lease st : st.(Root_SessionID) = (consumeOverride lease st).(Root_SessionID) ∧
  rootCounters (consumeOverride lease st) = rootCounters st ∧ gates (consumeOverride lease st) = gates st ∧
  handoffLatched (consumeOverride lease st) = handoffLatched st ∧
  (consumeOverride lease st).(Root_StickyReroutePending) = st.(Root_StickyReroutePending).
Proof. by split_and!. Qed.

Lemma coveringLease_inv hook st lease : coveringLease hook st = Some lease →
  st.(Root_Override) = Some lease ∧ st.(Root_HandoffRequired) = false ∧ overrideCovers lease hook.(HookInput_ToolName) hook.(HookInput_ToolInput) = true.
Proof.
  unfold coveringLease. destruct (Root_Override st) as [l|]; [|done]. cbn. destruct (_ && _) eqn:E; [|done]. intros [= <-].
  apply andb_true_iff in E as [E1 E2]. by apply negb_true_iff in E1.
Qed.

Lemma pre_recording env hook st st' d : pre_case env hook st st' d → live st → recording st st'.
Proof.
  intros [] Hl; try reflexivity. apply coveringLease_inv in H2 as (Ho & _). split; cbn; try split_and!; auto.
  unfold leaseActions, consumeOverride. cbn. rewrite Ho. destruct (_ <=? _)%Z; cbn; lia.
Qed.

(** An event is a prompt, or keeps what using tools keeps. *)
Lemma event_cases env hook st st' d events : processEvent cfg env hook st = (st', d, events) →
  (hook.(HookInput_HookEventName) = "UserPromptSubmit" ∧ ∃ st1 st2, quiet st st1 ∧ prompted env hook st1 st2 d ∧ quiet st2 st') ∨
  (hook.(HookInput_HookEventName) ≠ "UserPromptSubmit" ∧ recording st st').
Proof.
  intros (st1 & st2 & d2 & events2 & H1 & Hd & H2 & Hp & Hs)%processEvent_inv.
  apply dispatch_cases in Hd as [(E & d0 & Hd & Ep & Es)|[(E & Hd)|[(E & Hd)|(E & Hq & _)]]].
  - left. split; [done|]. exists st1, st2. split; [done|]. split; [|done]. apply handleUserPrompt_inv in Hd as [].
    split; try done; [rewrite Hs, Es; done|by rewrite Hp, Ep].
  - right. split; [by destruct E as [-> | ->]|]. apply recordTool_recording in Hd.
    etrans; [by apply recording_of_quiet|]. etrans; [exact Hd|by apply recording_of_quiet].
  - right. split; [by rewrite E|]. apply evaluatePre_inv in Hd as (st3 & Hq & Hl & Hd). apply pre_recording in Hd; [|done].
    etrans; [by apply recording_of_quiet|]. etrans; [by apply recording_of_quiet|]. etrans; [exact Hd|by apply recording_of_quiet].
  - right. split; [intros E'; rewrite E' in E; set_solver|]. apply recording_of_quiet. etrans; [exact H1|]. etrans; [exact Hq|exact H2].
Qed.

Lemma change_session st label st' : change config st label st' → st'.(Root_SessionID) = st.(Root_SessionID).
Proof.
  intros [env hook st0 st1 d events H|input gateID acceptance now st0 st1 event H|sessionID gateID status now st0 st1 event _ H|sessionID gateID worker now st0 st1 event H].
  - apply event_cases in H as [(_ & st2 & st3 & H1 & H2 & H3)|[_ H]]; [|by destruct H].
    by rewrite (quiet_session _ _ H3), (prompted_session _ _ _ _ _ H2), (quiet_session _ _ H1).
  - unfold declare in H. repeat apply bind_Ok in H as ([] & _ & H). by injection H as <- _.
  - unfold closeOpen in H. destruct (Root_OpenGate st0); [|done]. apply bind_Ok in H as ([] & _ & H). by injection H as <- _.
  - unfold acknowledge in H. repeat apply bind_Ok in H as ([] & _ & H). by injection H as <- _.
Qed.

(** Every file holds the state of a session it is the file of. *)
Definition filed w : Prop := ∀ key st, w.(gw_states) !! key = Some st → st.(Root_SessionID) ≠ "" ∧ statePath st.(Root_SessionID) = key.

Lemma fromSlot_session w sessionID now : filed w → sessionID ≠ "" →
  let st := fromSlot sessionID now (w.(gw_states) !! statePath sessionID) in
  st.(Root_SessionID) ≠ "" ∧ statePath st.(Root_SessionID) = statePath sessionID.
Proof.
  intros Hf Hs. cbv zeta. unfold fromSlot. destruct (gw_states w !! statePath sessionID) as [st|] eqn:E; [|done].
  destruct (Hf _ _ E) as [Hn Hp]. rewrite (proj2 (String.eqb_neq _ _) Hn). unfold repairLoaded. by destruct (_ && _).
Qed.

(** An operation and one file: it is as it was, or changed. *)
Lemma perform_file op w key : filed w →
  filed (perform config op w) ∧
  (((perform config op w).(gw_states) !! key = w.(gw_states) !! key ∧
      ∀ hook d, decided config op w = Some (hook, d) → statePath hook.(HookInput_SessionID) ≠ key) ∨
   ∃ sessionID now st, sessionID ≠ "" ∧ statePath sessionID = key ∧
     change config (fromSlot sessionID now (w.(gw_states) !! key)) (decided config op w) st ∧
     (perform config op w).(gw_states) !! key = Some (saved st) ∧
     ∀ hook d, decided config op w = Some (hook, d) → statePath hook.(HookInput_SessionID) = key).
Proof.
  intros Hf. destruct (perform_changes config op w) as [[E Ed]|(sessionID & now & st & Hs & Hc & Hh & E)].
  - split; [intros k st; rewrite E; apply Hf|]. left. rewrite E, Ed. done.
  - destruct (fromSlot_session w sessionID now Hf Hs) as [Hn Hp]. apply change_session in Hc as Es. rewrite <- Es in Hn, Hp.
    split.
    { intros k st0. rewrite E. intros [[<- <-]|[_ H]]%lookup_insert_Some; [done|by apply Hf]. }
    rewrite E, Hp. destruct (decide (statePath sessionID = key)) as [<-|Hk].
    + right. exists sessionID, now, st. rewrite lookup_insert_eq. split_and!; try done. intros hook d Hd. by rewrite <- (Hh _ _ Hd).
    + left. rewrite lookup_insert_ne by done. split; [done|]. intros hook d Hd. by rewrite <- (Hh _ _ Hd).
Qed.

Lemma filed_empty : filed GateWorld_empty.
Proof. by intros key st. Qed.

Lemma performAll_filed ops w : filed w → filed (performAll config ops w).
Proof. revert w. induction ops as [|op ops IH]; intros w Hf; [done|]. apply IH. by destruct (perform_file op w "" Hf). Qed.

(** The events of a session that were decided, in their order. *)
Fixpoint sessionLog key (ops : list GateOp) w : list (HookInput * GateDecision) :=
  match ops with
  | [] => []
  | op :: ops =>
      match decided config op w with
      | Some (hook, d) => if statePath hook.(HookInput_SessionID) == key then [(hook, d)] else []
      | None => []
      end ++ sessionLog key ops (perform config op w)
  end.

Lemma sessionLog_snoc key ops op w :
  sessionLog key (ops ++ [op]) w = sessionLog key ops w ++
    match decided config op (performAll config ops w) with
    | Some (hook, d) => if statePath hook.(HookInput_SessionID) == key then [(hook, d)] else []
    | None => []
    end.
Proof. revert w. induction ops as [|op' ops IH]; intros w; cbn; [by rewrite app_nil_r|]. by rewrite IH, app_assoc. Qed.

Abbreviation after ops := (performAll config ops GateWorld_empty).
Abbreviation logOf key ops := (sessionLog key ops GateWorld_empty).

Lemma performAll_snoc ops op w : performAll config (ops ++ [op]) w = perform config op (performAll config ops w).
Proof. unfold performAll. by rewrite foldl_app. Qed.

Lemma after_filed ops : filed (after ops).
Proof. apply performAll_filed, filed_empty. Qed.

(** What holds of every session and of its events, if the changes keep it. *)
Lemma session_induction (P : list (HookInput * GateDecision) → RootState → Prop) ops key :
  (∀ sessionID now, sessionID ≠ "" → P [] (newRootState sessionID now)) →
  (∀ log st, P log st → P log (repairLoaded st)) → (∀ log st, P log st → P log (saved st)) →
  (∀ log st label st', P log st → change config st label st' → P (log ++ option_list label) st') →
  match (after ops).(gw_states) !! key with Some st => P (logOf key ops) st | None => logOf key ops = [] end.
Proof.
  intros Hn Hr Hs Hc. induction ops as [|op ops IH] using rev_ind; [done|]. rewrite performAll_snoc, sessionLog_snoc.
  destruct (perform_file op (after ops) key (after_filed ops)) as [_ [[E Hd]|(sessionID & now & st' & Hid & _ & Hch & E & Hd)]].
  - rewrite E. assert (match decided config op (after ops) with
      | Some (hook, d) => if statePath hook.(HookInput_SessionID) == key then [(hook, d)] else [] | None => [] end = []) as ->.
    { destruct (decided _ _ _) as [[hook d]|]; [|done]. by rewrite (proj2 (String.eqb_neq _ _) (Hd _ _ eq_refl)). }
    by rewrite app_nil_r.
  - rewrite E. apply Hs. assert (match decided config op (after ops) with
      | Some (hook, d) => if statePath hook.(HookInput_SessionID) == key then [(hook, d)] else [] | None => [] end =
      option_list (decided config op (after ops))) as ->.
    { destruct (decided _ _ _) as [[hook d]|]; [|done]. by rewrite (proj2 (String.eqb_eq _ _) (Hd _ _ eq_refl)). }
    eapply Hc; [|exact Hch]. unfold fromSlot. destruct (gw_states (after ops) !! key) as [st0|] eqn:E0.
    + destruct (after_filed ops _ _ E0) as [Hn0 _]. rewrite (proj2 (String.eqb_neq _ _) Hn0). by apply Hr.
    + rewrite IH. by apply Hn.
Qed.

(** An operation on a session whose state is known. *)
Lemma perform_known ops op key st : (after ops).(gw_states) !! key = Some st →
  ((perform config op (after ops)).(gw_states) !! key = Some st ∧
     ∀ hook d, decided config op (after ops) = Some (hook, d) → statePath hook.(HookInput_SessionID) ≠ key) ∨
  ∃ st', change config (repairLoaded st) (decided config op (after ops)) st' ∧ (perform config op (after ops)).(gw_states) !! key = Some (saved st').
Proof.
  intros E0. destruct (perform_file op (after ops) key (after_filed ops)) as [_ [[E Hd]|(sessionID & now & st' & Hid & _ & Hch & E & Hd)]].
  - left. by rewrite E.
  - right. exists st'. split; [|done]. rewrite E0 in Hch. unfold fromSlot in Hch. destruct (after_filed ops _ _ E0) as [Hn0 _].
    by rewrite (proj2 (String.eqb_neq _ _) Hn0) in Hch.
Qed.

(** * Handoffs *)

Lemma verified_control name : isVerifiedStopControl name = true → isControlTool name = true.
Proof.
  unfold isVerifiedStopControl, isControlTool. intros [Hp H]%andb_true_iff. rewrite Hp. apply orb_true_iff. right. cbn [andb].
  apply existsb_exists. apply orb_true_iff in H as [H|H]; eexists; (split; [|exact H]); cbn; tauto.
Qed.

Lemma unblocked_control name : handoffBlocks name = None → isControlTool name = true.
Proof.
  unfold handoffBlocks, isControlTool. destruct (existsb _ ["Read"; "Grep"; "Glob"]) eqn:E.
  { intros _. apply existsb_exists in E as (x & Hx & E). apply orb_true_iff. left. apply existsb_exists. exists x. split; [|done]. cbn in *. tauto. }
  destruct (isHandoffControlTool name) eqn:Eh.
  { intros _. unfold isHandoffControlTool in Eh. apply andb_true_iff in Eh as [-> Eh]. apply orb_true_iff. right. cbn [andb].
    apply existsb_exists in Eh as (x & Hx & Eh). apply existsb_exists. exists x. split; [|done]. cbn in *. tauto. }
  destruct (_ == "Bash"); [done|]. destruct (_ || _); [done|]. by destruct (_ || _).
Qed.

(** The tools of the Fast Path. *)
Definition fastTools : list string := ["Read"; "Grep"; "Edit"; "Write"; "MultiEdit"; "Bash"].

Lemma fast_allows env st hook : (evaluateFastPathPre env st hook).(GateDecision_Permission) = "allow" → hook.(HookInput_ToolName) ∈ fastTools.
Proof.
  unfold evaluateFastPathPre. cbv zeta. generalize (HookInput_ToolName hook) as name. intros name.
  destruct (existsb (String.eqb name) ["Read"; "Grep"]) eqn:E1.
  { intros _. apply existsb_exists in E1 as (x & [<-|[<-|[]]] & ->%String.eqb_eq); set_solver. }
  destruct (existsb (String.eqb name) ["Edit"; "Write"; "MultiEdit"]) eqn:E2.
  { intros _. apply existsb_exists in E2 as (x & [<-|[<-|[<-|[]]]] & ->%String.eqb_eq); set_solver. }
  destruct (String.eqb_spec name "Bash") as [->|]; [|done]. intros _. set_solver.
Qed.

(** What the Fast Path decides when it allows. *)
Definition fastStates : list string := ["fast_path_read_allow"; "fast_path_edit_allow"; "fast_path_diff_allow"; "fast_path_verify_allow"].

Lemma fast_decides env st hook : (evaluateFastPathPre env st hook).(GateDecision_Permission) = "allow" →
  (evaluateFastPathPre env st hook).(GateDecision_State) ∈ fastStates.
Proof.
  unfold evaluateFastPathPre. cbv zeta. destruct (existsb _ _); [destruct (negb _); [done|intros _; by left]|].
  destruct (existsb _ _); [destruct (negb _); [done|intros _; by right; left]|].
  destruct (_ == "Bash"); [|done]. destruct (negb _); [done|].
  destruct (fastPathReadOnlyDiffMatches _ _ _); [destruct (Root_FastPathDiffSeen _); [done|intros _; by right; right; left]|].
  destruct (_ || _); [done|]. intros _. by right; right; right; left.
Qed.

(** Only a lease is consumed with the state [override_allow]. *)
Lemma fast_state env st hook : (evaluateFastPathPre env st hook).(GateDecision_State) ≠ "override_allow".
Proof.
  unfold evaluateFastPathPre. cbv zeta. destruct (existsb _ _); [by destruct (negb _)|]. destruct (existsb _ _); [by destruct (negb _)|].
  destruct (_ == "Bash"); [|done]. destruct (negb _); [done|]. destruct (fastPathReadOnlyDiffMatches _ _ _); [by destruct (Root_FastPathDiffSeen _)|].
  by destruct (_ || _).
Qed.

Lemma repair_fields st : (repairLoaded st).(Root_HandoffRequired) = st.(Root_HandoffRequired) ∧
  (repairLoaded st).(Root_VerifiedStop) = st.(Root_VerifiedStop) ∧ (repairLoaded st).(Root_StickyReroutePending) = st.(Root_StickyReroutePending) ∧
  gates (repairLoaded st) = gates st ∧ rootCounters (repairLoaded st) = rootCounters st ∧ leaseActions (repairLoaded st) = leaseActions st ∧
  ((repairLoaded st).(Root_FastPathActive) = true → st.(Root_FastPathActive) = true) ∧
  (repairLoaded st).(Root_FastPathTarget) = st.(Root_FastPathTarget) ∧ (repairLoaded st).(Root_FastPathVerifier) = st.(Root_FastPathVerifier) ∧
  ((repairLoaded st).(Root_FastPathEdited) = true → st.(Root_FastPathEdited) = true).
Proof. unfold repairLoaded. destruct (_ && _); by split_and!. Qed.

Lemma change_handoff st label st' : change config st label st' → st.(Root_HandoffRequired) = true → st'.(Root_HandoffRequired) = true.
Proof.
  intros [env hook st0 st1 d events H|input gateID acceptance now st0 st1 event H|sessionID gateID status now st0 st1 event _ H|sessionID gateID worker now st0 st1 event H] Hh.
  - apply event_cases in H as [(_ & st2 & st3 & H1 & H2 & H3)|[_ H]]; [|by apply H].
    apply H3. rewrite (proj2 (prompted_latches _ _ _ _ _ H2)). by apply H1.
  - unfold declare in H. repeat apply bind_Ok in H as ([] & _ & H). by injection H as <- _.
  - unfold closeOpen in H. destruct (Root_OpenGate st0); [|done]. apply bind_Ok in H as ([] & _ & H). by injection H as <- _.
  - unfold acknowledge in H. repeat apply bind_Ok in H as ([] & _ & H). by injection H as <- _.
Qed.

(** The decision on a use of a tool, in the state its checks start from. *)
Lemma pre_event env hook st st' d events : processEvent cfg env hook st = (st', d, events) → hook.(HookInput_HookEventName) = "PreToolUse" →
  ∃ st1 st2 d', quiet st st1 ∧ live st1 ∧ pre_case env hook st1 st2 d' ∧ quiet st2 st' ∧
    d.(GateDecision_Permission) = d'.(GateDecision_Permission) ∧ d.(GateDecision_State) = d'.(GateDecision_State).
Proof.
  intros (st1 & st2 & d2 & events2 & H1 & Hd & H2 & Hp & Hs)%processEvent_inv E.
  apply dispatch_cases in Hd as [(E' & _)|[(E' & _)|[(_ & Hd)|(E' & _)]]];
    [by rewrite E in E'|by rewrite E in E'; destruct E'| |rewrite E in E'; set_solver].
  apply evaluatePre_inv in Hd as (st3 & Hq & Hl & Hd). exists st3, st2, d2. split; [by etrans|]. done.
Qed.

(** C21: A handoff is final. Once the Root of a session must be handed off, it must be
    handed off after every further event and operation; no override is consumed; and a
    use of a tool is allowed only if the tool is a control tool, or if the turn is on a
    Fast Path and the tool is one of its tools. *)
Theorem handoff_is_final ops op key st :
  (after ops).(gw_states) !! key = Some st → st.(Root_HandoffRequired) = true →
  (∃ st', (perform config op (after ops)).(gw_states) !! key = Some st' ∧ st'.(Root_HandoffRequired) = true) ∧
  ∀ hook d, decided config op (after ops) = Some (hook, d) → statePath hook.(HookInput_SessionID) = key →
    hook.(HookInput_HookEventName) = "PreToolUse" → d.(GateDecision_Permission) = "allow" →
    d.(GateDecision_State) ≠ "override_allow" ∧
    (isControlTool hook.(HookInput_ToolName) = true ∨ st.(Root_FastPathActive) = true ∧ hook.(HookInput_ToolName) ∈ fastTools).
Proof.
  intros Hst Hh. destruct (perform_known ops op key st Hst) as [[E Hne]|(st' & Hc & E)].
  { split; [by exists st|]. intros hook d Hd Hk. by destruct (Hne _ _ Hd). }
  destruct (repair_fields st) as (Eh & _ & _ & _ & _ & _ & Hfast & _). rewrite <- Eh in Hh.
  split; [exists (saved st'); split; [done|]; exact (change_handoff _ _ _ Hc Hh)|].
  intros hook d Hd _ Hev Hal. rewrite Hd in Hc. inversion Hc as [env hook0 st0 st1 d0 events H| | |]; subst.
  destruct (pre_event _ _ _ _ _ _ H Hev) as (st1 & st2 & d' & Hq & Hl & Hpre & _ & Hp & Hs). rewrite Hp in Hal. rewrite Hs.
  apply (quiet_handoff _ _ Hq) in Hh. destruct Hpre.
  - subst. split; [by destruct (isVerifiedStopControl _)|]. left. apply verified_control. by destruct (isVerifiedStopControl _).
  - split; [apply fast_state|]. right. split; [|by eapply fast_allows]. apply Hfast. by pose proof (quiet_fast _ _ Hq) as [= <-].
  - done.
  - split; [done|]. by left.
  - apply coveringLease_inv in H3 as (_ & Hn & _). congruence.
  - subst. split; [by destruct (handoffBlocks _)|]. left. apply unblocked_control. by destruct (handoffBlocks _).
  - unfold handoffLatched in H4. by rewrite Hh, orb_true_r in H4.
Qed.

(** * Verified stops *)

(** A verified stop holds until the next prompt. Once the verifier of a Fast Path
    has passed, that stays so after every operation but a prompt of the user, and until
    then no tool is allowed but closing a gate and recording the outcome. *)
Theorem verified_stop_holds ops op key st :
  (after ops).(gw_states) !! key = Some st → st.(Root_VerifiedStop) = true →
  (∃ st', (perform config op (after ops)).(gw_states) !! key = Some st' ∧
     (st'.(Root_VerifiedStop) = true ∨ ∃ hook d, decided config op (after ops) = Some (hook, d) ∧ hook.(HookInput_HookEventName) = "UserPromptSubmit")) ∧
  ∀ hook d, decided config op (after ops) = Some (hook, d) → statePath hook.(HookInput_SessionID) = key →
    hook.(HookInput_HookEventName) = "PreToolUse" →
    d.(GateDecision_Permission) = if isVerifiedStopControl hook.(HookInput_ToolName) then "allow" else "deny".
Proof.
  intros Hst Hv. destruct (perform_known ops op key st Hst) as [[E Hne]|(st' & Hc & E)].
  { split; [exists st; auto|]. intros hook d Hd Hk. by destruct (Hne _ _ Hd). }
  destruct (repair_fields st) as (_ & Ev & _). rewrite <- Ev in Hv. split.
  - exists (saved st'). split; [done|]. cbn. destruct Hc as [env hook st0 st1 d events H|input gateID acceptance now st0 st1 event H|sessionID gateID status now st0 st1 event _ H|sessionID gateID worker now st0 st1 event H].
    + apply event_cases in H as [(Hp & _)|[_ H]]; [right; eauto|left; by apply H].
    + unfold declare in H. repeat apply bind_Ok in H as ([] & _ & H). injection H as <- _. by left.
    + unfold closeOpen in H. destruct (Root_OpenGate st0); [|done]. apply bind_Ok in H as ([] & _ & H). injection H as <- _. by left.
    + unfold acknowledge in H. repeat apply bind_Ok in H as ([] & _ & H). injection H as <- _. by left.
  - intros hook d Hd _ Hev. rewrite Hd in Hc. inversion Hc as [env hook0 st0 st1 d0 events H| | |]; subst.
    destruct (pre_event _ _ _ _ _ _ H Hev) as (st1 & st2 & d' & Hq & Hl & Hpre & _ & Hp & Hs). rewrite Hp.
    rewrite <- (quiet_verified _ _ Hq) in Hv. destruct Hpre; try congruence. subst. by destruct (isVerifiedStopControl _).
Qed.

End safety.

(** * On the samples *)

Lemma handoff_is_final_witness :
  (sampleState compactedTurn).(Root_HandoffRequired) = true ∧
  ∃ st', (perform sample_config (asking "Write" "file_path=parser.go") (sampleWorld compactedTurn)).(gw_states) !! "root.json" = Some st' ∧ st'.(Root_HandoffRequired) = true.
Proof.
  destruct sample_handoff_state as (Hst & Hh & _). split; [exact Hh|].
  exact (proj1 (handoff_is_final sample_config compactedTurn (asking "Write" "file_path=parser.go") "root.json" _ Hst Hh)).
Defined.

Lemma verified_stop_holds_witness :
  (sampleState fastTurn).(Root_VerifiedStop) = true ∧
  ∀ hook d, decided sample_config (asking "Read" "file_path=parser.go") (sampleWorld fastTurn) = Some (hook, d) →
    statePath hook.(HookInput_SessionID) = "root.json" → hook.(HookInput_HookEventName) = "PreToolUse" →
    d.(GateDecision_Permission) = if isVerifiedStopControl hook.(HookInput_ToolName) then "allow" else "deny".
Proof.
  destruct sample_fast_state as (Hst & Hv). split; [exact Hv|].
  exact (proj2 (verified_stop_holds sample_config fastTurn (asking "Read" "file_path=parser.go") "root.json" _ Hst Hv)).
Defined.
