(* ===== verification/HookTurns.v ===== *)
(** What the Supervisor gate keeps of a session: verified stops are earned in their turn,
    overrides are bounded and gates are accounted for. *)
From stdpp Require Import gmap.
From S2P Require Import Prelude Paths Process Environment SampleSystem HookData HookGate.
From S2P Require Import HookRun HookSystem HookSafety.

(** The turns of a session: a verified stop is earned in its turn, by an edit of the
    frozen target and then a run of the frozen verifier. *)

Section turns.
Context {golib : GoLib} {lib : GateLib} (config : GateConfig).
Abbreviation cfg := (normalizeConfig config).
Implicit Types (st : RootState) (env : HookEnv) (hook : HookInput) (log : list (HookInput * GateDecision)) (contract : Contract).

(** * Turns *)

Definition isPrompt hook : Prop := hook.(HookInput_HookEventName) = "UserPromptSubmit".

(** The last prompt of the log froze the contract; [rest] is what came after it. *)
Definition frozen log contract rest : Prop := ∃ before prompt d,
  log = before ++ (prompt, d) :: rest ∧ isPrompt prompt ∧ FastPath_Parse prompt.(HookInput_Prompt) = Some contract ∧
  Forall (λ e : HookInput * GateDecision, ¬ isPrompt e.1) rest.

(** A recorded edit of the target. *)
Definition edits contract hook : Prop :=
  hook.(HookInput_HookEventName) = "PostToolUse" ∧ hook.(HookInput_ToolName) ∈ ["Edit"; "Write"; "MultiEdit"] ∧
  ∃ env st, st.(Root_FastPathTarget) = contract.(Contract_TargetPath) ∧ fastPathTargetMatches env st hook = true.

(** A recorded run of the verifier that succeeded. *)
Definition verifies contract hook : Prop :=
  hook.(HookInput_HookEventName) = "PostToolUse" ∧ hook.(HookInput_ToolName) = "Bash" ∧
  strings_TrimSpace (bashCommand hook.(HookInput_ToolInput)) = contract.(Contract_Verifier) ∧
  SafeVerifier contract.(Contract_Verifier) = true ∧ toolResponseInterrupted hook.(HookInput_ToolResponse) = false.

(** An edit and then a run, after the prompt. *)
Definition earned log : Prop := ∃ contract rest1 e rest2 r rest3,
  frozen log contract (rest1 ++ e :: rest2 ++ r :: rest3) ∧ edits contract e.1 ∧ verifies contract r.1.

Lemma frozen_snoc log contract rest hook d : ¬ isPrompt hook → frozen log contract rest →
  frozen (log ++ [(hook, d)]) contract (rest ++ [(hook, d)]).
Proof.
  intros Hp (before & prompt & d0 & -> & H1 & H2 & H3). exists before, prompt, d0. split; [by rewrite <- app_assoc|].
  split_and!; [done..|]. apply Forall_app. by split; [|constructor].
Qed.

Lemma earned_snoc log hook d : ¬ isPrompt hook → earned log → earned (log ++ [(hook, d)]).
Proof.
  intros Hp (contract & rest1 & e & rest2 & r & rest3 & Hf & He & Hr). exists contract, rest1, e, rest2, r, (rest3 ++ [(hook, d)]).
  split; [|done]. apply (frozen_snoc _ _ _ hook d Hp) in Hf. by rewrite <- app_assoc in Hf; cbn in Hf; rewrite <- app_assoc in Hf.
Qed.

(** * What a tool that was used does to the Fast Path *)

Definition sameFast st st' : Prop := fastPath st' = fastPath st ∧ st'.(Root_VerifiedStop) = st.(Root_VerifiedStop).
#[local] Instance sameFast_preorder : PreOrder sameFast.
Proof. split; [by intros st|]. intros st1 st2 st3 [] []. split; congruence. Qed.

Lemma quiet_sameFast st st' : quiet st st' → sameFast st st'.
Proof. by intros []. Qed.

Lemma countTool_sameFast hook st : sameFast st (countTool hook st).
Proof.
  unfold countTool, countBash. cbv zeta. destruct (isPlaywright _), (isScreenshot _), (_ == "Bash"); cbn [orb];
    repeat match goal with |- context [if ?b then _ else _] => destruct b end; by split.
Qed.

Lemma recorded_fast env hook st st' d : recordTool cfg env hook st = (st', d) →
  sameFast (recordFastPath env hook (st <| Root_LastToolName := hook.(HookInput_ToolName) |>)) st'.
Proof.
  intros (st1 & before & -> & Hq & H)%recordTool_inv. etrans; [by apply quiet_sameFast|]. destruct (isControlTool _); [by subst|].
  etrans; [|by apply quiet_sameFast]. etrans; [apply (countTool_sameFast hook)|]. unfold armSticky. cbv zeta. by destruct (_ && _).
Qed.

Lemma pre_sameFast env hook st st' d : pre_case config env hook st st' d → sameFast st st'.
Proof. by intros []. Qed.

(** An event is a prompt, keeps the Fast Path, or records a tool. *)
Lemma event_fast env hook st st' d events : processEvent cfg env hook st = (st', d, events) →
  (isPrompt hook ∧ ∃ st1 st2, quiet st st1 ∧ prompted env hook st1 st2 d ∧ quiet st2 st') ∨
  (¬ isPrompt hook ∧ ∃ st1, sameFast st st1 ∧ (sameFast st1 st' ∨ sameFast (recordFastPath env hook st1) st')).
Proof.
  intros (st1 & st2 & d2 & events2 & H1 & Hd & H2 & Hp & Hs)%processEvent_inv. unfold isPrompt.
  apply dispatch_cases in Hd as [(E & d0 & Hd & Ep & Es)|[(E & Hd)|[(E & Hd)|(E & Hq & _)]]].
  - left. split; [done|]. exists st1, st2. split; [done|]. split; [|done]. apply handleUserPrompt_inv in Hd as [].
    split; try done; [rewrite Hs, Es; done|by rewrite Hp, Ep].
  - right. split; [by destruct E as [-> | ->]|]. exists (st1 <| Root_LastToolName := hook.(HookInput_ToolName) |>).
    split; [by apply quiet_sameFast in H1|]. right. etrans; [by apply recorded_fast in Hd|by apply quiet_sameFast].
  - right. split; [by rewrite E|]. exists st1. split; [by apply quiet_sameFast|]. left.
    apply evaluatePre_inv in Hd as (st3 & Hq & _ & Hd). apply pre_sameFast in Hd.
    etrans; [by apply quiet_sameFast|]. etrans; [exact Hd|by apply quiet_sameFast].
  - right. split; [intros E'; rewrite E' in E; set_solver|]. exists st1. split; [by apply quiet_sameFast|]. left.
    etrans; by apply quiet_sameFast.
Qed.

(** ** What holds of the turn *)

Definition contractOf st : Contract := mkContract st.(Root_FastPathTarget) st.(Root_FastPathVerifier).

Record traced log st : Prop := {
  traced_active : st.(Root_FastPathActive) = true → ∃ rest, frozen log (contractOf st) rest ∧
    (st.(Root_FastPathEdited) = true → ∃ rest1 e rest2, rest = rest1 ++ e :: rest2 ∧ edits (contractOf st) e.1);
  traced_verified : st.(Root_VerifiedStop) = true → earned log;
}.

Lemma traced_same log st st' : sameFast st st' → traced log st → traced log st'.
Proof.
  intros [Hf Hv] [H1 H2]. injection Hf as Ea Et Ev Ee Ed. split; unfold contractOf; rewrite ?Ea, ?Et, ?Ev, ?Ee, ?Hv; [exact H1|exact H2].
Qed.

Lemma traced_snoc log st hook d : ¬ isPrompt hook → traced log st → traced (log ++ [(hook, d)]) st.
Proof.
  intros Hp [H1 H2]. split.
  - intros Ha. destruct (H1 Ha) as (rest & Hf & He). exists (rest ++ [(hook, d)]). split; [by apply frozen_snoc|].
    intros Hed. destruct (He Hed) as (rest1 & e & rest2 & -> & Hx). exists rest1, e, (rest2 ++ [(hook, d)]). by rewrite <- app_assoc.
  - intros Hv. by apply earned_snoc; [|apply H2].
Qed.

(** Recording a tool in a traced session. *)
Lemma traced_record env log st hook d : ¬ isPrompt hook → traced log st →
  traced (log ++ [(hook, d)]) (recordFastPath env hook st).
Proof.
  intros Hp Ht. pose proof (traced_snoc _ _ hook d Hp Ht) as Ht'. unfold recordFastPath. cbv zeta.
  destruct (negb _) eqn:Ea; [done|]. apply negb_false_iff, andb_true_iff in Ea as [Ev%String.eqb_eq Ea].
  destruct (traced_active _ _ Ht Ea) as (rest & Hf & Hed). pose proof (frozen_snoc _ _ _ hook d Hp Hf) as Hf'.
  destruct (existsb _ _) eqn:En.
  - destruct (fastPathTargetMatches env st hook) eqn:Em; [|done]. split; [|apply Ht']. intros _. exists (rest ++ [(hook, d)]). split; [done|].
    intros _. exists rest, (hook, d), []. split; [done|]. split; [done|]. split; [|by exists env, st].
    cbn [fst]. apply existsb_exists in En as (x & Hx & ->%String.eqb_eq). by apply list_elem_of_In.
  - destruct (String.eqb_spec (HookInput_ToolName hook) "Bash") as [Eb|]; [|done].
    destruct (fastPathReadOnlyDiffMatches env st hook); [by split; [exact (traced_active _ _ Ht')|exact (traced_verified _ _ Ht')]|].
    destruct (_ && _) eqn:Er; [|done]. rewrite !andb_true_iff, negb_true_iff, String.eqb_eq in Er. destruct Er as [[[Ee Ec] Es] Ei].
    destruct (Hed Ee) as (rest1 & e & rest2 & -> & Hx). split; [exact (traced_active _ _ Ht')|]. intros _.
    exists (contractOf st), rest1, e, rest2, (hook, d), []. split; [|split; [done|]].
    + rewrite <- app_assoc in Hf'. exact Hf'.
    + split_and!; [done..|cbn; by rewrite <- Ec|done].
Qed.

Lemma sessions_traced ops key :
  match (performAll config ops GateWorld_empty).(gw_states) !! key with
  | Some st => traced (sessionLog config key ops GateWorld_empty) st
  | None => sessionLog config key ops GateWorld_empty = []
  end.
Proof.
  apply session_induction.
  - intros sessionID now _. by split.
  - intros log st [H1 H2]. destruct (repair_fields st) as (_ & Ev & _ & _ & _ & _ & Ha & Et & Ever & Hed). split; [|by rewrite Ev].
    unfold contractOf. rewrite Et, Ever. intros H. destruct (H1 (Ha H)) as (rest & Hf & He). exists rest. split; [done|]. auto.
  - intros log st. by apply traced_same.
  - intros log st label st' Ht Hc. revert Ht. destruct Hc as [env hook st0 st1 d events H|input gateID acceptance now st0 st1 event H|sessionID gateID status now st0 st1 event _ H|sessionID gateID worker now st0 st1 event H];
      cbn; rewrite ?app_nil_r; intros Ht.
    + apply event_fast in H as [(Hp & st2 & st3 & H1 & H2 & H3)|(Hp & st2 & H1 & [H2|H2])].
      * apply (traced_same _ st3); [by apply quiet_sameFast|]. destruct H2 as [_ _ _ _ _ [Hv He] Hfast _ _]. split; [|by rewrite Hv].
        intros Ha. destruct (Hfast Ha) as (_ & _ & _ & Hparse). exists []. split; [|by rewrite He].
        exists log, hook, d. by split_and!.
      * apply (traced_same _ st2); [done|]. apply (traced_same _ st0); [done|]. by apply traced_snoc.
      * apply (traced_same _ _ _ H2). apply traced_record; [done|]. by apply (traced_same _ st0).
    + unfold declare in H. repeat apply bind_Ok in H as ([] & _ & H). injection H as <- _. by apply (traced_same _ st0).
    + unfold closeOpen in H. destruct (Root_OpenGate st0); [|done]. apply bind_Ok in H as ([] & _ & H). injection H as <- _. by apply (traced_same _ st0).
    + unfold acknowledge in H. repeat apply bind_Ok in H as ([] & _ & H). injection H as <- _. by apply (traced_same _ st0).
Qed.

(** C22: A verified stop is earned. If the tools of a session are stopped because its
    verifier passed, then after the last prompt of the user, which froze a target and a
    verifier, an edit of that target was recorded as a success, and after it a
    foreground run of exactly that verifier, which was not interrupted. *)
Theorem verified_stop_is_earned ops key st :
  (performAll config ops GateWorld_empty).(gw_states) !! key = Some st → st.(Root_VerifiedStop) = true →
  earned (sessionLog config key ops GateWorld_empty).
Proof. intros Hst Hv. pose proof (sessions_traced ops key) as H. rewrite Hst in H. by apply H. Qed.

End turns.

Lemma verified_stop_is_earned_witness :
  (sampleState fastTurn).(Root_VerifiedStop) = true ∧ earned (sessionLog sample_config "root.json" fastTurn GateWorld_empty).
Proof.
  destruct sample_fast_state as (Hst & Hv). split; [exact Hv|]. exact (verified_stop_is_earned sample_config fastTurn "root.json" _ Hst Hv).
Defined.

(** Overrides of the Supervisor gate: however the events and operations of a session
    interleave, an override that was issued allows at most three uses of a tool. *)

Section override.
Context {golib : GoLib} {lib : GateLib} (config : GateConfig).
Abbreviation cfg := (normalizeConfig config).
Implicit Types (st : RootState) (env : HookEnv) (hook : HookInput) (log : list (HookInput * GateDecision)).

(** The decisions of a log with a state. *)
Definition counted (name : string) log : Z := Z.of_nat (length (List.filter (λ e : HookInput * GateDecision, e.2.(GateDecision_State) == name) log)).

Lemma counted_snoc name log hook d :
  counted name (log ++ [(hook, d)]) = (counted name log + if d.(GateDecision_State) == name then 1 else 0)%Z.
Proof. unfold counted. rewrite List.filter_app, length_app. cbn. destruct (_ == _); cbn; lia. Qed.

Lemma budgets_state env hook st : (evaluateBudgets cfg env hook st).(GateDecision_State) ≠ "override_allow".
Proof.
  unfold evaluateBudgets. cbv zeta. destruct (_ && _); [done|].
  destruct (bashBudget hook st) as [d|] eqn:E; [unfold bashBudget in E; cbv zeta in E; repeat case_match; simplify_eq; done|].
  destruct (stickyBlock hook st) as [d|] eqn:E1; [unfold stickyBlock in E1; cbv zeta in E1; repeat case_match; simplify_eq; done|].
  destruct (verifyBudget cfg hook st) as [d|] eqn:E2; [unfold verifyBudget in E2; cbv zeta in E2; repeat case_match; simplify_eq; done|].
  destruct (playwrightBudget cfg hook st) as [d|] eqn:E3; [unfold playwrightBudget in E3; case_match; simplify_eq; done|].
  destruct (screenshotBudget cfg hook st) as [d|] eqn:E4; [unfold screenshotBudget in E4; case_match; simplify_eq; done|].
  destruct (highCostBudget cfg hook st) as [d|] eqn:E5; [unfold highCostBudget in E5; case_match; simplify_eq; done|].
  by repeat case_match.
Qed.

(** Deciding on a tool consumes an action exactly when the override allows it. *)
Lemma pre_lease env hook st st' d : pre_case config env hook st st' d → live st →
  leaseActions st = (leaseActions st' + if d.(GateDecision_State) == "override_allow" then 1 else 0)%Z.
Proof.
  intros Hpre Hl. destruct Hpre; try (rewrite (proj2 (String.eqb_neq _ "override_allow")); [lia|]).
  - subst. by destruct (isVerifiedStopControl _).
  - apply fast_state.
  - done.
  - done.
  - apply coveringLease_inv in H2 as (Ho & _). specialize (Hl _ Ho). unfold leaseActions, consumeOverride. cbn. rewrite Ho.
    destruct (Z.leb_spec (OverrideLease_RemainingActions lease - 1) 0); cbn; lia.
  - subst. by destruct (handoffBlocks _).
  - apply budgets_state.
Qed.

Lemma recorded_state env hook st st' d : recordTool cfg env hook st = (st', d) → d.(GateDecision_State) ≠ "override_allow".
Proof.
  unfold recordTool. cbv zeta. destruct (applyContextPressure _ _) as [st1 pressure]. destruct (isControlTool _); intros [= _ <-].
  - by destruct (_ == "soft").
  - by destruct (Root_VerifiedStop _).
Qed.

(** How an event changes the actions an override still allows. *)
Lemma event_lease env hook st st' d events : processEvent cfg env hook st = (st', d, events) →
  (leaseActions st' + (if d.(GateDecision_State) == "override_allow" then 1 else 0) ≤
   leaseActions st + if d.(GateDecision_State) == "override_issued" then overrideMaxActs else 0)%Z.
Proof.
  intros H. pose proof H as (st1 & st2 & d2 & events2 & H1 & Hd & H2 & _ & Hs)%processEvent_inv. pose proof (leaseActions_pos st) as Hpos.
  pose proof (quiet_override _ _ H1) as L1. pose proof (quiet_override _ _ H2) as L2. pose proof (leaseActions_pos st1).
  assert (0 ≤ if GateDecision_State d == "override_issued" then overrideMaxActs else 0)%Z as Hi by by destruct (_ == _).
  apply dispatch_cases in Hd as [(E & d0 & Hd & _ & Es)|[(E & Hd)|[(E & Hd)|(E & Hq & _ & Hr)]]].
  - apply handleUserPrompt_inv in Hd as []. rewrite Hs, Es in *. destruct prompted_override as [(E1 & E2 & _)|(E2 & E1)].
    + rewrite E1. cbn. lia.
    + rewrite (proj2 (String.eqb_neq _ "override_allow")); [lia|]. intros E3. rewrite E3 in E1. set_solver.
  - rewrite Hs in *. apply recorded_state in Hd as Hn. apply recordTool_recording, recording_override in Hd.
    rewrite (proj2 (String.eqb_neq _ "override_allow")) by done. lia.
  - destruct (pre_event _ _ _ _ _ _ _ H E) as (st3 & st4 & d4 & Hq & Hl & Hpre & Hq' & _ & Hs'). rewrite Hs' in *.
    apply pre_lease in Hpre; [|done]. pose proof (quiet_override _ _ Hq). pose proof (quiet_override _ _ Hq'). lia.
  - rewrite Hs in *. pose proof (quiet_override _ _ Hq).
    rewrite (proj2 (String.eqb_neq _ "override_allow")); [lia|]. intros E3. rewrite E3 in Hr. set_solver.
Qed.

Abbreviation after ops := (performAll config ops GateWorld_empty).
Abbreviation logOf key ops := (sessionLog config key ops GateWorld_empty).

Definition paid log st : Prop := (counted "override_allow" log + leaseActions st ≤ overrideMaxActs * counted "override_issued" log)%Z.

Lemma paid_same log st st' : leaseActions st' = leaseActions st → paid log st → paid log st'.
Proof. unfold paid. by intros ->. Qed.

Lemma sessions_paid ops key :
  match (after ops).(gw_states) !! key with Some st => paid (logOf key ops) st | None => logOf key ops = [] end.
Proof.
  apply session_induction.
  - done.
  - intros log st. apply paid_same, (repair_fields st).
  - intros log st. by apply paid_same.
  - intros log st label st' Hp Hc. revert Hp. destruct Hc as [env hook st0 st1 d events H|input gateID acceptance now st0 st1 event H|sessionID gateID status now st0 st1 event _ H|sessionID gateID worker now st0 st1 event H];
      cbn; rewrite ?app_nil_r; intros Hp.
    + unfold paid in *. rewrite !counted_snoc. apply event_lease in H. unfold overrideMaxActs in *. destruct (_ == "override_issued"), (_ == "override_allow"); lia.
    + unfold declare in H. repeat apply bind_Ok in H as ([] & _ & H). injection H as <- _. by apply (paid_same _ st0).
    + unfold closeOpen in H. destruct (Root_OpenGate st0); [|done]. apply bind_Ok in H as ([] & _ & H). injection H as <- _. by apply (paid_same _ st0).
    + unfold acknowledge in H. repeat apply bind_Ok in H as ([] & _ & H). injection H as <- _. by apply (paid_same _ st0).
Qed.

(** C30: Overrides are bounded. In every session, at any time and whatever happened to its
    budgets, gates and handoff in between, the uses of tools that an override allowed are
    at most three for each override a prompt of the user issued. *)
Theorem overrides_are_bounded ops key :
  (counted "override_allow" (logOf key ops) ≤ overrideMaxActs * counted "override_issued" (logOf key ops))%Z.
Proof.
  pose proof (sessions_paid ops key) as H. destruct (gw_states _ !! key) as [st|]; [|by rewrite H].
  unfold paid in H. pose proof (leaseActions_pos st). lia.
Qed.

End override.

(** The gates of a session: every gate that was declared is in its history or open, under
    an identifier of its own, and a pending re-route stays until it is acknowledged. *)

Section gates.
Context {golib : GoLib} {lib : GateLib} (config : GateConfig).
Abbreviation cfg := (normalizeConfig config).
Implicit Types (st : RootState) (env : HookEnv) (hook : HookInput).
Abbreviation after ops := (performAll config ops GateWorld_empty).

Record accounted st : Prop := {
  accounted_used : st.(Root_UsedGateIDs) =
    (GateRecord_GateID <$> st.(Root_GateHistory)) ++ option_list (GateRecord_GateID <$> st.(Root_OpenGate));
  accounted_once : NoDup st.(Root_UsedGateIDs);
  accounted_bound : (Z.of_nat (length st.(Root_UsedGateIDs)) ≤ maxGatesPerRoot)%Z;
  accounted_open : GateRecord_Status <$> st.(Root_OpenGate) ∈ [None; Some "open"];
  accounted_closed : Forall (λ g, g.(GateRecord_Status) ≠ "open") st.(Root_GateHistory);
}.

Lemma accounted_same st st' : gates st' = gates st → accounted st → accounted st'.
Proof. intros Hg []. injection Hg as E1 E2 E3. split; by rewrite ?E1, ?E2, ?E3. Qed.

(** Using a tool only moves the counters of the open gate. *)
Lemma accounted_recording st st' : recording st st' → accounted st → accounted st'.
Proof.
  intros [_ [E1 E2] Eg _ _ _ _ _ _] [Hu Ho Hb Hs Hc].
  assert (GateRecord_GateID <$> Root_OpenGate st' = GateRecord_GateID <$> Root_OpenGate st ∧
          GateRecord_Status <$> Root_OpenGate st' = GateRecord_Status <$> Root_OpenGate st) as [E3 E4].
  { destruct (Root_OpenGate st'), (Root_OpenGate st); cbn in *; try done. injection Eg as -> -> _. done. }
  split; by rewrite ?E1, ?E2, ?E3, ?E4.
Qed.

Lemma accounted_declare input gateID acceptance now st st' event : declare input gateID acceptance now st = Ok (st', event) →
  accounted st → accounted st'.
Proof.
  unfold declare. cbv zeta. intros H [Hu Ho Hb Hs Hc]. apply bind_Ok in H as ([] & H1 & H). apply bind_Ok in H as ([] & H2 & H).
  apply bind_Ok in H as ([] & H3 & H). apply bind_Ok in H as ([] & _ & H). injection H as <- _.
  apply fail_if_Ok in H1, H2, H3. assert (Root_OpenGate st = None) as Hn.
  { unfold ofGate in H1. destruct (Root_OpenGate st) as [g|]; [|done]. cbn in Hs. apply elem_of_cons in Hs as [|[[= E]|[]%not_elem_of_nil]%elem_of_cons]; [done|]. by rewrite E in H1. }
  rewrite Hn in Hu. cbn in Hu. rewrite app_nil_r in Hu. split; cbn; [by rewrite Hu| | | |done].
  - apply NoDup_app. split_and!; [done| |apply NoDup_singleton]. intros id Hid ->%list_elem_of_singleton.
    unfold gateIDUsed in H2. assert (existsb (λ g, g == gateID) (Root_UsedGateIDs st) = true) as E; [|congruence].
    apply existsb_exists. exists gateID. split; [by apply list_elem_of_In|by apply String.eqb_eq].
  - rewrite length_app. cbn. apply Z.leb_gt in H3. lia.
  - set_solver.
Qed.

Lemma accounted_close sessionID gateID status now st st' event : status ≠ "open" → closeOpen sessionID gateID status now st = Ok (st', event) →
  accounted st → accounted st'.
Proof.
  unfold closeOpen. intros Hne H [Hu Ho Hb Hs Hc]. destruct (Root_OpenGate st) as [g|]; [|done].
  apply bind_Ok in H as ([] & _ & H). injection H as <- _. cbn in Hu. split; cbn; [|done|done|set_solver|].
  - rewrite fmap_app, app_nil_r. exact Hu.
  - apply Forall_app. split; [done|]. by constructor.
Qed.

Lemma accounted_change st label st' : change config st label st' → accounted st → accounted st'.
Proof.
  intros [env hook st0 st1 d events H|input gateID acceptance now st0 st1 event H|sessionID gateID status now st0 st1 event Hne H|sessionID gateID worker now st0 st1 event H] Ha.
  - apply event_cases in H as [(_ & st2 & st3 & H1 & H2 & H3)|[_ H]]; [|by eapply accounted_recording].
    apply (accounted_same st3); [by apply H3|]. apply (accounted_same st2); [by apply H2|]. apply (accounted_same st0); [by apply H1|done].
  - by eapply accounted_declare.
  - by eapply accounted_close.
  - unfold acknowledge in H. repeat apply bind_Ok in H as ([] & _ & H). injection H as <- _. by apply (accounted_same st0).
Qed.

(** C31: Gates are accounted for. After any events and operations, in any order, the gate
    identifiers of a session are those of the gates in its history and of the open one,
    in the order they were declared; none was used twice; there are at most eight; the
    open gate is the only one with the status open. *)
Theorem gates_are_accounted ops key st : (after ops).(gw_states) !! key = Some st → accounted st.
Proof.
  intros Hst. pose proof (session_induction config (λ _ st, accounted st) ops key) as H. rewrite Hst in H. apply H; clear.
  - intros sessionID now _. split; cbn; [done|constructor|done|set_solver|constructor].
  - intros _ st. apply accounted_same. by destruct (repair_fields st) as (_ & _ & _ & ? & _).
  - intros _ st. by apply accounted_same.
  - intros _ st label st' Ha Hc. by eapply accounted_change.
Qed.

(** An acknowledgement that names the open gate. *)
Definition acknowledged st st' : Prop := ∃ sessionID gateID worker now st0 event,
  acknowledge sessionID gateID worker now (repairLoaded st) = Ok (st0, event) ∧ st' = saved st0.

Lemma sticky_denies env hook st : st.(Root_StickyReroutePending) = true → isHighCost hook.(HookInput_ToolName) = true →
  (evaluateBudgets cfg env hook st).(GateDecision_Permission) = "deny".
Proof.
  intros Hs Hh. unfold evaluateBudgets. cbv zeta. destruct (_ && _); [done|].
  destruct (bashBudget hook st) as [d|] eqn:E; [unfold bashBudget in E; cbv zeta in E; repeat case_match; simplify_eq; done|].
  unfold stickyBlock. cbv zeta. by rewrite Hs, Hh.
Qed.

(** C32: A sticky re-route holds until it is acknowledged. Once the high-cost uses of the
    open gate made a re-route pending, it stays pending after every event and operation
    but an acknowledgement of the open gate; and until then a high-cost tool is allowed
    only if it is a control tool, if it consumes an override, or if the turn is on a Fast
    Path and the Fast Path allows the tool. *)
Theorem reroute_is_sticky ops op key st :
  (after ops).(gw_states) !! key = Some st → st.(Root_StickyReroutePending) = true →
  (∃ st', (perform config op (after ops)).(gw_states) !! key = Some st' ∧
     (st'.(Root_StickyReroutePending) = true ∨ acknowledged st st')) ∧
  ∀ hook d, decided config op (after ops) = Some (hook, d) → statePath hook.(HookInput_SessionID) = key →
    hook.(HookInput_HookEventName) = "PreToolUse" → isHighCost hook.(HookInput_ToolName) = true → d.(GateDecision_Permission) = "allow" →
    isControlTool hook.(HookInput_ToolName) = true ∨ d.(GateDecision_State) = "override_allow" ∨
    st.(Root_FastPathActive) = true ∧ hook.(HookInput_ToolName) ∈ fastTools ∧ d.(GateDecision_State) ∈ fastStates.
Proof.
  intros Hst Hv. destruct (perform_known config ops op key st Hst) as [[E Hne]|(st' & Hc & E)].
  { split; [exists st; auto|]. intros hook d Hd Hk. by destruct (Hne _ _ Hd). }
  destruct (repair_fields st) as (_ & _ & Es & _ & _ & _ & Hfast & _). rewrite <- Es in Hv. split.
  - exists (saved st'). split; [done|]. cbn. revert E. inversion Hc as [env hook st0 st1 d events H|input gateID acceptance now st0 st1 event H|sessionID gateID status now st0 st1 event _ H|sessionID gateID worker now st0 st1 event H]; subst; intros E.
    + left. apply event_cases in H as [(_ & st2 & st3 & Hq1 & Hq2 & Hq3)|[_ Hq]]; [|by apply Hq].
      by rewrite (quiet_sticky _ _ Hq3), (prompted_sticky _ _ _ _ _ Hq2), (quiet_sticky _ _ Hq1).
    + unfold declare in H. repeat apply bind_Ok in H as ([] & _ & H). injection H as <- _. by left.
    + unfold closeOpen in H. destruct (Root_OpenGate _); [|done]. apply bind_Ok in H as ([] & _ & H). injection H as <- _. by left.
    + right. by exists sessionID, gateID, worker, now, st', event.
  - intros hook d Hd _ Hev Hh Hal. rewrite Hd in Hc. inversion Hc as [env hook0 st0 st1 d0 events H| | |]; subst.
    destruct (pre_event _ _ _ _ _ _ _ H Hev) as (st1 & st2 & d' & Hq & Hl & Hpre & _ & Hp & Hs). rewrite Hp in Hal. rewrite Hs.
    rewrite <- (quiet_sticky _ _ Hq) in Hv. pose proof (quiet_fast _ _ Hq) as [= Ef _ _ _ _]. destruct Hpre.
    + subst. left. apply verified_control. by destruct (isVerifiedStopControl _).
    + right; right. split; [apply Hfast; congruence|]. split; [by eapply fast_allows|by apply fast_decides].
    + done.
    + by left.
    + by right; left.
    + subst. left. apply unblocked_control. by destruct (handoffBlocks _).
    + rewrite (sticky_denies env hook _ Hv Hh) in Hal. done.
Qed.

End gates.

(** ** On the samples *)

(** A gate, and four edits in it. *)
Definition working : list GateOp :=
  OpDeclare sample_hooks (mkDeclareGateInput "root" "g1" ["it works"] "done") 1000%Z ::
  concat (replicate 4 [asking "Edit" "file_path=a.go"; used "Edit" "file_path=a.go"]).

Lemma working_state : (sampleWorld working).(gw_states) !! "root.json" = Some (sampleState working) ∧
  (sampleState working).(Root_StickyReroutePending) = true ∧ (sampleState working).(Root_UsedGateIDs) = ["g1"].
Proof. split_and!; vm_compute; reflexivity. Qed.

Example working_blocked : decisionAfter working (asking "Edit" "file_path=a.go") = Some ("deny", "sticky_deny") ∧
  decisionAfter (working ++ [OpAck sample_hooks (mkAckRerouteInput "root" "g1" ["more"] "none" "") 1000%Z]) (asking "Edit" "file_path=a.go") =
    Some ("allow", "allow").
Proof. split; vm_compute; reflexivity. Qed.

(** On a Fast Path the pending re-route stops nothing. *)
Definition fastWorking : list GateOp := take 1 fastTurn ++
  OpDeclare sample_hooks (mkDeclareGateInput "root" "g1" ["it works"] "done") 1000%Z ::
  concat (replicate 4 [asking "Edit" "file_path=parser.go"; used "Edit" "file_path=parser.go"]).

Example fast_path_passes_reroute : (sampleState fastWorking).(Root_StickyReroutePending) = true ∧
  decisionAfter fastWorking (asking "Edit" "file_path=parser.go") = Some ("allow", "fast_path_edit_allow").
Proof. split; vm_compute; reflexivity. Qed.

Lemma gates_are_accounted_witness : accounted (sampleState working) ∧ (sampleState working).(Root_UsedGateIDs) = ["g1"].
Proof.
  destruct working_state as (Hst & _ & Hu). split; [|exact Hu]. exact (gates_are_accounted sample_config working "root.json" _ Hst).
Defined.

Lemma reroute_is_sticky_witness :
  (sampleState working).(Root_StickyReroutePending) = true ∧
  (∃ st', (perform sample_config compacting (sampleWorld working)).(gw_states) !! "root.json" = Some st' ∧
    (st'.(Root_StickyReroutePending) = true ∨ acknowledged (sampleState working) st')) ∧
  ∀ hook d, decided sample_config (asking "Edit" "file_path=a.go") (sampleWorld working) = Some (hook, d) →
    statePath hook.(HookInput_SessionID) = "root.json" → hook.(HookInput_HookEventName) = "PreToolUse" →
    isHighCost hook.(HookInput_ToolName) = true → d.(GateDecision_Permission) = "allow" →
    isControlTool hook.(HookInput_ToolName) = true ∨ d.(GateDecision_State) = "override_allow" ∨
    (sampleState working).(Root_FastPathActive) = true ∧ hook.(HookInput_ToolName) ∈ fastTools ∧ d.(GateDecision_State) ∈ fastStates.
Proof.
  destruct working_state as (Hst & Hs & _). split; [exact Hs|]. split.
  - exact (proj1 (reroute_is_sticky sample_config working compacting "root.json" _ Hst Hs)).
  - exact (proj2 (reroute_is_sticky sample_config working (asking "Edit" "file_path=a.go") "root.json" _ Hst Hs)).
Defined.
