(* ===== verification/HookBudgets.v ===== *)
(** The budgets of the Supervisor gate: the uses of a budgeted tool stay within its
    budget, as far as tools run one after the other. *)
From stdpp Require Import gmap.
From S2P Require Import Prelude Paths Process Environment SampleSystem HookData HookGate.
From S2P Require Import HookRun HookSystem HookSafety.

(** * Uses of tools *)

(** Before its use a tool is allowed, and afterwards the use is recorded; at most [k]
    tools are in use at once. A tool that was allowed may also never be used. *)
Section discipline.
Context (k : nat).

Inductive permit (x : HookInput * GateDecision) : list string → list string → Prop :=
  | permit_allowed names : x.1.(HookInput_HookEventName) = "PreToolUse" → x.2.(GateDecision_Permission) = "allow" →
      (length names < k)%nat → permit x names (names ++ [x.1.(HookInput_ToolName)])
  | permit_recorded names1 names2 :
      x.1.(HookInput_HookEventName) = "PostToolUse" ∨ x.1.(HookInput_HookEventName) = "PostToolUseFailure" →
      permit x (names1 ++ x.1.(HookInput_ToolName) :: names2) (names1 ++ names2)
  | permit_other names : x.1.(HookInput_HookEventName) ≠ "PostToolUse" → x.1.(HookInput_HookEventName) ≠ "PostToolUseFailure" →
      x.1.(HookInput_HookEventName) ≠ "PreToolUse" ∨ x.2.(GateDecision_Permission) ≠ "allow" → permit x names names.

Inductive disciplined : list (HookInput * GateDecision) → list string → Prop :=
  | disciplined_nil : disciplined [] []
  | disciplined_event log x names names' : disciplined log names → permit x names names' → disciplined (log ++ [x]) names'
  | disciplined_unused log names1 name names2 : disciplined log (names1 ++ name :: names2) → disciplined log (names1 ++ names2).

Lemma disciplined_bound log names : disciplined log names → (length names ≤ k)%nat.
Proof.
  induction 1 as [|log x names names' _ IH Hp|log names1 name names2 _ IH]; [cbn; lia|destruct Hp|]; rewrite ?length_app in *; cbn in *; lia.
Qed.

(** How many of the tools are of a kind. *)
Definition inUse (kind : string → bool) (names : list string) : Z := Z.of_nat (length (List.filter kind names)).

Lemma inUse_app kind names1 names2 : inUse kind (names1 ++ names2) = (inUse kind names1 + inUse kind names2)%Z.
Proof. unfold inUse. rewrite List.filter_app, length_app. lia. Qed.
Lemma inUse_one kind name : inUse kind [name] = if kind name then 1%Z else 0%Z.
Proof. unfold inUse. cbn. by destruct (kind name). Qed.
Lemma inUse_cons kind name names : inUse kind (name :: names) = ((if kind name then 1 else 0) + inUse kind names)%Z.
Proof. change (name :: names) with ([name] ++ names). by rewrite inUse_app, inUse_one. Qed.
Lemma inUse_bound kind names : (0 ≤ inUse kind names ≤ Z.of_nat (length names))%Z.
Proof. unfold inUse. pose proof (List.filter_length_le kind names). lia. Qed.

(** The last event of a disciplined log. *)
Lemma disciplined_snoc log x names' : disciplined (log ++ [x]) names' →
  ∃ names names0, disciplined log names ∧ permit x names names0 ∧ ∀ kind, (inUse kind names' ≤ inUse kind names0)%Z.
Proof.
  remember (log ++ [x]) as l eqn:E. intros H. revert log x E. induction H as [|log0 x0 names names' H _ Hp|log0 names1 name names2 _ IH]; intros log x E.
  - by destruct log.
  - apply app_inj_tail in E as [-> ->]. by exists names, names'.
  - destruct (IH _ _ E) as (names & names0 & H1 & H2 & H3). exists names, names0. split_and!; [done..|]. intros kind. specialize (H3 kind).
    rewrite inUse_app, inUse_cons in H3. rewrite inUse_app. destruct (kind name); lia.
Qed.

(** The tools in use after a log, if it follows the discipline. *)
Fixpoint without (name : string) (names : list string) : option (list string) :=
  match names with
  | [] => None
  | x :: names' => if x == name then Some names' else cons x <$> without name names'
  end.
Definition track (names : list string) (x : HookInput * GateDecision) : option (list string) :=
  let event := x.1.(HookInput_HookEventName) in
  if (event == "PostToolUse") || (event == "PostToolUseFailure") then without x.1.(HookInput_ToolName) names
  else if (event == "PreToolUse") && (x.2.(GateDecision_Permission) == "allow") then
    if (length names <? k)%nat then Some (names ++ [x.1.(HookInput_ToolName)]) else None
  else Some names.
Definition tracked : list (HookInput * GateDecision) → option (list string) := foldl (λ names x, names ← names; track names x) (Some []).

Lemma without_split name names names' : without name names = Some names' → ∃ l1 l2, names = l1 ++ name :: l2 ∧ names' = l1 ++ l2.
Proof.
  revert names'. induction names as [|x names IH]; cbn; [done|]. intros names'. destruct (String.eqb_spec x name) as [->|].
  - intros [= <-]. by exists [], names.
  - destruct (without name names) as [rest|] eqn:E; [|done]. intros [= <-]. destruct (IH _ eq_refl) as (l1 & l2 & -> & ->). by exists (x :: l1), l2.
Qed.

Lemma track_permit names x names' : track names x = Some names' → permit x names names'.
Proof.
  unfold track. cbv zeta. destruct (_ || _) eqn:E1.
  - intros (l1 & l2 & -> & ->)%without_split. apply permit_recorded. apply orb_true_iff in E1 as [E|E]; apply String.eqb_eq in E; auto.
  - apply orb_false_iff in E1 as [?%String.eqb_neq ?%String.eqb_neq]. destruct (_ && _) eqn:E2.
    + apply andb_true_iff in E2 as [?%String.eqb_eq ?%String.eqb_eq]. destruct (Nat.ltb_spec (length names) k); [|done]. intros [= <-]. by apply permit_allowed.
    + intros [= <-]. apply permit_other; [done..|]. apply andb_false_iff in E2 as [E|E]; apply String.eqb_neq in E; auto.
Qed.

Lemma tracked_disciplined log names : tracked log = Some names → disciplined log names.
Proof.
  revert names. induction log as [|x log IH] using rev_ind; [by intros names [= <-]; constructor|].
  intros names. unfold tracked. rewrite foldl_app. cbn. fold (tracked log). destruct (tracked log) as [names0|]; [|done]. cbn.
  intros H%track_permit. econstructor; [|exact H]. by apply IH.
Qed.

End discipline.

Section budgets.
Context {golib : GoLib} {lib : GateLib} (config : GateConfig).
Abbreviation cfg := (normalizeConfig config).
Implicit Types (st : RootState) (env : HookEnv) (hook : HookInput) (log : list (HookInput * GateDecision)).

Abbreviation after ops := (performAll config ops GateWorld_empty).
Abbreviation logOf key ops := (sessionLog config key ops GateWorld_empty).

(** Fast Path, overrides and the like never allow these tools. *)
Definition budgeted (kind : string → bool) name : bool := kind name && negb (isControlTool name).

(** An allowed use of a budgeted tool has passed its budget. *)
Lemma allowed_by_budget env hook st st' d : pre_case config env hook st st' d → d.(GateDecision_Permission) = "allow" →
  isControlTool hook.(HookInput_ToolName) = false → hook.(HookInput_ToolName) ∉ fastTools →
  evaluateBudgets cfg env hook st = d ∧ st' = st.
Proof.
  intros Hpre Hal Hc Hf. destruct Hpre; try done.
  - subst. destruct (isVerifiedStopControl _) eqn:E; [|done]. apply verified_control in E. congruence.
  - by apply fast_allows in Hal.
  - congruence.
  - exfalso. apply Hf. apply coveringLease_inv in H2 as (_ & _ & Hcov). unfold overrideCovers, overrideToolClass in Hcov. cbv zeta in Hcov.
    destruct ((HookInput_ToolName hook == "Edit") || (HookInput_ToolName hook == "Write")) eqn:E.
    + apply orb_true_iff in E as [->%String.eqb_eq| ->%String.eqb_eq]; set_solver.
    + destruct (String.eqb_spec (HookInput_ToolName hook) "Bash") as [->|]; [set_solver|done].
  - subst. destruct (handoffBlocks _) eqn:E; [done|]. apply unblocked_control in E. congruence.
Qed.

(** ** A budget *)

Section kind.
Context (kind : string → bool) (uses : RootState → Z) (max : Z).
Context (max_pos : (0 < max)%Z).
Context (kind_slow : ∀ name, name ∈ fastTools → kind name = false).
Context (uses_new : ∀ sessionID now, uses (newRootState sessionID now) = 0%Z).
Context (uses_same : ∀ st st', rootCounters st' = rootCounters st → uses st' = uses st).
Context (uses_counted : ∀ hook st, uses (countTool hook st) = (uses st + if kind hook.(HookInput_ToolName) then 1 else 0)%Z).
Context (uses_checked : ∀ env hook st, (evaluateBudgets cfg env hook st).(GateDecision_Permission) = "allow" →
  kind hook.(HookInput_ToolName) = true → (uses st < max)%Z).

Lemma uses_recorded env hook st st' d : recordTool cfg env hook st = (st', d) →
  uses st' = (uses st + if budgeted kind hook.(HookInput_ToolName) then 1 else 0)%Z.
Proof.
  intros (st1 & before & -> & Hq & H)%recordTool_inv.
  assert (uses before = uses st) as Eb.
  { rewrite (uses_same _ _ (quiet_counters _ _ Hq)). apply uses_same. unfold recordFastPath. cbv zeta.
    repeat match goal with |- context [if ?b then _ else _] => destruct b end; done. }
  unfold budgeted. destruct (isControlTool _); cbn [negb]; [subst; rewrite andb_false_r, Eb; lia|]. rewrite andb_true_r.
  rewrite (uses_same _ _ (quiet_counters _ _ H)), <- Eb, <- uses_counted. apply uses_same. unfold armSticky. cbv zeta. by destruct (_ && _).
Qed.

(** How an event changes the uses. *)
Lemma uses_event env hook st st' d events : processEvent cfg env hook st = (st', d, events) →
  uses st' = (uses st + if ((hook.(HookInput_HookEventName) == "PostToolUse") || (hook.(HookInput_HookEventName) == "PostToolUseFailure")) &&
                           budgeted kind hook.(HookInput_ToolName) then 1 else 0)%Z ∧
  (hook.(HookInput_HookEventName) = "PreToolUse" → d.(GateDecision_Permission) = "allow" → budgeted kind hook.(HookInput_ToolName) = true →
   (uses st < max)%Z).
Proof.
  intros (st1 & st2 & d2 & events2 & H1 & Hd & H2 & Hp & Hs)%processEvent_inv.
  rewrite (uses_same _ _ (quiet_counters _ _ H2)), <- (uses_same _ _ (quiet_counters _ _ H1)).
  apply dispatch_cases in Hd as [(E & d0 & Hd & _)|[(E & Hd)|[(E & Hd)|(E & Hq & _)]]].
  - rewrite E. cbn [String.eqb andb orb]. apply handleUserPrompt_inv in Hd as []. rewrite (uses_same _ _ prompted_counters). cbn. split; [lia|done].
  - apply uses_recorded in Hd. rewrite Hd. split; [|by destruct E as [-> | ->]]. destruct E as [-> | ->]; done.
  - rewrite E. apply evaluatePre_inv in Hd as (st3 & Hq & Hl & Hd). split.
    + cbn. rewrite <- (uses_same _ _ (quiet_counters _ _ Hq)). assert (rootCounters st2 = rootCounters st3) as Hc by by destruct Hd.
      rewrite (uses_same _ _ Hc). lia.
    + intros _ Hal [Hk Hc%negb_true_iff]%andb_true_iff. rewrite Hp in Hal.
      destruct (allowed_by_budget _ _ _ _ _ Hd Hal Hc) as [<- _]; [by intros Hf%kind_slow; congruence|].
      rewrite <- (uses_same _ _ (quiet_counters _ _ Hq)). by eapply uses_checked.
  - rewrite (uses_same _ _ (quiet_counters _ _ Hq)). split.
    + assert ((hook.(HookInput_HookEventName) == "PostToolUse") || (hook.(HookInput_HookEventName) == "PostToolUseFailure") = false) as ->; [|cbn; lia].
      apply orb_false_iff. split; apply String.eqb_neq; intros E'; rewrite E' in E; set_solver.
    + intros E'. rewrite E' in E. set_solver.
Qed.

Lemma uses_bounded ops key st n names : (1 ≤ n)%nat →
  (after ops).(gw_states) !! key = Some st → disciplined n (logOf key ops) names →
  (uses st + inUse (budgeted kind) names ≤ max + Z.of_nat n - 1)%Z.
Proof.
  intros Hn Hst Hd. pose proof (session_induction config (λ log st, ∀ names, disciplined n log names →
    (uses st + inUse (budgeted kind) names ≤ max + Z.of_nat n - 1)%Z) ops key) as H. rewrite Hst in H. apply H; [..|exact Hd]; clear H Hst Hd ops key st names.
  - intros sessionID now _ names Hd. rewrite uses_new. apply disciplined_bound in Hd. pose proof (inUse_bound (budgeted kind) names). lia.
  - intros log st IH names Hd. destruct (repair_fields st) as (_ & _ & _ & _ & Hc & _). rewrite (uses_same _ _ Hc). by apply IH.
  - intros log st IH names Hd. rewrite (uses_same st) by done. by apply IH.
  - intros log st label st' IH Hc. revert IH.
    destruct Hc as [env hook st0 st1 d events H|input gateID acceptance now st0 st1 event H|sessionID gateID status now st0 st1 event _ H|sessionID gateID worker now st0 st1 event H];
      cbn; rewrite ?app_nil_r; intros IH names Hd.
    + apply disciplined_snoc in Hd as (names0 & names1 & Hd & Hp & Hle). specialize (Hle (budgeted kind)). specialize (IH _ Hd).
      apply disciplined_bound in Hd. apply uses_event in H as [Hu Hb]. rewrite Hu. destruct Hp as [names0 Ev Hal Hk|names2 names3 Ev|names0 E1 E2 _]; cbn [fst snd] in *.
      * rewrite Ev. cbn. rewrite inUse_app, inUse_one in Hle. destruct (budgeted kind (HookInput_ToolName hook)) eqn:Ek; [|lia].
        specialize (Hb Ev Hal eq_refl). pose proof (inUse_bound (budgeted kind) names0). lia.
      * rewrite inUse_app, inUse_cons in IH. rewrite inUse_app in Hle.
        destruct Ev as [-> | ->]; cbn; destruct (budgeted kind (HookInput_ToolName hook)); lia.
      * apply String.eqb_neq in E1, E2. rewrite E1, E2. cbn. lia.
    + unfold declare in H. repeat apply bind_Ok in H as ([] & _ & H). injection H as <- _. rewrite (uses_same st0) by done. by apply IH.
    + unfold closeOpen in H. destruct (Root_OpenGate st0); [|done]. apply bind_Ok in H as ([] & _ & H). injection H as <- _. rewrite (uses_same st0) by done. by apply IH.
    + unfold acknowledge in H. repeat apply bind_Ok in H as ([] & _ & H). injection H as <- _. rewrite (uses_same st0) by done. by apply IH.
Qed.
End kind.

(** The counters of a tool. *)
Lemma countTool_counters hook st :
  (countTool hook st).(Root_PlaywrightCalls) = (st.(Root_PlaywrightCalls) + if isPlaywright hook.(HookInput_ToolName) then 1 else 0)%Z ∧
  (countTool hook st).(Root_ScreenshotCalls) = (st.(Root_ScreenshotCalls) + if isScreenshot hook.(HookInput_ToolName) then 1 else 0)%Z.
Proof.
  unfold countTool, countBash. cbv zeta. destruct (isPlaywright _), (isScreenshot _), (_ == "Bash"); cbn [orb];
    repeat match goal with |- context [if ?b then _ else _] => destruct b end; cbn; lia.
Qed.

(** A budget check that passed. *)
Lemma budgets_checked env hook st : (evaluateBudgets cfg env hook st).(GateDecision_Permission) = "allow" →
  (isPlaywright hook.(HookInput_ToolName) = true → (st.(Root_PlaywrightCalls) < cfg.(GateConfig_MaxPlaywright))%Z) ∧
  (isScreenshot hook.(HookInput_ToolName) = true → (st.(Root_ScreenshotCalls) < cfg.(GateConfig_MaxScreenshot))%Z).
Proof.
  unfold evaluateBudgets. cbv zeta. destruct (_ && _); [done|].
  destruct (bashBudget hook st) as [d|] eqn:E; [unfold bashBudget in E; cbv zeta in E; repeat case_match; simplify_eq; done|]. clear E.
  destruct (stickyBlock hook st) as [d|] eqn:E; [unfold stickyBlock in E; cbv zeta in E; repeat case_match; simplify_eq; done|]. clear E.
  destruct (verifyBudget cfg hook st) as [d|] eqn:E; [unfold verifyBudget in E; cbv zeta in E; repeat case_match; simplify_eq; done|]. clear E.
  destruct (playwrightBudget cfg hook st) as [d|] eqn:Ep; [unfold playwrightBudget in Ep; case_match; simplify_eq; done|].
  destruct (screenshotBudget cfg hook st) as [d|] eqn:Es; [unfold screenshotBudget in Es; case_match; simplify_eq; done|]. intros _.
  unfold playwrightBudget in Ep. unfold screenshotBudget in Es. split; intros Hk; rewrite Hk in *; cbn [andb] in *.
  - destruct (_ <=? _)%Z eqn:E in Ep; [done|]. by apply Z.leb_gt in E.
  - destruct (_ <=? _)%Z eqn:E in Es; [done|]. by apply Z.leb_gt in E.
Qed.

Lemma orPositive_pos value default : (0 < default)%Z → (0 < orPositive value default)%Z.
Proof. unfold orPositive. destruct (Z.leb_spec value 0); lia. Qed.

(** C29: Budgets hold. If at most [n] tools of a session are in use at once, and every
    use that is recorded was allowed before, then the browser calls of the session stay
    below its budget plus [n], and so do its screenshots; used one after the other, they
    stay within the budgets. *)
Theorem budgets_hold ops key st n names :
  (∀ name, name ∈ fastTools → isPlaywright name = false ∧ isScreenshot name = false) → (1 ≤ n)%nat →
  (after ops).(gw_states) !! key = Some st → disciplined n (logOf key ops) names →
  (st.(Root_PlaywrightCalls) ≤ cfg.(GateConfig_MaxPlaywright) + Z.of_nat n - 1)%Z ∧
  (st.(Root_ScreenshotCalls) ≤ cfg.(GateConfig_MaxScreenshot) + Z.of_nat n - 1)%Z.
Proof.
  intros Hslow Hn Hst Hd. split.
  - pose proof (uses_bounded isPlaywright Root_PlaywrightCalls cfg.(GateConfig_MaxPlaywright)) as H.
    pose proof (inUse_bound (budgeted isPlaywright) names). eapply Z.le_trans; [|eapply H; [..|exact Hn|exact Hst|exact Hd]]; [lia|by apply orPositive_pos|..].
    + intros name Hf. by destruct (Hslow _ Hf).
    + done.
    + intros st0 st1 E. by injection E.
    + intros hook st0. apply countTool_counters.
    + intros env hook st0 Hal Hk. by apply (budgets_checked env hook st0).
  - pose proof (uses_bounded isScreenshot Root_ScreenshotCalls cfg.(GateConfig_MaxScreenshot)) as H.
    pose proof (inUse_bound (budgeted isScreenshot) names). eapply Z.le_trans; [|eapply H; [..|exact Hn|exact Hst|exact Hd]]; [lia|by apply orPositive_pos|..].
    + intros name Hf. by destruct (Hslow _ Hf).
    + done.
    + intros st0 st1 E. by injection E.
    + intros hook st0. apply countTool_counters.
    + intros env hook st0 Hal Hk. by apply (budgets_checked env hook st0).
Qed.

End budgets.

Lemma browsing_state : (sampleWorld (browsing 2)).(gw_states) !! "root.json" = Some (sampleState (browsing 2)).
Proof. vm_compute. reflexivity. Qed.
Lemma browsing_tracked : tracked 1 (sessionLog sample_config "root.json" (browsing 2) GateWorld_empty) = Some [].
Proof. vm_compute. reflexivity. Qed.
Lemma browsing_slow name : name ∈ fastTools → isPlaywright name = false ∧ isScreenshot name = false.
Proof. revert name. apply Forall_forall. repeat constructor. Qed.

Lemma budgets_hold_witness :
  disciplined 1 (sessionLog sample_config "root.json" (browsing 2) GateWorld_empty) [] ∧
  ((sampleState (browsing 2)).(Root_PlaywrightCalls) ≤ 12)%Z ∧ ((sampleState (browsing 2)).(Root_ScreenshotCalls) ≤ 8)%Z.
Proof.
  pose proof (tracked_disciplined _ _ _ browsing_tracked) as Hd. split; [exact Hd|].
  exact (budgets_hold sample_config (browsing 2) "root.json" _ 1 [] browsing_slow (le_n 1) browsing_state Hd).
Defined.
